(* ===== verification/_CoqProject ===== *)
-Q . S2P
Prelude.v
RbTree.v
H2Stream.v
H2Ctx.v
H2Frame.v
H2Inv.v
H2Safety.v
H2Track.v
Skb.v
H2Process.v
HpackInt.v
HpackTbl.v
HuffTbl.v
Huffman.v
HuffEnc.v
HpackDec.v
HpackSpec.v
WorkQueue.v
Str.v
Hash.v
Pool.v
ApmStats.v
ApmCalc.v
ApmSess.v
Window.v
Frang.v
Addr.v
FrangReq.v
SchedHash.v
Gfsm.v
MpiMem.v
Mpi.v
MpiBin.v
MpiDiv.v
MpiDivSpec.v
MpiCalc.v
SchedRatio.v
RatioCalc.v
RatioSched.v
RatioPredict.v
RatioGroup.v
Tdb.v
Htrie.v
HtrieInv.v
HtrieSpec.v
HtrieFacts.v
Client.v
