(* ===== verification/Prelude.v ===== *)
(** * Tempesta FW, verified

    Tempesta FW is an HTTP accelerator and firewall inside the Linux kernel.  This
    library models its HTTP/2 front end (what happens to the bytes of a TLS
    connection between the TCP layer and the HTTP parser), the data structures
    this path is built on (strings of chunks, memory pools, the work queue), the
    limits that decide whether a client may go on (Frang), the engine that calls
    the modules of a connection (GFSM), the choice of a server connection by hash
    and by ratio, the database with the table of clients, the statistics of response
    times (APM), IP addresses and the big integers of the TLS library.

    ** The program

    - The TCP layer gives socket buffers (skbs) to [tfw_h2_frame_process()]
      ([fw/http_frame.c]).  It runs the byte-driven FSM [tfw_h2_frame_recv()] over
      the data of an skb ([ss_skb_process()], [fw/ss_skb.c]), splits the skb behind
      each frame, chops service bytes off and passes the payload of HEADERS,
      CONTINUATION and DATA frames to the HTTP layer.
    - The FSM calls a handler per frame type.  Handlers act on the connection
      context [TfwH2Ctx] ([fw/http_frame.h]): settings, windows, the tree of
      streams, the queue of closed streams; they send service frames (SETTINGS
      ACK, PING ACK, WINDOW_UPDATE, RST_STREAM, GOAWAY).
    - Every stream has a state machine ([tfw_h2_stream_fsm()],
      [fw/http_stream.c]); the streams of a connection are in a red-black tree.
    - The HTTP layer closes and unlinks streams through the operations which the
      frame layer exports, when it answers a request, between any two skbs.
    - The payload of HEADERS and CONTINUATION frames is a header block, decoded by
      the HPACK decoder [tfw_hpack_decode()] ([fw/hpack.c]) with its dynamic table,
      integer and Huffman decoding, which feeds names and values to the HTTP
      parser.  Responses use the coding direction.
    - Messages keep their text as chunked strings ([fw/str.c]) in a memory pool
      per message ([fw/pool.c]).  CPUs pass work to each other through a lock-free
      queue ([fw/work_queue.c]).
    - Frang ([fw/http_limits.c]) is called for new connections, TLS sessions,
      requests and responses.  It counts events of a client in rings of time
      slots and checks the parts of a request as they become complete; the
      settings come from the virtual host and location of the request.
    - APM ([fw/apm.c]) sums response times in buckets, a ring of time windows per
      server, and computes percentiles in a timer.
    - The modules that see the data of a connection (HTTP, TLS, Frang) are FSMs that
      hook on states of each other; the engine [fw/gfsm.c] dispatches data to
      them and runs the hooks.
    - A request goes to a server connection that a scheduler chooses; the hash
      scheduler ([fw/http_sched_hash.c]) keeps requests for one resource on one
      connection, the ratio scheduler ([fw/http_sched_ratio.c]) shares requests out
      among servers in proportion to configured weights or, by a timer, to response
      times that APM measured or that a linear regression predicts.
    - Tempesta DB ([db/core]) keeps clients, sessions and cached responses in
      memory-mapped files: a burst hash trie of index nodes and data blocks, which CPUs
      cut from pages of their own.  Clients ([fw/client.c]), the objects Frang counts for,
      are records of such a table, found by address and user agent.
    - Addresses ([fw/addr.c]) are printed for logs and keys, and parsed from the
      configuration and from the [Host] header, which Frang refuses when it is an
      IP address.
    - The TLS library computes with big integers ([tls/bignum.c]): arrays of 64-bit
      limbs, passed by pointer, with results stored over operands, on top of
      assembly loops ([tls/bignum_x86-64.S]).

    ** The files

    - [Prelude.v]: return codes, machine integers, byte buffers, the state monad
      [SM] with its outcome [Bug] (a [BUG()], a failed [BUG_ON], a read or write
      outside an array, a use of a freed object), the rules of its weakest
      precondition [wp], tactics and hints.
    - [RbTree.v]: the kernel's red-black tree as the class [RbLib] (its documented
      effect on the in-order sequence), the search and insertion loops of
      [fw/http_stream.c] on it.
    - [H2Stream.v]: [TfwStream], [tfw_h2_stream_fsm()] with one definition per
      group of states, the storage operations; the abstract request of RFC 7540
      and the refinement to it.
    - [H2Ctx.v]: [TfwH2Ctx] in a [World] of stream objects and requests; sending,
      stream creation, linking, unlinking, closing, freeing.
    - [H2Frame.v]: the handlers of the frame types and [tfw_h2_frame_recv()], one
      definition per state.
    - [H2Inv.v], [H2Safety.v], [H2Track.v]: the connection invariant [core] and
      that each operation, handler and FSM state keeps it; how many bytes of the
      current frame have been consumed.
    - [Skb.v]: [ss_skb_process()], [ss_skb_split()] on the kernel's [skb_split()] (class
      [SkbSplit]), [ss_skb_chop_head_tail()].
    - [H2Process.v]: [tfw_h2_frame_process()] and whole connections: skbs
      interleaved with calls of the HTTP layer (classes [Upper] and [UpperOk]).
    - [HpackInt.v]: [write_int()], [tfw_hpack_int_size()], the decoder's integer
      macros.
    - [HpackTbl.v]: the static table and the dynamic table of the decoder, a
      growing circular array ([tfw_hpack_add_index()], [tfw_hpack_find_index()],
      [tfw_hpack_set_length()]), against the list of RFC 7541.
    - [HuffTbl.v]: the generated tables of [fw/hpack_tbl.h]; [Huffman.v]: the
      table-driven decoder [tfw_huffman_decode()]; [HuffEnc.v]: the encoder
      [tfw_huffman_encode_string()] that works on 64-bit words.
    - [HpackDec.v]: the FSM [tfw_hpack_decode()], one definition per label;
      [HpackSpec.v]: header blocks as RFC 7541 defines them, the promise of the
      HTTP parser as the class [HdrParserOk], and the correctness of the decoder.
    - [WorkQueue.v]: [fw/work_queue.c] as a step relation in which producers on
      several CPUs and the consumer interleave between their memory accesses, and
      the abstract FIFO with tickets it refines.
    - [Str.v]: [TfwStr] ([fw/str.c], [fw/str.h]): copying, comparing, prefixes and
      suffixes, searching and appending chunks, against the concatenated text; the
      assembly routines that compare buffers are the class [StrSimd].
    - [Hash.v]: the CRC32 hash of buffers and of compound strings ([lib/hash.c],
      [fw/hash.c]).
    - [Pool.v]: [tfw_pool_alloc()], [tfw_pool_realloc()], [tfw_pool_free()] and the
      chunk list of [fw/pool.c] over a page allocator.
    - [ApmStats.v]: the buckets of response times, their ranges, extension and
      adjustment; [ApmCalc.v]: percentiles over the entries of a ring;
      [ApmSess.v]: the ring buffer with its timestamps, updates and the timer, as
      sequences of events.
    - [Window.v]: rings of time slots that are reset when reused, and what their
      sum means; [Frang.v]: the counters of clients (connections, TLS sessions,
      requests, responses) on it.
    - [Addr.v]: [tfw_addr_pton()] with the IPv4 and IPv6 parsers as the byte loops
      of [fw/addr.c], [tfw_addr_ntop()] and the printing of numbers.
    - [FrangReq.v]: the FSM of request checks [frang_http_req_process()], the
      [Host] and [Content-Type] checks, the choice of settings.
    - [SchedHash.v]: the sorted arrays of connections of a server group, their
      construction, and the search from the key of a request.
    - [SchedRatio.v]: the rotation of the ratio scheduler, against the dealing of
      tokens from a bag; [RatioCalc.v]: ratios from weights and response times, the
      kernel's [sort()] as the class [SortSpec]; [RatioSched.v]: the choice of a
      connection; [RatioPredict.v]: the regression; [RatioGroup.v]: groups and their
      memory, allocations that fail, timer functions.
    - [Gfsm.v]: [fw/gfsm.c] with handlers as arbitrary programs that call the engine,
      the registration of hooks, and the abstract machine on a finite map.
    - [MpiMem.v]: the store of big integers ([TlsMpi]), limb pointers, and the
      assembly kernels instruction by instruction; [Mpi.v]: the functions of
      [tls/bignum.c] from allocation to multiplication; [MpiBin.v]: import, export
      and bits; [MpiDiv.v], [MpiDivSpec.v]: division and remainder; [MpiCalc.v]:
      sequences of operations against a machine on unbounded integers.
    - [Tdb.v]: the mapping of a table as words of memory, with its allocators of pages,
      index nodes and data blocks; [Htrie.v]: the trie and the record interface
      ([db/core/htrie.c], [db/core/main.c]); [HtrieInv.v]: the invariant of a trie of
      large records; [HtrieSpec.v]: that it is a multimap, and the interface
      [GetAllocTable] to the users of a table; [HtrieFacts.v]: small and variable
      records and files that are more than half full.
    - [Client.v]: [fw/client.c] on that interface, with the interleaving of searches and
      releases.

    ** The theorems

    Each theorem's comment lists what it asks for; where the code does something else outside of
    these limits, it names the theorem that shows it.

    - Connections: from the initial state no sequence of skbs and HTTP-layer calls
      hits a [Bug], for any bytes and any failure of transmissions and allocations,
      above any HTTP layer that keeps [UpperOk]
      ([h2_session_safe]); one call of the FSM returns with progress and
      resumption facts ([h2_frame_recv_total]); the queue of closed streams loses
      exactly its excess ([closed_streams_shrink_correct]).
    - Streams: the FSM refines the abstract request ([stream_fsm_refines_request]),
      never goes back ([stream_fsm_lifecycle]); the tree is a finite map
      ([stream_storage_roundtrip]).
    - Socket buffers: splitting and chopping change exactly the bytes they should.
    - HPACK: integers, Huffman strings and tables implement RFC 7541, and whole
      header blocks that the decoder takes decode to the fields they denote
      ([hpack_block_decode]).
    - Work queue: every interleaving refines the FIFO ([wq_refines_fifo]) and the
      consumer never sleeps on a non-empty queue ([wq_no_lost_wakeup]).
    - Strings, hashes and pools: the operations on chunks compute the operations on
      the text they hold ([strcmp_correct] and its group, [hash_str_correct]); live
      blocks of a pool never overlap, also behind cleanings ([pool_disjoint]).
    - APM: counts, sums and ranges are kept through any sequence of times
      ([apm_ranges_invariant]); the ring stays consistent through any sequence of events and the
      timer publishes when there is something new ([apm_session_safe]); percentiles are those of
      the recorded values as far as the buckets resolve them ([apm_percentiles_correct]).
    - Frang: the counters decide on connections and requests as the list of events of a time
      window does, and block each TLS handshake that it condemns ([frang_limits_refine]); a
      request that passes obeys the limits ([frang_request_sound]).
    - GFSM: the engine refines the abstract machine for handlers that move their own FSM, with nesting
      bounded by the number of FSMs, when the priorities of hooks have no gaps ([gfsm_refines]); a
      hook gets the first free priority, and full states and unregistered FSMs are refused
      ([gfsm_register_correct]).
    - Hash scheduler: building the arrays ends and they hold every connection once
      ([sched_hash_build]); a request goes to the first suitable connection in an
      order that depends on its key only, so the requests of a key stay
      together ([sched_hash_choice]).
    - Ratio scheduler: every server gets its share of the requests, and a slow server
      never more than a fast one ([ratio_static_fair], [ratio_dynamic_fair]); a
      connection is found when there is one ([ratio_srv_conn_complete],
      [ratio_sg_conn_sound]); response times that change linearly are extrapolated exactly
      ([ratio_predict_linear]); groups leak nothing and free nothing twice
      ([ratio_group_memory]).
    - Database: blocks handed out never overlap ([tdb_alloc_disjoint]); a table of large
      records is a multimap ([tdb_trie_multimap]) in which a record is found or added
      ([tdb_get_alloc_first]) and all are visited ([tdb_walk_complete]).
    - Clients: there is one client for an address, a forwarded address and a user agent
      ([client_identity]); users are the references that are held, a client in use does not expire, and an
      idle one expires behind its timeout ([client_in_use_stays]).
    - Addresses: printing and parsing are inverse where the printer is right
      ([addr_roundtrip]).
    - Big integers: whatever operations follow each other, with the aliasing the
      callers use, they compute the integers they stand for
      ([mpi_program_refines]); division is exact where partial remainders are long
      enough ([mpi_div_correct]) and so is its digit step ([mpi_int_div_exact]);
      numbers and byte strings correspond ([mpi_binary_roundtrip]).
    - Theorems named after a defect evaluate the code on an input where it does not
      do what it should.

    ** Bounds and fuel

    A jump of the frame FSM follows the reading of at least one byte: its fuel is
    one step per byte and one more, and the proofs show that it never runs out.  The
    loop of [tfw_h2_frame_process()] consumes bytes in each
    round.  Eviction loops have the number of entries as fuel, the Huffman loops
    the number of bits, the HPACK FSM the number of bytes; the loops over chunks
    the number of chunks or bytes of both strings.  Extending a range of buckets
    takes at most 33 orders, as the values have 32 bits; merging takes 64 rounds
    per ring entry.  The IPv6 loop has the number of bytes and chunks, the copy
    of its words 17 rounds, as each round lowers one of two indices that start at 7.
    In every theorem the result is shown to be reached.  [gfsm_exec] has the depth of nested handlers as fuel, five being
    enough for five FSMs; drawing hashes takes at most one round more than there are
    connections, as the drawn hashes differ; the ratio scheduler passes at most twice
    over the servers before one has its turn.  A trie has 16 levels, a chain of buckets not
    more than the file has data blocks.  In a division of big integers the guess
    of a digit is corrected at most twice in [ttls_int_div_int()] and less than eight
    times in the loop over two limbs, the first digit is below 4, and the remainder
    needs one addition and one subtraction; a carry of a product ends within the
    limbs of the product.

    ** What is not modelled

    Locks and per-CPU structures: a locked section is one step, the work queue
    apart, whose accesses are single steps; memory that is freed after a grace
    period of RCU is freed at once.  The HTTP parser, the message layer,
    the TLS protocol, sockets, the cache, configuration and statistics are
    outside; where they meet the model they are parameters.  Of [fw/hpack.c] the
    decoding of cached responses and the index tree of the encoder are not
    modelled yet, of [fw/http_frame.c] the clean-up of a closed connection, of
    [fw/apm.c] the health monitor and the configuration, of [db/core] the files, the list
    of tables and the netlink interface, of [tls/bignum.c] the
    Montgomery exponentiation, the gcd and the modular inversion; the pages which
    temporary big integers are cut from are an allocator of fresh objects.  The bitmaps of the
    extents of a table are a map beside the modelled memory, so [tdb_alloc_disjoint] keeps blocks apart
    from each other and from the header, not from the bitmaps.  Adding to the decoder's dynamic
    table leaves out the pages of [h_pool] that eviction gives back; the table of the HPACK encoder,
    which SETTINGS resize, is not part of a connection. *)


From stdpp Require Export base numbers list gmap.
From Stdlib Require Export ZArith Lia.

#[global] Open Scope Z_scope.

(** ** Return codes ([lib/log.h]) *)

Definition T_OK : Z := 0.
Definition T_POSTPONE : Z := -1.
Definition T_DROP : Z := -2.
Definition T_BAD : Z := -3.

(** Error numbers of the kernel. *)
Definition EIO : Z := 5.
Definition ENOMEM : Z := 12.
Definition EFAULT : Z := 14.
Definition EINVAL : Z := 22.

(** Overhead of an entry of an HPACK table ([fw/hpack.c]). *)
Definition HPACK_ENTRY_OVERHEAD : Z := 32.

(** ** Machine-width integers

    A C value is a [Z]; the width is written out where the code can leave
    it.  [u8], [u16], [u32] and [u64] are the conversions to the unsigned
    types and [s32] is the conversion to [int]. *)

Definition u8 (z : Z) : Z := z mod 2 ^ 8.
Definition u16 (z : Z) : Z := z mod 2 ^ 16.
Definition u32 (z : Z) : Z := z mod 2 ^ 32.
Definition u64 (z : Z) : Z := z mod 2 ^ 64.
Definition s32 (z : Z) : Z := (z + 2 ^ 31) mod 2 ^ 32 - 2 ^ 31.

Definition s64 (z : Z) : Z := (z + 2 ^ 63) mod 2 ^ 64 - 2 ^ 63.

Definition is_u8 (z : Z) : Prop := 0 <= z < 2 ^ 8.
Definition is_u16 (z : Z) : Prop := 0 <= z < 2 ^ 16.
Definition is_u32 (z : Z) : Prop := 0 <= z < 2 ^ 32.
Definition is_u64 (z : Z) : Prop := 0 <= z < 2 ^ 64.

(** [flags & f] used as a C condition. *)
Definition has_flag (flags f : Z) : bool := negb (Z.land flags f =? 0).

(** A byte buffer: every element is an [unsigned char]. *)
Abbreviation bytes := (list Z).
Definition bytes_ok (l : bytes) : Prop := Forall is_u8 l.

Definition is_u8b (z : Z) : bool := (0 <=? z) && (z <? 256).

(** Length of a buffer as the C code sees it. *)
Definition zlen {A} (l : list A) : Z := Z.of_nat (length l).

(** ** Big-endian loads and stores ([ntohl], [ntohs], [htonl], [htons]) *)

Definition byte_at (b : bytes) (i : nat) : Z := default 0 (b !! i).

Definition ntohs_at (b : bytes) (i : nat) : Z :=
  byte_at b i * 2 ^ 8 + byte_at b (i + 1).

Definition ntohl_at (b : bytes) (i : nat) : Z :=
  byte_at b i * 2 ^ 24 + byte_at b (i + 1) * 2 ^ 16
  + byte_at b (i + 2) * 2 ^ 8 + byte_at b (i + 3).

Definition htons_bytes (v : Z) : bytes := [(v / 2 ^ 8) mod 256; v mod 256].

Definition htonl_bytes (v : Z) : bytes :=
  [(v / 2 ^ 24) mod 256; (v / 2 ^ 16) mod 256; (v / 2 ^ 8) mod 256; v mod 256].

(** ** Fallible state passing

    [SM S A] threads a state through code that may hit a [BUG()], a failed
    [BUG_ON] or a dereference of a freed object: all three are [Bug], the
    outcome the safety theorems exclude. *)

Inductive outcome (A : Type) : Type :=
| Ok (a : A)
| Bug.
Arguments Ok {A} a.
Arguments Bug {A}.

Notation "'let!' x := m 'in' k" := (match m with Ok x => k | Bug => Bug end)
  (at level 200, x pattern, m at level 100, k at level 200).
Notation "'let?' x := m 'in' k" := (match m with Some x => k | None => Bug end)
  (at level 200, x pattern, m at level 100, k at level 200).

Definition SM (S A : Type) : Type := S -> outcome (A * S).

Definition sm_ret {S A} (a : A) : SM S A := fun s => Ok (a, s).
Definition sm_bug {S A} : SM S A := fun _ => Bug.
Definition sm_bind {S A B} (m : SM S A) (k : A -> SM S B) : SM S B :=
  fun s => match m s with
           | Ok (a, s') => k a s'
           | Bug => Bug
           end.
Definition sm_get {S} : SM S S := fun s => Ok (s, s).
Definition sm_mod {S} (f : S -> S) : SM S unit := fun s => Ok (tt, f s).

Declare Scope sm_scope.
Delimit Scope sm_scope with sm.
Notation "x <~ m ;; k" := (sm_bind m (fun x => k))
  (at level 100, m at next level, right associativity) : sm_scope.
Notation "m ;;; k" := (sm_bind m (fun _ => k))
  (at level 100, right associativity) : sm_scope.
#[global] Open Scope sm_scope.

(** [BUG_ON(b)] *)
Definition bug_on {S} (b : bool) : SM S unit :=
  if b then sm_bug else sm_ret tt.

(** Total weakest precondition: [wp m Q s] says that [m] run from [s] hits
    no [Bug] and that its result and final state satisfy [Q]. *)
Definition wp {S A} (m : SM S A) (Q : A -> S -> Prop) (s : S) : Prop :=
  match m s with
  | Ok (a, s') => Q a s'
  | Bug => False
  end.

Section wp_rules.
Context {S : Type}.
Implicit Types (s : S).

Lemma wp_ret {A} (a : A) (Q : A -> S -> Prop) s : Q a s -> wp (sm_ret a) Q s.
Proof. done. Qed.

Lemma wp_bind {A B} (m : SM S A) (k : A -> SM S B) Q s :
  wp m (fun a => wp (k a) Q) s -> wp (x <~ m ;; k x) Q s.
Proof. unfold wp, sm_bind. destruct (m s) as [[a s']|]; done. Qed.

Lemma wp_bind_inv {A B} (m : SM S A) (k : A -> SM S B) Q s :
  wp (x <~ m ;; k x) Q s -> wp m (fun a => wp (k a) Q) s.
Proof. unfold wp, sm_bind. destruct (m s) as [[a s']|]; done. Qed.

(** A triple about the first two steps of three. *)
Lemma wp_seq2 {A B C} (m : SM S A) (k : SM S B) (k2 : SM S C) Q s :
  wp (m ;;; k) (fun _ => wp k2 Q) s -> wp (m ;;; k ;;; k2) Q s.
Proof.
  unfold wp, sm_bind. destruct (m s) as [[a s']|]; [| done].
  by destruct (k s') as [[b s'']|].
Qed.

Lemma wp_mono {A} (m : SM S A) (P Q : A -> S -> Prop) s :
  wp m P s -> (forall a s', P a s' -> Q a s') -> wp m Q s.
Proof. unfold wp. destruct (m s) as [[a s']|]; auto. Qed.

Lemma wp_conj {A} (m : SM S A) (P Q : A -> S -> Prop) s :
  wp m P s -> wp m Q s -> wp m (fun a s' => P a s' /\ Q a s') s.
Proof. unfold wp. destruct (m s) as [[a s']|]; auto. Qed.

Lemma wp_get (Q : S -> S -> Prop) s : Q s s -> wp sm_get Q s.
Proof. done. Qed.

Lemma wp_mod (f : S -> S) (Q : unit -> S -> Prop) s :
  Q tt (f s) -> wp (sm_mod f) Q s.
Proof. done. Qed.

Lemma wp_bug_on b (Q : unit -> S -> Prop) s :
  b = false -> Q tt s -> wp (bug_on b) Q s.
Proof. by intros ->. Qed.

Lemma wp_ok {A} (m : SM S A) Q s :
  wp m Q s -> exists a s', m s = Ok (a, s') /\ Q a s'.
Proof. unfold wp. destruct (m s) as [[a s']|]; [eauto | done]. Qed.

Lemma wp_ok_intro {A} (m : SM S A) (Q : A -> S -> Prop) s a s' :
  m s = Ok (a, s') -> Q a s' -> wp m Q s.
Proof. unfold wp. by intros ->. Qed.

(** Weakest liberal precondition: [Q] holds of whatever [m] returns, a [Bug]
    apart.  Used for facts that need no invariant; [wp_wlp] adds such a fact to
    a total triple. *)
Definition wlp {A} (m : SM S A) (Q : A -> S -> Prop) (s : S) : Prop :=
  match m s with
  | Ok (a, s') => Q a s'
  | Bug => True
  end.

Lemma wlp_bind {A B} (m : SM S A) (k : A -> SM S B) Q s :
  wlp m (fun a => wlp (k a) Q) s -> wlp (x <~ m ;; k x) Q s.
Proof. unfold wlp, sm_bind. destruct (m s) as [[a s']|]; done. Qed.

Lemma wlp_mono {A} (m : SM S A) (P Q : A -> S -> Prop) s :
  wlp m P s -> (forall a s', P a s' -> Q a s') -> wlp m Q s.
Proof. unfold wlp. destruct (m s) as [[a s']|]; auto. Qed.

Lemma wlp_true {A} (m : SM S A) (Q : A -> S -> Prop) s : (forall a s', Q a s') -> wlp m Q s.
Proof. unfold wlp. destruct (m s) as [[a s']|]; auto. Qed.

Lemma wp_wlp {A} (m : SM S A) (P Q : A -> S -> Prop) s :
  wp m P s -> wlp m Q s -> wp m (fun a s' => P a s' /\ Q a s') s.
Proof. unfold wp, wlp. destruct (m s) as [[a s']|]; auto. Qed.

Lemma wlp_bug_on b (Q : unit -> S -> Prop) s : Q tt s -> wlp (bug_on b) Q s.
Proof. by destruct b. Qed.
End wp_rules.

Ltac wlp_step :=
  lazymatch goal with
  | |- wlp (sm_ret _) _ _ => red; simpl
  | |- wlp sm_bug _ _ => exact I
  | |- wlp sm_get _ _ => red; simpl
  | |- wlp (sm_mod _) _ _ => red; simpl
  | |- wlp (bug_on _) _ _ => apply wlp_bug_on
  | |- wlp (sm_bind _ _) _ _ => apply wlp_bind
  | |- wlp (if ?b then _ else _) _ _ => destruct b eqn:?
  end.

(** One step of symbolic execution of a handler. *)
Ltac wp_step :=
  lazymatch goal with
  | |- wp (sm_ret _) _ _ => apply wp_ret
  | |- wp sm_get _ _ => apply wp_get
  | |- wp (sm_mod _) _ _ => apply wp_mod
  | |- wp (sm_bind _ _) _ _ => apply wp_bind
  | |- wp (if ?b then _ else _) _ _ => destruct b eqn:?
  end.

(** Split the boolean guards collected by [wp_step] into propositions. *)
Ltac bool_hyps :=
  repeat match goal with
  | H : _ && _ = true |- _ => apply andb_true_iff in H as [? ?]
  | H : _ || _ = false |- _ => apply orb_false_iff in H as [? ?]
  | H : negb _ = true |- _ => apply negb_true_iff in H
  | H : negb _ = false |- _ => apply negb_false_iff in H
  | H : (_ =? _) = true |- _ => apply Z.eqb_eq in H
  | H : (_ =? _) = false |- _ => apply Z.eqb_neq in H
  | H : (_ <? _) = true |- _ => apply Z.ltb_lt in H
  | H : (_ <? _) = false |- _ => apply Z.ltb_ge in H
  | H : (_ <=? _) = true |- _ => apply Z.leb_le in H
  | H : (_ <=? _) = false |- _ => apply Z.leb_gt in H
  end.

(** ** Shared lemmas *)

Create HintDb tfw.
Create Rewrite HintDb tfw.

Lemma u32_small z : is_u32 z -> u32 z = z.
Proof. apply Z.mod_small. Qed.

Lemma u32_range z : is_u32 (u32 z).
Proof. apply Z.mod_pos_bound. lia. Qed.

Lemma s32_small z : - 2 ^ 31 <= z < 2 ^ 31 -> s32 z = z.
Proof. intros H. unfold s32. rewrite Z.mod_small; lia. Qed.

Lemma s64_small z : - 2 ^ 63 <= z < 2 ^ 63 -> s64 z = z.
Proof. intros H. unfold s64. rewrite Z.mod_small; lia. Qed.

Lemma u64_small z : 0 <= z < 2 ^ 64 -> u64 z = z.
Proof. apply Z.mod_small. Qed.

Lemma u8_range z : is_u8 (u8 z).
Proof. apply Z.mod_pos_bound. lia. Qed.

Lemma pow2_pos n : 0 <= n -> 1 <= 2 ^ n.
Proof. intros. pose proof (Z.pow_pos_nonneg 2 n). lia. Qed.

Lemma land_ones_range z n : 0 <= n -> 0 <= Z.land z (Z.ones n) < 2 ^ n.
Proof.
  intros. rewrite Z.land_ones by done. apply Z.mod_pos_bound.
  by apply Z.pow_pos_nonneg.
Qed.

(** Bit fields that do not overlap. *)
Lemma land_low_high a b n : 0 <= n -> 0 <= a < 2 ^ n -> Z.land a (b * 2 ^ n) = 0.
Proof.
  intros Hn Ha. apply Z.bits_inj'. intros k Hk. rewrite Z.land_spec, Z.bits_0.
  destruct (Z.ltb_spec k n).
  - rewrite Z.mul_pow2_bits_low by done. apply andb_false_r.
  - rewrite <- (Z.mod_small a (2 ^ n)) by done. rewrite Z.mod_pow2_bits_high by lia. done.
Qed.

Lemma lor_low_high a b n : 0 <= n -> 0 <= a < 2 ^ n -> Z.lor a (b * 2 ^ n) = a + b * 2 ^ n.
Proof. intros. symmetry. apply Z.add_nocarry_lor. by apply land_low_high. Qed.

Lemma land_ones_small a n : 0 <= n -> 0 <= a < 2 ^ n -> Z.land a (Z.ones n) = a.
Proof. intros. rewrite Z.land_ones by done. by apply Z.mod_small. Qed.

Lemma has_flag_bit x k : 0 <= k -> has_flag x (2 ^ k) = Z.testbit x k.
Proof.
  intros Hk. unfold has_flag. destruct (Z.testbit x k) eqn:Hb.
  - apply negb_true_iff, Z.eqb_neq. intros H0. apply (f_equal (fun y => Z.testbit y k)) in H0.
    rewrite Z.land_spec, Hb, Z.pow2_bits_true, Z.bits_0 in H0 by done. done.
  - apply negb_false_iff, Z.eqb_eq, Z.bits_inj'. intros i Hi.
    rewrite Z.land_spec, Z.pow2_bits_eqb, Z.bits_0 by done.
    destruct (Z.eqb_spec k i) as [->|]; [by rewrite Hb | apply andb_false_r].
Qed.

Lemma lor_is_u8 a b : is_u8 a -> is_u8 b -> is_u8 (Z.lor a b).
Proof.
  unfold is_u8. intros Ha Hb.
  rewrite <- (land_ones_small a 8), <- (land_ones_small b 8), <- Z.land_lor_distr_l by lia.
  apply land_ones_range. lia.
Qed.

Lemma zlen_nonneg {A} (l : list A) : 0 <= zlen l.
Proof. unfold zlen. lia. Qed.

Lemma zlen_app {A} (l k : list A) : zlen (l ++ k) = zlen l + zlen k.
Proof. unfold zlen. rewrite length_app. lia. Qed.

Lemma zlen_drop {A} n (l : list A) : 0 <= n <= zlen l -> zlen (drop (Z.to_nat n) l) = zlen l - n.
Proof. unfold zlen. rewrite length_drop. lia. Qed.

Lemma zlen_take {A} n (l : list A) : 0 <= n <= zlen l -> zlen (take (Z.to_nat n) l) = n.
Proof. unfold zlen. rewrite length_take. lia. Qed.

Lemma zlen_to_nat {A} (l : list A) : Z.to_nat (zlen l) = length l.
Proof. unfold zlen. lia. Qed.

Lemma zlen_nil_inv {A} (l : list A) : zlen l = 0 -> l = [].
Proof. destruct l; [done |]. unfold zlen. simpl. lia. Qed.

(** Sums. *)
Definition zsum (l : list Z) : Z := foldr Z.add 0 l.

Lemma zsum_cons a l : zsum (a :: l) = a + zsum l.
Proof. done. Qed.

Lemma zsum_app l k : zsum (l ++ k) = zsum l + zsum k.
Proof. induction l as [|a l IH]; simpl; [done |]. rewrite IH. lia. Qed.

Lemma zsum_nonneg l : Forall (Z.le 0) l -> 0 <= zsum l.
Proof. induction 1; simpl; lia. Qed.

Lemma zsum_insert l i x v :
  l !! i = Some x -> zsum (<[i := v]> l) = zsum l - x + v.
Proof.
  intros Hi. rewrite <- (take_drop_middle l i x) at 2 by done.
  rewrite insert_take_drop by (by eapply lookup_lt_Some).
  rewrite !zsum_app. simpl. lia.
Qed.

Lemma zsum_elem l i x : Forall (Z.le 0) l -> l !! i = Some x -> x <= zsum l.
Proof.
  intros Hl Hi. pose proof (zsum_insert l i x 0 Hi) as He.
  assert (0 <= zsum (<[i := 0]> l)); [| lia].
  apply zsum_nonneg, Forall_insert; [done | lia].
Qed.

Lemma zsum_replicate_0 n : zsum (replicate n 0) = 0.
Proof. induction n; simpl; lia. Qed.

Lemma bytes_okb (l : bytes) : forallb is_u8b l = true -> bytes_ok l.
Proof.
  induction l as [|a l IH]; simpl; intros Hl; [by constructor |].
  apply andb_true_iff in Hl as [Ha Hl].
  apply Forall_cons. split; [| by apply IH]. unfold is_u8b in Ha. unfold is_u8. bool_hyps. lia.
Qed.

Lemma byte_at_range b i : bytes_ok b -> is_u8 (byte_at b i).
Proof.
  intros H. unfold byte_at. destruct (b !! i) eqn:E; simpl.
  - by eapply Forall_lookup_1 in H.
  - unfold is_u8. lia.
Qed.

Lemma ntohl_at_range b i : bytes_ok b -> is_u32 (ntohl_at b i).
Proof.
  intros H. unfold ntohl_at, is_u32.
  pose proof (byte_at_range b i H). pose proof (byte_at_range b (i + 1) H).
  pose proof (byte_at_range b (i + 2) H). pose proof (byte_at_range b (i + 3) H).
  unfold is_u8 in *. lia.
Qed.

Lemma htonl_bytes_ok v : bytes_ok (htonl_bytes v).
Proof.
  unfold htonl_bytes, bytes_ok, is_u8.
  repeat constructor; apply Z.mod_pos_bound; lia.
Qed.

Lemma htons_bytes_ok v : bytes_ok (htons_bytes v).
Proof.
  unfold htons_bytes, bytes_ok, is_u8.
  repeat constructor; apply Z.mod_pos_bound; lia.
Qed.

Lemma bytes4_decompose v :
  is_u32 v ->
  (v / 2 ^ 24) mod 256 * 2 ^ 24 + (v / 2 ^ 16) mod 256 * 2 ^ 16
  + (v / 2 ^ 8) mod 256 * 2 ^ 8 + v mod 256 = v.
Proof.
  unfold is_u32. intros H.
  change (2 ^ 24) with 16777216. change (2 ^ 16) with 65536.
  change (2 ^ 8) with 256. change (2 ^ 32) with 4294967296 in H.
  Z.div_mod_to_equations. lia.
Qed.

(** The load after the store is the identity on [unsigned int]. *)
Lemma ntohl_htonl v : is_u32 v -> ntohl_at (htonl_bytes v) 0 = v.
Proof. intros H. by apply bytes4_decompose. Qed.

(** Splitting the four digits of a big-endian word. *)
Lemma htonl_ntohl a b c d :
  is_u8 a -> is_u8 b -> is_u8 c -> is_u8 d ->
  htonl_bytes (ntohl_at [a; b; c; d] 0) = [a; b; c; d].
Proof.
  unfold is_u8, htonl_bytes, ntohl_at, byte_at. simpl. intros.
  change (2 ^ 8) with 256 in *.
  repeat f_equal; Z.div_mod_to_equations; lia.
Qed.

#[export] Hint Resolve u32_range u8_range byte_at_range ntohl_at_range
  htonl_bytes_ok htons_bytes_ok zlen_nonneg : tfw.
#[export] Hint Rewrite @zlen_app : tfw.
