(* ===== verification/RbTree.v ===== *)
(** The kernel red-black tree as HTTP/2 uses it.

    The tree links stream objects by address; the key of a node is read from
    the object it is embedded in, so a lookup dereferences every node on its
    path.  Rebalancing ([rb_insert_color]) and removal ([rb_erase]) belong to
    the Linux kernel: they are the operations of the class [RbLib], whose laws
    state their documented effect on the in-order sequence of nodes.  The
    search loops are the repository's own and are translated here; they are
    proved against the class only. *)

From S2P Require Import Prelude.
From stdpp Require Import sorting.
Local Open Scope Z_scope.

(** Address of a heap object. *)
Abbreviation ptr := positive.

Inductive rbtree : Type :=
| RbNull
| RbNode (l : rbtree) (p : ptr) (r : rbtree).

Fixpoint rb_nodes (t : rbtree) : list ptr :=
  match t with
  | RbNull => []
  | RbNode l p r => rb_nodes l ++ p :: rb_nodes r
  end.

(** ** The kernel's part *)

Class RbLib := {
  rb_insert_color : rbtree -> rbtree;
  rb_erase : ptr -> rbtree -> rbtree;
  rb_insert_color_nodes t : rb_nodes (rb_insert_color t) = rb_nodes t;
  rb_erase_nodes p t :
    p ∈ rb_nodes t ->
    rb_nodes (rb_erase p t) = filter (fun q => q <> p) (rb_nodes t);
}.

(** Link a fresh node at the end of a search path; [true] is [rb_right]. *)
Fixpoint rb_link_node (path : list bool) (p : ptr) (t : rbtree) : rbtree :=
  match t, path with
  | RbNull, _ => RbNode RbNull p RbNull
  | RbNode l q r, true :: path' => RbNode l q (rb_link_node path' p r)
  | RbNode l q r, false :: path' => RbNode (rb_link_node path' p l) q r
  | RbNode l q r, [] => t
  end.

(** ** The search loops *)

Section search.
Variable key : ptr -> option Z.

(** [while (node)] of [tfw_h2_find_stream()]. *)
Fixpoint rb_find (t : rbtree) (id : Z) : outcome (option ptr) :=
  match t with
  | RbNull => Ok None
  | RbNode l p r =>
      match key p with
      | None => Bug
      | Some k =>
          if id <? k then rb_find l id
          else if k <? id then rb_find r id
          else Ok (Some p)
      end
  end.

(** [while ( *new)] of [tfw_h2_add_stream()]: the path to the free link, or
    [None] when the key is already there. *)
Fixpoint rb_place (t : rbtree) (id : Z) : outcome (option (list bool)) :=
  match t with
  | RbNull => Ok (Some [])
  | RbNode l p r =>
      let go (d : bool) (o : outcome (option (list bool))) :=
        match o with
        | Ok (Some path) => Ok (Some (d :: path))
        | o' => o'
        end in
      match key p with
      | None => Bug
      | Some k =>
          if id <? k then go false (rb_place l id)
          else if k <? id then go true (rb_place r id)
          else Ok None
      end
  end.

(** ** Correctness of the loops on a search tree *)

Variable kid : ptr -> Z.

Definition rb_live (t : rbtree) : Prop :=
  forall p, p ∈ rb_nodes t -> key p = Some (kid p).

Definition rb_sorted (t : rbtree) : Prop :=
  StronglySorted Z.lt (kid <$> rb_nodes t).

Lemma rb_sorted_node l p r :
  rb_sorted (RbNode l p r) <->
  rb_sorted l /\ rb_sorted r /\
  (forall q, q ∈ rb_nodes l -> kid q < kid p) /\
  (forall q, q ∈ rb_nodes r -> kid p < kid q).
Proof.
  unfold rb_sorted. simpl. rewrite fmap_app, fmap_cons.
  split.
  - intros H.
    pose proof (StronglySorted_app_1_l _ _ _ H) as Hl.
    pose proof (StronglySorted_app_1_r _ _ _ H) as Hr.
    inversion Hr as [|? ? Hr' Hall]; subst.
    repeat split; try done.
    + intros q Hq. eapply StronglySorted_app_1_elem_of; [exact H | |].
      * apply list_elem_of_fmap. eauto.
      * apply list_elem_of_here.
    + intros q Hq. rewrite Forall_forall in Hall. apply Hall.
      apply list_elem_of_fmap. eauto.
  - intros (Hl & Hr & Hlp & Hpr).
    apply StronglySorted_app_2; [| done |].
    + intros x1 x2 Hx1 Hx2.
      apply list_elem_of_fmap in Hx1 as (q & -> & Hq).
      apply elem_of_cons in Hx2 as [-> | Hx2]; [by apply Hlp |].
      apply list_elem_of_fmap in Hx2 as (q' & -> & Hq').
      transitivity (kid p); auto.
    + constructor; [done |]. apply Forall_forall. intros x Hx.
      apply list_elem_of_fmap in Hx as (q & -> & Hq). auto.
Qed.

Lemma rb_live_node l p r :
  rb_live (RbNode l p r) -> rb_live l /\ key p = Some (kid p) /\ rb_live r.
Proof.
  unfold rb_live. simpl. intros H.
  repeat split; intros; apply H; set_solver.
Qed.

Lemma rb_find_spec t id :
  rb_live t -> rb_sorted t ->
  exists o, rb_find t id = Ok o /\
    match o with
    | Some p => p ∈ rb_nodes t /\ kid p = id
    | None => forall p, p ∈ rb_nodes t -> kid p <> id
    end.
Proof.
  induction t as [|l IHl p r IHr]; intros Hlive Hs.
  { exists None. split; [done |]. set_solver. }
  apply rb_live_node in Hlive as (Hll & Hp & Hlr).
  apply rb_sorted_node in Hs as (Hsl & Hsr & Hlt & Hgt).
  simpl. rewrite Hp.
  destruct (Z.ltb_spec id (kid p)); [| destruct (Z.ltb_spec (kid p) id)].
  - destruct (IHl Hll Hsl) as ([q|] & -> & Hq).
    + exists (Some q). set_solver.
    + exists None. split; [done |]. intros q Hin.
      apply elem_of_app in Hin as [?|Hin]; [by apply Hq |].
      apply elem_of_cons in Hin as [->|Hin]; [lia |].
      specialize (Hgt _ Hin). lia.
  - destruct (IHr Hlr Hsr) as ([q|] & -> & Hq).
    + exists (Some q). set_solver.
    + exists None. split; [done |]. intros q Hin.
      apply elem_of_app in Hin as [Hin|Hin]; [specialize (Hlt _ Hin); lia |].
      apply elem_of_cons in Hin as [->|Hin]; [lia | by apply Hq].
  - exists (Some p). split; [done |]. split; [set_solver | lia].
Qed.

Lemma rb_place_spec t id :
  rb_live t -> rb_sorted t ->
  exists o, rb_place t id = Ok o /\
    match o with
    | Some path =>
        exists a b, rb_nodes t = a ++ b /\
          (forall q, q ∈ a -> kid q < id) /\ (forall q, q ∈ b -> id < kid q) /\
          forall p, rb_nodes (rb_link_node path p t) = a ++ p :: b
    | None => exists p, p ∈ rb_nodes t /\ kid p = id
    end.
Proof.
  induction t as [|l IHl p r IHr]; intros Hlive Hs.
  { exists (Some []). split; [done |]. exists [], []. set_solver. }
  apply rb_live_node in Hlive as (Hll & Hp & Hlr).
  apply rb_sorted_node in Hs as (Hsl & Hsr & Hlt & Hgt).
  simpl. rewrite Hp.
  destruct (Z.ltb_spec id (kid p)); [| destruct (Z.ltb_spec (kid p) id)].
  - destruct (IHl Hll Hsl) as ([path|] & -> & Hq).
    + exists (Some (false :: path)). split; [done |].
      destruct Hq as (a & b & Hn & Ha & Hb & Hlink).
      exists a, (b ++ p :: rb_nodes r). rewrite Hn. split_and!; [by rewrite <- app_assoc | done | |].
      * intros q Hin. apply elem_of_app in Hin as [Hin|Hin]; [by apply Hb |].
        apply elem_of_cons in Hin as [->|Hin]; [done |].
        specialize (Hgt _ Hin). lia.
      * intros q. simpl. by rewrite Hlink, <- app_assoc.
    + exists None. split; [done |]. set_solver.
  - destruct (IHr Hlr Hsr) as ([path|] & -> & Hq).
    + exists (Some (true :: path)). split; [done |].
      destruct Hq as (a & b & Hn & Ha & Hb & Hlink).
      exists (rb_nodes l ++ p :: a), b. rewrite Hn. split_and!; [by rewrite <- app_assoc | | done |].
      * intros q Hin. apply elem_of_app in Hin as [Hin|Hin]; [specialize (Hlt _ Hin); lia |].
        apply elem_of_cons in Hin as [->|Hin]; [done | by apply Ha].
      * intros q. simpl. by rewrite Hlink, <- app_assoc.
    + exists None. split; [done |]. set_solver.
  - exists None. split; [done |]. exists p. split; [set_solver | lia].
Qed.

(** In-order insertion keeps the search order. *)
Lemma sorted_insert_mid a b p :
  StronglySorted Z.lt (kid <$> (a ++ b)) ->
  (forall q, q ∈ a -> kid q < kid p) -> (forall q, q ∈ b -> kid p < kid q) ->
  StronglySorted Z.lt (kid <$> (a ++ p :: b)).
Proof.
  intros H Ha Hb. rewrite fmap_app in *. rewrite fmap_cons.
  apply StronglySorted_app_2.
  - intros x1 x2 Hx1 Hx2.
    apply list_elem_of_fmap in Hx1 as (q & -> & Hq).
    apply elem_of_cons in Hx2 as [-> | Hx2]; [by apply Ha |].
    apply list_elem_of_fmap in Hx2 as (q' & -> & Hq').
    transitivity (kid p); auto.
  - by eapply StronglySorted_app_1_l.
  - constructor; [by eapply StronglySorted_app_1_r |].
    apply Forall_forall. intros x Hx.
    apply list_elem_of_fmap in Hx as (q & -> & Hq). auto.
Qed.

Lemma sorted_filter (P : ptr -> Prop) `{!forall p, Decision (P p)} l :
  StronglySorted Z.lt (kid <$> l) -> StronglySorted Z.lt (kid <$> filter P l).
Proof.
  induction l as [|p l IH]; [done |]. rewrite fmap_cons. intros Hs.
  inversion Hs as [|? ? Hl Hall]; subst.
  rewrite filter_cons. case_decide; [| by apply IH].
  rewrite fmap_cons. constructor; [by apply IH |].
  apply Forall_forall. intros x Hx. apply list_elem_of_fmap in Hx as (q & -> & Hq).
  apply list_elem_of_filter in Hq as [_ Hq].
  rewrite Forall_forall in Hall. apply Hall. apply list_elem_of_fmap. eauto.
Qed.

Lemma sorted_nodup l : StronglySorted Z.lt (kid <$> l) -> NoDup l.
Proof.
  induction l as [|p l IH]; [constructor |]. rewrite fmap_cons. intros H.
  inversion H as [|? ? Hl Hall]; subst. constructor; [| by apply IH].
  intros Hin. rewrite Forall_forall in Hall.
  specialize (Hall (kid p)). apply (Z.lt_irrefl (kid p)), Hall.
  apply list_elem_of_fmap. eauto.
Qed.

End search.

(** The keys of the nodes are all the search depends on. *)
Lemma rb_sorted_ext kid kid' t :
  (forall p, p ∈ rb_nodes t -> kid p = kid' p) ->
  rb_sorted kid t -> rb_sorted kid' t.
Proof.
  unfold rb_sorted. intros Heq H.
  replace (kid' <$> rb_nodes t) with (kid <$> rb_nodes t); [done |].
  apply list_fmap_ext. intros i x Hx. apply Heq. by eapply list_elem_of_lookup_2.
Qed.

(** ** A concrete library: no recolouring, removal by joining the children *)

Fixpoint rb_join (l r : rbtree) : rbtree :=
  match l with
  | RbNull => r
  | RbNode l1 p l2 => RbNode l1 p (rb_join l2 r)
  end.

Fixpoint rb_remove (p : ptr) (t : rbtree) : rbtree :=
  match t with
  | RbNull => RbNull
  | RbNode l q r =>
      if bool_decide (q = p) then rb_join (rb_remove p l) (rb_remove p r)
      else RbNode (rb_remove p l) q (rb_remove p r)
  end.

Lemma rb_join_nodes l r : rb_nodes (rb_join l r) = rb_nodes l ++ rb_nodes r.
Proof.
  induction l as [|l1 _ p l2 IH]; [done |]. simpl. by rewrite IH, <- app_assoc.
Qed.

Lemma rb_remove_nodes p t :
  rb_nodes (rb_remove p t) = filter (fun q => q <> p) (rb_nodes t).
Proof.
  induction t as [|l IHl q r IHr]; [done |]. simpl.
  rewrite filter_app, filter_cons. case_bool_decide; case_decide; try done.
  - by rewrite rb_join_nodes, IHl, IHr.
  - simpl. by rewrite IHl, IHr.
Qed.

#[export] Instance plain_rb : RbLib := {|
  rb_insert_color t := t;
  rb_erase := rb_remove;
  rb_insert_color_nodes t := eq_refl;
  rb_erase_nodes p t _ := rb_remove_nodes p t;
|}.
