(* ===== verification/H2Stream.v ===== *)
(** HTTP/2 streams ([fw/http_stream.h], [fw/http_stream.c]): the stream
    object, the per-stream state machine of RFC 7540 section 5.1 as the code
    implements it, and the red-black tree storage of the streams of a
    connection.  The stream spinlock makes each FSM call atomic. *)

From S2P Require Import Prelude RbTree.
From stdpp Require Import sorting.
Local Open Scope Z_scope.

(** ** Data *)

Inductive TfwStreamState : Type :=
| HTTP2_STREAM_LOC_RESERVED
| HTTP2_STREAM_REM_RESERVED
| HTTP2_STREAM_OPENED
| HTTP2_STREAM_CONT
| HTTP2_STREAM_CONT_CLOSED
| HTTP2_STREAM_LOC_CLOSED
| HTTP2_STREAM_REM_HALF_CLOSED
| HTTP2_STREAM_REM_CLOSED
| HTTP2_STREAM_CLOSED.

#[export] Instance TfwStreamState_eq_dec : EqDecision TfwStreamState.
Proof. solve_decision. Defined.

(** The value of the enumerator: the code compares states with [<]. *)
Definition stream_state_num (s : TfwStreamState) : Z :=
  match s with
  | HTTP2_STREAM_LOC_RESERVED => 0
  | HTTP2_STREAM_REM_RESERVED => 1
  | HTTP2_STREAM_OPENED => 2
  | HTTP2_STREAM_CONT => 3
  | HTTP2_STREAM_CONT_CLOSED => 4
  | HTTP2_STREAM_LOC_CLOSED => 5
  | HTTP2_STREAM_REM_HALF_CLOSED => 6
  | HTTP2_STREAM_REM_CLOSED => 7
  | HTTP2_STREAM_CLOSED => 8
  end.

Inductive TfwStreamFsmRes : Type :=
| STREAM_FSM_RES_OK
| STREAM_FSM_RES_TERM_CONN
| STREAM_FSM_RES_TERM_STREAM
| STREAM_FSM_RES_IGNORE.

#[export] Instance TfwStreamFsmRes_eq_dec : EqDecision TfwStreamFsmRes.
Proof. solve_decision. Defined.

Inductive TfwH2Err : Type :=
| HTTP2_ECODE_NO_ERROR
| HTTP2_ECODE_PROTO
| HTTP2_ECODE_INTERNAL
| HTTP2_ECODE_FLOW
| HTTP2_ECODE_SETTINGS_TIMEOUT
| HTTP2_ECODE_CLOSED
| HTTP2_ECODE_SIZE
| HTTP2_ECODE_REFUSED
| HTTP2_ECODE_CANCEL
| HTTP2_ECODE_COMPRESSION
| HTTP2_ECODE_CONNECT
| HTTP2_ECODE_ENHANCE_YOUR_CALM
| HTTP2_ECODE_INADEQUATE_SECURITY
| HTTP2_ECODE_HTTP_1_1_REQUIRED.

#[export] Instance TfwH2Err_eq_dec : EqDecision TfwH2Err.
Proof. solve_decision. Defined.

(** The code put on the wire. *)
Definition ecode (e : TfwH2Err) : Z :=
  match e with
  | HTTP2_ECODE_NO_ERROR => 0
  | HTTP2_ECODE_PROTO => 1
  | HTTP2_ECODE_INTERNAL => 2
  | HTTP2_ECODE_FLOW => 3
  | HTTP2_ECODE_SETTINGS_TIMEOUT => 4
  | HTTP2_ECODE_CLOSED => 5
  | HTTP2_ECODE_SIZE => 6
  | HTTP2_ECODE_REFUSED => 7
  | HTTP2_ECODE_CANCEL => 8
  | HTTP2_ECODE_COMPRESSION => 9
  | HTTP2_ECODE_CONNECT => 10
  | HTTP2_ECODE_ENHANCE_YOUR_CALM => 11
  | HTTP2_ECODE_INADEQUATE_SECURITY => 12
  | HTTP2_ECODE_HTTP_1_1_REQUIRED => 13
  end.

(** Frame types ([enum TfwFrameType]); a frame carries any [unsigned char]. *)
Definition HTTP2_DATA : Z := 0.
Definition HTTP2_HEADERS : Z := 1.
Definition HTTP2_PRIORITY : Z := 2.
Definition HTTP2_RST_STREAM : Z := 3.
Definition HTTP2_SETTINGS : Z := 4.
Definition HTTP2_PUSH_PROMISE : Z := 5.
Definition HTTP2_PING : Z := 6.
Definition HTTP2_GOAWAY : Z := 7.
Definition HTTP2_WINDOW_UPDATE : Z := 8.
Definition HTTP2_CONTINUATION : Z := 9.
Definition _HTTP2_UNDEFINED : Z := 10.

(** Frame flags ([enum TfwFrameFlag]). *)
Definition HTTP2_F_ACK : Z := 0x01.
Definition HTTP2_F_END_STREAM : Z := 0x01.
Definition HTTP2_F_END_HEADERS : Z := 0x04.
Definition HTTP2_F_PADDED : Z := 0x08.
Definition HTTP2_F_PRIORITY : Z := 0x20.

(** [TfwStream].  [node] and [hcl_node] are the intrusive links, represented
    by membership of the stream's address in the tree and in the queue of
    closed streams; [s_msg] is the address of the linked request. *)
Record TfwStream : Type := MkStream {
  s_id : Z;
  s_state : TfwStreamState;
  s_loc_wnd : Z;
  s_weight : Z;
  s_msg : option ptr;
}.

Definition set_s_state (v : TfwStreamState) (s : TfwStream) : TfwStream :=
  MkStream (s_id s) v (s_loc_wnd s) (s_weight s) (s_msg s).
Definition set_s_loc_wnd (v : Z) (s : TfwStream) : TfwStream :=
  MkStream (s_id s) (s_state s) v (s_weight s) (s_msg s).
Definition set_s_msg (v : option ptr) (s : TfwStream) : TfwStream :=
  MkStream (s_id s) (s_state s) (s_loc_wnd s) (s_weight s) v.

(** ** The stream FSM

    One definition per [case] of the [switch] of [tfw_h2_stream_fsm()]; each
    returns the new state, the result and the error code left in the caller's
    variable. *)

Definition fsm_out : Type := TfwStreamState * TfwStreamFsmRes * TfwH2Err.

Definition fsm_opened (type flags : Z) (send : bool) (err : TfwH2Err) : fsm_out :=
  if type =? HTTP2_HEADERS then
    let f := Z.land flags (Z.lor HTTP2_F_END_HEADERS HTTP2_F_END_STREAM) in
    if f =? Z.lor HTTP2_F_END_HEADERS HTTP2_F_END_STREAM then
      (HTTP2_STREAM_REM_HALF_CLOSED, STREAM_FSM_RES_OK, err)
    else if f =? HTTP2_F_END_HEADERS then
      (HTTP2_STREAM_OPENED, STREAM_FSM_RES_OK, err)
    else if f =? HTTP2_F_END_STREAM then
      (HTTP2_STREAM_CONT_CLOSED, STREAM_FSM_RES_OK, err)
    else (HTTP2_STREAM_CONT, STREAM_FSM_RES_OK, err)
  else if (type =? HTTP2_DATA) && has_flag flags HTTP2_F_END_STREAM then
    (HTTP2_STREAM_REM_HALF_CLOSED, STREAM_FSM_RES_OK, err)
  else if type =? HTTP2_RST_STREAM then
    (if send then HTTP2_STREAM_LOC_CLOSED else HTTP2_STREAM_CLOSED,
     STREAM_FSM_RES_OK, err)
  else if type =? HTTP2_CONTINUATION then
    (HTTP2_STREAM_OPENED, STREAM_FSM_RES_TERM_CONN, HTTP2_ECODE_PROTO)
  else (HTTP2_STREAM_OPENED, STREAM_FSM_RES_OK, err).

Definition fsm_cont (type flags : Z) (send : bool) (err : TfwH2Err) : fsm_out :=
  if send && (type =? HTTP2_RST_STREAM) then
    (HTTP2_STREAM_LOC_CLOSED, STREAM_FSM_RES_OK, err)
  else if negb (type =? HTTP2_CONTINUATION) then
    (HTTP2_STREAM_CONT, STREAM_FSM_RES_TERM_CONN, HTTP2_ECODE_PROTO)
  else if has_flag flags HTTP2_F_END_HEADERS then
    (HTTP2_STREAM_OPENED, STREAM_FSM_RES_OK, err)
  else (HTTP2_STREAM_CONT, STREAM_FSM_RES_OK, err).

Definition fsm_cont_closed (type flags : Z) (send : bool) (err : TfwH2Err) : fsm_out :=
  if send && (type =? HTTP2_RST_STREAM) then
    (HTTP2_STREAM_LOC_CLOSED, STREAM_FSM_RES_OK, err)
  else if negb (type =? HTTP2_CONTINUATION) then
    (HTTP2_STREAM_CONT_CLOSED, STREAM_FSM_RES_TERM_CONN, HTTP2_ECODE_PROTO)
  else if has_flag flags HTTP2_F_END_HEADERS then
    (HTTP2_STREAM_REM_HALF_CLOSED, STREAM_FSM_RES_OK, err)
  else (HTTP2_STREAM_CONT_CLOSED, STREAM_FSM_RES_OK, err).

Definition fsm_loc_closed (type flags : Z) (send : bool) (err : TfwH2Err) : fsm_out :=
  if type =? HTTP2_RST_STREAM then
    if send then (HTTP2_STREAM_LOC_CLOSED, STREAM_FSM_RES_IGNORE, err)
    else (HTTP2_STREAM_CLOSED, STREAM_FSM_RES_OK, err)
  else (HTTP2_STREAM_LOC_CLOSED, STREAM_FSM_RES_OK, err).

Definition fsm_rem_half_closed (type flags : Z) (send : bool) (err : TfwH2Err) : fsm_out :=
  if send && ((type =? HTTP2_RST_STREAM) || has_flag flags HTTP2_F_END_STREAM) then
    (HTTP2_STREAM_REM_CLOSED, STREAM_FSM_RES_OK, err)
  else if type =? HTTP2_CONTINUATION then
    (HTTP2_STREAM_REM_HALF_CLOSED, STREAM_FSM_RES_TERM_CONN, HTTP2_ECODE_PROTO)
  else if type =? HTTP2_RST_STREAM then
    (HTTP2_STREAM_CLOSED, STREAM_FSM_RES_OK, err)
  else if negb (type =? HTTP2_PRIORITY) && negb (type =? HTTP2_WINDOW_UPDATE) then
    (HTTP2_STREAM_REM_CLOSED, STREAM_FSM_RES_TERM_STREAM, HTTP2_ECODE_CLOSED)
  else (HTTP2_STREAM_REM_HALF_CLOSED, STREAM_FSM_RES_OK, err).

Definition fsm_rem_closed (type flags : Z) (send : bool) (err : TfwH2Err) : fsm_out :=
  if type =? HTTP2_PRIORITY then (HTTP2_STREAM_REM_CLOSED, STREAM_FSM_RES_OK, err)
  else if type =? HTTP2_CONTINUATION then
    (HTTP2_STREAM_REM_CLOSED, STREAM_FSM_RES_TERM_CONN, HTTP2_ECODE_PROTO)
  else (HTTP2_STREAM_REM_CLOSED, STREAM_FSM_RES_IGNORE, err).

(** The sending guard, before the [switch]. *)
Definition fsm_send_ignored (state : TfwStreamState) (flags : Z) : bool :=
  (stream_state_num state <? stream_state_num HTTP2_STREAM_REM_HALF_CLOSED)
  && has_flag flags HTTP2_F_END_STREAM.

Definition stream_fsm (state : TfwStreamState) (type flags : Z) (send : bool)
    (err : TfwH2Err) : outcome fsm_out :=
  if send && (negb (has_flag flags HTTP2_F_END_STREAM)
              && negb (type =? HTTP2_RST_STREAM)) then Bug
  else if send && fsm_send_ignored state flags then
    Ok (state, STREAM_FSM_RES_IGNORE, err)
  else
    match state with
    | HTTP2_STREAM_LOC_RESERVED | HTTP2_STREAM_REM_RESERVED => Bug
    | HTTP2_STREAM_OPENED => Ok (fsm_opened type flags send err)
    | HTTP2_STREAM_CONT => Ok (fsm_cont type flags send err)
    | HTTP2_STREAM_CONT_CLOSED => Ok (fsm_cont_closed type flags send err)
    | HTTP2_STREAM_LOC_CLOSED => Ok (fsm_loc_closed type flags send err)
    | HTTP2_STREAM_REM_HALF_CLOSED => Ok (fsm_rem_half_closed type flags send err)
    | HTTP2_STREAM_REM_CLOSED => Ok (fsm_rem_closed type flags send err)
    | HTTP2_STREAM_CLOSED =>
        if send then Ok (HTTP2_STREAM_CLOSED, STREAM_FSM_RES_IGNORE, err) else Bug
    end.

(** [tfw_h2_stream_fsm()] on a stream object ([None] is the [NULL] pointer). *)
Definition tfw_h2_stream_fsm (stream : option TfwStream) (type flags : Z)
    (send : bool) (err : TfwH2Err)
  : outcome (option TfwStream * TfwStreamFsmRes * TfwH2Err) :=
  match stream with
  | None => Ok (None, STREAM_FSM_RES_IGNORE, err)
  | Some s =>
      match stream_fsm (s_state s) type flags send err with
      | Ok (st, res, err') => Ok (Some (set_s_state st s), res, err')
      | Bug => Bug
      end
  end.

Definition tfw_h2_stream_req_complete (s : TfwStream) : bool :=
  bool_decide (s_state s = HTTP2_STREAM_REM_HALF_CLOSED).

Definition tfw_h2_stream_is_closed (s : TfwStream) : bool :=
  bool_decide (s_state s = HTTP2_STREAM_CLOSED).

(** ** Stream storage *)

Definition HTTP2_DEF_WEIGHT : Z := 16.

Definition tfw_h2_init_stream (id weight wnd : Z) : TfwStream :=
  {| s_id := id;
     s_state := HTTP2_STREAM_OPENED;
     s_loc_wnd := wnd;
     s_weight := if weight =? 0 then HTTP2_DEF_WEIGHT else weight;
     s_msg := None |}.

(** The stream objects allocated from [stream_cache], by address. *)
Abbreviation heap := (gmap ptr TfwStream).

Definition stream_key (h : heap) (p : ptr) : option Z := s_id <$> h !! p.

Definition tfw_h2_find_stream (h : heap) (t : rbtree) (id : Z) : outcome (option ptr) :=
  rb_find (stream_key h) t id.

(** [tfw_h2_add_stream()]: [alloc] is the address [kmem_cache_alloc()]
    returns, [None] when it fails. *)
Definition tfw_h2_add_stream `{RbLib} (h : heap) (t : rbtree) (alloc : option ptr)
    (id weight wnd : Z) : outcome (heap * rbtree * option ptr) :=
  match rb_place (stream_key h) t id with
  | Bug => Bug
  | Ok None => Ok (h, t, None)
  | Ok (Some path) =>
      match alloc with
      | None => Ok (h, t, None)
      | Some p =>
          Ok (<[p := tfw_h2_init_stream id weight wnd]> h,
              rb_insert_color (rb_link_node path p t), Some p)
      end
  end.

Definition tfw_h2_delete_stream (h : heap) (p : ptr) : heap := delete p h.

(** The dependency tree is not implemented by the code: these four functions
    have empty bodies. *)
Definition tfw_h2_find_stream_dep (t : rbtree) (id : Z) : Z := 0.

Definition tfw_h2_stop_stream `{RbLib} (t : rbtree) (p : ptr) : rbtree := rb_erase p t.

(** ** Flag tests *)

Lemma land_low8 f m : 0 <= m < 8 -> Z.land f m = Z.land (f mod 8) m.
Proof.
  intros Hm. change 8 with (2 ^ 3). rewrite <- (Z.land_ones f 3), <- Z.land_assoc by lia.
  f_equal. rewrite Z.land_comm, Z.land_ones, Z.mod_small by lia. done.
Qed.

Lemma headers_flags f :
  Z.land f (Z.lor HTTP2_F_END_HEADERS HTTP2_F_END_STREAM)
  = (if has_flag f HTTP2_F_END_HEADERS then 4 else 0)
    + (if has_flag f HTTP2_F_END_STREAM then 1 else 0).
Proof.
  unfold has_flag, HTTP2_F_END_HEADERS, HTTP2_F_END_STREAM. change (Z.lor 4 1) with 5.
  rewrite (land_low8 f 5), (land_low8 f 4), (land_low8 f 1) by lia.
  assert (H : 0 <= f mod 8 < 8) by (apply Z.mod_pos_bound; lia).
  assert (f mod 8 = 0 \/ f mod 8 = 1 \/ f mod 8 = 2 \/ f mod 8 = 3 \/ f mod 8 = 4
          \/ f mod 8 = 5 \/ f mod 8 = 6 \/ f mod 8 = 7) as Hc by lia.
  destruct Hc as [->|[->|[->|[->|[->|[->|[->| ->]]]]]]]; reflexivity.
Qed.

(** Case analysis of one FSM call. *)
Ltac fsm_cases :=
  repeat (case_match; simplify_eq/=; bool_hyps; try done).

(** ** What a peer may send: the abstract request

    RFC 7540 sections 5.1, 6.2 and 6.10 for a client-initiated stream: a
    header block is open until END_HEADERS, the request is over after
    END_STREAM. *)

Record req_view := ReqView { rv_hdr_open : bool; rv_ended : bool }.

Inductive req_verdict : Type :=
| RvGo (v : req_view)
| RvReset
| RvStreamError
| RvConnError.

Definition req_recv (v : req_view) (type flags : Z) : req_verdict :=
  if rv_hdr_open v then
    if type =? HTTP2_CONTINUATION then
      RvGo (ReqView (negb (has_flag flags HTTP2_F_END_HEADERS)) (rv_ended v))
    else RvConnError
  else if type =? HTTP2_CONTINUATION then RvConnError
  else if type =? HTTP2_RST_STREAM then RvReset
  else if rv_ended v then
    if (type =? HTTP2_PRIORITY) || (type =? HTTP2_WINDOW_UPDATE) then RvGo v
    else RvStreamError
  else if type =? HTTP2_HEADERS then
    RvGo (ReqView (negb (has_flag flags HTTP2_F_END_HEADERS))
                  (has_flag flags HTTP2_F_END_STREAM))
  else if type =? HTTP2_DATA then
    RvGo (ReqView false (has_flag flags HTTP2_F_END_STREAM))
  else RvGo v.

(** The FSM state that represents a view while the stream is not closed. *)
Definition view_state (v : req_view) : TfwStreamState :=
  match v with
  | ReqView false false => HTTP2_STREAM_OPENED
  | ReqView true false => HTTP2_STREAM_CONT
  | ReqView true true => HTTP2_STREAM_CONT_CLOSED
  | ReqView false true => HTTP2_STREAM_REM_HALF_CLOSED
  end.

Definition verdict_out (v : req_view) (w : req_verdict) : fsm_out :=
  match w with
  | RvGo v' => (view_state v', STREAM_FSM_RES_OK, HTTP2_ECODE_NO_ERROR)
  | RvReset => (HTTP2_STREAM_CLOSED, STREAM_FSM_RES_OK, HTTP2_ECODE_NO_ERROR)
  | RvStreamError =>
      (HTTP2_STREAM_REM_CLOSED, STREAM_FSM_RES_TERM_STREAM, HTTP2_ECODE_CLOSED)
  | RvConnError => (view_state v, STREAM_FSM_RES_TERM_CONN, HTTP2_ECODE_PROTO)
  end.

Lemma view_state_fsm v type flags :
  stream_fsm (view_state v) type flags false HTTP2_ECODE_NO_ERROR
  = Ok (verdict_out v (req_recv v type flags)).
Proof.
  assert (Ht : forall a b : Z, a <> b -> type = a -> (type =? b) = false)
    by (intros; apply Z.eqb_neq; congruence).
  destruct v as [[] []]; unfold stream_fsm, req_recv; simpl;
    unfold fsm_opened, fsm_cont, fsm_cont_closed, fsm_rem_half_closed;
    rewrite ?headers_flags; simpl;
    destruct (Z.eqb_spec type HTTP2_CONTINUATION) as [->|Hc]; simpl;
    destruct (has_flag flags HTTP2_F_END_HEADERS);
    destruct (has_flag flags HTTP2_F_END_STREAM);
    try done;
    destruct (Z.eqb_spec type HTTP2_RST_STREAM) as [->|Hr]; simpl; try done;
    destruct (Z.eqb_spec type HTTP2_HEADERS) as [->|Hh]; simpl; try done;
    destruct (Z.eqb_spec type HTTP2_DATA) as [->|Hd]; simpl; try done;
    destruct (Z.eqb_spec type HTTP2_PRIORITY) as [->|Hp]; simpl; try done;
    destruct (Z.eqb_spec type HTTP2_WINDOW_UPDATE) as [->|Hw]; simpl; done.
Qed.

(** Receiving a sequence of frames; the first verdict other than [OK] ends it. *)
Fixpoint fsm_recv_all (st : TfwStreamState) (fs : list (Z * Z))
  : outcome (TfwStreamState * TfwStreamFsmRes) :=
  match fs with
  | [] => Ok (st, STREAM_FSM_RES_OK)
  | (type, flags) :: fs' =>
      match stream_fsm st type flags false HTTP2_ECODE_NO_ERROR with
      | Ok (st', STREAM_FSM_RES_OK, _) =>
          if bool_decide (st' = HTTP2_STREAM_CLOSED) then Ok (st', STREAM_FSM_RES_OK)
          else fsm_recv_all st' fs'
      | Ok (st', res, _) => Ok (st', res)
      | Bug => Bug
      end
  end.

Fixpoint req_recv_all (v : req_view) (fs : list (Z * Z)) : req_verdict :=
  match fs with
  | [] => RvGo v
  | (type, flags) :: fs' =>
      match req_recv v type flags with
      | RvGo v' => req_recv_all v' fs'
      | w => w
      end
  end.

Lemma fsm_recv_all_view fs :
  forall v, exists st res,
    fsm_recv_all (view_state v) fs = Ok (st, res) /\
    match req_recv_all v fs with
    | RvGo v' => st = view_state v' /\ res = STREAM_FSM_RES_OK
    | RvReset => st = HTTP2_STREAM_CLOSED /\ res = STREAM_FSM_RES_OK
    | RvStreamError => st = HTTP2_STREAM_REM_CLOSED /\ res = STREAM_FSM_RES_TERM_STREAM
    | RvConnError => res = STREAM_FSM_RES_TERM_CONN
    end.
Proof.
  induction fs as [|[type flags] fs IH]; intros v; simpl; [eauto |].
  rewrite view_state_fsm.
  destruct (req_recv v type flags) as [v'| | |]; simpl; eauto.
  rewrite bool_decide_false by (by destruct v' as [[] []]).
  apply IH.
Qed.

(** Live: in the tree and not on the way out. *)
Definition stream_live (st : TfwStreamState) : Prop :=
  st <> HTTP2_STREAM_LOC_RESERVED /\ st <> HTTP2_STREAM_REM_RESERVED
  /\ st <> HTTP2_STREAM_CLOSED.

Lemma stream_fsm_recv_total st type flags err :
  stream_live st ->
  exists st' res err', stream_fsm st type flags false err = Ok (st', res, err')
   /\ (stream_live st' \/
       st' = HTTP2_STREAM_CLOSED /\ type = HTTP2_RST_STREAM /\ res = STREAM_FSM_RES_OK).
Proof.
  unfold stream_live. intros (H1 & H2 & H3).
  destruct st; try done; unfold stream_fsm; simpl;
    unfold fsm_opened, fsm_cont, fsm_cont_closed, fsm_loc_closed,
      fsm_rem_half_closed, fsm_rem_closed;
    fsm_cases; do 3 eexists; (split; [reflexivity |]); try (by left); by right.
Qed.

Lemma stream_fsm_send_total st type flags err :
  st <> HTTP2_STREAM_LOC_RESERVED -> st <> HTTP2_STREAM_REM_RESERVED ->
  has_flag flags HTTP2_F_END_STREAM = true \/ type = HTTP2_RST_STREAM ->
  exists st' res err', stream_fsm st type flags true err = Ok (st', res, err')
    /\ st' <> HTTP2_STREAM_LOC_RESERVED /\ st' <> HTTP2_STREAM_REM_RESERVED
    /\ (st' = HTTP2_STREAM_CLOSED -> st = HTTP2_STREAM_CLOSED).
Proof.
  intros H1 H2 Hf. unfold stream_fsm.
  replace (negb (has_flag flags HTTP2_F_END_STREAM) && negb (type =? HTTP2_RST_STREAM))
    with false by (destruct Hf as [-> | ->]; [done | by rewrite andb_false_r]).
  unfold fsm_send_ignored.
  destruct st; try done; simpl;
    unfold fsm_opened, fsm_cont, fsm_cont_closed, fsm_loc_closed,
      fsm_rem_half_closed, fsm_rem_closed;
    fsm_cases; eexists _, _, _; (split; [reflexivity |]); done.
Qed.

(** How far a stream is in its life: header blocks and body, half closed,
    closed by one side, closed. *)
Definition stream_phase (st : TfwStreamState) : Z :=
  match st with
  | HTTP2_STREAM_LOC_RESERVED | HTTP2_STREAM_REM_RESERVED
  | HTTP2_STREAM_OPENED | HTTP2_STREAM_CONT => 0
  | HTTP2_STREAM_CONT_CLOSED => 1
  | HTTP2_STREAM_REM_HALF_CLOSED => 2
  | HTTP2_STREAM_LOC_CLOSED | HTTP2_STREAM_REM_CLOSED => 3
  | HTTP2_STREAM_CLOSED => 4
  end.

Lemma stream_fsm_phase st type flags send err st' res err' :
  stream_fsm st type flags send err = Ok (st', res, err') ->
  stream_phase st <= stream_phase st'.
Proof.
  unfold stream_fsm. destruct send; simpl.
  1: destruct (_ && _); [done |].
  1: destruct (fsm_send_ignored st flags); [intros; simplify_eq; lia |].
  all: destruct st; simpl; try done;
    unfold fsm_opened, fsm_cont, fsm_cont_closed, fsm_loc_closed,
      fsm_rem_half_closed, fsm_rem_closed;
    intros; simplify_eq; fsm_cases; simpl; lia.
Qed.

(** ** Storage against a finite map of streams *)

Definition sid (h : heap) (p : ptr) : Z := default 0 (stream_key h p).

Definition streams_wf (h : heap) (t : rbtree) : Prop :=
  (forall p, p ∈ rb_nodes t <-> is_Some (h !! p)) /\ rb_sorted (sid h) t.

Lemma streams_wf_live h t : streams_wf h t -> rb_live (stream_key h) (sid h) t.
Proof.
  intros [Hd _] p Hp. apply Hd in Hp as [s Hs].
  unfold sid, stream_key. by rewrite Hs.
Qed.

Lemma sid_lookup h p s : h !! p = Some s -> sid h p = s_id s.
Proof. intros Hs. unfold sid, stream_key. by rewrite Hs. Qed.

Lemma find_stream_spec h t id :
  streams_wf h t ->
  exists o, tfw_h2_find_stream h t id = Ok o /\
    match o with
    | Some p => exists s, h !! p = Some s /\ s_id s = id
    | None => forall p s, h !! p = Some s -> s_id s <> id
    end.
Proof.
  intros Hwf. pose proof (streams_wf_live _ _ Hwf) as Hl. destruct Hwf as [Hd Hs].
  destruct (rb_find_spec _ _ t id Hl Hs) as (o & Ho & Hspec).
  exists o. split; [done |]. destruct o as [p|].
  - destruct Hspec as [Hp Hid]. apply Hd in Hp as [s Hp]. exists s.
    split; [done |]. by rewrite <- (sid_lookup _ _ _ Hp).
  - intros p s Hp. rewrite <- (sid_lookup _ _ _ Hp). apply Hspec, Hd. eauto.
Qed.

(** The identifiers of the stored streams are distinct. *)
Lemma streams_wf_inj h t p q s s' :
  streams_wf h t -> h !! p = Some s -> h !! q = Some s' -> s_id s = s_id s' -> p = q.
Proof.
  intros [Hd Hs] Hp Hq Heq.
  assert (Hpn : p ∈ rb_nodes t) by (apply Hd; eauto).
  assert (Hqn : q ∈ rb_nodes t) by (apply Hd; eauto).
  apply list_elem_of_lookup in Hpn as [i Hi]. apply list_elem_of_lookup in Hqn as [j Hj].
  assert (Hki : (sid h <$> rb_nodes t) !! i = Some (s_id s))
    by (rewrite list_lookup_fmap, Hi; simpl; by rewrite (sid_lookup _ _ _ Hp)).
  assert (Hkj : (sid h <$> rb_nodes t) !! j = Some (s_id s'))
    by (rewrite list_lookup_fmap, Hj; simpl; by rewrite (sid_lookup _ _ _ Hq)).
  destruct (decide (i = j)) as [->|Hne]; [congruence |].
  exfalso. unfold rb_sorted in Hs.
  assert (Hlt : forall a b x y, (a < b)%nat -> (sid h <$> rb_nodes t) !! a = Some x ->
    (sid h <$> rb_nodes t) !! b = Some y -> x < y).
  { revert Hs. generalize (sid h <$> rb_nodes t). clear.
    induction 1 as [|z l Hs IH Hall]; intros a b x y Hab Ha Hb; [done |].
    destruct a as [|a], b as [|b]; simplify_eq/=; [lia | | lia |].
    - rewrite Forall_forall in Hall. apply Hall. by eapply list_elem_of_lookup_2.
    - apply (IH a b); [lia | done..]. }
  destruct (lt_eq_lt_dec i j) as [[?|?]|?]; try done.
  - specialize (Hlt i j _ _ ltac:(done) Hki Hkj). lia.
  - specialize (Hlt j i _ _ ltac:(done) Hkj Hki). lia.
Qed.

(** Changing a stream without touching its identifier. *)
Lemma streams_wf_update h t p s s' :
  streams_wf h t -> h !! p = Some s -> s_id s' = s_id s -> streams_wf (<[p := s']> h) t.
Proof.
  intros [Hd Hs] Hp Hid. split.
  - intros q. rewrite lookup_insert_is_Some, Hd.
    destruct (decide (p = q)); naive_solver.
  - eapply rb_sorted_ext; [| exact Hs]. intros q Hq. unfold sid, stream_key.
    destruct (decide (p = q)) as [<-|Hne].
    + rewrite lookup_insert_eq, Hp. simpl. congruence.
    + by rewrite lookup_insert_ne.
Qed.

(** Lookups in both directions. *)
Lemma find_stream_none (h : heap) t id :
  streams_wf h t -> tfw_h2_find_stream h t id = Ok None ->
  forall q s, h !! q = Some s -> s_id s <> id.
Proof.
  intros Hwf Hf. destruct (find_stream_spec h t id Hwf) as (o & Ho & Hs).
  rewrite Hf in Ho. by simplify_eq.
Qed.

Lemma find_stream_none_intro (h : heap) t id :
  streams_wf h t -> (forall q s, h !! q = Some s -> s_id s <> id) ->
  tfw_h2_find_stream h t id = Ok None.
Proof.
  intros Hwf Hid. destruct (find_stream_spec h t id Hwf) as ([q|] & Ho & Hs); [| done].
  destruct Hs as (s & Hq & Hs). by destruct (Hid q s Hq).
Qed.

Lemma find_stream_some (h : heap) t p s id :
  streams_wf h t -> h !! p = Some s -> s_id s = id ->
  tfw_h2_find_stream h t id = Ok (Some p).
Proof.
  intros Hwf Hp <-. destruct (find_stream_spec h t (s_id s) Hwf) as ([q|] & Ho & Hs).
  - destruct Hs as (s' & Hq & Hid). rewrite Ho. do 2 f_equal.
    by eapply streams_wf_inj.
  - by destruct (Hs p s Hp).
Qed.

Lemma find_stream_insert_ne (h : heap) t t' p s id' :
  streams_wf h t -> streams_wf (<[p := s]> h) t' -> h !! p = None -> id' <> s_id s ->
  tfw_h2_find_stream (<[p := s]> h) t' id' = tfw_h2_find_stream h t id'.
Proof.
  intros Hwf Hwf' Hp Hne.
  destruct (find_stream_spec h t id' Hwf) as ([q|] & -> & Hs).
  - destruct Hs as (s' & Hq & Hid). eapply find_stream_some; [done | | done].
    rewrite lookup_insert_ne; [done | congruence].
  - apply find_stream_none_intro; [done |]. intros q s' Hq.
    apply lookup_insert_Some in Hq as [[-> ->]|[_ Hq]]; [congruence | by eapply Hs].
Qed.

Lemma streams_wf_empty : streams_wf ∅ RbNull.
Proof.
  split; [| constructor]. intros p. rewrite lookup_empty. split; [set_solver | by intros []].
Qed.

Section with_rb.
Context `{RbLib}.

Lemma add_stream_spec h t p id weight wnd :
  streams_wf h t -> h !! p = None -> (forall q s, h !! q = Some s -> s_id s <> id) ->
  exists t', tfw_h2_add_stream h t (Some p) id weight wnd
    = Ok (<[p := tfw_h2_init_stream id weight wnd]> h, t', Some p)
    /\ streams_wf (<[p := tfw_h2_init_stream id weight wnd]> h) t'.
Proof.
  intros Hwf Hp Hid. pose proof (streams_wf_live _ _ Hwf) as Hl. destruct Hwf as [Hd Hs].
  destruct (rb_place_spec _ _ t id Hl Hs) as ([path|] & Ho & Hspec).
  - destruct Hspec as (a & b & Hn & Ha & Hb & Hlink).
    unfold tfw_h2_add_stream. rewrite Ho. eexists. split; [done |].
    set (s := tfw_h2_init_stream id weight wnd).
    assert (Hpn : p ∉ a ++ b) by (rewrite <- Hn, Hd, Hp; by intros [??]).
    assert (Hsid : forall q, q ∈ a ++ b -> sid (<[p:=s]> h) q = sid h q).
    { intros q Hq. unfold sid, stream_key. rewrite lookup_insert_ne; [done |]. congruence. }
    assert (Hsp : sid (<[p:=s]> h) p = id)
      by (unfold sid, stream_key; by rewrite lookup_insert_eq).
    split.
    + intros q. rewrite rb_insert_color_nodes, Hlink, lookup_insert_is_Some, <- Hd, Hn.
      destruct (decide (p = q)); set_solver.
    + unfold rb_sorted. rewrite rb_insert_color_nodes, Hlink.
      apply sorted_insert_mid.
      * replace (sid (<[p:=s]> h) <$> a ++ b) with (sid h <$> a ++ b);
          [by rewrite <- Hn |].
        apply list_fmap_ext. intros i x Hx. symmetry. apply Hsid.
        by eapply list_elem_of_lookup_2.
      * intros q Hq. rewrite Hsp, Hsid by set_solver. by apply Ha.
      * intros q Hq. rewrite Hsp, Hsid by set_solver. by apply Hb.
  - destruct Hspec as (q & Hq & Hk). apply Hd in Hq as [s Hq].
    destruct (Hid q s Hq). by rewrite <- (sid_lookup _ _ _ Hq).
Qed.

Lemma add_stream_fail h t alloc id weight wnd :
  streams_wf h t ->
  alloc = None \/ (exists q s, h !! q = Some s /\ s_id s = id) ->
  tfw_h2_add_stream h t alloc id weight wnd = Ok (h, t, None).
Proof.
  intros Hwf Hc. pose proof (streams_wf_live _ _ Hwf) as Hl. destruct Hwf as [Hd Hs].
  unfold tfw_h2_add_stream.
  destruct (rb_place_spec _ _ t id Hl Hs) as ([path|] & -> & Hspec); [| done].
  destruct Hc as [->|(q & s & Hq & Hid)]; [done |]. exfalso.
  destruct Hspec as (a & b & Hn & Ha & Hb & _).
  assert (Hin : q ∈ a ++ b) by (rewrite <- Hn, Hd; eauto).
  rewrite <- (sid_lookup _ _ _ Hq) in Hid.
  apply elem_of_app in Hin as [Hin|Hin]; [specialize (Ha _ Hin) | specialize (Hb _ Hin)]; lia.
Qed.

Lemma stop_stream_wf h t p :
  streams_wf h t -> is_Some (h !! p) ->
  streams_wf (tfw_h2_delete_stream h p) (tfw_h2_stop_stream t p).
Proof.
  intros [Hd Hs] Hp. unfold tfw_h2_delete_stream, tfw_h2_stop_stream.
  assert (Hin : p ∈ rb_nodes t) by (by apply Hd).
  split.
  - intros q. rewrite rb_erase_nodes by done.
    rewrite list_elem_of_filter, lookup_delete_is_Some, Hd. naive_solver.
  - unfold rb_sorted. rewrite rb_erase_nodes by done.
    replace (sid (delete p h) <$> filter (fun q => q <> p) (rb_nodes t))
      with (sid h <$> filter (fun q => q <> p) (rb_nodes t)).
    + by apply sorted_filter.
    + apply list_fmap_ext. intros i q Hq. apply list_elem_of_lookup_2 in Hq.
      apply list_elem_of_filter in Hq as [Hne _]. unfold sid, stream_key.
      by rewrite lookup_delete_ne.
Qed.

End with_rb.

(** ** Properties *)

(** C6: for every sequence of frames received on a client stream, the
    stream FSM runs without reaching a [BUG()] and ends exactly where the
    abstract request of RFC 7540 ends: in the state that represents the
    request view, in CLOSED after RST_STREAM, with a stream error for a frame
    after END_STREAM, with a connection error for a CONTINUATION out of place
    or for anything else inside an open header block.  In particular the
    request is reported complete (REM_HALF_CLOSED) exactly when END_STREAM was
    received and no header block is open. *)
Theorem stream_fsm_refines_request fs :
  forall v, exists st res,
    fsm_recv_all (view_state v) fs = Ok (st, res) /\
    match req_recv_all v fs with
    | RvGo v' => st = view_state v' /\ res = STREAM_FSM_RES_OK /\
        (st = HTTP2_STREAM_REM_HALF_CLOSED <-> v' = ReqView false true)
    | RvReset => st = HTTP2_STREAM_CLOSED /\ res = STREAM_FSM_RES_OK
    | RvStreamError => st = HTTP2_STREAM_REM_CLOSED /\ res = STREAM_FSM_RES_TERM_STREAM
    | RvConnError => res = STREAM_FSM_RES_TERM_CONN
    end.
Proof.
  intros v. destruct (fsm_recv_all_view fs v) as (st & res & Hr & Hm).
  exists st, res. split; [done |].
  destruct (req_recv_all v fs) as [v'| | |]; try done.
  destruct Hm as [-> ->]. destruct v' as [[] []]; naive_solver.
Qed.

(** A stream never goes back: whatever frame is received or sent,
    an FSM call never moves a stream to an earlier phase of its life (header
    blocks and body, then half closed, then closed by one side, then closed);
    a receive on a live stream and a send that respects the sending contract
    never reach a [BUG()]; only a received RST_STREAM closes the stream fully. *)
Theorem stream_fsm_lifecycle st type flags (send : bool) err :
  (if send then st <> HTTP2_STREAM_LOC_RESERVED /\ st <> HTTP2_STREAM_REM_RESERVED /\
        (has_flag flags HTTP2_F_END_STREAM = true \/ type = HTTP2_RST_STREAM)
   else stream_live st) ->
  exists st' res err',
    stream_fsm st type flags send err = Ok (st', res, err') /\
    stream_phase st <= stream_phase st' /\
    (st' = HTTP2_STREAM_CLOSED ->
     st = HTTP2_STREAM_CLOSED \/ send = false /\ type = HTTP2_RST_STREAM).
Proof.
  destruct send.
  - intros (H1 & H2 & H3).
    destruct (stream_fsm_send_total st type flags err H1 H2 H3)
      as (st' & res & err' & Hr & _ & _ & Hc).
    eexists _, _, _. split; [done |]. split; [by eapply stream_fsm_phase | auto].
  - intros Hl. destruct (stream_fsm_recv_total st type flags err Hl)
      as (st' & res & err' & Hr & Hc).
    eexists _, _, _. split; [done |]. split; [by eapply stream_fsm_phase |].
    intros ->. destruct Hc as [(_ & _ & ?)|(_ & ? & _)]; [done | auto].
Qed.

Lemma stream_fsm_lifecycle_witness :
  exists st' res err',
    stream_fsm HTTP2_STREAM_OPENED HTTP2_RST_STREAM 0 false HTTP2_ECODE_NO_ERROR
      = Ok (st', res, err') /\
    stream_phase HTTP2_STREAM_OPENED <= stream_phase st' /\
    (st' = HTTP2_STREAM_CLOSED ->
     HTTP2_STREAM_OPENED = HTTP2_STREAM_CLOSED
     \/ false = false /\ HTTP2_RST_STREAM = HTTP2_RST_STREAM).
Proof.
  apply (stream_fsm_lifecycle HTTP2_STREAM_OPENED HTTP2_RST_STREAM 0 false
           HTTP2_ECODE_NO_ERROR).
  repeat split; discriminate.
Defined.

(** The red-black tree behaves as a finite map from identifiers to
    streams, whatever the kernel's rebalancing does: a stream added under a
    fresh identifier is the one a lookup finds, every other lookup gives what
    it gave before, adding the identifier again fails and changes nothing, and
    after the stream is stopped and freed its identifier is not found. *)
Theorem stream_storage_roundtrip `{RbLib} (h : heap) t p id weight wnd :
  streams_wf h t -> h !! p = None -> tfw_h2_find_stream h t id = Ok None ->
  exists h' t',
    tfw_h2_add_stream h t (Some p) id weight wnd = Ok (h', t', Some p) /\
    streams_wf h' t' /\
    tfw_h2_find_stream h' t' id = Ok (Some p) /\
    (forall id', id' <> id ->
       tfw_h2_find_stream h' t' id' = tfw_h2_find_stream h t id') /\
    (forall alloc weight' wnd',
       tfw_h2_add_stream h' t' alloc id weight' wnd' = Ok (h', t', None)) /\
    tfw_h2_find_stream (tfw_h2_delete_stream h' p) (tfw_h2_stop_stream t' p) id = Ok None.
Proof.
  intros Hwf Hp Hn.
  assert (Hid : forall q s, h !! q = Some s -> s_id s <> id)
    by (by eapply find_stream_none).
  destruct (add_stream_spec h t p id weight wnd Hwf Hp Hid) as (t' & Hadd & Hwf').
  eexists _, t'. split_and!; [exact Hadd | exact Hwf' | | | |].
  - eapply find_stream_some; [exact Hwf' | apply lookup_insert_eq | done].
  - intros id' Hne. by apply find_stream_insert_ne.
  - intros. apply add_stream_fail; [done |]. right. eexists p, _.
    by rewrite lookup_insert_eq.
  - apply find_stream_none_intro.
    + apply stop_stream_wf; [done |]. rewrite lookup_insert_eq. eauto.
    + intros q s Hq. unfold tfw_h2_delete_stream in Hq. apply lookup_delete_Some in Hq as [Hne Hq].
      rewrite lookup_insert_ne in Hq by done. by eapply Hid.
Qed.

Lemma stream_storage_roundtrip_witness :
  exists h' t',
    tfw_h2_add_stream (∅ : heap) RbNull (Some 1%positive) 1 0 65535 = Ok (h', t', Some 1%positive) /\
    streams_wf h' t' /\
    tfw_h2_find_stream h' t' 1 = Ok (Some 1%positive) /\
    (forall id', id' <> 1 ->
       tfw_h2_find_stream h' t' id' = tfw_h2_find_stream ∅ RbNull id') /\
    (forall alloc weight' wnd',
       tfw_h2_add_stream h' t' alloc 1 weight' wnd' = Ok (h', t', None)) /\
    tfw_h2_find_stream (tfw_h2_delete_stream h' 1%positive)
      (tfw_h2_stop_stream t' 1%positive) 1 = Ok None.
Proof.
  apply (stream_storage_roundtrip ∅ RbNull 1%positive 1 0 65535).
  - apply streams_wf_empty.
  - reflexivity.
  - reflexivity.
Defined.
