(* ===== verification/H2Ctx.v ===== *)
(** The HTTP/2 connection context ([fw/http_frame.h], [fw/http_frame.c]) and
    the operations on it that the frame handlers are made of: sending service
    frames, creating, unlinking, closing and freeing streams, the queue of
    closed streams.

    The context lives in a [World] with the stream objects, the requests that
    point at streams, and the record of what was handed to the transport.
    Pointers are addresses in these stores: a dereference of an address that
    was freed is a [Bug].  What the kernel decides is the class [Env]: the
    result of the n-th transmission and the address of the n-th allocation.
    A spinlock section is one atomic step. *)

From S2P Require Import Prelude RbTree H2Stream.
From stdpp Require Import sorting.
Local Open Scope Z_scope.

(** ** Constants *)

Definition FRAME_HEADER_SIZE : Z := 9.
Definition FRAME_STREAM_ID_MASK : Z := 2 ^ 31 - 1.
Definition FRAME_MAX_LENGTH : Z := 2 ^ 24 - 1.
Definition FRAME_DEF_LENGTH : Z := 16384.
Definition FRAME_PREFACE_CLI_MAGIC_LEN : Z := 24.
Definition FRAME_WND_UPDATE_SIZE : Z := 4.
Definition FRAME_RST_STREAM_SIZE : Z := 4.
Definition FRAME_PRIORITY_SIZE : Z := 5.
Definition FRAME_SETTINGS_ENTRY_SIZE : Z := 6.
Definition FRAME_PING_SIZE : Z := 8.
Definition FRAME_GOAWAY_SIZE : Z := 8.
Definition MAX_WND_SIZE : Z := 2 ^ 31 - 1.
Definition DEF_WND_SIZE : Z := 2 ^ 16 - 1.
Definition TFW_MAX_CLOSED_STREAMS : Z := 5.
Definition HPACK_TABLE_DEF_SIZE : Z := 4096.
Definition HPACK_ENC_TABLE_MAX_SIZE : Z := HPACK_TABLE_DEF_SIZE.

(** ["PRI * HTTP/2.0\r\n\r\nSM\r\n\r\n"] *)
Definition FRAME_PREFACE_CLI_MAGIC : bytes :=
  [80; 82; 73; 32; 42; 32; 72; 84; 84; 80; 47; 50; 46; 48; 13; 10; 13; 10;
   83; 77; 13; 10; 13; 10].

(** ** Data *)

Inductive TfwFrameState : Type :=
| HTTP2_RECV_FRAME_HEADER
| HTTP2_RECV_CLI_START_SEQ
| HTTP2_RECV_FIRST_SETTINGS
| HTTP2_RECV_FRAME_PRIORITY
| HTTP2_RECV_FRAME_WND_UPDATE
| HTTP2_RECV_FRAME_PING
| HTTP2_RECV_FRAME_RST_STREAM
| HTTP2_RECV_FRAME_SETTINGS
| HTTP2_RECV_FRAME_GOAWAY
| HTTP2_RECV_FRAME_PADDED
| HTTP2_RECV_HEADER_PRI
| HTTP2_IGNORE_FRAME_DATA
| HTTP2_RECV_HEADER
| HTTP2_RECV_CONT
| HTTP2_RECV_DATA.

#[export] Instance TfwFrameState_eq_dec : EqDecision TfwFrameState.
Proof. solve_decision. Defined.

(** [state >= __HTTP2_RECV_FRAME_APP]: the last three enumerators. *)
Definition app_state (s : TfwFrameState) : bool :=
  match s with
  | HTTP2_RECV_HEADER | HTTP2_RECV_CONT | HTTP2_RECV_DATA => true
  | _ => false
  end.

Record TfwFrameHdr : Type := MkHdr {
  f_length : Z;
  f_stream_id : Z;
  f_type : Z;
  f_flags : Z;
}.

Definition set_f_length (v : Z) (c : TfwFrameHdr) : TfwFrameHdr :=
  MkHdr v (f_stream_id c) (f_type c) (f_flags c).
Definition set_f_stream_id (v : Z) (c : TfwFrameHdr) : TfwFrameHdr :=
  MkHdr (f_length c) v (f_type c) (f_flags c).
Definition set_f_type (v : Z) (c : TfwFrameHdr) : TfwFrameHdr :=
  MkHdr (f_length c) (f_stream_id c) v (f_flags c).
Definition set_f_flags (v : Z) (c : TfwFrameHdr) : TfwFrameHdr :=
  MkHdr (f_length c) (f_stream_id c) (f_type c) v.

Record TfwFramePri : Type := MkPri {
  p_stream_id : Z;
  p_weight : Z;
  p_exclusive : bool;
}.

Record TfwSettings : Type := MkSettings {
  st_hdr_tbl_sz : Z;
  st_push : Z;
  st_max_streams : Z;
  st_wnd_sz : Z;
  st_max_frame_sz : Z;
  st_max_lhdr_sz : Z;
}.

Definition with_hdr_tbl_sz (v : Z) (c : TfwSettings) : TfwSettings :=
  MkSettings v (st_push c) (st_max_streams c) (st_wnd_sz c)
    (st_max_frame_sz c) (st_max_lhdr_sz c).
Definition with_push (v : Z) (c : TfwSettings) : TfwSettings :=
  MkSettings (st_hdr_tbl_sz c) v (st_max_streams c) (st_wnd_sz c)
    (st_max_frame_sz c) (st_max_lhdr_sz c).
Definition with_max_streams (v : Z) (c : TfwSettings) : TfwSettings :=
  MkSettings (st_hdr_tbl_sz c) (st_push c) v (st_wnd_sz c)
    (st_max_frame_sz c) (st_max_lhdr_sz c).
Definition with_wnd_sz (v : Z) (c : TfwSettings) : TfwSettings :=
  MkSettings (st_hdr_tbl_sz c) (st_push c) (st_max_streams c) v
    (st_max_frame_sz c) (st_max_lhdr_sz c).
Definition with_max_frame_sz (v : Z) (c : TfwSettings) : TfwSettings :=
  MkSettings (st_hdr_tbl_sz c) (st_push c) (st_max_streams c) (st_wnd_sz
    c) v (st_max_lhdr_sz c).
Definition with_max_lhdr_sz (v : Z) (c : TfwSettings) : TfwSettings :=
  MkSettings (st_hdr_tbl_sz c) (st_push c) (st_max_streams c) (st_wnd_sz
    c) (st_max_frame_sz c) v.

(** The encoder dynamic index as far as resizing it goes: the header lengths
    of its nodes, the eldest first, its pseudo-length and its window. *)
Record TfwHPackETbl : Type := MkETbl {
  e_nodes : list Z;
  e_size : Z;
  e_window : Z;
}.

Record TfwHPack : Type := MkHPack {
  hp_enc_tbl : TfwHPackETbl;
  hp_max_window : Z;
}.

Definition set_hp_enc_tbl (v : TfwHPackETbl) (c : TfwHPack) : TfwHPack :=
  MkHPack v (hp_max_window c).
Definition set_hp_max_window (v : Z) (c : TfwHPack) : TfwHPack :=
  MkHPack (hp_enc_tbl c) v.

Record TfwH2Ctx : Type := MkCtx {
  c_lsettings : TfwSettings;
  c_rsettings : TfwSettings;
  c_streams_num : Z;
  c_sched : rbtree;
  c_hclosed_list : list ptr;
  c_hclosed_num : Z;
  c_lstream_id : Z;
  c_loc_wnd : Z;
  c_hpack : TfwHPack;
  c_cur_stream : option ptr;
  c_priority : TfwFramePri;
  c_hdr : TfwFrameHdr;
  c_plen : Z;
  c_state : TfwFrameState;
  c_to_read : Z;
  c_rlen : Z;
  c_rbuf : bytes;
  c_padlen : Z;
  c_data_off : Z;
}.

Definition set_c_lsettings (v : TfwSettings) (c : TfwH2Ctx) : TfwH2Ctx :=
  MkCtx v (c_rsettings c) (c_streams_num c) (c_sched c) (c_hclosed_list c)
    (c_hclosed_num c) (c_lstream_id c) (c_loc_wnd c) (c_hpack c) (c_cur_stream
    c) (c_priority c) (c_hdr c) (c_plen c) (c_state c) (c_to_read c) (c_rlen c)
    (c_rbuf c) (c_padlen c) (c_data_off c).
Definition set_c_rsettings (v : TfwSettings) (c : TfwH2Ctx) : TfwH2Ctx :=
  MkCtx (c_lsettings c) v (c_streams_num c) (c_sched c) (c_hclosed_list c)
    (c_hclosed_num c) (c_lstream_id c) (c_loc_wnd c) (c_hpack c) (c_cur_stream
    c) (c_priority c) (c_hdr c) (c_plen c) (c_state c) (c_to_read c) (c_rlen c)
    (c_rbuf c) (c_padlen c) (c_data_off c).
Definition set_c_streams_num (v : Z) (c : TfwH2Ctx) : TfwH2Ctx :=
  MkCtx (c_lsettings c) (c_rsettings c) v (c_sched c) (c_hclosed_list c)
    (c_hclosed_num c) (c_lstream_id c) (c_loc_wnd c) (c_hpack c) (c_cur_stream
    c) (c_priority c) (c_hdr c) (c_plen c) (c_state c) (c_to_read c) (c_rlen c)
    (c_rbuf c) (c_padlen c) (c_data_off c).
Definition set_c_sched (v : rbtree) (c : TfwH2Ctx) : TfwH2Ctx :=
  MkCtx (c_lsettings c) (c_rsettings c) (c_streams_num c) v (c_hclosed_list c)
    (c_hclosed_num c) (c_lstream_id c) (c_loc_wnd c) (c_hpack c) (c_cur_stream
    c) (c_priority c) (c_hdr c) (c_plen c) (c_state c) (c_to_read c) (c_rlen c)
    (c_rbuf c) (c_padlen c) (c_data_off c).
Definition set_c_hclosed_list (v : list ptr) (c : TfwH2Ctx) : TfwH2Ctx :=
  MkCtx (c_lsettings c) (c_rsettings c) (c_streams_num c) (c_sched c) v
    (c_hclosed_num c) (c_lstream_id c) (c_loc_wnd c) (c_hpack c) (c_cur_stream
    c) (c_priority c) (c_hdr c) (c_plen c) (c_state c) (c_to_read c) (c_rlen c)
    (c_rbuf c) (c_padlen c) (c_data_off c).
Definition set_c_hclosed_num (v : Z) (c : TfwH2Ctx) : TfwH2Ctx :=
  MkCtx (c_lsettings c) (c_rsettings c) (c_streams_num c) (c_sched c)
    (c_hclosed_list c) v (c_lstream_id c) (c_loc_wnd c) (c_hpack c)
    (c_cur_stream c) (c_priority c) (c_hdr c) (c_plen c) (c_state c) (c_to_read
    c) (c_rlen c) (c_rbuf c) (c_padlen c) (c_data_off c).
Definition set_c_lstream_id (v : Z) (c : TfwH2Ctx) : TfwH2Ctx :=
  MkCtx (c_lsettings c) (c_rsettings c) (c_streams_num c) (c_sched c)
    (c_hclosed_list c) (c_hclosed_num c) v (c_loc_wnd c) (c_hpack c)
    (c_cur_stream c) (c_priority c) (c_hdr c) (c_plen c) (c_state c) (c_to_read
    c) (c_rlen c) (c_rbuf c) (c_padlen c) (c_data_off c).
Definition set_c_loc_wnd (v : Z) (c : TfwH2Ctx) : TfwH2Ctx :=
  MkCtx (c_lsettings c) (c_rsettings c) (c_streams_num c) (c_sched c)
    (c_hclosed_list c) (c_hclosed_num c) (c_lstream_id c) v (c_hpack c)
    (c_cur_stream c) (c_priority c) (c_hdr c) (c_plen c) (c_state c) (c_to_read
    c) (c_rlen c) (c_rbuf c) (c_padlen c) (c_data_off c).
Definition set_c_hpack (v : TfwHPack) (c : TfwH2Ctx) : TfwH2Ctx :=
  MkCtx (c_lsettings c) (c_rsettings c) (c_streams_num c) (c_sched c)
    (c_hclosed_list c) (c_hclosed_num c) (c_lstream_id c) (c_loc_wnd c) v
    (c_cur_stream c) (c_priority c) (c_hdr c) (c_plen c) (c_state c) (c_to_read
    c) (c_rlen c) (c_rbuf c) (c_padlen c) (c_data_off c).
Definition set_c_cur_stream (v : option ptr) (c : TfwH2Ctx) : TfwH2Ctx :=
  MkCtx (c_lsettings c) (c_rsettings c) (c_streams_num c) (c_sched c)
    (c_hclosed_list c) (c_hclosed_num c) (c_lstream_id c) (c_loc_wnd c) (c_hpack
    c) v (c_priority c) (c_hdr c) (c_plen c) (c_state c) (c_to_read c) (c_rlen
    c) (c_rbuf c) (c_padlen c) (c_data_off c).
Definition set_c_priority (v : TfwFramePri) (c : TfwH2Ctx) : TfwH2Ctx :=
  MkCtx (c_lsettings c) (c_rsettings c) (c_streams_num c) (c_sched c)
    (c_hclosed_list c) (c_hclosed_num c) (c_lstream_id c) (c_loc_wnd c) (c_hpack
    c) (c_cur_stream c) v (c_hdr c) (c_plen c) (c_state c) (c_to_read c) (c_rlen
    c) (c_rbuf c) (c_padlen c) (c_data_off c).
Definition set_c_hdr (v : TfwFrameHdr) (c : TfwH2Ctx) : TfwH2Ctx :=
  MkCtx (c_lsettings c) (c_rsettings c) (c_streams_num c) (c_sched c)
    (c_hclosed_list c) (c_hclosed_num c) (c_lstream_id c) (c_loc_wnd c) (c_hpack
    c) (c_cur_stream c) (c_priority c) v (c_plen c) (c_state c) (c_to_read c)
    (c_rlen c) (c_rbuf c) (c_padlen c) (c_data_off c).
Definition set_c_plen (v : Z) (c : TfwH2Ctx) : TfwH2Ctx :=
  MkCtx (c_lsettings c) (c_rsettings c) (c_streams_num c) (c_sched c)
    (c_hclosed_list c) (c_hclosed_num c) (c_lstream_id c) (c_loc_wnd c) (c_hpack
    c) (c_cur_stream c) (c_priority c) (c_hdr c) v (c_state c) (c_to_read c)
    (c_rlen c) (c_rbuf c) (c_padlen c) (c_data_off c).
Definition set_c_state (v : TfwFrameState) (c : TfwH2Ctx) : TfwH2Ctx :=
  MkCtx (c_lsettings c) (c_rsettings c) (c_streams_num c) (c_sched c)
    (c_hclosed_list c) (c_hclosed_num c) (c_lstream_id c) (c_loc_wnd c) (c_hpack
    c) (c_cur_stream c) (c_priority c) (c_hdr c) (c_plen c) v (c_to_read c)
    (c_rlen c) (c_rbuf c) (c_padlen c) (c_data_off c).
Definition set_c_to_read (v : Z) (c : TfwH2Ctx) : TfwH2Ctx :=
  MkCtx (c_lsettings c) (c_rsettings c) (c_streams_num c) (c_sched c)
    (c_hclosed_list c) (c_hclosed_num c) (c_lstream_id c) (c_loc_wnd c) (c_hpack
    c) (c_cur_stream c) (c_priority c) (c_hdr c) (c_plen c) (c_state c) v
    (c_rlen c) (c_rbuf c) (c_padlen c) (c_data_off c).
Definition set_c_rlen (v : Z) (c : TfwH2Ctx) : TfwH2Ctx :=
  MkCtx (c_lsettings c) (c_rsettings c) (c_streams_num c) (c_sched c)
    (c_hclosed_list c) (c_hclosed_num c) (c_lstream_id c) (c_loc_wnd c) (c_hpack
    c) (c_cur_stream c) (c_priority c) (c_hdr c) (c_plen c) (c_state c)
    (c_to_read c) v (c_rbuf c) (c_padlen c) (c_data_off c).
Definition set_c_rbuf (v : bytes) (c : TfwH2Ctx) : TfwH2Ctx :=
  MkCtx (c_lsettings c) (c_rsettings c) (c_streams_num c) (c_sched c)
    (c_hclosed_list c) (c_hclosed_num c) (c_lstream_id c) (c_loc_wnd c) (c_hpack
    c) (c_cur_stream c) (c_priority c) (c_hdr c) (c_plen c) (c_state c)
    (c_to_read c) (c_rlen c) v (c_padlen c) (c_data_off c).
Definition set_c_padlen (v : Z) (c : TfwH2Ctx) : TfwH2Ctx :=
  MkCtx (c_lsettings c) (c_rsettings c) (c_streams_num c) (c_sched c)
    (c_hclosed_list c) (c_hclosed_num c) (c_lstream_id c) (c_loc_wnd c) (c_hpack
    c) (c_cur_stream c) (c_priority c) (c_hdr c) (c_plen c) (c_state c)
    (c_to_read c) (c_rlen c) (c_rbuf c) v (c_data_off c).
Definition set_c_data_off (v : Z) (c : TfwH2Ctx) : TfwH2Ctx :=
  MkCtx (c_lsettings c) (c_rsettings c) (c_streams_num c) (c_sched c)
    (c_hclosed_list c) (c_hclosed_num c) (c_lstream_id c) (c_loc_wnd c) (c_hpack
    c) (c_cur_stream c) (c_priority c) (c_hdr c) (c_plen c) (c_state c)
    (c_to_read c) (c_rlen c) (c_rbuf c) (c_padlen c) v.

(** A request: the stream it answers and TFW_HTTP_B_FULLY_PARSED. *)
Record TfwReq : Type := MkReq {
  r_stream : option ptr;
  r_fully_parsed : bool;
}.

(** What leaves the frame layer. *)
Inductive tx_event : Type :=
| TxFrame (data : bytes) (close : bool)
| TxConnClose.

Record World : Type := MkWorld {
  w_ctx : TfwH2Ctx;
  w_heap : heap;
  w_reqs : gmap ptr TfwReq;
  w_tx : list tx_event;
  w_nsend : nat;
  w_nalloc : nat;
}.

Definition set_w_ctx (v : TfwH2Ctx) (c : World) : World :=
  MkWorld v (w_heap c) (w_reqs c) (w_tx c) (w_nsend c) (w_nalloc c).
Definition set_w_heap (v : heap) (c : World) : World :=
  MkWorld (w_ctx c) v (w_reqs c) (w_tx c) (w_nsend c) (w_nalloc c).
Definition set_w_reqs (v : gmap ptr TfwReq) (c : World) : World :=
  MkWorld (w_ctx c) (w_heap c) v (w_tx c) (w_nsend c) (w_nalloc c).
Definition set_w_tx (v : list tx_event) (c : World) : World :=
  MkWorld (w_ctx c) (w_heap c) (w_reqs c) v (w_nsend c) (w_nalloc c).
Definition set_w_nsend (v : nat) (c : World) : World :=
  MkWorld (w_ctx c) (w_heap c) (w_reqs c) (w_tx c) v (w_nalloc c).
Definition set_w_nalloc (v : nat) (c : World) : World :=
  MkWorld (w_ctx c) (w_heap c) (w_reqs c) (w_tx c) (w_nsend c) v.

(** The kernel's decisions. *)
Class Env := {
  env_send : nat -> Z;
  env_alloc : nat -> gset ptr -> option ptr;
  env_alloc_fresh n X p : env_alloc n X = Some p -> p ∉ X;
}.

(** ** Access to the world *)

Abbreviation H2 := (SM World).

Definition get_ctx : H2 TfwH2Ctx := fun w => Ok (w_ctx w, w).
Definition mod_ctx (f : TfwH2Ctx -> TfwH2Ctx) : H2 unit :=
  sm_mod (fun w => set_w_ctx (f (w_ctx w)) w).

(** [*p] on a stream pointer. *)
Definition get_stream (p : ptr) : H2 TfwStream :=
  fun w => match w_heap w !! p with
           | Some s => Ok (s, w)
           | None => Bug
           end.
Definition put_stream (p : ptr) (s : TfwStream) : H2 unit :=
  sm_mod (fun w => set_w_heap (<[p := s]> (w_heap w)) w).

(** ** Encoder index resize ([fw/hpack.c]) *)

(** The pseudo-length in the do-while of [tfw_hpack_rbuf_calc()] without
    [del_list]: evict the eldest nodes until it fits; the last node goes in any
    case.  The addresses of the nodes in the ring buffer and the tree over them
    are not part of this model: the frame layer does not see them. *)
Fixpoint tfw_hpack_rbuf_calc (nodes : list Z) (size new_size : Z)
  : outcome (list Z * Z) :=
  match nodes with
  | [] => Bug
  | [_] => Ok ([], 0)
  | hdr_len :: rest =>
      let size' := u16 (size - (HPACK_ENTRY_OVERHEAD + hdr_len)) in
      if new_size <? size' then tfw_hpack_rbuf_calc rest size' new_size
      else Ok (rest, size')
  end.

Definition tfw_hpack_set_rbuf_size (tbl : TfwHPackETbl) (new_size : Z)
  : outcome TfwHPackETbl :=
  if HPACK_ENC_TABLE_MAX_SIZE <? new_size then Ok tbl
  else if new_size <? e_window tbl then
    if new_size <? e_size tbl then
      match tfw_hpack_rbuf_calc (e_nodes tbl) (e_size tbl) new_size with
      | Ok (nodes, size) => Ok (MkETbl nodes size new_size)
      | Bug => Bug
      end
    else Ok (MkETbl (e_nodes tbl) (e_size tbl) new_size)
  else Ok tbl.

(** ** Context initialization *)

Definition def_settings : TfwSettings :=
  {| st_hdr_tbl_sz := HPACK_TABLE_DEF_SIZE;
     st_push := 1;
     st_max_streams := 0xffffffff;
     st_wnd_sz := MAX_WND_SIZE;
     st_max_frame_sz := FRAME_DEF_LENGTH;
     st_max_lhdr_sz := 2 ^ 32 - 1 |}.

Definition zero_pri : TfwFramePri := MkPri 0 0 false.
Definition zero_hdr : TfwFrameHdr := MkHdr 0 0 0 0.
Definition zero_rbuf : bytes := replicate 9 0.

(** [tfw_h2_context_init()], when [tfw_hpack_init()] succeeds. *)
Definition tfw_h2_context_init : TfwH2Ctx :=
  {| c_lsettings := def_settings;
     c_rsettings := def_settings;
     c_streams_num := 0;
     c_sched := RbNull;
     c_hclosed_list := [];
     c_hclosed_num := 0;
     c_lstream_id := 0;
     c_loc_wnd := MAX_WND_SIZE;
     c_hpack := MkHPack (MkETbl [] 0 HPACK_TABLE_DEF_SIZE) HPACK_TABLE_DEF_SIZE;
     c_cur_stream := None;
     c_priority := zero_pri;
     c_hdr := zero_hdr;
     c_plen := 0;
     c_state := HTTP2_RECV_CLI_START_SEQ;
     c_to_read := 0;
     c_rlen := 0;
     c_rbuf := zero_rbuf;
     c_padlen := 0;
     c_data_off := 0 |}.

(** ** Frame headers *)

Definition tfw_h2_pack_frame_header (hdr : TfwFrameHdr) : bytes :=
  take 3 (htonl_bytes (u32 (Z.shiftl (f_length hdr) 8)))
  ++ [f_type hdr; f_flags hdr] ++ htonl_bytes (f_stream_id hdr).

Definition tfw_h2_unpack_frame_header (buf : bytes) : TfwFrameHdr :=
  {| f_length := Z.shiftr (ntohl_at buf 0) 8;
     f_type := byte_at buf 3;
     f_flags := byte_at buf 4;
     f_stream_id := Z.land (ntohl_at buf 5) FRAME_STREAM_ID_MASK |}.

Definition tfw_h2_unpack_priority (buf : bytes) : TfwFramePri :=
  {| p_stream_id := Z.land (ntohl_at buf 0) FRAME_STREAM_ID_MASK;
     p_weight := byte_at buf 4 + 1;
     p_exclusive := has_flag (byte_at buf 0) 0x80 |}.

(** ** Sending service frames *)

Section ops.
Context `{RbLib} `{Env}.

(** [__tfw_h2_send_frame()]: the header is packed in front of the payload.  A
    failed transmission leaves no trace. *)
Definition __tfw_h2_send_frame (hdr : TfwFrameHdr) (payload : bytes) (close : bool) : H2 Z :=
  fun w =>
    let r := env_send (w_nsend w) in
    let w' := set_w_nsend (S (w_nsend w)) w in
    if r =? 0
    then Ok (0, set_w_tx (w_tx w' ++ [TxFrame (tfw_h2_pack_frame_header hdr ++ payload) close]) w')
    else Ok (r, w').

Definition tfw_h2_send_frame (hdr : TfwFrameHdr) (payload : bytes) : H2 Z :=
  __tfw_h2_send_frame hdr payload false.

Definition tfw_h2_send_frame_close (hdr : TfwFrameHdr) (payload : bytes) : H2 Z :=
  __tfw_h2_send_frame hdr payload true.

Definition tfw_h2_send_ping : H2 Z :=
  c <~ get_ctx ;;
  tfw_h2_send_frame
    {| f_length := c_rlen c; f_stream_id := 0; f_type := HTTP2_PING; f_flags := HTTP2_F_ACK |}
    (take (Z.to_nat (c_rlen c)) (c_rbuf c)).

Definition tfw_h2_send_wnd_update (id wnd_incr : Z) : H2 Z :=
  tfw_h2_send_frame
    {| f_length := 4; f_stream_id := id; f_type := HTTP2_WINDOW_UPDATE; f_flags := 0 |}
    (htonl_bytes wnd_incr).

(** The identifiers of SETTINGS parameters ([enum TfwSettingsId]). *)
Definition HTTP2_SETTINGS_TABLE_SIZE : Z := 1.
Definition HTTP2_SETTINGS_ENABLE_PUSH : Z := 2.
Definition HTTP2_SETTINGS_MAX_STREAMS : Z := 3.
Definition HTTP2_SETTINGS_INIT_WND_SIZE : Z := 4.
Definition HTTP2_SETTINGS_MAX_FRAME_SIZE : Z := 5.
Definition HTTP2_SETTINGS_MAX_HDR_LIST_SIZE : Z := 6.

Definition tfw_h2_send_settings_init : H2 Z :=
  c <~ get_ctx ;;
  tfw_h2_send_frame
    {| f_length := 6; f_stream_id := 0; f_type := HTTP2_SETTINGS; f_flags := 0 |}
    (htons_bytes HTTP2_SETTINGS_INIT_WND_SIZE ++ htonl_bytes (st_wnd_sz (c_lsettings c))).

Definition tfw_h2_send_settings_ack : H2 Z :=
  tfw_h2_send_frame
    {| f_length := 0; f_stream_id := 0; f_type := HTTP2_SETTINGS; f_flags := HTTP2_F_ACK |}
    [].

Definition tfw_h2_send_goaway (err_code : TfwH2Err) : H2 Z :=
  c <~ get_ctx ;;
  tfw_h2_send_frame_close
    {| f_length := 8; f_stream_id := 0; f_type := HTTP2_GOAWAY; f_flags := 0 |}
    (htonl_bytes (c_lstream_id c) ++ htonl_bytes (ecode err_code)).

Definition tfw_h2_send_rst_stream (id : Z) (err_code : TfwH2Err) : H2 Z :=
  tfw_h2_send_frame
    {| f_length := 4; f_stream_id := id; f_type := HTTP2_RST_STREAM; f_flags := 0 |}
    (htonl_bytes (ecode err_code)).

Definition tfw_h2_conn_terminate_close (err_code : TfwH2Err) (close : bool) : H2 unit :=
  r <~ tfw_h2_send_goaway err_code ;;
  if negb (r =? 0) && close
  then sm_mod (fun w => set_w_tx (w_tx w ++ [TxConnClose]) w)
  else sm_ret tt.

Definition tfw_h2_conn_terminate (err_code : TfwH2Err) : H2 unit :=
  tfw_h2_conn_terminate_close err_code false.

(** ** Streams of the connection *)

(** [kmem_cache_alloc()] on the stream cache. *)
Definition alloc_stream : H2 (option ptr) :=
  fun w => Ok (env_alloc (w_nalloc w) (dom (w_heap w)), set_w_nalloc (S (w_nalloc w)) w).

(** An address drawn for a duplicate identifier is not used. *)
Definition tfw_h2_stream_create (id : Z) : H2 (option ptr) :=
  c <~ get_ctx ;;
  if negb (tfw_h2_find_stream_dep (c_sched c) (p_stream_id (c_priority c)) =? 0)
  then sm_ret None
  else
    a <~ alloc_stream ;;
    w <~ sm_get ;;
    match tfw_h2_add_stream (w_heap w) (c_sched c) a id
            (p_weight (c_priority c)) (st_wnd_sz (c_lsettings c)) with
    | Bug => sm_bug
    | Ok (h, t, o) =>
        sm_mod (fun w => set_w_heap h (set_w_ctx (set_c_sched t (w_ctx w)) w)) ;;;
        match o with
        | None => sm_ret None
        | Some p =>
            mod_ctx (fun c => set_c_streams_num (u64 (c_streams_num c + 1)) c) ;;;
            sm_ret (Some p)
        end
    end.

Definition tfw_h2_stream_clean (p : ptr) : H2 unit :=
  mod_ctx (fun c => set_c_sched (tfw_h2_stop_stream (c_sched c) p) c) ;;;
  sm_mod (fun w => set_w_heap (tfw_h2_delete_stream (w_heap w) p) w) ;;;
  mod_ctx (fun c => set_c_streams_num (u64 (c_streams_num c - 1)) c).

(** [list_empty(&stream->hcl_node)] *)
Definition hcl_empty (c : TfwH2Ctx) (p : ptr) : bool :=
  bool_decide (p ∉ c_hclosed_list c).

(** [tfw_http_conn_msg_free()] as the frame layer sees it. *)
Definition free_req (r : ptr) : H2 unit :=
  sm_mod (fun w => set_w_reqs (delete r (w_reqs w)) w).

Definition __tfw_h2_stream_unlink (p : ptr) : H2 unit :=
  s <~ get_stream p ;;
  c <~ get_ctx ;;
  (if negb (hcl_empty c p) then
     mod_ctx (fun c => set_c_hclosed_num (u64 (c_hclosed_num c - 1))
       (set_c_hclosed_list (filter (fun q => q <> p) (c_hclosed_list c)) c))
   else sm_ret tt) ;;;
  match s_msg s with
  | None => sm_ret tt
  | Some r =>
      w <~ sm_get ;;
      match w_reqs w !! r with
      | None => sm_bug
      | Some req =>
          sm_mod (fun w => set_w_reqs
            (<[r := MkReq None (r_fully_parsed req)]> (w_reqs w)) w) ;;;
          if negb (r_fully_parsed req) then free_req r else sm_ret tt
      end
  end.

Definition tfw_h2_stream_unlink (p : ptr) : H2 unit := __tfw_h2_stream_unlink p.

Definition tfw_h2_current_stream_remove : H2 unit :=
  c <~ get_ctx ;;
  match c_cur_stream c with
  | None => sm_bug
  | Some p =>
      tfw_h2_stream_unlink p ;;;
      tfw_h2_stream_clean p ;;;
      mod_ctx (set_c_cur_stream None)
  end.

Definition __tfw_h2_stream_add_closed (p : ptr) : H2 unit :=
  c <~ get_ctx ;;
  if negb (hcl_empty c p) then sm_ret tt
  else mod_ctx (fun c => set_c_hclosed_num (u64 (c_hclosed_num c + 1))
         (set_c_hclosed_list (c_hclosed_list c ++ [p]) c)).

Definition tfw_h2_stream_add_closed (p : ptr) : H2 unit := __tfw_h2_stream_add_closed p.

(** [tfw_h2_stream_close()]; the callers pass [&ctx->cur_stream]. *)
Definition tfw_h2_stream_close (id : Z) (err_code : TfwH2Err) : H2 Z :=
  c <~ get_ctx ;;
  match c_cur_stream c with
  | Some p => tfw_h2_stream_add_closed p ;;; mod_ctx (set_c_cur_stream None)
  | None => sm_ret tt
  end ;;;
  tfw_h2_send_rst_stream id err_code.

(** [tfw_h2_stream_fsm()] through a pointer. *)
Definition stream_fsm_at (sp : option ptr) (type flags : Z) (send : bool) (err : TfwH2Err)
  : H2 (TfwStreamFsmRes * TfwH2Err) :=
  match sp with
  | None => sm_ret (STREAM_FSM_RES_IGNORE, err)
  | Some p =>
      s <~ get_stream p ;;
      match tfw_h2_stream_fsm (Some s) type flags send err with
      | Ok (Some s', res, err') => put_stream p s' ;;; sm_ret (res, err')
      | _ => sm_bug
      end
  end.

Definition STREAM_SEND_PROCESS (sp : option ptr) (type flags : Z) : H2 TfwStreamFsmRes :=
  re <~ stream_fsm_at sp type flags true HTTP2_ECODE_NO_ERROR ;;
  sm_ret (fst re).

Definition get_req (r : ptr) : H2 TfwReq :=
  fun w => match w_reqs w !! r with
           | Some q => Ok (q, w)
           | None => Bug
           end.

Definition tfw_h2_stream_id (r : ptr) : H2 Z :=
  q <~ get_req r ;;
  match r_stream q with
  | None => sm_ret 0
  | Some p => s <~ get_stream p ;; sm_ret (s_id s)
  end.

Definition tfw_h2_stream_id_close (r : ptr) (type flags : Z) : H2 Z :=
  q <~ get_req r ;;
  match r_stream q with
  | None => sm_ret 0
  | Some p =>
      id <~ (if type <? _HTTP2_UNDEFINED then
               res <~ STREAM_SEND_PROCESS (Some p) type flags ;;
               (if bool_decide (res = STREAM_FSM_RES_OK)
                then s <~ get_stream p ;; sm_ret (s_id s) else sm_ret 0)
             else sm_ret 0) ;;
      sm_mod (fun w => set_w_reqs (<[r := MkReq None (r_fully_parsed q)]> (w_reqs w)) w) ;;;
      s <~ get_stream p ;;
      put_stream p (set_s_msg None s) ;;;
      __tfw_h2_stream_add_closed p ;;;
      sm_ret id
  end.

(** The [while (1)] of [tfw_h2_closed_streams_shrink()]: each round frees the
    head of the queue, so its length bounds the rounds. *)
Fixpoint closed_streams_shrink_loop (fuel : nat) : H2 unit :=
  match fuel with
  | O => sm_bug
  | S fuel' =>
      c <~ get_ctx ;;
      if (c_hclosed_num c <=? TFW_MAX_CLOSED_STREAMS)
         || ((st_max_streams (c_lsettings c) =? c_streams_num c)
             && negb (c_hclosed_num c =? 0))
      then sm_ret tt
      else
        match c_hclosed_list c with
        | [] => sm_bug
        | cur :: _ =>
            __tfw_h2_stream_unlink cur ;;;
            tfw_h2_stream_clean cur ;;;
            closed_streams_shrink_loop fuel'
        end
  end.

Definition tfw_h2_closed_streams_shrink : H2 unit :=
  c <~ get_ctx ;;
  closed_streams_shrink_loop (S (length (c_hclosed_list c))).

Definition tfw_h2_check_closed_stream : H2 unit :=
  c <~ get_ctx ;;
  match c_cur_stream c with
  | None => sm_bug
  | Some p =>
      s <~ get_stream p ;;
      if tfw_h2_stream_is_closed s then tfw_h2_current_stream_remove else sm_ret tt
  end.

End ops.

(** ** The frame header on the wire *)

Definition hdr_wf (hdr : TfwFrameHdr) : Prop :=
  0 <= f_length hdr < 2 ^ 24 /\ is_u8 (f_type hdr) /\ is_u8 (f_flags hdr) /\
  0 <= f_stream_id hdr < 2 ^ 31.

Lemma div_bytes v : 0 <= v < 2 ^ 32 ->
  (v / 2 ^ 24) mod 256 * 2 ^ 24 + (v / 2 ^ 16) mod 256 * 2 ^ 16 + (v / 2 ^ 8) mod 256 * 2 ^ 8
    + v mod 256 = v.
Proof. intros Hv. Z.to_euclidean_division_equations. lia. Qed.

Lemma div_top_bytes v t : 0 <= v < 2 ^ 24 -> 0 <= t < 2 ^ 8 ->
  Z.shiftr ((v * 2 ^ 8 / 2 ^ 24) mod 256 * 2 ^ 24 + (v * 2 ^ 8 / 2 ^ 16) mod 256 * 2 ^ 16
    + (v * 2 ^ 8 / 2 ^ 8) mod 256 * 2 ^ 8 + t) 8 = v.
Proof.
  intros Hv Ht. rewrite Z.shiftr_div_pow2 by lia. Z.to_euclidean_division_equations. lia.
Qed.

Lemma unpack_pack hdr rest :
  hdr_wf hdr -> tfw_h2_unpack_frame_header (tfw_h2_pack_frame_header hdr ++ rest) = hdr.
Proof.
  destruct hdr as [len id ty fl]. intros (Hl & Ht & Hf & Hi). cbn [f_length f_type f_flags f_stream_id] in *.
  unfold tfw_h2_pack_frame_header, tfw_h2_unpack_frame_header, htonl_bytes, ntohl_at, byte_at.
  cbn [f_length f_type f_flags f_stream_id take app lookup list_lookup Nat.add default].
  rewrite Z.shiftl_mul_pow2 by lia. rewrite u32_small by (unfold is_u32; lia).
  unfold FRAME_STREAM_ID_MASK. f_equal.
  - by apply div_top_bytes.
  - transitivity (Z.land id (Z.ones 31)); [f_equal; apply div_bytes; lia |].
    apply land_ones_small; lia.
Qed.

Lemma pack_unpack buf :
  bytes_ok buf -> length buf = 9%nat -> byte_at buf 5 < 128 ->
  tfw_h2_pack_frame_header (tfw_h2_unpack_frame_header buf) = buf /\
  hdr_wf (tfw_h2_unpack_frame_header buf).
Proof.
  intros Hb Hl H5. do 9 (destruct buf as [|? buf]; [done |]). destruct buf; [| done].
  do 9 (apply Forall_cons in Hb as [? Hb]).
  unfold is_u8 in *. cbn in H5.
  unfold hdr_wf, is_u8, tfw_h2_pack_frame_header, tfw_h2_unpack_frame_header, htonl_bytes, ntohl_at, byte_at.
  cbn [f_length f_type f_flags f_stream_id take app lookup list_lookup Nat.add]. simpl default.
  unfold FRAME_STREAM_ID_MASK. change (2 ^ 31 - 1) with (Z.ones 31).
  rewrite land_ones_small by lia. rewrite Z.shiftr_div_pow2, Z.shiftl_mul_pow2 by lia.
  rewrite u32_small by (unfold is_u32; Z.to_euclidean_division_equations; lia).
  split; [| split; [Z.to_euclidean_division_equations; lia | lia]].
  repeat f_equal; Z.to_euclidean_division_equations; lia.
Qed.

(** The nine bytes of a frame header and [TfwFrameHdr] determine each other: what
    [tfw_h2_pack_frame_header()] writes for a header with a 24-bit length and a 31-bit stream
    identifier, [tfw_h2_unpack_frame_header()] reads back whatever follows; and every nine bytes with
    the reserved bit clear are what is written for the header they hold. *)
Theorem frame_header_roundtrip (hdr : TfwFrameHdr) (buf rest : bytes) :
  hdr_wf hdr -> bytes_ok buf -> length buf = 9%nat -> byte_at buf 5 < 128 ->
  tfw_h2_unpack_frame_header (tfw_h2_pack_frame_header hdr ++ rest) = hdr /\
  tfw_h2_pack_frame_header (tfw_h2_unpack_frame_header buf) = buf.
Proof.
  intros Hh Hb Hl H5. split; [by apply unpack_pack | by apply pack_unpack].
Qed.

(** A HEADERS frame of 16384 bytes on stream 3, and a PING on stream 0. *)
Lemma frame_header_roundtrip_witness :
  tfw_h2_unpack_frame_header (tfw_h2_pack_frame_header (MkHdr 16384 3 1 4) ++ [7]) =
    MkHdr 16384 3 1 4 /\
  tfw_h2_pack_frame_header (tfw_h2_unpack_frame_header [0; 0; 8; 6; 0; 0; 0; 0; 0]) =
    [0; 0; 8; 6; 0; 0; 0; 0; 0].
Proof.
  apply (frame_header_roundtrip (MkHdr 16384 3 1 4) [0; 0; 8; 6; 0; 0; 0; 0; 0] [7]).
  - unfold hdr_wf, is_u8. simpl. lia.
  - repeat constructor; unfold is_u8; lia.
  - reflexivity.
  - reflexivity.
Defined.
