(* ===== verification/H2Frame.v ===== *)
(** Reception of HTTP/2 frames ([fw/http_frame.c]): the handlers of the frame
    types and the byte-driven state machine [tfw_h2_frame_recv()] that calls
    them.  A handler is a computation on the [World] of [H2Ctx.v] that returns
    the C return code. *)

From S2P Require Import Prelude RbTree H2Stream H2Ctx.
Local Open Scope Z_scope.

Section handlers.
Context `{RbLib} `{Env}.

(** ** Macros *)

Definition set_length (v : Z) (c : TfwH2Ctx) : TfwH2Ctx :=
  set_c_hdr (set_f_length v (c_hdr c)) c.

Definition SET_TO_READ (c : TfwH2Ctx) : TfwH2Ctx :=
  set_length 0 (set_c_to_read (f_length (c_hdr c)) c).

Definition SET_TO_READ_VERIFY (next_state : TfwFrameState) (c : TfwH2Ctx) : TfwH2Ctx :=
  let c' := set_c_to_read (f_length (c_hdr c)) c in
  if negb (f_length (c_hdr c) =? 0)
  then set_length 0 (set_c_state next_state c')
  else set_c_state HTTP2_IGNORE_FRAME_DATA c'.

(** [goto conn_term] and the failing branch of [VERIFY_FRAME_SIZE]. *)
Definition conn_term (err_code : TfwH2Err) : H2 Z :=
  tfw_h2_conn_terminate err_code ;;; sm_ret T_DROP.

Definition VERIFY_FRAME_SIZE (k : H2 Z) : H2 Z :=
  c <~ get_ctx ;;
  if f_length (c_hdr c) <? 0 then conn_term HTTP2_ECODE_SIZE else k.

(** [STREAM_RECV_PROCESS]: [Some r] when the macro returns [r] from the
    enclosing function, [None] when it falls through. *)
Definition STREAM_RECV_PROCESS : H2 (option Z) :=
  c <~ get_ctx ;;
  let hdr := c_hdr c in
  match c_cur_stream c with
  | None => sm_bug
  | Some p =>
      re <~ stream_fsm_at (Some p) (f_type hdr) (f_flags hdr) false HTTP2_ECODE_NO_ERROR ;;
      let '(res, err) := re in
      match res with
      | STREAM_FSM_RES_OK => sm_ret None
      | _ =>
          mod_ctx (SET_TO_READ_VERIFY HTTP2_IGNORE_FRAME_DATA) ;;;
          match res with
          | STREAM_FSM_RES_TERM_CONN =>
              tfw_h2_conn_terminate err ;;; sm_ret (Some T_DROP)
          | STREAM_FSM_RES_TERM_STREAM =>
              r <~ tfw_h2_stream_close (f_stream_id hdr) err ;; sm_ret (Some r)
          | _ => sm_ret (Some T_OK)
          end
      end
  end.

(** ** Frame parts *)

Definition tfw_h2_recv_priority : H2 Z :=
  mod_ctx (fun c =>
    set_c_plen (u32 (c_plen c - FRAME_PRIORITY_SIZE))
      (set_length (f_length (c_hdr c) - FRAME_PRIORITY_SIZE)
         (set_c_to_read FRAME_PRIORITY_SIZE c))) ;;;
  VERIFY_FRAME_SIZE (mod_ctx (set_c_state HTTP2_RECV_HEADER_PRI) ;;; sm_ret T_OK).

Definition tfw_h2_recv_padded : H2 Z :=
  mod_ctx (fun c =>
    set_c_plen (u32 (c_plen c - 1))
      (set_length (f_length (c_hdr c) - 1) (set_c_to_read 1 c))) ;;;
  VERIFY_FRAME_SIZE (mod_ctx (set_c_state HTTP2_RECV_FRAME_PADDED) ;;; sm_ret T_OK).

Definition tfw_h2_headers_pri_process : H2 Z :=
  c <~ get_ctx ;;
  bug_on (negb (has_flag (f_flags (c_hdr c)) HTTP2_F_PRIORITY)) ;;;
  mod_ctx (fun c =>
    SET_TO_READ_VERIFY HTTP2_RECV_HEADER
      (set_c_data_off (u8 (c_data_off c + FRAME_PRIORITY_SIZE))
         (set_c_priority (tfw_h2_unpack_priority (c_rbuf c)) c))) ;;;
  sm_ret T_OK.

(** ** Processing of fully received frames *)

Definition tfw_h2_stream_state_process : H2 Z :=
  o <~ STREAM_RECV_PROCESS ;;
  match o with
  | Some r => sm_ret r
  | None => tfw_h2_check_closed_stream ;;; sm_ret T_OK
  end.

(** [if (!STREAM_SEND_PROCESS(cur_stream, RST_STREAM, 0)) return
    tfw_h2_stream_close(..., HTTP2_ECODE_PROTO); return T_OK;] *)
Definition reset_current_stream : H2 Z :=
  c <~ get_ctx ;;
  res <~ STREAM_SEND_PROCESS (c_cur_stream c) HTTP2_RST_STREAM 0 ;;
  if bool_decide (res = STREAM_FSM_RES_OK)
  then tfw_h2_stream_close (f_stream_id (c_hdr c)) HTTP2_ECODE_PROTO
  else sm_ret T_OK.

Definition tfw_h2_headers_process : H2 Z :=
  c <~ get_ctx ;;
  if p_stream_id (c_priority c) =? f_stream_id (c_hdr c) then
    mod_ctx (set_c_state HTTP2_IGNORE_FRAME_DATA) ;;;
    reset_current_stream
  else
    match c_cur_stream c with
    | Some _ => tfw_h2_stream_state_process
    | None =>
        o <~ tfw_h2_stream_create (f_stream_id (c_hdr c)) ;;
        mod_ctx (set_c_cur_stream o) ;;;
        match o with
        | None => sm_ret T_DROP
        | Some _ =>
            mod_ctx (fun c => set_c_lstream_id (f_stream_id (c_hdr c)) c) ;;;
            tfw_h2_stream_state_process
        end
    end.

Definition tfw_h2_wnd_update_process : H2 Z :=
  c <~ get_ctx ;;
  if negb (Z.land (ntohl_at (c_rbuf c) 0) (2 ^ 31 - 1) =? 0) then sm_ret T_OK
  else
    match c_cur_stream c with
    | None => conn_term HTTP2_ECODE_PROTO
    | Some _ => reset_current_stream
    end.

Definition tfw_h2_priority_process : H2 Z :=
  mod_ctx (fun c => set_c_priority (tfw_h2_unpack_priority (c_rbuf c)) c) ;;;
  c <~ get_ctx ;;
  if negb (p_stream_id (c_priority c) =? f_stream_id (c_hdr c)) then sm_ret T_OK
  else reset_current_stream.

Definition tfw_h2_rst_stream_process : H2 unit :=
  c <~ get_ctx ;;
  bug_on (bool_decide (c_cur_stream c = None)) ;;;
  tfw_h2_current_stream_remove.

Definition tfw_h2_apply_settings_entry (id val : Z) : H2 Z :=
  let upd f := mod_ctx (fun c => set_c_rsettings (f (c_rsettings c)) c) ;;; sm_ret T_OK in
  if id =? HTTP2_SETTINGS_TABLE_SIZE then
    let sz := Z.min val HPACK_ENC_TABLE_MAX_SIZE in
    mod_ctx (fun c => set_c_rsettings (with_hdr_tbl_sz sz (c_rsettings c)) c) ;;;
    c <~ get_ctx ;;
    match tfw_hpack_set_rbuf_size (hp_enc_tbl (c_hpack c)) (u16 sz) with
    | Bug => sm_bug
    | Ok tbl => mod_ctx (fun c => set_c_hpack (set_hp_enc_tbl tbl (c_hpack c)) c) ;;; sm_ret T_OK
    end
  else if id =? HTTP2_SETTINGS_ENABLE_PUSH then
    if 1 <? val then sm_ret T_BAD else upd (with_push val)
  else if id =? HTTP2_SETTINGS_MAX_STREAMS then upd (with_max_streams val)
  else if id =? HTTP2_SETTINGS_INIT_WND_SIZE then
    if MAX_WND_SIZE <? val then sm_ret T_BAD else upd (with_wnd_sz val)
  else if id =? HTTP2_SETTINGS_MAX_FRAME_SIZE then
    if (val <? FRAME_DEF_LENGTH) || (FRAME_MAX_LENGTH <? val) then sm_ret T_BAD
    else upd (with_max_frame_sz val)
  else if id =? HTTP2_SETTINGS_MAX_HDR_LIST_SIZE then upd (with_max_lhdr_sz val)
  else sm_ret T_OK.

Definition tfw_h2_settings_ack_process : H2 unit :=
  mod_ctx (fun c => set_c_hpack (set_hp_max_window (st_hdr_tbl_sz (c_lsettings c)) (c_hpack c)) c).

(** [ctx->to_read = hdr->length ? FRAME_SETTINGS_ENTRY_SIZE : 0;
    hdr->length -= ctx->to_read;] *)
Definition next_settings_entry (c : TfwH2Ctx) : TfwH2Ctx :=
  let n := if f_length (c_hdr c) =? 0 then 0 else FRAME_SETTINGS_ENTRY_SIZE in
  set_length (f_length (c_hdr c) - n) (set_c_to_read n c).

Definition tfw_h2_settings_process : H2 Z :=
  c <~ get_ctx ;;
  r <~ tfw_h2_apply_settings_entry (ntohs_at (c_rbuf c) 0) (ntohl_at (c_rbuf c) 2) ;;
  if negb (r =? 0) then sm_ret T_BAD
  else mod_ctx next_settings_entry ;;; sm_ret T_OK.

Definition tfw_h2_goaway_process : H2 Z := mod_ctx SET_TO_READ ;;; sm_ret T_OK.

Definition tfw_h2_first_settings_verify : H2 Z :=
  c <~ get_ctx ;;
  bug_on (negb (c_to_read c =? 0)) ;;;
  mod_ctx (fun c => set_c_hdr (tfw_h2_unpack_frame_header (c_rbuf c)) c) ;;;
  c <~ get_ctx ;;
  let hdr := c_hdr c in
  let err :=
    if negb (f_length hdr =? 0)
       && negb (Z.rem (f_length hdr) FRAME_SETTINGS_ENTRY_SIZE =? 0)
    then HTTP2_ECODE_SIZE
    else if negb (f_type hdr =? HTTP2_SETTINGS)
            || has_flag (f_flags hdr) HTTP2_F_ACK || negb (f_stream_id hdr =? 0)
    then HTTP2_ECODE_PROTO else HTTP2_ECODE_NO_ERROR in
  if bool_decide (err <> HTTP2_ECODE_NO_ERROR) then conn_term err
  else mod_ctx next_settings_entry ;;; sm_ret T_OK.

(** ** Frame header checks *)

Definition tfw_h2_stream_id_verify : H2 Z :=
  c <~ get_ctx ;;
  match c_cur_stream c with
  | Some _ => sm_ret T_OK
  | None =>
      if f_stream_id (c_hdr c) <=? c_lstream_id c then sm_ret T_DROP
      else if negb (has_flag (f_stream_id (c_hdr c)) 0x1) then sm_ret T_DROP
      else sm_ret T_OK
  end.

Definition tfw_h2_flow_control : H2 Z :=
  c <~ get_ctx ;;
  match c_cur_stream c with
  | None => sm_bug
  | Some p =>
      s <~ get_stream p ;;
      let len := f_length (c_hdr c) in
      let wnd_sz := st_wnd_sz (c_lsettings c) in
      let swnd := u32 (s_loc_wnd s - len) in
      put_stream p (set_s_loc_wnd swnd s) ;;;
      mod_ctx (fun c => set_c_loc_wnd (u32 (c_loc_wnd c - len)) c) ;;;
      r <~ (if swnd <=? wnd_sz / 2 then
              r <~ tfw_h2_send_wnd_update (s_id s) (u32 (wnd_sz - swnd)) ;;
              if negb (r =? 0) then sm_ret T_DROP
              else s <~ get_stream p ;;
                   put_stream p (set_s_loc_wnd wnd_sz s) ;;; sm_ret T_OK
            else sm_ret T_OK) ;;
      if negb (r =? T_OK) then sm_ret T_DROP
      else
        c <~ get_ctx ;;
        if c_loc_wnd c <=? MAX_WND_SIZE / 2 then
          r <~ tfw_h2_send_wnd_update 0 (u32 (MAX_WND_SIZE - c_loc_wnd c)) ;;
          if negb (r =? 0) then sm_ret T_DROP
          else mod_ctx (set_c_loc_wnd MAX_WND_SIZE) ;;; sm_ret T_OK
        else sm_ret T_OK
  end.

Definition tfw_h2_frame_pad_process : H2 Z :=
  mod_ctx (fun c =>
    let padlen := byte_at (c_rbuf c) 0 in
    set_length (f_length (c_hdr c) - padlen)
      (set_c_padlen padlen (set_c_data_off (u8 (c_data_off c + 1)) c))) ;;;
  VERIFY_FRAME_SIZE (
    c <~ get_ctx ;;
    if f_length (c_hdr c) =? 0 then
      mod_ctx (fun c => set_c_to_read 0 (set_c_state HTTP2_IGNORE_FRAME_DATA c)) ;;;
      sm_ret T_OK
    else if f_type (c_hdr c) =? HTTP2_DATA then
      mod_ctx (fun c => SET_TO_READ (set_c_state HTTP2_RECV_DATA c)) ;;; sm_ret T_OK
    else if f_type (c_hdr c) =? HTTP2_HEADERS then
      if has_flag (f_flags (c_hdr c)) HTTP2_F_PRIORITY then tfw_h2_recv_priority
      else mod_ctx (fun c => SET_TO_READ (set_c_state HTTP2_RECV_HEADER c)) ;;; sm_ret T_OK
    else sm_bug).

(** ** [tfw_h2_frame_type_process()]: one definition per [case] *)

(** [ctx->cur_stream = tfw_h2_find_stream(&ctx->sched, hdr->stream_id)] *)
Definition find_current_stream : H2 (option ptr) :=
  w <~ sm_get ;;
  match tfw_h2_find_stream (w_heap w) (c_sched (w_ctx w)) (f_stream_id (c_hdr (w_ctx w))) with
  | Bug => sm_bug
  | Ok o => mod_ctx (set_c_cur_stream o) ;;; sm_ret o
  end.

Definition begin_app_frame (c : TfwH2Ctx) : TfwH2Ctx :=
  set_c_plen (u32 (f_length (c_hdr c))) (set_c_data_off FRAME_HEADER_SIZE c).

(** [STREAM_RECV_PROCESS(ctx, hdr); ctx->state = next; SET_TO_READ(ctx);
    return T_OK;] *)
Definition recv_process_then (next : TfwFrameState) : H2 Z :=
  o <~ STREAM_RECV_PROCESS ;;
  match o with
  | Some r => sm_ret r
  | None => mod_ctx (fun c => SET_TO_READ (set_c_state next c)) ;;; sm_ret T_OK
  end.

Definition type_data (hdr : TfwFrameHdr) : H2 Z :=
  c <~ get_ctx ;;
  if f_stream_id hdr =? 0 then conn_term HTTP2_ECODE_PROTO
  else if c_lstream_id c <? f_stream_id hdr then conn_term HTTP2_ECODE_PROTO
  else
    o <~ find_current_stream ;;
    match o with
    | None => conn_term HTTP2_ECODE_CLOSED
    | Some _ =>
        r <~ tfw_h2_flow_control ;;
        if negb (r =? 0) then sm_ret T_DROP
        else
          mod_ctx begin_app_frame ;;;
          if has_flag (f_flags hdr) HTTP2_F_PADDED then tfw_h2_recv_padded
          else mod_ctx (SET_TO_READ_VERIFY HTTP2_RECV_DATA) ;;; sm_ret T_OK
    end.

Definition type_headers (hdr : TfwFrameHdr) : H2 Z :=
  if f_stream_id hdr =? 0 then conn_term HTTP2_ECODE_PROTO
  else
    o <~ find_current_stream ;;
    v <~ tfw_h2_stream_id_verify ;;
    if negb (v =? 0) then conn_term HTTP2_ECODE_PROTO
    else
      refused <~ match o with
        | Some _ => sm_ret false
        | None =>
            c <~ get_ctx ;;
            tfw_h2_closed_streams_shrink ;;;
            c' <~ get_ctx ;;
            sm_ret (st_max_streams (c_lsettings c) =? c_streams_num c')
        end ;;
      if (refused : bool) then
        mod_ctx (SET_TO_READ_VERIFY HTTP2_IGNORE_FRAME_DATA) ;;;
        tfw_h2_send_rst_stream (f_stream_id hdr) HTTP2_ECODE_REFUSED
      else
        mod_ctx begin_app_frame ;;;
        if has_flag (f_flags hdr) HTTP2_F_PADDED then tfw_h2_recv_padded
        else if has_flag (f_flags hdr) HTTP2_F_PRIORITY then tfw_h2_recv_priority
        else mod_ctx (SET_TO_READ_VERIFY HTTP2_RECV_HEADER) ;;; sm_ret T_OK.

Definition type_priority (hdr : TfwFrameHdr) : H2 Z :=
  if f_stream_id hdr =? 0 then conn_term HTTP2_ECODE_PROTO
  else
    o <~ find_current_stream ;;
    if negb (f_length hdr =? FRAME_PRIORITY_SIZE) then conn_term HTTP2_ECODE_SIZE
    else
      match o with
      | Some _ => recv_process_then HTTP2_RECV_FRAME_PRIORITY
      | None =>
          mod_ctx (fun c => SET_TO_READ (set_c_state HTTP2_RECV_FRAME_PRIORITY c)) ;;;
          sm_ret T_OK
      end.

Definition type_window_update (hdr : TfwFrameHdr) : H2 Z :=
  c <~ get_ctx ;;
  if negb (f_length hdr =? FRAME_WND_UPDATE_SIZE) then conn_term HTTP2_ECODE_SIZE
  else if c_lstream_id c <? f_stream_id hdr then conn_term HTTP2_ECODE_PROTO
  else if negb (f_stream_id hdr =? 0) then
    o <~ find_current_stream ;;
    match o with
    | None => conn_term HTTP2_ECODE_CLOSED
    | Some _ => recv_process_then HTTP2_RECV_FRAME_WND_UPDATE
    end
  else
    mod_ctx (fun c => SET_TO_READ (set_c_state HTTP2_RECV_FRAME_WND_UPDATE c)) ;;;
    sm_ret T_OK.

Definition type_settings (hdr : TfwFrameHdr) : H2 Z :=
  if negb (f_stream_id hdr =? 0) then conn_term HTTP2_ECODE_PROTO
  else if negb (Z.rem (f_length hdr) FRAME_SETTINGS_ENTRY_SIZE =? 0)
          || (has_flag (f_flags hdr) HTTP2_F_ACK && (0 <? f_length hdr))
  then conn_term HTTP2_ECODE_SIZE
  else
    (if has_flag (f_flags hdr) HTTP2_F_ACK then tfw_h2_settings_ack_process else sm_ret tt) ;;;
    (if negb (f_length hdr =? 0) then
       mod_ctx (fun c =>
         set_length (f_length (c_hdr c) - FRAME_SETTINGS_ENTRY_SIZE)
           (set_c_to_read FRAME_SETTINGS_ENTRY_SIZE
              (set_c_state HTTP2_RECV_FRAME_SETTINGS c)))
     else mod_ctx (set_c_to_read 0)) ;;;
    sm_ret T_OK.

Definition type_ping (hdr : TfwFrameHdr) : H2 Z :=
  if negb (f_stream_id hdr =? 0) then conn_term HTTP2_ECODE_PROTO
  else if negb (f_length hdr =? FRAME_PING_SIZE) then conn_term HTTP2_ECODE_SIZE
  else
    mod_ctx (fun c => SET_TO_READ (set_c_state HTTP2_RECV_FRAME_PING c)) ;;; sm_ret T_OK.

Definition type_rst_stream (hdr : TfwFrameHdr) : H2 Z :=
  c <~ get_ctx ;;
  if f_stream_id hdr =? 0 then conn_term HTTP2_ECODE_PROTO
  else if negb (f_length hdr =? FRAME_RST_STREAM_SIZE) then conn_term HTTP2_ECODE_SIZE
  else if c_lstream_id c <? f_stream_id hdr then conn_term HTTP2_ECODE_PROTO
  else
    o <~ find_current_stream ;;
    match o with
    | None => conn_term HTTP2_ECODE_CLOSED
    | Some _ => recv_process_then HTTP2_RECV_FRAME_RST_STREAM
    end.

Definition type_goaway (hdr : TfwFrameHdr) : H2 Z :=
  if negb (f_stream_id hdr =? 0) then conn_term HTTP2_ECODE_PROTO
  else if f_length hdr <? FRAME_GOAWAY_SIZE then conn_term HTTP2_ECODE_SIZE
  else
    mod_ctx (fun c =>
      set_length (f_length (c_hdr c) - FRAME_GOAWAY_SIZE)
        (set_c_to_read FRAME_GOAWAY_SIZE (set_c_state HTTP2_RECV_FRAME_GOAWAY c))) ;;;
    sm_ret T_OK.

Definition type_continuation (hdr : TfwFrameHdr) : H2 Z :=
  c <~ get_ctx ;;
  if f_stream_id hdr =? 0 then conn_term HTTP2_ECODE_PROTO
  else if c_lstream_id c <? f_stream_id hdr then conn_term HTTP2_ECODE_PROTO
  else
    o <~ find_current_stream ;;
    match o with
    | None => conn_term HTTP2_ECODE_CLOSED
    | Some _ =>
        mod_ctx (fun c => SET_TO_READ_VERIFY HTTP2_RECV_CONT (begin_app_frame c)) ;;;
        sm_ret T_OK
    end.

Definition tfw_h2_frame_type_process : H2 Z :=
  c <~ get_ctx ;;
  let hdr := c_hdr c in
  if st_max_frame_sz (c_lsettings c) <? f_length hdr then conn_term HTTP2_ECODE_SIZE
  else if f_type hdr =? HTTP2_DATA then type_data hdr
  else if f_type hdr =? HTTP2_HEADERS then type_headers hdr
  else if f_type hdr =? HTTP2_PRIORITY then type_priority hdr
  else if f_type hdr =? HTTP2_WINDOW_UPDATE then type_window_update hdr
  else if f_type hdr =? HTTP2_SETTINGS then type_settings hdr
  else if f_type hdr =? HTTP2_PUSH_PROMISE then conn_term HTTP2_ECODE_PROTO
  else if f_type hdr =? HTTP2_PING then type_ping hdr
  else if f_type hdr =? HTTP2_RST_STREAM then type_rst_stream hdr
  else if f_type hdr =? HTTP2_GOAWAY then type_goaway hdr
  else if f_type hdr =? HTTP2_CONTINUATION then type_continuation hdr
  else
    mod_ctx (fun c => SET_TO_READ (set_c_state HTTP2_IGNORE_FRAME_DATA c)) ;;; sm_ret T_OK.

(** ** The reception FSM *)

(** How a state of the FSM ends: leave with a return code, the state to
    resume in and the position, or go on in another state. *)
Inductive fsm_next : Type :=
| FsmExit (r : Z) (st : TfwFrameState) (off : Z)
| FsmGoto (st : TfwFrameState) (off : Z).

Section recv.
Variable buf : bytes.
Let len : Z := zlen buf.

(** [memcpy_fast(ctx->rbuf + ctx->rlen, p, n)] *)
Definition rbuf_write (rbuf : bytes) (pos : nat) (data : bytes) : bytes :=
  take pos rbuf ++ data ++ drop (pos + length data) rbuf.

Definition buf_slice (off n : Z) : bytes := take (Z.to_nat n) (drop (Z.to_nat off) buf).

Definition FRAME_FSM_EXIT (st : TfwFrameState) (ret off : Z) : H2 fsm_next :=
  mod_ctx (set_c_rlen 0) ;;; sm_ret (FsmExit ret st off).

Definition FRAME_FSM_MOVE (st : TfwFrameState) (off : Z) : H2 fsm_next :=
  mod_ctx (set_c_rlen 0) ;;;
  if len <=? off then sm_ret (FsmExit T_POSTPONE st off) else sm_ret (FsmGoto st off).

Definition FRAME_FSM_NEXT (off : Z) : H2 fsm_next :=
  mod_ctx (set_c_rlen 0) ;;;
  c <~ get_ctx ;;
  if len <=? off then sm_ret (FsmExit T_POSTPONE (c_state c) off)
  else sm_ret (FsmGoto (c_state c) off).

(** [FRAME_FSM_READ_LAMBDA]: [lambda] sees the number of bytes to take and may
    leave the FSM. *)
Definition FRAME_FSM_READ_LAMBDA (st : TfwFrameState) (to_read off : Z)
    (lambda : Z -> H2 (option fsm_next)) (k : Z -> H2 fsm_next) : H2 fsm_next :=
  c <~ get_ctx ;;
  let n := Z.min (to_read - c_rlen c) (len - off) in
  bug_on (n <? 0) ;;;
  o <~ lambda n ;;
  match o with
  | Some out => sm_ret out
  | None =>
      mod_ctx (fun c => set_c_rlen (c_rlen c + n) c) ;;;
      c <~ get_ctx ;;
      if c_rlen c <? to_read then sm_ret (FsmExit T_POSTPONE st (off + n))
      else k (off + n)
  end.

Definition FRAME_FSM_READ_SRVC (st : TfwFrameState) (to_read off : Z)
    (k : Z -> H2 fsm_next) : H2 fsm_next :=
  bug_on (FRAME_HEADER_SIZE <? to_read) ;;;
  FRAME_FSM_READ_LAMBDA st to_read off
    (fun n => mod_ctx (fun c =>
       set_c_rbuf (rbuf_write (c_rbuf c) (Z.to_nat (c_rlen c)) (buf_slice off n)) c) ;;;
       sm_ret None) k.

Definition FRAME_FSM_READ (st : TfwFrameState) (to_read off : Z)
    (k : Z -> H2 fsm_next) : H2 fsm_next :=
  FRAME_FSM_READ_LAMBDA st to_read off (fun _ => sm_ret None) k.

(** [if (handler(ctx)) FRAME_FSM_EXIT(T_DROP);] *)
Definition or_drop (st : TfwFrameState) (off : Z) (handler : H2 Z) (k : H2 fsm_next)
  : H2 fsm_next :=
  r <~ handler ;;
  if negb (r =? 0) then FRAME_FSM_EXIT st T_DROP off else k.

(** [if (ctx->to_read) more; FRAME_FSM_EXIT(T_OK);] *)
Definition if_to_read (st : TfwFrameState) (off : Z) (more : H2 fsm_next) : H2 fsm_next :=
  c <~ get_ctx ;;
  if negb (c_to_read c =? 0) then more else FRAME_FSM_EXIT st T_OK off.

Definition st_cli_start_seq (off : Z) : H2 fsm_next :=
  let st := HTTP2_RECV_CLI_START_SEQ in
  FRAME_FSM_READ_LAMBDA st FRAME_PREFACE_CLI_MAGIC_LEN off
    (fun n =>
       c <~ get_ctx ;;
       if bool_decide
            (take (Z.to_nat n) (drop (Z.to_nat (c_rlen c)) FRAME_PREFACE_CLI_MAGIC)
             = buf_slice off n)
       then sm_ret None
       else out <~ FRAME_FSM_EXIT st T_DROP off ;; sm_ret (Some out))
    (fun off =>
       r <~ tfw_h2_send_settings_init ;;
       if negb (r =? 0) then FRAME_FSM_EXIT st T_DROP off
       else or_drop st off (tfw_h2_send_wnd_update 0 (MAX_WND_SIZE - DEF_WND_SIZE))
              (FRAME_FSM_MOVE HTTP2_RECV_FIRST_SETTINGS off)).

Definition st_first_settings (off : Z) : H2 fsm_next :=
  let st := HTTP2_RECV_FIRST_SETTINGS in
  FRAME_FSM_READ_SRVC st FRAME_HEADER_SIZE off (fun off =>
    or_drop st off tfw_h2_first_settings_verify
      (if_to_read st off (FRAME_FSM_MOVE HTTP2_RECV_FRAME_SETTINGS off))).

Definition st_frame_header (off : Z) : H2 fsm_next :=
  let st := HTTP2_RECV_FRAME_HEADER in
  FRAME_FSM_READ_SRVC st FRAME_HEADER_SIZE off (fun off =>
    mod_ctx (fun c => set_c_hdr (tfw_h2_unpack_frame_header (c_rbuf c)) c) ;;;
    or_drop st off tfw_h2_frame_type_process
      (if_to_read st off (FRAME_FSM_NEXT off))).

Definition st_padded (off : Z) : H2 fsm_next :=
  let st := HTTP2_RECV_FRAME_PADDED in
  c <~ get_ctx ;;
  FRAME_FSM_READ_SRVC st (c_to_read c) off (fun off =>
    or_drop st off tfw_h2_frame_pad_process (if_to_read st off (FRAME_FSM_NEXT off))).

Definition st_ping (off : Z) : H2 fsm_next :=
  let st := HTTP2_RECV_FRAME_PING in
  c <~ get_ctx ;;
  FRAME_FSM_READ_SRVC st (c_to_read c) off (fun off =>
    c <~ get_ctx ;;
    if negb (has_flag (f_flags (c_hdr c)) HTTP2_F_ACK)
    then or_drop st off tfw_h2_send_ping (FRAME_FSM_EXIT st T_OK off)
    else FRAME_FSM_EXIT st T_OK off).

Definition st_rst_stream (off : Z) : H2 fsm_next :=
  let st := HTTP2_RECV_FRAME_RST_STREAM in
  c <~ get_ctx ;;
  FRAME_FSM_READ_SRVC st (c_to_read c) off (fun off =>
    tfw_h2_rst_stream_process ;;; FRAME_FSM_EXIT st T_OK off).

Definition st_settings (off : Z) : H2 fsm_next :=
  let st := HTTP2_RECV_FRAME_SETTINGS in
  c <~ get_ctx ;;
  FRAME_FSM_READ_SRVC st (c_to_read c) off (fun off =>
    or_drop st off tfw_h2_settings_process (
      c <~ get_ctx ;;
      if negb (c_to_read c =? 0) then FRAME_FSM_MOVE HTTP2_RECV_FRAME_SETTINGS off
      else or_drop st off tfw_h2_send_settings_ack (FRAME_FSM_EXIT st T_OK off))).

Definition st_goaway (off : Z) : H2 fsm_next :=
  let st := HTTP2_RECV_FRAME_GOAWAY in
  c <~ get_ctx ;;
  FRAME_FSM_READ_SRVC st (c_to_read c) off (fun off =>
    or_drop st off tfw_h2_goaway_process
      (if_to_read st off (FRAME_FSM_MOVE HTTP2_IGNORE_FRAME_DATA off))).

Definition st_header_pri (off : Z) : H2 fsm_next :=
  let st := HTTP2_RECV_HEADER_PRI in
  c <~ get_ctx ;;
  FRAME_FSM_READ_SRVC st (c_to_read c) off (fun off =>
    or_drop st off tfw_h2_headers_pri_process (if_to_read st off (FRAME_FSM_NEXT off))).

(** The states that read a service payload and then run one handler. *)
Definition st_srvc (st : TfwFrameState) (handler : H2 Z) (off : Z) : H2 fsm_next :=
  c <~ get_ctx ;;
  FRAME_FSM_READ_SRVC st (c_to_read c) off (fun off =>
    or_drop st off handler (FRAME_FSM_EXIT st T_OK off)).

(** The states that skip the payload of an app frame and then run one handler. *)
Definition st_app (st : TfwFrameState) (handler : H2 Z) (off : Z) : H2 fsm_next :=
  c <~ get_ctx ;;
  FRAME_FSM_READ st (c_to_read c) off (fun off =>
    or_drop st off handler (FRAME_FSM_EXIT st T_OK off)).

Definition frame_fsm_state (st : TfwFrameState) (off : Z) : H2 fsm_next :=
  match st with
  | HTTP2_RECV_CLI_START_SEQ => st_cli_start_seq off
  | HTTP2_RECV_FIRST_SETTINGS => st_first_settings off
  | HTTP2_RECV_FRAME_HEADER => st_frame_header off
  | HTTP2_RECV_FRAME_PADDED => st_padded off
  | HTTP2_RECV_FRAME_PRIORITY => st_srvc st tfw_h2_priority_process off
  | HTTP2_RECV_FRAME_WND_UPDATE => st_srvc st tfw_h2_wnd_update_process off
  | HTTP2_RECV_FRAME_PING => st_ping off
  | HTTP2_RECV_FRAME_RST_STREAM => st_rst_stream off
  | HTTP2_RECV_FRAME_SETTINGS => st_settings off
  | HTTP2_RECV_FRAME_GOAWAY => st_goaway off
  | HTTP2_RECV_HEADER_PRI => st_header_pri off
  | HTTP2_RECV_DATA => st_app st tfw_h2_stream_state_process off
  | HTTP2_RECV_HEADER => st_app st tfw_h2_headers_process off
  | HTTP2_RECV_CONT => st_app st tfw_h2_stream_state_process off
  | HTTP2_IGNORE_FRAME_DATA => st_app st (sm_ret T_OK) off
  end.

(** The jumps between states; [FRAME_FSM_FINISH] stores the state to resume
    in.  Running out of [fuel] is a [Bug]. *)
Fixpoint frame_recv_loop (fuel : nat) (st : TfwFrameState) (off : Z) : H2 (Z * Z) :=
  match fuel with
  | O => sm_bug
  | S fuel' =>
      o <~ frame_fsm_state st off ;;
      match o with
      | FsmExit r st' off' => mod_ctx (set_c_state st') ;;; sm_ret (r, off')
      | FsmGoto st' off' => frame_recv_loop fuel' st' off'
      end
  end.

End recv.

(** [tfw_h2_frame_recv()]: the return code and the number of bytes read.  Each
    jump follows the reading of at least one byte. *)
Definition tfw_h2_frame_recv (buf : bytes) : H2 (Z * Z) :=
  c <~ get_ctx ;;
  frame_recv_loop buf (S (length buf)) (c_state c) 0.

End handlers.
