(* ===== verification/H2Inv.v ===== *)
(** The invariant of an HTTP/2 connection and its preservation by the
    operations of [H2Ctx.v].  Every lemma is a [wp] triple: it also shows that
    no [BUG()] is hit and that no freed stream or request is touched. *)

From S2P Require Import Prelude RbTree H2Stream H2Ctx.
From stdpp Require Import sorting.
Local Open Scope Z_scope.

(** ** The invariant *)

Definition etbl_len (nodes : list Z) : Z :=
  foldr (fun n acc => HPACK_ENTRY_OVERHEAD + n + acc) 0 nodes.

(** Encoder index: the pseudo-length is the sum of the entry sizes and fits the
    window. *)
Definition etbl_wf (e : TfwHPackETbl) : Prop :=
  Forall (fun n => 0 <= n) (e_nodes e) /\ e_size e = etbl_len (e_nodes e)
  /\ e_size e <= e_window e /\ 0 <= e_window e <= HPACK_ENC_TABLE_MAX_SIZE.

(** RFC 7540 section 6.5.2 for the peer's settings. *)
Definition rsettings_ok (s : TfwSettings) : Prop :=
  0 <= st_hdr_tbl_sz s <= HPACK_ENC_TABLE_MAX_SIZE /\
  0 <= st_push s <= 1 /\
  0 <= st_wnd_sz s <= MAX_WND_SIZE /\
  FRAME_DEF_LENGTH <= st_max_frame_sz s <= FRAME_MAX_LENGTH.

Definition stream_ok (lstream_id : Z) (s : TfwStream) : Prop :=
  0 < s_id s <= lstream_id /\ Z.odd (s_id s) = true /\
  0 <= s_loc_wnd s <= MAX_WND_SIZE /\
  s_state s <> HTTP2_STREAM_LOC_RESERVED /\ s_state s <> HTTP2_STREAM_REM_RESERVED.

(** The invariant on the parts of the state that live across frames. *)
Record core_c (h : heap) (reqs : gmap ptr TfwReq) (t : rbtree) (num : Z)
    (hl : list ptr) (hn lid wnd : Z) (cur : option ptr)
    (lset rset : TfwSettings) (etbl : TfwHPackETbl) : Prop := Core {
  core_wf : streams_wf h t;
  core_num : num = u64 (Z.of_nat (size h));
  core_hl_nodup : NoDup hl;
  core_hl_live p : p ∈ hl -> is_Some (h !! p);
  core_hn : hn = u64 (zlen hl);
  core_lid : 0 <= lid < 2 ^ 31;
  core_wnd : 0 <= wnd <= MAX_WND_SIZE;
  core_cur p : cur = Some p -> is_Some (h !! p);
  core_stream p s : h !! p = Some s -> stream_ok lid s;
  core_msg p s r : h !! p = Some s -> s_msg s = Some r ->
    exists q, reqs !! r = Some q /\ r_stream q = Some p;
  core_req r q p : reqs !! r = Some q -> r_stream q = Some p ->
    exists s, h !! p = Some s /\ s_msg s = Some r;
  core_lset : lset = def_settings;
  core_rset : rsettings_ok rset;
  core_etbl : etbl_wf etbl;
}.

Definition core (w : World) : Prop :=
  let c := w_ctx w in
  core_c (w_heap w) (w_reqs w) (c_sched c) (c_streams_num c) (c_hclosed_list c)
    (c_hclosed_num c) (c_lstream_id c) (c_loc_wnd c) (c_cur_stream c)
    (c_lsettings c) (c_rsettings c) (hp_enc_tbl (c_hpack c)).

(** A flow-control window that needs no update. *)
Definition wnd_open (wnd : Z) : Prop := MAX_WND_SIZE / 2 < wnd.

(** As long as the connection is not being dropped, all windows are open and no
    stored stream is CLOSED, except possibly [o]. *)
Definition live_except (o : option ptr) (w : World) : Prop :=
  wnd_open (c_loc_wnd (w_ctx w)) /\
  forall p s, w_heap w !! p = Some s ->
    wnd_open (s_loc_wnd s) /\ (o <> Some p -> s_state s <> HTTP2_STREAM_CLOSED).

(** The receive part of the context: what [core] does not constrain. *)
Definition same_recv (c c' : TfwH2Ctx) : Prop :=
  c_priority c' = c_priority c /\ c_hdr c' = c_hdr c /\ c_plen c' = c_plen c /\
  c_state c' = c_state c /\ c_to_read c' = c_to_read c /\ c_rlen c' = c_rlen c /\
  c_rbuf c' = c_rbuf c /\ c_padlen c' = c_padlen c /\ c_data_off c' = c_data_off c /\
  c_lsettings c' = c_lsettings c /\ c_loc_wnd c' = c_loc_wnd c.

Lemma same_recv_refl c : same_recv c c.
Proof. done. Qed.

Lemma same_recv_trans c1 c2 c3 : same_recv c1 c2 -> same_recv c2 c3 -> same_recv c1 c3.
Proof. unfold same_recv. intros. destruct_and!. split_and!; congruence. Qed.

#[export] Instance same_recv_preorder : PreOrder same_recv.
Proof. split; [exact same_recv_refl | exact same_recv_trans]. Qed.

Lemma filter_ne_notin (p : ptr) (l : list ptr) : p ∉ l -> filter (fun q => q <> p) l = l.
Proof.
  induction l as [|b l IH]; [done |]. intros Hp.
  apply not_elem_of_cons in Hp as [Hb Hl]. rewrite filter_cons.
  case_decide; [f_equal; auto | congruence].
Qed.

(** Unsigned 64-bit counters modulo wrap-around. *)
Lemma u64_succ n : u64 (u64 n + 1) = u64 (n + 1).
Proof. unfold u64. by rewrite Zplus_mod_idemp_l. Qed.

Lemma u64_pred n : u64 (u64 n - 1) = u64 (n - 1).
Proof. unfold u64. by rewrite Zminus_mod_idemp_l. Qed.

Lemma u64_0 : u64 0 = 0.
Proof. done. Qed.

(** ** Encoder index *)

Lemma etbl_len_nonneg nodes : Forall (fun n => 0 <= n) nodes -> 0 <= etbl_len nodes.
Proof.
  induction 1 as [|n l Hn Hl IH]; simpl; [lia |]. unfold HPACK_ENTRY_OVERHEAD. lia.
Qed.

Lemma rbuf_calc_spec new_size nodes : forall size,
  Forall (fun n => 0 <= n) nodes -> size = etbl_len nodes -> size < 2 ^ 16 ->
  0 <= new_size < size ->
  exists gone rest, tfw_hpack_rbuf_calc nodes size new_size = Ok (rest, etbl_len rest)
    /\ nodes = gone ++ rest /\ etbl_len rest <= new_size.
Proof.
  induction nodes as [|n l IH]; intros size Hall Hsz Hmax Hnew; [simpl in Hsz; lia |].
  apply Forall_cons in Hall as [Hn Hall]. destruct l as [|m l].
  { exists [n], []. split_and!; [done | done | simpl; lia]. }
  pose proof (etbl_len_nonneg _ Hall) as Hpos.
  assert (Hu : u16 (size - (HPACK_ENTRY_OVERHEAD + n)) = etbl_len (m :: l)).
  { rewrite Hsz. unfold u16. simpl etbl_len in *. rewrite Z.mod_small; [lia |].
    unfold HPACK_ENTRY_OVERHEAD in *. lia. }
  simpl tfw_hpack_rbuf_calc. rewrite Hu. destruct (Z.ltb_spec new_size (etbl_len (m :: l))).
  - destruct (IH (etbl_len (m :: l)) Hall eq_refl) as (gone & rest & Hr & Hg & Hle).
    + simpl etbl_len in *. unfold HPACK_ENTRY_OVERHEAD in *. lia.
    + lia.
    + exists (n :: gone), rest. split_and!; [exact Hr | by rewrite Hg | done].
  - exists [n], (m :: l). split_and!; [done | done | lia].
Qed.

Lemma set_rbuf_size_wf e n :
  etbl_wf e -> 0 <= n ->
  exists e', tfw_hpack_set_rbuf_size e n = Ok e' /\ etbl_wf e'
    /\ (n <= HPACK_ENC_TABLE_MAX_SIZE -> e_window e' = Z.min n (e_window e))
    /\ exists gone, e_nodes e = gone ++ e_nodes e'.
Proof.
  unfold etbl_wf, tfw_hpack_set_rbuf_size. intros (Hall & Hsz & Hle & Hw) Hn.
  destruct (Z.ltb_spec HPACK_ENC_TABLE_MAX_SIZE n).
  { exists e. split_and!; try done; try lia. by exists []. }
  destruct (Z.ltb_spec n (e_window e)).
  2: { exists e. split_and!; try done; try lia. by exists []. }
  destruct (Z.ltb_spec n (e_size e)).
  - destruct (rbuf_calc_spec n (e_nodes e) (e_size e)) as (gone & rest & Hr & Hg & Hb);
      [done | done | unfold HPACK_ENC_TABLE_MAX_SIZE, HPACK_TABLE_DEF_SIZE in *; lia | lia |].
    rewrite Hr. eexists. split; [done |]. simpl. split_and!; try done; try lia.
    + rewrite Hg in Hall. by apply Forall_app in Hall as [_ ?].
    + by exists gone.
  - eexists. split; [done |]. simpl. split_and!; try done; try lia. by exists [].
Qed.

(** ** Core lemmas: one per kind of update *)

Section updates.
Context {h : heap} {reqs : gmap ptr TfwReq} {t : rbtree} {num : Z} {hl : list ptr}
  {hn lid wnd : Z} {cur : option ptr} {lset rset : TfwSettings} {etbl : TfwHPackETbl}.
Hypothesis HC : core_c h reqs t num hl hn lid wnd cur lset rset etbl.

Lemma core_set_cur cur' :
  (forall p, cur' = Some p -> is_Some (h !! p)) ->
  core_c h reqs t num hl hn lid wnd cur' lset rset etbl.
Proof using HC. destruct HC. intros. by constructor. Qed.

Lemma core_set_wnd wnd' :
  0 <= wnd' <= MAX_WND_SIZE ->
  core_c h reqs t num hl hn lid wnd' cur lset rset etbl.
Proof using HC. destruct HC. intros. by constructor. Qed.

Lemma core_set_rset rset' :
  rsettings_ok rset' -> core_c h reqs t num hl hn lid wnd cur lset rset' etbl.
Proof using HC. destruct HC. intros. by constructor. Qed.

Lemma core_set_etbl etbl' :
  etbl_wf etbl' -> core_c h reqs t num hl hn lid wnd cur lset rset etbl'.
Proof using HC. destruct HC. intros. by constructor. Qed.

(** A stream object is rewritten in place, keeping identifier and request. *)
Lemma core_put_stream p s s' :
  h !! p = Some s -> s_id s' = s_id s -> s_msg s' = s_msg s -> stream_ok lid s' ->
  core_c (<[p := s']> h) reqs t num hl hn lid wnd cur lset rset etbl.
Proof using HC.
  destruct HC. intros Hp Hid Hmsg Hok.
  assert (His : forall q, is_Some (h !! q) -> is_Some (<[p:=s']> h !! q))
    by (intros q Hq; rewrite lookup_insert_is_Some; destruct (decide (p = q)); auto).
  constructor; auto.
  - by eapply streams_wf_update.
  - rewrite map_size_insert_Some by eauto. done.
  - intros q s0. rewrite lookup_insert_Some. intros [[-> ->]|[_ ?]]; eauto.
  - intros q s0 r. rewrite lookup_insert_Some. intros [[-> ->]|[_ ?]]; [| eauto].
    rewrite Hmsg. eauto.
  - intros r q p' Hr Hq. destruct (core_req0 r q p' Hr Hq) as (s0 & Hs0 & Hm0).
    destruct (decide (p = p')) as [->|Hne].
    + exists s'. rewrite lookup_insert_eq. split; [done |]. congruence.
    + exists s0. by rewrite lookup_insert_ne.
Qed.

(** The stream joins the queue of closed streams. *)
Lemma core_add_closed p :
  is_Some (h !! p) -> p ∉ hl ->
  core_c h reqs t num (hl ++ [p]) (u64 (hn + 1)) lid wnd cur lset rset etbl.
Proof using HC.
  destruct HC. intros Hp Hn. constructor; auto.
  - apply NoDup_app. split_and!; [done | set_solver | apply NoDup_singleton].
  - intros q Hq. apply elem_of_app in Hq as [?|Hq]; [auto |].
    apply list_elem_of_singleton in Hq as ->. done.
  - subst hn. rewrite u64_succ, zlen_app. done.
Qed.

Lemma zlen_remove p :
  p ∈ hl -> NoDup hl -> zlen (filter (fun q => q <> p) hl) = zlen hl - 1.
Proof using.
  clear HC. induction hl as [|a l IH]; [set_solver |].
  intros Hp Hnd. apply NoDup_cons in Hnd as [Ha Hnd]. rewrite filter_cons.
  unfold zlen in *. case_decide as Hd.
  - apply elem_of_cons in Hp as [->|Hp]; [done |]. simpl. specialize (IH Hp Hnd). lia.
  - subst a. simpl.
    rewrite filter_ne_notin by done. lia.
Qed.

(** The stream leaves the queue. *)
Lemma core_del_closed p :
  p ∈ hl ->
  core_c h reqs t num (filter (fun q => q <> p) hl) (u64 (hn - 1)) lid wnd cur lset rset etbl.
Proof using HC.
  destruct HC. intros Hp. constructor; auto.
  - by apply NoDup_filter.
  - intros q Hq. apply list_elem_of_filter in Hq as [_ Hq]. auto.
  - subst hn. rewrite u64_pred. f_equal. symmetry. by apply zlen_remove.
Qed.

(** A stream that nothing points at is erased and freed. *)
Lemma core_free_stream `{RbLib} p s :
  h !! p = Some s -> p ∉ hl -> cur <> Some p ->
  (forall r q, reqs !! r = Some q -> r_stream q <> Some p) ->
  core_c (delete p h) reqs (tfw_h2_stop_stream t p) (u64 (num - 1)) hl hn lid wnd cur
    lset rset etbl.
Proof using HC.
  destruct HC. intros Hp Hhl Hcur Hreq.
  assert (Hsz : (size h <> 0)%nat) by (intros Hz; apply map_size_empty_iff in Hz; by subst h).
  assert (His : forall q, q <> p -> is_Some (h !! q) -> is_Some (delete p h !! q))
    by (intros q Hne [x Hx]; exists x; by rewrite lookup_delete_ne).
  constructor; auto.
  - apply stop_stream_wf; eauto.
  - subst num. rewrite u64_pred. rewrite map_size_delete_Some by eauto. f_equal. lia.
  - intros q Hq. apply His; [set_solver | auto].
  - intros q ->. apply His; [congruence | auto].
  - intros q s0 Hq. apply lookup_delete_Some in Hq as [_ Hq]. eauto.
  - intros q s0 r Hq. apply lookup_delete_Some in Hq as [_ Hq]. eauto.
  - intros r q p' Hr Hq. destruct (core_req0 r q p' Hr Hq) as (s0 & Hs0 & Hm0).
    exists s0. split; [| done]. rewrite lookup_delete_ne; [done |].
    intros ->. by eapply Hreq.
Qed.

(** A fresh stream above every known identifier. *)
Lemma core_new_stream p t' s :
  h !! p = None -> streams_wf (<[p := s]> h) t' -> s_msg s = None ->
  lid <= s_id s < 2 ^ 31 -> stream_ok (s_id s) s ->
  core_c (<[p := s]> h) reqs t' (u64 (num + 1)) hl hn (s_id s) wnd (Some p) lset rset etbl.
Proof using HC.
  destruct HC. intros Hp Hwf Hmsg Hlid Hok.
  assert (His : forall q, is_Some (h !! q) -> is_Some (<[p:=s]> h !! q))
    by (intros q Hq; rewrite lookup_insert_is_Some; destruct (decide (p = q)); auto).
  constructor; auto.
  - subst num. rewrite u64_succ, map_size_insert_None by done. f_equal. lia.
  - unfold stream_ok in Hok. lia.
  - intros q Hq. simplify_eq. rewrite lookup_insert_eq. eauto.
  - intros q s0. rewrite lookup_insert_Some. intros [[-> ->]|[_ Hq]]; [done |].
    specialize (core_stream0 q s0 Hq). unfold stream_ok in *.
    destruct_and!. split_and!; try done; lia.
  - intros q s0 r. rewrite lookup_insert_Some. intros [[-> ->]|[_ ?]]; [congruence | eauto].
  - intros r q p' Hr Hq. destruct (core_req0 r q p' Hr Hq) as (s0 & Hs0 & Hm0).
    exists s0. rewrite lookup_insert_ne; [done |]. intros ->. congruence.
Qed.

(** The link between a stream and its request is cut on both sides: the
    request is updated or freed, the stream forgets it or is freed later. *)
Lemma core_cut_link p s r q :
  h !! p = Some s -> s_msg s = Some r -> reqs !! r = Some q ->
  core_c (<[p := set_s_msg None s]> h) (<[r := MkReq None (r_fully_parsed q)]> reqs)
    t num hl hn lid wnd cur lset rset etbl.
Proof using HC.
  destruct HC. intros Hp Hm Hr.
  assert (His : forall x, is_Some (h !! x) -> is_Some (<[p:=set_s_msg None s]> h !! x))
    by (intros x Hx; rewrite lookup_insert_is_Some; destruct (decide (p = x)); auto).
  constructor; auto.
  - by eapply streams_wf_update.
  - rewrite map_size_insert_Some by eauto. done.
  - intros x s0. rewrite lookup_insert_Some. intros [[<- <-]|[_ ?]]; [| eauto].
    by apply (core_stream0 p s).
  - intros x s0 r0. rewrite lookup_insert_Some. intros [[<- <-]|[Hne Hx]] Hm0; [done |].
    destruct (core_msg0 x s0 r0 Hx Hm0) as (q0 & Hq0 & Hs0).
    exists q0. rewrite lookup_insert_ne; [done |]. intros <-.
    destruct (core_msg0 p s r Hp Hm) as (q1 & Hq1 & Hs1). congruence.
  - intros r0 q0 x. rewrite lookup_insert_Some. intros [[<- <-]|[Hne Hr0]] Hx; [done |].
    destruct (core_req0 r0 q0 x Hr0 Hx) as (s0 & Hs0 & Hm0).
    exists s0. rewrite lookup_insert_ne; [done |]. intros <-. congruence.
Qed.

(** A new request is linked with its stream. *)
Lemma core_link p s r :
  h !! p = Some s -> s_msg s = None -> reqs !! r = None ->
  core_c (<[p := set_s_msg (Some r) s]> h) (<[r := MkReq (Some p) false]> reqs)
    t num hl hn lid wnd cur lset rset etbl.
Proof using HC.
  destruct HC. intros Hp Hm Hr.
  assert (His : forall x, is_Some (h !! x) -> is_Some (<[p:=set_s_msg (Some r) s]> h !! x))
    by (intros x Hx; rewrite lookup_insert_is_Some; destruct (decide (p = x)); auto).
  constructor; auto.
  - by eapply streams_wf_update.
  - rewrite map_size_insert_Some by eauto. done.
  - intros x s0. rewrite lookup_insert_Some. intros [[<- <-]|[_ ?]]; [| eauto].
    by apply (core_stream0 p s).
  - intros x s0 r0. rewrite lookup_insert_Some. intros [[<- <-]|[Hne Hx]] Hm0.
    + injection Hm0 as <-. eexists. by rewrite lookup_insert_eq.
    + destruct (core_msg0 x s0 r0 Hx Hm0) as (q0 & Hq0 & Hs0).
      exists q0. rewrite lookup_insert_ne; [done |]. congruence.
  - intros r0 q0 x. rewrite lookup_insert_Some. intros [[<- <-]|[Hne Hr0]] Hx.
    + injection Hx as <-. eexists. by rewrite lookup_insert_eq.
    + destruct (core_req0 r0 q0 x Hr0 Hx) as (s0 & Hs0 & Hm0).
      exists s0. rewrite lookup_insert_ne; [done |]. congruence.
Qed.

(** A request keeps its stream. *)
Lemma core_put_req r q q' :
  reqs !! r = Some q -> r_stream q' = r_stream q ->
  core_c h (<[r := q']> reqs) t num hl hn lid wnd cur lset rset etbl.
Proof using HC.
  destruct HC. intros Hr Hq. constructor; auto.
  - intros p s r0 Hp Hm. destruct (core_msg0 p s r0 Hp Hm) as (q0 & Hq0 & Hs0).
    destruct (decide (r = r0)) as [<-|Hne].
    + exists q'. rewrite lookup_insert_eq. split; [done | congruence].
    + exists q0. by rewrite lookup_insert_ne.
  - intros r0 q0 p. rewrite lookup_insert_Some. intros [[<- <-]|[_ Hr0]] Hp; [| eauto].
    eapply core_req0; [done | congruence].
Qed.

(** A request with no stream is freed. *)
Lemma core_free_req r q :
  reqs !! r = Some q -> r_stream q = None ->
  core_c h (delete r reqs) t num hl hn lid wnd cur lset rset etbl.
Proof using HC.
  destruct HC. intros Hr Hs. constructor; auto.
  - intros p s r0 Hp Hm. destruct (core_msg0 p s r0 Hp Hm) as (q0 & Hq0 & Hs0).
    exists q0. rewrite lookup_delete_ne; [done |]. intros <-. congruence.
  - intros r0 q0 p Hr0. apply lookup_delete_Some in Hr0 as [_ Hr0]. eauto.
Qed.

End updates.

(** ** Triples for the operations *)

(** No stream becomes CLOSED and no window shrinks. *)
Definition closed_le (w w' : World) : Prop :=
  c_loc_wnd (w_ctx w') = c_loc_wnd (w_ctx w) /\
  forall p s', w_heap w' !! p = Some s' ->
    (exists s, w_heap w !! p = Some s /\ s_loc_wnd s = s_loc_wnd s' /\
       (s_state s' = HTTP2_STREAM_CLOSED -> s_state s = HTTP2_STREAM_CLOSED))
    \/ (wnd_open (s_loc_wnd s') /\ s_state s' <> HTTP2_STREAM_CLOSED).

#[export] Instance closed_le_preorder : PreOrder closed_le.
Proof.
  split.
  - intros w. split; [done |]. eauto 10.
  - intros w1 w2 w3 [E12 H12] [E23 H23]. split; [congruence |]. intros p s3 Hp.
    destruct (H23 p s3 Hp) as [(s2 & H2 & Hw2 & Hs2)|[Hw Hn]]; [| auto].
    destruct (H12 p s2 H2) as [(s1 & H1 & Hw1 & Hs1)|[Hw Hn]]; [left | right].
    + exists s1. split_and!; [done | congruence | auto].
    + rewrite <- Hw2. auto.
Qed.

Lemma live_except_le o w w' : live_except o w -> closed_le w w' -> live_except o w'.
Proof.
  intros [Hc Hl] [Ec Hle]. split; [by rewrite Ec |]. intros p s' Hp.
  destruct (Hle p s' Hp) as [(s & Hps & Hw & Hss)|[Hw Hn]]; [| by split].
  destruct (Hl p s Hps) as [Hwo Hlive]. rewrite <- Hw. split; [done |].
  intros Ho Hc'. by apply Hlive, Hss.
Qed.

Lemma live_except_weaken o w : live_except None w -> live_except o w.
Proof.
  intros [Hc Hl]. split; [done |]. intros p s Hp. destruct (Hl p s Hp). split; auto.
Qed.

Lemma live_except_ext o w w' :
  w_heap w' = w_heap w -> c_loc_wnd (w_ctx w') = c_loc_wnd (w_ctx w) ->
  live_except o w -> live_except o w'.
Proof. unfold live_except. by intros -> ->. Qed.

Section triples.
Context `{RbLib} `{Env}.
Implicit Types (w : World).

Lemma wp_get_ctx (Q : TfwH2Ctx -> World -> Prop) w : Q (w_ctx w) w -> wp get_ctx Q w.
Proof. done. Qed.

Lemma wp_mod_ctx f (Q : unit -> World -> Prop) w :
  Q tt (set_w_ctx (f (w_ctx w)) w) -> wp (mod_ctx f) Q w.
Proof. done. Qed.

Lemma wp_get_stream p s (Q : TfwStream -> World -> Prop) w :
  w_heap w !! p = Some s -> Q s w -> wp (get_stream p) Q w.
Proof. unfold wp, get_stream. by intros ->. Qed.

Lemma wp_put_stream p s (Q : unit -> World -> Prop) w :
  Q tt (set_w_heap (<[p := s]> (w_heap w)) w) -> wp (put_stream p s) Q w.
Proof. done. Qed.

Lemma wp_get_req r q (Q : TfwReq -> World -> Prop) w :
  w_reqs w !! r = Some q -> Q q w -> wp (get_req r) Q w.
Proof. unfold wp, get_req. by intros ->. Qed.

(** A transmission changes only the transmission log. *)
Lemma wp_send hdr pl cl (Q : Z -> World -> Prop) w :
  (forall r tx n, Q r (set_w_tx tx (set_w_nsend n w))) ->
  wp (__tfw_h2_send_frame hdr pl cl) Q w.
Proof.
  intros HQ. unfold wp, __tfw_h2_send_frame. destruct (_ =? 0).
  - apply HQ.
  - apply (HQ _ (w_tx w)).
Qed.

Lemma wp_conn_terminate e (Q : unit -> World -> Prop) w :
  (forall tx n, Q tt (set_w_tx tx (set_w_nsend n w))) ->
  wp (tfw_h2_conn_terminate e) Q w.
Proof.
  intros HQ. unfold tfw_h2_conn_terminate, tfw_h2_conn_terminate_close, tfw_h2_send_goaway.
  apply wp_bind, wp_bind, wp_get_ctx, wp_send. intros r tx n.
  rewrite andb_false_r. apply wp_ret, HQ.
Qed.

Lemma wp_add_closed p w :
  core w -> is_Some (w_heap w !! p) ->
  wp (__tfw_h2_stream_add_closed p)
     (fun _ w' => core w' /\ same_recv (w_ctx w) (w_ctx w') /\ w_heap w' = w_heap w
        /\ c_cur_stream (w_ctx w') = c_cur_stream (w_ctx w)
        /\ w_reqs w' = w_reqs w
        /\ c_lstream_id (w_ctx w') = c_lstream_id (w_ctx w)
        /\ p ∈ c_hclosed_list (w_ctx w')) w.
Proof.
  intros HC Hp. unfold __tfw_h2_stream_add_closed.
  apply wp_bind, wp_get_ctx. unfold hcl_empty.
  case_bool_decide as Hin; simpl.
  - apply wp_mod_ctx. split_and!; try done; [by apply (core_add_closed HC) |].
    apply elem_of_app. right. apply list_elem_of_here.
  - apply wp_ret. split_and!; done.
Qed.

(** The body of every removal: unlink the stream, then erase and free it. *)
Lemma wp_unlink_clean p s w :
  core w -> w_heap w !! p = Some s ->
  wp (__tfw_h2_stream_unlink p ;;; tfw_h2_stream_clean p)
     (fun _ w' => core (set_w_ctx (set_c_cur_stream None (w_ctx w')) w')
        /\ same_recv (w_ctx w) (w_ctx w') /\ w_heap w' = delete p (w_heap w)
        /\ c_hclosed_list (w_ctx w') = filter (fun q => q <> p) (c_hclosed_list (w_ctx w))
        /\ c_cur_stream (w_ctx w') = c_cur_stream (w_ctx w)
        /\ c_lstream_id (w_ctx w') = c_lstream_id (w_ctx w)) w.
Proof.
  intros HC Hp.
  (* the closed queue without [p] *)
  set (c := w_ctx w).
  set (hl' := if negb (hcl_empty c p) then filter (fun q => q <> p) (c_hclosed_list c)
              else c_hclosed_list c).
  set (hn' := if negb (hcl_empty c p) then u64 (c_hclosed_num c - 1) else c_hclosed_num c).
  assert (HC1 : core_c (w_heap w) (w_reqs w) (c_sched c) (c_streams_num c) hl' hn'
    (c_lstream_id c) (c_loc_wnd c) None (c_lsettings c) (c_rsettings c)
    (hp_enc_tbl (c_hpack c))).
  { apply (core_set_cur (cur := c_cur_stream c)); [| done].
    unfold hl', hn', hcl_empty. case_bool_decide as Hin; simpl; [exact HC |].
    by apply (core_del_closed HC). }
  assert (Hhl : hl' = filter (fun q => q <> p) (c_hclosed_list c)).
  { unfold hl', hcl_empty. case_bool_decide as Hin; simpl; [| done].
    by rewrite filter_ne_notin. }
  assert (Hpl : p ∉ hl') by (rewrite Hhl; intros Hin%list_elem_of_filter; naive_solver).
  unfold __tfw_h2_stream_unlink, tfw_h2_stream_clean, free_req.
  apply wp_bind, wp_bind, (wp_get_stream p s); [done |].
  apply wp_bind, wp_get_ctx, wp_bind.
  assert (Hif : forall Q : unit -> World -> Prop,
    Q tt (set_w_ctx (set_c_hclosed_num hn' (set_c_hclosed_list hl' c)) w) ->
    wp (if negb (hcl_empty (w_ctx w) p) then
          mod_ctx (fun c => set_c_hclosed_num (u64 (c_hclosed_num c - 1))
            (set_c_hclosed_list (filter (fun q => q <> p) (c_hclosed_list c)) c))
        else sm_ret tt) Q w).
  { intros Q. unfold hl', hn'. fold c. destruct (hcl_empty c p); simpl; intros HQ.
    - unfold wp, sm_ret. unfold set_w_ctx, set_c_hclosed_num, set_c_hclosed_list in HQ.
      simpl in HQ. subst c. destruct w as [[] ? ? ? ? ?]. exact HQ.
    - exact HQ. }
  apply Hif. clear Hif.
  destruct (s_msg s) as [r|] eqn:Hm.
  - destruct (core_msg _ _ _ _ _ _ _ _ _ _ _ _ HC p s r Hp Hm) as (q & Hr & Hq).
    apply wp_bind, wp_get. simpl. rewrite Hr.
    pose proof (core_cut_link HC1 p s r q Hp Hm Hr) as HC2.
    assert (Hno : forall r0 q0,
      <[r:=MkReq None (r_fully_parsed q)]> (w_reqs w) !! r0 = Some q0 ->
      r_stream q0 <> Some p).
    { intros r0 q0 Hr0 Hs0. apply lookup_insert_Some in Hr0 as [[<- <-]|[Hne Hr0]]; [done |].
      destruct (core_req _ _ _ _ _ _ _ _ _ _ _ _ HC r0 q0 p Hr0 Hs0) as (s0 & ? & ?).
      congruence. }
    pose proof (core_free_stream HC2 p (set_s_msg None s) (lookup_insert_eq _ _ _)
      Hpl ltac:(done) Hno) as HC3.
    rewrite delete_insert_eq in HC3.
    apply wp_bind, wp_mod. destruct (negb (r_fully_parsed q)) eqn:Hfp.
    + apply wp_mod, wp_bind, wp_mod_ctx, wp_bind, wp_mod, wp_mod_ctx. split_and!; try done.
      apply (core_free_req HC3 r (MkReq None (r_fully_parsed q))); [| done].
      apply lookup_insert_eq.
    + apply wp_ret, wp_bind, wp_mod_ctx, wp_bind, wp_mod, wp_mod_ctx. split_and!; done.
  - assert (Hno : forall r0 q0, w_reqs w !! r0 = Some q0 -> r_stream q0 <> Some p).
    { intros r0 q0 Hr0 Hs0.
      destruct (core_req _ _ _ _ _ _ _ _ _ _ _ _ HC r0 q0 p Hr0 Hs0) as (s0 & ? & ?).
      congruence. }
    pose proof (core_free_stream HC1 p s Hp Hpl ltac:(done) Hno) as HC3.
    apply wp_ret, wp_bind, wp_mod_ctx, wp_bind, wp_mod, wp_mod_ctx. split_and!; done.
Qed.

Lemma closed_le_delete p w w' :
  same_recv (w_ctx w) (w_ctx w') -> w_heap w' = delete p (w_heap w) -> closed_le w w'.
Proof.
  intros Hsr Hh. split; [apply Hsr |]. intros q s. rewrite Hh. intros Hq.
  apply lookup_delete_Some in Hq as [_ Hq]. eauto 10.
Qed.

Lemma closed_le_heap w w' :
  same_recv (w_ctx w) (w_ctx w') -> w_heap w' = w_heap w -> closed_le w w'.
Proof. intros Hsr Hh. split; [apply Hsr |]. intros q s. rewrite Hh. eauto 10. Qed.

Lemma wp_current_remove p w :
  core w -> c_cur_stream (w_ctx w) = Some p -> live_except (Some p) w ->
  wp tfw_h2_current_stream_remove
     (fun _ w' => core w' /\ same_recv (w_ctx w) (w_ctx w') /\ live_except None w'
        /\ c_cur_stream (w_ctx w') = None) w.
Proof.
  intros HC Hcur Hl. unfold tfw_h2_current_stream_remove, tfw_h2_stream_unlink.
  apply wp_bind, wp_get_ctx. rewrite Hcur.
  destruct (core_cur _ _ _ _ _ _ _ _ _ _ _ _ HC p Hcur) as [s Hs].
  pose proof (wp_unlink_clean p s w HC Hs) as Hwp.
  apply wp_seq2. eapply wp_mono; [exact Hwp |]. clear Hwp.
  intros _ w2 (HC2 & Hsr & Hh & Hhl & Hc & Hlid). apply wp_mod_ctx.
  split_and!; [exact HC2 | done | | done].
  destruct Hl as [Hw Hl]. split; [simpl; destruct Hsr as (_&_&_&_&_&_&_&_&_&_&->); done |].
  intros q s' Hq. simpl in Hq. rewrite Hh in Hq.
  apply lookup_delete_Some in Hq as [Hne Hq]. destruct (Hl q s' Hq) as [Hwq Hlq].
  split; [done |]. intros _. apply Hlq. congruence.
Qed.

(** The identifiers are distinct and below [2^31], so there are never as many streams as the limit of [2^32 - 1]. *)
Lemma core_size w : core w -> Z.of_nat (size (w_heap w)) <= 2 ^ 31.
Proof.
  intros HC. set (ids := s_id <$> (map_to_list (w_heap w)).*2).
  assert (Hlen : length ids = size (w_heap w)) by (unfold ids; by rewrite !length_fmap, length_map_to_list).
  assert (Hnd : NoDup ids).
  { unfold ids. rewrite <- list_fmap_compose. apply NoDup_fmap_2_strong; [| apply NoDup_map_to_list].
    intros [p s] [q s'] Hp%elem_of_map_to_list Hq%elem_of_map_to_list Heq. simpl in Heq.
    pose proof (streams_wf_inj _ _ p q s s' (core_wf _ _ _ _ _ _ _ _ _ _ _ _ HC) Hp Hq Heq) as ->. congruence. }
  assert (Hin : ids ⊆+ seqZ 0 (2 ^ 31)).
  { apply NoDup_submseteq; [done |]. intros x Hx. apply list_elem_of_fmap in Hx as (s & -> & Hx). apply list_elem_of_fmap in Hx as ([p s'] & -> & Hx).
    apply elem_of_map_to_list in Hx. pose proof (core_stream _ _ _ _ _ _ _ _ _ _ _ _ HC p s' Hx) as [H1 _].
    pose proof (core_lid _ _ _ _ _ _ _ _ _ _ _ _ HC). apply elem_of_seqZ. simpl. lia. }
  apply submseteq_length in Hin. rewrite length_seqZ in Hin. lia.
Qed.

Lemma core_queue_size w : core w -> (length (c_hclosed_list (w_ctx w)) <= size (w_heap w))%nat.
Proof.
  intros HC. rewrite <- size_dom, <- (size_list_to_set (C := gset ptr)) by apply HC.
  apply subseteq_size. intros p Hp%elem_of_list_to_set. apply elem_of_dom. by apply (core_hl_live _ _ _ _ _ _ _ _ _ _ _ _ HC).
Qed.

(** When the loop stops: the second condition is never true. *)
Lemma shrink_stop w : core w ->
  (c_hclosed_num (w_ctx w) <=? TFW_MAX_CLOSED_STREAMS)
  || ((st_max_streams (c_lsettings (w_ctx w)) =? c_streams_num (w_ctx w)) && negb (c_hclosed_num (w_ctx w) =? 0))
  = (length (c_hclosed_list (w_ctx w)) <=? 5)%nat.
Proof.
  intros HC. pose proof (core_size w HC) as Hs. pose proof (core_queue_size w HC) as Hq.
  rewrite (core_num _ _ _ _ _ _ _ _ _ _ _ _ HC), (core_hn _ _ _ _ _ _ _ _ _ _ _ _ HC), (core_lset _ _ _ _ _ _ _ _ _ _ _ _ HC).
  unfold zlen, u64 in *. rewrite !Z.mod_small by lia. unfold TFW_MAX_CLOSED_STREAMS. change (st_max_streams def_settings) with 0xffffffff.
  rewrite (proj2 (Z.eqb_neq _ _)) by lia. cbn [andb]. rewrite orb_false_r. apply eq_bool_prop_intro. rewrite !Is_true_true, Z.leb_le, Nat.leb_le. lia.
Qed.

(** The shrinking loop: one round per queue entry is enough fuel. *)
Lemma wp_shrink_loop fuel : forall w,
  core w -> c_cur_stream (w_ctx w) = None ->
  (length (c_hclosed_list (w_ctx w)) < fuel)%nat ->
  let n := (length (c_hclosed_list (w_ctx w)) - Z.to_nat TFW_MAX_CLOSED_STREAMS)%nat in
  wp (closed_streams_shrink_loop fuel)
     (fun _ w' => core w' /\ same_recv (w_ctx w) (w_ctx w') /\ closed_le w w'
        /\ c_cur_stream (w_ctx w') = None
        /\ c_lstream_id (w_ctx w') = c_lstream_id (w_ctx w)
        /\ c_hclosed_list (w_ctx w') = drop n (c_hclosed_list (w_ctx w))
        /\ forall p, w_heap w' !! p = if decide (p ∈ take n (c_hclosed_list (w_ctx w))) then None else w_heap w !! p) w.
Proof.
  change (Z.to_nat TFW_MAX_CLOSED_STREAMS) with 5%nat.
  induction fuel as [|fuel IH]; intros w HC Hcur Hlen n; [lia |]. cbn [closed_streams_shrink_loop].
  apply wp_bind, wp_get_ctx. rewrite (shrink_stop w HC).
  destruct (Nat.leb_spec (length (c_hclosed_list (w_ctx w))) 5) as [Hle|Hgt].
  { apply wp_ret. replace n with 0%nat by lia. split_and!; done. }
  destruct (c_hclosed_list (w_ctx w)) as [|p l] eqn:Hhl; [simpl in Hgt; lia |].
  destruct (core_hl_live _ _ _ _ _ _ _ _ _ _ _ _ HC p) as [s Hs];
    [rewrite Hhl; apply list_elem_of_here |].
  assert (Hpl : p ∉ l).
  { pose proof (core_hl_nodup _ _ _ _ _ _ _ _ _ _ _ _ HC) as Hnd. rewrite Hhl in Hnd.
    by apply NoDup_cons in Hnd as [? _]. }
  apply wp_seq2. eapply wp_mono; [exact (wp_unlink_clean p s w HC Hs) |].
  intros _ w1 (HC1 & Hsr & Hh & Hhl1 & Hc1 & Hlid).
  rewrite Hcur in Hc1. rewrite Hhl, filter_cons, decide_False in Hhl1 by (by intros []).
  rewrite filter_ne_notin in Hhl1 by done. simpl in Hlen, Hgt.
  eapply wp_mono; [apply (IH w1) |].
  - apply (core_set_cur HC1). rewrite Hc1. done.
  - done.
  - rewrite Hhl1. lia.
  - rewrite Hhl1. intros _ w2 (HC2 & Hsr2 & Hle & Hc2 & Hlid2 & Hd & Hheap).
    assert (n = S (length l - 5)) as -> by (unfold n; simpl; lia). cbn [drop take].
    split_and!; [done | by etrans | | done | congruence | done |].
    + etrans; [| exact Hle]. by eapply closed_le_delete.
    + intros q. rewrite Hheap, Hh. destruct (decide (q ∈ p :: _)) as [Hq|Hq]; destruct (decide (q ∈ take _ l)) as [Hq'|Hq']; [done | | |].
      * apply elem_of_cons in Hq as [-> |?]; [apply lookup_delete_eq | done].
      * exfalso. apply Hq. by right.
      * apply not_elem_of_cons in Hq as [Hne _]. by rewrite lookup_delete_ne.
Qed.

(** [tfw_h2_stream_fsm()] on a stored stream. *)
Lemma wp_fsm_at p s type flags send err st' res err' w :
  core w -> w_heap w !! p = Some s ->
  stream_fsm (s_state s) type flags send err = Ok (st', res, err') ->
  st' <> HTTP2_STREAM_LOC_RESERVED -> st' <> HTTP2_STREAM_REM_RESERVED ->
  wp (stream_fsm_at (Some p) type flags send err)
     (fun out w' => out = (res, err') /\ core w' /\
        w' = set_w_heap (<[p := set_s_state st' s]> (w_heap w)) w) w.
Proof.
  intros HC Hs Hf H1 H2. unfold stream_fsm_at.
  apply wp_bind, (wp_get_stream p s); [done |]. simpl. rewrite Hf.
  apply wp_bind, wp_put_stream, wp_ret. split_and!; try done.
  apply (core_put_stream HC p s); try done.
  destruct (core_stream _ _ _ _ _ _ _ _ _ _ _ _ HC p s Hs) as (Hid & Hodd & Hw & _ & _).
  exact (conj Hid (conj Hodd (conj Hw (conj H1 H2)))).
Qed.

Lemma closed_le_put p s st' w :
  w_heap w !! p = Some s ->
  (st' = HTTP2_STREAM_CLOSED -> s_state s = HTTP2_STREAM_CLOSED) ->
  closed_le w (set_w_heap (<[p := set_s_state st' s]> (w_heap w)) w).
Proof.
  intros Hs Hst. split; [done |]. intros q s' Hq. simpl in Hq. left.
  apply lookup_insert_Some in Hq as [[<- <-]|[_ Hq]]; [| eauto].
  exists s. split_and!; done.
Qed.

(** Sending RST_STREAM or the end of a response through the FSM. *)
Lemma wp_send_process sp type flags w :
  core w -> (forall p, sp = Some p -> is_Some (w_heap w !! p)) ->
  has_flag flags HTTP2_F_END_STREAM = true \/ type = HTTP2_RST_STREAM ->
  wp (STREAM_SEND_PROCESS sp type flags)
     (fun res w' => core w' /\ closed_le w w' /\ w_ctx w' = w_ctx w /\ w_reqs w' = w_reqs w
        /\ (sp = None -> res = STREAM_FSM_RES_IGNORE)
        /\ (forall p s, w_heap w !! p = Some s ->
              exists st, w_heap w' !! p = Some (set_s_state st s))) w.
Proof.
  intros HC Hsp Hf. unfold STREAM_SEND_PROCESS. apply wp_bind.
  destruct sp as [p|].
  - destruct (Hsp p eq_refl) as [s Hs].
    destruct (core_stream _ _ _ _ _ _ _ _ _ _ _ _ HC p s Hs) as (_ & _ & _ & H1 & H2).
    destruct (stream_fsm_send_total (s_state s) type flags HTTP2_ECODE_NO_ERROR H1 H2 Hf)
      as (st' & res & err' & Hfsm & H1' & H2' & Hcl).
    eapply wp_mono; [by eapply (wp_fsm_at p s) |].
    intros out w' (-> & HC' & ->). apply wp_ret. split_and!; try done.
    + by apply closed_le_put.
    + intros q s0 Hq. simpl. destruct (decide (p = q)) as [<-|Hne].
      * exists st'. rewrite lookup_insert_eq. congruence.
      * exists (s_state s0). rewrite lookup_insert_ne by done. rewrite Hq. by destruct s0.
  - apply wp_ret, wp_ret. split_and!; try done. intros q s0 Hq. exists (s_state s0).
    rewrite Hq. by destruct s0.
Qed.

Lemma wp_stream_close id e w :
  core w ->
  wp (tfw_h2_stream_close id e)
     (fun _ w' => core w' /\ same_recv (w_ctx w) (w_ctx w') /\ w_heap w' = w_heap w
        /\ c_cur_stream (w_ctx w') = None
        /\ c_lstream_id (w_ctx w') = c_lstream_id (w_ctx w)) w.
Proof.
  intros HC. unfold tfw_h2_stream_close, tfw_h2_stream_add_closed.
  apply wp_bind, wp_get_ctx. destruct (c_cur_stream (w_ctx w)) as [p|] eqn:Hcur.
  - pose proof (core_cur _ _ _ _ _ _ _ _ _ _ _ _ HC p Hcur) as Hp.
    apply wp_bind, wp_bind. eapply wp_mono; [exact (wp_add_closed p w HC Hp) |].
    intros _ w' (HC' & Hsr & Hh & Hc & Hr & Hlid & _). apply wp_mod_ctx.
    apply wp_send. intros r tx n.
    split_and!; try done. by apply (core_set_cur HC').
  - apply wp_bind, wp_ret, wp_send. intros r tx n. split_and!; done.
Qed.

(** Creation of the stream of a HEADERS frame: the caller has checked that the
    identifier is odd and above every identifier seen. *)
Lemma wp_stream_create id w :
  core w -> c_lstream_id (w_ctx w) < id < 2 ^ 31 -> Z.odd id = true ->
  wp (tfw_h2_stream_create id)
     (fun o w' => same_recv (w_ctx w) (w_ctx w') /\ closed_le w w' /\
        match o with
        | None => w_heap w' = w_heap w /\ core w'
        | Some p =>
            w_heap w !! p = None /\
            core (set_w_ctx (set_c_lstream_id id (set_c_cur_stream (Some p) (w_ctx w'))) w') /\
            w_heap w' = <[p := tfw_h2_init_stream id (p_weight (c_priority (w_ctx w)))
                                 (st_wnd_sz (c_lsettings (w_ctx w)))]> (w_heap w)
        end) w.
Proof.
  intros HC Hid Hodd. unfold tfw_h2_stream_create.
  apply wp_bind, wp_get_ctx. simpl.
  apply wp_bind. unfold wp at 1, alloc_stream.
  apply wp_bind, wp_get. simpl w_heap.
  pose proof (core_wf _ _ _ _ _ _ _ _ _ _ _ _ HC) as Hwf.
  assert (Hfresh : forall q s, w_heap w !! q = Some s -> s_id s <> id).
  { intros q s Hq. pose proof (core_stream _ _ _ _ _ _ _ _ _ _ _ _ HC q s Hq) as Hok.
    unfold stream_ok in Hok. lia. }
  destruct (env_alloc _ _) as [p|] eqn:Ha.
  - apply env_alloc_fresh, not_elem_of_dom in Ha.
    destruct (add_stream_spec (w_heap w) (c_sched (w_ctx w)) p id
      (p_weight (c_priority (w_ctx w))) (st_wnd_sz (c_lsettings (w_ctx w)))
      Hwf Ha Hfresh) as (t' & Hadd & Hwf').
    rewrite Hadd. apply wp_bind, wp_mod, wp_bind, wp_mod_ctx, wp_ret.
    split; [done |]. split.
    { split; [done |]. intros q s Hq. simpl in Hq.
      apply lookup_insert_Some in Hq as [[<- <-]|[_ Hq]]; [right | left; eauto].
      rewrite (core_lset _ _ _ _ _ _ _ _ _ _ _ _ HC). split; [| done].
      by vm_compute. }
    split; [done |]. split; [| done].
    apply (core_new_stream HC p t' (tfw_h2_init_stream id _ _)); try done.
    { simpl. lia. }
    rewrite (core_lset _ _ _ _ _ _ _ _ _ _ _ _ HC).
    pose proof (core_lid _ _ _ _ _ _ _ _ _ _ _ _ HC) as Hl. simpl in Hl.
    unfold stream_ok. simpl. split_and!; try done; lia.
  - rewrite add_stream_fail by auto.
    apply wp_bind, wp_mod, wp_ret. split_and!; try done. by apply closed_le_heap.
Qed.

(** The sending side closes a stream: [tfw_h2_stream_id_close()]. *)
Lemma wp_stream_id_close r q type flags w :
  core w -> w_reqs w !! r = Some q ->
  has_flag flags HTTP2_F_END_STREAM = true \/ type = HTTP2_RST_STREAM
    \/ _HTTP2_UNDEFINED <= type ->
  wp (tfw_h2_stream_id_close r type flags)
     (fun _ w' => core w' /\ same_recv (w_ctx w) (w_ctx w') /\ closed_le w w'
        /\ c_cur_stream (w_ctx w') = c_cur_stream (w_ctx w)
        /\ c_lstream_id (w_ctx w') = c_lstream_id (w_ctx w)
        /\ (exists q', w_reqs w' !! r = Some q' /\ r_stream q' = None)
        /\ (forall p, r_stream q = Some p -> p ∈ c_hclosed_list (w_ctx w'))) w.
Proof.
  intros HC Hr Hf. unfold tfw_h2_stream_id_close.
  apply wp_bind, (wp_get_req r q); [done |].
  destruct (r_stream q) as [p|] eqn:Hq; 
    [| apply wp_ret; split_and!; [done | reflexivity | reflexivity | done | done | eauto | done]].
  destruct (core_req _ _ _ _ _ _ _ _ _ _ _ _ HC r q p Hr Hq) as (s & Hs & Hm).
  apply wp_bind.
  assert (Hstep : wp (if type <? _HTTP2_UNDEFINED then
               res <~ STREAM_SEND_PROCESS (Some p) type flags ;;
               (if bool_decide (res = STREAM_FSM_RES_OK)
                then s <~ get_stream p ;; sm_ret (s_id s) else sm_ret 0)
             else sm_ret 0)
    (fun _ w' => core w' /\ closed_le w w' /\ w_ctx w' = w_ctx w /\ w_reqs w' = w_reqs w
       /\ exists st, w_heap w' !! p = Some (set_s_state st s)) w).
  { destruct (Z.ltb_spec type _HTTP2_UNDEFINED).
    - apply wp_bind. eapply wp_mono.
      { apply (wp_send_process (Some p) type flags w); [done | | naive_solver lia].
        intros ? [= <-]. eauto. }
      intros res w' (HC' & Hle & Hc & Hrq & _ & Hst).
      destruct (Hst p s Hs) as [st Hst'].
      case_bool_decide; [| apply wp_ret; eauto 10].
      apply wp_bind, (wp_get_stream p (set_s_state st s)); [done |]. apply wp_ret. eauto 10.
    - apply wp_ret. split_and!; try done. exists (s_state s). rewrite Hs. by destruct s. }
  eapply wp_mono; [exact Hstep |]. clear Hstep.
  intros id w1 (HC1 & Hle & Hc & Hrq & st & Hs1).
  apply wp_bind, wp_mod. apply wp_bind, (wp_get_stream p (set_s_state st s)); [done |].
  apply wp_bind, wp_put_stream.
  assert (HC2 : core (set_w_heap (<[p:=set_s_msg None (set_s_state st s)]> (w_heap w1))
    (set_w_reqs (<[r:=MkReq None (r_fully_parsed q)]> (w_reqs w1)) w1))).
  { apply (core_cut_link HC1 p (set_s_state st s) r q); [done | done |]. by rewrite Hrq. }
  apply wp_bind. eapply wp_mono; [apply (wp_add_closed p _ HC2); simpl; rewrite lookup_insert_eq; eauto |].
  intros _ w2 (HC3 & Hsr & Hh & Hcur & Hrq2 & Hlid & Hin). apply wp_ret.
  rewrite <- Hc.
  split_and!; try done.
  - destruct Hle as [Ew Hle]. split; [rewrite <- Ew; apply Hsr |].
    intros x s' Hx. rewrite Hh in Hx. simpl in Hx.
    apply lookup_insert_Some in Hx as [[<- <-]|[_ Hx]]; [| by eapply Hle].
    apply (Hle p (set_s_state st s)). done.
  - exists (MkReq None (r_fully_parsed q)). rewrite Hrq2. simpl. by rewrite lookup_insert_eq.
  - by intros ? [= <-].
Qed.

End triples.

(** ** The initial state *)

Definition init_world : World := MkWorld tfw_h2_context_init ∅ ∅ [] 0 0.

Lemma core_init : core init_world.
Proof.
  constructor; simpl; try done.
  - apply streams_wf_empty.
  - constructor.
  - set_solver.
Qed.

(** An environment in which every transmission and allocation succeeds. *)
Definition fresh_addr (X : gset ptr) : ptr := fresh X.

#[export, refine] Instance ok_env : Env := {|
  env_send _ := 0;
  env_alloc _ X := Some (fresh_addr X);
|}.
Proof. intros n X p [= <-]. apply is_fresh. Defined.

(** ** Properties *)

Section shrink_property.
Context `{RbLib} `{Env}.

(** C18: shrinking the queue of closed streams terminates without a [BUG()] and frees exactly the excess over
    TFW_MAX_CLOSED_STREAMS, the eldest streams of the queue, and nothing else; the younger ones stay in the queue in their order,
    and the connection invariant holds.  The other condition on which the loop stops, that there are as many streams as the limit
    (http_frame.c:771), is never true in a state of the invariant: the limit is [2^32 - 1], and there are at most [2^31] streams. *)
Theorem closed_streams_shrink_correct w :
  core w -> c_cur_stream (w_ctx w) = None ->
  let q := c_hclosed_list (w_ctx w) in
  let n := (length q - Z.to_nat TFW_MAX_CLOSED_STREAMS)%nat in
  exists w', tfw_h2_closed_streams_shrink w = Ok (tt, w') /\ core w' /\
    c_hclosed_list (w_ctx w') = drop n q /\ c_hclosed_num (w_ctx w') = Z.of_nat (length q - n) /\
    (forall p, w_heap w' !! p = if decide (p ∈ take n q) then None else w_heap w !! p).
Proof.
  intros HC Hcur q n.
  assert (Hwp : wp tfw_h2_closed_streams_shrink
    (fun _ w' => core w' /\ c_hclosed_list (w_ctx w') = drop n q
        /\ forall p, w_heap w' !! p = if decide (p ∈ take n q) then None else w_heap w !! p) w).
  { apply wp_bind, wp_get_ctx. eapply wp_mono; [apply wp_shrink_loop; [done | done | lia] |].
    intros [] w' (HC' & _ & _ & _ & _ & Hd & Hh). done. }
  apply wp_ok in Hwp as ([] & w' & Hr & HC' & Hd & Hh).
  exists w'. split_and!; try done. rewrite (core_hn _ _ _ _ _ _ _ _ _ _ _ _ HC'), Hd. unfold zlen. rewrite length_drop.
  pose proof (core_queue_size w HC). pose proof (core_size w HC). unfold u64. fold q in H1. rewrite Z.mod_small; lia.
Qed.

End shrink_property.

(** Seven streams that are opened and closed. *)
Definition open_close (id : Z) : H2 unit :=
  o <~ tfw_h2_stream_create id ;;
  match o with
  | None => sm_bug
  | Some p =>
      mod_ctx (fun c => set_c_lstream_id id (set_c_cur_stream (Some p) c)) ;;;
      __tfw_h2_stream_add_closed p ;;;
      mod_ctx (set_c_cur_stream None)
  end.

Lemma open_close_core id w :
  core w -> c_cur_stream (w_ctx w) = None -> c_lstream_id (w_ctx w) < id < 2 ^ 31 -> Z.odd id = true ->
  forall w', open_close id w = Ok (tt, w') -> core w' /\ c_cur_stream (w_ctx w') = None.
Proof.
  intros HC Hcur Hid Hodd w' Hrun. pose proof (wp_stream_create id w HC Hid Hodd) as Hwp. apply wp_ok in Hwp as (o & w1 & E1 & _ & _ & Ho).
  unfold open_close, sm_bind in Hrun. rewrite E1 in Hrun. destruct o as [p|]; [| done]. destruct Ho as (_ & HC1 & Hh1).
  cbn [mod_ctx sm_mod] in Hrun. pose proof (wp_add_closed p _ HC1) as Hwp. cbn [w_heap set_w_ctx] in Hwp. rewrite Hh1, lookup_insert_eq in Hwp.
  specialize (Hwp ltac:(eauto)). apply wp_ok in Hwp as ([] & w2 & E2 & HC2 & _). unfold mod_ctx, sm_mod in Hrun. rewrite E2 in Hrun.
  injection Hrun as <-. split; [| done]. by apply (core_set_cur HC2).
Qed.

Definition demo_closed (n : nat) : World :=
  foldl (fun w i => match open_close (2 * i + 1) w with Ok (_, w) => w | Bug => w end) init_world (seqZ 0 (Z.of_nat n)).

Lemma demo_closed_core : core (demo_closed 7) /\ c_cur_stream (w_ctx (demo_closed 7)) = None.
Proof.
  assert (H : forall k, (k <= 7)%nat -> core (demo_closed k) /\ c_cur_stream (w_ctx (demo_closed k)) = None); [| by apply H].
  induction k as [|k IH]; intros Hk; [split; [apply core_init | done] |]. destruct IH as [HC Hc]; [lia |].
  assert (Hrun : open_close (2 * Z.of_nat k + 1) (demo_closed k) = Ok (tt, demo_closed (S k)) /\ c_lstream_id (w_ctx (demo_closed k)) < 2 * Z.of_nat k + 1).
  { clear -Hk. do 7 (destruct k as [|k]; [by split; vm_compute |]). lia. }
  apply (open_close_core (2 * Z.of_nat k + 1) (demo_closed k)); [done | done | lia | | apply Hrun]. rewrite Z.odd_add, Z.odd_mul. done.
Qed.

(** Two of them are freed. *)
Lemma closed_streams_shrink_correct_witness :
  exists w', tfw_h2_closed_streams_shrink (demo_closed 7) = Ok (tt, w') /\ core w' /\
    length (c_hclosed_list (w_ctx (demo_closed 7))) = 7%nat /\
    c_hclosed_list (w_ctx w') = drop 2 (c_hclosed_list (w_ctx (demo_closed 7))) /\ c_hclosed_num (w_ctx w') = 5.
Proof.
  destruct (closed_streams_shrink_correct (demo_closed 7) (proj1 demo_closed_core) (proj2 demo_closed_core)) as (w' & H1 & H2 & H3 & H4 & _).
  exists w'. split; [exact H1 |]. split; [exact H2 |]. split; [by vm_compute |]. split; [exact H3 | exact H4].
Defined.
