(* ===== verification/H2Safety.v ===== *)
(** The frame handlers and the reception FSM keep the connection invariant and
    never hit a [BUG()], for every input and every outcome of transmissions and
    allocations. *)

From S2P Require Import Prelude RbTree H2Stream H2Ctx H2Frame H2Inv.
Local Open Scope Z_scope.

(** ** The invariant of the receive context *)

Definition rbuf_ok (c : TfwH2Ctx) : Prop :=
  length (c_rbuf c) = 9%nat /\ bytes_ok (c_rbuf c) /\ is_u8 (c_padlen c).

(** A HEADERS frame on a stream that does not exist yet opens a new one: the
    identifier was checked when the frame header was read. *)
Definition new_id_ok (c : TfwH2Ctx) : Prop :=
  c_cur_stream c = None ->
  c_lstream_id c < f_stream_id (c_hdr c) < 2 ^ 31 /\ Z.odd (f_stream_id (c_hdr c)) = true.

(** How many bytes a state collects. *)
Definition fs_read (st : TfwFrameState) (c : TfwH2Ctx) : Z :=
  match st with
  | HTTP2_RECV_CLI_START_SEQ => FRAME_PREFACE_CLI_MAGIC_LEN
  | HTTP2_RECV_FIRST_SETTINGS | HTTP2_RECV_FRAME_HEADER => FRAME_HEADER_SIZE
  | _ => c_to_read c
  end.

Definition settings_left (c : TfwH2Ctx) : Prop :=
  0 <= f_length (c_hdr c) /\ f_length (c_hdr c) mod 6 = 0.

Definition fs_cond (st : TfwFrameState) (c : TfwH2Ctx) : Prop :=
  match st with
  | HTTP2_RECV_CLI_START_SEQ | HTTP2_RECV_FIRST_SETTINGS => c_to_read c = 0
  | HTTP2_RECV_FRAME_HEADER | HTTP2_IGNORE_FRAME_DATA => True
  | HTTP2_RECV_FRAME_PRIORITY => c_to_read c = 5
  | HTTP2_RECV_FRAME_WND_UPDATE => c_to_read c = 4
  | HTTP2_RECV_FRAME_PING => c_to_read c = 8
  | HTTP2_RECV_FRAME_RST_STREAM => c_to_read c = 4 /\ is_Some (c_cur_stream c)
  | HTTP2_RECV_FRAME_SETTINGS => c_to_read c = 6 /\ settings_left c
  | HTTP2_RECV_FRAME_GOAWAY => c_to_read c = 8 /\ 0 <= f_length (c_hdr c)
  | HTTP2_RECV_FRAME_PADDED =>
      c_to_read c = 1 /\ 0 <= f_length (c_hdr c) /\
      (f_type (c_hdr c) = HTTP2_DATA /\ is_Some (c_cur_stream c) \/
       f_type (c_hdr c) = HTTP2_HEADERS /\ new_id_ok c)
  | HTTP2_RECV_HEADER_PRI =>
      c_to_read c = 5 /\ 0 <= f_length (c_hdr c) /\
      has_flag (f_flags (c_hdr c)) HTTP2_F_PRIORITY = true /\ new_id_ok c
  | HTTP2_RECV_HEADER => 0 <= f_length (c_hdr c) /\ new_id_ok c
  | HTTP2_RECV_CONT | HTTP2_RECV_DATA => 0 <= f_length (c_hdr c) /\ is_Some (c_cur_stream c)
  end.

(** Only while the payload of an RST_STREAM frame is awaited may the current
    stream be CLOSED. *)
Definition live_at (st : TfwFrameState) (w : World) : Prop :=
  live_except (if bool_decide (st = HTTP2_RECV_FRAME_RST_STREAM)
               then c_cur_stream (w_ctx w) else None) w.

(** Ready to enter state [st]. *)
Definition ready (st : TfwFrameState) (w : World) : Prop :=
  0 < fs_read st (w_ctx w) /\ fs_cond st (w_ctx w) /\ live_at st w.

(** The invariant between two calls of [tfw_h2_frame_recv()]. *)
Definition recv_inv (w : World) : Prop :=
  core w /\ rbuf_ok (w_ctx w) /\ ready (c_state (w_ctx w)) w /\
  0 <= c_rlen (w_ctx w) < fs_read (c_state (w_ctx w)) (w_ctx w).

(** What a handler leaves when it returns [r]. *)
Definition hpost (r : Z) (w : World) : Prop :=
  core w /\ rbuf_ok (w_ctx w) /\
  (r = 0 ->
   0 <= c_to_read (w_ctx w) /\
   (c_to_read (w_ctx w) = 0 -> live_except None w) /\
   (c_to_read (w_ctx w) <> 0 -> ready (c_state (w_ctx w)) w)).

(** [wp_step] extended with the context accessors. *)
Ltac h2_step :=
  lazymatch goal with
  | |- wp (mod_ctx _) _ _ => apply wp_mod_ctx
  | |- wp get_ctx _ _ => apply wp_get_ctx
  | _ => wp_step
  end.

Section safety.
Context `{RbLib} `{Env}.
Implicit Types (w : World) (c : TfwH2Ctx).

Lemma same_recv_rbuf c c' : same_recv c c' -> rbuf_ok c -> rbuf_ok c'.
Proof. intros (_ & _ & _ & _ & _ & _ & Hb & Hp & _). unfold rbuf_ok. by rewrite Hb, Hp. Qed.

Lemma hpost_drop w r : core w -> rbuf_ok (w_ctx w) -> r <> 0 -> hpost r w.
Proof. intros. split_and!; done. Qed.

Lemma wp_conn_term e w :
  core w -> rbuf_ok (w_ctx w) -> wp (conn_term e) hpost w.
Proof.
  intros HC Hb. apply wp_bind, wp_conn_terminate. intros tx n. apply wp_ret.
  by apply hpost_drop.
Qed.

(** The state in which the rest of a frame is skipped is always fine. *)
Lemma ignore_ready r w :
  core w -> rbuf_ok (w_ctx w) -> live_except None w ->
  c_state (w_ctx w) = HTTP2_IGNORE_FRAME_DATA -> 0 <= c_to_read (w_ctx w) -> hpost r w.
Proof.
  intros HC Hb Hl Hst Hr. split_and!; try done. intros _. split_and!; try done.
  intros Hne. unfold ready. rewrite Hst. split_and!; [simpl; lia | done | done].
Qed.

(** [SET_TO_READ_VERIFY] and [SET_TO_READ] into a state that only needs the
    stream of the frame. *)
Lemma set_to_read_verify_post r next w :
  core w -> rbuf_ok (w_ctx w) -> live_except None w -> 0 <= f_length (c_hdr (w_ctx w)) ->
  next ∈ [HTTP2_RECV_HEADER; HTTP2_RECV_CONT; HTTP2_RECV_DATA; HTTP2_IGNORE_FRAME_DATA] ->
  fs_cond next (w_ctx w) ->
  hpost r (set_w_ctx (SET_TO_READ_VERIFY next (w_ctx w)) w).
Proof.
  intros HC Hb Hl Hlen Hin Hf. unfold SET_TO_READ_VERIFY.
  destruct (Z.eqb_spec (f_length (c_hdr (w_ctx w))) 0) as [He|Hne]; simpl.
  - apply ignore_ready; done.
  - split_and!; try done. intros _. simpl. split_and!; [done | done |].
    intros _. unfold ready, live_at. simpl.
    set_unfold in Hin. destruct Hin as [->|[->|[->|[->|[]]]]]; simpl;
      (split; [lia |]; split; [| exact Hl]); try done; (split; [done | apply Hf]).
Qed.

Lemma set_to_read_post r next w :
  core w -> rbuf_ok (w_ctx w) -> live_except None w -> 0 <= f_length (c_hdr (w_ctx w)) ->
  next ∈ [HTTP2_RECV_HEADER; HTTP2_RECV_DATA; HTTP2_IGNORE_FRAME_DATA] ->
  fs_cond next (w_ctx w) ->
  hpost r (set_w_ctx (SET_TO_READ (set_c_state next (w_ctx w))) w).
Proof.
  intros HC Hb Hl Hlen Hin Hf.
  split_and!; try done. intros _. simpl. split_and!; [done | done |].
  intros Hne. unfold ready, live_at. simpl. set_unfold in Hin.
  destruct Hin as [->|[->|[->|[]]]]; simpl;
    (split; [lia |]; split; [| exact Hl]); try done; (split; [done | apply Hf]).
Qed.

(** The same for the service frames, whose length was checked. *)
Lemma set_to_read_srvc_post r next n w :
  core w -> rbuf_ok (w_ctx w) -> f_length (c_hdr (w_ctx w)) = n -> 0 < n ->
  live_at next w ->
  (forall c', c_to_read c' = n -> c_cur_stream c' = c_cur_stream (w_ctx w) ->
     fs_read next c' = n /\ fs_cond next c') ->
  hpost r (set_w_ctx (SET_TO_READ (set_c_state next (w_ctx w))) w).
Proof.
  intros HC Hb Hlen Hn Hl Hf. split_and!; try done. intros _. simpl. rewrite Hlen.
  split_and!; [lia | lia |]. intros _. unfold ready. simpl.
  destruct (Hf (SET_TO_READ (set_c_state next (w_ctx w)))) as [Hr Hc]; [done | done |].
  rewrite Hr. split_and!; done.
Qed.

(** ** The stream FSM from the receiving side *)

Lemma live_lookup o w p s :
  live_except o w -> w_heap w !! p = Some s -> o <> Some p ->
  s_state s <> HTTP2_STREAM_CLOSED.
Proof. intros [_ Hl] Hp. by apply (Hl p s Hp). Qed.

Lemma live_put_state o p s st' w :
  live_except None w -> w_heap w !! p = Some s -> (st' = HTTP2_STREAM_CLOSED -> o = Some p) ->
  live_except o (set_w_heap (<[p := set_s_state st' s]> (w_heap w)) w).
Proof.
  intros [Hw Hl] Hs Hst. split; [done |]. intros q sq Hq. simpl in Hq.
  apply lookup_insert_Some in Hq as [[<- <-]|[_ Hq]].
  - split; [by apply (Hl p s Hs) |]. auto.
  - destruct (Hl q sq Hq). split; auto.
Qed.

Lemma wp_stream_recv p w :
  core w -> rbuf_ok (w_ctx w) -> live_except None w -> c_cur_stream (w_ctx w) = Some p ->
  0 <= f_length (c_hdr (w_ctx w)) ->
  wp STREAM_RECV_PROCESS
     (fun o w' => match o with
        | None => core w' /\ w_ctx w' = w_ctx w /\
            live_except (if f_type (c_hdr (w_ctx w)) =? HTTP2_RST_STREAM
                         then Some p else None) w'
        | Some r => hpost r w' /\ live_except None w'
        end) w.
Proof.
  intros HC Hb Hl Hcur Hlen. unfold STREAM_RECV_PROCESS.
  apply wp_bind, wp_get_ctx. rewrite Hcur.
  destruct (core_cur _ _ _ _ _ _ _ _ _ _ _ _ HC p Hcur) as [s Hs].
  destruct (core_stream _ _ _ _ _ _ _ _ _ _ _ _ HC p s Hs) as (_ & _ & _ & H1 & H2).
  assert (Hlive : stream_live (s_state s)) by (split_and!; [done | done | by eapply live_lookup]).
  destruct (stream_fsm_recv_total (s_state s) (f_type (c_hdr (w_ctx w)))
    (f_flags (c_hdr (w_ctx w))) HTTP2_ECODE_NO_ERROR Hlive)
    as (st' & res & err' & Hfsm & Hst').
  assert (Hnr : st' <> HTTP2_STREAM_LOC_RESERVED /\ st' <> HTTP2_STREAM_REM_RESERVED)
    by (destruct Hst' as [(? & ? & _)|(-> & _)]; done).
  apply wp_bind. eapply wp_mono; [eapply (wp_fsm_at p s); try done; apply Hnr |].
  intros out w1 (-> & HC1 & Hw1).
  destruct (decide (res = STREAM_FSM_RES_OK)) as [->|Hres].
  - apply wp_ret. subst w1. split_and!; [done | done |]. apply live_put_state; try done.
    intros ->. destruct Hst' as [(_ & _ & Hn)|(_ & -> & _)]; done.
  - assert (Hl1 : live_except None w1).
    { subst w1. apply live_put_state; try done.
      intros ->. destruct Hst' as [(_ & _ & ?)|(_ & _ & ?)]; done. }
    assert (Hpost : forall r, hpost r
      (set_w_ctx (SET_TO_READ_VERIFY HTTP2_IGNORE_FRAME_DATA (w_ctx w1)) w1)).
    { intros r. subst w1. apply set_to_read_verify_post; try done. set_solver. }
    set (w2 := set_w_ctx (SET_TO_READ_VERIFY HTTP2_IGNORE_FRAME_DATA (w_ctx w1)) w1) in *.
    assert (Hc2 : c_state (w_ctx w2) = HTTP2_IGNORE_FRAME_DATA /\ 0 <= c_to_read (w_ctx w2)).
    { subst w2 w1. simpl. unfold SET_TO_READ_VERIFY.
      by destruct (negb (f_length (c_hdr (w_ctx w)) =? 0)). }
    assert (Hl2 : live_except None w2).
    { revert Hl1. apply live_except_ext; [done |]. subst w2. simpl.
      unfold SET_TO_READ_VERIFY. by destruct (negb _). }
    destruct res; try done.
    + apply wp_bind, wp_mod_ctx. fold w2. apply wp_bind, wp_conn_terminate. intros tx n.
      apply wp_ret. split; [by apply hpost_drop; destruct (Hpost 0) as (? & ? & _) | done].
    + apply wp_bind, wp_mod_ctx. fold w2. destruct (Hpost 0) as (HC2 & Hb2 & _).
      apply wp_bind. eapply wp_mono; [exact (wp_stream_close _ _ w2 HC2) |].
      intros r w3 (HC3 & Hsr & Hh & Hc3 & _). apply wp_ret.
      assert (Hl3 : live_except None w3)
        by (apply (live_except_le None w2); [done | by apply closed_le_heap]).
      split; [| done].
      pose proof (same_recv_rbuf _ _ Hsr Hb2) as Hb3.
      destruct Hsr as (_ & _ & _ & Hst & Hrd & _).
      apply ignore_ready; try done.
      * rewrite Hst. apply Hc2.
      * rewrite Hrd. apply Hc2.
Qed.
(** ** Handlers of fully received frames *)

(** Such a handler ends the frame: no stream is left CLOSED. *)
Definition fpost (r : Z) (w : World) : Prop :=
  core w /\ rbuf_ok (w_ctx w) /\ live_except None w.

Lemma wp_state_process p w :
  core w -> rbuf_ok (w_ctx w) -> live_except None w -> c_cur_stream (w_ctx w) = Some p ->
  0 <= f_length (c_hdr (w_ctx w)) ->
  wp tfw_h2_stream_state_process fpost w.
Proof.
  intros HC Hb Hl Hcur Hlen. apply wp_bind.
  eapply wp_mono; [exact (wp_stream_recv p w HC Hb Hl Hcur Hlen) |].
  intros [r|] w1.
  - intros [(HC1 & Hb1 & _) Hl1]. by apply wp_ret.
  - intros (HC1 & Hc1 & Hl1). unfold tfw_h2_check_closed_stream.
    apply wp_bind, wp_bind, wp_get_ctx. rewrite Hc1, Hcur.
    destruct (core_cur _ _ _ _ _ _ _ _ _ _ _ _ HC1 p) as [s Hs]; [congruence |].
    apply wp_bind, (wp_get_stream p s); [done |].
    unfold tfw_h2_stream_is_closed. case_bool_decide as Hcl.
    + eapply wp_mono; [apply (wp_current_remove p w1 HC1); [congruence |] |].
      { destruct (_ =? _); [done | by apply live_except_weaken]. }
      intros _ w2 (HC2 & Hsr & Hl2 & _). apply wp_ret. split_and!; [done | | done].
      apply (same_recv_rbuf _ _ Hsr). by rewrite Hc1.
    + apply wp_ret, wp_ret. split_and!; [done | by rewrite Hc1 |].
      destruct Hl1 as [Hw Hl1]. split; [done |]. intros q sq Hq.
      destruct (Hl1 q sq Hq) as [Hwq Hlq]. split; [done |]. intros _ Hqc.
      destruct (decide (p = q)) as [->|Hne]; [congruence |].
      apply Hlq; [| done]. destruct (_ =? _); [congruence | done].
Qed.

Lemma wp_reset_current w :
  core w -> rbuf_ok (w_ctx w) -> live_except None w -> wp reset_current_stream fpost w.
Proof.
  intros HC Hb Hl. apply wp_bind, wp_get_ctx, wp_bind.
  eapply wp_mono.
  { apply (wp_send_process _ HTTP2_RST_STREAM 0 w HC); [| by right].
    apply (core_cur _ _ _ _ _ _ _ _ _ _ _ _ HC). }
  intros res w1 (HC1 & Hle & Hc1 & _). case_bool_decide.
  - eapply wp_mono; [exact (wp_stream_close _ _ w1 HC1) |].
    intros r w2 (HC2 & Hsr & Hh & _ & _). split_and!; [done | |].
    + apply (same_recv_rbuf _ _ Hsr). by rewrite Hc1.
    + apply (live_except_le None w1); [by eapply live_except_le | by apply closed_le_heap].
  - apply wp_ret. split_and!; [done | by rewrite Hc1 | by eapply live_except_le].
Qed.

Lemma wp_headers_process w :
  core w -> rbuf_ok (w_ctx w) -> live_except None w -> new_id_ok (w_ctx w) ->
  0 <= f_length (c_hdr (w_ctx w)) ->
  wp tfw_h2_headers_process fpost w.
Proof.
  intros HC Hb Hl Hid Hlen. apply wp_bind, wp_get_ctx. wp_step.
  { apply wp_bind, wp_mod_ctx. by apply wp_reset_current. }
  destruct (c_cur_stream (w_ctx w)) as [p|] eqn:Hcur.
  { by apply (wp_state_process p). }
  destruct (Hid Hcur) as [Hrange Hodd].
  apply wp_bind. eapply wp_mono; [exact (wp_stream_create _ w HC Hrange Hodd) |].
  intros o w1 (Hsr & Hle & Ho). apply wp_bind, wp_mod_ctx.
  pose proof (same_recv_rbuf _ _ Hsr Hb) as Hb1.
  pose proof (live_except_le None _ _ Hl Hle) as Hl1.
  destruct o as [p|].
  - destruct Ho as (_ & HC1 & _). apply wp_bind, wp_mod_ctx.
    destruct Hsr as (_ & Hh & _).
    assert (Hid1 : f_stream_id (c_hdr (w_ctx w1)) = f_stream_id (c_hdr (w_ctx w)))
      by (by rewrite Hh).
    apply (wp_state_process p); try done; simpl.
    + unfold core. simpl. rewrite Hid1. exact HC1.
    + by rewrite Hh.
  - destruct Ho as [_ HC1]. apply wp_ret. split_and!; [| done | done].
    by apply (core_set_cur HC1).
Qed.

Lemma wp_wnd_update w :
  core w -> rbuf_ok (w_ctx w) -> live_except None w -> wp tfw_h2_wnd_update_process fpost w.
Proof.
  intros HC Hb Hl. apply wp_bind, wp_get_ctx. wp_step.
  { by apply wp_ret. }
  destruct (c_cur_stream (w_ctx w)).
  - by apply wp_reset_current.
  - apply wp_bind, wp_conn_terminate. intros tx n. by apply wp_ret.
Qed.

Lemma wp_priority w :
  core w -> rbuf_ok (w_ctx w) -> live_except None w -> wp tfw_h2_priority_process fpost w.
Proof.
  intros HC Hb Hl. apply wp_bind, wp_mod_ctx, wp_bind, wp_get_ctx. wp_step.
  - by apply wp_ret.
  - by apply wp_reset_current.
Qed.

Lemma wp_rst_stream p w :
  core w -> rbuf_ok (w_ctx w) -> c_cur_stream (w_ctx w) = Some p -> live_except (Some p) w ->
  wp tfw_h2_rst_stream_process (fun _ => fpost 0) w.
Proof.
  intros HC Hb Hcur Hl. apply wp_bind, wp_get_ctx. rewrite Hcur. apply wp_bind, wp_ret.
  eapply wp_mono; [exact (wp_current_remove p w HC Hcur Hl) |].
  intros _ w' (HC' & Hsr & Hl' & _). split_and!; [done | by eapply same_recv_rbuf | done].
Qed.

(** ** Settings *)

Lemma wp_settings_entry id val w :
  core w -> is_u32 val ->
  wp (tfw_h2_apply_settings_entry id val)
     (fun _ w' => core w' /\ same_recv (w_ctx w) (w_ctx w') /\ w_heap w' = w_heap w
        /\ c_cur_stream (w_ctx w') = c_cur_stream (w_ctx w)) w.
Proof.
  intros HC Hv. unfold is_u32 in Hv. unfold tfw_h2_apply_settings_entry.
  destruct (core_rset _ _ _ _ _ _ _ _ _ _ _ _ HC) as (R1 & R2 & R3 & R4).
  pose proof (core_etbl _ _ _ _ _ _ _ _ _ _ _ _ HC) as He.
  destruct (id =? HTTP2_SETTINGS_TABLE_SIZE).
  - set (sz := Z.min val HPACK_ENC_TABLE_MAX_SIZE).
    assert (Hsz : 0 <= sz <= HPACK_ENC_TABLE_MAX_SIZE)
      by (unfold sz, HPACK_ENC_TABLE_MAX_SIZE, HPACK_TABLE_DEF_SIZE in *; lia).
    apply wp_bind, wp_mod_ctx, wp_bind, wp_get_ctx. simpl.
    assert (Hu : 0 <= u16 sz) by (apply Z.mod_pos_bound; lia).
    destruct (set_rbuf_size_wf _ (u16 sz) He Hu) as (e' & -> & He' & _).
    apply wp_bind, wp_mod_ctx, wp_ret. split_and!; try done.
    apply (core_set_etbl (etbl := hp_enc_tbl (c_hpack (w_ctx w)))); [| done].
    apply (core_set_rset HC). unfold rsettings_ok. simpl. lia.
  - repeat h2_step; bool_hyps; (split_and!; [| done | done | done]); try exact HC;
      apply (core_set_rset HC); unfold rsettings_ok; simpl; lia.
Qed.

(** What is left of a SETTINGS frame when an entry has been handled.  The state
    is fixed: after the first SETTINGS frame of a connection [c_state] is stale. *)
Definition settings_post (r : Z) (w : World) : Prop :=
  core w /\ rbuf_ok (w_ctx w) /\ live_except None w /\
  (r = 0 -> 0 <= c_to_read (w_ctx w) /\
     (c_to_read (w_ctx w) <> 0 -> ready HTTP2_RECV_FRAME_SETTINGS w)).

Lemma next_entry_post r w :
  core w -> rbuf_ok (w_ctx w) -> live_except None w -> settings_left (w_ctx w) ->
  settings_post r (set_w_ctx (next_settings_entry (w_ctx w)) w).
Proof.
  intros HC Hb Hl [Hlen Hmod]. unfold next_settings_entry, FRAME_SETTINGS_ENTRY_SIZE.
  split; [exact HC |]. split; [exact Hb |]. split; [exact Hl |]. intros _. simpl.
  destruct (Z.eqb_spec (f_length (c_hdr (w_ctx w))) 0) as [|Hn]; [done |].
  split; [done |]. intros _. split; [done |]. split; [| exact Hl]. split; [done |].
  unfold settings_left. simpl. Z.div_mod_to_equations. lia.
Qed.

Lemma wp_settings w :
  core w -> rbuf_ok (w_ctx w) -> live_except None w -> settings_left (w_ctx w) ->
  wp tfw_h2_settings_process settings_post w.
Proof.
  intros HC Hb Hl Hleft. apply wp_bind, wp_get_ctx, wp_bind.
  eapply wp_mono; [apply (wp_settings_entry _ _ w HC); apply ntohl_at_range, Hb |].
  intros r w1 (HC1 & Hsr & Hh & _). pose proof (same_recv_rbuf _ _ Hsr Hb) as Hb1.
  pose proof (live_except_le None w w1 Hl (closed_le_heap w w1 Hsr Hh)) as Hl1. wp_step.
  - apply wp_ret. by split_and!.
  - apply wp_bind, wp_mod_ctx, wp_ret.
    destruct Hsr as (_ & Hhdr & _). apply next_entry_post; try done.
    unfold settings_left. by rewrite Hhdr.
Qed.

(** ** Frame headers *)

Lemma unpack_hdr_range b :
  bytes_ok b ->
  0 <= f_length (tfw_h2_unpack_frame_header b) < 2 ^ 24 /\
  0 <= f_stream_id (tfw_h2_unpack_frame_header b) < 2 ^ 31.
Proof.
  intros Hb. simpl. split.
  - pose proof (ntohl_at_range b 0 Hb) as Hr. unfold is_u32 in Hr.
    rewrite Z.shiftr_div_pow2 by lia. split; [apply Z.div_pos; lia |].
    apply Z.div_lt_upper_bound; lia.
  - change FRAME_STREAM_ID_MASK with (Z.ones 31). by apply land_ones_range.
Qed.

Lemma wp_first_settings w :
  core w -> rbuf_ok (w_ctx w) -> live_except None w -> c_to_read (w_ctx w) = 0 ->
  wp tfw_h2_first_settings_verify settings_post w.
Proof.
  intros HC Hb Hl Hz. apply wp_bind, wp_get_ctx, wp_bind, wp_bug_on; [by rewrite Hz |].
  apply wp_bind, wp_mod_ctx, wp_bind, wp_get_ctx.
  destruct (unpack_hdr_range (c_rbuf (w_ctx w))) as [Hlen _]; [apply Hb |].
  set (hdr := tfw_h2_unpack_frame_header (c_rbuf (w_ctx w))) in *. clearbody hdr.
  change (c_hdr (w_ctx (set_w_ctx (set_c_hdr hdr (w_ctx w)) w))) with hdr.
  set (err := if negb (f_length hdr =? 0) && _ then _ else _).
  assert (Herr : err = HTTP2_ECODE_NO_ERROR -> f_length hdr mod 6 = 0).
  { unfold err. destruct (Z.eqb_spec (f_length hdr) 0) as [->|Hn]; [done |]. simpl.
    destruct (Z.eqb_spec (Z.rem (f_length hdr) FRAME_SETTINGS_ENTRY_SIZE) 0) as [Hr|]; [| done].
    intros _. rewrite Z.rem_mod_nonneg in Hr by (unfold FRAME_SETTINGS_ENTRY_SIZE; lia). done. }
  clearbody err. destruct (decide (err = HTTP2_ECODE_NO_ERROR)) as [->|Hne].
  - rewrite bool_decide_false by (intros Hn; by apply Hn).
    apply wp_bind, wp_mod_ctx, wp_ret.
    apply (next_entry_post T_OK (set_w_ctx (set_c_hdr hdr (w_ctx w)) w)); try done.
    split; [simpl; lia | by apply Herr].
  - rewrite bool_decide_true by done.
    apply wp_bind, wp_conn_terminate. intros tx k. apply wp_ret.
    split; [exact HC |]. split; [exact Hb |]. split; [exact Hl |]. done.
Qed.

(** The stream lookup of a frame. *)
Lemma wp_find_current w :
  core w ->
  wp find_current_stream
     (fun o w' => w' = set_w_ctx (set_c_cur_stream o (w_ctx w)) w /\ core w' /\
        match o with
        | None => forall p s, w_heap w !! p = Some s -> s_id s <> f_stream_id (c_hdr (w_ctx w))
        | Some p => exists s, w_heap w !! p = Some s /\ s_id s = f_stream_id (c_hdr (w_ctx w))
        end) w.
Proof.
  intros HC. apply wp_bind, wp_get.
  destruct (find_stream_spec (w_heap w) (c_sched (w_ctx w)) (f_stream_id (c_hdr (w_ctx w))))
    as (o & -> & Ho).
  { apply (core_wf _ _ _ _ _ _ _ _ _ _ _ _ HC). }
  apply wp_bind, wp_mod_ctx, wp_ret. split_and!; [done | | done].
  apply (core_set_cur HC). intros p Hp. simpl in Hp. subst o.
  destruct Ho as (s & Hs & _). eauto.
Qed.

(** Flow control: with the windows open and the frame no longer than the frame
    limit, no window underflows; on success the windows are open again. *)
Lemma wp_conn_wnd_update w :
  core w ->
  wp (c <~ get_ctx ;;
      if c_loc_wnd c <=? MAX_WND_SIZE / 2 then
        r <~ tfw_h2_send_wnd_update 0 (u32 (MAX_WND_SIZE - c_loc_wnd c)) ;;
        if negb (r =? 0) then sm_ret T_DROP
        else mod_ctx (set_c_loc_wnd MAX_WND_SIZE) ;;; sm_ret T_OK
      else sm_ret T_OK)
     (fun r w' => core w' /\ w_heap w' = w_heap w /\
        (r = T_OK -> wnd_open (c_loc_wnd (w_ctx w'))) /\
        w_ctx w' = set_c_loc_wnd (c_loc_wnd (w_ctx w')) (w_ctx w)) w.
Proof.
  intros HC. assert (Heta : forall c, set_c_loc_wnd (c_loc_wnd c) c = c) by (by intros []).
  apply wp_bind, wp_get_ctx. wp_step.
  - apply wp_bind, wp_send. intros r tx n. wp_step.
    + apply wp_ret. split_and!; [done | done | done | by rewrite Heta].
    + apply wp_bind, wp_mod_ctx, wp_ret. split_and!; [| done | by vm_compute | done].
      apply (core_set_wnd HC). by vm_compute.
  - apply wp_ret. bool_hyps. split_and!; [done | done | done | by rewrite Heta].
Qed.

Lemma wp_flow_control p w :
  core w -> live_except None w -> c_cur_stream (w_ctx w) = Some p ->
  0 <= f_length (c_hdr (w_ctx w)) <= FRAME_DEF_LENGTH ->
  wp tfw_h2_flow_control
     (fun r w' => core w' /\ (r = T_OK -> live_except None w') /\
        w_ctx w' = set_c_loc_wnd (c_loc_wnd (w_ctx w')) (w_ctx w)) w.
Proof.
  intros HC Hl Hcur Hlen. apply wp_bind, wp_get_ctx. rewrite Hcur.
  destruct (core_cur _ _ _ _ _ _ _ _ _ _ _ _ HC p Hcur) as [s Hs].
  destruct (core_stream _ _ _ _ _ _ _ _ _ _ _ _ HC p s Hs) as (Hid & Hodd & Hw & H1 & H2).
  pose proof (core_wnd _ _ _ _ _ _ _ _ _ _ _ _ HC) as Hcw.
  destruct Hl as [Hwo Hl]. destruct (Hl p s Hs) as [Hswo Hsl].
  rewrite (core_lset _ _ _ _ _ _ _ _ _ _ _ _ HC).
  apply wp_bind, (wp_get_stream p s); [done |]. simpl st_wnd_sz.
  set (len := f_length (c_hdr (w_ctx w))) in *.
  assert (Hu : forall x, wnd_open x -> 0 <= x <= MAX_WND_SIZE ->
    u32 (x - len) = x - len /\ 0 <= x - len <= MAX_WND_SIZE).
  { intros x Ho Hx. unfold wnd_open, FRAME_DEF_LENGTH in *.
    change (MAX_WND_SIZE / 2) with 1073741823 in *. change MAX_WND_SIZE with 2147483647 in *.
    split; [| lia]. apply u32_small. unfold is_u32. lia. }
  destruct (Hu _ Hswo Hw) as [Hu1 Hr1]. destruct (Hu _ Hwo Hcw) as [Hu2 Hr2].
  apply wp_bind, wp_put_stream, wp_bind, wp_mod_ctx. simpl. rewrite Hu1, Hu2.
  (* a world where the stream has window [v], the other streams are as in [w] *)
  assert (Hput : forall v (w1 : World), wnd_open v -> wnd_open (c_loc_wnd (w_ctx w1)) ->
    w_heap w1 = <[p := set_s_loc_wnd v s]> (w_heap w) -> live_except None w1).
  { intros v w1 Hv Hc Hh. split; [done |]. intros q sq Hq. rewrite Hh in Hq.
    apply lookup_insert_Some in Hq as [[<- <-]|[_ Hq]]; auto. }
  assert (Hcore : forall v, 0 <= v <= MAX_WND_SIZE -> forall tx n,
    core (set_w_tx tx (set_w_nsend n (set_w_heap (<[p := set_s_loc_wnd v s]> (w_heap w))
      (set_w_ctx (set_c_loc_wnd (c_loc_wnd (w_ctx w) - len) (w_ctx w)) w))))).
  { intros v Hv tx n.
    apply (core_set_wnd (wnd := c_loc_wnd (w_ctx w))); [| done].
    apply (core_put_stream HC p s); done. }
  apply wp_bind. wp_step.
  - apply wp_bind, wp_send. intros r tx n. destruct (r =? 0); simpl.
    + apply wp_bind, (wp_get_stream p (set_s_loc_wnd (s_loc_wnd s - len) s)).
      { simpl. apply lookup_insert_eq. }
      apply wp_bind, wp_put_stream, wp_ret. simpl. rewrite insert_insert_eq.
      eapply wp_mono; [apply wp_conn_wnd_update |].
      { apply (Hcore MAX_WND_SIZE); by vm_compute. }
      intros r' w' (HC' & Hh & Ho & Hc). split_and!; [done | | by rewrite Hc at 1].
      intros Hr. apply (Hput MAX_WND_SIZE); [by vm_compute | auto | done].
    + apply wp_ret. split_and!; [by apply Hcore | done | done].
  - bool_hyps. apply wp_ret. simpl.
    eapply wp_mono; [apply wp_conn_wnd_update |].
    { apply (Hcore (s_loc_wnd s - len) Hr1 (w_tx w) (w_nsend w)). }
    intros r' w' (HC' & Hh & Ho & Hc). split_and!; [done | | by rewrite Hc at 1].
    intros Hr. apply (Hput (s_loc_wnd s - len)); [done | auto | done].
Qed.

(** ** Frame parts *)

Lemma wp_recv_priority w :
  core w -> rbuf_ok (w_ctx w) -> live_except None w -> new_id_ok (w_ctx w) ->
  has_flag (f_flags (c_hdr (w_ctx w))) HTTP2_F_PRIORITY = true ->
  wp tfw_h2_recv_priority hpost w.
Proof.
  intros HC Hb Hl Hid Hf. apply wp_bind, wp_mod_ctx, wp_bind, wp_get_ctx. wp_step; bool_hyps.
  - by apply wp_conn_term.
  - simpl in *. apply wp_bind, wp_mod_ctx, wp_ret.
    split; [exact HC |]. split; [exact Hb |]. intros _. split; [done |]. split; [done |].
    intros _. split; [done |]. split; [| exact Hl]. simpl. split_and!; done.
Qed.

Lemma wp_recv_padded w :
  core w -> rbuf_ok (w_ctx w) -> live_except None w ->
  f_type (c_hdr (w_ctx w)) = HTTP2_DATA /\ is_Some (c_cur_stream (w_ctx w)) \/
    f_type (c_hdr (w_ctx w)) = HTTP2_HEADERS /\ new_id_ok (w_ctx w) ->
  wp tfw_h2_recv_padded hpost w.
Proof.
  intros HC Hb Hl Ht. apply wp_bind, wp_mod_ctx, wp_bind, wp_get_ctx. wp_step; bool_hyps.
  - by apply wp_conn_term.
  - simpl in *. apply wp_bind, wp_mod_ctx, wp_ret.
    split; [exact HC |]. split; [exact Hb |]. intros _. split; [done |]. split; [done |].
    intros _. split; [done |]. split; [| exact Hl]. simpl. split_and!; done.
Qed.

Lemma wp_headers_pri w :
  core w -> rbuf_ok (w_ctx w) -> live_except None w ->
  fs_cond HTTP2_RECV_HEADER_PRI (w_ctx w) ->
  wp tfw_h2_headers_pri_process hpost w.
Proof.
  intros HC Hb Hl (_ & Hlen & Hf & Hid).
  apply wp_bind, wp_get_ctx, wp_bind, wp_bug_on; [by rewrite Hf |].
  apply wp_bind, wp_mod_ctx, wp_ret.
  set (c' := set_c_data_off _ _).
  apply (set_to_read_verify_post T_OK HTTP2_RECV_HEADER (set_w_ctx c' w)); try done.
  set_solver.
Qed.

Lemma wp_pad_process w :
  core w -> rbuf_ok (w_ctx w) -> live_except None w ->
  fs_cond HTTP2_RECV_FRAME_PADDED (w_ctx w) ->
  wp tfw_h2_frame_pad_process hpost w.
Proof.
  intros HC Hb Hl (_ & Hlen & Ht). apply wp_bind, wp_mod_ctx.
  set (c' := set_length _ _).
  assert (Hb' : rbuf_ok c').
  { destruct Hb as (H1 & H2 & H3). split_and!; [done | done |]. by apply byte_at_range. }
  apply wp_bind, wp_get_ctx. wp_step; bool_hyps; [by apply wp_conn_term |].
  change (w_ctx (set_w_ctx c' w)) with c' in *.
  apply wp_bind, wp_get_ctx. change (w_ctx (set_w_ctx c' w)) with c'. wp_step; bool_hyps.
  { apply wp_bind, wp_mod_ctx, wp_ret. by apply ignore_ready. }
  destruct Ht as [[Ht Hs]|[Ht Hid]].
  - replace (f_type (c_hdr c') =? HTTP2_DATA) with true by (symmetry; by apply Z.eqb_eq).
    apply wp_bind, wp_mod_ctx, wp_ret.
    apply (set_to_read_post T_OK HTTP2_RECV_DATA (set_w_ctx c' w)); try done. set_solver.
  - replace (f_type (c_hdr c') =? HTTP2_DATA) with false
      by (symmetry; change (f_type (c_hdr c')) with (f_type (c_hdr (w_ctx w))); by rewrite Ht).
    replace (f_type (c_hdr c') =? HTTP2_HEADERS) with true by (symmetry; by apply Z.eqb_eq).
    wp_step.
    + by apply wp_recv_priority.
    + apply wp_bind, wp_mod_ctx, wp_ret.
      apply (set_to_read_post T_OK HTTP2_RECV_HEADER (set_w_ctx c' w)); try done. set_solver.
Qed.

(** ** [tfw_h2_frame_type_process()] *)

(** What holds when a frame header has been unpacked. *)
Definition hdr_pre (w : World) : Prop :=
  core w /\ rbuf_ok (w_ctx w) /\ live_except None w /\
  0 <= f_length (c_hdr (w_ctx w)) <= FRAME_DEF_LENGTH /\
  0 <= f_stream_id (c_hdr (w_ctx w)) < 2 ^ 31.

Lemma wp_recv_then next n p w :
  hdr_pre w -> c_cur_stream (w_ctx w) = Some p ->
  f_length (c_hdr (w_ctx w)) = n -> 0 < n ->
  (f_type (c_hdr (w_ctx w)) = HTTP2_RST_STREAM -> next = HTTP2_RECV_FRAME_RST_STREAM) ->
  (forall c', c_to_read c' = n -> c_cur_stream c' = Some p ->
     fs_read next c' = n /\ fs_cond next c') ->
  wp (recv_process_then next) hpost w.
Proof.
  intros (HC & Hb & Hl & Hlen & _) Hcur Hn Hpos Hrst Hf. apply wp_bind.
  eapply wp_mono; [apply (wp_stream_recv p w HC Hb Hl Hcur); lia |].
  intros [r|] w1.
  - intros [Hp _]. by apply wp_ret.
  - intros (HC1 & Hc1 & Hl1). apply wp_bind, wp_mod_ctx, wp_ret.
    apply (set_to_read_srvc_post T_OK next n w1 HC1); rewrite ?Hc1; try done.
    + unfold live_at. rewrite Hc1. case_bool_decide as Hnx.
      * rewrite Hcur. destruct (_ =? _); [done | by apply live_except_weaken].
      * destruct (Z.eqb_spec (f_type (c_hdr (w_ctx w))) HTTP2_RST_STREAM); [tauto | done].
    + by rewrite Hcur.
Qed.

Lemma wp_type_data w :
  hdr_pre w -> f_type (c_hdr (w_ctx w)) = HTTP2_DATA -> wp (type_data (c_hdr (w_ctx w))) hpost w.
Proof.
  intros (HC & Hb & Hl & Hlen & Hsid) Ht. apply wp_bind, wp_get_ctx.
  wp_step; [by apply wp_conn_term |]. wp_step; [by apply wp_conn_term |].
  apply wp_bind. eapply wp_mono; [exact (wp_find_current w HC) |].
  intros o w1 (-> & HC1 & Ho). destruct o as [p|]; [| by apply wp_conn_term].
  apply wp_bind. eapply wp_mono.
  { apply (wp_flow_control p _ HC1); try done. }
  intros r w2 (HC2 & Hl2 & Hc2). simpl in Hc2.
  assert (Hb2 : rbuf_ok (w_ctx w2)) by (by rewrite Hc2).
  wp_step; bool_hyps; [apply wp_ret; by apply hpost_drop |]. specialize (Hl2 ltac:(done)).
  apply wp_bind, wp_mod_ctx.
  assert (Hcur2 : c_cur_stream (w_ctx w2) = Some p) by (by rewrite Hc2).
  assert (Hh2 : c_hdr (w_ctx w2) = c_hdr (w_ctx w)) by (by rewrite Hc2).
  wp_step.
  - apply wp_recv_padded; try done. left. simpl. rewrite Hh2, Hcur2. eauto.
  - apply wp_bind, wp_mod_ctx, wp_ret.
    apply (set_to_read_verify_post T_OK HTTP2_RECV_DATA
      (set_w_ctx (begin_app_frame (w_ctx w2)) w2)); try done; simpl.
    + rewrite Hh2. lia.
    + set_solver.
    + rewrite Hcur2, Hh2. split; [lia | eauto].
Qed.

Lemma wp_stream_id_verify w :
  wp tfw_h2_stream_id_verify
     (fun r w' => w' = w /\ (r = 0 -> c_cur_stream (w_ctx w) = None ->
        c_lstream_id (w_ctx w) < f_stream_id (c_hdr (w_ctx w)) /\
        Z.odd (f_stream_id (c_hdr (w_ctx w))) = true)) w.
Proof.
  apply wp_bind, wp_get_ctx. destruct (c_cur_stream (w_ctx w)); [by apply wp_ret |].
  wp_step; [by apply wp_ret |]. wp_step; [by apply wp_ret |]. apply wp_ret. bool_hyps.
  split; [done |]. intros _ _. split; [done |].
  match goal with Hf : has_flag _ _ = true |- _ => rename Hf into Hfl end.
  unfold has_flag in Hfl. bool_hyps. change 0x1 with (Z.ones 1) in Hfl.
  rewrite Z.land_ones, Z.pow_1_r in Hfl by lia.
  rewrite <- Z.negb_even, Zeven_mod, negb_true_iff. by apply Z.eqb_neq.
Qed.

Lemma wp_type_headers w :
  hdr_pre w -> f_type (c_hdr (w_ctx w)) = HTTP2_HEADERS ->
  wp (type_headers (c_hdr (w_ctx w))) hpost w.
Proof.
  intros (HC & Hb & Hl & Hlen & Hsid) Ht. unfold type_headers.
  wp_step; [by apply wp_conn_term |]. apply wp_bind.
  eapply wp_mono; [exact (wp_find_current w HC) |]. intros o w1 (-> & HC1 & Ho).
  apply wp_bind. eapply wp_mono; [apply wp_stream_id_verify |]. intros v w1 [-> Hv]. simpl in Hv.
  wp_step; bool_hyps; [by apply wp_conn_term |]. specialize (Hv ltac:(done)).
  set (w1 := set_w_ctx (set_c_cur_stream o (w_ctx w)) w) in *.
  assert (Hl1 : live_except None w1) by exact Hl.
  (* the optional shrinking of the closed queue *)
  assert (Hshrink : wp (match o with
        | Some _ => sm_ret false
        | None =>
            c <~ get_ctx ;;
            tfw_h2_closed_streams_shrink ;;;
            c' <~ get_ctx ;;
            sm_ret (st_max_streams (c_lsettings c) =? c_streams_num c')
        end) (fun _ w2 => core w2 /\ same_recv (w_ctx w1) (w_ctx w2) /\ live_except None w2
               /\ c_cur_stream (w_ctx w2) = o
               /\ c_lstream_id (w_ctx w2) = c_lstream_id (w_ctx w1)) w1).
  { destruct o as [p|]; [by apply wp_ret |].
    apply wp_bind, wp_get_ctx, wp_bind. apply wp_bind, wp_get_ctx.
    eapply wp_mono; [apply wp_shrink_loop; [done | done | lia] |].
    intros _ w2 (HC2 & Hsr & Hle & Hc2 & Hlid & _). apply wp_bind, wp_get_ctx, wp_ret.
    split_and!; try done. by eapply live_except_le. }
  apply wp_bind. eapply wp_mono; [exact Hshrink |]. clear Hshrink.
  intros refused w2 (HC2 & Hsr & Hl2 & Hc2 & Hlid2).
  pose proof (same_recv_rbuf _ _ Hsr Hb) as Hb2.
  assert (Hh2 : c_hdr (w_ctx w2) = c_hdr (w_ctx w)) by apply Hsr.
  assert (Hid2 : new_id_ok (w_ctx w2)).
  { intros Hn. rewrite Hc2 in Hn. destruct (Hv Hn) as [Hlt Hodd]. rewrite Hlid2, Hh2. simpl. split; [lia | done]. }
  destruct refused.
  - apply wp_bind, wp_mod_ctx, wp_send. intros r tx n.
    assert (Hp : hpost r (set_w_ctx (SET_TO_READ_VERIFY HTTP2_IGNORE_FRAME_DATA (w_ctx w2)) w2)).
    { apply set_to_read_verify_post; try done; [rewrite Hh2; lia | set_solver]. }
    exact Hp.
  - apply wp_bind, wp_mod_ctx. wp_step; [| wp_step].
    + apply wp_recv_padded; try done. right. simpl. by rewrite Hh2.
    + apply wp_recv_priority; try done. simpl. by rewrite Hh2.
    + apply wp_bind, wp_mod_ctx, wp_ret.
      apply (set_to_read_verify_post T_OK HTTP2_RECV_HEADER
        (set_w_ctx (begin_app_frame (w_ctx w2)) w2)); try done; simpl.
      * rewrite Hh2. lia.
      * set_solver.
      * rewrite Hh2. split; [lia | exact Hid2].
Qed.

(** Service frames without a stream. *)
Lemma srvc_post next n w :
  hdr_pre w -> f_length (c_hdr (w_ctx w)) = n -> 0 < n ->
  next <> HTTP2_RECV_FRAME_RST_STREAM ->
  (forall c', c_to_read c' = n -> fs_read next c' = n /\ fs_cond next c') ->
  wp (mod_ctx (fun c => SET_TO_READ (set_c_state next c)) ;;; sm_ret T_OK) hpost w.
Proof.
  intros (HC & Hb & Hl & Hlen & _) Hn Hpos Hne Hf. apply wp_bind, wp_mod_ctx, wp_ret.
  apply (set_to_read_srvc_post T_OK next n w); auto.
  unfold live_at. by rewrite bool_decide_false.
Qed.

Lemma wp_type_priority w :
  hdr_pre w -> f_type (c_hdr (w_ctx w)) = HTTP2_PRIORITY ->
  wp (type_priority (c_hdr (w_ctx w))) hpost w.
Proof.
  intros Hpre Ht. pose proof Hpre as (HC & Hb & Hl & Hlen & Hsid). unfold type_priority.
  wp_step; [by apply wp_conn_term |]. apply wp_bind.
  eapply wp_mono; [exact (wp_find_current w HC) |]. intros o w1 (-> & HC1 & Ho).
  wp_step; bool_hyps; [by apply wp_conn_term |]. unfold FRAME_PRIORITY_SIZE in *.
  destruct o as [p|].
  - apply (wp_recv_then _ 5 p); try done; simpl; by rewrite Ht.
  - apply (srvc_post _ 5); done.
Qed.

Lemma wp_type_window_update w :
  hdr_pre w -> f_type (c_hdr (w_ctx w)) = HTTP2_WINDOW_UPDATE ->
  wp (type_window_update (c_hdr (w_ctx w))) hpost w.
Proof.
  intros Hpre Ht. pose proof Hpre as (HC & Hb & Hl & Hlen & Hsid).
  apply wp_bind, wp_get_ctx.
  wp_step; bool_hyps; [by apply wp_conn_term |]. unfold FRAME_WND_UPDATE_SIZE in *.
  wp_step; bool_hyps; [by apply wp_conn_term |]. wp_step; [| by apply (srvc_post _ 4)].
  apply wp_bind. eapply wp_mono; [exact (wp_find_current w HC) |].
  intros o w1 (-> & HC1 & Ho). destruct o as [p|]; [| by apply wp_conn_term].
  apply (wp_recv_then _ 4 p); try done; simpl; by rewrite Ht.
Qed.

Lemma wp_type_rst_stream w :
  hdr_pre w -> wp (type_rst_stream (c_hdr (w_ctx w))) hpost w.
Proof.
  intros Hpre. pose proof Hpre as (HC & Hb & Hl & Hlen & Hsid).
  apply wp_bind, wp_get_ctx. wp_step; [by apply wp_conn_term |].
  wp_step; bool_hyps; [by apply wp_conn_term |]. unfold FRAME_RST_STREAM_SIZE in *.
  wp_step; bool_hyps; [by apply wp_conn_term |].
  apply wp_bind. eapply wp_mono; [exact (wp_find_current w HC) |].
  intros o w1 (-> & HC1 & Ho). destruct o as [p|]; [| by apply wp_conn_term].
  apply (wp_recv_then _ 4 p); try done; intros c' Hr Hc; simpl; rewrite Hc; eauto.
Qed.

Lemma wp_type_continuation w :
  hdr_pre w -> wp (type_continuation (c_hdr (w_ctx w))) hpost w.
Proof.
  intros Hpre. pose proof Hpre as (HC & Hb & Hl & Hlen & Hsid).
  apply wp_bind, wp_get_ctx. wp_step; [by apply wp_conn_term |].
  wp_step; bool_hyps; [by apply wp_conn_term |].
  apply wp_bind. eapply wp_mono; [exact (wp_find_current w HC) |].
  intros o w1 (-> & HC1 & Ho). destruct o as [p|]; [| by apply wp_conn_term].
  apply wp_bind, wp_mod_ctx, wp_ret. set (w1 := set_w_ctx _ w).
  apply (set_to_read_verify_post T_OK HTTP2_RECV_CONT
    (set_w_ctx (begin_app_frame (w_ctx w1)) w1)); try done; simpl;
    [lia | set_solver | split; [lia | eauto]].
Qed.

Lemma wp_type_settings w :
  hdr_pre w -> wp (type_settings (c_hdr (w_ctx w))) hpost w.
Proof.
  intros (HC & Hb & Hl & Hlen & Hsid). unfold type_settings.
  wp_step; [by apply wp_conn_term |]. wp_step; bool_hyps; [by apply wp_conn_term |].
  apply wp_bind.
  set (w1 := if has_flag (f_flags (c_hdr (w_ctx w))) HTTP2_F_ACK then
    set_w_ctx (set_c_hpack (set_hp_max_window (st_hdr_tbl_sz (c_lsettings (w_ctx w)))
      (c_hpack (w_ctx w))) (w_ctx w)) w else w).
  apply (wp_mono _ (fun _ w' => w' = w1)).
  { unfold w1. by destruct (has_flag _ _). }
  intros _ w' ->.
  assert (Hw1 : core w1 /\ rbuf_ok (w_ctx w1) /\ live_except None w1 /\
    c_hdr (w_ctx w1) = c_hdr (w_ctx w)) by (unfold w1; by destruct (has_flag _ _)).
  clearbody w1. destruct Hw1 as (HC1 & Hb1 & Hl1 & Hh1).
  apply wp_bind. wp_step; bool_hyps.
  - apply wp_mod_ctx, wp_ret. split; [exact HC1 |]. split; [exact Hb1 |]. intros _.
    simpl. split; [done |]. split; [done |]. intros _. split; [done |]. split; [| exact Hl1].
    simpl. split; [done |]. unfold settings_left. simpl. rewrite Hh1.
    unfold FRAME_SETTINGS_ENTRY_SIZE in *.
    match goal with Hr : Z.rem _ 6 = 0 |- _ => rewrite Z.rem_mod_nonneg in Hr by lia end.
    Z.div_mod_to_equations. lia.
  - apply wp_mod_ctx, wp_ret. split; [exact HC1 |]. split; [exact Hb1 |]. intros _.
    simpl. split_and!; done.
Qed.

Lemma wp_frame_type_process w :
  core w -> rbuf_ok (w_ctx w) -> live_except None w ->
  0 <= f_length (c_hdr (w_ctx w)) -> 0 <= f_stream_id (c_hdr (w_ctx w)) < 2 ^ 31 ->
  wp tfw_h2_frame_type_process hpost w.
Proof.
  intros HC Hb Hl Hlen Hsid. apply wp_bind, wp_get_ctx.
  rewrite (core_lset _ _ _ _ _ _ _ _ _ _ _ _ HC).
  wp_step; bool_hyps; [by apply wp_conn_term |].
  match goal with Hm : _ <= st_max_frame_sz def_settings |- _ =>
    assert (Hpre : hdr_pre w) by exact (conj HC (conj Hb (conj Hl (conj (conj Hlen Hm) Hsid))))
  end.
  wp_step; bool_hyps; [by apply wp_type_data |].
  wp_step; bool_hyps; [by apply wp_type_headers |].
  wp_step; bool_hyps; [by apply wp_type_priority |].
  wp_step; bool_hyps; [by apply wp_type_window_update |].
  wp_step; [by apply wp_type_settings |].
  wp_step; [by apply wp_conn_term |].
  wp_step.
  { unfold type_ping. wp_step; [by apply wp_conn_term |].
    wp_step; bool_hyps; [by apply wp_conn_term |]. by apply (srvc_post _ 8). }
  wp_step; [by apply wp_type_rst_stream |].
  wp_step.
  { unfold type_goaway. wp_step; [by apply wp_conn_term |].
    wp_step; bool_hyps; [by apply wp_conn_term |]. unfold FRAME_GOAWAY_SIZE in *.
    apply wp_bind, wp_mod_ctx, wp_ret. split; [exact HC |]. split; [exact Hb |]. intros _.
    split; [done |]. split; [done |]. intros _. split; [done |]. split; [| exact Hl].
    simpl. split; [done |]. lia. }
  wp_step; [by apply wp_type_continuation |].
  apply wp_bind, wp_mod_ctx, wp_ret.
  apply (set_to_read_post T_OK HTTP2_IGNORE_FRAME_DATA w); try done. set_solver.
Qed.

(** ** The reception FSM *)

(** How a state of the FSM may end when it is entered at [off]. *)
Definition fsm_post (buf : bytes) (off : Z) (o : fsm_next) (w : World) : Prop :=
  core w /\ rbuf_ok (w_ctx w) /\
  match o with
  | FsmExit r st off' =>
      off <= off' <= zlen buf /\
      (r = T_POSTPONE /\ off' = zlen buf /\ ready st w /\
         0 <= c_rlen (w_ctx w) < fs_read st (w_ctx w)
       \/ r = T_OK /\ off < off' /\ live_except None w /\ c_rlen (w_ctx w) = 0
       \/ r = T_DROP)
  | FsmGoto st off' => off < off' < zlen buf /\ ready st w /\ c_rlen (w_ctx w) = 0
  end.

Lemma fsm_post_mono buf off off' o w : off <= off' -> fsm_post buf off' o w -> fsm_post buf off o w.
Proof.
  intros Hle (HC & Hb & Ho). split_and!; [done | done |]. destruct o.
  - destruct Ho as [Hr Ho]. split; [lia |]. destruct Ho as [?|[(? & ? & ?)|?]]; [by left | | tauto].
    right. left. split; [done | split; [lia | done]].
  - destruct Ho as (Hr & Ho). split; [lia | done].
Qed.

Lemma wp_fsm_exit_ok buf off0 off st w :
  core w -> rbuf_ok (w_ctx w) -> live_except None w -> off0 < off <= zlen buf ->
  wp (FRAME_FSM_EXIT st T_OK off) (fsm_post buf off0) w.
Proof.
  intros HC Hb Hl Hoff. apply wp_bind, wp_mod_ctx, wp_ret.
  split; [exact HC |]. split; [exact Hb |]. split; [lia |]. right. left.
  split; [done |]. split; [lia | done].
Qed.

Lemma wp_fsm_exit_drop buf off st w :
  core w -> rbuf_ok (w_ctx w) -> off <= zlen buf ->
  wp (FRAME_FSM_EXIT st T_DROP off) (fsm_post buf off) w.
Proof.
  intros HC Hb Hoff. apply wp_bind, wp_mod_ctx, wp_ret.
  split; [exact HC |]. split; [exact Hb |]. split; [lia |]. right. by right.
Qed.

(** Moving on after at least one byte was read since [off0]. *)
Lemma wp_fsm_move buf off0 off st w :
  core w -> rbuf_ok (w_ctx w) -> ready st w -> off0 < off <= zlen buf ->
  wp (FRAME_FSM_MOVE buf st off) (fsm_post buf off0) w.
Proof.
  intros HC Hb Hr Hoff. apply wp_bind, wp_mod_ctx. wp_step; bool_hyps; apply wp_ret.
  - split; [exact HC |]. split; [exact Hb |]. split; [lia |]. left.
    split; [done |]. split; [lia |]. split; [exact Hr |]. destruct Hr as [Hr _].
    split; [done | exact Hr].
  - split; [exact HC |]. split; [exact Hb |]. split; [lia |]. split; [exact Hr | done].
Qed.

Lemma wp_fsm_next buf off0 off w :
  core w -> rbuf_ok (w_ctx w) -> ready (c_state (w_ctx w)) w -> off0 < off <= zlen buf ->
  wp (FRAME_FSM_NEXT buf off) (fsm_post buf off0) w.
Proof.
  intros HC Hb Hr Hoff.
  pose proof (wp_fsm_move buf off0 off (c_state (w_ctx w)) w HC Hb Hr Hoff) as Hm.
  apply wp_bind_inv in Hm. apply wp_bind, wp_mod_ctx. apply wp_bind, wp_get_ctx. exact Hm.
Qed.

(** [if (ctx->to_read) FRAME_FSM_NEXT(); FRAME_FSM_EXIT(T_OK);] *)
Lemma wp_to_read_next buf off0 off st w :
  hpost T_OK w -> off0 < off <= zlen buf ->
  wp (if_to_read st off (FRAME_FSM_NEXT buf off)) (fsm_post buf off0) w.
Proof.
  intros (HC & Hb & Hp) Hoff. destruct (Hp eq_refl) as (Hn & Hz & Hr).
  apply wp_bind, wp_get_ctx. wp_step; bool_hyps.
  - apply wp_fsm_next; auto.
  - apply wp_fsm_exit_ok; auto; lia.
Qed.

(** [if (handler(ctx)) FRAME_FSM_EXIT(T_DROP);] *)
Lemma wp_or_drop buf off0 off st handler k (P : Z -> World -> Prop) w :
  wp handler P w -> off0 <= off <= zlen buf ->
  (forall r w', P r w' -> core w' /\ rbuf_ok (w_ctx w')) ->
  (forall w', P T_OK w' -> wp k (fsm_post buf off0) w') ->
  wp (or_drop st off handler k) (fsm_post buf off0) w.
Proof.
  intros Hh Hoff Hcore Hk. apply wp_bind. eapply wp_mono; [exact Hh |].
  intros r w' HP. wp_step; bool_hyps.
  - destruct (Hcore r w' HP). eapply wp_mono; [apply (wp_fsm_exit_drop buf off); auto; lia |].
    intros o w''. apply fsm_post_mono. lia.
  - subst r. by apply Hk.
Qed.

Lemma wp_final buf off0 off st handler w :
  wp handler fpost w -> off0 < off <= zlen buf ->
  wp (or_drop st off handler (FRAME_FSM_EXIT st T_OK off)) (fsm_post buf off0) w.
Proof.
  intros Hh Hoff. eapply wp_or_drop; [exact Hh | lia | |].
  - intros r w' (HC & Hb & _). done.
  - intros w' (HC & Hb & Hl). apply wp_fsm_exit_ok; auto; lia.
Qed.

(** Collecting bytes: either the buffer ends first, or the state goes on with
    everything it asked for. *)
Lemma wp_read_lambda buf off st lambda k t w :
  core w -> ready st w -> t = fs_read st (w_ctx w) ->
  0 <= c_rlen (w_ctx w) < t -> 0 <= off <= zlen buf ->
  (forall n, 0 <= n <= t - c_rlen (w_ctx w) -> n <= zlen buf - off ->
     wp (lambda n) (fun o w1 => match o with
       | None => exists rb, length rb = 9%nat /\ bytes_ok rb /\
                   w1 = set_w_ctx (set_c_rbuf rb (w_ctx w)) w
       | Some out => fsm_post buf off out w1
       end) w) ->
  is_u8 (c_padlen (w_ctx w)) ->
  (forall off' rb, off < off' <= zlen buf -> length rb = 9%nat -> bytes_ok rb ->
     wp (k off') (fsm_post buf off)
        (set_w_ctx (set_c_rlen t (set_c_rbuf rb (w_ctx w))) w)) ->
  wp (FRAME_FSM_READ_LAMBDA buf st t off lambda k) (fsm_post buf off) w.
Proof.
  intros HC Hr Ht Hrl Hoff Hlam Hpad Hk. apply wp_bind, wp_get_ctx.
  set (n := Z.min (t - c_rlen (w_ctx w)) (zlen buf - off)).
  assert (Hn : 0 <= n <= t - c_rlen (w_ctx w) /\ n <= zlen buf - off) by lia.
  apply wp_bind, wp_bug_on; [apply Z.ltb_ge; lia |].
  apply wp_bind. eapply wp_mono; [apply Hlam; lia |].
  intros [out|] w1 Hw1; [by apply wp_ret |]. destruct Hw1 as (rb & Hl9 & Hbo & ->).
  apply wp_bind, wp_mod_ctx, wp_bind, wp_get_ctx. simpl. wp_step; bool_hyps.
  - apply wp_ret. split; [exact HC |]. split; [by split_and! |].
    split; [lia |]. left. split; [done |]. split; [lia |]. split; [exact Hr |].
    subst t. simpl. split; [lia |].
    match goal with Hlt : _ + _ < _ |- _ => exact Hlt end.
  - assert (He : c_rlen (w_ctx w) + n = t) by lia. rewrite He. apply Hk; [lia | done | done].
Qed.

Lemma buf_slice_length buf off n :
  0 <= off -> 0 <= n <= zlen buf - off -> length (buf_slice buf off n) = Z.to_nat n.
Proof.
  intros Ho Hn. unfold buf_slice, zlen in *. rewrite length_take, length_drop. lia.
Qed.

Lemma buf_slice_ok buf off n : bytes_ok buf -> bytes_ok (buf_slice buf off n).
Proof. intros Hb. by apply Forall_take, Forall_drop. Qed.

Lemma rbuf_write_ok rb pos data :
  length rb = 9%nat -> bytes_ok rb -> bytes_ok data -> (pos + length data <= 9)%nat ->
  length (rbuf_write rb pos data) = 9%nat /\ bytes_ok (rbuf_write rb pos data).
Proof.
  intros Hl Hb Hd Hle. unfold rbuf_write. split.
  - rewrite !length_app, length_take, length_drop. lia.
  - apply Forall_app. split; [by apply Forall_take |].
    apply Forall_app. split; [done | by apply Forall_drop].
Qed.

Lemma wp_read_srvc buf off st k t w :
  bytes_ok buf -> core w -> rbuf_ok (w_ctx w) -> ready st w -> t = fs_read st (w_ctx w) ->
  t <= 9 -> 0 <= c_rlen (w_ctx w) < t -> 0 <= off <= zlen buf ->
  (forall off' rb, off < off' <= zlen buf -> length rb = 9%nat -> bytes_ok rb ->
     wp (k off') (fsm_post buf off)
        (set_w_ctx (set_c_rlen t (set_c_rbuf rb (w_ctx w))) w)) ->
  wp (FRAME_FSM_READ_SRVC buf st t off k) (fsm_post buf off) w.
Proof.
  intros Hbuf HC (Hl9 & Hbo & Hpad) Hr Ht Ht9 Hrl Hoff Hk.
  apply wp_bind, wp_bug_on; [apply Z.ltb_ge; unfold FRAME_HEADER_SIZE; lia |].
  apply wp_read_lambda; try done. intros n Hn Hn'.
  apply wp_bind, wp_mod_ctx, wp_ret. eexists. split; [| split; [| done]].
  all: apply rbuf_write_ok; try done; [by apply buf_slice_ok |].
  all: rewrite buf_slice_length by lia; lia.
Qed.

Lemma wp_read_skip buf off st k t w :
  core w -> rbuf_ok (w_ctx w) -> ready st w -> t = fs_read st (w_ctx w) ->
  0 <= c_rlen (w_ctx w) < t -> 0 <= off <= zlen buf ->
  (forall off' rb, off < off' <= zlen buf -> length rb = 9%nat -> bytes_ok rb ->
     wp (k off') (fsm_post buf off)
        (set_w_ctx (set_c_rlen t (set_c_rbuf rb (w_ctx w))) w)) ->
  wp (FRAME_FSM_READ buf st t off k) (fsm_post buf off) w.
Proof.
  intros HC (Hl9 & Hbo & Hpad) Hr Ht Hrl Hoff Hk.
  apply wp_read_lambda; try done. intros n Hn Hn'. apply wp_ret.
  exists (c_rbuf (w_ctx w)). split_and!; try done. by destruct w as [[] ? ? ? ? ?].
Qed.

(** Entering a state of the FSM. *)
Definition enter (buf : bytes) (st : TfwFrameState) (off : Z) (w : World) : Prop :=
  core w /\ rbuf_ok (w_ctx w) /\ ready st w /\
  0 <= c_rlen (w_ctx w) < fs_read st (w_ctx w) /\ 0 <= off <= zlen buf.

(** A world where only [rlen] and [rbuf] differ keeps what the handlers need. *)
Lemma after_read w t rb :
  core w -> rbuf_ok (w_ctx w) -> length rb = 9%nat -> bytes_ok rb ->
  let w' := set_w_ctx (set_c_rlen t (set_c_rbuf rb (w_ctx w))) w in
  core w' /\ rbuf_ok (w_ctx w').
Proof. intros HC (_ & _ & Hp) Hl Hb. split; [exact HC | by split_and!]. Qed.

Lemma wp_st_cli buf off w :
  bytes_ok buf -> enter buf HTTP2_RECV_CLI_START_SEQ off w ->
  wp (st_cli_start_seq buf off) (fsm_post buf off) w.
Proof.
  intros Hbuf (HC & Hb & Hr & Hrl & Hoff). unfold st_cli_start_seq.
  apply wp_read_lambda; try done.
  - intros n Hn Hn'. apply wp_bind, wp_get_ctx. case_bool_decide.
    + apply wp_ret. exists (c_rbuf (w_ctx w)). destruct Hb as (Hb1 & Hb2 & _).
      split_and!; try done. by destruct w as [[] ? ? ? ? ?].
    + apply wp_bind. eapply wp_mono; [apply (wp_fsm_exit_drop buf off); auto; lia |].
      intros out w1 Hp. by apply wp_ret.
  - apply Hb.
  - intros off' rb Hoff' Hl9 Hbo. set (w1 := set_w_ctx _ w).
    destruct (after_read w FRAME_PREFACE_CLI_MAGIC_LEN rb HC Hb Hl9 Hbo) as [HC1 Hb1].
    fold w1 in HC1, Hb1.
    assert (Hdrop : forall tx n, wp (FRAME_FSM_EXIT HTTP2_RECV_CLI_START_SEQ T_DROP off')
      (fsm_post buf off) (set_w_tx tx (set_w_nsend n w1))).
    { intros tx n. eapply wp_mono; [apply (wp_fsm_exit_drop buf off'); auto; lia |].
      intros o w'. apply fsm_post_mono. lia. }
    apply wp_bind, wp_bind, wp_get_ctx, wp_send. intros r tx n. wp_step; [apply Hdrop |].
    apply wp_bind, wp_send. intros r' tx' n'. wp_step; [apply Hdrop |].
    destruct Hr as (_ & Hc & Hl). apply wp_fsm_move; try done; lia.
Qed.

Lemma wp_st_first buf off w :
  bytes_ok buf -> enter buf HTTP2_RECV_FIRST_SETTINGS off w ->
  wp (st_first_settings buf off) (fsm_post buf off) w.
Proof.
  intros Hbuf (HC & Hb & Hr & Hrl & Hoff). apply wp_read_srvc; try done.
  intros off' rb Hoff' Hl9 Hbo. set (w1 := set_w_ctx _ w).
  destruct (after_read w FRAME_HEADER_SIZE rb HC Hb Hl9 Hbo) as [HC1 Hb1]. fold w1 in HC1, Hb1.
  destruct Hr as (_ & Hz & Hl).
  eapply wp_or_drop; [apply (wp_first_settings w1); try done | lia | |].
  - intros r w' (? & ? & _). done.
  - intros w' (HC' & Hb' & Hl' & Hrd). destruct (Hrd eq_refl) as [Hn Hrd'].
    apply wp_bind, wp_get_ctx. wp_step; bool_hyps.
    + apply wp_fsm_move; auto; lia.
    + apply wp_fsm_exit_ok; auto; lia.
Qed.

(** The states of the form "collect, run the handler, go to the next state". *)
Lemma wp_st_handler buf off off' st handler w :
  wp handler hpost w -> off < off' <= zlen buf ->
  wp (or_drop st off' handler (if_to_read st off' (FRAME_FSM_NEXT buf off')))
     (fsm_post buf off) w.
Proof.
  intros Hh Hoff. eapply wp_or_drop; [exact Hh | lia | |].
  - intros r w' (? & ? & _). done.
  - intros w' Hp. apply wp_to_read_next; [done | lia].
Qed.

Lemma wp_st_header buf off w :
  bytes_ok buf -> enter buf HTTP2_RECV_FRAME_HEADER off w ->
  wp (st_frame_header buf off) (fsm_post buf off) w.
Proof.
  intros Hbuf (HC & Hb & Hr & Hrl & Hoff). apply wp_read_srvc; try done.
  intros off' rb Hoff' Hl9 Hbo. apply wp_bind, wp_mod_ctx.
  destruct (after_read w FRAME_HEADER_SIZE rb HC Hb Hl9 Hbo) as [HC1 Hb1].
  destruct (unpack_hdr_range rb Hbo) as [Hlen Hsid].
  apply wp_st_handler; [| lia]. destruct Hr as (_ & _ & Hl).
  apply wp_frame_type_process; try done; apply Hlen.
Qed.

Lemma wp_st_srvc buf off st handler w :
  bytes_ok buf -> enter buf st off w -> fs_read st (w_ctx w) = c_to_read (w_ctx w) ->
  c_to_read (w_ctx w) <= 9 ->
  (forall rb, length rb = 9%nat -> bytes_ok rb ->
     wp handler fpost (set_w_ctx (set_c_rlen (c_to_read (w_ctx w)) (set_c_rbuf rb (w_ctx w))) w)) ->
  wp (st_srvc buf st handler off) (fsm_post buf off) w.
Proof.
  intros Hbuf (HC & Hb & Hr & Hrl & Hoff) Hrd Ht9 Hh. rewrite Hrd in Hrl.
  apply wp_bind, wp_get_ctx. apply wp_read_srvc; try done.
  intros off' rb Hoff' Hl9 Hbo. apply wp_final; [by apply Hh | lia].
Qed.

Lemma wp_st_app buf off st handler w :
  enter buf st off w -> fs_read st (w_ctx w) = c_to_read (w_ctx w) ->
  (forall rb, length rb = 9%nat -> bytes_ok rb ->
     wp handler fpost (set_w_ctx (set_c_rlen (c_to_read (w_ctx w)) (set_c_rbuf rb (w_ctx w))) w)) ->
  wp (st_app buf st handler off) (fsm_post buf off) w.
Proof.
  intros (HC & Hb & Hr & Hrl & Hoff) Hrd Hh. rewrite Hrd in Hrl.
  apply wp_bind, wp_get_ctx. apply wp_read_skip; try done.
  intros off' rb Hoff' Hl9 Hbo. apply wp_final; [by apply Hh | lia].
Qed.

Lemma wp_st_ping buf off w :
  bytes_ok buf -> enter buf HTTP2_RECV_FRAME_PING off w ->
  wp (st_ping buf off) (fsm_post buf off) w.
Proof.
  intros Hbuf (HC & Hb & Hr & Hrl & Hoff). pose proof Hr as (_ & Ht & Hl). simpl in Ht, Hrl.
  apply wp_bind, wp_get_ctx, wp_read_srvc; try done; [lia |].
  intros off' rb Hoff' Hl9 Hbo. apply wp_bind, wp_get_ctx.
  destruct (after_read w (c_to_read (w_ctx w)) rb HC Hb Hl9 Hbo) as [HC1 Hb1]. wp_step.
  - apply wp_final; [| lia]. apply wp_bind, wp_get_ctx, wp_send. intros r tx n.
    split; [exact HC1 |]. split; [exact Hb1 | exact Hl].
  - apply wp_fsm_exit_ok; auto; lia.
Qed.

Lemma wp_st_rst buf off w :
  bytes_ok buf -> enter buf HTTP2_RECV_FRAME_RST_STREAM off w ->
  wp (st_rst_stream buf off) (fsm_post buf off) w.
Proof.
  intros Hbuf (HC & Hb & Hr & Hrl & Hoff). pose proof Hr as (_ & [Ht [p Hp]] & Hl).
  unfold live_at in Hl. simpl in Ht, Hrl. rewrite bool_decide_true, Hp in Hl by done.
  apply wp_bind, wp_get_ctx, wp_read_srvc; try done; [lia |].
  intros off' rb Hoff' Hl9 Hbo.
  destruct (after_read w (c_to_read (w_ctx w)) rb HC Hb Hl9 Hbo) as [HC1 Hb1].
  apply wp_bind. eapply wp_mono; [apply (wp_rst_stream p _ HC1 Hb1); done |].
  intros _ w' (HC' & Hb' & Hl'). apply wp_fsm_exit_ok; auto; lia.
Qed.

Lemma wp_st_settings buf off w :
  bytes_ok buf -> enter buf HTTP2_RECV_FRAME_SETTINGS off w ->
  wp (st_settings buf off) (fsm_post buf off) w.
Proof.
  intros Hbuf (HC & Hb & Hr & Hrl & Hoff). pose proof Hr as (_ & [Ht Hleft] & Hl).
  simpl in Hrl. apply wp_bind, wp_get_ctx, wp_read_srvc; try done; [lia |].
  intros off' rb Hoff' Hl9 Hbo.
  destruct (after_read w (c_to_read (w_ctx w)) rb HC Hb Hl9 Hbo) as [HC1 Hb1].
  eapply wp_or_drop; [apply (wp_settings _ HC1 Hb1); done | lia | |].
  - intros r w' (? & ? & _). done.
  - intros w' (HC' & Hb' & Hl' & Hrd). destruct (Hrd eq_refl) as [Hn Hrd'].
    apply wp_bind, wp_get_ctx. wp_step; bool_hyps; [apply wp_fsm_move; auto; lia |].
    apply wp_final; [| lia]. apply wp_send. intros r tx n. done.
Qed.

Lemma wp_st_goaway buf off w :
  bytes_ok buf -> enter buf HTTP2_RECV_FRAME_GOAWAY off w ->
  wp (st_goaway buf off) (fsm_post buf off) w.
Proof.
  intros Hbuf (HC & Hb & Hr & Hrl & Hoff). pose proof Hr as (_ & [Ht Hlen] & Hl).
  simpl in Hrl. apply wp_bind, wp_get_ctx, wp_read_srvc; try done; [lia |].
  intros off' rb Hoff' Hl9 Hbo.
  destruct (after_read w (c_to_read (w_ctx w)) rb HC Hb Hl9 Hbo) as [HC1 Hb1].
  apply wp_bind, wp_bind, wp_mod_ctx, wp_ret, wp_bind, wp_get_ctx. wp_step; bool_hyps.
  - simpl in *. apply wp_fsm_move; [exact HC1 | exact Hb1 | | lia].
    split; [simpl; lia | by split].
  - apply wp_fsm_exit_ok; [exact HC1 | exact Hb1 | exact Hl | lia].
Qed.

Lemma wp_st_padded buf off w :
  bytes_ok buf -> enter buf HTTP2_RECV_FRAME_PADDED off w ->
  wp (st_padded buf off) (fsm_post buf off) w.
Proof.
  intros Hbuf (HC & Hb & Hr & Hrl & Hoff). pose proof Hr as (_ & Hf & Hl).
  pose proof Hf as [Ht _]. simpl in Hrl.
  apply wp_bind, wp_get_ctx, wp_read_srvc; try done; [lia |]. intros off' rb Hoff' Hl9 Hbo.
  destruct (after_read w (c_to_read (w_ctx w)) rb HC Hb Hl9 Hbo) as [HC1 Hb1].
  apply wp_st_handler; [| lia]. by apply wp_pad_process.
Qed.

Lemma wp_st_header_pri buf off w :
  bytes_ok buf -> enter buf HTTP2_RECV_HEADER_PRI off w ->
  wp (st_header_pri buf off) (fsm_post buf off) w.
Proof.
  intros Hbuf (HC & Hb & Hr & Hrl & Hoff). pose proof Hr as (_ & Hf & Hl).
  pose proof Hf as [Ht _]. simpl in Hrl.
  apply wp_bind, wp_get_ctx, wp_read_srvc; try done; [lia |]. intros off' rb Hoff' Hl9 Hbo.
  destruct (after_read w (c_to_read (w_ctx w)) rb HC Hb Hl9 Hbo) as [HC1 Hb1].
  apply wp_st_handler; [| lia]. by apply wp_headers_pri.
Qed.

Lemma wp_frame_fsm_state buf off st w :
  bytes_ok buf -> enter buf st off w ->
  wp (frame_fsm_state buf st off) (fsm_post buf off) w.
Proof.
  intros Hbuf He. pose proof He as (HC & Hb & (Hpos & Hf & Hl) & Hrl & Hoff).
  pose proof (fun rb => after_read w (c_to_read (w_ctx w)) rb HC Hb) as Har.
  destruct st; simpl frame_fsm_state; simpl in Hf;
    [by apply wp_st_header | by apply wp_st_cli | by apply wp_st_first | | | by apply wp_st_ping
    | by apply wp_st_rst | by apply wp_st_settings | by apply wp_st_goaway | by apply wp_st_padded
    | by apply wp_st_header_pri | ..].
  - apply wp_st_srvc; [done | done | done | lia |]. intros rb Hl9 Hbo.
    destruct (Har rb Hl9 Hbo). by apply wp_priority.
  - apply wp_st_srvc; [done | done | done | lia |]. intros rb Hl9 Hbo.
    destruct (Har rb Hl9 Hbo). by apply wp_wnd_update.
  - apply wp_st_app; [done | done |]. intros rb Hl9 Hbo.
    destruct (Har rb Hl9 Hbo). apply wp_ret. by split_and!.
  - apply wp_st_app; [done | done |]. intros rb Hl9 Hbo. destruct Hf as [Hlen Hid].
    destruct (Har rb Hl9 Hbo). by apply wp_headers_process.
  - apply wp_st_app; [done | done |]. intros rb Hl9 Hbo. destruct Hf as [Hlen [p Hp]].
    destruct (Har rb Hl9 Hbo). by apply (wp_state_process p).
  - apply wp_st_app; [done | done |]. intros rb Hl9 Hbo. destruct Hf as [Hlen [p Hp]].
    destruct (Har rb Hl9 Hbo). by apply (wp_state_process p).
Qed.

(** What one call of [tfw_h2_frame_recv()] on [buf] leaves. *)
Definition recv_post (buf : bytes) (out : Z * Z) (w : World) : Prop :=
  let '(r, off) := out in
  core w /\ rbuf_ok (w_ctx w) /\ 0 <= off <= zlen buf /\
  (r = T_POSTPONE /\ off = zlen buf /\ recv_inv w
   \/ r = T_OK /\ 0 < off /\ live_except None w /\ c_rlen (w_ctx w) = 0
   \/ r = T_DROP).

(** The rule for the jumps between states: an invariant [I] of the states that
    are entered, and progress with every jump. *)
Lemma wp_loop_rule buf (I : TfwFrameState -> Z -> World -> Prop) (Q : Z * Z -> World -> Prop) :
  (forall st off w, I st off w ->
     wp (frame_fsm_state buf st off)
        (fun o w' => match o with
           | FsmExit r st' off' => Q (r, off') (set_w_ctx (set_c_state st' (w_ctx w')) w')
           | FsmGoto st' off' => off < off' < zlen buf /\ I st' off' w'
           end) w) ->
  forall fuel st off w, I st off w -> off <= zlen buf -> zlen buf - off < Z.of_nat fuel ->
  wp (frame_recv_loop buf fuel st off) Q w.
Proof.
  intros Hstep. induction fuel as [|fuel IH]; intros st off w HI Hoff Hf; [lia |].
  apply wp_bind. eapply wp_mono; [apply (Hstep _ _ _ HI) |].
  intros [r st' off' | st' off'] w' Ho; [exact Ho |].
  destruct Ho as [Hlt HI']. apply IH; [done | lia | lia].
Qed.

Lemma fsm_post_enter buf off st off' w :
  0 <= off -> fsm_post buf off (FsmGoto st off') w -> off < off' < zlen buf /\ enter buf st off' w.
Proof.
  intros Hoff (HC & Hb & Hlt & Hrd & Hz). split; [done |]. pose proof Hrd as [Hp _].
  split; [done |]. split; [done |]. split; [done |]. split; lia.
Qed.

Lemma fsm_post_recv buf off r st off' w :
  0 <= off -> fsm_post buf off (FsmExit r st off') w ->
  recv_post buf (r, off') (set_w_ctx (set_c_state st (w_ctx w)) w).
Proof.
  intros Hoff (HC & Hb & Hr & Ho). split; [exact HC |]. split; [exact Hb |]. split; [lia |].
  destruct Ho as [(-> & -> & Hrd & Hrl)|[(-> & Hlt & Hl & Hz)| -> ]];
    [left | right; left | by right; right].
  - split; [done |]. split; [done |]. split; [exact HC |]. split; [exact Hb |].
    split; [exact Hrd |]. by destruct st.
  - split; [done |]. split; [lia |]. done.
Qed.

Lemma recv_inv_enter buf w : recv_inv w -> enter buf (c_state (w_ctx w)) 0 w.
Proof.
  intros (HC & Hb & Hrd & Hrl).
  split; [done |]. split; [done |]. split; [done |]. split; [done | unfold zlen; lia].
Qed.

Lemma wp_frame_recv buf w :
  bytes_ok buf -> recv_inv w -> wp (tfw_h2_frame_recv buf) (recv_post buf) w.
Proof.
  intros Hbuf HI. apply wp_bind, wp_get_ctx.
  apply (wp_loop_rule buf (fun st off w => enter buf st off w));
    [| by apply recv_inv_enter | apply zlen_nonneg | unfold zlen; lia].
  intros st off w0 He. pose proof He as (_ & _ & _ & _ & Hoff & _).
  eapply wp_mono; [by apply wp_frame_fsm_state |]. intros [r st' off' | st' off'] w' Hp.
  - by apply (fsm_post_recv buf off).
  - by apply fsm_post_enter.
Qed.

End safety.
