(* ===== verification/H2Track.v ===== *)
(** How many bytes of the current frame have been received.  [data_off] counts
    the service bytes in front of the payload of an app frame; the skb queue
    holds the frame from its first byte on.  The lemmas of this file relate the
    two through every state of the reception FSM. *)

From S2P Require Import Prelude RbTree H2Stream H2Ctx H2Frame H2Inv H2Safety.
Local Open Scope Z_scope.

(** The part of the context that decides how the frame is delimited. *)
Definition view (w : World) : TfwFrameState * Z := (c_state (w_ctx w), c_data_off (w_ctx w)).

Definition keeps {A} (m : H2 A) : Prop := forall w, wlp m (fun _ w' => view w' = view w) w.

Lemma keeps_bind {A B} (m : H2 A) (k : A -> H2 B) :
  keeps m -> (forall a, keeps (k a)) -> keeps (x <~ m ;; k x).
Proof.
  intros Hm Hk w. apply wlp_bind. eapply wlp_mono; [apply Hm |].
  intros a w1 E. eapply wlp_mono; [apply Hk |]. simpl. congruence.
Qed.

Lemma wlp_keeps {A} (m : H2 A) (Q : A -> World -> Prop) w :
  keeps m -> (forall a w', view w' = view w -> Q a w') -> wlp m Q w.
Proof. intros Hm HQ. eapply wlp_mono; [apply Hm |]. simpl. auto. Qed.

Lemma wlp_ctx {A} (k : TfwH2Ctx -> H2 A) Q w : wlp (k (w_ctx w)) Q w -> wlp (c <~ get_ctx ;; k c) Q w.
Proof. done. Qed.

Lemma wlp_mod_ctx {A} f (k : unit -> H2 A) Q w :
  wlp (k tt) Q (set_w_ctx (f (w_ctx w)) w) -> wlp (x <~ mod_ctx f ;; k x) Q w.
Proof. done. Qed.

(** One step of a handler, with the context accessors. *)
Ltac trk_step :=
  lazymatch goal with
  | |- wlp (sm_bind get_ctx _) _ _ => apply wlp_ctx
  | |- wlp (sm_bind (mod_ctx _) _) _ _ => apply wlp_mod_ctx
  | |- wlp (sm_ret _) _ _ => red
  | |- wlp (VERIFY_FRAME_SIZE _) _ _ => unfold VERIFY_FRAME_SIZE
  | _ => wlp_step
  end.

Create HintDb keeps.
Ltac keeps_tac :=
  repeat (intros; first
    [ lazymatch goal with |- keeps (sm_bind _ _) => apply keeps_bind end
    | solve [eauto 2 with keeps]
    | lazymatch goal with
      | |- keeps (match ?x with _ => _ end) => destruct x
      | |- keeps (mod_ctx _) => let w := fresh in intros w; reflexivity
      | |- keeps (sm_mod _) => let w := fresh in intros w; reflexivity
      | |- keeps (sm_ret _) => let w := fresh in intros w; reflexivity
      | |- keeps sm_bug => let w := fresh in intros w; exact I
      | |- keeps sm_get => let w := fresh in intros w; reflexivity
      | |- keeps get_ctx => let w := fresh in intros w; reflexivity
      | |- keeps (bug_on ?b) => destruct b
      end ]).

Section track.
Context `{RbLib} `{Env}.

Lemma keeps_get_stream p : keeps (get_stream p).
Proof. intros w. unfold wlp, get_stream. by destruct (w_heap w !! p). Qed.

Lemma keeps_put_stream p s : keeps (put_stream p s).
Proof. intros w. done. Qed.

Lemma keeps_send hdr payload close : keeps (__tfw_h2_send_frame hdr payload close).
Proof. intros w. unfold wlp, __tfw_h2_send_frame. by destruct (_ =? 0). Qed.

Lemma keeps_alloc : keeps alloc_stream.
Proof. intros w. done. Qed.

#[local] Hint Resolve keeps_get_stream keeps_put_stream keeps_send keeps_alloc : keeps.
#[local] Hint Unfold tfw_h2_send_frame tfw_h2_send_frame_close tfw_h2_send_wnd_update
  tfw_h2_send_settings_ack tfw_h2_send_rst_stream : keeps.

Lemma keeps_fsm_at sp type flags send err : keeps (stream_fsm_at sp type flags send err).
Proof. unfold stream_fsm_at. keeps_tac. Qed.

Lemma keeps_conn_terminate e : keeps (tfw_h2_conn_terminate e).
Proof.
  unfold tfw_h2_conn_terminate, tfw_h2_conn_terminate_close, tfw_h2_send_goaway. keeps_tac.
Qed.

Lemma keeps_add_closed p : keeps (tfw_h2_stream_add_closed p).
Proof. unfold tfw_h2_stream_add_closed, __tfw_h2_stream_add_closed. keeps_tac. Qed.
#[local] Hint Resolve keeps_fsm_at keeps_conn_terminate keeps_add_closed : keeps.

Lemma keeps_stream_close id e : keeps (tfw_h2_stream_close id e).
Proof. unfold tfw_h2_stream_close. keeps_tac. Qed.

Lemma keeps_unlink p : keeps (tfw_h2_stream_unlink p).
Proof. unfold tfw_h2_stream_unlink, __tfw_h2_stream_unlink, free_req. keeps_tac. Qed.

Lemma keeps_clean p : keeps (tfw_h2_stream_clean p).
Proof. unfold tfw_h2_stream_clean. keeps_tac. Qed.
#[local] Hint Resolve keeps_stream_close keeps_unlink keeps_clean : keeps.

Lemma keeps_remove : keeps tfw_h2_current_stream_remove.
Proof. unfold tfw_h2_current_stream_remove. keeps_tac. Qed.
#[local] Hint Resolve keeps_remove : keeps.

Lemma keeps_shrink : keeps tfw_h2_closed_streams_shrink.
Proof.
  unfold tfw_h2_closed_streams_shrink. apply keeps_bind; [keeps_tac |]. intros c.
  generalize (S (length (c_hclosed_list c))) as fuel. clear c.
  induction fuel as [|fuel IH]; simpl; [keeps_tac |].
  apply keeps_bind; [keeps_tac |]. intros c. destruct (_ || _); [keeps_tac |].
  destruct (c_hclosed_list c) as [|p l]; [keeps_tac |].
  change (__tfw_h2_stream_unlink p) with (tfw_h2_stream_unlink p). keeps_tac.
Qed.

Lemma keeps_create id : keeps (tfw_h2_stream_create id).
Proof.
  unfold tfw_h2_stream_create. keeps_tac.
Qed.

Lemma keeps_find : keeps find_current_stream.
Proof. unfold find_current_stream. keeps_tac. Qed.

Lemma keeps_flow_control : keeps tfw_h2_flow_control.
Proof. unfold tfw_h2_flow_control. keeps_tac. Qed.

Lemma keeps_send_process sp type flags : keeps (STREAM_SEND_PROCESS sp type flags).
Proof. unfold STREAM_SEND_PROCESS. keeps_tac. Qed.

Lemma keeps_check_closed : keeps tfw_h2_check_closed_stream.
Proof. unfold tfw_h2_check_closed_stream. keeps_tac. Qed.

#[local] Hint Resolve keeps_shrink keeps_create keeps_find keeps_flow_control
  keeps_send_process keeps_check_closed : keeps.

Lemma keeps_reset : keeps reset_current_stream.
Proof. unfold reset_current_stream. keeps_tac. Qed.

Lemma keeps_verify : keeps tfw_h2_stream_id_verify.
Proof. unfold tfw_h2_stream_id_verify. keeps_tac. Qed.

Lemma keeps_conn_term e : keeps (conn_term e).
Proof. unfold conn_term. keeps_tac. Qed.


(** ** The data offset after the handlers of frame parts *)

(** When a handler goes on with an app frame, its payload or the next of its
    service parts starts at [n], which is what [data_off] says.  The header
    state is never re-entered from a handler. *)
Definition offset_post (n : Z) (r : Z) (w : World) : Prop :=
  r = 0 -> c_to_read (w_ctx w) <> 0 ->
  match c_state (w_ctx w) with
  | HTTP2_RECV_FRAME_HEADER => False
  | HTTP2_RECV_FRAME_PADDED => n = 9 /\ c_data_off (w_ctx w) = n
  | HTTP2_RECV_HEADER_PRI => n <= 10 /\ c_data_off (w_ctx w) = n
  | HTTP2_RECV_HEADER | HTTP2_RECV_CONT | HTTP2_RECV_DATA => c_data_off (w_ctx w) = n
  | _ => True
  end.

(** States that carry no app frame. *)
Definition boring (st : TfwFrameState) : bool :=
  match st with
  | HTTP2_RECV_FRAME_HEADER | HTTP2_RECV_FRAME_PADDED | HTTP2_RECV_HEADER_PRI => false
  | _ => negb (app_state st)
  end.

Lemma offset_boring n r w : boring (c_state (w_ctx w)) = true -> offset_post n r w.
Proof. intros E _ _. by destruct (c_state (w_ctx w)). Qed.

Lemma recv_process_track w :
  wlp STREAM_RECV_PROCESS
    (fun o w' => c_data_off (w_ctx w') = c_data_off (w_ctx w) /\
       (o = None -> view w' = view w) /\
       (is_Some o -> c_state (w_ctx w') = HTTP2_IGNORE_FRAME_DATA)) w.
Proof.
  unfold STREAM_RECV_PROCESS. trk_step.
  destruct (c_cur_stream (w_ctx w)) as [p|]; [| done].
  apply wlp_bind, wlp_keeps; [apply keeps_fsm_at |]. intros [res err] w1 E1. injection E1 as Es Ed.
  assert (Hv : forall w2, view w2 = view (set_w_ctx
      (SET_TO_READ_VERIFY HTTP2_IGNORE_FRAME_DATA (w_ctx w1)) w1) ->
    c_data_off (w_ctx w2) = c_data_off (w_ctx w) /\
    c_state (w_ctx w2) = HTTP2_IGNORE_FRAME_DATA).
  { intros w2 E2. injection E2 as -> ->. simpl. unfold SET_TO_READ_VERIFY. by destruct (negb _). }
  destruct res; try trk_step.
  - split_and!; [done | by intros; unfold view; rewrite Es, Ed | by intros []].
  - apply wlp_bind, wlp_keeps; [apply keeps_conn_terminate |]. intros _ w2 E2.
    destruct (Hv w2 E2). red. simpl. done.
  - apply wlp_bind, wlp_keeps; [apply keeps_stream_close |]. intros r w2 E2.
    destruct (Hv w2 E2). red. simpl. done.
  - destruct (Hv _ eq_refl). done.
Qed.

Lemma conn_term_track n e w : wlp (conn_term e) (offset_post n) w.
Proof.
  unfold conn_term. apply wlp_bind, wlp_keeps; [apply keeps_conn_terminate |].
  intros _ w1 _. by red.
Qed.

Lemma recv_priority_track n w :
  n <= 10 -> c_data_off (w_ctx w) = n -> wlp tfw_h2_recv_priority (offset_post n) w.
Proof.
  unfold tfw_h2_recv_priority.
  intros Hn Hd. repeat (trk_step; try apply conn_term_track). by intros _ _.
Qed.

Lemma recv_padded_track n w :
  n = 9 -> c_data_off (w_ctx w) = n -> wlp tfw_h2_recv_padded (offset_post n) w.
Proof.
  unfold tfw_h2_recv_padded.
  intros Hn Hd. repeat (trk_step; try apply conn_term_track). by intros _ _.
Qed.

Lemma verify_track next r n w :
  boring next = true \/ app_state next = true -> c_data_off (w_ctx w) = n ->
  offset_post n r (set_w_ctx (SET_TO_READ_VERIFY next (w_ctx w)) w).
Proof.
  intros Hn Hd _. unfold SET_TO_READ_VERIFY.
  destruct (negb _); simpl; intros _; [by destruct next, Hn | done].
Qed.

Lemma pad_process_track w :
  c_data_off (w_ctx w) = 9 ->
  wlp tfw_h2_frame_pad_process (offset_post 10) w.
Proof.
  intros Hd. unfold tfw_h2_frame_pad_process.
  repeat (trk_step; try apply conn_term_track); 
    try (intros _ _; simpl; by rewrite Hd).
  - by intros _ ?.
  - apply recv_priority_track; [lia |]. simpl. by rewrite Hd.
Qed.

Lemma headers_pri_track w :
  wlp tfw_h2_headers_pri_process
    (offset_post (u8 (c_data_off (w_ctx w) + FRAME_PRIORITY_SIZE))) w.
Proof.
  unfold tfw_h2_headers_pri_process.
  repeat trk_step. apply (verify_track HTTP2_RECV_HEADER T_OK _ (set_w_ctx _ w)); auto.
Qed.

Lemma recv_then_track n next w :
  boring next = true -> wlp (recv_process_then next) (offset_post n) w.
Proof.
  intros Hn. apply wlp_bind. eapply wlp_mono; [apply recv_process_track |].
  intros [r|] w1 (_ & _ & Hs).
  - red. simpl. apply offset_boring. by rewrite Hs.
  - repeat trk_step. by apply offset_boring.
Qed.

Lemma type_data_track hdr w : wlp (type_data hdr) (offset_post FRAME_HEADER_SIZE) w.
Proof.
  unfold type_data.
  repeat (trk_step; try apply conn_term_track).
  apply wlp_true. intros [p|] w1; [| apply conn_term_track].
  trk_step. apply wlp_true. intros r w2. repeat trk_step; [done | |].
  - by apply recv_padded_track.
  - apply (verify_track HTTP2_RECV_DATA T_OK _ (set_w_ctx _ w2)); auto.
Qed.

Lemma type_headers_track hdr w : wlp (type_headers hdr) (offset_post FRAME_HEADER_SIZE) w.
Proof.
  unfold type_headers.
  repeat (trk_step; try apply conn_term_track).
  apply wlp_true. intros o w1. trk_step. apply wlp_true. intros v w2.
  trk_step; [apply conn_term_track |]. apply wlp_bind, wlp_true. intros refused w3.
  repeat trk_step.
  - apply wlp_keeps; [apply keeps_send |]. intros r w4 E. injection E as Es _.
    apply offset_boring. rewrite Es. unfold SET_TO_READ_VERIFY. simpl. by case_match.
  - by apply recv_padded_track.
  - by apply recv_priority_track.
  - apply (verify_track HTTP2_RECV_HEADER T_OK _ (set_w_ctx _ w3)); auto.
Qed.

(** After a frame header, an app frame starts behind these nine bytes. *)
Lemma type_process_track w :
  wlp tfw_h2_frame_type_process (offset_post FRAME_HEADER_SIZE) w.
Proof.
  unfold tfw_h2_frame_type_process, type_priority, type_window_update,
    type_settings, type_ping, type_rst_stream, type_goaway, type_continuation. trk_step.
  trk_step; [apply conn_term_track |]. trk_step; [apply type_data_track |].
  trk_step; [apply type_headers_track |].
  trk_step.
  { repeat (trk_step; try apply conn_term_track). apply wlp_true. intros [p|] w1;
      (trk_step; [apply conn_term_track |]); [by apply recv_then_track |].
    repeat trk_step. by apply offset_boring. }
  trk_step.
  { repeat (trk_step; try apply conn_term_track).
    - apply wlp_true. intros [p|] w1; [by apply recv_then_track | apply conn_term_track].
    - by apply offset_boring. }
  trk_step.
  { trk_step; [apply conn_term_track |]. trk_step; [apply conn_term_track |].
    trk_step. apply wlp_keeps; [unfold tfw_h2_settings_ack_process; keeps_tac |].
    intros _ w1 _. apply wlp_bind.
    trk_step; red; [by apply offset_boring | by intros _ ?]. }
  trk_step; [apply conn_term_track |].
  trk_step; [repeat (trk_step; try apply conn_term_track); by apply offset_boring |].
  trk_step.
  { repeat (trk_step; try apply conn_term_track).
    apply wlp_true. intros [p|] w1; [by apply recv_then_track | apply conn_term_track]. }
  trk_step; [repeat (trk_step; try apply conn_term_track); by apply offset_boring |].
  trk_step.
  { repeat (trk_step; try apply conn_term_track).
    apply wlp_true. intros [p|] w1; [| apply conn_term_track]. repeat trk_step.
    apply (verify_track HTTP2_RECV_CONT T_OK _ (set_w_ctx _ w1)); auto. }
  repeat trk_step. by apply offset_boring.
Qed.

(** The handlers of fully received app frames. *)
Lemma state_process_track w :
  wlp tfw_h2_stream_state_process
    (fun _ w' => c_data_off (w_ctx w') = c_data_off (w_ctx w)) w.
Proof.
  apply wlp_bind. eapply wlp_mono; [apply recv_process_track |].
  intros [r|] w1 (Hd & _ & _); [done |]. trk_step.
  apply wlp_keeps; [apply keeps_check_closed |]. intros _ w2 E. injection E as _ E.
  red. simpl. congruence.
Qed.

Lemma headers_process_track w :
  wlp tfw_h2_headers_process
    (fun _ w' => c_data_off (w_ctx w') = c_data_off (w_ctx w)) w.
Proof.
  unfold tfw_h2_headers_process.
  trk_step. trk_step.
  { repeat trk_step. apply wlp_keeps; [apply keeps_reset |].
    intros r w1 E. by injection E as _ E. }
  destruct (c_cur_stream (w_ctx w)); [apply state_process_track |].
  trk_step. apply wlp_keeps; [apply keeps_create |]. intros o w1 E. injection E as _ E.
  trk_step. destruct o as [p|]; [| by red].
  trk_step. eapply wlp_mono; [apply state_process_track |].
  simpl. congruence.
Qed.

(** ** Bytes of the frame received so far *)

(** [n] bytes of the current frame lie in the skb queue. *)
Definition tracked (n : Z) (st : TfwFrameState) (c : TfwH2Ctx) : Prop :=
  match st with
  | HTTP2_RECV_FRAME_HEADER => n = c_rlen c
  | HTTP2_RECV_FRAME_PADDED => c_data_off c = 9 /\ n = c_data_off c + c_rlen c
  | HTTP2_RECV_HEADER_PRI => 9 <= c_data_off c <= 10 /\ n = c_data_off c + c_rlen c
  | HTTP2_RECV_HEADER | HTTP2_RECV_CONT | HTTP2_RECV_DATA => 0 <= c_data_off c <= 15 /\ c_data_off c <= n
  | _ => True
  end.

Definition track_post (base : Z) (o : fsm_next) (w : World) : Prop :=
  match o with
  | FsmGoto st off => tracked (base + off) st (w_ctx w)
  | FsmExit r st off =>
      (r = T_POSTPONE -> tracked (base + off) st (w_ctx w)) /\
      (r = T_OK -> app_state st = true ->
         0 <= c_data_off (w_ctx w) <= 15 /\ c_data_off (w_ctx w) < base + off)
  end.

(** Reading [n] bytes in a state whose handler is [k]. *)
Lemma read_track buf st t off lambda k Q w :
  0 <= c_rlen (w_ctx w) < t -> off <= zlen buf ->
  (forall n, wlp (lambda n) (fun o w1 => match o with
     | None => exists rb, w1 = set_w_ctx (set_c_rbuf rb (w_ctx w)) w
     | Some out => Q out w1
     end) w) ->
  (forall n rb, 0 <= n -> c_rlen (w_ctx w) + n < t ->
     Q (FsmExit T_POSTPONE st (off + n))
       (set_w_ctx (set_c_rlen (c_rlen (w_ctx w) + n) (set_c_rbuf rb (w_ctx w))) w)) ->
  (forall rb, wlp (k (off + (t - c_rlen (w_ctx w)))) Q
     (set_w_ctx (set_c_rlen t (set_c_rbuf rb (w_ctx w))) w)) ->
  wlp (FRAME_FSM_READ_LAMBDA buf st t off lambda k) Q w.
Proof.
  intros Hrl Hoff Hlam Hpost Hk. unfold FRAME_FSM_READ_LAMBDA. trk_step.
  set (n := Z.min (t - c_rlen (w_ctx w)) (zlen buf - off)).
  do 2 trk_step. trk_step. eapply wlp_mono; [apply Hlam |].
  intros [out|] w1 Hw1; [done |]. destruct Hw1 as [rb ->]. repeat trk_step; simpl in *; bool_hyps.
  - apply Hpost; lia.
  - assert (E : n = t - c_rlen (w_ctx w)) by lia. rewrite E.
    replace (c_rlen (w_ctx w) + (t - c_rlen (w_ctx w))) with t by lia. apply Hk.
Qed.

Lemma read_srvc_track buf st t off k Q w :
  0 <= c_rlen (w_ctx w) < t -> off <= zlen buf ->
  (forall n rb, 0 <= n -> c_rlen (w_ctx w) + n < t ->
     Q (FsmExit T_POSTPONE st (off + n))
       (set_w_ctx (set_c_rlen (c_rlen (w_ctx w) + n) (set_c_rbuf rb (w_ctx w))) w)) ->
  (forall rb, wlp (k (off + (t - c_rlen (w_ctx w)))) Q
     (set_w_ctx (set_c_rlen t (set_c_rbuf rb (w_ctx w))) w)) ->
  wlp (FRAME_FSM_READ_SRVC buf st t off k) Q w.
Proof.
  intros Hrl Hoff Hpost Hk. unfold FRAME_FSM_READ_SRVC. do 2 trk_step.
  apply read_track; try done. intros n. trk_step. red. eexists. reflexivity.
Qed.

Lemma read_skip_track buf st t off k Q w :
  0 <= c_rlen (w_ctx w) < t -> off <= zlen buf ->
  (forall n rb, 0 <= n -> c_rlen (w_ctx w) + n < t ->
     Q (FsmExit T_POSTPONE st (off + n))
       (set_w_ctx (set_c_rlen (c_rlen (w_ctx w) + n) (set_c_rbuf rb (w_ctx w))) w)) ->
  (forall rb, wlp (k (off + (t - c_rlen (w_ctx w)))) Q
     (set_w_ctx (set_c_rlen t (set_c_rbuf rb (w_ctx w))) w)) ->
  wlp (FRAME_FSM_READ buf st t off k) Q w.
Proof.
  intros Hrl Hoff Hpost Hk. apply read_track; try done.
  intros n. red. exists (c_rbuf (w_ctx w)). by destruct w as [[] ? ? ? ? ?].
Qed.

(** [or_drop], [if_to_read] and [FRAME_FSM_NEXT] after a handler of a frame part. *)
Lemma part_next_track buf base st off handler n w :
  app_state st = false ->
  wlp handler (offset_post n) w -> base + off = n -> 9 <= n <= 15 ->
  wlp (or_drop st off handler (if_to_read st off (FRAME_FSM_NEXT buf off))) (track_post base) w.
Proof.
  intros Hst Hh Hn Hr. unfold or_drop, if_to_read, FRAME_FSM_EXIT, FRAME_FSM_NEXT. apply wlp_bind.
  eapply wlp_mono; [exact Hh |]. intros r w' Hoff. trk_step; bool_hyps.
  { repeat trk_step. by split. }
  subst r. specialize (Hoff eq_refl). trk_step. trk_step; bool_hyps.
  - specialize (Hoff ltac:(done)).
    assert (Ht : tracked (base + off) (c_state (w_ctx w'))
      (w_ctx (set_w_ctx (set_c_rlen 0 (w_ctx w')) w'))).
    { destruct (c_state (w_ctx w')); simpl in *; try done; lia. }
    repeat trk_step; [split; [done | discriminate] | done].
  - repeat trk_step. split; [done |]. simpl. congruence.
Qed.

Lemma boring_tracked n st c : boring st = true -> tracked n st c.
Proof. by destruct st. Qed.

Lemma boring_exit base r st off w : boring st = true -> track_post base (FsmExit r st off) w.
Proof.
  intros Hb. split; [by intros _; apply boring_tracked |]. by destruct st.
Qed.

Lemma boring_fsm_exit base r st off w :
  boring st = true -> wlp (FRAME_FSM_EXIT st r off) (track_post base) w.
Proof. intros Hb. unfold FRAME_FSM_EXIT. repeat trk_step. by apply boring_exit. Qed.

Lemma boring_fsm_move buf base st off w :
  boring st = true -> wlp (FRAME_FSM_MOVE buf st off) (track_post base) w.
Proof.
  intros Hb. unfold FRAME_FSM_MOVE. repeat trk_step; [by apply boring_exit | by apply boring_tracked].
Qed.

Lemma boring_or_drop base st off handler k w :
  boring st = true -> (forall w', wlp k (track_post base) w') ->
  wlp (or_drop st off handler k) (track_post base) w.
Proof.
  intros Hb Hk. unfold or_drop. trk_step. apply wlp_true. intros r w'.
  trk_step; [by apply boring_fsm_exit | apply Hk].
Qed.

Lemma boring_if_to_read base st off more w :
  boring st = true -> (forall w', wlp more (track_post base) w') ->
  wlp (if_to_read st off more) (track_post base) w.
Proof.
  intros Hb Hk. unfold if_to_read. do 2 trk_step; [apply Hk | by apply boring_fsm_exit].
Qed.

Lemma boring_state_track buf base st off w :
  boring st = true -> 0 <= c_rlen (w_ctx w) < fs_read st (w_ctx w) -> off <= zlen buf ->
  wlp (frame_fsm_state buf st off) (track_post base) w.
Proof.
  intros Hb Hrl Hoff.
  destruct st; try discriminate Hb; simpl frame_fsm_state;
    unfold st_srvc, st_app, st_cli_start_seq, st_first_settings, st_ping,
      st_rst_stream, st_settings, st_goaway; try trk_step.
  all: first
    [ apply read_srvc_track; [done | done | by intros; apply boring_exit | intros rb]
    | apply read_skip_track; [done | done | by intros; apply boring_exit | intros rb]
    | apply read_track; [done | done | intros n | by intros; apply boring_exit | intros rb] ].
  { trk_step. trk_step.
    - red. exists (c_rbuf (w_ctx w)). by destruct w as [[] ? ? ? ? ?].
    - trk_step. eapply wlp_mono; [by apply (boring_fsm_exit base) |]. done. }
  all: repeat first
    [ apply boring_or_drop; [done |]; intros ?
    | apply boring_if_to_read; [done |]; intros ?
    | by apply boring_fsm_exit
    | by apply boring_fsm_move
    | trk_step
    | progress (apply wlp_true; intros ? ?) ].
Qed.

Lemma app_state_track buf base st handler off w :
  app_state st = true -> 0 <= c_rlen (w_ctx w) < fs_read st (w_ctx w) -> off <= zlen buf ->
  tracked (base + off) st (w_ctx w) ->
  (forall w0, wlp handler (fun _ w' => c_data_off (w_ctx w') = c_data_off (w_ctx w0)) w0) ->
  wlp (st_app buf st handler off) (track_post base) w.
Proof.
  intros Hst Hrl Hoff Ht Hh.
  assert (Hfs : fs_read st (w_ctx w) = c_to_read (w_ctx w)) by (by destruct st).
  assert (Ht' : 0 <= c_data_off (w_ctx w) <= 15 /\ c_data_off (w_ctx w) <= base + off)
    by (by destruct st).
  assert (Hout : forall c n, c_data_off c = c_data_off (w_ctx w) -> base + off <= n ->
    tracked n st c) by (intros c n E Hn; destruct st; try discriminate Hst; simpl; lia).
  unfold st_app. trk_step. apply read_skip_track; [by rewrite <- Hfs | done | |].
  - intros n rb Hn _. split; [| done]. intros _. apply Hout; [done | lia].
  - intros rb. unfold or_drop. trk_step. eapply wlp_mono; [apply Hh |].
    intros r w' E. unfold FRAME_FSM_EXIT. repeat trk_step; simpl in *; (split; [done |]); [done |].
    intros _ _. simpl. lia.
Qed.

Lemma frame_fsm_state_track buf base st off w :
  0 <= c_rlen (w_ctx w) < fs_read st (w_ctx w) -> off <= zlen buf -> fs_cond st (w_ctx w) ->
  tracked (base + off) st (w_ctx w) ->
  wlp (frame_fsm_state buf st off) (track_post base) w.
Proof.
  intros Hrl Hoff Hc Ht. destruct (boring st) eqn:Hb; [by apply boring_state_track |].
  destruct st; try discriminate Hb; simpl frame_fsm_state; simpl in Ht, Hrl.
  - unfold st_frame_header. apply read_srvc_track; [done | done | |].
    + intros n rb Hn _. split; [| done]. intros _. simpl. lia.
    + intros rb. trk_step.
      apply (part_next_track _ _ _ _ _ FRAME_HEADER_SIZE); [done | | unfold FRAME_HEADER_SIZE; lia | done].
      apply type_process_track.
  - unfold st_padded. trk_step. destruct Hc as [Htr _]. apply read_srvc_track; [done | done | |].
    + intros n rb Hn _. split; [| done]. intros _. simpl. lia.
    + intros rb. apply (part_next_track _ _ _ _ _ 10); [done | | lia | done].
      apply pad_process_track. apply Ht.
  - unfold st_header_pri. trk_step. destruct Hc as [Htr _]. apply read_srvc_track; [done | done | |].
    + intros n rb Hn _. split; [| done]. intros _. simpl. lia.
    + intros rb.
      apply (part_next_track _ _ _ _ _ (u8 (c_data_off (w_ctx w) + FRAME_PRIORITY_SIZE))); [done | | |].
      * exact (headers_pri_track (set_w_ctx (set_c_rlen _ (set_c_rbuf rb (w_ctx w))) w)).
      * unfold FRAME_PRIORITY_SIZE, u8. rewrite Z.mod_small by lia. lia.
      * unfold FRAME_PRIORITY_SIZE, u8. rewrite Z.mod_small by lia. lia.
  - apply app_state_track; try done. apply headers_process_track.
  - apply app_state_track; try done. apply state_process_track.
  - apply app_state_track; try done. apply state_process_track.
Qed.

(** ** One call of [tfw_h2_frame_recv()] *)

Definition recv_track (n : Z) (out : Z * Z) (w : World) : Prop :=
  let '(r, off) := out in
  (r = T_POSTPONE -> tracked (n + off) (c_state (w_ctx w)) (w_ctx w)) /\
  (r = T_OK -> app_state (c_state (w_ctx w)) = true ->
     0 <= c_data_off (w_ctx w) <= 15 /\ c_data_off (w_ctx w) < n + off).

Lemma wp_frame_recv_track n buf w :
  bytes_ok buf -> recv_inv w -> tracked n (c_state (w_ctx w)) (w_ctx w) ->
  wp (tfw_h2_frame_recv buf) (fun out w' => recv_post buf out w' /\ recv_track n out w') w.
Proof.
  intros Hbuf HI Ht. apply wp_bind, wp_get_ctx.
  apply (wp_loop_rule buf (fun st off w => enter buf st off w /\ tracked (n + off) st (w_ctx w)));
    [| | apply zlen_nonneg | unfold zlen; lia].
  - intros st off w0 [He Ht0]. pose proof He as (_ & _ & (_ & Hc & _) & Hrl & Hoff & Hle).
    eapply wp_mono; [apply wp_wlp; [by apply wp_frame_fsm_state |] |].
    { by apply (frame_fsm_state_track buf n). }
    intros [r st' off' | st' off'] w' [Hp Hk].
    + split; [by apply (fsm_post_recv buf off) |]. destruct Hk as [Hk1 Hk2].
      split; [| exact Hk2]. intros E. specialize (Hk1 E). by destruct st'.
    + destruct (fsm_post_enter buf off st' off' w'); try done.
  - split; [by apply recv_inv_enter | by rewrite Z.add_0_r].
Qed.

End track.
