(* ===== verification/Skb.v ===== *)
(** Socket buffers ([fw/ss_skb.c], [fw/ss_skb.h]): walking the data of an skb
    with an actor, splitting an skb in two and chopping bytes off its ends.

    An skb is its linear data and its paged fragments.  Every function of this
    file returns the C error code next to the new skb; reading a fragment
    beyond [nr_frags] is a [Bug].  The kernel's [skb_split()] is a parameter with its documented
    effect (classes [SkbSplit], [SkbSplitOk]); [split_in_place] is an instance. *)

From S2P Require Import Prelude.
Local Open Scope Z_scope.

Record sk_buff : Type := MkSkb {
  skb_linear : bytes;
  skb_frags : list bytes;
}.

Definition set_skb_linear (v : bytes) (s : sk_buff) : sk_buff := MkSkb v (skb_frags s).
Definition set_skb_frags (v : list bytes) (s : sk_buff) : sk_buff := MkSkb (skb_linear s) v.

Definition skb_headlen (s : sk_buff) : Z := zlen (skb_linear s).
Definition nr_frags (s : sk_buff) : nat := length (skb_frags s).

(** The data of the skb, and [skb->len]. *)
Definition skb_bytes (s : sk_buff) : bytes := skb_linear s ++ concat (skb_frags s).
Definition skb_len (s : sk_buff) : Z := zlen (skb_bytes s).

(** ** [ss_skb_process()] *)

Section process.
Context {S : Type}.
Variable actor : bytes -> SM S (Z * Z).

(** The body shared by the linear part and the loop over the fragments: call
    the actor, add what it read, stop unless it asks for more.  [r] is what is
    returned when there is nothing left. *)
Fixpoint process_chunks (r processed : Z) (chunks : list bytes) : SM S (Z * Z) :=
  match chunks with
  | [] => sm_ret (r, processed)
  | chunk :: rest =>
      out <~ actor chunk ;;
      let '(r', n) := (out : Z * Z) in
      if negb (r' =? T_POSTPONE) then sm_ret (r', processed + n)
      else process_chunks r' (processed + n) rest
  end.

Definition skb_chunks (s : sk_buff) : list bytes :=
  (if 0 <? skb_headlen s then [skb_linear s] else []) ++ skb_frags s.

(** The return code and the number of bytes read. *)
Definition ss_skb_process (skb : sk_buff) : SM S (Z * Z) :=
  if skb_len skb =? 0 then sm_ret (- EIO, 0)
  else process_chunks T_OK 0 (skb_chunks skb).
End process.

(** ** [ss_skb_split()] *)

(** The kernel's [skb_split()] is a parameter: what lies after the first [len] bytes moves to
    the second skb. *)
Class SkbSplit := skb_split : sk_buff -> Z -> sk_buff * sk_buff.

Class SkbSplitOk `{SkbSplit} : Prop := skb_split_spec skb len :
  0 <= len <= skb_len skb ->
  skb_bytes (skb_split skb len).1 = take (Z.to_nat len) (skb_bytes skb)
  /\ skb_bytes (skb_split skb len).2 = drop (Z.to_nat len) (skb_bytes skb).

(** [alloc_ok] is the outcome of [alloc_skb_fclone()]; on failure the skb is
    left alone. *)
Definition ss_skb_split `{SkbSplit} (alloc_ok : bool) (skb : sk_buff) (len : Z)
  : sk_buff * option sk_buff :=
  if alloc_ok then let '(a, b) := skb_split skb len in (a, Some b) else (skb, None).

(** ** [ss_skb_chop_head_tail()] *)

Section chop.
(** The slow path of [__split_pgfrag_del_w_frag()], which makes room for a new
    fragment and may move data to another skb. *)
Variable split_pgfrag_middle : nat -> Z -> Z -> SM sk_buff Z.

Definition __split_pgfrag_del (i : nat) (off len : Z) : SM sk_buff Z :=
  skb <~ sm_get ;;
  match skb_frags skb !! i with
  | None => sm_bug
  | Some frag =>
      if zlen frag <? off + len then sm_ret (- EFAULT)
      else if (off =? 0) && (len =? zlen frag) then
        sm_mod (set_skb_frags (delete i (skb_frags skb))) ;;; sm_ret 0
      else if off =? 0 then
        sm_mod (set_skb_frags (<[i := drop (Z.to_nat len) frag]> (skb_frags skb))) ;;; sm_ret 0
      else if off + len =? zlen frag then
        sm_mod (set_skb_frags (<[i := take (Z.to_nat off) frag]> (skb_frags skb))) ;;; sm_ret 0
      else split_pgfrag_middle i off len
  end.

(** [while (head)]: every round drops a fragment or ends the loop. *)
Fixpoint chop_head_loop (fuel : nat) (head : Z) : SM sk_buff Z :=
  match fuel with
  | O => sm_bug
  | S fuel' =>
      if head =? 0 then sm_ret 0
      else
        skb <~ sm_get ;;
        match skb_frags skb !! O with
        | None => sm_bug
        | Some frag =>
            let n := Z.min (zlen frag) head in
            r <~ __split_pgfrag_del O 0 n ;;
            if negb (r =? 0) then sm_ret r else chop_head_loop fuel' (head - n)
        end
  end.

(** [while (trail && si->nr_frags)]: the error code and what is left of [trail]. *)
Fixpoint chop_tail_loop (fuel : nat) (trail : Z) : SM sk_buff (Z * Z) :=
  match fuel with
  | O => sm_bug
  | S fuel' =>
      skb <~ sm_get ;;
      if (trail =? 0) || (nr_frags skb =? 0)%nat then sm_ret (0, trail)
      else
        let i := (nr_frags skb - 1)%nat in
        match skb_frags skb !! i with
        | None => sm_bug
        | Some frag =>
            let n := Z.min (zlen frag) trail in
            r <~ __split_pgfrag_del i (zlen frag - n) n ;;
            if negb (r =? 0) then sm_ret (r, trail) else chop_tail_loop fuel' (trail - n)
        end
  end.

Definition ss_skb_chop_head_tail (head trail : Z) : SM sk_buff Z :=
  skb <~ sm_get ;;
  if skb_len skb <=? head + trail then sm_ret (- EINVAL)
  else
    let n := Z.min (skb_headlen skb) head in
    sm_mod (fun s => set_skb_linear (drop (Z.to_nat n) (skb_linear s)) s) ;;;
    r <~ chop_head_loop (S (nr_frags skb)) (head - n) ;;
    if negb (r =? 0) then sm_ret r
    else
      skb <~ sm_get ;;
      out <~ chop_tail_loop (S (nr_frags skb)) trail ;;
      let '(r, trail) := (out : Z * Z) in
      if negb (r =? 0) then sm_ret r
      else if negb (trail =? 0) then
        sm_mod (fun s =>
          set_skb_linear (take (Z.to_nat (skb_len s - trail)) (skb_linear s)) s) ;;; sm_ret 0
      else sm_ret 0.
End chop.

(** ** Correctness *)

(** [ss_skb_split()] loses and reorders nothing: when the
    allocation succeeds the old skb keeps exactly the first [len] bytes and the
    new one holds exactly the rest, wherever the border falls among the linear
    part and the fragments; when it fails the skb is untouched. *)
Theorem ss_skb_split_correct `{SkbSplitOk} (alloc_ok : bool) (skb : sk_buff) (len : Z) :
  0 <= len <= skb_len skb ->
  match ss_skb_split alloc_ok skb len with
  | (a, Some b) =>
      alloc_ok = true /\ skb_bytes a = take (Z.to_nat len) (skb_bytes skb) /\
      skb_bytes b = drop (Z.to_nat len) (skb_bytes skb)
  | (a, None) => alloc_ok = false /\ a = skb
  end.
Proof.
  intros Hlen. unfold ss_skb_split. destruct alloc_ok; [| done].
  pose proof (skb_split_spec skb len Hlen) as Hs. by destruct (skb_split skb len).
Qed.

Section chop_correct.
Variable split_pgfrag_middle : nat -> Z -> Z -> SM sk_buff Z.

Lemma drop_concat_cons n (f : bytes) fs :
  zlen f <= n -> drop (Z.to_nat n) (f ++ concat fs) = drop (Z.to_nat (n - zlen f)) (concat fs).
Proof. unfold zlen. intros. rewrite drop_app_ge by lia. f_equal. lia. Qed.

Lemma wp_chop_head fuel head skb :
  (nr_frags skb < fuel)%nat -> 0 <= head <= zlen (concat (skb_frags skb)) ->
  wp (chop_head_loop split_pgfrag_middle fuel head)
     (fun r skb' => r = 0 /\ skb_linear skb' = skb_linear skb /\
        concat (skb_frags skb') = drop (Z.to_nat head) (concat (skb_frags skb))) skb.
Proof.
  revert head skb. induction fuel as [|fuel IH]; intros head [lin frags] Hf Hh; [lia |].
  simpl. wp_step; bool_hyps.
  { subst head. apply wp_ret. done. }
  apply wp_bind, wp_get. destruct frags as [|f fs].
  { unfold zlen in Hh. simpl in *. lia. }
  simpl in *. rewrite zlen_app in Hh. unfold nr_frags in Hf. simpl in Hf.
  pose proof (zlen_nonneg f). apply wp_bind, wp_bind, wp_get. simpl. wp_step; bool_hyps; [lia |].
  destruct (Z.eqb_spec (Z.min (zlen f) head) (zlen f)) as [He|Hne].
  - apply wp_bind, wp_mod, wp_ret. simpl. rewrite He.
    eapply wp_mono; [apply IH; unfold nr_frags; simpl; lia |].
    intros r skb' (Hr & Hl & Hc). split_and!; [done | done |].
    rewrite Hc. simpl. symmetry. apply drop_concat_cons. lia.
  - assert (He : Z.min (zlen f) head = head) by lia. rewrite He.
    apply wp_bind, wp_mod, wp_ret. simpl. replace (head - head) with 0 by lia.
    destruct fuel; [lia |]. apply wp_ret. split_and!; [done | done |]. simpl.
    unfold zlen in *. rewrite drop_app_le by lia. done.
Qed.

Lemma wp_chop_tail fuel trail skb :
  (nr_frags skb < fuel)%nat -> 0 <= trail ->
  wp (chop_tail_loop split_pgfrag_middle fuel trail)
     (fun out skb' => let n := zlen (concat (skb_frags skb)) in
        skb_linear skb' = skb_linear skb /\
        concat (skb_frags skb') = take (Z.to_nat (n - trail)) (concat (skb_frags skb)) /\
        out = (0, Z.max 0 (trail - n)) /\ (n < trail -> skb_frags skb' = [])) skb.
Proof.
  revert trail skb. induction fuel as [|fuel IH]; intros trail [lin frags] Hf Ht; [lia |].
  pose proof (zlen_nonneg (concat frags)). cbn [chop_tail_loop]. apply wp_bind, wp_get.
  destruct frags as [|f fs _] using rev_ind.
  { rewrite orb_true_r. apply wp_ret. simpl. rewrite take_nil. unfold zlen. simpl.
    split_and!; try done. f_equal. lia. }
  unfold nr_frags in *. simpl in *. rewrite length_app in *. simpl in *.
  rewrite concat_app in *. simpl in *. rewrite app_nil_r in *.
  rewrite zlen_app in *. pose proof (zlen_nonneg f). pose proof (zlen_nonneg (concat fs)).
  replace (length fs + 1 - 1)%nat with (length fs) by lia.
  assert (Hlk : (fs ++ [f]) !! length fs = Some f) by (by apply list_lookup_middle).
  rewrite (proj2 (Nat.eqb_neq (length fs + 1) 0)) by lia. rewrite orb_false_r.
  wp_step; bool_hyps.
  { subst trail. apply wp_ret. simpl. rewrite concat_app. simpl. rewrite app_nil_r.
    rewrite Z.sub_0_r, take_ge by (unfold zlen; rewrite length_app; lia).
    split_and!; try done; [f_equal; lia | lia]. }
  rewrite Hlk. apply wp_bind, wp_bind, wp_get. simpl. rewrite Hlk.
  wp_step; bool_hyps; [lia |].
  destruct (Z.eqb_spec (zlen f - Z.min (zlen f) trail) 0) as [He|Hne]; simpl.
  - rewrite (proj2 (Z.eqb_eq _ _)) by lia. apply wp_bind, wp_mod, wp_ret. simpl.
    assert (Hd : delete (length fs) (fs ++ [f]) = fs).
    { rewrite delete_middle. apply app_nil_r. }
    rewrite Hd. replace (Z.min (zlen f) trail) with (zlen f) by lia.
    eapply wp_mono; [apply IH; simpl; lia |].
    intros out skb' (Hl & Hc & Ho & Hn). simpl in *. split_and!; [done | | | intros; apply Hn; lia].
    + rewrite Hc. unfold zlen in *. rewrite take_app_le by lia. f_equal. lia.
    + rewrite Ho. f_equal. lia.
  - replace (Z.min (zlen f) trail) with trail by lia.
    rewrite (proj2 (Z.eqb_eq _ _)) by lia. apply wp_bind, wp_mod, wp_ret. simpl.
    replace (trail - trail) with 0 by lia. destruct fuel; [lia |].
    apply wp_bind, wp_get. simpl. apply wp_ret. simpl.
    rewrite insert_app_r_alt, Nat.sub_diag by lia. simpl. rewrite concat_app. simpl.
    rewrite app_nil_r. split_and!; [done | | f_equal; lia | lia].
    unfold zlen in *. rewrite take_app_ge by lia. do 2 f_equal. lia.
Qed.

(** [ss_skb_chop_head_tail()] removes exactly [head] bytes from the
    front and [trail] bytes from the back, whatever part of them lies in the
    linear data and in the fragments; it never indexes a fragment out of range,
    its loops end, and it refuses (leaving the skb alone) to chop everything.
    The slow path of the fragment removal is never needed. *)
Theorem ss_skb_chop_correct (skb : sk_buff) (head trail : Z) :
  0 <= head -> 0 <= trail ->
  exists r skb',
    ss_skb_chop_head_tail split_pgfrag_middle head trail skb = Ok (r, skb') /\
    (skb_len skb <= head + trail -> r = - EINVAL /\ skb' = skb) /\
    (head + trail < skb_len skb -> r = 0 /\
       skb_bytes skb' =
         take (Z.to_nat (skb_len skb - head - trail)) (drop (Z.to_nat head) (skb_bytes skb))).
Proof.
  intros Hh Ht. apply wp_ok. apply wp_bind, wp_get. wp_step; bool_hyps.
  { apply wp_ret. split; [done | lia]. }
  unfold skb_len, skb_bytes, skb_headlen in *. rewrite zlen_app in *.
  pose proof (zlen_nonneg (skb_linear skb)). pose proof (zlen_nonneg (concat (skb_frags skb))).
  set (n := Z.min (zlen (skb_linear skb)) head). apply wp_bind, wp_mod, wp_bind.
  eapply wp_mono; [apply wp_chop_head; unfold nr_frags; simpl; lia |].
  intros r s1 (-> & Hl1 & Hc1). simpl in Hl1, Hc1. apply wp_bind, wp_get, wp_bind.
  eapply wp_mono; [apply (wp_chop_tail (S (nr_frags s1)) trail s1); [lia | done] |].
  intros out s2 (Hl2 & Hc2 & -> & He2). simpl.
  assert (Hz1 : zlen (concat (skb_frags s1)) = zlen (concat (skb_frags skb)) - (head - n))
    by (rewrite Hc1, zlen_drop; lia).
  assert (Hz2 : zlen (skb_linear s1) = zlen (skb_linear skb) - n)
    by (rewrite Hl1, zlen_drop; lia).
  assert (Hd : drop (Z.to_nat head) (skb_linear skb ++ concat (skb_frags skb)) =
               skb_linear s1 ++ concat (skb_frags s1)).
  { rewrite Hl1, Hc1, drop_app. unfold zlen in *. f_equal; [| f_equal; lia].
    destruct (Z.leb_spec head (Z.of_nat (length (skb_linear skb)))); [f_equal; lia |].
    rewrite !drop_ge by lia. done. }
  rewrite Hd. wp_step; bool_hyps.
  - apply wp_bind, wp_mod, wp_ret. split; [lia |]. intros _. split; [done |]. simpl.
    rewrite He2 by lia. rewrite zlen_app. unfold zlen in *. simpl.
    rewrite app_nil_r, Hl2, take_app_le by lia. f_equal. lia.
  - apply wp_ret. split; [lia |]. intros _. split; [done |].
    rewrite Hl2, Hc2. unfold zlen in *. rewrite take_app_ge by lia. do 2 f_equal. lia.
Qed.
End chop_correct.

(** An instance: a fragment that straddles the border is cut. *)
Fixpoint frags_split (frags : list bytes) (len : Z) : list bytes * list bytes :=
  match frags with
  | [] => ([], [])
  | f :: rest =>
      if zlen f <=? len then
        let '(a, b) := frags_split rest (len - zlen f) in (f :: a, b)
      else if 0 <? len then ([take (Z.to_nat len) f], drop (Z.to_nat len) f :: rest)
      else ([], f :: rest)
  end.

Definition split_in_place (s : sk_buff) (len : Z) : sk_buff * sk_buff :=
  if len <? skb_headlen s then
    (MkSkb (take (Z.to_nat len) (skb_linear s)) [],
     MkSkb (drop (Z.to_nat len) (skb_linear s)) (skb_frags s))
  else
    let '(a, b) := frags_split (skb_frags s) (len - skb_headlen s) in
    (MkSkb (skb_linear s) a, MkSkb [] b).

Lemma frags_split_spec frags len a b :
  0 <= len <= zlen (concat frags) -> frags_split frags len = (a, b) ->
  concat a = take (Z.to_nat len) (concat frags) /\ concat b = drop (Z.to_nat len) (concat frags).
Proof.
  revert len a b. induction frags as [|f rest IH]; intros len a b Hlen.
  { unfold zlen in Hlen. simpl in *. intros [= <- <-]. by rewrite take_nil, drop_nil. }
  simpl in *. rewrite zlen_app in Hlen. unfold zlen in *.
  destruct (Z.leb_spec (Z.of_nat (length f)) len).
  - destruct (frags_split rest (len - Z.of_nat (length f))) as [a' b'] eqn:E.
    intros [= <- <-]. simpl.
    destruct (IH (len - Z.of_nat (length f)) a' b') as [-> ->]; [lia | done |].
    replace (Z.to_nat len) with (length f + Z.to_nat (len - Z.of_nat (length f)))%nat by lia.
    by rewrite take_app_add, drop_app_add.
  - destruct (Z.ltb_spec 0 len); intros [= <- <-]; simpl.
    + rewrite app_nil_r, take_app_le, drop_app_le by lia. done.
    + replace (Z.to_nat len) with 0%nat by lia. done.
Qed.

Lemma split_in_place_spec skb len : 0 <= len <= skb_len skb ->
  skb_bytes (split_in_place skb len).1 = take (Z.to_nat len) (skb_bytes skb)
  /\ skb_bytes (split_in_place skb len).2 = drop (Z.to_nat len) (skb_bytes skb).
Proof.
  intros Hlen. unfold split_in_place.
  unfold skb_len, skb_bytes, skb_headlen in *. rewrite zlen_app in Hlen.
  destruct (Z.ltb_spec len (zlen (skb_linear skb))).
  - unfold zlen in *. simpl. rewrite app_nil_r, take_app_le, drop_app_le by lia. done.
  - destruct (frags_split _ _) as [a b] eqn:E.
    apply frags_split_spec in E as [Ea Eb]; [| lia]. simpl. rewrite Ea, Eb.
    unfold zlen in *.
    replace (Z.to_nat len) with
      (length (skb_linear skb) + Z.to_nat (len - Z.of_nat (length (skb_linear skb))))%nat by lia.
    by rewrite take_app_add, drop_app_add.
Qed.

#[export] Instance in_place : SkbSplit | 10 := split_in_place.
#[export] Instance in_place_ok : SkbSplitOk | 10.
Proof. exact split_in_place_spec. Qed.

Lemma ss_skb_split_witness :
  skb_bytes (fst (ss_skb_split true (MkSkb [1; 2] [[3; 4; 5]; [6]]) 4)) = [1; 2; 3; 4].
Proof.
  destruct (ss_skb_split_correct true (MkSkb [1; 2] [[3; 4; 5]; [6]]) 4) as (_ & Ha & _);
    [vm_compute; split; discriminate | exact Ha].
Defined.

Lemma ss_skb_chop_witness :
  exists skb', ss_skb_chop_head_tail (fun _ _ _ => sm_bug) 3 2
    (MkSkb [1; 2] [[3; 4; 5]; [6]]) = Ok (0, skb') /\ skb_bytes skb' = [4].
Proof.
  destruct (ss_skb_chop_correct (fun _ _ _ => sm_bug) (MkSkb [1; 2] [[3; 4; 5]; [6]]) 3 2)
    as (r & skb' & E & _ & Hok); [lia | lia |].
  destruct Hok as [-> Hb]; [vm_compute; reflexivity |]. exists skb'. split; [exact E | exact Hb].
Defined.
