(* ===== verification/H2Process.v ===== *)
(** [tfw_h2_frame_process()] ([fw/http_frame.c]): an skb from the TCP layer is
    cut into frames, the payload of app frames goes to the HTTP layer, and the
    context is prepared for the next frame.

    The HTTP layer above is an interface: what [tfw_http_req_process()] may do
    to a connection is a sequence of [api_step]s, the operations which the frame
    layer exports to it.  The same steps happen between two calls, when the
    answer to a request is sent. *)

From S2P Require Import Prelude RbTree H2Stream H2Ctx H2Frame H2Inv H2Safety H2Track Skb.
Local Open Scope Z_scope.

(** A connection: the frame layer, the queue [skb_head] of received skbs and
    the data handed upstairs so far. *)
Record Conn : Type := MkConn {
  k_world : World;
  k_skb_head : list sk_buff;
  k_up : list (option ptr * bytes);
  k_nskb : nat;
}.

Definition set_k_world (v : World) (k : Conn) : Conn :=
  MkConn v (k_skb_head k) (k_up k) (k_nskb k).
Definition set_k_skb_head (v : list sk_buff) (k : Conn) : Conn :=
  MkConn (k_world k) v (k_up k) (k_nskb k).
Definition set_k_up (v : list (option ptr * bytes)) (k : Conn) : Conn :=
  MkConn (k_world k) (k_skb_head k) v (k_nskb k).
Definition set_k_nskb (v : nat) (k : Conn) : Conn :=
  MkConn (k_world k) (k_skb_head k) (k_up k) v.

Section api.
Context `{RbLib} `{Env}.

(** What the HTTP layer does to the frame layer of a connection. *)
Inductive api_step (w : World) : World -> Prop :=
| api_link p s r :
    w_heap w !! p = Some s -> s_msg s = None -> w_reqs w !! r = None ->
    api_step w (set_w_heap (<[p := set_s_msg (Some r) s]> (w_heap w))
                  (set_w_reqs (<[r := MkReq (Some p) false]> (w_reqs w)) w))
| api_parsed r q :
    w_reqs w !! r = Some q ->
    api_step w (set_w_reqs (<[r := MkReq (r_stream q) true]> (w_reqs w)) w)
| api_close r q type flags id w' :
    w_reqs w !! r = Some q ->
    has_flag flags HTTP2_F_END_STREAM = true \/ type = HTTP2_RST_STREAM
      \/ _HTTP2_UNDEFINED <= type ->
    tfw_h2_stream_id_close r type flags w = Ok (id, w') -> api_step w w'
| api_free r q :
    w_reqs w !! r = Some q -> r_stream q = None ->
    api_step w (set_w_reqs (delete r (w_reqs w)) w)
| api_send tx n : api_step w (set_w_tx tx (set_w_nsend n w)).

End api.

(** The environment of the frame processing. *)
Class Upper `{RbLib} `{Env} := {
  env_split : nat -> bool;
  env_split_pgfrag_middle : nat -> Z -> Z -> SM sk_buff Z;
  env_msg_alloc : gset ptr -> option ptr;
  env_msg_alloc_fresh X r : env_msg_alloc X = Some r -> r ∉ X;
  tfw_http_req_process : ptr -> sk_buff -> H2 Z;
}.

Section process.
Context `{Upper} `{SkbSplit}.

Definition lift {A} (m : H2 A) : SM Conn A :=
  fun k => match m (k_world k) with
           | Ok (a, w) => Ok (a, set_k_world w k)
           | Bug => Bug
           end.

(** [tfw_http_conn_msg_alloc()] of a client connection: a new request linked
    with its stream. *)
Definition tfw_http_conn_msg_alloc (p : ptr) : H2 (option ptr) :=
  w <~ sm_get ;;
  match env_msg_alloc (dom (w_reqs w)) with
  | None => sm_ret None
  | Some r =>
      sm_mod (fun w => set_w_reqs (<[r := MkReq (Some p) false]> (w_reqs w)) w) ;;;
      sm_ret (Some r)
  end.

Definition tfw_http_msg_process_generic (stream : option ptr) (data : sk_buff) : H2 Z :=
  match stream with
  | None => sm_ret (- EINVAL)
  | Some p =>
      s <~ get_stream p ;;
      match s_msg s with
      | Some _ => tfw_http_req_process p data
      | None =>
          o <~ tfw_http_conn_msg_alloc p ;;
          match o with
          | None => sm_ret T_DROP
          | Some r =>
              s <~ get_stream p ;;
              put_stream p (set_s_msg (Some r) s) ;;;
              tfw_http_req_process p data
          end
      end
  end.

(** [bzero_fast(ctx->__off, ...)]: everything after [hpack]; [skb_head] is part
    of [Conn]. *)
Definition ctx_bzero (c : TfwH2Ctx) : TfwH2Ctx :=
  MkCtx (c_lsettings c) (c_rsettings c) (c_streams_num c) (c_sched c) (c_hclosed_list c)
    (c_hclosed_num c) (c_lstream_id c) (c_loc_wnd c) (c_hpack c)
    None zero_pri zero_hdr 0 HTTP2_RECV_FRAME_HEADER 0 0 zero_rbuf 0 0.

Definition APP_FRAME (c : TfwH2Ctx) : bool := app_state (c_state c).

Definition mod_conn_ctx (f : TfwH2Ctx -> TfwH2Ctx) : SM Conn unit := lift (mod_ctx f).
Definition conn_ctx : SM Conn TfwH2Ctx := lift get_ctx.

Definition tfw_h2_context_reinit (postponed : bool) : SM Conn unit :=
  c <~ conn_ctx ;;
  if negb (APP_FRAME c) || (negb postponed && (c_padlen c =? 0)) then
    sm_mod (set_k_skb_head []) ;;; mod_conn_ctx ctx_bzero
  else if negb postponed && negb (c_padlen c =? 0) then
    mod_conn_ctx (fun c =>
      set_c_padlen 0 (set_c_to_read (c_padlen c) (set_c_state HTTP2_IGNORE_FRAME_DATA c)))
  else sm_ret tt.

(** [while (h2->skb_head->len <= h2->data_off)]: drop the skbs that hold only
    the service part of the frame. *)
Fixpoint drop_service_skbs (q : list sk_buff) (data_off : Z) : list sk_buff * Z :=
  match q with
  | [] => ([], data_off)
  | s :: q' =>
      if skb_len s <=? data_off then drop_service_skbs q' (u8 (data_off - skb_len s))
      else (q, data_off)
  end.

(** The shrunk [skb] stays where it is, at the tail of the queue. *)
Definition replace_last (q : list sk_buff) (s : sk_buff) : list sk_buff :=
  take (length q - 1) q ++ [s].

(** [if (parsed < skb->len) nskb = ss_skb_split(skb, parsed)]: [None] is a
    failed allocation, [Some nskb] the rest, if there is one. *)
Definition split_parsed (skb : sk_buff) (parsed : Z) : SM Conn (option (option sk_buff)) :=
  if parsed <? skb_len skb then
    k <~ sm_get ;;
    sm_mod (set_k_nskb (S (k_nskb k))) ;;;
    match ss_skb_split (env_split (k_nskb k)) skb parsed with
    | (_, None) => sm_ret None
    | (skb', Some nskb) =>
        sm_mod (fun k => set_k_skb_head (replace_last (k_skb_head k) skb') k) ;;;
        sm_ret (Some (Some nskb))
    end
  else sm_ret (Some None).

(** How the handling of the received part ends: [return r], [goto out], or on
    to the re-initialisation of the context. *)
Inductive pass_up : Type :=
| UpReturn (r : Z)
| UpOut (r : Z)
| UpNext (r : Z).

(** The [if (APP_FRAME(h2)) ... else ...] block. *)
Definition pass_upstairs (r : Z) : SM Conn pass_up :=
  c <~ conn_ctx ;;
  if APP_FRAME c then
    k <~ sm_get ;;
    let '(q, off) := drop_service_skbs (k_skb_head k) (c_data_off c) in
    sm_mod (set_k_skb_head q) ;;;
    mod_conn_ctx (set_c_data_off off) ;;;
    match q with
    | [] => sm_ret (UpReturn T_OK)
    | skb :: _ =>
        match ss_skb_chop_head_tail env_split_pgfrag_middle off 0 skb with
        | Bug => sm_bug
        | Ok (e, skb') =>
            if negb (e =? 0) then sm_ret (UpOut T_DROP)
            else
              mod_conn_ctx (set_c_data_off 0) ;;;
              sm_mod (set_k_skb_head []) ;;;
              c <~ conn_ctx ;;
              sm_mod (fun k => set_k_up (k_up k ++ [(c_cur_stream c, skb_bytes skb')]) k) ;;;
              r <~ lift (tfw_http_msg_process_generic (c_cur_stream c) skb') ;;
              if r =? T_DROP then sm_ret (UpOut r) else sm_ret (UpNext r)
        end
    end
  else sm_mod (set_k_skb_head []) ;;; sm_ret (UpNext r).

Definition out (r : Z) : SM Conn Z := sm_mod (set_k_skb_head []) ;;; sm_ret r.

(** The jumps to [next_msg]; each follows the reading of at least one byte. *)
Fixpoint frame_process_loop (fuel : nat) (skb : sk_buff) : SM Conn Z :=
  match fuel with
  | O => sm_bug
  | S fuel' =>
      sm_mod (fun k => set_k_skb_head (k_skb_head k ++ [skb]) k) ;;;
      rp <~ ss_skb_process (fun data => lift (tfw_h2_frame_recv data)) skb ;;
      let '(r, parsed) := (rp : Z * Z) in
      c <~ conn_ctx ;;
      let postponed := r =? T_POSTPONE in
      if postponed && negb (APP_FRAME c) then sm_ret T_OK
      else if postponed || (r =? T_OK) then
        o <~ split_parsed skb parsed ;;
        match o with
        | None => out T_DROP
        | Some nskb =>
            u <~ pass_upstairs r ;;
            match u with
            | UpReturn r => sm_ret r
            | UpOut r => out r
            | UpNext r =>
                tfw_h2_context_reinit postponed ;;;
                match nskb with
                | Some skb' => frame_process_loop fuel' skb'
                | None => out r
                end
            end
        end
      else out r
  end.

Definition tfw_h2_frame_process (skb : sk_buff) : SM Conn Z :=
  frame_process_loop (S (length (skb_bytes skb))) skb.

End process.

(** ** Safety *)

(** What the HTTP layer may change, and what it leaves alone. *)
Definition api_ok (w w' : World) : Prop :=
  core w' /\ same_recv (w_ctx w) (w_ctx w') /\ closed_le w w' /\
  c_cur_stream (w_ctx w') = c_cur_stream (w_ctx w) /\
  c_lstream_id (w_ctx w') = c_lstream_id (w_ctx w).

Section api_safety.
Context `{RbLib} `{Env}.

Lemma api_ok_heap (w w' : World) :
  core w' -> w_ctx w' = w_ctx w -> w_heap w' = w_heap w -> api_ok w w'.
Proof.
  intros HC Hc Hh. unfold api_ok. rewrite Hc. split_and!; try done.
  apply closed_le_heap; [by rewrite Hc | done].
Qed.

Lemma api_step_ok w w' : core w -> api_step w w' -> api_ok w w'.
Proof.
  intros HC Hstep. destruct Hstep as [p s r Hp Hm Hr|r q Hr|r q type flags id w' Hr Hf Hcl
    |r q Hr Hs|tx n].
  - split_and!; try done; [by apply (core_link HC) |]. split; [done |].
    intros x s' Hx. simpl in Hx. apply lookup_insert_Some in Hx as [[<- <-]|[_ Hx]]; left; [| eauto].
    exists s. by split_and!.
  - apply api_ok_heap; [| done | done]. by apply (core_put_req HC r q).
  - pose proof (wp_stream_id_close r q type flags w HC Hr Hf) as Hwp.
    unfold wp in Hwp. rewrite Hcl in Hwp. destruct Hwp as (? & ? & ? & ? & ? & _). by split_and!.
  - apply api_ok_heap; [| done | done]. by apply (core_free_req HC r q).
  - by apply api_ok_heap.
Qed.

Lemma api_ok_trans w1 w2 w3 : api_ok w1 w2 -> api_ok w2 w3 -> api_ok w1 w3.
Proof.
  intros (C2 & S2 & L2 & K2 & I2) (C3 & S3 & L3 & K3 & I3).
  split_and!; [done | by etrans | by etrans | congruence | congruence].
Qed.

Lemma api_steps_ok w w' : core w -> rtc api_step w w' -> api_ok w w'.
Proof.
  intros HC Hr. induction Hr as [w|w1 w2 w3 H12 H23 IH]; [by apply api_ok_heap |].
  pose proof (api_step_ok _ _ HC H12) as Hok. eapply api_ok_trans; [done |]. apply IH, Hok.
Qed.

Lemma recv_inv_api w w' : recv_inv w -> api_ok w w' -> recv_inv w'.
Proof.
  intros (HC & Hb & (Hpos & Hc & Hl) & Hrl) (HC' & Hsr & Hle & Hcur & Hlid).
  pose proof (same_recv_rbuf _ _ Hsr Hb) as Hb'.
  destruct Hsr as (Hpri & Hhdr & _ & Hst & Htr & Hrl' & _).
  assert (Hfs : forall st, fs_read st (w_ctx w') = fs_read st (w_ctx w))
    by (intros st; destruct st; simpl; congruence).
  assert (Hfc : fs_cond (c_state (w_ctx w)) (w_ctx w')).
  { destruct (c_state (w_ctx w)); simpl in *; unfold settings_left, new_id_ok in *;
      rewrite ?Htr, ?Hhdr, ?Hcur, ?Hlid; done. }
  split; [done |]. split; [done |]. unfold ready. rewrite Hst, Hfs, Hrl'. split; [| done].
  split; [done |]. split; [done |]. unfold live_at in *. rewrite Hcur.
  by eapply live_except_le.
Qed.

Lemma tracked_api n w w' :
  api_ok w w' -> tracked n (c_state (w_ctx w)) (w_ctx w) ->
  tracked n (c_state (w_ctx w')) (w_ctx w').
Proof.
  intros (_ & (_ & _ & _ & Hst & _ & Hrl & _ & _ & Hd & _) & _). rewrite Hst.
  by destruct (c_state (w_ctx w)); simpl; rewrite ?Hrl, ?Hd.
Qed.

End api_safety.

(** The promise of the HTTP layer: on a sane connection with a stored stream
    [tfw_http_req_process()] returns, and acts only through the interface. *)
Class UpperOk `{Upper} : Prop :=
  req_process_api (p : ptr) (skb : sk_buff) (w : World) :
    core w -> is_Some (w_heap w !! p) ->
    wp (tfw_http_req_process p skb) (fun _ w' => rtc api_step w w') w.

Definition queue_len (q : list sk_buff) : Z := zlen (concat (map skb_bytes q)).

(** The invariant of a connection between two calls of [tfw_h2_frame_process()]. *)
Definition conn_inv (k : Conn) : Prop :=
  let c := w_ctx (k_world k) in
  recv_inv (k_world k) /\ tracked (queue_len (k_skb_head k)) (c_state c) c.

Section process_safety.
Context `{UpperOk} `{SkbSplitOk}.

Lemma wp_lift {A} (m : H2 A) (Q : A -> Conn -> Prop) k :
  wp m (fun a w => Q a (set_k_world w k)) (k_world k) -> wp (lift m) Q k.
Proof. unfold wp, lift. by destruct (m (k_world k)) as [[a w]|]. Qed.

Lemma wp_conn_ctx (Q : TfwH2Ctx -> Conn -> Prop) k :
  Q (w_ctx (k_world k)) k -> wp conn_ctx Q k.
Proof. by destruct k. Qed.

Lemma wp_mod_conn_ctx f (Q : unit -> Conn -> Prop) k :
  Q tt (set_k_world (set_w_ctx (f (w_ctx (k_world k))) (k_world k)) k) -> wp (mod_conn_ctx f) Q k.
Proof. done. Qed.

(** What the frame layer leaves after reading [p] more bytes of a frame of which
    [n] were queued before. *)
Definition read_post (n total : Z) (k : Conn) (out : Z * Z) (k' : Conn) : Prop :=
  let '(r, p) := out in
  let w := k_world k' in let c := w_ctx w in
  k' = set_k_world w k /\ core w /\ rbuf_ok c /\ 0 <= p <= total /\
  (r = T_POSTPONE /\ p = total /\ recv_inv w /\ tracked (n + p) (c_state c) c
   \/ r = T_OK /\ 0 < p /\ live_except None w /\ c_rlen c = 0 /\
      (app_state (c_state c) = true -> 0 <= c_data_off c <= 15 /\ c_data_off c < n + p)
   \/ r = T_DROP).

Lemma wp_chunks chunks : forall n r0 done k,
  Forall bytes_ok chunks -> chunks <> [] \/ r0 = T_POSTPONE ->
  recv_inv (k_world k) ->
  tracked (n + done) (c_state (w_ctx (k_world k))) (w_ctx (k_world k)) -> 0 <= done ->
  wp (process_chunks (fun data => lift (tfw_h2_frame_recv data)) r0 done chunks)
     (read_post n (done + zlen (concat chunks)) k) k.
Proof.
  induction chunks as [|ch rest IH]; intros n r0 done k Hok Hr0 HI Ht Hd.
  { apply wp_ret. destruct Hr0 as [?| ->]; [done |]. pose proof HI as (HC & Hb & _).
    unfold zlen. simpl. split; [by destruct k |]. split; [done |]. split; [done |]. split; [lia |].
    left. split_and!; [done | lia | done | done]. }
  apply Forall_cons in Hok as [Hch Hrest]. simpl. apply wp_bind, wp_lift.
  eapply wp_mono; [by apply (wp_frame_recv_track (n + done)) |].
  intros [r off] w' [(HC & Hb & Hoff & Hcase) [Ht1 Ht2]]. rewrite zlen_app.
  pose proof (zlen_nonneg (concat rest)).
  destruct Hcase as [(-> & -> & HI')|[(-> & Hpos & Hl & Hz)| -> ]].
  - simpl. specialize (Ht1 eq_refl).
    eapply wp_mono; [apply (IH n T_POSTPONE (done + zlen ch)); auto; try lia |].
    { by rewrite Z.add_assoc. }
    intros [r p] k' (Hk & ? & ? & ? & Hc). split; [done |]. split; [done |]. split; [done |].
    replace (done + (zlen ch + zlen (concat rest))) with (done + zlen ch + zlen (concat rest)) by lia.
    done.
  - apply wp_ret. split; [done |]. split; [done |]. split; [done |]. split; [lia |].
    right. left. split; [done |]. split; [lia |]. split; [done |]. split; [done |].
    rewrite Z.add_assoc. by apply Ht2.
  - apply wp_ret. split; [done |]. split; [done |]. split; [done |]. split; [lia |]. by right; right.
Qed.

Lemma skb_chunks_bytes s : concat (skb_chunks s) = skb_bytes s.
Proof.
  unfold skb_chunks, skb_bytes, skb_headlen. rewrite concat_app.
  destruct (Z.ltb_spec 0 (zlen (skb_linear s))); simpl; [by rewrite app_nil_r |].
  destruct (skb_linear s); [done |]. unfold zlen in *. simpl in *. lia.
Qed.

Lemma skb_chunks_ok s : bytes_ok (skb_bytes s) -> Forall bytes_ok (skb_chunks s).
Proof.
  unfold skb_chunks, skb_bytes. intros Hb. apply Forall_app in Hb as [Hl Hf]. apply Forall_app.
  split; [destruct (_ <? _); repeat constructor; done |].
  revert Hf. induction (skb_frags s) as [|f fs IH]; [done |]. simpl. intros Hf.
  apply Forall_app in Hf as [? ?]. constructor; auto.
Qed.

Lemma wp_skb_process n skb k :
  bytes_ok (skb_bytes skb) -> skb_len skb <> 0 -> recv_inv (k_world k) ->
  tracked n (c_state (w_ctx (k_world k))) (w_ctx (k_world k)) ->
  wp (ss_skb_process (fun data => lift (tfw_h2_frame_recv data)) skb)
     (read_post n (skb_len skb) k) k.
Proof.
  intros Hb Hne HI Ht. unfold ss_skb_process. rewrite (proj2 (Z.eqb_neq _ _) Hne).
  unfold skb_len in *. rewrite <- skb_chunks_bytes.
  apply (wp_chunks _ n T_OK 0); [by apply skb_chunks_ok | | done | by rewrite Z.add_0_r | done].
  left. intros E. apply Hne. by rewrite <- skb_chunks_bytes, E.
Qed.

(** The HTTP layer is entered with a stored stream or with none. *)
Lemma wp_msg_generic o skb w :
  core w -> (forall p, o = Some p -> is_Some (w_heap w !! p)) ->
  wp (tfw_http_msg_process_generic o skb) (fun _ w' => api_ok w w') w.
Proof.
  intros HC Ho. destruct o as [p|]; [| by apply wp_ret, api_ok_heap].
  destruct (Ho p eq_refl) as [s Hs]. apply wp_bind, (wp_get_stream p s); [done |].
  destruct (s_msg s) as [r|] eqn:Hm.
  { eapply wp_mono; [apply req_process_api; eauto |]. intros r' w'. by apply api_steps_ok. }
  unfold tfw_http_conn_msg_alloc. apply wp_bind, wp_bind, wp_get.
  destruct (env_msg_alloc (dom (w_reqs w))) as [r|] eqn:Ha;
    [| by apply wp_ret, wp_ret, api_ok_heap].
  apply env_msg_alloc_fresh, not_elem_of_dom in Ha.
  apply wp_bind, wp_mod, wp_ret, wp_bind, (wp_get_stream p s); [done |].
  apply wp_bind, wp_put_stream. set (w1 := set_w_heap _ _).
  assert (Hstep : api_step w w1) by (by apply (api_link w p s r)).
  pose proof (api_step_ok _ _ HC Hstep) as Hok.
  eapply wp_mono; [apply req_process_api; [apply Hok | simpl; rewrite lookup_insert_eq; eauto] |].
  intros r' w' Hr. eapply api_ok_trans; [done |]. apply api_steps_ok; [apply Hok | done].
Qed.

Lemma queue_len_cons s q : queue_len (s :: q) = skb_len s + queue_len q.
Proof. unfold queue_len, skb_len. simpl. by rewrite zlen_app. Qed.

Lemma queue_len_app q q' : queue_len (q ++ q') = queue_len q + queue_len q'.
Proof. unfold queue_len. by rewrite map_app, concat_app, zlen_app. Qed.

(** The queue still starts with payload after its service part is dropped. *)
Lemma drop_service_spec q : forall d q' d',
  0 <= d <= 255 -> d <= queue_len q -> drop_service_skbs q d = (q', d') ->
  match q' with
  | [] => d = queue_len q /\ d' = 0
  | s :: _ => 0 <= d' < skb_len s
  end.
Proof.
  induction q as [|s q IH]; intros d q' d' Hd Hle; simpl.
  { intros [= <- <-]. unfold queue_len, zlen in *. simpl in *. lia. }
  rewrite queue_len_cons in Hle. pose proof (zlen_nonneg (skb_bytes s)) as Hs.
  fold (skb_len s) in Hs. destruct (Z.leb_spec (skb_len s) d).
  - unfold u8. rewrite Z.mod_small by lia. intros E. apply IH in E; [| lia | lia].
    destruct q'; [| done]. rewrite queue_len_cons. lia.
  - intros [= <- <-]. lia.
Qed.

(** What reaches the re-initialisation of the context. *)
Definition up_next (postponed : bool) (k : Conn) : Prop :=
  let w := k_world k in
  k_skb_head k = [] /\ rbuf_ok (w_ctx w) /\
  (app_state (c_state (w_ctx w)) = true -> c_data_off (w_ctx w) = 0) /\
  if postponed then recv_inv w /\ app_state (c_state (w_ctx w)) = true
  else live_except None w /\ c_rlen (w_ctx w) = 0.

Lemma up_next_api postponed (k : Conn) w' :
  up_next postponed k -> api_ok (k_world k) w' -> up_next postponed (set_k_world w' k).
Proof.
  intros (Hq & Hb & Hd & Hp) Hok. pose proof Hok as (_ & Hsr & Hle & _).
  pose proof (same_recv_rbuf _ _ Hsr Hb) as Hb'.
  destruct Hsr as (_ & _ & _ & Hst & _ & Hrl & _ & _ & Hdo & _).
  unfold up_next. simpl. rewrite Hst, Hdo, Hrl. split_and!; try done.
  destruct postponed; destruct Hp as [Hp1 Hp2]; split; try done.
  - by eapply recv_inv_api.
  - by eapply live_except_le.
Qed.

Lemma set_data_off_inv d w : recv_inv w -> recv_inv (set_w_ctx (set_c_data_off d (w_ctx w)) w).
Proof. intros (HC & Hb & Hr & Hrl). split; [exact HC |]. split; [exact Hb |]. by split. Qed.

Lemma wp_pass_upstairs r k :
  let w := k_world k in let c := w_ctx w in let postponed := r =? T_POSTPONE in
  core w -> rbuf_ok c -> r <> T_DROP ->
  (if postponed then recv_inv w /\ app_state (c_state c) = true
   else live_except None w /\ c_rlen c = 0) ->
  (app_state (c_state c) = true -> 0 <= c_data_off c <= 15 /\
     c_data_off c <= queue_len (k_skb_head k) /\
     (postponed = false -> c_data_off c < queue_len (k_skb_head k))) ->
  wp (pass_upstairs r)
     (fun u k' => core (k_world k') /\
        match u with
        | UpReturn r' => r' = T_OK /\ conn_inv k'
        | UpOut r' => r' = T_DROP
        | UpNext r' => up_next postponed k' /\ r' <> T_DROP
        end) k.
Proof.
  intros w c postponed HC Hb Hr Hp Happ. unfold pass_upstairs, APP_FRAME.
  apply wp_bind, wp_conn_ctx. fold w c. wp_step.
  2: { apply wp_bind, wp_mod, wp_ret. split; [exact HC |]. split; [| done].
       split; [done |]. split; [done |].
       split; [| destruct postponed; [by destruct Hp | exact Hp]].
       intros Ht. change (app_state (c_state c) = true) in Ht. congruence. }
  apply wp_bind, wp_get. destruct (Happ ltac:(done)) as (Hd & Hq & Hlt).
  destruct (drop_service_skbs _ _) as [q off] eqn:E.
  assert (Hd255 : 0 <= c_data_off c <= 255) by lia.
  pose proof (drop_service_spec _ _ _ _ Hd255 Hq E) as Hdrop.
  apply wp_bind, wp_mod, wp_bind, wp_mod_conn_ctx. simpl. fold w c.
  destruct q as [|skb q].
  { apply wp_ret. destruct Hdrop as [Hdq ->]. split; [exact HC |]. split; [done |].
    destruct postponed; [| specialize (Hlt eq_refl); lia]. destruct Hp as [HI Hst].
    split; [by apply set_data_off_inv |]. simpl. fold w c. unfold queue_len, zlen. simpl.
    destruct (c_state c); simpl in *; try discriminate; lia. }
  destruct (ss_skb_chop_correct env_split_pgfrag_middle skb off 0) as (e & skb' & -> & _ & Hchop);
    [lia | lia |].
  destruct Hchop as [-> _]; [lia |]. simpl.
  apply wp_bind, wp_mod_conn_ctx, wp_bind, wp_mod, wp_bind, wp_conn_ctx, wp_bind, wp_mod, wp_bind,
    wp_lift. simpl. fold w c. match goal with |- wp _ _ ?v => set (w1 := v) end.
  set (k1 := set_k_up _ _).
  eapply wp_mono.
  { apply (wp_msg_generic _ _ w1); [exact HC |]. apply (core_cur _ _ _ _ _ _ _ _ _ _ _ _ HC). }
  intros r' w' Hok. wp_step; bool_hyps; apply wp_ret; (split; [apply Hok | simpl]); [done |].
  split; [| done]. apply (up_next_api postponed k1); [| done].
  split; [done |]. split; [exact Hb |]. split; [done |].
  destruct postponed; [| exact Hp]. destruct Hp as [HI Hst]. split; [| done].
  exact (set_data_off_inv 0 _ (set_data_off_inv off w HI)).
Qed.

Lemma wp_reinit postponed k :
  core (k_world k) -> up_next postponed k ->
  wp (tfw_h2_context_reinit postponed)
     (fun _ k' => core (k_world k') /\ conn_inv k' /\ k_skb_head k' = []) k.
Proof.
  intros HC (Hq & Hb & Hd & Hp). unfold tfw_h2_context_reinit, APP_FRAME.
  apply wp_bind, wp_conn_ctx. destruct postponed; simpl.
  { destruct Hp as [HI Hst]. rewrite Hst. simpl. apply wp_ret. split_and!; [done | | done].
    split; [done |]. rewrite Hq. unfold queue_len, zlen. simpl. specialize (Hd Hst).
    destruct (c_state _); simpl in *; try discriminate; lia. }
  destruct Hp as [Hl Hz]. wp_step; bool_hyps.
  { apply wp_bind, wp_mod, wp_mod_conn_ctx.
    assert (HC' : core (set_w_ctx (ctx_bzero (w_ctx (k_world k))) (k_world k)))
      by (by apply (core_set_cur HC)).
    split; [exact HC' |]. split; [| done]. split; [| done].
    split; [exact HC' |]. split; [| split; [| done]].
    - split; [done |]. split; [by repeat constructor | done].
    - split; [done |]. by split. }
  wp_step; bool_hyps; [| congruence]. apply wp_mod_conn_ctx. split; [exact HC |].
  destruct Hb as (Hb1 & Hb2 & Hb3). split; [| done]. split; [| done].
  split; [exact HC |]. split; [by split_and! |].
  unfold is_u8 in Hb3. simpl. rewrite Hz.
  match goal with Hne : c_padlen _ <> 0 |- _ => split; [split; [simpl; lia | by split] | simpl; lia] end.
Qed.

Lemma set_skb_head_id k : k_skb_head k = [] -> set_k_skb_head [] k = k.
Proof. destruct k. simpl. by intros ->. Qed.

(** The rest of the skb is cut off; the queue then ends with the parsed part. *)
Lemma wp_split_parsed skb parsed q k :
  0 < parsed <= skb_len skb -> k_skb_head k = q ++ [skb] -> bytes_ok (skb_bytes skb) ->
  wp (split_parsed skb parsed)
     (fun o k' => k_world k' = k_world k /\
        match o with
        | None => True
        | Some nskb =>
            queue_len (k_skb_head k') = queue_len q + parsed /\
            match nskb with
            | None => True
            | Some s => skb_len s = skb_len skb - parsed /\ 0 < skb_len s /\ bytes_ok (skb_bytes s)
            end
        end) k.
Proof.
  intros Hp Hq Hb. unfold split_parsed. wp_step; bool_hyps.
  - apply wp_bind, wp_get, wp_bind, wp_mod.
    pose proof (ss_skb_split_correct (env_split (k_nskb k)) skb parsed ltac:(lia)) as Hs.
    destruct (ss_skb_split _ _ _) as [a [b|]]; [| by apply wp_ret].
    destruct Hs as (_ & Ha & Hb'). apply wp_bind, wp_mod, wp_ret. split; [done |].
    unfold skb_len in *. rewrite Hb', zlen_drop by lia. split; [| split_and!; [done | lia |]].
    + simpl. unfold replace_last. rewrite Hq, length_app. simpl.
      rewrite Nat.add_sub, take_app_length, queue_len_app. f_equal.
      unfold queue_len. simpl. rewrite app_nil_r, Ha, zlen_take; lia.
    + by apply Forall_drop.
  - apply wp_ret. split; [done |]. split; [| done].
    rewrite Hq, queue_len_app. unfold queue_len at 2. simpl. rewrite app_nil_r.
    fold (skb_len skb). lia.
Qed.

Definition process_post (r : Z) (k : Conn) : Prop :=
  core (k_world k) /\ (r <> T_DROP -> conn_inv k).

Lemma wp_out_drop k : core (k_world k) -> wp (out T_DROP) process_post k.
Proof. intros HC. apply wp_bind, wp_mod, wp_ret. by split. Qed.

(** From the split on: [k0] is the connection after the reading. *)
Lemma wp_process_rest (more : sk_buff -> SM Conn Z) r skb parsed q k :
  let w := k_world k in let c := w_ctx w in let postponed := r =? T_POSTPONE in
  k_skb_head k = q ++ [skb] -> bytes_ok (skb_bytes skb) -> 0 < parsed <= skb_len skb ->
  core w -> rbuf_ok c -> r <> T_DROP ->
  (if postponed then recv_inv w /\ app_state (c_state c) = true
   else live_except None w /\ c_rlen c = 0) ->
  (app_state (c_state c) = true -> 0 <= c_data_off c <= 15 /\
     c_data_off c <= queue_len q + parsed /\
     (postponed = false -> c_data_off c < queue_len q + parsed)) ->
  (forall s k', skb_len s = skb_len skb - parsed -> 0 < skb_len s -> bytes_ok (skb_bytes s) ->
     conn_inv k' -> wp (more s) process_post k') ->
  wp (o <~ split_parsed skb parsed ;;
      match o with
      | None => out T_DROP
      | Some nskb =>
          u <~ pass_upstairs r ;;
          match u with
          | UpReturn r => sm_ret r
          | UpOut r => out r
          | UpNext r =>
              tfw_h2_context_reinit postponed ;;;
              match nskb with
              | Some skb' => more skb'
              | None => out r
              end
          end
      end) process_post k.
Proof.
  intros w c postponed Hq Hbs Hp HC Hb Hr Hst Happ Hmore. apply wp_bind.
  eapply wp_mono; [by apply (wp_split_parsed skb parsed q) |].
  intros [nskb|] k1 [Hw Hk1]; [| apply wp_out_drop; by rewrite Hw].
  destruct Hk1 as [Hlen Hn]. apply wp_bind.
  eapply wp_mono; [apply wp_pass_upstairs; rewrite ?Hw, ?Hlen; done |].
  intros u k2 [HC2 Hu]. destruct u as [r'|r'|r'].
  - destruct Hu as [-> HI]. apply wp_ret. by split.
  - subst r'. by apply wp_out_drop.
  - destruct Hu as [Hup Hr']. apply wp_bind. eapply wp_mono; [by apply wp_reinit |].
    intros _ k3 (HC3 & HI3 & Hq3). destruct nskb as [s|].
    + destruct Hn as (? & ? & ?). by apply Hmore.
    + apply wp_bind, wp_mod, wp_ret. rewrite set_skb_head_id by done. by split.
Qed.

Lemma wp_process_loop fuel : forall skb k,
  bytes_ok (skb_bytes skb) -> 0 < skb_len skb < Z.of_nat fuel -> conn_inv k ->
  wp (frame_process_loop fuel skb) process_post k.
Proof.
  induction fuel as [|fuel IH]; intros skb k Hbs Hlen [HI Ht]; [lia |].
  simpl. apply wp_bind, wp_mod, wp_bind.
  eapply wp_mono.
  { apply (wp_skb_process (queue_len (k_skb_head k))); try done. lia. }
  intros [r p] k1 (Hk1 & HC & Hb & Hp & Hcase). apply wp_bind, wp_conn_ctx. unfold APP_FRAME.
  assert (Hq1 : k_skb_head k1 = k_skb_head k ++ [skb]) by (by rewrite Hk1).
  assert (Hmore : forall s k', skb_len s = skb_len skb - p -> 0 < p -> 0 < skb_len s ->
    bytes_ok (skb_bytes s) -> conn_inv k' -> wp (frame_process_loop fuel s) process_post k')
    by (intros s k' ? ? ? ? ?; apply IH; [done | lia | done]).
  destruct Hcase as [(-> & -> & HI1 & Ht1)|[(-> & Hpos & Hl & Hz & Happ)| -> ]]; simpl.
  - destruct (app_state (c_state (w_ctx (k_world k1)))) eqn:Hst; simpl.
    + apply (wp_process_rest _ T_POSTPONE _ _ (k_skb_head k)); try done; [lia | |].
      * intros _. revert Hst Ht1. clear.
        destruct (c_state (w_ctx (k_world k1))); simpl; try discriminate; intros _ [? ?];
          (split; [done |]; split; [lia | done]).
      * intros. apply Hmore; try done. lia.
    + apply wp_ret. split; [done |]. intros _. split; [done |].
      rewrite Hq1, queue_len_app. unfold queue_len at 2. simpl. rewrite app_nil_r. exact Ht1.
  - apply (wp_process_rest _ T_OK _ _ (k_skb_head k)); try done; [lia | |].
    + intros Hst. destruct (Happ Hst). split; [done |]. split; [lia | intros; lia].
    + intros. by apply Hmore.
  - by apply wp_out_drop.
Qed.

End process_safety.

(** ** Whole sessions *)

Section sessions.
Context `{UpperOk} `{SkbSplitOk}.

(** The life of a connection: skbs arrive, and in between the HTTP layer works
    on the requests, in any order. *)
Inductive conn_step (k : Conn) : Conn -> Prop :=
| step_recv skb r k' :
    bytes_ok (skb_bytes skb) -> 0 < skb_len skb ->
    tfw_h2_frame_process skb k = Ok (r, k') -> r <> T_DROP -> conn_step k k'
| step_api w' : api_step (k_world k) w' -> conn_step k (set_k_world w' k).

Lemma wp_frame_process skb k :
  bytes_ok (skb_bytes skb) -> 0 < skb_len skb -> conn_inv k ->
  wp (tfw_h2_frame_process skb) process_post k.
Proof. intros Hb Hl HI. apply wp_process_loop; [done | | done]. unfold skb_len, zlen in *. lia. Qed.

Lemma conn_step_inv k k' : conn_inv k -> conn_step k k' -> conn_inv k'.
Proof.
  intros HI Hs. destruct Hs as [skb r k' Hb Hl Hr Hne|w' Hs].
  - pose proof (wp_frame_process skb k Hb Hl HI) as Hwp. unfold wp in Hwp. rewrite Hr in Hwp.
    by apply Hwp.
  - destruct HI as [HI Ht]. pose proof HI as [HC _]. pose proof (api_step_ok _ _ HC Hs) as Hok.
    split; [by eapply recv_inv_api | by eapply tracked_api].
Qed.

Lemma conn_steps_inv k k' : conn_inv k -> rtc conn_step k k' -> conn_inv k'.
Proof. intros HI Hr. induction Hr; eauto using conn_step_inv. Qed.
End sessions.

Definition init_conn : Conn := MkConn init_world [] [] 0.

Lemma recv_inv_init : recv_inv init_world.
Proof.
  split; [exact core_init |]. split; [split_and!; [done | by repeat constructor | done] |].
  split; [| done]. split; [done |]. split; [done |]. split; [done |].
  intros p s Hp. simpl in Hp. by rewrite lookup_empty in Hp.
Qed.

Lemma conn_inv_init : conn_inv init_conn.
Proof. by split; [apply recv_inv_init |]. Qed.

Section session_properties.
Context `{UpperOk} `{SkbSplitOk}.

(** C1: The frame layer is safe above any HTTP layer that keeps its interface ([UpperOk]: the handlers of the
    HTTP layer return, without a [BUG()] of their own, and touch streams and requests only through the
    functions of [api_step]).  From the initial state of a connection, whatever skbs arrive
    (any bytes, cut into linear data and fragments in any way), whichever
    transmissions and allocations fail, and however such an HTTP layer interleaves
    its calls, [tfw_h2_frame_process()] returns on the next skb: it hits no
    [BUG()] or failed [BUG_ON], dereferences no freed stream or request, does
    not loop, and keeps the connection invariant [core] (every stored stream is
    in the tree exactly once, sorted by identifier; the counters of streams and
    of closed streams are exact; streams and requests point at each other;
    windows stay in range; identifiers are odd and bounded by [lstream_id]).
    Unless it drops the connection, the next skb can be processed too.  The real HTTP layer calls the
    HPACK decoder, which breaks [UpperOk] for an empty Huffman-coded value (see HpackSpec); the table of
    the HPACK encoder, which a SETTINGS frame resizes, is not part of the state. *)
Theorem h2_session_safe (k : Conn) (skb : sk_buff) :
  rtc conn_step init_conn k -> bytes_ok (skb_bytes skb) -> 0 < skb_len skb ->
  exists r k', tfw_h2_frame_process skb k = Ok (r, k') /\ core (k_world k') /\
    (r <> T_DROP -> conn_inv k').
Proof.
  intros Hr Hb Hl. apply wp_ok, wp_frame_process; [done | done |].
  by apply (conn_steps_inv init_conn); [apply conn_inv_init |].
Qed.

(** C2: one call of the reception FSM, from any state that the invariant
    allows and on any bytes, returns POSTPONE, OK or DROP.  POSTPONE means that
    all bytes were consumed and the state can be resumed; OK means progress, an
    empty accumulation buffer and no stream left in the CLOSED state.  The
    number of consumed bytes never exceeds the buffer. *)
Theorem h2_frame_recv_total (buf : bytes) (w : World) :
  bytes_ok buf -> recv_inv w ->
  exists r off w', tfw_h2_frame_recv buf w = Ok ((r, off), w') /\ core w' /\
    0 <= off <= zlen buf /\
    (r = T_POSTPONE /\ off = zlen buf /\ recv_inv w'
     \/ r = T_OK /\ 0 < off /\ live_except None w' /\ c_rlen (w_ctx w') = 0
     \/ r = T_DROP).
Proof.
  intros Hb HI. destruct (wp_ok _ _ _ (wp_frame_recv buf w Hb HI)) as ([r off] & w' & E & Hp).
  destruct Hp as (HC & _ & Hoff & Hc). by exists r, off, w'.
Qed.

End session_properties.

(** A HTTP layer that takes the data and does nothing. *)
#[export, refine] Instance quiet_upper : Upper := {|
  env_split _ := true;
  env_split_pgfrag_middle _ _ _ := sm_ret (- EFAULT);
  env_msg_alloc X := Some (fresh_addr X);
  tfw_http_req_process _ _ := sm_ret T_OK;
|}.
Proof. intros X p [= <-]. apply is_fresh. Defined.

#[export] Instance quiet_upper_ok : UpperOk.
Proof. intros p skb w _ _. apply wp_ret. constructor. Qed.

(** The connection preface, an empty SETTINGS frame and a HEADERS frame with
    END_STREAM and END_HEADERS, cut in the middle of the magic. *)
Definition session_skb : sk_buff :=
  MkSkb (take 10 FRAME_PREFACE_CLI_MAGIC)
    [drop 10 FRAME_PREFACE_CLI_MAGIC ++ [0; 0; 0; 4; 0; 0; 0; 0; 0];
     [0; 0; 1; 1; 5; 0; 0; 0; 1; 0x82]].

Lemma h2_session_safe_witness :
  exists r k', tfw_h2_frame_process session_skb init_conn = Ok (r, k') /\ core (k_world k') /\
    (r <> T_DROP -> conn_inv k').
Proof.
  apply (h2_session_safe init_conn session_skb).
  - constructor.
  - apply bytes_okb. reflexivity.
  - reflexivity.
Defined.

Lemma h2_frame_recv_total_witness :
  exists r off w', tfw_h2_frame_recv [80; 82; 73] init_world = Ok ((r, off), w') /\ core w' /\
    0 <= off <= 3 /\
    (r = T_POSTPONE /\ off = 3 /\ recv_inv w'
     \/ r = T_OK /\ 0 < off /\ live_except None w' /\ c_rlen (w_ctx w') = 0
     \/ r = T_DROP).
Proof.
  apply (h2_frame_recv_total [80; 82; 73] init_world).
  - apply bytes_okb. reflexivity.
  - exact recv_inv_init.
Defined.

(** The session above opens stream 1, half-closes it and passes the header
    block upstairs. *)
Example session_run :
  match tfw_h2_frame_process session_skb init_conn with
  | Ok (r, k) =>
      r = T_OK /\ c_state (w_ctx (k_world k)) = HTTP2_RECV_FRAME_HEADER /\
      map snd (k_up k) = [[0x82]] /\ c_lstream_id (w_ctx (k_world k)) = 1 /\
      map (fun ps => (s_id (snd ps), s_state (snd ps))) (map_to_list (w_heap (k_world k)))
        = [(1, HTTP2_STREAM_REM_HALF_CLOSED)]
  | Bug => False
  end.
Proof. vm_compute. repeat split. Qed.
