(* ===== verification/HpackInt.v ===== *)
(** Variable-length integers of HPACK (RFC 7541 section 5.1): the encoder
    [write_int()] and [tfw_hpack_int_size()], and the macros [GET_FLEXIBLE] and
    [GET_CONTINUE] of the decoder ([fw/hpack.c], [fw/hpack.h]).

    Writing past an array, and shifting a 32-bit value by 32 or more bits, are
    [Bug]s. *)

From S2P Require Import Prelude.
Local Open Scope Z_scope.

(** ** Encoder *)

(** [DIV_ROUND_UP(sizeof(unsigned long), 7) + 1] *)
Definition HPACK_MAX_INT : Z := (8 + 7 - 1) / 7 + 1.

(** The [while (index > 0x7F)] loop and the final store; ten rounds empty any
    [unsigned long]. *)
Fixpoint write_int_tail (fuel : nat) (index : Z) : bytes :=
  match fuel with
  | O => []
  | S fuel' =>
      if 0x7F <? index
      then u8 (Z.lor (Z.land index 0x7F) 0x80) :: write_int_tail fuel' (Z.shiftr index 7)
      else [u8 index]
  end.

Definition write_int_bytes (index max mask : Z) : bytes :=
  if index <? max then [u8 (Z.lor index mask)]
  else u8 (Z.lor max mask) :: write_int_tail 10 (index - max).

(** [res_idx->buf] has HPACK_MAX_INT bytes. *)
Definition write_int (index max mask : Z) : outcome bytes :=
  let out := write_int_bytes index max mask in
  if HPACK_MAX_INT <? zlen out then Bug else Ok out.

Fixpoint int_size_loop (fuel : nat) (index size : Z) : Z :=
  match fuel with
  | O => size
  | S fuel' =>
      if 0x7F <? index then int_size_loop fuel' (Z.shiftr index 7) (size + 1) else size
  end.

Definition tfw_hpack_int_size (index max : Z) : Z :=
  if index <? max then 1 else int_size_loop 10 (index - max) 2.

(** ** Decoder *)

Definition HPACK_LIMIT : Z := 2 ^ 20.

(** How the reading of an integer ends: decoded, with the rest of the input;
    out of input, with the shift to resume at; or over the limit. *)
Inductive flex : Type :=
| FlexDone (x : Z) (src : bytes)
| FlexMore (x shift : Z)
| FlexDrop (x : Z) (src : bytes).

(** [(__c & 127) << __m] on [unsigned int]. *)
Definition flex_shift (c m : Z) : outcome Z :=
  if 32 <=? m then Bug else Ok (u32 (Z.shiftl (Z.land c 127) m)).

(** The body of [GET_FLEXIBLE]. *)
Fixpoint get_flexible (src : bytes) (x m : Z) : outcome flex :=
  match src with
  | [] => Ok (FlexMore x m)
  | c :: src' =>
      match flex_shift c m with
      | Bug => Bug
      | Ok d =>
          let x' := x + d in
          if HPACK_LIMIT <? x' then Ok (FlexDrop x' src')
          else if 127 <? c then get_flexible src' x' (m + 7)
          else Ok (FlexDone x' src')
      end
  end.

Definition GET_FLEXIBLE (src : bytes) (x : Z) : outcome flex := get_flexible src x 0.

(** The [while (__c > 127)] loop of [GET_CONTINUE]. *)
Fixpoint continue_loop (src : bytes) (x m : Z) : outcome flex :=
  match src with
  | [] => Ok (FlexMore x m)
  | c :: src' =>
      match flex_shift c m with
      | Bug => Bug
      | Ok d =>
          let x' := Z.lor d x in
          if HPACK_LIMIT <? x' then Ok (FlexDrop x' src')
          else if 127 <? c then continue_loop src' x' (m + 7)
          else Ok (FlexDone x' src')
      end
  end.

(** [GET_CONTINUE] reads its first byte without looking at the end. *)
Definition GET_CONTINUE (src : bytes) (x shift : Z) : outcome flex :=
  match src with
  | [] => Bug
  | c :: src' =>
      match flex_shift c shift with
      | Bug => Bug
      | Ok d =>
          let x' := x + d in
          if HPACK_LIMIT <? x' then Ok (FlexDrop x' src')
          else if 127 <? c then continue_loop src' x' (shift + 7)
          else Ok (FlexDone x' src')
      end
  end.

(** ** The integer representation of RFC 7541 *)

(** The value of a complete run of continuation bytes, and what follows it. *)
Fixpoint rfc_tail (src : bytes) : option (Z * bytes) :=
  match src with
  | [] => None
  | c :: src' =>
      if 127 <? c then
        match rfc_tail src' with
        | Some (v, rest) => Some (c mod 128 + 128 * v, rest)
        | None => None
        end
      else Some (c, src')
  end.

(** A whole integer with an [max]-valued prefix mask. *)
Definition rfc_int (max : Z) (src : bytes) : option (Z * bytes) :=
  match src with
  | [] => None
  | c :: src' =>
      if Z.land c max <? max then Some (Z.land c max, src')
      else match rfc_tail src' with
           | Some (v, rest) => Some (max + v, rest)
           | None => None
           end
  end.

(** The decoder's way to read an integer: the prefix, then [GET_FLEXIBLE]. *)
Definition hpack_get_int (max : Z) (src : bytes) : outcome flex :=
  match src with
  | [] => Ok (FlexMore 0 0)
  | c :: src' =>
      if Z.land c max =? max then GET_FLEXIBLE src' max else Ok (FlexDone (Z.land c max) src')
  end.

(** ** Lemmas *)

Lemma land127 c : Z.land c 127 = c mod 128.
Proof. change 127 with (Z.ones 7). by rewrite Z.land_ones. Qed.

Lemma low7_or index : Z.lor (Z.land index 0x7F) 0x80 = index mod 128 + 128.
Proof.
  rewrite land127. apply (lor_low_high _ 1 7); [lia |]. apply Z.mod_pos_bound. lia.
Qed.

Lemma write_tail_cons fuel index :
  0x7F < index ->
  write_int_tail (S fuel) index = (index mod 128 + 128) :: write_int_tail fuel (index / 128).
Proof.
  intros Hi. simpl. rewrite (proj2 (Z.ltb_lt _ _) Hi), low7_or, Z.shiftr_div_pow2 by lia.
  unfold u8. rewrite Z.mod_small; [done |].
  pose proof (Z.mod_pos_bound index 128). lia.
Qed.

Lemma write_tail_last fuel index : 0 <= index <= 0x7F -> write_int_tail (S fuel) index = [index].
Proof.
  intros Hi. simpl. rewrite (proj2 (Z.ltb_ge _ _)) by lia. unfold u8. by rewrite Z.mod_small by lia.
Qed.

Lemma get_flexible_step c src x m :
  0 <= m -> 0 <= c < 256 -> (c mod 128) * 2 ^ m < 2 ^ 32 -> m < 32 ->
  x + (c mod 128) * 2 ^ m <= HPACK_LIMIT ->
  get_flexible (c :: src) x m =
    if 127 <? c then get_flexible src (x + (c mod 128) * 2 ^ m) (m + 7)
    else Ok (FlexDone (x + (c mod 128) * 2 ^ m) src).
Proof.
  intros Hm Hc Hw Hm32 Hl. simpl. unfold flex_shift.
  rewrite (proj2 (Z.leb_gt _ _)) by done. rewrite land127, Z.shiftl_mul_pow2 by done.
  rewrite u32_small by (unfold is_u32; pose proof (Z.mod_pos_bound c 128); nia).
  by rewrite (proj2 (Z.ltb_ge _ _)) by done.
Qed.

(** The bytes written for [index] decode to [index] again, from any shift at
    which the value stays under the limit. *)
Lemma get_flexible_tail fuel : forall index x m rest,
  0 <= index < 128 ^ Z.of_nat (S fuel) -> 0 <= x -> 0 <= m < 32 ->
  x + index * 2 ^ m <= HPACK_LIMIT ->
  get_flexible (write_int_tail (S fuel) index ++ rest) x m =
    Ok (FlexDone (x + index * 2 ^ m) rest).
Proof.
  induction fuel as [|fuel IH]; intros index x m rest Hi Hx Hm Hlim;
    assert (Hp : 0 < 2 ^ m) by (apply Z.pow_pos_nonneg; lia);
    (destruct (Z.leb_spec index 0x7F);
     [rewrite write_tail_last by lia; simpl app; rewrite get_flexible_step;
      rewrite ?(Z.mod_small index 128) by lia; try lia;
      [by rewrite (proj2 (Z.ltb_ge _ _)) by lia | unfold HPACK_LIMIT in *; lia]
     | ]).
  { change (128 ^ Z.of_nat 1) with 128 in Hi. lia. }
  assert (Hdm := Z.div_mod index 128 ltac:(lia)).
  assert (Hmod := Z.mod_pos_bound index 128 ltac:(lia)).
  assert (Hd : 1 <= index / 128) by (apply Z.div_le_lower_bound; lia).
  assert (Hm7 : m < 25).
  { destruct (Z.ltb_spec m 25); [done |]. exfalso.
    assert (2 ^ 25 <= 2 ^ m) by (apply Z.pow_le_mono_r; lia). unfold HPACK_LIMIT in *. nia. }
  assert (H7 : 2 ^ (m + 7) = 128 * 2 ^ m) by (rewrite Z.pow_add_r by lia; lia).
  rewrite write_tail_cons, <- app_comm_cons by lia.
  assert (He : (index mod 128 + 128) mod 128 = index mod 128).
  { rewrite <- Z.add_mod_idemp_r by lia. rewrite Z.mod_same, Z.add_0_r, Z.mod_mod by lia. done. }
  rewrite get_flexible_step; rewrite ?He; [| lia | lia | | lia |].
  - rewrite (proj2 (Z.ltb_lt _ _)) by lia. rewrite IH; [| | nia | lia |].
    + do 2 f_equal. rewrite H7. nia.
    + split; [lia |]. apply Z.div_lt_upper_bound; [lia |].
      replace (Z.of_nat (S (S fuel))) with (Z.succ (Z.of_nat (S fuel))) in Hi by lia.
      rewrite Z.pow_succ_r in Hi by lia. lia.
    + rewrite H7. nia.
  - assert (2 ^ m <= 2 ^ 24) by (apply Z.pow_le_mono_r; lia). nia.
  - nia.
Qed.

(** ** Properties *)

Lemma prefix_byte N index mask :
  0 <= N <= 8 -> 0 <= index <= Z.ones N -> is_u8 mask -> Z.land mask (Z.ones N) = 0 ->
  u8 (Z.lor index mask) = Z.lor index mask /\ Z.land (Z.lor index mask) (Z.ones N) = index.
Proof.
  intros HN Hi Hm Hd. assert (Hp : 0 < 2 ^ N <= 2 ^ 8)
    by (split; [apply Z.pow_pos_nonneg; lia | apply Z.pow_le_mono_r; lia]).
  rewrite Z.ones_equiv in Hi. split.
  - unfold u8. apply Z.mod_small, lor_is_u8; [unfold is_u8; lia | done].
  - rewrite Z.land_lor_distr_l, Hd, Z.lor_0_r. apply land_ones_small; lia.
Qed.

Lemma int_size_tail fuel : forall index size,
  0 <= index < 128 ^ Z.of_nat (S fuel) ->
  int_size_loop (S fuel) index size = size - 1 + zlen (write_int_tail (S fuel) index).
Proof.
  induction fuel as [|fuel IH]; intros index size Hi; destruct (Z.leb_spec index 0x7F).
  1,3: rewrite write_tail_last by lia; simpl; rewrite (proj2 (Z.ltb_ge _ _)) by lia;
    unfold zlen; simpl; lia.
  { change (128 ^ Z.of_nat 1) with 128 in Hi. lia. }
  rewrite write_tail_cons by lia. remember (S fuel) as f eqn:Ef. simpl.
  rewrite (proj2 (Z.ltb_lt _ _)) by lia. rewrite Z.shiftr_div_pow2 by lia.
  change (2 ^ 7) with 128. subst f. rewrite IH.
  - unfold zlen. simpl length. lia.
  - split; [apply Z.div_pos; lia |]. apply Z.div_lt_upper_bound; [lia |].
    replace (Z.of_nat (S (S fuel))) with (Z.succ (Z.of_nat (S fuel))) in Hi by lia.
    rewrite Z.pow_succ_r in Hi by lia. lia.
Qed.

(** Two continuation bytes hold 14 bits. *)
Lemma write_tail_len index :
  0 <= index -> (zlen (write_int_tail 10 index) <= 2 <-> index < 2 ^ 14).
Proof.
  intros Hi. unfold zlen. destruct (Z.leb_spec index 0x7F).
  { rewrite write_tail_last by lia. simpl. lia. }
  rewrite write_tail_cons by lia. destruct (Z.leb_spec (index / 128) 0x7F) as [Hd|Hd].
  - rewrite write_tail_last by (split; [apply Z.div_pos; lia | lia]). simpl length.
    split; [intros _ | lia]. pose proof (Z.div_mod index 128 ltac:(lia)).
    pose proof (Z.mod_pos_bound index 128 ltac:(lia)). lia.
  - rewrite write_tail_cons by lia.
    assert (He : exists a l, write_int_tail 8 (index / 128 / 128) = a :: l)
      by (cbn [write_int_tail]; destruct (_ <? _); eauto).
    destruct He as (a & l & ->). simpl length. split; [lia |]. intros Hlt. exfalso.
    assert (index / 128 < 128) by (apply Z.div_lt_upper_bound; lia). lia.
Qed.

(** C25: an integer written by [write_int()] behind any prefix of 4
    to 7 bits is read back by the decoder exactly, and nothing after it is
    consumed.  This holds for every integer that [TfwHPackInt] has room for,
    and for none above: then the array is overrun.  [tfw_hpack_int_size()] is
    the number of bytes written. *)
Theorem hpack_int_roundtrip (N mask index : Z) (rest : bytes) :
  4 <= N <= 7 -> is_u8 mask -> Z.land mask (Z.ones N) = 0 -> is_u64 index ->
  let max := Z.ones N in
  tfw_hpack_int_size index max = zlen (write_int_bytes index max mask) /\
  (index < max + 2 ^ 14 ->
     write_int index max mask = Ok (write_int_bytes index max mask) /\
     hpack_get_int max (write_int_bytes index max mask ++ rest) = Ok (FlexDone index rest)) /\
  (max + 2 ^ 14 <= index -> write_int index max mask = Bug).
Proof.
  intros HN Hm Hd Hi max. unfold is_u64 in Hi.
  assert (Hmax : max = 2 ^ N - 1) by (unfold max; rewrite Z.ones_equiv; lia).
  assert (Hp : 2 ^ 4 <= 2 ^ N <= 2 ^ 7) by (split; apply Z.pow_le_mono_r; lia).
  destruct (prefix_byte N (Z.min index max) mask) as [Hu Hl]; [lia | fold max; lia | done | done |].
  fold max in Hl. unfold write_int, write_int_bytes, tfw_hpack_int_size, hpack_get_int.
  destruct (Z.ltb_spec index max).
  { rewrite Z.min_l in Hu, Hl by lia. split_and!; [done | | lia]. intros _. split; [done |].
    cbn [app]. rewrite Hu, Hl, (proj2 (Z.eqb_neq _ _)) by lia. done. }
  rewrite Z.min_r in Hu, Hl by lia.
  assert (Hb : 0 <= index - max < 128 ^ Z.of_nat 10)
    by (change (128 ^ Z.of_nat 10) with (2 ^ 70); lia).
  pose proof (write_tail_len (index - max) ltac:(lia)) as Hlen.
  assert (Hz : zlen (u8 (Z.lor max mask) :: write_int_tail 10 (index - max)) =
    1 + zlen (write_int_tail 10 (index - max))) by (unfold zlen; cbn [length]; lia).
  rewrite Hz. split_and!.
  - rewrite int_size_tail by done. lia.
  - intros Hlt. rewrite (proj2 (Z.ltb_ge _ _)) by (change HPACK_MAX_INT with 3; lia).
    split; [done |]. rewrite <- app_comm_cons, Hu, Hl, Z.eqb_refl. unfold GET_FLEXIBLE.
    rewrite get_flexible_tail; try lia; [| unfold HPACK_LIMIT; lia].
    do 2 f_equal. lia.
  - intros Hge. by rewrite (proj2 (Z.ltb_lt _ _)) by (change HPACK_MAX_INT with 3; lia).
Qed.

Lemma hpack_int_roundtrip_witness :
  write_int 1337 31 0x20 = Ok (write_int_bytes 1337 31 0x20) /\
  hpack_get_int 31 (write_int_bytes 1337 31 0x20 ++ [7]) = Ok (FlexDone 1337 [7]).
Proof.
  destruct (hpack_int_roundtrip 5 0x20 1337 [7]) as (_ & Hok & _);
    [lia | unfold is_u8; lia | reflexivity | unfold is_u64; lia | apply Hok; reflexivity].
Defined.

(** Example C.1.2 of RFC 7541. *)
Example rfc7541_c12 : write_int 1337 31 0 = Ok [31; 154; 10].
Proof. reflexivity. Qed.

Lemma get_flexible_sound src : forall x m x' rest,
  bytes_ok src -> 0 <= x -> 0 <= m -> get_flexible src x m = Ok (FlexDone x' rest) ->
  m + 7 * (zlen src - zlen rest) <= 28 ->
  exists v, rfc_tail src = Some (v, rest) /\ x' = x + v * 2 ^ m /\ 0 <= v.
Proof.
  induction src as [|c src IH]; intros x m x' rest Hb Hx Hm; [done |].
  apply Forall_cons in Hb as [Hc Hb]. unfold is_u8 in Hc. cbn [get_flexible rfc_tail].
  unfold flex_shift. destruct (Z.leb_spec 32 m); [done |].
  rewrite land127, Z.shiftl_mul_pow2 by done. set (d := u32 _).
  pose proof (u32_range (c mod 128 * 2 ^ m)) as Hd. unfold is_u32 in Hd. fold d in Hd.
  assert (Hw : m <= 21 -> d = c mod 128 * 2 ^ m).
  { intros Hm21. apply u32_small. assert (0 < 2 ^ m <= 2 ^ 21)
      by (split; [apply Z.pow_pos_nonneg; lia | apply Z.pow_le_mono_r; lia]).
    pose proof (Z.mod_pos_bound c 128 ltac:(lia)). unfold is_u32. nia. }
  assert (Hzc : zlen (c :: src) = 1 + zlen src) by (unfold zlen; cbn [length]; lia).
  destruct (HPACK_LIMIT <? x + d); [done |]. destruct (Z.ltb_spec 127 c) as [Hgt|Hle].
  - intros E Hlen. assert (Hzr : 0 <= zlen src - zlen rest).
    { clear -E. revert E. generalize (x + d) (m + 7). clear. induction src as [|a l IH]; [done |].
      intros x m. cbn [get_flexible]. destruct (flex_shift a m) as [e|]; [| done].
      destruct (_ <? _); [done |]. unfold zlen in *. cbn [length]. destruct (_ <? _).
      - intros E. apply IH in E. lia.
      - intros [= _ <-]. lia. }
    destruct (IH (x + d) (m + 7) x' rest) as (v & Hv & -> & Hv0); [done | lia | lia | done | lia |].
    rewrite Hv, Hw by lia. eexists. split; [done |]. rewrite Z.pow_add_r by lia.
    pose proof (Z.mod_pos_bound c 128 ltac:(lia)). split; lia.
  - intros [= <- <-] Hlen. rewrite Hw by lia. rewrite Z.mod_small by lia. eauto with lia.
Qed.

(** Whatever the decoder accepts as an integer of up to four
    continuation bytes is the integer RFC 7541 defines for these bytes. *)
Theorem hpack_int_sound (src rest : bytes) (x x' : Z) :
  bytes_ok src -> 0 <= x -> GET_FLEXIBLE src x = Ok (FlexDone x' rest) ->
  zlen src - zlen rest <= 4 ->
  exists v, rfc_tail src = Some (v, rest) /\ x' = x + v.
Proof.
  intros Hb Hx E Hl. destruct (get_flexible_sound src x 0 x' rest) as (v & Hv & -> & _);
    [done | done | done | done | lia |]. exists v. split; [done | lia].
Qed.

Lemma hpack_int_sound_witness :
  exists v, rfc_tail [154; 10; 1] = Some (v, [1]) /\ 1337 = 31 + v.
Proof.
  apply (hpack_int_sound [154; 10; 1] [1] 31 1337);
    [apply bytes_okb; reflexivity | lia | reflexivity | vm_compute; discriminate].
Defined.

(** ** Departures from RFC 7541 *)

(** Sum and bitwise or differ when the bits overlap: an integer that is cut
    after its prefix decodes to another value than in one piece. *)
Theorem continue_loses_carry :
  GET_FLEXIBLE [255; 1] 31 = Ok (FlexDone 286 []) /\ rfc_int 31 [31; 255; 1] = Some (286, []) /\
  GET_FLEXIBLE [] 31 = Ok (FlexMore 31 0) /\ GET_CONTINUE [255; 1] 31 0 = Ok (FlexDone 158 []).
Proof. done. Qed.

(** The fifth continuation byte is shifted by 28 bits in 32-bit arithmetic: an
    integer over the limit passes for a small one.  The sixth is shifted by
    more bits than the type has. *)
Theorem flexible_limit_bypassed :
  rfc_int 127 [127; 128; 128; 128; 128; 16] = Some (127 + 2 ^ 32, []) /\
  GET_FLEXIBLE [128; 128; 128; 128; 16] 127 = Ok (FlexDone 127 []) /\
  GET_FLEXIBLE [128; 128; 128; 128; 128; 0] 127 = Bug.
Proof. done. Qed.
