(* ===== verification/HpackTbl.v ===== *)
(** The dynamic table of the HPACK decoder ([fw/hpack.c], [TfwHPackDTbl]): a
    circular array of entries that grows by doubling, with a pseudo-size bounded
    by the window (RFC 7541 section 4).

    An array cell outside [entries] and a cell that was never written are
    [Bug]s when they are accessed.  The pages of the header pool that are freed
    with evicted entries are not modelled. *)

From stdpp Require Import strings.
From S2P Require Import Prelude.
Local Open Scope Z_scope.

(** The bytes of a C string. *)
Fixpoint str (s : string) : bytes :=
  match s with
  | EmptyString => []
  | String a s' => Z.of_nat (Ascii.nat_of_ascii a) :: str s'
  end.

(** An entry: the header (name and value), the length of its name, the number
    of chunks of its name and of the whole descriptor, its tag. *)
Record TfwHPackEntry : Type := MkHEntry {
  he_hdr : bytes;
  he_name_len : Z;
  he_name_num : Z;
  he_nchunks : Z;
  he_tag : Z;
}.

(** The tags of known headers ([enum TfwHPackTag]). *)
Definition TFW_TAG_HDR_H2_STATUS : Z := 0.
Definition TFW_TAG_HDR_H2_METHOD : Z := 0.
Definition TFW_TAG_HDR_H2_SCHEME : Z := 1.
Definition TFW_TAG_HDR_H2_AUTHORITY : Z := 2.
Definition TFW_TAG_HDR_H2_PATH : Z := 3.
Definition TFW_TAG_HDR_ACCEPT : Z := 4.
Definition TFW_TAG_HDR_AUTHORIZATION : Z := 5.
Definition TFW_TAG_HDR_CACHE_CONTROL : Z := 6.
Definition TFW_TAG_HDR_CONTENT_LENGTH : Z := 7.
Definition TFW_TAG_HDR_CONTENT_TYPE : Z := 8.
Definition TFW_TAG_HDR_COOKIE : Z := 9.
Definition TFW_TAG_HDR_IF_NONE_MATCH : Z := 10.
Definition TFW_TAG_HDR_ETAG : Z := 10.
Definition TFW_TAG_HDR_HOST : Z := 11.
Definition TFW_TAG_HDR_IF_MODIFIED_SINCE : Z := 12.
Definition TFW_TAG_HDR_PRAGMA : Z := 13.
Definition TFW_TAG_HDR_REFERER : Z := 14.
Definition TFW_TAG_HDR_X_FORWARDED_FOR : Z := 15.
Definition TFW_TAG_HDR_USER_AGENT : Z := 16.
Definition TFW_TAG_HDR_SERVER : Z := 16.
Definition TFW_TAG_HDR_TRANSFER_ENCODING : Z := 17.
Definition TFW_TAG_HDR_RAW : Z := 18.

(** [HP_ENTRY_NAME] and [HP_ENTRY_FULL]: a header with an empty value has one
    chunk. *)
Definition HP_ENTRY (name value : string) (tag : Z) : TfwHPackEntry :=
  MkHEntry (str name ++ str value) (zlen (str name)) 1
    (if bool_decide (value = EmptyString) then 1 else 2) tag.

Definition static_table : list TfwHPackEntry := [
  HP_ENTRY ":authority" "" TFW_TAG_HDR_H2_AUTHORITY;
  HP_ENTRY ":method" "GET" TFW_TAG_HDR_H2_METHOD;
  HP_ENTRY ":method" "POST" TFW_TAG_HDR_H2_METHOD;
  HP_ENTRY ":path" "/" TFW_TAG_HDR_H2_PATH;
  HP_ENTRY ":path" "/index.html" TFW_TAG_HDR_H2_PATH;
  HP_ENTRY ":scheme" "http" TFW_TAG_HDR_H2_SCHEME;
  HP_ENTRY ":scheme" "https" TFW_TAG_HDR_H2_SCHEME;
  HP_ENTRY ":status" "200" TFW_TAG_HDR_H2_STATUS;
  HP_ENTRY ":status" "204" TFW_TAG_HDR_H2_STATUS;
  HP_ENTRY ":status" "206" TFW_TAG_HDR_H2_STATUS;
  HP_ENTRY ":status" "304" TFW_TAG_HDR_H2_STATUS;
  HP_ENTRY ":status" "400" TFW_TAG_HDR_H2_STATUS;
  HP_ENTRY ":status" "404" TFW_TAG_HDR_H2_STATUS;
  HP_ENTRY ":status" "500" TFW_TAG_HDR_H2_STATUS;
  HP_ENTRY "accept-charset" "" TFW_TAG_HDR_RAW;
  HP_ENTRY "accept-encoding" "gzip, deflate" TFW_TAG_HDR_RAW;
  HP_ENTRY "accept-language" "" TFW_TAG_HDR_RAW;
  HP_ENTRY "accept-ranges" "" TFW_TAG_HDR_RAW;
  HP_ENTRY "accept" "" TFW_TAG_HDR_ACCEPT;
  HP_ENTRY "access-control-allow-origin" "" TFW_TAG_HDR_RAW;
  HP_ENTRY "age" "" TFW_TAG_HDR_RAW;
  HP_ENTRY "allow" "" TFW_TAG_HDR_RAW;
  HP_ENTRY "authorization" "" TFW_TAG_HDR_AUTHORIZATION;
  HP_ENTRY "cache-control" "" TFW_TAG_HDR_CACHE_CONTROL;
  HP_ENTRY "content-disposition" "" TFW_TAG_HDR_RAW;
  HP_ENTRY "content-encoding" "" TFW_TAG_HDR_RAW;
  HP_ENTRY "content-language" "" TFW_TAG_HDR_RAW;
  HP_ENTRY "content-length" "" TFW_TAG_HDR_CONTENT_LENGTH;
  HP_ENTRY "content-location" "" TFW_TAG_HDR_RAW;
  HP_ENTRY "content-range" "" TFW_TAG_HDR_RAW;
  HP_ENTRY "content-type" "" TFW_TAG_HDR_CONTENT_TYPE;
  HP_ENTRY "cookie" "" TFW_TAG_HDR_COOKIE;
  HP_ENTRY "date" "" TFW_TAG_HDR_RAW;
  HP_ENTRY "etag" "" TFW_TAG_HDR_ETAG;
  HP_ENTRY "expect" "" TFW_TAG_HDR_RAW;
  HP_ENTRY "expires" "" TFW_TAG_HDR_RAW;
  HP_ENTRY "from" "" TFW_TAG_HDR_RAW;
  HP_ENTRY "host" "" TFW_TAG_HDR_HOST;
  HP_ENTRY "if-match" "" TFW_TAG_HDR_RAW;
  HP_ENTRY "if-modified-since" "" TFW_TAG_HDR_IF_MODIFIED_SINCE;
  HP_ENTRY "if-none-match" "" TFW_TAG_HDR_IF_NONE_MATCH;
  HP_ENTRY "if-range" "" TFW_TAG_HDR_RAW;
  HP_ENTRY "if-unmodified-since" "" TFW_TAG_HDR_RAW;
  HP_ENTRY "last-modified" "" TFW_TAG_HDR_RAW;
  HP_ENTRY "link" "" TFW_TAG_HDR_RAW;
  HP_ENTRY "location" "" TFW_TAG_HDR_RAW;
  HP_ENTRY "max-forwards" "" TFW_TAG_HDR_RAW;
  HP_ENTRY "proxy-authenticate" "" TFW_TAG_HDR_RAW;
  HP_ENTRY "proxy-authorization" "" TFW_TAG_HDR_RAW;
  HP_ENTRY "range" "" TFW_TAG_HDR_RAW;
  HP_ENTRY "referer" "" TFW_TAG_HDR_REFERER;
  HP_ENTRY "refresh" "" TFW_TAG_HDR_RAW;
  HP_ENTRY "retry-after" "" TFW_TAG_HDR_RAW;
  HP_ENTRY "server" "" TFW_TAG_HDR_SERVER;
  HP_ENTRY "set-cookie" "" TFW_TAG_HDR_RAW;
  HP_ENTRY "strict-transport-security" "" TFW_TAG_HDR_RAW;
  HP_ENTRY "transfer-encoding" "" TFW_TAG_HDR_TRANSFER_ENCODING;
  HP_ENTRY "user-agent" "" TFW_TAG_HDR_USER_AGENT;
  HP_ENTRY "vary" "" TFW_TAG_HDR_RAW;
  HP_ENTRY "via" "" TFW_TAG_HDR_RAW;
  HP_ENTRY "www-authenticate" "" TFW_TAG_HDR_RAW].

Record TfwHPackDTbl : Type := MkDTbl {
  d_entries : list (option TfwHPackEntry);
  d_n : Z;
  d_curr : Z;
  d_length : Z;
  d_size : Z;
  d_window : Z;
}.

(** [sizeof(TfwHPackEntry)] on a 64-bit machine. *)
Definition sizeof_entry : Z := 32.

(** Outcome of the allocations of one call: [None] when the array cannot be
    extended, [Some true] when it is extended in place; whether the storage of
    the header succeeds. *)
Record mem_outcome : Type := MkMem {
  mem_entries : option bool;
  mem_hdr : bool;
}.

Definition entry_cost (e : TfwHPackEntry) : Z := HPACK_ENTRY_OVERHEAD + zlen (he_hdr e).

(** The eldest entry of a circular buffer. *)
Definition eldest (curr count length : Z) : Z :=
  if count <=? curr then curr - count else curr + (length - count).

(** [do { ... } while (size > window)]: the number of entries left and their
    size. *)
Fixpoint evict_loop (fuel : nat) (entries : list (option TfwHPackEntry))
    (length early count size window : Z) : outcome (Z * Z) :=
  match fuel with
  | O => Bug
  | S fuel' =>
      match entries !! Z.to_nat early with
      | Some (Some cp) =>
          let size' := u32 (size - entry_cost cp) in
          let early' := if early + 1 =? length then 0 else early + 1 in
          let count' := u32 (count - 1) in
          if window <? size' then evict_loop fuel' entries length early' count' size' window
          else Ok (count', size')
      | _ => Bug
      end
  end.

(** [memcpy_fast()] of [cnt] cells between arrays of entries. *)
Definition memcpy_entries (dst : list (option TfwHPackEntry)) (di : Z)
    (src : list (option TfwHPackEntry)) (si cnt : Z)
  : outcome (list (option TfwHPackEntry)) :=
  if (0 <=? di) && (di + cnt <=? zlen dst) && (0 <=? si) && (si + cnt <=? zlen src) then
    Ok (take (Z.to_nat di) dst ++ take (Z.to_nat cnt) (drop (Z.to_nat si) src)
        ++ drop (Z.to_nat (di + cnt)) dst)
  else Bug.

Definition empty_cells (n : Z) : list (option TfwHPackEntry) := replicate (Z.to_nat n) None.

(** The reallocation branch: the new array, its length and [curr].  The
    arguments of [memcpy_fast()] are written as in the source: byte counts are
    added to pointers to entries. *)
Definition extend_entries (mem : mem_outcome) (entries : list (option TfwHPackEntry))
    (length curr count : Z) : outcome (option (list (option TfwHPackEntry) * Z * Z)) :=
  if negb (length =? 0) then
    let block := length * sizeof_entry in
    let new_block := Z.shiftl block 1 in
    let wrap := curr * sizeof_entry in
    let tail := block - wrap in
    let length' := u32 (Z.shiftl length 1) in
    match mem_entries mem with
    | None => Ok None
    | Some same =>
        if (curr =? 0) && same then
          Ok (Some (entries ++ empty_cells length, length', count))
        else if same then
          match memcpy_entries (entries ++ empty_cells length) (new_block - tail)
                  (entries ++ empty_cells length) wrap (tail / sizeof_entry) with
          | Ok entries' => Ok (Some (entries', length', curr))
          | Bug => Bug
          end
        else
          match (if negb (tail =? 0)
                 then memcpy_entries (empty_cells (2 * length)) 0 entries wrap (tail / sizeof_entry)
                 else Ok (empty_cells (2 * length))) with
          | Bug => Bug
          | Ok e1 =>
              match (if negb (wrap =? 0)
                     then memcpy_entries e1 tail entries 0 (wrap / sizeof_entry)
                     else Ok e1) with
              | Bug => Bug
              | Ok e2 => Ok (Some (e2, length', count))
              end
          end
    end
  else
    match mem_entries mem with
    | None => Ok None
    | Some _ => Ok (Some (empty_cells 32, 32, curr))
    end.

(** The end of [tfw_hpack_add_index()]: store the entry and advance. *)
Definition place_entry (mem : mem_outcome) (e : TfwHPackEntry) (tbl : TfwHPackDTbl)
    (entries : list (option TfwHPackEntry)) (length curr count new_size : Z)
  : outcome (Z * TfwHPackDTbl) :=
  if negb (mem_hdr mem) then
    Ok (- ENOMEM, MkDTbl entries (d_n tbl) (d_curr tbl) length (d_size tbl) (d_window tbl))
  else if curr <? length then
    let curr' := if curr + 1 =? length then 0 else curr + 1 in
    Ok (0, MkDTbl (<[Z.to_nat curr := Some e]> entries) (u32 (count + 1)) curr' length
             new_size (d_window tbl))
  else Bug.

Definition tfw_hpack_add_index (mem : mem_outcome) (e : TfwHPackEntry) (tbl : TfwHPackDTbl)
  : outcome (Z * TfwHPackDTbl) :=
  let hdr_len := zlen (he_hdr e) in
  let count := d_n tbl in
  let curr := d_curr tbl in
  let length := d_length tbl in
  let entries := d_entries tbl in
  let delta := u32 (HPACK_ENTRY_OVERHEAD + hdr_len) in
  if delta <? hdr_len then Ok (- EINVAL, tbl)
  else
    let size := d_size tbl in
    let new_size := u32 (size + delta) in
    let window := d_window tbl in
    if (window <? new_size) || (new_size <? delta) then
      if delta <=? window then
        match evict_loop (S (Z.to_nat count)) entries length (eldest curr count length)
                count size (window - delta) with
        | Bug => Bug
        | Ok (count', size') =>
            place_entry mem e tbl entries length curr count' (u32 (size' + delta))
        end
      else if negb (count =? 0) then
        Ok (0, MkDTbl entries 0 0 length 0 window)
      else Ok (0, tbl)
    else if count =? length then
      match extend_entries mem entries length curr count with
      | Bug => Bug
      | Ok None => Ok (- ENOMEM, tbl)
      | Ok (Some (entries', length', curr')) =>
          place_entry mem e tbl entries' length' curr' count new_size
      end
    else place_entry mem e tbl entries length curr count new_size.

Definition HPACK_STATIC_ENTRIES : Z := zlen static_table.

(** Only the dynamic part: [index] is already reduced by the number of static
    entries. *)
Definition find_dynamic (tbl : TfwHPackDTbl) (index : Z) : outcome (option TfwHPackEntry) :=
  if index <=? d_n tbl then
    let curr := d_curr tbl in
    let curr' := if index <=? curr then curr - index else curr + (d_length tbl - index) in
    match d_entries tbl !! Z.to_nat curr' with
    | Some (Some e) => Ok (Some e)
    | _ => Bug
    end
  else Ok None.

Definition tfw_hpack_find_index (tbl : TfwHPackDTbl) (index : Z)
  : outcome (option TfwHPackEntry) :=
  if index <=? HPACK_STATIC_ENTRIES then
    if index <=? 0 then Bug
    else match static_table !! Z.to_nat (index - 1) with
         | Some e => Ok (Some e)
         | None => Bug
         end
  else find_dynamic tbl (index - HPACK_STATIC_ENTRIES).

(** [max_window] is the limit of the connection. *)
Definition tfw_hpack_set_length (max_window new_size : Z) (tbl : TfwHPackDTbl)
  : outcome (Z * TfwHPackDTbl) :=
  if max_window <? new_size then Ok (- EINVAL, tbl)
  else if new_size <? d_size tbl then
    match evict_loop (S (Z.to_nat (d_n tbl))) (d_entries tbl) (d_length tbl)
            (eldest (d_curr tbl) (d_n tbl) (d_length tbl)) (d_n tbl) (d_size tbl) new_size with
    | Bug => Bug
    | Ok (count, size) =>
        Ok (0, MkDTbl (d_entries tbl) count (d_curr tbl) (d_length tbl) size new_size)
    end
  else
    Ok (0, MkDTbl (d_entries tbl) (d_n tbl) (d_curr tbl) (d_length tbl) (d_size tbl) new_size).

(** [tfw_hpack_init()]: the table is empty, the array not yet allocated. *)
Definition dtbl_init (htbl_sz : Z) : TfwHPackDTbl := MkDTbl [] 0 0 0 0 htbl_sz.

(** ** The table as a list *)

(** RFC 7541 sections 4.3 and 4.4 on a list with the newest entry first: keep
    the newest entries as long as they fit. *)
Fixpoint keep (l : list TfwHPackEntry) (limit : Z) : list TfwHPackEntry :=
  match l with
  | [] => []
  | e :: l' => if entry_cost e <=? limit then e :: keep l' (limit - entry_cost e) else []
  end.

Definition spec_add (e : TfwHPackEntry) (l : list TfwHPackEntry) (window : Z)
  : list TfwHPackEntry :=
  if window <? entry_cost e then [] else e :: keep l (window - entry_cost e).

Fixpoint total_cost (l : list TfwHPackEntry) : Z :=
  match l with
  | [] => 0
  | e :: l' => entry_cost e + total_cost l'
  end.

(** Position [i] of a circular buffer of [L] cells, [0 <= i < 2 * L]. *)
Definition wrap_idx (L i : Z) : Z := if i <? L then i else i - L.

(** [o] lists the entries of the circular buffer, the eldest first, from the
    cell [early] on. *)
Definition ring (entries : list (option TfwHPackEntry)) (L early : Z)
    (o : list TfwHPackEntry) : Prop :=
  zlen entries = L /\ 0 <= early /\ (early < L \/ L = 0 /\ early = 0) /\ zlen o <= L /\
  forall (i : nat) e, o !! i = Some e ->
    entries !! Z.to_nat (wrap_idx L (early + Z.of_nat i)) = Some (Some e).

(** The table represents the list [l], the newest entry first. *)
Definition dt_rep (tbl : TfwHPackDTbl) (l : list TfwHPackEntry) : Prop :=
  exists early, ring (d_entries tbl) (d_length tbl) early (rev l) /\
    d_n tbl = zlen l /\ d_curr tbl = wrap_idx (d_length tbl) (early + zlen l) /\
    d_size tbl = total_cost l /\ d_size tbl <= d_window tbl /\
    d_length tbl < 2 ^ 31 /\ d_window tbl < 2 ^ 31.

Lemma entry_cost_pos e : HPACK_ENTRY_OVERHEAD <= entry_cost e.
Proof. unfold entry_cost. pose proof (zlen_nonneg (he_hdr e)). lia. Qed.

Lemma total_cost_app l k : total_cost (l ++ k) = total_cost l + total_cost k.
Proof. induction l; simpl; lia. Qed.

Lemma total_cost_rev l : total_cost (rev l) = total_cost l.
Proof. induction l as [|e l IH]; [done |]. simpl. rewrite total_cost_app. simpl. lia. Qed.

Lemma total_cost_nonneg l : 0 <= total_cost l.
Proof.
  induction l as [|e l IH]; simpl; [lia |]. pose proof (entry_cost_pos e).
  unfold HPACK_ENTRY_OVERHEAD in *. lia.
Qed.

Lemma zlen_rev {A} (l : list A) : zlen (rev l) = zlen l.
Proof. unfold zlen. by rewrite length_rev. Qed.

(** Keeping the newest entries means dropping the eldest ones. *)
Lemma keep_all l limit : total_cost l <= limit -> keep l limit = l.
Proof.
  revert limit. induction l as [|e l IH]; intros limit Hl; [done |]. simpl in *.
  pose proof (total_cost_nonneg l). rewrite (proj2 (Z.leb_le _ _)) by lia. f_equal. apply IH. lia.
Qed.

Lemma keep_drop_last l e limit : limit < total_cost (l ++ [e]) -> keep (l ++ [e]) limit = keep l limit.
Proof.
  revert limit. induction l as [|a l IH]; intros limit Hl; simpl in *.
  - rewrite (proj2 (Z.leb_gt _ _)) by lia. done.
  - destruct (Z.leb_spec (entry_cost a) limit); [| done]. f_equal. apply IH. lia.
Qed.

Lemma keep_size l limit : 0 <= limit -> total_cost (keep l limit) <= limit.
Proof.
  revert limit. induction l as [|a l IH]; intros limit Hl; simpl; [done |].
  destruct (Z.leb_spec (entry_cost a) limit); simpl; [| done]. specialize (IH (limit - entry_cost a)). lia.
Qed.

Lemma wrap_next L i : 0 <= i < 2 * L - 1 ->
  (if wrap_idx L i + 1 =? L then 0 else wrap_idx L i + 1) = wrap_idx L (i + 1).
Proof.
  intros Hi. unfold wrap_idx.
  destruct (Z.ltb_spec i L), (Z.ltb_spec (i + 1) L), (Z.eqb_spec (i + 1) L), (Z.eqb_spec (i - L + 1) L); lia.
Qed.

(** The eviction loop drops the eldest entries until the rest fits. *)
Lemma evict_loop_spec fuel : forall entries L early o size window,
  ring entries L early o -> size = total_cost o -> size < 2 ^ 32 -> 0 <= window < size ->
  zlen o < 2 ^ 32 -> (length o <= fuel)%nat ->
  exists k, (1 <= k <= length o)%nat /\
    rev (drop k o) = keep (rev o) window /\
    evict_loop fuel entries L early (zlen o) size window =
      Ok (zlen (drop k o), total_cost (drop k o)).
Proof.
  induction fuel as [|fuel IH]; intros entries L early o size window Hr Hs Hmax Hw Hn Hf.
  { destruct o; [simpl in *; lia | simpl in Hf; lia]. }
  destruct o as [|e o]; [simpl in *; lia |].
  destruct Hr as (HL & He0 & HeL & Hlen & Hcells).
  pose proof (Hcells 0%nat e eq_refl) as Hc0. rewrite Z.add_0_r in Hc0.
  assert (Hz : zlen (e :: o) = 1 + zlen o) by (unfold zlen; cbn [length]; lia).
  pose proof (zlen_nonneg o). pose proof (total_cost_nonneg o). pose proof (entry_cost_pos e).
  assert (HeL' : early < L) by lia.
  assert (Hw0 : wrap_idx L early = early) by (unfold wrap_idx; by rewrite (proj2 (Z.ltb_lt _ _))).
  rewrite Hw0 in Hc0. cbn [evict_loop]. rewrite Hc0. simpl in Hs.
  unfold HPACK_ENTRY_OVERHEAD in *.
  rewrite u32_small by (unfold is_u32; lia). rewrite u32_small by (unfold is_u32; lia).
  replace (size - entry_cost e) with (total_cost o) by lia.
  replace (zlen (e :: o) - 1) with (zlen o) by lia.
  destruct (Z.ltb_spec window (total_cost o)).
  - destruct (IH entries L (wrap_idx L (early + 1)) o (total_cost o) window) as (k & Hk & Hkeep & Hev).
    + split; [done |]. unfold wrap_idx. split; [destruct (Z.ltb_spec (early + 1) L); lia |].
      split; [destruct (Z.ltb_spec (early + 1) L); lia |]. split; [lia |].
      intros i a Hi. rewrite <- (Hcells (S i) a Hi). f_equal. f_equal.
      assert (Z.of_nat i < zlen o) by (unfold zlen; apply lookup_lt_Some in Hi; lia).
      unfold wrap_idx. repeat case_match; bool_hyps; lia.
    + done.
    + lia.
    + lia.
    + lia.
    + simpl in Hf. lia.
    + exists (S k). split; [simpl; lia |]. split.
      * simpl. rewrite Hkeep, keep_drop_last; [done |].
        rewrite total_cost_app, total_cost_rev. simpl. lia.
      * cbn [drop]. rewrite <- Hev. f_equal. rewrite <- (wrap_next L early) by lia. by rewrite Hw0.
  - exists 1%nat. split; [simpl; lia |]. split; [| done].
    simpl. rewrite keep_drop_last by (rewrite total_cost_app, total_cost_rev; simpl; lia).
    rewrite drop_0. symmetry. apply keep_all. rewrite total_cost_rev. lia.
Qed.

Lemma eldest_spec L early n :
  0 <= early -> (early < L \/ L = 0 /\ early = 0) -> 0 <= n <= L ->
  eldest (wrap_idx L (early + n)) n L = early.
Proof. intros. unfold eldest, wrap_idx. repeat case_match; bool_hyps; lia. Qed.

Lemma ring_drop entries L early o k :
  ring entries L early o -> (k <= length o)%nat ->
  let early' := wrap_idx L (early + Z.of_nat k) in
  ring entries L early' (drop k o) /\
  wrap_idx L (early' + zlen (drop k o)) = wrap_idx L (early + zlen o).
Proof.
  intros (HL & He0 & HeL & Hlen & Hcells) Hk. unfold zlen in *. rewrite length_drop. split.
  - split; [done |]. split; [unfold wrap_idx; case_match; bool_hyps; lia |].
    split; [unfold wrap_idx; case_match; bool_hyps; lia |].
    split; [unfold zlen; rewrite length_drop; lia |].
    intros i e Hi. rewrite lookup_drop in Hi. rewrite <- (Hcells _ _ Hi). do 2 f_equal.
    apply lookup_lt_Some in Hi. unfold wrap_idx. repeat case_match; bool_hyps; lia.
  - unfold wrap_idx. repeat case_match; bool_hyps; lia.
Qed.

(** Storing an entry in the free cell [curr]. *)
Lemma place_entry_spec mem e tbl entries L early o new_size :
  mem_hdr mem = true -> ring entries L early o -> zlen o < L -> L < 2 ^ 31 ->
  let curr := wrap_idx L (early + zlen o) in
  exists tbl', place_entry mem e tbl entries L curr (zlen o) new_size = Ok (0, tbl') /\
    ring (d_entries tbl') L early (o ++ [e]) /\ d_length tbl' = L /\ d_n tbl' = zlen o + 1 /\
    d_curr tbl' = wrap_idx L (early + (zlen o + 1)) /\ d_size tbl' = new_size /\
    d_window tbl' = d_window tbl.
Proof.
  intros Hm (HL & He0 & HeL & Hlen & Hcells) Hlt HLmax curr. pose proof (zlen_nonneg o).
  assert (Hc : 0 <= curr < L) by (unfold curr, wrap_idx; case_match; bool_hyps; lia).
  unfold place_entry. rewrite Hm. cbn [negb]. rewrite (proj2 (Z.ltb_lt _ _)) by lia.
  eexists. split; [done |]. cbn [d_entries d_length d_n d_curr d_size d_window].
  unfold ring. split_and!; try done.
  - unfold zlen in *. rewrite length_insert. done.
  - rewrite zlen_app. unfold zlen at 2. simpl. lia.
  - intros i a Hi. destruct (decide (i = length o)) as [->|Hne].
    + rewrite lookup_app_r, Nat.sub_diag in Hi by lia. injection Hi as <-.
      replace (wrap_idx L (early + Z.of_nat (length o))) with curr by done.
      apply list_lookup_insert_eq. unfold zlen in *. lia.
    + assert (Hi' : (i < length o)%nat)
        by (apply lookup_lt_Some in Hi; rewrite length_app in Hi; simpl in Hi; lia).
      rewrite lookup_app_l in Hi by lia. rewrite list_lookup_insert_ne; [by apply Hcells |].
      unfold curr, wrap_idx, zlen in *. repeat case_match; bool_hyps; lia.
  - apply u32_small. unfold is_u32. lia.
  - rewrite Z.add_assoc. unfold curr. apply wrap_next. lia.
Qed.

(** Doubling an array whose entries start at cell 0. *)
Lemma extend_spec mem entries L o :
  is_Some (mem_entries mem) -> ring entries L 0 o -> zlen o = L -> L < 2 ^ 30 ->
  exists entries' L', extend_entries mem entries L 0 L = Ok (Some (entries', L', zlen o)) /\
    ring entries' L' 0 o /\ zlen o < L' < 2 ^ 31.
Proof.
  intros [same Hm] (HL & _ & _ & Hlen & Hcells) Ho Hmax. unfold extend_entries. rewrite Hm.
  pose proof (zlen_nonneg o). destruct (Z.eqb_spec L 0) as [->|Hne]; cbn [negb].
  { exists (empty_cells 32), 32. split_and!; try lia; [by rewrite Ho |].
    destruct o; [| unfold zlen in *; simpl in *; lia].
    split_and!; try done; try (unfold zlen; simpl; lia). }
  assert (Hl2 : u32 (Z.shiftl L 1) = 2 * L)
    by (rewrite Z.shiftl_mul_pow2 by lia; rewrite u32_small by (unfold is_u32; lia); lia).
  rewrite Hl2. assert (HC : forall ext, length ext = Z.to_nat L ->
    ring (entries ++ ext) (2 * L) 0 o).
  { intros ext Hext. unfold ring. rewrite zlen_app.
    assert (Hz : zlen ext = L) by (unfold zlen; lia).
    split; [lia |]. split; [lia |]. split; [lia |]. split; [lia |]. intros i e Hi.
    assert (Hio : Z.of_nat i < zlen o) by (apply lookup_lt_Some in Hi; unfold zlen; lia).
    assert (Hw : wrap_idx (2 * L) (0 + Z.of_nat i) = wrap_idx L (0 + Z.of_nat i))
      by (unfold wrap_idx; repeat case_match; bool_hyps; lia).
    rewrite Hw, lookup_app_l; [by apply Hcells |].
    unfold wrap_idx, zlen in *. case_match; bool_hyps; lia. }
  exists (entries ++ empty_cells L), (2 * L).
  assert (Hext : ring (entries ++ empty_cells L) (2 * L) 0 o)
    by (apply HC; unfold empty_cells; by rewrite length_replicate).
  destruct same; cbn [andb Z.eqb].
  { split_and!; try lia; [by rewrite Ho | done]. }
  rewrite Z.mul_0_l, Z.sub_0_r. unfold sizeof_entry. rewrite Z.div_mul by lia.
  rewrite (proj2 (Z.eqb_neq _ _)) by lia. cbn [negb].
  unfold memcpy_entries. assert (Hze : zlen (empty_cells (2 * L)) = 2 * L)
    by (unfold empty_cells, zlen; rewrite length_replicate; lia).
  rewrite Hze, HL. rewrite !(proj2 (Z.leb_le _ _)) by lia. cbn [andb negb Z.eqb].
  rewrite Ho. split; [| split; [done | lia]]. do 4 f_equal.
  rewrite Z.add_0_l, drop_0. simpl. rewrite take_ge by (unfold zlen in HL; lia). f_equal.
  unfold empty_cells. rewrite drop_replicate. f_equal. lia.
Qed.

(** ** Properties *)

(** The growth of the array moves its entries correctly only if they start at
    cell 0. *)
Definition growth_ok (tbl : TfwHPackDTbl) (e : TfwHPackEntry) : Prop :=
  d_size tbl + entry_cost e <= d_window tbl -> d_n tbl = d_length tbl -> d_curr tbl = 0.

Lemma spec_add_fits e l window :
  total_cost l + entry_cost e <= window -> spec_add e l window = e :: l.
Proof.
  intros Hl. unfold spec_add. pose proof (total_cost_nonneg l).
  rewrite (proj2 (Z.ltb_ge _ _)) by lia. f_equal. apply keep_all. lia.
Qed.

Lemma place_rep mem e tbl entries L early l new_size :
  mem_hdr mem = true -> ring entries L early (rev l) -> zlen l < L -> L < 2 ^ 31 ->
  new_size = total_cost l + entry_cost e -> new_size <= d_window tbl < 2 ^ 31 ->
  exists tbl',
    place_entry mem e tbl entries L (wrap_idx L (early + zlen l)) (zlen l) new_size = Ok (0, tbl') /\
    dt_rep tbl' (e :: l) /\ d_window tbl' = d_window tbl.
Proof.
  intros Hm Hr Hlt HL Hs Hw. rewrite <- (zlen_rev l) in *.
  destruct (place_entry_spec mem e tbl entries L early (rev l) new_size Hm Hr Hlt HL)
    as (tbl' & E & Hr' & HL' & Hn & Hc & Hsz & Hw').
  exists tbl'. split; [done |]. split; [| done]. exists early. rewrite HL', Hw', Hsz.
  assert (Hz : zlen (e :: l) = zlen (rev l) + 1) by (rewrite zlen_rev; unfold zlen; cbn [length]; lia).
  rewrite Hz. cbn [rev total_cost]. split; [done |]. split; [done |]. split; [done |].
  split; [lia |]. split; [lia |]. split; [done |]. apply Hw.
Qed.

(** The four ways through [tfw_hpack_add_index()]. *)
Lemma add_index_unfold mem e tbl :
  0 <= d_size tbl <= d_window tbl -> d_window tbl < 2 ^ 31 -> zlen (he_hdr e) < 2 ^ 30 ->
  tfw_hpack_add_index mem e tbl =
    if d_window tbl <? d_size tbl + entry_cost e then
      if entry_cost e <=? d_window tbl then
        match evict_loop (S (Z.to_nat (d_n tbl))) (d_entries tbl) (d_length tbl)
                (eldest (d_curr tbl) (d_n tbl) (d_length tbl)) (d_n tbl) (d_size tbl)
                (d_window tbl - entry_cost e) with
        | Bug => Bug
        | Ok (count', size') =>
            place_entry mem e tbl (d_entries tbl) (d_length tbl) (d_curr tbl) count'
              (u32 (size' + entry_cost e))
        end
      else if negb (d_n tbl =? 0) then
        Ok (0, MkDTbl (d_entries tbl) 0 0 (d_length tbl) 0 (d_window tbl))
      else Ok (0, tbl)
    else if d_n tbl =? d_length tbl then
      match extend_entries mem (d_entries tbl) (d_length tbl) (d_curr tbl) (d_n tbl) with
      | Bug => Bug
      | Ok None => Ok (- ENOMEM, tbl)
      | Ok (Some (entries', length', curr')) =>
          place_entry mem e tbl entries' length' curr' (d_n tbl) (d_size tbl + entry_cost e)
      end
    else place_entry mem e tbl (d_entries tbl) (d_length tbl) (d_curr tbl) (d_n tbl)
           (d_size tbl + entry_cost e).
Proof.
  intros Hs Hw Hh. unfold tfw_hpack_add_index. cbv zeta.
  pose proof (zlen_nonneg (he_hdr e)) as Hh0.
  assert (Hc : entry_cost e = 32 + zlen (he_hdr e)) by done.
  assert (Hd : u32 (HPACK_ENTRY_OVERHEAD + zlen (he_hdr e)) = entry_cost e)
    by (change (u32 (entry_cost e) = entry_cost e); apply u32_small; unfold is_u32; lia).
  rewrite Hd, (u32_small (d_size tbl + entry_cost e)) by (unfold is_u32; lia).
  rewrite (proj2 (Z.ltb_ge (entry_cost e) _)) by lia.
  rewrite (proj2 (Z.ltb_ge (d_size tbl + entry_cost e) _)) by lia. by rewrite orb_false_r.
Qed.

Lemma add_index_rep (mem : mem_outcome) (tbl : TfwHPackDTbl) (l : list TfwHPackEntry)
    (e : TfwHPackEntry) :
  dt_rep tbl l -> is_Some (mem_entries mem) -> mem_hdr mem = true ->
  zlen (he_hdr e) < 2 ^ 30 -> d_length tbl < 2 ^ 30 -> growth_ok tbl e ->
  exists tbl', tfw_hpack_add_index mem e tbl = Ok (0, tbl') /\
    dt_rep tbl' (spec_add e l (d_window tbl)) /\ d_window tbl' = d_window tbl.
Proof.
  intros (early & Hring & Hn & Hcurr & Hsize & Hle & HLmax & Hwmax) Hme Hmh Hhdr HL30 Hgrow.
  pose proof (total_cost_nonneg l) as Hpos. pose proof (entry_cost_pos e) as Hcost.
  pose proof Hring as (HL & He0 & HeL & Hlen & _). rewrite zlen_rev in Hlen.
  pose proof (zlen_nonneg l) as Hl0. unfold HPACK_ENTRY_OVERHEAD in Hcost.
  rewrite add_index_unfold by lia. unfold spec_add.
  destruct (Z.ltb_spec (d_window tbl) (d_size tbl + entry_cost e)) as [Hover|Hfit].
  - destruct (Z.leb_spec (entry_cost e) (d_window tbl)) as [Hew|Hew].
    + rewrite (proj2 (Z.ltb_ge _ _)) by lia. rewrite Hn, Hcurr, eldest_spec by lia.
      rewrite Hsize.
      destruct (evict_loop_spec (S (Z.to_nat (zlen l))) (d_entries tbl) (d_length tbl) early
        (rev l) (total_cost (rev l)) (d_window tbl - entry_cost e)) as (k & Hk & Hkeep & Hev);
        [done | done | rewrite total_cost_rev; lia | rewrite total_cost_rev; lia
        | rewrite zlen_rev; lia | rewrite length_rev; unfold zlen; lia |].
      rewrite zlen_rev, total_cost_rev in Hev. rewrite Hev.
      destruct (ring_drop _ _ _ _ k Hring ltac:(lia)) as [Hr' Hc'].
      rewrite rev_involutive in Hkeep. rewrite zlen_rev in Hc'. rewrite <- Hc'.
      pose proof (keep_size l (d_window tbl - entry_cost e) ltac:(lia)) as Hks.
      rewrite <- Hkeep in Hks |- *. rewrite total_cost_rev in Hks.
      rewrite <- (zlen_rev (drop k (rev l))), <- total_cost_rev.
      rewrite total_cost_rev. set (o := drop k (rev l)) in *.
      pose proof (total_cost_nonneg o). rewrite u32_small by (unfold is_u32; lia).
      apply place_rep; try done; [by rewrite rev_involutive | | by rewrite total_cost_rev | lia].
      rewrite zlen_rev. unfold o, zlen in *. rewrite length_drop, length_rev in *. lia.
    + rewrite (proj2 (Z.ltb_lt _ _)) by lia. destruct (Z.eqb_spec (d_n tbl) 0) as [Hz|Hz]; cbn [negb].
      * exists tbl. split; [done |]. split; [| done].
        assert (l = []) as -> by (destruct l; [done | unfold zlen in *; simpl in *; lia]).
        by exists early.
      * eexists. split; [done |]. split; [| done]. exists 0.
        cbn [d_entries d_length d_n d_curr d_size d_window total_cost rev]. split; [| split; [done |]].
        -- split; [done |]. split; [done |]. split; [lia |]. split; [unfold zlen; simpl; lia | done].
        -- change (zlen (@nil TfwHPackEntry)) with 0.
           split; [unfold wrap_idx; case_match; bool_hyps; lia | lia].
  - rewrite (proj2 (Z.ltb_ge _ _)) by lia. rewrite keep_all by lia.
    destruct (Z.eqb_spec (d_n tbl) (d_length tbl)) as [Hfull|Hfree].
    + specialize (Hgrow ltac:(lia) Hfull). rewrite Hgrow in Hcurr |- *.
      assert (early = 0) as -> by (unfold wrap_idx in Hcurr; case_match; bool_hyps; lia).
      rewrite Hfull.
      destruct (extend_spec mem (d_entries tbl) (d_length tbl) (rev l)) as (en & L' & -> & Hr' & HL');
        [done | done | rewrite zlen_rev; lia | lia |].
      rewrite zlen_rev in *. rewrite <- Hfull, Hn.
      destruct (place_rep mem e tbl en L' 0 l (d_size tbl + entry_cost e))
        as (tbl' & E & Hrep); [done | done | lia | lia | lia | lia |].
      rewrite Z.add_0_l in E. unfold wrap_idx in E. rewrite (proj2 (Z.ltb_lt _ _)) in E by lia.
      by exists tbl'.
    + rewrite Hn, Hcurr. apply place_rep; try done; lia.
Qed.

(** C24: adding a header of less than 2^30 bytes to the decoder's dynamic table implements RFC
    7541: the new entry comes first, the eldest entries go until the size fits
    the window, and an entry larger than the window empties the table.  No cell
    outside the array or never written is accessed and the size stays exact.
    The theorem asks that the allocations succeed and that the array does not grow while its
    entries start in the middle ([growth_ok]): then the code leaves the array, see
    [growth_out_of_bounds]. *)
Theorem dtbl_add_correct (mem : mem_outcome) (tbl : TfwHPackDTbl) (l : list TfwHPackEntry)
    (e : TfwHPackEntry) :
  dt_rep tbl l -> is_Some (mem_entries mem) -> mem_hdr mem = true ->
  zlen (he_hdr e) < 2 ^ 30 -> d_length tbl < 2 ^ 30 -> growth_ok tbl e ->
  exists tbl', tfw_hpack_add_index mem e tbl = Ok (0, tbl') /\
    dt_rep tbl' (spec_add e l (d_window tbl)) /\ d_window tbl' = d_window tbl.
Proof. exact (add_index_rep mem tbl l e). Qed.

Lemma dt_rep_init htbl_sz : 0 <= htbl_sz < 2 ^ 31 -> dt_rep (dtbl_init htbl_sz) [].
Proof.
  intros Hs. exists 0. cbn [dtbl_init d_entries d_length d_n d_curr d_size d_window total_cost rev].
  split; [| split_and!; try done; lia].
  split; [done |]. split; [done |]. split; [lia |]. split; [done |]. by intros [].
Qed.

Definition ok_mem : mem_outcome := MkMem (Some true) true.

(** Room for two entries, the elder in the last cell of the array and the newer in the first one. *)
Definition ex_ring : TfwHPackDTbl :=
  MkDTbl (<[0%nat := Some (HP_ENTRY "c" "d" 0)]> (<[31%nat := Some (HP_ENTRY "a" "b" 0)]> (empty_cells 32)))
    2 1 32 68 80.

Lemma ex_ring_rep : dt_rep ex_ring [HP_ENTRY "c" "d" 0; HP_ENTRY "a" "b" 0].
Proof.
  exists 31. split; [| vm_compute; split_and!; done]. split; [done |]. split; [done |]. split; [left; reflexivity |].
  split; [done |]. intros [|[|i]] e He; [| | done]; vm_compute in He; injection He as <-; reflexivity.
Qed.

(** The third entry evicts the eldest one, from the last cell of the array. *)
Lemma dtbl_add_correct_witness :
  exists tbl',
    tfw_hpack_add_index ok_mem (HP_ENTRY "e" "f" 0) ex_ring = Ok (0, tbl') /\
    dt_rep tbl' [HP_ENTRY "e" "f" 0; HP_ENTRY "c" "d" 0] /\ d_window tbl' = 80.
Proof.
  apply (dtbl_add_correct ok_mem ex_ring [HP_ENTRY "c" "d" 0; HP_ENTRY "a" "b" 0] (HP_ENTRY "e" "f" 0)).
  - exact ex_ring_rep.
  - exists true. reflexivity.
  - reflexivity.
  - reflexivity.
  - reflexivity.
  - intros H. exfalso. apply H. reflexivity.
Defined.

Lemma find_index_rep (tbl : TfwHPackDTbl) (l : list TfwHPackEntry) (index : Z) :
  dt_rep tbl l -> 0 < index ->
  tfw_hpack_find_index tbl index = Ok ((static_table ++ l) !! Z.to_nat (index - 1)).
Proof.
  intros (early & Hring & Hn & Hcurr & _) Hi. destruct Hring as (HL & He0 & HeL & Hlen & Hcells).
  rewrite zlen_rev in Hlen. unfold tfw_hpack_find_index.
  destruct (Z.leb_spec index HPACK_STATIC_ENTRIES) as [Hs|Hs].
  { rewrite (proj2 (Z.leb_gt _ _)) by lia. unfold HPACK_STATIC_ENTRIES, zlen in Hs.
    rewrite lookup_app_l by lia.
    destruct (lookup_lt_is_Some_2 static_table (Z.to_nat (index - 1))) as [e ->]; [lia | done]. }
  unfold find_dynamic. set (i := index - HPACK_STATIC_ENTRIES).
  rewrite lookup_app_r by (unfold HPACK_STATIC_ENTRIES, zlen in *; lia).
  replace (Z.to_nat (index - 1) - length static_table)%nat with (Z.to_nat (i - 1))
    by (unfold i, HPACK_STATIC_ENTRIES, zlen; lia).
  rewrite Hn. assert (Hi1 : 1 <= i) by (unfold i; lia). clearbody i.
  destruct (Z.leb_spec i (zlen l)) as [Hin|Hout].
  - destruct (lookup_lt_is_Some_2 l (Z.to_nat (i - 1))) as [e He]; [unfold zlen in *; lia |].
    rewrite He.
    assert (Hrev : rev l !! Z.to_nat (zlen l - i) = Some e).
    { rewrite rev_alt. apply reverse_lookup_Some. unfold zlen in *. split; [| lia].
      rewrite <- He. f_equal. lia. }
    pose proof (Hcells _ _ Hrev) as Hcell. rewrite Hcurr.
    replace (Z.to_nat (if i <=? _ then _ else _)) with
      (Z.to_nat (wrap_idx (d_length tbl) (early + Z.of_nat (Z.to_nat (zlen l - i))))).
    { by rewrite Hcell. }
    f_equal. unfold wrap_idx. pose proof (zlen_nonneg l). repeat case_match; bool_hyps; lia.
  - rewrite lookup_ge_None_2; [done |]. unfold zlen in *. lia.
Qed.

(** An index resolves as in RFC 7541 section 2.3.3: first the static
    table, then the dynamic table from the newest entry to the eldest; an index
    beyond both has no entry. *)
Theorem dtbl_find_correct (tbl : TfwHPackDTbl) (l : list TfwHPackEntry) (index : Z) :
  dt_rep tbl l -> 0 < index ->
  tfw_hpack_find_index tbl index = Ok ((static_table ++ l) !! Z.to_nat (index - 1)).
Proof. exact (find_index_rep tbl l index). Qed.

Lemma dtbl_find_correct_witness :
  tfw_hpack_find_index (dtbl_init 4096) 2 = Ok ((static_table ++ []) !! Z.to_nat (2 - 1)).
Proof. apply (dtbl_find_correct (dtbl_init 4096) [] 2); [apply dt_rep_init; lia | lia]. Defined.

Lemma set_length_rep (tbl : TfwHPackDTbl) (l : list TfwHPackEntry) (max_window new_size : Z) :
  dt_rep tbl l -> 0 <= new_size -> max_window < 2 ^ 31 ->
  (new_size <= max_window ->
     exists tbl', tfw_hpack_set_length max_window new_size tbl = Ok (0, tbl') /\
       dt_rep tbl' (keep l new_size) /\ d_window tbl' = new_size) /\
  (max_window < new_size -> tfw_hpack_set_length max_window new_size tbl = Ok (- EINVAL, tbl)).
Proof.
  intros (early & Hring & Hn & Hcurr & Hsize & Hle & HLmax & Hwmax) Hns Hmw.
  pose proof Hring as (HL & He0 & HeL & Hlen & _). rewrite zlen_rev in Hlen.
  pose proof (zlen_nonneg l) as Hl0. pose proof (total_cost_nonneg l) as Hpos.
  unfold tfw_hpack_set_length. split; intros Hmax;
    [rewrite (proj2 (Z.ltb_ge _ _)) by lia | by rewrite (proj2 (Z.ltb_lt _ _)) by lia].
  destruct (Z.ltb_spec new_size (d_size tbl)) as [Hs|Hs].
  - destruct (evict_loop_spec (S (Z.to_nat (zlen l))) (d_entries tbl) (d_length tbl) early
      (rev l) (total_cost (rev l)) new_size) as (k & Hk & Hkeep & Hev);
      [done | done | rewrite total_cost_rev; lia | rewrite total_cost_rev; lia
      | rewrite zlen_rev; lia | rewrite length_rev; unfold zlen; lia |].
    rewrite zlen_rev, total_cost_rev in Hev. rewrite Hn, Hcurr, eldest_spec, Hsize, Hev by lia.
    eexists. split; [done |]. split; [| done].
    destruct (ring_drop _ _ _ _ k Hring ltac:(lia)) as [Hr' Hc']. rewrite zlen_rev in Hc'.
    rewrite rev_involutive in Hkeep. rewrite <- Hkeep.
    eexists. cbn [d_entries d_length d_n d_curr d_size d_window]. rewrite rev_involutive, zlen_rev.
    split; [exact Hr' |]. split; [done |]. split; [by rewrite Hc' |].
    split; [by rewrite total_cost_rev |]. split; [| lia].
    rewrite <- total_cost_rev, Hkeep. by apply keep_size.
  - rewrite keep_all by lia. eexists. split; [done |]. split; [| done]. exists early.
    cbn [d_entries d_length d_n d_curr d_size d_window]. split_and!; try done; lia.
Qed.

(** A dynamic table size update within the limit of the connection
    keeps the newest entries that fit the new size and nothing else; above the
    limit it is refused and nothing changes. *)
Theorem dtbl_resize_correct (tbl : TfwHPackDTbl) (l : list TfwHPackEntry) (max_window new_size : Z) :
  dt_rep tbl l -> 0 <= new_size -> max_window < 2 ^ 31 ->
  (new_size <= max_window ->
     exists tbl', tfw_hpack_set_length max_window new_size tbl = Ok (0, tbl') /\
       dt_rep tbl' (keep l new_size) /\ d_window tbl' = new_size) /\
  (max_window < new_size -> tfw_hpack_set_length max_window new_size tbl = Ok (- EINVAL, tbl)).
Proof. exact (set_length_rep tbl l max_window new_size). Qed.

Lemma dtbl_resize_correct_witness :
  exists tbl', tfw_hpack_set_length 4096 100 (dtbl_init 4096) = Ok (0, tbl') /\
    dt_rep tbl' (keep [] 100) /\ d_window tbl' = 100.
Proof.
  destruct (dtbl_resize_correct (dtbl_init 4096) [] 4096 100) as [Hok _];
    [apply dt_rep_init; lia | lia | lia | apply Hok; lia].
Defined.

(** ** A write out of bounds *)

Fixpoint add_n (n : nat) (e : TfwHPackEntry) (tbl : TfwHPackDTbl) : outcome TfwHPackDTbl :=
  match n with
  | O => Ok tbl
  | S n' => match tfw_hpack_add_index ok_mem e tbl with
            | Ok (_, tbl') => add_n n' e tbl'
            | Bug => Bug
            end
  end.

(** Five headers are added, the table is emptied and reopened by two size
    updates, then 32 headers fill the array from its fifth cell on. *)
Definition shifted_table : outcome TfwHPackDTbl :=
  match add_n 5 (HP_ENTRY "a" "b" 0) (dtbl_init 4096) with
  | Ok t1 =>
      match tfw_hpack_set_length 4096 0 t1 with
      | Ok (_, t2) =>
          match tfw_hpack_set_length 4096 4096 t2 with
          | Ok (_, t3) => add_n 32 (HP_ENTRY "a" "b" 0) t3
          | Bug => Bug
          end
      | Bug => Bug
      end
  | Bug => Bug
  end.

(** The next header makes the array grow, in place or not, and the entries are
    copied to a place computed with byte counts in units of entries, beyond the
    array. *)
Theorem growth_out_of_bounds :
  match shifted_table with
  | Ok tbl =>
      d_n tbl = 32 /\ d_length tbl = 32 /\ d_curr tbl = 5 /\
      tfw_hpack_add_index ok_mem (HP_ENTRY "a" "b" 0) tbl = Bug /\
      tfw_hpack_add_index (MkMem (Some false) true) (HP_ENTRY "a" "b" 0) tbl = Bug
  | Bug => False
  end.
Proof. vm_compute. repeat split. Qed.
