(* ===== verification/HuffTbl.v ===== *)
(** The tables of the Huffman code ([fw/hpack_tbl.h]): code and length of every
    symbol, and the state machine of the decoder. *)

From S2P Require Import Prelude.
Local Open Scope Z_scope.

Definition HT_NBITS : Z := 7.
Definition HT_MBITS : Z := 3.
Definition HT_NMASK : Z := 127.
Definition HT_MMASK : Z := 7.
Definition HT_SMALL : Z := 640.
Definition HT_EOS_HIGH : Z := 0xFF.

Definition ht_encode : list Z := [
  0x1ff8; 0x7fffd8; 0xfffffe2; 0xfffffe3; 0xfffffe4; 0xfffffe5; 0xfffffe6; 0xfffffe7;
  0xfffffe8; 0xffffea; 0x3ffffffc; 0xfffffe9; 0xfffffea; 0x3ffffffd; 0xfffffeb; 0xfffffec;
  0xfffffed; 0xfffffee; 0xfffffef; 0xffffff0; 0xffffff1; 0xffffff2; 0x3ffffffe; 0xffffff3;
  0xffffff4; 0xffffff5; 0xffffff6; 0xffffff7; 0xffffff8; 0xffffff9; 0xffffffa; 0xffffffb; 0x14;
  0x3f8; 0x3f9; 0xffa; 0x1ff9; 0x15; 0xf8; 0x7fa; 0x3fa; 0x3fb; 0xf9; 0x7fb; 0xfa; 0x16; 0x17;
  0x18; 0x0; 0x1; 0x2; 0x19; 0x1a; 0x1b; 0x1c; 0x1d; 0x1e; 0x1f; 0x5c; 0xfb; 0x7ffc; 0x20;
  0xffb; 0x3fc; 0x1ffa; 0x21; 0x5d; 0x5e; 0x5f; 0x60; 0x61; 0x62; 0x63; 0x64; 0x65; 0x66; 0x67;
  0x68; 0x69; 0x6a; 0x6b; 0x6c; 0x6d; 0x6e; 0x6f; 0x70; 0x71; 0x72; 0xfc; 0x73; 0xfd; 0x1ffb;
  0x7fff0; 0x1ffc; 0x3ffc; 0x22; 0x7ffd; 0x3; 0x23; 0x4; 0x24; 0x5; 0x25; 0x26; 0x27; 0x6;
  0x74; 0x75; 0x28; 0x29; 0x2a; 0x7; 0x2b; 0x76; 0x2c; 0x8; 0x9; 0x2d; 0x77; 0x78; 0x79; 0x7a;
  0x7b; 0x7ffe; 0x7fc; 0x3ffd; 0x1ffd; 0xffffffc; 0xfffe6; 0x3fffd2; 0xfffe7; 0xfffe8;
  0x3fffd3; 0x3fffd4; 0x3fffd5; 0x7fffd9; 0x3fffd6; 0x7fffda; 0x7fffdb; 0x7fffdc; 0x7fffdd;
  0x7fffde; 0xffffeb; 0x7fffdf; 0xffffec; 0xffffed; 0x3fffd7; 0x7fffe0; 0xffffee; 0x7fffe1;
  0x7fffe2; 0x7fffe3; 0x7fffe4; 0x1fffdc; 0x3fffd8; 0x7fffe5; 0x3fffd9; 0x7fffe6; 0x7fffe7;
  0xffffef; 0x3fffda; 0x1fffdd; 0xfffe9; 0x3fffdb; 0x3fffdc; 0x7fffe8; 0x7fffe9; 0x1fffde;
  0x7fffea; 0x3fffdd; 0x3fffde; 0xfffff0; 0x1fffdf; 0x3fffdf; 0x7fffeb; 0x7fffec; 0x1fffe0;
  0x1fffe1; 0x3fffe0; 0x1fffe2; 0x7fffed; 0x3fffe1; 0x7fffee; 0x7fffef; 0xfffea; 0x3fffe2;
  0x3fffe3; 0x3fffe4; 0x7ffff0; 0x3fffe5; 0x3fffe6; 0x7ffff1; 0x3ffffe0; 0x3ffffe1; 0xfffeb;
  0x7fff1; 0x3fffe7; 0x7ffff2; 0x3fffe8; 0x1ffffec; 0x3ffffe2; 0x3ffffe3; 0x3ffffe4; 0x7ffffde;
  0x7ffffdf; 0x3ffffe5; 0xfffff1; 0x1ffffed; 0x7fff2; 0x1fffe3; 0x3ffffe6; 0x7ffffe0;
  0x7ffffe1; 0x3ffffe7; 0x7ffffe2; 0xfffff2; 0x1fffe4; 0x1fffe5; 0x3ffffe8; 0x3ffffe9;
  0xffffffd; 0x7ffffe3; 0x7ffffe4; 0x7ffffe5; 0xfffec; 0xfffff3; 0xfffed; 0x1fffe6; 0x3fffe9;
  0x1fffe7; 0x1fffe8; 0x7ffff3; 0x3fffea; 0x3fffeb; 0x1ffffee; 0x1ffffef; 0xfffff4; 0xfffff5;
  0x3ffffea; 0x7ffff4; 0x3ffffeb; 0x7ffffe6; 0x3ffffec; 0x3ffffed; 0x7ffffe7; 0x7ffffe8;
  0x7ffffe9; 0x7ffffea; 0x7ffffeb; 0xffffffe; 0x7ffffec; 0x7ffffed; 0x7ffffee; 0x7ffffef;
  0x7fffff0; 0x3ffffee].

Definition ht_length : list Z := [
  13; 23; 28; 28; 28; 28; 28; 28; 28; 24; 30; 28; 28; 30; 28; 28; 28; 28; 28; 28; 28; 28; 30;
  28; 28; 28; 28; 28; 28; 28; 28; 28; 6; 10; 10; 12; 13; 6; 8; 11; 10; 10; 8; 11; 8; 6; 6; 6;
  5; 5; 5; 6; 6; 6; 6; 6; 6; 6; 7; 8; 15; 6; 12; 10; 13; 6; 7; 7; 7; 7; 7; 7; 7; 7; 7; 7; 7; 7;
  7; 7; 7; 7; 7; 7; 7; 7; 7; 7; 8; 7; 8; 13; 19; 13; 14; 6; 15; 5; 6; 5; 6; 5; 6; 6; 6; 5; 7;
  7; 6; 6; 6; 5; 6; 7; 6; 5; 5; 6; 7; 7; 7; 7; 7; 15; 11; 14; 13; 28; 20; 22; 20; 20; 22; 22;
  22; 23; 22; 23; 23; 23; 23; 23; 24; 23; 24; 24; 22; 23; 24; 23; 23; 23; 23; 21; 22; 23; 22;
  23; 23; 24; 22; 21; 20; 22; 22; 23; 23; 21; 23; 22; 22; 24; 21; 22; 23; 23; 21; 21; 22; 21;
  23; 22; 23; 23; 20; 22; 22; 22; 23; 22; 22; 23; 26; 26; 20; 19; 22; 23; 22; 25; 26; 26; 26;
  27; 27; 26; 24; 25; 19; 21; 26; 27; 27; 26; 27; 24; 21; 21; 26; 26; 28; 27; 27; 27; 20; 24;
  20; 21; 22; 21; 21; 23; 22; 22; 25; 25; 24; 24; 26; 23; 26; 27; 26; 26; 27; 27; 27; 27; 27;
  28; 27; 27; 27; 27; 27; 26].

(** [HTState]: the pair of [shift] and [offset]. *)
Definition ht_decode : list (Z * Z) := [
  (5, 48); (5, 48); (5, 48); (5, 48); (5, 49); (5, 49); (5, 49); (5, 49); (5, 50); (5, 50);
  (5, 50); (5, 50); (5, 97); (5, 97); (5, 97); (5, 97); (5, 99); (5, 99); (5, 99); (5, 99);
  (5, 101); (5, 101); (5, 101); (5, 101); (5, 105); (5, 105); (5, 105); (5, 105); (5, 111);
  (5, 111); (5, 111); (5, 111); (5, 115); (5, 115); (5, 115); (5, 115); (5, 116); (5, 116);
  (5, 116); (5, 116); (6, 32); (6, 32); (6, 37); (6, 37); (6, 45); (6, 45); (6, 46); (6, 46);
  (6, 47); (6, 47); (6, 51); (6, 51); (6, 52); (6, 52); (6, 53); (6, 53); (6, 54); (6, 54);
  (6, 55); (6, 55); (6, 56); (6, 56); (6, 57); (6, 57); (6, 61); (6, 61); (6, 65); (6, 65);
  (6, 95); (6, 95); (6, 98); (6, 98); (6, 100); (6, 100); (6, 102); (6, 102); (6, 103);
  (6, 103); (6, 104); (6, 104); (6, 108); (6, 108); (6, 109); (6, 109); (6, 110); (6, 110);
  (6, 112); (6, 112); (6, 114); (6, 114); (6, 117); (6, 117); (7, 58); (7, 66); (7, 67);
  (7, 68); (7, 69); (7, 70); (7, 71); (7, 72); (7, 73); (7, 74); (7, 75); (7, 76); (7, 77);
  (7, 78); (7, 79); (7, 80); (7, 81); (7, 82); (7, 83); (7, 84); (7, 85); (7, 86); (7, 87);
  (7, 89); (7, 106); (7, 107); (7, 113); (7, 118); (7, 119); (7, 120); (7, 121); (7, 122);
  (-7, 640); (-7, 648); (-7, 656); (-7, 128); (3, 33); (3, 33); (3, 33); (3, 33); (3, 33);
  (3, 33); (3, 33); (3, 33); (3, 33); (3, 33); (3, 33); (3, 33); (3, 33); (3, 33); (3, 33);
  (3, 33); (3, 34); (3, 34); (3, 34); (3, 34); (3, 34); (3, 34); (3, 34); (3, 34); (3, 34);
  (3, 34); (3, 34); (3, 34); (3, 34); (3, 34); (3, 34); (3, 34); (3, 40); (3, 40); (3, 40);
  (3, 40); (3, 40); (3, 40); (3, 40); (3, 40); (3, 40); (3, 40); (3, 40); (3, 40); (3, 40);
  (3, 40); (3, 40); (3, 40); (3, 41); (3, 41); (3, 41); (3, 41); (3, 41); (3, 41); (3, 41);
  (3, 41); (3, 41); (3, 41); (3, 41); (3, 41); (3, 41); (3, 41); (3, 41); (3, 41); (3, 63);
  (3, 63); (3, 63); (3, 63); (3, 63); (3, 63); (3, 63); (3, 63); (3, 63); (3, 63); (3, 63);
  (3, 63); (3, 63); (3, 63); (3, 63); (3, 63); (4, 39); (4, 39); (4, 39); (4, 39); (4, 39);
  (4, 39); (4, 39); (4, 39); (4, 43); (4, 43); (4, 43); (4, 43); (4, 43); (4, 43); (4, 43);
  (4, 43); (4, 124); (4, 124); (4, 124); (4, 124); (4, 124); (4, 124); (4, 124); (4, 124);
  (5, 35); (5, 35); (5, 35); (5, 35); (5, 62); (5, 62); (5, 62); (5, 62); (6, 0); (6, 0);
  (6, 36); (6, 36); (6, 64); (6, 64); (6, 91); (6, 91); (6, 93); (6, 93); (6, 126); (6, 126);
  (7, 94); (7, 125); (-7, 664); (-7, 256); (1, 123); (1, 123); (1, 123); (1, 123); (1, 123);
  (1, 123); (1, 123); (1, 123); (1, 123); (1, 123); (1, 123); (1, 123); (1, 123); (1, 123);
  (1, 123); (1, 123); (1, 123); (1, 123); (1, 123); (1, 123); (1, 123); (1, 123); (1, 123);
  (1, 123); (1, 123); (1, 123); (1, 123); (1, 123); (1, 123); (1, 123); (1, 123); (1, 123);
  (1, 123); (1, 123); (1, 123); (1, 123); (1, 123); (1, 123); (1, 123); (1, 123); (1, 123);
  (1, 123); (1, 123); (1, 123); (1, 123); (1, 123); (1, 123); (1, 123); (1, 123); (1, 123);
  (1, 123); (1, 123); (1, 123); (1, 123); (1, 123); (1, 123); (1, 123); (1, 123); (1, 123);
  (1, 123); (1, 123); (1, 123); (1, 123); (1, 123); (5, 92); (5, 92); (5, 92); (5, 92);
  (5, -61); (5, -61); (5, -61); (5, -61); (5, -48); (5, -48); (5, -48); (5, -48); (6, -128);
  (6, -128); (6, -126); (6, -126); (6, -125); (6, -125); (6, -94); (6, -94); (6, -72);
  (6, -72); (6, -62); (6, -62); (6, -32); (6, -32); (6, -30); (6, -30); (7, -103); (7, -95);
  (7, -89); (7, -84); (7, -80); (7, -79); (7, -77); (7, -47); (7, -40); (7, -39); (7, -29);
  (7, -27); (7, -26); (-7, 672); (-7, 680); (-7, 688); (-7, 696); (-7, 704); (-7, 712);
  (-7, 720); (-7, 728); (-7, 736); (-7, 744); (-7, 752); (-7, 760); (-7, 768); (-7, 776);
  (-7, 784); (-7, 792); (-7, 800); (-7, 808); (-7, 816); (-7, 824); (-7, 832); (-7, 384);
  (-7, 512); (3, -85); (3, -85); (3, -85); (3, -85); (3, -85); (3, -85); (3, -85); (3, -85);
  (3, -85); (3, -85); (3, -85); (3, -85); (3, -85); (3, -85); (3, -85); (3, -85); (3, -50);
  (3, -50); (3, -50); (3, -50); (3, -50); (3, -50); (3, -50); (3, -50); (3, -50); (3, -50);
  (3, -50); (3, -50); (3, -50); (3, -50); (3, -50); (3, -50); (3, -41); (3, -41); (3, -41);
  (3, -41); (3, -41); (3, -41); (3, -41); (3, -41); (3, -41); (3, -41); (3, -41); (3, -41);
  (3, -41); (3, -41); (3, -41); (3, -41); (3, -31); (3, -31); (3, -31); (3, -31); (3, -31);
  (3, -31); (3, -31); (3, -31); (3, -31); (3, -31); (3, -31); (3, -31); (3, -31); (3, -31);
  (3, -31); (3, -31); (3, -20); (3, -20); (3, -20); (3, -20); (3, -20); (3, -20); (3, -20);
  (3, -20); (3, -20); (3, -20); (3, -20); (3, -20); (3, -20); (3, -20); (3, -20); (3, -20);
  (3, -19); (3, -19); (3, -19); (3, -19); (3, -19); (3, -19); (3, -19); (3, -19); (3, -19);
  (3, -19); (3, -19); (3, -19); (3, -19); (3, -19); (3, -19); (3, -19); (4, -57); (4, -57);
  (4, -57); (4, -57); (4, -57); (4, -57); (4, -57); (4, -57); (4, -49); (4, -49); (4, -49);
  (4, -49); (4, -49); (4, -49); (4, -49); (4, -49); (4, -22); (4, -22); (4, -22); (4, -22);
  (4, -22); (4, -22); (4, -22); (4, -22); (4, -21); (4, -21); (4, -21); (4, -21); (4, -21);
  (4, -21); (4, -21); (4, -21); (5, -64); (5, -64); (5, -64); (5, -64); (5, -63); (5, -63);
  (5, -63); (5, -63); (5, -56); (5, -56); (5, -56); (5, -56); (5, -55); (5, -55); (5, -55);
  (5, -55); (5, -54); (5, -54); (5, -54); (5, -54); (5, -51); (5, -51); (5, -51); (5, -51);
  (5, -46); (5, -46); (5, -46); (5, -46); (5, -43); (5, -43); (5, -43); (5, -43); (5, -38);
  (5, -38); (5, -38); (5, -38); (5, -37); (5, -37); (5, -37); (5, -37); (5, -18); (5, -18);
  (5, -18); (5, -18); (5, -16); (5, -16); (5, -16); (5, -16); (5, -14); (5, -14); (5, -14);
  (5, -14); (5, -13); (5, -13); (5, -13); (5, -13); (5, -1); (5, -1); (5, -1); (5, -1);
  (6, -53); (6, -53); (6, -52); (6, -52); (6, -45); (6, -45); (6, -44); (6, -44); (6, -42);
  (6, -42); (6, -35); (6, -35); (6, -34); (6, -34); (6, -33); (6, -33); (6, -15); (6, -15);
  (6, -12); (6, -12); (6, -11); (6, -11); (6, -10); (6, -10); (6, -9); (6, -9); (6, -8);
  (6, -8); (6, -6); (6, -6); (6, -5); (6, -5); (6, -4); (6, -4); (6, -3); (6, -3); (6, -2);
  (6, -2); (7, 2); (7, 3); (7, 4); (7, 5); (7, 6); (7, 7); (7, 8); (7, 11); (7, 12); (7, 14);
  (7, 15); (7, 16); (7, 17); (7, 18); (7, 19); (7, 20); (7, 21); (7, 23); (7, 24); (7, 25);
  (7, 26); (7, 27); (7, 28); (7, 29); (7, 30); (7, 31); (7, 127); (7, -36); (7, -7); (-7, 840);
  (5, 38); (5, 38); (5, 38); (5, 38); (5, 42); (5, 42); (5, 42); (5, 42); (5, 44); (5, 44);
  (5, 44); (5, 44); (5, 59); (5, 59); (5, 59); (5, 59); (5, 88); (5, 88); (5, 88); (5, 88);
  (5, 90); (5, 90); (5, 90); (5, 90); (5, 60); (5, 60); (5, 60); (5, 60); (5, 96); (5, 96);
  (5, 96); (5, 96); (5, -127); (5, -127); (5, -127); (5, -127); (5, -124); (5, -124);
  (5, -124); (5, -124); (5, -123); (5, -123); (5, -123); (5, -123); (5, -122); (5, -122);
  (5, -122); (5, -122); (5, -120); (5, -120); (5, -120); (5, -120); (5, -110); (5, -110);
  (5, -110); (5, -110); (5, -102); (5, -102); (5, -102); (5, -102); (5, -100); (5, -100);
  (5, -100); (5, -100); (5, -96); (5, -96); (5, -96); (5, -96); (5, -93); (5, -93); (5, -93);
  (5, -93); (5, -92); (5, -92); (5, -92); (5, -92); (5, -87); (5, -87); (5, -87); (5, -87);
  (5, -86); (5, -86); (5, -86); (5, -86); (5, -83); (5, -83); (5, -83); (5, -83); (5, -78);
  (5, -78); (5, -78); (5, -78); (5, -75); (5, -75); (5, -75); (5, -75); (5, -71); (5, -71);
  (5, -71); (5, -71); (5, -70); (5, -70); (5, -70); (5, -70); (5, -69); (5, -69); (5, -69);
  (5, -69); (5, -67); (5, -67); (5, -67); (5, -67); (5, -66); (5, -66); (5, -66); (5, -66);
  (5, -60); (5, -60); (5, -60); (5, -60); (5, -58); (5, -58); (5, -58); (5, -58); (5, -28);
  (5, -28); (5, -28); (5, -28); (5, -24); (5, -24); (5, -24); (5, -24); (5, -23); (5, -23);
  (5, -23); (5, -23); (6, 1); (6, 1); (6, -121); (6, -121); (6, -119); (6, -119); (6, -118);
  (6, -118); (6, -117); (6, -117); (6, -116); (6, -116); (6, -115); (6, -115); (6, -113);
  (6, -113); (6, -109); (6, -109); (6, -107); (6, -107); (6, -106); (6, -106); (6, -105);
  (6, -105); (6, -104); (6, -104); (6, -101); (6, -101); (6, -99); (6, -99); (6, -98);
  (6, -98); (6, -91); (6, -91); (6, -90); (6, -90); (6, -88); (6, -88); (6, -82); (6, -82);
  (6, -81); (6, -81); (6, -76); (6, -76); (6, -74); (6, -74); (6, -73); (6, -73); (6, -68);
  (6, -68); (6, -65); (6, -65); (6, -59); (6, -59); (6, -25); (6, -25); (6, -17); (6, -17);
  (7, 9); (7, -114); (7, -112); (7, -111); (7, -108); (7, -97); (6, 10); (6, 10); (6, 13);
  (6, 13); (6, 22); (6, 22); (-6, 0); (-6, 0)].
