(* ===== verification/Huffman.v ===== *)
(** Huffman decoding of HPACK strings ([fw/hpack.c], [tfw_huffman_decode()]).

    The decoder takes seven bits at a time from a 16-bit window and walks
    through the tables of [HuffTbl.v]; short tables take three bits.  A table
    index out of range is a [Bug]. *)

From S2P Require Import Prelude HuffTbl.
Local Open Scope Z_scope.

(** The part of [TfwHPack] the decoder works on. *)
Record huff : Type := MkHuff {
  h_curr : Z;
  h_hctx : Z;
  h_length : Z;
}.

Definition set_h_curr (v : Z) (h : huff) : huff := MkHuff v (h_hctx h) (h_length h).

Definition tfw_huffman_init (h : huff) : huff := set_h_curr (- HT_NBITS) h.

(** [SET_NEXT] *)
Definition SET_NEXT (b : Z) (h : huff) : huff :=
  MkHuff (h_curr h + 8) (u16 (Z.lor (Z.shiftl (h_hctx h) 8) b)) (h_length h - 1).

(** The return code, the state and the output. *)
Definition hres : Type := Z * huff * bytes.

Section decode.
(** Whether [tfw_hpack_huffman_write()] finds room behind the output so far. *)
Variable room : bytes -> bool.

Definition tfw_hpack_huffman_write (sym : Z) (out : bytes) : option bytes :=
  if room out then Some (out ++ [u8 sym]) else None.

(** [(i ^ (HT_EOS_HIGH >> 1)) < (1U << -hp->curr)] *)
Definition eos_padding (i curr : Z) : bool :=
  Z.lxor i (Z.shiftr HT_EOS_HIGH 1) <? Z.shiftl 1 (- curr).

(** Each round takes at least one of the at most seven bits left. *)
Fixpoint huffman_decode_tail (fuel : nat) (h : huff) (offset : Z) (out : bytes) : outcome hres :=
  match fuel with
  | O => Bug
  | S fuel' =>
      if h_curr h =? - HT_NBITS then Ok (if offset =? 0 then T_OK else T_DROP, h, out)
      else
        let i := Z.land (Z.shiftl (h_hctx h) (- h_curr h)) HT_NMASK in
        match ht_decode !! Z.to_nat (offset + i) with
        | None => Bug
        | Some (shift, off) =>
            if 0 <? shift then
              if shift <=? h_curr h + HT_NBITS then
                match tfw_hpack_huffman_write off out with
                | None => Ok (T_DROP, h, out)
                | Some out' =>
                    huffman_decode_tail fuel' (set_h_curr (h_curr h - shift) h) 0 out'
                end
              else Ok (if (offset =? 0) && eos_padding i (h_curr h) then T_OK else T_DROP, h, out)
            else if shift <? 0 then
              Ok (if (offset =? 0) && eos_padding i (h_curr h) then T_OK else T_DROP, h, out)
            else Ok (T_DROP, h, out)
        end
  end.

Definition huffman_decode_tail_s (h : huff) (offset : Z) (out : bytes) : outcome hres :=
  if h_curr h =? - HT_MBITS then Ok (T_DROP, h, out)
  else
    let i := Z.land (Z.shiftl (h_hctx h) (- h_curr h)) HT_MMASK in
    match ht_decode !! Z.to_nat (offset + i) with
    | None => Bug
    | Some (shift, off) =>
        if (0 <? shift) && (shift <=? h_curr h + HT_NBITS) then
          match tfw_hpack_huffman_write off out with
          | None => Ok (T_DROP, h, out)
          | Some out' => huffman_decode_tail 8 (set_h_curr (h_curr h - shift) h) 0 out'
          end
        else Ok (T_DROP, h, out)
    end.

(** A look into the table at [offset]: a symbol is written, a negative shift names
    the next table. *)
Definition huffman_walk (next : bool -> huff -> bytes -> Z -> bytes -> outcome hres)
    (small : bool) (offset : Z) (out : bytes) (h : huff) (src : bytes) : outcome hres :=
  let i := Z.land (Z.shiftr (h_hctx h) (h_curr h)) (if small then HT_MMASK else HT_NMASK) in
  match ht_decode !! Z.to_nat (offset + i) with
  | None => Bug
  | Some (shift, off) =>
      if 0 <? shift then
        match tfw_hpack_huffman_write off out with
        | None => Ok (T_DROP, h, out)
        | Some out' => next false (set_h_curr (h_curr h - shift) h) src 0 out'
        end
      else if negb small && (shift <? 0) then
        let h' := set_h_curr (h_curr h + shift) h in
        if HT_SMALL <=? off then
          next true (set_h_curr (h_curr h' + (HT_NBITS - HT_MBITS)) h') src off out
        else if off =? 0 then Ok (T_DROP, h', out)
        else next false h' src off out
      else Ok (T_DROP, h, out)
  end.

(** The two nested loops of [tfw_huffman_decode()]: the inner one walks through
    the big tables ([small = false]), the block behind it looks into a short
    table.  [offset] is a local variable of the C function.  Every round takes at
    least one bit. *)
Fixpoint huffman_loop (fuel : nat) (small : bool) (h : huff) (src : bytes) (offset : Z)
    (out : bytes) : outcome hres :=
  match fuel with
  | O => Bug
  | S fuel' =>
      let walk := huffman_walk (huffman_loop fuel') small offset out in
      if (if small then h_curr h <? 0 else h_curr h <=? 0) then
        match src with
        | b :: src' => walk (SET_NEXT b h) src'
        | [] =>
            if negb (h_length h =? 0) then Ok (T_POSTPONE, h, out)
            else if small then huffman_decode_tail_s h offset out
            else huffman_decode_tail 8 h offset out
        end
      else walk h src
  end.

Definition tfw_huffman_decode (h : huff) (src : bytes) (out : bytes) : outcome hres :=
  match src with
  | [] => Ok (T_OK, h, out)
  | b :: src' => huffman_loop (8 * length src + 9) false (SET_NEXT b h) src' 0 out
  end.
End decode.

(** ** Bit strings, the most significant bit first *)

Fixpoint bval (l : list bool) : Z :=
  match l with
  | [] => 0
  | b :: l' => Z.b2z b * 2 ^ zlen l' + bval l'
  end.

Fixpoint bits_of (n : nat) (x : Z) : list bool :=
  match n with
  | O => []
  | S n' => Z.testbit x (Z.of_nat n') :: bits_of n' x
  end.

Lemma bits_of_length n x : length (bits_of n x) = n.
Proof. induction n; simpl; auto. Qed.

Lemma bval_range l : 0 <= bval l < 2 ^ zlen l.
Proof.
  induction l as [|b l IH]; [done |]. cbn [bval].
  assert (E : zlen (b :: l) = Z.succ (zlen l)) by (unfold zlen; cbn [length]; lia).
  rewrite E, Z.pow_succ_r by apply zlen_nonneg. destruct b; simpl; lia.
Qed.

Lemma bval_app l k : bval (l ++ k) = bval l * 2 ^ zlen k + bval k.
Proof.
  induction l as [|b l IH]; [done |]. rewrite <- app_comm_cons. cbn [bval].
  rewrite zlen_app, Z.pow_add_r by apply zlen_nonneg. rewrite IH. lia.
Qed.

Lemma bval_bits n x : bval (bits_of n x) = x mod 2 ^ Z.of_nat n.
Proof.
  induction n as [|n IH]; [simpl; by rewrite Z.mod_1_r |]. cbn [bits_of bval].
  unfold zlen. rewrite bits_of_length, IH.
  replace (Z.of_nat (S n)) with (Z.of_nat n + 1) by lia.
  rewrite Z.pow_add_r by lia. change (2 ^ 1) with 2.
  rewrite Z.rem_mul_r by lia. rewrite Z.testbit_spec' by lia. lia.
Qed.

Lemma bits_of_split a b x :
  bits_of (a + b) x = bits_of a (Z.shiftr x (Z.of_nat b)) ++ bits_of b x.
Proof.
  induction a as [|a IH]; [done |]. cbn [bits_of Nat.add app]. rewrite IH. f_equal.
  rewrite Z.shiftr_spec by lia. f_equal. lia.
Qed.

Lemma bits_of_mod n m x : (n <= m)%nat -> bits_of n (x mod 2 ^ Z.of_nat m) = bits_of n x.
Proof.
  induction n as [|n IH]; intros Hn; [done |]. cbn [bits_of]. rewrite IH by lia. f_equal.
  apply Z.mod_pow2_bits_low. lia.
Qed.

(** A byte shifted into the window. *)
Lemma bits_of_push n x b :
  (n + 8 <= 16)%nat -> is_u8 b ->
  bits_of (n + 8) (u16 (Z.lor (Z.shiftl x 8) b)) = bits_of n x ++ bits_of 8 b.
Proof.
  intros Hn Hb. unfold is_u8 in Hb. change (u16 ?z) with (z mod 2 ^ Z.of_nat 16).
  rewrite bits_of_mod by lia. rewrite bits_of_split. f_equal.
  - rewrite Z.shiftr_lor, Z.shiftr_shiftl_l, Z.shiftl_0_r by lia.
    rewrite (Z.shiftr_div_pow2 b) by lia. rewrite Z.div_small by lia. by rewrite Z.lor_0_r.
  - rewrite <- (bits_of_mod 8 8) by lia. f_equal.
    rewrite Z.lor_comm, Z.shiftl_mul_pow2 by lia. rewrite lor_low_high by lia.
    change (Z.of_nat 8) with 8. rewrite Z.mod_add by lia. by apply Z.mod_small.
Qed.

Lemma bits_of_take a b x : take a (bits_of (a + b) x) = bits_of a (Z.shiftr x (Z.of_nat b)).
Proof. rewrite bits_of_split. by rewrite take_app_length' by (by rewrite bits_of_length). Qed.

Lemma bits_of_drop a b x : drop a (bits_of (a + b) x) = bits_of b x.
Proof. rewrite bits_of_split. by rewrite drop_app_length' by (by rewrite bits_of_length). Qed.

Definition byte_bits (src : bytes) : list bool := flat_map (bits_of 8) src.

(** ** The decoder on a bit string *)

Section bit_machine.
Variable room : bytes -> bool.

Definition bres : Type := Z * bytes.

(** The first [n] bits, with zeros for the missing ones. *)
Definition pref (n : nat) (R : list bool) : Z := bval (take n (R ++ replicate n false)).

Fixpoint bm_tail (fuel : nat) (R : list bool) (offset : Z) (out : bytes) : outcome bres :=
  match fuel with
  | O => Bug
  | S fuel' =>
      if (length R =? 0)%nat then Ok (if offset =? 0 then T_OK else T_DROP, out)
      else
        let i := pref 7 R in
        match ht_decode !! Z.to_nat (offset + i) with
        | None => Bug
        | Some (shift, off) =>
            if 0 <? shift then
              if shift <=? zlen R then
                match tfw_hpack_huffman_write room off out with
                | None => Ok (T_DROP, out)
                | Some out' => bm_tail fuel' (drop (Z.to_nat shift) R) 0 out'
                end
              else Ok (if (offset =? 0) && eos_padding i (zlen R - 7) then T_OK else T_DROP, out)
            else if shift <? 0 then
              Ok (if (offset =? 0) && eos_padding i (zlen R - 7) then T_OK else T_DROP, out)
            else Ok (T_DROP, out)
        end
  end.

Definition bm_tail_s (R : list bool) (offset : Z) (out : bytes) : outcome bres :=
  if (length R =? 0)%nat then Ok (T_DROP, out)
  else
    match ht_decode !! Z.to_nat (offset + pref 3 R) with
    | None => Bug
    | Some (shift, off) =>
        if (0 <? shift) && (shift - 4 <=? zlen R) then
          match tfw_hpack_huffman_write room off out with
          | None => Ok (T_DROP, out)
          | Some out' => bm_tail 8 (drop (Z.to_nat (shift - 4)) R) 0 out'
          end
        else Ok (T_DROP, out)
    end.

Fixpoint bm (fuel : nat) (small : bool) (R : list bool) (offset : Z) (out : bytes)
  : outcome bres :=
  match fuel with
  | O => Bug
  | S fuel' =>
      if (length R <? if small then 3 else 8)%nat then
        if small then bm_tail_s R offset out else bm_tail 8 R offset out
      else
        match ht_decode !! Z.to_nat (offset + pref (if small then 3 else 7) R) with
        | None => Bug
        | Some (shift, off) =>
            if 0 <? shift then
              match tfw_hpack_huffman_write room off out with
              | None => Ok (T_DROP, out)
              | Some out' =>
                  bm fuel' false (drop (Z.to_nat (if small then shift - 4 else shift)) R) 0 out'
              end
            else if negb small && (shift <? 0) then
              let R' := drop (Z.to_nat (- shift)) R in
              if HT_SMALL <=? off then bm fuel' true R' off out
              else if off =? 0 then Ok (T_DROP, out)
              else bm fuel' false R' off out
            else Ok (T_DROP, out)
        end
  end.
End bit_machine.

(** ** The window and the bit string *)

Lemma pref_long n R : (n <= length R)%nat -> pref n R = bval (take n R).
Proof. intros Hn. unfold pref. by rewrite take_app_le. Qed.

Lemma bval_zeros n : bval (replicate n false) = 0.
Proof. induction n; simpl; lia. Qed.

Lemma pref_short n R : (length R <= n)%nat -> pref n R = bval R * 2 ^ Z.of_nat (n - length R).
Proof.
  intros Hn. unfold pref. rewrite take_app_ge by done. rewrite take_replicate, bval_app, bval_zeros.
  unfold zlen. rewrite length_replicate. rewrite Nat.min_l by lia. lia.
Qed.

(** Bits left of the window in the two modes. *)
Definition width (small : bool) : Z := if small then 3 else 7.

Definition rel (small : bool) (h : huff) (src : bytes) (R : list bool) : Prop :=
  exists n : nat, (n <= 15)%nat /\ h_curr h = Z.of_nat n - width small /\
    R = bits_of n (h_hctx h) ++ byte_bits src /\ h_length h = zlen src /\ bytes_ok src.

Lemma rel_length small h src R :
  rel small h src R -> zlen R = h_curr h + width small + 8 * zlen src.
Proof.
  intros (n & Hn & Hc & -> & _ & _). rewrite zlen_app. unfold zlen at 1. rewrite bits_of_length.
  rewrite Hc. assert (E : zlen (byte_bits src) = 8 * zlen src).
  { unfold byte_bits. induction src as [|b src IH]; [done |]. cbn [flat_map].
    rewrite zlen_app, IH. unfold zlen. rewrite bits_of_length. cbn [length]. lia. }
  rewrite E. lia.
Qed.

(** Loading a byte changes the window but not the bit string. *)
Lemma rel_next small h b src R :
  rel small h (b :: src) R -> h_curr h <= 0 -> rel small (SET_NEXT b h) src R.
Proof.
  intros (n & Hn & Hc & -> & Hl & Hb) H0. apply Forall_cons in Hb as [Hb Hbs].
  assert (Hn7 : (n <= 7)%nat) by (unfold width in Hc; destruct small; lia).
  exists (n + 8)%nat. cbn [SET_NEXT h_curr h_hctx h_length]. split; [lia |]. split; [lia |].
  split; [| split; [unfold zlen in *; cbn [length] in *; lia | done]].
  rewrite bits_of_push by (done || lia). unfold byte_bits. cbn [flat_map]. by rewrite app_assoc.
Qed.

(** Taking [k] bits. *)
Lemma rel_take small small' h src R k c :
  rel small h src R -> 0 <= k <= h_curr h + width small ->
  c = h_curr h + width small - k - width small' ->
  rel small' (set_h_curr c h) src (drop (Z.to_nat k) R).
Proof.
  intros (n & Hn & Hc & -> & Hl & Hb) Hk ->. exists (n - Z.to_nat k)%nat.
  cbn [set_h_curr h_curr h_hctx h_length]. split; [lia |]. split; [lia |]. split; [| done].
  replace n with (Z.to_nat k + (n - Z.to_nat k))%nat at 1 by lia.
  rewrite drop_app_le by (rewrite bits_of_length; lia). by rewrite bits_of_drop.
Qed.

(** The index into a table, with enough bits in the window. *)
Lemma rel_index small h src R :
  rel small h src R -> 0 <= h_curr h ->
  Z.land (Z.shiftr (h_hctx h) (h_curr h)) (if small then HT_MMASK else HT_NMASK) =
    pref (Z.to_nat (width small)) R.
Proof.
  intros (n & Hn & Hc & -> & _ & _) H0.
  assert (Hw : exists w : nat, width small = Z.of_nat w /\
    (if small then HT_MMASK else HT_NMASK) = Z.ones (Z.of_nat w))
    by (destruct small; [by exists 3%nat | by exists 7%nat]).
  destruct Hw as (w & Hw & ->). rewrite Hw in *. rewrite Nat2Z.id.
  rewrite pref_long by (rewrite length_app, bits_of_length; lia).
  rewrite take_app_le by (rewrite bits_of_length; lia).
  replace n with (w + Z.to_nat (h_curr h))%nat by lia.
  rewrite bits_of_take, bval_bits, Z2Nat.id by lia. by rewrite Z.land_ones by lia.
Qed.

(** ... and with fewer: zeros are shifted in. *)
Lemma rel_index_tail small h R :
  rel small h [] R -> h_curr h <= 0 ->
  Z.land (Z.shiftl (h_hctx h) (- h_curr h)) (if small then HT_MMASK else HT_NMASK) =
    pref (Z.to_nat (width small)) R.
Proof.
  intros (n & Hn & Hc & -> & _ & _) H0. unfold byte_bits. simpl flat_map. rewrite app_nil_r.
  assert (Hw : exists w : nat, width small = Z.of_nat w /\
    (if small then HT_MMASK else HT_NMASK) = Z.ones (Z.of_nat w))
    by (destruct small; [by exists 3%nat | by exists 7%nat]).
  destruct Hw as (w & Hw & ->). rewrite Hw in *. rewrite Nat2Z.id.
  rewrite pref_short by (rewrite bits_of_length; lia). rewrite bits_of_length, bval_bits.
  rewrite Z.land_ones, Z.shiftl_mul_pow2 by lia.
  replace (- h_curr h) with (Z.of_nat (w - n)) by lia.
  replace (Z.of_nat w) with (Z.of_nat n + Z.of_nat (w - n)) by lia.
  rewrite Z.pow_add_r by lia. by rewrite Z.mul_mod_distr_r by lia.
Qed.

(** ** The tables *)

(** Every entry takes at most seven bits; the short tables name their three bits
    plus four. *)
Definition entry_ok (k : nat) (e : Z * Z) : bool :=
  (-7 <=? fst e) && (fst e <=? 7) &&
  ((k <? 640)%nat || (fst e <? 0) || (5 <=? fst e)).

Lemma ht_decode_entries : forallb (fun k => match ht_decode !! k with
  | Some e => entry_ok k e | None => false end) (seq 0 (length ht_decode)) = true.
Proof. vm_compute. reflexivity. Qed.

Lemma ht_decode_ok k e : ht_decode !! k = Some e -> entry_ok k e = true.
Proof.
  intros He. pose proof ht_decode_entries as Hall. rewrite forallb_forall in Hall.
  specialize (Hall k). rewrite He in Hall. apply Hall. apply in_seq.
  apply lookup_lt_Some in He. lia.
Qed.

(** ** The decoder is the bit machine *)

Definition drop_state (r : outcome hres) : outcome bres :=
  match r with
  | Ok (c, _, out) => Ok (c, out)
  | Bug => Bug
  end.

Lemma pref_nonneg n R : 0 <= pref n R.
Proof. apply bval_range. Qed.

Lemma entry_small offset n R e :
  640 <= offset -> ht_decode !! Z.to_nat (offset + pref n R) = Some e -> 0 < fst e ->
  5 <= fst e <= 7.
Proof.
  intros Ho He Hp. apply ht_decode_ok in He. unfold entry_ok in He.
  pose proof (pref_nonneg n R). bool_hyps. rewrite !orb_true_iff in *.
  rewrite Nat.ltb_lt in *. lia.
Qed.

Lemma entry_range k e : ht_decode !! k = Some e -> -7 <= fst e <= 7.
Proof. intros He. apply ht_decode_ok in He. unfold entry_ok in He. bool_hyps. lia. Qed.

Section simulation.
Variable room : bytes -> bool.

Lemma tail_sim fuel h R offset out :
  rel false h [] R -> h_curr h <= 0 ->
  drop_state (huffman_decode_tail room fuel h offset out) = bm_tail room fuel R offset out.
Proof.
  revert h R offset out. induction fuel as [|fuel IH]; intros h R offset out Hr H0; [done |].
  cbn [huffman_decode_tail bm_tail]. pose proof (rel_length _ _ _ _ Hr) as Hl.
  cbn [width] in Hl. change (zlen (@nil Z)) with 0 in Hl.
  pose proof (rel_index_tail _ _ _ Hr H0) as Hi. cbn [width] in Hi.
  replace (h_curr h =? - HT_NBITS) with (length R =? 0)%nat
    by (apply Bool.eq_iff_eq_true; rewrite Nat.eqb_eq, Z.eqb_eq; unfold zlen, HT_NBITS in *; lia).
  destruct (length R =? 0)%nat; [by case_match |]. rewrite Hi. change (Z.to_nat 7) with 7%nat.
  destruct (ht_decode !! _) as [[shift off]|] eqn:He; [| done].
  apply entry_range in He. cbn [fst] in He.
  replace (h_curr h + HT_NBITS) with (zlen R) by (unfold HT_NBITS; lia).
  replace (zlen R - 7) with (h_curr h) by lia.
  destruct (Z.ltb_spec 0 shift); [| by repeat case_match].
  destruct (Z.leb_spec shift (zlen R)); [| by repeat case_match].
  destruct (tfw_hpack_huffman_write _ _ _) as [out'|]; [| done].
  apply IH; [| cbn; lia]. eapply rel_take; [exact Hr | cbn [width]; lia | cbn [width]; lia].
Qed.

Lemma tail_s_sim h R offset out :
  640 <= offset -> rel true h [] R -> h_curr h <= 0 ->
  drop_state (huffman_decode_tail_s room h offset out) = bm_tail_s room R offset out.
Proof.
  intros Ho Hr H0. unfold huffman_decode_tail_s, bm_tail_s.
  pose proof (rel_length _ _ _ _ Hr) as Hl. cbn [width] in Hl. change (zlen (@nil Z)) with 0 in Hl.
  pose proof (rel_index_tail _ _ _ Hr H0) as Hi. cbn [width] in Hi.
  replace (h_curr h =? - HT_MBITS) with (length R =? 0)%nat
    by (apply Bool.eq_iff_eq_true; rewrite Nat.eqb_eq, Z.eqb_eq; unfold zlen, HT_MBITS in *; lia).
  destruct (length R =? 0)%nat; [done |]. rewrite Hi. change (Z.to_nat 3) with 3%nat.
  destruct (ht_decode !! _) as [[shift off]|] eqn:He; [| done].
  destruct (Z.ltb_spec 0 shift); [| done].
  apply entry_small in He; [| done | done]. cbn [fst] in He.
  replace (shift <=? h_curr h + HT_NBITS) with (shift - 4 <=? zlen R)
    by (apply Bool.eq_iff_eq_true; rewrite !Z.leb_le; unfold HT_NBITS; lia).
  destruct (Z.leb_spec (shift - 4) (zlen R)); cbn [andb]; [| done].
  destruct (tfw_hpack_huffman_write _ _ _) as [out'|]; [| done].
  apply tail_sim; [| cbn; lia]. eapply rel_take; [exact Hr | cbn [width]; lia | cbn [width]; lia].
Qed.

Theorem huffman_loop_sim fuel small h src R offset out :
  rel small h src R -> (small = true -> 640 <= offset) ->
  drop_state (huffman_loop room fuel small h src offset out) = bm room fuel small R offset out.
Proof.
  revert small h src R offset out.
  induction fuel as [|fuel IH]; intros small h src R offset out Hr Ho; [done |].
  cbn [huffman_loop bm].
  (* one step, with enough bits in the window *)
  set (walk := huffman_walk room (huffman_loop room fuel) small offset out).
  assert (Hwalk : forall h src, rel small h src R -> (if small then 0 else 1) <= h_curr h ->
    drop_state (walk h src) =
      match ht_decode !! Z.to_nat (offset + pref (if small then 3 else 7) R) with
      | None => Bug
      | Some (shift, off) =>
          if 0 <? shift then
            match tfw_hpack_huffman_write room off out with
            | None => Ok (T_DROP, out)
            | Some out' =>
                bm room fuel false (drop (Z.to_nat (if small then shift - 4 else shift)) R) 0 out'
            end
          else if negb small && (shift <? 0) then
            let R' := drop (Z.to_nat (- shift)) R in
            if HT_SMALL <=? off then bm room fuel true R' off out
            else if off =? 0 then Ok (T_DROP, out)
            else bm room fuel false R' off out
          else Ok (T_DROP, out)
      end).
  { clear h src Hr. intros h src Hr Hc. subst walk. unfold huffman_walk.
    rewrite (rel_index _ _ _ _ Hr) by (destruct small; lia).
    replace (Z.to_nat (width small)) with (if small then 3 else 7)%nat by (by destruct small).
    destruct (ht_decode !! _) as [[shift off]|] eqn:He; [| done].
    pose proof (entry_range _ _ He) as Hrange. cbn [fst] in Hrange.
    destruct (Z.ltb_spec 0 shift) as [Hs|Hs].
    - destruct (tfw_hpack_huffman_write _ _ _) as [out'|]; [| done].
      apply IH; [| done]. destruct small.
      + apply entry_small in He; [| auto | done]. cbn [fst] in He.
        eapply rel_take; [exact Hr | cbn [width]; lia | cbn [width]; lia].
      + eapply rel_take; [exact Hr | cbn [width]; lia | cbn [width]; lia].
    - destruct small; cbn [negb andb]; [done |].
      destruct (Z.ltb_spec shift 0) as [Hn|Hn]; [| done].
      destruct (Z.leb_spec HT_SMALL off) as [Hoff|Hoff].
      + apply IH; [| intros _; exact Hoff].
        replace (set_h_curr (h_curr (set_h_curr (h_curr h + shift) h) + (HT_NBITS - HT_MBITS))
          (set_h_curr (h_curr h + shift) h))
          with (set_h_curr (h_curr h + shift + 4) h) by done.
        eapply rel_take; [exact Hr | cbn [width]; lia | cbn [width]; lia].
      + destruct (off =? 0); [done |]. apply IH; [| done].
        eapply rel_take; [exact Hr | cbn [width]; lia | cbn [width]; lia]. }
  clearbody walk. pose proof (rel_length _ _ _ _ Hr) as Hl.
  pose proof Hr as (n & Hn & Hcn & _ & Hlen & _).
  destruct (if small then h_curr h <? 0 else h_curr h <=? 0) eqn:Hload.
  - assert (Hc0 : h_curr h <= 0) by (destruct small; bool_hyps; lia).
    destruct src as [|b src].
    + change (zlen (@nil Z)) with 0 in *. rewrite Hlen. cbn [negb Z.eqb].
      destruct (Nat.ltb_spec (length R) (if small then 3 else 8)%nat) as [_|Hge].
      2: { exfalso. unfold zlen in Hl. destruct small; cbn [width] in *; bool_hyps; lia. }
      destruct small; [apply tail_s_sim | apply tail_sim]; auto.
    + apply rel_next in Hr; [| done].
      destruct (Nat.ltb_spec (length R) (if small then 3 else 8)%nat) as [Hlt|_].
      * exfalso. unfold zlen in Hl. cbn [length] in Hl. destruct small; cbn [width] in *; lia.
      * apply Hwalk; [done |]. cbn [SET_NEXT h_curr]. destruct small; cbn [width] in *; lia.
  - destruct (Nat.ltb_spec (length R) (if small then 3 else 8)%nat) as [Hlt|_].
    + exfalso. pose proof (zlen_nonneg src). unfold zlen in Hl.
      destruct small; cbn [width] in *; bool_hyps; lia.
    + apply Hwalk; [done |]. destruct small; bool_hyps; lia.
Qed.

(** From the first byte on. *)
Lemma huffman_decode_sim c src out :
  src <> [] -> bytes_ok src ->
  drop_state (tfw_huffman_decode room (MkHuff (- HT_NBITS) c (zlen src)) src out) =
    bm room (8 * length src + 9) false (byte_bits src) 0 out.
Proof.
  intros Hne Hb. destruct src as [|b src]; [done |]. unfold tfw_huffman_decode.
  apply huffman_loop_sim; [| done].
  apply rel_next; [| cbn; unfold HT_NBITS; lia].
  exists 0%nat. cbn [h_curr h_length]. unfold HT_NBITS, width. repeat split; done || lia.
Qed.
End simulation.

(** ** The code and the tables agree *)

(** The bits of a symbol, RFC 7541 appendix B. *)
Definition code (c : Z) : list bool :=
  bits_of (Z.to_nat (default 0 (ht_length !! Z.to_nat c))) (default 0 (ht_encode !! Z.to_nat c)).

(** A byte as the [char] of the tables. *)
Definition as_char (c : Z) : Z := if c <? 128 then c else c - 256.

Lemma as_char_u8 c : is_u8 c -> u8 (as_char c) = c.
Proof.
  unfold is_u8, as_char, u8. intros Hc. case_match; bool_hyps; [by apply Z.mod_small |].
  rewrite <- (Z.mod_add _ 1) by lia. rewrite Z.mod_small; lia.
Qed.

Fixpoint all_bits (n : nat) : list (list bool) :=
  match n with
  | O => [[]]
  | S n' => flat_map (fun l => [false :: l; true :: l]) (all_bits n')
  end.

(** The table at [offset] maps [C], with whatever follows it, to [c]. *)
Definition leads_to (w : nat) (extra offset : Z) (C : list bool) (c : Z) : bool :=
  (1 <=? length C)%nat && (length C <=? w)%nat &&
  forallb (fun k =>
    bool_decide (ht_decode !! Z.to_nat (offset + bval (C ++ k)) = Some (zlen C + extra, as_char c)))
    (all_bits (w - length C)).

(** Following the bits [C] of a code from the table at [offset] ends at [c]. *)
Fixpoint sym_walk (fuel : nat) (small : bool) (offset : Z) (C : list bool) (c : Z) : bool :=
  match fuel with
  | O => false
  | S fuel' =>
      if small then leads_to 3 4 offset C c
      else if (length C <=? 7)%nat then leads_to 7 0 offset C c
      else
        match ht_decode !! Z.to_nat (offset + bval (take 7 C)) with
        | Some (shift, off) =>
            (shift <? 0) && negb (off =? 0) &&
            sym_walk fuel' (HT_SMALL <=? off) off (drop (Z.to_nat (- shift)) C) c
        | None => false
        end
  end.

Lemma all_symbols_walk :
  forallb (fun k => sym_walk 8 false 0 (code (Z.of_nat k)) (Z.of_nat k)) (seq 0 256) = true.
Proof. vm_compute. reflexivity. Qed.

Lemma symbol_walk c : is_u8 c -> sym_walk 8 false 0 (code c) c = true.
Proof.
  intros Hc. unfold is_u8 in Hc. pose proof all_symbols_walk as Hall.
  rewrite forallb_forall in Hall. specialize (Hall (Z.to_nat c)).
  rewrite Z2Nat.id in Hall by lia. apply Hall, in_seq. lia.
Qed.

Lemma all_bits_in l : In l (all_bits (length l)).
Proof.
  induction l as [|b l IH]; [by left |]. cbn [length all_bits]. apply in_flat_map.
  exists l. split; [done |]. destruct b; [right; left | left]; done.
Qed.

Lemma leads_to_lookup w extra offset C rest c :
  leads_to w extra offset C c = true ->
  ht_decode !! Z.to_nat (offset + pref w (C ++ rest)) = Some (zlen C + extra, as_char c).
Proof.
  unfold leads_to. rewrite !andb_true_iff, !Nat.leb_le. intros [[H1 Hw] Hall].
  rewrite forallb_forall in Hall. unfold pref. rewrite <- app_assoc.
  rewrite take_app_ge by done.
  set (k := take (w - length C) (rest ++ replicate w false)).
  specialize (Hall k). rewrite bool_decide_eq_true in Hall. apply Hall.
  replace (w - length C)%nat with (length k); [apply all_bits_in |].
  subst k. rewrite length_take, length_app, length_replicate. lia.
Qed.

Lemma leads_to_len w extra offset C c :
  leads_to w extra offset C c = true -> (1 <= length C <= w)%nat.
Proof. unfold leads_to. rewrite !andb_true_iff, !Nat.leb_le. tauto. Qed.

(** ** Decoding *)

Section decodes.
Variable room : bytes -> bool.

(** From a symbol boundary, with [R] left, the result is [r]. *)
Definition decodes (R : list bool) (out : bytes) (r : bres) : Prop :=
  (forall fuel, (length R < fuel)%nat -> bm room fuel false R 0 out = Ok r) /\
  ((length R <= 7)%nat ->
   forall fuel, (length R < fuel)%nat -> bm_tail room fuel R 0 out = Ok r).

Lemma write_u8 c out :
  room out = true -> is_u8 c -> tfw_hpack_huffman_write room (as_char c) out = Some (out ++ [c]).
Proof. intros Hr Hc. unfold tfw_hpack_huffman_write. by rewrite Hr, as_char_u8. Qed.

Lemma bm_tail_symbol fuel C rest offset c out r :
  leads_to 7 0 offset C c = true -> room out = true -> is_u8 c ->
  decodes rest (out ++ [c]) r -> (length (C ++ rest) <= 7)%nat ->
  (length (C ++ rest) < fuel)%nat ->
  bm_tail room fuel (C ++ rest) offset out = Ok r.
Proof.
  intros Hl Hr Hc [_ Hd] H7 Hf. pose proof (leads_to_len _ _ _ _ _ Hl) as HC.
  destruct fuel as [|fuel]; [lia |]. cbn [bm_tail]. rewrite length_app in *.
  rewrite (proj2 (Nat.eqb_neq _ _)) by lia.
  rewrite (leads_to_lookup _ _ _ _ _ _ Hl), Z.add_0_r, zlen_app.
  pose proof (zlen_nonneg rest). rewrite (proj2 (Z.ltb_lt 0 _)) by (unfold zlen; lia).
  rewrite (proj2 (Z.leb_le _ _)) by lia. rewrite write_u8 by done.
  unfold zlen. rewrite Nat2Z.id, drop_app_length. apply Hd; lia.
Qed.

Lemma bm_symbol steps fuel small offset C rest c out r :
  sym_walk steps small offset C c = true -> room out = true -> is_u8 c ->
  decodes rest (out ++ [c]) r -> (length (C ++ rest) < fuel)%nat ->
  bm room fuel small (C ++ rest) offset out = Ok r.
Proof.
  intros Hs Hr Hc Hd. revert fuel small offset C Hs.
  induction steps as [|steps IH]; intros fuel small offset C Hs Hf; [done |].
  destruct fuel as [|fuel]; [lia |]. cbn [sym_walk] in Hs. cbn [bm].
  pose proof Hf as Hf'. rewrite length_app in Hf'. destruct small.
  - pose proof (leads_to_len _ _ _ _ _ Hs) as HC.
    pose proof (leads_to_lookup _ _ _ _ rest _ Hs) as He.
    assert (Hdrop : drop (Z.to_nat (zlen C + 4 - 4)) (C ++ rest) = rest)
      by (unfold zlen; rewrite Z.add_simpl_r, Nat2Z.id; apply drop_app_length).
    destruct (Nat.ltb_spec (length (C ++ rest)) 3) as [Ht|Ht].
    + unfold bm_tail_s. rewrite (proj2 (Nat.eqb_neq _ _)) by (rewrite length_app; lia).
      rewrite He, zlen_app. rewrite (proj2 (Z.ltb_lt 0 _)) by (unfold zlen; lia).
      pose proof (zlen_nonneg rest). rewrite (proj2 (Z.leb_le _ _)) by lia. cbn [andb].
      rewrite write_u8 by done. rewrite Hdrop. rewrite length_app in Ht. apply Hd; lia.
    + rewrite He. rewrite (proj2 (Z.ltb_lt 0 _)) by (unfold zlen; lia).
      rewrite write_u8 by done. rewrite Hdrop. apply Hd. lia.
  - destruct (Nat.ltb_spec (length (C ++ rest)) 8) as [Ht|Ht].
    + rewrite length_app in Ht. rewrite (proj2 (Nat.leb_le _ _)) in Hs by lia.
      eapply bm_tail_symbol; [exact Hs | done | done | exact Hd | |]; rewrite length_app; lia.
    + destruct (Nat.leb_spec (length C) 7) as [H7|H7].
      * pose proof (leads_to_len _ _ _ _ _ Hs) as HC.
        rewrite (leads_to_lookup _ _ _ _ _ _ Hs), Z.add_0_r.
        rewrite (proj2 (Z.ltb_lt 0 _)) by (unfold zlen; lia). rewrite write_u8 by done.
        unfold zlen. rewrite Nat2Z.id, drop_app_length. apply Hd. lia.
      * rewrite pref_long by lia. rewrite take_app_le by lia.
        destruct (ht_decode !! _) as [[shift off]|] eqn:He; [| done].
        apply entry_range in He. cbn [fst] in He. bool_hyps.
        rewrite (proj2 (Z.ltb_ge 0 _)) by lia. cbn [negb].
        rewrite (proj2 (Z.ltb_lt shift _)) by lia. cbn [andb].
        rewrite drop_app_le by lia.
        assert (Hlen : (length (drop (Z.to_nat (- shift)) C ++ rest) < fuel)%nat)
          by (rewrite length_app, length_drop; lia).
        destruct (HT_SMALL <=? off); [by apply IH |].
        rewrite (proj2 (Z.eqb_neq off 0)) by lia. by apply IH.
Qed.

Lemma decodes_symbol c rest out r :
  is_u8 c -> room out = true -> decodes rest (out ++ [c]) r -> decodes (code c ++ rest) out r.
Proof.
  intros Hc Hr Hd. pose proof (symbol_walk c Hc) as Hw. split.
  - intros fuel Hf. by eapply bm_symbol.
  - intros H7 fuel Hf. cbn [sym_walk] in Hw. pose proof H7 as H7'. rewrite length_app in H7'.
    rewrite (proj2 (Nat.leb_le _ _)) in Hw by lia. by eapply bm_tail_symbol.
Qed.

(** Up to seven ones are padding. *)
Lemma decodes_padding n out : (n <= 7)%nat -> decodes (replicate n true) out (T_OK, out).
Proof.
  intros Hn. assert (Ht : forall fuel, (n < fuel)%nat ->
    bm_tail room fuel (replicate n true) 0 out = Ok (T_OK, out)).
  { intros [|fuel] Hf; [lia |]. do 8 (destruct n as [|n]; [reflexivity |]). lia. }
  split; [| intros _ fuel Hf; apply Ht; rewrite length_replicate in Hf; lia].
  intros [|fuel] Hf; [lia |]. cbn [bm].
  rewrite (proj2 (Nat.ltb_lt _ _)) by (rewrite length_replicate; lia). apply Ht. lia.
Qed.

Lemma decodes_string s out n :
  bytes_ok s -> (n <= 7)%nat ->
  (forall p, p `prefix_of` s -> room (out ++ p) = true) ->
  decodes (flat_map code s ++ replicate n true) out (T_OK, out ++ s).
Proof.
  intros Hs Hn. revert out. induction s as [|c s IH]; intros out Hr.
  - rewrite app_nil_r. by apply decodes_padding.
  - apply Forall_cons in Hs as [Hc Hs]. cbn [flat_map]. rewrite <- app_assoc.
    apply decodes_symbol; [done | rewrite <- (app_nil_r out); apply Hr, prefix_nil |].
    replace (out ++ c :: s) with ((out ++ [c]) ++ s) by (by rewrite <- app_assoc).
    apply IH; [done |]. intros p Hp. rewrite <- app_assoc. by apply Hr, prefix_cons.
Qed.

(** Bytes whose bits are a coded string and its padding decode to the string. *)
Theorem huffman_decode_bits s n src c out :
  bytes_ok s -> (n <= 7)%nat -> bytes_ok src ->
  byte_bits src = flat_map code s ++ replicate n true ->
  (forall p, p `prefix_of` s -> room (out ++ p) = true) -> src <> [] ->
  exists h, tfw_huffman_decode room (MkHuff (- HT_NBITS) c (zlen src)) src out =
    Ok (T_OK, h, out ++ s).
Proof.
  intros Hs Hn Hsrc Hbits Hr Hne.
  pose proof (huffman_decode_sim room c src out Hne Hsrc) as Hsim.
  destruct (decodes_string s out n Hs Hn Hr) as [Hd _]. rewrite <- Hbits in Hd.
  rewrite Hd in Hsim.
  - destruct (tfw_huffman_decode _ _ _ _) as [[[r h] o]|]; [| done].
    cbn [drop_state] in Hsim. simplify_eq. by exists h.
  - assert (E : length (byte_bits src) = (8 * length src)%nat); [| lia].
    unfold byte_bits. clear. induction src as [|b src IH]; [done |].
    cbn [flat_map]. rewrite length_app, IH, bits_of_length. cbn [length]. lia.
Qed.
End decodes.

(** C19: a Huffman-coded string that arrives in one piece, padded with fewer than eight
    one bits, is decoded to the string that RFC 7541 appendix B assigns to it: the table machine,
    its tails and its end-of-string test accept it, for every string over all 256 symbols. *)
Theorem huffman_decode_correct (room : bytes -> bool) (s src out : bytes) (n : nat) (ctx : Z) :
  bytes_ok s -> (n <= 7)%nat -> bytes_ok src -> src <> [] ->
  byte_bits src = flat_map code s ++ replicate n true ->
  (forall p, p `prefix_of` s -> room (out ++ p) = true) ->
  exists h, tfw_huffman_decode room (tfw_huffman_init (MkHuff 0 ctx (zlen src))) src out =
    Ok (T_OK, h, out ++ s).
Proof. intros. apply (huffman_decode_bits room s n src ctx out); assumption. Qed.

(** "custom-key", RFC 7541 C.4.3. *)
Lemma huffman_decode_witness :
  exists h, tfw_huffman_decode (fun _ => true) (tfw_huffman_init (MkHuff 0 0 8))
    [0x25; 0xa8; 0x49; 0xe9; 0x5b; 0xa9; 0x7d; 0x7f] [] =
    Ok (T_OK, h, [99; 117; 115; 116; 111; 109; 45; 107; 101; 121]).
Proof.
  apply (huffman_decode_correct (fun _ => true) [99; 117; 115; 116; 111; 109; 45; 107; 101; 121]
    [0x25; 0xa8; 0x49; 0xe9; 0x5b; 0xa9; 0x7d; 0x7f] [] 7 0).
  - repeat constructor; unfold is_u8; lia.
  - lia.
  - repeat constructor; unfold is_u8; lia.
  - discriminate.
  - vm_compute. reflexivity.
  - reflexivity.
Defined.

(** The table reached so far is a local variable: a string cut inside a code is
    decoded from the first table again.  "&&" in two pieces becomes an error. *)
Theorem huffman_fragments_lose_table :
  (exists h, tfw_huffman_decode (fun _ => true) (tfw_huffman_init (MkHuff 0 0 2)) [0xf8; 0xf8] [] =
     Ok (T_OK, h, [38; 38])) /\
  exists h h', tfw_huffman_decode (fun _ => true) (tfw_huffman_init (MkHuff 0 0 2)) [0xf8] [] =
      Ok (T_POSTPONE, h, []) /\
    tfw_huffman_decode (fun _ => true) h [0xf8] [] = Ok (T_DROP, h', [72]).
Proof.
  split; [eexists; vm_compute; reflexivity |].
  eexists _, _. split; [vm_compute; reflexivity |]. vm_compute. reflexivity.
Qed.
