(* ===== verification/HuffEnc.v ===== *)
(** Huffman encoding of HPACK strings ([fw/hpack.c], [tfw_huffman_encode_string()]).

    The encoder gathers bits in a 64-bit word and stores full words to the
    destination through a pointer to [u64]; the machine is little-endian.  A store outside
    the destination is a [Bug].  A string is the list of its chunks. *)

From S2P Require Import Prelude HuffTbl Huffman.
Local Open Scope Z_scope.

Fixpoint le_bytes (n : nat) (x : Z) : bytes :=
  match n with
  | O => []
  | S n' => x mod 256 :: le_bytes n' (Z.shiftr x 8)
  end.

Fixpoint le_val (l : bytes) : Z :=
  match l with
  | [] => 0
  | b :: l' => b + 256 * le_val l'
  end.

Definition cpu_to_be64 (x : Z) : Z := le_val (rev (le_bytes 8 x)).

(** A store of the bytes [bs] at [dst]. *)
Definition poke (dst : Z) (bs buf : bytes) : outcome bytes :=
  if (0 <=? dst) && (dst + zlen bs <=? zlen buf) then
    Ok (take (Z.to_nat dst) buf ++ bs ++ drop (Z.to_nat dst + length bs) buf)
  else Bug.

(** The locals of [tfw_huffman_encode_copy()]: [dst] is the byte offset in [buf],
    [dst_end] is the end of [buf]. *)
Record encoder : Type := MkEncoder {
  e_off : Z;
  e_last_word : Z;
  e_dst : Z;
  e_buf : bytes;
}.

(** [None] is [-EINVAL]. *)
Definition eres : Type := outcome (option encoder).

Definition JOIN_BITS (a len b : Z) : Z := Z.lor (u64 (Z.shiftl a len)) b.

(** The macro increments [dst] as it is declared, a pointer to [u64]: by eight
    bytes for each byte it writes. *)
Fixpoint write_bytes (n : nat) (e : encoder) : eres :=
  match n with
  | O => Ok (Some e)
  | S n' =>
      if zlen (e_buf e) - e_dst e =? 0 then Ok None
      else
        match poke (e_dst e) [u8 (e_last_word e)] (e_buf e) with
        | Bug => Bug
        | Ok buf =>
            write_bytes n'
              (MkEncoder (e_off e) (Z.shiftr (e_last_word e) 8) (e_dst e + 8) buf)
        end
  end.

(** A store of the low [n] bytes of [last_word], if there is room. *)
Definition store_word (n : nat) (e : encoder) : eres :=
  if Z.of_nat n <=? zlen (e_buf e) - e_dst e then
    match poke (e_dst e) (le_bytes n (e_last_word e)) (e_buf e) with
    | Bug => Bug
    | Ok buf => Ok (Some (MkEncoder (e_off e) (e_last_word e) (e_dst e + Z.of_nat n) buf))
    end
  else write_bytes n e.

Definition set_last_word (w : Z) (e : encoder) : encoder :=
  MkEncoder (e_off e) w (e_dst e) (e_buf e).

Definition set_off (o : Z) (e : encoder) : encoder :=
  MkEncoder o (e_last_word e) (e_dst e) (e_buf e).

Definition ebind (r : eres) (f : encoder -> eres) : eres :=
  match r with
  | Ok (Some e) => f e
  | r => r
  end.

(** [t[i]]; [None] is a read outside the table. *)
Definition table_at (t : list Z) (i : Z) : option Z :=
  if i <? zlen t then t !! Z.to_nat i else None.

(** One symbol.  [c->data[i]] is a [char]: a symbol above 127 becomes a huge
    [unsigned int] and the table look-ups leave the tables.  [cpu_to_be64()] comes
    only with the store of a whole word. *)
Definition encode_symbol (c : Z) (e : encoder) : eres :=
  let s := u32 (as_char c) in
  let d := 64 - e_off e in
  match table_at ht_encode s, table_at ht_length s with
  | Some x, Some l =>
      let off := e_off e + l in
      if l <=? d then
        Ok (Some (MkEncoder off (JOIN_BITS (e_last_word e) l x) (e_dst e) (e_buf e)))
      else
        let off := off - 64 in
        let w := JOIN_BITS (e_last_word e) d (Z.shiftr x off) in
        let e := MkEncoder off w (e_dst e) (e_buf e) in
        ebind
          (if 8 <=? zlen (e_buf e) - e_dst e then store_word 8 (set_last_word (cpu_to_be64 w) e)
           else write_bytes 8 e)
          (fun e => Ok (Some (set_last_word x e)))
  | _, _ => Bug
  end.

Fixpoint encode_chunk (s : bytes) (e : encoder) : eres :=
  match s with
  | [] => Ok (Some e)
  | c :: s' => ebind (encode_symbol c e) (encode_chunk s')
  end.

Fixpoint encode_chunks (cs : list bytes) (e : encoder) : eres :=
  match cs with
  | [] => Ok (Some e)
  | s :: cs' => ebind (encode_chunk s e) (encode_chunks cs')
  end.

(** The pending bytes, in memory order, are stored by words, halves and bytes. *)
Definition store_tail (e : encoder) : eres :=
  if e_off e =? 64 then store_word 8 e
  else
    ebind
      (if 31 <? e_off e then
         ebind (store_word 4 e) (fun e =>
           Ok (Some (set_off (e_off e - 32)
             (set_last_word (Z.shiftr (e_last_word e) 32) e))))
       else Ok (Some e))
      (fun e =>
    ebind
      (if 15 <? e_off e then
         ebind (store_word 2 e) (fun e =>
           Ok (Some (set_off (e_off e - 16)
             (set_last_word (Z.shiftr (e_last_word e) 16) e))))
       else Ok (Some e))
      (fun e =>
    if e_off e =? 0 then Ok (Some e)
    else if zlen (e_buf e) - e_dst e =? 0 then Ok None
    else
      match poke (e_dst e) [u8 (e_last_word e)] (e_buf e) with
      | Bug => Bug
      | Ok buf => Ok (Some (MkEncoder (e_off e) (e_last_word e) (e_dst e) buf))
      end)).

(** The block behind the loops: pad with ones up to a byte and store. *)
Definition encode_tail (e : encoder) : eres :=
  if e_off e =? 0 then Ok (Some e)
  else
    let tail := Z.land (e_off e) 7 in
    let e :=
      if tail =? 0 then e
      else
        let d := 8 - tail in
        MkEncoder (e_off e + d) (JOIN_BITS (e_last_word e) d (Z.shiftr HT_EOS_HIGH tail))
          (e_dst e) (e_buf e) in
    store_tail (set_last_word (cpu_to_be64 (u64 (Z.shiftl (e_last_word e) (64 - e_off e)))) e).

Definition tfw_huffman_encode_copy (src : list bytes) (dst : bytes) : outcome (option bytes) :=
  match ebind (encode_chunks src (MkEncoder 0 0 0 dst)) encode_tail with
  | Bug => Bug
  | Ok None => Ok None
  | Ok (Some e) => Ok (Some (e_buf e))
  end.

Definition tfw_huffman_encode_string_len (src : list bytes) : Z :=
  Z.shiftr (fold_left (fun n c => n + default 0 (ht_length !! Z.to_nat c)) (concat src) 0 + 7) 3.

(** [alloc] is the fresh memory [tfw_pool_alloc()] gives for a size. *)
Definition tfw_huffman_encode_string (alloc : Z -> option bytes) (str : list bytes)
  : outcome (Z + bytes) :=
  let enc_len := tfw_huffman_encode_string_len str in
  if enc_len =? 0 then Ok (inl (- EINVAL))
  else
    match alloc enc_len with
    | None => Ok (inl (- ENOMEM))
    | Some dst =>
        match tfw_huffman_encode_copy str dst with
        | Bug => Bug
        | Ok None => Ok (inl (- EINVAL))
        | Ok (Some buf) => Ok (inr buf)
        end
    end.

Definition zeroed (n : Z) : option bytes := Some (replicate (Z.to_nat n) 0).

(** "www.example.com", RFC 7541 C.4.1. *)
Example encode_www :
  tfw_huffman_encode_string zeroed [[119; 119; 119; 46]; [101; 120; 97; 109; 112; 108; 101];
    [46; 99; 111; 109]] =
  Ok (inr [0xf1; 0xe3; 0xc2; 0xe5; 0xf2; 0x3a; 0x6b; 0xa0; 0xab; 0x90; 0xf4; 0xff]).
Proof. vm_compute. reflexivity. Qed.

(** ** Bits of joined words *)

Lemma bits_of_ext n x y :
  (forall i, 0 <= i < Z.of_nat n -> Z.testbit x i = Z.testbit y i) -> bits_of n x = bits_of n y.
Proof.
  induction n as [|n IH]; intros H; [done |]. cbn [bits_of].
  rewrite (H (Z.of_nat n)) by lia. f_equal. apply IH. intros i Hi. apply H. lia.
Qed.

Lemma testbit_above b k i : 0 <= b < 2 ^ k -> k <= i -> Z.testbit b i = false.
Proof.
  intros Hb Hi. destruct (Z.eq_dec b 0) as [->|Hne]; [apply Z.bits_0 |].
  apply Z.bits_above_log2; [lia |]. apply Z.lt_le_trans with k; [| done].
  apply Z.log2_lt_pow2; lia.
Qed.

Lemma bits_of_join n k x b :
  (n + k <= 64)%nat -> 0 <= b < 2 ^ Z.of_nat k ->
  bits_of (n + k) (JOIN_BITS x (Z.of_nat k) b) = bits_of n x ++ bits_of k b.
Proof.
  intros Hn Hb. unfold JOIN_BITS, u64. rewrite bits_of_split. f_equal; apply bits_of_ext; intros i Hi.
  - rewrite Z.shiftr_spec, Z.lor_spec by lia. rewrite (testbit_above b (Z.of_nat k)) by lia.
    rewrite orb_false_r. change (2 ^ 64) with (2 ^ Z.of_nat 64).
    rewrite Z.mod_pow2_bits_low by lia. rewrite Z.shiftl_spec by lia. f_equal. lia.
  - rewrite Z.lor_spec. change (2 ^ 64) with (2 ^ Z.of_nat 64).
    rewrite Z.mod_pow2_bits_low by lia. rewrite Z.shiftl_spec_low by lia. done.
Qed.

Lemma byte_bits_app l k : byte_bits (l ++ k) = byte_bits l ++ byte_bits k.
Proof. apply flat_map_app. Qed.

Lemma byte_bits_length l : length (byte_bits l) = (8 * length l)%nat.
Proof.
  unfold byte_bits. induction l as [|b l IH]; [done |]. cbn [flat_map length].
  rewrite length_app, IH, bits_of_length. lia.
Qed.

(** ** Words as bytes *)

Lemma le_bytes_length n x : length (le_bytes n x) = n.
Proof. revert x. induction n as [|n IH]; intros x; simpl; auto. Qed.

Lemma le_bytes_ok n x : bytes_ok (le_bytes n x).
Proof.
  revert x. induction n as [|n IH]; intros x; [constructor |]. constructor; [| apply IH].
  unfold is_u8. apply Z.mod_pos_bound. lia.
Qed.

Lemma le_bytes_add a b x :
  le_bytes (a + b) x = le_bytes a x ++ le_bytes b (Z.shiftr x (8 * Z.of_nat a)).
Proof.
  revert x. induction a as [|a IH]; intros x; [by rewrite Z.shiftr_0_r |].
  cbn [Nat.add le_bytes app]. rewrite IH, Z.shiftr_shiftr by lia. do 4 f_equal. lia.
Qed.

Lemma le_bytes_val l : bytes_ok l -> le_bytes (length l) (le_val l) = l.
Proof.
  induction l as [|b l IH]; intros Hl; [done |]. apply Forall_cons in Hl as [Hb Hl].
  cbn [length le_bytes le_val]. unfold is_u8 in Hb. f_equal.
  - rewrite Z.mul_comm, Z.mod_add by lia. by apply Z.mod_small.
  - rewrite Z.shiftr_div_pow2 by lia. change (2 ^ 8) with 256.
    rewrite Z.mul_comm, Z.div_add, Z.div_small by lia. by apply IH.
Qed.

(** The bytes of a word in memory order, after [cpu_to_be64()]. *)
Lemma be64_bytes x : le_bytes 8 (cpu_to_be64 x) = rev (le_bytes 8 x).
Proof.
  unfold cpu_to_be64.
  assert (E : length (rev (le_bytes 8 x)) = 8%nat) by (by rewrite length_rev, le_bytes_length).
  rewrite <- E at 1. apply le_bytes_val. apply Forall_rev, le_bytes_ok.
Qed.

Lemma be_bits n x : byte_bits (rev (le_bytes n x)) = bits_of (8 * n) x.
Proof.
  revert x. induction n as [|n IH]; intros x; [done |]. cbn [le_bytes rev].
  rewrite byte_bits_app, IH. replace (8 * S n)%nat with (8 * n + 8)%nat by lia.
  rewrite bits_of_split. f_equal. unfold byte_bits. cbn [flat_map]. rewrite app_nil_r.
  by apply (bits_of_mod 8 8).
Qed.

(** ** The destination *)

Lemma poke_app out rest bs :
  (length bs <= length rest)%nat ->
  poke (zlen out) bs (out ++ rest) = Ok ((out ++ bs) ++ drop (length bs) rest).
Proof.
  intros Hl. unfold poke. pose proof (zlen_nonneg out). rewrite zlen_app.
  rewrite (proj2 (Z.leb_le 0 _)) by done.
  rewrite (proj2 (Z.leb_le _ _)) by (unfold zlen; lia). cbn [andb]. unfold zlen.
  rewrite Nat2Z.id, take_app_length, <- drop_drop, drop_app_length. by rewrite app_assoc.
Qed.

Lemma store_word_app n out rest off w :
  (n <= length rest)%nat ->
  store_word n (MkEncoder off w (zlen out) (out ++ rest)) =
    Ok (Some (MkEncoder off w (zlen (out ++ le_bytes n w))
      ((out ++ le_bytes n w) ++ drop n rest))).
Proof.
  intros Hn. unfold store_word. cbn [e_buf e_dst e_off e_last_word].
  rewrite zlen_app. rewrite (proj2 (Z.leb_le _ _)) by (unfold zlen; lia).
  rewrite poke_app by (by rewrite le_bytes_length). rewrite le_bytes_length.
  do 3 f_equal. rewrite zlen_app. unfold zlen. by rewrite le_bytes_length.
Qed.

(** ** The invariant of the loops *)

Lemma code_table : forallb (fun k =>
  match ht_encode !! k, ht_length !! k with
  | Some x, Some l => (0 <=? x) && (x <? 2 ^ l) && (5 <=? l) && (l <=? 30)
  | _, _ => false
  end) (seq 0 256) = true.
Proof. vm_compute. reflexivity. Qed.

Lemma code_entry c :
  is_u8 c ->
  exists x l, ht_encode !! Z.to_nat c = Some x /\ ht_length !! Z.to_nat c = Some l /\
    0 <= x < 2 ^ l /\ 5 <= l <= 30 /\ code c = bits_of (Z.to_nat l) x.
Proof.
  intros Hc. unfold is_u8 in Hc. pose proof code_table as Hall. rewrite forallb_forall in Hall.
  specialize (Hall (Z.to_nat c) ltac:(apply in_seq; lia)).
  destruct (ht_encode !! _) as [x|] eqn:Hx; [| done].
  destruct (ht_length !! _) as [l|] eqn:Hl; [| done]. bool_hyps.
  exists x, l. unfold code. rewrite Hx, Hl. by repeat split; try lia.
Qed.

(** After the symbols [s]: full words in the destination, the rest in the word. *)
Definition enc_inv (L : Z) (s : bytes) (e : encoder) : Prop :=
  exists out rest, e_buf e = out ++ rest /\ e_dst e = zlen out /\ zlen (e_buf e) = L /\
    bytes_ok out /\ 0 <= e_off e <= 64 /\
    byte_bits out ++ bits_of (Z.to_nat (e_off e)) (e_last_word e) = flat_map code s.

Lemma enc_inv_bits L s e : enc_inv L s e -> 8 * e_dst e + e_off e = zlen (flat_map code s).
Proof.
  intros (out & rest & _ & -> & _ & _ & Ho & <-). rewrite zlen_app. unfold zlen.
  rewrite byte_bits_length, bits_of_length. lia.
Qed.

Lemma encode_symbol_inv L s c e :
  0 <= c < 128 -> enc_inv L s e -> zlen (flat_map code (s ++ [c])) <= 8 * L ->
  exists e', encode_symbol c e = Ok (Some e') /\ enc_inv L (s ++ [c]) e'.
Proof.
  intros Hc Hi Hfit. pose proof (enc_inv_bits _ _ _ Hi) as Hn.
  destruct Hi as (out & rest & Hb & Hd & HL & Hok & Ho & Hbits).
  destruct e as [off w dst buf]. cbn [e_off e_last_word e_dst e_buf] in *. subst buf dst.
  destruct (code_entry c) as (x & l & Hx & Hl & Hxl & Hlr & Hcode); [unfold is_u8; lia |].
  rewrite flat_map_app in Hfit. cbn [flat_map] in Hfit. rewrite app_nil_r, zlen_app, Hcode in Hfit.
  unfold zlen at 2 in Hfit. rewrite bits_of_length in Hfit.
  unfold encode_symbol. cbn [e_off e_last_word e_dst e_buf].
  replace (u32 (as_char c)) with c
    by (unfold as_char; rewrite (proj2 (Z.ltb_lt _ _)) by lia; unfold u32;
        by rewrite Z.mod_small by lia).
  unfold table_at. change (zlen ht_encode) with 256. change (zlen ht_length) with 256.
  rewrite (proj2 (Z.ltb_lt _ _)) by lia.
  rewrite Hx, Hl. destruct (Z.leb_spec l (64 - off)) as [Hfits|Hover].
  - eexists. split; [done |]. exists out, rest. cbn [e_off e_last_word e_dst e_buf].
    split_and!; try done; try lia. rewrite flat_map_app. cbn [flat_map].
    rewrite app_nil_r, Hcode, <- Hbits, <- app_assoc. f_equal.
    replace (Z.to_nat (off + l)) with (Z.to_nat off + Z.to_nat l)%nat by lia.
    rewrite <- (Z2Nat.id l) at 2 by lia. apply bits_of_join; [lia |]. by rewrite Z2Nat.id by lia.
  - set (o' := off + l - 64). set (W := JOIN_BITS w (64 - off) (Z.shiftr x o')).
    assert (Ho' : o' = off + l - 64) by done. clearbody o'.
    rewrite zlen_app in HL. rewrite zlen_app.
    rewrite (proj2 (Z.leb_le 8 _)) by lia. unfold set_last_word.
    cbn [e_off e_last_word e_dst e_buf]. rewrite store_word_app by (unfold zlen in *; lia).
    cbn [ebind]. eexists. split; [done |].
    cbn [e_off e_last_word e_dst e_buf].
    exists (out ++ le_bytes 8 (cpu_to_be64 W)), (drop 8 rest). cbn [e_off e_last_word e_dst e_buf].
    split; [done |]. split; [done |]. split.
    { rewrite zlen_app, zlen_app. unfold zlen in *. rewrite le_bytes_length, length_drop. lia. }
    split; [apply Forall_app; split; [done | apply le_bytes_ok] |]. split; [lia |].
    rewrite byte_bits_app, be64_bytes, be_bits, flat_map_app. cbn [flat_map].
    rewrite app_nil_r, Hcode, <- Hbits, <- !app_assoc. f_equal.
    assert (HW : bits_of 64 W = bits_of (Z.to_nat off) w ++
                                bits_of (Z.to_nat (64 - off)) (Z.shiftr x o')).
    { replace 64%nat with (Z.to_nat off + Z.to_nat (64 - off))%nat at 1 by lia. subst W.
      rewrite <- (Z2Nat.id (64 - off)) at 2 by lia. apply bits_of_join; [lia |].
      rewrite Z2Nat.id by lia. rewrite Z.shiftr_div_pow2 by lia. split; [apply Z.div_pos; lia |].
      apply Z.div_lt_upper_bound; [lia |]. rewrite <- Z.pow_add_r by lia.
      replace (o' + (64 - off)) with l by lia. lia. }
    change (8 * 8)%nat with 64%nat. rewrite HW, <- app_assoc. f_equal.
    replace (Z.to_nat l) with (Z.to_nat (64 - off) + Z.to_nat o')%nat by lia.
    rewrite bits_of_split. by rewrite Z2Nat.id by lia.
Qed.

Lemma encode_chunk_inv L s s' e :
  Forall (fun c => 0 <= c < 128) s' -> enc_inv L s e ->
  zlen (flat_map code (s ++ s')) <= 8 * L ->
  exists e', encode_chunk s' e = Ok (Some e') /\ enc_inv L (s ++ s') e'.
Proof.
  revert s e. induction s' as [|c s' IH]; intros s e Hs Hi Hfit.
  - rewrite app_nil_r. by exists e.
  - apply Forall_cons in Hs as [Hc Hs]. replace (s ++ c :: s') with ((s ++ [c]) ++ s') in *
      by (by rewrite <- app_assoc).
    destruct (encode_symbol_inv L s c e) as (e1 & He & Hi1); [done | done | |].
    { rewrite flat_map_app, zlen_app in Hfit. pose proof (zlen_nonneg (flat_map code s')). lia. }
    cbn [encode_chunk]. rewrite He. cbn [ebind]. by apply IH.
Qed.

Lemma encode_chunks_concat cs e : encode_chunks cs e = encode_chunk (concat cs) e.
Proof.
  revert e. induction cs as [|s cs IH]; intros e; [done |]. cbn [encode_chunks concat].
  assert (Happ : forall s e, ebind (encode_chunk s e) (encode_chunk (concat cs)) =
    encode_chunk (s ++ concat cs) e).
  { clear s e. induction s as [|c s IHs]; intros e; [done |]. cbn [encode_chunk app].
    destruct (encode_symbol c e) as [[e1|]|]; [| done | done]. cbn [ebind]. apply IHs. }
  rewrite <- Happ. destruct (encode_chunk s e) as [[e1|]|]; [apply IH | done | done].
Qed.

(** ** The last word *)

Lemma eos_bits tail : 0 < tail < 8 ->
  bits_of (Z.to_nat (8 - tail)) (Z.shiftr HT_EOS_HIGH tail) = replicate (Z.to_nat (8 - tail)) true /\
  0 <= Z.shiftr HT_EOS_HIGH tail < 2 ^ (8 - tail).
Proof.
  intros Ht. assert (tail = 1 \/ tail = 2 \/ tail = 3 \/ tail = 4 \/ tail = 5 \/ tail = 6 \/
    tail = 7) as [->|[->|[->|[->|[->|[->| ->]]]]]] by lia; by vm_compute.
Qed.

(** The first [k] bytes stored are the first [8 * k] bits of the word. *)
Lemma last_word_bits k w :
  (k <= 8)%nat ->
  byte_bits (le_bytes k (cpu_to_be64 (u64 (Z.shiftl w (64 - 8 * Z.of_nat k))))) =
    bits_of (8 * k) w.
Proof.
  intros Hk. set (W := u64 (Z.shiftl w (64 - 8 * Z.of_nat k))).
  assert (H64 : byte_bits (le_bytes 8 (cpu_to_be64 W)) = bits_of 64 W)
    by (by rewrite be64_bytes, be_bits).
  pose proof (le_bytes_add k (8 - k) (cpu_to_be64 W)) as Ha.
  replace (k + (8 - k))%nat with 8%nat in Ha by lia. rewrite Ha, byte_bits_app in H64.
  apply (f_equal (take (8 * k))) in H64.
  rewrite take_app_length' in H64 by (by rewrite byte_bits_length, le_bytes_length).
  rewrite H64. pose proof (bits_of_join (8 * k) (64 - 8 * k) w 0 ltac:(lia) ltac:(lia)) as HJ.
  unfold JOIN_BITS in HJ. rewrite Z.lor_0_r in HJ.
  replace (Z.of_nat (64 - 8 * k)) with (64 - 8 * Z.of_nat k) in HJ by lia. fold W in HJ.
  replace (8 * k + (64 - 8 * k))%nat with 64%nat in HJ by lia. rewrite HJ.
  by rewrite take_app_length' by (by rewrite bits_of_length).
Qed.

(** Evaluate the tests on a concrete [off]. *)
Ltac eval_test e :=
  let r := eval vm_compute in e in
  match r with
  | true => change e with true
  | false => change e with false
  end.

Ltac eval_off :=
  repeat (cbn [ebind e_off e_last_word e_dst e_buf];
    match goal with
    | |- context [?a =? ?b] => eval_test (a =? b)
    | |- context [?a <? ?b] => eval_test (a <? b)
    end; cbv iota).

(** Storing by words, halves and bytes stores the bytes in order. *)
Lemma store_tail_bytes (k : nat) out rest w :
  (1 <= k <= 8)%nat -> length rest = k ->
  exists e', store_tail (MkEncoder (8 * Z.of_nat k) w (zlen out) (out ++ rest)) = Ok (Some e') /\
    e_buf e' = out ++ le_bytes k w.
Proof.
  intros Hk Hr.
  (* the last store *)
  assert (Hlast : forall off out rest w, length rest = 1%nat ->
    (if zlen (out ++ rest) - zlen out =? 0 then Ok None
     else match poke (zlen out) [u8 w] (out ++ rest) with
          | Bug => Bug
          | Ok buf => Ok (Some (MkEncoder off w (zlen out) buf))
          end) = Ok (Some (MkEncoder off w (zlen out) (out ++ le_bytes 1 w)))).
  { clear. intros off out rest w Hr. rewrite zlen_app.
    rewrite (proj2 (Z.eqb_neq _ _)) by (unfold zlen; lia).
    rewrite poke_app by (simpl; lia). rewrite drop_ge by (simpl; lia). by rewrite app_nil_r. }
  unfold store_tail. cbn [e_off e_last_word e_dst e_buf].
  assert (k = 1 \/ k = 2 \/ k = 3 \/ k = 4 \/ k = 5 \/ k = 6 \/ k = 7 \/ k = 8)%nat
    as [->|[->|[->|[->|[->|[->|[->| ->]]]]]]] by lia;
    eval_off; repeat (rewrite store_word_app by (rewrite ?length_drop; lia); unfold set_off, set_last_word; eval_off);
    rewrite ?Hlast by (rewrite ?length_drop; lia);
    (eexists; split; [reflexivity |]); cbn [e_buf];
    rewrite ?(drop_ge rest) by lia; rewrite ?drop_drop, ?(drop_ge rest) by lia;
    rewrite ?app_nil_r, <- ?app_assoc; try done;
    f_equal.
Qed.

Lemma encode_tail_bits L s e :
  enc_inv L s e -> 8 * L - 8 < zlen (flat_map code s) <= 8 * L ->
  exists e' n, encode_tail e = Ok (Some e') /\ (n <= 7)%nat /\ bytes_ok (e_buf e') /\
    zlen (e_buf e') = L /\ byte_bits (e_buf e') = flat_map code s ++ replicate n true.
Proof.
  intros Hi HL. pose proof (enc_inv_bits _ _ _ Hi) as Hn.
  destruct Hi as (out & rest & Hb & Hd & Hbl & Hok & Ho & Hbits).
  destruct e as [off w dst buf]. cbn [e_off e_last_word e_dst e_buf] in *. subst buf dst.
  rewrite zlen_app in Hbl. unfold encode_tail. cbn [e_off e_last_word e_dst e_buf].
  destruct (Z.eqb_spec off 0) as [->|Hoff].
  { assert (rest = []) as -> by (destruct rest; [done | unfold zlen in *; cbn [length] in *; lia]).
    eexists _, 0%nat. split; [done |]. cbn [e_buf]. rewrite !app_nil_r in *.
    change (zlen (@nil Z)) with 0 in Hbl. by split_and!; try lia. }
  (* the padded word has [k] whole bytes *)
  assert (Hpad : exists w' (k n : nat), (1 <= k <= 8)%nat /\ (n <= 7)%nat /\
    length rest = k /\ bits_of (8 * k) w' = bits_of (Z.to_nat off) w ++ replicate n true /\
    (if Z.land off 7 =? 0 then MkEncoder off w (zlen out) (out ++ rest)
     else MkEncoder (off + (8 - Z.land off 7))
       (JOIN_BITS w (8 - Z.land off 7) (Z.shiftr HT_EOS_HIGH (Z.land off 7)))
       (zlen out) (out ++ rest)) = MkEncoder (8 * Z.of_nat k) w' (zlen out) (out ++ rest)).
  { assert (Ht : Z.land off 7 = off mod 8) by (change 7 with (Z.ones 3); by rewrite Z.land_ones).
    rewrite Ht. pose proof (Z.div_mod off 8 ltac:(lia)). pose proof (Z.mod_pos_bound off 8 ltac:(lia)).
    unfold zlen in *. destruct (Z.eqb_spec (off mod 8) 0) as [Hz|Hz].
    - exists w, (Z.to_nat (off / 8)), 0%nat. split; [lia |]. split; [lia |]. split; [lia |].
      split; [cbn [replicate]; rewrite app_nil_r; f_equal; lia | f_equal; lia].
    - destruct (eos_bits (off mod 8)) as [He Her]; [lia |].
      exists (JOIN_BITS w (8 - off mod 8) (Z.shiftr HT_EOS_HIGH (off mod 8))),
        (Z.to_nat (off / 8 + 1)), (Z.to_nat (8 - off mod 8)).
      split; [lia |]. split; [lia |]. split; [lia |]. split; [| f_equal; lia].
      rewrite <- He. rewrite <- (Z2Nat.id (8 - off mod 8)) at 1 by lia.
      replace (8 * Z.to_nat (off / 8 + 1))%nat
        with (Z.to_nat off + Z.to_nat (8 - off mod 8))%nat by lia.
      apply bits_of_join; [lia |]. by rewrite Z2Nat.id by lia. }
  destruct Hpad as (w' & k & n & Hk & Hn7 & Hrest & Hw & ->).
  unfold set_last_word. cbn [e_off e_last_word e_dst e_buf].
  destruct (store_tail_bytes k out rest (cpu_to_be64 (u64 (Z.shiftl w' (64 - 8 * Z.of_nat k))))
    Hk Hrest) as (e' & -> & Hbuf).
  exists e', n. rewrite Hbuf. split; [done |]. split; [done |].
  split; [apply Forall_app; split; [done | apply le_bytes_ok] |].
  split; [rewrite zlen_app; unfold zlen in *; rewrite le_bytes_length; lia |].
  rewrite byte_bits_app, last_word_bits by lia. by rewrite Hw, app_assoc, Hbits.
Qed.

Lemma string_bits_acc (s : bytes) (n : Z) :
  bytes_ok s ->
  fold_left (fun n c => n + default 0 (ht_length !! Z.to_nat c)) s n = n + zlen (flat_map code s).
Proof.
  intros Hs. revert n. induction Hs as [|c s Hc Hs IH]; intros n; [unfold zlen; simpl; lia |].
  cbn [fold_left flat_map]. rewrite IH, zlen_app.
  destruct (code_entry c Hc) as (x & l & _ & -> & _ & Hl & ->). simpl default.
  unfold zlen. rewrite bits_of_length. lia.
Qed.

(** A byte string of symbols the encoder can look up. *)
Definition ascii_ok (s : bytes) : Prop := Forall (fun c => 0 <= c < 128) s.

Lemma ascii_bytes s : ascii_ok s -> bytes_ok s.
Proof. intros Hs. eapply Forall_impl; [exact Hs |]. unfold is_u8. simpl. intros; lia. Qed.

Lemma encode_string_bits alloc str dst :
  ascii_ok (concat str) -> concat str <> [] ->
  alloc (tfw_huffman_encode_string_len str) = Some dst ->
  zlen dst = tfw_huffman_encode_string_len str ->
  exists buf n, tfw_huffman_encode_string alloc str = Ok (inr buf) /\ (n <= 7)%nat /\
    bytes_ok buf /\ zlen buf = tfw_huffman_encode_string_len str /\
    byte_bits buf = flat_map code (concat str) ++ replicate n true.
Proof.
  intros Ha Hne Halloc Hdst. set (s := concat str) in *.
  assert (HL : 8 * tfw_huffman_encode_string_len str - 8 < zlen (flat_map code s) <=
    8 * tfw_huffman_encode_string_len str /\ 0 < tfw_huffman_encode_string_len str).
  { unfold tfw_huffman_encode_string_len. fold s. rewrite string_bits_acc by (by apply ascii_bytes).
    rewrite Z.shiftr_div_pow2 by lia. change (2 ^ 3) with 8.
    pose proof (Z.div_mod (0 + zlen (flat_map code s) + 7) 8 ltac:(lia)).
    pose proof (Z.mod_pos_bound (0 + zlen (flat_map code s) + 7) 8 ltac:(lia)).
    assert (0 < zlen (flat_map code s)); [| lia].
    clear -Ha Hne. destruct s as [|c s]; [done |]. apply Forall_cons in Ha as [Hc _].
    destruct (code_entry c) as (x & l & _ & _ & _ & Hl & Hcode); [unfold is_u8; lia |].
    cbn [flat_map]. rewrite zlen_app, Hcode. pose proof (zlen_nonneg (flat_map code s)).
    unfold zlen at 1. rewrite bits_of_length. lia. }
  destruct HL as [HL Hpos]. unfold tfw_huffman_encode_string.
  rewrite (proj2 (Z.eqb_neq _ _)) by lia. rewrite Halloc. unfold tfw_huffman_encode_copy.
  rewrite encode_chunks_concat. fold s.
  destruct (encode_chunk_inv (zlen dst) [] s (MkEncoder 0 0 0 dst)) as (e & -> & Hi);
    [done | | rewrite app_nil_l; lia |].
  { exists [], dst. by split_and!; try constructor. }
  rewrite app_nil_l in Hi. cbn [ebind].
  destruct (encode_tail_bits _ _ _ Hi) as (e' & n & -> & Hn & Hok & Hlen & Hbits); [lia |].
  exists (e_buf e'), n. split_and!; done || lia.
Qed.

(** For every non-empty string of symbols below 128, however it is cut into chunks,
    [tfw_huffman_encode_string()] stays inside the destination it allocates, never takes the
    byte-wise fallback that would leave it, and fills it with the Huffman codes of the symbols
    followed by fewer than eight one bits. *)
Theorem huffman_encode_correct (alloc : Z -> option bytes) (str : list bytes) (dst : bytes) :
  ascii_ok (concat str) -> concat str <> [] ->
  alloc (tfw_huffman_encode_string_len str) = Some dst ->
  zlen dst = tfw_huffman_encode_string_len str ->
  exists buf n, tfw_huffman_encode_string alloc str = Ok (inr buf) /\ (n <= 7)%nat /\
    zlen buf = tfw_huffman_encode_string_len str /\
    byte_bits buf = flat_map code (concat str) ++ replicate n true.
Proof.
  intros Ha Hne Halloc Hdst.
  destruct (encode_string_bits alloc str dst Ha Hne Halloc Hdst)
    as (buf & n & Hr & Hn & _ & Hl & Hb).
  by exists buf, n.
Qed.

Lemma huffman_encode_witness :
  exists buf n, tfw_huffman_encode_string zeroed [[119; 119]; [119; 46]] = Ok (inr buf) /\
    (n <= 7)%nat /\ zlen buf = tfw_huffman_encode_string_len [[119; 119]; [119; 46]] /\
    byte_bits buf = flat_map code [119; 119; 119; 46] ++ replicate n true.
Proof.
  apply (huffman_encode_correct zeroed [[119; 119]; [119; 46]] (replicate 4 0)).
  - repeat constructor; lia.
  - discriminate.
  - reflexivity.
  - reflexivity.
Defined.

(** C23: what [tfw_huffman_encode_string()] writes for a non-empty string of symbols below 128,
    [tfw_huffman_decode()] reads back as that string, when it gets the whole coding in one piece and
    the message has room for the string.  For symbols from 128 on
    the encoder leaves its tables ([encode_high_symbol_out_of_bounds]). *)
Theorem huffman_roundtrip (alloc : Z -> option bytes) (room : bytes -> bool) (str : list bytes)
    (dst out : bytes) (ctx : Z) :
  ascii_ok (concat str) -> concat str <> [] ->
  alloc (tfw_huffman_encode_string_len str) = Some dst ->
  zlen dst = tfw_huffman_encode_string_len str ->
  (forall p, p `prefix_of` concat str -> room (out ++ p) = true) ->
  exists buf h, tfw_huffman_encode_string alloc str = Ok (inr buf) /\
    tfw_huffman_decode room (tfw_huffman_init (MkHuff 0 ctx (zlen buf))) buf out =
      Ok (T_OK, h, out ++ concat str).
Proof.
  intros Ha Hne Halloc Hdst Hroom.
  destruct (encode_string_bits alloc str dst Ha Hne Halloc Hdst)
    as (buf & n & Hr & Hn & Hok & Hl & Hb).
  destruct (huffman_decode_bits room (concat str) n buf ctx out) as (h & Hd); try done.
  - by apply ascii_bytes.
  - intros ->. destruct (concat str) as [|c s]; [done |].
    apply Forall_cons in Ha as [Hc _]. cbn [byte_bits flat_map] in Hb.
    destruct (code_entry c) as (x & l & _ & _ & _ & Hlr & Hcode); [unfold is_u8; lia |].
    rewrite Hcode in Hb. replace (Z.to_nat l) with (S (Z.to_nat (l - 1))) in Hb by lia.
    discriminate.
  - by exists buf, h.
Qed.

Lemma huffman_roundtrip_witness :
  exists buf h, tfw_huffman_encode_string zeroed [[119; 119]; [119; 46]] = Ok (inr buf) /\
    tfw_huffman_decode (fun _ => true) (tfw_huffman_init (MkHuff 0 0 (zlen buf))) buf [] =
      Ok (T_OK, h, [119; 119; 119; 46]).
Proof.
  apply (huffman_roundtrip zeroed (fun _ => true) [[119; 119]; [119; 46]] (replicate 4 0) [] 0).
  - repeat constructor; lia.
  - discriminate.
  - reflexivity.
  - reflexivity.
  - reflexivity.
Defined.

(** A symbol above 127 indexes the tables with a sign-extended [char]. *)
Theorem encode_high_symbol_out_of_bounds : tfw_huffman_encode_string zeroed [[0x80]] = Bug.
Proof. vm_compute. reflexivity. Qed.
