(* ===== verification/HpackDec.v ===== *)
(** The HPACK decoder of requests ([fw/hpack.c], [tfw_hpack_decode()]).

    The FSM reads a header block byte by byte, in one piece or in fragments, and
    hands names and values to the HTTP parser.  Each label of the C function is a
    definition here; [goto out] is an exit of the monad [DM].  Reading a byte past
    the end of the fragment and a failed [BUG_ON] are [Bug].  Warnings are left
    out.

    The HTTP parser ([tfw_h2_parse_req_hdr()], [tfw_http_msg_hdr_close()]) and the
    memory pools are parameters. *)

From S2P Require Import Prelude HpackInt HpackTbl HuffTbl Huffman.
Local Open Scope Z_scope.

(** ** States and flags *)

Definition HPACK_STATE_READY : Z := 0.
Definition HPACK_STATE_INDEX : Z := 1.
Definition HPACK_STATE_NAME : Z := 2.
Definition HPACK_STATE_NAME_LENGTH : Z := 3.
Definition HPACK_STATE_NAME_TEXT : Z := 4.
Definition HPACK_STATE_INDEXED_NAME_TEXT : Z := 5.
Definition HPACK_STATE_VALUE : Z := 6.
Definition HPACK_STATE_VALUE_LENGTH : Z := 7.
Definition HPACK_STATE_VALUE_TEXT : Z := 8.
Definition HPACK_STATE_ALL_INDEXED : Z := 9.
Definition HPACK_STATE_WINDOW : Z := 10.
Definition HPACK_STATE_MASK : Z := 0x0F.

Definition HPACK_FLAGS_ADD : Z := 0x010.
Definition HPACK_FLAGS_NO_VALUE : Z := 0x020.
Definition HPACK_FLAGS_TRANSIT : Z := 0x040.
Definition HPACK_FLAGS_HUFFMAN_NAME : Z := 0x080.
Definition HPACK_FLAGS_HUFFMAN_VALUE : Z := 0x100.

(** Identifiers of the known headers of a message ([tfw_http_hdr_t]). *)
Definition TFW_HTTP_HDR_H2_METHOD : Z := 0.
Definition TFW_HTTP_HDR_H2_SCHEME : Z := 1.
Definition TFW_HTTP_HDR_H2_AUTHORITY : Z := 2.
Definition TFW_HTTP_HDR_H2_PATH : Z := 3.
Definition TFW_HTTP_HDR_HOST : Z := 4.
Definition TFW_HTTP_HDR_CONTENT_LENGTH : Z := 5.
Definition TFW_HTTP_HDR_CONTENT_TYPE : Z := 6.
Definition TFW_HTTP_HDR_USER_AGENT : Z := 7.
Definition TFW_HTTP_HDR_COOKIE : Z := 8.
Definition TFW_HTTP_HDR_REFERER : Z := 9.
Definition TFW_HTTP_HDR_IF_NONE_MATCH : Z := 10.
Definition TFW_HTTP_HDR_X_FORWARDED_FOR : Z := 12.
Definition TFW_HTTP_HDR_RAW : Z := 15.

Definition TFW_HTTP_METH_GET : Z := 3.
Definition TFW_HTTP_METH_POST : Z := 10.

(** ** State *)

(** A string of the message: its bytes and the number of its chunks, 0 for a
    plain string. *)
Record TfwStr : Type := MkStr {
  ts_data : bytes;
  ts_nchunks : Z;
}.

Definition TFW_STR_INIT : TfwStr := MkStr [] 0.

(** The parts of the request that the HTTP parser works on: its own state,
    [parser->hdr], [it->tag], [parser->_hdr_tag] and [req->method]. *)
Record PReq (P : Type) : Type := MkPReq {
  pr_parser : P;
  pr_hdr : TfwStr;
  pr_tag : Z;
  pr_hdr_tag : Z;
  pr_method : Z;
}.
Arguments MkPReq {P} _ _ _ _ _.
Arguments pr_parser {P} _.
Arguments pr_hdr {P} _.
Arguments pr_tag {P} _.
Arguments pr_hdr_tag {P} _.
Arguments pr_method {P} _.

(** [TfwMsgParseIter] and the headers stored so far.  [it_huff] is the string
    being Huffman-decoded: the length of the buffer it was opened with and the
    bytes decoded so far; [it_named] says that [it->hdr] already holds a name. *)
Record Iter (P : Type) : Type := MkIter {
  it_req : PReq P;
  it_hdrs_len : Z;
  it_hdrs_cnt : Z;
  it_named : bool;
  it_huff : Z * bytes;
  it_nm_len : Z;
  it_nm_num : Z;
  it_stored : list (Z * TfwStr);
}.
Arguments MkIter {P} _ _ _ _ _ _ _ _.
Arguments it_req {P} _.
Arguments it_hdrs_len {P} _.
Arguments it_hdrs_cnt {P} _.
Arguments it_named {P} _.
Arguments it_huff {P} _.
Arguments it_nm_len {P} _.
Arguments it_nm_num {P} _.
Arguments it_stored {P} _.

(** The decoder part of [TfwHPack]; [hp_curr] and [hp_hctx] are the Huffman
    context. *)
Record TfwHPack : Type := MkHPack {
  hp_dec_tbl : TfwHPackDTbl;
  hp_length : Z;
  hp_max_window : Z;
  hp_curr : Z;
  hp_hctx : Z;
  hp_state : Z;
  hp_shift : Z;
  hp_index : Z;
}.

(** The locals of [tfw_hpack_decode()] and what its pointers reach; [d_src] is
    the rest of the fragment, between [src] and [last]. *)
Record Dec (P : Type) : Type := MkDec {
  d_hp : TfwHPack;
  d_it : Iter P;
  d_state : Z;
  d_r : Z;
  d_src : bytes;
}.
Arguments MkDec {P} _ _ _ _ _.
Arguments d_hp {P} _.
Arguments d_it {P} _.
Arguments d_state {P} _.
Arguments d_r {P} _.
Arguments d_src {P} _.

Definition set_hp_length (v : Z) (h : TfwHPack) : TfwHPack :=
  MkHPack (hp_dec_tbl h) v (hp_max_window h) (hp_curr h) (hp_hctx h) (hp_state h)
    (hp_shift h) (hp_index h).
Definition set_hp_shift (v : Z) (h : TfwHPack) : TfwHPack :=
  MkHPack (hp_dec_tbl h) (hp_length h) (hp_max_window h) (hp_curr h) (hp_hctx h) (hp_state h)
    v (hp_index h).
Definition set_hp_index (v : Z) (h : TfwHPack) : TfwHPack :=
  MkHPack (hp_dec_tbl h) (hp_length h) (hp_max_window h) (hp_curr h) (hp_hctx h) (hp_state h)
    (hp_shift h) v.
Definition set_hp_state (v : Z) (h : TfwHPack) : TfwHPack :=
  MkHPack (hp_dec_tbl h) (hp_length h) (hp_max_window h) (hp_curr h) (hp_hctx h) v
    (hp_shift h) (hp_index h).
Definition set_hp_tbl (t : TfwHPackDTbl) (h : TfwHPack) : TfwHPack :=
  MkHPack t (hp_length h) (hp_max_window h) (hp_curr h) (hp_hctx h) (hp_state h)
    (hp_shift h) (hp_index h).

(** The Huffman decoder works on a part of the context. *)
Definition hp_huff (h : TfwHPack) : huff := MkHuff (hp_curr h) (hp_hctx h) (hp_length h).
Definition set_hp_huff (x : huff) (h : TfwHPack) : TfwHPack :=
  MkHPack (hp_dec_tbl h) (h_length x) (hp_max_window h) (h_curr x) (h_hctx x) (hp_state h)
    (hp_shift h) (hp_index h).

(** [tfw_hpack_init()], the decoder part. *)
Definition hpack_init (htbl_sz : Z) : TfwHPack :=
  MkHPack (dtbl_init htbl_sz) 0 htbl_sz (- HT_NBITS) 0 HPACK_STATE_READY 0 0.

Section decoder.
Context {P : Type}.

Definition set_it_req (v : PReq P) (i : Iter P) : Iter P :=
  MkIter v (it_hdrs_len i) (it_hdrs_cnt i) (it_named i) (it_huff i) (it_nm_len i) (it_nm_num i)
    (it_stored i).

(** ** Parameters *)

(** The HTTP parser on a piece of a name or value: [parse data fin value_stage]. *)
Variable parse : bytes -> bool -> bool -> PReq P -> Z * PReq P.
(** Whether the HTTP layer takes the header that is being closed. *)
Variable takes : PReq P -> bool.
(** The outcome of the allocation of a buffer, of a descriptor and of a new entry
    of the table, in a state of the iterator. *)
Variable alloc_buf : Z -> Iter P -> bool.
Variable alloc_desc : Iter P -> bool.
Variable alloc_entry : Iter P -> mem_outcome.
(** The allocation of one more byte behind a decoded string: [None] when it
    fails, [Some true] when the byte starts a new page and so a new chunk. *)
Variable alloc_byte : bytes -> option bool.
(** The contents of fresh memory. *)
Variable uninit : Z -> bytes.

(** ** The monad of the FSM *)

(** [None] is [goto out]. *)
Definition DM (A : Type) : Type := SM (Dec P) (option A).

Definition dm_ret {A} (a : A) : DM A := sm_ret (Some a).
Definition dm_bind {A B} (m : DM A) (k : A -> DM B) : DM B :=
  fun d =>
    match m d with
    | Bug => Bug
    | Ok (None, d') => Ok (None, d')
    | Ok (Some a, d') => k a d'
    end.
Definition goto_out {A} : DM A := fun d => Ok (None, d).
Definition dm_get : DM (Dec P) := fun d => Ok (Some d, d).
Definition dm_hp (f : TfwHPack -> TfwHPack) : DM unit :=
  fun d => Ok (Some tt, MkDec (f (d_hp d)) (d_it d) (d_state d) (d_r d) (d_src d)).
Definition dm_it (f : Iter P -> Iter P) : DM unit :=
  fun d => Ok (Some tt, MkDec (d_hp d) (f (d_it d)) (d_state d) (d_r d) (d_src d)).
Definition dm_flag (f : Z) : DM unit :=
  fun d => Ok (Some tt, MkDec (d_hp d) (d_it d) (Z.lor (d_state d) f) (d_r d) (d_src d)).
Definition dm_r (r : Z) : DM unit :=
  fun d => Ok (Some tt, MkDec (d_hp d) (d_it d) (d_state d) r (d_src d)).
Definition dm_src (s : bytes) : DM unit :=
  fun d => Ok (Some tt, MkDec (d_hp d) (d_it d) (d_state d) (d_r d) s).
Definition dm_bug {A} : DM A := fun _ => Bug.

Local Notation "x <- m ;; k" := (dm_bind m (fun x => k))
  (at level 100, m at next level, right associativity).
Local Notation "m ;;; k" := (dm_bind m (fun _ => k)) (at level 100, right associativity).

Definition NEXT_STATE (new : Z) : DM unit :=
  fun d => Ok (Some tt, MkDec (d_hp d) (d_it d)
    (Z.lor (Z.land (d_state d) (Z.lnot HPACK_STATE_MASK)) new) (d_r d) (d_src d)).

(** [r = code; goto out] *)
Definition fail {A} (code : Z) : DM A := dm_r code ;;; goto_out.

(** [c = *src++] *)
Definition next_byte : DM Z :=
  d <- dm_get ;;
  match d_src d with
  | [] => dm_bug
  | c :: src => dm_src src ;;; dm_ret c
  end.

(** [if (src >= last) goto out] *)
Definition out_if_end : DM unit :=
  d <- dm_get ;; match d_src d with [] => goto_out | _ => dm_ret tt end.

(** The two macros store the integer in a field of [hp] even when they leave. *)
Definition get_flexible_to (store : Z -> TfwHPack -> TfwHPack) (x new_state : Z) : DM Z :=
  d <- dm_get ;;
  match GET_FLEXIBLE (d_src d) x with
  | Bug => dm_bug
  | Ok (FlexMore x' m) =>
      dm_hp (store x') ;;; dm_src [] ;;; dm_hp (set_hp_shift m) ;;; NEXT_STATE new_state ;;; goto_out
  | Ok (FlexDrop x' src) => dm_hp (store x') ;;; dm_src src ;;; fail T_DROP
  | Ok (FlexDone x' src) => dm_hp (store x') ;;; dm_src src ;;; dm_ret x'
  end.

Definition get_continue_to (store : Z -> TfwHPack -> TfwHPack) (x : Z) : DM Z :=
  d <- dm_get ;;
  match GET_CONTINUE (d_src d) x (hp_shift (d_hp d)) with
  | Bug => dm_bug
  | Ok (FlexMore x' m) => dm_hp (store x') ;;; dm_src [] ;;; dm_hp (set_hp_shift m) ;;; goto_out
  | Ok (FlexDrop x' src) => dm_hp (store x') ;;; dm_src src ;;; fail T_DROP
  | Ok (FlexDone x' src) => dm_hp (store x') ;;; dm_src src ;;; dm_ret x'
  end.

(** ** Buffers of Huffman-decoded strings *)

(** [BUFFER_GET] and [BUFFER_HDR_INIT]: a buffer of the length of the encoded
    string, and [it->hdr] (or its next chunk) on the whole of it. *)
Definition BUFFER_GET (length : Z) : DM unit :=
  d <- dm_get ;;
  if length =? 0 then dm_bug
  else if alloc_buf length (d_it d) then
    dm_it (fun i => MkIter (it_req i) (it_hdrs_len i) (it_hdrs_cnt i) (it_named i) (length, [])
                      (it_nm_len i) (it_nm_num i) (it_stored i))
  else fail T_DROP.

Definition BUFFER_NAME_OPEN (length : Z) : DM unit :=
  d <- dm_get ;;
  if has_flag (d_state d) HPACK_FLAGS_HUFFMAN_NAME then BUFFER_GET length else dm_ret tt.

(** With a name already in [it->hdr] the value gets a chunk of its own; the
    result of [tfw_hpack_exp_hdr()] is not checked and [NULL] is used later. *)
Definition BUFFER_VAL_OPEN (length : Z) : DM unit :=
  dm_it (fun i =>
    let hdr := pr_hdr (it_req i) in
    MkIter (it_req i) (it_hdrs_len i) (it_hdrs_cnt i) (it_named i) (it_huff i)
      (zlen (ts_data hdr)) (if ts_nchunks hdr =? 0 then 1 else ts_nchunks hdr) (it_stored i)) ;;;
  d <- dm_get ;;
  if has_flag (d_state d) HPACK_FLAGS_HUFFMAN_VALUE then
    BUFFER_GET length ;;;
    d <- dm_get ;;
    if it_named (d_it d) && negb (alloc_desc (d_it d)) then dm_bug else dm_ret tt
  else dm_ret tt.

(** Whether [tfw_hpack_huffman_write()] finds room. *)
Definition buffer_room (length : Z) (out : bytes) : bool :=
  (zlen out <? length) || bool_decide (is_Some (alloc_byte out)).

(** The chunks of the decoded string: the first is the whole buffer, whether or
    not it was filled; each further byte extends the last chunk or starts a new
    one. *)
Fixpoint extra_chunks (done : bytes) (last : bytes) (more : bytes) : list bytes :=
  match more with
  | [] => [last]
  | c :: more' =>
      if bool_decide (alloc_byte done = Some true)
      then last :: extra_chunks (done ++ [c]) [c] more'
      else extra_chunks (done ++ [c]) (last ++ [c]) more'
  end.

Definition buffer_chunks (length : Z) (out : bytes) : list bytes :=
  if zlen out <? length then [out ++ uninit (length - zlen out)]
  else extra_chunks (take (Z.to_nat length) out) (take (Z.to_nat length) out)
         (drop (Z.to_nat length) out).

(** [__hpack_process_hdr_name()] and [__hpack_process_hdr_value()]: the parser on
    each chunk. *)
Fixpoint process_chunks (cs : list bytes) (value : bool) (ret : Z) (q : PReq P) : Z * PReq P :=
  match cs with
  | [] => (if ret =? 0 then T_OK else T_DROP, q)
  | c :: cs' =>
      let last := match cs' with [] => true | _ => false end in
      let '(ret', q') := parse c last value q in
      if ret' <? T_POSTPONE then (ret', q') else process_chunks cs' value ret' q'
  end.

Definition __hpack_process_hdr (value : bool) : DM Z :=
  d <- dm_get ;;
  let '(length, out) := it_huff (d_it d) in
  let '(r, q) := process_chunks (buffer_chunks length out) value T_BAD (it_req (d_it d)) in
  dm_it (fun i => MkIter q (it_hdrs_len i) (it_hdrs_cnt i) true (it_huff i) (it_nm_len i)
                    (it_nm_num i) (it_stored i)) ;;;
  dm_ret r.

(** [if (r) goto out] *)
Definition check_r (r : Z) : DM unit :=
  dm_r r ;;; if r =? 0 then dm_ret tt else goto_out.

(** [HPACK_DECODE_PROCESS_STRING] *)
Definition HPACK_DECODE_PROCESS_STRING (value : bool) (len : Z) : DM unit :=
  d <- dm_get ;;
  let '(length, out) := it_huff (d_it d) in
  match tfw_huffman_decode (buffer_room length) (hp_huff (d_hp d))
          (take (Z.to_nat len) (d_src d)) out with
  | Bug => dm_bug
  | Ok (r, h, out') =>
      dm_hp (set_hp_huff h) ;;;
      dm_it (fun i => MkIter (it_req i) (it_hdrs_len i) (it_hdrs_cnt i) (it_named i) (length, out')
                        (it_nm_len i) (it_nm_num i) (it_stored i)) ;;;
      dm_src (drop (Z.to_nat len) (d_src d)) ;;;
      check_r r ;;;
      dm_hp (fun h => set_hp_huff (tfw_huffman_init (MkHuff (hp_curr h) 0 (hp_length h))) h) ;;;
      r <- __hpack_process_hdr value ;;
      check_r r
  end.

(** [HPACK_PROCESS_STRING] *)
Definition HPACK_PROCESS_STRING (value : bool) (len : Z) : DM unit :=
  dm_hp (fun h => set_hp_length (hp_length h - len) h) ;;;
  d <- dm_get ;;
  let '(r, q) := parse (take (Z.to_nat len) (d_src d)) (hp_length (d_hp d) =? 0) value
                   (it_req (d_it d)) in
  dm_it (set_it_req q) ;;;
  dm_src (drop (Z.to_nat len) (d_src d)) ;;;
  check_r r.

(** ** Headers from the tables *)

Definition tfw_hpack_hdr_name_set (entry : TfwHPackEntry) (i : Iter P) : option (Iter P) :=
  let num := he_name_num entry in
  if (num =? 0) || (he_nchunks entry <? num) then None
  else if alloc_buf (he_name_len entry) i && alloc_desc i then
    let q := it_req i in
    Some (set_it_req
      (MkPReq (pr_parser q) (MkStr (take (Z.to_nat (he_name_len entry)) (he_hdr entry)) num)
         (he_tag entry) (pr_hdr_tag q) (pr_method q)) i)
  else None.

(** The [switch] on the tag: the identifier of the header. *)
Definition hdr_tag_of (tag : Z) : option Z :=
  if tag =? TFW_TAG_HDR_H2_SCHEME then Some TFW_HTTP_HDR_H2_SCHEME
  else if tag =? TFW_TAG_HDR_H2_AUTHORITY then Some TFW_HTTP_HDR_H2_AUTHORITY
  else if tag =? TFW_TAG_HDR_H2_PATH then Some TFW_HTTP_HDR_H2_PATH
  else if tag =? TFW_TAG_HDR_ACCEPT then Some TFW_HTTP_HDR_RAW
  else if tag =? TFW_TAG_HDR_AUTHORIZATION then Some TFW_HTTP_HDR_RAW
  else if tag =? TFW_TAG_HDR_CACHE_CONTROL then Some TFW_HTTP_HDR_RAW
  else if tag =? TFW_TAG_HDR_CONTENT_LENGTH then Some TFW_HTTP_HDR_CONTENT_LENGTH
  else if tag =? TFW_TAG_HDR_CONTENT_TYPE then Some TFW_HTTP_HDR_CONTENT_TYPE
  else if tag =? TFW_TAG_HDR_COOKIE then Some TFW_HTTP_HDR_COOKIE
  else if tag =? TFW_TAG_HDR_HOST then Some TFW_HTTP_HDR_HOST
  else if tag =? TFW_TAG_HDR_IF_MODIFIED_SINCE then Some TFW_HTTP_HDR_RAW
  else if tag =? TFW_TAG_HDR_IF_NONE_MATCH then Some TFW_HTTP_HDR_IF_NONE_MATCH
  else if tag =? TFW_TAG_HDR_PRAGMA then Some TFW_HTTP_HDR_RAW
  else if tag =? TFW_TAG_HDR_REFERER then Some TFW_HTTP_HDR_REFERER
  else if tag =? TFW_TAG_HDR_X_FORWARDED_FOR then Some TFW_HTTP_HDR_X_FORWARDED_FOR
  else if tag =? TFW_TAG_HDR_USER_AGENT then Some TFW_HTTP_HDR_USER_AGENT
  else if tag =? TFW_TAG_HDR_RAW then Some TFW_HTTP_HDR_RAW
  else None.

Definition tfw_hpack_hdr_set (index : Z) (entry : TfwHPackEntry) (i : Iter P) : option (Iter P) :=
  let q := it_req i in
  let static := index <=? HPACK_STATIC_ENTRIES in
  if static && negb (he_nchunks entry =? 2) then None
  else if negb static && negb (alloc_buf (zlen (he_hdr entry)) i && alloc_desc i) then None
  else
    let store (id meth : Z) :=
      Some (set_it_req
        (MkPReq (pr_parser q) (MkStr (he_hdr entry) (he_nchunks entry)) (pr_tag q) id meth) i) in
    if he_tag entry =? TFW_TAG_HDR_H2_METHOD then
      if index =? 2 then store TFW_HTTP_HDR_H2_METHOD TFW_HTTP_METH_GET
      else if index =? 3 then store TFW_HTTP_HDR_H2_METHOD TFW_HTTP_METH_POST
      else None
    else
      match hdr_tag_of (he_tag entry) with
      | Some id => store id (pr_method q)
      | None => None
      end.

(** [tfw_http_msg_hdr_close()] as the decoder sees it: the header is stored under
    its identifier and [parser->hdr] starts anew. *)
Definition hdr_close : DM unit :=
  d <- dm_get ;;
  let q := it_req (d_it d) in
  if takes q then
    dm_it (fun i => MkIter (MkPReq (pr_parser q) TFW_STR_INIT (pr_tag q) (pr_hdr_tag q) (pr_method q))
      (it_hdrs_len i) (it_hdrs_cnt i) (it_named i) (it_huff i) (it_nm_len i) (it_nm_num i)
      (it_stored i ++ [(pr_hdr_tag q, pr_hdr q)]))
  else fail T_DROP.

(** [it->hdrs_len += ...; ++it->hdrs_cnt] *)
Definition count_header : DM unit :=
  dm_it (fun i => MkIter (it_req i) (it_hdrs_len i + zlen (ts_data (pr_hdr (it_req i))))
    (it_hdrs_cnt i + 1) (it_named i) (it_huff i) (it_nm_len i) (it_nm_num i) (it_stored i)).

(** ** The labels of [tfw_hpack_decode()] *)

(** [tfw_hpack_set_entry()] refuses a plain string; its caller, like the FSM,
    looks only whether the code is zero. *)
Definition add_index : DM unit :=
  d <- dm_get ;;
  let i := d_it d in
  let hdr := pr_hdr (it_req i) in
  let mem := alloc_entry i in
  let mem := MkMem (mem_entries mem) (mem_hdr mem && negb (ts_nchunks hdr =? 0)) in
  let e := MkHEntry (ts_data hdr) (it_nm_len i) (it_nm_num i) (ts_nchunks hdr)
             (pr_tag (it_req i)) in
  match tfw_hpack_add_index mem e (hp_dec_tbl (d_hp d)) with
  | Bug => dm_bug
  | Ok (r, tbl) => dm_hp (set_hp_tbl tbl) ;;; if r =? 0 then dm_ret tt else fail T_DROP
  end.

Definition get_value_text : DM unit :=
  d <- dm_get ;;
  let length := hp_length (d_hp d) in
  if length =? 0 then fail T_DROP
  else
    let m_len := Z.min (zlen (d_src d)) length in
    (if has_flag (d_state d) HPACK_FLAGS_HUFFMAN_VALUE
     then HPACK_DECODE_PROCESS_STRING true m_len
     else HPACK_PROCESS_STRING true m_len) ;;;
    (if has_flag (d_state d) HPACK_FLAGS_ADD then add_index else dm_ret tt) ;;;
    count_header ;;;
    hdr_close.

Definition value_length_done (length : Z) : DM unit :=
  NEXT_STATE HPACK_STATE_VALUE_TEXT ;;;
  BUFFER_VAL_OPEN length ;;;
  out_if_end ;;;
  get_value_text.

Definition get_value : DM unit :=
  c <- next_byte ;;
  dm_hp (set_hp_length (Z.land c 0x7F)) ;;;
  (if has_flag c 0x80 then dm_flag HPACK_FLAGS_HUFFMAN_VALUE else dm_ret tt) ;;;
  length <- (if Z.land c 0x7F =? 0x7F
             then get_flexible_to set_hp_length 0x7F HPACK_STATE_VALUE_LENGTH
             else dm_ret (Z.land c 0x7F)) ;;
  value_length_done length.

Definition get_indexed_name : DM unit :=
  d <- dm_get ;;
  match tfw_hpack_find_index (hp_dec_tbl (d_hp d)) (hp_index (d_hp d)) with
  | Bug => dm_bug
  | Ok None => fail T_DROP
  | Ok (Some entry) =>
      match tfw_hpack_hdr_name_set entry (d_it d) with
      | None => fail T_DROP
      | Some i => dm_it (fun _ => i) ;;; NEXT_STATE HPACK_STATE_VALUE ;;; get_value
      end
  end.

Definition get_name_text : DM unit :=
  d <- dm_get ;;
  let m_len := Z.min (zlen (d_src d)) (hp_length (d_hp d)) in
  (if has_flag (d_state d) HPACK_FLAGS_HUFFMAN_NAME
   then HPACK_DECODE_PROCESS_STRING false m_len
   else HPACK_PROCESS_STRING false m_len) ;;;
  NEXT_STATE HPACK_STATE_VALUE ;;;
  out_if_end ;;;
  get_value.

Definition name_length_done (length : Z) : DM unit :=
  NEXT_STATE HPACK_STATE_NAME_TEXT ;;;
  BUFFER_NAME_OPEN length ;;;
  out_if_end ;;;
  get_name_text.

Definition get_name : DM unit :=
  c <- next_byte ;;
  dm_hp (set_hp_length (Z.land c 0x7F)) ;;;
  (if has_flag c 0x80 then dm_flag HPACK_FLAGS_HUFFMAN_NAME else dm_ret tt) ;;;
  length <- (if Z.land c 0x7F =? 0x7F
             then get_flexible_to set_hp_length 0x7F HPACK_STATE_NAME_LENGTH
             else if Z.land c 0x7F =? 0 then fail T_DROP
             else dm_ret (Z.land c 0x7F)) ;;
  name_length_done length.

Definition get_all_indexed : DM unit :=
  d <- dm_get ;;
  match tfw_hpack_find_index (hp_dec_tbl (d_hp d)) (hp_index (d_hp d)) with
  | Bug => dm_bug
  | Ok None => fail T_DROP
  | Ok (Some entry) =>
      match tfw_hpack_hdr_set (hp_index (d_hp d)) entry (d_it d) with
      | None => fail T_DROP
      | Some i => dm_it (fun _ => i) ;;; count_header ;;; hdr_close
      end
  end.

Definition set_window : DM unit :=
  d <- dm_get ;;
  match tfw_hpack_set_length (hp_max_window (d_hp d)) (hp_index (d_hp d)) (hp_dec_tbl (d_hp d)) with
  | Bug => dm_bug
  | Ok (r, tbl) => dm_hp (set_hp_tbl tbl) ;;; if r =? 0 then dm_ret tt else fail T_DROP
  end.

(** [index:] does not look whether the fragment is over. *)
Definition index_name (prefix : Z) : DM unit :=
  get_flexible_to set_hp_index prefix HPACK_STATE_INDEX ;;;
  NEXT_STATE HPACK_STATE_INDEXED_NAME_TEXT ;;;
  get_indexed_name.

(** The common end of the two literal branches. *)
Definition literal_name (index : Z) : DM unit :=
  NEXT_STATE (if index =? 0 then HPACK_STATE_NAME else HPACK_STATE_INDEXED_NAME_TEXT) ;;;
  out_if_end ;;;
  if index =? 0 then get_name else get_indexed_name.

Definition ready : DM unit :=
  c <- next_byte ;;
  if has_flag c 0x80 then
    dm_flag HPACK_FLAGS_NO_VALUE ;;;
    let index := Z.land c 0x7F in
    dm_hp (set_hp_index index) ;;;
    (if index =? 0x7F then get_flexible_to set_hp_index 0x7F HPACK_STATE_INDEX ;;; dm_ret tt
     else if index =? 0 then fail T_DROP
     else dm_ret tt) ;;;
    NEXT_STATE HPACK_STATE_ALL_INDEXED ;;;
    get_all_indexed
  else if has_flag c 0x40 then
    dm_flag HPACK_FLAGS_ADD ;;;
    let index := Z.land c 0x3F in
    dm_hp (set_hp_index index) ;;;
    if index =? 0x3F then index_name index else literal_name index
  else if has_flag c 0x20 then
    let index := Z.land c 0x1F in
    dm_hp (set_hp_index index) ;;;
    (if index =? 0x1F then get_flexible_to set_hp_index 0x1F HPACK_STATE_WINDOW ;;; dm_ret tt
     else dm_ret tt) ;;;
    NEXT_STATE HPACK_STATE_WINDOW ;;;
    set_window
  else if has_flag c 0xE0 then fail T_DROP
  else
    (if has_flag c 0x10 then dm_flag HPACK_FLAGS_TRANSIT else dm_ret tt) ;;;
    let index := Z.land c 0x0F in
    dm_hp (set_hp_index index) ;;;
    if index =? 0x0F then NEXT_STATE HPACK_STATE_INDEX ;;; index_name index
    else literal_name index.

(** [HPACK_STATE_INDEX] *)
Definition continue_index : DM unit :=
  d <- dm_get ;;
  get_continue_to set_hp_index (hp_index (d_hp d)) ;;;
  if has_flag (d_state d) HPACK_FLAGS_NO_VALUE then
    NEXT_STATE HPACK_STATE_ALL_INDEXED ;;; get_all_indexed
  else
    NEXT_STATE HPACK_STATE_INDEXED_NAME_TEXT ;;; out_if_end ;;; get_indexed_name.

(** The [switch]. *)
Definition decode_header : DM unit :=
  d <- dm_get ;;
  let s := Z.land (d_state d) HPACK_STATE_MASK in
  if s =? HPACK_STATE_READY then ready
  else if s =? HPACK_STATE_NAME then get_name
  else if s =? HPACK_STATE_NAME_TEXT then get_name_text
  else if s =? HPACK_STATE_INDEXED_NAME_TEXT then get_indexed_name
  else if s =? HPACK_STATE_VALUE then get_value
  else if s =? HPACK_STATE_VALUE_TEXT then get_value_text
  else if s =? HPACK_STATE_ALL_INDEXED then get_all_indexed
  else if s =? HPACK_STATE_INDEX then continue_index
  else if s =? HPACK_STATE_WINDOW then
    get_continue_to set_hp_index (hp_index (d_hp d)) ;;; set_window
  else if s =? HPACK_STATE_NAME_LENGTH then
    length <- get_continue_to set_hp_length (hp_length (d_hp d)) ;; name_length_done length
  else if s =? HPACK_STATE_VALUE_LENGTH then
    length <- get_continue_to set_hp_length (hp_length (d_hp d)) ;; value_length_done length
  else fail T_DROP.

(** [tfw_hpack_reinit()] clears the non-permanent parts: from [state] on in [hp],
    from [hdr] on in the iterator. *)
Definition tfw_hpack_reinit (hp : TfwHPack) (i : Iter P) : TfwHPack * Iter P :=
  (MkHPack (hp_dec_tbl hp) (hp_length hp) (hp_max_window hp) (hp_curr hp) (hp_hctx hp) 0 0 0,
   let q := it_req i in
   MkIter (MkPReq (pr_parser q) (pr_hdr q) 0 (pr_hdr_tag q) (pr_method q))
     (it_hdrs_len i) (it_hdrs_cnt i) false (0, []) 0 0 (it_stored i)).

(** The result: the code, the contexts and the bytes left.  Each round takes at
    least one byte. *)
Fixpoint decode_loop (fuel : nat) (hp : TfwHPack) (i : Iter P) (r : Z) (src : bytes)
  : outcome (Z * TfwHPack * Iter P * bytes) :=
  match fuel with
  | O => Bug
  | S fuel' =>
      match decode_header (MkDec hp i (hp_state hp) r src) with
      | Bug => Bug
      | Ok (None, d) => Ok (d_r d, set_hp_state (d_state d) (d_hp d), d_it d, d_src d)
      | Ok (Some _, d) =>
          let '(hp', i') := tfw_hpack_reinit (d_hp d) (d_it d) in
          match d_src d with
          | [] => Ok (T_OK, hp', i', [])
          | _ => decode_loop fuel' hp' i' (d_r d) (d_src d)
          end
      end
  end.

Definition tfw_hpack_decode (hp : TfwHPack) (i : Iter P) (src : bytes)
  : outcome (Z * TfwHPack * Iter P * bytes) :=
  decode_loop (S (length src)) hp i T_POSTPONE src.
End decoder.
