(* ===== verification/HpackSpec.v ===== *)
(** What a header block means (RFC 7541), and that [tfw_hpack_decode()] decodes
    it: header field representations, their encodings, their effect on the
    dynamic table, and the correctness of the FSM of [HpackDec.v] against them
    for any HTTP parser that keeps its promise. *)

From stdpp Require Import strings.
From S2P Require Import Prelude HpackInt HpackTbl HuffTbl Huffman HpackDec.
Local Open Scope Z_scope.

(** ** Header fields and tables *)

(** A header field, with the tag that tells the parser how to read the value. *)
Record field : Type := MkField {
  f_name : bytes;
  f_value : bytes;
  f_tag : Z;
}.

Definition f_cost (f : field) : Z := HPACK_ENTRY_OVERHEAD + zlen (f_name f) + zlen (f_value f).

Definition field_of (e : TfwHPackEntry) : field :=
  MkField (take (Z.to_nat (he_name_len e)) (he_hdr e))
    (drop (Z.to_nat (he_name_len e)) (he_hdr e)) (he_tag e).

Definition static_fields : list field := map field_of static_table.

(** Sections 4.3 and 4.4: eviction. *)
Fixpoint rfc_keep (l : list field) (limit : Z) : list field :=
  match l with
  | [] => []
  | f :: l' => if f_cost f <=? limit then f :: rfc_keep l' (limit - f_cost f) else []
  end.

Definition rfc_add (f : field) (l : list field) (window : Z) : list field :=
  if window <? f_cost f then [] else f :: rfc_keep l (window - f_cost f).

(** ** Representations *)

Inductive lit_mode : Type := LAdd | LPlain | LNever.

(** A name by index or by its text; a text comes with its coding. *)
Inductive name_ref : Type :=
| NIndex (i : Z)
| NText (name coded : bytes).

Inductive hrep : Type :=
| RIndexed (i : Z)
| RLiteral (m : lit_mode) (n : name_ref) (value coded : bytes)
| RResize (size : Z).

(** A string and its coding (section 5.2): plain, or Huffman codes padded with
    ones. *)
Definition string_rep (s coded : bytes) : Prop :=
  bytes_ok s /\
  (coded = write_int_bytes (zlen s) 0x7F 0 ++ s \/
   exists h n, bytes_ok h /\ (n <= 7)%nat /\
     byte_bits h = flat_map code s ++ replicate n true /\
     coded = write_int_bytes (zlen h) 0x7F 0x80 ++ h).

Definition mode_max (m : lit_mode) : Z := match m with LAdd => 0x3F | _ => 0x0F end.
Definition mode_mask (m : lit_mode) : Z :=
  match m with LAdd => 0x40 | LPlain => 0 | LNever => 0x10 end.

Definition encode_rep (r : hrep) : bytes :=
  match r with
  | RIndexed i => write_int_bytes i 0x7F 0x80
  | RLiteral m (NIndex i) _ coded => write_int_bytes i (mode_max m) (mode_mask m) ++ coded
  | RLiteral m (NText _ ncoded) _ coded => mode_mask m :: ncoded ++ coded
  | RResize size => write_int_bytes size 0x1F 0x20
  end.

(** The effect of a representation on the dynamic table [l] and the window: the
    new ones and the header field. *)
Definition rfc_step (name_tag : bytes -> Z) (max_window : Z) (l : list field) (window : Z)
    (r : hrep) : option (list field * Z * list field) :=
  match r with
  | RIndexed i =>
      match (static_fields ++ l) !! Z.to_nat (i - 1) with
      | Some f => Some (l, window, [f])
      | None => None
      end
  | RLiteral m n value _ =>
      match (match n with
             | NIndex i =>
                 match (static_fields ++ l) !! Z.to_nat (i - 1) with
                 | Some f => Some (f_name f, f_tag f)
                 | None => None
                 end
             | NText name _ => Some (name, name_tag name)
             end) with
      | Some (name, tag) =>
          let f := MkField name value tag in
          Some (match m with LAdd => rfc_add f l window | _ => l end, window, [f])
      | None => None
      end
  | RResize size => if size <=? max_window then Some (rfc_keep l size, size, []) else None
  end.

(** ** What the decoder takes

    These are limits of the decoder and not of the RFC; behind each of them is a theorem at the end of this file. *)

(** A string is not empty and not longer than HPACK_LIMIT, and a Huffman coding is not longer than the string. *)
Definition string_input (s coded : bytes) : Prop :=
  string_rep s coded /\ s <> [] /\ zlen s <= HPACK_LIMIT /\
  (forall h, coded = write_int_bytes (zlen h) 0x7F 0x80 ++ h -> zlen h <= zlen s).

(** A fully indexed header has a value, and a method is one of the static table. *)
Definition indexed_ok (i : Z) (f : field) : bool :=
  negb (bool_decide (f_value f = [])) &&
  (if f_tag f =? TFW_TAG_HDR_H2_METHOD then (i =? 2) || (i =? 3)
   else bool_decide (is_Some (hdr_tag_of (f_tag f)))).

(** ** The promise of the HTTP parser *)

(** Where the parser is: in a name, or in the value of a header whose name, tag
    and number of name chunks are known. *)
Inductive stage : Type :=
| SName
| SValue (name : bytes) (tag : Z) (nchunks : Z).

Definition value_stage (st : stage) : bool := match st with SName => false | _ => true end.

(** [tfw_h2_parse_req_hdr()] takes a name or value in pieces: all but the last
    are POSTPONEd, the last one is accepted; then [parser->hdr] holds what was
    parsed. *)
Class HdrParserOk {P : Type} (parse : bytes -> bool -> bool -> PReq P -> Z * PReq P) : Type := {
  hp_idle : P -> Prop;
  hp_name_tag : bytes -> Z;
  hp_good_name : bytes -> Prop;
  hp_good_value : bytes -> Z -> bytes -> Prop;
  hp_at : stage -> bytes -> PReq P -> Prop;
  hp_good (st : stage) (s : bytes) : Prop :=
    match st with SName => hp_good_name s | SValue n tag _ => hp_good_value n tag s end;
  hp_done (st : stage) (s : bytes) (q : PReq P) : Prop :=
    match st with
    | SName => exists k, hp_at (SValue s (hp_name_tag s) k) [] q
    | SValue n tag k =>
        hp_idle (pr_parser q) /\ ts_data (pr_hdr q) = n ++ s /\ k <= ts_nchunks (pr_hdr q) /\
        2 <= ts_nchunks (pr_hdr q) /\ pr_tag q = tag
    end;
  hp_name_start : forall q,
    hp_idle (pr_parser q) -> pr_hdr q = TFW_STR_INIT -> hp_at SName [] q;
  hp_value_start : forall q n tag k,
    hp_idle (pr_parser q) -> pr_hdr q = MkStr n k -> 1 <= k -> pr_tag q = tag ->
    hp_at (SValue n tag k) [] q;
  hp_value_hdr : forall q n tag k,
    hp_at (SValue n tag k) [] q -> pr_hdr q = MkStr n k /\ 0 <= k;
  hp_piece : forall st acc d more q,
    hp_at st acc q -> d <> [] -> more <> [] -> hp_good st (acc ++ d ++ more) ->
    exists q', parse d false (value_stage st) q = (T_POSTPONE, q') /\ hp_at st (acc ++ d) q';
  hp_fin : forall st acc d q,
    hp_at st acc q -> d <> [] -> hp_good st (acc ++ d) ->
    exists q', parse d true (value_stage st) q = (T_OK, q') /\ hp_done st (acc ++ d) q';
}.

(** ** Integers *)

(** The bytes of an integer as the FSM reads them: the first byte keeps the mask
    and has the value, or all ones and the rest follows. *)
Lemma write_int_split N mask index rest :
  4 <= N <= 7 -> is_u8 mask -> Z.land mask (Z.ones N) = 0 -> 0 <= index <= HPACK_LIMIT ->
  exists c tl, write_int_bytes index (Z.ones N) mask ++ rest = c :: tl /\ is_u8 c /\
    c = Z.lor (Z.min index (Z.ones N)) mask /\ Z.land c (Z.ones N) = Z.min index (Z.ones N) /\
    (index < Z.ones N -> tl = rest) /\
    (Z.ones N <= index -> GET_FLEXIBLE tl (Z.ones N) = Ok (FlexDone index rest)).
Proof.
  intros HN Hm Hd Hi. unfold HPACK_LIMIT in Hi.
  assert (Hp : 2 ^ 4 <= 2 ^ N <= 2 ^ 7) by (split; apply Z.pow_le_mono_r; lia).
  assert (Hmax : Z.ones N = 2 ^ N - 1) by (rewrite Z.ones_equiv; lia).
  destruct (prefix_byte N (Z.min index (Z.ones N)) mask) as [Hu Hl]; [lia | lia | done | done |].
  assert (H8 : is_u8 (Z.lor (Z.min index (Z.ones N)) mask))
    by (rewrite <- Hu; apply Z.mod_pos_bound; lia).
  unfold write_int_bytes. destruct (Z.ltb_spec index (Z.ones N)).
  - rewrite Z.min_l in * by lia. eexists _, rest. rewrite Hu. split; [reflexivity |].
    split; [done |]. split; [done |]. split; [done |]. split; [done | lia].
  - rewrite Z.min_r in * by lia. eexists _, _. rewrite Hu, <- app_comm_cons.
    split; [reflexivity |]. split; [done |]. split; [done |]. split; [done |]. split; [lia |].
    intros _. unfold GET_FLEXIBLE.
    rewrite get_flexible_tail; [do 2 f_equal; lia | | lia | lia | unfold HPACK_LIMIT; lia].
    change (128 ^ Z.of_nat 10) with (2 ^ 70). lia.
Qed.

(** ** Tables *)

Lemma f_cost_field e : f_cost (field_of e) = entry_cost e.
Proof.
  unfold f_cost, entry_cost, field_of. cbn [f_name f_value].
  rewrite <- (take_drop (Z.to_nat (he_name_len e)) (he_hdr e)) at 3. rewrite zlen_app. lia.
Qed.

Lemma rfc_keep_map es limit : rfc_keep (map field_of es) limit = map field_of (keep es limit).
Proof.
  revert limit. induction es as [|e es IH]; intros limit; [done |]. cbn [map rfc_keep keep].
  rewrite f_cost_field. case_match; [| done]. cbn [map]. by rewrite IH.
Qed.

Lemma rfc_add_map e es window :
  rfc_add (field_of e) (map field_of es) window = map field_of (spec_add e es window).
Proof.
  unfold rfc_add, spec_add. rewrite f_cost_field. case_match; [done |]. cbn [map].
  by rewrite rfc_keep_map.
Qed.

(** Entries whose chunks are in order. *)
Definition entry_wf (e : TfwHPackEntry) : bool :=
  (1 <=? he_name_num e) && (he_name_num e <=? he_nchunks e) && (0 <=? he_name_len e) &&
  (he_name_len e <=? zlen (he_hdr e)).

Lemma static_table_wf :
  forallb (fun e => entry_wf e &&
    bool_decide (he_nchunks e = 2 <-> f_value (field_of e) <> [])) static_table = true.
Proof. vm_compute. reflexivity. Qed.

(** The table of the decoder represents the list of fields [l]. *)
Definition tbl_rep (tbl : TfwHPackDTbl) (l : list field) : Prop :=
  exists es, dt_rep tbl es /\ Forall (fun e => entry_wf e = true) es /\ l = map field_of es.

(** Looking up an index gives an entry of the static table or of the list. *)
Lemma find_index_field tbl l i f :
  tbl_rep tbl l -> 0 < i -> (static_fields ++ l) !! Z.to_nat (i - 1) = Some f ->
  exists e, tfw_hpack_find_index tbl i = Ok (Some e) /\ field_of e = f /\ entry_wf e = true /\
    (i <= HPACK_STATIC_ENTRIES -> (he_nchunks e = 2 <-> f_value f <> [])).
Proof.
  intros (es & Hrep & Hwf & ->) Hi Hf. rewrite (find_index_rep tbl es i Hrep Hi).
  unfold static_fields in Hf. rewrite <- map_app in Hf.
  apply list_lookup_fmap_Some in Hf as (e & -> & He). exists e. rewrite He.
  split; [done |]. split; [done |].
  apply lookup_app_Some in He as [Hs|[Hlen Hd]].
  - pose proof static_table_wf as Hall. rewrite forallb_forall in Hall.
    apply list_elem_of_lookup_2, list_elem_of_In, Hall in Hs.
    rewrite andb_true_iff, bool_decide_eq_true in Hs. tauto.
  - split; [by eapply Forall_lookup_1 in Hwf |]. intros Hst. exfalso.
    unfold HPACK_STATIC_ENTRIES, zlen in Hst. lia.
Qed.

Lemma keep_sublist es limit : exists k, keep es limit = take k es.
Proof.
  revert limit. induction es as [|e es IH]; intros limit; [by exists 0%nat |]. cbn [keep].
  case_match; [| by exists 0%nat]. destruct (IH (limit - entry_cost e)) as (k & ->).
  by exists (S k).
Qed.

Lemma tbl_rep_add mem tbl l e :
  tbl_rep tbl l -> entry_wf e = true -> is_Some (mem_entries mem) -> mem_hdr mem = true ->
  zlen (he_hdr e) < 2 ^ 30 -> d_length tbl < 2 ^ 30 -> growth_ok tbl e ->
  exists tbl', tfw_hpack_add_index mem e tbl = Ok (0, tbl') /\
    tbl_rep tbl' (rfc_add (field_of e) l (d_window tbl)) /\ d_window tbl' = d_window tbl.
Proof.
  intros (es & Hrep & Hwf & ->) He Hme Hmh Hlen HL Hg.
  destruct (add_index_rep mem tbl es e Hrep Hme Hmh Hlen HL Hg) as (tbl' & Ha & Hr' & Hw).
  exists tbl'. split; [done |]. split; [| done]. eexists. split; [exact Hr' |].
  split; [| apply rfc_add_map]. unfold spec_add. case_match; [constructor |].
  constructor; [done |]. destruct (keep_sublist es (d_window tbl - entry_cost e)) as (k & ->).
  by apply Forall_take.
Qed.

Lemma tbl_rep_resize tbl l max_window size :
  tbl_rep tbl l -> 0 <= size <= max_window -> max_window < 2 ^ 31 ->
  exists tbl', tfw_hpack_set_length max_window size tbl = Ok (0, tbl') /\
    tbl_rep tbl' (rfc_keep l size) /\ d_window tbl' = size.
Proof.
  intros (es & Hrep & Hwf & ->) Hs Hmax.
  destruct (set_length_rep tbl es max_window size Hrep) as [Hok _]; [lia | done |].
  destruct Hok as (tbl' & Ha & Hr' & Hw); [lia |]. exists tbl'. split; [done |].
  split; [| done]. eexists. split; [exact Hr' |]. split; [| apply rfc_keep_map].
  destruct (keep_sublist es size) as (k & ->). by apply Forall_take.
Qed.

(** ** Flags *)

Lemma testbit_next_state s new k :
  0 <= new < 16 -> 4 <= k ->
  Z.testbit (Z.lor (Z.land s (Z.lnot HPACK_STATE_MASK)) new) k = Z.testbit s k.
Proof.
  intros Hn Hk. rewrite Z.lor_spec, Z.land_spec, Z.lnot_spec by lia.
  assert (Hlow : forall x, 0 <= x < 16 -> Z.testbit x k = false).
  { intros x Hx. destruct (Z.eq_dec x 0) as [->|]; [apply Z.bits_0 |].
    apply Z.bits_above_log2; [lia |]. apply Z.lt_le_trans with 4; [| done].
    apply Z.log2_lt_pow2; lia. }
  rewrite (Hlow new Hn), (Hlow HPACK_STATE_MASK) by (unfold HPACK_STATE_MASK; lia).
  by rewrite andb_true_r, orb_false_r.
Qed.

Section correct.
Context {P : Type} (parse : bytes -> bool -> bool -> PReq P -> Z * PReq P).
Context `{HP : !HdrParserOk parse}.
Context (takes : PReq P -> bool) (takes_all : forall q, takes q = true).
Context (alloc_buf : Z -> Iter P -> bool) (buf_ok : forall n i, alloc_buf n i = true).
Context (alloc_desc : Iter P -> bool) (desc_ok : forall i, alloc_desc i = true).
Context (alloc_entry : Iter P -> mem_outcome).
Context (entry_ok : forall i, is_Some (mem_entries (alloc_entry i)) /\ mem_hdr (alloc_entry i) = true).
Context (alloc_byte : bytes -> option bool) (byte_ok : forall s, is_Some (alloc_byte s)).
Context (uninit : Z -> bytes).

(** ** Runs that do not leave the FSM *)

Definition runs {A} (m : DM (P := P) A) (Q : A -> Dec P -> Prop) (d : Dec P) : Prop :=
  exists a d', m d = Ok (Some a, d') /\ Q a d'.

Lemma runs_bind {A B} (m : DM A) (k : A -> DM B) Q d :
  runs m (fun a d' => runs (k a) Q d') d -> runs (dm_bind m k) Q d.
Proof.
  intros (a & d' & Hm & b & d'' & Hk & HQ). exists b, d''. unfold dm_bind. by rewrite Hm.
Qed.

Lemma runs_mono {A} (m : DM A) (Q Q' : A -> Dec P -> Prop) d :
  runs m Q d -> (forall a d', Q a d' -> Q' a d') -> runs m Q' d.
Proof. intros (a & d' & Hm & HQ) HQQ. exists a, d'. auto. Qed.

Lemma runs_ret {A} (a : A) (Q : A -> Dec P -> Prop) d : Q a d -> runs (dm_ret a) Q d.
Proof. by exists a, d. Qed.

Lemma runs_get (Q : Dec P -> Dec P -> Prop) d : Q d d -> runs dm_get Q d.
Proof. by exists d, d. Qed.

Lemma runs_hp f (Q : unit -> Dec P -> Prop) d :
  Q tt (MkDec (f (d_hp d)) (d_it d) (d_state d) (d_r d) (d_src d)) -> runs (dm_hp f) Q d.
Proof. intros HQ. by eexists tt, _. Qed.

Lemma runs_it f (Q : unit -> Dec P -> Prop) d :
  Q tt (MkDec (d_hp d) (f (d_it d)) (d_state d) (d_r d) (d_src d)) -> runs (dm_it f) Q d.
Proof. intros HQ. by eexists tt, _. Qed.

Lemma runs_flag f (Q : unit -> Dec P -> Prop) d :
  Q tt (MkDec (d_hp d) (d_it d) (Z.lor (d_state d) f) (d_r d) (d_src d)) -> runs (dm_flag f) Q d.
Proof. intros HQ. by eexists tt, _. Qed.

Lemma runs_r r (Q : unit -> Dec P -> Prop) d :
  Q tt (MkDec (d_hp d) (d_it d) (d_state d) r (d_src d)) -> runs (dm_r r) Q d.
Proof. intros HQ. by eexists tt, _. Qed.

Lemma runs_src s (Q : unit -> Dec P -> Prop) d :
  Q tt (MkDec (d_hp d) (d_it d) (d_state d) (d_r d) s) -> runs (dm_src s) Q d.
Proof. intros HQ. by eexists tt, _. Qed.

Lemma runs_next_state new (Q : unit -> Dec P -> Prop) d :
  Q tt (MkDec (d_hp d) (d_it d) (Z.lor (Z.land (d_state d) (Z.lnot HPACK_STATE_MASK)) new)
          (d_r d) (d_src d)) -> runs (NEXT_STATE new) Q d.
Proof. intros HQ. by eexists tt, _. Qed.

Lemma runs_next_byte c src (Q : Z -> Dec P -> Prop) d :
  d_src d = c :: src ->
  Q c (MkDec (d_hp d) (d_it d) (d_state d) (d_r d) src) -> runs next_byte Q d.
Proof.
  intros Hs HQ. unfold next_byte. apply runs_bind, runs_get. rewrite Hs.
  by apply runs_bind, runs_src, runs_ret.
Qed.

Lemma runs_not_end (Q : unit -> Dec P -> Prop) d : d_src d <> [] -> Q tt d -> runs out_if_end Q d.
Proof.
  intros Hs HQ. unfold out_if_end. apply runs_bind, runs_get.
  destruct (d_src d); [done |]. by apply runs_ret.
Qed.

Lemma runs_check_ok (Q : unit -> Dec P -> Prop) d :
  Q tt (MkDec (d_hp d) (d_it d) (d_state d) T_OK (d_src d)) -> runs (check_r T_OK) Q d.
Proof. intros HQ. unfold check_r. by apply runs_bind, runs_r, runs_ret. Qed.

Ltac run :=
  repeat (lazymatch goal with
    | |- runs (dm_bind _ _) _ _ => apply runs_bind
    | |- runs dm_get _ _ => apply runs_get
    | |- runs (dm_hp _) _ _ => apply runs_hp
    | |- runs (dm_it _) _ _ => apply runs_it
    | |- runs (dm_src _) _ _ => apply runs_src
    | |- runs (dm_flag _) _ _ => apply runs_flag
    | |- runs (NEXT_STATE _) _ _ => apply runs_next_state
    | |- runs (check_r T_OK) _ _ => apply runs_check_ok
    | |- runs (dm_ret _) _ _ => apply runs_ret
    | |- runs (if 0 =? 0 then _ else _) _ _ => change (0 =? 0) with true; cbv iota
    end; cbn [d_hp d_it d_state d_r d_src]).

(** ** Strings *)

Lemma process_chunks_ok st cs acc ret q :
  hp_at st acc q -> cs <> [] -> Forall (fun c => c <> []) cs -> hp_good st (acc ++ concat cs) ->
  exists q', process_chunks parse cs (value_stage st) ret q = (T_OK, q') /\
    hp_done st (acc ++ concat cs) q'.
Proof.
  intros Hat Hne Hcs Hgood. revert acc ret q Hat Hgood.
  induction Hcs as [|c cs Hc Hcs IH]; intros acc ret q Hat Hgood; [done |].
  cbn [process_chunks concat] in *. destruct cs as [|c' cs].
  - cbn [concat] in *. rewrite app_nil_r in *.
    destruct (hp_fin st acc c q Hat Hc Hgood) as (q' & -> & Hd). by exists q'.
  - assert (Hmore : concat (c' :: cs) <> []).
    { apply Forall_cons in Hcs as [Hc' _]. cbn [concat]. destruct c'; [done | discriminate]. }
    destruct (hp_piece st acc c (concat (c' :: cs)) q Hat Hc Hmore Hgood) as (q1 & -> & Hat1).
    change (T_POSTPONE <? T_POSTPONE) with false. rewrite app_assoc in Hgood |- *.
    by apply IH.
Qed.

Lemma extra_chunks_ok done last more :
  last <> [] ->
  concat (extra_chunks alloc_byte done last more) = last ++ more /\
  Forall (fun c => c <> []) (extra_chunks alloc_byte done last more) /\
  extra_chunks alloc_byte done last more <> [].
Proof.
  revert done last. induction more as [|c more IH]; intros done last Hl; cbn [extra_chunks concat].
  - rewrite app_nil_r. split; [done |]. split; [by repeat constructor | done].
  - case_bool_decide.
    + destruct (IH (done ++ [c]) [c]) as (E & F & _); [done |]. cbn [concat]. rewrite E.
      split; [done |]. split; [by constructor | done].
    + destruct (IH (done ++ [c]) (last ++ [c])) as (E & F & N); [by destruct last |].
      rewrite E, <- app_assoc. done.
Qed.

Lemma buffer_chunks_ok length out :
  0 < length -> length <= zlen out ->
  concat (buffer_chunks alloc_byte uninit length out) = out /\
  Forall (fun c => c <> []) (buffer_chunks alloc_byte uninit length out) /\
  buffer_chunks alloc_byte uninit length out <> [].
Proof.
  intros H0 Hl. unfold buffer_chunks. rewrite (proj2 (Z.ltb_ge _ _)) by done.
  rewrite <- (take_drop (Z.to_nat length) out) at 4.
  apply extra_chunks_ok. destruct out; [unfold zlen in Hl; cbn in Hl; lia |].
  destruct (Z.to_nat length) eqn:E; [lia | done].
Qed.

(** The fields that string processing does not touch. *)
Definition same_context (d d' : Dec P) : Prop :=
  hp_dec_tbl (d_hp d') = hp_dec_tbl (d_hp d) /\
  hp_max_window (d_hp d') = hp_max_window (d_hp d) /\
  hp_curr (d_hp d') = hp_curr (d_hp d) /\
  d_state d' = d_state d /\ it_stored (d_it d') = it_stored (d_it d) /\
  it_nm_len (d_it d') = it_nm_len (d_it d) /\ it_nm_num (d_it d') = it_nm_num (d_it d).

(** What is left of the coding of [s] behind its length. *)
Definition text_rep (s text : bytes) (huffman : bool) : Prop :=
  if huffman
  then exists n, bytes_ok text /\ (n <= 7)%nat /\ zlen text <= zlen s /\ text <> [] /\
         byte_bits text = flat_map code s ++ replicate n true
  else text = s.

Lemma string_input_text s coded :
  string_input s coded ->
  exists text (huffman : bool),
    coded = write_int_bytes (zlen text) 0x7F (if huffman then 0x80 else 0) ++ text /\
    0 < zlen text <= zlen s /\ text_rep s text huffman.
Proof.
  intros ([Hsb Hcoded] & Hs & Hsl & Hshort).
  assert (Hspos : 0 < zlen s) by (destruct s; [done | unfold zlen; cbn [length]; lia]).
  destruct Hcoded as [->|(h & m & Hh & Hm & Hbits & ->)].
  - exists s, false. split; [done |]. split; [lia | done].
  - pose proof (Hshort h eq_refl) as Hhl. assert (Hne : h <> []).
    { intros ->. destruct s as [|c s]; [done |]. apply Forall_cons in Hsb as [Hc _].
      cbn [byte_bits flat_map] in Hbits. pose proof (symbol_walk c Hc) as Hw.
      destruct (code c); [by vm_compute in Hw | done]. }
    exists h, true. split; [done |].
    split; [destruct h; [done | unfold zlen in *; cbn [length] in *; lia] |]. by exists m.
Qed.

(** A whole string in the fragment is taken and parsed, plain or Huffman-coded. *)
Lemma process_string st s text (huffman : bool) rest d :
  hp_at st [] (it_req (d_it d)) -> s <> [] -> bytes_ok s -> hp_good st s ->
  hp_curr (d_hp d) = - HT_NBITS -> d_src d = text ++ rest -> hp_length (d_hp d) = zlen text ->
  text_rep s text huffman -> (huffman = true -> it_huff (d_it d) = (zlen text, [])) ->
  runs (if huffman
        then HPACK_DECODE_PROCESS_STRING parse alloc_byte uninit (value_stage st)
               (Z.min (zlen (d_src d)) (hp_length (d_hp d)))
        else HPACK_PROCESS_STRING parse (value_stage st)
               (Z.min (zlen (d_src d)) (hp_length (d_hp d))))
    (fun _ d' => same_context d d' /\ d_src d' = rest /\ hp_done st s (it_req (d_it d'))) d.
Proof.
  intros Hat Hs Hsb Hgood Hcurr Hsrc Hlen Hkind Hhuff. rewrite Hsrc, Hlen, zlen_app.
  pose proof (zlen_nonneg rest). rewrite Z.min_r by lia.
  assert (Htake : take (Z.to_nat (zlen text)) (text ++ rest) = text)
    by (unfold zlen; rewrite Nat2Z.id; apply take_app_length).
  assert (Hdrop : drop (Z.to_nat (zlen text)) (text ++ rest) = rest)
    by (unfold zlen; rewrite Nat2Z.id; apply drop_app_length).
  destruct huffman.
  - destruct Hkind as (n & Htb & Hn & Hshort & Hne & Hbits). specialize (Hhuff eq_refl).
    assert (Hpos : 0 < zlen text) by (destruct text; [done | unfold zlen; cbn [length]; lia]).
    unfold HPACK_DECODE_PROCESS_STRING. apply runs_bind, runs_get. rewrite Hhuff, Hsrc, Htake.
    unfold hp_huff. rewrite Hlen, Hcurr.
    destruct (huffman_decode_bits (buffer_room alloc_byte (zlen text)) s n text
      (hp_hctx (d_hp d)) []) as (h & ->); try done.
    { intros p _. unfold buffer_room. rewrite (bool_decide_eq_true_2 _ (byte_ok _)).
      apply orb_true_r. }
    run. unfold __hpack_process_hdr. run. cbn [it_huff it_req]. rewrite app_nil_l.
    destruct (buffer_chunks_ok (zlen text) s Hpos Hshort) as (Hcat & Hcs & Hnil).
    destruct (process_chunks_ok st (buffer_chunks alloc_byte uninit (zlen text) s) []
      T_BAD (it_req (d_it d)) Hat Hnil Hcs) as (q' & Hp & Hd); [by rewrite app_nil_l, Hcat |].
    rewrite app_nil_l, Hcat in Hd. rewrite Hp. run. rewrite Hdrop. split; [| done]. unfold same_context. cbn. by rewrite Hcurr.
  - cbn [text_rep] in Hkind. subst text. unfold HPACK_PROCESS_STRING. run. rewrite Hsrc, Htake.
    cbn [set_hp_length hp_length]. rewrite Hlen, Z.sub_diag. cbn [Z.eqb].
    destruct (hp_fin st [] s (it_req (d_it d)) Hat Hs Hgood) as (q' & -> & Hd).
    run. rewrite Hdrop. by split.
Qed.

(** ** Headers *)

(** [growth_ok] in terms of the field that is added. *)
Definition field_growth_ok (tbl : TfwHPackDTbl) (f : field) : Prop :=
  d_size tbl + f_cost f <= d_window tbl -> d_n tbl = d_length tbl -> d_curr tbl = 0.

(** The table may change by one addition or by a size update. *)
Definition tbl_step (tbl tbl' : TfwHPackDTbl) : Prop :=
  tbl' = tbl \/ (exists mem e, tfw_hpack_add_index mem e tbl = Ok (0, tbl')) \/
  exists max size, tfw_hpack_set_length max size tbl = Ok (0, tbl').

(** A header with the field [f] was stored; [l'] is the dynamic table now. *)
Definition header_done (d : Dec P) (f : field) (l' : list field) (rest : bytes) (d' : Dec P)
  : Prop :=
  d_src d' = rest /\ hp_max_window (d_hp d') = hp_max_window (d_hp d) /\
  hp_curr (d_hp d') = - HT_NBITS /\ hp_idle (pr_parser (it_req (d_it d'))) /\
  pr_hdr (it_req (d_it d')) = TFW_STR_INIT /\
  (exists id k, it_stored (d_it d') =
     it_stored (d_it d) ++ [(id, MkStr (f_name f ++ f_value f) k)]) /\
  tbl_rep (hp_dec_tbl (d_hp d')) l' /\
  d_window (hp_dec_tbl (d_hp d')) = d_window (hp_dec_tbl (d_hp d)) /\
  tbl_step (hp_dec_tbl (d_hp d)) (hp_dec_tbl (d_hp d')).

Lemma close_runs (Q : unit -> Dec P -> Prop) d :
  (forall d', d_src d' = d_src d -> d_hp d' = d_hp d ->
     pr_parser (it_req (d_it d')) = pr_parser (it_req (d_it d)) ->
     pr_hdr (it_req (d_it d')) = TFW_STR_INIT ->
     it_stored (d_it d') =
       it_stored (d_it d) ++ [(pr_hdr_tag (it_req (d_it d)), pr_hdr (it_req (d_it d)))] ->
     Q tt d') ->
  runs (dm_bind count_header (fun _ => hdr_close takes)) Q d.
Proof.
  intros HQ. unfold count_header, hdr_close. run. cbn [it_req]. rewrite takes_all. run.
  by apply HQ.
Qed.

Lemma testbit_top x (huffman : bool) :
  0 <= x <= 127 -> has_flag (Z.lor x (if huffman then 0x80 else 0)) 0x80 = huffman.
Proof.
  intros Hx. change 0x80 with (2 ^ 7). rewrite has_flag_bit, Z.lor_spec by lia.
  assert (E : Z.testbit x 7 = false).
  { destruct (Z.eq_dec x 0) as [->|]; [apply Z.bits_0 |]. apply Z.bits_above_log2; [lia |].
    apply Z.log2_lt_pow2; lia. }
  rewrite E. by destruct huffman.
Qed.

(** The length of a string, with its Huffman bit. *)
Lemma read_length (k : Z -> DM unit) more_state flag (small : Z -> DM Z) text (huffman : bool) rest Q d :
  (forall x, x <> 0 -> small x = dm_ret x) -> 0 < zlen text <= HPACK_LIMIT ->
  d_src d = write_int_bytes (zlen text) 0x7F (if huffman then 0x80 else 0) ++ text ++ rest ->
  runs (k (zlen text)) Q
    (MkDec (set_hp_length (zlen text) (d_hp d)) (d_it d)
       (if huffman then Z.lor (d_state d) flag else d_state d) (d_r d) (text ++ rest)) ->
  runs (dm_bind next_byte (fun c =>
        dm_bind (dm_hp (set_hp_length (Z.land c 0x7F))) (fun _ =>
        dm_bind (if has_flag c 0x80 then dm_flag flag else dm_ret tt) (fun _ =>
        dm_bind (if Z.land c 0x7F =? 0x7F then get_flexible_to set_hp_length 0x7F more_state
                 else small (Z.land c 0x7F)) k)))) Q d.
Proof.
  intros Hsm Hl Hsrc Hk.
  destruct (write_int_split 7 (if huffman then 0x80 else 0) (zlen text) (text ++ rest))
    as (c & tl & Hc & H8 & Hcv & Hland & Hsmall & Hbig); [lia | | | lia |].
  { destruct huffman; unfold is_u8; lia. }
  { by destruct huffman. }
  change (Z.ones 7) with 0x7F in *. rewrite Hc in Hsrc.
  apply runs_bind. eapply runs_next_byte; [exact Hsrc |]. run.
  rewrite Hland. assert (Hf : has_flag c 0x80 = huffman)
    by (rewrite Hcv; apply testbit_top; lia).
  rewrite Hf. set (len := Z.min (zlen text) 0x7F) in *.
  assert (Hrest : runs (dm_bind (if len =? 0x7F then get_flexible_to set_hp_length 0x7F more_state
                 else small len) k) Q
    (MkDec (set_hp_length len (d_hp d)) (d_it d)
       (if huffman then Z.lor (d_state d) flag else d_state d) (d_r d) tl)).
  { unfold len. destruct (Z.ltb_spec (zlen text) 0x7F).
    - rewrite Z.min_l by lia. rewrite (proj2 (Z.eqb_neq _ 0x7F)), Hsm by lia.
      run. by rewrite Hsmall by done.
    - rewrite Z.min_r by lia. cbn [Z.eqb Pos.eqb]. unfold get_flexible_to. run.
      rewrite Hbig by lia. run. exact Hk. }
  destruct huffman; [apply runs_flag | apply runs_ret]; exact Hrest.
Qed.

Definition name_num (k : Z) : Z := if k =? 0 then 1 else k.

(** The parsed header goes to the dynamic table. *)
Lemma add_index_ok n v tag k l Q d :
  tbl_rep (hp_dec_tbl (d_hp d)) l -> zlen n + zlen v < 2 ^ 30 -> 0 <= k ->
  d_length (hp_dec_tbl (d_hp d)) < 2 ^ 30 ->
  field_growth_ok (hp_dec_tbl (d_hp d)) (MkField n v tag) ->
  it_nm_len (d_it d) = zlen n -> it_nm_num (d_it d) = name_num k ->
  hp_done (SValue n tag k) v (it_req (d_it d)) ->
  (forall tbl', tbl_rep tbl' (rfc_add (MkField n v tag) l (d_window (hp_dec_tbl (d_hp d)))) ->
     d_window tbl' = d_window (hp_dec_tbl (d_hp d)) -> tbl_step (hp_dec_tbl (d_hp d)) tbl' ->
     Q tt (MkDec (set_hp_tbl tbl' (d_hp d)) (d_it d) (d_state d) (d_r d) (d_src d))) ->
  runs (add_index alloc_entry) Q d.
Proof.
  intros Hrep Hlen Hk0 HL Hg Hnl Hnn (_ & Hdata & Hkc & Hk2 & Htag) HQ. unfold add_index. run.
  rewrite Hnl, Hnn, Htag, Hdata. set (nc := ts_nchunks _) in *.
  destruct (entry_ok (d_it d)) as [Hme Hmh]. rewrite Hmh.
  rewrite (proj2 (Z.eqb_neq nc 0)) by lia. cbn [andb negb].
  set (mem := MkMem _ true). set (e := MkHEntry _ _ _ _ _).
  assert (Hfe : field_of e = MkField n v tag).
  { unfold field_of, e. cbn. unfold zlen. by rewrite Nat2Z.id, take_app_length, drop_app_length. }
  assert (Hwe : entry_wf e = true).
  { unfold entry_wf, e, name_num. cbn. pose proof (zlen_nonneg n). pose proof (zlen_nonneg v).
    rewrite zlen_app. rewrite !andb_true_iff, !Z.leb_le. case_match; bool_hyps; lia. }
  destruct (tbl_rep_add mem (hp_dec_tbl (d_hp d)) l e Hrep Hwe Hme eq_refl)
    as (tbl' & Ha & Hr' & Hw'); [unfold e; cbn; rewrite zlen_app; lia | done | |].
  { unfold growth_ok. rewrite <- f_cost_field, Hfe. exact Hg. }
  rewrite Ha. run. rewrite Hfe in Hr'. apply HQ; [done | done |]. right. left. by exists mem, e.
Qed.

(** [get_value_text] to the end of the header. *)
Lemma get_value_text_ok n tag k v text (huffman add : bool) rest l d :
  v <> [] -> bytes_ok v -> text_rep v text huffman -> 0 < zlen text ->
  d_src d = text ++ rest -> hp_length (d_hp d) = zlen text ->
  (huffman = true -> it_huff (d_it d) = (zlen text, [])) ->
  has_flag (d_state d) HPACK_FLAGS_HUFFMAN_VALUE = huffman ->
  has_flag (d_state d) HPACK_FLAGS_ADD = add ->
  it_nm_len (d_it d) = zlen n -> it_nm_num (d_it d) = name_num k -> 0 <= k ->
  hp_at (SValue n tag k) [] (it_req (d_it d)) -> hp_good_value n tag v ->
  hp_curr (d_hp d) = - HT_NBITS ->
  tbl_rep (hp_dec_tbl (d_hp d)) l -> zlen n + zlen v < 2 ^ 30 ->
  (add = true -> d_length (hp_dec_tbl (d_hp d)) < 2 ^ 30 /\
     field_growth_ok (hp_dec_tbl (d_hp d)) (MkField n v tag)) ->
  runs (get_value_text parse takes alloc_entry alloc_byte uninit)
    (fun _ => header_done d (MkField n v tag)
       (if add then rfc_add (MkField n v tag) l (d_window (hp_dec_tbl (d_hp d))) else l) rest) d.
Proof.
  intros Hv Hvb Htext Hpos Hsrc Hlength Hhuff Hf8 Hf4 Hnl Hnn Hk0 Hat Hgood Hcurr Hrep Hlen Hadd.
  unfold get_value_text. apply runs_bind, runs_get. rewrite Hlength at 1.
  rewrite (proj2 (Z.eqb_neq _ _)) by lia. rewrite Hf8, Hf4. apply runs_bind.
  eapply runs_mono; [by eapply (process_string (SValue n tag k) v text huffman rest) |].
  cbv beta. intros _ d2 ((Htbl & Hmw & Hcu & Hst & Hsto & Hnl2 & Hnn2) & Hsrc2 & Hdone).
  assert (Hclose : forall tbl' l', tbl_rep tbl' l' ->
    d_window tbl' = d_window (hp_dec_tbl (d_hp d)) -> tbl_step (hp_dec_tbl (d_hp d)) tbl' ->
    runs (dm_bind count_header (fun _ => hdr_close takes))
      (fun _ => header_done d (MkField n v tag) l' rest)
      (MkDec (set_hp_tbl tbl' (d_hp d2)) (d_it d2) (d_state d2) (d_r d2) (d_src d2))).
  { intros tbl' l' Hr' Hw' Hs'. apply close_runs. intros d3 H1 H2 H3 H4 H5.
    destruct Hdone as (Hidle & Hdata & _). unfold header_done. rewrite H1, H2, H3, H4, H5.
    cbn [d_src d_hp d_it set_hp_tbl hp_max_window hp_curr hp_dec_tbl f_name f_value].
    rewrite Hmw, Hcu, Hcurr, Hsto. split; [done |]. split; [done |]. split; [done |].
    split; [done |]. split; [done |]. split; [| done].
    exists (pr_hdr_tag (it_req (d_it d2))), (ts_nchunks (pr_hdr (it_req (d_it d2)))).
    rewrite <- Hdata. by destruct (pr_hdr _). }
  apply runs_bind. destruct add.
  - destruct (Hadd eq_refl) as [HL Hg].
    eapply (add_index_ok n v tag k l); rewrite ?Htbl, ?Hnl2, ?Hnn2; try done.
    intros tbl' Hr' Hw' Hs'. by apply Hclose.
  - apply runs_ret. specialize (Hclose _ _ Hrep eq_refl (or_introl eq_refl)).
    rewrite <- Htbl in Hclose. by destruct d2 as [[] ? ? ? ?].
Qed.

(** [get_value] to the end of the header. *)
Lemma get_value_ok n tag k v coded rest l d :
  string_input v coded -> d_src d = coded ++ rest ->
  hp_at (SValue n tag k) [] (it_req (d_it d)) -> hp_good_value n tag v ->
  hp_curr (d_hp d) = - HT_NBITS -> Z.testbit (d_state d) 8 = false ->
  tbl_rep (hp_dec_tbl (d_hp d)) l -> zlen n + zlen v < 2 ^ 30 ->
  (Z.testbit (d_state d) 4 = true ->
     d_length (hp_dec_tbl (d_hp d)) < 2 ^ 30 /\
     field_growth_ok (hp_dec_tbl (d_hp d)) (MkField n v tag)) ->
  runs (get_value parse takes alloc_buf alloc_desc alloc_entry alloc_byte uninit)
    (fun _ => header_done d (MkField n v tag)
       (if Z.testbit (d_state d) 4
        then rfc_add (MkField n v tag) l (d_window (hp_dec_tbl (d_hp d))) else l) rest) d.
Proof.
  intros Hsr Hsrc Hat Hgood Hcurr H8 Hrep Hlen Hadd.
  destruct (string_input_text v coded Hsr) as (text & huffman & -> & Htl & Htext).
  destruct Hsr as ((Hvb & _) & Hv & Hvl & _). destruct (hp_value_hdr _ _ _ _ Hat) as [Hhdr Hk0].
  rewrite <- app_assoc in Hsrc. unfold get_value.
  apply (read_length _ _ _ dm_ret text huffman rest); [done | lia | done |].
  unfold value_length_done, BUFFER_VAL_OPEN. run. cbn [it_req]. rewrite Hhdr.
  cbn [ts_data ts_nchunks]. fold (name_num k).
  set (s := Z.lor (Z.land (if huffman then _ else _) _) _).
  assert (Hf8 : has_flag s HPACK_FLAGS_HUFFMAN_VALUE = huffman).
  { subst s. change HPACK_FLAGS_HUFFMAN_VALUE with (2 ^ 8).
    rewrite has_flag_bit, testbit_next_state by (unfold HPACK_STATE_VALUE_TEXT; lia).
    destruct huffman; [| done]. by rewrite Z.lor_spec, H8. }
  assert (Hf4 : has_flag s HPACK_FLAGS_ADD = Z.testbit (d_state d) 4).
  { subst s. change HPACK_FLAGS_ADD with (2 ^ 4).
    rewrite has_flag_bit, testbit_next_state by (unfold HPACK_STATE_VALUE_TEXT; lia).
    destruct huffman; [| done]. rewrite Z.lor_spec. apply orb_false_r. }
  rewrite Hf8.
  assert (Hne : text ++ rest <> [])
    by (destruct text; [unfold zlen in Htl; cbn in Htl; lia | done]).
  assert (Hfin : forall hf, (huffman = true -> hf = (zlen text, [])) ->
    runs (get_value_text parse takes alloc_entry alloc_byte uninit)
      (fun _ => header_done d (MkField n v tag)
       (if Z.testbit (d_state d) 4
        then rfc_add (MkField n v tag) l (d_window (hp_dec_tbl (d_hp d))) else l) rest)
      (MkDec (set_hp_length (zlen text) (d_hp d))
         (MkIter (it_req (d_it d)) (it_hdrs_len (d_it d)) (it_hdrs_cnt (d_it d)) (it_named (d_it d))
            hf (zlen n) (name_num k) (it_stored (d_it d))) s (d_r d) (text ++ rest))).
  { intros hf Hhf. eapply runs_mono.
    - eapply (get_value_text_ok n tag k v text huffman (Z.testbit (d_state d) 4) rest l); try done.
      lia.
    - intros ? d' Hd'. exact Hd'. }
  destruct huffman.
  - unfold BUFFER_GET. run. rewrite (proj2 (Z.eqb_neq _ _)) by lia. rewrite buf_ok. run.
    rewrite desc_ok, andb_false_r. run. apply runs_not_end; [done |]. by apply Hfin.
  - run. apply runs_not_end; [done |]. by apply Hfin.
Qed.

Lemma header_done_from d d1 f l' rest d' :
  hp_max_window (d_hp d1) = hp_max_window (d_hp d) ->
  hp_dec_tbl (d_hp d1) = hp_dec_tbl (d_hp d) ->
  it_stored (d_it d1) = it_stored (d_it d) ->
  header_done d1 f l' rest d' -> header_done d f l' rest d'.
Proof. unfold header_done. by intros -> -> ->. Qed.

(** What a literal header needs, with its name and tag resolved. *)
Definition literal_ok (tbl : TfwHPackDTbl) (add : bool) (n : bytes) (tag : Z) (v coded : bytes)
  : Prop :=
  string_input v coded /\ hp_good_value n tag v /\ zlen n + zlen v < 2 ^ 30 /\
  (add = true -> d_length tbl < 2 ^ 30 /\ field_growth_ok tbl (MkField n v tag)).

Definition add_if (add : bool) (f : field) (l : list field) (window : Z) : list field :=
  if add then rfc_add f l window else l.

Lemma coded_not_nil s coded rest : string_input s coded -> coded ++ rest <> [].
Proof.
  intros Hs. destruct (string_input_text s coded Hs) as (text & hf & -> & Ht & _).
  rewrite <- app_assoc. unfold write_int_bytes. destruct (_ <? _); discriminate.
Qed.

Lemma get_indexed_name_ok f v coded rest l d :
  d_src d = coded ++ rest -> hp_curr (d_hp d) = - HT_NBITS ->
  hp_idle (pr_parser (it_req (d_it d))) ->
  Z.testbit (d_state d) 8 = false -> tbl_rep (hp_dec_tbl (d_hp d)) l -> 0 < hp_index (d_hp d) ->
  (static_fields ++ l) !! Z.to_nat (hp_index (d_hp d) - 1) = Some f ->
  literal_ok (hp_dec_tbl (d_hp d)) (Z.testbit (d_state d) 4) (f_name f) (f_tag f) v coded ->
  runs (get_indexed_name parse takes alloc_buf alloc_desc alloc_entry alloc_byte uninit)
    (fun _ => header_done d (MkField (f_name f) v (f_tag f))
       (add_if (Z.testbit (d_state d) 4) (MkField (f_name f) v (f_tag f)) l
          (d_window (hp_dec_tbl (d_hp d)))) rest) d.
Proof.
  intros Hsrc Hcurr Hidle H8 Hrep Hi Hf (Hsr & Hgood & Hlen & Hadd).
  destruct (find_index_field _ _ _ _ Hrep Hi Hf) as (e & He & Hfe & Hwe & _).
  unfold entry_wf in Hwe. bool_hyps. unfold get_indexed_name. apply runs_bind, runs_get. rewrite He.
  unfold tfw_hpack_hdr_name_set. rewrite (proj2 (Z.eqb_neq _ _)) by lia.
  rewrite (proj2 (Z.ltb_ge _ _)) by lia. cbn [orb]. rewrite buf_ok, desc_ok. cbn [andb]. run.
  set (i1 := set_it_req _ _).
  eapply runs_mono.
  - eapply (get_value_ok (f_name f) (f_tag f) (he_name_num e) v coded rest l);
      cbn [d_src d_hp d_it d_state]; try done.
    + unfold i1. cbn [it_req set_it_req]. rewrite <- Hfe. by apply hp_value_start.
    + by rewrite testbit_next_state by (unfold HPACK_STATE_VALUE; lia).
    + by rewrite testbit_next_state by (unfold HPACK_STATE_VALUE; lia).
  - cbv beta. intros _ d' Hd'. cbn [d_state d_hp] in Hd'.
    rewrite testbit_next_state in Hd' by (unfold HPACK_STATE_VALUE; lia).
    by eapply header_done_from in Hd'.
Qed.

Lemma get_name_ok n ncoded v coded rest l d :
  d_src d = ncoded ++ coded ++ rest -> hp_curr (d_hp d) = - HT_NBITS ->
  hp_idle (pr_parser (it_req (d_it d))) -> pr_hdr (it_req (d_it d)) = TFW_STR_INIT ->
  Z.testbit (d_state d) 8 = false -> Z.testbit (d_state d) 7 = false ->
  tbl_rep (hp_dec_tbl (d_hp d)) l -> string_input n ncoded -> hp_good_name n ->
  literal_ok (hp_dec_tbl (d_hp d)) (Z.testbit (d_state d) 4) n (hp_name_tag n) v coded ->
  runs (get_name parse takes alloc_buf alloc_desc alloc_entry alloc_byte uninit)
    (fun _ => header_done d (MkField n v (hp_name_tag n))
       (add_if (Z.testbit (d_state d) 4) (MkField n v (hp_name_tag n)) l
          (d_window (hp_dec_tbl (d_hp d)))) rest) d.
Proof.
  intros Hsrc Hcurr Hidle Hinit H8 H7 Hrep Hnr Hgn (Hsr & Hgood & Hlen & Hadd).
  destruct (string_input_text n ncoded Hnr) as (text & huffman & -> & Htl & Htext).
  destruct Hnr as ((Hnb & _) & Hn & Hnl & _). rewrite <- app_assoc in Hsrc. unfold get_name.
  apply (read_length _ _ _ (fun x => if x =? 0 then fail T_DROP else dm_ret x) text huffman
    (coded ++ rest)); [| lia | done |].
  { intros x Hx. by rewrite (proj2 (Z.eqb_neq _ _)) by done. }
  unfold name_length_done, BUFFER_NAME_OPEN. run.
  set (s := Z.lor (Z.land (if huffman then _ else _) _) _).
  assert (Hbit : forall k, 4 <= k -> k <> 7 -> Z.testbit s k = Z.testbit (d_state d) k).
  { intros k Hk Hk7. subst s. rewrite testbit_next_state by (unfold HPACK_STATE_NAME_TEXT; lia).
    destruct huffman; [| done]. rewrite Z.lor_spec. change HPACK_FLAGS_HUFFMAN_NAME with (2 ^ 7).
    rewrite Z.pow2_bits_false by lia. apply orb_false_r. }
  assert (Hf7 : has_flag s HPACK_FLAGS_HUFFMAN_NAME = huffman).
  { subst s. change HPACK_FLAGS_HUFFMAN_NAME with (2 ^ 7).
    rewrite has_flag_bit, testbit_next_state by (unfold HPACK_STATE_NAME_TEXT; lia).
    destruct huffman; [| done]. by rewrite Z.lor_spec, H7. }
  rewrite Hf7. clearbody s.
  assert (Hne : text ++ coded ++ rest <> [])
    by (destruct text; [unfold zlen in Htl; cbn in Htl; lia | done]).
  assert (Hfin : forall i1, it_req i1 = it_req (d_it d) -> it_stored i1 = it_stored (d_it d) ->
    (huffman = true -> it_huff i1 = (zlen text, [])) ->
    runs (get_name_text parse takes alloc_buf alloc_desc alloc_entry alloc_byte uninit)
      (fun _ => header_done d (MkField n v (hp_name_tag n))
       (add_if (Z.testbit (d_state d) 4) (MkField n v (hp_name_tag n)) l
          (d_window (hp_dec_tbl (d_hp d)))) rest)
      (MkDec (set_hp_length (zlen text) (d_hp d)) i1 s (d_r d) (text ++ coded ++ rest))).
  { intros i1 Hq Hst Hhf. unfold get_name_text. apply runs_bind, runs_get.
    cbn [d_state]. rewrite Hf7. apply runs_bind. eapply runs_mono.
    - eapply (process_string SName n text huffman (coded ++ rest)); try done.
      cbn [d_it]. rewrite Hq. by apply hp_name_start.
    - cbv beta. intros _ d2 ((Htbl & Hmw & Hcu & Hs2 & Hst2 & _ & _) & Hsrc2 & (k & Hat)).
      cbn [d_state d_it] in Hs2, Hst2. run.
      apply runs_not_end; [cbn [d_src]; rewrite Hsrc2; by eapply coded_not_nil |].
      eapply runs_mono.
      + eapply (get_value_ok n (hp_name_tag n) k v coded rest l); cbn [d_src d_hp d_it d_state];
          rewrite ?Htbl, ?Hcu, ?testbit_next_state, ?Hs2, ?Hbit
            by (unfold HPACK_STATE_VALUE; lia); try done.
      + cbv beta. intros _ d' Hd'. cbn [d_state d_hp] in Hd'.
        rewrite Htbl, testbit_next_state, Hs2, Hbit in Hd' by (unfold HPACK_STATE_VALUE; lia).
        eapply header_done_from in Hd'; [exact Hd' | ..]; cbn [d_hp d_it]; try done.
        by rewrite Hst2. }
  destruct huffman.
  - unfold BUFFER_GET. run. rewrite (proj2 (Z.eqb_neq _ _)) by lia. rewrite buf_ok. run.
    apply runs_not_end; [done |]. by apply Hfin.
  - run. apply runs_not_end; [done |]. by apply Hfin.
Qed.

Lemma get_all_indexed_ok f rest l d :
  d_src d = rest -> hp_curr (d_hp d) = - HT_NBITS -> hp_idle (pr_parser (it_req (d_it d))) ->
  tbl_rep (hp_dec_tbl (d_hp d)) l -> 0 < hp_index (d_hp d) ->
  (static_fields ++ l) !! Z.to_nat (hp_index (d_hp d) - 1) = Some f ->
  indexed_ok (hp_index (d_hp d)) f = true ->
  runs (get_all_indexed takes alloc_buf alloc_desc) (fun _ => header_done d f l rest) d.
Proof.
  intros Hsrc Hcurr Hidle Hrep Hi Hf Hok.
  destruct (find_index_field _ _ _ _ Hrep Hi Hf) as (e & He & Hfe & Hwe & Hst).
  unfold indexed_ok in Hok. rewrite andb_true_iff, negb_true_iff, bool_decide_eq_false in Hok.
  destruct Hok as [Hv Htag]. unfold get_all_indexed. apply runs_bind, runs_get. rewrite He.
  assert (Hset : exists i1, tfw_hpack_hdr_set alloc_buf alloc_desc (hp_index (d_hp d)) e (d_it d) =
      Some i1 /\ pr_parser (it_req i1) = pr_parser (it_req (d_it d)) /\
      pr_hdr (it_req i1) = MkStr (he_hdr e) (he_nchunks e) /\
      it_stored i1 = it_stored (d_it d)).
  { unfold tfw_hpack_hdr_set. rewrite buf_ok, desc_ok. rewrite andb_false_r.
    assert (Hch : (hp_index (d_hp d) <=? HPACK_STATIC_ENTRIES) && negb (he_nchunks e =? 2) = false).
    { destruct (Z.leb_spec (hp_index (d_hp d)) HPACK_STATIC_ENTRIES) as [Hs|Hs]; [| done].
      rewrite (proj2 (Hst Hs) Hv). done. }
    rewrite Hch. replace (he_tag e) with (f_tag f) by (by rewrite <- Hfe).
    destruct (f_tag f =? TFW_TAG_HDR_H2_METHOD).
    - apply orb_true_iff in Htag as [Ht|Ht]; rewrite Ht; [by eexists |].
      destruct (hp_index (d_hp d) =? 2); by eexists.
    - apply bool_decide_eq_true in Htag as [id ->]. by eexists. }
  destruct Hset as (i1 & -> & Hp1 & Hh1 & Hs1). apply runs_bind, runs_it, close_runs.
  intros d3 H1 H2 H3 H4 H5. unfold header_done. rewrite H1, H2, H3, H4, H5.
  cbn [d_src d_hp d_it]. rewrite Hp1, Hh1, Hs1, Hcurr.
  split; [done |]. split; [done |]. split; [done |]. split; [done |]. split; [done |].
  split; [| split; [done | split; [done | by left]]].
  exists (pr_hdr_tag (it_req i1)), (he_nchunks e). rewrite <- Hfe. unfold field_of.
  cbn [f_name f_value]. by rewrite take_drop.
Qed.

(** ** One representation *)

(** The bits of the first byte above the prefix are those of the mask. *)
Lemma prefix_flag N x mask k :
  0 <= N <= k -> 0 <= x <= Z.ones N -> has_flag (Z.lor x mask) (2 ^ k) = Z.testbit mask k.
Proof.
  intros HN Hx. rewrite has_flag_bit, Z.lor_spec by lia. rewrite Z.ones_equiv in Hx.
  assert (E : Z.testbit x k = false); [| by rewrite E].
  destruct (Z.eq_dec x 0) as [->|]; [apply Z.bits_0 |]. apply Z.bits_above_log2; [lia |].
  apply Z.lt_le_trans with N; [| lia]. apply Z.log2_lt_pow2; lia.
Qed.

Definition mode_bits (m : lit_mode) : Z := match m with LAdd => 6 | _ => 4 end.
Definition mode_add (m : lit_mode) : bool := match m with LAdd => true | _ => false end.
Definition mode_state (m : lit_mode) : Z :=
  match m with
  | LAdd => HPACK_FLAGS_ADD
  | LPlain => 0
  | LNever => HPACK_FLAGS_TRANSIT
  end.

Definition decoder := ready parse takes alloc_buf alloc_desc alloc_entry alloc_byte uninit.

Lemma plain_code : forallb (fun k => negb (has_flag (Z.of_nat k) 0xE0)) (seq 0 32) = true.
Proof. vm_compute. reflexivity. Qed.

Lemma plain_code_ok m x :
  mode_add m = false -> 0 <= x <= 15 -> has_flag (Z.lor x (mode_mask m)) 0xE0 = false.
Proof.
  intros Hm Hx. assert (Hc : 0 <= Z.lor x (mode_mask m) < 32).
  { destruct m; [done | cbn [mode_mask]; rewrite Z.lor_0_r; lia |].
    cbn [mode_mask]. change 0x10 with (1 * 2 ^ 4). rewrite lor_low_high; lia. }
  pose proof plain_code as Hall. rewrite forallb_forall in Hall.
  specialize (Hall (Z.to_nat (Z.lor x (mode_mask m))) ltac:(apply in_seq; lia)).
  rewrite Z2Nat.id in Hall by lia. by apply negb_true_iff.
Qed.

Ltac eval_mask :=
  repeat match goal with
    | |- context [Z.testbit (mode_mask ?m) ?k] =>
        let r := eval vm_compute in (Z.testbit (mode_mask m) k) in
        change (Z.testbit (mode_mask m) k) with r
    end; cbv iota.

(** The literal branches of [ready], up to the name. *)
Lemma ready_literal m x c tl Q d :
  d_src d = c :: tl -> d_state d = 0 -> c = Z.lor x (mode_mask m) -> 0 <= x <= mode_max m ->
  (forall s, s = mode_state m \/ s = Z.lor (mode_state m) HPACK_STATE_INDEX ->
   runs (if x =? mode_max m
         then index_name parse takes alloc_buf alloc_desc alloc_entry alloc_byte uninit x
         else literal_name parse takes alloc_buf alloc_desc alloc_entry alloc_byte uninit x) Q
     (MkDec (set_hp_index x (d_hp d)) (d_it d) s (d_r d) tl)) ->
  runs decoder Q d.
Proof.
  intros Hsrc Hst Hc Hx Hk. unfold decoder, ready.
  apply runs_bind. eapply runs_next_byte; [exact Hsrc |]. rewrite Hst.
  assert (Hmax : mode_max m = Z.ones (mode_bits m)) by (by destruct m).
  assert (Hflag : forall k, mode_bits m <= k -> has_flag c (2 ^ k) = Z.testbit (mode_mask m) k).
  { intros k Hk'. rewrite Hc. apply (prefix_flag (mode_bits m)); [destruct m; simpl in *; lia |].
    by rewrite <- Hmax. }
  assert (Hland : Z.land c (mode_max m) = x).
  { rewrite Hc, Z.land_lor_distr_l. replace (Z.land (mode_mask m) (mode_max m)) with 0 by (by destruct m).
    rewrite Z.lor_0_r, Hmax. rewrite Hmax, Z.ones_equiv in Hx.
    apply land_ones_small; [destruct m; simpl; lia | lia]. }
  change 0x80 with (2 ^ 7). change 0x40 with (2 ^ 6). change 0x20 with (2 ^ 5).
  rewrite (Hflag 7) by (destruct m; simpl; lia). rewrite (Hflag 6) by (destruct m; simpl; lia).
  destruct (mode_add m) eqn:Hm.
  { destruct m; try done. eval_mask. run. change 0x3F with (mode_max LAdd). rewrite Hland.
    apply Hk. by left. }
  assert (Hmm : mode_max m = 0x0F) by (by destruct m). rewrite Hmm in *.
  assert (HE0 : has_flag c 0xE0 = false) by (rewrite Hc; by apply plain_code_ok).
  rewrite HE0. change 0x10 with (2 ^ 4).
  rewrite (Hflag 5), (Hflag 4) by (destruct m; [done | simpl; lia | simpl; lia]).
  destruct m; [done | |]; eval_mask; run; rewrite Hland;
    (destruct (x =? 0x0F); run; apply Hk; [by right | by left]).
Qed.

(** What the input must be. *)
Definition rep_input (r : hrep) (fs : list field) : Prop :=
  match r with
  | RIndexed i => 0 < i <= HPACK_LIMIT /\ Forall (fun f => indexed_ok i f = true) fs
  | RLiteral _ n v coded =>
      match n with
      | NIndex i => 0 < i <= HPACK_LIMIT
      | NText name ncoded => string_input name ncoded /\ hp_good_name name
      end /\ string_input v coded /\
      Forall (fun f => hp_good_value (f_name f) (f_tag f) v /\
                       zlen (f_name f) + zlen v < 2 ^ 30) fs
  | RResize size => 0 <= size <= HPACK_LIMIT
  end.

(** What the array of the table must be, see [growth_ok]. *)
Definition rep_room (tbl : TfwHPackDTbl) (r : hrep) (fs : list field) : Prop :=
  match r with
  | RLiteral LAdd _ _ _ => d_length tbl < 2 ^ 30 /\ Forall (field_growth_ok tbl) fs
  | _ => True
  end.

(** The contexts between two headers. *)
Definition idle_state (hp : TfwHPack) (i : Iter P) (l : list field) (window : Z) : Prop :=
  hp_curr hp = - HT_NBITS /\ hp_idle (pr_parser (it_req i)) /\
  pr_hdr (it_req i) = TFW_STR_INIT /\ tbl_rep (hp_dec_tbl hp) l /\
  d_window (hp_dec_tbl hp) = window.

(** The fields [fs] were stored. *)
Definition stored (i i' : Iter P) (fs : list field) : Prop :=
  exists news, it_stored i' = it_stored i ++ news /\
    Forall2 (fun p f => ts_data (snd p) = f_name f ++ f_value f) news fs.

Definition rep_done (d : Dec P) (fs : list field) (l' : list field) (window' : Z) (rest : bytes)
    (d' : Dec P) : Prop :=
  d_src d' = rest /\ hp_max_window (d_hp d') = hp_max_window (d_hp d) /\
  idle_state (d_hp d') (d_it d') l' window' /\ stored (d_it d) (d_it d') fs /\
  tbl_step (hp_dec_tbl (d_hp d)) (hp_dec_tbl (d_hp d')).

Lemma header_rep_done d f l' rest d' :
  header_done d f l' rest d' ->
  rep_done d [f] l' (d_window (hp_dec_tbl (d_hp d))) rest d'.
Proof.
  intros (H1 & H2 & H3 & H4 & H5 & (id & k & H6) & H7 & H8 & H9).
  split; [done |]. split; [done |]. split; [by split_and! |]. split; [| done].
  exists [(id, MkStr (f_name f ++ f_value f) k)]. split; [done |]. by repeat constructor.
Qed.

Lemma rep_done_from d d1 fs l' w' rest d' :
  hp_max_window (d_hp d1) = hp_max_window (d_hp d) ->
  hp_dec_tbl (d_hp d1) = hp_dec_tbl (d_hp d) ->
  it_stored (d_it d1) = it_stored (d_it d) ->
  rep_done d1 fs l' w' rest d' -> rep_done d fs l' w' rest d'.
Proof. unfold rep_done, stored. by intros -> -> ->. Qed.

Lemma decode_indexed i f rest l window d :
  d_state d = 0 -> d_src d = write_int_bytes i 0x7F 0x80 ++ rest -> 0 < i <= HPACK_LIMIT ->
  idle_state (d_hp d) (d_it d) l window ->
  (static_fields ++ l) !! Z.to_nat (i - 1) = Some f -> indexed_ok i f = true ->
  runs decoder (fun _ => rep_done d [f] l window rest) d.
Proof.
  intros Hst Hsrc Hi (Hcurr & Hidle & Hinit & Hrep & Hw) Hf Hok.
  destruct (write_int_split 7 0x80 i rest) as (c & tl & Hc & H8 & Hcv & Hland & Hsmall & Hbig);
    [lia | unfold is_u8; lia | done | lia |].
  change (Z.ones 7) with 0x7F in *. rewrite Hc in Hsrc. unfold decoder, ready.
  apply runs_bind. eapply runs_next_byte; [exact Hsrc |].
  assert (Hf8 : has_flag c 0x80 = true) by (rewrite Hcv; apply (testbit_top _ true); lia).
  rewrite Hf8. run. rewrite Hland.
  assert (Hfin : forall s d1, d1 = MkDec (set_hp_index i (d_hp d)) (d_it d) s (d_r d) rest ->
    runs (get_all_indexed takes alloc_buf alloc_desc) (fun _ => rep_done d [f] l window rest) d1).
  { intros s d1 ->. eapply runs_mono.
    { eapply (get_all_indexed_ok f rest l); try done. cbn. lia. }
    cbv beta. intros _ d' Hd'. apply header_rep_done in Hd'. cbn in Hd'. rewrite Hw in Hd'.
    by eapply rep_done_from in Hd'. }
  destruct (Z.ltb_spec i 0x7F).
  - rewrite Z.min_l by lia. rewrite (proj2 (Z.eqb_neq _ 0x7F)), (proj2 (Z.eqb_neq _ 0)) by lia.
    run. rewrite Hsmall by done. by eapply Hfin.
  - rewrite Z.min_r by lia. cbn [Z.eqb Pos.eqb]. run. unfold get_flexible_to. run.
    rewrite Hbig by lia. run. by eapply Hfin.
Qed.

Lemma decode_resize size rest l window d :
  d_state d = 0 -> d_src d = write_int_bytes size 0x1F 0x20 ++ rest -> 0 <= size <= HPACK_LIMIT ->
  size <= hp_max_window (d_hp d) -> hp_max_window (d_hp d) < 2 ^ 31 ->
  idle_state (d_hp d) (d_it d) l window ->
  runs decoder (fun _ => rep_done d [] (rfc_keep l size) size rest) d.
Proof.
  intros Hst Hsrc Hi Hmax Hmax31 (Hcurr & Hidle & Hinit & Hrep & Hw).
  destruct (write_int_split 5 0x20 size rest) as (c & tl & Hc & H8 & Hcv & Hland & Hsmall & Hbig);
    [lia | unfold is_u8; lia | done | lia |].
  change (Z.ones 5) with 0x1F in *. rewrite Hc in Hsrc. unfold decoder, ready.
  apply runs_bind. eapply runs_next_byte; [exact Hsrc |].
  assert (Hflag : forall k, 5 <= k -> has_flag c (2 ^ k) = Z.testbit 0x20 k).
  { intros k Hk. rewrite Hcv. apply (prefix_flag 5); [lia | change (Z.ones 5) with 0x1F; lia]. }
  assert (Hf7 : has_flag c 0x80 = false) by (apply (Hflag 7); lia).
  assert (Hf6 : has_flag c 0x40 = false) by (apply (Hflag 6); lia).
  assert (Hf5 : has_flag c 0x20 = true) by (apply (Hflag 5); lia).
  rewrite Hf7, Hf6, Hf5. run. rewrite Hland.
  assert (Hfin : forall s d1, d1 = MkDec (set_hp_index size (d_hp d)) (d_it d) s (d_r d) rest ->
    runs set_window (fun _ => rep_done d [] (rfc_keep l size) size rest) d1).
  { intros s d1 ->. unfold set_window. run. cbn [hp_max_window hp_index hp_dec_tbl set_hp_index].
    destruct (tbl_rep_resize _ l (hp_max_window (d_hp d)) size Hrep) as (tbl' & Ha & Hr' & Hw');
      [lia | done |].
    rewrite Ha. run. split; [done |]. split; [done |]. split; [done |].
    split; [exists []; by rewrite app_nil_r | right; right; by eexists _, _]. }
  destruct (Z.ltb_spec size 0x1F).
  - rewrite Z.min_l by lia. rewrite (proj2 (Z.eqb_neq _ 0x1F)) by lia.
    run. rewrite Hsmall by done. by eapply Hfin.
  - rewrite Z.min_r by lia. cbn [Z.eqb Pos.eqb]. run. unfold get_flexible_to. run.
    rewrite Hbig by lia. run. by eapply Hfin.
Qed.

Lemma literal_state_bits m s :
  s = mode_state m \/ s = Z.lor (mode_state m) HPACK_STATE_INDEX ->
  Z.testbit s 4 = mode_add m /\ Z.testbit s 7 = false /\ Z.testbit s 8 = false.
Proof. by intros [-> | ->]; destruct m. Qed.

Lemma decode_literal_index m i f v coded rest l window d :
  d_state d = 0 ->
  d_src d = write_int_bytes i (mode_max m) (mode_mask m) ++ coded ++ rest ->
  0 < i <= HPACK_LIMIT -> idle_state (d_hp d) (d_it d) l window ->
  (static_fields ++ l) !! Z.to_nat (i - 1) = Some f ->
  literal_ok (hp_dec_tbl (d_hp d)) (mode_add m) (f_name f) (f_tag f) v coded ->
  runs decoder (fun _ => rep_done d [MkField (f_name f) v (f_tag f)]
    (add_if (mode_add m) (MkField (f_name f) v (f_tag f)) l window) window rest) d.
Proof.
  intros Hst Hsrc Hi (Hcurr & Hidle & Hinit & Hrep & Hw) Hf Hlit.
  assert (Hmax : mode_max m = Z.ones (mode_bits m)) by (by destruct m).
  assert (Hpos : 15 <= mode_max m) by (destruct m; simpl; lia). rewrite Hmax in Hsrc.
  destruct (write_int_split (mode_bits m) (mode_mask m) i (coded ++ rest))
    as (c & tl & Hc & H8 & Hcv & Hland & Hsmall & Hbig);
    [destruct m; simpl; lia | destruct m; unfold is_u8; simpl; lia | by destruct m | lia |].
  rewrite <- Hmax in *. rewrite Hc in Hsrc.
  eapply (ready_literal m (Z.min i (mode_max m))); [exact Hsrc | done | done | lia |].
  intros s Hs. destruct (literal_state_bits m s Hs) as (H4 & _ & H8').
  assert (Hfin : forall s', Z.testbit s' 4 = mode_add m -> Z.testbit s' 8 = false -> forall h,
    h = set_hp_index i (d_hp d) ->
    runs (get_indexed_name parse takes alloc_buf alloc_desc alloc_entry alloc_byte uninit)
      (fun _ => rep_done d [MkField (f_name f) v (f_tag f)]
         (add_if (mode_add m) (MkField (f_name f) v (f_tag f)) l window) window rest)
      (MkDec h (d_it d) s' (d_r d) (coded ++ rest))).
  { intros s' Hs4 Hs8 h ->. eapply runs_mono.
    - eapply (get_indexed_name_ok f v coded rest l); cbn [d_src d_hp d_it d_state]; try done.
      + cbn. lia.
      + by rewrite Hs4.
    - cbv beta. intros _ d' Hd'. apply header_rep_done in Hd'. cbn [d_hp d_state] in Hd'.
      rewrite Hs4 in Hd'. cbn [hp_dec_tbl set_hp_index] in Hd'. rewrite Hw in Hd'.
      by eapply rep_done_from in Hd'. }
  destruct (Z.ltb_spec i (mode_max m)).
  - rewrite Z.min_l by lia. rewrite (proj2 (Z.eqb_neq _ _)) by lia. unfold literal_name. run.
    rewrite (proj2 (Z.eqb_neq _ _)) by lia. rewrite Hsmall by done.
    apply runs_not_end; [destruct Hlit as [Hv _]; by eapply coded_not_nil |].
    apply Hfin; [| | done];
      by rewrite testbit_next_state by (unfold HPACK_STATE_INDEXED_NAME_TEXT; lia).
  - rewrite Z.min_r by lia. rewrite Z.eqb_refl. unfold index_name, get_flexible_to. run.
    rewrite Hbig by lia. run.
    apply Hfin; [| | done];
      by rewrite testbit_next_state by (unfold HPACK_STATE_INDEXED_NAME_TEXT; lia).
Qed.

Lemma decode_literal_text m n ncoded v coded rest l window d :
  d_state d = 0 -> d_src d = mode_mask m :: ncoded ++ coded ++ rest ->
  idle_state (d_hp d) (d_it d) l window -> string_input n ncoded -> hp_good_name n ->
  literal_ok (hp_dec_tbl (d_hp d)) (mode_add m) n (hp_name_tag n) v coded ->
  runs decoder (fun _ => rep_done d [MkField n v (hp_name_tag n)]
    (add_if (mode_add m) (MkField n v (hp_name_tag n)) l window) window rest) d.
Proof.
  intros Hst Hsrc (Hcurr & Hidle & Hinit & Hrep & Hw) Hn Hgn Hlit.
  eapply (ready_literal m 0); [exact Hsrc | done | done | destruct m; simpl; lia |].
  intros s Hs. destruct (literal_state_bits m s Hs) as (H4 & H7 & H8).
  replace (0 =? mode_max m) with false by (by destruct m). unfold literal_name.
  change (0 =? 0) with true. cbv iota. run.
  apply runs_not_end; [by eapply coded_not_nil |].
  eapply runs_mono.
  - eapply (get_name_ok n ncoded v coded rest l); cbn [d_src d_hp d_it d_state];
      rewrite ?testbit_next_state, ?H4, ?H7, ?H8 by (unfold HPACK_STATE_NAME; lia); try done.
  - cbv beta. intros _ d' Hd'. apply header_rep_done in Hd'. cbn [d_hp d_state] in Hd'.
    rewrite testbit_next_state, H4 in Hd' by (unfold HPACK_STATE_NAME; lia).
    cbn [hp_dec_tbl set_hp_index] in Hd'. rewrite Hw in Hd'. by eapply rep_done_from in Hd'.
Qed.

(** One representation, as RFC 7541 defines it. *)
Lemma decode_rep r fs l l' window window' rest d :
  d_state d = 0 -> d_src d = encode_rep r ++ rest ->
  idle_state (d_hp d) (d_it d) l window -> hp_max_window (d_hp d) < 2 ^ 31 ->
  rfc_step hp_name_tag (hp_max_window (d_hp d)) l window r = Some (l', window', fs) ->
  rep_input r fs -> rep_room (hp_dec_tbl (d_hp d)) r fs ->
  runs (decode_header parse takes alloc_buf alloc_desc alloc_entry alloc_byte uninit)
    (fun _ => rep_done d fs l' window' rest) d.
Proof.
  intros Hst Hsrc Hidle Hmax Hstep Hin Hroom. unfold decode_header. apply runs_bind, runs_get.
  rewrite Hst. change (Z.land 0 HPACK_STATE_MASK =? HPACK_STATE_READY) with true. cbv iota.
  fold decoder. destruct r as [i | m nr v coded | size]; cbn [rfc_step encode_rep] in *.
  - destruct (_ !! _) as [f|] eqn:Hf; [| done]. simplify_eq. destruct Hin as [Hi Hok]. apply Forall_cons in Hok as [Hok _].
    by eapply decode_indexed.
  - destruct Hin as (Hn & Hv & Hfs).
    assert (Hadd : forall f, match m with LAdd => rfc_add f l window | _ => l end =
      add_if (mode_add m) f l window) by (by destruct m).
    assert (Hlit : forall n tag, fs = [MkField n v tag] ->
      literal_ok (hp_dec_tbl (d_hp d)) (mode_add m) n tag v coded).
    { intros n tag ->. apply Forall_cons in Hfs as [[Hg Hl] _]. split; [done |]. split; [done |].
      split; [done |]. intros Hm. destruct m; try done. destruct Hroom as [HL HF].
      by apply Forall_cons in HF as [HF _]. }
    destruct nr as [i | n ncoded].
    + destruct (_ !! _) as [f|] eqn:Hf; [| done]. simplify_eq. rewrite Hadd.
      rewrite <- app_assoc in Hsrc. eapply decode_literal_index; try done. by apply Hlit.
    + simplify_eq. destruct Hn as [Hn Hgn]. rewrite Hadd.
      rewrite <- app_comm_cons, <- app_assoc in Hsrc.
      eapply decode_literal_text; try done. by apply Hlit.
  - destruct (Z.leb_spec size (hp_max_window (d_hp d))); [| done]. simplify_eq.
    by eapply decode_resize.
Qed.

(** ** Header blocks *)

(** The array has room for [k] more entries without growing past its first
    allocation. *)
Definition roomy (tbl : TfwHPackDTbl) (k : Z) : Prop :=
  (d_length tbl = 0 \/ d_length tbl = 32) /\ d_n tbl + k < 32.

Definition additions (rs : list hrep) : Z :=
  zlen (List.filter (fun r => match r with RLiteral LAdd _ _ _ => true | _ => false end) rs).

Fixpoint rfc_run (max_window : Z) (l : list field) (window : Z) (rs : list hrep)
  : option (list field * Z * list field) :=
  match rs with
  | [] => Some (l, window, [])
  | r :: rs' =>
      match rfc_step hp_name_tag max_window l window r with
      | None => None
      | Some (l1, w1, fs) =>
          match rfc_run max_window l1 w1 rs' with
          | None => None
          | Some (l2, w2, fs') => Some (l2, w2, fs ++ fs')
          end
      end
  end.

Fixpoint block_input (max_window : Z) (l : list field) (window : Z) (rs : list hrep) : Prop :=
  match rs with
  | [] => True
  | r :: rs' =>
      match rfc_step hp_name_tag max_window l window r with
      | None => False
      | Some (l1, w1, fs) => rep_input r fs /\ block_input max_window l1 w1 rs'
      end
  end.

Lemma block_input_cons max l window r rs l1 w1 fs :
  rfc_step hp_name_tag max l window r = Some (l1, w1, fs) -> rep_input r fs ->
  block_input max l1 w1 rs -> block_input max l window (r :: rs).
Proof. intros E Hr Hrs. cbn [block_input]. by rewrite E. Qed.

Definition encode_block (rs : list hrep) : bytes := concat (map encode_rep rs).

Lemma add_index_geometry mem e tbl tbl' :
  tfw_hpack_add_index mem e tbl = Ok (0, tbl') ->
  d_length tbl = 0 \/ d_n tbl < d_length tbl ->
  d_length tbl' = d_length tbl \/ d_length tbl' = 32.
Proof.
  assert (Hplace : forall en L c n s, place_entry mem e tbl en L c n s = Ok (0, tbl') ->
    d_length tbl' = L).
  { unfold place_entry. intros en L c n s E. destruct (negb _); [| destruct (_ <? _)];
      simplify_eq; done. }
  unfold tfw_hpack_add_index. intros E Hroom. destruct (_ <? _); [done |].
  destruct (_ || _).
  - destruct (_ <=? _).
    + destruct (evict_loop _ _ _ _ _ _ _) as [[c s]|]; [| done]. left. by eapply Hplace.
    + destruct (negb _); simplify_eq; by left.
  - destruct (Z.eqb_spec (d_n tbl) (d_length tbl)) as [Heq|_]; [| left; by eapply Hplace].
    destruct Hroom as [Hz|Hlt]; [| lia]. rewrite Hz in E. unfold extend_entries in E.
    cbn [Z.eqb negb] in E. destruct (mem_entries mem); [| done]. right. by eapply Hplace.
Qed.

Lemma set_length_geometry max size tbl tbl' :
  tfw_hpack_set_length max size tbl = Ok (0, tbl') -> d_length tbl' = d_length tbl.
Proof.
  unfold tfw_hpack_set_length. intros E. destruct (_ <? _); [done |].
  destruct (_ <? _); [| by simplify_eq].
  destruct (evict_loop _ _ _ _ _ _ _) as [[c s]|]; by simplify_eq.
Qed.

Lemma tbl_rep_n tbl l : tbl_rep tbl l -> d_n tbl = zlen l.
Proof. intros (es & (early & _ & Hn & _) & _ & ->). rewrite Hn. unfold zlen. by rewrite length_map. Qed.

Lemma rfc_keep_le l limit : zlen (rfc_keep l limit) <= zlen l.
Proof.
  revert limit. induction l as [|f l IH]; intros limit; [done |]. cbn [rfc_keep].
  specialize (IH (limit - f_cost f)). unfold zlen in *. case_match; cbn [length]; lia.
Qed.

Lemma rfc_step_len max l window r l' w' fs :
  rfc_step hp_name_tag max l window r = Some (l', w', fs) -> zlen l' <= zlen l + additions [r].
Proof.
  assert (Ha : 0 <= additions [r]) by apply zlen_nonneg.
  destruct r as [i | m n v coded | size]; cbn [rfc_step]; intros E.
  - destruct (_ !! _); simplify_eq. lia.
  - destruct (match n with NIndex _ => _ | NText _ _ => _ end) as [[nm tag]|]; [| done].
    simplify_eq. destruct m; [| lia | lia]. change (additions _) with 1. unfold rfc_add.
    case_match; [change (zlen (@nil field)) with 0; pose proof (zlen_nonneg l); lia |].
    pose proof (rfc_keep_le l (w' - f_cost (MkField nm v tag))). unfold zlen in *.
    cbn [length]. lia.
  - case_match; simplify_eq. pose proof (rfc_keep_le l w'). lia.
Qed.

Lemma roomy_rep_room tbl l r fs k :
  tbl_rep tbl l -> roomy tbl (additions [r] + k) -> 0 <= k -> rep_room tbl r fs.
Proof.
  intros Hrep [HL Hn] Hk. destruct r as [|m n v coded|]; try done. destruct m; try done.
  change (additions _) with 1 in Hn. split; [lia |]. apply Forall_forall. intros f _ _ Hfull.
  destruct HL as [HL|HL]; [| lia]. destruct Hrep as (es & (early & Hring & Hes & Hc & _) & _ & _).
  destruct Hring as (_ & He & Her & Hlen & _). rewrite zlen_rev in Hlen.
  pose proof (zlen_nonneg es). rewrite Hc, HL. unfold wrap_idx. case_match; bool_hyps; lia.
Qed.

Lemma roomy_step tbl tbl' l l' r k :
  tbl_rep tbl l -> tbl_rep tbl' l' -> tbl_step tbl tbl' -> zlen l' <= zlen l + additions [r] ->
  roomy tbl (additions [r] + k) -> 0 <= k -> roomy tbl' k.
Proof.
  intros Hr Hr' Hstep Hlen [HL Hn] Hk. pose proof (tbl_rep_n _ _ Hr).
  pose proof (tbl_rep_n _ _ Hr'). assert (Ha : 0 <= additions [r]) by apply zlen_nonneg.
  split; [| lia]. destruct Hstep as [-> | [(mem & e & E) | (mx & sz & E)]]; [done | |].
  - destruct (add_index_geometry mem e tbl tbl' E) as [E1|E1]; lia.
  - apply set_length_geometry in E. lia.
Qed.

Lemma additions_cons r rs : additions (r :: rs) = additions [r] + additions rs.
Proof. unfold additions. cbn [List.filter]. case_match; unfold zlen; cbn [length]; lia. Qed.

Lemma encode_rep_cons r l window max l' w' fs :
  rfc_step hp_name_tag max l window r = Some (l', w', fs) -> rep_input r fs ->
  exists c tl, encode_rep r = c :: tl.
Proof.
  intros _ _. destruct r as [i | m [i | n nc] v coded | size]; cbn [encode_rep];
    unfold write_int_bytes; try destruct (_ <? _); by eexists _, _.
Qed.

Lemma decode_loop_ok rs fuel hp i r l window l' window' fs :
  rs <> [] -> (length rs < fuel)%nat -> hp_state hp = 0 -> hp_max_window hp < 2 ^ 31 ->
  idle_state hp i l window -> roomy (hp_dec_tbl hp) (additions rs) ->
  rfc_run (hp_max_window hp) l window rs = Some (l', window', fs) ->
  block_input (hp_max_window hp) l window rs ->
  exists hp' i',
    decode_loop parse takes alloc_buf alloc_desc alloc_entry alloc_byte uninit fuel hp i r
      (encode_block rs) = Ok (T_OK, hp', i', []) /\
    hp_state hp' = 0 /\ hp_max_window hp' = hp_max_window hp /\
    idle_state hp' i' l' window' /\ stored i i' fs.
Proof.
  revert fuel hp i r l window fs. induction rs as [|rp rs IH]; [done |].
  intros fuel hp i r l window fs _ Hfuel Hst Hmax Hidle Hroomy Hrun Hin.
  destruct fuel as [|fuel]; [lia |]. cbn [rfc_run block_input] in *.
  destruct (rfc_step _ _ _ _ _) as [[[l1 w1] fs1]|] eqn:Hstep; [| done].
  destruct (rfc_run _ _ _ _) as [[[l2 w2] fs2]|] eqn:Hrun2; [| done]. simplify_eq.
  destruct Hin as [Hin1 Hin2]. rewrite additions_cons in Hroomy.
  assert (Ha : 0 <= additions rs) by apply zlen_nonneg.
  pose proof Hidle as (_ & _ & _ & Hrep & _).
  destruct (decode_rep rp fs1 l l1 window w1 (encode_block rs)
    (MkDec hp i (hp_state hp) r (encode_block (rp :: rs)))) as (a & d' & Hd & Hdone);
    [done | done | done | done | done | done | by eapply roomy_rep_room |].
  cbn [decode_loop]. rewrite Hd.
  destruct Hdone as (Hsrc & Hmw & Hidle' & Hsto & Htbl). cbn [d_hp d_it] in *.
  unfold tfw_hpack_reinit. set (hp1 := MkHPack _ _ _ _ _ _ _ _). set (i1 := MkIter _ _ _ _ _ _ _ _).
  assert (Hidle1 : idle_state hp1 i1 l1 w1) by exact Hidle'.
  assert (Hsto1 : stored i i1 fs1) by exact Hsto.
  rewrite Hsrc. destruct rs as [|rp2 rs].
  - cbn [rfc_run] in Hrun2. simplify_eq. change (encode_block []) with (@nil Z). cbv iota.
    exists hp1, i1. rewrite app_nil_r. by split_and!.
  - assert (Hne : exists c tl, encode_block (rp2 :: rs) = c :: tl).
    { cbn [block_input] in Hin2.
      destruct (rfc_step _ _ _ _ rp2) as [[[l3 w3] fs3]|] eqn:Hs2; [| done].
      destruct (encode_rep_cons rp2 _ _ _ _ _ _ Hs2 (proj1 Hin2)) as (c & tl & E).
      unfold encode_block. cbn [map concat]. rewrite E. by eexists _, _. }
    destruct Hne as (c & tl & Hne). rewrite Hne. rewrite <- Hne.
    assert (Hmw1 : hp_max_window hp1 = hp_max_window hp) by done.
    pose proof Hidle1 as (_ & _ & _ & Hrep1 & _).
    destruct (IH fuel hp1 i1 (d_r d') l1 w1 fs2) as (hp' & i' & HL & H1 & H2 & H3 & H4);
      [done | cbn [length] in *; lia | done | lia | done | | by rewrite Hmw1 | by rewrite Hmw1 |].
    { eapply (roomy_step (hp_dec_tbl hp) _ l l1 rp); try done. by eapply rfc_step_len. }
    exists hp', i'. split; [done |]. split; [done |]. split; [by rewrite H2 |]. split; [done |].
    destruct Hsto1 as (n1 & E1 & F1). destruct H4 as (n2 & E2 & F2).
    exists (n1 ++ n2). rewrite E2, E1, app_assoc. split; [done |]. by apply Forall2_app.
Qed.

Lemma encode_block_length rs max l window :
  block_input max l window rs -> (length rs <= length (encode_block rs))%nat.
Proof.
  revert l window. induction rs as [|r rs IH]; intros l window Hin; [done |].
  cbn [block_input] in Hin. destruct (rfc_step _ _ _ _ _) as [[[l1 w1] fs]|] eqn:Hs; [| done].
  destruct Hin as [Hr Hin]. destruct (encode_rep_cons r _ _ _ _ _ _ Hs Hr) as (c & tl & E).
  unfold encode_block in *. cbn [map concat length]. rewrite E, length_app. cbn [length].
  specialize (IH _ _ Hin). lia.
Qed.

(** C3: a header block that arrives in one piece and that the decoder takes ([block_input]) is decoded as RFC 7541 defines it:
    whatever mix of indexed fields, literals with and without indexing, plain and Huffman-coded
    strings and table size updates it consists of, [tfw_hpack_decode()] consumes it, stores exactly
    the header fields it denotes, in order, leaves the dynamic table and the window that the RFC
    prescribes, and is ready for the next block.  The HTTP parser is any parser that keeps
    [HdrParserOk] and takes the headers; memory is available; the table holds fewer than 32 entries
    throughout.  What the decoder does not take although the RFC allows it: strings that are empty or whose Huffman coding is
    longer than they are ([empty_huffman_value_bug], [long_coding_leaks_memory]), a method from the dynamic table
    ([dynamic_method_dropped]); other pieces and a ring that grows fail in [index_reads_past_end],
    [continue_loses_carry], [huffman_fragments_lose_table] and [growth_out_of_bounds]. *)
Theorem hpack_block_decode rs hp i l window l' window' fs :
  rs <> [] -> hp_state hp = HPACK_STATE_READY -> hp_max_window hp < 2 ^ 31 ->
  idle_state hp i l window -> roomy (hp_dec_tbl hp) (additions rs) ->
  rfc_run (hp_max_window hp) l window rs = Some (l', window', fs) ->
  block_input (hp_max_window hp) l window rs ->
  exists hp' i',
    tfw_hpack_decode parse takes alloc_buf alloc_desc alloc_entry alloc_byte uninit hp i
      (encode_block rs) = Ok (T_OK, hp', i', []) /\
    hp_state hp' = HPACK_STATE_READY /\ idle_state hp' i' l' window' /\ stored i i' fs.
Proof.
  intros Hne Hst Hmax Hidle Hroomy Hrun Hin. unfold tfw_hpack_decode.
  destruct (decode_loop_ok rs (S (length (encode_block rs))) hp i T_POSTPONE l window l' window' fs)
    as (hp' & i' & H1 & H2 & _ & H3 & H4); try done.
  - pose proof (encode_block_length rs _ _ _ Hin). lia.
  - by exists hp', i'.
Qed.
End correct.

(** ** A parser that takes everything *)

Definition any_parse (d : bytes) (fin value : bool) (q : PReq unit) : Z * PReq unit :=
  (if fin then T_OK else T_POSTPONE,
   MkPReq tt (MkStr (ts_data (pr_hdr q) ++ d) (ts_nchunks (pr_hdr q) + 1))
     (if fin && negb value then TFW_TAG_HDR_RAW else pr_tag q) TFW_HTTP_HDR_RAW (pr_method q)).

Definition any_at (st : stage) (acc : bytes) (q : PReq unit) : Prop :=
  match st with
  | SName => ts_data (pr_hdr q) = acc /\ 0 <= ts_nchunks (pr_hdr q)
  | SValue n tag k =>
      ts_data (pr_hdr q) = n ++ acc /\ pr_tag q = tag /\ 1 <= k <= ts_nchunks (pr_hdr q) /\
      (acc = [] -> ts_nchunks (pr_hdr q) = k)
  end.

#[export] Instance any_parse_ok : HdrParserOk any_parse.
Proof.
  refine {|
    hp_idle _ := True;
    hp_name_tag _ := TFW_TAG_HDR_RAW;
    hp_good_name _ := True;
    hp_good_value _ _ _ := True;
    hp_at := any_at;
  |}.
  - intros q _ E. cbn. by rewrite E.
  - intros q n tag k _ E Hk Ht. cbn. rewrite E. cbn. rewrite app_nil_r.
    split; [done |]. split; [done |]. split; [lia | done].
  - intros q n tag k (Hd & _ & Hk & Hn). rewrite app_nil_r in Hd. specialize (Hn eq_refl).
    split; [| lia]. destruct (pr_hdr q) as [dt nc]. cbn in *. by subst.
  - intros [|n tag k] acc d more q Hat Hd Hm _; eexists; (split; [reflexivity |]); cbn in *.
    + destruct Hat as [-> Hk]. split; [done | lia].
    + destruct Hat as (-> & -> & Hk & Hn). rewrite <- app_assoc. split; [done |]. split; [done |].
      split; [lia |]. intros E. by apply app_nil in E as [_ ->].
  - intros [|n tag k] acc d q Hat Hd _; eexists; (split; [reflexivity |]); cbn in *.
    + destruct Hat as [-> Hk]. exists (ts_nchunks (pr_hdr q) + 1). rewrite app_nil_r.
      split; [done |]. split; [done |]. split; [lia | done].
    + destruct Hat as (-> & -> & Hk & Hn). rewrite <- app_assoc. split; [done |]. split; [done |].
      split; [lia |]. split; [lia | done].
Defined.

Definition any_iter : Iter unit :=
  MkIter (MkPReq tt TFW_STR_INIT 0 0 0) 0 0 false (0, []) 0 0 [].

(** The decoder with memory available and the parser above. *)
Definition any_decode : TfwHPack -> Iter unit -> bytes -> outcome (Z * TfwHPack * Iter unit * bytes) :=
  tfw_hpack_decode any_parse (fun _ => true) (fun _ _ => true) (fun _ => true) (fun _ => ok_mem)
    (fun _ => Some false) (fun n => replicate (Z.to_nat n) 0xAA).

(** The first request of RFC 7541 C.4.1, with "www.example.com" Huffman-coded. *)
Definition c41_host : bytes :=
  [0x77; 0x77; 0x77; 0x2e; 0x65; 0x78; 0x61; 0x6d; 0x70; 0x6c; 0x65; 0x2e; 0x63; 0x6f; 0x6d].
Definition c41_coded : bytes :=
  [0x8c; 0xf1; 0xe3; 0xc2; 0xe5; 0xf2; 0x3a; 0x6b; 0xa0; 0xab; 0x90; 0xf4; 0xff].
Definition c41_block : list hrep :=
  [RIndexed 2; RIndexed 6; RIndexed 4; RLiteral LAdd (NIndex 1) c41_host c41_coded].

Example c41_bytes : encode_block c41_block = [0x82; 0x86; 0x84; 0x41] ++ c41_coded.
Proof. vm_compute. reflexivity. Qed.

Lemma c41_string : string_input c41_host c41_coded.
Proof.
  split; [| split; [done |]; split; [vm_compute; discriminate |]].
  - split; [repeat constructor; unfold is_u8; lia |]. right.
    exists (tail c41_coded), 7%nat. split; [repeat constructor; unfold is_u8; lia |].
    split; [lia |]. split; vm_compute; reflexivity.
  - intros h E. apply (f_equal zlen) in E. rewrite zlen_app in E. change (zlen c41_coded) with 13 in E.
    assert (0 < zlen (write_int_bytes (zlen h) 0x7F 0x80)); [| change (zlen c41_host) with 15; lia].
    unfold write_int_bytes. destruct (_ <? _); unfold zlen; cbn [length]; lia.
Qed.

Lemma hpack_block_decode_witness :
  exists hp' i',
    tfw_hpack_decode any_parse (fun _ => true) (fun _ _ => true) (fun _ => true) (fun _ => ok_mem)
      (fun _ => Some false) (fun n => replicate (Z.to_nat n) 0xAA) (hpack_init 4096) any_iter
      (encode_block c41_block) = Ok (T_OK, hp', i', []) /\
    hp_state hp' = HPACK_STATE_READY /\
    idle_state any_parse hp' i'
      [MkField (str ":authority") c41_host TFW_TAG_HDR_H2_AUTHORITY] 4096 /\
    stored any_iter i'
      [MkField (str ":method") (str "GET") 0; MkField (str ":scheme") (str "http") 1;
       MkField (str ":path") (str "/") 3;
       MkField (str ":authority") c41_host TFW_TAG_HDR_H2_AUTHORITY].
Proof.
  eapply (hpack_block_decode any_parse (fun _ => true) (fun _ => eq_refl) (fun _ _ => true)
    (fun _ _ => eq_refl) (fun _ => true) (fun _ => eq_refl) (fun _ => ok_mem)).
  - intros _. split; [exists true; reflexivity | reflexivity].
  - intros _. exists false. reflexivity.
  - discriminate.
  - reflexivity.
  - reflexivity.
  - split; [reflexivity |]. split; [exact I |]. split; [reflexivity |]. split; [| reflexivity].
    exists []. split; [apply dt_rep_init; lia |]. split; [constructor | reflexivity].
  - split; [left; reflexivity | reflexivity].
  - vm_compute. reflexivity.
  - unfold c41_block.
    do 3 (eapply block_input_cons; [vm_compute; reflexivity | split; [unfold HPACK_LIMIT; lia | repeat constructor] |]).
    eapply block_input_cons; [vm_compute; reflexivity | | exact I].
    split; [unfold HPACK_LIMIT; lia |]. split; [exact c41_string |].
    constructor; [| constructor]. split; [exact I | vm_compute; reflexivity].
Defined.

(** ** Where the decoder leaves the RFC *)

(** A Huffman-coded value of length zero fails [BUG_ON()] before the check for
    an empty value: literal, name ":path", value coded in 0 bytes. *)
Theorem empty_huffman_value_bug : any_decode (hpack_init 4096) any_iter [0x04; 0x80] = Bug.
Proof. vm_compute. reflexivity. Qed.

(** A fragment that ends behind the index of a long indexed name: a byte past the
    end of the fragment is read. *)
Theorem index_reads_past_end : any_decode (hpack_init 4096) any_iter [0x0f; 0x02] = Bug.
Proof. vm_compute. reflexivity. Qed.

(** A Huffman coding longer than the string: the header is stored with bytes of
    fresh memory behind the value.  "???" takes four bytes. *)
Theorem long_coding_leaks_memory :
  exists hp' i', any_decode (hpack_init 4096) any_iter [0x04; 0x84; 0xff; 0x3f; 0xcf; 0xf3] =
    Ok (T_OK, hp', i', []) /\
    it_stored i' = [(TFW_HTTP_HDR_RAW, MkStr (str ":path???" ++ [0xAA]) 2)].
Proof. eexists _, _. split; vm_compute; reflexivity. Qed.

(** A method from the dynamic table is refused: ":method: PUT" is added to the
    table and then referred to. *)
Theorem dynamic_method_dropped :
  exists hp' i', any_decode (hpack_init 4096) any_iter [0x42; 0x03; 0x50; 0x55; 0x54; 0xbe] =
    Ok (T_DROP, hp', i', []).
Proof. eexists _, _. vm_compute. reflexivity. Qed.
