(* ===== verification/WorkQueue.v ===== *)
(** * The work queue: a lock-free ring buffer

    [TfwRBQueue] ([fw/work_queue.c], [fw/work_queue.h]) carries work from many
    producers to one consumer, here the tasklet of the cache
    ([fw/cache.c]).  A push announces the position it is going to use in the
    guard of its CPU ([heads]), takes a position by [cmpxchg] on [head], copies
    the item and drops the guard; the consumer may go up to the smallest guard.

    Every access to a shared variable is one step of one thread (atomics are
    sequentially consistent, as the barriers of the code make them); a [memcpy] of
    an item is one step per [long].  A label names the thread that moves, so a run is
    a list of labels, and [step] is executable.  A producer of a CPU is inside
    [__tfw_wq_push] with bottom halves disabled, hence at most one per CPU; behind
    it the notification of the consumer ([tfw_wq_push]) runs without that protection,
    so notifications are a list.

    The theorems: the queue implements a bounded FIFO ([wq_refines_fifo]), a wake-up
    of the consumer is never lost ([wq_no_lost_wakeup]), and a scheduled consumer
    empties the queue ([wq_drain]). *)

From S2P Require Import Prelude.

#[local] Open Scope Z_scope.

(** ** Data *)

Definition QSZ : Z := 2048.
Definition QMASK : Z := QSZ - 1.
Definition LLONG_MAX : Z := 2 ^ 63 - 1.

(** [WQ_ITEM_SZ] in longs. *)
Definition WQ_ITEM_LONGS : nat := 4.

Abbreviation WqItem := (list Z).

(** [array] is the memory of the ring, addressed by the word: word [w] of slot [i]
    is at [4 * i + w]. *)
Record TfwRBQueue := MkQ {
  heads : list Z;
  array : gmap Z Z;
  last_head : Z;
  head : Z;
  tail : Z;
  ipi : bool
}.

Definition set_heads v q := MkQ v (array q) (last_head q) (head q) (tail q) (ipi q).
Definition set_array v q := MkQ (heads q) v (last_head q) (head q) (tail q) (ipi q).
Definition set_last_head v q := MkQ (heads q) (array q) v (head q) (tail q) (ipi q).
Definition set_head v q := MkQ (heads q) (array q) (last_head q) v (tail q) (ipi q).
Definition set_tail v q := MkQ (heads q) (array q) (last_head q) (head q) v (ipi q).
Definition set_ipi v q := MkQ (heads q) (array q) (last_head q) (head q) (tail q) v.

(** [tfw_wq_init()]: the two flags are the results of the allocations; the memory
    of the array is whatever the allocator returns. *)
Definition tfw_wq_init (ncpu : nat) (percpu_ok array_ok : bool) (mem : gmap Z Z)
    : Z * option TfwRBQueue :=
  if negb percpu_ok then (- ENOMEM, None)
  else if negb array_ok then (- ENOMEM, None)
  else (0, Some (MkQ (replicate ncpu LLONG_MAX) mem 0 0 0 true)).

Definition slot_word (pos : Z) (w : nat) : Z :=
  Z.of_nat WQ_ITEM_LONGS * Z.land pos QMASK + Z.of_nat w.

(** [tfw_wq_size()] from the two values it reads. *)
Definition tfw_wq_size (t h : Z) : Z := if h <? t then 0 else s32 (h - t).

(** ** Program counters

    A producer inside [__tfw_wq_push(q, ptr)]: the constructors carry the local
    variables that are still used. *)
Inductive PPc :=
| PIdle
| PGuardRead (ptr : WqItem)
| PGuardSet (ptr : WqItem) (h : Z)
| PTail (ptr : WqItem) (h : Z) (budget : Z)
| PCas (ptr : WqItem) (h : Z) (budget : Z)
| PHead (ptr : WqItem) (budget : Z)
| PCopy (ptr : WqItem) (h : Z) (w : nat)
| PRelease (ret : Z).

(** The rest of [tfw_wq_push()] behind a successful push: testing the flag, raising
    the softirq, [tfw_cache_ipi()] called on the local CPU. *)
Inductive NPc :=
| NTest
| NRaise
| NClear
| NSched.

(** The tasklet [tfw_wq_tasklet()] with [tfw_wq_pop_ticket()] inlined. *)
Inductive CPc :=
| CIdle
| CTail
| CHead (t : Z)
| CScan (t : Z) (cpus : list nat)
| CCopy (t : Z) (w : nat) (buf : WqItem)
| CSetTail (t : Z) (buf : WqItem)
| CSetIpi
| CSizeTail
| CSizeHead (t : Z)
| CClear
| CResched.

(** The handler of the irq work, [tfw_cache_ipi()] as an interrupt. *)
Inductive IPc :=
| IIdle
| IClear
| ISched.

(** The queue and its threads.  [irq_pending] is the pending bit of the irq work,
    [sched] the scheduled bit of the tasklet, [warned] tells whether
    [WARN_ON_ONCE(head > tail + QSZ)] has fired. *)
Record WqState := MkWq {
  q : TfwRBQueue;
  prod : list PPc;
  notif : list NPc;
  cons : CPc;
  irq_pending : bool;
  irq : IPc;
  sched : bool;
  warned : bool
}.

Definition set_q v s := MkWq v (prod s) (notif s) (cons s) (irq_pending s) (irq s) (sched s) (warned s).
Definition set_prod v s := MkWq (q s) v (notif s) (cons s) (irq_pending s) (irq s) (sched s) (warned s).
Definition set_notif v s := MkWq (q s) (prod s) v (cons s) (irq_pending s) (irq s) (sched s) (warned s).
Definition set_cons v s := MkWq (q s) (prod s) (notif s) v (irq_pending s) (irq s) (sched s) (warned s).
Definition set_irq_pending v s := MkWq (q s) (prod s) (notif s) (cons s) v (irq s) (sched s) (warned s).
Definition set_irq v s := MkWq (q s) (prod s) (notif s) (cons s) (irq_pending s) v (sched s) (warned s).
Definition set_sched v s := MkWq (q s) (prod s) (notif s) (cons s) (irq_pending s) (irq s) v (warned s).
Definition set_warned v s := MkWq (q s) (prod s) (notif s) (cons s) (irq_pending s) (irq s) (sched s) v.

(** What a step makes visible: an item enters at the [cmpxchg] that takes its
    position, leaves when [tail] moves on; a push gives up with its ticket. *)
Inductive WqEvent :=
| Enq (x : WqItem)
| Deq (x : WqItem)
| Full (ticket : Z).

(** ** The producer *)

(** [__tfw_wq_push()]: one access of the producer of CPU [c]. *)
Definition __tfw_wq_push (c : nat) (pc : PPc) (s : WqState) : option (WqState * list WqEvent) :=
  let at_ pc s := set_prod (<[c := pc]> (prod s)) s in
  match pc with
  | PIdle => None
  | PGuardRead ptr => Some (at_ (PGuardSet ptr (head (q s))) s, [])
  | PGuardSet ptr h =>
      Some (at_ (PTail ptr h 10) (set_q (set_heads (<[c := h]> (heads (q s))) (q s)) s), [])
  | PTail ptr h budget =>
      let t := tail (q s) in
      let s := if t + QSZ <? h then set_warned true s else s in
      if h =? t + QSZ then
        if negb (budget - 1 =? 0) then Some (at_ (PHead ptr (budget - 1)) s, [])
        else Some (at_ (PRelease h) s, [Full h])
      else Some (at_ (PCas ptr h budget) s, [])
  | PCas ptr h budget =>
      if head (q s) =? h then
        Some (at_ (PCopy ptr h 0) (set_q (set_head (s64 (h + 1)) (q s)) s), [Enq ptr])
      else Some (at_ (PHead ptr budget) s, [])
  | PHead ptr budget => Some (at_ (PTail ptr (head (q s)) budget) s, [])
  | PCopy ptr h w =>
      let s := set_q (set_array (<[slot_word h w := nth w ptr 0]> (array (q s))) (q s)) s in
      Some (at_ (if (S w =? WQ_ITEM_LONGS)%nat then PRelease 0 else PCopy ptr h (S w)) s, [])
  | PRelease ret =>
      let s := set_q (set_heads (<[c := LLONG_MAX]> (heads (q s))) (q s)) s in
      let s := if ret =? 0 then set_notif (notif s ++ [NTest]) s else s in
      Some (at_ PIdle s, [])
  end.

(** [tfw_wq_push()] behind the push, for the notification [i]; [local] tells whether
    it runs on the CPU of the consumer.  A finished one leaves the list. *)
Definition tfw_wq_push (i : nat) (local : bool) (pc : NPc) (s : WqState) : WqState :=
  let at_ pc s := set_notif (<[i := pc]> (notif s)) s in
  let done s := set_notif (delete i (notif s)) s in
  match pc with
  | NTest =>
      if ipi (q s) then at_ (if local then NClear else NRaise) s else done s
  | NRaise => done (set_irq_pending true s)
  | NClear => at_ NSched (set_q (set_ipi false (q s)) s)
  | NSched => done (set_sched true s)
  end.

(** ** The consumer *)

(** [tfw_cache_ipi()] in interrupt context. *)
Definition tfw_cache_ipi (s : WqState) : option WqState :=
  match irq s with
  | IIdle => if irq_pending s then Some (set_irq IClear (set_irq_pending false s)) else None
  | IClear => Some (set_irq ISched (set_q (set_ipi false (q s)) s))
  | ISched => Some (set_irq IIdle (set_sched true s))
  end.

(** [tfw_wq_pop_ticket()], from the reading of [tail] to its return.  The
    positions are read against [last_head], which only the consumer uses. *)
Definition tfw_wq_pop_ticket (pc : CPc) (s : WqState) : option (WqState * list WqEvent) :=
  let ncpu := length (heads (q s)) in
  match pc with
  | CTail =>
      let t := tail (q s) in
      Some (set_cons (if last_head (q s) <=? t then CHead t else CCopy t 0 []) s, [])
  | CHead t =>
      Some (set_cons (CScan t (seq 0 ncpu)) (set_q (set_last_head (head (q s)) (q s)) s), [])
  | CScan t (c :: cpus) =>
      let curr_h := nth c (heads (q s)) LLONG_MAX in
      let lh := if curr_h <? last_head (q s) then curr_h else last_head (q s) in
      Some (set_cons (CScan t cpus) (set_q (set_last_head lh (q s)) s), [])
  | CScan t [] =>
      Some (set_cons (if last_head (q s) <=? t then CSetIpi else CCopy t 0 []) s, [])
  | CCopy t w buf =>
      let buf := buf ++ [default 0 (array (q s) !! slot_word t w)] in
      Some (set_cons (if (S w =? WQ_ITEM_LONGS)%nat then CSetTail t buf
                      else CCopy t (S w) buf) s, [])
  | CSetTail t buf =>
      Some (set_cons CTail (set_q (set_tail (s64 (t + 1)) (q s)) s), [Deq buf])
  | _ => None
  end.

(** [TFW_WQ_IPI_SYNC(tfw_wq_size, wq)] and the rescheduling behind it. *)
Definition TFW_WQ_IPI_SYNC (pc : CPc) (s : WqState) : option WqState :=
  match pc with
  | CSetIpi => Some (set_cons CSizeTail (set_q (set_ipi true (q s)) s))
  | CSizeTail => Some (set_cons (CSizeHead (tail (q s))) s)
  | CSizeHead t =>
      Some (set_cons (if tfw_wq_size t (head (q s)) =? 0 then CIdle else CClear) s)
  | CClear => Some (set_cons CResched (set_q (set_ipi false (q s)) s))
  | CResched => Some (set_cons CIdle (set_sched true s))
  | _ => None
  end.

(** [tfw_wq_tasklet()]: started by the scheduled bit, it pops until a pop fails and
    synchronises. *)
Definition tfw_wq_tasklet (s : WqState) : option (WqState * list WqEvent) :=
  match cons s with
  | CIdle => if sched s then Some (set_cons CTail (set_sched false s), []) else None
  | CSetIpi | CSizeTail | CSizeHead _ | CClear | CResched =>
      match TFW_WQ_IPI_SYNC (cons s) s with
      | Some s' => Some (s', [])
      | None => None
      end
  | pc => tfw_wq_pop_ticket pc s
  end.

(** ** Steps and runs *)

Inductive WqLabel :=
| LPush (c : nat) (ptr : WqItem)
| LProd (c : nat)
| LNotif (i : nat) (local : bool)
| LCons
| LIrq.

Definition step (l : WqLabel) (s : WqState) : option (WqState * list WqEvent) :=
  match l with
  | LPush c ptr =>
      match prod s !! c with
      | Some PIdle =>
          if (length ptr =? WQ_ITEM_LONGS)%nat
          then Some (set_prod (<[c := PGuardRead ptr]> (prod s)) s, []) else None
      | _ => None
      end
  | LProd c =>
      match prod s !! c with
      | Some pc => __tfw_wq_push c pc s
      | None => None
      end
  | LNotif i local =>
      match notif s !! i with
      | Some pc => Some (tfw_wq_push i local pc s, [])
      | None => None
      end
  | LCons => tfw_wq_tasklet s
  | LIrq => match tfw_cache_ipi s with Some s' => Some (s', []) | None => None end
  end.

Fixpoint run (ls : list WqLabel) (s : WqState) : option (WqState * list WqEvent) :=
  match ls with
  | [] => Some (s, [])
  | l :: ls =>
      match step l s with
      | Some (s', e) =>
          match run ls s' with
          | Some (s'', es) => Some (s'', e ++ es)
          | None => None
          end
      | None => None
      end
  end.

(** The state behind [tfw_wq_init()]; the memory of the ring is arbitrary. *)
Definition wq_start (ncpu : nat) (mem : gmap Z Z) : WqState :=
  MkWq (MkQ (replicate ncpu LLONG_MAX) mem 0 0 0 true)
       (replicate ncpu PIdle) [] CIdle false IIdle false false.

(** ** The specification: a bounded FIFO *)

(** [fifo es l l']: the events [es] take a queue holding [l] to one holding [l']. *)
Inductive fifo_step : WqEvent -> list WqItem -> list WqItem -> Prop :=
| fifo_enq x l : zlen l < QSZ -> fifo_step (Enq x) l (l ++ [x])
| fifo_deq x l : fifo_step (Deq x) (x :: l) l
| fifo_full k l : zlen l = QSZ -> 0 < k -> fifo_step (Full k) l l.

Inductive fifo : list WqEvent -> list WqItem -> list WqItem -> Prop :=
| fifo_nil l : fifo [] l l
| fifo_cons e es l l1 l2 : fifo_step e l l1 -> fifo es l1 l2 -> fifo (e :: es) l l2.

(** ** The invariant

    [pushed] lists the items in the order in which positions were taken.  A
    producer owns a position from its [cmpxchg] to the last word of its copy. *)

Definition owner (s : WqState) (c : nat) (p : Z) : Prop :=
  exists ptr w, prod s !! c = Some (PCopy ptr p w).

Definition written (a : gmap Z Z) (p : Z) (x : WqItem) (w : nat) : Prop :=
  forall i v, (i < w)%nat -> x !! i = Some v -> a !! slot_word p i = Some v.

(** What a producer knows at its program counter; [g] is the guard of its CPU. *)
Definition prod_ok (qq : TfwRBQueue) (pushed : list WqItem) (g : Z) (pc : PPc) : Prop :=
  match pc with
  | PIdle => g = LLONG_MAX
  | PGuardRead ptr => length ptr = WQ_ITEM_LONGS
  | PGuardSet ptr h => length ptr = WQ_ITEM_LONGS /\ 0 <= h <= head qq
  | PTail ptr h b =>
      length ptr = WQ_ITEM_LONGS /\ 0 <= h <= head qq /\ g <= h /\ h <= tail qq + QSZ /\ 0 < b
  | PCas ptr h b =>
      length ptr = WQ_ITEM_LONGS /\ 0 <= h <= head qq /\ g <= h /\ h < tail qq + QSZ /\ 0 < b
  | PHead ptr b => length ptr = WQ_ITEM_LONGS /\ g <= head qq /\ 0 < b
  | PCopy ptr h w =>
      g <= h /\ tail qq <= h < head qq /\ pushed !! Z.to_nat h = Some ptr /\
      (w < WQ_ITEM_LONGS)%nat /\ written (array qq) h ptr w
  | PRelease r => r = 0 \/ QSZ <= r
  end.

(** CPUs whose guard the consumer still has to read in its scan. *)
Definition scan_rest (pc : CPc) : list nat :=
  match pc with CScan _ l => l | _ => [] end.

Definition cons_ok (qq : TfwRBQueue) (pushed : list WqItem) (pc : CPc) : Prop :=
  match pc with
  | CHead t | CScan t _ | CSizeHead t => t = tail qq
  | CCopy t w buf =>
      t = tail qq /\ t < last_head qq /\ (w < WQ_ITEM_LONGS)%nat /\
      exists x, pushed !! Z.to_nat t = Some x /\ buf = take w x
  | CSetTail t buf =>
      t = tail qq /\ t < last_head qq /\ pushed !! Z.to_nat t = Some buf
  | _ => True
  end.

Record Inv (pushed : list WqItem) (s : WqState) : Prop := {
  i_len : length (heads (q s)) = length (prod s);
  i_head : head (q s) = zlen pushed;
  i_tail : 0 <= tail (q s) <= head (q s) /\ head (q s) <= tail (q s) + QSZ;
  i_items : Forall (fun x => length x = WQ_ITEM_LONGS) pushed;
  i_prod : forall c pc, prod s !! c = Some pc ->
             prod_ok (q s) pushed (nth c (heads (q s)) LLONG_MAX) pc;
  i_own : forall c c' p, owner s c p -> owner s c' p -> c = c';
  i_ready : forall p x, tail (q s) <= p -> pushed !! Z.to_nat p = Some x ->
             (exists c, owner s c p) \/ written (array (q s)) p x WQ_ITEM_LONGS;
  i_last : last_head (q s) <= head (q s);
  i_safe : forall c p, owner s c p -> last_head (q s) <= p \/ c ∈ scan_rest (cons s);
  i_cons : cons_ok (q s) pushed (cons s);
  i_warned : warned s = false
}.

(** The contents of the queue. *)
Definition contents (pushed : list WqItem) (s : WqState) : list WqItem :=
  drop (Z.to_nat (tail (q s))) pushed.

(** ** Lemmas on positions *)

Lemma land_qmask p : Z.land p QMASK = p mod QSZ.
Proof. change QMASK with (Z.ones 11). by rewrite Z.land_ones by lia. Qed.

(** Two positions less than [QSZ] apart use different slots. *)
Lemma slot_word_inj p p' i i' :
  (i < WQ_ITEM_LONGS)%nat -> (i' < WQ_ITEM_LONGS)%nat ->
  Z.abs (p - p') < QSZ -> slot_word p i = slot_word p' i' -> p = p' /\ i = i'.
Proof.
  unfold slot_word, WQ_ITEM_LONGS. rewrite !land_qmask. unfold QSZ. intros.
  assert (i = i' /\ p mod 2048 = p' mod 2048) as [-> Hm] by lia. split; [| done].
  Z.div_mod_to_equations. lia.
Qed.

(** A word written for one position leaves the others alone. *)
Lemma written_other a p p' x w i v :
  (i < WQ_ITEM_LONGS)%nat -> (w <= WQ_ITEM_LONGS)%nat ->
  Z.abs (p - p') < QSZ -> p <> p' ->
  written a p' x w -> written (<[slot_word p i := v]> a) p' x w.
Proof.
  intros Hi Hw Hd Hne Hx j v' Hj Hv. rewrite lookup_insert_ne; [by apply Hx |].
  intros E. apply slot_word_inj in E as [-> _]; [done | lia..].
Qed.

Lemma written_next a p x i :
  (i < WQ_ITEM_LONGS)%nat -> written a p x i ->
  written (<[slot_word p i := nth i x 0]> a) p x (S i).
Proof.
  intros Hi Hx j v Hj Hv. destruct (decide (j = i)) as [-> |].
  - rewrite lookup_insert_eq. f_equal. by apply nth_lookup_Some with (d := 0) in Hv.
  - rewrite lookup_insert_ne; [apply Hx; [lia | done] |].
    intros E. apply slot_word_inj in E; unfold QSZ; lia.
Qed.

Lemma drop_snoc_len {A} (l : list A) x n :
  (n <= length l)%nat -> drop n (l ++ [x]) = drop n l ++ [x].
Proof. intros. by rewrite drop_app_le. Qed.

Lemma contents_len pushed s : Inv pushed s -> zlen (contents pushed s) = head (q s) - tail (q s).
Proof.
  intros H. unfold contents, zlen. rewrite length_drop.
  pose proof (i_head _ _ H). pose proof (i_tail _ _ H). unfold zlen in *. lia.
Qed.

Lemma owner_prod s s' : prod s' = prod s -> owner s' = owner s.
Proof. unfold owner. by intros ->. Qed.

(** Ownership behind a step of producer [c] to a program counter that owns
    nothing, or keeps what it owned. *)
Lemma owner_insert s c pc c' p :
  owner (set_prod (<[c := pc]> (prod s)) s) c' p ->
  (c' <> c /\ owner s c' p) \/ (c' = c /\ exists ptr w, pc = PCopy ptr p w).
Proof.
  intros (ptr & w & H). simpl in H.
  apply list_lookup_insert_Some in H as [(-> & -> & _)|(Hne & H)].
  - right. eauto.
  - left. split; [done | by exists ptr, w].
Qed.

(** ** Each step keeps the invariant *)

Definition not_copy (pc : PPc) : Prop :=
  match pc with PCopy _ _ _ => False | _ => True end.

(** A producer that owns nothing before and after its step. *)
Lemma inv_prod_local pushed s c pc pc' g :
  Inv pushed s -> prod s !! c = Some pc -> not_copy pc -> not_copy pc' ->
  prod_ok (q s) pushed g pc' ->
  Inv pushed (set_prod (<[c := pc']> (prod s))
               (set_q (set_heads (<[c := g]> (heads (q s))) (q s)) s)).
Proof.
  intros H Hc Hn Hn' Hok.
  set (s1 := set_q (set_heads (<[c := g]> (heads (q s))) (q s)) s).
  assert (Hown : forall c' p, owner (set_prod (<[c := pc']> (prod s)) s1) c' p -> owner s c' p).
  { intros c' p Ho. apply (owner_insert s1) in Ho as [[_ Ho]|(_ & ptr & w & ->)]; done. }
  destruct H as [Hl Hh Ht Hi Hp Ho Hr Hla Hs Hco Hw]. constructor; simpl; try done.
  - by rewrite !length_insert.
  - intros c' pc0 Hc'. apply list_lookup_insert_Some in Hc' as [(<- & <- & Hlt)|(Hne & Hc')].
    + rewrite nth_lookup, list_lookup_insert_eq by lia. by destruct pc'.
    + specialize (Hp _ _ Hc'). rewrite nth_lookup in *.
      rewrite list_lookup_insert_ne by done. by destruct pc0.
  - intros c1 c2 p H1 H2. eauto.
  - intros p x Hp1 Hx. destruct (Hr p x Hp1 Hx) as [(c' & ptr & w & Hcp)|]; [| by right].
    left. exists c', ptr, w. simpl. rewrite list_lookup_insert_ne; [done |].
    intros ->. rewrite Hc in Hcp. simplify_eq. done.
  - intros c' p Hop. apply Hs. by apply Hown.
Qed.

Lemma prod_set_heads_id c (s : WqState) pc :
  length (heads (q s)) = length (prod s) -> prod s !! c = Some pc ->
  set_q (set_heads (<[c := nth c (heads (q s)) LLONG_MAX]> (heads (q s))) (q s)) s = s.
Proof.
  intros Hl Hc. apply lookup_lt_Some in Hc.
  assert (Hh : is_Some (heads (q s) !! c)) by (apply lookup_lt_is_Some; lia).
  destruct Hh as [g Hg]. rewrite nth_lookup, Hg. simpl.
  rewrite list_insert_id by done. by destruct s as [[]].
Qed.

Lemma inv_prod_keep pushed s c pc pc' :
  Inv pushed s -> prod s !! c = Some pc -> not_copy pc -> not_copy pc' ->
  prod_ok (q s) pushed (nth c (heads (q s)) LLONG_MAX) pc' ->
  Inv pushed (set_prod (<[c := pc']> (prod s)) s).
Proof.
  intros H Hc Hn Hn' Hok.
  pose proof (inv_prod_local _ _ _ _ _ _ H Hc Hn Hn' Hok) as H'.
  by rewrite (prod_set_heads_id _ _ _ (i_len _ _ H) Hc) in H'.
Qed.

(** The invariant does not look at notifications, interrupts and flags. *)
Lemma inv_notif pushed s v : Inv pushed s -> Inv pushed (set_notif v s).
Proof. by intros []. Qed.
Lemma inv_irq_pending pushed s v : Inv pushed s -> Inv pushed (set_irq_pending v s).
Proof. by intros []. Qed.
Lemma inv_irq pushed s v : Inv pushed s -> Inv pushed (set_irq v s).
Proof. by intros []. Qed.
Lemma inv_sched pushed s v : Inv pushed s -> Inv pushed (set_sched v s).
Proof. by intros []. Qed.
Lemma inv_ipi pushed s v : Inv pushed s -> Inv pushed (set_q (set_ipi v (q s)) s).
Proof. by intros []. Qed.

Create HintDb wq.
#[export] Hint Resolve inv_notif inv_irq_pending inv_irq inv_sched inv_ipi : wq.

(** The producer that wins the [cmpxchg] owns the new position. *)
Lemma inv_cas pushed s c ptr h b :
  Inv pushed s -> prod s !! c = Some (PCas ptr h b) -> head (q s) = h -> h < LLONG_MAX ->
  Inv (pushed ++ [ptr]) (set_prod (<[c := PCopy ptr h 0]> (prod s))
                           (set_q (set_head (s64 (h + 1)) (q s)) s)).
Proof.
  intros H Hc Heq Hmax. destruct H as [Hl Hh Ht Hi Hp Ho Hr Hla Hs Hco Hw].
  destruct (Hp _ _ Hc) as (Hlen & Hh0 & Hg & Hfull & Hb).
  rewrite s64_small by (unfold LLONG_MAX in *; lia).
  assert (Hnew : forall c' p, owner (set_prod (<[c := PCopy ptr h 0]> (prod s))
              (set_q (set_head (h + 1) (q s)) s)) c' p ->
            (c' <> c /\ owner s c' p /\ p < h) \/ (c' = c /\ p = h)).
  { intros c' p Hop. apply (owner_insert (set_q _ s)) in Hop as [[Hne Hop]|(-> & x & w & E)].
    - left. split_and!; [done | done |]. destruct Hop as (x & w & Hx).
      simpl in Hx. apply Hp in Hx as (_ & Hx & _). lia.
    - right. by simplify_eq. }
  assert (Hpos : Z.to_nat h = length pushed) by (unfold zlen in *; lia).
  constructor; simpl; try done.
  - by rewrite length_insert.
  - rewrite zlen_app, <- Hh, Heq. done.
  - unfold QSZ in *. lia.
  - apply Forall_app. split; [done | by constructor].
  - intros c' pc Hc'. apply list_lookup_insert_Some in Hc' as [(<- & <- & Hlt)|(Hne & Hc')]; simpl.
    + split_and!; [lia | lia | lia | | unfold WQ_ITEM_LONGS; lia | intros i v Hi'; lia].
      rewrite lookup_app_r by lia. by rewrite Hpos, Nat.sub_diag.
    + specialize (Hp _ _ Hc'). destruct pc; simpl in *; try lia; intuition (try lia).
      rewrite lookup_app_l; [done |]. by eapply lookup_lt_Some.
  - intros c1 c2 p H1 H2. apply Hnew in H1, H2.
    destruct H1 as [(? & ? & ?)|[? ?]], H2 as [(? & ? & ?)|[? ?]]; subst; [eauto | lia | lia | done].
  - intros p x Hp1 Hx. apply lookup_snoc_Some in Hx as [[Hx1 Hx]|[Hx1 <-]].
    + destruct (Hr p x Hp1 Hx) as [(c' & ptr' & w & Hcp)|]; [| by right].
      left. exists c', ptr', w. simpl. rewrite list_lookup_insert_ne; [done |].
      intros ->. rewrite Hc in Hcp. simplify_eq.
    + left. exists c, ptr, 0%nat. simpl.
      rewrite list_lookup_insert_eq by (by eapply lookup_lt_Some). do 2 f_equal. lia.
  - lia.
  - intros c' p Hop. apply Hnew in Hop as [(_ & Hop & _)|[-> ->]]; [by apply Hs | left; lia].
  - destruct (cons s); simpl in *; try done.
    + destruct Hco as (? & ? & ? & x & Hx & ?). split_and!; try done. exists x. split; [| done].
      rewrite lookup_app_l; [done |]. by eapply lookup_lt_Some.
    + destruct Hco as (? & ? & Hx). split_and!; try done.
      rewrite lookup_app_l; [done |]. by eapply lookup_lt_Some.
Qed.

(** A word of the copy. *)
Lemma inv_copy pushed s c ptr h w :
  Inv pushed s -> prod s !! c = Some (PCopy ptr h w) ->
  Inv pushed (set_prod (<[c := if (S w =? WQ_ITEM_LONGS)%nat then PRelease 0
                               else PCopy ptr h (S w)]> (prod s))
     (set_q (set_array (<[slot_word h w := nth w ptr 0]> (array (q s))) (q s)) s)).
Proof.
  intros H Hc. destruct H as [Hl Hh Ht Hi Hp Ho Hr Hla Hs Hco Hw].
  destruct (Hp _ _ Hc) as (Hg & Hrange & Hx & Hlt & Hwr).
  set (pc' := if (S w =? WQ_ITEM_LONGS)%nat then PRelease 0 else PCopy ptr h (S w)).
  set (s1 := set_q (set_array (<[slot_word h w := nth w ptr 0]> (array (q s))) (q s)) s).
  assert (Hnew : forall c' p, owner (set_prod (<[c := pc']> (prod s)) s1) c' p -> owner s c' p).
  { intros c' p Hop. apply (owner_insert s1) in Hop as [[Hne Hop]|(-> & x & i & E)]; [done |].
    subst pc'. case_match; simplify_eq. by exists x, w. }
  assert (Hoth : forall p x i, p <> h -> tail (q s) <= p < head (q s) ->
            (i <= WQ_ITEM_LONGS)%nat -> written (array (q s)) p x i ->
            written (<[slot_word h w := nth w ptr 0]> (array (q s))) p x i).
  { intros. apply written_other; try done. unfold QSZ in *. lia. }
  constructor; simpl; try done.
  - by rewrite length_insert.
  - intros c' pc Hc'. apply list_lookup_insert_Some in Hc' as [(<- & <- & _)|(Hne & Hc')].
    + subst pc'. case_match eqn:E; simpl; [by left |]. apply Nat.eqb_neq in E.
      split_and!; try lia; [done | by apply written_next].
    + pose proof (Hp _ _ Hc') as Hpc. destruct pc; simpl in *; try done.
      destruct Hpc as (? & ? & ? & ? & ?). split_and!; try done; try lia.
      apply Hoth; try done; try lia. intros ->. apply Hne.
      apply (Ho c c' h); eexists; eauto.
  - intros c1 c2 p H1 H2. eauto.
  - intros p x Hp1 Hpx. destruct (decide (p = h)) as [-> | Hph].
    + assert (x = ptr) as -> by congruence. subst pc'. case_match eqn:E.
      * right. apply Nat.eqb_eq in E. rewrite <- E. by apply written_next.
      * left. exists c, ptr, (S w). simpl.
        by rewrite list_lookup_insert_eq by (by eapply lookup_lt_Some).
    + destruct (Hr p x Hp1 Hpx) as [(c' & ptr' & i & Hcp)|Hpw].
      * left. exists c', ptr', i. simpl. rewrite list_lookup_insert_ne; [done |].
        intros ->. rewrite Hc in Hcp. simplify_eq.
      * right. apply Hoth; try done. apply lookup_lt_Some in Hpx. unfold zlen in *. lia.
  - intros c' p Hop. apply Hs. by apply Hnew.
Qed.

(** The consumer moves to a program counter outside a scan. *)
Lemma inv_cons pushed s pc :
  Inv pushed s -> scan_rest (cons s) = [] -> cons_ok (q s) pushed pc ->
  Inv pushed (set_cons pc s).
Proof.
  intros [Hl Hh Ht Hi Hp Ho Hr Hla Hs Hco Hw] Hsc Hok. constructor; simpl; try done.
  intros c p Hop. destruct (Hs c p Hop) as [|Hc]; [by left |].
  rewrite Hsc in Hc. by apply elem_of_nil in Hc.
Qed.

(** The scan starts with the guards of all CPUs ahead. *)
Lemma inv_scan_start pushed s t :
  Inv pushed s -> t = tail (q s) ->
  Inv pushed (set_cons (CScan t (seq 0 (length (heads (q s)))))
               (set_q (set_last_head (head (q s)) (q s)) s)).
Proof.
  intros [Hl Hh Ht Hi Hp Ho Hr Hla Hs Hco Hw] ->. constructor; simpl; try done.
  intros c p (ptr & w & Hc). right. apply elem_of_seq. apply lookup_lt_Some in Hc.
  simpl in Hc. lia.
Qed.

(** Reading one guard: an owner of that CPU is behind its guard. *)
Lemma inv_scan pushed s t c cpus :
  Inv pushed s -> cons s = CScan t (c :: cpus) ->
  let g := nth c (heads (q s)) LLONG_MAX in
  Inv pushed (set_cons (CScan t cpus)
    (set_q (set_last_head (if g <? last_head (q s) then g else last_head (q s)) (q s)) s)).
Proof.
  intros [Hl Hh Ht Hi Hp Ho Hr Hla Hs Hco Hw] Hc g. rewrite Hc in Hs, Hco. simpl in Hs, Hco.
  constructor; simpl; try done.
  - case_match eqn:E; bool_hyps; lia.
  - intros c' p Hop. assert (Hg : (if g <? last_head (q s) then g else last_head (q s)) <= last_head (q s)
        /\ (if g <? last_head (q s) then g else last_head (q s)) <= g)
      by (case_match eqn:E; bool_hyps; lia).
    destruct (Hs c' p Hop) as [|Hin]; [left; lia |].
    apply elem_of_cons in Hin as [-> |]; [| by right].
    destruct Hop as (ptr & w & Hpc). apply Hp in Hpc as (Hgp & _). fold g in Hgp. left. lia.
Qed.

(** Below [last_head] the item of the tail is complete. *)
Lemma inv_tail_item pushed s :
  Inv pushed s -> scan_rest (cons s) = [] -> tail (q s) < last_head (q s) ->
  exists x, pushed !! Z.to_nat (tail (q s)) = Some x /\ length x = WQ_ITEM_LONGS /\
            written (array (q s)) (tail (q s)) x WQ_ITEM_LONGS.
Proof.
  intros [Hl Hh Ht Hi Hp Ho Hr Hla Hs Hco Hw] Hsc Hlt.
  assert (is_Some (pushed !! Z.to_nat (tail (q s)))) as [x Hx]
    by (apply lookup_lt_is_Some; unfold zlen in *; lia).
  exists x. split_and!; [done | by eapply Forall_lookup_1 in Hi |].
  destruct (Hr (tail (q s)) x) as [[c Hop]|]; [lia | done | | done].
  destruct (Hs _ _ Hop) as [|Hin]; [lia |]. rewrite Hsc in Hin. by apply elem_of_nil in Hin.
Qed.

Lemma inv_pop_start pushed s :
  Inv pushed s -> scan_rest (cons s) = [] -> tail (q s) < last_head (q s) ->
  Inv pushed (set_cons (CCopy (tail (q s)) 0 []) s).
Proof.
  intros H Hsc Hlt. destruct (inv_tail_item _ _ H Hsc Hlt) as (x & Hx & _).
  apply inv_cons; [done | done |]. simpl. split_and!; [done | done | unfold WQ_ITEM_LONGS; lia |].
  by exists x.
Qed.

(** Reading a word of the item. *)
Lemma inv_pop_word pushed s t w buf :
  Inv pushed s -> cons s = CCopy t w buf ->
  let buf := buf ++ [default 0 (array (q s) !! slot_word t w)] in
  Inv pushed (set_cons (if (S w =? WQ_ITEM_LONGS)%nat then CSetTail t buf
                        else CCopy t (S w) buf) s).
Proof.
  intros H Hc. pose proof (i_cons _ _ H) as Hco. rewrite Hc in Hco.
  destruct Hco as (-> & Hlt & Hw & x & Hx & ->).
  assert (Hsc : scan_rest (cons s) = []) by by rewrite Hc.
  destruct (inv_tail_item _ _ H Hsc Hlt) as (x' & Hx' & Hlen & Hwr).
  assert (x' = x) as -> by congruence.
  assert (is_Some (x !! w)) as [v Hv] by (apply lookup_lt_is_Some; lia).
  rewrite (Hwr w v Hw Hv). simpl. rewrite <- (take_S_r x w v Hv).
  apply inv_cons; [done | done |]. case_match eqn:E; simpl; split_and!; try done.
  - apply Nat.eqb_eq in E. rewrite take_ge; [done | unfold WQ_ITEM_LONGS in *; lia].
  - apply Nat.eqb_neq in E. unfold WQ_ITEM_LONGS in *. lia.
  - by exists x.
Qed.

(** The item leaves the queue. *)
Lemma inv_pop_end pushed s t buf :
  Inv pushed s -> cons s = CSetTail t buf -> head (q s) <= LLONG_MAX ->
  Inv pushed (set_cons CTail (set_q (set_tail (s64 (t + 1)) (q s)) s)).
Proof.
  intros H Hc Hmax. pose proof (i_cons _ _ H) as Hco. rewrite Hc in Hco.
  destruct Hco as (-> & Hlt & Hx).
  assert (Hfree : forall c p, owner s c p -> tail (q s) < p).
  { intros c p Hop. destruct (i_safe _ _ H _ _ Hop) as [|Hin]; [lia |].
    rewrite Hc in Hin. by apply elem_of_nil in Hin. }
  destruct H as [Hl Hh Ht Hi Hp Ho Hr Hla Hs Hco Hw].
  rewrite s64_small by (unfold LLONG_MAX in *; lia).
  constructor; simpl; try done.
  - unfold QSZ in *. lia.
  - intros c pc Hpc. pose proof (Hp c pc Hpc) as Hok. destruct pc; simpl in *; try done; try lia.
    assert (owner s c h) by by eexists _, _. specialize (Hfree _ _ H). intuition lia.
  - intros p x Hp1 Hpx. apply Hr; [lia | done].
  - intros c p Hop. destruct (Hs c p Hop) as [|Hin]; [by left |].
    rewrite Hc in Hin. by apply elem_of_nil in Hin.
Qed.

Lemma fifo_one e l l' : fifo_step e l l' -> fifo [e] l l'.
Proof. intros. econstructor; [done | constructor]. Qed.

Lemma fifo_app es es' l l1 l2 : fifo es l l1 -> fifo es' l1 l2 -> fifo (es ++ es') l l2.
Proof. induction 1; simpl; [done |]. intros. econstructor; eauto. Qed.

#[export] Hint Constructors fifo fifo_step : wq.
#[export] Hint Resolve fifo_one inv_pop_start : wq.

(** A producer's step: the invariant and the effect on the contents. *)
Lemma push_inv pushed s c pc s' es :
  Inv pushed s -> head (q s) < LLONG_MAX -> prod s !! c = Some pc ->
  __tfw_wq_push c pc s = Some (s', es) ->
  exists pushed', Inv pushed' s' /\ fifo es (contents pushed s) (contents pushed' s') /\
                  zlen pushed' <= zlen pushed + 1.
Proof.
  intros H Hmax Hc Hs. pose proof (i_prod _ _ H _ _ Hc) as Hok.
  pose proof (i_tail _ _ H) as Ht.
  assert (Hstay : forall s1, Inv pushed s1 -> tail (q s1) = tail (q s) ->
    exists pushed', Inv pushed' s1 /\ fifo [] (contents pushed s) (contents pushed' s1) /\
                    zlen pushed' <= zlen pushed + 1).
  { intros s1 H1 E. exists pushed. split_and!; [done | | lia]. unfold contents. rewrite E. constructor. }
  destruct pc as [|ptr|ptr h|ptr h b|ptr h b|ptr b|ptr h w|r]; simpl in Hs; simplify_eq; simpl in Hok.
  - apply Hstay; [| done]. eapply inv_prod_keep; eauto; simpl; try done. split; [done | lia].
  - apply Hstay; [| done]. eapply (inv_prod_local _ _ _ (PGuardSet ptr h)); eauto; simpl; try done.
    destruct Hok. split_and!; try done; lia.
  - destruct Hok as (Hlen & Hh & Hg & Hf & Hb).
    rewrite (proj2 (Z.ltb_ge (tail (q s) + QSZ) h)) in Hs by lia.
    destruct (h =? tail (q s) + QSZ) eqn:E1; [destruct (negb (b - 1 =? 0)) eqn:E2 |]; simplify_eq; bool_hyps.
    + apply Hstay; [| done]. eapply inv_prod_keep; eauto; simpl; try done. lia.
    + exists pushed. split_and!; [| | lia].
      * eapply inv_prod_keep; eauto; simpl; try done. unfold QSZ in *. lia.
      * apply fifo_one, (fifo_full _ (contents pushed s)); [rewrite (contents_len _ _ H); lia | unfold QSZ in *; lia].
    + apply Hstay; [| done]. eapply inv_prod_keep; eauto; simpl; try done. lia.
  - destruct Hok as (Hlen & Hh & Hg & Hf & Hb).
    destruct (head (q s) =? h) eqn:E; simplify_eq; bool_hyps.
    + exists (pushed ++ [ptr]). split_and!.
      * eapply inv_cas; eauto. lia.
      * assert (Hcl := contents_len _ _ H). pose proof (i_head _ _ H) as Hhd. unfold zlen in Hhd.
        assert (Hco : contents (pushed ++ [ptr]) (set_prod (<[c:=PCopy ptr h 0]> (prod s))
          (set_q (set_head (s64 (h + 1)) (q s)) s)) = contents pushed s ++ [ptr])
          by (unfold contents; simpl; apply drop_snoc_len; lia).
        rewrite Hco. apply fifo_one, fifo_enq. unfold QSZ in *. lia.
      * rewrite zlen_app. unfold zlen. simpl. lia.
    + apply Hstay; [| done]. eapply inv_prod_keep; eauto; simpl; try done. lia.
  - apply Hstay; [| done]. eapply inv_prod_keep; eauto; simpl; try done. lia.
  - apply Hstay; [by apply inv_copy | done].
  - apply Hstay; [| by destruct (r =? 0)].
    pose proof (inv_prod_local _ _ _ _ PIdle LLONG_MAX H Hc I I eq_refl) as H1.
    destruct (r =? 0); [by apply (inv_notif _ _ (notif s ++ [NTest])) in H1 | done].
Qed.

(** A step of the tasklet. *)
Lemma tasklet_inv pushed s s' es :
  Inv pushed s -> head (q s) <= LLONG_MAX -> tfw_wq_tasklet s = Some (s', es) ->
  Inv pushed s' /\ fifo es (contents pushed s) (contents pushed s').
Proof.
  intros H Hmax Hs. unfold tfw_wq_tasklet in Hs. pose proof (i_cons _ _ H) as Hco.
  destruct (cons s) as [| |t|t [|c cpus]|t w buf|t buf| | |t| |] eqn:Hc;
    simpl in Hs, Hco; simplify_eq.
  - destruct (sched s) eqn:?; simplify_eq. split; [| constructor].
    apply inv_cons; [auto with wq | by simpl; rewrite Hc | done].
  - split; [| constructor].
    destruct (_ <=? _) eqn:E; bool_hyps.
    + apply inv_cons; [done | by rewrite Hc | done].
    + apply inv_pop_start; [done | by rewrite Hc | lia].
  - split; [by apply inv_scan_start | constructor].
  - split; [| constructor]. destruct (_ <=? _) eqn:E; bool_hyps.
    + apply inv_cons; [done | by rewrite Hc | done].
    + apply inv_pop_start; [done | by rewrite Hc | lia].
  - split; [by apply inv_scan | constructor].
  - split; [by apply inv_pop_word | constructor].
  - split; [by eapply inv_pop_end |]. destruct Hco as (-> & Hlt & Hx).
    apply fifo_one. unfold contents. simpl. pose proof (i_tail _ _ H). pose proof (i_last _ _ H).
    rewrite s64_small by (unfold LLONG_MAX in *; lia).
    rewrite (drop_S _ _ _ Hx), Z2Nat.inj_add, Nat.add_1_r by lia. constructor.
  - split; [| constructor]. apply inv_cons; [auto with wq | by simpl; rewrite Hc | done].
  - split; [| constructor]. apply inv_cons; [done | by rewrite Hc | done].
  - split; [| constructor]. apply inv_cons; [done | by rewrite Hc | by case_match].
  - split; [| constructor]. apply inv_cons; [auto with wq | by simpl; rewrite Hc | done].
  - split; [| constructor]. apply inv_cons; [auto with wq | by simpl; rewrite Hc | done].
Qed.

Lemma step_inv pushed s l s' es :
  Inv pushed s -> head (q s) < LLONG_MAX -> step l s = Some (s', es) ->
  exists pushed', Inv pushed' s' /\ fifo es (contents pushed s) (contents pushed' s') /\
                  zlen pushed' <= zlen pushed + 1.
Proof.
  intros H Hmax Hs. destruct l as [c ptr|c|i local| |]; simpl in Hs.
  - destruct (prod s !! c) as [[]|] eqn:Hc; simplify_eq.
    destruct (_ =? _)%nat eqn:E; simplify_eq. apply Nat.eqb_eq in E.
    exists pushed. split_and!; [| constructor | lia]. by eapply inv_prod_keep.
  - destruct (prod s !! c) as [pc|] eqn:Hc; simplify_eq. by eapply push_inv.
  - destruct (notif s !! i) as [pc|] eqn:Hi; simplify_eq.
    exists pushed. split_and!; [| | lia]; destruct pc, local; simpl; repeat case_match; auto with wq; constructor.
  - apply tasklet_inv with (pushed := pushed) in Hs as [? ?]; [| done | lia].
    exists pushed. split_and!; [done | done | lia].
  - unfold tfw_cache_ipi in Hs. exists pushed.
    destruct (irq s); repeat case_match; simplify_eq; split_and!; auto with wq; try lia; constructor.
Qed.

Lemma run_inv pushed s ls s' es :
  Inv pushed s -> head (q s) + zlen ls <= LLONG_MAX -> run ls s = Some (s', es) ->
  exists pushed', Inv pushed' s' /\ fifo es (contents pushed s) (contents pushed' s') /\
                  head (q s') <= LLONG_MAX.
Proof.
  revert pushed s es. induction ls as [|l ls IH]; intros pushed s es H Hmax Hs; simpl in Hs.
  - simplify_eq. exists pushed. split_and!; [done | constructor | unfold zlen in Hmax; simpl in Hmax; lia].
  - destruct (step l s) as [[s1 e1]|] eqn:E1; simplify_eq.
    destruct (run ls s1) as [[s2 e2]|] eqn:E2; simplify_eq.
    assert (Hz : zlen (l :: ls) = 1 + zlen ls) by (unfold zlen; simpl; lia).
    pose proof (zlen_nonneg ls).
    destruct (step_inv _ _ _ _ _ H ltac:(lia) E1) as (p1 & H1 & F1 & L1).
    pose proof (i_head _ _ H). pose proof (i_head _ _ H1).
    destruct (IH p1 s1 e2 H1 ltac:(lia) E2) as (p2 & Hi2 & F2 & L2).
    exists p2. split_and!; [done | by eapply fifo_app | done].
Qed.

Lemma inv_start ncpu mem : Inv [] (wq_start ncpu mem).
Proof.
  assert (Hno : forall c p, ~ owner (wq_start ncpu mem) c p).
  { intros c p (ptr & w & Hc). simpl in Hc. by apply lookup_replicate in Hc as [? _]. }
  constructor; simpl; try done.
  - by rewrite !length_replicate.
  - intros c pc Hc. apply lookup_replicate in Hc as [-> Hlt].
    by rewrite nth_lookup, lookup_replicate_2.
  - intros c c' p H. by apply Hno in H.
  - intros c p H. by apply Hno in H.
Qed.

(** ** Wake-ups

    While the flag is off the tasklet is scheduled or going to be; work that the
    tasklet has not seen has somebody who will start it. *)

Definition popping (pc : CPc) : Prop :=
  match pc with
  | CTail | CHead _ | CScan _ _ | CCopy _ _ _ | CSetTail _ _ | CSetIpi => True
  | _ => False
  end.

Definition committed (pc : PPc) : Prop :=
  match pc with
  | PCopy _ _ _ => True
  | PRelease r => r = 0
  | _ => False
  end.

Definition flag_off_ok (s : WqState) : Prop :=
  sched s = true \/ irq s = ISched \/ NSched ∈ notif s \/ popping (cons s) \/ cons s = CResched.

Definition will_wake (s : WqState) : Prop :=
  sched s = true \/ irq_pending s = true \/ irq s <> IIdle \/ notif s <> [] \/
  exists c pc, prod s !! c = Some pc /\ committed pc.

Definition WInv (s : WqState) : Prop :=
  (ipi (q s) = false -> flag_off_ok s) /\
  (cons s = CIdle -> tail (q s) < head (q s) -> will_wake s).

Lemma will_wake_insert s c pc pc' s' :
  will_wake s -> prod s !! c = Some pc -> prod s' = <[c := pc']> (prod s) ->
  (committed pc -> committed pc') -> sched s' = sched s -> irq_pending s' = irq_pending s ->
  irq s' = irq s -> notif s' = notif s -> will_wake s'.
Proof.
  intros Hw Hc Ep Hcc Es Eip Ei En. unfold will_wake. rewrite Ep, Es, Eip, Ei, En.
  destruct Hw as [|[|[|[|(c' & pc0 & Hc' & Hcm)]]]]; [tauto.. |].
  do 4 right. destruct (decide (c' = c)) as [-> |].
  - rewrite Hc in Hc'. simplify_eq. exists c, pc'. split; [| auto].
    by rewrite list_lookup_insert_eq by (by eapply lookup_lt_Some).
  - exists c', pc0. by rewrite list_lookup_insert_ne.
Qed.

Lemma push_winv pushed s c pc s' es :
  Inv pushed s -> WInv s -> prod s !! c = Some pc ->
  __tfw_wq_push c pc s = Some (s', es) -> WInv s'.
Proof.
  intros Hi [Hf Hw] Hc Hs. pose proof (i_prod _ _ Hi _ _ Hc) as Hok.
  assert (Hlt : (c < length (prod s))%nat) by by eapply lookup_lt_Some.
  assert (Hin : forall s1 c' pc', prod s1 = <[c := pc']> (prod s) -> c' = c -> committed pc' ->
                will_wake s1).
  { intros s1 c' pc' E -> Hcm. do 4 right. exists c, pc'. rewrite E.
    by rewrite list_lookup_insert_eq. }
  destruct pc as [|ptr|ptr h|ptr h b|ptr h b|ptr b|ptr h w|r]; simpl in Hs, Hok; simplify_eq.
  - split; [done |]. intros E1 E2. by eapply will_wake_insert; [apply Hw | ..].
  - split; [done |]. intros E1 E2. by eapply will_wake_insert; [apply Hw | ..].
  - destruct (_ <? h) eqn:?; (destruct (h =? _) eqn:?; [destruct (negb _) eqn:? |]); simplify_eq;
      (split; [done |]); intros E1 E2; by eapply will_wake_insert; [apply Hw | ..].
  - destruct (_ =? h) eqn:?; simplify_eq; (split; [done |]); intros E1 E2.
    + by eapply Hin.
    + by eapply will_wake_insert; [apply Hw | ..].
  - split; [done |]. intros E1 E2. by eapply will_wake_insert; [apply Hw | ..].
  - split; [done |]. intros E1 E2. eapply Hin; [done | done |]. by case_match.
  - split.
    + intros E. simpl in E. destruct (r =? 0); [| by apply Hf].
      destruct (Hf E) as [|[|[|]]]; unfold flag_off_ok; simpl; rewrite ?elem_of_app; tauto.
    + intros E1 E2. destruct (r =? 0) eqn:Er; bool_hyps.
      * do 3 right. left. simpl. by destruct (notif s).
      * by eapply will_wake_insert; [apply Hw | ..].
Qed.

(** A notification that finds the flag off may leave: the flag is off only while
    the tasklet is started by somebody else. *)
Lemma notif_winv s i local pc :
  WInv s -> notif s !! i = Some pc -> WInv (tfw_wq_push i local pc s).
Proof.
  intros [Hf Hw] Hi. assert (Hlt : (i < length (notif s))%nat) by by eapply lookup_lt_Some.
  assert (Hne : forall pc', <[i := pc']> (notif s) <> []).
  { intros pc' E. apply (f_equal length) in E. rewrite length_insert in E. simpl in E. lia. }
  assert (Hkeep : forall pc', NSched ∈ notif s -> pc <> NSched -> NSched ∈ <[i := pc']> (notif s)).
  { intros pc' Hin Hpc. apply list_elem_of_lookup in Hin as [j Hj].
    apply list_elem_of_lookup. exists j. rewrite list_lookup_insert_ne; [done |].
    intros ->. congruence. }
  assert (Hdel : NSched ∈ notif s -> pc <> NSched -> NSched ∈ delete i (notif s)).
  { intros Hin Hpc. rewrite delete_take_drop. rewrite <- (take_drop_middle _ _ _ Hi) in Hin.
    apply elem_of_app in Hin as [|Hin]; [apply elem_of_app; by left |].
    apply elem_of_cons in Hin as [|]; [done | apply elem_of_app; by right]. }
  destruct pc; simpl.
  - destruct (ipi (q s)) eqn:E.
    + split; simpl; [by rewrite E |]. intros _ _. do 3 right. left. simpl. apply Hne.
    + specialize (Hf eq_refl).
      assert (Hf' : flag_off_ok (set_notif (delete i (notif s)) s)).
      { destruct Hf as [|[|[|[|]]]]; unfold flag_off_ok; simpl; try tauto. right; right; left. auto. }
      split; [done |]. intros E1 E2. simpl in E1.
      destruct Hf' as [|[|[|[Hp|]]]]; simpl in *; unfold will_wake; simpl; try tauto.
      * right; right; left. congruence.
      * do 3 right. left. intros En. rewrite En in H. by apply elem_of_nil in H.
      * by rewrite E1 in Hp.
      * congruence.
  - split; simpl.
    + intros E. destruct (Hf E) as [|[|[|[|]]]]; unfold flag_off_ok; simpl; try tauto.
      right; right; left. auto.
    + intros _ _. right. left. done.
  - split; simpl.
    + intros _. right; right; left. simpl. apply list_elem_of_lookup. exists i.
      by rewrite list_lookup_insert_eq.
    + intros _ _. do 3 right. left. simpl. apply Hne.
  - split; simpl; intros; by left.
Qed.

Lemma tasklet_winv pushed s s' es :
  Inv pushed s -> WInv s -> tfw_wq_tasklet s = Some (s', es) -> WInv s'.
Proof.
  intros Hi [Hf Hw] Hs. unfold tfw_wq_tasklet in Hs. pose proof (i_cons _ _ Hi) as Hco.
  pose proof (i_tail _ _ Hi) as Ht.
  destruct (cons s) as [| |t|t [|c cpus]|t w buf|t buf| | |t| |] eqn:Hc;
    simpl in Hs, Hco; simplify_eq.
  - destruct (sched s) eqn:?; simplify_eq. split; [| done]. intros _. right; right; right; left. done.
  - split; [intros _; right; right; right; left; simpl; by case_match | simpl; by case_match].
  - split; [intros _; right; right; right; left; done | done].
  - split; [intros _; right; right; right; left; simpl; by case_match | simpl; by case_match].
  - split; [intros _; right; right; right; left; done | done].
  - split; [intros _; right; right; right; left; simpl; by case_match | simpl; by case_match].
  - split; [intros _; right; right; right; left; done | done].
  - split; done.
  - split; [| done]. intros E. simpl in E. specialize (Hf E). unfold flag_off_ok in *.
    simpl. rewrite Hc in Hf. simpl in Hf. destruct Hf as [|[|[|[|]]]]; try tauto; done.
  - destruct (tfw_wq_size _ _ =? 0) eqn:E.
    + split.
      * intros E'. simpl in E'. specialize (Hf E'). unfold flag_off_ok in *.
        simpl. rewrite Hc in Hf. simpl in Hf. destruct Hf as [|[|[|[|]]]]; try tauto; done.
      * simpl. intros _ Hlt. exfalso. unfold tfw_wq_size in E.
        rewrite (proj2 (Z.ltb_ge (head (q s)) (tail (q s)))) in E by lia.
        unfold QSZ in *. rewrite s32_small in E by lia. bool_hyps. lia.
    + split; [| done]. intros E'. simpl in E'. specialize (Hf E'). unfold flag_off_ok in *.
      simpl. rewrite Hc in Hf. simpl in Hf. destruct Hf as [|[|[|[|]]]]; try tauto; done.
  - split; [| done]. intros _. do 4 right. done.
  - split; [intros _; by left | intros _ _; by left].
Qed.

Lemma step_winv pushed s l s' es :
  Inv pushed s -> WInv s -> step l s = Some (s', es) -> WInv s'.
Proof.
  intros Hi Hw Hs. destruct l as [c ptr|c|i local| |]; simpl in Hs.
  - destruct (prod s !! c) as [[]|] eqn:Hc; simplify_eq. case_match; simplify_eq.
    destruct Hw as [Hf Hw]. split; [done |]. intros E1 E2.
    by eapply will_wake_insert; [apply Hw | ..].
  - destruct (prod s !! c) as [pc|] eqn:Hc; simplify_eq. by eapply push_winv.
  - destruct (notif s !! i) as [pc|] eqn:Hc; simplify_eq. by apply notif_winv.
  - by eapply tasklet_winv.
  - destruct Hw as [Hf Hw]. unfold tfw_cache_ipi in Hs.
    destruct (irq s) eqn:Ei; [destruct (irq_pending s) eqn:Ep |..]; simplify_eq; split; simpl.
    + intros E. destruct (Hf E) as [|[|[|[|]]]]; unfold flag_off_ok; simpl; try tauto; congruence.
    + intros E1 E2. right; right; left. done.
    + intros _. right; left. done.
    + intros E1 E2. right; right; left. done.
    + intros _. by left.
    + intros _ _. by left.
Qed.

Lemma run_winv pushed s ls s' es :
  Inv pushed s -> WInv s -> head (q s) + zlen ls <= LLONG_MAX ->
  run ls s = Some (s', es) -> WInv s'.
Proof.
  revert pushed s es. induction ls as [|l ls IH]; intros pushed s es H Hw Hmax Hs; simpl in Hs.
  - by simplify_eq.
  - destruct (step l s) as [[s1 e1]|] eqn:E1; simplify_eq.
    destruct (run ls s1) as [[s2 e2]|] eqn:E2; simplify_eq.
    assert (Hz : zlen (l :: ls) = 1 + zlen ls) by (unfold zlen; simpl; lia).
    pose proof (zlen_nonneg ls) as Hnn.
    destruct (step_inv _ _ _ _ _ H ltac:(lia) E1) as (p1 & H1 & F1 & L1).
    pose proof (i_head _ _ H). pose proof (i_head _ _ H1).
    eapply (IH p1 s1 e2); [done | exact (step_winv _ _ _ _ _ H Hw E1) | lia | done].
Qed.

Lemma winv_start ncpu mem : WInv (wq_start ncpu mem).
Proof. split; simpl; [done |]. lia. Qed.

(** ** Draining: runs of the consumer alone *)

Definition all_idle (s : WqState) : Prop := forall c pc, prod s !! c = Some pc -> pc = PIdle.

Definition cruns (s : WqState) (es : list WqEvent) (s' : WqState) : Prop :=
  exists k, run (replicate k LCons) s = Some (s', es).

Lemma cruns_refl s : cruns s [] s.
Proof. by exists 0%nat. Qed.

Lemma cruns_step s e s1 es s' :
  tfw_wq_tasklet s = Some (s1, e) -> cruns s1 es s' -> cruns s (e ++ es) s'.
Proof. intros H [k Hk]. exists (S k). simpl. by rewrite H, Hk. Qed.

Lemma cruns_trans s es s1 es' s' :
  cruns s es s1 -> cruns s1 es' s' -> cruns s (es ++ es') s'.
Proof.
  intros [k Hk] H1. revert s es Hk. induction k as [|k IH]; intros s es Hk; simpl in Hk.
  - by simplify_eq.
  - destruct (tfw_wq_tasklet s) as [[s2 e2]|] eqn:E; simplify_eq.
    destruct (run _ s2) as [[s3 e3]|] eqn:E3; simplify_eq.
    rewrite <- app_assoc. eapply cruns_step; [done |]. by apply IH.
Qed.

Lemma cruns_inv pushed s es s' :
  Inv pushed s -> head (q s) <= LLONG_MAX -> cruns s es s' ->
  Inv pushed s' /\ fifo es (contents pushed s) (contents pushed s').
Proof.
  intros H Hmax [k Hk]. revert s es H Hmax Hk.
  induction k as [|k IH]; intros s es H Hmax Hk; simpl in Hk.
  - simplify_eq. split; [done | constructor].
  - destruct (tfw_wq_tasklet s) as [[s2 e2]|] eqn:E; simplify_eq.
    destruct (run _ s2) as [[s3 e3]|] eqn:E3; simplify_eq.
    destruct (tasklet_inv _ _ _ _ H Hmax E) as [H2 F2].
    pose proof (i_head _ _ H). pose proof (i_head _ _ H2) as Hh2.
    destruct (IH s2 e3 H2 ltac:(lia) E3) as [H3 F3]. split; [done | by eapply fifo_app].
Qed.

(** With idle producers the scan does not lower [last_head]. *)
Lemma scan_run pushed s t cpus :
  Inv pushed s -> all_idle s -> head (q s) <= LLONG_MAX -> cons s = CScan t cpus ->
  cruns s [] (set_cons (CScan t []) s).
Proof.
  intros H Hidle Hmax Hc.
  assert (Hg : forall c, nth c (heads (q s)) LLONG_MAX = LLONG_MAX).
  { intros c. destruct (prod s !! c) as [pc|] eqn:E.
    - pose proof (i_prod _ _ H _ _ E) as Hok. by rewrite (Hidle _ _ E) in Hok.
    - rewrite nth_lookup. apply lookup_ge_None in E. rewrite lookup_ge_None_2; [done |].
      by rewrite (i_len _ _ H). }
  pose proof (i_last _ _ H) as Hla. clear H Hidle.
  revert s Hmax Hc Hg Hla. induction cpus as [|c cpus IH]; intros s Hmax Hc Hg Hla.
  - replace (set_cons (CScan t []) s) with s; [apply cruns_refl |].
    destruct s; simpl in *; by subst.
  - change (@nil WqEvent) with (@nil WqEvent ++ []).
    eapply (cruns_step s [] (set_cons (CScan t cpus) s)).
    + unfold tfw_wq_tasklet. rewrite Hc. simpl. rewrite Hg.
      rewrite (proj2 (Z.ltb_ge LLONG_MAX (last_head (q s)))) by lia. by destruct s as [[]].
    + by apply (IH (set_cons (CScan t cpus) s)).
Qed.

Lemma copy_run s t :
  cons s = CCopy t 0 [] ->
  exists x, cruns s [Deq x] (set_cons CTail (set_q (set_tail (s64 (t + 1)) (q s)) s)).
Proof.
  intros Hc. eexists. exists 5%nat. simpl. unfold tfw_wq_tasklet at 1. rewrite Hc. reflexivity.
Qed.

(** One call of the tasklet's body. *)
Lemma cruns_one s s1 : tfw_wq_tasklet s = Some (s1, []) -> cruns s [] s1.
Proof. intros H. by apply (cruns_step s [] s1 [] s1 H), cruns_refl. Qed.

(** A pop that has to look for new items ends its scan with the true head. *)
Lemma rescan_run pushed s :
  Inv pushed s -> all_idle s -> head (q s) <= LLONG_MAX -> cons s = CTail ->
  last_head (q s) <= tail (q s) ->
  cruns s [] (set_cons (CScan (tail (q s)) []) (set_q (set_last_head (head (q s)) (q s)) s)).
Proof.
  intros H Hidle Hmax Hc Hlh. set (s1 := set_cons (CHead (tail (q s))) s).
  assert (Hs1 : cruns s [] s1).
  { apply cruns_one. unfold tfw_wq_tasklet. rewrite Hc. simpl.
    by rewrite (proj2 (Z.leb_le _ _) Hlh). }
  destruct (cruns_inv _ _ _ _ H Hmax Hs1) as [H1 _].
  apply (cruns_trans s [] s1 []); [done |].
  set (s2 := set_cons (CScan (tail (q s)) (seq 0 (length (heads (q s)))))
               (set_q (set_last_head (head (q s)) (q s)) s1)).
  assert (Hs2 : cruns s1 [] s2) by by apply cruns_one.
  destruct (cruns_inv _ _ _ _ H1 Hmax Hs2) as [H2 _].
  apply (cruns_trans s1 [] s2 []); [done |]. by apply (scan_run _ _ _ _ H2 Hidle Hmax eq_refl).
Qed.

(** A pop that finds nothing behind a complete scan ends the tasklet. *)
Lemma finish_run s t :
  cons s = CScan t [] -> t = tail (q s) -> head (q s) = tail (q s) -> last_head (q s) <= t ->
  cruns s [] (set_cons CIdle (set_q (set_ipi true (q s)) s)).
Proof.
  intros Hc -> Hh Hl. exists 4%nat. cbn [replicate run step].
  unfold tfw_wq_tasklet at 1. rewrite Hc. simpl.
  rewrite (proj2 (Z.leb_le _ _) Hl). simpl. rewrite Hh.
  unfold tfw_wq_size. by rewrite Z.ltb_irrefl, Z.sub_diag.
Qed.

Definition drained (s s' : WqState) : Prop :=
  cons s' = CIdle /\ tail (q s') = head (q s') /\ ipi (q s') = true /\ sched s' = sched s.

(** The tasklet behind the start finds all items. *)
Lemma drain_loop m pushed s :
  Inv pushed s -> all_idle s -> head (q s) <= LLONG_MAX -> cons s = CTail ->
  head (q s) - tail (q s) = Z.of_nat m ->
  exists es s', cruns s es s' /\ drained s s'.
Proof.
  revert s. induction m as [m IH] using lt_wf_ind. intros s H Hidle Hmax Hc Hm.
  assert (Hpop : forall s1, cruns s [] s1 -> prod s1 = prod s -> head (q s1) = head (q s) ->
     tail (q s1) = tail (q s) -> sched s1 = sched s -> cons s1 = CCopy (tail (q s)) 0 [] ->
     exists es s', cruns s es s' /\ drained s s').
  { intros s1 Hs1 Ep Eh Et Es Ec. destruct (cruns_inv _ _ _ _ H Hmax Hs1) as [H1 _].
    destruct (copy_run s1 _ Ec) as [x Hx].
    destruct (cruns_inv _ _ _ _ H1 ltac:(lia) Hx) as [H2 _].
    pose proof (i_cons _ _ H1) as Hco. rewrite Ec in Hco. destruct Hco as (_ & Hlt & _).
    pose proof (i_last _ _ H1) as Hla. pose proof (i_tail _ _ H1) as Ht.
    destruct m as [|m']; [lia |].
    destruct (IH m' ltac:(lia) _ H2) as (es & s' & Hr & Hd); simpl; try done.
    - unfold all_idle. simpl. by rewrite Ep.
    - lia.
    - rewrite s64_small by (unfold LLONG_MAX in *; lia). lia.
    - exists ([] ++ [Deq x] ++ es), s'. split.
      + eapply cruns_trans; [done |]. by eapply cruns_trans.
      + unfold drained in *. simpl in Hd. by rewrite <- Es. }
  destruct (last_head (q s) <=? tail (q s)) eqn:Elh; bool_hyps.
  - pose proof (rescan_run _ _ H Hidle Hmax Hc Elh) as Hs3.
    set (s3 := set_cons _ _) in Hs3. pose proof (i_tail _ _ H) as Ht.
    destruct (head (q s) <=? tail (q s)) eqn:Eht; bool_hyps.
    + exists ([] ++ []). eexists. split; [eapply cruns_trans; [exact Hs3 |] |].
      * apply (finish_run s3 (tail (q s))); simpl; try done; lia.
      * split_and!; simpl; try done. lia.
    + apply (Hpop (set_cons (CCopy (tail (q s)) 0 []) s3)); try done.
      apply (cruns_trans s [] s3 []); [done |]. apply cruns_one.
      unfold tfw_wq_tasklet. simpl. by rewrite (proj2 (Z.leb_gt _ _)) by lia.
  - apply (Hpop (set_cons (CCopy (tail (q s)) 0 []) s)); try done.
    apply cruns_one. unfold tfw_wq_tasklet. rewrite Hc. simpl.
    by rewrite (proj2 (Z.leb_gt _ _)) by lia.
Qed.

(** ** Theorems *)

(** The producers, their notifications, the interrupt and the tasklet are all at rest. *)
Definition quiescent (s : WqState) : Prop :=
  all_idle s /\ notif s = [] /\ irq_pending s = false /\ irq s = IIdle /\
  sched s = false /\ cons s = CIdle.

(** C4: In every interleaving of any number of producers, the consumer and the
    interrupt, the lock-free ring behaves as a FIFO of at most QSZ items: an item enters
    where its producer wins the cmpxchg, items leave complete and in that order, a push
    gives up only while QSZ items are queued and then returns a positive ticket, and
    WARN_ON_ONCE(head > tail + QSZ) never fires.  The positions are 64-bit counters: the run is
    shorter than 2^63 steps. *)
Theorem wq_refines_fifo ncpu mem ls s es :
  zlen ls <= LLONG_MAX -> run ls (wq_start ncpu mem) = Some (s, es) ->
  exists l, fifo es [] l /\ zlen l = head (q s) - tail (q s) /\ zlen l <= QSZ /\ warned s = false.
Proof.
  intros Hlen Hrun.
  destruct (run_inv _ _ _ _ _ (inv_start ncpu mem) Hlen Hrun) as (pushed & H & Hf & _).
  exists (contents pushed s). pose proof (i_tail _ _ H). pose proof (contents_len _ _ H) as Hc.
  split_and!; [done | done | rewrite Hc; lia | apply (i_warned _ _ H)].
Qed.

(** C20: No wake-up is lost: whenever all producers, their notifications, the irq
    work and the tasklet are at rest, the queue is empty, and the flag is on, so that the next push
    notifies the consumer. *)
Theorem wq_no_lost_wakeup ncpu mem ls s es :
  zlen ls <= LLONG_MAX -> run ls (wq_start ncpu mem) = Some (s, es) -> quiescent s ->
  head (q s) = tail (q s) /\ ipi (q s) = true /\ fifo es [] [].
Proof.
  intros Hlen Hrun (Hidle & Hn & Hip & Hir & Hsc & Hc).
  destruct (run_inv _ _ _ _ _ (inv_start ncpu mem) Hlen Hrun) as (pushed & H & Hf & _).
  destruct (run_winv _ _ _ _ _ (inv_start ncpu mem) (winv_start ncpu mem) Hlen Hrun) as [Hw1 Hw2].
  pose proof (i_tail _ _ H) as Ht.
  assert (Heq : head (q s) = tail (q s)).
  { destruct (Z.lt_ge_cases (tail (q s)) (head (q s))) as [Hlt|]; [| lia].
    destruct (Hw2 Hc Hlt) as [|[|[|[|(c & pc & Hpc & Hcm)]]]]; try congruence.
    by rewrite (Hidle _ _ Hpc) in Hcm. }
  split_and!; [done | |].
  - destruct (ipi (q s)) eqn:Ei; [done |]. destruct (Hw1 eq_refl) as [|[|[Hin|[Hp|]]]]; try congruence.
    + rewrite Hn in Hin. by apply elem_of_nil in Hin.
    + by rewrite Hc in Hp.
  - replace [] with (contents pushed s) at 2; [done |]. unfold contents. apply drop_ge.
    pose proof (i_head _ _ H). unfold zlen in *. lia.
Qed.

(** C26: A scheduled tasklet makes progress: with the producers idle, finitely many of its
    steps pop every queued item in order, leave the queue empty, and end with the tasklet idle and
    notifications enabled. *)
Theorem wq_drain ncpu mem ls s es :
  zlen ls <= LLONG_MAX -> run ls (wq_start ncpu mem) = Some (s, es) ->
  all_idle s -> cons s = CIdle -> sched s = true ->
  exists k es' s', run (replicate k LCons) s = Some (s', es') /\ fifo (es ++ es') [] [] /\
    cons s' = CIdle /\ tail (q s') = head (q s') /\ ipi (q s') = true /\ sched s' = false.
Proof.
  intros Hlen Hrun Hidle Hc Hsc.
  destruct (run_inv _ _ _ _ _ (inv_start ncpu mem) Hlen Hrun) as (pushed & H & Hf & Hmax).
  set (s1 := set_cons CTail (set_sched false s)).
  assert (Hs1 : cruns s [] s1) by (apply cruns_one; unfold tfw_wq_tasklet; by rewrite Hc, Hsc).
  destruct (cruns_inv _ _ _ _ H Hmax Hs1) as [H1 _].
  destruct (drain_loop (Z.to_nat (head (q s) - tail (q s))) _ s1 H1) as (es' & s' & Hr & Hd);
    try done.
  { pose proof (i_tail _ _ H). simpl. lia. }
  pose proof (cruns_trans _ _ _ _ _ Hs1 Hr) as Hr'. simpl in Hr'.
  destruct (cruns_inv _ _ _ _ H Hmax Hr') as [H2 F2]. destruct Hd as (? & Ht & ? & ?).
  destruct Hr' as [k Hk]. exists k, es', s'. split_and!; try done.
  eapply fifo_app; [done |]. replace [] with (contents pushed s'); [done |].
  unfold contents. apply drop_ge. pose proof (i_head _ _ H2). unfold zlen in *. lia.
Qed.

(** ** Concrete runs *)

(** Two CPUs push concurrently: CPU 1 reads the old head, loses the race and pushes behind CPU
    0; the notification of CPU 0 schedules the tasklet. *)
Definition demo_labels : list WqLabel :=
  [LPush 0 [10; 11; 12; 13]; LPush 1 [20; 21; 22; 23]; LProd 0; LProd 1; LProd 0; LProd 1;
   LProd 0; LProd 1; LProd 0; LProd 1; LProd 1; LProd 1; LProd 1]
  ++ replicate 5 (LProd 0) ++ replicate 5 (LProd 1)
  ++ [LNotif 0 true; LNotif 0 true; LNotif 0 true; LNotif 0 false].

Definition demo_run : WqState * list WqEvent :=
  Eval vm_compute in default (wq_start 2 ∅, []) (run demo_labels (wq_start 2 ∅)).

Lemma demo_run_ok : run demo_labels (wq_start 2 ∅) = Some demo_run.
Proof. vm_compute. reflexivity. Qed.

Lemma wq_refines_fifo_witness :
  exists l, fifo demo_run.2 [] l /\ zlen l = 2 /\ zlen l <= QSZ /\ warned demo_run.1 = false.
Proof.
  destruct (wq_refines_fifo 2 ∅ demo_labels demo_run.1 demo_run.2) as (l & Hf & Hl & Hq & Hw).
  - unfold zlen, LLONG_MAX. simpl. lia.
  - exact demo_run_ok.
  - exists l. split_and!; [exact Hf | exact Hl | exact Hq | exact Hw].
Defined.

Lemma wq_drain_witness :
  exists k es' s', run (replicate k LCons) demo_run.1 = Some (s', es') /\
    fifo (demo_run.2 ++ es') [] [] /\ tail (q s') = head (q s').
Proof.
  destruct (wq_drain 2 ∅ demo_labels demo_run.1 demo_run.2)
    as (k & es' & s' & Hr & Hf & _ & Ht & _).
  - unfold zlen, LLONG_MAX. simpl. lia.
  - exact demo_run_ok.
  - intros [|[|c]] pc Hc; vm_compute in Hc; congruence.
  - reflexivity.
  - reflexivity.
  - exists k, es', s'. split_and!; [exact Hr | exact Hf | exact Ht].
Defined.

(** The same run until the tasklet has gone to sleep. *)
Definition demo_labels_end : list WqLabel := demo_labels ++ replicate 25 LCons.

Definition demo_end : WqState * list WqEvent :=
  Eval vm_compute in default (wq_start 2 ∅, []) (run demo_labels_end (wq_start 2 ∅)).

Lemma wq_no_lost_wakeup_witness :
  quiescent demo_end.1 /\ head (q demo_end.1) = 2 /\ tail (q demo_end.1) = 2 /\
  fifo demo_end.2 [] [].
Proof.
  assert (Hq : quiescent demo_end.1).
  { split_and!; try reflexivity. intros [|[|c]] pc Hc; vm_compute in Hc; congruence. }
  destruct (wq_no_lost_wakeup 2 ∅ demo_labels_end demo_end.1 demo_end.2) as (_ & _ & Hf).
  - unfold zlen, LLONG_MAX. simpl. lia.
  - vm_compute. reflexivity.
  - exact Hq.
  - split; [exact Hq | split; [reflexivity | split; [reflexivity | exact Hf]]].
Defined.
