(* ===== verification/Str.v ===== *)
(** * Compound strings

    [TfwStr] ([fw/str.h], [fw/str.c]) describes text that lies in pieces in the
    buffers of the network: a plain string has one piece, a compound one an array of
    plain chunks, a duplicate one an array of such strings.  The operations work on
    the pieces where they lie; the theorems compare them with the same operation on
    the text in one piece, [flat].

    A buffer is the list of its bytes: a chunk holds the buffer that its [data]
    points to and the length that is in use, a read or write outside the buffer is
    [None] of [slice] or a [Bug].  Buffers of different chunks are different.
    [memcmp_fast()] and [tfw_cstricmp()] only pass their arguments to assembly routines
    ([lib/str_simd.S], [fw/str_avx2.S]); the routines and [crc32()] are parameters with their
    documented behaviour (classes [StrSimdOk], [Crc32Ok]).  A build without AVX2, where
    [tfw_cstricmp()] is the kernel's [strncasecmp()], which stops at a zero byte, is not covered.  Allocation from a pool fails or
    succeeds by a parameter of the operation. *)

From S2P Require Import Prelude.

#[local] Open Scope Z_scope.

(** ** Data *)

Definition E2BIG : Z := 7.
Definition ERANGE : Z := 34.
Definition UINT_MAX : Z := 2 ^ 32 - 1.
Definition INT_MAX : Z := 2 ^ 31 - 1.

Definition TFW_STR_DUPLICATE : Z := 0x01.
Definition TFW_STR_VALUE : Z := 0x08.
Definition __TFW_STR_CN_MAX : Z := UINT_MAX.

(** The union of [data] and [chunks] is a pair of fields, of which [nchunks]
    selects one. *)
Inductive TfwStr := MkStr {
  data : bytes;
  chunks : list TfwStr;
  skb : Z;
  len : Z;
  nchunks : Z;
  flags : Z;
  hpack_idx : Z;
  eolen : Z
}.

Definition str_init : TfwStr := MkStr [] [] 0 0 0 0 0 0.

Definition set_data v s := MkStr v (chunks s) (skb s) (len s) (nchunks s) (flags s) (hpack_idx s) (eolen s).
Definition set_chunks v s := MkStr (data s) v (skb s) (len s) (nchunks s) (flags s) (hpack_idx s) (eolen s).
Definition set_len v s := MkStr (data s) (chunks s) (skb s) v (nchunks s) (flags s) (hpack_idx s) (eolen s).
Definition set_nchunks v s := MkStr (data s) (chunks s) (skb s) (len s) v (flags s) (hpack_idx s) (eolen s).
Definition set_flags v s := MkStr (data s) (chunks s) (skb s) (len s) (nchunks s) v (hpack_idx s) (eolen s).

Definition TFW_STR_PLAIN (s : TfwStr) : bool := nchunks s =? 0.
Definition TFW_STR_DUP (s : TfwStr) : bool := has_flag (flags s) TFW_STR_DUPLICATE.

(** The chunks the iteration [TFW_STR_FOR_EACH_CHUNK] visits. *)
Definition str_chunks (s : TfwStr) : list TfwStr :=
  if TFW_STR_PLAIN s then [s] else take (Z.to_nat (nchunks s)) (chunks s).

(** [TFW_STR_CHUNK(s, c)], [NULL] past the last chunk. *)
Definition TFW_STR_CHUNK (s : TfwStr) (c : Z) : option TfwStr :=
  if negb (TFW_STR_PLAIN s) then
    if nchunks s <=? c then None else chunks s !! Z.to_nat c
  else if c =? 0 then Some s else None.

(** [n] bytes of a buffer from [off] on. *)
Definition slice (b : bytes) (off n : Z) : option bytes :=
  if (0 <=? off) && (0 <=? n) && (off + n <=? zlen b)
  then Some (take (Z.to_nat n) (drop (Z.to_nat off) b)) else None.

(** [memcpy] of [src] to [dst + off]. *)
Definition splice (dst : bytes) (off : Z) (src : bytes) : option bytes :=
  if (0 <=? off) && (off + zlen src <=? zlen dst)
  then Some (take (Z.to_nat off) dst ++ src ++ drop (Z.to_nat (off + zlen src)) dst) else None.

(** ** Characters *)

(** [__tfw_lct], the lower case table. *)
Definition TFW_LC (c : Z) : Z := if (0x41 <=? c) && (c <=? 0x5a) then c + 0x20 else c.

Definition fold_case (cs : bool) (b : bytes) : bytes := if cs then b else map TFW_LC b.

(** [memcmp_fast()] and [tfw_cstricmp()] on strings of one length: zero for a match. *)
Class StrSimd := {
  memcmp_fast : bytes -> bytes -> Z;
  tfw_cstricmp : bytes -> bytes -> Z
}.

Class StrSimdOk (S : StrSimd) : Prop := {
  memcmp_fast_spec a b : length a = length b -> memcmp_fast a b = 0 <-> a = b;
  tfw_cstricmp_spec a b :
    length a = length b -> tfw_cstricmp a b = 0 <-> map TFW_LC a = map TFW_LC b
}.

(** ** Comparison *)

Section compare.
Context `{StrSimd}.

(** The loop of [__tfw_strcmp()]: [n] bytes are left to compare; [off1], [off2] are the
    positions in chunks [i1], [i2].  [int] variables are written out with their
    width. *)
Fixpoint strcmp_loop (fuel : nat) (s1 s2 : TfwStr) (cmp : bytes -> bytes -> Z)
    (i1 i2 off1 off2 n : Z) : outcome Z :=
  if n =? 0 then
    Ok (if len s1 =? len s2 then 0 else s32 (len s1 - len s2))
  else match fuel with
  | O => Bug
  | S fuel =>
      match TFW_STR_CHUNK s1 i1, TFW_STR_CHUNK s2 i2 with
      | Some c1, Some c2 =>
          let cn := s32 (Z.min (len c1 - off1) (len c2 - off2)) in
          match slice (data c1) off1 cn, slice (data c2) off2 cn with
          | Some a, Some b =>
              let r := cmp a b in
              if negb (r =? 0) then Ok r
              else
                let '(i1, off1) :=
                  if cn =? len c1 - off1 then (i1 + 1, 0) else (i1, off1 + cn) in
                let '(i2, off2) :=
                  if cn =? len c2 - off2 then (i2 + 1, 0) else (i2, off2 + cn) in
                strcmp_loop fuel s1 s2 cmp i1 i2 off1 off2 (n - cn)
          | _, _ => Bug
          end
      | _, _ => Bug
      end
  end.

Definition strcmp_fuel (s1 s2 : TfwStr) : nat :=
  (length (str_chunks s1) + length (str_chunks s2))%nat.

Definition __tfw_strcmp (s1 s2 : TfwStr) (cs : bool) : outcome Z :=
  let cmp := if cs then memcmp_fast else tfw_cstricmp in
  if has_flag (Z.lor (flags s1) (flags s2)) TFW_STR_DUPLICATE then Bug
  else if (len s1 =? 0) || (len s2 =? 0) then
    Ok (if len s1 =? len s2 then 0 else s32 (len s1 - len s2))
  else strcmp_loop (strcmp_fuel s1 s2) s1 s2 cmp 0 0 0 0 (Z.min (len s1) (len s2)).

(** [__cstricmpspn()] on two strings of the same length. *)
Fixpoint __cstricmpspn (s1 s2 : bytes) (stop : Z) (cs : bool) : Z :=
  match s1, s2 with
  | a :: s1, b :: s2 =>
      let c1 := if cs then a else TFW_LC a in
      let c2 := if cs then b else TFW_LC b in
      if negb (c1 =? c2) then (if c1 <? c2 then -1 else 1)
      else if c1 =? stop then INT_MAX
      else __cstricmpspn s1 s2 stop cs
  | _, _ => 0
  end.

Fixpoint strcmpspn_loop (fuel : nat) (s1 s2 : TfwStr) (stop : Z) (cs : bool)
    (i1 i2 off1 off2 n : Z) : outcome Z :=
  if n =? 0 then
    Ok (if len s1 =? len s2 then 0 else s32 (len s1 - len s2))
  else match fuel with
  | O => Bug
  | S fuel =>
      match TFW_STR_CHUNK s1 i1, TFW_STR_CHUNK s2 i2 with
      | Some c1, Some c2 =>
          let cn := s32 (Z.min (len c1 - off1) (len c2 - off2)) in
          match slice (data c1) off1 cn, slice (data c2) off2 cn with
          | Some a, Some b =>
              let r := __cstricmpspn a b stop cs in
              if r =? INT_MAX then Ok 0
              else if negb (r =? 0) then Ok r
              else
                let '(i1, off1) :=
                  if cn =? len c1 - off1 then (i1 + 1, 0) else (i1, off1 + cn) in
                let '(i2, off2) :=
                  if cn =? len c2 - off2 then (i2 + 1, 0) else (i2, off2 + cn) in
                strcmpspn_loop fuel s1 s2 stop cs i1 i2 off1 off2 (n - cn)
          | _, _ => Bug
          end
      | _, _ => Bug
      end
  end.

Definition __tfw_strcmpspn (s1 s2 : TfwStr) (stop : Z) (cs : bool) : outcome Z :=
  if has_flag (Z.lor (flags s1) (flags s2)) TFW_STR_DUPLICATE then Bug
  else if stop =? 0 then Bug
  else if (len s1 =? 0) || (len s2 =? 0) then
    Ok (if len s1 =? len s2 then 0 else s32 (len s1 - len s2))
  else strcmpspn_loop (strcmp_fuel s1 s2) s1 s2 stop cs 0 0 0 0 (Z.min (len s1) (len s2)).

(** [tfw_str_eq_cstr()]; the flags are [TFW_STR_EQ_PREFIX] and
    [TFW_STR_EQ_CASEI]. *)
Fixpoint eq_cstr_loop (cs : list TfwStr) (cstr : bytes) (clen : Z)
    (prefix casei : bool) : outcome bool :=
  match cs with
  | [] => Ok (clen =? 0)
  | c :: cs =>
      let l := Z.min clen (s32 (len c)) in
      match slice cstr 0 l, slice (data c) 0 l with
      | Some a, Some b =>
          let r := if casei then tfw_cstricmp a b else memcmp_fast a b in
          if negb (r =? 0) then Ok false
          else if clen <? s32 (len c) then Ok prefix
          else eq_cstr_loop cs (drop (Z.to_nat l) cstr) (clen - l) prefix casei
      | _, _ => Bug
      end
  end.

Definition tfw_str_eq_cstr (s : TfwStr) (cstr : bytes) (prefix casei : bool) : outcome bool :=
  if TFW_STR_DUP s then Bug
  else eq_cstr_loop (str_chunks s) cstr (zlen cstr) prefix casei.

(** [tfw_str_eq_cstr_off()]: chunks before the offset are skipped, the chunk with the
    offset is shortened for the time of the comparison. *)
Fixpoint eq_cstr_off_loop (cs : list TfwStr) (offset : Z) (cstr : bytes)
    (prefix casei : bool) : outcome bool :=
  match cs with
  | [] => Ok false
  | c :: cs =>
      if len c <=? offset then eq_cstr_off_loop cs (offset - len c) cstr prefix casei
      else
        let c := set_len (len c - offset) (set_data (drop (Z.to_nat offset) (data c)) c) in
        eq_cstr_loop (c :: cs) cstr (zlen cstr) prefix casei
  end.

Definition tfw_str_eq_cstr_off (s : TfwStr) (offset : Z) (cstr : bytes)
    (prefix casei : bool) : outcome bool :=
  if TFW_STR_DUP s || (zlen cstr =? 0) then Bug
  else if offset <? 0 then Ok false
  else if offset =? 0 then tfw_str_eq_cstr s cstr prefix casei
  else if len s <? offset + zlen cstr then Ok false
  else eq_cstr_off_loop (str_chunks s) offset cstr prefix casei.
End compare.

(** ** Copying *)

(** [tfw_strcpy()] with a compound source and a plain destination. *)
Fixpoint strcpy_to_plain (cs : list TfwStr) (dst : bytes) (o2 : Z) : outcome (bytes * Z) :=
  match cs with
  | [] => Ok (dst, o2)
  | c :: cs =>
      match slice (data c) 0 (len c) with
      | Some b =>
          match splice dst o2 b with
          | Some dst => strcpy_to_plain cs dst (s32 (o2 + len c))
          | None => Bug
          end
      | None => Bug
      end
  end.

(** A plain source and a compound destination: chunks are filled until [slen] bytes
    are copied; returns the chunks and how many were used. *)
Fixpoint strcpy_from_plain (c2s : list TfwStr) (src : bytes) (slen o1 : Z)
    : outcome (list TfwStr * Z) :=
  if slen <=? o1 then Ok (c2s, 0)
  else match c2s with
  | [] => Bug
  | c2 :: c2s =>
      let l := Z.min (len c2) (slen - o1) in
      match slice src o1 l with
      | Some b =>
          match splice (data c2) 0 b with
          | Some d =>
              match strcpy_from_plain c2s src slen (s32 (o1 + l)) with
              | Ok (r, k) => Ok (set_len l (set_data d c2) :: r, k + 1)
              | Bug => Bug
              end
          | None => Bug
          end
      | None => Bug
      end
  end.

(** Both are compound: [o1] and [o2] are the positions in the first chunks of the
    lists. *)
Fixpoint strcpy_chunks (fuel : nat) (c1s c2s : list TfwStr) (o1 o2 : Z)
    : outcome (list TfwStr * Z) :=
  match fuel, c1s, c2s with
  | S fuel, c1 :: r1, c2 :: r2 =>
      let n := s32 (Z.min (len c1 - o1) (len c2 - o2)) in
      match slice (data c1) o1 n with
      | Some b =>
          match splice (data c2) o2 b with
          | Some d =>
              let c2 := set_data d c2 in
              if (match r1 with [] => true | _ => false end) && (n =? len c1 - o1) then
                Ok (set_len (o2 + n) c2 :: r2, 1)
              else if len c1 - o1 =? len c2 - o2 then
                match strcpy_chunks fuel r1 r2 0 0 with
                | Ok (r, k) => Ok (c2 :: r, k + 1)
                | Bug => Bug
                end
              else if n =? len c1 - o1 then strcpy_chunks fuel r1 (c2 :: r2) 0 (o2 + n)
              else
                match strcpy_chunks fuel c1s r2 (o1 + n) 0 with
                | Ok (r, k) => Ok (c2 :: r, k + 1)
                | Bug => Bug
                end
          | None => Bug
          end
      | None => Bug
      end
  | _, _, _ => Bug
  end.

Definition tfw_strcpy (dst src : TfwStr) : outcome (Z * TfwStr) :=
  if TFW_STR_DUP dst || TFW_STR_DUP src then Bug
  else if len dst <? len src then Ok (- E2BIG, dst)
  else
    let fin d k := Ok (0, set_len (len src) (set_nchunks k d)) in
    match TFW_STR_PLAIN src, TFW_STR_PLAIN dst with
    | true, true =>
        match slice (data src) 0 (Z.min (len src) (len dst)) with
        | Some b =>
            match splice (data dst) 0 b with
            | Some d => fin (set_data d dst) 0
            | None => Bug
            end
        | None => Bug
        end
    | false, true =>
        match strcpy_to_plain (str_chunks src) (data dst) 0 with
        | Ok (d, o2) => if negb (o2 =? len src) then Bug else fin (set_data d dst) 0
        | Bug => Bug
        end
    | true, false =>
        match strcpy_from_plain (str_chunks dst) (data src) (len src) 0 with
        | Ok (cs, k) =>
            fin (set_chunks (cs ++ drop (Z.to_nat (nchunks dst)) (chunks dst)) dst) k
        | Bug => Bug
        end
    | false, false =>
        match strcpy_chunks (length (str_chunks src) + length (str_chunks dst))
                (str_chunks src) (str_chunks dst) 0 0 with
        | Ok (cs, k) =>
            fin (set_chunks (cs ++ drop (Z.to_nat (nchunks dst)) (chunks dst)) dst) k
        | Bug => Bug
        end
    end.

(** What [strncpy()] writes for a source of the given length: behind a NUL it
    fills with NULs. *)
Fixpoint strncpy (b : bytes) : bytes :=
  match b with
  | [] => []
  | c :: b => if c =? 0 then 0 :: replicate (length b) 0 else c :: strncpy b
  end.

(** [tfw_str_to_cstr()]: the result is what the buffer holds before the
    terminating NUL. *)
Fixpoint to_cstr_loop (cs : list TfwStr) (buf_size : Z) (out : bytes) : outcome bytes :=
  match cs with
  | [] => Ok out
  | c :: cs =>
      let l := Z.min buf_size (s32 (len c)) in
      match slice (data c) 0 l with
      | Some b =>
          if buf_size - l =? 0 then Ok (out ++ strncpy b)
          else to_cstr_loop cs (buf_size - l) (out ++ strncpy b)
      | None => Bug
      end
  end.

Definition tfw_str_to_cstr (s : TfwStr) (buf_size : Z) : outcome bytes :=
  if buf_size <=? 0 then Bug
  else if TFW_STR_DUP s then Bug
  else to_cstr_loop (str_chunks s) (buf_size - 1) [].

(** ** Growing and editing *)

(** [__str_grow_tree()]: [n] zeroed elements behind the old ones; [None] when the
    allocation fails. *)
Definition __str_grow_tree (alloc_ok : bool) (s : TfwStr) (flag n : Z) : option TfwStr :=
  let fresh := replicate (Z.to_nat n) str_init in
  if has_flag (flags s) flag || ((flag =? 0) && negb (nchunks s =? 0)) then
    if __TFW_STR_CN_MAX <=? nchunks s then None
    else if negb alloc_ok then None
    else Some (set_nchunks (u32 (nchunks s + n))
                 (set_chunks (take (Z.to_nat (nchunks s)) (chunks s) ++ fresh) s))
  else if negb alloc_ok then None
  else Some (set_nchunks (u32 (n + 1)) (set_chunks (s :: fresh) s)).

Definition tfw_str_add_compound (alloc_ok : bool) (s : TfwStr) : outcome (option TfwStr) :=
  if TFW_STR_DUP s then Bug else Ok (__str_grow_tree alloc_ok s 0 1).

(** The length and the flag are changed also when the allocation fails. *)
Definition tfw_str_add_duplicate (alloc_ok : bool) (s : TfwStr) : bool * TfwStr :=
  let mark s := set_flags (Z.lor (flags s) TFW_STR_DUPLICATE) (set_len 0 s) in
  match __str_grow_tree alloc_ok s TFW_STR_DUPLICATE 1 with
  | Some s' => (true, mark s')
  | None => (false, mark s)
  end.

(** [__tfw_str_insert()]: the chunks of [src] go in front of chunk [chunk] of [dst]. *)
Definition __tfw_str_insert (alloc_ok : bool) (dst src : TfwStr) (chunk : Z)
    : outcome (Z * TfwStr) :=
  let n := if nchunks src =? 0 then 1 else nchunks src in
  let last_chunk := if TFW_STR_PLAIN dst then 1 else nchunks dst in
  if TFW_STR_DUP dst || TFW_STR_DUP src then Bug
  else match __str_grow_tree alloc_ok dst 0 n with
  | None => Ok (- ENOMEM, dst)
  | Some dst =>
      let old := chunks dst in
      let pos := Z.to_nat (if negb (chunk =? last_chunk) then chunk else nchunks dst - n) in
      let moved :=
        if negb (chunk =? last_chunk) then
          take (Z.to_nat (nchunks dst - chunk - n)) (drop pos old)
        else drop (pos + Z.to_nat n) old in
      let cs := take pos old ++ str_chunks src ++ moved in
      Ok (0, set_len (len dst + s32 (foldr (fun c z => len c + z) 0 (str_chunks src)))
               (set_chunks cs dst))
  end.

Definition tfw_str_insert (alloc_ok : bool) (dst src : TfwStr) (chunk : Z) : outcome (Z * TfwStr) :=
  if (if TFW_STR_PLAIN dst then 1 else nchunks dst) <? chunk then Ok (- ERANGE, dst)
  else __tfw_str_insert alloc_ok dst src chunk.

Definition tfw_strcat (alloc_ok : bool) (dst src : TfwStr) : outcome (Z * TfwStr) :=
  __tfw_str_insert alloc_ok dst src (if TFW_STR_PLAIN dst then 1 else nchunks dst).

Definition tfw_str_del_chunk (s : TfwStr) (id : Z) : outcome TfwStr :=
  let cn := nchunks s in
  if TFW_STR_PLAIN s then Ok s
  else if TFW_STR_DUP s then Bug
  else if cn <=? id then Bug
  else if cn =? 2 then
    match chunks s !! Z.to_nat (Z.lxor id 1) with Some c => Ok c | None => Bug end
  else match TFW_STR_CHUNK s id with
  | Some c =>
      Ok (set_chunks (take (Z.to_nat id) (chunks s) ++
                      take (Z.to_nat (cn - id - 1)) (drop (Z.to_nat (id + 1)) (chunks s)) ++
                      drop (Z.to_nat (cn - 1)) (chunks s))
            (set_nchunks (cn - 1) (set_len (len s - len c) s)))
  | None => Bug
  end.

(** [tfw_str_collect_cmp()]: [cs] are the chunks from [chunk] to [end]; the stop
    character is tested at the beginning of a chunk. *)
Definition starts_with (stop : option Z) (c : TfwStr) : bool :=
  match stop with
  | Some ch => match data c with b :: _ => b =? ch | [] => false end
  | None => false
  end.

Fixpoint collect (cs : list TfwStr) (stop : option Z) : list TfwStr :=
  match cs with
  | [] => []
  | c :: cs => if starts_with stop c then [] else c :: collect cs stop
  end.

Definition tfw_str_collect_cmp (cs : list TfwStr) (stop : option Z) : outcome TfwStr :=
  match cs with
  | [] => Ok str_init
  | c :: rest =>
      if negb (TFW_STR_PLAIN c) then Bug
      else if match rest with [] => true | next :: _ => starts_with stop next end then Ok c
      else
        let out := collect cs stop in
        if (length out <? 2)%nat then Bug
        else Ok (MkStr [] cs 0 (foldr (fun c z => len c + z) 0 out) (zlen out) 0 0 0)
  end.

(** [tfw_str_next_str_val()]: the string from the next value on. *)
Fixpoint next_val (cs : list TfwStr) (skip : bool) (l nc : Z) : list TfwStr * Z * Z :=
  match cs with
  | [] => ([], l, nc)
  | c :: rest =>
      if negb skip && has_flag (flags c) TFW_STR_VALUE then (cs, l, nc)
      else next_val rest (if negb (has_flag (flags c) TFW_STR_VALUE) then false else skip)
             (l - len c) (nc - 1)
  end.

Definition tfw_str_next_str_val (s : TfwStr) : outcome TfwStr :=
  if TFW_STR_DUP s then Bug
  else if TFW_STR_PLAIN s then Ok str_init
  else match next_val (str_chunks s) true (len s) (nchunks s) with
  | ([], _, _) => Ok str_init
  | (cs, l, nc) => Ok (MkStr [] cs 0 l nc 0 0 0)
  end.

(** ** Checksums and numbers *)

(** [crc32()] of the kernel and that it works piece by piece. *)
Class Crc32 := crc32 : Z -> bytes -> Z.
Class Crc32Ok (C : Crc32) : Prop := {
  crc32_nil c : crc32 c [] = c;
  crc32_app c a b : crc32 (crc32 c a) b = crc32 c (a ++ b)
}.

Fixpoint crc32_loop `{Crc32} (cs : list TfwStr) (crc : Z) : outcome Z :=
  match cs with
  | [] => Ok crc
  | c :: cs =>
      match slice (data c) 0 (len c) with
      | Some b => crc32_loop cs (crc32 crc b)
      | None => Bug
      end
  end.

Definition tfw_str_crc32_calc `{Crc32} (s : TfwStr) : outcome Z :=
  if TFW_STR_DUP s then Bug else crc32_loop (str_chunks s) 0.

(** [__dig_num_dec()] and [__dig_num_hex()]. *)
Definition __dig_num_dec (a : Z) : Z :=
  if a <? 10 then 1 else if a <? 100 then 2 else if a <? 1000 then 3
  else if a <? 10000 then 4 else if a <? 100000 then 5 else if a <? 1000000 then 6
  else if a <? 10000000 then 7 else if a <? 100000000 then 8
  else if a <? 1000000000 then 9 else if a <? 10000000000 then 10
  else if a <? 100000000000 then 11 else if a <? 1000000000000 then 12
  else if a <? 10000000000000 then 13 else if a <? 100000000000000 then 14
  else if a <? 1000000000000000 then 15 else if a <? 10000000000000000 then 16
  else if a <? 100000000000000000 then 17 else if a <? 1000000000000000000 then 18
  else if a <? 10000000000000000000 then 19 else 20.

Definition __dig_num_hex (a : Z) : Z := if a =? 0 then 1 else Z.log2 a / 4 + 1.

Definition digit (d : Z) : Z := if d <? 10 then 0x30 + d else 0x61 + (d - 10).

(** The loop that writes the digits from the last to the first, [p] bytes in front of
    the end; a write before the buffer is a [Bug]. *)
Fixpoint digits_loop (fuel : nat) (base ai p : Z) (buf : bytes) : outcome bytes :=
  match fuel with
  | O => Bug
  | S fuel =>
      match splice buf (p - 1) [digit (ai mod base)] with
      | Some buf =>
          if ai / base =? 0 then Ok buf else digits_loop fuel base (ai / base) (p - 1) buf
      | None => Bug
      end
  end.

Definition tfw_ultoa (ai : Z) (buf : bytes) (l : Z) : outcome (Z * bytes) :=
  let n := __dig_num_dec ai in
  if l <? n then Ok (0, buf)
  else match digits_loop 20 10 ai n buf with
  | Ok buf => Ok (n, buf)
  | Bug => Bug
  end.

Definition tfw_ultohex (ai : Z) (buf : bytes) (l : Z) : outcome (Z * bytes) :=
  let n := __dig_num_hex ai in
  if l <? n then Ok (0, buf)
  else match digits_loop 16 16 ai n buf with
  | Ok buf => Ok (n, buf)
  | Bug => Bug
  end.

(** ** Well-formed strings and their text *)

Definition text (c : TfwStr) : bytes := take (Z.to_nat (len c)) (data c).
Definition texts (cs : list TfwStr) : bytes := concat (map text cs).
Definition flat (s : TfwStr) : bytes := texts (str_chunks s).

Definition chunk_ok (c : TfwStr) : Prop := TFW_STR_PLAIN c = true /\ 0 <= len c <= zlen (data c).

(** A plain or compound string shorter than 2 GB. *)
Record str_ok (s : TfwStr) : Prop := {
  ok_dup : TFW_STR_DUP s = false;
  ok_nchunks : 0 <= nchunks s <= zlen (chunks s) \/ nchunks s = 0;
  ok_chunks : Forall chunk_ok (str_chunks s);
  ok_len : len s = zlen (flat s);
  ok_max : len s < 2 ^ 31
}.

Create HintDb str.

Lemma zlen_text c : chunk_ok c -> zlen (text c) = len c.
Proof. intros [_ H]. unfold text, zlen in *. rewrite length_take. lia. Qed.

Lemma texts_cons c cs : texts (c :: cs) = text c ++ texts cs.
Proof. done. Qed.

Lemma texts_app cs cs' : texts (cs ++ cs') = texts cs ++ texts cs'.
Proof. unfold texts. by rewrite map_app, concat_app. Qed.

Lemma zlen_texts cs : Forall chunk_ok cs -> zlen (texts cs) = foldr (fun c z => len c + z) 0 cs.
Proof.
  induction 1 as [|c cs Hc Hcs IH]; [done |].
  rewrite texts_cons, zlen_app, zlen_text, IH by done. done.
Qed.

Lemma slice_some b off n :
  0 <= off -> 0 <= n -> off + n <= zlen b ->
  slice b off n = Some (take (Z.to_nat n) (drop (Z.to_nat off) b)).
Proof. intros. unfold slice. by repeat (rewrite (proj2 (Z.leb_le _ _)); [| lia]). Qed.

Lemma splice_some d off b :
  0 <= off -> off + zlen b <= zlen d ->
  splice d off b = Some (take (Z.to_nat off) d ++ b ++ drop (Z.to_nat (off + zlen b)) d).
Proof. intros. unfold splice. by repeat (rewrite (proj2 (Z.leb_le _ _)); [| lia]). Qed.

(** The bytes of a chunk from an offset on start with what [slice] reads. *)
Lemma slice_text c off n :
  chunk_ok c -> 0 <= off -> 0 <= n -> off + n <= len c ->
  exists a, slice (data c) off n = Some a /\ zlen a = n /\
            drop (Z.to_nat off) (text c) = a ++ drop (Z.to_nat (off + n)) (text c).
Proof.
  intros [_ Hc] Ho Hn Hl. eexists. split; [apply slice_some; lia |]. split.
  - apply zlen_take. rewrite zlen_drop by lia. lia.
  - unfold text. rewrite Z2Nat.inj_add by lia.
    rewrite <- (take_drop (Z.to_nat n) (drop (Z.to_nat off) (take (Z.to_nat (len c)) (data c)))) at 1.
    rewrite drop_drop. f_equal.
    rewrite skipn_firstn_comm, take_take.
    f_equal. lia.
Qed.

(** [at_pos cs off b]: [b] is the text from offset [off] of the first chunk of [cs] on. *)
Definition at_pos (cs : list TfwStr) (off : Z) (b : bytes) : Prop :=
  Forall chunk_ok cs /\
  match cs with
  | [] => b = [] /\ off = 0
  | c :: cs => 0 <= off <= len c /\ b = drop (Z.to_nat off) (text c) ++ texts cs
  end.

Lemma at_pos_start cs : Forall chunk_ok cs -> at_pos cs 0 (texts cs).
Proof. intros H. split; [done |]. destruct cs; [done |]. apply Forall_cons in H as [[? ?] ?]. split; [lia | done]. Qed.

(** Reading [n] bytes of the first chunk and the position behind them. *)
Lemma at_pos_read c cs off b n :
  at_pos (c :: cs) off b -> 0 <= n <= len c - off ->
  exists a b', slice (data c) off n = Some a /\ zlen a = n /\ b = a ++ b' /\
    if n =? len c - off then at_pos cs 0 b' else at_pos (c :: cs) (off + n) b'.
Proof.
  intros [Hok [Ho ->]] Hn. pose proof Hok as Hok'. apply Forall_cons in Hok' as [Hc Hcs].
  destruct (slice_text c off n Hc) as (a & Ha & Hl & Hd); [lia.. |].
  exists a, (drop (Z.to_nat (off + n)) (text c) ++ texts cs). split_and!; [done | done | |].
  - by rewrite Hd, <- app_assoc.
  - destruct (n =? len c - off) eqn:E; bool_hyps.
    + rewrite drop_ge; [by apply at_pos_start |].
      pose proof (zlen_text c Hc). unfold zlen in *. lia.
    + split; [done |]. split; [lia | done].
Qed.

Lemma str_chunk_lookup s i : 0 <= i -> TFW_STR_CHUNK s i = str_chunks s !! Z.to_nat i.
Proof.
  intros Hi. unfold TFW_STR_CHUNK, str_chunks. destruct (TFW_STR_PLAIN s) eqn:Hp; simpl.
  - destruct (i =? 0) eqn:E; bool_hyps; [by subst |].
    destruct (Z.to_nat i) eqn:En; [lia | done].
  - destruct (nchunks s <=? i) eqn:E; bool_hyps.
    + symmetry. apply lookup_take_ge. lia.
    + rewrite lookup_take_lt; [done | lia].
Qed.

(** The chunk at an index and what lies behind it. *)
Lemma str_chunk_drop s i :
  0 <= i ->
  match drop (Z.to_nat i) (str_chunks s) with
  | [] => TFW_STR_CHUNK s i = None
  | c :: cs => TFW_STR_CHUNK s i = Some c /\ cs = drop (Z.to_nat (i + 1)) (str_chunks s)
  end.
Proof.
  intros Hi. rewrite str_chunk_lookup by done.
  destruct (str_chunks s !! Z.to_nat i) as [c|] eqn:E.
  - rewrite (drop_S _ _ _ E). split; [done |]. f_equal. lia.
  - rewrite drop_ge; [done |]. by apply lookup_ge_None.
Qed.

Lemma fold_case_app cs a b : fold_case cs (a ++ b) = fold_case cs a ++ fold_case cs b.
Proof. destruct cs; [done |]. apply map_app. Qed.

Lemma length_fold_case cs a : length (fold_case cs a) = length a.
Proof. destruct cs; [done |]. apply length_map. Qed.

Lemma fold_app_inj cs a b a' b' :
  length a = length b -> fold_case cs (a ++ a') = fold_case cs (b ++ b') ->
  fold_case cs a = fold_case cs b /\ fold_case cs a' = fold_case cs b'.
Proof.
  intros Hl. rewrite !fold_case_app. intros E. apply app_inj_1 in E; [done |].
  by rewrite !length_fold_case.
Qed.

(** ** Comparison equals comparison of the texts *)

(** What a comparison result says about two texts, up to case when [cs] is off. *)
Definition cmp_result (cs : bool) (a b : bytes) (r : Z) : Prop :=
  (r = 0 <-> fold_case cs a = fold_case cs b) /\
  (forall t, t <> [] -> fold_case cs b = fold_case cs a ++ t -> r < 0) /\
  (forall t, t <> [] -> fold_case cs a = fold_case cs b ++ t -> 0 < r).

Lemma cmp_result_cons cs a b a' b' r :
  length a = length b -> fold_case cs a = fold_case cs b ->
  cmp_result cs a' b' r -> cmp_result cs (a ++ a') (b ++ b') r.
Proof.
  intros Hl Hf (H0 & Hlt & Hgt). unfold cmp_result. rewrite !fold_case_app, Hf. split_and!.
  - rewrite H0. split; [by intros -> | by intros ?%app_inv_head].
  - intros t Ht E. rewrite <- app_assoc in E. apply app_inv_head in E. eauto.
  - intros t Ht E. rewrite <- app_assoc in E. apply app_inv_head in E. eauto.
Qed.

Lemma cmp_result_diff cs a b a' b' r :
  length a = length b -> fold_case cs a <> fold_case cs b -> r <> 0 ->
  cmp_result cs (a ++ a') (b ++ b') r.
Proof.
  intros Hl Hf Hr. unfold cmp_result. rewrite !fold_case_app.
  assert (Hl' : length (fold_case cs a) = length (fold_case cs b)) by by rewrite !length_fold_case.
  split_and!.
  - split; [done |]. intros E. by apply app_inj_1 in E as [? _].
  - intros t Ht E. rewrite <- app_assoc in E. symmetry in E. by apply app_inj_1 in E as [? _].
  - intros t Ht E. rewrite <- app_assoc in E. by apply app_inj_1 in E as [? _].
Qed.

(** One of the texts is at its end: the lengths decide. *)
Lemma cmp_result_end cs a b d :
  Z.min (zlen a) (zlen b) = 0 -> zlen a - zlen b = d -> - 2 ^ 31 <= d < 2 ^ 31 ->
  cmp_result cs a b (if d =? 0 then 0 else s32 d).
Proof.
  intros Hmin Hd Hr. rewrite s32_small by done.
  assert (Hla : zlen (fold_case cs a) = zlen a) by (unfold zlen; by rewrite length_fold_case).
  assert (Hlb : zlen (fold_case cs b) = zlen b) by (unfold zlen; by rewrite length_fold_case).
  pose proof (zlen_nonneg a). pose proof (zlen_nonneg b).
  assert (Hpos : forall t : bytes, t <> [] -> 0 < zlen t)
    by (intros [|] ?; [done | unfold zlen; simpl; lia]).
  unfold cmp_result. split_and!.
  - split.
    + intros E. assert (zlen a = 0 /\ zlen b = 0) as [Ea Eb] by (destruct (d =? 0) eqn:?; bool_hyps; lia).
      apply zlen_nil_inv in Ea, Eb. by subst.
    + intros E. apply (f_equal zlen) in E. rewrite Hla, Hlb in E.
      rewrite (proj2 (Z.eqb_eq d 0)) by lia. done.
  - intros t Ht E. apply (f_equal zlen) in E. rewrite zlen_app, Hla, Hlb in E.
    specialize (Hpos t Ht). destruct (d =? 0) eqn:?; bool_hyps; lia.
  - intros t Ht E. apply (f_equal zlen) in E. rewrite zlen_app, Hla, Hlb in E.
    specialize (Hpos t Ht). destruct (d =? 0) eqn:?; bool_hyps; lia.
Qed.

(** Where a reader of [s] is behind [n] bytes of chunk [i] from [off] on. *)
Definition next_pos (c : TfwStr) (i off n : Z) : Z * Z :=
  if n =? len c - off then (i + 1, 0) else (i, off + n).

Definition at_idx (s : TfwStr) (p : Z * Z) (b : bytes) : Prop :=
  0 <= p.1 /\ at_pos (drop (Z.to_nat p.1) (str_chunks s)) p.2 b.

Definition left_chunks (s : TfwStr) (p : Z * Z) : nat := length (drop (Z.to_nat p.1) (str_chunks s)).

Lemma at_idx_read s i off b c n :
  at_idx s (i, off) b -> TFW_STR_CHUNK s i = Some c -> 0 <= n <= len c - off ->
  exists a b', slice (data c) off n = Some a /\ zlen a = n /\ b = a ++ b' /\
    at_idx s (next_pos c i off n) b' /\
    (left_chunks s (next_pos c i off n) <= left_chunks s (i, off))%nat /\
    (n = len c - off -> (left_chunks s (next_pos c i off n) < left_chunks s (i, off))%nat).
Proof.
  intros [Hi Hat] Hc Hn. simpl in *. pose proof (str_chunk_drop s i Hi) as Hd.
  destruct (drop (Z.to_nat i) (str_chunks s)) as [|c0 cs] eqn:E; [congruence |].
  destruct Hd as [Hd Hcs]. assert (c0 = c) as -> by congruence.
  destruct (at_pos_read c cs off b n Hat Hn) as (a & b' & Hs & Hl & Hb & Hnext).
  exists a, b'. unfold next_pos, left_chunks.
  destruct (n =? len c - off) eqn:En; simpl; bool_hyps; rewrite ?E; split_and!; try done; simpl.
  - split; simpl; [lia |]. by rewrite <- Hcs.
  - rewrite <- Hcs. lia.
  - intros _. rewrite <- Hcs. lia.
  - split; simpl; [done |]. by rewrite E.
Qed.

Lemma at_idx_some s i off b :
  at_idx s (i, off) b -> b <> [] ->
  exists c, TFW_STR_CHUNK s i = Some c /\ 0 <= off <= len c /\ len c - off <= zlen b.
Proof.
  intros [Hi [Hok Hat]] Hb. simpl in *. pose proof (str_chunk_drop s i Hi) as Hd.
  destruct (drop (Z.to_nat i) (str_chunks s)) as [|c cs]; [by destruct Hat |].
  destruct Hd as [Hd _], Hat as [Ho ->]. exists c. split_and!; [done | lia | lia |].
  apply Forall_cons in Hok as [Hc _]. rewrite zlen_app. pose proof (zlen_text c Hc) as Hl.
  rewrite zlen_drop by (rewrite Hl; lia). pose proof (zlen_nonneg (texts cs)). lia.
Qed.

(** Two readers side by side: one round of the comparison loops. *)
Lemma pair_read s1 s2 i1 i2 off1 off2 b1 b2 :
  at_idx s1 (i1, off1) b1 -> at_idx s2 (i2, off2) b2 ->
  Z.min (zlen b1) (zlen b2) <> 0 -> zlen b1 < 2 ^ 31 ->
  exists c1 c2 cn a1 a2 b1' b2',
    TFW_STR_CHUNK s1 i1 = Some c1 /\ TFW_STR_CHUNK s2 i2 = Some c2 /\
    s32 (Z.min (len c1 - off1) (len c2 - off2)) = cn /\
    slice (data c1) off1 cn = Some a1 /\ slice (data c2) off2 cn = Some a2 /\
    zlen a1 = cn /\ zlen a2 = cn /\ b1 = a1 ++ b1' /\ b2 = a2 ++ b2' /\
    at_idx s1 (next_pos c1 i1 off1 cn) b1' /\ at_idx s2 (next_pos c2 i2 off2 cn) b2' /\
    (left_chunks s1 (next_pos c1 i1 off1 cn) + left_chunks s2 (next_pos c2 i2 off2 cn) <
     left_chunks s1 (i1, off1) + left_chunks s2 (i2, off2))%nat.
Proof.
  intros H1 H2 Hmin Hmax. pose proof (zlen_nonneg b1). pose proof (zlen_nonneg b2).
  assert (b1 <> [] /\ b2 <> []) as [Hb1 Hb2]
    by (split; intros ->; unfold zlen in *; simpl in *; lia).
  destruct (at_idx_some _ _ _ _ H1 Hb1) as (c1 & Hc1 & Ho1 & Hl1).
  destruct (at_idx_some _ _ _ _ H2 Hb2) as (c2 & Hc2 & Ho2 & Hl2).
  set (cn := Z.min (len c1 - off1) (len c2 - off2)).
  destruct (at_idx_read s1 i1 off1 b1 c1 cn H1 Hc1) as (a1 & b1' & ? & ? & ? & ? & ? & Hd1); [lia |].
  destruct (at_idx_read s2 i2 off2 b2 c2 cn H2 Hc2) as (a2 & b2' & ? & ? & ? & ? & ? & Hd2); [lia |].
  exists c1, c2, cn, a1, a2, b1', b2'. split_and!; try done; [apply s32_small; lia |].
  destruct (decide (cn = len c1 - off1)) as [E|E]; [specialize (Hd1 E); lia |].
  specialize (Hd2 ltac:(lia)). lia.
Qed.

Section compare_proofs.
Context `{SI : StrSimd, SO : !StrSimdOk SI}.

Lemma cmp_fold (cs : bool) a b :
  length a = length b ->
  (if cs then memcmp_fast else tfw_cstricmp) a b = 0 <-> fold_case cs a = fold_case cs b.
Proof. intros. destruct cs; [by apply memcmp_fast_spec | by apply tfw_cstricmp_spec]. Qed.

Lemma strcmp_loop_ok fuel s1 s2 (cs : bool) p1 p2 b1 b2 :
  at_idx s1 p1 b1 -> at_idx s2 p2 b2 -> len s1 - len s2 = zlen b1 - zlen b2 ->
  zlen b1 < 2 ^ 31 -> zlen b2 < 2 ^ 31 ->
  (left_chunks s1 p1 + left_chunks s2 p2 <= fuel)%nat ->
  exists r, strcmp_loop fuel s1 s2 (if cs then memcmp_fast else tfw_cstricmp)
              p1.1 p2.1 p1.2 p2.2 (Z.min (zlen b1) (zlen b2)) = Ok r /\
            cmp_result cs b1 b2 r.
Proof.
  revert p1 p2 b1 b2. induction fuel as [|fuel IH]; intros [i1 off1] [i2 off2] b1 b2 H1 H2 Hd Hm1 Hm2 Hf;
    simpl fst; simpl snd; cbn [strcmp_loop];
    pose proof (zlen_nonneg b1); pose proof (zlen_nonneg b2).
  all: destruct (Z.min (zlen b1) (zlen b2) =? 0) eqn:En; bool_hyps.
  1, 3: eexists; split; [reflexivity |];
    replace (len s1 =? len s2) with (zlen b1 - zlen b2 =? 0)
      by (apply eq_true_iff_eq; rewrite !Z.eqb_eq; lia);
    rewrite Hd; by apply cmp_result_end; [| | lia].
  - destruct (pair_read _ _ _ _ _ _ _ _ H1 H2 En Hm1) as (? & ? & ? & ? & ? & ? & ? & ? & ? & ? & ? & ? & ? & ? & ? & ? & ? & ? & ?). lia.
  - destruct (pair_read _ _ _ _ _ _ _ _ H1 H2 En Hm1)
      as (c1 & c2 & cn & a1 & a2 & b1' & b2' & -> & -> & -> & -> & -> & La1 & La2 & -> & -> & N1 & N2 & Hl).
    assert (Hla : length a1 = length a2) by (unfold zlen in *; lia).
    pose proof (zlen_nonneg a1). rewrite !zlen_app in *. rewrite La1, La2 in *.
    destruct ((if cs then memcmp_fast else tfw_cstricmp) a1 a2 =? 0) eqn:Er; simpl; bool_hyps.
    + apply (cmp_fold cs) in Er; [| done].
      destruct (IH _ _ _ _ N1 N2) as (r & Hr & Hres); [lia.. |].
      exists r. split; [| by apply cmp_result_cons].
      rewrite <- Hr. unfold next_pos.
      replace (Z.min (cn + zlen b1') (cn + zlen b2') - cn) with (Z.min (zlen b1') (zlen b2')) by lia.
      by destruct (cn =? len c1 - off1), (cn =? len c2 - off2).
    + eexists. split; [done |]. apply cmp_result_diff; [done | | done].
      by rewrite <- (cmp_fold cs).
Qed.

Lemma at_idx_start s : str_ok s -> at_idx s (0, 0) (flat s).
Proof. intros H. split; simpl; [done |]. apply at_pos_start, ok_chunks, H. Qed.

Lemma dup_lor s1 s2 :
  TFW_STR_DUP s1 = false -> TFW_STR_DUP s2 = false ->
  has_flag (Z.lor (flags s1) (flags s2)) TFW_STR_DUPLICATE = false.
Proof.
  unfold TFW_STR_DUP, has_flag. intros H1 H2. bool_hyps.
  rewrite Z.land_lor_distr_l, H1, H2. done.
Qed.

Lemma strcmp_ok s1 s2 cs :
  str_ok s1 -> str_ok s2 -> exists r, __tfw_strcmp s1 s2 cs = Ok r /\ cmp_result cs (flat s1) (flat s2) r.
Proof.
  intros H1 H2. unfold __tfw_strcmp. rewrite dup_lor by (by apply ok_dup).
  pose proof (ok_len _ H1) as L1. pose proof (ok_len _ H2) as L2.
  pose proof (ok_max _ H1). pose proof (ok_max _ H2).
  pose proof (zlen_nonneg (flat s1)). pose proof (zlen_nonneg (flat s2)).
  destruct (_ || _) eqn:E.
  - eexists. split; [reflexivity |].
    replace (len s1 =? len s2) with (len s1 - len s2 =? 0)
      by (apply eq_true_iff_eq; rewrite !Z.eqb_eq; lia).
    apply cmp_result_end; [| lia..]. apply orb_true_iff in E as [E|E]; bool_hyps; lia.
  - rewrite L1, L2. apply (strcmp_loop_ok _ s1 s2 cs (0, 0) (0, 0)); try lia; try by apply at_idx_start.
    unfold left_chunks, strcmp_fuel. simpl. by rewrite !drop_0.
Qed.
End compare_proofs.

(** [__tfw_strcmpspn()] on texts: the first difference decides, [stop] ends the comparison with a
    match, [d] is the result when one text ends. *)
Fixpoint spn_ref (a b : bytes) (stop d : Z) : Z :=
  match a, b with
  | x :: a, y :: b =>
      if x =? y then if x =? stop then 0 else spn_ref a b stop d
      else if x <? y then -1 else 1
  | _, _ => d
  end.

Lemma cstricmpspn_ref cs a b a' b' stop d :
  length a = length b ->
  spn_ref (fold_case cs (a ++ a')) (fold_case cs (b ++ b')) stop d =
  let r := __cstricmpspn a b stop cs in
  if r =? INT_MAX then 0
  else if negb (r =? 0) then r
  else spn_ref (fold_case cs a') (fold_case cs b') stop d.
Proof.
  rewrite !fold_case_app. revert b. induction a as [|x a IH]; intros [|y b] Hl; try done.
  - by destruct cs.
  - specialize (IH b ltac:(simpl in Hl; lia)).
    destruct cs; simpl in *.
    + destruct (x =? y); simpl; [destruct (x =? stop); [done | exact IH] |]. by destruct (x <? y).
    + destruct (TFW_LC x =? TFW_LC y); simpl; [destruct (TFW_LC x =? stop); [done | exact IH] |].
      by destruct (TFW_LC x <? TFW_LC y).
Qed.

Lemma spn_ref_end cs a b stop d :
  Z.min (zlen a) (zlen b) = 0 -> spn_ref (fold_case cs a) (fold_case cs b) stop d = d.
Proof.
  intros H. pose proof (zlen_nonneg a). pose proof (zlen_nonneg b).
  destruct a, b; unfold zlen in *; simpl in *; try lia; by destruct cs.
Qed.

Lemma strcmpspn_loop_ok fuel s1 s2 stop cs p1 p2 b1 b2 :
  at_idx s1 p1 b1 -> at_idx s2 p2 b2 -> - 2 ^ 31 <= len s1 - len s2 < 2 ^ 31 ->
  zlen b1 < 2 ^ 31 -> (left_chunks s1 p1 + left_chunks s2 p2 <= fuel)%nat ->
  strcmpspn_loop fuel s1 s2 stop cs p1.1 p2.1 p1.2 p2.2 (Z.min (zlen b1) (zlen b2)) =
  Ok (spn_ref (fold_case cs b1) (fold_case cs b2) stop (len s1 - len s2)).
Proof.
  revert p1 p2 b1 b2. induction fuel as [|fuel IH]; intros [i1 off1] [i2 off2] b1 b2 H1 H2 Hd Hm1 Hf;
    simpl fst; simpl snd; cbn [strcmpspn_loop].
  all: destruct (Z.min (zlen b1) (zlen b2) =? 0) eqn:En; bool_hyps.
  1, 3: rewrite spn_ref_end, s32_small by done; f_equal; destruct (len s1 =? len s2) eqn:E; bool_hyps; lia.
  - destruct (pair_read _ _ _ _ _ _ _ _ H1 H2 En Hm1) as (? & ? & ? & ? & ? & ? & ? & ? & ? & ? & ? & ? & ? & ? & ? & ? & ? & ? & ?). lia.
  - destruct (pair_read _ _ _ _ _ _ _ _ H1 H2 En Hm1)
      as (c1 & c2 & cn & a1 & a2 & b1' & b2' & -> & -> & -> & -> & -> & La1 & La2 & -> & -> & N1 & N2 & Hl).
    assert (Hla : length a1 = length a2) by (unfold zlen in *; lia).
    pose proof (zlen_nonneg a1). rewrite !zlen_app in *. rewrite La1, La2 in *.
    rewrite cstricmpspn_ref by done. cbv zeta.
    destruct (_ =? INT_MAX); [done |]. destruct (negb _); [done |].
    rewrite <- (IH _ _ _ _ N1 N2) by lia. unfold next_pos.
    replace (Z.min (cn + zlen b1') (cn + zlen b2') - cn) with (Z.min (zlen b1') (zlen b2')) by lia.
    by destruct (cn =? len c1 - off1), (cn =? len c2 - off2).
Qed.

Lemma strcmpspn_ok s1 s2 stop cs :
  str_ok s1 -> str_ok s2 -> stop <> 0 ->
  __tfw_strcmpspn s1 s2 stop cs =
  Ok (spn_ref (fold_case cs (flat s1)) (fold_case cs (flat s2)) stop (len s1 - len s2)).
Proof.
  intros H1 H2 Hs. unfold __tfw_strcmpspn. rewrite dup_lor by (by apply ok_dup).
  rewrite (proj2 (Z.eqb_neq stop 0)) by done.
  pose proof (ok_len _ H1) as L1. pose proof (ok_len _ H2) as L2.
  pose proof (ok_max _ H1). pose proof (ok_max _ H2).
  pose proof (zlen_nonneg (flat s1)). pose proof (zlen_nonneg (flat s2)).
  destruct (_ || _) eqn:E.
  - rewrite spn_ref_end by (apply orb_true_iff in E as [E|E]; bool_hyps; lia).
    rewrite s32_small by lia. f_equal. destruct (len s1 =? len s2) eqn:?; bool_hyps; lia.
  - replace (Z.min (len s1) (len s2)) with (Z.min (zlen (flat s1)) (zlen (flat s2))) by lia.
    apply (strcmpspn_loop_ok _ s1 s2 stop cs (0, 0) (0, 0)); try lia; try by apply at_idx_start.
    unfold left_chunks, strcmp_fuel. simpl. by rewrite !drop_0.
Qed.

(** ** Equality with a C string *)

(** The relation the flags of [tfw_str_eq_cstr()] ask for. *)
Definition eq_spec (prefix casei : bool) (cstr b : bytes) : bool :=
  if prefix then bool_decide (fold_case (negb casei) cstr `prefix_of` fold_case (negb casei) b)
  else bool_decide (fold_case (negb casei) cstr = fold_case (negb casei) b).

Lemma eq_spec_app prefix casei a a' b b' :
  length a = length b -> fold_case (negb casei) a = fold_case (negb casei) b ->
  eq_spec prefix casei (a ++ a') (b ++ b') = eq_spec prefix casei a' b'.
Proof.
  intros Hl E. unfold eq_spec. rewrite !fold_case_app, E.
  destruct prefix; apply bool_decide_ext.
  - split; [by intros ?%prefix_app_inv | by apply prefix_app].
  - split; [by intros ?%app_inv_head | by intros ->].
Qed.

Lemma eq_spec_diff prefix casei a a' b b' :
  length a = length b -> fold_case (negb casei) a <> fold_case (negb casei) b ->
  eq_spec prefix casei (a ++ a') (b ++ b') = false.
Proof.
  intros Hl E. unfold eq_spec. rewrite !fold_case_app.
  assert (Hl' : length (fold_case (negb casei) a) = length (fold_case (negb casei) b))
    by by rewrite !length_fold_case.
  destruct prefix; apply bool_decide_eq_false_2; intros Hp; apply E.
  - destruct Hp as [t Ht]. rewrite <- app_assoc in Ht. symmetry in Ht. by apply app_inj_1 in Ht as [? _].
  - by apply app_inj_1 in Hp as [? _].
Qed.

Lemma eq_spec_short prefix casei b : b <> [] -> eq_spec prefix casei [] b = prefix.
Proof.
  intros Hb. unfold eq_spec. destruct prefix.
  - apply bool_decide_eq_true_2. destruct casei; apply prefix_nil.
  - apply bool_decide_eq_false_2. intros E. apply (f_equal length) in E.
    rewrite !length_fold_case in E. by destruct b.
Qed.

Section eq_proofs.
Context `{SI : StrSimd, SO : !StrSimdOk SI}.

Lemma eq_cstr_loop_ok cs cstr prefix casei :
  Forall chunk_ok cs -> zlen (texts cs) < 2 ^ 31 ->
  eq_cstr_loop cs cstr (zlen cstr) prefix casei = Ok (eq_spec prefix casei cstr (texts cs)).
Proof.
  intros Hcs. revert cstr. induction Hcs as [|c cs Hc Hcs IH]; intros cstr Hmax; simpl.
  - destruct cstr as [|x cstr]; unfold eq_spec, zlen; simpl.
    + by destruct prefix, casei.
    + by destruct prefix, casei.
  - rewrite texts_cons, zlen_app, zlen_text in Hmax by done. destruct Hc as [Hp Hl].
    pose proof (zlen_nonneg (texts cs)). pose proof (zlen_nonneg cstr) as Hnn.
    rewrite s32_small by lia. set (l := Z.min (zlen cstr) (len c)).
    rewrite slice_some by lia.
    destruct (slice_text c 0 l) as (b & -> & Hbl & Hbt); [done | lia.. |].
    change (Z.to_nat 0) with 0%nat in *. rewrite drop_0. rewrite drop_0, Z.add_0_l in Hbt.
    set (a := take (Z.to_nat l) cstr).
    assert (Hal : zlen a = l) by (apply zlen_take; lia).
    assert (Hla : length a = length b) by (unfold zlen in *; lia).
    assert (Hcmp : (if casei then tfw_cstricmp a b else memcmp_fast a b) = 0 <->
                   fold_case (negb casei) a = fold_case (negb casei) b).
    { rewrite <- (cmp_fold (negb casei)) by done. by destruct casei. }
    rewrite texts_cons, Hbt, <- app_assoc.
    replace cstr with (a ++ drop (Z.to_nat l) cstr) by apply take_drop.
    destruct (_ =? 0) eqn:Er; simpl; bool_hyps.
    + apply Hcmp in Er. rewrite eq_spec_app by done. rewrite zlen_app, Hal.
      destruct (l + zlen (drop (Z.to_nat l) cstr) <? len c) eqn:Ec; bool_hyps;
        rewrite zlen_drop in Ec by lia.
      * rewrite (drop_ge cstr) by (unfold zlen in *; lia). f_equal. symmetry. apply eq_spec_short.
        intros E. apply (f_equal zlen) in E. rewrite zlen_app in E.
        pose proof (zlen_text c (conj Hp Hl)) as Htl.
        rewrite zlen_drop in E by lia. unfold zlen at 3 in E. simpl in E. lia.
      * rewrite (drop_ge (text c)); [| pose proof (zlen_text c (conj Hp Hl)); unfold zlen in *; lia].
        simpl. rewrite <- IH by lia. f_equal.
        -- rewrite drop_app_length'; [done |]. unfold zlen in Hal. lia.
        -- lia.
    + f_equal. symmetry. apply eq_spec_diff; [done |]. by rewrite <- Hcmp.
Qed.

Lemma eq_cstr_off_loop_ok cs offset cstr prefix casei :
  Forall chunk_ok cs -> zlen (texts cs) < 2 ^ 31 -> 0 <= offset ->
  cstr <> [] -> offset + zlen cstr <= zlen (texts cs) ->
  eq_cstr_off_loop cs offset cstr prefix casei =
  Ok (eq_spec prefix casei cstr (drop (Z.to_nat offset) (texts cs))).
Proof.
  intros Hcs. revert offset. induction Hcs as [|c cs Hc Hcs IH]; intros offset Hmax Ho Hne Hlen.
  - exfalso. apply Hne, zlen_nil_inv. pose proof (zlen_nonneg cstr).
    change (zlen (texts [])) with 0 in Hlen. lia.
  - rewrite texts_cons, zlen_app, zlen_text in * by done. pose proof (zlen_text c Hc) as Htl.
    destruct Hc as [Hp Hl]. pose proof (zlen_nonneg (texts cs)). cbn [eq_cstr_off_loop].
    destruct (len c <=? offset) eqn:E; bool_hyps.
    + rewrite IH by (done || lia). do 2 f_equal. rewrite drop_app_ge by (unfold zlen in *; lia).
      f_equal. unfold zlen in *. lia.
    + set (c' := set_len _ _).
      assert (Hc' : chunk_ok c') by (split; [done | simpl; rewrite zlen_drop by lia; lia]).
      assert (Ht : text c' = drop (Z.to_nat offset) (text c)).
      { unfold text. simpl. rewrite skipn_firstn_comm. f_equal. lia. }
      rewrite eq_cstr_loop_ok.
      * rewrite texts_cons, Ht, drop_app_le by (unfold zlen in *; lia). done.
      * by constructor.
      * rewrite texts_cons, zlen_app, zlen_text by done. simpl. lia.
Qed.

Lemma eq_cstr_ok s cstr prefix casei :
  str_ok s -> tfw_str_eq_cstr s cstr prefix casei = Ok (eq_spec prefix casei cstr (flat s)).
Proof.
  intros H. unfold tfw_str_eq_cstr. rewrite (ok_dup _ H). apply eq_cstr_loop_ok.
  - apply H.
  - pose proof (ok_len _ H). pose proof (ok_max _ H). unfold flat in *. lia.
Qed.

Lemma eq_spec_too_long prefix casei cstr b : zlen b < zlen cstr -> eq_spec prefix casei cstr b = false.
Proof.
  intros Hl. unfold eq_spec, zlen in *. destruct prefix; apply bool_decide_eq_false_2.
  - intros Hp%prefix_length. rewrite !length_fold_case in Hp. lia.
  - intros E%(f_equal length). rewrite !length_fold_case in E. lia.
Qed.

Lemma eq_cstr_off_ok s offset cstr prefix casei :
  str_ok s -> cstr <> [] -> 0 <= offset ->
  tfw_str_eq_cstr_off s offset cstr prefix casei =
  Ok (eq_spec prefix casei cstr (drop (Z.to_nat offset) (flat s))).
Proof.
  intros H Hne Ho. unfold tfw_str_eq_cstr_off. rewrite (ok_dup _ H). simpl.
  rewrite (proj2 (Z.eqb_neq (zlen cstr) 0)) by (intros ?%zlen_nil_inv; done).
  rewrite (proj2 (Z.ltb_ge offset 0)) by lia.
  pose proof (ok_len _ H) as Hl. pose proof (ok_max _ H).
  destruct (offset =? 0) eqn:E0; bool_hyps.
  - subst. rewrite eq_cstr_ok by done. done.
  - destruct (_ <? _) eqn:E; bool_hyps.
    + f_equal. symmetry. apply eq_spec_too_long. unfold zlen in *. rewrite length_drop.
      assert (cstr <> [] -> (0 < length cstr)%nat) by (destruct cstr; simpl; [done | lia]).
      specialize (H1 Hne). lia.
    + apply eq_cstr_off_loop_ok; try done; [apply H | |]; unfold flat in Hl; lia.
Qed.
End eq_proofs.

(** ** Copying *)

Lemma zlen_splice d off b d' : splice d off b = Some d' -> zlen d' = zlen d.
Proof.
  unfold splice. destruct (_ && _) eqn:E; [| done]. intros [= <-]. bool_hyps.
  pose proof (zlen_nonneg b). rewrite !zlen_app, zlen_take, zlen_drop by lia. lia.
Qed.

(** What a write behind the first [off] bytes leaves in front of [off + |b|]. *)
Lemma take_splice d off b d' :
  splice d off b = Some d' ->
  take (Z.to_nat (off + zlen b)) d' = take (Z.to_nat off) d ++ b.
Proof.
  unfold splice. destruct (_ && _) eqn:E; [| done]. intros [= <-]. bool_hyps.
  pose proof (zlen_nonneg b). rewrite app_assoc, take_app_le, take_ge; [done | |];
  rewrite length_app, length_take; unfold zlen in *; lia.
Qed.

Lemma strcpy_to_plain_ok cs dst o2 :
  Forall chunk_ok cs -> 0 <= o2 -> o2 + zlen (texts cs) <= zlen dst ->
  o2 + zlen (texts cs) < 2 ^ 31 ->
  exists d, strcpy_to_plain cs dst o2 = Ok (d, o2 + zlen (texts cs)) /\ zlen d = zlen dst /\
    take (Z.to_nat (o2 + zlen (texts cs))) d = take (Z.to_nat o2) dst ++ texts cs.
Proof.
  intros Hcs. revert dst o2. induction Hcs as [|c cs Hc Hcs IH]; intros dst o2 Ho Hl Hm.
  - exists dst. simpl. rewrite Z.add_0_r, app_nil_r. done.
  - rewrite texts_cons, zlen_app in *. pose proof (zlen_nonneg (texts cs)).
    pose proof (zlen_text c Hc) as Ht. destruct Hc as [Hp Hlc]. cbn [strcpy_to_plain].
    rewrite slice_some by lia. change (Z.to_nat 0) with 0%nat. rewrite drop_0. fold (text c).
    destruct (splice dst o2 (text c)) as [d1|] eqn:E.
    2: { by rewrite splice_some in E by lia. }
    pose proof (zlen_splice _ _ _ _ E) as Hz. rewrite Ht in *. rewrite s32_small by lia.
    destruct (IH d1 (o2 + len c)) as (d & Hd & Hdz & Hdt); [lia.. |].
    exists d. rewrite Hd. split_and!; [do 2 f_equal; lia | lia |].
    rewrite Z.add_assoc, Hdt. rewrite <- Ht, (take_splice _ _ _ _ E). by rewrite app_assoc.
Qed.

(** The chunks in use behind the copy hold the bytes. *)
Definition filled (c2s r : list TfwStr) (k : Z) (b : bytes) : Prop :=
  length r = length c2s /\ 0 <= k <= zlen r /\ Forall chunk_ok r /\
  texts (take (Z.to_nat k) r) = b.

Lemma filled_cons c c' c2s r k b :
  chunk_ok c' -> filled c2s r k b -> filled (c :: c2s) (c' :: r) (k + 1) (text c' ++ b).
Proof.
  intros Hc (Hl & Hk & Hok & Ht). unfold filled, zlen in *. simpl. split_and!; try lia.
  - by constructor.
  - replace (Z.to_nat (k + 1)) with (S (Z.to_nat k)) by lia. simpl. by rewrite texts_cons, Ht.
Qed.

Lemma strcpy_from_plain_ok c2s src slen o1 :
  Forall chunk_ok c2s -> 0 <= o1 <= slen -> slen <= zlen src -> slen < 2 ^ 31 ->
  slen - o1 <= zlen (texts c2s) ->
  exists r k, strcpy_from_plain c2s src slen o1 = Ok (r, k) /\
    filled c2s r k (take (Z.to_nat (slen - o1)) (drop (Z.to_nat o1) src)).
Proof.
  intros Hcs. revert o1. induction Hcs as [|c cs Hc Hcs IH]; intros o1 Ho Hl Hm Hfit; simpl;
    destruct (slen <=? o1) eqn:E; bool_hyps.
  - exists [], 0. split; [done |]. replace (slen - o1) with 0 by lia. unfold filled, zlen. simpl.
    split_and!; try lia; done.
  - change (zlen (texts [])) with 0 in Hfit. lia.
  - exists (c :: cs), 0. split; [done |]. replace (slen - o1) with 0 by lia. unfold filled, zlen. simpl.
    split_and!; try lia; [by constructor | done].
  - rewrite texts_cons, zlen_app, zlen_text in Hfit by done. destruct Hc as [Hp Hlc].
    set (l := Z.min (len c) (slen - o1)). rewrite slice_some by lia.
    set (b := take (Z.to_nat l) (drop (Z.to_nat o1) src)).
    assert (Hb : zlen b = l) by (apply zlen_take; rewrite zlen_drop by lia; lia).
    destruct (splice (data c) 0 b) as [d|] eqn:Es; [| by rewrite splice_some in Es by lia].
    rewrite s32_small by lia. pose proof (zlen_nonneg (texts cs)).
    destruct (IH (o1 + l)) as (r & k & -> & Hf); [lia.. |].
    eexists _, _. split; [done |].
    assert (Hc' : chunk_ok (set_len l (set_data d c)))
      by (split; [done | simpl; rewrite (zlen_splice _ _ _ _ Es); lia]).
    assert (Ht : text (set_len l (set_data d c)) = b).
    { unfold text. simpl. pose proof (take_splice _ _ _ _ Es) as Hts. rewrite Hb in Hts. exact Hts. }
    pose proof (filled_cons c _ _ _ _ _ Hc' Hf) as Hf'. rewrite Ht in Hf'.
    replace (take (Z.to_nat (slen - o1)) (drop (Z.to_nat o1) src)) with
      (b ++ take (Z.to_nat (slen - (o1 + l))) (drop (Z.to_nat (o1 + l)) src)); [done |].
    assert (Hl0 : 0 <= l) by lia. unfold b. rewrite (Z2Nat.inj_add o1 l) by lia.
    rewrite <- drop_drop, take_take_drop. f_equal. lia.
Qed.

Lemma at_pos_len c cs off b :
  at_pos (c :: cs) off b -> zlen b = len c - off + zlen (texts cs).
Proof.
  intros [Hok [Ho ->]]. apply Forall_cons in Hok as [Hc _]. pose proof (zlen_text c Hc) as Ht.
  rewrite zlen_app, zlen_drop by lia. lia.
Qed.

Lemma texts_pos c cs : Forall chunk_ok (c :: cs) -> Forall (fun c => 0 < len c) (c :: cs) ->
  0 < zlen (texts (c :: cs)).
Proof.
  intros Hok Hpos. apply Forall_cons in Hok as [Hc _]. apply Forall_cons in Hpos as [Hp _].
  rewrite texts_cons, zlen_app, zlen_text by done. pose proof (zlen_nonneg (texts cs)). lia.
Qed.

(** Two compound strings: [b] is left to copy, the first [o2] bytes of the current destination
    chunk are already written. *)
Lemma strcpy_chunks_ok fuel c1s c2 c2s o1 o2 b :
  at_pos c1s o1 b -> Forall (fun c => 0 < len c) c1s -> b <> [] ->
  Forall chunk_ok (c2 :: c2s) -> 0 <= o2 <= len c2 ->
  zlen b <= len c2 - o2 + zlen (texts c2s) -> zlen b < 2 ^ 31 ->
  (length c1s + S (length c2s) <= fuel)%nat ->
  exists r k, strcpy_chunks fuel c1s (c2 :: c2s) o1 o2 = Ok (r, k) /\
    filled (c2 :: c2s) r k (take (Z.to_nat o2) (data c2) ++ b).
Proof.
  revert c1s c2 c2s o1 o2 b. induction fuel as [|fuel IH];
    intros c1s c2 c2s o1 o2 b Hat Hpos Hb Hok Ho Hfit Hmax Hf; [lia |].
  destruct c1s as [|c1 r1]; [by destruct Hat as [_ [-> _]] |]. cbn [strcpy_chunks].
  pose proof (at_pos_len _ _ _ _ Hat) as Hlen. pose proof Hat as [Hok1 [Ho1 _]].
  pose proof (zlen_nonneg (texts r1)). pose proof (zlen_nonneg (texts c2s)).
  pose proof Hok as Hok2. apply Forall_cons in Hok2 as [Hc2 Hc2s]. destruct Hc2 as [Hp2 Hl2].
  assert (Hn : s32 (Z.min (len c1 - o1) (len c2 - o2)) = Z.min (len c1 - o1) (len c2 - o2))
    by (apply s32_small; lia).
  rewrite Hn. set (n := Z.min (len c1 - o1) (len c2 - o2)).
  destruct (at_pos_read c1 r1 o1 b n Hat ltac:(lia)) as (a & b' & -> & La & -> & Hnext).
  destruct (splice (data c2) o2 a) as [d|] eqn:Es; [| by rewrite splice_some in Es by lia].
  pose proof (zlen_splice _ _ _ _ Es) as Hzd. pose proof (take_splice _ _ _ _ Es) as Hts.
  rewrite La in Hts. rewrite zlen_app, La in Hfit, Hlen, Hmax.
  assert (Hc2' : chunk_ok (set_data d c2)) by (split; [done | simpl; lia]).
  assert (Htext : n = len c2 - o2 -> text (set_data d c2) = take (Z.to_nat o2) (data c2) ++ a).
  { intros E. unfold text. simpl. rewrite <- Hts. f_equal. lia. }
  apply Forall_cons in Hpos as Hpos1. destruct Hpos1 as [_ Hposr].
  assert (Hr1 : n = len c1 - o1 -> zlen b' = zlen (texts r1)) by lia.
  assert (Hb' : r1 <> [] \/ n <> len c1 - o1 -> b' <> []).
  { intros Hor ->. change (zlen []) with 0 in *. destruct Hor as [Hr|]; [| lia].
    destruct r1 as [|c r1]; [done |].
    pose proof (texts_pos c r1 ltac:(by apply Forall_cons in Hok1 as [_ ?]) Hposr). lia. }
  assert (Hskip : forall o1' c1s', at_pos c1s' o1' b' -> Forall (fun c => 0 < len c) c1s' ->
     b' <> [] -> n = len c2 - o2 -> (length c1s' <= length (c1 :: r1))%nat ->
     exists r k, match strcpy_chunks fuel c1s' c2s o1' 0 with
                 | Ok (r, k) => Ok (set_data d c2 :: r, k + 1) | Bug => Bug end = Ok (r, k) /\
                 filled (c2 :: c2s) r k (take (Z.to_nat o2) (data c2) ++ a ++ b')).
  { intros o1' c1s' Hat' Hpos' Hbn En Hlc.
    destruct c2s as [|c3 c2s].
    { exfalso. apply Hbn, zlen_nil_inv. pose proof (zlen_nonneg b'). change (zlen (texts [])) with 0 in *. lia. }
    pose proof Hc2s as Hc3. apply Forall_cons in Hc3 as [Hc3 _].
    destruct (IH c1s' c3 c2s o1' 0 b') as (r & k & -> & Hfl); try done; try lia.
    { destruct Hc3. lia. }
    { rewrite texts_cons, zlen_app, zlen_text in Hfit by done. lia. }
    { simpl in *. lia. }
    eexists _, _. split; [done |]. simpl in Hfl.
    pose proof (filled_cons c2 _ _ _ _ _ Hc2' Hfl) as Hf'. rewrite Htext in Hf' by done.
    by rewrite <- app_assoc in Hf'. }
  destruct (n =? len c1 - o1) eqn:E1; bool_hyps.
  - destruct r1 as [|c1' r1]; simpl.
    + eexists _, _. split; [done |].
      assert (b' = []) as -> by (destruct Hnext as [_ [-> _]]; done). rewrite app_nil_r.
      unfold filled, zlen. simpl. split_and!; try done; try lia.
      * constructor; [split; [done | simpl; lia] | done].
      * rewrite texts_cons. simpl. rewrite app_nil_r. exact Hts.
    + destruct (len c1 - o1 =? len c2 - o2) eqn:E2; bool_hyps.
      * apply (Hskip 0 (c1' :: r1)); try done; [by apply Hb'; left | lia | simpl; lia].
      * destruct (IH (c1' :: r1) (set_data d c2) c2s 0 (o2 + n) b') as (r & k & Hr & Hfl); try done;
          [by apply Hb'; left | by constructor | simpl; lia | simpl; lia | lia | simpl in *; lia |].
        exists r, k. split; [done |]. simpl in Hfl. rewrite Hts in Hfl. by rewrite <- app_assoc in Hfl.
  - rewrite andb_false_r. change (len (set_data d c2)) with (len c2). rewrite (proj2 (Z.eqb_neq (len c1 - o1) (len c2 - o2))) by lia.
    apply (Hskip (o1 + n) (c1 :: r1)); try done; [by apply Hb'; right | lia].
Qed.

Lemma str_chunks_plain s : TFW_STR_PLAIN s = true -> str_chunks s = [s].
Proof. unfold str_chunks. by intros ->. Qed.

Lemma flat_plain s : TFW_STR_PLAIN s = true -> flat s = text s.
Proof. intros H. unfold flat. rewrite str_chunks_plain by done. apply app_nil_r. Qed.

Lemma str_chunks_compound s k cs tl l :
  0 < k <= zlen cs -> str_chunks (set_len l (set_nchunks k (set_chunks (cs ++ tl) s))) = take (Z.to_nat k) cs.
Proof.
  intros Hk. unfold str_chunks, TFW_STR_PLAIN. simpl.
  rewrite (proj2 (Z.eqb_neq k 0)) by lia. rewrite take_app_le; [done |]. unfold zlen in *. lia.
Qed.

(** A compound string whose first [k] chunks hold the text of [src]. *)
Lemma filled_str_ok dst src r k :
  str_ok dst -> str_ok src -> TFW_STR_PLAIN dst = false ->
  filled (str_chunks dst) r k (flat src) ->
  let d := set_len (len src) (set_nchunks k
             (set_chunks (r ++ drop (Z.to_nat (nchunks dst)) (chunks dst)) dst)) in
  str_ok d /\ flat d = flat src.
Proof.
  intros Hd Hs Hp (Hl & Hk & Hok & Ht) d. pose proof (ok_len _ Hs) as Hsl.
  destruct (decide (k = 0)) as [-> | Hk0].
  - assert (Hnil : flat src = []) by (rewrite <- Ht; done).
    assert (Hlen : len src = 0) by (rewrite Hsl, Hnil; done).
    assert (Hpl : TFW_STR_PLAIN d = true) by done.
    assert (Hf : flat d = []) by (rewrite flat_plain by done; unfold text; simpl; by rewrite Hlen).
    split; [| by rewrite Hf, Hnil]. constructor.
    + apply (ok_dup _ Hd).
    + right. done.
    + rewrite str_chunks_plain by done. constructor; [| done]. split; [done |]. simpl.
      pose proof (zlen_nonneg (data dst)). lia.
    + by rewrite Hf.
    + simpl. lia.
  - assert (Hsc : str_chunks d = take (Z.to_nat k) r) by (apply str_chunks_compound; lia).
    assert (Hf : flat d = flat src) by (unfold flat at 1; rewrite Hsc; done).
    split; [| done]. constructor.
    + apply (ok_dup _ Hd).
    + left. simpl. rewrite zlen_app. pose proof (zlen_nonneg (drop (Z.to_nat (nchunks dst)) (chunks dst))). lia.
    + rewrite Hsc. by apply Forall_take.
    + by rewrite Hf.
    + apply (ok_max _ Hs).
Qed.

Lemma plain_str_ok dst src d :
  str_ok dst -> str_ok src -> TFW_STR_PLAIN dst = true -> zlen d = zlen (data dst) ->
  len src <= len dst -> take (Z.to_nat (len src)) d = flat src ->
  let d' := set_len (len src) (set_nchunks 0 (set_data d dst)) in str_ok d' /\ flat d' = flat src.
Proof.
  intros Hd Hs Hp Hz Hl Ht d'. assert (Hf : flat d' = flat src) by (by rewrite flat_plain).
  pose proof (ok_chunks _ Hd) as Hc. rewrite str_chunks_plain in Hc by done.
  apply Forall_cons in Hc as [[_ Hc] _]. pose proof (ok_len _ Hs). pose proof (zlen_nonneg (flat src)).
  split; [| done]. constructor.
  - apply (ok_dup _ Hd).
  - by right.
  - rewrite str_chunks_plain by done. constructor; [| done]. split; [done |]. simpl. lia.
  - by rewrite Hf.
  - apply (ok_max _ Hs).
Qed.

Lemma compound_nonempty s : str_ok s -> TFW_STR_PLAIN s = false -> str_chunks s <> [].
Proof.
  intros H Hp. pose proof (ok_nchunks _ H) as Hn. unfold str_chunks. rewrite Hp.
  unfold TFW_STR_PLAIN in Hp. bool_hyps. destruct Hn as [Hn|]; [| lia].
  destruct (chunks s); [unfold zlen in Hn; simpl in Hn; lia |].
  destruct (Z.to_nat (nchunks s)) eqn:E; [lia | done].
Qed.

Lemma strcpy_ok dst src :
  str_ok dst -> str_ok src -> Forall (fun c => 0 < len c) (str_chunks src) \/ TFW_STR_PLAIN src = true ->
  len src <= len dst ->
  exists dst', tfw_strcpy dst src = Ok (0, dst') /\ str_ok dst' /\ flat dst' = flat src.
Proof.
  intros Hd Hs Hpos Hl. unfold tfw_strcpy. rewrite (ok_dup _ Hd), (ok_dup _ Hs). simpl.
  rewrite (proj2 (Z.ltb_ge (len dst) (len src))) by done.
  pose proof (ok_len _ Hd) as Ld. pose proof (ok_len _ Hs) as Ls. pose proof (ok_max _ Hs) as Ms.
  pose proof (ok_chunks _ Hd) as Cd. pose proof (ok_chunks _ Hs) as Cs.
  pose proof (zlen_nonneg (flat src)) as Hnn.
  destruct (TFW_STR_PLAIN src) eqn:Ps, (TFW_STR_PLAIN dst) eqn:Pd.
  - rewrite str_chunks_plain in Cd, Cs by done. apply Forall_cons in Cd as [[_ Cd] _], Cs as [[_ Cs] _].
    rewrite Z.min_l, slice_some by lia. change (Z.to_nat 0) with 0%nat. rewrite drop_0.
    assert (Hft : flat src = text src) by by apply flat_plain. fold (text src). rewrite <- Hft.
    destruct (splice (data dst) 0 (flat src)) as [d|] eqn:E; [| by rewrite splice_some in E by lia].
    eexists. split; [done |]. apply (plain_str_ok dst src); try done; [by eapply zlen_splice |].
    pose proof (take_splice _ _ _ _ E) as Ht. by rewrite Z.add_0_l, <- Ls in Ht.
  - destruct (strcpy_from_plain_ok (str_chunks dst) (data src) (len src) 0) as (r & k & -> & Hf);
      try done; try lia.
    { rewrite str_chunks_plain in Cs by done. apply Forall_cons in Cs as [[_ Cs] _]. lia. }
    { unfold flat in Ld. lia. }
    eexists. split; [done |]. apply filled_str_ok; try done.
    rewrite Z.sub_0_r in Hf. change (Z.to_nat 0) with 0%nat in Hf. rewrite drop_0 in Hf.
    by rewrite flat_plain.
  - destruct Hpos as [Hpos|]; [| done]. rewrite str_chunks_plain in Cd by done.
    apply Forall_cons in Cd as [[_ Cd] _].
    destruct (strcpy_to_plain_ok (str_chunks src) (data dst) 0) as (d & -> & Hz & Ht);
      try done; try (unfold flat in Ls; lia).
    rewrite Z.add_0_l in *. fold (flat src) in *. rewrite <- Ls in *.
    rewrite Z.eqb_refl. simpl. eexists. split; [done |]. by apply plain_str_ok.
  - destruct Hpos as [Hpos|]; [| done].
    pose proof (compound_nonempty _ Hd Pd) as Nd. pose proof (compound_nonempty _ Hs Ps) as Ns.
    destruct (str_chunks dst) as [|c2 c2s] eqn:Ed; [done |].
    destruct (str_chunks src) as [|c1 c1s] eqn:Esrc; [done |].
    pose proof (texts_pos _ _ Cs Hpos) as Hp0.
    assert (Hfs : flat src = texts (c1 :: c1s)) by (unfold flat; by rewrite Esrc).
    assert (Hfd : flat dst = texts (c2 :: c2s)) by (unfold flat; by rewrite Ed).
    destruct (strcpy_chunks_ok (length (c1 :: c1s) + length (c2 :: c2s)) (c1 :: c1s) c2 c2s 0 0 (flat src))
      as (r & k & -> & Hf); try done; try lia.
    { rewrite Hfs. by apply at_pos_start. }
    { intros E. rewrite Hfs in E. rewrite E in Hp0. unfold zlen in Hp0. simpl in Hp0. lia. }
    { apply Forall_cons in Cd as [[_ Cd] _]. lia. }
    { apply Forall_cons in Cd as [Cd _]. rewrite Hfd, texts_cons, zlen_app, zlen_text in Ld by done. lia. }
    eexists. split; [done |]. apply filled_str_ok; try done. by rewrite Ed.
Qed.

(** ** Editing the list of chunks *)

Lemma grow_chunks s n s' :
  str_ok s -> 0 < n -> (if TFW_STR_PLAIN s then 1 else nchunks s) + n < 2 ^ 32 ->
  __str_grow_tree true s 0 n = Some s' ->
  chunks s' = str_chunks s ++ replicate (Z.to_nat n) str_init /\
  nchunks s' = zlen (str_chunks s) + n /\ len s' = len s /\ flags s' = flags s.
Proof.
  intros H Hn Hmax. unfold __str_grow_tree, str_chunks, TFW_STR_PLAIN in *.
  assert (Hf : has_flag (flags s) 0 = false) by (unfold has_flag; by rewrite Z.land_0_r).
  rewrite Hf. simpl. destruct (nchunks s =? 0) eqn:E; simpl; bool_hyps.
  - intros [= <-]. simpl. rewrite u32_small by (unfold is_u32; lia).
    split_and!; try done. unfold zlen. simpl. lia.
  - destruct (_ <=? _); [done |]. intros [= <-]. simpl.
    destruct (ok_nchunks _ H) as [Hk|]; [| done].
    rewrite u32_small by (unfold is_u32; lia). rewrite zlen_take by lia. done.
Qed.

Lemma zlen_str_chunks s : str_ok s -> zlen (str_chunks s) = if TFW_STR_PLAIN s then 1 else nchunks s.
Proof.
  intros H. unfold str_chunks, TFW_STR_PLAIN. destruct (_ =? 0) eqn:E; [done |]. bool_hyps.
  destruct (ok_nchunks _ H) as [Hk|]; [| done]. by apply zlen_take.
Qed.

(** A string with the chunks [cs] in front and their length. *)
Lemma chunks_str_ok s cs :
  Forall chunk_ok cs -> cs <> [] -> TFW_STR_DUP s = false -> chunks s = cs ->
  nchunks s = zlen cs -> len s = zlen (texts cs) -> len s < 2 ^ 31 ->
  str_ok s /\ str_chunks s = cs.
Proof.
  intros Hok Hne Hd Hc Hn Hl Hm. assert (0 < zlen cs) by (destruct cs; [done | unfold zlen; simpl; lia]).
  assert (Hsc : str_chunks s = cs).
  { unfold str_chunks, TFW_STR_PLAIN. rewrite (proj2 (Z.eqb_neq (nchunks s) 0)) by lia.
    rewrite Hc, Hn. apply take_ge. unfold zlen. lia. }
  split; [| done]. constructor; try done.
  - left. rewrite Hc. lia.
  - by rewrite Hsc.
  - unfold flat. by rewrite Hsc.
Qed.

Lemma insert_ok dst src chunk :
  str_ok dst -> str_ok src -> 0 <= chunk <= zlen (str_chunks dst) ->
  len dst + len src < 2 ^ 31 -> zlen (str_chunks dst) + zlen (str_chunks src) < UINT_MAX ->
  exists dst', __tfw_str_insert true dst src chunk = Ok (0, dst') /\ str_ok dst' /\
    str_chunks dst' = take (Z.to_nat chunk) (str_chunks dst) ++ str_chunks src
                      ++ drop (Z.to_nat chunk) (str_chunks dst).
Proof.
  intros Hd Hs Hc Hm Hmax. unfold __tfw_str_insert. rewrite (ok_dup _ Hd), (ok_dup _ Hs). simpl.
  pose proof (zlen_str_chunks _ Hd) as Zd. pose proof (zlen_str_chunks _ Hs) as Zs.
  pose proof (ok_len _ Hd) as Ld. pose proof (ok_len _ Hs) as Ls.
  pose proof (zlen_nonneg (flat dst)). pose proof (zlen_nonneg (flat src)).
  pose proof (ok_chunks _ Hd) as Cd. pose proof (ok_chunks _ Hs) as Cs. unfold UINT_MAX in Hmax.
  replace (if nchunks src =? 0 then 1 else nchunks src) with (zlen (str_chunks src)) by done.
  set (n := zlen (str_chunks src)) in *.
  assert (Hn : 0 < n).
  { subst n. destruct (str_chunks src) eqn:E; [| unfold zlen; simpl; lia].
    unfold str_chunks in E. destruct (TFW_STR_PLAIN src) eqn:Ep; [done |].
    by apply compound_nonempty in Hs as Hne; [unfold str_chunks in Hne; rewrite Ep in Hne |]. }
  destruct (__str_grow_tree true dst 0 n) as [d|] eqn:Eg.
  2: { exfalso. unfold __str_grow_tree, UINT_MAX, __TFW_STR_CN_MAX in Eg. simpl in Eg.
       destruct (_ || _) eqn:Eo; [| done]. destruct (_ <=? _) eqn:El; [| done]. bool_hyps.
       unfold UINT_MAX in El. unfold TFW_STR_PLAIN in Zd. destruct (nchunks dst =? 0) eqn:?; bool_hyps; lia. }
  destruct (grow_chunks dst n d Hd Hn) as (Gc & Gn & Gl & Gf); [rewrite <- Zd; lia | done |].
  rewrite <- Zd, Gn, Gl, Gc. set (m := zlen (str_chunks dst)) in *.
  set (cs := take (Z.to_nat chunk) (str_chunks dst) ++ str_chunks src ++ drop (Z.to_nat chunk) (str_chunks dst)).
  assert (Hlm : Z.to_nat m = length (str_chunks dst)) by (unfold m, zlen; lia).
  match goal with |- exists _, Ok (0, set_len _ (set_chunks ?l d)) = _ /\ _ => assert (Hcs : l = cs) end.
  { subst cs. destruct (chunk =? m) eqn:E; simpl; bool_hyps.
    - subst chunk. replace (m + n - n) with m by lia. rewrite take_app_le, drop_ge, (drop_ge (str_chunks dst)); [done | lia | | lia].
      rewrite length_app, length_replicate. lia.
    - rewrite take_app_le by lia. do 2 f_equal. rewrite drop_app_le by lia.
      replace (m + n - chunk - n) with (m - chunk) by lia.
      rewrite take_app_le by (rewrite length_drop; lia). apply take_ge. rewrite length_drop. lia. }
  rewrite Hcs, <- zlen_texts by done. fold (flat src). rewrite s32_small by lia.
  assert (Hcok : Forall chunk_ok cs)
    by (unfold cs; rewrite !Forall_app; split_and!; [by apply Forall_take | done | by apply Forall_drop]).
  assert (Hct : zlen (texts cs) = len dst + len src).
  { unfold cs. rewrite !texts_app, !zlen_app. fold (flat src).
    rewrite Ld. unfold flat at 2. rewrite <- (take_drop (Z.to_nat chunk) (str_chunks dst)) at 3.
    rewrite texts_app, zlen_app. lia. }
  eexists. split; [done |]. apply chunks_str_ok; simpl; try done; try lia.
  - subst cs. intros E. apply app_nil in E as [_ E]. apply app_nil in E as [E _].
    unfold n in Hn. rewrite E in Hn. unfold zlen in Hn. simpl in Hn. lia.
  - unfold TFW_STR_DUP. simpl. rewrite Gf. apply (ok_dup _ Hd).
  - rewrite Gn. subst cs. rewrite !zlen_app, zlen_take, zlen_drop by (fold m; lia). fold n m. lia.
Qed.

(** The move of the chunks behind the deleted one. *)
Lemma del_move (cs : list TfwStr) (id cn : Z) :
  0 <= id < cn -> cn <= zlen cs ->
  take (Z.to_nat (cn - 1)) (take (Z.to_nat id) cs ++
    take (Z.to_nat (cn - id - 1)) (drop (Z.to_nat (id + 1)) cs) ++ drop (Z.to_nat (cn - 1)) cs) =
  delete (Z.to_nat id) (take (Z.to_nat cn) cs).
Proof.
  intros Hid Hcn. unfold zlen in Hcn. rewrite delete_take_drop, app_assoc, take_app_le, take_ge.
  - f_equal.
    + rewrite take_take. f_equal. lia.
    + rewrite skipn_firstn_comm. f_equal; [lia | f_equal; lia].
  - rewrite length_app, !length_take, length_drop. lia.
  - rewrite length_app, !length_take, length_drop. lia.
Qed.

Lemma del_two s id a b :
  str_chunks s = [a; b] -> nchunks s = 2 -> 0 <= id < 2 -> Forall chunk_ok [a; b] ->
  exists c, chunks s !! Z.to_nat (Z.lxor id 1) = Some c /\
    flat c = texts (delete (Z.to_nat id) [a; b]) /\ len c = zlen (flat c).
Proof.
  intros Hsc Hn Hid Hok. unfold str_chunks, TFW_STR_PLAIN in Hsc. rewrite Hn in Hsc. simpl in Hsc.
  change (Pos.to_nat 2) with 2%nat in Hsc.
  apply Forall_cons in Hok as [Ha Hok]. apply Forall_cons in Hok as [Hb _].
  assert (Hone : forall c, chunk_ok c -> flat c = texts [c] /\ len c = zlen (flat c)).
  { intros c Hc. rewrite flat_plain by apply Hc. rewrite zlen_text by done. split; [| done].
    unfold texts. simpl. by rewrite app_nil_r. }
  destruct (chunks s) as [|x [|y l]]; simplify_eq/=.
  assert (id = 0 \/ id = 1) as [-> | ->] by lia; [exists b | exists a]; split; try done; by apply Hone.
Qed.

Lemma del_chunk_ok s id :
  str_ok s -> TFW_STR_PLAIN s = false -> 0 <= id < nchunks s ->
  exists s', tfw_str_del_chunk s id = Ok s' /\
    flat s' = texts (delete (Z.to_nat id) (str_chunks s)) /\ len s' = zlen (flat s').
Proof.
  intros H Hp Hid. unfold tfw_str_del_chunk. rewrite Hp, (ok_dup _ H).
  rewrite (proj2 (Z.leb_gt (nchunks s) id)) by lia.
  destruct (ok_nchunks _ H) as [Hn|Hn]; [| lia]. pose proof (ok_chunks _ H) as Hok.
  pose proof (zlen_str_chunks _ H) as Hz. rewrite Hp in Hz.
  assert (Hsc : str_chunks s = take (Z.to_nat (nchunks s)) (chunks s)) by (unfold str_chunks; by rewrite Hp).
  destruct (nchunks s =? 2) eqn:E2; bool_hyps.
  - destruct (str_chunks s) as [|a [|b [|]]] eqn:E; unfold zlen in Hz; simpl in Hz; try lia.
    destruct (del_two s id a b E E2 ltac:(lia) Hok) as (c & -> & Hc). eauto.
  - rewrite str_chunk_lookup by lia.
    destruct (str_chunks s !! Z.to_nat id) as [c|] eqn:Ec.
    2: { apply lookup_ge_None in Ec. unfold zlen in Hz. lia. }
    set (cs := delete (Z.to_nat id) (str_chunks s)).
    assert (Hl : len s - len c = zlen (texts cs)).
    { rewrite (ok_len _ H). unfold flat. unfold cs. rewrite delete_take_drop.
      rewrite <- (take_drop_middle _ _ _ Ec) at 1. rewrite !texts_app, texts_cons, !zlen_app.
      rewrite (zlen_text c) by (by eapply Forall_lookup_1 in Hok). lia. }
    eexists. split; [done |]. set (s' := set_chunks _ _).
    assert (Hf : flat s' = texts cs); [| by rewrite Hf].
    unfold flat. destruct (decide (nchunks s = 1)) as [E1|E1].
    + assert (Hnil : cs = []).
      { apply length_zero_iff_nil. unfold cs. rewrite length_delete by done. unfold zlen in Hz. lia. }
      rewrite Hnil in *. rewrite str_chunks_plain by (unfold TFW_STR_PLAIN; simpl; by rewrite E1).
      rewrite texts_cons. unfold text. simpl. rewrite Hl. done.
    + unfold str_chunks at 1, TFW_STR_PLAIN. simpl. rewrite (proj2 (Z.eqb_neq (nchunks s - 1) 0)) by lia.
      rewrite del_move by lia. by rewrite <- Hsc.
Qed.

(** ** Putting a string in one piece *)

Lemma crc32_loop_ok `{C : Crc32, CO : !Crc32Ok C} cs crc :
  Forall chunk_ok cs -> crc32_loop cs crc = Ok (crc32 crc (texts cs)).
Proof.
  intros Hcs. revert crc. induction Hcs as [|c cs [Hp Hl] Hcs IH]; intros crc; simpl.
  - by rewrite crc32_nil.
  - rewrite slice_some by lia. change (Z.to_nat 0) with 0%nat. rewrite drop_0, IH, crc32_app. done.
Qed.

Lemma strncpy_id b : Forall (fun c => c <> 0) b -> strncpy b = b.
Proof.
  induction 1 as [|c b Hc Hb IH]; simpl; [done |].
  by rewrite (proj2 (Z.eqb_neq c 0)), IH.
Qed.

Lemma to_cstr_loop_ok cs n out :
  Forall chunk_ok cs -> 0 <= n -> zlen (texts cs) < 2 ^ 31 -> Forall (fun c => c <> 0) (texts cs) ->
  to_cstr_loop cs n out = Ok (out ++ take (Z.to_nat n) (texts cs)).
Proof.
  intros Hcs. revert n out. induction Hcs as [|c cs Hc Hcs IH]; intros n out Hn Hm Hz; simpl.
  - change (texts []) with (@nil Z). by rewrite take_nil, app_nil_r.
  - rewrite texts_cons, zlen_app, zlen_text in Hm by done. pose proof (zlen_text c Hc) as Ht.
    destruct Hc as [Hp Hl]. pose proof (zlen_nonneg (texts cs)).
    rewrite s32_small, slice_some by lia. change (Z.to_nat 0) with 0%nat. rewrite drop_0, texts_cons.
    assert (Hb : take (Z.to_nat (Z.min n (len c))) (data c) = take (Z.to_nat n) (text c)).
    { unfold text. rewrite take_take. f_equal. lia. }
    rewrite texts_cons, Forall_app in Hz. destruct Hz as [Hz Hz'].
    rewrite Hb, strncpy_id by (by apply Forall_take). destruct (n - Z.min n (len c) =? 0) eqn:E; bool_hyps.
    + rewrite take_app_le by (unfold zlen in *; lia). done.
    + rewrite IH by (done || lia). rewrite <- app_assoc. do 2 f_equal.
      rewrite take_app_ge by (unfold zlen in *; lia). rewrite (take_ge (text c)) by (unfold zlen in *; lia).
      do 2 f_equal. unfold zlen in *. lia.
Qed.

(** ** Numbers *)

Definition digit_val (c : Z) : Z := if c <? 0x61 then c - 0x30 else c - 0x61 + 10.

Definition num_val (base : Z) (ds : bytes) : Z :=
  fold_left (fun v c => v * base + digit_val c) ds 0.

Lemma digit_val_digit d : 0 <= d < 16 -> digit_val (digit d) = d.
Proof.
  intros Hd. unfold digit_val, digit. destruct (d <? 10) eqn:E; bool_hyps.
  - rewrite (proj2 (Z.ltb_lt _ _)) by lia. lia.
  - rewrite (proj2 (Z.ltb_ge _ _)) by lia. lia.
Qed.

Lemma num_val_snoc base ds c : num_val base (ds ++ [c]) = num_val base ds * base + digit_val c.
Proof. unfold num_val. by rewrite fold_left_app. Qed.

(** [p] is the number of digits of [ai]. *)
Definition dig_num (base ai p : Z) : Prop :=
  1 <= p /\ ai < base ^ p /\ (base ^ (p - 1) <= ai \/ p = 1).

Lemma digits_loop_ok fuel base ai p buf :
  2 <= base <= 16 -> 0 <= ai -> dig_num base ai p -> p <= Z.of_nat fuel -> p <= zlen buf ->
  exists ds, digits_loop fuel base ai p buf = Ok (ds ++ drop (Z.to_nat p) buf) /\
    zlen ds = p /\ num_val base ds = ai.
Proof.
  intros Hb. revert ai p buf. induction fuel as [|fuel IH]; intros ai p buf Ha (Hp & Hlt & Hge) Hf Hl; [lia |].
  pose proof (Z.mod_pos_bound ai base ltac:(lia)) as Hmod. cbn [digits_loop].
  rewrite splice_some by (unfold zlen in *; simpl; lia). change (zlen [_]) with 1.
  replace (p - 1 + 1) with p by lia. set (buf1 := take _ buf ++ _).
  assert (Hdrop : drop (Z.to_nat (p - 1)) buf1 = digit (ai mod base) :: drop (Z.to_nat p) buf).
  { subst buf1. rewrite drop_app_ge; rewrite length_take; unfold zlen in *; [| lia].
    by replace (Z.to_nat (p - 1) - Z.to_nat (p - 1) `min` length buf)%nat with 0%nat by lia. }
  destruct (ai / base =? 0) eqn:E; bool_hyps.
  - assert (Has : ai < base) by (apply Z.div_small_iff in E; lia).
    assert (p = 1) as ->.
    { destruct Hge as [Hge|]; [| done]. destruct (Z.eq_dec p 1); [done |].
      pose proof (Z.pow_le_mono_r base 1 (p - 1) ltac:(lia) ltac:(lia)). rewrite Z.pow_1_r in *. lia. }
    exists [digit (ai mod base)]. split_and!; [| done |].
    + done.
    + unfold num_val. simpl. rewrite digit_val_digit, Z.mod_small by lia. lia.
  - assert (Hp2 : 2 <= p).
    { destruct (Z.eq_dec p 1) as [-> |]; [| lia]. rewrite Z.pow_1_r in Hlt.
      rewrite Z.div_small in E by lia. done. }
    assert (Hpow : base ^ p = base * base ^ (p - 1)) by (rewrite <- Z.pow_succ_r by lia; f_equal; lia).
    assert (Hpow' : base ^ (p - 1) = base * base ^ (p - 1 - 1)) by (rewrite <- Z.pow_succ_r by lia; f_equal; lia).
    destruct (IH (ai / base) (p - 1) buf1) as (ds & Hds & Hz & Hv).
    + apply Z.div_pos; lia.
    + split; [lia |]. split; [apply Z.div_lt_upper_bound; lia |]. left.
      apply Z.div_le_lower_bound; [lia |]. destruct Hge; lia.
    + lia.
    + subst buf1. rewrite !zlen_app, zlen_take, zlen_drop by lia. change (zlen [_]) with 1. lia.
    + exists (ds ++ [digit (ai mod base)]). rewrite Hds, Hdrop, num_val_snoc, digit_val_digit by lia.
      split_and!; [by rewrite <- app_assoc | rewrite zlen_app; unfold zlen in *; simpl; lia |].
      rewrite Hv. pose proof (Z.div_mod ai base ltac:(lia)). lia.
Qed.

Lemma dig_num_dec_ok a : is_u64 a -> dig_num 10 a (__dig_num_dec a) /\ __dig_num_dec a <= 20.
Proof.
  unfold is_u64. change (2 ^ 64) with 18446744073709551616. intros Ha. unfold __dig_num_dec.
  repeat (match goal with |- context [if ?b then _ else _] => destruct b eqn:? end;
          [bool_hyps; unfold dig_num; simpl; lia |]).
  bool_hyps. unfold dig_num. simpl. lia.
Qed.

Lemma dig_num_hex_ok a : is_u64 a -> dig_num 16 a (__dig_num_hex a) /\ __dig_num_hex a <= 16.
Proof.
  unfold is_u64, __dig_num_hex. intros Ha. destruct (a =? 0) eqn:E; bool_hyps.
  - subst. unfold dig_num. simpl. lia.
  - pose proof (Z.log2_spec a ltac:(lia)) as [H1 H2]. pose proof (Z.log2_nonneg a).
    assert (Hl : Z.log2 a < 64) by (apply Z.log2_lt_pow2; lia).
    set (k := Z.log2 a) in *. unfold dig_num.
    replace 16 with (2 ^ 4) at 1 2 by done. rewrite <- !Z.pow_mul_r by (Z.div_mod_to_equations; lia).
    split; [split; [Z.div_mod_to_equations; lia |]; split |Z.div_mod_to_equations; lia].
    + eapply Z.lt_le_trans; [exact H2 |]. apply Z.pow_le_mono_r; [lia |]. Z.div_mod_to_equations. lia.
    + left. etransitivity; [| exact H1]. apply Z.pow_le_mono_r; [lia |]. Z.div_mod_to_equations. lia.
Qed.

(** ** Theorems *)

(** Two chunked readers and a small reference string for the witnesses. *)
Definition cs_ref (a b : bytes) : Z := if decide (a = b) then 0 else 1.
#[local] Instance ref_simd : StrSimd := {
  memcmp_fast := cs_ref;
  tfw_cstricmp a b := cs_ref (map TFW_LC a) (map TFW_LC b)
}.
#[local] Instance ref_simd_ok : StrSimdOk ref_simd.
Proof. split; intros; simpl; unfold cs_ref; case_decide; naive_solver. Qed.

Definition mk_plain (b : bytes) : TfwStr := MkStr b [] 0 (zlen b) 0 0 0 0.
Definition mk_str (l : list bytes) : TfwStr :=
  MkStr [] (map mk_plain l) 0 (zlen (concat l)) (zlen l) 0 0 0.

Lemma mk_str_ok l : l <> [] -> zlen (concat l) < 2 ^ 31 -> str_ok (mk_str l) /\ flat (mk_str l) = concat l.
Proof.
  intros Hne Hm. assert (Ht : texts (map mk_plain l) = concat l).
  { unfold texts. rewrite map_map. f_equal. rewrite <- (map_id l) at 2. apply map_ext.
    intros b. unfold text. simpl. apply take_ge. unfold zlen. lia. }
  destruct (chunks_str_ok (mk_str l) (map mk_plain l)) as [H1 H2]; try done.
  - apply Forall_map, Forall_forall. intros b _. split; [done |]. simpl. pose proof (zlen_nonneg b). lia.
  - by destruct l.
  - unfold zlen. by rewrite length_map.
  - by rewrite Ht.
  - split; [done |]. unfold flat. by rewrite H2.
Qed.



(** The comment of [__tfw_strcmpspn()] says that it returns 0, 1 or -1; for "ab" and "abcd" it returns -2. *)
Theorem strcmpspn_prefix_value :
  __tfw_strcmpspn (mk_str [[97; 98]]) (mk_str [[97; 98; 99; 100]]) 58 true = Ok (-2).
Proof. vm_compute. reflexivity. Qed.

(** tfw_str_eq_cstr() and tfw_str_eq_cstr_off() decide on a chunked string exactly
    whether its text, from the offset on, equals the C string or starts with it, up to case when the
    flag asks for it; an offset past the end gives false. *)
Theorem eq_cstr_correct `{SI : StrSimd, SO : !StrSimdOk SI} s cstr offset prefix casei :
  str_ok s -> cstr <> [] ->
  tfw_str_eq_cstr s cstr prefix casei = Ok (eq_spec prefix casei cstr (flat s)) /\
  tfw_str_eq_cstr_off s offset cstr prefix casei =
    Ok (if offset <? 0 then false
        else eq_spec prefix casei cstr (drop (Z.to_nat offset) (flat s))).
Proof.
  intros H Hne. split; [by apply eq_cstr_ok |].
  destruct (offset <? 0) eqn:E; bool_hyps; [| by apply eq_cstr_off_ok].
  unfold tfw_str_eq_cstr_off. rewrite (ok_dup _ H). simpl.
  rewrite (proj2 (Z.eqb_neq (zlen cstr) 0)) by (intros ?%zlen_nil_inv; done).
  by rewrite (proj2 (Z.ltb_lt offset 0)).
Qed.

Lemma eq_cstr_correct_witness :
  tfw_str_eq_cstr_off (mk_str [[1; 2]; [3]; [52; 5]]) 2 [3; 52] true false = Ok true.
Proof.
  destruct (mk_str_ok [[1; 2]; [3]; [52; 5]]) as [O1 F1]; [done | by vm_compute |].
  destruct (eq_cstr_correct _ [3; 52] 2 true false O1 ltac:(done)) as [_ H]. rewrite F1 in H. exact H.
Defined.

(** tfw_strcpy() refuses a source longer than the destination with -E2BIG and
    leaves the destination alone; otherwise, for each of the four combinations of plain and compound
    strings, it stays inside the destination's buffers and the destination has the text of the source,
    when no chunk of a compound source is empty. *)
Theorem strcpy_correct dst src :
  str_ok dst -> str_ok src -> Forall (fun c => 0 < len c) (str_chunks src) \/ TFW_STR_PLAIN src = true ->
  if len dst <? len src then tfw_strcpy dst src = Ok (- E2BIG, dst)
  else exists dst', tfw_strcpy dst src = Ok (0, dst') /\ str_ok dst' /\ flat dst' = flat src.
Proof.
  intros Hd Hs Hpos. destruct (len dst <? len src) eqn:E; bool_hyps; [| by apply strcpy_ok].
  unfold tfw_strcpy. rewrite (ok_dup _ Hd), (ok_dup _ Hs). simpl.
  by rewrite (proj2 (Z.ltb_lt _ _)).
Qed.

Lemma strcpy_correct_witness :
  exists dst', tfw_strcpy (mk_str [[0; 0]; [0; 0; 0]; [0]]) (mk_str [[1; 2; 3]; [4]]) = Ok (0, dst') /\
    flat dst' = [1; 2; 3; 4].
Proof.
  destruct (mk_str_ok [[0; 0]; [0; 0; 0]; [0]]) as [O1 _]; [done | by vm_compute |].
  destruct (mk_str_ok [[1; 2; 3]; [4]]) as [O2 F2]; [done | by vm_compute |].
  pose proof (strcpy_correct _ _ O1 O2 ltac:(left; repeat constructor)) as H.
  destruct H as (d & Hd & _ & Hf). exists d. split; [exact Hd |]. rewrite Hf. exact F2.
Defined.

(** A source that ends with an empty chunk, copied to a destination of exactly its length: the loop
    moves on to a chunk behind the destination's last one. *)
Theorem strcpy_empty_chunk_overrun :
  tfw_strcpy (mk_str [[0]; [0]]) (mk_str [[1]; [2]; []]) = Bug.
Proof. reflexivity. Qed.

(** Inserting a string in front of a chunk (tfw_str_insert(), tfw_strcat()) and
    deleting a chunk change the list of chunks, and so the text, exactly there and keep the length
    consistent; a position out of range is -ERANGE and a failed allocation -ENOMEM, both without a
    change. *)
Theorem str_edit_correct dst src chunk :
  str_ok dst -> str_ok src -> 0 <= chunk -> len dst + len src < 2 ^ 31 ->
  zlen (str_chunks dst) + zlen (str_chunks src) < UINT_MAX ->
  (if zlen (str_chunks dst) <? chunk then tfw_str_insert true dst src chunk = Ok (- ERANGE, dst)
   else exists dst', tfw_str_insert true dst src chunk = Ok (0, dst') /\ str_ok dst' /\
     flat dst' = texts (take (Z.to_nat chunk) (str_chunks dst)) ++ flat src
                 ++ texts (drop (Z.to_nat chunk) (str_chunks dst))) /\
  (exists dst', tfw_strcat true dst src = Ok (0, dst') /\ str_ok dst' /\ flat dst' = flat dst ++ flat src) /\
  tfw_strcat false dst src = Ok (- ENOMEM, dst) /\
  (TFW_STR_PLAIN dst = false -> chunk < nchunks dst ->
   exists dst', tfw_str_del_chunk dst chunk = Ok dst' /\
     flat dst' = texts (delete (Z.to_nat chunk) (str_chunks dst)) /\ len dst' = zlen (flat dst')).
Proof.
  intros Hd Hs Hc Hm Hmax. pose proof (zlen_str_chunks _ Hd) as Hz. pose proof (zlen_nonneg (str_chunks dst)).
  assert (Hflat : forall d cs, str_chunks d = cs -> flat d = texts cs) by (intros d cs <-; done).
  split_and!.
  - unfold tfw_str_insert. rewrite <- Hz. destruct (_ <? chunk) eqn:E; [done |]. bool_hyps.
    destruct (insert_ok dst src chunk) as (d & -> & Hok & Hsc); try done; try lia.
    exists d. split_and!; try done. rewrite (Hflat _ _ Hsc), !texts_app. done.
  - unfold tfw_strcat. rewrite <- Hz.
    destruct (insert_ok dst src (zlen (str_chunks dst))) as (d & -> & Hok & Hsc); try done; try lia.
    exists d. split_and!; try done. rewrite (Hflat _ _ Hsc), !texts_app.
    unfold zlen. rewrite Nat2Z.id, take_ge, drop_ge by lia. simpl. by rewrite app_nil_r.
  - unfold tfw_strcat, __tfw_str_insert. rewrite (ok_dup _ Hd), (ok_dup _ Hs). simpl.
    unfold __str_grow_tree. simpl. destruct (_ || _); [| done]. by destruct (_ <=? _).
  - intros Hp Hlt. by apply del_chunk_ok.
Qed.

Lemma str_edit_correct_witness :
  exists dst', tfw_str_insert true (mk_str [[1]; [2]]) (mk_str [[3; 4]; [5]]) 1 = Ok (0, dst') /\
    str_ok dst' /\ flat dst' = [1; 3; 4; 5; 2].
Proof.
  destruct (mk_str_ok [[1]; [2]]) as [O1 _]; [done | by vm_compute |].
  destruct (mk_str_ok [[3; 4]; [5]]) as [O2 F2]; [done | by vm_compute |].
  destruct (str_edit_correct _ _ 1 O1 O2 ltac:(lia) ltac:(by vm_compute) ltac:(by vm_compute)) as [H _].
  rewrite F2 in H. exact H.
Defined.

(** Tfw_ultoa() and tfw_ultohex() write exactly the digits of a 64-bit number, as
    many as __dig_num_dec() and __dig_num_hex() announce, at the beginning of the buffer and nothing
    behind; reading the digits gives the number back; a buffer that is too small is left alone and 0
    is returned, which never happens with 20 and 16 bytes. *)
Theorem ultoa_roundtrip ai buf l :
  is_u64 ai -> 0 <= l <= zlen buf ->
  (exists ds, tfw_ultoa ai buf l =
      Ok (if l <? __dig_num_dec ai then (0, buf)
          else (__dig_num_dec ai, ds ++ drop (Z.to_nat (__dig_num_dec ai)) buf)) /\
      zlen ds = __dig_num_dec ai /\ zlen ds <= 20 /\ num_val 10 ds = ai) /\
  (exists ds, tfw_ultohex ai buf l =
      Ok (if l <? __dig_num_hex ai then (0, buf)
          else (__dig_num_hex ai, ds ++ drop (Z.to_nat (__dig_num_hex ai)) buf)) /\
      zlen ds = __dig_num_hex ai /\ zlen ds <= 16 /\ num_val 16 ds = ai).
Proof.
  intros Ha Hl. split.
  - destruct (dig_num_dec_ok ai Ha) as [Hd Hn]. pose proof Hd as (Hp & _).
    set (n := __dig_num_dec ai) in *. unfold tfw_ultoa. fold n.
    assert (Hz : n <= zlen (replicate 20 0)) by (unfold zlen; rewrite length_replicate; lia).
    destruct (l <? n) eqn:E; bool_hyps.
    + destruct (digits_loop_ok 20 10 ai n (replicate 20 0)) as (ds & _ & ? & ?); try done; try lia.
      { apply Ha. } exists ds. split_and!; try done. lia.
    + destruct (digits_loop_ok 20 10 ai n buf) as (ds & -> & ? & ?); try done; try lia.
      { apply Ha. } exists ds. split_and!; try done. lia.
  - destruct (dig_num_hex_ok ai Ha) as [Hd Hn]. pose proof Hd as (Hp & _).
    set (n := __dig_num_hex ai) in *. unfold tfw_ultohex. fold n.
    assert (Hz : n <= zlen (replicate 20 0)) by (unfold zlen; rewrite length_replicate; lia).
    destruct (l <? n) eqn:E; bool_hyps.
    + destruct (digits_loop_ok 16 16 ai n (replicate 20 0)) as (ds & _ & ? & ?); try done; try lia.
      { apply Ha. } exists ds. split_and!; try done. lia.
    + destruct (digits_loop_ok 16 16 ai n buf) as (ds & -> & ? & ?); try done; try lia.
      { apply Ha. } exists ds. split_and!; try done. lia.
Qed.

Lemma ultoa_roundtrip_witness :
  exists ds, tfw_ultoa 18446744073709551615 (replicate 20 0) 20 = Ok (20, ds) /\ zlen ds = 20 /\
    num_val 10 ds = 18446744073709551615.
Proof.
  destruct (ultoa_roundtrip 18446744073709551615 (replicate 20 0) 20) as [(ds & Hd & Hz & _ & Hv) _].
  - split; by vm_compute.
  - split; by vm_compute.
  - exists ds. change (__dig_num_dec 18446744073709551615) with 20 in *. simpl in Hd.
    rewrite app_nil_r in Hd. split; [exact Hd | split; [exact Hz | exact Hv]].
Defined.

(** tfw_str_to_cstr() writes the first buf_size - 1 bytes of a text
    without NUL in order, and tfw_str_crc32_calc() is the checksum of the text, however it is cut. *)
Theorem str_linear_correct `{C : Crc32, CO : !Crc32Ok C} s buf_size :
  str_ok s -> 0 < buf_size -> Forall (fun c => c <> 0) (flat s) ->
  tfw_str_to_cstr s buf_size = Ok (take (Z.to_nat (buf_size - 1)) (flat s)) /\
  tfw_str_crc32_calc s = Ok (crc32 0 (flat s)).
Proof.
  intros H Hb Hz. unfold tfw_str_to_cstr, tfw_str_crc32_calc. rewrite (ok_dup _ H).
  rewrite (proj2 (Z.leb_gt buf_size 0)) by done. pose proof (ok_len _ H). pose proof (ok_max _ H).
  split; [apply to_cstr_loop_ok; [apply H | lia | unfold flat in *; lia | done] | apply crc32_loop_ok, H].
Qed.

#[local] Instance sum_crc : Crc32 := fun c b => fold_left Z.add b c.
#[local] Instance sum_crc_ok : Crc32Ok sum_crc.
Proof. split; intros; unfold crc32, sum_crc; [done | by rewrite fold_left_app]. Qed.

Lemma str_linear_correct_witness :
  tfw_str_to_cstr (mk_str [[1; 2]; [3]; [4]]) 4 = Ok [1; 2; 3] /\
  tfw_str_crc32_calc (mk_str [[1; 2]; [3]; [4]]) = Ok 10.
Proof.
  destruct (mk_str_ok [[1; 2]; [3]; [4]]) as [O1 F1]; [done | by vm_compute |].
  destruct (str_linear_correct _ 4 O1 ltac:(lia) ltac:(rewrite F1; repeat constructor; done)) as [H1 H2]. rewrite F1 in H1, H2.
  split; [exact H1 | exact H2].
Defined.
