(* ===== verification/Hash.v ===== *)
(** * Hashing

    The CRC32-based hash of strings: [__hash_calc()] and its wrappers ([lib/hash.c],
    [lib/hash.h]) for a buffer, [tfw_hash_str_len()] ([fw/hash.c]) for a compound
    string.  The hash is two checksums over alternating groups of eight bytes, so that
    the CPU can compute them in parallel; the second function has to keep the place
    in the pattern when a group crosses a chunk boundary.  The theorem is that the
    hash depends on the text only.

    [CRCB] and [CRCQ] are the CPU's [crc32b] and [crc32q] on bit level. *)

From S2P Require Import Prelude Str.

#[local] Open Scope Z_scope.

(** ** The instructions *)

(** One step of the division by the Castagnoli polynomial, bits reflected. *)
Definition crc_bit (x : Z) : Z :=
  if Z.testbit x 0 then Z.lxor (Z.shiftr x 1) 0x82F63B78 else Z.shiftr x 1.

Definition CRCB (crc data8 : Z) : Z := Nat.iter 8 crc_bit (Z.lxor crc data8).
Definition CRCQ (crc data64 : Z) : Z := Nat.iter 64 crc_bit (Z.lxor crc data64).

(** ** [lib/hash.c] *)

Fixpoint le_word (b : bytes) : Z :=
  match b with
  | [] => 0
  | x :: b => x + 256 * le_word b
  end.

(** [d[i]] of [unsigned long *d]. *)
Definition ld64 (d : bytes) (i : Z) : option Z := le_word <$> slice d (8 * i) 8.
Definition ld8 (d : bytes) (i : Z) : option Z := if i <? 0 then None else d !! Z.to_nat i.

(** The loop over pairs of words. *)
Fixpoint crcq_loop (fuel : nat) (d : bytes) (i n crc0 crc1 : Z) : outcome (Z * Z) :=
  if i <? n then
    match fuel with
    | O => Bug
    | S fuel =>
        match ld64 d i, ld64 d (i + 1) with
        | Some q0, Some q1 => crcq_loop fuel d (i + 2) n (CRCQ crc0 q0) (CRCQ crc1 q1)
        | _, _ => Bug
        end
    end
  else Ok (crc0, crc1).

(** [for ( ; n < len; ++n) CRCB(crc, data[n])] *)
Fixpoint crcb_loop (fuel : nat) (d : bytes) (n len crc : Z) : outcome Z :=
  if n <? len then
    match fuel with
    | O => Bug
    | S fuel =>
        match ld8 d n with
        | Some b => crcb_loop fuel d (n + 1) len (CRCB crc b)
        | None => Bug
        end
    end
  else Ok crc.

Definition __hash_calc (crc0 crc1 : Z) (d : bytes) (len : Z) : outcome (Z * Z) :=
  let n := Z.land (Z.shiftr len 3) (u64 (Z.lnot 1)) in
  match crcq_loop (Z.to_nat n) d 0 n crc0 crc1 with
  | Bug => Bug
  | Ok (crc0, crc1) =>
      if Z.shiftl (n + 1) 3 <=? len then
        match ld64 d n with
        | None => Bug
        | Some q =>
            match crcb_loop 8 d (Z.shiftl (n + 1) 3) len crc1 with
            | Bug => Bug
            | Ok crc1 => Ok (CRCQ crc0 q, crc1)
            end
        end
      else
        match crcb_loop 8 d (Z.shiftl n 3) len crc0 with
        | Bug => Bug
        | Ok crc0 => Ok (crc0, crc1)
        end
  end.

Definition hash_join (c : Z * Z) : Z := Z.lor (u64 (Z.shiftl c.2 32)) c.1.

Definition hash_calc (d : bytes) (len : Z) : outcome Z :=
  match __hash_calc 0 0 d len with
  | Ok c => Ok (hash_join c)
  | Bug => Bug
  end.

Definition hash_calc_update (d : bytes) (len hash : Z) : outcome Z :=
  match __hash_calc (Z.shiftr hash 32) (Z.land hash 0xFFFFFFFF) d len with
  | Ok c => Ok (hash_join c)
  | Bug => Bug
  end.

(** ** [fw/hash.c] *)

(** The loops that complete a group at the head of a chunk: bytes from [p] on, until
    [tail] reaches [lim]; the flag says that the chunk has ended first. *)
Fixpoint tail_loop (fuel : nat) (d : bytes) (p e tail lim crc : Z) : outcome (Z * Z * Z * bool) :=
  if tail <? lim then
    match fuel with
    | O => Bug
    | S fuel =>
        if p =? e then Ok (p, tail, crc, true)
        else match ld8 d p with
             | Some b => tail_loop fuel d (p + 1) e (tail + 1) lim (CRCB crc b)
             | None => Bug
             end
    end
  else Ok (p, tail, crc, false).

(** One chunk, of which [e] bytes are hashed. *)
Definition hash_chunk (d : bytes) (e tail crc0 crc1 : Z) : outcome (Z * Z * Z) :=
  let whole p crc0 crc1 :=
    match (if p <=? zlen d then __hash_calc crc0 crc1 (drop (Z.to_nat p) d) (e - p) else Bug) with
    | Ok (crc0, crc1) => Ok (Z.land (e - p) 0xf, crc0, crc1)
    | Bug => Bug
    end in
  if negb (tail =? 0) then
    match tail_loop 16 d 0 e tail 8 crc0 with
    | Bug => Bug
    | Ok (_, tail, crc0, true) => Ok (tail, crc0, crc1)
    | Ok (p, tail, crc0, false) =>
        match tail_loop 16 d p e tail 16 crc1 with
        | Bug => Bug
        | Ok (_, tail, crc1, true) => Ok (tail, crc0, crc1)
        | Ok (p, _, crc1, false) => whole p crc0 crc1
        end
    end
  else whole 0 crc0 crc1.

Fixpoint hash_chunks (cs : list TfwStr) (str_len tail crc0 crc1 : Z) : outcome (Z * Z) :=
  match cs with
  | [] => Ok (crc0, crc1)
  | c :: cs =>
      if str_len =? 0 then Ok (crc0, crc1)
      else
        let l := Z.min (len c) str_len in
        match hash_chunk (data c) l tail crc0 crc1 with
        | Bug => Bug
        | Ok (tail, crc0, crc1) => hash_chunks cs (str_len - l) tail crc0 crc1
        end
  end.

Definition tfw_hash_str_len (str : TfwStr) (str_len : Z) : outcome Z :=
  match (if TFW_STR_PLAIN str
         then __hash_calc 0 0 (data str) (Z.min (len str) str_len)
         else hash_chunks (take (Z.to_nat (nchunks str)) (chunks str)) str_len 0 0 0) with
  | Ok c => Ok (hash_join c)
  | Bug => Bug
  end.

Definition tfw_hash_str (str : TfwStr) : outcome Z := tfw_hash_str_len str (2 ^ 64 - 1).

(** ** The reference: one byte at a time *)

(** [t] is the place in the pattern of sixteen bytes. *)
Fixpoint mix (t : Z) (b : bytes) (c : Z * Z) : Z * Z :=
  match b with
  | [] => c
  | x :: b => mix ((t + 1) mod 16) b (if t <? 8 then (CRCB c.1 x, c.2) else (c.1, CRCB c.2 x))
  end.

Lemma crc_bit_high x y : crc_bit (Z.lxor x (Z.shiftl y 1)) = Z.lxor (crc_bit x) y.
Proof.
  unfold crc_bit. rewrite Z.lxor_spec, Z.shiftl_spec_low by lia. rewrite xorb_false_r.
  rewrite Z.shiftr_lxor, Z.shiftr_shiftl_l, Z.sub_diag, Z.shiftl_0_r by lia.
  destruct (Z.testbit x 0); [| done].
  rewrite !Z.lxor_assoc. f_equal. apply Z.lxor_comm.
Qed.

Lemma crc_iter_high k x y :
  Nat.iter k crc_bit (Z.lxor x (Z.shiftl y (Z.of_nat k))) = Z.lxor (Nat.iter k crc_bit x) y.
Proof.
  revert x y. induction k as [|k IH]; intros x y.
  - by rewrite Z.shiftl_0_r.
  - rewrite Nat2Z.inj_succ, <- Z.add_1_l, <- Z.shiftl_shiftl by lia.
    change (crc_bit (Nat.iter k crc_bit (Z.lxor x (Z.shiftl (Z.shiftl y 1) (Z.of_nat k))))
            = Z.lxor (crc_bit (Nat.iter k crc_bit x)) y).
    rewrite IH. apply crc_bit_high.
Qed.

Lemma byte_word x w : is_u8 x -> 0 <= w -> x + 256 * w = Z.lxor x (Z.shiftl w 8).
Proof.
  unfold is_u8. intros Hx Hw. rewrite Z.shiftl_mul_pow2 by lia. change (2 ^ 8) with 256 in *.
  rewrite <- Z.add_nocarry_lxor; [lia |]. apply Z.bits_inj'. intros n Hn.
  rewrite Z.land_spec, Z.bits_0. destruct (Z.lt_ge_cases n 8).
  - change 256 with (2 ^ 8). rewrite Z.mul_pow2_bits_low by lia. apply andb_false_r.
  - rewrite Z.bits_above_log2; [done | lia |].
    destruct (Z.eq_dec x 0) as [-> |]; [simpl; lia |]. apply Z.log2_lt_pow2; [lia |].
    apply Z.lt_le_trans with (2 ^ 8); [lia | apply Z.pow_le_mono_r; lia].
Qed.

Lemma le_word_nonneg b : bytes_ok b -> 0 <= le_word b.
Proof. induction 1 as [|x b [? ?] _ IH]; simpl; lia. Qed.

Lemma crc_word b crc : bytes_ok b ->
  Nat.iter (8 * length b) crc_bit (Z.lxor crc (le_word b)) = foldl CRCB crc b.
Proof.
  intros H. revert crc. induction H as [|x b Hx Hb IH]; intros crc; [apply Z.lxor_0_r |].
  cbn [length le_word foldl]. rewrite byte_word by (done || by apply le_word_nonneg).
  replace (8 * S (length b))%nat with (8 * length b + 8)%nat by lia.
  rewrite Nat.iter_add, <- Z.lxor_assoc. change 8 with (Z.of_nat 8) at 1.
  rewrite crc_iter_high. apply IH.
Qed.

(** [crc32q] does the work of eight [crc32b]. *)
Lemma CRCQ_bytes b crc : bytes_ok b -> length b = 8%nat -> CRCQ crc (le_word b) = foldl CRCB crc b.
Proof. intros Hb Hl. rewrite <- crc_word, Hl by done. done. Qed.

Lemma mix_app t a b c : 0 <= t < 16 ->
  mix t (a ++ b) c = mix ((t + zlen a) mod 16) b (mix t a c).
Proof.
  revert t c. induction a as [|x a IH]; intros t c Ht.
  - simpl. by rewrite Z.add_0_r, Z.mod_small.
  - cbn [mix app]. rewrite IH by (apply Z.mod_pos_bound; lia). f_equal.
    rewrite Zplus_mod_idemp_l. f_equal. unfold zlen. simpl length. lia.
Qed.

Lemma mix_low t a c : 0 <= t -> t + zlen a <= 8 -> mix t a c = (foldl CRCB c.1 a, c.2).
Proof.
  revert t c. induction a as [|x a IH]; intros t [c0 c1] Ht Hl; [done |].
  unfold zlen in *. cbn [length] in Hl. cbn [mix foldl].
  rewrite (proj2 (Z.ltb_lt t 8)) by lia.
  destruct a as [|y a]; [done |]. cbn [length] in Hl.
  rewrite Z.mod_small by lia. rewrite IH; [done | lia |]. cbn [length]. lia.
Qed.

Lemma mix_high t a c : 8 <= t -> t + zlen a <= 16 -> mix t a c = (c.1, foldl CRCB c.2 a).
Proof.
  revert t c. induction a as [|x a IH]; intros t [c0 c1] Ht Hl; [done |].
  unfold zlen in *. cbn [length] in Hl. cbn [mix foldl].
  rewrite (proj2 (Z.ltb_ge t 8)) by lia.
  destruct a as [|y a]; [done |]. cbn [length] in Hl.
  rewrite Z.mod_small by lia. rewrite IH; [done | lia |]. cbn [length]. lia.
Qed.

(** [k] bytes from [p] on. *)
Definition seg (d : bytes) (p k : Z) : bytes := take (Z.to_nat k) (drop (Z.to_nat p) d).

Lemma seg_split d p a b : 0 <= p -> 0 <= a -> 0 <= b -> seg d p (a + b) = seg d p a ++ seg d (p + a) b.
Proof.
  intros. unfold seg. rewrite !Z2Nat.inj_add by lia. rewrite <- drop_drop.
  by rewrite take_take_drop.
Qed.

Lemma zlen_seg d p k : 0 <= p -> 0 <= k -> p + k <= zlen d -> zlen (seg d p k) = k.
Proof. intros. unfold seg, zlen in *. rewrite length_take, length_drop. lia. Qed.

Lemma seg_nil d p : seg d p 0 = [].
Proof. done. Qed.

Lemma seg_cons d p b : 0 <= p -> d !! Z.to_nat p = Some b -> seg d p 1 = [b].
Proof. intros Hp Hb. unfold seg. by rewrite (drop_S _ _ _ Hb). Qed.

Lemma seg_ok d p k : bytes_ok d -> bytes_ok (seg d p k).
Proof. intros. by apply Forall_take, Forall_drop. Qed.

Lemma seg_drop d p q k : 0 <= p -> 0 <= q -> seg (drop (Z.to_nat p) d) q k = seg d (p + q) k.
Proof. intros. unfold seg. rewrite drop_drop, Z2Nat.inj_add by lia. done. Qed.

Lemma ld8_seg d p : 0 <= p < zlen d -> exists b, ld8 d p = Some b /\ seg d p 1 = [b].
Proof.
  intros Hp. destruct (lookup_lt_is_Some_2 d (Z.to_nat p)) as [b Hb]; [unfold zlen in *; lia |].
  exists b. unfold ld8. rewrite (proj2 (Z.ltb_ge p 0)) by lia. split; [done | apply seg_cons; [lia | done]].
Qed.

Lemma ld64_seg d i : 0 <= i -> 8 * i + 8 <= zlen d -> ld64 d i = Some (le_word (seg d (8 * i) 8)).
Proof. intros. unfold ld64. by rewrite slice_some by lia. Qed.

Lemma CRCQ_seg d p crc : bytes_ok d -> 0 <= p -> p + 8 <= zlen d ->
  CRCQ crc (le_word (seg d p 8)) = foldl CRCB crc (seg d p 8).
Proof.
  intros Hd Hp Hl. apply CRCQ_bytes; [by apply seg_ok |].
  pose proof (zlen_seg d p 8 ltac:(lia) ltac:(lia) ltac:(lia)) as Hz. unfold zlen in Hz. lia.
Qed.

Lemma crcb_loop_seg fuel d n l crc :
  0 <= n <= l -> l <= zlen d -> l - n <= Z.of_nat fuel ->
  crcb_loop fuel d n l crc = Ok (foldl CRCB crc (seg d n (l - n))).
Proof.
  revert n crc. induction fuel as [|fuel IH]; intros n crc Hn Hl Hf; cbn [crcb_loop];
    (destruct (Z.ltb_spec n l); [| replace (l - n) with 0 by lia; done]); [lia |].
  destruct (ld8_seg d n) as (b & -> & Hs); [lia |]. rewrite IH by lia.
  replace (l - n) with (1 + (l - (n + 1))) by lia. rewrite seg_split, Hs by lia. done.
Qed.

Lemma tail_loop_seg fuel d p e tail lim crc k :
  0 <= p <= e -> e <= zlen d -> tail <= lim -> lim - tail <= Z.of_nat fuel ->
  k = Z.min (lim - tail) (e - p) ->
  tail_loop fuel d p e tail lim crc = Ok (p + k, tail + k, foldl CRCB crc (seg d p k), tail + k <? lim).
Proof.
  revert p tail crc k. induction fuel as [|fuel IH]; intros p tail crc k Hp He Ht Hf Hk; cbn [tail_loop];
    (destruct (Z.ltb_spec tail lim);
     [| replace k with 0 by lia; rewrite !Z.add_0_r, (proj2 (Z.ltb_ge tail lim)) by lia; done]); [lia |].
  destruct (Z.eqb_spec p e).
  - replace k with 0 by lia. rewrite !Z.add_0_r, (proj2 (Z.ltb_lt tail lim)) by lia. done.
  - destruct (ld8_seg d p) as (b & -> & Hs); [lia |].
    rewrite (IH (p + 1) (tail + 1) _ (k - 1)) by lia.
    replace (seg d p k) with (seg d p (1 + (k - 1))) by (f_equal; lia).
    rewrite seg_split, Hs by lia. cbn [foldl app].
    by replace (p + 1 + (k - 1)) with (p + k) by lia; replace (tail + 1 + (k - 1)) with (tail + k) by lia.
Qed.

(** A group of sixteen bytes. *)
Lemma mix_pair d p c : bytes_ok d -> 0 <= p -> p + 16 <= zlen d ->
  mix 0 (seg d p 16) c = (CRCQ c.1 (le_word (seg d p 8)), CRCQ c.2 (le_word (seg d (p + 8) 8))).
Proof.
  intros Hd Hp Hl. change 16 with (8 + 8). rewrite seg_split, mix_app by lia.
  rewrite zlen_seg by lia. change ((0 + 8) mod 16) with 8.
  rewrite (mix_low 0) by (rewrite ?zlen_seg by lia; lia).
  rewrite (mix_high 8) by (rewrite ?zlen_seg by lia; lia). cbn [fst snd].
  by rewrite !CRCQ_seg by (done || lia).
Qed.

Lemma crcq_loop_seg fuel d i n c0 c1 :
  bytes_ok d -> 0 <= i -> 0 <= n -> i = n - 2 * Z.of_nat (Z.to_nat ((n - i) / 2)) ->
  8 * n <= zlen d -> n - i <= 2 * Z.of_nat fuel ->
  crcq_loop fuel d i n c0 c1 = Ok (mix 0 (seg d (8 * i) (8 * (n - i))) (c0, c1)).
Proof.
  intros Hd. set (k := Z.to_nat ((n - i) / 2)). clearbody k.
  revert i c0 c1 fuel. induction k as [|k IH]; intros i c0 c1 fuel Hi Hn Hk Hl Hf.
  - destruct fuel; cbn [crcq_loop]; rewrite (proj2 (Z.ltb_ge i n)) by lia;
      replace (8 * (n - i)) with 0 by lia; done.
  - destruct fuel; [lia |]. cbn [crcq_loop]. rewrite (proj2 (Z.ltb_lt i n)) by lia.
    rewrite !ld64_seg by lia. rewrite IH by lia.
    replace (8 * (n - i)) with (16 + 8 * (n - (i + 2))) by lia.
    rewrite seg_split, mix_app, zlen_seg by lia. change ((0 + 16) mod 16) with 0.
    rewrite mix_pair by (done || lia). cbn [fst snd].
    by replace (8 * i + 8) with (8 * (i + 1)) by lia; replace (8 * i + 16) with (8 * (i + 2)) by lia.
Qed.

Lemma even_words len : 0 <= len < 2 ^ 64 ->
  Z.land (Z.shiftr len 3) (u64 (Z.lnot 1)) = 2 * (len / 16).
Proof.
  intros Hl. change 16 with (8 * 2). rewrite <- Z.div_div by lia.
  rewrite Z.shiftr_div_pow2 by lia. change (2 ^ 3) with 8.
  assert (Hq : 0 <= len / 8 < 2 ^ 64).
  { pose proof (Z.div_mod len 8 ltac:(lia)). pose proof (Z.mod_pos_bound len 8 ltac:(lia)). lia. }
  set (q := len / 8) in *. clearbody q. clear Hl len.
  transitivity (Z.ldiff q (Z.ones 1)).
  2: { rewrite Z.ldiff_ones_r, Z.shiftl_mul_pow2, Z.shiftr_div_pow2 by lia. change (2 ^ 1) with 2. lia. }
  change (u64 (Z.lnot 1)) with (Z.ldiff (Z.ones 64) (Z.ones 1)).
  apply Z.bits_inj'. intros n Hn. rewrite Z.land_spec, !Z.ldiff_spec, (Z.testbit_ones_nonneg 64) by lia.
  destruct (Z.ltb_spec n 64); [done |]. rewrite andb_false_r.
  rewrite (Z.bits_above_log2 q n); [done | lia |].
  destruct (Z.eq_dec q 0) as [-> |]; [simpl; lia |]. apply Z.log2_lt_pow2; [lia |].
  apply Z.lt_le_trans with (2 ^ 64); [lia | apply Z.pow_le_mono_r; lia].
Qed.

(** [__hash_calc()] is the reference. *)
Lemma hash_calc_mix c0 c1 d l :
  bytes_ok d -> 0 <= l < 2 ^ 64 -> l <= zlen d ->
  __hash_calc c0 c1 d l = Ok (mix 0 (seg d 0 l) (c0, c1)).
Proof.
  intros Hd Hl Hz. unfold __hash_calc. rewrite even_words by done. cbv zeta.
  pose proof (Z.div_mod l 16 ltac:(lia)) as Hdm. pose proof (Z.mod_pos_bound l 16 ltac:(lia)) as Hmb.
  set (m := l / 16) in *. clearbody m. set (t := l mod 16) in *. clearbody t. subst l.
  rewrite crcq_loop_seg; [| done | lia | lia | | lia | lia].
  2: { rewrite Z.sub_0_r, Z.mul_comm, Z.div_mul by lia. lia. }
  rewrite Z.sub_0_r. change (8 * 0) with 0. replace (8 * (2 * m)) with (16 * m) by lia.
  rewrite (seg_split d 0 (16 * m) t), mix_app, zlen_seg by lia.
  rewrite !Z.add_0_l. replace ((16 * m) mod 16) with 0 by (rewrite Z.mul_comm, Z.mod_mul; lia).
  destruct (mix 0 (seg d 0 (16 * m)) (c0, c1)) as [e0 e1]. cbv iota beta.
  rewrite !Z.shiftl_mul_pow2 by lia. change (2 ^ 3) with 8.
  destruct (Z.leb_spec ((2 * m + 1) * 8) (16 * m + t)).
  - rewrite ld64_seg by lia. rewrite crcb_loop_seg by lia.
    replace (16 * m + t - (2 * m + 1) * 8) with (t - 8) by lia.
    replace (8 * (2 * m)) with (16 * m) by lia. replace ((2 * m + 1) * 8) with (16 * m + 8) by lia.
    replace t with (8 + (t - 8)) at 2 by lia. rewrite seg_split, mix_app, zlen_seg by lia.
    change ((0 + 8) mod 16) with 8. rewrite (mix_low 0) by (rewrite ?zlen_seg by lia; lia).
    rewrite (mix_high 8) by (rewrite ?zlen_seg by lia; lia). cbn [fst snd]. by rewrite CRCQ_seg by (done || lia).
  - rewrite crcb_loop_seg by lia. replace (16 * m + t - 2 * m * 8) with t by lia.
    replace (2 * m * 8) with (16 * m) by lia.
    by rewrite (mix_low 0) by (rewrite ?zlen_seg by lia; lia).
Qed.

Lemma land_15 x : Z.land x 0xf = x mod 16.
Proof. change 0xf with (Z.ones 4). by rewrite Z.land_ones by lia. Qed.

(** One chunk continues the pattern where the last one left it. *)
Lemma hash_chunk_mix d e tail c0 c1 :
  bytes_ok d -> 0 <= tail < 16 -> 0 <= e < 2 ^ 64 -> e <= zlen d ->
  hash_chunk d e tail c0 c1 =
  Ok ((tail + e) mod 16, (mix tail (seg d 0 e) (c0, c1)).1, (mix tail (seg d 0 e) (c0, c1)).2).
Proof.
  intros Hd Ht He Hz. unfold hash_chunk. cbv zeta.
  assert (Hw : forall p x y, 0 <= p <= e ->
    match (if p <=? zlen d then __hash_calc x y (drop (Z.to_nat p) d) (e - p) else Bug) with
    | Ok (x, y) => Ok (Z.land (e - p) 15, x, y)
    | Bug => Bug
    end = Ok ((e - p) mod 16, (mix 0 (seg d p (e - p)) (x, y)).1, (mix 0 (seg d p (e - p)) (x, y)).2)).
  { intros p x y Hp. rewrite (proj2 (Z.leb_le p (zlen d))) by lia.
    rewrite hash_calc_mix; [| by apply Forall_drop | lia | unfold zlen in *; rewrite length_drop; lia].
    rewrite seg_drop, Z.add_0_r, land_15 by lia. by destruct (mix 0 _ _). }
  destruct (Z.eqb_spec tail 0) as [-> |]; cbn [negb].
  { rewrite Hw by lia. by rewrite Z.sub_0_r, Z.add_0_l. }
  destruct (ex_intro (fun k => k = Z.max 0 (Z.min (8 - tail) e)) _ eq_refl) as [k1 Hk1].
  assert (H1 : exists f, tail_loop 16 d 0 e tail 8 c0 = Ok (k1, tail + k1, foldl CRCB c0 (seg d 0 k1), f)
               /\ f = (tail + k1 <? 8)).
  { destruct (Z.leb_spec tail 8).
    - eexists. split; [rewrite (tail_loop_seg 16 d 0 e tail 8 c0 k1), Z.add_0_l by lia; done | done].
    - exists false. replace k1 with 0 by lia. rewrite Z.add_0_r. cbn [tail_loop]. rewrite (proj2 (Z.ltb_ge tail 8)) by lia. done. }
  destruct H1 as (f & -> & ->).
  assert (Hm1 : mix tail (seg d 0 k1) (c0, c1) = (foldl CRCB c0 (seg d 0 k1), c1)).
  { destruct (Z.leb_spec tail 8); [apply mix_low; rewrite ?zlen_seg by lia; lia |].
    by replace k1 with 0 by lia. }
  destruct (Z.ltb_spec (tail + k1) 8).
  { replace e with k1 by lia. rewrite Hm1. by rewrite Z.mod_small by lia. }
  destruct (ex_intro (fun k => k = Z.min (16 - (tail + k1)) (e - k1)) _ eq_refl) as [k2 Hk2].
  rewrite (tail_loop_seg 16 d k1 e (tail + k1) 16 c1 k2) by lia.
  assert (Hm2 : mix tail (seg d 0 (k1 + k2)) (c0, c1)
                = (foldl CRCB c0 (seg d 0 k1), foldl CRCB c1 (seg d k1 k2))).
  { rewrite seg_split, mix_app, Hm1, zlen_seg by lia.
    rewrite Z.add_0_l. destruct (Z.eq_dec (tail + k1) 16) as [E|].
    - replace k2 with 0 by lia. done.
    - rewrite Z.mod_small by lia. apply mix_high; rewrite ?zlen_seg by lia; lia. }
  destruct (Z.ltb_spec (tail + k1 + k2) 16).
  { replace e with (k1 + k2) by lia. rewrite Hm2, Z.add_assoc. by rewrite Z.mod_small by lia. }
  rewrite Hw by lia. replace (seg d 0 e) with (seg d 0 (k1 + k2 + (e - (k1 + k2)))) by (f_equal; lia).
  rewrite (seg_split d 0 (k1 + k2)), mix_app, Hm2, zlen_seg by lia.
  replace (tail + (k1 + k2)) with 16 by lia. change (16 mod 16) with 0. rewrite Z.add_0_l.
  replace (tail + e) with (e - (k1 + k2) + 1 * 16) by lia. by rewrite Z.mod_add by lia.
Qed.

Lemma hash_chunks_mix cs n tail c0 c1 :
  Forall (fun c => chunk_ok c /\ bytes_ok (data c)) cs -> 0 <= tail < 16 -> 0 <= n < 2 ^ 64 ->
  hash_chunks cs n tail c0 c1 = Ok (mix tail (take (Z.to_nat n) (texts cs)) (c0, c1)).
Proof.
  intros H. revert n tail c0 c1. induction H as [|c cs [Hc Hb] Hcs IH]; intros n tail c0 c1 Ht Hn.
  { change (texts []) with (@nil Z). by rewrite take_nil. }
  cbn [hash_chunks]. destruct (Z.eqb_spec n 0) as [-> |]; [done |].
  pose proof (zlen_text c Hc) as Hl. destruct Hc as [Hp Hlc]. cbv zeta.
  set (l := Z.min (len c) n). rewrite hash_chunk_mix by (done || lia).
  rewrite IH; [| apply Z.mod_pos_bound; lia | lia].
  assert (E : take (Z.to_nat n) (texts (c :: cs)) = seg (data c) 0 l ++ take (Z.to_nat (n - l)) (texts cs)).
  { rewrite texts_cons, take_app. unfold zlen in Hl.
    f_equal; [| f_equal; lia]. unfold seg, text. change (Z.to_nat 0) with 0%nat.
    rewrite drop_0, take_take. f_equal. lia. }
  rewrite E, mix_app, zlen_seg by lia. by destruct (mix tail _ _).
Qed.

(** The text of a string as bytes. *)
Definition str_bytes_ok (s : TfwStr) : Prop := Forall (fun c => bytes_ok (data c)) (str_chunks s).

Lemma hash_str_mix s n : str_ok s -> str_bytes_ok s -> 0 <= n < 2 ^ 64 ->
  tfw_hash_str_len s n = Ok (hash_join (mix 0 (take (Z.to_nat n) (flat s)) (0, 0))).
Proof.
  intros Hs Hb Hn. unfold tfw_hash_str_len, flat, str_bytes_ok in *.
  destruct Hs as [_ _ Hc _ _]. unfold str_chunks in *. destruct (TFW_STR_PLAIN s) eqn:E.
  - apply Forall_cons in Hc as [Hc _]. apply Forall_cons in Hb as [Hb _]. pose proof (zlen_text s Hc) as Hl.
    destruct Hc as [_ Hc]. rewrite hash_calc_mix by (done || lia).
    rewrite texts_cons. unfold texts. cbn [map concat]. rewrite app_nil_r.
    unfold seg, text. change (Z.to_nat 0) with 0%nat. rewrite drop_0, take_take.
    replace (Z.to_nat n `min` Z.to_nat (len s))%nat with (Z.to_nat (Z.min (len s) n)) by lia. done.
  - rewrite hash_chunks_mix by (try lia; by apply Forall_and). done.
Qed.

Lemma flat_bytes_ok s : str_bytes_ok s -> bytes_ok (flat s).
Proof.
  intros Hb. unfold flat, texts. apply Forall_concat, Forall_map. unfold str_bytes_ok in Hb.
  apply (Forall_impl _ _ _ Hb). intros c Hc. by apply Forall_take.
Qed.

(** Checksums have 32 bits, hashes 64. *)
Lemma below_pow2 x n : 0 <= n -> 0 <= x < 2 ^ n <-> 0 <= x /\ Z.log2 x < n \/ x = 0.
Proof.
  intros Hn. pose proof (pow2_pos n Hn). split.
  - intros Hx. destruct (Z.eq_dec x 0); [by right | left]. split; [lia |]. apply Z.log2_lt_pow2; lia.
  - intros [[Hx Hl] | ->]; [| lia]. destruct (Z.eq_dec x 0); [lia |]. split; [lia |]. apply Z.log2_lt_pow2; lia.
Qed.

Lemma lxor_below x y n : 0 <= n -> 0 <= x < 2 ^ n -> 0 <= y < 2 ^ n -> 0 <= Z.lxor x y < 2 ^ n.
Proof.
  intros Hn Hx Hy. pose proof (pow2_pos n Hn).
  assert (0 <= Z.lxor x y) by (apply Z.lxor_nonneg; lia). pose proof (Z.log2_lxor x y ltac:(lia) ltac:(lia)).
  apply below_pow2 in Hx, Hy; [| done..]. apply below_pow2; [done |].
  destruct (Z.eq_dec (Z.lxor x y) 0); [by right | left]. split; [done |].
  destruct Hx as [[? ?] | ->], Hy as [[? ?] | ->]; rewrite ?Z.lxor_0_l, ?Z.lxor_0_r in *; simpl in *; try lia.
Qed.

Lemma crc_bit_range x : is_u32 x -> is_u32 (crc_bit x).
Proof.
  unfold is_u32, crc_bit. intros Hx.
  assert (0 <= Z.shiftr x 1 < 2 ^ 32).
  { rewrite Z.shiftr_div_pow2 by lia. change (2 ^ 1) with 2. pose proof (Z.div_mod x 2 ltac:(lia)).
    pose proof (Z.mod_pos_bound x 2 ltac:(lia)). lia. }
  destruct (Z.testbit x 0); [apply lxor_below; lia | done].
Qed.

Lemma CRCB_range c x : is_u32 c -> is_u8 x -> is_u32 (CRCB c x).
Proof.
  intros Hc Hx. unfold CRCB. generalize 8%nat. induction n as [|n IH]; [| by apply crc_bit_range].
  unfold is_u8, is_u32 in *. apply lxor_below; lia.
Qed.

Lemma mix_range t b c : bytes_ok b -> is_u32 c.1 -> is_u32 c.2 -> is_u32 (mix t b c).1 /\ is_u32 (mix t b c).2.
Proof.
  intros Hb. revert t c. induction Hb as [|x b Hx _ IH]; intros t c H1 H2; [done |]. cbn [mix].
  apply IH; destruct (t <? 8); simpl; auto using CRCB_range.
Qed.

Lemma hash_join_range c : is_u32 c.1 -> is_u32 c.2 -> 0 <= hash_join c < 2 ^ 64.
Proof.
  unfold is_u32, hash_join. intros H1 H2. rewrite Z.shiftl_mul_pow2 by lia. rewrite u64_small by lia.
  rewrite Z.lor_comm, lor_low_high by lia. lia.
Qed.

Lemma hash_str_range s n h : str_ok s -> str_bytes_ok s -> 0 <= n < 2 ^ 64 ->
  tfw_hash_str_len s n = Ok h -> 0 <= h < 2 ^ 64.
Proof.
  intros Hs Hb Hn. rewrite hash_str_mix by done. intros; simplify_eq.
  destruct (mix_range 0 (take (Z.to_nat n) (flat s)) (0, 0)); [by apply Forall_take, flat_bytes_ok | done.. |].
  by apply hash_join_range.
Qed.

(** C27: However a string is cut into chunks, [tfw_hash_str_len()] reads inside the chunks and
    returns the hash of the first [n] bytes of its text, the value that [hash_calc()] computes for the
    same bytes in one buffer; in particular two strings with the same text have the same hash. *)
Theorem hash_str_correct (s : TfwStr) (n : Z) :
  str_ok s -> str_bytes_ok s -> 0 <= n < 2 ^ 64 ->
  exists h, tfw_hash_str_len s n = Ok h
    /\ hash_calc (flat s) (Z.min n (zlen (flat s))) = Ok h
    /\ h = hash_join (mix 0 (take (Z.to_nat n) (flat s)) (0, 0)).
Proof.
  intros Hs Hb Hn. eexists. split_and!; [by apply hash_str_mix | | reflexivity].
  unfold hash_calc. pose proof (ok_max s Hs). rewrite (ok_len s Hs) in *.
  rewrite hash_calc_mix; [| by apply flat_bytes_ok | unfold zlen in *; lia | lia].
  unfold seg. change (Z.to_nat 0) with 0%nat. rewrite drop_0. do 3 f_equal.
  destruct (Z.min_spec n (zlen (flat s))) as [[? ->] | [? ->]]; [done |].
  unfold zlen in *. rewrite !take_ge by lia. done.
Qed.

(** The text of a URI in three chunks that cut both groups. *)
Definition ex_chunk (b : bytes) : TfwStr := MkStr b [] 0 (zlen b) 0 0 0 0.
Definition ex_hash_str : TfwStr :=
  MkStr [] [ex_chunk [47; 105; 110]; ex_chunk [100; 101; 120; 46; 104; 116; 109];
            ex_chunk [108; 63; 113; 61; 49; 50; 51; 52; 53; 54; 55]] 0 21 3 0 0 0.

Lemma hash_str_correct_witness :
  exists h, tfw_hash_str_len ex_hash_str 20 = Ok h
    /\ hash_calc (flat ex_hash_str) 20 = Ok h
    /\ h = hash_join (mix 0 (take 20 (flat ex_hash_str)) (0, 0)).
Proof.
  apply (hash_str_correct ex_hash_str 20).
  - split; [done | left; vm_compute; by split | | done | done].
    repeat (apply Forall_cons; split; [split; [done | vm_compute; by split] |]). apply Forall_nil. done.
  - unfold str_bytes_ok. apply (bool_decide_unpack _). vm_compute. done.
  - lia.
Defined.
