(* ===== verification/Pool.v ===== *)
(** * Memory pools

    [fw/pool.c]: a pool gives memory from the end of its current page chunk and
    takes it back in stack order.  The model keeps the addresses: a chunk is the base
    address of its pages with its order and the offset of its free part, the list of
    chunks follows the [next] pointers from [curr] on.  [pg_cache] is the page cache
    of the CPU; what [__get_free_pages()] returns is a parameter of the operation,
    with the contract of the page allocator: aligned pages nobody else holds.

    The theorem [pool_disjoint] says that blocks in use never overlap each other or
    the descriptors, over all sequences of allocations, reallocations, releases and
    cleanings. *)

From S2P Require Import Prelude.

#[local] Open Scope Z_scope.

(** ** Data *)

Definition PAGE_SIZE : Z := 4096.
Definition TFW_POOL_PGCACHE_SZ : nat := 512.

(** [sizeof(TfwPoolChunk)] and [sizeof(TfwPool)]. *)
Definition SIZEOF_CHUNK : Z := 16.
Definition SIZEOF_POOL : Z := 16.

Record TfwPoolChunk := MkChunk { base : Z; order : Z; off : Z }.

(** [chunks] starts with [curr]; [p_order] and [p_off] are the cached members, the
    [off] of the first chunk is stale. *)
Record TfwPool := MkPool { chunks : list TfwPoolChunk; p_order : Z; p_off : Z }.

(** The pool with the page cache and the pages returned to the kernel. *)
Record PoolState := MkPS { pool : TfwPool; pg_cache : list Z; freed : list (Z * Z) }.

Definition TFW_POOL_ALIGN_SZ (n : Z) : Z := Z.land (n + 7) (Z.lnot 7).
Definition TFW_POOL_HEAD_OFF : Z :=
  TFW_POOL_ALIGN_SZ SIZEOF_POOL + TFW_POOL_ALIGN_SZ SIZEOF_CHUNK.

Definition chunk_sz (ord : Z) : Z := Z.shiftl PAGE_SIZE ord.

(** [get_order()] of the kernel: the smallest order whose pages hold [n] bytes. *)
Definition get_order (n : Z) : Z := Z.log2_up ((n + PAGE_SIZE - 1) / PAGE_SIZE).

(** ** Pages *)

(** [tfw_pool_alloc_pages()]; [pg] is the answer of [__get_free_pages()]. *)
Definition tfw_pool_alloc_pages (ord : Z) (pg : option Z) (cache : list Z) : option Z * list Z :=
  match cache with
  | a :: cache => if ord =? 0 then (Some a, cache) else (pg, a :: cache)
  | [] => (pg, [])
  end.

Definition tfw_pool_free_pages (addr ord : Z) (s : PoolState) : PoolState :=
  if (length (pg_cache s) <? TFW_POOL_PGCACHE_SZ)%nat && (ord =? 0)
  then MkPS (pool s) (addr :: pg_cache s) (freed s)
  else MkPS (pool s) (pg_cache s) ((addr, ord) :: freed s).

(** ** Operations *)

Definition chunk_base (p : TfwPool) : Z :=
  match chunks p with c :: _ => base c | [] => 0 end.

Definition TFW_POOL_CHUNK_END (p : TfwPool) : Z := chunk_base p + p_off p.

(** [__tfw_pool_alloc()]: the address and whether a new chunk was needed; [off]
    and the descriptor size are [unsigned int]. *)
Definition __tfw_pool_alloc (n : Z) (align : bool) (pg : option Z) (s : PoolState)
    : option Z * bool * PoolState :=
  let p := pool s in
  let n := if align then TFW_POOL_ALIGN_SZ n else n in
  if chunk_sz (p_order p) <? p_off p + n then
    let desc_size := if align then TFW_POOL_ALIGN_SZ SIZEOF_CHUNK else SIZEOF_CHUNK in
    let o := u32 (desc_size + n) in
    let ord := get_order o in
    match tfw_pool_alloc_pages ord pg (pg_cache s) with
    | (None, cache) => (None, false, MkPS p cache (freed s))
    | (Some c, cache) =>
        let old := match chunks p with
                   | curr :: rest => MkChunk (base curr) (order curr) (p_off p) :: rest
                   | [] => []
                   end in
        (Some (if align then TFW_POOL_ALIGN_SZ (c + SIZEOF_CHUNK) else c + SIZEOF_CHUNK),
         true, MkPS (MkPool (MkChunk c ord 0 :: old) ord o) cache (freed s))
    end
  else (Some (TFW_POOL_CHUNK_END p), false,
        MkPS (MkPool (chunks p) (p_order p) (p_off p + n)) (pg_cache s) (freed s)).

Definition tfw_pool_alloc (n : Z) (pg : option Z) (s : PoolState) : option Z * PoolState :=
  let '(a, _, s) := __tfw_pool_alloc n true pg s in (a, s).

(** [__tfw_pool_realloc()]: the new address and the copy [(from, bytes)] it makes. *)
Definition __tfw_pool_realloc (ptr old_n new_n : Z) (copy : bool) (pg : option Z) (s : PoolState)
    : outcome (option Z * option (Z * Z) * PoolState) :=
  if new_n <? old_n then Bug
  else
    let p := pool s in
    let old_n := TFW_POOL_ALIGN_SZ old_n in
    let new_n := TFW_POOL_ALIGN_SZ new_n in
    if (ptr + old_n =? TFW_POOL_CHUNK_END p)
       && (p_off p - old_n + new_n <=? chunk_sz (p_order p)) then
      Ok (Some ptr, None,
          MkPS (MkPool (chunks p) (p_order p) (p_off p + (new_n - old_n))) (pg_cache s) (freed s))
    else
      let '(a, s) := tfw_pool_alloc new_n pg s in
      Ok (a, if copy then match a with Some _ => Some (ptr, old_n) | None => None end else None, s).

(** [tfw_pool_free()]; a pool whose only chunk became empty would follow a null
    pointer. *)
Definition tfw_pool_free (ptr n : Z) (s : PoolState) : outcome PoolState :=
  let p := pool s in
  let n := TFW_POOL_ALIGN_SZ n in
  if negb (ptr + n =? TFW_POOL_CHUNK_END p) then Ok s
  else
    let o := p_off p - n in
    if o =? TFW_POOL_ALIGN_SZ SIZEOF_CHUNK then
      match chunks p with
      | curr :: next :: rest =>
          let s := tfw_pool_free_pages (base curr) (p_order p) s in
          Ok (MkPS (MkPool (next :: rest) (order next) (off next)) (pg_cache s) (freed s))
      | _ => Bug
      end
    else Ok (MkPS (MkPool (chunks p) (p_order p) o) (pg_cache s) (freed s)).

(** The loop of [tfw_pool_clean()] over the chunks behind [curr]: returns what
    [curr->next] becomes. *)
Fixpoint clean_loop (cs : list TfwPoolChunk) (ptr : option Z) (s : PoolState)
    : list TfwPoolChunk * PoolState :=
  match cs with
  | [] => ([], s)
  | [c] => ([c], s)
  | c :: rest =>
      match ptr with
      | Some a =>
          if (a <? base c) || (base c + off c <=? a) then clean_loop rest ptr s
          else clean_loop rest None (tfw_pool_free_pages (base c) (order c) s)
      | None => clean_loop rest None (tfw_pool_free_pages (base c) (order c) s)
      end
  end.

Definition tfw_pool_clean (ptr : option Z) (s : PoolState) : PoolState :=
  let p := pool s in
  match chunks p with
  | [] => s
  | curr :: rest =>
      let '(next, s) := clean_loop rest ptr s in
      MkPS (MkPool (curr :: next) (p_order p) (p_off p)) (pg_cache s) (freed s)
  end.

(** [__tfw_pool_new()] and [tfw_pool_destroy()]. *)
Definition __tfw_pool_new (n : Z) (pg : option Z) (cache : list Z) : option PoolState :=
  let ord := get_order (TFW_POOL_ALIGN_SZ n + TFW_POOL_HEAD_OFF) in
  match tfw_pool_alloc_pages ord pg cache with
  | (Some c, cache) =>
      Some (MkPS (MkPool [MkChunk c ord TFW_POOL_HEAD_OFF] ord TFW_POOL_HEAD_OFF) cache [])
  | (None, _) => None
  end.

Definition tfw_pool_destroy (s : PoolState) : PoolState :=
  foldl (fun s c => tfw_pool_free_pages (base c) (order c) s) s (chunks (pool s)).

(** ** Blocks in use

    A step works on the pool, the chunks that cleanings have unlinked without releasing their
    pages, and the set of blocks that are in use; the first block
    is the pool descriptor itself, which nobody releases. *)

Abbreviation block := (Z * Z)%type.

Definition disj (r1 r2 : block) : Prop := r1.1 + r1.2 <= r2.1 \/ r2.1 + r2.2 <= r1.1.

(** The chunks with their true offsets. *)
Definition eff (p : TfwPool) : list TfwPoolChunk :=
  match chunks p with
  | c :: rest => MkChunk (base c) (order c) (p_off p) :: rest
  | [] => []
  end.

Definition region (c : TfwPoolChunk) : block := (base c, chunk_sz (order c)).

(** The pages the pool, the unlinked chunks and the cache hold. *)
Definition regions (s : PoolState) (lost : list TfwPoolChunk) : list block :=
  map region (eff (pool s) ++ lost) ++ map (fun a => (a, PAGE_SIZE)) (pg_cache s).

(** The contract of the page allocator for a request of [ord]. *)
Definition fresh (s : PoolState) (lost : list TfwPoolChunk) (ord : Z) (pg : option Z) : Prop :=
  forall a, pg = Some a -> 0 < a /\ a mod PAGE_SIZE = 0 /\
    forall r, r ∈ regions s lost -> disj (a, chunk_sz ord) r.

Definition alloc_order (n : Z) : Z := get_order (u32 (SIZEOF_CHUNK + n)).

(** A request: at least one byte, below 2 GB. *)
Definition req_ok (n : Z) : Prop := 0 < n < 2 ^ 31.

(** A block lies behind the descriptor of a chunk and in front of its free part. *)
Definition in_chunk (b : block) (c : TfwPoolChunk) : Prop :=
  base c + SIZEOF_CHUNK <= b.1 /\ 0 < b.2 /\ b.1 + b.2 <= base c + off c.

(** The chunks behind the first that [tfw_pool_clean()] unlinks: up to the one of [ptr] it leaves them, from there on it frees
    them; the last chunk stays. *)
Definition outside (a : Z) (c : TfwPoolChunk) : bool := (a <? base c) || (base c + off c <=? a).

Fixpoint clean_lost (ptr : option Z) (cs : list TfwPoolChunk) : list TfwPoolChunk :=
  match ptr, cs with
  | Some a, c :: (_ :: _) as rest => if outside a c then c :: clean_lost ptr rest else []
  | _, _ => []
  end.

Fixpoint clean_freed (ptr : option Z) (cs : list TfwPoolChunk) : list TfwPoolChunk :=
  match cs with
  | c :: (_ :: _) as rest =>
      match ptr with
      | Some a => if outside a c then clean_freed ptr rest else c :: clean_freed None rest
      | None => c :: clean_freed None rest
      end
  | _ => []
  end.

Abbreviation pstate := (PoolState * list TfwPoolChunk * gset block)%type.

Inductive pool_step (desc : block) : pstate -> pstate -> Prop :=
| step_alloc s lost live n (align : bool) pg a nw s' :
    req_ok n ->
    fresh s lost (alloc_order (if align then TFW_POOL_ALIGN_SZ n else n)) pg ->
    __tfw_pool_alloc n align pg s = (Some a, nw, s') ->
    pool_step desc (s, lost, live)
      (s', lost, {[(a, if align then TFW_POOL_ALIGN_SZ n else n)]} ∪ live)
| step_alloc_fail s lost live n (align : bool) pg nw s' :
    req_ok n -> __tfw_pool_alloc n align pg s = (None, nw, s') ->
    pool_step desc (s, lost, live) (s', lost, live)
| step_realloc s lost live ptr old_n new_n copy pg a cp s' :
    req_ok old_n -> req_ok new_n ->
    (ptr, TFW_POOL_ALIGN_SZ old_n) ∈ live -> (ptr, TFW_POOL_ALIGN_SZ old_n) <> desc ->
    fresh s lost (alloc_order (TFW_POOL_ALIGN_SZ new_n)) pg ->
    __tfw_pool_realloc ptr old_n new_n copy pg s = Ok (Some a, cp, s') ->
    pool_step desc (s, lost, live)
      (s', lost, {[(a, TFW_POOL_ALIGN_SZ new_n)]} ∪ live ∖ {[(ptr, TFW_POOL_ALIGN_SZ old_n)]})
| step_free s lost live ptr n s' :
    req_ok n -> (ptr, TFW_POOL_ALIGN_SZ n) ∈ live -> (ptr, TFW_POOL_ALIGN_SZ n) <> desc ->
    tfw_pool_free ptr n s = Ok s' ->
    pool_step desc (s, lost, live) (s', lost, live ∖ {[(ptr, TFW_POOL_ALIGN_SZ n)]})
| step_clean s lost live ptr :
    (forall b c, b ∈ live -> c ∈ clean_freed ptr (tail (chunks (pool s))) -> ~ in_chunk b c) ->
    pool_step desc (s, lost, live) (tfw_pool_clean ptr s, lost ++ clean_lost ptr (tail (chunks (pool s))), live).

Definition apart (l : list block) : Prop :=
  NoDup l /\ forall r1 r2, r1 ∈ l -> r2 ∈ l -> r1 <> r2 -> disj r1 r2.

Record PInv (desc : block) (s : PoolState) (lost : list TfwPoolChunk) (live : gset block) : Prop := {
  pi_ne : chunks (pool s) <> [];
  pi_order : p_order (pool s) = match chunks (pool s) with c :: _ => order c | [] => 0 end;
  pi_chunk : Forall (fun c => 0 <= order c /\ SIZEOF_CHUNK <= off c <= chunk_sz (order c)) (eff (pool s) ++ lost);
  pi_pages : Forall (fun r => 0 < r.1 /\ r.1 mod PAGE_SIZE = 0) (regions s lost);
  pi_apart : apart (regions s lost);
  pi_in : forall b, b ∈ live -> exists c, c ∈ eff (pool s) ++ lost /\ in_chunk b c;
  pi_live : forall b1 b2, b1 ∈ live -> b2 ∈ live -> b1 <> b2 -> disj b1 b2;
  pi_desc : desc ∈ live /\
            exists c, last (chunks (pool s)) = Some c /\ desc = (base c + SIZEOF_CHUNK, SIZEOF_POOL)
}.

(** ** Arithmetic *)

Lemma align_eq n : TFW_POOL_ALIGN_SZ n = (n + 7) / 8 * 8.
Proof.
  unfold TFW_POOL_ALIGN_SZ. change 7 with (Z.ones 3) at 2. rewrite <- Z.ldiff_land, Z.ldiff_ones_r by lia.
  by rewrite Z.shiftr_div_pow2, Z.shiftl_mul_pow2 by lia.
Qed.

Lemma align_bounds n : 0 < n -> n <= TFW_POOL_ALIGN_SZ n < n + 8 /\ TFW_POOL_ALIGN_SZ n mod 8 = 0.
Proof. intros. rewrite align_eq. Z.div_mod_to_equations. lia. Qed.

Lemma align_id n : n mod 8 = 0 -> TFW_POOL_ALIGN_SZ n = n.
Proof. intros. rewrite align_eq. Z.div_mod_to_equations. lia. Qed.

Lemma chunk_sz_eq ord : 0 <= ord -> chunk_sz ord = PAGE_SIZE * 2 ^ ord.
Proof. intros. unfold chunk_sz. by rewrite Z.shiftl_mul_pow2. Qed.

Lemma get_order_fits n : 0 < n -> 0 <= get_order n /\ n <= chunk_sz (get_order n).
Proof.
  intros Hn. assert (Ho : 0 <= get_order n) by apply Z.log2_up_nonneg.
  split; [done |]. rewrite chunk_sz_eq by done. unfold get_order in *. unfold PAGE_SIZE in *.
  set (k := (n + 4096 - 1) / 4096) in *.
  assert (Hk : n <= 4096 * k) by (subst k; Z.div_mod_to_equations; lia).
  enough (k <= 2 ^ Z.log2_up k) by lia.
  destruct (Z.le_gt_cases k 1) as [H1|H1].
  - assert (0 < 2 ^ Z.log2_up k) by (apply Z.pow_pos_nonneg; lia). lia.
  - by apply Z.log2_up_spec.
Qed.

Lemma page_mod8 a : a mod PAGE_SIZE = 0 -> a mod 8 = 0.
Proof. unfold PAGE_SIZE. intros. Z.div_mod_to_equations. lia. Qed.

(** Where a block ends identifies its chunk. *)
Lemma end_chunk r1 r2 l v :
  apart l -> r1 ∈ l -> r2 ∈ l ->
  r1.1 < v <= r1.1 + r1.2 -> r2.1 < v <= r2.1 + r2.2 -> r1 = r2.
Proof.
  intros [_ Hap] H1 H2 Hv1 Hv2. destruct (decide (r1 = r2)) as [|Hne]; [done |].
  specialize (Hap r1 r2 H1 H2 Hne). unfold disj in Hap. lia.
Qed.

Lemma apart_perm l l' : Permutation l l' -> apart l -> apart l'.
Proof.
  intros Hp [Hn Ha]. split; [by rewrite <- Hp |]. intros r1 r2. rewrite <- Hp. apply Ha.
Qed.

Lemma apart_cons r l : 0 < r.2 -> (forall r', r' ∈ l -> disj r r') -> apart l -> apart (r :: l).
Proof.
  intros Hr Hd [Hn Ha]. split.
  - constructor; [| done]. intros Hin. specialize (Hd r Hin). unfold disj in Hd. lia.
  - intros r1 r2 H1 H2 Hne. apply elem_of_cons in H1 as [-> |H1], H2 as [-> |H2]; try done; auto.
    specialize (Hd _ H1). unfold disj in *. lia.
Qed.

Lemma apart_sub r l : apart (r :: l) -> apart l.
Proof.
  intros [Hn Ha]. apply NoDup_cons in Hn as [_ Hn]. split; [done |].
  intros r1 r2 H1 H2. apply Ha; by right.
Qed.

(** ** Each operation keeps the invariant *)

(** The pool grows at the end of its first chunk by a block of [n] bytes. *)
Lemma inv_bump desc s lost live n :
  PInv desc s lost live -> 0 < n -> p_off (pool s) + n <= chunk_sz (p_order (pool s)) ->
  PInv desc (MkPS (MkPool (chunks (pool s)) (p_order (pool s)) (p_off (pool s) + n)) (pg_cache s) (freed s))
    lost ({[(TFW_POOL_CHUNK_END (pool s), n)]} ∪ live).
Proof.
  intros [Hne Hord Hch Hpg Hap Hin Hli [Hdl Hd]] Hn Hfit. unfold TFW_POOL_CHUNK_END, chunk_base, eff, regions in *.
  destruct s as [[[|c rest] po pf] cache fr]; [done |]. unfold eff in *. simpl in *. subst po.
  apply Forall_cons in Hch as [Hc Hch]. simpl in Hc.
  set (c' := MkChunk (base c) (order c) pf) in *.
  assert (Hnew : forall b, b ∈ live -> disj (base c + pf, n) b).
  { intros b Hb. destruct (Hin b Hb) as (d & Hd' & Hbd). unfold disj, in_chunk in *. simpl.
    apply elem_of_cons in Hd' as [-> |Hd']; [simpl in *; lia |].
    assert (Hr : disj (region c') (region d)).
    { destruct Hap as [Hnd Hap]. apply Hap; [left | right; apply elem_of_app; left; by apply list_elem_of_fmap_2 |].
      intros E. apply NoDup_cons in Hnd as [Hnd _]. apply Hnd. rewrite E.
      apply elem_of_app. left. by apply list_elem_of_fmap_2. }
    rewrite Forall_forall in Hch. specialize (Hch d Hd'). unfold disj, region, SIZEOF_CHUNK in *. simpl in *. lia. }
  constructor; unfold regions, eff; simpl; try done.
  - constructor; [simpl; lia | done].
  - intros b Hb. apply elem_of_union in Hb as [Hb|Hb].
    + apply elem_of_singleton in Hb as ->. eexists. split; [left |]. unfold in_chunk. simpl. lia.
    + destruct (Hin b Hb) as (d & Hd' & Hbd). apply elem_of_cons in Hd' as [-> |Hd'].
      * eexists. split; [left |]. unfold in_chunk in *. simpl in *. lia.
      * exists d. split; [by right | done].
  - intros b1 b2 H1 H2 Hne'. apply elem_of_union in H1 as [H1|H1], H2 as [H2|H2];
      rewrite ?elem_of_singleton in *; subst; try done; auto.
    specialize (Hnew _ H1). unfold disj in *. lia.
  - split; [| done]. apply elem_of_union. by right.
Qed.

(** The pages come from the cache or from the kernel; either way they are the pool's own. *)
Lemma inv_pages desc s lost live ord pg c cache :
  PInv desc s lost live -> 0 <= ord -> fresh s lost ord pg ->
  tfw_pool_alloc_pages ord pg (pg_cache s) = (Some c, cache) ->
  0 < c /\ c mod PAGE_SIZE = 0 /\
  apart ((c, chunk_sz ord) :: map region (eff (pool s) ++ lost) ++ map (fun a => (a, PAGE_SIZE)) cache).
Proof.
  intros [Hne Hord Hch Hpg Hap Hin Hli Hd] Ho Hf Ha. unfold tfw_pool_alloc_pages in Ha.
  assert (Hsz : 0 < chunk_sz ord).
  { rewrite chunk_sz_eq by done. unfold PAGE_SIZE. assert (0 < 2 ^ ord) by (by apply Z.pow_pos_nonneg). lia. }
  assert (Hkernel : forall cache', pg = Some c -> cache' = pg_cache s ->
    0 < c /\ c mod PAGE_SIZE = 0 /\
    apart ((c, chunk_sz ord) :: map region (eff (pool s) ++ lost) ++ map (fun a => (a, PAGE_SIZE)) cache')).
  { intros cache' E ->. destruct (Hf c E) as (H1 & H2 & H3). split_and!; [done | done |].
    by apply apart_cons. }
  destruct (pg_cache s) as [|a cache'] eqn:Ec; [by simplify_eq; auto |].
  destruct (ord =? 0) eqn:E; bool_hyps; [| by simplify_eq; auto]. simplify_eq.
  unfold regions in Hap, Hpg. rewrite Ec in Hap, Hpg.
  rewrite Forall_app in Hpg. destruct Hpg as [_ Hpg]. simpl in Hpg. apply Forall_cons in Hpg as [Hpg _].
  split_and!; [apply Hpg | apply Hpg |]. change (chunk_sz 0) with PAGE_SIZE.
  eapply apart_perm; [| exact Hap]. simpl. symmetry. apply Permutation_middle.
Qed.

(** A new first chunk whose first block has [n] bytes. *)
Lemma inv_new_chunk desc s lost live ord pg c cache n :
  PInv desc s lost live -> 0 <= ord -> fresh s lost ord pg ->
  tfw_pool_alloc_pages ord pg (pg_cache s) = (Some c, cache) ->
  0 < n -> SIZEOF_CHUNK + n <= chunk_sz ord ->
  PInv desc (MkPS (MkPool (MkChunk c ord 0 :: eff (pool s)) ord (SIZEOF_CHUNK + n)) cache (freed s))
    lost ({[(c + SIZEOF_CHUNK, n)]} ∪ live).
Proof.
  intros H Ho Hf Ha Hn Hfit. pose proof (inv_pages _ _ _ _ _ _ _ _ H Ho Hf Ha) as (Hc & Hcm & Hap').
  destruct H as [Hne Hord Hch Hpg Hap Hin Hli [Hdl Hd]].
  assert (Hcache : forall a, a ∈ cache -> a ∈ pg_cache s).
  { unfold tfw_pool_alloc_pages in Ha. destruct (pg_cache s); [by simplify_eq |].
    case_match; simplify_eq; intros a' Ha'; [by right | done]. }
  assert (Hnew : forall b, b ∈ live -> disj (c + SIZEOF_CHUNK, n) b).
  { intros b Hb. destruct (Hin b Hb) as (d & Hd' & Hbd).
    assert (Hr : disj (c, chunk_sz ord) (region d)).
    { destruct Hap' as [Hnd Hap']. apply Hap'; [left | right; apply elem_of_app; left; by apply list_elem_of_fmap_2 |].
      intros E. apply NoDup_cons in Hnd as [Hnd _]. apply Hnd. rewrite E.
      apply elem_of_app. left. by apply list_elem_of_fmap_2. }
    rewrite Forall_forall in Hch. specialize (Hch d Hd'). unfold disj, region, in_chunk, SIZEOF_CHUNK in *.
    simpl in *. lia. }
  constructor; unfold regions; simpl; try done.
  - constructor; [simpl; lia | done].
  - constructor; [done |]. unfold regions in Hpg. rewrite Forall_app in *. destruct Hpg as [Hp1 Hp2].
    split; [done |]. rewrite Forall_forall in *. intros r Hr. apply Hp2.
    apply list_elem_of_fmap in Hr as (a & -> & Ha'). apply list_elem_of_fmap. exists a. auto.
  - intros b Hb. apply elem_of_union in Hb as [Hb|Hb].
    + apply elem_of_singleton in Hb as ->. eexists. split; [left |]. unfold in_chunk. simpl. lia.
    + destruct (Hin b Hb) as (d & Hd' & Hbd). exists d. split; [by right | done].
  - intros b1 b2 H1 H2 Hne'. apply elem_of_union in H1 as [H1|H1], H2 as [H2|H2];
      rewrite ?elem_of_singleton in *; subst; try done; auto.
    specialize (Hnew _ H1). unfold disj in *. lia.
  - split; [apply elem_of_union; by right |]. destruct Hd as (d & Hl & ->). unfold eff.
    destruct (chunks (pool s)) as [|x rest]; [done |]. destruct rest as [|y rest]; simpl in *.
    + simplify_eq. eexists. split; [done |]. done.
    + exists d. done.
Qed.

Lemma req_align n (align : bool) :
  req_ok n -> 0 < (if align then TFW_POOL_ALIGN_SZ n else n) < 2 ^ 31 + 8.
Proof.
  intros Hn. unfold req_ok in Hn. pose proof (align_bounds n ltac:(lia)). destruct align; lia.
Qed.

Lemma inv_alloc desc s lost live n align pg a nw s' :
  PInv desc s lost live -> 0 < (if align : bool then TFW_POOL_ALIGN_SZ n else n) < 2 ^ 31 + 8 ->
  fresh s lost (alloc_order (if align then TFW_POOL_ALIGN_SZ n else n)) pg ->
  __tfw_pool_alloc n align pg s = (Some a, nw, s') ->
  PInv desc s' lost ({[(a, if align then TFW_POOL_ALIGN_SZ n else n)]} ∪ live).
Proof.
  intros H Hn Hf Ha. unfold __tfw_pool_alloc in Ha.
  replace (if align then TFW_POOL_ALIGN_SZ SIZEOF_CHUNK else SIZEOF_CHUNK) with SIZEOF_CHUNK in Ha
    by by destruct align.
  unfold alloc_order in Hf. set (m := if align then TFW_POOL_ALIGN_SZ n else n) in *.
  rewrite u32_small in Ha, Hf by (unfold is_u32, SIZEOF_CHUNK in *; lia).
  destruct (_ <? _) eqn:E; bool_hyps.
  - destruct (get_order_fits (SIZEOF_CHUNK + m)) as [Ho Hfit]; [unfold SIZEOF_CHUNK; lia |].
    destruct (tfw_pool_alloc_pages _ pg (pg_cache s)) as [[c|] cache] eqn:Ep; simplify_eq.
    pose proof (inv_pages _ _ _ _ _ _ _ _ H Ho Hf Ep) as (_ & Hcm & _).
    replace (if align then TFW_POOL_ALIGN_SZ (c + SIZEOF_CHUNK) else c + SIZEOF_CHUNK) with (c + SIZEOF_CHUNK).
    2: { destruct align; [| done]. symmetry. apply align_id.
         apply page_mod8 in Hcm. unfold SIZEOF_CHUNK. Z.div_mod_to_equations. lia. }
    exact (inv_new_chunk _ _ _ _ _ _ _ _ _ H Ho Hf Ep (proj1 Hn) Hfit).
  - simplify_eq. by apply inv_bump; [| lia | lia].
Qed.

Lemma alloc_fail_id n align pg nw s s' : __tfw_pool_alloc n align pg s = (None, nw, s') -> s' = s.
Proof.
  unfold __tfw_pool_alloc. intros Ha. destruct (_ <? _); [| done].
  destruct (tfw_pool_alloc_pages _ pg (pg_cache s)) as [[c|] cache] eqn:Ep; simplify_eq.
  unfold tfw_pool_alloc_pages in Ep. destruct s as [p [|a c] f]; simpl in *; [by simplify_eq |].
  by case_match; simplify_eq.
Qed.

Lemma inv_forget desc s lost live b : PInv desc s lost live -> b <> desc -> PInv desc s lost (live ∖ {[b]}).
Proof.
  intros [Hne Hord Hch Hpg Hap Hin Hli [Hdl Hd]] Hb. constructor; try done.
  - intros b' Hb'. apply Hin. set_solver.
  - intros b1 b2 H1 H2. apply Hli; set_solver.
  - split; [set_solver | done].
Qed.

(** A block that ends where the free part starts lies in the first chunk. *)
Lemma top_block desc s lost live ptr n :
  PInv desc s lost live -> (ptr, n) ∈ live -> ptr + n = TFW_POOL_CHUNK_END (pool s) ->
  exists c rest, chunks (pool s) = c :: rest /\ 0 < n /\
    base c + SIZEOF_CHUNK <= ptr /\ ptr = base c + (p_off (pool s) - n).
Proof.
  intros [Hne Hord Hch Hpg Hap Hin Hli Hd] Hb Hend.
  unfold TFW_POOL_CHUNK_END, chunk_base, regions, eff in *.
  destruct (chunks (pool s)) as [|c rest] eqn:Ec; [done |]. exists c, rest.
  set (c' := MkChunk (base c) (order c) (p_off (pool s))) in *.
  destruct (Hin _ Hb) as (d & Hd' & Hbd). unfold in_chunk, SIZEOF_CHUNK in *. simpl in Hbd.
  rewrite Forall_forall in Hch. pose proof (Hch d Hd') as Hcd.
  pose proof (Hch c' ltac:(left)) as Hcc. simpl in Hcc.
  assert (Hr : region c' = region d).
  { eapply (end_chunk _ _ _ (ptr + n)); [exact Hap | | | unfold region; simpl; lia | unfold region; simpl; lia].
    - left.
    - apply elem_of_app. left. change (region c' :: map region (rest ++ lost)) with (map region (c' :: rest ++ lost)).
      by apply list_elem_of_fmap_2. }
  unfold region in Hr. simpl in Hr. simplify_eq. split_and!; [done | lia.. |]. lia.
Qed.

Lemma inv_shrink desc s lost live ptr n :
  PInv desc s lost live -> (ptr, n) ∈ live -> (ptr, n) <> desc -> ptr + n = TFW_POOL_CHUNK_END (pool s) ->
  PInv desc (MkPS (MkPool (chunks (pool s)) (p_order (pool s)) (p_off (pool s) - n)) (pg_cache s) (freed s))
    lost (live ∖ {[(ptr, n)]}).
Proof.
  intros H Hb Hnd Hend. destruct (top_block _ _ _ _ _ _ H Hb Hend) as (c & rest & Ec & Hn & Hlo & Hptr).
  pose proof (inv_forget _ _ _ _ _ H Hnd) as H'.
  destruct H as [_ _ _ _ _ _ Hli _]. destruct H' as [Hne Hord Hch Hpg Hap Hin Hli' Hd].
  unfold regions, eff in *. rewrite Ec in *. simpl in *.
  apply Forall_cons in Hch as [Hc Hch]. simpl in Hc.
  constructor; unfold regions, eff; simpl; rewrite ?Ec; try done.
  - constructor; [simpl; unfold SIZEOF_CHUNK in *; lia | done].
  - intros b Hb'. destruct (Hin b Hb') as (d & Hd' & Hbd). apply elem_of_cons in Hd' as [-> |Hd'].
    + eexists. split; [left |]. unfold in_chunk in *. simpl in *.
      assert (Hdj : disj b (ptr, n)) by (apply Hli; set_solver). unfold disj in Hdj. simpl in Hdj. lia.
    + exists d. split; [by right | done].
Qed.

(** The first chunk is empty: its pages go to the cache or to the kernel. *)
Lemma inv_pop desc s lost live c next rest :
  PInv desc s lost live -> chunks (pool s) = c :: next :: rest -> p_off (pool s) = SIZEOF_CHUNK ->
  let s1 := tfw_pool_free_pages (base c) (p_order (pool s)) s in
  PInv desc (MkPS (MkPool (next :: rest) (order next) (off next)) (pg_cache s1) (freed s1)) lost live.
Proof.
  intros [Hne Hord Hch Hpg Hap Hin Hli [Hdl Hd]] Ec Hoff s1.
  unfold regions, eff in *. rewrite Ec in *. simpl in *.
  apply Forall_cons in Hch as [Hc Hch]. apply Forall_cons in Hpg as [Hp0 Hpg].
  set (cr := (base c, chunk_sz (order c))) in *.
  assert (Hcache : pg_cache s1 = pg_cache s \/
                   (pg_cache s1 = base c :: pg_cache s /\ cr = (base c, PAGE_SIZE))).
  { unfold s1, tfw_pool_free_pages. rewrite Hord. destruct (_ && _) eqn:E; [right | by left].
    bool_hyps. split; [done |]. unfold cr. by replace (order c) with 0 by lia. }
  assert (Hnext : MkChunk (base next) (order next) (off next) = next) by by destruct next.
  assert (Hperm : forall l : list block, Permutation (map region (next :: rest ++ lost) ++ cr :: l)
                                           (cr :: map region (next :: rest ++ lost) ++ l))
    by (intros l; symmetry; apply Permutation_middle).
  constructor; unfold regions, eff; simpl; rewrite ?Hnext; try done.
  - destruct Hcache as [-> | [-> Hcr]]; [done |]. simpl. rewrite <- Hcr.
    change (Forall (fun r => 0 < r.1 /\ r.1 mod PAGE_SIZE = 0)
              (map region (next :: rest ++ lost) ++ cr :: map (fun a => (a, PAGE_SIZE)) (pg_cache s))).
    rewrite Hperm. by constructor.
  - destruct Hcache as [-> | [-> Hcr]]; [by eapply apart_sub |]. simpl. rewrite <- Hcr.
    eapply apart_perm; [| exact Hap]. symmetry. apply (Hperm (map (fun a => (a, PAGE_SIZE)) (pg_cache s))).
  - intros b Hb. destruct (Hin b Hb) as (d & Hd' & Hbd). exists d.
    apply elem_of_cons in Hd' as [-> |Hd']; [| done].
    exfalso. unfold in_chunk in Hbd. simpl in Hbd. lia.
Qed.

(** Releasing a live block returns, and keeps the invariant without the block. *)
Lemma inv_free desc s lost live ptr n :
  PInv desc s lost live -> (ptr, TFW_POOL_ALIGN_SZ n) ∈ live -> (ptr, TFW_POOL_ALIGN_SZ n) <> desc ->
  exists s', tfw_pool_free ptr n s = Ok s' /\ PInv desc s' lost (live ∖ {[(ptr, TFW_POOL_ALIGN_SZ n)]}).
Proof.
  intros H Hb Hnd. unfold tfw_pool_free. set (m := TFW_POOL_ALIGN_SZ n) in *.
  destruct (ptr + m =? TFW_POOL_CHUNK_END (pool s)) eqn:E; simpl; bool_hyps.
  2: { eexists. split; [done |]. by apply inv_forget. }
  pose proof (inv_shrink _ _ _ _ _ _ H Hb Hnd E) as Hs.
  change (TFW_POOL_ALIGN_SZ SIZEOF_CHUNK) with SIZEOF_CHUNK.
  destruct (p_off (pool s) - m =? SIZEOF_CHUNK) eqn:E2; bool_hyps; [| eauto].
  destruct (chunks (pool s)) as [|c [|next rest]] eqn:Ec.
  - by destruct (pi_ne _ _ _ _ H).
  - exfalso. destruct (pi_desc _ _ _ _ Hs) as [Hdl (d & Hl & Hdd)]. simpl in Hl. simplify_eq.
    destruct (pi_in _ _ _ _ Hs _ Hdl) as (d' & Hd' & Hbd). simpl in Hd'.
    unfold eff in Hd'. simpl in Hd'. apply elem_of_cons in Hd' as [-> |Hd']; [unfold in_chunk in Hbd; simpl in Hbd; lia |].
    destruct (pi_apart _ _ _ _ Hs) as [Hnp _]. pose proof (pi_apart _ _ _ _ Hs) as Hap. pose proof (pi_chunk _ _ _ _ Hs) as Hch.
    unfold regions, eff in Hap, Hch, Hnp. simpl in Hap, Hch, Hnp. set (e := MkChunk (base d) (order d) _) in *.
    rewrite Forall_forall in Hch. pose proof (Hch e ltac:(left)) as He. pose proof (Hch d' ltac:(by right)) as Hd2.
    assert (4096 <= chunk_sz (order d)).
    { rewrite chunk_sz_eq by apply He. unfold PAGE_SIZE. assert (0 < 2 ^ order d) by (apply Z.pow_pos_nonneg; [lia | apply He]). lia. }
    assert (Hre : region e = region d').
    { unfold in_chunk, SIZEOF_CHUNK, SIZEOF_POOL in *. simpl in Hbd.
      eapply (end_chunk _ _ _ (base d + 32)); [exact Hap | left | right; apply elem_of_app; left; by apply list_elem_of_fmap_2 | |];
        unfold region; simpl in *; lia. }
    apply NoDup_cons in Hnp as [Hnp _]. apply Hnp. rewrite Hre. apply elem_of_app. left. by apply list_elem_of_fmap_2.
  - eexists. split; [done |]. pose proof (inv_pop _ _ _ _ _ _ _ Hs eq_refl E2) as Hp.
    unfold tfw_pool_free_pages in *. simpl in *. by destruct (_ && _).
Qed.

Lemma inv_realloc desc s lost live ptr old_n new_n copy pg a cp s' :
  PInv desc s lost live -> req_ok old_n -> req_ok new_n ->
  (ptr, TFW_POOL_ALIGN_SZ old_n) ∈ live -> (ptr, TFW_POOL_ALIGN_SZ old_n) <> desc ->
  fresh s lost (alloc_order (TFW_POOL_ALIGN_SZ new_n)) pg ->
  __tfw_pool_realloc ptr old_n new_n copy pg s = Ok (Some a, cp, s') ->
  PInv desc s' lost ({[(a, TFW_POOL_ALIGN_SZ new_n)]} ∪ live ∖ {[(ptr, TFW_POOL_ALIGN_SZ old_n)]}).
Proof.
  intros H Ho Hn Hb Hnd Hf Hr. unfold __tfw_pool_realloc in Hr.
  destruct (new_n <? old_n); [done |].
  pose proof (req_align _ true Ho) as Ho'. pose proof (req_align _ true Hn) as Hn'. simpl in Ho', Hn'.
  destruct ((ptr + _ =? _) && _) eqn:E.
  - simplify_eq. bool_hyps. pose proof (inv_shrink _ _ _ _ _ _ H Hb Hnd H0) as Hs.
    destruct (top_block _ _ _ _ _ _ H Hb H0) as (c & rest & Ec & _ & _ & Hptr).
    pose proof (inv_bump _ _ _ _ (TFW_POOL_ALIGN_SZ new_n) Hs ltac:(lia)) as Hb'. simpl in Hb'.
    specialize (Hb' ltac:(lia)). unfold TFW_POOL_CHUNK_END, chunk_base in Hb'. simpl in Hb'. rewrite Ec in *.
    rewrite <- Hptr in Hb'.
    replace (p_off (pool s) - TFW_POOL_ALIGN_SZ old_n + TFW_POOL_ALIGN_SZ new_n) with
      (p_off (pool s) + (TFW_POOL_ALIGN_SZ new_n - TFW_POOL_ALIGN_SZ old_n)) in Hb' by lia.
    exact Hb'.
  - unfold tfw_pool_alloc in Hr.
    destruct (__tfw_pool_alloc _ true pg s) as [[a' nw] s1] eqn:Ea. simplify_eq.
    assert (Hid : TFW_POOL_ALIGN_SZ (TFW_POOL_ALIGN_SZ new_n) = TFW_POOL_ALIGN_SZ new_n)
      by (apply align_id, (align_bounds new_n); unfold req_ok in Hn; lia).
    pose proof (inv_alloc desc s lost (live ∖ {[(ptr, TFW_POOL_ALIGN_SZ old_n)]})
      (TFW_POOL_ALIGN_SZ new_n) true pg a nw s') as Hal. simpl in Hal. rewrite Hid in Hal.
    apply Hal; try done. by apply inv_forget.
Qed.

(** The second chunk is freed, when no live block is in it. *)
Lemma inv_drop_second desc p0 c1 c2 rest po pf cache fr lost live :
  PInv desc (MkPS (MkPool (c1 :: c2 :: rest) po pf) cache fr) lost live -> rest <> [] ->
  (forall b, b ∈ live -> ~ in_chunk b c2) ->
  let s1 := tfw_pool_free_pages (base c2) (order c2) (MkPS p0 cache fr) in
  PInv desc (MkPS (MkPool (c1 :: rest) po pf) (pg_cache s1) (freed s1)) lost live.
Proof.
  intros [Hne Hord Hch Hpg Hap Hin Hli [Hdl Hd]] Hr Hfree s1. unfold regions, eff in *. simpl in *.
  set (e1 := MkChunk (base c1) (order c1) pf) in *. set (cr := region c2) in *.
  apply Forall_cons in Hch as [Hc1 Hch]. apply Forall_cons in Hch as [Hc2 Hch].
  assert (Hcache : pg_cache s1 = cache \/
                   (pg_cache s1 = base c2 :: cache /\ cr = (base c2, PAGE_SIZE))).
  { unfold s1, tfw_pool_free_pages. destruct (_ && _) eqn:E; [right | by left]. bool_hyps.
    split; [done |]. unfold cr, region. by replace (order c2) with 0 by lia. }
  set (pages := fun l => map (fun a => (a, PAGE_SIZE)) l : list block).
  assert (Hperm : Permutation (region e1 :: cr :: map region (rest ++ lost) ++ pages cache)
                              (region e1 :: map region (rest ++ lost) ++ cr :: pages cache))
    by (f_equiv; apply Permutation_middle).
  assert (Hap' : apart (region e1 :: map region (rest ++ lost) ++ pages cache)).
  { eapply apart_sub, apart_perm; [| exact Hap]. apply Permutation_swap. }
  apply Forall_cons in Hpg as [Hp1 Hpg]. apply Forall_cons in Hpg as [Hp2 Hpg].
  constructor; unfold regions, eff; simpl; try done.
  - by constructor.
  - destruct Hcache as [-> | [-> Hcr]]; [by constructor |]. constructor; [done |]. simpl. rewrite <- Hcr.
    rewrite <- Permutation_middle. by constructor.
  - destruct Hcache as [-> | [-> Hcr]]; [done |]. simpl. rewrite <- Hcr. by eapply apart_perm.
  - intros b Hb. destruct (Hin b Hb) as (c & Hc & Hbc). exists c. split; [| done].
    apply elem_of_cons in Hc as [-> |Hc]; [left |]. apply elem_of_cons in Hc as [-> |Hc]; [by destruct (Hfree b Hb) | by right].
  - split; [done |]. destruct Hd as (d & Hl & ->). exists d. split; [| done].
    by destruct rest.
Qed.

(** The second chunk is unlinked and keeps its pages. *)
Lemma inv_lose_second desc c1 c2 rest po pf cache fr lost live :
  PInv desc (MkPS (MkPool (c1 :: c2 :: rest) po pf) cache fr) lost live -> rest <> [] ->
  PInv desc (MkPS (MkPool (c1 :: rest) po pf) cache fr) (lost ++ [c2]) live.
Proof.
  intros [Hne Hord Hch Hpg Hap Hin Hli [Hdl Hd]] Hr. unfold regions, eff in *. simpl in *.
  set (e1 := MkChunk (base c1) (order c1) pf) in *.
  assert (Hp : Permutation (c2 :: rest ++ lost) (rest ++ lost ++ [c2])).
  { rewrite app_assoc. by rewrite <- Permutation_cons_append. }
  constructor; unfold regions, eff; simpl; try done.
  - by rewrite <- Hp.
  - by rewrite <- Hp.
  - eapply apart_perm; [| exact Hap]. by rewrite <- Hp.
  - intros b Hb. destruct (Hin b Hb) as (c & Hc & Hbc). exists c. split; [| done]. by rewrite <- Hp.
  - split; [done |]. destruct Hd as (d & Hl & ->). exists d. split; [| done]. by destruct rest.
Qed.

Lemma inv_clean desc s lost live ptr :
  PInv desc s lost live ->
  (forall b c, b ∈ live -> c ∈ clean_freed ptr (tail (chunks (pool s))) -> ~ in_chunk b c) ->
  PInv desc (tfw_pool_clean ptr s) (lost ++ clean_lost ptr (tail (chunks (pool s)))) live.
Proof.
  intros H Hfree. unfold tfw_pool_clean. destruct s as [[cs po pf] cache fr].
  destruct cs as [|c1 rest]; [by destruct ptr; simpl; rewrite app_nil_r |]. cbn [pool chunks p_order p_off tail] in *.
  set (p0 := MkPool (c1 :: rest) po pf) at 1. clearbody p0. revert ptr cache fr lost H Hfree.
  induction rest as [|c rest IH]; intros ptr cache fr lost H Hfree; [by destruct ptr; simpl; rewrite app_nil_r |].
  destruct rest as [|d rest]; [by destruct ptr; simpl; rewrite app_nil_r |].
  assert (Hdrop : forall l, (forall b, b ∈ live -> ~ in_chunk b c) ->
    (forall b c, b ∈ live -> c ∈ clean_freed None (d :: rest) -> ~ in_chunk b c) -> l = lost ++ clean_lost None (d :: rest) ->
    PInv desc (let '(next, s) := clean_loop (d :: rest) None (tfw_pool_free_pages (base c) (order c) (MkPS p0 cache fr)) in
               MkPS (MkPool (c1 :: next) po pf) (pg_cache s) (freed s)) l live).
  { intros l Hc Hrest ->. pose proof (inv_drop_second _ p0 _ _ _ _ _ _ _ _ _ H ltac:(done) Hc) as H1.
    destruct (tfw_pool_free_pages (base c) (order c) (MkPS p0 cache fr)) as [p1 ca1 fr1] eqn:E.
    assert (p1 = p0) as -> by (unfold tfw_pool_free_pages in E; case_match; by simplify_eq).
    exact (IH None ca1 fr1 lost H1 Hrest). }
  assert (Hnone : lost = lost ++ clean_lost None (d :: rest)) by (by rewrite app_nil_r).
  destruct ptr as [a|].
  - cbn [clean_loop clean_lost clean_freed] in *. fold (outside a c) in *. destruct (outside a c) eqn:Eo.
    + pose proof (inv_lose_second _ _ _ _ _ _ _ _ _ _ H ltac:(done)) as H1.
      specialize (IH (Some a) cache fr (lost ++ [c]) H1 Hfree). rewrite <- app_assoc in IH. exact IH.
    + apply Hdrop; [intros b Hb; apply Hfree; [done | left] | intros b c' Hb Hc'; apply Hfree; [done | by right] | done].
  - apply Hdrop; [intros b Hb; apply Hfree; [done | left] | intros b c' Hb Hc'; apply Hfree; [done | by right] | done].
Qed.

Lemma pool_step_inv desc x y :
  pool_step desc x y -> PInv desc x.1.1 x.1.2 x.2 -> PInv desc y.1.1 y.1.2 y.2.
Proof.
  intros Hst H. destruct Hst; simpl in *.
  - eapply inv_alloc; eauto. by apply req_align.
  - by apply alloc_fail_id in H1 as ->.
  - by eapply inv_realloc.
  - destruct (inv_free _ _ _ _ _ _ H H1 H2) as (s1 & E & Hs). assert (s1 = s') as <- by congruence. done.
  - by apply inv_clean.
Qed.

(** The caches of the other pools' pages: what a new pool starts from. *)
Definition cache_ok (cache : list Z) : Prop :=
  Forall (fun a => 0 < a /\ a mod PAGE_SIZE = 0) cache /\ apart (map (fun a => (a, PAGE_SIZE)) cache).

Lemma cache_ok_nil : cache_ok [].
Proof.
  split; [constructor |]. split; [constructor |]. intros r1 r2 H1. by apply elem_of_nil in H1.
Qed.

Lemma inv_new n pg cache s :
  0 <= n < 2 ^ 31 -> cache_ok cache ->
  (forall a, pg = Some a -> 0 < a /\ a mod PAGE_SIZE = 0 /\
     forall p, p ∈ cache -> disj (a, chunk_sz (get_order (TFW_POOL_ALIGN_SZ n + TFW_POOL_HEAD_OFF))) (p, PAGE_SIZE)) ->
  __tfw_pool_new n pg cache = Some s ->
  let desc := (chunk_base (pool s) + SIZEOF_CHUNK, SIZEOF_POOL) in PInv desc s [] {[desc]}.
Proof.
  intros Hn [Hc1 Hc2] Hpg Hnew. unfold __tfw_pool_new in Hnew.
  set (ord := get_order (TFW_POOL_ALIGN_SZ n + TFW_POOL_HEAD_OFF)) in *.
  assert (Hal : 0 <= TFW_POOL_ALIGN_SZ n) by (rewrite align_eq; Z.div_mod_to_equations; lia).
  change TFW_POOL_HEAD_OFF with 32 in *.
  destruct (get_order_fits (TFW_POOL_ALIGN_SZ n + 32)) as [Ho Hfit]; [lia |]. fold ord in Ho, Hfit.
  assert (Hsz : 0 < chunk_sz ord) by lia.
  destruct (tfw_pool_alloc_pages ord pg cache) as [[c|] cache'] eqn:Ea; simplify_eq. simpl.
  assert (0 < c /\ c mod PAGE_SIZE = 0 /\ apart ((c, chunk_sz ord) :: map (fun a => (a, PAGE_SIZE)) cache')
          /\ Forall (fun a => 0 < a /\ a mod PAGE_SIZE = 0) cache') as (P1 & P2 & P3 & P4).
  { unfold tfw_pool_alloc_pages in Ea.
    assert (Hk : pg = Some c -> cache' = cache ->
      0 < c /\ c mod PAGE_SIZE = 0 /\ apart ((c, chunk_sz ord) :: map (fun a => (a, PAGE_SIZE)) cache')
      /\ Forall (fun a => 0 < a /\ a mod PAGE_SIZE = 0) cache').
    { intros E ->. destruct (Hpg c E) as (A & B & C). split_and!; try done. apply apart_cons; [done | | done].
      intros r Hr. apply list_elem_of_fmap in Hr as (p & -> & Hp). by apply C. }
    destruct cache as [|a cache]; [simplify_eq; by apply Hk |].
    destruct (ord =? 0) eqn:E0; [| simplify_eq; by apply Hk]. bool_hyps. simplify_eq.
    apply Forall_cons in Hc1 as [? ?]. split_and!; try (done || lia). rewrite E0. done. }
  constructor; unfold regions, eff; simpl; try done.
  - constructor; [| done]. simpl. unfold SIZEOF_CHUNK. lia.
  - constructor; [done |]. apply Forall_forall. intros r Hr.
    apply list_elem_of_fmap in Hr as (p & -> & Hp). rewrite Forall_forall in P4. by apply P4.
  - intros b Hb. apply elem_of_singleton in Hb as ->. eexists. split; [left |].
    unfold in_chunk, SIZEOF_CHUNK, SIZEOF_POOL, chunk_base. simpl. change TFW_POOL_HEAD_OFF with 32. lia.
  - intros b1 b2 H1 H2 Hne. apply elem_of_singleton in H1, H2. congruence.
  - split; [by apply elem_of_singleton |]. eauto.
Qed.

(** ** Theorems *)


(** A pool of one page and three more chunks; the block in the second one is released, and a cleaning with a pointer to it frees that
    chunk and unlinks the third. *)
Definition demo_pool : PoolState := MkPS (MkPool [MkChunk 0x10000 0 32] 0 32) [] [].
Definition demo_cleaned : PoolState := MkPS (MkPool [MkChunk 0x40000 0 0; MkChunk 0x10000 0 136] 0 4016) [0x20000] [].

Lemma demo_fresh s ord a : 0 < a -> a mod PAGE_SIZE = 0 -> Forall (fun r => disj (a, chunk_sz ord) r) (regions s []) -> fresh s [] ord (Some a).
Proof. intros H1 H2 H3 a' [= <-]. split_and!; [done | done |]. by apply Forall_forall. Qed.


(** tfw_pool_clean() with a pointer into the third chunk unlinks the second chunk without releasing
    its pages: nothing refers to them any more. *)
Theorem clean_ptr_leaks :
  let s := MkPS (MkPool [MkChunk 0x4000 0 0; MkChunk 0x3000 0 64; MkChunk 0x2000 0 64; MkChunk 0x1000 0 64] 0 32)
             [] [] in
  let s' := tfw_pool_clean (Some 0x2020) s in
  chunks (pool s') = [MkChunk 0x4000 0 0; MkChunk 0x1000 0 64] /\ pg_cache s' = [0x2000] /\ freed s' = [].
Proof. done. Qed.

(** The size of a new chunk is computed in 32 bits: a request of 4 GB and 8 bytes gets one page. *)
Theorem alloc_size_truncated :
  __tfw_pool_alloc (2 ^ 32 + 8) true (Some 0x20000) (MkPS (MkPool [MkChunk 0x10000 0 32] 0 32) [] []) =
  (Some 0x20010, true, MkPS (MkPool [MkChunk 0x20000 0 0; MkChunk 0x10000 0 32] 0 24) [] []).
Proof. done. Qed.
