(* ===== verification/ApmStats.v ===== *)
(** * Response-time statistics: the ranges of [fw/apm.c]

    The hits of a server are counted in four ranges of sixteen buckets.  A bucket
    [b] of a range stands for the response time [begin + (b << order)]; ranges
    move to where the hits are: the last one grows to the right for a larger
    response time, a range with an outlier loses its left half and may hand hits
    over to its left neighbour.

    The state of the definitions is [TfwPcntRanges]; a read or write outside of
    an array, like a failed [BUG_ON], is [Bug].  The invariant [rng_ok] says that
    the ranges are disjoint and ordered, that each spans sixteen buckets and that
    no hit is lost or invented: the buckets add up to [tot_cnt].  It is what the
    percentile calculation of [ApmCalc.v] relies on. *)

From S2P Require Import Prelude.

(** ** Data *)

Definition TFW_STATS_RANGES : nat := 4.
Definition TFW_STATS_RLAST : nat := TFW_STATS_RANGES - 1.
Definition TFW_STATS_BCKTS_ORDER : Z := 4.
Definition TFW_STATS_BCKTS : nat := 16.

Definition TFW_STATS_RSPAN (order : Z) : Z := Z.shiftl 15 order.

Record TfwPcntCtl := MkCtl {
  pc_order : Z;
  pc_begin : Z;
  pc_end : Z
}.

(** The buckets of a range. *)
Abbreviation row := (list Z).

Record TfwPcntRanges := MkRanges {
  ctl : list TfwPcntCtl;
  tot_cnt : Z;
  tot_val : Z;
  min_val : Z;
  max_val : Z;
  cnt : list row
}.

(** ** Arrays and loops *)

Definition arr_get {A} (i : nat) : SM (list A) A :=
  fun l => match l !! i with Some x => Ok (x, l) | None => Bug end.

Definition arr_set {A} (i : nat) (v : A) : SM (list A) unit :=
  fun l => match l !! i with Some _ => Ok (tt, <[i := v]> l) | None => Bug end.

(** [for (i in l) a = body(i, a)] *)
Fixpoint sm_fold {S A} (l : list nat) (body : nat -> A -> SM S A) (a : A) : SM S A :=
  match l with
  | [] => sm_ret a
  | i :: l => a' <~ body i a ;; sm_fold l body a'
  end.

Definition sm_for {S} (l : list nat) (body : nat -> SM S unit) : SM S unit :=
  sm_fold l (fun i _ => body i) tt.

(** Code that works on [rng->cnt[r]] or on [rng->ctl[r]]. *)
Definition on_row {A} (r : nat) (m : SM row A) : SM TfwPcntRanges A := fun s =>
  match cnt s !! r with
  | Some l =>
      match m l with
      | Ok (a, l') => Ok (a, MkRanges (ctl s) (tot_cnt s) (tot_val s) (min_val s) (max_val s)
                                      (<[r := l']> (cnt s)))
      | Bug => Bug
      end
  | None => Bug
  end.

Definition get_ctl (r : nat) : SM TfwPcntRanges TfwPcntCtl := fun s =>
  match ctl s !! r with Some pc => Ok (pc, s) | None => Bug end.

Definition put_ctl (r : nat) (pc : TfwPcntCtl) : SM TfwPcntRanges unit := fun s =>
  match ctl s !! r with
  | Some _ => Ok (tt, MkRanges (<[r := pc]> (ctl s)) (tot_cnt s) (tot_val s) (min_val s)
                               (max_val s) (cnt s))
  | None => Bug
  end.

(** ** Buckets *)

(** The bucket of a response time, as the index of the pointer into [cnt]. *)
Definition __rng (pc : TfwPcntCtl) (r_time : Z) : Z :=
  if r_time <=? pc_begin pc then 0
  else Z.shiftr (u32 (r_time - pc_begin pc + (Z.shiftl 1 (pc_order pc) - 1))) (pc_order pc).

(** [++( *__rng(pc, rng->cnt[r], r_time))] *)
Definition rng_inc (r : nat) (r_time : Z) : SM TfwPcntRanges unit :=
  pc <~ get_ctl r ;;
  let b := Z.to_nat (__rng pc r_time) in
  on_row r (x <~ arr_get b ;; arr_set b (u64 (x + 1))).

(** ** Moving the ranges *)

(** The counters of the left half after an order has been added. *)
Definition grow_right_cnt : SM row unit :=
  sm_for (seq 0 (TFW_STATS_BCKTS / 2)) (fun i =>
    a <~ arr_get (2 * i) ;;
    b <~ arr_get (2 * i + 1) ;;
    arr_set i (u64 (a + b))).

(** [pc] is [&rng->ctl[r]] at every call. *)
Definition __range_grow_right (r : nat) : SM TfwPcntRanges unit :=
  pc <~ get_ctl r ;;
  let order := u32 (pc_order pc + 1) in
  put_ctl r (MkCtl order (pc_begin pc) (u32 (pc_begin pc + TFW_STATS_RSPAN order))) ;;;
  on_row r grow_right_cnt.

Definition shrink_left_cnt : SM row unit :=
  sm_for (seq 1 (TFW_STATS_BCKTS / 2 - 1)) (fun i =>
    a <~ arr_get 0 ;;
    b <~ arr_get i ;;
    arr_set 0%nat (u64 (a + b))) ;;;
  cnt_full <~ arr_get (TFW_STATS_BCKTS / 2) ;;
  let cnt_half := cnt_full / 2 in
  a <~ arr_get 0 ;;
  arr_set 0%nat (u64 (a + cnt_half)) ;;;
  arr_set 1%nat (u64 (cnt_full - cnt_half)) ;;;
  sm_for (seq 1 (TFW_STATS_BCKTS / 2 - 1)) (fun i =>
    cnt_full <~ arr_get (TFW_STATS_BCKTS / 2 + i) ;;
    let cnt_half := cnt_full / 2 in
    arr_set (i * 2)%nat cnt_half ;;;
    arr_set (i * 2 + 1)%nat (u64 (cnt_full - cnt_half))).

Definition __range_shrink_left (r : nat) : SM TfwPcntRanges unit :=
  pc <~ get_ctl r ;;
  let order := u32 (pc_order pc - 1) in
  put_ctl r (MkCtl order (u32 (pc_end pc - TFW_STATS_RSPAN order)) (pc_end pc)) ;;;
  on_row r shrink_left_cnt.

(** The search of the order which reaches [r_time]; [end] is a 64-bit number. *)
Fixpoint extend_order (fuel : nat) (begin r_time order : Z) : outcome (Z * Z) :=
  match fuel with
  | O => Bug
  | S fuel =>
      let order := u32 (order + 1) in
      let end_ := u64 (begin + TFW_STATS_RSPAN order) in
      if end_ <? r_time then extend_order fuel begin r_time order else Ok (order, end_)
  end.

Definition extend_sum (i : nat) (units : nat) : SM row Z :=
  sm_fold (seq (i * units) units) (fun b sum => x <~ arr_get b ;; sm_ret (u32 (sum + x))) 0.

Definition extend_cnt (units parts : nat) : SM row unit :=
  sm_for (seq 0 parts) (fun i =>
    if (units =? 2)%nat then
      a <~ arr_get (2 * i) ;;
      b <~ arr_get (2 * i + 1) ;;
      arr_set i (u64 (a + b))
    else if (units =? 4)%nat then
      a <~ arr_get (4 * i) ;;
      b <~ arr_get (4 * i + 1) ;;
      c <~ arr_get (4 * i + 2) ;;
      d <~ arr_get (4 * i + 3) ;;
      arr_set i (u64 (a + b + c + d))
    else
      sum <~ extend_sum i units ;;
      arr_set i sum) ;;;
  sm_for (seq parts (TFW_STATS_BCKTS - parts)) (fun i => arr_set i 0).

Definition tfw_stats_extend (r_time : Z) : SM TfwPcntRanges unit :=
  pc <~ get_ctl TFW_STATS_RLAST ;;
  match extend_order 33 (pc_begin pc) r_time (pc_order pc) with
  | Bug => sm_bug
  | Ok (order, end_) =>
      bug_on (2 ^ 32 <=? end_) ;;;
      let shift := Z.min (u32 (order - pc_order pc)) TFW_STATS_BCKTS_ORDER in
      let units := Z.to_nat (Z.shiftl 1 shift) in
      let parts := Z.to_nat (Z.shiftr (Z.of_nat TFW_STATS_BCKTS) shift) in
      put_ctl TFW_STATS_RLAST (MkCtl order (pc_begin pc) end_) ;;;
      on_row TFW_STATS_RLAST (extend_cnt units parts)
  end.

(** ** Adjusting a range with an outlier *)

(** Sum, number of hit buckets, maximum and its bucket. *)
Definition adjust_scan : SM row (Z * Z * Z * Z) :=
  sm_fold (seq 0 TFW_STATS_BCKTS) (fun i '(sum, cnt, max, i_max) =>
    x <~ arr_get i ;;
    let '(sum, cnt) := if x =? 0 then (sum, cnt) else (u64 (sum + x), cnt + 1) in
    let '(max, i_max) := if max <? x then (x, Z.of_nat i) else (max, i_max) in
    sm_ret (sum, cnt, max, i_max)) (0, 0, 0, 0).

(** Hits of the gap before range [r] go to the new right half of its left
    neighbour. *)
Definition adjust_spread (r : nat) (max : Z) : SM TfwPcntRanges unit :=
  let cnt := max / Z.of_nat (TFW_STATS_BCKTS / 2 + 1) in
  on_row r (x <~ arr_get 0 ;;
            arr_set 0%nat (u64 (x - u64 (cnt * Z.of_nat (TFW_STATS_BCKTS / 2))))) ;;;
  on_row (r - 1) (sm_for (seq (TFW_STATS_BCKTS / 2) (TFW_STATS_BCKTS / 2))
                         (fun i => arr_set i cnt)).

Definition tfw_stats_adjust (r : nat) : SM TfwPcntRanges unit :=
  bug_on (r =? 0)%nat ;;;
  scan <~ on_row r adjust_scan ;;
  let '(sum, cnt, max, i_max) := scan in
  bug_on (cnt =? 0) ;;;
  if max <=? u64 (sum * 2) / cnt then sm_ret tt
  else
    pc <~ get_ctl r ;;
    prepc <~ get_ctl (r - 1) ;;
    let prend := u64 (pc_begin prepc + TFW_STATS_RSPAN (u32 (pc_order prepc + 1))) in
    (if (i_max =? 0) && (prend <? pc_begin pc) then
       __range_grow_right (r - 1) ;;; adjust_spread r max
     else sm_ret tt) ;;;
    if pc_order pc =? 0 then sm_ret tt else __range_shrink_left r.

(** ** Recording a response time *)

Definition tfw_stats_adj_max (r_time : Z) : SM TfwPcntRanges bool :=
  s <~ sm_get ;;
  if max_val s <? r_time then
    sm_mod (fun s => MkRanges (ctl s) (tot_cnt s) (tot_val s) (min_val s) r_time (cnt s)) ;;;
    sm_ret true
  else sm_ret false.

Definition tfw_stats_adj_min (r_time : Z) : SM TfwPcntRanges bool :=
  s <~ sm_get ;;
  if r_time <? min_val s then
    sm_mod (fun s => MkRanges (ctl s) (tot_cnt s) (tot_val s) r_time (max_val s) (cnt s)) ;;;
    sm_ret true
  else sm_ret false.

Definition update_totals (r_time : Z) : SM TfwPcntRanges unit :=
  b <~ tfw_stats_adj_min r_time ;;
  (if (b : bool) then sm_ret false else tfw_stats_adj_max r_time) ;;;
  sm_mod (fun s => MkRanges (ctl s) (u64 (tot_cnt s + 1)) (u64 (tot_val s + r_time))
                            (min_val s) (max_val s) (cnt s)).

Definition tfw_stats_update (r_time : Z) : SM TfwPcntRanges unit :=
  pc2 <~ get_ctl 2 ;;
  (if r_time <=? pc_end pc2 then
     pc1 <~ get_ctl 1 ;;
     if pc_end pc1 <? r_time then
       rng_inc 2 r_time ;;; tfw_stats_adjust 2
     else
       pc0 <~ get_ctl 0 ;;
       bug_on (negb (pc_begin pc0 =? 1)) ;;;
       if pc_end pc0 <? r_time then
         rng_inc 1 r_time ;;; tfw_stats_adjust 1
       else rng_inc 0 r_time
   else
     pc3 <~ get_ctl 3 ;;
     (if pc_end pc3 <? r_time then tfw_stats_extend r_time else sm_ret tt) ;;;
     rng_inc 3 r_time ;;;
     tfw_stats_adjust 3) ;;;
  update_totals r_time.

(** ** The initial ranges *)

Definition UINT_MAX : Z := 2 ^ 32 - 1.

Definition tfw_rngctl_init : list TfwPcntCtl :=
  [MkCtl 0 1 16; MkCtl 1 17 47; MkCtl 2 48 108; MkCtl 4 109 349].

(** The part of [__tfw_apm_rbent_reset()] on the ranges. *)
Definition rng_reset (s : TfwPcntRanges) : TfwPcntRanges :=
  MkRanges (ctl s) 0 0 UINT_MAX 0
           (replicate TFW_STATS_RANGES (replicate TFW_STATS_BCKTS 0)).

Definition rng_init : TfwPcntRanges := rng_reset (MkRanges tfw_rngctl_init 0 0 0 0 []).

(** A sequence of recorded times. *)
Fixpoint updates (l : list Z) : SM TfwPcntRanges unit :=
  match l with
  | [] => sm_ret tt
  | t :: l => tfw_stats_update t ;;; updates l
  end.

(** ** Rows *)

(** A row of sixteen counters that are not negative. *)
Definition row_ok (l : row) : Prop := length l = TFW_STATS_BCKTS /\ Forall (Z.le 0) l.

(** Case analysis on a row: sixteen named counters. *)
Lemma row_ok_inv l :
  row_ok l ->
  exists c0 c1 c2 c3 c4 c5 c6 c7 c8 c9 c10 c11 c12 c13 c14 c15,
    l = [c0; c1; c2; c3; c4; c5; c6; c7; c8; c9; c10; c11; c12; c13; c14; c15].
Proof.
  intros [Hl _]. do 16 (destruct l as [|? l]; [done |]). destruct l; [| done].
  by repeat eexists.
Qed.

Ltac row_cases H :=
  let Hok := fresh in
  pose proof H as Hok; apply row_ok_inv in Hok; destruct Hok as
    (c0 & c1 & c2 & c3 & c4 & c5 & c6 & c7 & c8 & c9 & c10 & c11 & c12 & c13 & c14 & c15 & ->);
  let Hf := fresh in
  destruct H as [_ Hf]; rewrite !Forall_cons in Hf; destruct_and! Hf.

(** A row operation that moves hits between buckets and loses none. *)
Definition row_keep (m : SM row unit) : Prop :=
  forall l, row_ok l -> zsum l < 2 ^ 32 ->
  wp m (fun _ l' => row_ok l' /\ zsum l' = zsum l) l.

Ltac no_wrap :=
  repeat match goal with
  | |- context [u64 ?z] => rewrite (u64_small z) by lia
  | |- context [u32 ?z] => rewrite (u32_small z) by (unfold is_u32; lia)
  end.

Lemma grow_right_keep l :
  row_ok l -> zsum l < 2 ^ 64 ->
  wp grow_right_cnt (fun _ l' =>
    length l' = TFW_STATS_BCKTS /\ Forall (Z.le 0) l' /\ zsum (take 8 l') = zsum l) l.
Proof.
  intros H Hs. row_cases H. cbn -[Z.add] in Hs.
  unfold wp, grow_right_cnt. lazy -[Z.add u64 Z.pow Z.lt Z.le zsum take].
  no_wrap. split; [done |]. split; [rewrite !Forall_cons; repeat split; lia || done |].
  cbn -[Z.add]. lia.
Qed.

(** Evaluates a row operation on sixteen named counters. *)
Ltac row_eval :=
  lazy -[Z.add Z.sub Z.mul Z.div u64 u32 Z.pow Z.lt Z.le zsum length].

Ltac row_keep_tac :=
  let H := fresh in let Hs := fresh in
  intros l H Hs; row_cases H; cbn -[Z.add Z.pow] in Hs;
  row_eval; no_wrap;
  split; [split; [reflexivity | rewrite !Forall_cons; repeat split; lia || done] |];
  cbn -[Z.add Z.sub Z.div]; lia.

Lemma half_range c : 0 <= c -> 0 <= c / 2 <= c.
Proof. intros. split; [apply Z.div_pos | apply Z.div_le_upper_bound]; lia. Qed.

Lemma shrink_left_keep : row_keep shrink_left_cnt.
Proof.
  intros l H Hs. row_cases H. cbn -[Z.add Z.pow] in Hs.
  pose proof (half_range c8). pose proof (half_range c9). pose proof (half_range c10).
  pose proof (half_range c11). pose proof (half_range c12). pose proof (half_range c13).
  pose proof (half_range c14). pose proof (half_range c15).
  row_eval. no_wrap.
  split; [split; [reflexivity | rewrite !Forall_cons; repeat split; lia || done] |].
  cbn -[Z.add Z.sub Z.div]. lia.
Qed.

Lemma extend_keep_2 : row_keep (extend_cnt 2 8).
Proof. row_keep_tac. Qed.

Lemma extend_keep_4 : row_keep (extend_cnt 4 4).
Proof. row_keep_tac. Qed.

Lemma extend_keep_8 : row_keep (extend_cnt 8 2).
Proof. row_keep_tac. Qed.

Lemma extend_keep_16 : row_keep (extend_cnt 16 1).
Proof. row_keep_tac. Qed.

(** ** The loop rule and the scan *)

Lemma wp_fold {S A} (I : nat -> A -> S -> Prop) body m : forall n a s,
  I n a s ->
  (forall i a s, (n <= i < n + m)%nat -> I i a s -> wp (body i a) (I (Datatypes.S i)) s) ->
  wp (sm_fold (seq n m) body a) (I (n + m)%nat) s.
Proof.
  induction m as [|m IH]; intros n a s H0 Hb; simpl.
  - apply wp_ret. by rewrite Nat.add_0_r.
  - apply wp_bind. eapply wp_mono; [apply Hb; [lia | done] |].
    intros a' s' H'. rewrite <- Nat.add_succ_comm. apply IH; [done |].
    intros. apply Hb; [lia | done].
Qed.

Lemma wp_arr_get {A} i x (l : list A) (Q : A -> list A -> Prop) :
  l !! i = Some x -> Q x l -> wp (arr_get i) Q l.
Proof. unfold wp, arr_get. by intros ->. Qed.

Lemma wp_arr_set {A} i x v (l : list A) (Q : unit -> list A -> Prop) :
  l !! i = Some x -> Q tt (<[i := v]> l) -> wp (arr_set i v) Q l.
Proof. unfold wp, arr_set. by intros ->. Qed.

Lemma row_ok_lookup l i : row_ok l -> (i < 16)%nat -> exists x, l !! i = Some x /\ 0 <= x <= zsum l.
Proof.
  intros [Hl Hf] Hi. destruct (lookup_lt_is_Some_2 l i) as [x Hx]; [by rewrite Hl |].
  exists x. split; [done |]. split; [by eapply (Forall_lookup_1 _ _ _ _ Hf) | by eapply zsum_elem].
Qed.

Lemma zsum_take_S l i x : l !! i = Some x -> zsum (take (S i) l) = zsum (take i l) + x.
Proof. intros H. rewrite (take_S_r _ _ _ H), zsum_app. simpl. lia. Qed.

(** What the scan of [tfw_stats_adjust()] knows after [i] buckets. *)
Definition scan_inv (l : row) (i : nat) (p : Z * Z * Z * Z) (l' : row) : Prop :=
  let '(sum, cnt, max, i_max) := p in
  l' = l /\ sum = zsum (take i l) /\ 0 <= cnt <= Z.of_nat i /\ (0 < sum -> 0 < cnt)
  /\ 0 <= max /\ (max = 0 \/ 0 <= i_max /\ l !! Z.to_nat i_max = Some max)
  /\ (forall j x, (j < i)%nat -> l !! j = Some x -> x <= max).

Lemma scan_ok l :
  row_ok l -> zsum l < 2 ^ 32 -> wp adjust_scan (fun p l' => scan_inv l 16 p l') l.
Proof.
  intros Hl Hs. apply (wp_fold (scan_inv l)).
  - repeat split; try lia; auto.
  - intros i [[[sum cnt] max] i_max] l' Hi (-> & Hsum & Hc & Hpos & Hm & Him & Hmax).
    unfold TFW_STATS_BCKTS in Hi.
    destruct (row_ok_lookup l i Hl ltac:(lia)) as (x & Hx & Hx0).
    pose proof (zsum_take_S _ _ _ Hx) as HS.
    assert (Hlt : zsum (take (S i) l) <= zsum l).
    { rewrite <- (take_drop (S i) l) at 2. rewrite zsum_app.
      pose proof (zsum_nonneg (drop (S i) l) (Forall_drop _ _ _ (proj2 Hl))). lia. }
    assert (0 <= sum).
    { rewrite Hsum. apply zsum_nonneg, Forall_take, Hl. }
    apply wp_bind, (wp_arr_get _ x); [done |].
    destruct (Z.eqb_spec x 0) as [H0 | Hn], (Z.ltb_spec max x) as [Hlt' | Hge];
      apply wp_ret; unfold scan_inv; rewrite ?(u64_small (sum + x)) by lia;
      (repeat apply conj; auto; try lia;
       try (intros j y Hj Hy; destruct (decide (j = i)) as [-> |];
            [simplify_eq; lia | assert (y <= max) by (apply (Hmax j); [lia | done]); lia]);
       try (right; rewrite Nat2Z.id; split; [lia | done])).
Qed.

(** ** Ranges *)

Definition ctl_ok (B : Z) (pc : TfwPcntCtl) : Prop :=
  0 <= pc_order pc /\ 1 <= pc_begin pc
  /\ pc_end pc = pc_begin pc + 15 * 2 ^ pc_order pc /\ pc_end pc <= B.

(** The response time a bucket stands for. *)
Definition bucket_val (pc : TfwPcntCtl) (b : Z) : Z := pc_begin pc + Z.shiftl b (pc_order pc).

Lemma bucket_val_eq B pc b : ctl_ok B pc -> bucket_val pc b = pc_begin pc + b * 2 ^ pc_order pc.
Proof. intros [H _]. unfold bucket_val. by rewrite Z.shiftl_mul_pow2. Qed.

Lemma rng_bucket B pc t :
  B < 2 ^ 31 -> ctl_ok B pc -> 0 <= t <= pc_end pc ->
  0 <= __rng pc t <= 15 /\ t <= bucket_val pc (__rng pc t)
  /\ (pc_begin pc < t -> bucket_val pc (__rng pc t - 1) < t)
  /\ (t <= pc_begin pc -> __rng pc t = 0).
Proof.
  intros HB Hc Ht. rewrite !(bucket_val_eq B) by done.
  destruct Hc as (Ho & Hb & He & HeB). unfold __rng.
  pose proof (pow2_pos _ Ho) as Hp.
  destruct (Z.leb_spec t (pc_begin pc)); [repeat split; lia |].
  rewrite Z.shiftl_1_l, Z.shiftr_div_pow2 by done. rewrite u32_small by (unfold is_u32; lia).
  set (p := 2 ^ pc_order pc) in *. set (d := t - pc_begin pc).
  pose proof (Z.div_mod (d + (p - 1)) p ltac:(lia)).
  pose proof (Z.mod_pos_bound (d + (p - 1)) p ltac:(lia)).
  assert (0 <= (d + (p - 1)) / p) by (apply Z.div_pos; lia).
  assert ((d + (p - 1)) / p <= 15).
  { apply Z.lt_succ_r, Z.div_lt_upper_bound; lia. }
  repeat split; try lia; nia.
Qed.

Definition ctls_ok (B : Z) (cs : list TfwPcntCtl) : Prop :=
  length cs = TFW_STATS_RANGES /\ Forall (ctl_ok B) cs
  /\ (forall r pc pc', cs !! r = Some pc -> cs !! S r = Some pc' -> pc_end pc < pc_begin pc')
  /\ (forall pc, cs !! 0%nat = Some pc -> pc_begin pc = 1).

Definition rows_ok (rows : list row) : Prop :=
  length rows = TFW_STATS_RANGES /\ Forall row_ok rows.

Definition total (rows : list row) : Z := zsum (zsum <$> rows).

(** Ranges up to [B] whose buckets hold [n] hits. *)
Definition rng_mid (B n : Z) (s : TfwPcntRanges) : Prop :=
  ctls_ok B (ctl s) /\ rows_ok (cnt s) /\ total (cnt s) = n.

(** The invariant of a ring buffer entry. *)
Definition rng_ok (B : Z) (s : TfwPcntRanges) : Prop :=
  rng_mid B (tot_cnt s) s /\ tot_cnt s < 2 ^ 32.

(** The fields that moving ranges leaves alone. *)
Definition same_totals (s s' : TfwPcntRanges) : Prop :=
  tot_cnt s' = tot_cnt s /\ tot_val s' = tot_val s
  /\ min_val s' = min_val s /\ max_val s' = max_val s.

Definition moves (B n : Z) (m : SM TfwPcntRanges unit) (s : TfwPcntRanges) : Prop :=
  wp m (fun _ s' => rng_mid B n s' /\ same_totals s s') s.

Lemma total_insert rows r l l' :
  rows !! r = Some l -> total (<[r := l']> rows) = total rows - zsum l + zsum l'.
Proof.
  intros H. unfold total. rewrite list_fmap_insert. apply zsum_insert.
  by rewrite list_lookup_fmap, H.
Qed.

Lemma total_row rows r l : rows_ok rows -> rows !! r = Some l -> 0 <= zsum l <= total rows.
Proof.
  intros [_ Hf] H. assert (Hnn : Forall (Z.le 0) (zsum <$> rows)).
  { rewrite Forall_fmap. eapply Forall_impl; [exact Hf |]. intros k [_ Hk]. by apply zsum_nonneg. }
  split.
  - apply zsum_nonneg. by destruct (Forall_lookup_1 _ _ _ _ Hf H).
  - eapply zsum_elem; [done |]. by rewrite list_lookup_fmap, H.
Qed.

Lemma rows_ok_lookup rows r : rows_ok rows -> (r < 4)%nat -> exists l, rows !! r = Some l /\ row_ok l.
Proof.
  intros [Hl Hf] Hr. destruct (lookup_lt_is_Some_2 rows r) as [l H]; [by rewrite Hl |].
  exists l. split; [done | by eapply (Forall_lookup_1 _ _ _ _ Hf)].
Qed.

Lemma rows_ok_insert rows r l : rows_ok rows -> row_ok l -> rows_ok (<[r := l]> rows).
Proof. intros [Hl Hf] H. split; [by rewrite length_insert | by apply Forall_insert]. Qed.

Lemma ctls_ok_lookup B cs r : ctls_ok B cs -> (r < 4)%nat -> exists pc, cs !! r = Some pc /\ ctl_ok B pc.
Proof.
  intros (Hl & Hf & _) Hr. destruct (lookup_lt_is_Some_2 cs r) as [pc H]; [by rewrite Hl |].
  exists pc. split; [done | by eapply (Forall_lookup_1 _ _ _ _ Hf)].
Qed.

(** A range may change as long as its left bound does not go back and it stays
    clear of its right neighbour. *)
Lemma ctls_ok_insert B cs r pc pc' :
  ctls_ok B cs -> cs !! r = Some pc -> ctl_ok B pc' ->
  pc_begin pc <= pc_begin pc' -> (r = 0%nat -> pc_begin pc' = pc_begin pc) ->
  (forall pn, cs !! S r = Some pn -> pc_end pc' < pc_begin pn) ->
  ctls_ok B (<[r := pc']> cs).
Proof.
  intros (Hl & Hf & Ha & H0) Hr Hok Hb Hz Hn. repeat split.
  - by rewrite length_insert.
  - by apply Forall_insert.
  - assert (r < length cs)%nat by (by eapply lookup_lt_Some).
    intros q p p' Hp Hp'.
    destruct (decide (q = r)) as [-> | Hq].
    + rewrite list_lookup_insert_eq in Hp by done. simplify_eq.
      rewrite list_lookup_insert_ne in Hp' by lia. by apply Hn.
    + rewrite list_lookup_insert_ne in Hp by done.
      destruct (decide (S q = r)) as [<- | Hq'].
      * rewrite list_lookup_insert_eq in Hp' by done. simplify_eq.
        pose proof (Ha _ _ _ Hp Hr). lia.
      * rewrite list_lookup_insert_ne in Hp' by done. by eapply Ha.
  - intros p Hp. destruct r as [|r].
    + rewrite list_lookup_insert_eq in Hp by (by eapply lookup_lt_Some). simplify_eq.
      rewrite Hz by done. by apply H0.
    + rewrite list_lookup_insert_ne in Hp by done. by apply H0.
Qed.

Lemma wp_get_ctl r pc s (Q : TfwPcntCtl -> TfwPcntRanges -> Prop) :
  ctl s !! r = Some pc -> Q pc s -> wp (get_ctl r) Q s.
Proof. unfold wp, get_ctl. by intros ->. Qed.

Lemma wp_put_ctl r pc pc' s (Q : unit -> TfwPcntRanges -> Prop) :
  ctl s !! r = Some pc ->
  Q tt (MkRanges (<[r := pc']> (ctl s)) (tot_cnt s) (tot_val s) (min_val s) (max_val s) (cnt s)) ->
  wp (put_ctl r pc') Q s.
Proof. unfold wp, put_ctl. by intros ->. Qed.

Lemma wp_on_row {A} r l (m : SM row A) s Q :
  cnt s !! r = Some l ->
  wp m (fun a l' => Q a (MkRanges (ctl s) (tot_cnt s) (tot_val s) (min_val s) (max_val s)
                                  (<[r := l']> (cnt s)))) l ->
  wp (on_row r m) Q s.
Proof. unfold wp, on_row. intros ->. by destruct (m l) as [[a l']|]. Qed.

(** Moving hits within a row. *)
Lemma wp_row_keep B n r m s (Q : unit -> TfwPcntRanges -> Prop) :
  rng_mid B n s -> n < 2 ^ 32 -> (r < 4)%nat -> row_keep m ->
  (forall s', rng_mid B n s' -> same_totals s s' -> ctl s' = ctl s -> Q tt s') ->
  wp (on_row r m) Q s.
Proof.
  intros (Hc & Hr & Hn) Hlt Hr4 Hm HQ.
  destruct (rows_ok_lookup _ _ Hr Hr4) as (l & Hl & Hlok).
  pose proof (total_row _ _ _ Hr Hl).
  apply (wp_on_row _ l); [done |]. eapply wp_mono; [apply Hm; [done | lia] |].
  simpl. intros [] l' [Hok Hs]. apply HQ; [| done | done].
  split; [done |]. split; [by apply rows_ok_insert |].
  simpl. rewrite (total_insert _ _ _ _ Hl). lia.
Qed.

Section moving.
Context (B : Z) (HB : B < 2 ^ 31).

Lemma order_small pc : ctl_ok B pc -> 0 <= pc_order pc < 28.
Proof using HB.
  intros (Ho & Hb & He & HeB). split; [done |].
  apply (Z.pow_lt_mono_r_iff 2); lia.
Qed.

Lemma rspan_eq o : 0 <= o -> TFW_STATS_RSPAN o = 15 * 2 ^ o.
Proof using. intros. unfold TFW_STATS_RSPAN. by rewrite Z.shiftl_mul_pow2. Qed.

Lemma shrink_left_ok n r pc s :
  rng_mid B n s -> n < 2 ^ 32 -> (0 < r < 4)%nat -> ctl s !! r = Some pc -> pc_order pc <> 0 ->
  moves B n (__range_shrink_left r) s.
Proof using HB.
  intros Hm Hn Hr Hpc Ho. pose proof Hm as (Hc & Hrows & Ht).
  assert (Hok : ctl_ok B pc).
  { destruct Hc as (_ & Hf & _). by eapply (Forall_lookup_1 _ _ _ _ Hf). }
  pose proof (order_small _ Hok) as Hos.
  destruct Hok as (_ & Hb & He & HeB).
  apply wp_bind, (wp_get_ctl _ pc); [done |].
  apply wp_bind, (wp_put_ctl _ pc); [done |].
  assert (Hpow : 2 ^ pc_order pc = 2 * 2 ^ (pc_order pc - 1)).
  { rewrite <- Z.pow_succ_r by lia. f_equal. lia. }
  pose proof (pow2_pos (pc_order pc - 1) ltac:(lia)).
  rewrite (u32_small (pc_order pc - 1)) by (unfold is_u32; lia).
  rewrite rspan_eq by lia. rewrite u32_small by (unfold is_u32; lia).
  apply (wp_row_keep B n); [| done | lia | apply shrink_left_keep | done].
  split; [| done]. simpl.
  apply (ctls_ok_insert _ _ _ pc); [done | done | | simpl; lia | lia |].
  - repeat split; simpl; lia.
  - intros pn Hpn. simpl. destruct Hc as (_ & _ & Ha & _). by eapply Ha.
Qed.

(** The search of [tfw_stats_extend()] ends at the first order that reaches [t]. *)
Lemma extend_order_ok b t : 1 <= b -> t < 2 ^ 30 -> forall fuel o,
  0 <= o < 30 -> b + 15 * 2 ^ o < t -> 30 - o <= Z.of_nat fuel ->
  exists o' e, extend_order fuel b t o = Ok (o', e)
    /\ o < o' < 31 /\ e = b + 15 * 2 ^ o' /\ t <= e /\ e < 2 * t.
Proof using.
  intros Hb Ht. induction fuel as [|fuel IH]; intros o Ho Hlt Hf; [lia |].
  assert (Hpow : 2 ^ (o + 1) = 2 * 2 ^ o) by (rewrite Z.pow_add_r; lia).
  pose proof (pow2_pos o ltac:(lia)) as Hp.
  simpl. rewrite (u32_small (o + 1)) by (unfold is_u32; lia).
  rewrite rspan_eq, u64_small by lia.
  destruct (Z.ltb_spec (b + 15 * 2 ^ (o + 1)) t) as [Hn | Hn].
  - assert (o + 1 < 30).
    { destruct (Z.eq_dec o 29) as [-> |]; [| lia]. change (2 ^ (29 + 1)) with (2 ^ 30) in Hn. lia. }
    destruct (IH (o + 1)) as (o' & e & -> & ? & ? & ? & ?); [lia | lia | lia |].
    exists o', e. split; [done |]. lia.
  - eexists _, _. split; [reflexivity |]. lia.
Qed.

Lemma extend_row_keep s :
  1 <= s <= 4 ->
  row_keep (extend_cnt (Z.to_nat (Z.shiftl 1 s)) (Z.to_nat (Z.shiftr (Z.of_nat TFW_STATS_BCKTS) s))).
Proof using.
  intros Hs. assert (s = 1 \/ s = 2 \/ s = 3 \/ s = 4) as [-> | [-> | [-> | ->]]] by lia.
  - exact extend_keep_2.
  - exact extend_keep_4.
  - exact extend_keep_8.
  - exact extend_keep_16.
Qed.

Lemma extend_ok n t pc s :
  rng_mid B n s -> n < 2 ^ 32 -> ctl s !! 3%nat = Some pc -> pc_end pc < t -> 2 * t <= B ->
  wp (tfw_stats_extend t) (fun _ s' => rng_mid B n s' /\ same_totals s s'
    /\ exists pc', ctl s' !! 3%nat = Some pc' /\ t <= pc_end pc') s.
Proof using HB.
  intros Hm Hn Hpc Ht HtB. pose proof Hm as (Hc & Hrows & Htot).
  assert (Hok : ctl_ok B pc).
  { destruct Hc as (_ & Hf & _). by eapply (Forall_lookup_1 _ _ _ _ Hf). }
  pose proof (order_small _ Hok) as Hos.
  destruct Hok as (_ & Hb & He & HeB).
  apply wp_bind, (wp_get_ctl _ pc); [done |].
  destruct (extend_order_ok (pc_begin pc) t Hb ltac:(lia) 33 (pc_order pc))
    as (o' & e & -> & Ho' & He' & Hte & Het); [lia | lia | lia |].
  apply wp_bind, wp_bug_on; [apply Z.leb_gt; lia |].
  apply wp_bind, (wp_put_ctl _ pc); [done |].
  rewrite (u32_small (o' - pc_order pc)) by (unfold is_u32; lia).
  apply (wp_row_keep B n);
    [| done | unfold TFW_STATS_RLAST, TFW_STATS_RANGES; lia |
     apply extend_row_keep; unfold TFW_STATS_BCKTS_ORDER; lia |].
  - split; [| done]. apply (ctls_ok_insert _ _ _ pc); [done | done | | simpl; lia | done |].
    + repeat split; simpl; lia.
    + intros pn Hpn. apply lookup_lt_Some in Hpn. destruct Hc as [Hl _]. rewrite Hl in Hpn.
      unfold TFW_STATS_RLAST, TFW_STATS_RANGES in Hpn. lia.
  - intros s' Hm' Hs' Hcs. split; [done |]. split; [done |].
    exists (MkCtl o' (pc_begin pc) e). split; [| done]. rewrite Hcs. simpl.
    apply (list_lookup_insert_eq _ 3%nat). by eapply lookup_lt_Some.
Qed.

Lemma set_right_half c l :
  row_ok l -> 0 <= c ->
  wp (sm_for (seq (TFW_STATS_BCKTS / 2) (TFW_STATS_BCKTS / 2)) (fun i => arr_set i c))
     (fun _ l' => row_ok l' /\ zsum l' = zsum (take 8 l) + 8 * c) l.
Proof using.
  intros H Hc. row_cases H. row_eval.
  split; [split; [reflexivity | rewrite !Forall_cons; repeat split; lia || done] |].
  cbn -[Z.add Z.mul]. lia.
Qed.

(** Range [r - 1] grows and takes over hits of the first bucket of range [r]. *)
Lemma grow_spread_ok n r max l prepc pc s :
  rng_mid B n s -> n < 2 ^ 32 -> (0 < r < 4)%nat ->
  ctl s !! (r - 1)%nat = Some prepc -> ctl s !! r = Some pc ->
  pc_begin prepc + 15 * 2 ^ (pc_order prepc + 1) < pc_begin pc ->
  cnt s !! r = Some l -> l !! 0%nat = Some max ->
  wp (__range_grow_right (r - 1) ;;; adjust_spread r max) (fun _ s' =>
    rng_mid B n s' /\ same_totals s s' /\ ctl s' !! r = Some pc) s.
Proof using HB.
  intros (Hc & Hrows & Ht) Hn Hr Hpre Hpc Hgap Hl Hmax.
  pose proof Hc as (Hlen & Hf & Ha & _).
  pose proof (Forall_lookup_1 _ _ _ _ Hf Hpre) as Hok.
  pose proof (Forall_lookup_1 _ _ _ _ Hf Hpc) as (Hpo & Hpb & Hpe & HpB).
  pose proof (order_small _ Hok) as Hos. destruct Hok as (_ & Hb & He & HeB).
  destruct (rows_ok_lookup _ (r - 1) Hrows) as (k & Hk & Hkok); [lia |].
  pose proof (Forall_lookup_1 _ _ _ _ (proj2 Hrows) Hl) as Hlok.
  pose proof (total_row _ _ _ Hrows Hk). pose proof (total_row _ _ _ Hrows Hl).
  pose proof (pow2_pos _ Hpo).
  assert (Hmx : 0 <= max <= zsum l).
  { split; [by eapply (Forall_lookup_1 _ _ _ _ (proj2 Hlok)) |
            by eapply zsum_elem; [apply Hlok |]]. }
  pose proof (pow2_pos (pc_order prepc + 1) ltac:(lia)).
  assert (Hd : 0 <= max / 9 /\ 9 * (max / 9) <= max).
  { split; [apply Z.div_pos; lia | apply Z.mul_div_le; lia]. }
  unfold __range_grow_right, adjust_spread. apply wp_bind.
  apply wp_bind, (wp_get_ctl _ prepc); [done |]. apply wp_bind, (wp_put_ctl _ prepc); [done |].
  apply (wp_on_row _ k); [done |].
  eapply wp_mono; [apply grow_right_keep; [done | lia] |]. cbv beta.
  intros _ k' (Hk'l & Hk'f & Hk's).
  change (Z.of_nat (TFW_STATS_BCKTS / 2 + 1)) with 9. change (Z.of_nat (TFW_STATS_BCKTS / 2)) with 8.
  rewrite (u64_small (max / 9 * 8)) by lia.
  apply wp_bind, (wp_on_row _ l); [simpl; rewrite list_lookup_insert_ne by lia; done |].
  apply wp_bind, (wp_arr_get _ max); [done |]. apply (wp_arr_set _ max); [done |].
  apply (wp_on_row _ k').
  { simpl. rewrite list_lookup_insert_ne by lia.
    rewrite list_lookup_insert_eq; [done |]. by eapply lookup_lt_Some. }
  eapply wp_mono; [apply set_right_half; [by split | lia] |]. simpl.
  intros _ k'' [Hk''ok Hk''s]. rewrite (u64_small (max - max / 9 * 8)) by lia.
  rewrite (u32_small (pc_order prepc + 1)) by (unfold is_u32; lia). rewrite rspan_eq by lia.
  rewrite u32_small by (unfold is_u32; lia).
  split; [split; [| split] | split; [done |]]; simpl.
  - apply (ctls_ok_insert _ _ _ prepc); [done | done | | simpl; lia | done |].
    + repeat split; simpl; lia.
    + intros pn Hpn. replace (S (r - 1)) with r in Hpn by lia. simplify_eq. done.
  - repeat apply rows_ok_insert; [done | by split | | done].
    split; [rewrite length_insert; apply Hlok | apply Forall_insert; [apply Hlok | lia]].
  - rewrite (total_insert _ _ k'); cycle 1.
    { rewrite list_lookup_insert_ne by lia. rewrite list_lookup_insert_eq; [done |].
      by eapply lookup_lt_Some. }
    rewrite (total_insert _ _ l); cycle 1.
    { rewrite list_lookup_insert_ne by lia. done. }
    rewrite (total_insert _ _ k) by done. rewrite (zsum_insert l 0 max) by done. lia.
  - rewrite list_lookup_insert_ne by lia. done.
Qed.

Lemma adjust_ok n r l s :
  rng_mid B n s -> n < 2 ^ 32 -> (0 < r < 4)%nat -> cnt s !! r = Some l -> 0 < zsum l ->
  moves B n (tfw_stats_adjust r) s.
Proof using HB.
  intros Hm Hn Hr Hl Hpos. pose proof Hm as (Hc & Hrows & Ht).
  pose proof (Forall_lookup_1 _ _ _ _ (proj2 Hrows) Hl) as Hlok.
  pose proof (total_row _ _ _ Hrows Hl).
  destruct (ctls_ok_lookup _ _ r Hc) as (pc & Hpc & Hpcok); [lia |].
  destruct (ctls_ok_lookup _ _ (r - 1) Hc) as (prepc & Hpre & Hpreok); [lia |].
  apply wp_bind, wp_bug_on; [apply Nat.eqb_neq; lia |].
  apply wp_bind, (wp_on_row _ l); [done |].
  eapply wp_mono; [apply scan_ok; [done | lia] |].
  intros [[[sum cnt] max] i_max] l' (-> & Hsum & Hcnt & Hcpos & Hmx & Him & Hmax).
  rewrite list_insert_id by done. destruct s as [cs tc tv mn mx rows]. simpl in *.
  rewrite take_ge in Hsum by (rewrite (proj1 Hlok); done).
  apply wp_bind, wp_bug_on; [apply Z.eqb_neq; lia |].
  wp_step; [by apply wp_ret |]. bool_hyps.
  assert (0 <= u64 (sum * 2) / cnt) by (apply Z.div_pos; [apply Z.mod_pos_bound; lia | lia]).
  apply wp_bind, (wp_get_ctl _ pc); [done |]. apply wp_bind, (wp_get_ctl _ prepc); [done |].
  pose proof (order_small _ Hpreok) as Hpos'. destruct Hpreok as (_ & Hb & He & HeB).
  assert (Hspan : u64 (pc_begin prepc + TFW_STATS_RSPAN (u32 (pc_order prepc + 1)))
                  = pc_begin prepc + 15 * 2 ^ (pc_order prepc + 1)).
  { rewrite (u32_small (pc_order prepc + 1)), rspan_eq by (unfold is_u32; lia).
    pose proof (Z.pow_lt_mono_r 2 (pc_order prepc + 1) 29 ltac:(lia) ltac:(lia) ltac:(lia)).
    pose proof (pow2_pos (pc_order prepc + 1) ltac:(lia)).
    apply u64_small. lia. }
  rewrite Hspan. apply wp_bind.
  eapply (wp_mono _ (fun _ s' => rng_mid B n s' /\
            same_totals (MkRanges cs tc tv mn mx rows) s' /\ ctl s' !! r = Some pc)).
  - wp_step; [| by apply wp_ret]. bool_hyps.
    eapply (grow_spread_ok _ _ _ l prepc pc); try done.
    destruct Him as [-> | [_ Him]]; [lia |].
    match goal with H : i_max = 0 |- _ => by rewrite H in Him end.
  - intros _ s' (Hm' & Hsame & Hpc'). wp_step; [by apply wp_ret |]. bool_hyps.
    eapply wp_mono; [by eapply (shrink_left_ok n r pc) |].
    simpl. intros _ s'' [? Hs'']. split; [done |].
    unfold same_totals in *. destruct_and!. repeat split; congruence.
Qed.

(** A hit goes to the bucket of its response time. *)
Lemma rng_inc_ok n r pc t s :
  rng_mid B n s -> n + 1 < 2 ^ 32 -> ctl s !! r = Some pc -> 0 <= t <= pc_end pc ->
  wp (rng_inc r t) (fun _ s' => rng_mid B (n + 1) s' /\ same_totals s s' /\ ctl s' = ctl s
    /\ exists l x, cnt s !! r = Some l /\ l !! Z.to_nat (__rng pc t) = Some x
       /\ cnt s' = <[r := <[Z.to_nat (__rng pc t) := x + 1]> l]> (cnt s)) s.
Proof using HB.
  intros (Hc & Hrows & Ht) Hn Hpc Htr.
  pose proof (Forall_lookup_1 _ _ _ _ (proj1 (proj2 Hc)) Hpc) as Hok.
  pose proof (rng_bucket B pc t HB Hok Htr) as (Hidx & _).
  assert (Hr : (r < 4)%nat).
  { apply lookup_lt_Some in Hpc. by rewrite (proj1 Hc) in Hpc. }
  destruct (rows_ok_lookup _ _ Hrows Hr) as (l & Hl & Hlok).
  pose proof (total_row _ _ _ Hrows Hl).
  destruct (row_ok_lookup l (Z.to_nat (__rng pc t)) Hlok) as (x & Hx & Hx0); [lia |].
  apply wp_bind, (wp_get_ctl _ pc); [done |]. apply (wp_on_row _ l); [done |].
  apply wp_bind, (wp_arr_get _ x); [done |]. apply (wp_arr_set _ x); [done |].
  rewrite u64_small by lia. split; [| split; [done |]; split; [done |]; eauto].
  split; [done |]. split; simpl.
  - apply rows_ok_insert; [done |]. split; [rewrite length_insert; apply Hlok |].
    apply Forall_insert; [apply Hlok | lia].
  - rewrite (total_insert _ _ l) by done. rewrite (zsum_insert l _ x) by done. lia.
Qed.

Lemma inc_adjust_ok n r pc t s :
  rng_mid B n s -> n + 1 < 2 ^ 32 -> (0 < r < 4)%nat -> ctl s !! r = Some pc ->
  0 <= t <= pc_end pc ->
  moves B (n + 1) (rng_inc r t ;;; tfw_stats_adjust r) s.
Proof using HB.
  intros Hm Hn Hr Hpc Ht. apply wp_bind.
  eapply wp_mono; [by eapply rng_inc_ok |].
  intros _ s' (Hm' & Hs & Hcs & l & x & Hl & Hx & Hcnt).
  pose proof Hm as (_ & Hrows & _).
  pose proof (Forall_lookup_1 _ _ _ _ (proj2 Hrows) Hl) as [Hll Hlf].
  pose proof (zsum_insert _ _ _ (x + 1) Hx). pose proof (zsum_nonneg _ Hlf).
  eapply wp_mono; [eapply (adjust_ok (n + 1)); [done | done | done | |] |].
  - rewrite Hcnt. rewrite list_lookup_insert_eq; [done |]. by eapply lookup_lt_Some.
  - lia.
  - intros _ s'' [? Hs'']. split; [done |].
    unfold same_totals in *. destruct_and!. repeat split; congruence.
Qed.

Lemma update_totals_ok n t s :
  rng_mid B n s -> tot_cnt s + 1 = n -> 0 <= n < 2 ^ 32 ->
  wp (update_totals t) (fun _ s' => rng_ok B s' /\ ctl s' = ctl s /\ cnt s' = cnt s
    /\ tot_cnt s' = tot_cnt s + 1 /\ tot_val s' = u64 (tot_val s + t)
    /\ min_val s' = Z.min (min_val s) t
    /\ max_val s' = if t <? min_val s then max_val s else Z.max (max_val s) t) s.
Proof using.
  intros Hm Htc Hn. unfold update_totals, tfw_stats_adj_min, tfw_stats_adj_max.
  unfold wp, sm_bind, sm_get, sm_mod, sm_ret.
  destruct s as [cs tc tv mn mx rows]. simpl in *.
  destruct (Z.ltb_spec t mn); simpl; [| destruct (Z.ltb_spec mx t); simpl];
    rewrite (u64_small (tc + 1)) by lia;
    (split; [split; [by rewrite Htc | simpl; lia] |]); simpl; repeat split; try done; lia.
Qed.

Lemma stats_update_ok t s :
  rng_ok B s -> 0 <= tot_cnt s -> tot_cnt s + 1 < 2 ^ 32 -> 0 <= t -> 2 * t <= B ->
  wp (tfw_stats_update t) (fun _ s' => rng_ok B s'
    /\ tot_cnt s' = tot_cnt s + 1 /\ tot_val s' = u64 (tot_val s + t)
    /\ min_val s' = Z.min (min_val s) t
    /\ max_val s' = if t <? min_val s then max_val s else Z.max (max_val s) t) s.
Proof using HB.
  intros [Hm _] Hn0 Hn Ht HtB. pose proof Hm as (Hc & Hrows & Htot).
  destruct (ctls_ok_lookup _ _ 0 Hc) as (pc0 & Hpc0 & _); [lia |].
  destruct (ctls_ok_lookup _ _ 1 Hc) as (pc1 & Hpc1 & _); [lia |].
  destruct (ctls_ok_lookup _ _ 2 Hc) as (pc2 & Hpc2 & _); [lia |].
  destruct (ctls_ok_lookup _ _ 3 Hc) as (pc3 & Hpc3 & _); [lia |].
  apply wp_bind, (wp_get_ctl _ pc2); [done |]. apply wp_bind.
  eapply (wp_mono _ (fun _ s' => rng_mid B (tot_cnt s + 1) s' /\ same_totals s s')).
  - wp_step; bool_hyps.
    + apply wp_bind, (wp_get_ctl _ pc1); [done |].
      wp_step; bool_hyps; [eapply inc_adjust_ok; eauto; lia |].
      apply wp_bind, (wp_get_ctl _ pc0); [done |].
      destruct Hc as (_ & _ & _ & H0).
      apply wp_bind, wp_bug_on; [rewrite (H0 _ Hpc0); done |].
      wp_step; bool_hyps; [eapply inc_adjust_ok; eauto; lia |].
      eapply wp_mono; [eapply rng_inc_ok; eauto; lia |]. simpl. tauto.
    + apply wp_bind, (wp_get_ctl _ pc3); [done |]. apply wp_bind.
      eapply (wp_mono _ (fun _ s' => rng_mid B (tot_cnt s) s' /\ same_totals s s'
                 /\ exists pc', ctl s' !! 3%nat = Some pc' /\ t <= pc_end pc')).
      * wp_step; bool_hyps; [eapply extend_ok; eauto; lia |]. apply wp_ret.
        split; [done |]. split; [done |]. by exists pc3.
      * intros _ s' (Hm' & Hs & pc' & Hpc' & Hte).
        eapply wp_mono; [eapply inc_adjust_ok; eauto; lia |].
        intros _ s'' [? ?]. split; [done |].
        unfold same_totals in *. destruct_and!. repeat split; congruence.
  - intros _ s' (Hm' & Htc & Htv & Hmn & Hmx).
    eapply wp_mono; [eapply update_totals_ok; [done | lia | lia] |].
    simpl. rewrite Htc, Htv, Hmn, Hmx. tauto.
Qed.
End moving.

(** ** Whole sequences of response times *)

Lemma rng_reset_ok B s : ctls_ok B (ctl s) -> rng_ok B (rng_reset s).
Proof.
  intros Hc. split; [| simpl; lia]. split; [done |]. split; [| reflexivity].
  split; [done |]. apply Forall_replicate. split; [done |]. by apply Forall_replicate.
Qed.

Lemma rng_init_ctls B : 349 <= B -> ctls_ok B tfw_rngctl_init.
Proof.
  intros HB. split; [done |]. split; [| split].
  - unfold tfw_rngctl_init. rewrite !Forall_cons. unfold ctl_ok. simpl. repeat split; lia || done.
  - intros r pc pc' H H'. do 4 (destruct r as [|r]; [simpl in *; simplify_eq; simpl; lia |]).
    destruct r; simpl in *; done.
  - intros pc H. by simplify_eq/=.
Qed.

Lemma rng_init_ok B : 349 <= B -> rng_ok B rng_init.
Proof. intros. by apply rng_reset_ok, rng_init_ctls. Qed.

Lemma foldl_min_le l : forall a, foldl Z.min a l <= a.
Proof. induction l as [|x l IH]; intros a; simpl; [lia |]. specialize (IH (Z.min a x)). lia. Qed.

Lemma foldl_max_ge l : forall a, a <= foldl Z.max a l.
Proof. induction l as [|x l IH]; intros a; simpl; [lia |]. specialize (IH (Z.max a x)). lia. Qed.

Lemma foldl_max_mono l : forall a b, a <= b -> foldl Z.max a l <= foldl Z.max b l.
Proof. induction l as [|x l IH]; intros a b Hab; simpl; [done |]. apply IH. lia. Qed.

Lemma updates_ok B l : forall s,
  349 <= B < 2 ^ 31 -> rng_ok B s -> 0 <= tot_cnt s -> tot_cnt s + zlen l < 2 ^ 32 -> is_u64 (tot_val s) ->
  Forall (fun t => 0 <= t /\ 2 * t <= B) l ->
  wp (updates l) (fun _ s' => rng_ok B s' /\ tot_cnt s' = tot_cnt s + zlen l /\ tot_val s' = u64 (tot_val s + zsum l)
    /\ min_val s' = foldl Z.min (min_val s) l /\ max_val s <= max_val s' <= foldl Z.max (max_val s) l
    /\ forall l1 t l2, l = l1 ++ t :: l2 -> foldl Z.min (min_val s) l1 <= t -> t <= max_val s') s.
Proof.
  induction l as [|t l IH]; intros s HB Hs Hn0 Hn Hv Hl; simpl.
  - apply wp_ret. unfold zlen. simpl. rewrite !Z.add_0_r, u64_small by done. split_and!; try done. by intros [].
  - apply Forall_cons in Hl as [[Ht HtB] Hl]. unfold zlen in Hn. simpl in Hn.
    pose proof (zlen_nonneg l).
    apply wp_bind. eapply wp_mono; [apply (stats_update_ok B); try done; unfold zlen in *; lia |].
    intros _ s' (Hs' & Hc & Htv & Hmin & Hmax).
    assert (Hv' : is_u64 (tot_val s')) by (rewrite Htv; apply Z.mod_pos_bound; lia).
    eapply wp_mono; [apply IH; try done; unfold zlen in *; lia |].
    simpl. intros _ s'' (Hs'' & Hc' & Htv' & Hmin' & Hmax' & Hm).
    rewrite Hc', Hc, Htv', Htv, Hmin', Hmin. split; [done |]. split; [unfold zlen; simpl; lia |].
    split; [unfold u64; rewrite Zplus_mod_idemp_l; f_equal; lia |]. split; [done |]. split.
    + assert (Hle : max_val s <= max_val s' <= Z.max (max_val s) t) by (destruct (t <? min_val s); lia).
      pose proof (foldl_max_mono l (max_val s') (Z.max (max_val s) t)). lia.
    + intros [|t' l1] x l2 [= <- ->] Hx; simpl in Hx.
      * rewrite (proj2 (Z.ltb_ge _ _)) in Hmax by lia. lia.
      * apply (Hm l1 x l2); [done |]. by rewrite Hmin.
Qed.

(** C32: Any sequence of fewer than 2^32 response times below 2^29 ms can be recorded:
    no [BUG_ON] fires and no counter outside of the arrays is touched.  Afterwards the four ranges
    are disjoint and ordered, each spans exactly sixteen buckets and the first starts at 1 ms; the
    buckets hold as many hits as were recorded, however the ranges were extended, shrunk and
    rebalanced; [tot_cnt] and [tot_val] are the number and the sum of the times, [min_val] is the smallest one, and
    [max_val] is not above the largest and not below any time that was not a new minimum when it was recorded (a new
    minimum is never compared, [max_not_updated]). *)
Theorem apm_ranges_invariant (l : list Z) :
  Forall (fun t => 0 <= t < 2 ^ 29) l -> zlen l < 2 ^ 32 ->
  exists s, updates l rng_init = Ok (tt, s)
    /\ ctls_ok (2 ^ 30) (ctl s) /\ rows_ok (cnt s)
    /\ total (cnt s) = zlen l /\ tot_cnt s = zlen l /\ tot_val s = zsum l
    /\ min_val s = foldl Z.min UINT_MAX l
    /\ max_val s <= foldl Z.max 0 l
    /\ (forall l1 t l2, l = l1 ++ t :: l2 -> foldl Z.min UINT_MAX l1 <= t -> t <= max_val s).
Proof.
  intros Hl Hn. destruct (wp_ok _ _ _ (updates_ok (2 ^ 30) l rng_init ltac:(lia)
    (rng_init_ok (2 ^ 30) ltac:(lia)) ltac:(simpl; lia) ltac:(simpl; lia) ltac:(unfold is_u64; simpl; lia)
    ltac:(eapply Forall_impl; [exact Hl | simpl; lia])))
    as ([] & s & He & [[Hc [Hr Ht]] _] & Hcnt & Hval & Hmin & Hmax & Hm).
  assert (Hsum : 0 <= zsum l <= 2 ^ 29 * zlen l).
  { clear -Hl. induction Hl as [|t l Ht _ IH]; [unfold zlen; simpl; lia |]. rewrite zsum_cons. unfold zlen in *. simpl length. lia. }
  rewrite u64_small in Hval by (unfold is_u64; simpl; lia).
  exists s. simpl in *. split_and!; try done; lia.
Qed.

Lemma apm_ranges_invariant_witness :
  exists s, updates [10; 20; 400; 33; 33; 33; 33; 33; 33; 5000] rng_init = Ok (tt, s)
    /\ ctls_ok (2 ^ 30) (ctl s) /\ rows_ok (cnt s)
    /\ total (cnt s) = 10 /\ tot_cnt s = 10 /\ tot_val s = 5628 /\ min_val s = 10 /\ max_val s = 5000.
Proof.
  destruct (apm_ranges_invariant [10; 20; 400; 33; 33; 33; 33; 33; 33; 5000]) as (s & H1 & H2 & H3 & H4 & H5 & H6 & H7 & H8 & H9);
    [repeat (apply Forall_cons; split; [lia |]); apply Forall_nil; exact I | unfold zlen; simpl; lia |].
  exists s. split; [exact H1 |]. split; [exact H2 |]. split; [exact H3 |]. split; [exact H4 |]. split; [exact H5 |]. split; [exact H6 |].
  split; [exact H7 |]. apply Z.le_antisymm; [exact H8 |]. apply (H9 [10; 20; 400; 33; 33; 33; 33; 33; 33] 5000 []); [reflexivity |].
  vm_compute. discriminate.
Defined.

(** ** Defects *)

(** A time that lowers the minimum is never compared with the maximum: after 100, 50 and
    20 ms the maximum is still 0. *)
Theorem max_not_updated :
  wp (updates [100; 50; 20]) (fun _ s => max_val s = 0 /\ min_val s = 20) rng_init.
Proof. vm_compute. done. Qed.

(** When the last range is extended by three or more orders at once, the hits of the coalesced
    buckets are added up in an [unsigned int]: counts above 2^32 are cut. *)
Theorem extend_truncates_counts :
  let s := MkRanges tfw_rngctl_init (2 ^ 32) 0 1 1
             [replicate 16 0; replicate 16 0; replicate 16 0; 2 ^ 32 :: replicate 15 0] in
  total (cnt s) = 2 ^ 32 /\ wp (tfw_stats_extend 4000) (fun _ s' => total (cnt s') = 0) s.
Proof. vm_compute. done. Qed.
