(* ===== verification/ApmCalc.v ===== *)
(** * Response-time statistics: percentiles ([fw/apm.c])

    [tfw_apm_prnctl_calc()] merges the buckets of all entries of the ring buffer
    in the order of their response times and stops for each percentile at the
    first time that covers its share of the hits.  The specification [percentile]
    says this of the multiset of hits; [apm_percentiles_correct] is the proof that
    the merge computes it and that it ends before the buckets are exhausted.

    The cursor of an entry keeps the response time in sixteen bits: the theorems
    are about ranges below 65535 ms, and [percentile_truncated] shows what happens
    above. *)

From S2P Require Import Prelude ApmStats.

(** ** The cursor of an entry *)

Definition USHRT_MAX : Z := 65535.

Record TfwApmRBEState := MkSt {
  st_v : Z;
  st_i : Z;
  st_r : Z;
  st_b : Z
}.

(** The fields are [u16], [u8] and two bit fields of four bits. *)
Definition __tfw_apm_state_set (v i r b : Z) : TfwApmRBEState :=
  MkSt (u16 v) (u8 i) (r mod 2 ^ 4) (b mod 2 ^ 4).

Definition bucket (rng : TfwPcntRanges) (r b : nat) : option Z := cnt rng !! r ≫= (.!! b).

(** The inner loop over the buckets [bs] of range [r]: the new [i], or the cursor. *)
Fixpoint next_bckt (rng : TfwPcntRanges) (r : nat) (bs : list nat) (i : nat)
    : outcome (nat + TfwApmRBEState) :=
  match bs with
  | [] => Ok (inl i)
  | b :: bs =>
      match bucket rng r b with
      | None => Bug
      | Some x =>
          if x =? 0 then next_bckt rng r bs (S i)
          else
            match ctl rng !! r with
            | None => Bug
            | Some pc =>
                let rtt := u32 (bucket_val pc (Z.of_nat b)) in
                Ok (inr (__tfw_apm_state_set rtt (Z.of_nat i) (Z.of_nat r) (Z.of_nat b)))
            end
      end
  end.

Fixpoint next_rng (rng : TfwPcntRanges) (rs : list nat) (i : nat) : outcome TfwApmRBEState :=
  match rs with
  | [] => Ok (__tfw_apm_state_set USHRT_MAX 64 4 16)
  | r :: rs =>
      let b := (i mod TFW_STATS_BCKTS)%nat in
      match next_bckt rng r (seq b (TFW_STATS_BCKTS - b)) i with
      | Bug => Bug
      | Ok (inr st) => Ok st
      | Ok (inl i) => next_rng rng rs i
      end
  end.

Definition __tfw_apm_state_next (rng : TfwPcntRanges) (st : TfwApmRBEState)
    : outcome TfwApmRBEState :=
  let i := Z.to_nat (st_i st) in
  let r := (i / TFW_STATS_BCKTS)%nat in
  next_rng rng (seq r (TFW_STATS_RANGES - r)) i.

Definition tfw_apm_state_next (rng : TfwPcntRanges) (st : TfwApmRBEState)
    : outcome TfwApmRBEState :=
  if 64 <=? st_i st then Bug
  else __tfw_apm_state_next rng (MkSt (st_v st) (u8 (st_i st + 1)) (st_r st) (st_b st)).

(** ** Percentiles *)

Definition TFW_APM_MAX_TMWSCALE : nat := 50.

Definition IDX_MIN : nat := 0.
Definition IDX_MAX : nat := 1.
Definition IDX_AVG : nat := 2.
Definition IDX_ITH : nat := 3.
Definition T_PSZ : nat := 8.

Definition tfw_pstats_ith : list Z := [0; 0; 0; 50; 75; 90; 95; 99].

Fixpoint init_states (rngs : list TfwPcntRanges) : outcome (list TfwApmRBEState) :=
  match rngs with
  | [] => Ok []
  | rng :: rngs =>
      match ctl rng !! 0%nat with
      | None => Bug
      | Some pc =>
          match __tfw_apm_state_next rng (__tfw_apm_state_set (pc_begin pc) 0 0 0) with
          | Bug => Bug
          | Ok st =>
              match init_states rngs with Ok sts => Ok (st :: sts) | Bug => Bug end
          end
      end
  end.

(** The number of hits to collect for each percentile. *)
Definition pval (total_cnt : Z) (i : nat) : Z :=
  u64 (total_cnt * default 0 (tfw_pstats_ith !! i)) / 100.

Fixpoint zero_pvals (total_cnt : Z) (idxs : list nat) (p : nat) (val : list Z) : nat * list Z :=
  match idxs with
  | [] => (p, val)
  | i :: idxs =>
      if pval total_cnt i =? 0 then zero_pvals total_cnt idxs (S p) (<[p := 0]> val)
      else zero_pvals total_cnt idxs p val
  end.

Definition v_min (sts : list TfwApmRBEState) : Z :=
  foldl (fun m st => if st_v st <? m then st_v st else m) USHRT_MAX sts.

(** One round over the entries: the hits at [vm] are counted and their cursors
    move on. *)
Fixpoint collect_hits (rngs : list TfwPcntRanges) (sts : list TfwApmRBEState) (vm cnt : Z)
    : outcome (list TfwApmRBEState * Z) :=
  match rngs, sts with
  | rng :: rngs, st :: sts =>
      if st_v st =? vm then
        match bucket rng (Z.to_nat (st_r st)) (Z.to_nat (st_b st)) with
        | None => Bug
        | Some x =>
            match tfw_apm_state_next rng st with
            | Bug => Bug
            | Ok st' =>
                match collect_hits rngs sts vm (u64 (cnt + x)) with
                | Ok (sts', cnt') => Ok (st' :: sts', cnt')
                | Bug => Bug
                end
            end
        end
      else
        match collect_hits rngs sts vm cnt with
        | Ok (sts', cnt') => Ok (st :: sts', cnt')
        | Bug => Bug
        end
  | _, _ => Ok ([], cnt)
  end.

(** [for ( ; p < T_PSZ && pval[p] <= cnt; ++p) pstats->val[p] = v_min;] *)
Fixpoint fill_vals (fuel : nat) (total_cnt cnt vm : Z) (p : nat) (val : list Z) : nat * list Z :=
  match fuel with
  | O => (p, val)
  | S fuel =>
      if (p <? T_PSZ)%nat && (pval total_cnt p <=? cnt)
      then fill_vals fuel total_cnt cnt vm (S p) (<[p := vm]> val)
      else (p, val)
  end.

Fixpoint merge_loop (fuel : nat) (rngs : list TfwPcntRanges) (sts : list TfwApmRBEState)
    (total_cnt cnt : Z) (p : nat) (val : list Z) : outcome (list Z) :=
  if (p <? T_PSZ)%nat then
    match fuel with
    | O => Bug
    | S fuel =>
        let vm := v_min sts in
        if vm =? USHRT_MAX then Bug
        else
          match collect_hits rngs sts vm cnt with
          | Bug => Bug
          | Ok (sts, cnt) =>
              let '(p, val) := fill_vals T_PSZ total_cnt cnt vm p val in
              merge_loop fuel rngs sts total_cnt cnt p val
          end
    end
  else Ok val.

(** Minimum, maximum, count and sum over the entries. *)
Definition minmax_step (acc : Z * Z * Z * Z) (rng : TfwPcntRanges) : Z * Z * Z * Z :=
  let '(mn, mx, c, v) := acc in
  (if min_val rng <? mn then u32 (min_val rng) else mn,
   if mx <? max_val rng then u32 (max_val rng) else mx,
   u64 (c + tot_cnt rng), u64 (v + tot_val rng)).

(** [rngs] are the ranges of the entries of the ring buffer.  Each round of the
    [while] moves a cursor: 64 rounds per entry are enough. *)
Definition tfw_apm_prnctl_calc (rngs : list TfwPcntRanges) (total_cnt : Z) (val : list Z)
    : outcome (list Z) :=
  if (TFW_APM_MAX_TMWSCALE <? length rngs)%nat then Bug
  else
    match init_states rngs with
    | Bug => Bug
    | Ok sts =>
        let '(p, val) := zero_pvals total_cnt (seq IDX_ITH (T_PSZ - IDX_ITH)) IDX_ITH val in
        match merge_loop (64 * length rngs + 1) rngs sts total_cnt 0 p val with
        | Bug => Bug
        | Ok val =>
            let '(mn, mx, c, v) := foldl minmax_step (UINT_MAX, 0, 0, 0) rngs in
            let val := <[IDX_MIN := mn]> (<[IDX_MAX := mx]> val) in
            Ok (if c =? 0 then val else <[IDX_AVG := u32 (v / c)]> val)
        end
    end.

(** ** The hits of an entry, in the order of their times *)

Definition hits (rng : TfwPcntRanges) (k : nat) : Z :=
  default 0 (bucket rng (k / TFW_STATS_BCKTS) (k mod TFW_STATS_BCKTS)).

Definition time (rng : TfwPcntRanges) (k : nat) : Z :=
  match ctl rng !! (k / TFW_STATS_BCKTS)%nat with
  | Some pc => bucket_val pc (Z.of_nat (k mod TFW_STATS_BCKTS))
  | None => 0
  end.

(** Hits in the first [k] buckets, and hits at times up to [v]. *)
Definition pre (rng : TfwPcntRanges) (k : nat) : Z := zsum (hits rng <$> seq 0 k).

Definition cum (rng : TfwPcntRanges) (v : Z) : Z :=
  zsum ((fun k => if time rng k <=? v then hits rng k else 0) <$> seq 0 64).

(** Hits of all entries at times up to [v]; [v] is the percentile for [need]
    hits when it is the first time that covers them. *)
Definition cum_all (rngs : list TfwPcntRanges) (v : Z) : Z := zsum ((.$ v) ∘ cum <$> rngs).

Definition percentile (rngs : list TfwPcntRanges) (need v : Z) : Prop :=
  need <= cum_all rngs v /\ forall v', v' < v -> cum_all rngs v' < need.

Section entry.
Context (B n : Z) (rng : TfwPcntRanges) (HB : B < USHRT_MAX) (Hrng : rng_mid B n rng).

Lemma bucket_some r b : (r < 4)%nat -> (b < 16)%nat -> exists x, bucket rng r b = Some x /\ 0 <= x.
Proof using Hrng.
  destruct Hrng as (_ & Hrows & _). intros Hr Hb.
  destruct (rows_ok_lookup _ _ Hrows Hr) as (l & Hl & Hlok).
  destruct (row_ok_lookup _ _ Hlok Hb) as (x & Hx & Hx0).
  exists x. unfold bucket. rewrite Hl. simpl. split; [done | lia].
Qed.

Lemma hits_split r b : (b < 16)%nat -> hits rng (16 * r + b) = default 0 (bucket rng r b).
Proof using.
  intros Hb. unfold hits, TFW_STATS_BCKTS.
  replace ((16 * r + b) / 16)%nat with r; [replace ((16 * r + b) mod 16)%nat with b; [done |] |];
    rewrite (Nat.mul_comm 16 r).
  - rewrite Nat.add_comm, Nat.Div0.mod_add. symmetry. by apply Nat.mod_small.
  - rewrite Nat.div_add_l by lia. rewrite (Nat.div_small b 16) by done. lia.
Qed.

Lemma hits_nonneg k : 0 <= hits rng k.
Proof using Hrng.
  unfold hits. destruct (decide (k < 64)%nat) as [Hk |].
  - destruct (bucket_some (k / 16) (k mod 16)) as (x & Hx & H0);
      [apply Nat.Div0.div_lt_upper_bound; lia | apply Nat.mod_upper_bound; lia |].
    unfold TFW_STATS_BCKTS. by rewrite Hx.
  - destruct Hrng as (_ & [Hl _] & _). unfold bucket.
    rewrite (lookup_ge_None_2 (cnt rng)); [done |]. rewrite Hl.
    apply Nat.div_le_lower_bound; unfold TFW_STATS_BCKTS, TFW_STATS_RANGES; lia.
Qed.

Lemma pre_total : pre rng 64 = n.
Proof using Hrng.
  destruct Hrng as (_ & [Hl Hf] & <-). unfold pre, hits, bucket.
  destruct (cnt rng) as [|l0 [|l1 [|l2 [|l3 [|]]]]]; try done.
  rewrite !Forall_cons in Hf. destruct Hf as (H0 & H1 & H2 & H3 & _).
  apply row_ok_inv in H0, H1, H2, H3. destruct_and?.
  repeat match goal with H : exists _, _ |- _ => destruct H end. subst.
  cbn -[Z.add]. lia.
Qed.

Lemma pre_S k : pre rng (S k) = pre rng k + hits rng k.
Proof using.
  unfold pre. rewrite seq_S, fmap_app, zsum_app. simpl. lia.
Qed.

Lemma pre_mono j k : (j <= k)%nat -> pre rng j <= pre rng k.
Proof using Hrng.
  induction 1 as [|k _ IH]; [done |]. rewrite pre_S. pose proof (hits_nonneg k). lia.
Qed.

Lemma ctl_some r : (r < 4)%nat -> exists pc, ctl rng !! r = Some pc /\ ctl_ok B pc.
Proof using Hrng. destruct Hrng as (Hc & _). by apply ctls_ok_lookup. Qed.

Lemma time_split r b pc :
  (b < 16)%nat -> ctl rng !! r = Some pc -> time rng (16 * r + b) = bucket_val pc (Z.of_nat b).
Proof using.
  intros Hb Hpc. unfold time, TFW_STATS_BCKTS. rewrite (Nat.mul_comm 16 r).
  rewrite Nat.div_add_l by lia. rewrite (Nat.div_small b 16) by done. rewrite Nat.add_0_r, Hpc.
  by rewrite Nat.add_comm, Nat.Div0.mod_add, Nat.mod_small.
Qed.

(** Every index below 64 is a bucket of a range. *)
Lemma idx_split k : (k < 64)%nat -> exists r b, k = (16 * r + b)%nat /\ (r < 4)%nat /\ (b < 16)%nat.
Proof using.
  intros Hk. exists (k / 16)%nat, (k mod 16)%nat.
  split; [apply Nat.div_mod_eq |].
  split; [apply Nat.Div0.div_lt_upper_bound; lia | apply Nat.mod_upper_bound; lia].
Qed.

Lemma time_bounds r b pc :
  (b < 16)%nat -> ctl rng !! r = Some pc -> ctl_ok B pc ->
  pc_begin pc <= time rng (16 * r + b) <= pc_end pc.
Proof using.
  intros Hb Hpc Hok. rewrite (time_split r b pc), (bucket_val_eq B) by done.
  destruct Hok as (Ho & Hbg & He & HeB). pose proof (pow2_pos _ Ho). nia.
Qed.

Lemma range_order r r' pc pc' :
  (r < r')%nat -> (r' < 4)%nat -> ctl rng !! r = Some pc -> ctl rng !! r' = Some pc' ->
  pc_end pc < pc_begin pc'.
Proof using Hrng.
  intros Hlt H4 Hpc. revert pc' H4. induction Hlt as [|r' Hlt IH]; intros pc' H4 Hpc'.
  - destruct Hrng as ((_ & _ & Ha & _) & _). by eapply Ha.
  - destruct (ctl_some r') as (q & Hq & Ho & Hb & He & HeB); [lia |].
    specialize (IH q ltac:(lia) Hq). pose proof (pow2_pos _ Ho).
    destruct Hrng as ((_ & _ & Ha & _) & _). pose proof (Ha _ _ _ Hq Hpc'). lia.
Qed.

Lemma time_lt j k : (j < k)%nat -> (k < 64)%nat -> time rng j < time rng k.
Proof using Hrng.
  intros Hjk Hk. destruct (idx_split j) as (r & b & -> & Hr & Hb); [lia |].
  destruct (idx_split k) as (r' & b' & -> & Hr' & Hb'); [lia |].
  destruct (ctl_some r Hr) as (pc & Hpc & Hok). destruct (ctl_some r' Hr') as (pc' & Hpc' & Hok').
  destruct (decide (r = r')) as [<- |].
  - simplify_eq. rewrite !(time_split r _ pc), !(bucket_val_eq B) by done.
    pose proof (pow2_pos _ (proj1 Hok)). nia.
  - pose proof (time_bounds r b pc Hb Hpc Hok). pose proof (time_bounds r' b' pc' Hb' Hpc' Hok').
    pose proof (range_order r r' pc pc' ltac:(lia) Hr' Hpc Hpc'). lia.
Qed.

Lemma time_range k : (k < 64)%nat -> 1 <= time rng k <= B.
Proof using Hrng.
  intros Hk. destruct (idx_split k) as (r & b & -> & Hr & Hb); [lia |].
  destruct (ctl_some r Hr) as (pc & Hpc & Hok). pose proof (time_bounds r b pc Hb Hpc Hok).
  destruct Hok as (_ & ? & _ & ?). lia.
Qed.

(** Times up to [v] are a prefix of the buckets. *)
Lemma cum_pre k v :
  (k <= 64)%nat ->
  (forall j, (j < k)%nat -> hits rng j <> 0 -> time rng j <= v) ->
  (forall j, (k <= j < 64)%nat -> hits rng j <> 0 -> v < time rng j) ->
  cum rng v = pre rng k.
Proof using Hrng.
  intros Hk Hlo Hhi. unfold cum, pre.
  replace 64%nat with (k + (64 - k))%nat by lia. rewrite seq_app, fmap_app, zsum_app. simpl.
  assert (forall a m (f g : nat -> Z), (forall j, (a <= j < a + m)%nat -> f j = g j) ->
            zsum (f <$> seq a m) = zsum (g <$> seq a m)) as Hext.
  { intros a m f g. revert a. induction m as [|m IH]; intros a Hfg; [done |]. simpl.
    rewrite Hfg by lia. rewrite IH; [done |]. intros. apply Hfg. lia. }
  assert (zsum ((fun j => if time rng j <=? v then hits rng j else 0) <$> seq k (64 - k)) = 0) as ->.
  { rewrite (Hext _ _ _ (fun _ => 0)).
    - generalize (64 - k)%nat. intros m. generalize k. induction m; intros; simpl; [done |].
      by rewrite IHm.
    - intros j Hj. destruct (Z.leb_spec (time rng j) v); [| done].
      destruct (Z.eq_dec (hits rng j) 0); [done |]. specialize (Hhi j ltac:(lia) ltac:(done)). lia. }
  rewrite Z.add_0_r. apply Hext. intros j Hj.
  destruct (Z.leb_spec (time rng j) v); [done |].
  destruct (Z.eq_dec (hits rng j) 0) as [-> |]; [done |]. specialize (Hlo j ltac:(lia) ltac:(done)). lia.
Qed.

(** ** Cursors *)

(** The cursor stands at bucket [k], which has hits, or behind the last one. *)
Definition cur_ok (k : nat) (st : TfwApmRBEState) : Prop :=
  (k <= 64)%nat /\ st_i st = Z.of_nat k
  /\ ((k < 64)%nat -> hits rng k <> 0 /\ st_v st = time rng k
      /\ bucket rng (Z.to_nat (st_r st)) (Z.to_nat (st_b st)) = Some (hits rng k))
  /\ (k = 64%nat -> st_v st = USHRT_MAX).

Lemma next_bckt_ok r : (r < 4)%nat -> forall m b,
  (b + m = 16)%nat ->
  (exists k st, next_bckt rng r (seq b m) (16 * r + b) = Ok (inr st) /\ cur_ok k st
     /\ (16 * r + b <= k < 16 * r + 16)%nat
     /\ forall j, (16 * r + b <= j < k)%nat -> hits rng j = 0)
  \/ (next_bckt rng r (seq b m) (16 * r + b) = Ok (inl (16 * r + 16)%nat)
      /\ forall j, (16 * r + b <= j < 16 * r + 16)%nat -> hits rng j = 0).
Proof using HB Hrng.
  intros Hr. induction m as [|m IH]; intros b Hbm.
  - right. simpl. split; [do 2 f_equal; lia | lia].
  - destruct (bucket_some r b Hr ltac:(lia)) as (x & Hx & Hx0).
    pose proof (hits_split r b ltac:(lia)) as Hh. rewrite Hx in Hh. cbn [default from_option id] in Hh.
    cbn [seq next_bckt]. rewrite Hx. destruct (Z.eqb_spec x 0) as [-> | Hn].
    + replace (S (16 * r + b))%nat with (16 * r + S b)%nat by lia.
      destruct (IH (S b) ltac:(lia)) as [(k & st & He & Hc & Hk & Hz) | [He Hz]].
      * left. exists k, st. split; [done |]. split; [done |]. split; [lia |].
        intros j Hj. destruct (decide (j = 16 * r + b)%nat) as [-> |]; [done |]. apply Hz. lia.
      * right. split; [done |]. intros j Hj.
        destruct (decide (j = 16 * r + b)%nat) as [-> |]; [done |]. apply Hz. lia.
    + left. destruct (ctl_some r Hr) as (pc & Hpc & Hok). rewrite Hpc.
      eexists (16 * r + b)%nat, _. split; [reflexivity |].
      pose proof (time_split r b pc ltac:(lia) Hpc) as Ht.
      pose proof (time_range (16 * r + b) ltac:(lia)) as Htr. unfold USHRT_MAX in HB.
      split; [| split; lia].
      split; [lia |]. unfold __tfw_apm_state_set. cbn [st_i st_v st_r st_b].
      split; [unfold u8; rewrite Z.mod_small; lia |]. split; [intros _ | lia].
      split; [rewrite Hh; done |]. split.
      * rewrite <- Ht, (u32_small (time _ _)) by (unfold is_u32; lia).
        unfold u16. rewrite Z.mod_small; lia.
      * rewrite !Z.mod_small by lia. by rewrite !Nat2Z.id, Hx, Hh.
Qed.

Lemma next_rng_ok : forall m r b,
  (r + m = 4)%nat -> (b < 16)%nat -> (m = 0%nat -> b = 0%nat) ->
  exists k st, next_rng rng (seq r m) (16 * r + b) = Ok st /\ cur_ok k st
    /\ (16 * r + b <= k)%nat
    /\ forall j, (16 * r + b <= j < k)%nat -> hits rng j = 0.
Proof using HB Hrng.
  induction m as [|m IH]; intros r b Hrm Hb Hb0.
  - exists 64%nat, (MkSt USHRT_MAX 64 4 0). simpl. split; [reflexivity |].
    split; [split; [lia | split; [done | split; [lia | done]]] |]. split; lia.
  - cbn [seq next_rng]. unfold TFW_STATS_BCKTS.
    replace ((16 * r + b) mod 16)%nat with b; cycle 1.
    { rewrite Nat.add_comm, (Nat.mul_comm 16 r), Nat.Div0.mod_add. by rewrite Nat.mod_small. }
    destruct (next_bckt_ok r ltac:(lia) (16 - b) b ltac:(lia))
      as [(k & st & -> & Hc & Hk & Hz) | [-> Hz]].
    + exists k, st. split; [done |]. split; [done |]. split; [lia |]. done.
    + replace (16 * r + 16)%nat with (16 * S r + 0)%nat by lia.
      destruct (IH (S r) 0%nat ltac:(lia) ltac:(lia) ltac:(done)) as (k & st & -> & Hc & Hk & Hz').
      exists k, st. split; [done |]. split; [done |]. split; [lia |].
      intros j Hj. destruct (decide (j < 16 * r + 16)%nat); [apply Hz; lia | apply Hz'; lia].
Qed.

Lemma state_next_ok i st :
  (i <= 64)%nat -> st_i st = Z.of_nat i ->
  exists k st', __tfw_apm_state_next rng st = Ok st' /\ cur_ok k st' /\ (i <= k)%nat
    /\ forall j, (i <= j < k)%nat -> hits rng j = 0.
Proof using HB Hrng.
  intros Hi Hst. unfold __tfw_apm_state_next. rewrite Hst, Nat2Z.id.
  unfold TFW_STATS_BCKTS, TFW_STATS_RANGES.
  assert (Hd : i = (16 * (i / 16) + i mod 16)%nat) by apply Nat.div_mod_eq.
  pose proof (Nat.mod_upper_bound i 16 ltac:(lia)).
  assert (i / 16 <= 4)%nat by (apply Nat.Div0.div_le_upper_bound; lia).
  destruct (next_rng_ok (4 - i / 16) (i / 16) (i mod 16) ltac:(lia) ltac:(lia) ltac:(lia))
    as (k & st' & He & Hc & Hk & Hz).
  rewrite <- Hd in He, Hk, Hz. by exists k, st'.
Qed.

Lemma tfw_state_next_ok k st :
  (k < 64)%nat -> cur_ok k st ->
  exists k' st', tfw_apm_state_next rng st = Ok st' /\ cur_ok k' st' /\ (k < k')%nat
    /\ pre rng k' = pre rng k + hits rng k
    /\ forall j, (k < j < k')%nat -> hits rng j = 0.
Proof using HB Hrng.
  intros Hk (_ & Hi & _). unfold tfw_apm_state_next.
  destruct (Z.leb_spec 64 (st_i st)); [lia |].
  destruct (state_next_ok (S k) (MkSt (st_v st) (u8 (st_i st + 1)) (st_r st) (st_b st)))
    as (k' & st' & He & Hc & Hlt & Hz); [lia | |].
  { cbn [st_i]. rewrite Hi. unfold u8. rewrite Z.mod_small; lia. }
  exists k', st'. split; [done |]. split; [done |]. split; [lia |]. split.
  - rewrite <- pre_S. clear He Hc. induction Hlt as [|k' Hlt IH]; [done |].
    rewrite pre_S, Hz by lia. rewrite IH; [lia |]. intros. apply Hz. lia.
  - intros. apply Hz. lia.
Qed.

Lemma cum_le_pre k v :
  (k <= 64)%nat -> (forall j, (k <= j < 64)%nat -> hits rng j <> 0 -> v < time rng j) ->
  cum rng v <= pre rng k.
Proof using Hrng.
  intros Hk Hhi. unfold cum, pre.
  replace 64%nat with (k + (64 - k))%nat at 1 by lia. rewrite seq_app, fmap_app, zsum_app.
  assert (Hz : zsum ((fun j => if time rng j <=? v then hits rng j else 0) <$> seq (0 + k) (64 - k)) = 0).
  { assert (Forall (eq 0) ((fun j => if time rng j <=? v then hits rng j else 0) <$> seq (0 + k) (64 - k))) as Hf.
    { apply Forall_fmap, Forall_forall. intros j Hj. apply elem_of_seq in Hj. simpl.
      destruct (Z.leb_spec (time rng j) v); [| done].
      destruct (Z.eq_dec (hits rng j) 0); [done |]. specialize (Hhi j ltac:(lia) ltac:(done)). lia. }
    induction Hf; simpl; lia. }
  rewrite Hz. clear Hz Hhi Hk. induction (seq 0 k) as [|j l IH]; [done |].
  rewrite !fmap_cons, !zsum_cons. pose proof (hits_nonneg j). destruct (Z.leb_spec (time rng j) v); lia.
Qed.

(** One entry in a round of the merge at time [vm]: its cursor moves from [k] to [k']. *)
Definition adv (vm : Z) (k k' : nat) : Prop :=
  (k <= k' <= 64)%nat /\ (forall j, (k <= j < k')%nat -> hits rng j <> 0 -> time rng j <= vm)
  /\ (forall j, (k <= j < 64)%nat -> hits rng j <> 0 -> vm <= time rng j)
  /\ (forall j, (k' <= j < 64)%nat -> hits rng j <> 0 -> vm < time rng j).

Lemma adv_here vm k k' st :
  (k < 64)%nat -> cur_ok k st -> st_v st = vm -> (k < k' <= 64)%nat ->
  (forall j, (k < j < k')%nat -> hits rng j = 0) -> adv vm k k'.
Proof using Hrng.
  intros Hk (_ & _ & Hc & _) <- Hk' Hz. destruct (Hc Hk) as (Hn & -> & _).
  split; [lia |]. split; [| split].
  - intros j Hj Hjn. destruct (decide (j = k)) as [-> |]; [lia |]. destruct Hjn. apply Hz. lia.
  - intros j Hj _. destruct (decide (j = k)) as [-> |]; [lia |].
    apply Z.lt_le_incl, time_lt; lia.
  - intros j Hj _. apply time_lt; lia.
Qed.

Lemma adv_later vm k st :
  cur_ok k st -> vm < st_v st -> adv vm k k.
Proof using Hrng.
  intros (Hk & _ & Hc & _) Hv.
  assert (forall j, (k <= j < 64)%nat -> hits rng j <> 0 -> vm < time rng j) as Hlt.
  { intros j Hj _. destruct (Hc ltac:(lia)) as (_ & Hst & _).
    destruct (decide (j = k)) as [-> |]; [lia |]. pose proof (time_lt k j ltac:(lia) ltac:(lia)). lia. }
  split; [lia |]. split; [lia |]. split; [| done].
  intros j Hj Hn. specialize (Hlt j Hj Hn). lia.
Qed.
End entry.

(** ** The merge *)

Section merge.
Context (B : Z) (HB : B < USHRT_MAX).

(** An entry whose ranges are in order. *)
Definition entry_ok (rng : TfwPcntRanges) : Prop := rng_mid B (tot_cnt rng) rng.

Definition all_hits (rngs : list TfwPcntRanges) : Z := zsum (tot_cnt <$> rngs).
Definition pre_all (rngs : list TfwPcntRanges) (ks : list nat) : Z := zsum (zip_with pre rngs ks).

(** Rounds left: buckets behind the cursors. *)
Definition left_over (ks : list nat) : nat := sum_list_with (fun k => 64 - k)%nat ks.

Abbreviation cursors rngs ks sts := (Forall3 cur_ok rngs ks sts).

Lemma init_states_ok rngs :
  Forall entry_ok rngs ->
  exists ks sts, init_states rngs = Ok sts /\ cursors rngs ks sts
    /\ Forall2 (fun rng k => forall j, (j < k)%nat -> hits rng j = 0) rngs ks.
Proof using HB.
  induction 1 as [|rng rngs Hr _ (ks & sts & He & Hc & Hz)]; simpl.
  - exists [], []. split; [done |]. split; constructor.
  - destruct (ctl_some B _ rng Hr 0 ltac:(lia)) as (pc & Hpc & _). rewrite Hpc.
    destruct (state_next_ok B _ rng HB Hr 0 (__tfw_apm_state_set (pc_begin pc) 0 0 0))
      as (k & st & Hst & Hcur & _ & Hz0); [lia | done |].
    rewrite Hst, He. exists (k :: ks), (st :: sts). split; [done |].
    split; [by constructor |]. constructor; [| done]. intros. apply Hz0. lia.
Qed.

Lemma pre_zero rng k : (forall j, (j < k)%nat -> hits rng j = 0) -> pre rng k = 0.
Proof using.
  induction k as [|k IH]; intros Hz; [done |]. rewrite pre_S, Hz, IH by (intros; try apply Hz; lia). lia.
Qed.

Lemma pre_all_zero rngs ks :
  Forall2 (fun rng k => forall j, (j < k)%nat -> hits rng j = 0) rngs ks -> pre_all rngs ks = 0.
Proof using.
  unfold pre_all. induction 1 as [|rng k rngs ks Hz _ IH]; simpl; [done |].
  change (pre rng k + zsum (zip_with pre rngs ks) = 0). rewrite IH, pre_zero by done. lia.
Qed.

Lemma pre_all_cons rng rngs k ks : pre_all (rng :: rngs) (k :: ks) = pre rng k + pre_all rngs ks.
Proof using. done. Qed.

Lemma all_hits_cons rng rngs : all_hits (rng :: rngs) = tot_cnt rng + all_hits rngs.
Proof using. done. Qed.

Lemma v_min_spec sts :
  v_min sts <= USHRT_MAX /\ Forall (fun st => v_min sts <= st_v st) sts
  /\ (v_min sts = USHRT_MAX \/ exists st, st ∈ sts /\ st_v st = v_min sts).
Proof using.
  unfold v_min. generalize USHRT_MAX. induction sts as [|st sts IH]; intros m; simpl.
  - split; [done |]. split; [constructor |]. by left.
  - specialize (IH (if st_v st <? m then st_v st else m)).
    set (r := foldl _ _ sts) in *. destruct IH as (Hm & Hf & Hex).
    assert (r <= m /\ r <= st_v st) as [? ?].
    { destruct (Z.ltb_spec (st_v st) m); lia. }
    split; [done |]. split; [by constructor |].
    destruct Hex as [Hr | (st' & Hin & Hv)].
    + destruct (Z.ltb_spec (st_v st) m); [| by left].
      right. exists st. split; [apply list_elem_of_here | done].
    + right. exists st'. split; [by apply list_elem_of_further | done].
Qed.

(** No time left means that every hit has been counted. *)
Lemma exhausted_all rngs ks sts :
  Forall entry_ok rngs -> cursors rngs ks sts -> v_min sts = USHRT_MAX ->
  pre_all rngs ks = all_hits rngs.
Proof using HB.
  intros Hr Hc Hv. destruct (v_min_spec sts) as (_ & Hf & _). rewrite Hv in Hf. clear Hv.
  induction Hc as [|rng k st rngs ks sts Hcur Hc IH]; [done |].
  apply Forall_cons in Hr as [Hr Hrs]. apply Forall_cons in Hf as [Hst Hf].
  rewrite pre_all_cons, all_hits_cons, IH by done. f_equal.
  destruct Hcur as (Hk & _ & Hlt & _). destruct (decide (k = 64)%nat) as [-> |].
  - by apply (pre_total B).
  - destruct (Hlt ltac:(lia)) as (_ & Hsv & _).
    pose proof (time_range B _ rng Hr k ltac:(lia)). lia.
Qed.

(** A round counts the hits at [vm] and leaves every cursor behind [vm]. *)
Lemma collect_hits_ok rngs ks sts vm cnt :
  Forall entry_ok rngs -> cursors rngs ks sts -> Forall (fun st => vm <= st_v st) sts ->
  vm < USHRT_MAX -> 0 <= cnt -> cnt + (all_hits rngs - pre_all rngs ks) < 2 ^ 64 ->
  exists ks' sts', collect_hits rngs sts vm cnt = Ok (sts', cnt + (pre_all rngs ks' - pre_all rngs ks))
    /\ cursors rngs ks' sts' /\ Forall3 (fun rng k k' => adv rng vm k k') rngs ks ks'
    /\ (left_over ks' <= left_over ks)%nat
    /\ ((exists st, st ∈ sts /\ st_v st = vm) -> (left_over ks' < left_over ks)%nat).
Proof using HB.
  intros Hr Hc Hf Hvm. revert cnt.
  induction Hc as [|rng k st rngs ks sts Hcur Hc IH]; intros cnt Hc0 Hlt.
  { exists [], []. simpl. split; [do 2 f_equal; unfold pre_all; simpl; lia |].
    repeat split; try constructor. intros (st & Hin & _). by apply not_elem_of_nil in Hin. }
  apply Forall_cons in Hr as [Hr Hrs]. apply Forall_cons in Hf as [Hst Hf].
  rewrite pre_all_cons, all_hits_cons in Hlt.
  assert (Hmono : forall j, (j <= 64)%nat -> pre rng j <= tot_cnt rng).
  { intros j Hj. rewrite <- (pre_total B _ rng Hr). by eapply (pre_mono B). }
  assert (Hpre : pre_all rngs ks <= all_hits rngs).
  { clear -Hc Hrs. induction Hc as [|rng k st rngs ks sts Hcur Hc IH]; [done |].
    apply Forall_cons in Hrs as [Hr Hrs]. rewrite pre_all_cons, all_hits_cons.
    specialize (IH Hrs). destruct Hcur as (Hk & _).
    pose proof (pre_mono B _ rng Hr k 64 Hk). rewrite (pre_total B _ rng Hr) in *. lia. }
  pose proof (Hmono k (proj1 Hcur)). simpl.
  destruct (Z.eqb_spec (st_v st) vm) as [Heq | Hne].
  - assert (Hk : (k < 64)%nat).
    { destruct Hcur as (Hk & _ & _ & H64). destruct (decide (k = 64)%nat) as [He |]; [| lia].
      specialize (H64 He). lia. }
    destruct (tfw_state_next_ok B _ rng HB Hr k st Hk Hcur) as (k' & st' & Hn & Hcur' & Hkk & Hp & Hz).
    pose proof Hcur as (_ & _ & Hc' & _). destruct (Hc' Hk) as (Hnz & _ & Hb). rewrite Hb, Hn.
    pose proof (Hmono k' (proj1 Hcur')). pose proof (hits_nonneg B _ rng Hr k).
    rewrite u64_small by lia.
    destruct (IH Hrs Hf (cnt + hits rng k)) as (ks' & sts' & -> & Hc'' & Ha & Hle & _); [lia | lia |].
    exists (k' :: ks'), (st' :: sts'). rewrite !pre_all_cons, Hp.
    split; [do 2 f_equal; lia |]. split; [by constructor |].
    destruct Hcur' as (Hk' & _).
    split; [constructor; [| done]; eapply adv_here; eauto; lia |].
    simpl. split; [| intros _]; lia.
  - destruct (IH Hrs Hf cnt) as (ks' & sts' & -> & Hc'' & Ha & Hle & Hex); [lia | lia |].
    exists (k :: ks'), (st :: sts'). rewrite !pre_all_cons.
    split; [do 2 f_equal; lia |]. split; [by constructor |].
    split; [constructor; [| done]; eapply adv_later; eauto; lia |].
    simpl. split; [lia |]. intros (st0 & Hin & Hv0).
    apply elem_of_cons in Hin as [-> | Hin]; [done |].
    specialize (Hex ltac:(eauto)). lia.
Qed.

(** Everything up to [v] and nothing above has been counted. *)
Definition cut (v : Z) (rng : TfwPcntRanges) (k : nat) : Prop :=
  (k <= 64)%nat
  /\ (forall j, (j < k)%nat -> hits rng j <> 0 -> time rng j <= v)
  /\ (forall j, (k <= j < 64)%nat -> hits rng j <> 0 -> v < time rng j).

Lemma cum_all_cons rng rngs v : cum_all (rng :: rngs) v = cum rng v + cum_all rngs v.
Proof using. done. Qed.

Lemma cum_all_pre v rngs ks :
  Forall entry_ok rngs -> Forall2 (cut v) rngs ks -> cum_all rngs v = pre_all rngs ks.
Proof using.
  intros Hr Hc. induction Hc as [|rng k rngs ks (Hk & Hlo & Hhi) _ IH]; [done |].
  apply Forall_cons in Hr as [Hr Hrs]. rewrite cum_all_cons, pre_all_cons, IH by done.
  f_equal. by eapply (cum_pre B).
Qed.

(** Before the round at [vm] less than the needed hits had been seen. *)
Lemma cum_all_before vm rngs ks ks' v :
  Forall entry_ok rngs -> Forall3 (fun rng k k' => adv rng vm k k') rngs ks ks' -> v < vm ->
  cum_all rngs v <= pre_all rngs ks.
Proof using.
  intros Hr Ha Hv. induction Ha as [|rng k k' rngs ks ks' (Hk & _ & Hge & _) _ IH]; [done |].
  apply Forall_cons in Hr as [Hr Hrs]. rewrite cum_all_cons, pre_all_cons. specialize (IH Hrs).
  enough (cum rng v <= pre rng k) by lia. eapply (cum_le_pre B); [done | lia |].
  intros j Hj Hn. specialize (Hge j Hj Hn). lia.
Qed.

Lemma cut_adv v vm rngs ks ks' :
  v <= vm -> Forall2 (cut v) rngs ks -> Forall3 (fun rng k k' => adv rng vm k k') rngs ks ks' ->
  Forall2 (cut vm) rngs ks'.
Proof using.
  intros Hv Hc Ha. induction Ha as [|rng k k' rngs ks ks' (Hk & Hlo & _ & Hhi) Ha IH]; [constructor |].
  apply Forall2_cons in Hc as [(_ & Hc & _) Hcs]. constructor; [| by apply IH].
  split; [lia |]. split; [| done]. intros j Hj Hn.
  destruct (decide (j < k)%nat); [specialize (Hc j ltac:(done) Hn); lia | apply Hlo; [lia | done]].
Qed.

Lemma cut_lt_vmin v rngs ks sts st :
  Forall2 (cut v) rngs ks -> cursors rngs ks sts -> st ∈ sts -> st_v st < USHRT_MAX -> v < st_v st.
Proof using.
  intros Hc Hcur Hin Hst. induction Hcur as [|rng k st' rngs ks sts Hk Hcur IH].
  { by apply not_elem_of_nil in Hin. }
  apply Forall2_cons in Hc as [(_ & _ & Hhi) Hcs].
  apply elem_of_cons in Hin as [-> | Hin]; [| by apply IH].
  destruct Hk as (Hk & _ & Hlt & H64). destruct (decide (k = 64)%nat) as [He |].
  - specialize (H64 He). lia.
  - destruct (Hlt ltac:(lia)) as (Hn & -> & _). apply Hhi; [lia | done].
Qed.

Section vals.
Context (rngs : list TfwPcntRanges) (total_cnt : Z).
Hypothesis (Hrngs : Forall entry_ok rngs).
Hypothesis (Htot : 0 <= total_cnt <= all_hits rngs) (Hbig : all_hits rngs < 2 ^ 57).

Lemma pval_mono q q' : (3 <= q <= q')%nat -> (q' < 8)%nat -> pval total_cnt q <= pval total_cnt q'.
Proof using Htot Hbig.
  intros Hq Hq'.
  assert (default 0 (tfw_pstats_ith !! q) <= default 0 (tfw_pstats_ith !! q') <= 99 /\
          0 <= default 0 (tfw_pstats_ith !! q)) as [Hi Hi0].
  { do 3 (destruct q as [|q]; [lia |]). do 3 (destruct q' as [|q']; [lia |]).
    do 5 (destruct q' as [|q']; [do 5 (destruct q as [|q]; [simpl; lia |]); lia |]). lia. }
  unfold pval. rewrite !u64_small by nia. apply Z.div_le_mono; nia.
Qed.

Lemma pval_le q : pval total_cnt q <= total_cnt.
Proof using Htot Hbig.
  assert (0 <= default 0 (tfw_pstats_ith !! q) <= 99).
  { do 8 (destruct q as [|q]; [simpl; lia |]). destruct q; simpl; lia. }
  unfold pval. rewrite u64_small by nia. apply Z.div_le_upper_bound; nia.
Qed.

(** The percentiles before index [p] are final. *)
Definition vals_ok (p : nat) (val : list Z) : Prop :=
  (3 <= p <= 8)%nat /\ length val = T_PSZ
  /\ forall q, (3 <= q < p)%nat -> exists v, val !! q = Some v
       /\ (pval total_cnt q = 0 /\ v = 0
           \/ pval total_cnt q <> 0 /\ percentile rngs (pval total_cnt q) v).

Lemma vals_ok_S p val v :
  vals_ok p val -> (p < 8)%nat ->
  (pval total_cnt p = 0 /\ v = 0 \/ pval total_cnt p <> 0 /\ percentile rngs (pval total_cnt p) v) ->
  vals_ok (S p) (<[p := v]> val).
Proof using.
  intros (Hp & Hl & Hq) Hp8 Hv. split; [lia |]. split; [by rewrite length_insert |].
  intros q Hqp. destruct (decide (q = p)) as [-> |].
  - exists v. rewrite list_lookup_insert_eq by (rewrite Hl; unfold T_PSZ; lia). done.
  - rewrite list_lookup_insert_ne by done. apply Hq. lia.
Qed.

Lemma fill_vals_ok cnt vm fuel : forall p val,
  vals_ok p val -> (8 <= p + fuel)%nat ->
  (forall q, (p <= q < 8)%nat -> pval total_cnt q <= cnt ->
     pval total_cnt q <> 0 /\ percentile rngs (pval total_cnt q) vm) ->
  exists p' val', fill_vals fuel total_cnt cnt vm p val = (p', val') /\ vals_ok p' val'
    /\ (p <= p')%nat /\ forall q, (p' <= q < 8)%nat -> cnt < pval total_cnt q.
Proof using Htot Hbig.
  induction fuel as [|fuel IH]; intros p val Hv Hf Hpc; simpl.
  - exists p, val. repeat split; try done; try apply Hv. lia.
  - pose proof Hv as (Hp3 & _). destruct (Nat.ltb_spec p T_PSZ) as [Hp | Hp]; unfold T_PSZ in Hp; simpl.
    + destruct (Z.leb_spec (pval total_cnt p) cnt) as [Hle | Hlt].
      * destruct (IH (S p) (<[p := vm]> val)) as (p' & val' & -> & Hv' & Hle' & Hq).
        { apply vals_ok_S; [done | done |]. right. apply Hpc; [lia | done]. }
        { lia. }
        { intros. apply Hpc; [lia | done]. }
        exists p', val'. repeat split; try done; try apply Hv'. lia.
      * exists p, val. repeat split; try done; try apply Hv.
        intros q Hq. pose proof (pval_mono p q ltac:(lia) ltac:(lia)). lia.
    + exists p, val. repeat split; try done; try apply Hv. lia.
Qed.

Lemma merge_loop_ok fuel : forall ks sts v p val,
  cursors rngs ks sts -> Forall2 (cut v) rngs ks -> (left_over ks < fuel)%nat ->
  vals_ok p val -> 0 <= pre_all rngs ks ->
  (forall q, (p <= q < 8)%nat -> pre_all rngs ks < pval total_cnt q) ->
  exists val', merge_loop fuel rngs sts total_cnt (pre_all rngs ks) p val = Ok val'
    /\ vals_ok 8 val'.
Proof using All.
  induction fuel as [|fuel IH]; intros ks sts v p val Hc Hcut Hfuel Hv Hnn Hneed; [lia |].
  cbn [merge_loop]. pose proof Hv as (Hp3 & _).
  destruct (Nat.ltb_spec p T_PSZ) as [Hp | Hp]; unfold T_PSZ in Hp; cycle 1.
  { exists val. split; [done |]. by replace 8%nat with p by lia. }
  destruct (v_min_spec sts) as (Hmax & Hall & Hex).
  pose proof (Hneed p ltac:(lia)). pose proof (pval_le p).
  destruct (Z.eqb_spec (v_min sts) USHRT_MAX) as [He | Hne].
  { pose proof (exhausted_all rngs ks sts Hrngs Hc He). lia. }
  destruct Hex as [? | (st & Hin & Hst)]; [done |].
  pose proof (cut_lt_vmin v rngs ks sts st Hcut Hc Hin ltac:(lia)) as Hvlt.
  destruct (collect_hits_ok rngs ks sts (v_min sts) (pre_all rngs ks) Hrngs Hc Hall
              ltac:(lia) Hnn ltac:(lia)) as (ks' & sts' & -> & Hc' & Ha & _ & Hless).
  replace (pre_all rngs ks + (pre_all rngs ks' - pre_all rngs ks)) with (pre_all rngs ks') by lia.
  pose proof (cut_adv v (v_min sts) rngs ks ks' ltac:(lia) Hcut Ha) as Hcut'.
  pose proof (cum_all_pre _ _ _ Hrngs Hcut') as Hcum.
  destruct (fill_vals_ok (pre_all rngs ks') (v_min sts) T_PSZ p val Hv) as (p' & val' & -> & Hv' & Hpp & Hq).
  { unfold T_PSZ. lia. }
  { intros q Hq Hle. specialize (Hneed q Hq). split; [lia |]. split; [lia |].
    intros v' Hv'. pose proof (cum_all_before _ _ _ _ _ Hrngs Ha Hv'). lia. }
  specialize (Hless ltac:(eauto)).
  eapply IH; try done; [lia |].
  clear -Hrngs Hc'. unfold pre_all. induction Hc' as [|rng k st rngs ks sts _ Hc IH]; [done |].
  apply Forall_cons in Hrngs as [Hr Hrs].
  simpl. change (0 <= pre rng k + zsum (zip_with pre rngs ks)). specialize (IH Hrs).
  pose proof (pre_mono B _ rng Hr 0 k ltac:(lia)). change (pre rng 0) with 0 in *. lia.
Qed.

Lemma pval_nonneg q : 0 <= pval total_cnt q.
Proof using Htot Hbig.
  assert (0 <= default 0 (tfw_pstats_ith !! q) <= 99).
  { do 8 (destruct q as [|q]; [simpl; lia |]). destruct q; simpl; lia. }
  unfold pval. apply Z.div_pos; [| lia]. rewrite u64_small; nia.
Qed.

(** Percentiles that need no hit come first: [p] counts them. *)
Lemma zero_pvals_ok m : forall i p val,
  (i + m = 8)%nat -> (p <= i)%nat -> vals_ok p val ->
  (forall q, (p <= q < i)%nat -> pval total_cnt q <> 0) ->
  exists p' val', zero_pvals total_cnt (seq i m) p val = (p', val') /\ vals_ok p' val'
    /\ forall q, (p' <= q < 8)%nat -> pval total_cnt q <> 0.
Proof using Htot Hbig.
  induction m as [|m IH]; intros i p val Him Hpi Hv Hnz; simpl.
  - exists p, val. split; [done |]. split; [done |]. intros. apply Hnz. lia.
  - pose proof Hv as (Hp & _). destruct (Z.eqb_spec (pval total_cnt i) 0) as [He | Hne].
    + assert (p = i) as ->.
      { destruct (decide (p = i)); [done |]. exfalso. apply (Hnz p); [lia |].
        pose proof (pval_mono p i ltac:(lia) ltac:(lia)). pose proof (pval_nonneg p). lia. }
      apply IH; [lia | lia | | lia]. apply vals_ok_S; [done | lia | by left].
    + apply IH; [lia | lia | done |]. intros q Hq.
      destruct (decide (q = i)) as [-> |]; [done | apply Hnz; lia].
Qed.
End vals.

Lemma left_over_le rngs ks sts :
  cursors rngs ks sts -> (left_over ks <= 64 * length rngs)%nat.
Proof using. induction 1; simpl; [done |]. unfold left_over in *. simpl. lia. Qed.

(** The four running values of the last loop. *)
Lemma minmax_ok rngs : forall mn mx c v,
  Forall (fun rng => is_u32 (min_val rng) /\ is_u32 (max_val rng)) rngs ->
  foldl minmax_step (mn, mx, c, v) rngs =
  (foldl Z.min mn (min_val <$> rngs), foldl Z.max mx (max_val <$> rngs),
   foldl (fun a b => u64 (a + b)) c (tot_cnt <$> rngs),
   foldl (fun a b => u64 (a + b)) v (tot_val <$> rngs)).
Proof using.
  induction rngs as [|rng rngs IH]; intros mn mx c v Hf; simpl; [done |].
  apply Forall_cons in Hf as [[Hmn Hmx] Hf]. rewrite IH by done.
  rewrite (u32_small (min_val rng)), (u32_small (max_val rng)) by done.
  f_equal; f_equal; f_equal; f_equal.
  - destruct (Z.ltb_spec (min_val rng) mn); lia.
  - destruct (Z.ltb_spec mx (max_val rng)); lia.
Qed.

Lemma sum64_ok l : forall a,
  0 <= a -> Forall (Z.le 0) l -> a + zsum l < 2 ^ 64 ->
  foldl (fun a b => u64 (a + b)) a l = a + zsum l.
Proof using.
  induction l as [|b l IH]; intros a Ha Hf Hlt; [simpl; lia |].
  apply Forall_cons in Hf as [Hb Hf]. pose proof (zsum_nonneg _ Hf).
  rewrite zsum_cons in *. simpl. rewrite u64_small by lia. rewrite IH by (done || lia). lia.
Qed.

Lemma tot_cnt_nonneg rngs : Forall entry_ok rngs -> Forall (Z.le 0) (tot_cnt <$> rngs).
Proof using.
  intros Hf. apply Forall_fmap. eapply Forall_impl; [exact Hf |]. intros rng Hr. simpl.
  rewrite <- (pre_total B _ rng Hr). pose proof (pre_mono B _ rng Hr 0 64 ltac:(lia)).
  change (pre rng 0) with 0 in *. lia.
Qed.

Lemma prnctl_calc_ok rngs total_cnt val :
  (length rngs <= TFW_APM_MAX_TMWSCALE)%nat -> length val = T_PSZ ->
  Forall entry_ok rngs -> Forall (fun rng => is_u32 (min_val rng) /\ is_u32 (max_val rng)) rngs ->
  0 <= total_cnt <= all_hits rngs -> all_hits rngs < 2 ^ 57 ->
  exists val', tfw_apm_prnctl_calc rngs total_cnt val = Ok val' /\ vals_ok rngs total_cnt 8 val'
    /\ val' !! IDX_MIN = Some (foldl Z.min UINT_MAX (min_val <$> rngs))
    /\ val' !! IDX_MAX = Some (foldl Z.max 0 (max_val <$> rngs))
    /\ (all_hits rngs <> 0 -> Forall (fun rng => 0 <= tot_val rng) rngs ->
        zsum (tot_val <$> rngs) < 2 ^ 64 ->
        val' !! IDX_AVG = Some (u32 (zsum (tot_val <$> rngs) / all_hits rngs))).
Proof using HB.
  intros Hlen Hval Hr Hmm Htot Hbig. unfold tfw_apm_prnctl_calc.
  destruct (Nat.ltb_spec TFW_APM_MAX_TMWSCALE (length rngs)); [lia |].
  destruct (init_states_ok rngs Hr) as (ks & sts & -> & Hc & Hz).
  destruct (zero_pvals_ok rngs total_cnt Htot Hbig 5 3 3 val) as (p & val1 & Hzp & Hv & Hnz);
    [lia | lia | split; [lia | split; [done | lia]] | lia |].
  change (seq IDX_ITH (T_PSZ - IDX_ITH)) with (seq 3 5). change IDX_ITH with 3%nat. rewrite Hzp.
  pose proof (pre_all_zero _ _ Hz) as Hp0.
  pose proof (merge_loop_ok rngs total_cnt Hr Htot Hbig (64 * length rngs + 1) ks sts 0 p val1) as Hm.
  rewrite Hp0 in Hm. destruct Hm as (val2 & -> & Hv2).
  - done.
  - clear -Hz Hr Hc. induction Hc as [|rng k st rngs ks sts Hcur _ IH]; [constructor |].
    apply Forall2_cons in Hz as [Hz Hzs]. apply Forall_cons in Hr as [Hr Hrs].
    constructor; [| by apply IH]. split; [apply Hcur |]. split.
    + intros j Hj Hn. by rewrite Hz in Hn.
    + intros j Hj _. pose proof (time_range B _ rng Hr j ltac:(lia)). lia.
  - pose proof (left_over_le _ _ _ Hc). lia.
  - done.
  - done.
  - intros q Hq. specialize (Hnz q Hq). pose proof (pval_nonneg rngs total_cnt Htot Hbig q). lia.
  - rewrite minmax_ok by done.
    rewrite (sum64_ok (tot_cnt <$> rngs)); [| done | by apply tot_cnt_nonneg | unfold all_hits in Hbig; lia].
    change (0 + zsum (tot_cnt <$> rngs)) with (all_hits rngs).
    set (v := foldl _ 0 (tot_val <$> rngs)).
    assert (Hv0 : Forall (fun rng => 0 <= tot_val rng) rngs -> zsum (tot_val <$> rngs) < 2 ^ 64 ->
                  v = zsum (tot_val <$> rngs)).
    { intros Hnn Hlt. unfold v. rewrite sum64_ok; [done | done | by apply Forall_fmap | done]. }
    destruct Hv2 as (_ & Hl2 & Hq2).
    assert (Hq : forall w, vals_ok rngs total_cnt 8
              (<[IDX_MIN := foldl Z.min UINT_MAX (min_val <$> rngs)]>
                 (<[IDX_MAX := foldl Z.max 0 (max_val <$> rngs)]> val2)) /\
            vals_ok rngs total_cnt 8 (<[IDX_AVG := w]>
              (<[IDX_MIN := foldl Z.min UINT_MAX (min_val <$> rngs)]>
                 (<[IDX_MAX := foldl Z.max 0 (max_val <$> rngs)]> val2)))).
    { intros w. split; (split; [lia |]); (split; [by rewrite !length_insert |]);
        intros q Hq; rewrite !list_lookup_insert_ne by (unfold IDX_MIN, IDX_MAX, IDX_AVG; lia);
        by apply Hq2. }
    unfold T_PSZ in Hl2.
    do 8 (destruct val2 as [|? val2]; [done |]). destruct val2; [| done].
    destruct (Z.eqb_spec (all_hits rngs) 0); eexists; (split; [reflexivity |]);
      (split; [first [apply (Hq 0) | apply Hq] |]); (split; [done |]); (split; [done |]);
      intros Hn Hnn Hlt; [done |]. by rewrite (Hv0 Hnn Hlt).
Qed.
End merge.

(** C15: For entries in order whose buckets end below 65535 ms (USHRT_MAX) and a [total_cnt] that is not above their hits,
    the calculation returns (it
    never runs out of buckets, which is a [BUG_ON]), and every percentile it stores is exact for
    the multiset of hits in the buckets: 0 if no hit is needed, else the first time that covers
    [total_cnt * ith / 100] hits; no smaller time covers them.  Minimum, maximum and average
    are those of the entries.  Larger times are cut to 16 bits and give wrong percentiles ([percentile_truncated]); a [total_cnt]
    above the hits runs into the [BUG_ON] ([apm_reset_race] of ApmSess). *)
Theorem apm_percentiles_correct (B : Z) (rngs : list TfwPcntRanges) (total_cnt : Z) (val : list Z) :
  B < USHRT_MAX -> (length rngs <= TFW_APM_MAX_TMWSCALE)%nat -> length val = T_PSZ ->
  Forall (rng_ok B) rngs -> Forall (fun rng => is_u32 (min_val rng) /\ is_u32 (max_val rng)) rngs ->
  0 <= total_cnt <= all_hits rngs ->
  exists val', tfw_apm_prnctl_calc rngs total_cnt val = Ok val'
    /\ (forall q, (IDX_ITH <= q < T_PSZ)%nat -> exists v, val' !! q = Some v
         /\ (pval total_cnt q = 0 /\ v = 0
             \/ pval total_cnt q <> 0 /\ percentile rngs (pval total_cnt q) v))
    /\ val' !! IDX_MIN = Some (foldl Z.min UINT_MAX (min_val <$> rngs))
    /\ val' !! IDX_MAX = Some (foldl Z.max 0 (max_val <$> rngs))
    /\ (all_hits rngs <> 0 -> Forall (fun rng => 0 <= tot_val rng) rngs ->
        zsum (tot_val <$> rngs) < 2 ^ 64 ->
        val' !! IDX_AVG = Some (u32 (zsum (tot_val <$> rngs) / all_hits rngs))).
Proof.
  intros HB Hlen Hval Hr Hmm Htot.
  assert (Hbig : all_hits rngs <= zlen rngs * 2 ^ 32).
  { clear -Hr. induction Hr as [|rng rngs [_ Hlt] _ IH]; [done |].
    rewrite all_hits_cons. unfold zlen in *. simpl length. lia. }
  unfold zlen, TFW_APM_MAX_TMWSCALE in *.
  destruct (prnctl_calc_ok B HB rngs total_cnt val) as (val' & He & (_ & _ & Hq) & Hrest);
    [done | done | eapply Forall_impl; [exact Hr | intros rng H; apply H] | done | done | lia |].
  exists val'. split; [done |]. split; [| done]. intros q Hq'. apply Hq.
  unfold IDX_ITH, T_PSZ in Hq'. lia.
Qed.

(** Two entries with hits at 2, 9 and 21 ms and at 9 ms. *)
Definition calc_entry1 : TfwPcntRanges :=
  MkRanges tfw_rngctl_init 3 32 2 21
    [0 :: 1 :: replicate 6 0 ++ 1 :: replicate 7 0; [0; 0; 1] ++ replicate 13 0;
     replicate 16 0; replicate 16 0].
Definition calc_entry2 : TfwPcntRanges :=
  MkRanges tfw_rngctl_init 1 9 9 0
    [replicate 8 0 ++ 1 :: replicate 7 0; replicate 16 0; replicate 16 0; replicate 16 0].

Lemma apm_percentiles_correct_witness :
  exists val', tfw_apm_prnctl_calc [calc_entry1; calc_entry2] 4 (replicate 8 0) = Ok val'
    /\ percentile [calc_entry1; calc_entry2] 2 (default 0 (val' !! 3%nat))
    /\ val' = [2; 21; 10; 9; 9; 9; 9; 9].
Proof.
  destruct (apm_percentiles_correct 349 [calc_entry1; calc_entry2] 4 (replicate 8 0))
    as (val' & He & Hq & _).
  - done.
  - unfold TFW_APM_MAX_TMWSCALE. simpl. lia.
  - done.
  - repeat (apply Forall_cons; split); try apply Forall_nil; try exact I;
      (split; [split; [apply rng_init_ctls; lia | split; [split; [done |] | done]] | simpl; lia]);
      repeat (apply Forall_cons; split); try apply Forall_nil; try exact I;
      (split; [done |]); simpl; repeat (apply Forall_cons; split; [lia |]); by apply Forall_nil.
  - repeat (apply Forall_cons; split); try apply Forall_nil; try exact I; unfold is_u32; simpl; lia.
  - split; [lia |]. unfold all_hits. simpl. lia.
  - exists val'. split; [done |]. vm_compute in He. injection He as <-. split; [| done].
    destruct (Hq 3%nat) as (v & Hv & Hp); [unfold IDX_ITH, T_PSZ; lia |].
    simpl in Hv. injection Hv as <-. destruct Hp as [[Hz _] | [_ Hp]]; [by vm_compute in Hz | exact Hp].
Defined.

(** The cursor keeps a time in sixteen bits.  Three responses of 70 s are counted in the bucket
    of 73837 ms, but every percentile calculated from it is 8301 ms. *)
Theorem percentile_truncated :
  wp (updates [70000; 70000; 70000]) (fun _ s =>
    cum s 73836 = 0 /\ cum s 73837 = 3
    /\ tfw_apm_prnctl_calc [s] 3 (replicate 8 0) =
         Ok [70000; 70000; 70000; 8301; 8301; 8301; 8301; 8301]) rng_init.
Proof. vm_compute. done. Qed.
