(* ===== verification/ApmSess.v ===== *)
(** * Response-time statistics: the ring buffer and its timer ([fw/apm.c])

    Responses are recorded from any CPU in two small buffers per CPU, which the
    timer of a server empties in turn into the entries of a ring buffer, one entry
    per time interval.  The timer keeps the number of hits of the time window
    incrementally and recalculates the percentiles when they may have changed;
    readers take them from one of two places while the other is written.

    A call of [tfw_apm_update()], of the timer or of [tfw_apm_stats()] is one step;
    [jiffies] is an argument of the steps.  [apm_session_safe] is about all runs
    of such steps.  [apm_reset_race] divides the timer where another CPU can
    come in between. *)

From S2P Require Import Prelude ApmStats ApmCalc.

(** ** State *)

Record TfwApmRBEnt := MkEnt {
  pcntrng : TfwPcntRanges;
  jtmistamp : Z;
  reset : Z
}.

Record TfwApmRBCtl := MkRBCtl {
  jtmwstamp : Z;
  entry_cnt : Z;
  total_cnt : Z
}.

(** A slot of an update buffer is a 64-bit word, [centry] in its low half. *)
Record TfwApmUBuf := MkUBuf {
  ubent0 : list Z;
  ubent1 : list Z;
  counter : Z
}.

Record TfwApmData := MkApm {
  rbent : list TfwApmRBEnt;
  rbctl : TfwApmRBCtl;
  asent0 : list Z;
  asent1 : list Z;
  rdidx : Z;
  ubuf : list TfwApmUBuf
}.

(** The settings: window and interval in jiffies, slots of an update buffer. *)
Record ApmCfg := MkCfg {
  jtmwindow : Z;
  jtmintrvl : Z;
  ubufsz : Z
}.

Definition ULONG_MAX : Z := 2 ^ 64 - 1.

Definition TFW_APM_MIN_TMWSCALE : Z := 1.
Definition TFW_APM_MIN_TMWINDOW : Z := 60.
Definition TFW_APM_MAX_TMWINDOW : Z := 3600.
Definition TFW_APM_MIN_TMINTRVL : Z := 5.

(** The part of [tfw_apm_cfgend()] on the window; [msecs_to_jiffies] is the
    kernel's.  The result is the interval, the window and the scale. *)
Definition apm_cfg_window (msecs_to_jiffies : Z -> Z) (window scale : Z) : Z + Z * Z * Z :=
  if (window <? TFW_APM_MIN_TMWINDOW) || (TFW_APM_MAX_TMWINDOW <? window) then inl (- EINVAL)
  else if (scale <? TFW_APM_MIN_TMWSCALE) || (Z.of_nat TFW_APM_MAX_TMWSCALE <? scale)
  then inl (- EINVAL)
  else
    let scale := if scale =? 1 then 2 else scale in
    let jtmwindow := msecs_to_jiffies (window * 1000) in
    let jtmintrvl := jtmwindow / scale + (if jtmwindow mod scale =? 0 then 0 else 1) in
    if jtmintrvl <? TFW_APM_MIN_TMINTRVL then inl (- EINVAL)
    else inr (jtmintrvl, jtmintrvl * scale, scale).

(** ** Entries of the ring buffer *)

Definition __tfw_apm_rbent_reset (ent : TfwApmRBEnt) (stamp : Z) : TfwApmRBEnt :=
  MkEnt (rng_reset (pcntrng ent)) stamp 1.

(** [atomic_dec_and_test(&crbent->reset)] lets one caller through. *)
Definition tfw_apm_rbent_checkreset (ent : TfwApmRBEnt) (stamp : Z) : TfwApmRBEnt :=
  if jtmistamp ent =? stamp then ent
  else if reset ent - 1 =? 0 then __tfw_apm_rbent_reset ent stamp
  else MkEnt (pcntrng ent) (jtmistamp ent) (reset ent - 1).

Definition tfw_apm_rbent_init (stamp : Z) : TfwApmRBEnt :=
  __tfw_apm_rbent_reset (MkEnt (MkRanges tfw_rngctl_init 0 0 0 0 []) 0 0) stamp.

Abbreviation APM := (SM TfwApmData).

Definition get_ent (i : nat) : APM TfwApmRBEnt := fun d =>
  match rbent d !! i with Some e => Ok (e, d) | None => Bug end.

Definition put_ent (i : nat) (e : TfwApmRBEnt) : APM unit := fun d =>
  match rbent d !! i with
  | Some _ => Ok (tt, MkApm (<[i := e]> (rbent d)) (rbctl d) (asent0 d) (asent1 d) (rdidx d) (ubuf d))
  | None => Bug
  end.

Definition set_rbctl (c : TfwApmRBCtl) : APM unit :=
  sm_mod (fun d => MkApm (rbent d) c (asent0 d) (asent1 d) (rdidx d) (ubuf d)).

(** [tfw_stats_update(&rbent[i].pcntrng, rtt)] *)
Definition ent_update (i : nat) (rtt : Z) : APM unit :=
  e <~ get_ent i ;;
  match tfw_stats_update rtt (pcntrng e) with
  | Bug => sm_bug
  | Ok (_, rng) => put_ent i (MkEnt rng (jtmistamp e) (reset e))
  end.

Section apm.
Context (cfg : ApmCfg).

(** ** Time *)

Definition istart (t : Z) : Z := t - t mod jtmintrvl cfg.
Definition wstart (t : Z) : Z := u64 (istart t - jtmwindow cfg).
Definition centry (rbufsz : nat) (t : Z) : Z := (t / jtmintrvl cfg) mod Z.of_nat rbufsz.

(** ** The timer *)

Definition tfw_apm_rbctl_update (jtmnow : Z) : APM bool :=
  d <~ sm_get ;;
  let ce := Z.to_nat (centry (length (rbent d)) jtmnow) in
  if negb (jtmwstamp (rbctl d) =? wstart jtmnow) then
    e <~ get_ent ce ;;
    put_ent ce (tfw_apm_rbent_checkreset e (istart jtmnow)) ;;;
    d <~ sm_get ;;
    let total := foldl (fun a e => u64 (a + tot_cnt (pcntrng e))) 0 (rbent d) in
    e <~ get_ent ce ;;
    set_rbctl (MkRBCtl (wstart jtmnow) (tot_cnt (pcntrng e)) total) ;;;
    sm_ret true
  else
    e <~ get_ent ce ;;
    let ecnt := tot_cnt (pcntrng e) in
    if entry_cnt (rbctl d) =? ecnt then sm_ret false
    else
      bug_on (ecnt <? entry_cnt (rbctl d)) ;;;
      set_rbctl (MkRBCtl (jtmwstamp (rbctl d)) ecnt
                         (u64 (total_cnt (rbctl d) + u64 (ecnt - entry_cnt (rbctl d))))) ;;;
      sm_ret true.

(** The calculation proper and the publication of its result. *)
Definition calc_publish : APM unit :=
  d <~ sm_get ;;
  match tfw_apm_prnctl_calc (pcntrng <$> rbent d) (total_cnt (rbctl d)) (replicate T_PSZ 0) with
  | Bug => sm_bug
  | Ok val =>
      sm_mod (fun d =>
        let idx := u32 (rdidx d + 1) in
        if idx mod 2 =? 0
        then MkApm (rbent d) (rbctl d) val (asent1 d) idx (ubuf d)
        else MkApm (rbent d) (rbctl d) (asent0 d) val idx (ubuf d))
  end.

Definition tfw_apm_calc (jtmnow : Z) : APM unit :=
  b <~ tfw_apm_rbctl_update jtmnow ;;
  if (b : bool) then calc_publish else sm_ret tt.

(** The loop over the slots of one array; the array afterwards is the result. *)
Fixpoint drain (slots : list Z) : APM (list Z) :=
  match slots with
  | [] => sm_ret []
  | data :: slots =>
      (if data =? ULONG_MAX then sm_ret tt
       else ent_update (Z.to_nat (data mod 2 ^ 32)) (data / 2 ^ 32)) ;;;
      rest <~ drain slots ;;
      sm_ret (ULONG_MAX :: rest)
  end.

Definition put_ubuf (ub : list TfwApmUBuf) : APM unit :=
  sm_mod (fun d => MkApm (rbent d) (rbctl d) (asent0 d) (asent1 d) (rdidx d) ub).

(** [for_each_online_cpu()]: the counter of a CPU moves first, so that updates go to
    the other array. *)
Fixpoint drain_cpus (ubs : list TfwApmUBuf) : APM (list TfwApmUBuf) :=
  match ubs with
  | [] => sm_ret []
  | ub :: ubs =>
      let idxval := u64 (counter ub + 1) in
      ub' <~ (if (idxval - 1) mod 2 =? 0
              then l <~ drain (ubent0 ub) ;; sm_ret (MkUBuf l (ubent1 ub) idxval)
              else l <~ drain (ubent1 ub) ;; sm_ret (MkUBuf (ubent0 ub) l idxval)) ;;
      rest <~ drain_cpus ubs ;;
      sm_ret (ub' :: rest)
  end.

Definition tfw_apm_prcntl_tmfn (jtmnow : Z) : APM unit :=
  d <~ sm_get ;;
  ubs <~ drain_cpus (ubuf d) ;;
  put_ubuf ubs ;;;
  tfw_apm_calc jtmnow.

(** ** Updates and readers *)

Definition __tfw_apm_update (cpu : nat) (jtstamp rtt : Z) : APM unit :=
  d <~ sm_get ;;
  match ubuf d !! cpu with
  | None => sm_bug
  | Some ub =>
      let ce := centry (length (rbent d)) jtstamp in
      let data := ce + u32 rtt * 2 ^ 32 in
      let slot := Z.to_nat (jtstamp mod ubufsz cfg) in
      e <~ get_ent (Z.to_nat ce) ;;
      put_ent (Z.to_nat ce) (tfw_apm_rbent_checkreset e (istart jtstamp)) ;;;
      if counter ub mod 2 =? 0 then
        if (slot <? length (ubent0 ub))%nat then
          put_ubuf (<[cpu := MkUBuf (<[slot := data]> (ubent0 ub)) (ubent1 ub) (counter ub)]> (ubuf d))
        else sm_bug
      else
        if (slot <? length (ubent1 ub))%nat then
          put_ubuf (<[cpu := MkUBuf (ubent0 ub) (<[slot := data]> (ubent1 ub)) (counter ub)]> (ubuf d))
        else sm_bug
  end.

(** What a reader gets: the values, the new [seq] and whether it has changed. *)
Definition tfw_apm_stats (seq : Z) (d : TfwApmData) : list Z * Z * bool :=
  (if rdidx d mod 2 =? 0 then asent0 d else asent1 d, rdidx d, negb (seq =? rdidx d)).

(** The state that [tfw_apm_create()] sets up. *)
Definition tfw_apm_create (rbufsz ncpu : nat) : TfwApmData :=
  let slots := replicate (Z.to_nat (ubufsz cfg)) ULONG_MAX in
  MkApm (replicate rbufsz (tfw_apm_rbent_init 0)) (MkRBCtl 0 0 0)
        (replicate T_PSZ 0) (replicate T_PSZ 0) 0 (replicate ncpu (MkUBuf slots slots 0)).

(** ** Runs *)

Inductive ApmEvent :=
| EvUpdate (cpu : nat) (jtstamp rtt : Z)
| EvTimer (jtmnow : Z).

Definition ev_time (ev : ApmEvent) : Z :=
  match ev with EvUpdate _ t _ => t | EvTimer t => t end.

Definition apm_step (ev : ApmEvent) : APM unit :=
  match ev with
  | EvUpdate cpu t rtt => __tfw_apm_update cpu t rtt
  | EvTimer t => tfw_apm_prcntl_tmfn t
  end.

Fixpoint apm_run (evs : list ApmEvent) : APM unit :=
  match evs with
  | [] => sm_ret tt
  | ev :: evs => apm_step ev ;;; apm_run evs
  end.
End apm.

(** ** Invariants *)

(** Times of at most [RTT_MAX] ms keep all bucket times below [BMAX]. *)
Definition RTT_MAX : Z := 32767.
Definition BMAX : Z := 65534.

Definition ent_ok (e : TfwApmRBEnt) : Prop :=
  rng_ok BMAX (pcntrng e) /\ is_u32 (min_val (pcntrng e)) /\ is_u32 (max_val (pcntrng e))
  /\ reset e = 1.

Definition ents_hits (ents : list TfwApmRBEnt) : Z := all_hits (pcntrng <$> ents).

Definition slot_ok (n : nat) (data : Z) : Prop :=
  data = ULONG_MAX
  \/ 0 <= data mod 2 ^ 32 < Z.of_nat n /\ 0 <= data / 2 ^ 32 <= RTT_MAX.

(** Recorded updates of an array; all of them are for entry [c]. *)
Definition occ (slots : list Z) : Z := zlen (filter (fun data => data <> ULONG_MAX) slots).

Definition slots_at (c : Z) (slots : list Z) : Prop :=
  Forall (fun data => data = ULONG_MAX \/ data mod 2 ^ 32 = c) slots.

Lemma occ_cons data slots :
  occ (data :: slots) = (if data =? ULONG_MAX then 0 else 1) + occ slots.
Proof.
  unfold occ. rewrite filter_cons. destruct (Z.eqb_spec data ULONG_MAX) as [-> | Hn].
  - rewrite decide_False by auto. lia.
  - rewrite decide_True by done. unfold zlen. simpl. lia.
Qed.

Lemma occ_nonneg slots : 0 <= occ slots.
Proof. apply zlen_nonneg. Qed.

Lemma occ_empty n : occ (replicate n ULONG_MAX) = 0.
Proof. induction n; simpl; [done |]. rewrite occ_cons, IHn. done. Qed.

Lemma occ_insert slots i data : occ (<[i := data]> slots) <= occ slots + 1.
Proof.
  revert i. induction slots as [|x slots IH]; intros [|i]; simpl; try (unfold occ, zlen; simpl; lia).
  - rewrite !occ_cons. destruct (data =? ULONG_MAX), (x =? ULONG_MAX); lia.
  - rewrite !occ_cons. specialize (IH i). lia.
Qed.

Lemma ents_hits_insert ents i e e' :
  ents !! i = Some e ->
  ents_hits (<[i := e']> ents) = ents_hits ents - tot_cnt (pcntrng e) + tot_cnt (pcntrng e').
Proof.
  intros H. unfold ents_hits, all_hits. rewrite !list_fmap_insert.
  apply zsum_insert. by rewrite !list_lookup_fmap, H.
Qed.

Lemma ents_cnt_nonneg ents : Forall ent_ok ents -> Forall (Z.le 0) (tot_cnt <$> (pcntrng <$> ents)).
Proof.
  intros H. apply (tot_cnt_nonneg BMAX). apply Forall_fmap. eapply Forall_impl; [exact H |].
  intros e [[Hr _] _]. exact Hr.
Qed.

Lemma ents_hits_elem ents i e :
  Forall ent_ok ents -> ents !! i = Some e -> 0 <= tot_cnt (pcntrng e) <= ents_hits ents.
Proof.
  intros Hf H. pose proof (ents_cnt_nonneg _ Hf) as Hnn.
  assert (Hi : (tot_cnt <$> (pcntrng <$> ents)) !! i = Some (tot_cnt (pcntrng e)))
    by (by rewrite !list_lookup_fmap, H).
  split; [by eapply (Forall_lookup_1 _ _ _ _ Hnn) | by eapply zsum_elem].
Qed.

(** A state without its entries. *)
Definition same_rest (d d' : TfwApmData) : Prop :=
  rbctl d' = rbctl d /\ asent0 d' = asent0 d /\ asent1 d' = asent1 d
  /\ rdidx d' = rdidx d /\ ubuf d' = ubuf d.

(** [k] hits went into the entries; into entry [c], if one is given. *)
Definition counted (k : Z) (c : option Z) (d d' : TfwApmData) : Prop :=
  same_rest d d' /\ length (rbent d') = length (rbent d) /\ Forall ent_ok (rbent d')
  /\ ents_hits (rbent d') = ents_hits (rbent d) + k
  /\ (forall c', c = Some c' -> forall e, rbent d !! Z.to_nat c' = Some e ->
       exists e', rbent d' !! Z.to_nat c' = Some e' /\ jtmistamp e' = jtmistamp e
         /\ tot_cnt (pcntrng e') = tot_cnt (pcntrng e) + k).

Lemma counted_refl c d : Forall ent_ok (rbent d) -> counted 0 c d d.
Proof.
  intros Hf. split; [done |]. split; [done |]. split; [done |]. split; [lia |].
  intros c' _ e He. exists e. split; [done |]. split; [done | lia].
Qed.

Lemma counted_trans c k k' d1 d2 d3 :
  counted k c d1 d2 -> counted k' c d2 d3 -> counted (k + k') c d1 d3.
Proof.
  intros (Hs & Hl & Hf & Hh & Hc) (Hs' & Hl' & Hf' & Hh' & Hc').
  split; [unfold same_rest in *; destruct_and!; repeat split; congruence |].
  split; [congruence |]. split; [done |]. split; [lia |].
  intros c0 Hc0 e He. destruct (Hc c0 Hc0 e He) as (e2 & He2 & Hj2 & Ht2).
  destruct (Hc' c0 Hc0 e2 He2) as (e3 & He3 & Hj3 & Ht3).
  exists e3. split; [done |]. split; [congruence | lia].
Qed.

Lemma wp_get_ent i e d (Q : TfwApmRBEnt -> TfwApmData -> Prop) :
  rbent d !! i = Some e -> Q e d -> wp (get_ent i) Q d.
Proof. unfold wp, get_ent. by intros ->. Qed.

Lemma wp_put_ent i e e' d (Q : unit -> TfwApmData -> Prop) :
  rbent d !! i = Some e ->
  Q tt (MkApm (<[i := e']> (rbent d)) (rbctl d) (asent0 d) (asent1 d) (rdidx d) (ubuf d)) ->
  wp (put_ent i e') Q d.
Proof. unfold wp, put_ent. by intros ->. Qed.

Lemma ent_update_ok i e rtt c d :
  Forall ent_ok (rbent d) -> rbent d !! i = Some e -> 0 <= rtt <= RTT_MAX ->
  ents_hits (rbent d) + 1 < 2 ^ 32 -> (forall c', c = Some c' -> Z.to_nat c' = i) ->
  wp (ent_update i rtt) (fun _ d' => counted 1 c d d') d.
Proof.
  intros Hf He Hrtt Hh Hc. unfold RTT_MAX in Hrtt.
  pose proof (Forall_lookup_1 _ _ _ _ Hf He) as (Hr & Hmn & Hmx & Hrs).
  pose proof (ents_hits_elem _ _ _ Hf He).
  apply wp_bind, (wp_get_ent _ e); [done |].
  destruct (wp_ok _ _ _ (stats_update_ok BMAX ltac:(unfold BMAX; lia) rtt (pcntrng e) Hr
    ltac:(lia) ltac:(lia) ltac:(lia) ltac:(unfold BMAX; lia)))
    as ([] & rng & -> & Hr' & Htc & _ & Hmn' & Hmx').
  apply (wp_put_ent _ e); [done |].
  split; [done |]. split; [apply length_insert |]. split.
  { apply Forall_insert; [done |]. split; [done |]. simpl. unfold is_u32 in *.
    rewrite Hmn', Hmx'. repeat split; try lia; destruct (rtt <? _); lia. }
  split; [simpl; rewrite (ents_hits_insert _ _ e) by done; simpl; lia |].
  intros c' Hc' e0 He0. rewrite (Hc c' Hc') in *. simplify_eq. simpl.
  rewrite list_lookup_insert_eq by (by eapply lookup_lt_Some).
  eexists. split; [done |]. simpl. split; [done | lia].
Qed.

Lemma drain_ok c slots : forall d,
  Forall ent_ok (rbent d) -> Forall (slot_ok (length (rbent d))) slots ->
  (forall c', c = Some c' -> slots_at c' slots) ->
  ents_hits (rbent d) + occ slots < 2 ^ 32 ->
  wp (drain slots) (fun l d' => l = replicate (length slots) ULONG_MAX
    /\ counted (occ slots) c d d') d.
Proof.
  induction slots as [|data slots IH]; intros d Hf Hs Hc Hh; simpl.
  - apply wp_ret. split; [done |]. by apply counted_refl.
  - apply Forall_cons in Hs as [Hd Hs]. rewrite occ_cons in *. pose proof (occ_nonneg slots).
    apply wp_bind.
    eapply (wp_mono _ (fun _ d' => counted (if data =? ULONG_MAX then 0 else 1) c d d')).
    + destruct (Z.eqb_spec data ULONG_MAX) as [-> | Hn].
      * apply wp_ret. by apply counted_refl.
      * destruct Hd as [-> | [Hce Hrtt]]; [done |].
        destruct (lookup_lt_is_Some_2 (rbent d) (Z.to_nat (data mod 2 ^ 32))) as [e He]; [lia |].
        apply (ent_update_ok _ e); [done | done | done | lia |].
        intros c' Hc'. specialize (Hc c' Hc'). apply Forall_cons in Hc as [[? | ->] _]; done.
    + intros _ d' Hcd. pose proof Hcd as (_ & Hl & Hf' & Hh' & _).
      apply wp_bind. eapply wp_mono.
      * apply (IH d'); [done | by rewrite Hl | | lia].
        intros c' Hc'. by specialize (Hc c' Hc'); apply Forall_cons in Hc as [_ Hc].
      * simpl. intros l d'' [-> Hcd']. apply wp_ret. split; [done |].
        by eapply counted_trans.
Qed.

(** ** Update buffers *)

Definition active (ub : TfwApmUBuf) : list Z :=
  if counter ub mod 2 =? 0 then ubent0 ub else ubent1 ub.
Definition inactive (ub : TfwApmUBuf) : list Z :=
  if counter ub mod 2 =? 0 then ubent1 ub else ubent0 ub.

(** Updates go to the active array; the other one is empty. *)
Definition ub_ok (n sz : nat) (ub : TfwApmUBuf) : Prop :=
  length (active ub) = sz /\ Forall (slot_ok n) (active ub)
  /\ inactive ub = replicate sz ULONG_MAX.

Definition ub_empty (ub : TfwApmUBuf) : Prop := occ (active ub) = 0.

Definition occ_all (ubs : list TfwApmUBuf) : Z := zsum (occ ∘ active <$> ubs).

Lemma occ_all_nonneg ubs : 0 <= occ_all ubs.
Proof.
  apply zsum_nonneg, Forall_fmap, Forall_true. intros. apply occ_nonneg.
Qed.

Lemma parity_succ c : (u64 (c + 1) - 1) mod 2 = c mod 2 /\ u64 (c + 1) mod 2 = (c + 1) mod 2.
Proof.
  unfold u64. assert (H : (c + 1) mod 2 ^ 64 = c + 1 - 2 * (2 ^ 63 * ((c + 1) / 2 ^ 64))).
  { rewrite Z.mod_eq by lia. lia. }
  rewrite H. split.
  - replace (c + 1 - 2 * (2 ^ 63 * ((c + 1) / 2 ^ 64)) - 1)
      with (c + - (2 ^ 63 * ((c + 1) / 2 ^ 64)) * 2) by lia. apply Z_mod_plus_full.
  - replace (c + 1 - 2 * (2 ^ 63 * ((c + 1) / 2 ^ 64)))
      with (c + 1 + - (2 ^ 63 * ((c + 1) / 2 ^ 64)) * 2) by lia. apply Z_mod_plus_full.
Qed.

(** After the counter has moved the drained array is the one without updates. *)
Lemma ub_drained n sz ub :
  ub_ok n sz ub -> (0 <= Z.of_nat n)%Z ->
  let l := replicate sz ULONG_MAX in
  let ub' := if (u64 (counter ub + 1) - 1) mod 2 =? 0
             then MkUBuf l (ubent1 ub) (u64 (counter ub + 1))
             else MkUBuf (ubent0 ub) l (u64 (counter ub + 1)) in
  ub_ok n sz ub' /\ ub_empty ub' /\ inactive ub' = l.
Proof.
  destruct (parity_succ (counter ub)) as [Hp Hq]. rewrite Hp.
  intros (Hl & Hs & Hi) _ l.
  assert (Forall (slot_ok n) l) by (apply Forall_replicate; by left).
  assert (Hpar : (counter ub + 1) mod 2 = 1 - counter ub mod 2).
  { pose proof (Z.mod_pos_bound (counter ub) 2 ltac:(lia)).
    rewrite Zplus_mod. change (1 mod 2) with 1.
    destruct (Z.eq_dec (counter ub mod 2) 0) as [-> |]; [done |].
    replace (counter ub mod 2) with 1 by lia. done. }
  unfold ub_ok, ub_empty, active, inactive in *.
  destruct (Z.eqb_spec (counter ub mod 2) 0) as [He | He]; simpl; rewrite Hq, Hpar.
  - rewrite He. simpl. rewrite Hi. unfold l. rewrite length_replicate, occ_empty. done.
  - pose proof (Z.mod_pos_bound (counter ub) 2 ltac:(lia)).
    replace (counter ub mod 2) with 1 by lia. simpl. rewrite Hi. unfold l.
    rewrite length_replicate, occ_empty. done.
Qed.

Lemma drain_cpus_ok c sz ubs : forall d,
  Forall ent_ok (rbent d) -> Forall (ub_ok (length (rbent d)) sz) ubs ->
  (forall c', c = Some c' -> Forall (fun ub => slots_at c' (active ub)) ubs) ->
  ents_hits (rbent d) + occ_all ubs < 2 ^ 32 ->
  wp (drain_cpus ubs) (fun ubs' d' => length ubs' = length ubs
    /\ Forall (fun ub => ub_ok (length (rbent d)) sz ub /\ ub_empty ub) ubs'
    /\ counted (occ_all ubs) c d d') d.
Proof.
  induction ubs as [|ub ubs IH]; intros d Hf Hu Hc Hh; simpl.
  - apply wp_ret. split; [done |]. split; [constructor |]. by apply counted_refl.
  - apply Forall_cons in Hu as [Hub Hu].
    change (occ_all (ub :: ubs)) with (occ (active ub) + occ_all ubs) in *.
    pose proof (occ_all_nonneg ubs).
    destruct (ub_drained _ _ _ Hub ltac:(lia)) as (Hok & Hemp & _).
    destruct (parity_succ (counter ub)) as [Hp _].
    assert (Hd : wp (drain (active ub)) (fun l d' => l = replicate sz ULONG_MAX
                  /\ counted (occ (active ub)) c d d') d).
    { destruct Hub as (Hl & Hs & _). rewrite <- Hl.
      apply drain_ok; [done | done | | lia].
      intros c' Hc'. by specialize (Hc c' Hc'); apply Forall_cons in Hc as [Hc _]. }
    apply wp_bind.
    eapply (wp_mono _ (fun ub' d' => (ub_ok (length (rbent d)) sz ub' /\ ub_empty ub')
                        /\ counted (occ (active ub)) c d d')).
    + rewrite Hp in *. unfold active in Hd at 1.
      destruct (counter ub mod 2 =? 0); apply wp_bind; (eapply wp_mono; [exact Hd |]);
        intros l d' [-> Hcd]; by apply wp_ret.
    + intros ub' d' [Hub' Hcd]. pose proof Hcd as (_ & Hl & Hf' & Hh' & _).
      apply wp_bind. eapply wp_mono.
      * apply (IH d'); [done | by rewrite Hl | | lia].
        intros c' Hc'. by specialize (Hc c' Hc'); apply Forall_cons in Hc as [_ Hc].
      * simpl. intros ubs' d'' (Hlen & Hus & Hcd'). apply wp_ret. split; [simpl; congruence |].
        rewrite Hl in Hus. split; [by constructor |]. by eapply counted_trans.
Qed.

(** Empty buffers change nothing. *)
Lemma drain_empty slots : forall d, occ slots = 0 -> wp (drain slots) (fun _ d' => d' = d) d.
Proof.
  induction slots as [|data slots IH]; intros d Ho; [done |]. rewrite occ_cons in Ho. pose proof (occ_nonneg slots). cbn [drain].
  destruct (data =? ULONG_MAX); [| lia]. apply wp_bind, wp_ret, wp_bind. eapply wp_mono; [apply IH; lia |]. by intros l d' ->.
Qed.

Lemma drain_cpus_empty ubs : forall d, occ_all ubs = 0 -> wp (drain_cpus ubs) (fun _ d' => d' = d) d.
Proof.
  induction ubs as [|ub ubs IH]; intros d Ho; [done |]. change (occ_all (ub :: ubs)) with (occ (active ub) + occ_all ubs) in Ho.
  pose proof (occ_nonneg (active ub)). pose proof (occ_all_nonneg ubs). cbn [drain_cpus]. destruct (parity_succ (counter ub)) as [-> _].
  pose proof (drain_empty (active ub) d ltac:(lia)) as Hd. unfold active in Hd.
  apply wp_bind. eapply (wp_mono _ (fun _ d' => d' = d)).
  - destruct (counter ub mod 2 =? 0); apply wp_bind; (eapply wp_mono; [exact Hd |]); by intros l d' ->.
  - intros ub' d' ->. apply wp_bind. eapply wp_mono; [apply IH; lia |]. by intros l d' ->.
Qed.

Lemma checkreset_ok e stamp :
  ent_ok e ->
  let e' := tfw_apm_rbent_checkreset e stamp in
  ent_ok e' /\ jtmistamp e' = stamp /\ tot_cnt (pcntrng e') <= tot_cnt (pcntrng e)
  /\ (jtmistamp e = stamp -> e' = e).
Proof.
  intros He. unfold tfw_apm_rbent_checkreset.
  destruct (Z.eqb_spec (jtmistamp e) stamp) as [Hs | Hs]; [by repeat split; try apply He |].
  pose proof He as (([Hc [Hr Ht]] & _) & _ & _ & ->). simpl. split; [| split; [done | split; [| done]]].
  - split; [by apply rng_reset_ok |]. simpl. unfold is_u32, UINT_MAX. lia.
  - rewrite <- Ht. destruct (rows_ok_lookup _ 0 Hr ltac:(lia)) as (l & Hl & _).
    pose proof (total_row _ _ _ Hr Hl). lia.
Qed.

Lemma occ_all_insert ubs i ub ub' :
  ubs !! i = Some ub -> occ_all (<[i := ub']> ubs) = occ_all ubs - occ (active ub) + occ (active ub').
Proof.
  intros H. unfold occ_all. rewrite list_fmap_insert. apply zsum_insert.
  by rewrite list_lookup_fmap, H.
Qed.

Lemma slot_data c rtt :
  0 <= c < 2 ^ 32 -> 0 <= rtt < 2 ^ 32 ->
  (c + u32 rtt * 2 ^ 32) mod 2 ^ 32 = c /\ (c + u32 rtt * 2 ^ 32) / 2 ^ 32 = rtt.
Proof.
  intros Hc Hr. rewrite u32_small by done. split.
  - rewrite Z_mod_plus_full. by apply Z.mod_small.
  - rewrite Z.div_add by lia. rewrite Z.div_small by lia. lia.
Qed.

(** ** The invariant of a run *)

Section run.
Context (cfg : ApmCfg) (n ncpu : nat).
Hypothesis (Hn : (1 <= n <= TFW_APM_MAX_TMWSCALE)%nat).
Hypothesis (Hi : 0 < jtmintrvl cfg) (Hw : 0 <= jtmwindow cfg) (Hsz : 0 < ubufsz cfg).

(** Times the theorems are about: the kernel starts [jiffies] at a large value. *)
Definition time_ok (t : Z) : Prop := jtmwindow cfg + jtmintrvl cfg <= t < 2 ^ 64.

Lemma istart_bounds t : istart cfg t <= t < istart cfg t + jtmintrvl cfg.
Proof using Hi Hn. unfold istart. pose proof (Z.mod_pos_bound t _ Hi). lia. Qed.

Lemma istart_mul t : istart cfg t = t / jtmintrvl cfg * jtmintrvl cfg.
Proof using Hi Hn. unfold istart. rewrite Z.mod_eq by lia. lia. Qed.

Lemma istart_mono t t' : t <= t' -> istart cfg t <= istart cfg t'.
Proof using Hi Hn.
  intros H. rewrite !istart_mul. apply Z.mul_le_mono_nonneg_r; [lia |]. by apply Z.div_le_mono.
Qed.

Lemma wstart_eq t : time_ok t -> wstart cfg t = istart cfg t - jtmwindow cfg /\ wstart cfg t <> 0.
Proof using Hi Hn Hw.
  intros Ht. unfold time_ok in Ht. pose proof (istart_bounds t). unfold wstart.
  rewrite u64_small by lia. split; [done | lia].
Qed.

(** The same interval has the same entry. *)
Lemma centry_istart t t' : istart cfg t = istart cfg t' -> centry cfg n t = centry cfg n t'.
Proof using Hi Hn.
  rewrite !istart_mul. intros H. unfold centry. apply Z.mul_reg_r in H; [| lia]. by rewrite H.
Qed.

Lemma centry_range t : 0 <= centry cfg n t < Z.of_nat n.
Proof using Hn. unfold centry. apply Z.mod_pos_bound. lia. Qed.

(** The counters of the window: exact while the interval [T] lasts. *)
Definition rbctl_exact (T : Z) (d : TfwApmData) : Prop :=
  exists e, rbent d !! Z.to_nat (centry cfg n T) = Some e
    /\ jtmistamp e = istart cfg T
    /\ entry_cnt (rbctl d) = tot_cnt (pcntrng e)
    /\ total_cnt (rbctl d) = ents_hits (rbent d)
    /\ Forall (fun ub => slots_at (centry cfg n T) (active ub)) (ubuf d).

(** The values that a reader gets are the percentiles of the entries. *)
Definition published (d : TfwApmData) : Prop :=
  let rngs := pcntrng <$> rbent d in
  let val := fst (fst (tfw_apm_stats 0 d)) in
  (forall q, (IDX_ITH <= q < T_PSZ)%nat -> exists v, val !! q = Some v
     /\ (pval (all_hits rngs) q = 0 /\ v = 0
         \/ pval (all_hits rngs) q <> 0 /\ percentile rngs (pval (all_hits rngs) q) v))
  /\ val !! IDX_MIN = Some (foldl Z.min UINT_MAX (min_val <$> rngs)).

(** While the interval of the last run of the timer lasts, the values that it published are those of the entries. *)
Definition rbctl_ok (now : Z) (d : TfwApmData) : Prop :=
  jtmwstamp (rbctl d) = 0
  \/ exists T, time_ok T /\ T <= now /\ jtmwstamp (rbctl d) = wstart cfg T
       /\ (istart cfg now = istart cfg T -> rbctl_exact T d /\ published d).

(** [N] updates have been accepted so far. *)
Definition data_ok (N : Z) (d : TfwApmData) : Prop :=
  length (rbent d) = n /\ Forall ent_ok (rbent d)
  /\ length (ubuf d) = ncpu /\ Forall (ub_ok n (Z.to_nat (ubufsz cfg))) (ubuf d)
  /\ length (asent0 d) = T_PSZ /\ length (asent1 d) = T_PSZ
  /\ ents_hits (rbent d) + occ_all (ubuf d) <= N.

Lemma rbctl_ok_later now now' d :
  now <= now' -> rbctl_ok now d -> rbctl_ok now' d.
Proof using Hi Hn.
  intros Hle [H0 | (T & HT & HTn & Hs & He)]; [by left |]. right.
  exists T. split; [done |]. split; [lia |]. split; [done |]. intros Heq. apply He.
  pose proof (istart_mono T now HTn). pose proof (istart_mono now now' Hle). lia.
Qed.

(** Storing an update into the active array of a CPU. *)
Lemma ub_store sz ub slot data :
  ub_ok n sz ub -> slot_ok n data ->
  let ub' := if counter ub mod 2 =? 0
             then MkUBuf (<[slot := data]> (ubent0 ub)) (ubent1 ub) (counter ub)
             else MkUBuf (ubent0 ub) (<[slot := data]> (ubent1 ub)) (counter ub) in
  ub_ok n sz ub' /\ active ub' = <[slot := data]> (active ub).
Proof using.
  intros (Hl & Hs & Hin) Hd. unfold ub_ok, active, inactive in *.
  destruct (counter ub mod 2 =? 0) eqn:He; simpl; rewrite He;
    (split; [split; [by rewrite length_insert | split; [by apply Forall_insert | done]] | done]).
Qed.

Lemma apm_update_ok N now t cpu rtt d :
  data_ok N d -> rbctl_ok now d -> now <= t -> (cpu < ncpu)%nat -> 0 <= rtt <= RTT_MAX ->
  wp (__tfw_apm_update cfg cpu t rtt) (fun _ d' => data_ok (N + 1) d' /\ rbctl_ok t d'
    /\ rdidx d' = rdidx d) d.
Proof using All.
  intros Hd Hrb Hle Hcpu Hrtt. pose proof (rbctl_ok_later _ _ _ Hle Hrb) as Hrb'. clear Hrb.
  destruct Hd as (Hlen & Hents & Hul & Hub & Ha0 & Ha1 & HN).
  apply wp_bind, wp_get.
  destruct (lookup_lt_is_Some_2 (ubuf d) cpu) as [ub Hu]; [lia |]. rewrite Hu.
  pose proof (Forall_lookup_1 _ _ _ _ Hub Hu) as Hubok.
  rewrite Hlen. pose proof (centry_range t) as Hcr. unfold TFW_APM_MAX_TMWSCALE in Hn.
  destruct (lookup_lt_is_Some_2 (rbent d) (Z.to_nat (centry cfg n t))) as [e He]; [lia |].
  pose proof (Forall_lookup_1 _ _ _ _ Hents He) as Heok.
  destruct (checkreset_ok e (istart cfg t) Heok) as (Heok' & Hst & Hcnt & Hsame).
  set (e' := tfw_apm_rbent_checkreset e (istart cfg t)) in *.
  set (data := centry cfg n t + u32 rtt * 2 ^ 32). unfold RTT_MAX in Hrtt.
  destruct (slot_data (centry cfg n t) rtt ltac:(lia) ltac:(lia)) as [Hd1 Hd2].
  assert (Hdata : slot_ok n data) by (right; unfold data, RTT_MAX; rewrite Hd1, Hd2; lia).
  set (slot := Z.to_nat (t mod ubufsz cfg)).
  assert (Hslot : (slot < Z.to_nat (ubufsz cfg))%nat).
  { unfold slot. pose proof (Z.mod_pos_bound t _ Hsz). lia. }
  destruct (ub_store _ ub slot data Hubok Hdata) as [Hubok' Hact].
  pose proof Hubok as (Hal & _).
  apply wp_bind, (wp_get_ent _ e); [done |]. apply wp_bind, (wp_put_ent _ e); [done |].
  set (ub' := if counter ub mod 2 =? 0 then _ else _) in *.
  assert (Hgoal : data_ok (N + 1) (MkApm (<[Z.to_nat (centry cfg n t) := e']> (rbent d)) (rbctl d)
                     (asent0 d) (asent1 d) (rdidx d) (<[cpu := ub']> (ubuf d)))
          /\ rbctl_ok t (MkApm (<[Z.to_nat (centry cfg n t) := e']> (rbent d)) (rbctl d)
                     (asent0 d) (asent1 d) (rdidx d) (<[cpu := ub']> (ubuf d)))).
  { split.
    - unfold data_ok. simpl. rewrite !length_insert.
      repeat split; try done; try (by apply Forall_insert).
      rewrite (ents_hits_insert _ _ e), (occ_all_insert _ _ ub) by done.
      rewrite Hact. pose proof (occ_insert (active ub) slot data). lia.
    - destruct Hrb' as [H0 | (T & HT & HTn & Hs & Hex)]; [by left |].
      right. exists T. split; [done |]. split; [done |]. split; [done |]. intros Heq.
      destruct (Hex Heq) as [(eT & HeT & HsT & Hec & Htc & Hsl) Hpub].
      rewrite <- (centry_istart _ _ Heq) in HeT, Hsl. rewrite He in HeT. injection HeT as <-.
      assert (He'e : e' = e) by (apply Hsame; congruence).
      rewrite He'e, (list_insert_id (rbent d)) by done. split; [| exact Hpub].
      exists e. simpl. rewrite <- (centry_istart _ _ Heq). repeat split; try done.
      apply Forall_insert; [done |]. rewrite Hact. apply Forall_insert.
      + by eapply (Forall_lookup_1 _ _ _ _ Hsl) in Hu.
      + right. exact Hd1. }
  destruct Hgoal as [Hg1 Hg2]. unfold ub' in Hg1, Hg2. unfold active in Hal.
  destruct (counter ub mod 2 =? 0); (destruct (Nat.ltb_spec slot (length (ubent0 ub))) as [H1 | H1];
    destruct (Nat.ltb_spec slot (length (ubent1 ub))) as [H2 | H2]); try lia; by apply wp_mod.
Qed.

(** What the drained buffers leave for [tfw_apm_rbctl_update()]. *)
Definition pre_update (t : Z) (d : TfwApmData) : Prop :=
  Forall ub_empty (ubuf d)
  /\ (jtmwstamp (rbctl d) = wstart cfg t ->
      exists e, rbent d !! Z.to_nat (centry cfg n t) = Some e /\ jtmistamp e = istart cfg t
        /\ entry_cnt (rbctl d) <= tot_cnt (pcntrng e)
        /\ total_cnt (rbctl d) = ents_hits (rbent d) - (tot_cnt (pcntrng e) - entry_cnt (rbctl d))
        /\ 0 <= total_cnt (rbctl d)).

Lemma empty_slots_at c ub sz : ub_ok n sz ub -> ub_empty ub -> slots_at c (active ub).
Proof using Hn.
  intros _ He. unfold ub_empty in He. unfold slots_at.
  induction (active ub) as [|data l IH]; [constructor |]. rewrite occ_cons in He.
  pose proof (occ_nonneg l). destruct (Z.eqb_spec data ULONG_MAX); [| lia].
  constructor; [by left |]. apply IH. lia.
Qed.

Lemma ents_hits_nonneg ents : Forall ent_ok ents -> 0 <= ents_hits ents.
Proof using Hn. intros H. by apply zsum_nonneg, ents_cnt_nonneg. Qed.

Lemma sum_ents ents :
  Forall ent_ok ents -> ents_hits ents < 2 ^ 64 ->
  foldl (fun a e => u64 (a + tot_cnt (pcntrng e))) 0 ents = ents_hits ents.
Proof using Hn.
  intros Hf Hh. transitivity (foldl (fun a b => u64 (a + b)) 0 (tot_cnt <$> (pcntrng <$> ents))).
  - clear Hf Hh. generalize 0. induction ents; intros; simpl; [done |]. apply IHents.
  - rewrite sum64_ok; [done | done | by apply ents_cnt_nonneg | exact Hh].
Qed.

Lemma rbctl_update_ok N t d :
  data_ok N d -> N < 2 ^ 32 -> time_ok t -> pre_update t d ->
  wp (tfw_apm_rbctl_update cfg t) (fun b d' => data_ok N d' /\ rbctl_exact t d'
    /\ jtmwstamp (rbctl d') = wstart cfg t /\ rdidx d' = rdidx d /\ ubuf d' = ubuf d
    /\ (b = false -> d' = d)
    /\ exists e, rbent d !! Z.to_nat (centry cfg n t) = Some e
         /\ b = negb (jtmwstamp (rbctl d) =? wstart cfg t) || negb (entry_cnt (rbctl d) =? tot_cnt (pcntrng e))) d.
Proof using All.
  intros Hd HN Ht (Hemp & Hpre). pose proof Hd as (Hlen & Hents & Hul & Hub & Ha0 & Ha1 & HNd).
  assert (Hslots : Forall (fun ub => slots_at (centry cfg n t) (active ub)) (ubuf d)).
  { apply Forall_forall. intros ub Hin.
    pose proof (proj1 (Forall_forall _ _) Hub _ Hin). pose proof (proj1 (Forall_forall _ _) Hemp _ Hin).
    by eapply empty_slots_at. }
  pose proof (centry_range t). pose proof (occ_all_nonneg (ubuf d)).
  destruct (lookup_lt_is_Some_2 (rbent d) (Z.to_nat (centry cfg n t))) as [e He]; [lia |].
  pose proof (Forall_lookup_1 _ _ _ _ Hents He) as Heok.
  pose proof (ents_hits_elem _ _ _ Hents He) as Hhe.
  apply wp_bind, wp_get. rewrite Hlen.
  destruct (Z.eqb_spec (jtmwstamp (rbctl d)) (wstart cfg t)) as [Heq | Hne]; simpl negb; cbv iota.
  - destruct (Hpre Heq) as (e0 & He0 & Hst & Hec & Htc & Htc0). rewrite He in He0. injection He0 as <-.
    apply wp_bind, (wp_get_ent _ e); [done |].
    wp_step; bool_hyps.
    + apply wp_ret. split; [done |]. split; [exists e; repeat split; try done; lia |].
      split_and!; try done. exists e. split; [done |]. by rewrite (proj2 (Z.eqb_eq _ _)).
    + apply wp_bind, wp_bug_on; [apply Z.ltb_ge; lia |].
      rewrite (u64_small (tot_cnt _ - _)) by lia. rewrite u64_small by lia.
      apply wp_bind, wp_mod, wp_ret. split; [done |]. split; [exists e; simpl; repeat split; try done; lia |].
      split_and!; try done. exists e. split; [done |]. by rewrite (proj2 (Z.eqb_neq _ _)).
  - destruct (checkreset_ok e (istart cfg t) Heok) as (Heok' & Hst & Hcnt & Hsame).
    set (e' := tfw_apm_rbent_checkreset e (istart cfg t)) in *.
    apply wp_bind, (wp_get_ent _ e); [done |]. apply wp_bind, (wp_put_ent _ e); [done |].
    apply wp_bind, wp_get. apply wp_bind.
    assert (He' : <[Z.to_nat (centry cfg n t) := e']> (rbent d) !! Z.to_nat (centry cfg n t) = Some e')
      by (apply list_lookup_insert_eq; by eapply lookup_lt_Some).
    apply (wp_get_ent _ e'); [done |]. apply wp_bind, wp_mod, wp_ret.
    assert (Hents' : Forall ent_ok (<[Z.to_nat (centry cfg n t) := e']> (rbent d)))
      by (by apply Forall_insert).
    pose proof (ents_hits_insert _ _ _ e' He). pose proof (ents_hits_elem _ _ _ Hents' He').
    unfold e' in *. split; [| split; [| split_and!; try done; by exists e]].
    + unfold data_ok. cbn [rbent rbctl asent0 asent1 ubuf set_rbctl]. rewrite length_insert.
      repeat split; try done. lia.
    + exists (tfw_apm_rbent_checkreset e (istart cfg t)). simpl. repeat split; try done.
      apply sum_ents; [done | lia].
Qed.

Lemma calc_publish_ok N t d :
  data_ok N d -> N < 2 ^ 32 -> rbctl_exact t d ->
  wp calc_publish (fun _ d' => data_ok N d' /\ rbctl_exact t d' /\ rbctl d' = rbctl d
    /\ rdidx d' = u32 (rdidx d + 1) /\ published d') d.
Proof using All.
  intros Hd HN Hex. pose proof Hd as (Hlen & Hents & Hul & Hub & Ha0 & Ha1 & HNd).
  pose proof (ents_hits_nonneg _ Hents). pose proof (occ_all_nonneg (ubuf d)).
  destruct Hex as (e & He & Hst & Hec & Htc & Hsl).
  destruct (prnctl_calc_ok BMAX ltac:(done) (pcntrng <$> rbent d) (total_cnt (rbctl d)) (replicate T_PSZ 0))
    as (val & Hcalc & (_ & Hvl & Hvals) & Hmin & _).
  - rewrite length_fmap, Hlen. apply Hn.
  - done.
  - apply Forall_fmap. eapply Forall_impl; [exact Hents |]. intros x [[Hx _] _]. exact Hx.
  - apply Forall_fmap. eapply Forall_impl; [exact Hents |]. intros x (_ & ? & ? & _). by split.
  - rewrite Htc. unfold ents_hits in *. lia.
  - unfold ents_hits in *. lia.
  - apply wp_bind, wp_get. rewrite Hcalc. apply wp_mod.
    rewrite Htc in Hvals. unfold ents_hits in Hvals.
    assert (Hpub : (forall q, (IDX_ITH <= q < T_PSZ)%nat -> exists v, val !! q = Some v
         /\ (pval (all_hits (pcntrng <$> rbent d)) q = 0 /\ v = 0
           \/ pval (all_hits (pcntrng <$> rbent d)) q <> 0
             /\ percentile (pcntrng <$> rbent d) (pval (all_hits (pcntrng <$> rbent d)) q) v))).
    { intros q Hq. apply Hvals. unfold IDX_ITH, T_PSZ in Hq. lia. }
    unfold data_ok, rbctl_exact, published, tfw_apm_stats.
    destruct (u32 (rdidx d + 1) mod 2 =? 0) eqn:Hpar; simpl; rewrite Hpar; simpl;
      (split; [repeat split; done |]); (split; [by exists e |]); done.
Qed.

(** The percentiles are calculated when the window has moved or responses were recorded since the last run. *)
Definition timer_publishes (t : Z) (d : TfwApmData) : bool :=
  negb (jtmwstamp (rbctl d) =? wstart cfg t) || (0 <? occ_all (ubuf d)).

Lemma timer_ok N now t d :
  data_ok N d -> N < 2 ^ 32 -> rbctl_ok now d -> now <= t -> time_ok t ->
  wp (tfw_apm_prcntl_tmfn cfg t) (fun _ d' => data_ok N d' /\ rbctl_ok t d'
    /\ published d' /\ rdidx d' = (if timer_publishes t d then u32 (rdidx d + 1) else rdidx d)) d.
Proof using All.
  intros Hd HN Hrb Hle Ht. pose proof (rbctl_ok_later _ _ _ Hle Hrb) as Hrb'. clear Hrb.
  pose proof Hd as (Hlen & Hents & Hul & Hub & Ha0 & Ha1 & HNd).
  apply wp_bind, wp_get.
  destruct (wstart_eq t Ht) as [Hws Hw0].
  set (c := if decide (jtmwstamp (rbctl d) = wstart cfg t) then Some (centry cfg n t) else None).
  assert (Hex : jtmwstamp (rbctl d) = wstart cfg t -> rbctl_exact t d /\ published d).
  { intros Heq. destruct Hrb' as [H0 | (T & HT & _ & HsT & HexT)]; [congruence |].
    destruct (wstart_eq T HT) as [HwT _].
    assert (Hist : istart cfg t = istart cfg T) by lia.
    destruct (HexT Hist) as [(e & He & Hj & Hrest) Hpub]. split; [| done].
    exists e. rewrite (centry_istart _ _ Hist), Hist. done. }
  assert (Hz : wp (drain_cpus (ubuf d)) (fun _ d' => occ_all (ubuf d) = 0 -> d' = d) d).
  { destruct (Z.eq_dec (occ_all (ubuf d)) 0) as [E|E]; [eapply wp_mono; [by apply drain_cpus_empty |]; by intros ? ? ? |].
    eapply wp_mono; [apply (drain_cpus_ok None (Z.to_nat (ubufsz cfg))); [done | by rewrite Hlen | done | lia] |]. by intros. }
  apply wp_bind. eapply wp_mono; [apply wp_conj; [| exact Hz] |]; clear Hz.
  { apply (drain_cpus_ok c (Z.to_nat (ubufsz cfg))); [done | by rewrite Hlen | | lia].
    intros c' Hc'. unfold c in Hc'. destruct (decide _) as [Heq |]; [| done]. injection Hc' as <-.
    by destruct (Hex Heq) as [(e & _ & _ & _ & _ & Hsl) _]. }
  intros ubs d1 [(Hlu & Hubs & (Hs1 & Hs2 & Hs3 & Hs4 & Hs5) & Hl1 & Hents1 & Hh1 & Hc1) Hz].
  rewrite Hlen in Hubs. apply Forall_and in Hubs as [Hubok Hubemp].
  apply wp_bind, wp_mod. apply wp_bind.
  set (d2 := MkApm _ _ _ _ _ ubs).
  pose proof (occ_all_nonneg (ubuf d)) as Hocc.
  assert (Hd2 : data_ok N d2).
  { unfold data_ok, d2. simpl. rewrite Hs2, Hs3. repeat split; try done; try congruence.
    assert (occ_all ubs = 0) as ->; [| lia].
    clear -Hubemp. unfold occ_all. induction Hubemp as [|ub ubs He _ IH]; [done |].
    rewrite fmap_cons, zsum_cons, IH. unfold ub_empty in He. simpl. lia. }
  assert (Hcnt : jtmwstamp (rbctl d) = wstart cfg t ->
    exists e1, rbent d2 !! Z.to_nat (centry cfg n t) = Some e1 /\ jtmistamp e1 = istart cfg t
      /\ entry_cnt (rbctl d) + occ_all (ubuf d) = tot_cnt (pcntrng e1) /\ total_cnt (rbctl d) = ents_hits (rbent d)).
  { intros Heq. destruct (Hex Heq) as [(e & He & Hj & Hec & Htc & _) _].
    destruct (Hc1 (centry cfg n t)) with (e := e) as (e1 & He1 & Hj1 & Ht1); [unfold c; by rewrite decide_True | done |].
    exists e1. split_and!; [done | congruence | lia | done]. }
  assert (Hpre : pre_update t d2).
  { split; [done |]. unfold d2 at 1. simpl. rewrite Hs1. intros Heq. destruct (Hcnt Heq) as (e1 & He1 & Hj1 & Ht1 & Ht0).
    pose proof (ents_hits_nonneg _ Hents). exists e1. unfold d2. simpl. rewrite ?Hs1. split; [done |]. split; [done |]. lia. }
  eapply wp_mono; [by apply (rbctl_update_ok N t d2) |].
  intros b d3 (Hd3 & Hex3 & Hjw & Hr3 & _ & Hb0 & e & He & Hb). change (rdidx d2) with (rdidx d1) in Hr3. change (rbctl d2) with (rbctl d1) in Hb.
  rewrite Hs1 in Hb. assert (b = timer_publishes t d) as ->.
  { rewrite Hb. unfold timer_publishes. destruct (Z.eqb_spec (jtmwstamp (rbctl d)) (wstart cfg t)) as [Heq|]; [| done]. cbn [negb orb].
    destruct (Hcnt Heq) as (e1 & He1 & _ & Ht1 & _). rewrite He in He1. injection He1 as <-.
    destruct (Z.ltb_spec 0 (occ_all (ubuf d))); [rewrite (proj2 (Z.eqb_neq _ _)) by lia | rewrite (proj2 (Z.eqb_eq _ _)) by lia]; done. }
  assert (Hok : forall d', rbctl_exact t d' -> published d' -> jtmwstamp (rbctl d') = wstart cfg t -> rbctl_ok t d').
  { intros d' Hx Hp Hj. right. exists t. split; [done |]. split; [lia |]. split; [done |]. done. }
  destruct (timer_publishes t d) eqn:Hp.
  - eapply wp_mono; [by apply (calc_publish_ok N t) |].
    intros _ d4 (Hd4 & Hex4 & Hrb4 & Hr4 & Hpub).
    split; [done |]. split; [apply Hok; [done | done | congruence] |]. split; [done | congruence].
  - apply orb_false_iff in Hp as [Hp1 Hp2]. apply negb_false_iff, Z.eqb_eq in Hp1. apply Z.ltb_ge in Hp2.
    assert (Hpub : published d3).
    { destruct (Hex Hp1) as [_ Hp]. rewrite (Hb0 eq_refl). unfold d2. rewrite (Hz ltac:(lia)). exact Hp. }
    apply wp_ret. split; [done |]. split; [by apply Hok |]. split; [done | congruence].
Qed.

(** Time does not go back; updates come from CPUs that exist. *)
Definition ev_ok (ev : ApmEvent) : Prop :=
  time_ok (ev_time ev)
  /\ match ev with
     | EvUpdate cpu _ rtt => (cpu < ncpu)%nat /\ 0 <= rtt <= RTT_MAX
     | EvTimer _ => True
     end.

Fixpoint evs_ok (now : Z) (evs : list ApmEvent) : Prop :=
  match evs with
  | [] => True
  | ev :: evs => now <= ev_time ev /\ ev_ok ev /\ evs_ok (ev_time ev) evs
  end.

Lemma apm_step_ok N now ev d :
  data_ok N d -> N + 1 < 2 ^ 32 -> rbctl_ok now d -> now <= ev_time ev -> ev_ok ev ->
  wp (apm_step cfg ev) (fun _ d' => data_ok (N + 1) d' /\ rbctl_ok (ev_time ev) d') d.
Proof using All.
  intros Hd HN Hrb Hle [Ht Hev]. destruct ev as [cpu t rtt | t]; simpl in *.
  - destruct Hev as [Hcpu Hrtt].
    eapply wp_mono; [exact (apm_update_ok N now t cpu rtt d Hd Hrb Hle Hcpu Hrtt) |].
    intros _ d' (Hd' & Hr & _). by split.
  - eapply wp_mono; [exact (timer_ok N now t d Hd ltac:(lia) Hrb Hle Ht) |].
    intros _ d' (Hd' & Hr & _).
    split; [| done]. destruct Hd' as (H1 & H2 & H3 & H4 & H5 & H6 & H7).
    refine (conj H1 (conj H2 (conj H3 (conj H4 (conj H5 (conj H6 _)))))). lia.
Qed.

Lemma apm_run_ok evs : forall N now d rest,
  data_ok N d -> N + zlen evs < 2 ^ 32 -> rbctl_ok now d -> evs_ok now (evs ++ rest) ->
  wp (apm_run cfg evs) (fun _ d' => data_ok (N + zlen evs) d'
    /\ exists now', rbctl_ok now' d' /\ evs_ok now' rest) d.
Proof using All.
  induction evs as [|ev evs IH]; intros N now d rest Hd HN Hrb Hevs; simpl.
  - apply wp_ret. unfold zlen. simpl. rewrite Z.add_0_r. split; [done |]. by exists now.
  - destruct Hevs as (Hle & Hev & Hevs). pose proof (zlen_nonneg evs).
    unfold zlen in HN. simpl length in HN.
    apply wp_bind. eapply wp_mono; [apply (apm_step_ok N now ev d Hd ltac:(lia) Hrb Hle Hev) |].
    intros _ d' [Hd' Hrb']. eapply wp_mono; [apply (IH (N + 1) (ev_time ev) d' rest Hd' ltac:(unfold zlen; lia) Hrb' Hevs) |].
    simpl. intros _ d'' [Hd'' Hex]. split; [| done].
    unfold zlen in *. simpl length.
    replace (N + Z.of_nat (S (length evs))) with (N + 1 + Z.of_nat (length evs)) by lia. done.
Qed.

Lemma create_ok : data_ok 0 (tfw_apm_create cfg n ncpu) /\ rbctl_ok 0 (tfw_apm_create cfg n ncpu).
Proof using Hn.
  split; [| by left]. unfold data_ok, tfw_apm_create. simpl. rewrite !length_replicate.
  split; [done |]. split.
  { apply Forall_replicate. split; [apply rng_init_ok; unfold BMAX; lia |].
    simpl. unfold is_u32, UINT_MAX. repeat split; lia. }
  split; [done |]. split.
  { apply Forall_replicate. unfold ub_ok, active, inactive. simpl. rewrite length_replicate.
    split; [done |]. split; [| done]. apply Forall_replicate. by left. }
  split; [done |]. split; [done |].
  assert (Hz : forall m, ents_hits (replicate m (tfw_apm_rbent_init 0)) = 0).
  { intros m. unfold ents_hits, all_hits. induction m; simpl; [done |]. exact IHm. }
  assert (Ho : forall m ub, occ (active ub) = 0 -> occ_all (replicate m ub) = 0).
  { intros m ub H. unfold occ_all. induction m; simpl; [done |].
    change (occ (active ub) + zsum (occ ∘ active <$> replicate m ub) = 0). lia. }
  rewrite Hz, Ho; [done |]. unfold active. simpl. apply occ_empty.
Qed.
End run.

(** C14: For any configured window and number of CPUs, any sequence of recorded responses and
    timer runs, each of them one atomic step, in which time does not go back (fewer than 2^32 of them, response times up to
    32767 ms) executes without a [BUG_ON]: the ranges stay in bounds, the number of hits in the current
    entry never falls behind the remembered one, and the calculation never runs out of hits.  A
    timer run publishes exactly when the window has moved or responses were recorded since the last run; behind every run
    a reader gets the percentiles of all hits in the ring buffer.  When another CPU comes in between the steps of the timer the
    code can run into a [BUG_ON] ([apm_reset_race]), and longer response times give wrong percentiles
    ([percentile_truncated]). *)
Theorem apm_session_safe (cfg : ApmCfg) (n ncpu : nat) (evs : list ApmEvent) (t : Z) :
  (1 <= n <= TFW_APM_MAX_TMWSCALE)%nat ->
  0 < jtmintrvl cfg -> 0 <= jtmwindow cfg -> 0 < ubufsz cfg ->
  evs_ok cfg ncpu 0 (evs ++ [EvTimer t]) -> zlen evs < 2 ^ 32 ->
  exists d d', apm_run cfg evs (tfw_apm_create cfg n ncpu) = Ok (tt, d)
    /\ tfw_apm_prcntl_tmfn cfg t d = Ok (tt, d')
    /\ published d' /\ rdidx d' = (if timer_publishes cfg t d then u32 (rdidx d + 1) else rdidx d).
Proof.
  intros Hn Hi Hw Hsz Hevs Hlen.
  destruct (create_ok cfg n ncpu Hn) as [Hd Hrb].
  destruct (wp_ok _ _ _ (apm_run_ok cfg n ncpu Hn Hi Hw Hsz evs 0 0 _ _ Hd ltac:(lia) Hrb Hevs))
    as ([] & d & He & Hd' & now & Hrb' & Hle & [Ht _] & _).
  destruct (wp_ok _ _ _ (timer_ok cfg n ncpu Hn Hi Hw Hsz _ now t d Hd' ltac:(lia) Hrb' Hle Ht))
    as ([] & d' & He' & _ & _ & Hpub & Hrd).
  by exists d, d'.
Qed.

(** Two CPUs, a window of a minute in two entries. *)
Definition apm_cfg : ApmCfg := MkCfg 60000 30000 50.
Definition apm_evs : list ApmEvent :=
  [EvUpdate 0 1020000 10; EvUpdate 1 1020001 20; EvTimer 1020040; EvUpdate 0 1050003 700;
   EvTimer 1050050; EvUpdate 1 1080000 15].

Lemma apm_session_safe_witness :
  exists d d', apm_run apm_cfg apm_evs (tfw_apm_create apm_cfg 2 2) = Ok (tt, d)
    /\ tfw_apm_prcntl_tmfn apm_cfg 1080050 d = Ok (tt, d')
    /\ published d' /\ rdidx d' = (if timer_publishes apm_cfg 1080050 d then u32 (rdidx d + 1) else rdidx d).
Proof.
  apply (apm_session_safe apm_cfg 2 2 apm_evs 1080050).
  - unfold TFW_APM_MAX_TMWSCALE. lia.
  - simpl. lia.
  - simpl. lia.
  - simpl. lia.
  - simpl. unfold ev_ok, time_ok, RTT_MAX. simpl. repeat split; lia.
  - unfold zlen. simpl. lia.
Defined.

(** ** The settings *)

(** The window of the settings is a whole number of intervals and there are at least two. *)
Lemma apm_cfg_window_ok mj window scale i w sc :
  (forall x, 0 <= x -> 0 <= mj x) -> apm_cfg_window mj window scale = inr (i, w, sc) ->
  TFW_APM_MIN_TMINTRVL <= i /\ w = i * sc /\ 2 <= sc <= Z.of_nat TFW_APM_MAX_TMWSCALE
  /\ mj (window * 1000) <= w.
Proof.
  intros Hmj. unfold apm_cfg_window.
  destruct (_ || _) eqn:H1; [done |]. bool_hyps. destruct (_ || _) eqn:H2; [done |]. bool_hyps.
  unfold TFW_APM_MIN_TMWSCALE, TFW_APM_MIN_TMWINDOW, TFW_APM_MAX_TMWSCALE in *.
  set (sc0 := if scale =? 1 then 2 else scale).
  assert (2 <= sc0 <= 50).
  { unfold sc0. destruct (Z.eqb_spec scale 1); lia. }
  pose proof (Hmj (window * 1000) ltac:(lia)) as Hm. set (m := mj (window * 1000)) in *.
  destruct (_ <? TFW_APM_MIN_TMINTRVL) eqn:Hmin; [done |]. bool_hyps. intros [= <- <- <-].
  split; [done |]. split; [done |]. split; [lia |].
  pose proof (Z.div_mod m sc0 ltac:(lia)). pose proof (Z.mod_pos_bound m sc0 ltac:(lia)).
  destruct (Z.eqb_spec (m mod sc0) 0); nia.
Qed.

(** ** Defects *)

(** The timer is not protected from the reset of an entry.  Here the timer runs at the end of an
    interval; after it has counted the hits of the window, another CPU records the first response of
    the next interval and with it clears the entry that holds most of them.  Alone the timer is
    fine; interleaved it runs out of hits and stops the kernel. *)
Theorem apm_reset_race :
  wp (apm_run apm_cfg [EvUpdate 0 1020000 10; EvUpdate 1 1020001 20; EvTimer 1020040;
                       EvUpdate 0 1079960 10]) (fun _ d =>
    wp (tfw_apm_prcntl_tmfn apm_cfg 1079990) (fun _ _ => True) d
    /\ (ubs <~ drain_cpus (ubuf d) ;;
        put_ubuf ubs ;;;
        tfw_apm_rbctl_update apm_cfg 1079990 ;;;
        __tfw_apm_update apm_cfg 1 1080000 10 ;;;
        calc_publish) d = Bug) (tfw_apm_create apm_cfg 2 2).
Proof. vm_compute. done. Qed.
