(* ===== verification/Window.v ===== *)
(** * Sliding windows on ring buffers

    The rate limits of [fw/http_limits.c] and the health monitor of [fw/apm.c]
    count events in a ring of [F] slots: an event at quantum [ts] goes to slot
    [ts mod F], which is restarted when it still belongs to another quantum, and
    the rate is the sum of the slots whose quantum is less than [F] old.  Here the
    ring is a list of pairs (quantum, counter); the components project their
    records to it.  [window_exact] is the shared fact: as long as time does not go
    back, the sum is the number of events in the last [F] quanta, exactly. *)

From S2P Require Import Prelude.

Abbreviation ring := (list (Z * Z)).

(** [k] events at [ts] (none when another counter of the slot is used). *)
Definition ring_touch (F k ts : Z) (r : ring) : ring :=
  let i := Z.to_nat (ts mod F) in
  match r !! i with
  | Some (T, c) => <[i := (ts, if T =? ts then c + k else k)]> r
  | None => r
  end.

Definition ring_sum (F ts : Z) (r : ring) : Z :=
  zsum ((fun p => if ts <? p.1 + F then p.2 else 0) <$> r).

(** Events of the log at quanta that [P] accepts. *)
Definition count (P : Z -> bool) (log : list Z) : Z :=
  zsum ((fun x => if P x then 1 else 0) <$> log).

(** Events less than [F] quanta before [ts]. *)
Definition window (F ts : Z) (log : list Z) : Z := count (fun x => ts <? x + F) log.

(** ** Counting *)

Lemma count_app P l k : count P (l ++ k) = count P l + count P k.
Proof. unfold count. by rewrite fmap_app, zsum_app. Qed.

Lemma count_nonneg P l : 0 <= count P l.
Proof.
  apply zsum_nonneg, Forall_fmap, Forall_true. intros x. simpl. destruct (P x); lia.
Qed.

Lemma count_le P l : count P l <= zlen l.
Proof.
  unfold count, zlen. induction l as [|x l IH]; [done |].
  rewrite fmap_cons, zsum_cons. simpl length. destruct (P x); lia.
Qed.

Lemma count_ext P Q l : (forall x, x ∈ l -> P x = Q x) -> count P l = count Q l.
Proof.
  intros H. unfold count. induction l as [|x l IH]; [done |]. rewrite !fmap_cons, !zsum_cons.
  rewrite (H x) by apply list_elem_of_here. rewrite IH; [done |].
  intros y Hy. apply H. by apply list_elem_of_further.
Qed.

Lemma count_replicate P n x : P x = true -> count P (replicate n x) = Z.of_nat n.
Proof. intros H. unfold count. induction n; [done |].
  rewrite replicate_S, fmap_cons, zsum_cons, IHn, H. lia. Qed.

Lemma count_replicate_0 P n x : P x = false -> count P (replicate n x) = 0.
Proof. intros H. unfold count. induction n; [done |].
  rewrite replicate_S, fmap_cons, zsum_cons, IHn, H. lia. Qed.

Lemma count_none P l : (forall x, x ∈ l -> P x = false) -> count P l = 0.
Proof.
  intros H. rewrite (count_ext P (fun _ => false)) by done.
  unfold count. induction l; [done |]. rewrite fmap_cons, zsum_cons, IHl; [lia |].
  intros. apply H. by apply list_elem_of_further.
Qed.

(** ** The invariant *)

Section ring.
Context (F : Z) (HF : 0 < F).

(** The slot of residue [i] belongs to the last quantum of that residue in the
    log (0 if there was none) and holds its events. *)
Definition slot_of (log : list Z) (last : Z) (i : nat) (p : Z * Z) : Prop :=
  0 <= p.1 <= last /\ (p.1 = 0 \/ p.1 mod F = Z.of_nat i)
  /\ p.2 = count (fun x => (x =? p.1) && (x mod F =? Z.of_nat i)) log
  /\ (forall x, x ∈ log -> x mod F = Z.of_nat i -> x <= p.1).

Definition ring_ok (log : list Z) (last : Z) (r : ring) : Prop :=
  zlen r = F /\ Forall (fun x => 0 <= x <= last) log
  /\ (forall i p, r !! i = Some p -> slot_of log last i p).

Lemma ring_init : ring_ok [] 0 (replicate (Z.to_nat F) (0, 0)).
Proof using HF.
  split; [unfold zlen; rewrite length_replicate; lia |]. split; [constructor |].
  intros i p Hp. apply lookup_replicate in Hp as [-> _]. simpl.
  split; [simpl; lia |]. split; [by left |]. split; [done |].
  intros x Hx. by apply not_elem_of_nil in Hx.
Qed.

Lemma ring_slot log last r ts :
  ring_ok log last r -> exists T c, r !! Z.to_nat (ts mod F) = Some (T, c).
Proof using HF.
  intros [Hl _]. pose proof (Z.mod_pos_bound ts F HF).
  destruct (lookup_lt_is_Some_2 r (Z.to_nat (ts mod F))) as [[T c] H']; [unfold zlen in Hl; lia |].
  eauto.
Qed.

Lemma ring_touch_ok k log last ts r :
  ring_ok log last r -> last <= ts -> 0 <= last ->
  ring_ok (log ++ replicate k ts) ts (ring_touch F (Z.of_nat k) ts r).
Proof using HF.
  intros Hr Hts Hlast. pose proof Hr as (Hl & Hlog & Hs).
  pose proof (Z.mod_pos_bound ts F HF) as Hm.
  destruct (ring_slot _ _ _ ts Hr) as (T & c & Hi).
  unfold ring_touch. rewrite Hi.
  split; [unfold zlen in *; by rewrite length_insert |]. split.
  { apply Forall_app. split; [eapply Forall_impl; [exact Hlog | simpl; lia] |].
    apply Forall_replicate. lia. }
  intros i p Hp. destruct (decide (i = Z.to_nat (ts mod F))) as [-> | Hne].
  - rewrite list_lookup_insert_eq in Hp by (by eapply lookup_lt_Some). injection Hp as <-.
    destruct (Hs _ _ Hi) as (HT & Hres & Hc & Hmax). simpl in *.
    split; [simpl; lia |]. cbn [fst snd]. rewrite Z2Nat.id by lia.
    split; [by right |]. split.
    + rewrite count_app, count_replicate by (by rewrite !Z.eqb_refl).
      rewrite Z2Nat.id in Hc by lia.
      destruct (Z.eqb_spec T ts) as [-> | Hn]; [lia |].
      rewrite count_none; [lia |]. intros x Hx.
      destruct (Z.eqb_spec x ts) as [-> |]; [| done]. simpl.
      rewrite Z2Nat.id in Hmax by lia. specialize (Hmax ts Hx eq_refl). lia.
    + intros x Hx _. apply elem_of_app in Hx as [Hx | Hx].
      * pose proof (proj1 (Forall_forall _ _) Hlog x Hx). simpl in *. lia.
      * apply elem_of_replicate in Hx as [-> _]. lia.
  - rewrite list_lookup_insert_ne in Hp by done.
    destruct (Hs _ _ Hp) as (HT & Hres & Hc & Hmax).
    assert (Hneq : ts mod F <> Z.of_nat i) by lia.
    split; [lia |]. split; [done |]. split.
    + rewrite count_app, count_replicate_0; [lia |].
      destruct (Z.eqb_spec (ts mod F) (Z.of_nat i)); [done | apply andb_false_r].
    + intros x Hx Hxi. apply elem_of_app in Hx as [Hx | Hx]; [by apply Hmax |].
      by apply elem_of_replicate in Hx as [-> _].
Qed.

(** The slot of the current quantum holds the events of this quantum. *)
Lemma ring_burst log last ts c r :
  ring_ok log last r -> r !! Z.to_nat (ts mod F) = Some (ts, c) -> c = count (fun x => x =? ts) log.
Proof using HF.
  intros (_ & _ & Hs) Hj. destruct (Hs _ _ Hj) as (_ & _ & Hc & _). simpl in Hc.
  rewrite Hc. apply count_ext. intros x _. destruct (Z.eqb_spec x ts) as [-> |]; [| done].
  pose proof (Z.mod_pos_bound ts F HF). rewrite Z2Nat.id by lia. by rewrite Z.eqb_refl.
Qed.

(** ** The sum *)

Lemma zsum_single n i v :
  (i < n)%nat -> zsum ((fun j => if (j =? i)%nat then v else 0) <$> seq 0 n) = v.
Proof using.
  intros Hi. replace n with (i + (1 + (n - i - 1)))%nat by lia.
  rewrite seq_app, fmap_app, zsum_app. cbn [plus seq]. rewrite fmap_cons, Nat.eqb_refl, zsum_cons.
  assert (Hz : forall a m, (a + m <= i \/ i < a)%nat ->
             zsum ((fun j => if (j =? i)%nat then v else 0) <$> seq a m) = 0).
  { intros a m. revert a. induction m as [|m IH]; intros a Ha; [done |].
    cbn [seq]. rewrite fmap_cons, zsum_cons, IH by lia. destruct (Nat.eqb_spec a i); lia. }
  rewrite !Hz by lia. lia.
Qed.

Lemma zsum_imap_ext {A} (f : nat -> Z) (g : A -> Z) (l : list A) :
  (forall i x, l !! i = Some x -> g x = f i) -> zsum (g <$> l) = zsum (f <$> seq 0 (length l)).
Proof using.
  revert f. induction l as [|x l IH]; intros f H; [done |].
  cbn [length seq]. rewrite !fmap_cons, !zsum_cons. rewrite (H 0%nat x eq_refl). f_equal.
  rewrite <- fmap_S_seq, <- list_fmap_compose. apply IH. intros i y Hy. by apply (H (S i)).
Qed.

Lemma zsum_swap (f : nat -> Z -> Z) (js : list nat) (log : list Z) :
  zsum ((fun j => zsum ((fun x => f j x) <$> log)) <$> js)
  = zsum ((fun x => zsum ((fun j => f j x) <$> js)) <$> log).
Proof using.
  induction js as [|j js IH].
  - induction log as [|x log IHl]; [done |]. rewrite fmap_cons, zsum_cons, <- IHl. done.
  - rewrite fmap_cons, zsum_cons, IH. clear IH. induction log as [|x log IHl]; [done |].
    rewrite !fmap_cons, !zsum_cons. lia.
Qed.

(** The sum of the ring is the number of events in the window. *)
Lemma window_exact log ts r :
  ring_ok log ts r -> ring_sum F ts r = window F ts log.
Proof using HF.
  intros Hr. pose proof Hr as (Hl & Hlog & Hs). unfold ring_sum.
  set (T := fun i => match r !! i with Some p => fst p | None => 0 end).
  rewrite (zsum_imap_ext (fun i => zsum ((fun x =>
    if (ts <? T i + F) && ((x =? T i) && (x mod F =? Z.of_nat i)) then 1 else 0) <$> log))).
  - rewrite zsum_swap. unfold window, count. f_equal. apply list_fmap_ext.
    intros j x Hx. assert (Hin : x ∈ log) by (by eapply list_elem_of_lookup_2).
    pose proof (proj1 (Forall_forall _ _) Hlog x Hin) as Hxb. simpl in Hxb.
    pose proof (Z.mod_pos_bound x F HF) as Hm.
    rewrite <- (zsum_single (length r) (Z.to_nat (x mod F)) (if ts <? x + F then 1 else 0)) at 1
      by (unfold zlen in Hl; lia).
    f_equal. apply list_fmap_ext. intros _ i _.
    destruct (Nat.eqb_spec i (Z.to_nat (x mod F))) as [-> | Hne].
    + rewrite Z2Nat.id, Z.eqb_refl by lia. rewrite andb_true_r.
      destruct (ring_slot _ _ _ x Hr) as (Tx & c & Hi). unfold T. rewrite Hi. simpl.
      destruct (Hs _ _ Hi) as (HT & Hres & _ & Hmax). simpl in *.
      rewrite Z2Nat.id in Hres, Hmax by lia. specialize (Hmax x Hin eq_refl).
      destruct (Z.eqb_spec x Tx) as [-> | Hn]; [by rewrite andb_true_r |].
      rewrite andb_false_r. destruct (Z.ltb_spec ts (x + F)); [| done]. exfalso.
      destruct Hres as [-> | Hres]; [lia |].
      (* two quanta of a residue that are less than [F] apart are equal *)
      pose proof (Z.div_mod Tx F ltac:(lia)). pose proof (Z.div_mod x F ltac:(lia)).
      assert (Tx / F = x / F) by nia. lia.
    + destruct (Z.eqb_spec (x mod F) (Z.of_nat i)); [lia |]. by rewrite !andb_false_r.
  - intros i p Hp. destruct (Hs _ _ Hp) as (_ & _ & Hc & _). unfold T. rewrite Hp, Hc.
    destruct (ts <? p.1 + F); [done |]. simpl.
    clear. induction log as [|x log IH]; [done |]. by rewrite fmap_cons, zsum_cons, <- IH.
Qed.

(** A slot exactly [F] quanta old has been restarted by the current event, so that the
    two ways to compare agree. *)
Definition ring_sum_ge (ts : Z) (r : ring) : Z :=
  zsum ((fun p => if ts <=? p.1 + F then p.2 else 0) <$> r).

Lemma ring_sum_ge_eq log ts c r :
  ring_ok log ts r -> 0 < ts -> r !! Z.to_nat (ts mod F) = Some (ts, c) ->
  ring_sum_ge ts r = ring_sum F ts r.
Proof using HF.
  intros (Hl & Hlog & Hs) Hts Hi. unfold ring_sum_ge, ring_sum. f_equal.
  apply list_fmap_ext. intros i p Hp.
  destruct (Hs _ _ Hp) as (HT & Hres & Hc & Hmax).
  pose proof (Z.mod_pos_bound ts F HF).
  destruct (Z.leb_spec ts (p.1 + F)) as [Hle | Hgt], (Z.ltb_spec ts (p.1 + F)) as [Hlt | Hge]; try lia.
  assert (Heq : p.1 = ts - F) by lia.
  assert (Hmod : p.1 mod F = ts mod F).
  { rewrite Heq. replace (ts - F) with (ts + (-1) * F) by lia. apply Z_mod_plus_full. }
  destruct (decide (i = Z.to_nat (ts mod F))) as [-> | Hne]; [rewrite Hi in Hp; injection Hp as <-; simpl in *; lia |].
  destruct Hres as [H0 | Hres]; [| lia].
  rewrite Hc. apply count_none. intros x _.
  destruct (Z.eqb_spec x p.1) as [-> |]; [| done]. simpl. apply Z.eqb_neq. lia.
Qed.

(** Rings of the same quanta with larger counters. *)
Definition ring_le (r r' : ring) : Prop := Forall2 (fun p q => p.1 = q.1 /\ 0 <= p.2 <= q.2) r r'.

Lemma ring_le_sum ts r r' : ring_le r r' -> ring_sum F ts r <= ring_sum_ge ts r'.
Proof using HF.
  unfold ring_sum, ring_sum_ge. induction 1 as [|p q r r' [Hp Hq] _ IH]; [done |].
  rewrite !fmap_cons, !zsum_cons. rewrite Hp.
  destruct (Z.ltb_spec ts (q.1 + F)), (Z.leb_spec ts (q.1 + F)); lia.
Qed.

Lemma ring_le_touch k ts r r' i p :
  ring_le r r' -> 0 <= k -> i = Z.to_nat (ts mod F) -> r' !! i = Some p ->
  forall c, (if p.1 =? ts then p.2 + k else k) <= c ->
  ring_le (ring_touch F k ts r) (<[i := (ts, c)]> r').
Proof using.
  intros Hle Hk -> Hi c Hc. unfold ring_touch.
  destruct (Forall2_lookup_r _ _ _ _ _ Hle Hi) as ([T d] & Hd & HT & Hdp). simpl in *.
  rewrite Hd. apply Forall2_insert; [done |]. simpl. split; [done |]. rewrite HT.
  destruct (p.1 =? ts); lia.
Qed.

Lemma ring_ok_le log last r : ring_ok log last r -> ring_le r r.
Proof using.
  intros (_ & _ & Hs). apply Forall2_same_length_lookup_2; [done |].
  intros i p q Hp Hq. simplify_eq. split; [done |].
  destruct (Hs _ _ Hp) as (_ & _ & -> & _). pose proof (count_nonneg (fun x => (x =? p.1) && (x mod F =? Z.of_nat i)) log). lia.
Qed.

(** Slots of the ring count at most the events of the log. *)
Lemma ring_counts log last r : ring_ok log last r -> Forall (fun p => 0 <= p.2 <= zlen log) r.
Proof using.
  intros (_ & _ & Hs). apply Forall_lookup_2. intros i p Hp.
  destruct (Hs _ _ Hp) as (_ & _ & -> & _). split; [apply count_nonneg | apply count_le].
Qed.
End ring.
