(* ===== verification/Frang.v ===== *)
(** * Frang: rate limits of clients ([fw/http_limits.c])

    Every client has an account [FrangAcc] with a ring of eight slots per second
    for new connections, requests and TLS handshakes, and a ring for responses
    with suspicious codes.  The definitions are the accounting functions with their
    verdicts, and the handlers that call them; a failed [BUG_ON] is [Bug].  The
    specification of a client is the log of what it did, and a verdict is a
    statement about the log: how many events in the current quantum, how many in
    the last second.  [frang_limits_refine] relates the two through the theory of
    [Window.v].

    [HZ] and [jiffies] are the kernel's: a parameter and an argument. *)

From Stdlib Require Import Sorted.
From S2P Require Import Prelude Window.

(** ** Data *)

Definition TFW_PASS : Z := 0.
Definition TFW_BLOCK : Z := -2.
Definition TFW_POSTPONE : Z := -1.

Definition FRANG_FREQ : Z := 8.

Record FrangRates := MkRates {
  h_ts : Z;
  conn_new : Z;
  req : Z;
  tls_sess_new : Z;
  tls_sess_incomplete : Z
}.

Record FrangRespCodeStat := MkStat { s_cnt : Z; s_ts : Z }.

Record FrangAcc := MkAcc {
  conn_curr : Z;
  history : list FrangRates;
  resp_code_stat : list FrangRespCodeStat
}.

(** The limits of [FrangGlobCfg] on rates; 0 is no limit. *)
Record FrangGlobCfg := MkGlob {
  clnt_hdr_timeout : Z;
  clnt_body_timeout : Z;
  req_rate : Z;
  req_burst : Z;
  conn_rate : Z;
  conn_burst : Z;
  conn_max : Z;
  tls_new_conn_rate : Z;
  tls_new_conn_burst : Z;
  tls_incomplete_conn_rate : Z;
  http_hchunk_cnt : Z;
  http_bchunk_cnt : Z;
  ip_block : bool
}.

Record FrangHttpRespCodeBlock := MkCBlk {
  codes : Z -> bool;
  cb_limit : Z;
  cb_tf : Z
}.

(** The results of a TLS handshake, [TTLS_HS_CB_*]; other numbers are unknown. *)
Inductive HsState :=
| TTLS_HS_CB_FINISHED_NEW
| TTLS_HS_CB_FINISHED_RESUMED
| TTLS_HS_CB_INCOMPLETE
| HS_UNKNOWN.

Definition frang_acc_init : FrangAcc :=
  MkAcc 0 (replicate 8 (MkRates 0 0 0 0 0)) (replicate 8 (MkStat 0 0)).

Abbreviation FM := (SM FrangAcc).

Definition get_hist (i : nat) : FM FrangRates := fun ra =>
  match history ra !! i with Some h => Ok (h, ra) | None => Bug end.

Definition put_hist (i : nat) (h : FrangRates) : FM unit := fun ra =>
  match history ra !! i with
  | Some _ => Ok (tt, MkAcc (conn_curr ra) (<[i := h]> (history ra)) (resp_code_stat ra))
  | None => Bug
  end.

Definition set_conn_curr (n : Z) : FM unit :=
  sm_mod (fun ra => MkAcc n (history ra) (resp_code_stat ra)).

(** [lim && val > lim] *)
Definition over (lim val : Z) : bool := negb (lim =? 0) && (lim <? val).

Definition frang_time_in_frame (tcur tprev : Z) : bool := tcur <? u64 (tprev + FRANG_FREQ).

(** The sum of the slots that [in_frame] accepts, in [width]. *)
Definition hist_sum (width : Z -> Z) (in_frame : Z -> bool) (f : FrangRates -> Z)
    (l : list FrangRates) : Z :=
  foldl (fun a h => if in_frame (h_ts h) then width (a + f h) else a) 0 l.

Section frang.
Context (HZ : Z).

Definition frang_quantum (jiffies : Z) : Z := u64 (jiffies * FRANG_FREQ) / HZ.

(** ** Connections *)

Definition frang_conn_limit (conf : FrangGlobCfg) (jiffies : Z) : FM Z :=
  let ts := frang_quantum jiffies in
  let i := Z.to_nat (ts mod FRANG_FREQ) in
  h <~ get_hist i ;;
  let h := if h_ts h =? ts then h else MkRates ts 0 0 0 0 in
  let h := MkRates (h_ts h) (u32 (conn_new h + 1)) (req h) (tls_sess_new h)
                   (tls_sess_incomplete h) in
  put_hist i h ;;;
  ra <~ sm_get ;;
  set_conn_curr (u32 (conn_curr ra + 1)) ;;;
  ra <~ sm_get ;;
  if over (conn_max conf) (conn_curr ra) then sm_ret TFW_BLOCK
  else if over (conn_burst conf) (conn_new h) then sm_ret TFW_BLOCK
  else
    let csum := hist_sum u32 (fun T => ts <=? u64 (T + FRANG_FREQ)) conn_new (history ra) in
    if over (conn_rate conf) csum then sm_ret TFW_BLOCK else sm_ret TFW_PASS.

(** A verdict with its side effects: blocking the address, dropping the reference. *)
Record FrangVerdict := MkVerdict { v_r : Z; v_block_ip : bool; v_put : bool }.

(** [vh] are the settings of the default virtual host and [cli] says that the
    client could be obtained. *)
Definition frang_conn_new (vh : option FrangGlobCfg) (cli : bool) (jiffies : Z) : FM FrangVerdict :=
  match vh with
  | None => sm_ret (MkVerdict TFW_BLOCK false false)
  | Some conf =>
      if negb cli then sm_ret (MkVerdict TFW_BLOCK false false)
      else
        r <~ frang_conn_limit conf jiffies ;;
        let b := (r =? TFW_BLOCK) && ip_block conf in
        sm_ret (MkVerdict r b b)
  end.

(** [user_data] and [security] are the pointers of the socket; the result says
    that the reference to the client is dropped. *)
Definition frang_conn_close (user_data security : bool) : FM bool :=
  if negb user_data then sm_ret false
  else
    bug_on (negb security) ;;;
    ra <~ sm_get ;;
    bug_on (conn_curr ra =? 0) ;;;
    set_conn_curr (conn_curr ra - 1) ;;;
    sm_ret true.

(** ** Requests *)

Definition frang_req_limit (burst rate jiffies : Z) : FM Z :=
  let ts := frang_quantum jiffies in
  let i := Z.to_nat (ts mod FRANG_FREQ) in
  if (burst =? 0) && (rate =? 0) then sm_ret TFW_PASS
  else
    h <~ get_hist i ;;
    let h := if h_ts h =? ts then h
             else MkRates ts 0 0 (tls_sess_new h) (tls_sess_incomplete h) in
    let h := MkRates (h_ts h) (conn_new h) (u32 (req h + 1)) (tls_sess_new h)
                     (tls_sess_incomplete h) in
    put_hist i h ;;;
    if over burst (req h) then sm_ret TFW_BLOCK
    else
      ra <~ sm_get ;;
      let rsum := hist_sum u32 (frang_time_in_frame ts) req (history ra) in
      if over rate rsum then sm_ret TFW_BLOCK else sm_ret TFW_PASS.

(** ** TLS handshakes *)

Definition frang_tls_conn_limit (conf : FrangGlobCfg) (hs_state : HsState) (jiffies : Z) : FM Z :=
  let ts := frang_quantum jiffies in
  let i := Z.to_nat (ts mod FRANG_FREQ) in
  h <~ get_hist i ;;
  let h := if h_ts h =? ts then h else MkRates ts 0 0 0 0 in
  put_hist i h ;;;
  match hs_state with
  | HS_UNKNOWN => sm_ret TFW_BLOCK
  | _ =>
      put_hist i (match hs_state with
                  | TTLS_HS_CB_FINISHED_NEW =>
                      MkRates (h_ts h) (conn_new h) (req h) (u32 (tls_sess_new h + 1))
                              (tls_sess_incomplete h)
                  | TTLS_HS_CB_INCOMPLETE =>
                      MkRates (h_ts h) (conn_new h) (req h) (tls_sess_new h)
                              (u32 (tls_sess_incomplete h + 1))
                  | _ => h
                  end) ;;;
      ra <~ sm_get ;;
      let in_frame T := ts <=? u64 (T + FRANG_FREQ) in
      let sum_new := hist_sum u64 in_frame tls_sess_new (history ra) in
      let sum_incomplete := hist_sum u64 in_frame tls_sess_incomplete (history ra) in
      match hs_state with
      | TTLS_HS_CB_FINISHED_NEW =>
          if over (tls_new_conn_rate conf) sum_new then sm_ret TFW_BLOCK
          else if over (tls_new_conn_burst conf) sum_new then sm_ret TFW_BLOCK
          else sm_ret TFW_PASS
      | TTLS_HS_CB_INCOMPLETE =>
          if over (tls_incomplete_conn_rate conf) sum_incomplete then sm_ret TFW_BLOCK
          else sm_ret TFW_PASS
      | _ => sm_ret TFW_PASS
      end
  end.

Definition frang_tls_handler (vh : option FrangGlobCfg) (hs_state : HsState) (jiffies : Z)
    : FM FrangVerdict :=
  match vh with
  | None => sm_ret (MkVerdict TFW_BLOCK false false)
  | Some conf =>
      r <~ frang_tls_conn_limit conf hs_state jiffies ;;
      sm_ret (MkVerdict r ((r =? TFW_BLOCK) && ip_block conf) false)
  end.
End frang.

(** ** Response codes *)

(** The quantum is an [unsigned int]; a zero time frame is a division by zero. *)
Definition frang_resp_quantum (tframe jiffies : Z) : outcome Z :=
  if tframe =? 0 then Bug else Ok (u32 (jiffies / tframe)).

Definition frang_resp_code_limit (cblk : FrangHttpRespCodeBlock) (jiffies : Z) : FM Z := fun ra =>
  match frang_resp_quantum (cb_tf cblk) jiffies with
  | Bug => Bug
  | Ok ts =>
      let i := Z.to_nat (ts mod FRANG_FREQ) in
      match resp_code_stat ra !! i with
      | None => Bug
      | Some s =>
          let s := if ts =? s_ts s then MkStat (u32 (s_cnt s + 1)) (s_ts s) else MkStat 1 ts in
          let stat := <[i := s]> (resp_code_stat ra) in
          let cnt := foldl (fun a s => if frang_time_in_frame ts (s_ts s) then u64 (a + s_cnt s) else a)
                           0 stat in
          Ok (if cb_limit cblk <? cnt then TFW_BLOCK else TFW_PASS,
              MkAcc (conn_curr ra) (history ra) stat)
      end
  end.

Definition HTTP_CODE_MIN : Z := 100.
Definition HTTP_CODE_MAX : Z := 599.
Definition tfw_http_resp_code_range (n : Z) : bool := (n <=? HTTP_CODE_MAX) && (HTTP_CODE_MIN <=? n).

(** [conn] says that the request came from a client, [conf] is the setting of its
    location and [blk] the global [ip_block]. *)
Definition frang_resp_fwd_process (conn : bool) (conf : option FrangHttpRespCodeBlock) (blk : bool)
    (status jiffies : Z) : FM FrangVerdict :=
  match conn, conf with
  | true, Some cblk =>
      if negb (tfw_http_resp_code_range status) || negb (codes cblk (status - HTTP_CODE_MIN))
      then sm_ret (MkVerdict TFW_PASS false false)
      else
        r <~ frang_resp_code_limit cblk jiffies ;;
        sm_ret (MkVerdict r ((r =? TFW_BLOCK) && blk) false)
  | _, _ => sm_ret (MkVerdict TFW_PASS false false)
  end.

(** The stored time frame of a setting of [tf] seconds
    ([__tfw_cfgop_frang_rsp_code_block()]): an [unsigned short]. *)
Definition rsp_code_block_tf (HZ tf : Z) : Z := u16 (tf * HZ / FRANG_FREQ).

(** ** What a client did, and the verdicts it deserves *)

Record ClientLog := MkLog {
  l_conns : list Z;
  l_reqs : list Z;
  l_news : list Z;
  l_incs : list Z;
  l_curr : Z
}.

Inductive FrangEv := FConn | FClose | FReq | FTls (hs : HsState).

Definition block_if (b : bool) : Z := if b then TFW_BLOCK else TFW_PASS.

(** A burst is the number of events in the current quantum, a rate the number in
    the last [FRANG_FREQ] quanta. *)
Definition burst_of (ts : Z) (log : list Z) : Z := count (fun x => x =? ts) log.
Definition rate_of (ts : Z) (log : list Z) : Z := window FRANG_FREQ ts log.

Definition spec_step (conf : FrangGlobCfg) (ev : FrangEv) (ts : Z) (L : ClientLog) : Z * ClientLog :=
  match ev with
  | FConn =>
      let conns := l_conns L ++ [ts] in
      (block_if (over (conn_max conf) (l_curr L + 1) || over (conn_burst conf) (burst_of ts conns)
                 || over (conn_rate conf) (rate_of ts conns)),
       MkLog conns (l_reqs L) (l_news L) (l_incs L) (l_curr L + 1))
  | FClose => (TFW_PASS, MkLog (l_conns L) (l_reqs L) (l_news L) (l_incs L) (l_curr L - 1))
  | FReq =>
      if (req_burst conf =? 0) && (req_rate conf =? 0) then (TFW_PASS, L)
      else
        let reqs := l_reqs L ++ [ts] in
        (block_if (over (req_burst conf) (burst_of ts reqs) || over (req_rate conf) (rate_of ts reqs)),
         MkLog (l_conns L) reqs (l_news L) (l_incs L) (l_curr L))
  | FTls TTLS_HS_CB_FINISHED_NEW =>
      let news := l_news L ++ [ts] in
      (block_if (over (tls_new_conn_rate conf) (rate_of ts news)
                 || over (tls_new_conn_burst conf) (burst_of ts news)),
       MkLog (l_conns L) (l_reqs L) news (l_incs L) (l_curr L))
  | FTls TTLS_HS_CB_INCOMPLETE =>
      let incs := l_incs L ++ [ts] in
      (block_if (over (tls_incomplete_conn_rate conf) (rate_of ts incs)),
       MkLog (l_conns L) (l_reqs L) (l_news L) incs (l_curr L))
  | FTls TTLS_HS_CB_FINISHED_RESUMED => (TFW_PASS, L)
  | FTls HS_UNKNOWN => (TFW_BLOCK, L)
  end.

(** The code on the same events. *)
Definition frang_step (HZ : Z) (conf : FrangGlobCfg) (ev : FrangEv) (jiffies : Z) : FM Z :=
  match ev with
  | FConn => frang_conn_limit HZ conf jiffies
  | FClose => frang_conn_close true true ;;; sm_ret TFW_PASS
  | FReq => frang_req_limit HZ (req_burst conf) (req_rate conf) jiffies
  | FTls hs => frang_tls_conn_limit HZ conf hs jiffies
  end.

(** ** Sums of the history *)

Definition proj (f : FrangRates -> Z) (l : list FrangRates) : ring := (fun h => (h_ts h, f h)) <$> l.

Lemma proj_insert f i h l : proj f (<[i := h]> l) = <[i := (h_ts h, f h)]> (proj f l).
Proof. unfold proj. by rewrite list_fmap_insert. Qed.

Lemma proj_lookup f i h l : l !! i = Some h -> proj f l !! i = Some (h_ts h, f h).
Proof. intros H. unfold proj. by rewrite list_lookup_fmap, H. Qed.

(** The update of a slot, seen by one of its counters. *)
Lemma proj_touch f k ts h h' l i :
  i = Z.to_nat (ts mod FRANG_FREQ) -> l !! i = Some h -> h_ts h' = ts ->
  f h' = (if h_ts h =? ts then f h + k else k) ->
  proj f (<[i := h']> l) = ring_touch FRANG_FREQ k ts (proj f l).
Proof.
  intros -> Hh Hts Hf. unfold ring_touch. rewrite (proj_lookup f _ h) by done.
  by rewrite proj_insert, Hts, Hf.
Qed.

Lemma hist_sum_eq w inf f l M :
  (forall z, 0 <= z < M -> w z = z) -> Forall (fun h => 0 <= f h) l -> zsum (f <$> l) < M ->
  hist_sum w inf f l = zsum ((fun h => if inf (h_ts h) then f h else 0) <$> l).
Proof.
  intros Hw Hf Hlt. unfold hist_sum.
  assert (Hgen : forall a, 0 <= a -> a + zsum (f <$> l) < M ->
    foldl (fun a h => if inf (h_ts h) then w (a + f h) else a) a l
    = a + zsum ((fun h => if inf (h_ts h) then f h else 0) <$> l)).
  { clear Hlt. induction l as [|h l IH]; intros a Ha Hlt; [simpl; lia |].
    apply Forall_cons in Hf as [Hh Hf]. rewrite fmap_cons, zsum_cons in *. simpl.
    assert (0 <= zsum (f <$> l)) by (apply zsum_nonneg, Forall_fmap; done).
    destruct (inf (h_ts h)); [rewrite Hw by lia |]; rewrite IH by (done || lia); lia. }
  apply (Hgen 0); lia.
Qed.

Lemma sum_slots (f : FrangRates -> Z) N l :
  length l = 8%nat -> Forall (fun h => 0 <= f h <= N) l -> zsum (f <$> l) <= 8 * N.
Proof.
  intros Hl Hf. replace (8 * N) with (Z.of_nat (length l) * N) by (rewrite Hl; lia). clear Hl.
  induction Hf as [|h l Hh _ IH]; [done |]. rewrite fmap_cons, zsum_cons. simpl length. lia.
Qed.

Lemma proj_counts f log last N l :
  ring_ok FRANG_FREQ log last (proj f l) -> zlen log <= N -> Forall (fun h => 0 <= f h <= N) l.
Proof.
  intros Hr HN. apply ring_counts in Hr. unfold proj in Hr. apply Forall_fmap in Hr.
  eapply Forall_impl; [exact Hr |]. simpl. lia.
Qed.

Definition time63 (ts : Z) : Prop := 0 < ts < 2 ^ 63.

Lemma ring_times log last l f :
  ring_ok FRANG_FREQ log last (proj f l) -> Forall (fun h => 0 <= h_ts h <= last) l.
Proof.
  intros (_ & _ & Hs). apply Forall_lookup_2. intros i h Hh.
  destruct (Hs _ _ (proj_lookup f _ _ _ Hh)) as (HT & _). exact HT.
Qed.

(** [frang_time_in_frame()] on slots of the past. *)
Lemma sum_in_frame f log ts l N :
  ring_ok FRANG_FREQ log ts (proj f l) -> time63 ts -> zlen log <= N -> N < 2 ^ 28 -> length l = 8%nat ->
  hist_sum u32 (frang_time_in_frame ts) f l = rate_of ts log.
Proof.
  intros Hr Hts HN HNb Hl. pose proof (proj_counts _ _ _ _ _ Hr HN) as Hc.
  pose proof (sum_slots f N l Hl Hc).
  rewrite (hist_sum_eq _ _ _ _ (2 ^ 32)); [| intros; by apply u32_small | | lia].
  - unfold rate_of. rewrite <- (window_exact FRANG_FREQ ltac:(done) log ts (proj f l) Hr).
    unfold ring_sum, proj. rewrite <- list_fmap_compose. f_equal. apply list_fmap_ext.
    intros i h Hh. simpl. unfold frang_time_in_frame.
    pose proof (Forall_lookup_1 _ _ _ _ (ring_times _ _ _ _ Hr) Hh) as HT. simpl in HT.
    unfold time63, FRANG_FREQ in *. by rewrite u64_small by lia.
  - eapply Forall_impl; [exact Hc |]. simpl. lia.
Qed.

(** The comparison of connections and handshakes. *)
Lemma sum_frame_ge w f ts l N M :
  (forall z, 0 <= z < M -> w z = z) -> 8 * N < M ->
  Forall (fun h => 0 <= f h <= N) l -> Forall (fun h => 0 <= h_ts h <= ts) l ->
  time63 ts -> length l = 8%nat ->
  hist_sum w (fun T => ts <=? u64 (T + FRANG_FREQ)) f l = ring_sum_ge FRANG_FREQ ts (proj f l).
Proof.
  intros Hw HM Hc HT Hts Hl. pose proof (sum_slots f N l Hl Hc).
  rewrite (hist_sum_eq _ _ _ _ M); [| done | | lia].
  - unfold ring_sum_ge, proj. rewrite <- list_fmap_compose. f_equal. apply list_fmap_ext.
    intros i h Hh. simpl. pose proof (Forall_lookup_1 _ _ _ _ HT Hh) as HTi. simpl in HTi.
    unfold time63, FRANG_FREQ in *. by rewrite u64_small by lia.
  - eapply Forall_impl; [exact Hc |]. simpl. lia.
Qed.

(** ** The relation between an account and a log *)

(** A counter that may be too large, never too small. *)
Definition at_least (log : list Z) (last : Z) (r : ring) : Prop :=
  exists r0, ring_ok FRANG_FREQ log last r0 /\ ring_le r0 r.

Definition logs_le (N : Z) (L : ClientLog) : Prop :=
  zlen (l_conns L) <= N /\ zlen (l_reqs L) <= N /\ zlen (l_news L) <= N /\ zlen (l_incs L) <= N.

Definition rings_ok (N last : Z) (L : ClientLog) (hist : list FrangRates) : Prop :=
  length hist = 8%nat
  /\ ring_ok FRANG_FREQ (l_conns L) last (proj conn_new hist)
  /\ ring_ok FRANG_FREQ (l_reqs L) last (proj req hist)
  /\ at_least (l_news L) last (proj tls_sess_new hist)
  /\ at_least (l_incs L) last (proj tls_sess_incomplete hist)
  /\ Forall (fun h => 0 <= tls_sess_new h <= N /\ 0 <= tls_sess_incomplete h <= N) hist
  /\ logs_le N L.

Definition acc_ok (N last : Z) (L : ClientLog) (ra : FrangAcc) : Prop :=
  rings_ok N last L (history ra) /\ conn_curr ra = l_curr L /\ 0 <= l_curr L <= N.

Lemma FRANG_FREQ_pos : 0 < FRANG_FREQ.
Proof. done. Qed.

Lemma hist_slot N last L hist ts :
  rings_ok N last L hist -> exists h, hist !! Z.to_nat (ts mod FRANG_FREQ) = Some h.
Proof.
  intros (Hl & _). pose proof (Z.mod_pos_bound ts FRANG_FREQ FRANG_FREQ_pos) as Hm.
  apply lookup_lt_is_Some_2. rewrite Hl. unfold FRANG_FREQ in *. lia.
Qed.

Lemma zlen_replicate_le (log : list Z) (k : nat) ts N :
  zlen log <= N -> (k <= 1)%nat -> zlen (log ++ replicate k ts) <= N + 1.
Proof. intros. rewrite zlen_app. unfold zlen in *. rewrite length_replicate. lia. Qed.

(** A slot is updated by an event with [kc] connections, [kr] requests, [kn] and [ki]
    handshakes. *)
Lemma rings_step N last L hist ts h h' (kc kr kn ki : nat) :
  rings_ok N last L hist -> last <= ts -> 0 <= last ->
  hist !! Z.to_nat (ts mod FRANG_FREQ) = Some h -> h_ts h' = ts ->
  (kc <= 1)%nat -> (kr <= 1)%nat -> (kn <= 1)%nat -> (ki <= 1)%nat ->
  conn_new h' = (if h_ts h =? ts then conn_new h + Z.of_nat kc else Z.of_nat kc) ->
  req h' = (if h_ts h =? ts then req h + Z.of_nat kr else Z.of_nat kr) ->
  (if h_ts h =? ts then tls_sess_new h + Z.of_nat kn else Z.of_nat kn) <= tls_sess_new h' <= N + 1 ->
  (if h_ts h =? ts then tls_sess_incomplete h + Z.of_nat ki else Z.of_nat ki)
    <= tls_sess_incomplete h' <= N + 1 ->
  rings_ok (N + 1) ts
    (MkLog (l_conns L ++ replicate kc ts) (l_reqs L ++ replicate kr ts) (l_news L ++ replicate kn ts)
           (l_incs L ++ replicate ki ts) (l_curr L))
    (<[Z.to_nat (ts mod FRANG_FREQ) := h']> hist).
Proof.
  intros (Hl & Hc & Hr & (rn & Hn & Hnle) & (ri & Hi & Hile) & Hb & (Hk1 & Hk2 & Hk3 & Hk4))
    Hts H0 Hh Hh' Hkc Hkr Hkn Hki Hec Her Hen Hei.
  pose proof (Forall_lookup_1 _ _ _ _ Hb Hh) as [Hb1 Hb2].
  split; [by rewrite length_insert |]. simpl.
  split; [rewrite (proj_touch _ (Z.of_nat kc) ts h) by done; by apply (ring_touch_ok _ FRANG_FREQ_pos _ _ last) |].
  split; [rewrite (proj_touch _ (Z.of_nat kr) ts h) by done; by apply (ring_touch_ok _ FRANG_FREQ_pos _ _ last) |].
  split.
  { exists (ring_touch FRANG_FREQ (Z.of_nat kn) ts rn).
    split; [by apply (ring_touch_ok _ FRANG_FREQ_pos _ _ last) |].
    rewrite proj_insert, Hh'. eapply ring_le_touch; [done | lia | done | by apply proj_lookup |].
    simpl. lia. }
  split.
  { exists (ring_touch FRANG_FREQ (Z.of_nat ki) ts ri).
    split; [by apply (ring_touch_ok _ FRANG_FREQ_pos _ _ last) |].
    rewrite proj_insert, Hh'. eapply ring_le_touch; [done | lia | done | by apply proj_lookup |].
    simpl. lia. }
  split.
  { apply Forall_insert; [eapply Forall_impl; [exact Hb | simpl; lia] |].
    destruct (h_ts h =? ts); lia. }
  unfold logs_le. simpl. repeat split; by apply zlen_replicate_le.
Qed.

(** The quantum of the last event moves on. *)
Lemma counters_of N last L hist ts h :
  rings_ok N last L hist -> hist !! Z.to_nat (ts mod FRANG_FREQ) = Some h ->
  0 <= conn_new h <= N /\ 0 <= req h <= N /\ 0 <= tls_sess_new h <= N /\ 0 <= tls_sess_incomplete h <= N.
Proof.
  intros (_ & Hc & Hr & _ & _ & Hb & (Hk1 & Hk2 & _)) Hh.
  pose proof (Forall_lookup_1 _ _ _ _ (proj_counts _ _ _ N _ Hc Hk1) Hh).
  pose proof (Forall_lookup_1 _ _ _ _ (proj_counts _ _ _ N _ Hr Hk2) Hh).
  pose proof (Forall_lookup_1 _ _ _ _ Hb Hh). simpl in *. tauto.
Qed.

Lemma wp_get_hist i h ra (Q : FrangRates -> FrangAcc -> Prop) :
  history ra !! i = Some h -> Q h ra -> wp (get_hist i) Q ra.
Proof. unfold wp, get_hist. by intros ->. Qed.

Lemma wp_put_hist i h h' ra (Q : unit -> FrangAcc -> Prop) :
  history ra !! i = Some h ->
  Q tt (MkAcc (conn_curr ra) (<[i := h']> (history ra)) (resp_code_stat ra)) ->
  wp (put_hist i h') Q ra.
Proof. unfold wp, put_hist. by intros ->. Qed.

Section steps.
Context (HZ : Z) (conf : FrangGlobCfg).

(** What the caller knows before an event at [jiffies]. *)
Definition step_pre (N last : Z) (L : ClientLog) (ra : FrangAcc) (jiffies : Z) : Prop :=
  acc_ok N last L ra /\ 0 <= last <= frang_quantum HZ jiffies /\ time63 (frang_quantum HZ jiffies)
  /\ N + 1 < 2 ^ 28.

Lemma conn_limit_ok N last L ra j :
  step_pre N last L ra j ->
  wp (frang_conn_limit HZ conf j) (fun v ra' =>
    acc_ok (N + 1) (frang_quantum HZ j) (spec_step conf FConn (frang_quantum HZ j) L).2 ra'
    /\ v = (spec_step conf FConn (frang_quantum HZ j) L).1) ra.
Proof using.
  intros ((Hr & Hcur & Hcb) & Hts & Ht63 & HN). unfold frang_conn_limit.
  set (ts := frang_quantum HZ j) in *. destruct (hist_slot _ _ _ _ ts Hr) as (h & Hh).
  pose proof (counters_of _ _ _ _ _ _ Hr Hh) as (Hc1 & Hc2 & Hc3 & Hc4).
  apply wp_bind, (wp_get_hist _ h); [done |].
  set (h1 := if h_ts h =? ts then h else MkRates ts 0 0 0 0).
  set (h' := MkRates (h_ts h1) (u32 (conn_new h1 + 1)) (req h1) (tls_sess_new h1) (tls_sess_incomplete h1)).
  assert (Hh1 : h_ts h1 = ts) by (unfold h1; destruct (Z.eqb_spec (h_ts h) ts); done).
  assert (Hr' : rings_ok (N + 1) ts (MkLog (l_conns L ++ [ts]) (l_reqs L) (l_news L) (l_incs L) (l_curr L))
                  (<[Z.to_nat (ts mod FRANG_FREQ) := h']> (history ra))).
  { pose proof (rings_step N last L (history ra) ts h h' 1 0 0 0 Hr) as Hs.
    simpl replicate in Hs. rewrite !app_nil_r in Hs.
    apply Hs; clear Hs; try done; try lia; unfold h', h1; simpl; rewrite ?u32_small by (unfold is_u32; destruct (h_ts h =? ts); simpl; lia);
      destruct (h_ts h =? ts); simpl; lia. }
  apply wp_bind, (wp_put_hist _ h); [done |].
  apply wp_bind, wp_get. apply wp_bind, wp_mod. apply wp_bind, wp_get. cbn [conn_curr history].
  assert (Hcc : u32 (conn_curr ra + 1) = l_curr L + 1).
  { rewrite Hcur. apply u32_small. unfold is_u32. lia. }
  rewrite Hcc.
  set (hist' := <[Z.to_nat (ts mod FRANG_FREQ) := h']> (history ra)) in *.
  assert (Hslot : hist' !! Z.to_nat (ts mod FRANG_FREQ) = Some h').
  { apply list_lookup_insert_eq. by eapply lookup_lt_Some. }
  pose proof Hr' as (Hl' & Hrc & _ & _ & _ & _ & (Hk & _)). simpl in Hrc, Hk.
  assert (Hpl : proj conn_new hist' !! Z.to_nat (ts mod FRANG_FREQ) = Some (ts, conn_new h')).
  { rewrite <- Hh1 at 2. by apply (proj_lookup conn_new _ h'). }
  pose proof (ring_burst _ FRANG_FREQ_pos _ _ _ _ _ Hrc Hpl) as Hburst.
  assert (Hsum : hist_sum u32 (fun T => ts <=? u64 (T + FRANG_FREQ)) conn_new hist' = rate_of ts (l_conns L ++ [ts])).
  { rewrite (sum_frame_ge u32 conn_new ts hist' (N + 1) (2 ^ 32)); try done.
    - rewrite (ring_sum_ge_eq _ FRANG_FREQ_pos _ _ _ _ Hrc (proj1 Ht63) Hpl).
      by apply window_exact.
    - intros. by apply u32_small.
    - lia.
    - by eapply proj_counts.
    - by eapply ring_times. }
  rewrite Hsum, Hburst. unfold spec_step, burst_of. simpl.
  destruct (over (conn_max conf) _), (over (conn_burst conf) _), (over (conn_rate conf) _);
    apply wp_ret; (split; [split; [done | simpl; lia] | done]).
Qed.

Lemma close_ok N last L ra j :
  step_pre N last L ra j -> 0 < l_curr L ->
  wp (frang_step HZ conf FClose j) (fun v ra' =>
    acc_ok N last (spec_step conf FClose (frang_quantum HZ j) L).2 ra' /\ v = TFW_PASS) ra.
Proof using.
  intros ((Hr & Hcur & Hcb) & _) Hpos. unfold frang_step, frang_conn_close.
  apply wp_bind. simpl negb. cbv iota. apply wp_bind, wp_bug_on; [done |]. apply wp_bind, wp_get.
  apply wp_bind, wp_bug_on; [apply Z.eqb_neq; lia |]. apply wp_bind, wp_mod, wp_ret, wp_ret.
  split; [| done]. split; [exact Hr |]. simpl. lia.
Qed.

Lemma req_limit_ok N last L ra j :
  step_pre N last L ra j ->
  wp (frang_req_limit HZ (req_burst conf) (req_rate conf) j) (fun v ra' =>
    (exists last', last' <= frang_quantum HZ j /\ 0 <= last' /\
      acc_ok (N + 1) last' (spec_step conf FReq (frang_quantum HZ j) L).2 ra')
    /\ v = (spec_step conf FReq (frang_quantum HZ j) L).1) ra.
Proof using.
  intros ((Hr & Hcur & Hcb) & Hts & Ht63 & HN). unfold frang_req_limit, spec_step.
  set (ts := frang_quantum HZ j) in *.
  destruct ((req_burst conf =? 0) && (req_rate conf =? 0)) eqn:Hz.
  { apply wp_ret. split; [| done]. exists last. split; [lia |]. split; [lia |].
    split; [| simpl; lia]. destruct Hr as (H1 & H2 & H3 & H4 & H5 & H6 & (H7 & H8 & H9 & H10)).
    refine (conj H1 (conj H2 (conj H3 (conj H4 (conj H5 (conj _ _)))))).
    - eapply Forall_impl; [exact H6 |]. simpl. lia.
    - split; [| split; [| split]]; cbn [snd]; lia. }
  destruct (hist_slot _ _ _ _ ts Hr) as (h & Hh).
  pose proof (counters_of _ _ _ _ _ _ Hr Hh) as (Hc1 & Hc2 & Hc3 & Hc4).
  apply wp_bind, (wp_get_hist _ h); [done |].
  set (h1 := if h_ts h =? ts then h else _).
  set (h' := MkRates (h_ts h1) (conn_new h1) (u32 (req h1 + 1)) (tls_sess_new h1) (tls_sess_incomplete h1)).
  assert (Hh1 : h_ts h1 = ts) by (unfold h1; destruct (Z.eqb_spec (h_ts h) ts); done).
  assert (Hr' : rings_ok (N + 1) ts (MkLog (l_conns L) (l_reqs L ++ [ts]) (l_news L) (l_incs L) (l_curr L))
                  (<[Z.to_nat (ts mod FRANG_FREQ) := h']> (history ra))).
  { pose proof (rings_step N last L (history ra) ts h h' 0 1 0 0 Hr) as Hs.
    simpl replicate in Hs. rewrite !app_nil_r in Hs.
    apply Hs; clear Hs; try done; try lia; unfold h', h1; simpl; rewrite ?u32_small by (unfold is_u32; destruct (h_ts h =? ts); simpl; lia);
      destruct (h_ts h =? ts); simpl; lia. }
  apply wp_bind, (wp_put_hist _ h); [done |].
  set (hist' := <[Z.to_nat (ts mod FRANG_FREQ) := h']> (history ra)) in *.
  assert (Hslot : hist' !! Z.to_nat (ts mod FRANG_FREQ) = Some h').
  { apply list_lookup_insert_eq. by eapply lookup_lt_Some. }
  pose proof Hr' as (Hl' & _ & Hrq & _ & _ & _ & (_ & Hk & _)). simpl in Hrq, Hk.
  assert (Hpl : proj req hist' !! Z.to_nat (ts mod FRANG_FREQ) = Some (ts, req h')).
  { rewrite <- Hh1 at 2. by apply (proj_lookup req _ h'). }
  pose proof (ring_burst _ FRANG_FREQ_pos _ _ _ _ _ Hrq Hpl) as Hburst.
  pose proof (sum_in_frame req _ ts hist' (N + 1) Hrq Ht63 Hk HN Hl') as Hsum.
  rewrite Hburst. fold (burst_of ts (l_reqs L ++ [ts])).
  assert (Hex : exists last', last' <= ts /\ 0 <= last' /\
      acc_ok (N + 1) last' (MkLog (l_conns L) (l_reqs L ++ [ts]) (l_news L) (l_incs L) (l_curr L))
             (MkAcc (conn_curr ra) hist' (resp_code_stat ra))).
  { exists ts. split; [lia |]. split; [lia |]. split; [done |]. simpl. lia. }
  destruct (over (req_burst conf) _); [by apply wp_ret |].
  apply wp_bind, wp_get. cbn [history]. rewrite Hsum.
  destruct (over (req_rate conf) _); by apply wp_ret.
Qed.

Lemma over_mono lim a b : a <= b -> over lim a = true -> over lim b = true.
Proof using. unfold over. intros Hab H. bool_hyps. apply andb_true_iff. split; [by apply negb_true_iff, Z.eqb_neq | apply Z.ltb_lt; lia]. Qed.

Lemma burst_le_rate ts log : burst_of ts log <= rate_of ts log.
Proof using.
  unfold burst_of, rate_of, window, count. induction log as [|x log IH]; [done |].
  rewrite !fmap_cons, !zsum_cons. unfold FRANG_FREQ in *.
  destruct (Z.eqb_spec x ts), (Z.ltb_spec ts (x + 8)); lia.
Qed.

(** The sums of handshakes are not below those of the log. *)
Lemma tls_sum_ge f log ts hist N :
  at_least log ts (proj f hist) -> Forall (fun h => 0 <= f h <= N) hist ->
  Forall (fun h => 0 <= h_ts h <= ts) hist -> time63 ts -> N < 2 ^ 28 -> length hist = 8%nat ->
  rate_of ts log <= hist_sum u64 (fun T => ts <=? u64 (T + FRANG_FREQ)) f hist.
Proof using.
  intros (r0 & Hr0 & Hle) Hc HT Hts HN Hl.
  rewrite (sum_frame_ge u64 f ts hist N (2 ^ 64)); try done; [| intros; by apply u64_small | lia].
  unfold rate_of. rewrite <- (window_exact _ FRANG_FREQ_pos _ _ _ Hr0). by apply ring_le_sum.
Qed.

(** The slot after a handshake. *)
Definition tls_slot (hs : HsState) (h : FrangRates) : FrangRates :=
  match hs with
  | TTLS_HS_CB_FINISHED_NEW =>
      MkRates (h_ts h) (conn_new h) (req h) (u32 (tls_sess_new h + 1)) (tls_sess_incomplete h)
  | TTLS_HS_CB_INCOMPLETE =>
      MkRates (h_ts h) (conn_new h) (req h) (tls_sess_new h) (u32 (tls_sess_incomplete h + 1))
  | _ => h
  end.

Lemma tls_slot_ok N last L ra ts hs h :
  rings_ok N last L (history ra) -> 0 <= last <= ts -> N + 1 < 2 ^ 28 ->
  history ra !! Z.to_nat (ts mod FRANG_FREQ) = Some h ->
  rings_ok (N + 1) ts (spec_step conf (FTls hs) ts L).2
    (<[Z.to_nat (ts mod FRANG_FREQ) :=
         tls_slot hs (if h_ts h =? ts then h else MkRates ts 0 0 0 0)]> (history ra)).
Proof using.
  intros Hr Hts HN Hh. set (h1 := if h_ts h =? ts then h else _).
  pose proof (counters_of _ _ _ _ _ _ Hr Hh) as (Hc1 & Hc2 & Hc3 & Hc4).
  assert (Hh1 : h_ts (tls_slot hs h1) = ts)
    by (unfold h1; destruct (Z.eqb_spec (h_ts h) ts); by destruct hs).
  set (kn := match hs with TTLS_HS_CB_FINISHED_NEW => 1%nat | _ => 0%nat end).
  set (ki := match hs with TTLS_HS_CB_INCOMPLETE => 1%nat | _ => 0%nat end).
  assert (Hlog : MkLog (l_conns L) (l_reqs L) (l_news L ++ replicate kn ts) (l_incs L ++ replicate ki ts)
                   (l_curr L) = (spec_step conf (FTls hs) ts L).2).
  { destruct L, hs; simpl; rewrite ?app_nil_r; done. }
  rewrite <- Hlog.
  pose proof (rings_step N last L (history ra) ts h (tls_slot hs h1) 0 0 kn ki Hr) as Hs.
  simpl replicate in Hs. rewrite !app_nil_r in Hs.
  apply Hs; clear Hs; try done; try lia; unfold kn, ki, h1; destruct hs; simpl;
    rewrite ?u32_small by (unfold is_u32; destruct (h_ts h =? ts); simpl; lia);
    destruct (h_ts h =? ts); simpl; lia.
Qed.

Lemma tls_limit_ok N last L ra j hs :
  step_pre N last L ra j ->
  wp (frang_tls_conn_limit HZ conf hs j) (fun v ra' =>
    acc_ok (N + 1) (frang_quantum HZ j) (spec_step conf (FTls hs) (frang_quantum HZ j) L).2 ra'
    /\ ((spec_step conf (FTls hs) (frang_quantum HZ j) L).1 = TFW_BLOCK -> v = TFW_BLOCK)) ra.
Proof using.
  intros ((Hr & Hcur & Hcb) & Hts & Ht63 & HN). unfold frang_tls_conn_limit.
  set (ts := frang_quantum HZ j) in *. destruct (hist_slot _ _ _ _ ts Hr) as (h & Hh).
  pose proof (tls_slot_ok N last L ra ts hs h Hr Hts HN Hh) as Hr'.
  apply wp_bind, (wp_get_hist _ h); [done |].
  set (h1 := if h_ts h =? ts then h else _) in *.
  apply wp_bind, (wp_put_hist _ h); [done |].
  set (L' := (spec_step conf (FTls hs) ts L).2) in *.
  assert (Hcurr : conn_curr ra = l_curr L' /\ 0 <= l_curr L' <= N + 1).
  { unfold L'. destruct hs; simpl; lia. }
  set (i := Z.to_nat (ts mod FRANG_FREQ)) in *.
  assert (Hi : <[i := h1]> (history ra) !! i = Some h1).
  { apply list_lookup_insert_eq. by eapply lookup_lt_Some. }
  pose proof Hr' as (Hl' & Hrc & _ & Hnew & Hinc & Hb & _).
  pose proof (ring_times _ _ _ _ Hrc) as HT.
  assert (Hbn : Forall (fun h => 0 <= tls_sess_new h <= N + 1) (<[i := tls_slot hs h1]> (history ra))).
  { eapply Forall_impl; [exact Hb |]. simpl. tauto. }
  assert (Hbi : Forall (fun h => 0 <= tls_sess_incomplete h <= N + 1) (<[i := tls_slot hs h1]> (history ra))).
  { eapply Forall_impl; [exact Hb |]. simpl. tauto. }
  pose proof (tls_sum_ge _ _ _ _ _ Hnew Hbn HT Ht63 HN Hl') as Hsn.
  pose proof (tls_sum_ge _ _ _ _ _ Hinc Hbi HT Ht63 HN Hl') as Hsi.
  destruct hs.
  4: { apply wp_ret. split; [| done]. split; [exact Hr' | exact Hcurr]. }
  all: apply wp_bind, (wp_put_hist _ h1); [done |]; apply wp_bind, wp_get;
    cbn [history conn_curr resp_code_stat]; rewrite list_insert_insert_eq.
  - fold (tls_slot TTLS_HS_CB_FINISHED_NEW h1). cbn [spec_step fst].
    set (sn := hist_sum _ _ _ _) in *. simpl in Hsn.
    pose proof (burst_le_rate ts (l_news L ++ [ts])) as Hbr.
    assert (Hblk : block_if (over (tls_new_conn_rate conf) (rate_of ts (l_news L ++ [ts]))
               || over (tls_new_conn_burst conf) (burst_of ts (l_news L ++ [ts]))) = TFW_BLOCK ->
             over (tls_new_conn_rate conf) sn || over (tls_new_conn_burst conf) sn = true).
    { unfold block_if. destruct (_ || _) eqn:Ho; [| done]. intros _.
      apply orb_true_iff in Ho as [Ho | Ho]; apply orb_true_iff; [left | right];
        (eapply over_mono; [| exact Ho]; lia). }
    destruct (over (tls_new_conn_rate conf) sn), (over (tls_new_conn_burst conf) sn);
      apply wp_ret; (split; [split; [exact Hr' | exact Hcurr] |]); try done.
    intros H. by specialize (Hblk H).
  - apply wp_ret. split; [split; [exact Hr' | exact Hcurr] | done].
  - fold (tls_slot TTLS_HS_CB_INCOMPLETE h1). cbn [spec_step fst].
    set (sn := hist_sum _ _ tls_sess_incomplete _) in *. simpl in Hsi.
    assert (Hblk : block_if (over (tls_incomplete_conn_rate conf) (rate_of ts (l_incs L ++ [ts]))) = TFW_BLOCK ->
             over (tls_incomplete_conn_rate conf) sn = true).
    { unfold block_if. destruct (over _ (rate_of _ _)) eqn:Ho; [| done]. intros _.
      eapply over_mono; [| exact Ho]. lia. }
    destruct (over (tls_incomplete_conn_rate conf) sn); apply wp_ret;
      (split; [split; [exact Hr' | exact Hcurr] |]); try done.
    intros H. by specialize (Hblk H).
Qed.
End steps.

(** ** Runs *)

Fixpoint frang_run (HZ : Z) (conf : FrangGlobCfg) (evs : list (FrangEv * Z)) : FM (list Z) :=
  match evs with
  | [] => sm_ret []
  | (ev, j) :: evs =>
      v <~ frang_step HZ conf ev j ;;
      vs <~ frang_run HZ conf evs ;;
      sm_ret (v :: vs)
  end.

Fixpoint spec_run (HZ : Z) (conf : FrangGlobCfg) (evs : list (FrangEv * Z)) (L : ClientLog) : list Z :=
  match evs with
  | [] => []
  | (ev, j) :: evs =>
      let '(v, L') := spec_step conf ev (frang_quantum HZ j) L in
      v :: spec_run HZ conf evs L'
  end.

(** Time does not go back, and only open connections are closed. *)
Fixpoint run_ok (HZ : Z) (conf : FrangGlobCfg) (now : Z) (L : ClientLog) (evs : list (FrangEv * Z)) : Prop :=
  match evs with
  | [] => True
  | (ev, j) :: evs =>
      let ts := frang_quantum HZ j in
      now <= ts /\ time63 ts /\ (ev = FClose -> 0 < l_curr L)
      /\ run_ok HZ conf ts (spec_step conf ev ts L).2 evs
  end.

Definition log_init : ClientLog := MkLog [] [] [] [] 0.

(** The code agrees with the log; on handshakes it may block more, never less. *)
Definition verdict_ok (ev : FrangEv * Z) (v spec : Z) : Prop :=
  match ev.1 with
  | FTls _ => spec = TFW_BLOCK -> v = TFW_BLOCK
  | _ => v = spec
  end.

Lemma acc_init_ok : acc_ok 0 0 log_init frang_acc_init.
Proof.
  pose proof (ring_init FRANG_FREQ FRANG_FREQ_pos) as Hri.
  assert (Hat : at_least [] 0 (replicate 8 (0, 0))).
  { exists (replicate 8 (0, 0)). split; [exact Hri |]. by eapply ring_ok_le. }
  split; [| simpl; lia].
  refine (conj _ (conj _ (conj _ (conj _ (conj _ (conj _ _)))))); try exact Hri; try exact Hat.
  - done.
  - apply Forall_replicate. simpl. lia.
  - unfold logs_le, zlen. simpl. lia.
Qed.

Lemma acc_ok_N N N' last L ra : N <= N' -> acc_ok N last L ra -> acc_ok N' last L ra.
Proof.
  intros HN ((H1 & H2 & H3 & H4 & H5 & H6 & (H7 & H8 & H9 & H10)) & Hc & Hb).
  split; [| split; [done | lia]].
  refine (conj H1 (conj H2 (conj H3 (conj H4 (conj H5 (conj _ _)))))).
  - eapply Forall_impl; [exact H6 |]. simpl. lia.
  - unfold logs_le. repeat split; lia.
Qed.

Lemma frang_step_ok HZ conf N last L ra ev j :
  step_pre HZ N last L ra j -> (ev = FClose -> 0 < l_curr L) ->
  wp (frang_step HZ conf ev j) (fun v ra' =>
    (exists last', 0 <= last' <= frang_quantum HZ j
       /\ acc_ok (N + 1) last' (spec_step conf ev (frang_quantum HZ j) L).2 ra')
    /\ verdict_ok (ev, j) v (spec_step conf ev (frang_quantum HZ j) L).1) ra.
Proof.
  intros Hp Hcl. pose proof Hp as (_ & Hts & _). destruct ev as [| | | hs]; unfold verdict_ok; cbn [fst].
  - eapply wp_mono; [by eapply conn_limit_ok |]. simpl. intros v ra' [Ha Hv]. split; [| done].
    eexists. split; [| exact Ha]. lia.
  - eapply wp_mono; [eapply close_ok; [exact Hp | by apply Hcl] |]. cbv beta.
    intros v ra' [Ha ->]. split; [| done].
    exists last. split; [lia |]. eapply acc_ok_N; [| exact Ha]. lia.
  - eapply wp_mono; [by eapply req_limit_ok |]. cbv beta.
    intros v ra' [(last' & H1 & H2 & Ha) Hv]. split; [| done]. exists last'. split; [lia | done].
  - eapply wp_mono; [by eapply tls_limit_ok |]. cbv beta. intros v ra' [Ha Hv]. split; [| done].
    eexists. split; [| exact Ha]. lia.
Qed.

Lemma frang_run_ok HZ conf evs : forall N last now L ra,
  acc_ok N last L ra -> 0 <= last <= now -> N + zlen evs < 2 ^ 28 -> run_ok HZ conf now L evs ->
  wp (frang_run HZ conf evs) (fun vs _ => Forall3 verdict_ok evs vs (spec_run HZ conf evs L)) ra.
Proof.
  induction evs as [|[ev j] evs IH]; intros N last now L ra Ha Hlast HN Hrun; simpl.
  - apply wp_ret. constructor.
  - destruct Hrun as (Hle & Ht & Hcl & Hrun). unfold zlen in HN. simpl length in HN.
    apply wp_bind. eapply wp_mono.
    { apply (frang_step_ok HZ conf N last L ra ev j); [| done].
      split; [done |]. split; [lia |]. split; [done | lia]. }
    intros v ra' [(last' & Hl' & Ha') Hv].
    destruct (spec_step conf ev (frang_quantum HZ j) L) as [sv L'] eqn:Hs. simpl in *.
    apply wp_bind. eapply wp_mono.
    { apply (IH (N + 1) last' (frang_quantum HZ j) L' ra' Ha' Hl'); [unfold zlen; lia | done]. }
    cbv beta. intros vs ra'' Hvs. apply wp_ret. by constructor.
Qed.

(** C12: For every sequence of fewer than 2^28 connections, disconnections, requests and TLS handshakes of a
    client in which time does not go back, the accounting never fails.  Its verdicts on connections and on requests are exactly
    those of the log of the client: a connection is blocked exactly when too many are open, or too many were
    made in the current eighth of a second or in the last second; the same holds for requests.  For
    TLS handshakes only one direction holds: a
    handshake that the log condemns is always blocked.  Others are blocked too, because a request leaves the handshake counters of an
    earlier second in its slot ([tls_stale_after_request]) and the burst limit is compared with a whole
    second ([tls_burst_is_rate]). *)
Theorem frang_limits_refine (HZ : Z) (conf : FrangGlobCfg) (evs : list (FrangEv * Z)) :
  run_ok HZ conf 0 log_init evs -> zlen evs < 2 ^ 28 ->
  exists vs ra, frang_run HZ conf evs frang_acc_init = Ok (vs, ra)
    /\ Forall3 verdict_ok evs vs (spec_run HZ conf evs log_init).
Proof.
  intros Hrun Hlen. apply wp_ok.
  eapply (frang_run_ok HZ conf evs 0 0 0); [apply acc_init_ok | lia | lia | done].
Qed.

Definition frang_demo_cfg : FrangGlobCfg :=
  MkGlob 0 0 3 2 4 2 3 2 0 2 0 0 false.

Definition frang_demo_evs : list (FrangEv * Z) :=
  [(FConn, 100000); (FTls TTLS_HS_CB_FINISHED_NEW, 100010); (FReq, 100020); (FReq, 100030); (FReq, 100040);
   (FConn, 100400); (FConn, 100900); (FConn, 100950); (FClose, 101000); (FReq, 101100)].

Lemma frang_limits_refine_witness :
  exists vs ra, frang_run 1000 frang_demo_cfg frang_demo_evs frang_acc_init = Ok (vs, ra)
    /\ Forall3 verdict_ok frang_demo_evs vs
         [TFW_PASS; TFW_PASS; TFW_PASS; TFW_PASS; TFW_BLOCK; TFW_PASS; TFW_PASS; TFW_BLOCK; TFW_PASS;
          TFW_PASS].
Proof.
  apply (frang_limits_refine 1000 frang_demo_cfg frang_demo_evs).
  - vm_compute. intuition discriminate.
  - vm_compute. reflexivity.
Defined.

(** ** Response codes *)

Definition stat_ring (l : list FrangRespCodeStat) : ring := (fun s => (s_ts s, s_cnt s)) <$> l.

Lemma stat_sum_eq (inf : Z -> bool) l : forall a N,
  0 <= a -> Forall (fun s => 0 <= s_cnt s <= N) l -> a + zlen l * N < 2 ^ 64 -> 0 <= N ->
  foldl (fun a s => if inf (s_ts s) then u64 (a + s_cnt s) else a) a l
  = a + zsum ((fun p => if inf p.1 then p.2 else 0) <$> stat_ring l).
Proof.
  induction l as [|s l IH]; intros a N Ha Hf Hlt HN0; [simpl; lia |].
  apply Forall_cons in Hf as [Hs Hf]. unfold zlen in Hlt. simpl length in Hlt.
  cbn [foldl]. unfold stat_ring. rewrite !fmap_cons, zsum_cons. cbn [fst snd]. fold (stat_ring l).
  pose proof (zlen_nonneg l). unfold zlen in *.
  destruct (inf (s_ts s)); [rewrite u64_small by lia |]; rewrite (IH _ N) by (done || lia); lia.
Qed.

Lemma resp_code_step cblk log last j ra :
  0 < cb_tf cblk -> 0 <= j / cb_tf cblk < 2 ^ 32 -> 0 <= last <= j / cb_tf cblk ->
  ring_ok FRANG_FREQ log last (stat_ring (resp_code_stat ra)) -> zlen log + 1 < 2 ^ 32 ->
  let ts := j / cb_tf cblk in
  wp (frang_resp_code_limit cblk j) (fun v ra' =>
    ring_ok FRANG_FREQ (log ++ [ts]) ts (stat_ring (resp_code_stat ra'))
    /\ v = block_if (cb_limit cblk <? rate_of ts (log ++ [ts]))) ra.
Proof.
  intros Htf Hts Hlast Hr HN ts. unfold frang_resp_code_limit, frang_resp_quantum, wp.
  destruct (Z.eqb_spec (cb_tf cblk) 0); [lia |]. rewrite u32_small by done. fold ts.
  destruct (ring_slot _ FRANG_FREQ_pos _ _ _ ts Hr) as (T & c & Hi).
  pose proof (Forall_lookup_1 _ _ _ _ (ring_counts _ _ _ _ Hr) Hi) as Hc. cbn [snd] in Hc.
  unfold stat_ring in Hi. rewrite list_lookup_fmap in Hi.
  apply fmap_Some in Hi as (s & Hi & [= -> ->]). rewrite Hi.
  set (s' := if ts =? s_ts s then _ else _).
  assert (Hs' : (s_ts s', s_cnt s') = (ts, if s_ts s =? ts then s_cnt s + 1 else 1)).
  { unfold s'. rewrite (Z.eqb_sym (s_ts s)). destruct (Z.eqb_spec ts (s_ts s)) as [-> |]; [| done].
    simpl. rewrite u32_small by (unfold is_u32; lia). done. }
  assert (Hr' : ring_ok FRANG_FREQ (log ++ [ts]) ts
      (stat_ring (<[Z.to_nat (ts mod FRANG_FREQ) := s']> (resp_code_stat ra)))).
  { unfold stat_ring. rewrite list_fmap_insert, Hs'.
    pose proof (ring_touch_ok _ FRANG_FREQ_pos 1 log last ts _ Hr ltac:(lia) ltac:(lia)) as Ht.
    unfold ring_touch in Ht. unfold stat_ring in Ht at 1. rewrite list_lookup_fmap, Hi in Ht.
    exact Ht. }
  split; [exact Hr' |]. unfold block_if.
  assert (Hl : zlen (<[Z.to_nat (ts mod FRANG_FREQ) := s']> (resp_code_stat ra)) = 8).
  { destruct Hr' as (Hl & _). unfold zlen, stat_ring in Hl. by rewrite length_fmap in Hl. }
  rewrite (stat_sum_eq _ _ 0 (zlen log + 1)); [| lia | | rewrite Hl; lia | pose proof (zlen_nonneg log); lia].
  - replace (rate_of ts (log ++ [ts])) with
      (0 + zsum ((fun p : Z * Z => if frang_time_in_frame ts p.1 then p.2 else 0) <$>
             stat_ring (<[Z.to_nat (ts mod FRANG_FREQ) := s']> (resp_code_stat ra)))); [done |].
    unfold rate_of. rewrite <- (window_exact _ FRANG_FREQ_pos _ _ _ Hr'). rewrite Z.add_0_l.
    unfold ring_sum. f_equal. apply list_fmap_ext. intros k p Hp. unfold frang_time_in_frame.
    destruct Hr' as (_ & _ & Hs). destruct (Hs _ _ Hp) as (HT & _).
    rewrite u64_small; [done |]. unfold FRANG_FREQ. lia.
  - pose proof (ring_counts _ _ _ _ Hr') as Hcs. unfold stat_ring in Hcs. apply Forall_fmap in Hcs.
    eapply Forall_impl; [exact Hcs |]. simpl. rewrite zlen_app. unfold zlen at 2. simpl. lia.
Qed.

Fixpoint resp_run (cblk : FrangHttpRespCodeBlock) (js : list Z) : FM (list Z) :=
  match js with
  | [] => sm_ret []
  | j :: js => v <~ frang_resp_code_limit cblk j ;; vs <~ resp_run cblk js ;; sm_ret (v :: vs)
  end.

(** The verdict on the response at position [n] of the run. *)
Definition resp_verdict (cblk : FrangHttpRespCodeBlock) (log : list Z) (n : nat) : Z :=
  match log !! n with
  | Some ts => block_if (cb_limit cblk <? rate_of ts (take (S n) log))
  | None => TFW_PASS
  end.

Lemma resp_run_ok cblk js : forall log last ra,
  0 < cb_tf cblk -> Forall (fun j => 0 <= j / cb_tf cblk < 2 ^ 32) js ->
  Sorted Z.le (last :: ((fun j => j / cb_tf cblk) <$> js)) -> 0 <= last ->
  ring_ok FRANG_FREQ log last (stat_ring (resp_code_stat ra)) -> zlen log + zlen js < 2 ^ 32 ->
  let log' := log ++ ((fun j => j / cb_tf cblk) <$> js) in
  wp (resp_run cblk js) (fun vs _ =>
    vs = resp_verdict cblk log' <$> seq (length log) (length js)) ra.
Proof.
  induction js as [|j js IH]; intros log last ra Htf Hjs Hso Hl0 Hr HN log'; simpl; [by apply wp_ret |].
  apply Forall_cons in Hjs as [Hj Hjs]. rewrite fmap_cons in Hso.
  apply Sorted_inv in Hso as [Hso Hhd]. apply HdRel_inv in Hhd.
  pose proof (zlen_nonneg js). unfold zlen in HN. simpl length in HN.
  set (ts := j / cb_tf cblk) in *.
  apply wp_bind. eapply wp_mono.
  { apply (resp_code_step cblk log last j ra Htf Hj ltac:(fold ts; lia) Hr). unfold zlen. lia. }
  cbv beta. fold ts. intros v ra' [Hr' ->].
  apply wp_bind. eapply wp_mono.
  { apply (IH (log ++ [ts]) ts ra' Htf Hjs Hso ltac:(lia) Hr'). unfold zlen in *.
    rewrite length_app. simpl. lia. }
  cbv beta. intros vs ra2 ->. apply wp_ret.
  assert (Hlog : log' = (log ++ [ts]) ++ ((fun j => j / cb_tf cblk) <$> js))
    by (unfold log'; by rewrite fmap_cons, <- app_assoc).
  rewrite <- Hlog, length_app. cbn [length]. rewrite Nat.add_1_r. f_equal.
  unfold resp_verdict. rewrite Hlog.
  rewrite lookup_app_l by (rewrite length_app; simpl; lia).
  rewrite list_lookup_middle by done.
  replace (S (length log)) with (length (log ++ [ts])) by (rewrite length_app; simpl; lia).
  by rewrite take_app_length.
Qed.

(** With one time frame in use, the limit on suspicious response codes is exact: for any
    responses in which time does not go back, the client is blocked at a response exactly when it and
    the responses of the seven quanta before its quantum are more than the limit. *)
Theorem frang_resp_code_exact (cblk : FrangHttpRespCodeBlock) (js : list Z) :
  0 < cb_tf cblk -> Forall (fun j => 0 <= j / cb_tf cblk < 2 ^ 32) js ->
  Sorted Z.le ((fun j => j / cb_tf cblk) <$> js) -> zlen js < 2 ^ 32 ->
  exists ra, resp_run cblk js frang_acc_init
    = Ok (resp_verdict cblk ((fun j => j / cb_tf cblk) <$> js) <$> seq 0 (length js), ra).
Proof.
  intros Htf Hjs Hso HN.
  destruct (wp_ok _ _ _ (resp_run_ok cblk js [] 0 frang_acc_init Htf Hjs
    ltac:(constructor; [done |]; destruct js as [|j js]; constructor; apply Forall_cons in Hjs as [? _]; lia)
    ltac:(lia) (ring_init FRANG_FREQ FRANG_FREQ_pos) ltac:(unfold zlen in *; simpl; lia)))
    as (vs & ra & He & ->).
  by exists ra.
Qed.

Definition resp_demo : FrangHttpRespCodeBlock := MkCBlk (fun _ => true) 2 125.

Lemma frang_resp_code_exact_witness :
  exists ra, resp_run resp_demo [100000; 100100; 100300; 101400] frang_acc_init
    = Ok ([TFW_PASS; TFW_PASS; TFW_BLOCK; TFW_PASS], ra).
Proof.
  apply (frang_resp_code_exact resp_demo [100000; 100100; 100300; 101400]).
  - done.
  - repeat (apply Forall_cons; split; [vm_compute; intuition discriminate |]). by apply Forall_nil.
  - vm_compute. repeat constructor; discriminate.
  - done.
Defined.

(** ** Defects *)

(** A request that opens a new quantum clears the counters of connections and requests of
    the reused slot, but not those of handshakes: a handshake of a second ago is counted again,
    and with a limit of one per second the next one is blocked, although it is alone in the window. *)
Theorem tls_stale_after_request :
  let conf := MkGlob 0 0 10 0 0 0 0 1 0 0 0 0 false in
  let evs := [(FTls TTLS_HS_CB_FINISHED_NEW, 100000); (FReq, 101000);
              (FTls TTLS_HS_CB_FINISHED_NEW, 101010)] in
  spec_run 1000 conf evs log_init = [TFW_PASS; TFW_PASS; TFW_PASS]
  /\ wp (frang_run 1000 conf evs) (fun vs _ => vs = [TFW_PASS; TFW_PASS; TFW_BLOCK]) frang_acc_init.
Proof. vm_compute. done. Qed.

(** The burst limit of handshakes is compared with the sum of a second, not of an eighth of it:
    two handshakes half a second apart exceed a burst of one. *)
Theorem tls_burst_is_rate :
  let conf := MkGlob 0 0 0 0 0 0 0 0 1 0 0 0 false in
  let evs := [(FTls TTLS_HS_CB_FINISHED_NEW, 100000); (FTls TTLS_HS_CB_FINISHED_NEW, 100500)] in
  spec_run 1000 conf evs log_init = [TFW_PASS; TFW_PASS]
  /\ wp (frang_run 1000 conf evs) (fun vs _ => vs = [TFW_PASS; TFW_BLOCK]) frang_acc_init.
Proof. vm_compute. done. Qed.

(** A time frame is stored in sixteen bits after it has been converted to jiffies: an hour at 1000 Hz
    becomes 56784 jiffies per quantum, seven and a half minutes in all. *)
Theorem resp_code_tf_truncated : rsp_code_block_tf 1000 3600 = 56784 /\ 3600 * 1000 / FRANG_FREQ = 450000.
Proof. done. Qed.

(** All locations count in one ring, with quanta of their own: three responses counted under a time
    frame of a second are still in the window of a location with a time frame of ten seconds, which
    blocks its first response. *)
Theorem resp_code_ring_shared :
  let fast := MkCBlk (fun _ => true) 10 125 in
  let slow := MkCBlk (fun _ => true) 2 1250 in
  wp (resp_run fast [1000130; 1000140; 1000150]) (fun vs ra =>
    vs = [TFW_PASS; TFW_PASS; TFW_PASS]
    /\ wp (frang_resp_code_limit slow 2000000) (fun v _ => v = TFW_BLOCK) ra
    /\ wp (frang_resp_code_limit slow 2000000) (fun v _ => v = TFW_PASS) frang_acc_init) frang_acc_init.
Proof. vm_compute. done. Qed.
