(* ===== verification/Addr.v ===== *)
(** * IP addresses as text ([fw/addr.c], [fw/addr.h])

    Parsing of IPv4 and IPv6 addresses with an optional port from a compound string
    ([tfw_addr_pton()]), printing ([tfw_addr_fmt()], [tfw_addr_ntop()]) and comparison.

    An address is the 16 bytes of [sin6_addr] in memory order; a port is kept in host order,
    where the code keeps it in network order and compares it only with constants and other ports.
    A parser returns [Ok None] for [-EINVAL]; [Bug] is a read outside a chunk or outside [words]. *)

From S2P Require Import Prelude Str.

(** ** Data *)

Definition AF_INET6 : Z := 10.
Definition TFW_ADDR_STR_DEF_PORT : Z := 80.
(** The size of "[FFFF:FFFF:FFFF:FFFF:FFFF:FFFF:255.255.255.255]:65535" with its NUL. *)
Definition TFW_ADDR_STR_BUF_SIZE : Z := 54.

Record TfwAddr := MkAddr {
  sin6_family : Z;
  s6_addr : bytes;
  sin6_port : Z;
  sin6_scope_id : Z
}.

(** [ipv6_addr_v4mapped()] and [ipv6_addr_set_v4mapped()], whose argument is a word in memory. *)
Definition v4_prefix : bytes := replicate 10 0 ++ [255; 255].

Definition tfw_addr_is_v4mapped (a : TfwAddr) : bool := bool_decide (take 12 (s6_addr a) = v4_prefix).

Definition le32_bytes (v : Z) : bytes :=
  [u8 v; u8 (Z.shiftr v 8); u8 (Z.shiftr v 16); u8 (Z.shiftr v 24)].

Definition tfw_addr_set_v4 (in_addr : Z) : bytes := v4_prefix ++ le32_bytes in_addr.

(** [groups[i]] in host order. *)
Definition group (b : bytes) (i : nat) : Z := ntohs_at b (2 * i).

(** ** Characters ([linux/ctype.h]) *)

Definition isdigit (c : Z) : bool := (48 <=? c) && (c <=? 57).
Definition isxdigit (c : Z) : bool :=
  isdigit c || (65 <=? c) && (c <=? 70) || (97 <=? c) && (c <=? 102).

(** ASCII and Latin-1 letters. *)
Definition isalpha (c : Z) : bool :=
  (65 <=? c) && (c <=? 90) || (97 <=? c) && (c <=? 122)
  || (192 <=? c) && (c <=? 255) && negb (c =? 215) && negb (c =? 247).

(** [XD(tolower(c))] of a hexadecimal digit. *)
Definition XD (c : Z) : Z := let x := TFW_LC c in if 97 <=? x then 10 + x - 97 else x - 48.

(** What the chunks of a string hold. *)
Fixpoint chunk_texts (cs : list TfwStr) : outcome (list bytes) :=
  match cs with
  | [] => Ok []
  | c :: cs =>
      match slice (data c) 0 (len c), chunk_texts cs with
      | Some b, Ok l => Ok (b :: l)
      | _, _ => Bug
      end
  end.

(** ** IPv4 *)

Record V4 := MkV4 { v4_octet : Z; v4_i : Z; v4_port : bool; v4_a : bytes }.

Definition v4_char (p : Z) (st : V4) : option V4 :=
  if isdigit p then
    let octet := if v4_octet st =? -1 then p - 48 else v4_octet st * 10 + p - 48 in
    if negb (v4_port st) && (255 <? octet) || (0xFFFF <? octet) then None
    else Some (MkV4 octet (v4_i st) (v4_port st) (v4_a st))
  else if (0 <=? v4_octet st) && ((p =? 46) && (v4_i st <? 4) || (p =? 58) && (v4_i st =? 3)) then
    Some (MkV4 (-1) (v4_i st + 1) (p =? 58)
               (<[Z.to_nat (12 + v4_i st) := u8 (v4_octet st)]> (v4_a st)))
  else None.

Fixpoint v4_loop (l : bytes) (st : V4) : option V4 :=
  match l with
  | [] => Some st
  | p :: l => match v4_char p st with Some st => v4_loop l st | None => None end
  end.

Definition tfw_addr_pton_v4 (cs : list bytes) (addr : TfwAddr) : option TfwAddr :=
  match v4_loop (concat cs) (MkV4 (-1) 0 false (tfw_addr_set_v4 0)) with
  | None => None
  | Some st =>
      if 0 <=? v4_octet st then
        if v4_i st =? 3 then
          Some (MkAddr AF_INET6 (<[15%nat := u8 (v4_octet st)]> (v4_a st)) TFW_ADDR_STR_DEF_PORT
                       (sin6_scope_id addr))
        else if v4_i st =? 4 then
          Some (MkAddr AF_INET6 (v4_a st) (v4_octet st) (sin6_scope_id addr))
        else None
      else None
  end.

(** ** IPv6 *)

Record V6 := MkV6 { words : list Z; hole : Z; v6_i : Z; v6_port : Z; ipv4_mapped : bool }.

Definition v6_init : V6 := MkV6 (replicate 9 (-1)) (-1) 0 (-1) false.

Definition word (st : V6) (i : Z) : outcome Z :=
  match words st !! Z.to_nat i with Some w => Ok w | None => Bug end.

Definition set_i i st := MkV6 (words st) (hole st) i (v6_port st) (ipv4_mapped st).
Definition set_hole h st := MkV6 (words st) h (v6_i st) (v6_port st) (ipv4_mapped st).
Definition set_vport p st := MkV6 (words st) (hole st) (v6_i st) p (ipv4_mapped st).
Definition set_word w st :=
  MkV6 (<[Z.to_nat (v6_i st) := w]> (words st)) (hole st) (v6_i st) (v6_port st) (ipv4_mapped st).

(** The character behind the current one, NUL behind the last chunk. *)
Definition v6_next (cur : bytes) (rest : list bytes) : outcome Z :=
  match cur, rest with
  | x :: _, _ => Ok x
  | [], (x :: _) :: _ => Ok x
  | [], [] :: _ => Bug
  | [], [] => Ok 0
  end.

(** Stepping over that character. *)
Definition v6_skip (cur : bytes) (rest : list bytes) : bytes * list bytes :=
  match cur, rest with
  | _ :: cur, _ => (cur, rest)
  | [], (_ :: c) :: rest => (c, rest)
  | [], _ => ([], rest)
  end.

(** A colon: whether a second one was eaten, and the new state. *)
Definition v6_colon (next : Z) (st : V6) : outcome (option (bool * V6)) :=
  match word st (v6_i st) with
  | Bug => Bug
  | Ok w =>
      let go b st := Ok (Some (b, set_i (if v6_port st =? 1 then 8 else v6_i st + 1) st)) in
      if next =? 58 then
        let i := if negb (w =? -1) then v6_i st + 1 else v6_i st in
        go true (set_hole i (set_i i st))
      else if w =? -1 then Ok None
      else go false st
  end.

Definition v6_dot (st : V6) : option V6 :=
  let i := v6_i st + 1 in
  let w k := default (-1) (words st !! k) in
  if ipv4_mapped st then Some (set_i i st)
  else if negb (w 0%nat =? -1) || negb (w 1%nat =? 0xFFFF) || (w 2%nat =? -1) || negb (i =? 3)
          || negb (hole st =? 0) then None
  else
    let w0 := Z.shiftr (Z.land (w 2%nat) 0xF000) 12 * 1000
              + Z.shiftr (Z.land (w 2%nat) 0x0F00) 8 * 100
              + Z.shiftr (Z.land (w 2%nat) 0x00F0) 4 * 10 + Z.land (w 2%nat) 0x000F in
    if 255 <? w0 then None
    else Some (MkV6 (<[0%nat := w0]> (<[1%nat := -1]> (<[2%nat := -1]> (words st))))
                    (hole st) 1 (v6_port st) true).

Definition v6_xdigit (p : Z) (st : V6) : outcome (option V6) :=
  match word st (v6_i st) with
  | Bug => Bug
  | Ok w =>
      let w := if w =? -1 then 0 else w in
      if ipv4_mapped st || (v6_port st =? 1) then
        if negb (isdigit p) then Ok None
        else
          let w := w * 10 + p - 48 in
          if negb (v6_port st =? 0)
          then Ok (if 0xFFFF <? w then None else Some (set_word w st))
          else Ok (if ipv4_mapped st && (255 <? w) then None else Some (set_word w st))
      else
        let w := Z.lor (Z.shiftl w 4) (XD p) in
        Ok (if 0xFFFF <? w then None else Some (set_word w st))
  end.

(** The characters in the chunks, [cur] being what is left of the current one. *)
Fixpoint v6_loop (fuel : nat) (cur : bytes) (rest : list bytes) (st : V6) : outcome (option V6) :=
  match fuel with
  | O => Bug
  | S fuel =>
      match cur, rest with
      | [], [] => Ok (Some st)
      | [], c :: rest => v6_loop fuel c rest st
      | p :: cur, _ =>
          if (7 <? v6_i st) && negb ((v6_i st =? 8) && (v6_port st =? 1)) then Ok None
          else if p =? 91 then v6_loop fuel cur rest (set_vport 0 st)
          else if p =? 58 then
            match v6_next cur rest with
            | Bug => Bug
            | Ok next =>
                match v6_colon next st with
                | Bug => Bug
                | Ok None => Ok None
                | Ok (Some (true, st)) =>
                    let '(cur, rest) := v6_skip cur rest in v6_loop fuel cur rest st
                | Ok (Some (false, st)) => v6_loop fuel cur rest st
                end
            end
          else if p =? 46 then
            match v6_dot st with Some st => v6_loop fuel cur rest st | None => Ok None end
          else if isxdigit p then
            match v6_xdigit p st with
            | Bug => Bug
            | Ok None => Ok None
            | Ok (Some st) => v6_loop fuel cur rest st
            end
          else if p =? 93 then v6_loop fuel cur rest (set_vport 1 st)
          else Ok None
      end
  end.

Definition v6_sane (st : V6) : bool :=
  let w8 := default (-1) (words st !! 8%nat) in
  negb ((v6_port st =? 0) || negb (v6_port st =? -1) && (w8 <=? 0)
        || ipv4_mapped st && (hole st =? -1)
        || ipv4_mapped st && (v6_port st =? -1) && negb (v6_i st =? 3)
        || (v6_port st =? 1) && negb (v6_i st =? 8)
        || (v6_port st =? -1) && (v6_i st <? 7) && (hole st =? -1)).

(** The loop that copies the words to the address, from the last one to the first. *)
Fixpoint v6_copy (fuel : nat) (ws : list Z) (hole i a : Z) (out : bytes) : outcome bytes :=
  if negb ((0 <=? i) && (0 <=? a)) then Ok out
  else
    match fuel with
    | O => Bug
    | S fuel =>
        let w := default (-1) (ws !! Z.to_nat i) in
        if w =? -1 then
          if hole <? i then v6_copy fuel ws hole (i - 1) a out
          else v6_copy fuel ws hole (if (a =? i) && negb (i =? 0) then i - 1 else i) (a - 1) out
        else
          v6_copy fuel ws hole (i - 1) (a - 1)
            (<[Z.to_nat (2 * a) := u8 (Z.shiftr w 8)]> (<[Z.to_nat (2 * a + 1) := u8 w]> out))
    end.

Definition tfw_addr_pton_v6 (cs : list bytes) : outcome (option TfwAddr) :=
  match v6_loop (length (concat cs) + length cs + 1) [] cs v6_init with
  | Bug => Bug
  | Ok None => Ok None
  | Ok (Some st) =>
      if negb (v6_sane st) then Ok None
      else
        let w k := default (-1) (words st !! k) in
        let addr :=
          if ipv4_mapped st
          then Ok (tfw_addr_set_v4
                 (u32 (Z.lor (Z.lor (Z.lor (Z.shiftl (w 0%nat) 24) (Z.shiftl (w 1%nat) 16))
                                    (Z.shiftl (w 2%nat) 8)) (w 3%nat))))
          else v6_copy 17 (words st) (hole st) 7 7 (replicate 16 0) in
        match addr with
        | Bug => Bug
        | Ok addr =>
            Ok (Some (MkAddr AF_INET6 addr
                        (if v6_port st =? -1 then TFW_ADDR_STR_DEF_PORT else u16 (w 8%nat)) 0))
        end
  end.

(** The first character that is not a digit. *)
Fixpoint first_delim (l : bytes) : option Z :=
  match l with
  | [] => None
  | p :: l => if isdigit p then first_delim l else Some p
  end.

(** [tfw_addr_pton()]: the kind of the address is decided on the first character, or on the first
    one that is not a digit. *)
Definition tfw_addr_pton (str : TfwStr) (addr : TfwAddr) : outcome (option TfwAddr) :=
  match (if TFW_STR_PLAIN str then data str !! 0%nat
         else match chunks str with c :: _ => data c !! 0%nat | [] => None end),
        chunk_texts (str_chunks str) with
  | Some first, Ok cs =>
      if (first =? 91) || isalpha first then tfw_addr_pton_v6 cs
      else match first_delim (concat cs) with
           | None => Ok None
           | Some p =>
               if p =? 58 then tfw_addr_pton_v6 cs
               else if p =? 46 then Ok (tfw_addr_pton_v4 cs addr)
               else Ok None
           end
  | _, _ => Bug
  end.

(** ** Comparison *)

Definition tfw_addr_eq (a b : TfwAddr) : outcome bool :=
  if negb (sin6_family a =? AF_INET6) || negb (sin6_family b =? AF_INET6) then Bug
  else Ok ((sin6_port a =? sin6_port b) && bool_decide (s6_addr a = s6_addr b)).

Definition v4_bytes (a : TfwAddr) : bytes := drop 12 (s6_addr a).

(** [IN_LOOPBACK()] and [IN6_LOOPBACK()] *)
Definition IN_LOOPBACK (b : bytes) : bool := byte_at b 0 =? 127.
Definition IN6_LOOPBACK (b : bytes) : bool := bool_decide (b = replicate 15 0 ++ [1]).

Definition tfw_addr_ifmatch (server listener : TfwAddr) : outcome bool :=
  if negb (sin6_family server =? AF_INET6) then Bug
  else if negb (sin6_port listener =? sin6_port server) then Ok false
  else if tfw_addr_is_v4mapped server && tfw_addr_is_v4mapped listener then
    if bool_decide (v4_bytes listener = replicate 4 0) && IN_LOOPBACK (v4_bytes server) then Ok true
    else tfw_addr_eq server listener
  else if bool_decide (s6_addr listener = replicate 16 0) && IN6_LOOPBACK (s6_addr server) then Ok true
  else tfw_addr_eq server listener.

(** ** Printing *)

Definition dec_digit (d : Z) : Z := u8 (d + 48).

(** [tfw_put_dec()]: digits by multiplication and shifts in [u32]. *)
Definition tfw_put_dec (q : Z) : bytes :=
  let dn := 1 + (if 9 <? q then 1 else 0) + (if 99 <? q then 1 else 0)
            + (if 999 <? q then 1 else 0) + (if 9999 <? q then 1 else 0) in
  let two q := let r := Z.shiftr (u32 (q * 0x000d)) 7 in [dec_digit r; dec_digit (q - 10 * r)] in
  let three q :=
    let r := Z.shiftr (u32 (q * 0x00cd)) 11 in
    let q' := Z.shiftr (u32 (r * 0x000d)) 7 in
    [dec_digit q'; dec_digit (r - 10 * q'); dec_digit (q - 10 * r)] in
  if dn =? 4 then
    let r := Z.shiftr (u32 (q * 0x0ccd)) 15 in
    let q' := Z.shiftr (u32 (r * 0x00cd)) 11 in
    two q' ++ [dec_digit (r - 10 * q'); dec_digit (q - 10 * r)]
  else if dn =? 2 then two q
  else if dn =? 5 then
    let r := Z.shiftr (u32 (q * 0xcccd)) 19 in
    let q' := Z.shiftr (u32 (r * 0x0ccd)) 15 in
    three q' ++ [dec_digit (r - 10 * q'); dec_digit (q - 10 * r)]
  else if dn =? 3 then three q
  else [dec_digit q].

Definition hex_asc (d : Z) : Z := if d <? 10 then 48 + d else 87 + d.

Definition tfw_put_ipv6_digit_group (g : Z) : bytes :=
  let d sh := hex_asc (Z.land (Z.shiftr g sh) 0xF) in
  (if 0xFFF <? g then [hex_asc (Z.shiftr g 12)] else []) ++ (if 0xFF <? g then [d 8] else [])
  ++ (if 0xF <? g then [d 4] else []) ++ [hex_asc (Z.land g 0xF)].

Definition SHOULD_PRINT_PORT (print_port : bool) (port : Z) : bool :=
  print_port && negb (port =? 0) && negb (port =? TFW_ADDR_STR_DEF_PORT).

Definition tfw_addr_fmt_v4 (a : TfwAddr) (print_port : bool) : bytes :=
  let o i := tfw_put_dec (byte_at (v4_bytes a) i) in
  o 0%nat ++ [46] ++ o 1%nat ++ [46] ++ o 2%nat ++ [46] ++ o 3%nat
  ++ (if SHOULD_PRINT_PORT print_port (sin6_port a) then [58] ++ tfw_put_dec (sin6_port a) else []).

(** The loop over the groups and the last group; [out] is what has been written. *)
Fixpoint fmt_groups (gs : list Z) (out : bytes) (omitted : bool) : bytes :=
  match gs with
  | [] => out
  | [g] => out ++ tfw_put_ipv6_digit_group g
  | g :: (g' :: tl) as gs' =>
      if negb (g =? 0) || omitted
      then fmt_groups gs' (out ++ tfw_put_ipv6_digit_group g ++ [58]) omitted
      else if negb (g' =? 0) || bool_decide (tl = [])
      then fmt_groups gs' (out ++ (if bool_decide (last out = Some 58) then [] else [58]) ++ [58]) true
      else fmt_groups gs' out omitted
  end.

Definition tfw_addr_fmt (a : TfwAddr) (print_port : bool) : bytes :=
  if tfw_addr_is_v4mapped a then tfw_addr_fmt_v4 a print_port
  else
    let pp := SHOULD_PRINT_PORT print_port (sin6_port a) in
    fmt_groups (group (s6_addr a) <$> seq 0 8) (if pp then [91] else []) false
    ++ (if pp then [93; 58] ++ tfw_put_dec (sin6_port a) else []).

(** [tfw_addr_ntop()]: the text, without its NUL. *)
Definition tfw_addr_ntop (a : TfwAddr) (buf_size : Z) : outcome bytes :=
  if negb (sin6_family a =? AF_INET6) then Bug
  else if buf_size <? TFW_ADDR_STR_BUF_SIZE then Bug
  else let s := tfw_addr_fmt a true in if buf_size <=? zlen s then Bug else Ok s.

(** ** Numbers as text *)

(** Numbers whose first two of at most four digits are 69, 79, 89 or 99. *)
Definition dec_bad (q : Z) : bool :=
  let r := if q <? 100 then q else if q <? 1000 then q / 10 else if q <? 10000 then q / 100 else 0 in
  (r =? 69) || (r =? 79) || (r =? 89) || (r =? 99).

(** Reading digits the way both parsers do; [-1] stands for no digit. *)
Fixpoint dec_run (lim : Z) (l : bytes) (acc : Z) : option Z :=
  match l with
  | [] => Some acc
  | p :: l =>
      let acc := (if acc =? -1 then 0 else acc) * 10 + p - 48 in
      if isdigit p && (acc <=? lim) then dec_run lim l acc else None
  end.

Fixpoint hex_run (l : bytes) (acc : Z) : option Z :=
  match l with
  | [] => Some acc
  | p :: l =>
      let acc := Z.lor (Z.shiftl (if acc =? -1 then 0 else acc) 4) (XD p) in
      if isxdigit p && (acc <=? 0xFFFF) then hex_run l acc else None
  end.

Definition eq_some (o : option Z) (q : Z) : bool := match o with Some x => x =? q | None => false end.

(** The two digits in front, as [tfw_put_dec()] computes them. *)
Definition put_two (q : Z) : bytes := let r := Z.shiftr (u32 (q * 0x000d)) 7 in [dec_digit r; dec_digit (q - 10 * r)].

Definition two_test (q : Z) : bool :=
  let bad := (q =? 69) || (q =? 79) || (q =? 89) || (q =? 99) in
  let ok lim := if bad then bool_decide (dec_run lim (put_two q) (-1) = None)
                else bool_decide (dec_run lim (put_two q) (-1) = Some q) in
  (q <? 10) || ok 255 && ok 0xFFFF.

Lemma two_tests : forallb two_test (seqZ 0 100) = true.
Proof. vm_compute. reflexivity. Qed.

Lemma digit_tests : forallb (fun d => (dec_digit d - 48 =? d) && isdigit (dec_digit d)) (seqZ 0 10) = true.
Proof. vm_compute. reflexivity. Qed.

Lemma xdigit_tests : forallb (fun d => (XD (hex_asc d) =? d) && isxdigit (hex_asc d)) (seqZ 0 16) = true.
Proof. vm_compute. reflexivity. Qed.

Lemma forall_below (f : Z -> bool) n q : forallb f (seqZ 0 n) = true -> 0 <= q < n -> f q = true.
Proof. intros Hf Hq. rewrite forallb_forall in Hf. apply Hf. apply list_elem_of_In, elem_of_seqZ. lia. Qed.

Lemma digit_spec d : 0 <= d < 10 -> dec_digit d = d + 48 /\ isdigit (dec_digit d) = true.
Proof. intros Hd. pose proof (forall_below _ _ d digit_tests ltac:(lia)). simpl in *. bool_hyps. split; [lia | done]. Qed.

Lemma dec_run_app lim a b acc :
  dec_run lim (a ++ b) acc = match dec_run lim a acc with Some x => dec_run lim b x | None => None end.
Proof.
  revert acc. induction a as [| p a IH]; intros acc; [done |]. simpl. destruct (_ && _); [apply IH | done].
Qed.

Lemma dec_run_snoc lim t r d :
  dec_run lim t (-1) = Some r -> 0 <= r -> 0 <= d < 10 -> r * 10 + d <= lim ->
  dec_run lim (t ++ [dec_digit d]) (-1) = Some (r * 10 + d).
Proof.
  intros Ht Hr Hd Hl. rewrite dec_run_app, Ht. simpl. destruct (digit_spec d Hd) as [-> ->].
  replace (r =? -1) with false by (symmetry; apply Z.eqb_neq; lia).
  replace (r * 10 + (d + 48) - 48) with (r * 10 + d) by lia.
  replace (r * 10 + d <=? lim) with true by (symmetry; apply Z.leb_le; lia). done.
Qed.

Lemma put_two_spec q lim :
  10 <= q < 100 -> lim = 255 \/ lim = 0xFFFF ->
  dec_run lim (put_two q) (-1)
  = if (q =? 69) || (q =? 79) || (q =? 89) || (q =? 99) then None else Some q.
Proof.
  intros Hq Hlim. pose proof (forall_below _ _ q two_tests ltac:(lia)) as Ht. unfold two_test in Ht.
  replace (q <? 10) with false in Ht by (symmetry; apply Z.ltb_ge; lia).
  apply andb_true_iff in Ht as [H1 H2]. simpl in H1.
  destruct (_ || _ || _ || _); destruct Hlim as [-> | ->];
    apply bool_decide_eq_true in H1, H2; done.
Qed.

(** Division by ten by a multiplication and a shift. *)
Lemma div10 q m k B :
  0 <= q < B -> 0 <= k -> 10 * m = 2 ^ k + 2 ->
  m * B < 2 ^ 32 -> 2 * B <= 2 ^ k ->
  Z.shiftr (u32 (q * m)) k = q / 10.
Proof.
  intros Hq Hk Hm Hb Hs. rewrite u32_small by (unfold is_u32; nia). rewrite Z.shiftr_div_pow2 by done.
  pose proof (Z.div_mod q 10 ltac:(lia)) as Hd. pose proof (Z.mod_pos_bound q 10 ltac:(lia)) as Hr.
  symmetry. apply (Z.div_unique_pos _ _ _ (q * m - 2 ^ k * (q / 10))); [| lia].
  nia.
Qed.

Lemma dec_run_digits lim t r d q :
  dec_run lim t (-1) = (if dec_bad q then None else Some r) -> 0 <= r -> 0 <= d < 10 -> r * 10 + d <= lim ->
  dec_run lim (t ++ [dec_digit d]) (-1) = if dec_bad q then None else Some (r * 10 + d).
Proof.
  intros Ht Hr Hd Hl. destruct (dec_bad q); [by rewrite dec_run_app, Ht | by apply dec_run_snoc].
Qed.

Lemma dec_bad_div q : 100 <= q < 10000 -> dec_bad q = dec_bad (q / 10).
Proof.
  intros Hq. pose proof (Z.div_mod q 10 ltac:(lia)). pose proof (Z.mod_pos_bound q 10 ltac:(lia)).
  unfold dec_bad. rewrite (Zdiv_Zdiv q 10 10) by lia. change (10 * 10) with 100.
  destruct (Z.ltb_spec q 100); [lia |]. destruct (Z.ltb_spec (q / 10) 100); destruct (Z.ltb_spec q 1000);
    destruct (Z.ltb_spec (q / 10) 1000); destruct (Z.ltb_spec q 10000); try lia; done.
Qed.

Ltac div_side := solve [lia | vm_compute; first [reflexivity | intros; discriminate]].

Lemma div10_bounds x : 0 <= x mod 10 < 10 /\ x = x / 10 * 10 + x mod 10.
Proof. pose proof (Z.mod_pos_bound x 10). pose proof (Z.div_mod x 10). lia. Qed.

(** [tfw_put_dec()] by the number of digits. *)
Lemma put_dec_cases q :
  0 <= q < 65536 ->
  tfw_put_dec q =
    if q <? 10 then [dec_digit q] else if q <? 100 then put_two q
    else if q <? 1000 then put_two (q / 10) ++ [dec_digit (q mod 10)]
    else if q <? 10000 then put_two (q / 10 / 10) ++ [dec_digit (q / 10 mod 10); dec_digit (q mod 10)]
    else put_two (q / 10 / 10 / 10) ++ [dec_digit (q / 10 / 10 mod 10); dec_digit (q / 10 mod 10); dec_digit (q mod 10)].
Proof.
  intros Hq. unfold tfw_put_dec.
  assert (H10 : forall x, x - 10 * (x / 10) = x mod 10) by (intros x; pose proof (Z.div_mod x 10); lia).
  pose proof (div10_bounds q). pose proof (div10_bounds (q / 10)). pose proof (div10_bounds (q / 10 / 10)).
  destruct (Z.ltb_spec 9 q), (Z.ltb_spec 99 q), (Z.ltb_spec 999 q), (Z.ltb_spec 9999 q); try lia;
  destruct (Z.ltb_spec q 10), (Z.ltb_spec q 100), (Z.ltb_spec q 1000), (Z.ltb_spec q 10000); try lia; simpl Z.eqb; cbv iota zeta.
  - rewrite (div10 q 0xcccd 19 65536) by div_side.
    rewrite (div10 (q / 10) 0x0ccd 15 6554) by div_side.
    rewrite (div10 (q / 10 / 10) 0x00cd 11 656) by div_side. unfold put_two. simpl. by rewrite !H10.
  - rewrite (div10 q 0x0ccd 15 10000) by div_side.
    rewrite (div10 (q / 10) 0x00cd 11 1000) by div_side. unfold put_two. simpl. by rewrite !H10.
  - rewrite (div10 q 0x00cd 11 1000) by div_side. unfold put_two. simpl. by rewrite !H10.
  - done.
  - done.
Qed.

Lemma dec_good q : 0 <= q < 69 \/ 10000 <= q -> dec_bad q = false.
Proof.
  intros Hq. unfold dec_bad.
  repeat match goal with |- context [?a <? ?b] => destruct (Z.ltb_spec a b); try lia end; try done;
    rewrite !orb_false_iff, !Z.eqb_neq; lia.
Qed.

Lemma snoc2 {A} (a b : A) : [a; b] = [a] ++ [b].
Proof. done. Qed.

Ltac zlens := unfold zlen, put_two; cbn [length app]; lia.

Ltac next_digit x :=
  replace (Some x) with (Some (x / 10 * 10 + x mod 10)) by (f_equal; lia); apply dec_run_digits; try lia.

Lemma put_dec_spec q lim :
  0 <= q < 65536 -> lim = 255 \/ lim = 0xFFFF -> q <= lim ->
  dec_run lim (tfw_put_dec q) (-1) = (if dec_bad q then None else Some q)
  /\ 1 <= zlen (tfw_put_dec q) <= 5 /\ (q <= 255 -> zlen (tfw_put_dec q) <= 3).
Proof.
  intros Hq Hlim Hl. rewrite put_dec_cases by done.
  pose proof (div10_bounds q) as [Hm0 He0]. pose proof (div10_bounds (q / 10)) as [Hm1 He1].
  pose proof (div10_bounds (q / 10 / 10)) as [Hm2 He2].
  assert (Htwo : forall x, 10 <= x < 100 -> dec_run lim (put_two x) (-1) = if dec_bad x then None else Some x).
  { intros x Hx. rewrite put_two_spec by done. unfold dec_bad.
    by replace (x <? 100) with true by (symmetry; apply Z.ltb_lt; lia). }
  destruct (Z.ltb_spec q 10).
  { split; [| zlens]. rewrite dec_good by lia. cbn [dec_run].
    destruct (digit_spec q ltac:(lia)) as [-> ->]. change (-1 =? -1) with true. cbv iota zeta.
    replace (0 * 10 + (q + 48) - 48) with q by lia.
    by replace (q <=? lim) with true by (symmetry; apply Z.leb_le; lia). }
  destruct (Z.ltb_spec q 100); [split; [by apply Htwo | zlens] |].
  destruct (Z.ltb_spec q 1000).
  { split; [| zlens]. next_digit q.
    rewrite dec_bad_div by lia. apply Htwo. lia. }
  rewrite (snoc2 (dec_digit (q / 10 mod 10)) (dec_digit (q mod 10))).
  destruct (Z.ltb_spec q 10000).
  { split; [| zlens]. rewrite app_assoc. next_digit q.
    next_digit (q / 10). rewrite dec_bad_div, dec_bad_div by lia. apply Htwo. lia. }
  split; [| zlens]. destruct Hlim as [-> | ->]; [lia |].
  match goal with |- dec_run _ (?t ++ ?a :: ?l) _ = _ => change (t ++ a :: l) with (t ++ [a] ++ l) end.
  rewrite !app_assoc. next_digit q.
  next_digit (q / 10). next_digit (q / 10 / 10).
  rewrite Htwo by lia. rewrite !dec_good by lia. done.
Qed.

Lemma hex_spec d : 0 <= d < 16 -> XD (hex_asc d) = d /\ isxdigit (hex_asc d) = true.
Proof. intros Hd. pose proof (forall_below _ _ d xdigit_tests ltac:(lia)). simpl in *. bool_hyps. done. Qed.

Lemma lor_digit r d : 0 <= r -> 0 <= d < 16 -> Z.lor (Z.shiftl r 4) d = r * 16 + d.
Proof.
  intros Hr Hd. rewrite Z.shiftl_mul_pow2 by lia. change (2 ^ 4) with 16.
  rewrite <- Z.add_nocarry_lor; [lia |]. apply Z.bits_inj_0. intros n. rewrite Z.land_spec.
  destruct (Z.ltb_spec n 0); [by rewrite Z.testbit_neg_r |].
  destruct (Z.ltb_spec n 4).
  - change 16 with (2 ^ 4). rewrite Z.mul_pow2_bits_low by lia. done.
  - rewrite (Z.testbit_eqb d n) by lia. rewrite Z.div_small; [by rewrite andb_false_r |].
    split; [lia |]. apply Z.lt_le_trans with (2 ^ 4); [lia |]. apply Z.pow_le_mono_r; lia.
Qed.

Lemma hex_run_app a b acc :
  hex_run (a ++ b) acc = match hex_run a acc with Some x => hex_run b x | None => None end.
Proof.
  revert acc. induction a as [| p a IH]; intros acc; [done |]. simpl. destruct (_ && _); [apply IH | done].
Qed.

Lemma hex_run_snoc t r d :
  hex_run t (-1) = Some r -> 0 <= r -> 0 <= d < 16 -> r * 16 + d <= 0xFFFF ->
  hex_run (t ++ [hex_asc d]) (-1) = Some (r * 16 + d).
Proof.
  intros Ht Hr Hd Hl. rewrite hex_run_app, Ht. cbn [hex_run]. destruct (hex_spec d Hd) as [-> ->].
  replace (r =? -1) with false by (symmetry; apply Z.eqb_neq; lia). rewrite lor_digit by lia.
  by replace (r * 16 + d <=? 0xFFFF) with true by (symmetry; apply Z.leb_le; lia).
Qed.

Lemma hex_run_one d : 0 <= d < 16 -> hex_run [hex_asc d] (-1) = Some d.
Proof.
  intros Hd. cbn [hex_run]. destruct (hex_spec d Hd) as [-> ->]. change (-1 =? -1) with true. cbv iota.
  rewrite lor_digit by lia. replace (0 * 16 + d) with d by lia.
  by replace (d <=? 0xFFFF) with true by (symmetry; apply Z.leb_le; lia).
Qed.

Lemma div16_bounds x : 0 <= x mod 16 < 16 /\ x = x / 16 * 16 + x mod 16.
Proof. pose proof (Z.mod_pos_bound x 16). pose proof (Z.div_mod x 16). lia. Qed.

Lemma put_group_cases g :
  0 <= g < 65536 ->
  tfw_put_ipv6_digit_group g =
    if g <? 16 then [hex_asc (g mod 16)]
    else if g <? 256 then [hex_asc (g / 16)] ++ [hex_asc (g mod 16)]
    else if g <? 4096 then [hex_asc (g / 16 / 16)] ++ [hex_asc (g / 16 mod 16)] ++ [hex_asc (g mod 16)]
    else [hex_asc (g / 16 / 16 / 16)] ++ [hex_asc (g / 16 / 16 mod 16)] ++ [hex_asc (g / 16 mod 16)]
         ++ [hex_asc (g mod 16)].
Proof.
  intros Hg. unfold tfw_put_ipv6_digit_group.
  change 0xF with (Z.ones 4). rewrite !Z.land_ones by lia. rewrite !Z.shiftr_div_pow2 by lia.
  change (2 ^ 4) with 16. change (2 ^ 8) with (16 * 16). change (2 ^ 12) with (16 * 16 * 16).
  rewrite <- !Zdiv_Zdiv by lia.
  pose proof (div16_bounds g). pose proof (div16_bounds (g / 16)). pose proof (div16_bounds (g / 16 / 16)).
  change (Z.ones 4) with 15.
  destruct (Z.ltb_spec 15 g), (Z.ltb_spec 255 g), (Z.ltb_spec 4095 g); try lia;
    destruct (Z.ltb_spec g 16), (Z.ltb_spec g 256), (Z.ltb_spec g 4096); try lia; cbn [app];
    rewrite ?(Z.mod_small (g / 16) 16), ?(Z.mod_small (g / 16 / 16) 16) by lia; done.
Qed.

Lemma put_group_spec g :
  0 <= g < 65536 ->
  hex_run (tfw_put_ipv6_digit_group g) (-1) = Some g /\ 1 <= zlen (tfw_put_ipv6_digit_group g) <= 4.
Proof.
  intros Hg. rewrite put_group_cases by done.
  pose proof (div16_bounds g) as [? He0]. pose proof (div16_bounds (g / 16)) as [? He1].
  pose proof (div16_bounds (g / 16 / 16)) as [? He2].
  assert (Hs : forall t x, hex_run t (-1) = Some (x / 16) -> 0 <= x < 65536 -> 0 <= x mod 16 < 16 ->
            x = x / 16 * 16 + x mod 16 -> hex_run (t ++ [hex_asc (x mod 16)]) (-1) = Some x).
  { intros t x Ht Hx Hm He. rewrite He at 2. apply hex_run_snoc; [done | lia | lia | lia]. }
  destruct (Z.ltb_spec g 16).
  { split; [| zlens]. rewrite Z.mod_small by lia. apply hex_run_one. lia. }
  destruct (Z.ltb_spec g 256).
  { split; [| zlens]. apply Hs; try lia. apply hex_run_one. lia. }
  destruct (Z.ltb_spec g 4096).
  { split; [| zlens]. rewrite app_assoc. apply Hs; try lia. apply Hs; try lia. apply hex_run_one. lia. }
  split; [| zlens]. rewrite !app_assoc. apply Hs; try lia. apply Hs; try lia. apply Hs; try lia.
  apply hex_run_one. lia.
Qed.

(** ** The IPv4 parser on printed text *)

Lemma v4_digits lim l acc q i port a rest :
  dec_run lim l acc = Some q -> acc = -1 \/ 0 <= acc -> lim = (if port : bool then 0xFFFF else 255) ->
  v4_loop (l ++ rest) (MkV4 acc i port a) = v4_loop rest (MkV4 q i port a).
Proof.
  intros Hr Hacc Hlim. revert acc Hr Hacc. induction l as [| p l IH]; intros acc Hr Hacc.
  { simpl in Hr. by simplify_eq. }
  cbn [dec_run] in Hr. cbn [app v4_loop]. unfold v4_char. cbn [v4_octet v4_port v4_i v4_a].
  set (x := (if acc =? -1 then 0 else acc) * 10 + p - 48) in *.
  destruct (isdigit p) eqn:Hd; [| done]. simpl andb in Hr. destruct (Z.leb_spec x lim) as [Hx |]; [| done].
  replace (if acc =? -1 then p - 48 else acc * 10 + p - 48) with x
    by (unfold x; destruct (Z.eqb_spec acc (-1)); lia).
  assert (negb port && (255 <? x) || (0xFFFF <? x) = false) as ->.
  { rewrite Hlim in Hx. destruct port; simpl; [apply Z.ltb_ge; lia |].
    apply orb_false_iff; split; apply Z.ltb_ge; lia. }
  apply IH; [done |]. right. unfold isdigit in Hd. bool_hyps. unfold x. destruct (Z.eqb_spec acc (-1)); lia.
Qed.

Lemma v4_sep p q i port a rest :
  0 <= q -> p = 46 /\ i < 4 \/ p = 58 /\ i = 3 ->
  v4_loop (p :: rest) (MkV4 q i port a)
  = v4_loop rest (MkV4 (-1) (i + 1) (p =? 58) (<[Z.to_nat (12 + i) := u8 q]> a)).
Proof.
  intros Hq Hp. cbn [v4_loop]. unfold v4_char. cbn [v4_octet v4_port v4_i v4_a].
  replace (0 <=? q) with true by (symmetry; apply Z.leb_le; lia).
  destruct Hp as [[-> Hi] | [-> ->]]; simpl; [| done].
  by replace (i <? 4) with true by (symmetry; apply Z.ltb_lt; lia).
Qed.

Lemma v4_number q i port a rest :
  0 <= q <= (if port : bool then 0xFFFF else 255) -> dec_bad q = false ->
  v4_loop (tfw_put_dec q ++ rest) (MkV4 (-1) i port a) = v4_loop rest (MkV4 q i port a).
Proof.
  intros Hq Hb. apply v4_digits with (lim := if port then 0xFFFF else 255); [| by left | done].
  destruct (put_dec_spec q (if port then 0xFFFF else 255)) as [-> _].
  - destruct port; lia.
  - destruct port; [by right | by left].
  - lia.
  - by rewrite Hb.
Qed.

(** The port that reading yields. *)
Definition read_port (port : Z) : Z := if port =? 0 then TFW_ADDR_STR_DEF_PORT else port.

Definition port_bad (port : Z) : bool := SHOULD_PRINT_PORT true port && dec_bad port.

Lemma v4_roundtrip cs a0 fam o0 o1 o2 o3 port sc :
  is_u8 o0 -> is_u8 o1 -> is_u8 o2 -> is_u8 o3 -> is_u16 port ->
  Forall (fun o => dec_bad o = false) [o0; o1; o2; o3] -> port_bad port = false ->
  concat cs = tfw_addr_fmt_v4 (MkAddr fam (v4_prefix ++ [o0; o1; o2; o3]) port sc) true ->
  tfw_addr_pton_v4 cs a0
  = Some (MkAddr AF_INET6 (v4_prefix ++ [o0; o1; o2; o3]) (read_port port) (sin6_scope_id a0)).
Proof.
  unfold is_u8, is_u16. intros H0 H1 H2 H3 Hp Hbad Hpb Hcs.
  apply Forall_cons in Hbad as [Hb0 Hbad]. apply Forall_cons in Hbad as [Hb1 Hbad].
  apply Forall_cons in Hbad as [Hb2 Hbad]. apply Forall_cons in Hbad as [Hb3 _].
  assert (Ht : tfw_addr_fmt_v4 (MkAddr fam (v4_prefix ++ [o0; o1; o2; o3]) port sc) true
    = tfw_put_dec o0 ++ 46 :: tfw_put_dec o1 ++ 46 :: tfw_put_dec o2 ++ 46 :: tfw_put_dec o3
      ++ (if SHOULD_PRINT_PORT true port then 58 :: tfw_put_dec port else [])) by reflexivity.
  unfold tfw_addr_pton_v4. rewrite Hcs, Ht. clear Hcs Ht.
  rewrite v4_number by (simpl; lia || done). rewrite v4_sep by lia.
  rewrite v4_number by (simpl; lia || done). rewrite v4_sep by lia.
  rewrite v4_number by (simpl; lia || done). rewrite v4_sep by lia.
  rewrite v4_number by (simpl; lia || done).
  assert (Hu : forall o, 0 <= o < 2 ^ 8 -> u8 o = o) by (intros; by apply Z.mod_small).
  unfold port_bad, read_port in *. unfold SHOULD_PRINT_PORT in *.
  destruct (Z.eqb_spec port 0) as [-> | Hp0].
  { simpl. rewrite !Hu by done. by replace (0 <=? o3) with true by (symmetry; apply Z.leb_le; lia). }
  destruct (Z.eqb_spec port TFW_ADDR_STR_DEF_PORT) as [-> | Hp8].
  { simpl. rewrite !Hu by done. by replace (0 <=? o3) with true by (symmetry; apply Z.leb_le; lia). }
  simpl andb in *. cbv iota. rewrite v4_sep by lia. rewrite <- (app_nil_r (tfw_put_dec port)).
  rewrite v4_number by (simpl; lia || done).
  cbn [v4_loop v4_octet v4_i v4_a]. replace (0 <=? port) with true by (symmetry; apply Z.leb_le; lia).
  simpl. by rewrite !Hu by done.
Qed.

(** ** The IPv6 parser on text in one piece *)

Definition v6_stop (st : V6) : bool := (7 <? v6_i st) && negb ((v6_i st =? 8) && (v6_port st =? 1)).

Fixpoint v6_flat (l : bytes) (st : V6) : outcome (option V6) :=
  match l with
  | [] => Ok (Some st)
  | p :: l =>
      if v6_stop st then Ok None
      else if p =? 91 then v6_flat l (set_vport 0 st)
      else if p =? 58 then
        match v6_colon (hd 0 l) st with
        | Bug => Bug
        | Ok None => Ok None
        | Ok (Some (true, st)) => match l with _ :: l => v6_flat l st | [] => Ok (Some st) end
        | Ok (Some (false, st)) => v6_flat l st
        end
      else if p =? 46 then match v6_dot st with Some st => v6_flat l st | None => Ok None end
      else if isxdigit p then
        match v6_xdigit p st with
        | Bug => Bug
        | Ok None => Ok None
        | Ok (Some st) => v6_flat l st
        end
      else if p =? 93 then v6_flat l (set_vport 1 st)
      else Ok None
  end.

Definition nonempty (l : bytes) : Prop := l <> [].

Lemma v6_next_flat cur rest :
  Forall nonempty rest -> v6_next cur rest = Ok (hd 0 (cur ++ concat rest)).
Proof.
  intros Hf. destruct cur as [| x cur]; [| done]. destruct rest as [| [| y c] rest]; [done | | done].
  apply Forall_cons in Hf as [Hn _]. by destruct Hn.
Qed.

Lemma v6_skip_flat cur rest x l :
  Forall nonempty rest -> cur ++ concat rest = x :: l ->
  (v6_skip cur rest).1 ++ concat (v6_skip cur rest).2 = l /\ Forall nonempty (v6_skip cur rest).2
  /\ (length (v6_skip cur rest).2 <= length rest)%nat.
Proof.
  intros Hf He. destruct cur as [| y cur]; simpl in *.
  - destruct rest as [| [| y c] rest]; simpl in *; [done | |].
    + apply Forall_cons in Hf as [Hn _]. by destruct Hn.
    + apply Forall_cons in Hf as [_ Hf]. simplify_eq. split; [done |]. split; [done | lia].
  - simplify_eq. split; [done |]. split; [done | lia].
Qed.

(** The cuts between chunks do not matter when no chunk is empty. *)
Lemma v6_loop_flat fuel cur rest st :
  Forall nonempty rest -> (length (cur ++ concat rest) + length rest < fuel)%nat ->
  v6_loop fuel cur rest st = v6_flat (cur ++ concat rest) st.
Proof.
  revert cur rest st. induction fuel as [| fuel IH]; intros cur rest st Hf Hl; [lia |].
  destruct cur as [| p cur].
  - destruct rest as [| c rest]; [done |]. simpl in Hl. cbn [v6_loop]. apply Forall_cons in Hf as [_ Hf].
    rewrite IH by (done || lia). done.
  - cbn [v6_loop app v6_flat]. fold (v6_stop st). destruct (v6_stop st); [done |]. simpl in Hl.
    assert (Hrec : forall st, v6_loop fuel cur rest st = v6_flat (cur ++ concat rest) st)
      by (intros; apply IH; [done | lia]).
    rewrite !Hrec. repeat (match goal with |- context [if ?b then _ else _] => destruct b eqn:? end; try done).
    + rewrite v6_next_flat by done. destruct (v6_colon _ st) as [[[[] st']|]|] eqn:Hc; try done.
      destruct (cur ++ concat rest) as [| x l] eqn:He.
      { unfold v6_colon in Hc. destruct (word _ _); [| done]. simpl in Hc. repeat case_match; done. }
      destruct (v6_skip_flat cur rest x l Hf He) as (Hx & Hf' & Hl').
      destruct (v6_skip cur rest) as [c r]. simpl in *. rewrite IH; [by rewrite Hx | done |].
      rewrite Hx. lia.
    + destruct (v6_dot st); [by rewrite Hrec | done].
    + destruct (v6_xdigit p st) as [[]|]; done.
Qed.

(** ** The IPv6 parser on printed text *)

Lemma xdigit_not p : isxdigit p = true -> (p =? 91) = false /\ (p =? 58) = false /\ (p =? 46) = false.
Proof. unfold isxdigit, isdigit. intros Hx. rewrite !Z.eqb_neq. split; [| split]; intros ->; done. Qed.

Lemma xd_range p : isxdigit p = true -> 0 <= XD p < 16.
Proof.
  unfold isxdigit, isdigit, XD, TFW_LC. intros Hx.
  assert (Hp : 48 <= p <= 57 \/ 65 <= p <= 70 \/ 97 <= p <= 102).
  { apply orb_true_iff in Hx as [Hx | Hx]; [apply orb_true_iff in Hx as [Hx | Hx] |]; bool_hyps; lia. }
  destruct (Z.leb_spec 0x41 p), (Z.leb_spec p 0x5a); simpl;
    repeat match goal with |- context [97 <=? ?b] => destruct (Z.leb_spec 97 b) end; lia.
Qed.

Lemma v6_stop_low ws h i port m : 0 <= i <= 7 -> v6_stop (MkV6 ws h i port m) = false.
Proof. intros Hi. unfold v6_stop. simpl. by replace (7 <? i) with false by (symmetry; apply Z.ltb_ge; lia). Qed.

Lemma word_at ws h i port m w : ws !! Z.to_nat i = Some w -> word (MkV6 ws h i port m) i = Ok w.
Proof. intros Hw. unfold word. simpl. by rewrite Hw. Qed.

(** The digits of a group, or of the port behind a bracket. *)
Lemma v6_hex l acc g ws h i port rest :
  hex_run l acc = Some g -> acc = -1 \/ 0 <= acc -> 0 <= i <= 7 -> (port =? 1) = false ->
  ws !! Z.to_nat i = Some acc ->
  v6_flat (l ++ rest) (MkV6 ws h i port false) = v6_flat rest (MkV6 (<[Z.to_nat i := g]> ws) h i port false).
Proof.
  intros Hr Ha Hi Hp. revert acc ws Hr Ha. induction l as [| p l IH]; intros acc ws Hr Ha Hw.
  { simpl in Hr. simplify_eq. simpl. by rewrite list_insert_id. }
  cbn [hex_run] in Hr. set (x := Z.lor (Z.shiftl (if acc =? -1 then 0 else acc) 4) (XD p)) in *.
  destruct (isxdigit p) eqn:Hd; [| done]. simpl andb in Hr. destruct (Z.leb_spec x 0xFFFF) as [Hx |]; [| done].
  destruct (xdigit_not p Hd) as (H1 & H2 & H3). cbn [app v6_flat].
  rewrite v6_stop_low, H1, H2, H3, Hd by done. unfold v6_xdigit. cbn [v6_i ipv4_mapped v6_port].
  rewrite (word_at _ _ _ _ _ acc) by done. rewrite Hp. simpl orb. cbv iota zeta. fold x.
  replace (0xFFFF <? x) with false by (symmetry; apply Z.ltb_ge; lia).
  unfold set_word. cbn [words hole v6_i v6_port ipv4_mapped].
  rewrite (IH x (<[Z.to_nat i := x]> ws) Hr).
  - by rewrite list_insert_insert_eq.
  - right. unfold x. apply Z.lor_nonneg. split; [apply Z.shiftl_nonneg; destruct (Z.eqb_spec acc (-1)); lia |].
    apply xd_range in Hd. lia.
  - apply list_lookup_insert_eq. by eapply lookup_lt_Some.
Qed.

Lemma v6_dec l acc q ws h rest :
  dec_run 0xFFFF l acc = Some q -> acc = -1 \/ 0 <= acc -> ws !! 8%nat = Some acc ->
  v6_flat (l ++ rest) (MkV6 ws h 8 1 false) = v6_flat rest (MkV6 (<[8%nat := q]> ws) h 8 1 false).
Proof.
  intros Hr. revert acc ws Hr. induction l as [| p l IH]; intros acc ws Hr Ha Hw.
  { simpl in Hr. simplify_eq. simpl. by rewrite list_insert_id. }
  cbn [dec_run] in Hr. set (x := (if acc =? -1 then 0 else acc) * 10 + p - 48) in *.
  destruct (isdigit p) eqn:Hd; [| done]. simpl andb in Hr. destruct (Z.leb_spec x 0xFFFF) as [Hx |]; [| done].
  assert (Hxd : isxdigit p = true) by (unfold isxdigit; by rewrite Hd).
  destruct (xdigit_not p Hxd) as (H1 & H2 & H3). cbn [app v6_flat].
  change (v6_stop (MkV6 ws h 8 1 false)) with false. rewrite H1, H2, H3, Hxd. unfold v6_xdigit.
  cbn [v6_i ipv4_mapped v6_port]. rewrite (word_at _ _ _ _ _ acc) by done. rewrite Hd. cbv iota zeta.
  change (false || (1 =? 1)) with true. change (negb (1 =? 0)) with true. cbn [negb]. fold x.
  replace (0xFFFF <? x) with false by (symmetry; apply Z.ltb_ge; lia).
  unfold set_word. cbn [words hole v6_i v6_port ipv4_mapped]. change (Z.to_nat 8) with 8%nat.
  rewrite (IH x (<[8%nat := x]> ws) Hr).
  - by rewrite list_insert_insert_eq.
  - right. unfold x. unfold isdigit in Hd. bool_hyps. destruct (Z.eqb_spec acc (-1)); lia.
  - apply list_lookup_insert_eq. by eapply lookup_lt_Some.
Qed.

(** A single colon goes to the next word, behind a bracket to the port. *)
Lemma v6_colon_one ws h i port w rest :
  0 <= i <= 7 -> ws !! Z.to_nat i = Some w -> w <> -1 -> hd 0 rest <> 58 ->
  v6_flat (58 :: rest) (MkV6 ws h i port false)
  = v6_flat rest (MkV6 ws h (if port =? 1 then 8 else i + 1) port false).
Proof.
  intros Hi Hw Hn Hd. cbn [v6_flat]. rewrite v6_stop_low by done. simpl Z.eqb. cbv iota.
  unfold v6_colon. cbn [v6_i]. rewrite (word_at _ _ _ _ _ w) by done.
  replace (hd 0 rest =? 58) with false by (symmetry; by apply Z.eqb_neq).
  replace (w =? -1) with false by (symmetry; by apply Z.eqb_neq). done.
Qed.

(** A double colon leaves a hole. *)
Lemma v6_colon_two ws h i port w rest :
  0 <= i <= 7 -> ws !! Z.to_nat i = Some w -> (port =? 1) = false ->
  let i' := if w =? -1 then i else i + 1 in
  v6_flat (58 :: 58 :: rest) (MkV6 ws h i port false) = v6_flat rest (MkV6 ws i' (i' + 1) port false).
Proof.
  intros Hi Hw Hp. cbn [v6_flat hd]. rewrite v6_stop_low by done. simpl Z.eqb. cbv iota.
  unfold v6_colon. cbn [v6_i]. rewrite (word_at _ _ _ _ _ w) by done. simpl Z.eqb. cbv iota zeta.
  unfold set_hole, set_i. cbn [words hole v6_i v6_port ipv4_mapped]. rewrite Hp. by destruct (w =? -1).
Qed.

(** Groups separated by colons. *)
Fixpoint join (gs : list Z) : bytes :=
  match gs with
  | [] => []
  | [g] => tfw_put_ipv6_digit_group g
  | g :: gs => tfw_put_ipv6_digit_group g ++ 58 :: join gs
  end.

Lemma put_group_head g l : is_u16 g -> hd 0 (tfw_put_ipv6_digit_group g ++ l) <> 58 /\ tfw_put_ipv6_digit_group g <> [].
Proof.
  intros Hg. destruct (put_group_spec g Hg) as [Hr Hl]. destruct (tfw_put_ipv6_digit_group g) as [| p t].
  { unfold zlen in Hl. simpl in Hl. lia. }
  split; [| done]. simpl. intros ->. simpl in Hr. done.
Qed.

Lemma join_head g gs l : is_u16 g -> hd 0 (join (g :: gs) ++ l) <> 58.
Proof.
  intros Hg. destruct gs; simpl; [by apply put_group_head |]. rewrite <- app_assoc. by apply put_group_head.
Qed.

Lemma v6_join gs pre suf h port rest :
  gs <> [] -> Forall is_u16 gs -> (length pre + length gs <= 8)%nat -> (port =? 1) = false ->
  v6_flat (join gs ++ rest)
    (MkV6 (pre ++ replicate (length gs) (-1) ++ suf) h (zlen pre) port false)
  = v6_flat rest (MkV6 (pre ++ gs ++ suf) h (zlen pre + zlen gs - 1) port false).
Proof.
  intros Hne Hf Hl Hp. revert pre Hne Hl. induction Hf as [| g gs Hg Hf IH]; intros pre Hne Hl; [done |].
  simpl in Hl. destruct (put_group_spec g Hg) as [Hr _].
  assert (Hat : forall l, (pre ++ -1 :: l) !! Z.to_nat (zlen pre) = Some (-1)).
  { intros l. unfold zlen. rewrite Nat2Z.id. by apply list_lookup_middle. }
  assert (Hset : forall l, <[Z.to_nat (zlen pre) := g]> (pre ++ -1 :: l) = pre ++ g :: l).
  { intros l. unfold zlen. rewrite Nat2Z.id. replace (length pre) with (length pre + 0)%nat by lia.
    by rewrite insert_app_r. }
  assert (Hg1 : g <> -1) by (unfold is_u16 in Hg; lia).
  destruct gs as [| g' gs].
  - cbn [join length replicate app]. rewrite (v6_hex _ (-1) g); [| done | by left | unfold zlen; simpl in Hl; lia | done | apply Hat].
    rewrite Hset. f_equal. f_equal. unfold zlen. simpl. lia.
  - cbn [join]. rewrite <- app_assoc. cbn [app]. cbn [length replicate app].
    rewrite (v6_hex _ (-1) g); [| done | by left | unfold zlen; simpl in Hl; lia | done | apply Hat].
    rewrite Hset. rewrite (v6_colon_one _ _ _ _ g).
    + rewrite Hp. replace (zlen pre + 1) with (zlen (pre ++ [g])) by (unfold zlen; rewrite length_app; simpl; lia).
      replace (pre ++ g :: -1 :: replicate (length gs) (-1) ++ suf)
        with ((pre ++ [g]) ++ replicate (length (g' :: gs)) (-1) ++ suf) by (rewrite <- app_assoc; done).
      rewrite IH; [| done | rewrite length_app; simpl in *; lia].
      rewrite <- app_assoc. cbn [app]. f_equal. f_equal. unfold zlen. rewrite length_app. simpl. lia.
    + unfold zlen. simpl in Hl. lia.
    + unfold zlen. rewrite Nat2Z.id. by apply list_lookup_middle.
    + done.
    + apply join_head. by apply Forall_cons in Hf as [? _].
Qed.

Lemma fmt_cons g g' tl out omitted :
  fmt_groups (g :: g' :: tl) out omitted =
    if negb (g =? 0) || omitted
    then fmt_groups (g' :: tl) (out ++ tfw_put_ipv6_digit_group g ++ [58]) omitted
    else if negb (g' =? 0) || bool_decide (tl = [])
    then fmt_groups (g' :: tl) (out ++ (if bool_decide (last out = Some 58) then [] else [58]) ++ [58]) true
    else fmt_groups (g' :: tl) out omitted.
Proof. reflexivity. Qed.

(** What [tfw_addr_fmt()] writes: the first run of zero groups, if any in the first seven, is left out. *)
Lemma fmt_omitted gs out : gs <> [] -> fmt_groups gs out true = out ++ join gs.
Proof.
  revert out. induction gs as [| g gs IH]; intros out Hne; [done |].
  destruct gs as [| g' gs]; [done |]. rewrite fmt_cons, orb_true_r. rewrite IH by done.
  cbn [join]. by rewrite <- !app_assoc.
Qed.

(** Behind a colon or not. *)
Definition hole_text (out : bytes) : bytes := if bool_decide (last out = Some 58) then [58] else [58; 58].

Lemma fmt_shape gs out :
  gs <> [] ->
  exists A n B, gs = A ++ replicate n 0 ++ B /\ B <> [] /\ Forall (fun g => g <> 0) A /\
    fmt_groups gs out false =
      out ++ match n with
             | O => (concat ((fun g => tfw_put_ipv6_digit_group g ++ [58]) <$> A)) ++ join B
             | _ => match A with
                    | [] => hole_text out
                    | _ => concat ((fun g => tfw_put_ipv6_digit_group g ++ [58]) <$> A) ++ [58]
                    end ++ join B
             end
    /\ (n = O -> length B = 1%nat).
Proof.
  revert out. induction gs as [| g gs IH]; intros out Hne; [done |]. destruct gs as [| g' gs].
  { exists [], O, [g]. split; [done |]. split; [done |]. split; [done |]. split; [done | done]. }
  rewrite fmt_cons. destruct (Z.eqb_spec g 0) as [-> | Hg]; simpl negb; simpl orb; cbv iota; cycle 1.
  - destruct (IH (out ++ tfw_put_ipv6_digit_group g ++ [58]) ltac:(done)) as (A & n & B & He & HB & HA & Hf & Hn).
    exists (g :: A), n, B. rewrite He. split; [done |]. split; [done |]. split; [by constructor |].
    rewrite <- He, Hf. split; [| done].
    destruct n; [| destruct A as [| a A]]; rewrite ?fmap_cons; cbn [concat fmap list_fmap];
      [by rewrite <- !app_assoc | | by rewrite <- !app_assoc].
    unfold hole_text. replace (last (out ++ tfw_put_ipv6_digit_group g ++ [58])) with (Some 58);
      [by rewrite <- !app_assoc |].
    rewrite app_assoc. by rewrite last_snoc.
  - destruct (negb (g' =? 0) || bool_decide (gs = [])) eqn:Hz.
    + exists [], 1%nat, (g' :: gs). split; [done |]. split; [done |]. split; [constructor |].
      rewrite fmt_omitted by done. split; [| done]. rewrite <- app_assoc. f_equal. unfold hole_text.
      by destruct (bool_decide (last out = Some 58)).
    + apply orb_false_iff in Hz as [Hz Hnil]. apply negb_false_iff, Z.eqb_eq in Hz. subst g'.
      apply bool_decide_eq_false in Hnil.
      destruct (IH out ltac:(done)) as (A & n & B & He & HB & HA & Hf & Hn).
      destruct A as [| a A]; [| by apply Forall_cons in HA as [Ha _]; simpl in He; simplify_eq].
      exists [], (S n), B. simpl in He. split; [simpl; by rewrite He |]. split; [done |]. split; [done |].
      split; [| done]. rewrite Hf. destruct n; [| done]. specialize (Hn eq_refl).
      destruct B as [| b [| b' B]]; [done | | done]. simpl in He. simplify_eq.
Qed.

Lemma join_app A B :
  B <> [] -> concat ((fun g => tfw_put_ipv6_digit_group g ++ [58]) <$> A) ++ join B = join (A ++ B).
Proof.
  intros HB. induction A as [| a A IH]; [done |]. rewrite fmap_cons. cbn [concat app].
  rewrite <- app_assoc, IH, <- app_assoc. destruct (A ++ B) eqn:He; [| done].
  by apply app_nil in He as [_ ->].
Qed.

Lemma join_colon A :
  A <> [] -> concat ((fun g => tfw_put_ipv6_digit_group g ++ [58]) <$> A) = join A ++ [58].
Proof.
  induction A as [| a A IH]; [done |]. intros _. rewrite fmap_cons. cbn [concat].
  destruct A as [| a' A]; [by rewrite app_nil_r |]. rewrite IH by done. cbn [join]. by rewrite <- !app_assoc.
Qed.

(** ** From words to the address *)

Definition word_bytes (ws : list Z) : bytes := flat_map (fun w => [u8 (Z.shiftr w 8); u8 w]) ws.

Lemma copy_store n w t :
  <[Z.to_nat (2 * Z.of_nat n) := u8 (Z.shiftr w 8)]>
    (<[Z.to_nat (2 * Z.of_nat n + 1) := u8 w]> (replicate (2 * S n) 0 ++ t))
  = replicate (2 * n) 0 ++ word_bytes [w] ++ t.
Proof.
  replace (Z.to_nat (2 * Z.of_nat n + 1)) with (2 * n + 1)%nat by lia.
  replace (Z.to_nat (2 * Z.of_nat n)) with (2 * n)%nat by lia.
  replace (2 * S n)%nat with (2 * n + 2)%nat by lia. rewrite replicate_add, <- app_assoc.
  rewrite insert_app_r_alt by (rewrite length_replicate; lia).
  rewrite insert_app_r_alt by (rewrite length_replicate; lia). rewrite !length_replicate.
  replace (2 * n + 1 - 2 * n)%nat with 1%nat by lia. by replace (2 * n - 2 * n)%nat with 0%nat by lia.
Qed.

Lemma copy_gap n t : replicate (2 * S n) 0 ++ t = replicate (2 * n) 0 ++ [0; 0] ++ t.
Proof. replace (2 * S n)%nat with (2 * n + 2)%nat by lia. by rewrite replicate_add, <- app_assoc. Qed.

(** One round of the loop. *)
Lemma v6_copy_step fuel ws h i a w out :
  ws !! i = Some w ->
  v6_copy (S fuel) ws h (Z.of_nat i) (Z.of_nat a) out =
    if w =? -1 then
      if h <? Z.of_nat i then v6_copy fuel ws h (Z.of_nat i - 1) (Z.of_nat a) out
      else v6_copy fuel ws h (if (Z.of_nat a =? Z.of_nat i) && negb (Z.of_nat i =? 0)
                              then Z.of_nat i - 1 else Z.of_nat i) (Z.of_nat a - 1) out
    else v6_copy fuel ws h (Z.of_nat i - 1) (Z.of_nat a - 1)
           (<[Z.to_nat (2 * Z.of_nat a) := u8 (Z.shiftr w 8)]> (<[Z.to_nat (2 * Z.of_nat a + 1) := u8 w]> out)).
Proof.
  intros Hw. cbn [v6_copy].
  replace ((0 <=? Z.of_nat i) && (0 <=? Z.of_nat a)) with true
    by (symmetry; apply andb_true_iff; split; apply Z.leb_le; lia).
  cbn [negb]. rewrite Nat2Z.id, Hw. done.
Qed.

Lemma v6_copy_end fuel ws h i a out : i < 0 \/ a < 0 -> v6_copy fuel ws h i a out = Ok out.
Proof.
  intros Hia. destruct fuel; cbn [v6_copy];
    replace ((0 <=? i) && (0 <=? a)) with false by (symmetry; apply andb_false_iff; rewrite !Z.leb_gt; lia); done.
Qed.

(** The words in front of the hole. *)
Lemma copy_front A fuel ws h t :
  (forall j w, A !! j = Some w -> ws !! j = Some w /\ w <> -1) -> (2 * length A <= fuel)%nat ->
  v6_copy fuel ws h (zlen A - 1) (zlen A - 1) (replicate (2 * length A) 0 ++ t) = Ok (word_bytes A ++ t).
Proof.
  revert fuel t. induction A as [| w A IH] using rev_ind; intros fuel t Hws Hf.
  { rewrite v6_copy_end by (unfold zlen; simpl; lia). done. }
  rewrite length_app in *. simpl in Hf. destruct fuel as [| fuel]; [lia |].
  assert (Hw : (A ++ [w]) !! length A = Some w) by (by apply list_lookup_middle).
  destruct (Hws _ _ Hw) as [Hw' Hn].
  replace (zlen (A ++ [w]) - 1) with (Z.of_nat (length A)) by (unfold zlen; rewrite length_app; simpl; lia).
  rewrite (v6_copy_step _ _ _ _ _ w) by done.
  replace (w =? -1) with false by (symmetry; by apply Z.eqb_neq).
  cbn [length]. replace (length A + 1)%nat with (S (length A)) by lia. rewrite copy_store.
  change (Z.of_nat (length A)) with (zlen A). rewrite IH; [| | lia].
  - unfold word_bytes. rewrite flat_map_app. by rewrite <- app_assoc.
  - intros j x Hj. apply Hws. by apply lookup_app_l_Some.
Qed.

(** The hole: the place goes down to the place of the hole. *)
Lemma copy_hole A a fuel ws t :
  (forall j w, A !! j = Some w -> ws !! j = Some w /\ w <> -1) -> ws !! length A = Some (-1) ->
  (length A <= a)%nat -> (length A + a < fuel)%nat ->
  v6_copy fuel ws (zlen A) (zlen A) (Z.of_nat a) (replicate (2 * S a) 0 ++ t)
  = Ok (word_bytes A ++ replicate (2 * (S a - length A)) 0 ++ t).
Proof.
  intros Hws Hh. revert fuel t. induction a as [| a IH]; intros fuel t Ha Hf;
    (destruct fuel as [| fuel]; [lia |]).
  - destruct A as [| ? ?]; [| simpl in Ha; lia]. change (zlen (@nil Z)) with (Z.of_nat 0).
    rewrite (v6_copy_step _ _ _ 0%nat _ (-1)) by done. simpl. rewrite v6_copy_end by lia. done.
  - change (zlen A) with (Z.of_nat (length A)). rewrite (v6_copy_step _ _ _ _ _ (-1)) by done.
    change (-1 =? -1) with true. cbv iota. rewrite Z.ltb_irrefl. rewrite copy_gap.
    replace (Z.of_nat (S a) - 1) with (Z.of_nat a) by lia.
    destruct (Z.eqb_spec (Z.of_nat (S a)) (Z.of_nat (length A))) as [He | Hne].
    + replace (Z.of_nat (length A) =? 0) with false by (symmetry; apply Z.eqb_neq; lia). simpl andb. cbv iota.
      replace (Z.of_nat a) with (zlen A - 1) by (unfold zlen; lia).
      replace (2 * S a)%nat with (2 * length A)%nat by lia.
      change (Z.of_nat (length A)) with (zlen A). rewrite copy_front by (done || lia).
      by replace (S (S a) - length A)%nat with 1%nat by lia.
    + simpl andb. cbv iota. change (Z.of_nat (length A)) with (zlen A). rewrite IH by lia.
      f_equal. f_equal. replace (S (S a) - length A)%nat with (S (S a - length A)) by lia. by rewrite copy_gap.
Qed.

(** The words behind the hole. *)
Lemma copy_back A B a fuel ws t :
  (forall j w, A !! j = Some w -> ws !! j = Some w /\ w <> -1) -> ws !! length A = Some (-1) ->
  (forall j w, B !! j = Some w -> ws !! (length A + 1 + j)%nat = Some w /\ w <> -1) ->
  (length A <= a)%nat -> (length A + a + 2 * length B < fuel)%nat ->
  v6_copy fuel ws (zlen A) (Z.of_nat (length A + length B)) (Z.of_nat (a + length B))
    (replicate (2 * S (a + length B)) 0 ++ t)
  = Ok (word_bytes A ++ replicate (2 * (S a - length A)) 0 ++ word_bytes B ++ t).
Proof.
  intros HA Hh. revert fuel t. induction B as [| w B IH] using rev_ind; intros fuel t HB Ha Hf.
  { simpl length. rewrite !Nat.add_0_r. by apply copy_hole; [..| simpl in Hf; lia]. }
  rewrite length_app in *. simpl in Hf. destruct fuel as [| fuel]; [lia |].
  assert (Hw : (B ++ [w]) !! length B = Some w) by (by apply list_lookup_middle).
  destruct (HB _ _ Hw) as [Hw' Hn]. cbn [length].
  replace (length A + 1 + length B)%nat with (length A + (length B + 1))%nat in Hw' by lia.
  rewrite (v6_copy_step _ _ _ _ _ w) by done. replace (w =? -1) with false by (symmetry; by apply Z.eqb_neq).
  replace (a + (length B + 1))%nat with (S (a + length B)) by lia. rewrite copy_store.
  replace (Z.of_nat (length A + (length B + 1)) - 1) with (Z.of_nat (length A + length B)) by lia.
  replace (Z.of_nat (S (a + length B)) - 1) with (Z.of_nat (a + length B)) by lia.
  rewrite IH; [| | done | lia].
  - unfold word_bytes. rewrite flat_map_app. by rewrite <- !app_assoc.
  - intros j x Hj. apply HB. by apply lookup_app_l_Some.
Qed.

(** The unused words at the end. *)
Lemma copy_tail k i a h fuel ws out :
  (forall j, (i < j <= i + k)%nat -> ws !! j = Some (-1)) -> h <= Z.of_nat i ->
  v6_copy (k + fuel) ws h (Z.of_nat (i + k)) (Z.of_nat a) out = v6_copy fuel ws h (Z.of_nat i) (Z.of_nat a) out.
Proof.
  induction k as [| k IH]; intros Hws Hh; [by rewrite Nat.add_0_r |].
  cbn [Nat.add]. rewrite (v6_copy_step _ _ _ _ _ (-1)) by (apply Hws; lia).
  change (-1 =? -1) with true. cbv iota.
  replace (h <? Z.of_nat (i + S k)) with true by (symmetry; apply Z.ltb_lt; lia).
  replace (Z.of_nat (i + S k) - 1) with (Z.of_nat (i + k)) by lia. apply IH; [| done]. intros j Hj. apply Hws. lia.
Qed.

Lemma v6_copy_hole A B w8 :
  Forall (fun w => w <> -1) A -> Forall (fun w => w <> -1) B -> (length A + length B <= 7)%nat ->
  v6_copy 17 (A ++ -1 :: B ++ replicate (7 - length A - length B) (-1) ++ [w8]) (zlen A) 7 7 (replicate 16 0)
  = Ok (word_bytes (A ++ replicate (8 - length A - length B) 0 ++ B)).
Proof.
  intros HA HB Hl. set (k := (7 - length A - length B)%nat).
  set (ws := A ++ -1 :: B ++ replicate k (-1) ++ [w8]).
  transitivity (v6_copy (k + (17 - k)) ws (zlen A) (Z.of_nat (length A + length B + k)) (Z.of_nat 7) (replicate 16 0)).
  { f_equal; lia. }
  rewrite copy_tail; [| | unfold zlen; lia].
  - pose proof (copy_back A B (7 - length B) (17 - k) ws []) as Hc.
    replace (7 - length B + length B)%nat with 7%nat in Hc by lia. rewrite app_nil_r in Hc.
    change (replicate (2 * 8) 0) with (replicate 16 0) in Hc. rewrite Hc; clear Hc.
    + f_equal. unfold word_bytes. rewrite !flat_map_app. f_equal. rewrite app_nil_r. f_equal.
      replace (S (7 - length B) - length A)%nat with (8 - length A - length B)%nat by lia.
      induction (8 - length A - length B)%nat as [| n IHn]; [done |].
      replace (2 * S n)%nat with (S (S (2 * n))) by lia. cbn [replicate]. rewrite IHn. done.
    + intros j w Hj. split; [by apply lookup_app_l_Some |]. by eapply Forall_lookup_1 in HA.
    + by apply list_lookup_middle.
    + intros j w Hj. split; [| by eapply Forall_lookup_1 in HB]. unfold ws.
      rewrite lookup_app_r by lia. replace (length A + 1 + j - length A)%nat with (S j) by lia. simpl.
      by apply lookup_app_l_Some.
    + lia.
    + lia.
  - intros j Hj. unfold ws. rewrite lookup_app_r by lia.
    replace (j - length A)%nat with (S (length B + (j - length A - length B - 1))) by lia. simpl.
    rewrite lookup_app_r by lia. rewrite lookup_app_l by (rewrite length_replicate; lia).
    apply lookup_replicate_2. lia.
Qed.

Lemma v6_copy_full gs w8 h :
  Forall (fun w => w <> -1) gs -> length gs = 8%nat ->
  v6_copy 17 (gs ++ [w8]) h 7 7 (replicate 16 0) = Ok (word_bytes gs).
Proof.
  intros Hg Hl. pose proof (copy_front gs 17 (gs ++ [w8]) h []) as Hc. unfold zlen in Hc. rewrite Hl in Hc.
  rewrite !app_nil_r in Hc. apply Hc; [| lia]. intros j w Hj.
  split; [by apply lookup_app_l_Some | by eapply Forall_lookup_1 in Hg].
Qed.

Lemma replicate_snoc {A} n (x : A) : replicate n x ++ [x] = replicate (S n) x.
Proof. replace (S n) with (n + 1)%nat by lia. by rewrite replicate_add. Qed.

Lemma u16_not_hole gs : Forall is_u16 gs -> Forall (fun w => w <> -1) gs.
Proof. intros Hg. eapply Forall_impl; [exact Hg |]. unfold is_u16. simpl. lia. Qed.

(** Parsing a printed address: the words, the hole, the last word and what the copy makes of them. *)
Definition v6_parsed (gs : list Z) (W : list Z) (h i : Z) : Prop :=
  length W = 8%nat /\ 0 <= i <= 7 /\ (exists w, W !! Z.to_nat i = Some w /\ w <> -1) /\ (h = -1 -> i = 7)
  /\ forall w8, v6_copy 17 (W ++ [w8]) h 7 7 (replicate 16 0) = Ok (word_bytes gs).

(** The words behind a hole at [length A]. *)
Lemma v6_after_hole A B n port rest :
  Forall is_u16 A -> Forall is_u16 B -> B <> [] -> (length A + n + length B = 8)%nat -> (1 <= n)%nat ->
  (port =? 1) = false ->
  exists W i, v6_parsed (A ++ replicate n 0 ++ B) W (zlen A) i /\
    v6_flat (join B ++ rest) (MkV6 (A ++ replicate (9 - length A) (-1)) (zlen A) (zlen A + 1) port false)
    = v6_flat rest (MkV6 (W ++ [-1]) (zlen A) i port false).
Proof.
  intros HA HB Hne Hl Hn Hp. set (k := (7 - length A - length B)%nat).
  exists (A ++ -1 :: B ++ replicate k (-1)), (zlen A + zlen B). split.
  - assert (Hb : exists B' b, B = B' ++ [b]).
    { destruct (exists_last Hne) as (B' & b & ->). by exists B', b. }
    destruct Hb as (B' & b & HBe). assert (Hlen : zlen B = zlen B' + 1) by (rewrite HBe; unfold zlen; rewrite length_app; simpl; lia).
    refine (conj _ (conj _ (conj _ (conj _ _)))).
    + rewrite length_app. simpl. rewrite length_app, length_replicate. lia.
    + unfold zlen. lia.
    + exists b. split.
      * rewrite lookup_app_r by (unfold zlen; lia).
        replace (Z.to_nat (zlen A + zlen B) - length A)%nat with (S (length B')) by (unfold zlen in *; lia).
        simpl. rewrite HBe, <- app_assoc. simpl. by apply list_lookup_middle.
      * rewrite HBe in HB. apply Forall_app in HB as [_ HB]. apply Forall_cons in HB as [HB _]. unfold is_u16 in HB. lia.
    + unfold zlen. lia.
    + intros w8. pose proof (v6_copy_hole A B w8 (u16_not_hole _ HA) (u16_not_hole _ HB) ltac:(lia)) as Hc.
      replace (8 - length A - length B)%nat with n in Hc by lia. rewrite <- Hc, <- app_assoc. cbn [app].
      by rewrite <- app_assoc.
  - pose proof (v6_join B (A ++ [-1]) (replicate (8 - length A - length B) (-1)) (zlen A) port rest Hne HB) as Hj.
    replace (zlen (A ++ [-1])) with (zlen A + 1) in Hj by (unfold zlen; rewrite length_app; simpl; lia).
    replace ((A ++ [-1]) ++ replicate (length B) (-1) ++ replicate (8 - length A - length B) (-1))
      with (A ++ replicate (9 - length A) (-1)) in Hj.
    + rewrite Hj; [| rewrite length_app; simpl; lia | done]. f_equal. f_equal; [| lia].
      rewrite <- !app_assoc. simpl. rewrite <- app_assoc, replicate_snoc. unfold k.
      by replace (S (7 - length A - length B)) with (8 - length A - length B)%nat by lia.
    + rewrite <- app_assoc, <- replicate_add. simpl. f_equal.
      replace (9 - length A)%nat with (S (length B + (8 - length A - length B))) by lia. done.
Qed.

Lemma v6_body gs out port :
  length gs = 8%nat -> Forall is_u16 gs -> last out <> Some 58 -> (port =? 1) = false ->
  exists body, fmt_groups gs out false = out ++ body /\
    forall rest, exists W h i, v6_parsed gs W h i /\
      v6_flat (body ++ rest) (MkV6 (replicate 9 (-1)) (-1) 0 port false)
      = v6_flat rest (MkV6 (W ++ [-1]) h i port false).
Proof.
  intros Hl Hu Hout Hp. destruct (fmt_shape gs out) as (A & n & B & He & HB & HA & Hf & Hn); [by intros -> |].
  rewrite Hf. eexists. split; [reflexivity |]. intros rest. pose proof Hu as Hu'. rewrite He in Hu'.
  apply Forall_app in Hu' as [HuA Hu']. apply Forall_app in Hu' as [_ HuB].
  assert (Hlen : (length A + n + length B = 8)%nat).
  { rewrite He, !length_app, length_replicate in Hl. lia. }
  destruct n as [| n].
  { exists gs, (-1), 7. rewrite join_app by done. simpl in He. rewrite <- He. split.
    - refine (conj Hl (conj _ (conj _ (conj _ _)))); [lia | | done | intros w8; by apply v6_copy_full, Hl; apply u16_not_hole].
      destruct (lookup_lt_is_Some_2 gs 7) as [w Hw]; [lia |]. exists w. split; [done |].
      eapply Forall_lookup_1 in Hu; [| exact Hw]. unfold is_u16 in Hu. lia.
    - pose proof (v6_join gs [] [-1] (-1) port rest) as Hj. rewrite Hl in Hj.
      change ([] ++ replicate 8 (-1) ++ [-1]) with (replicate 9 (-1)) in Hj. change (zlen (@nil Z)) with 0 in Hj.
      rewrite Hj; [| by intros -> | done | simpl; lia | done]. unfold zlen. by rewrite Hl. }
  rewrite He. destruct A as [| a A].
  - unfold hole_text. rewrite bool_decide_false by done. cbn [app].
    destruct (v6_after_hole [] B (S n) port rest) as (W & i & HW & Hfl); try done; try lia.
    exists W, 0, i. split; [exact HW |]. rewrite (v6_colon_two _ _ _ _ (-1)) by done. exact Hfl.
  - rewrite join_colon by done. rewrite <- !app_assoc. cbn [app].
    destruct (v6_after_hole (a :: A) B (S n) port rest) as (W & i & HW & Hfl); try done; try lia.
    exists W, (zlen (a :: A)), i. split; [exact HW |].
    pose proof (v6_join (a :: A) [] (replicate (9 - length (a :: A)) (-1)) (-1) port
                  (58 :: 58 :: join B ++ rest)) as Hj.
    rewrite app_nil_l, <- replicate_add in Hj.
    replace (length (a :: A) + (9 - length (a :: A)))%nat with 9%nat in Hj by (simpl in *; lia).
    change (zlen (@nil Z)) with 0 in Hj. rewrite Hj; [| done | done | simpl in *; lia | done]. clear Hj.
    destruct (exists_last (l := a :: A)) as (A' & x & HAe); [done |].
    assert (Hx : x <> -1).
    { rewrite HAe in HuA. apply Forall_app in HuA as [_ Hx]. apply Forall_cons in Hx as [Hx _]. unfold is_u16 in Hx. lia. }
    assert (Hxi : ((a :: A) ++ replicate (9 - length (a :: A)) (-1)) !! Z.to_nat (0 + zlen (a :: A) - 1) = Some x).
    { apply lookup_app_l_Some. rewrite HAe. unfold zlen. rewrite length_app. simpl.
      replace (Z.to_nat _) with (length A') by lia. by apply list_lookup_middle. }
    rewrite app_nil_l. rewrite (v6_colon_two _ _ _ _ x); [| unfold zlen; simpl in *; lia | exact Hxi | done].
    replace (x =? -1) with false by (symmetry; by apply Z.eqb_neq). cbv zeta.
    replace (0 + zlen (a :: A) - 1 + 1) with (zlen (a :: A)) by lia. exact Hfl.
Qed.

(** ** The parser always returns *)

Lemma v6_colon_total next st :
  length (words st) = 9%nat -> 0 <= v6_i st <= 8 ->
  exists r, v6_colon next st = Ok r
    /\ forall b st', r = Some (b, st') -> length (words st') = 9%nat /\ 0 <= v6_i st'.
Proof.
  intros Hl Hi. unfold v6_colon, word. destruct (lookup_lt_is_Some_2 (words st) (Z.to_nat (v6_i st))) as [w ->]; [lia |].
  destruct (next =? 58); [| destruct (w =? -1)].
  - eexists. split; [reflexivity |]. intros b st' He. simplify_eq. simpl. split; [done |].
    destruct (w =? -1); simpl; destruct (v6_port st =? 1); lia.
  - eexists. split; [reflexivity |]. intros b st' He. done.
  - eexists. split; [reflexivity |]. intros b st' He. simplify_eq. simpl. split; [done |]. destruct (v6_port st =? 1); lia.
Qed.

Lemma v6_xdigit_total p st :
  length (words st) = 9%nat -> 0 <= v6_i st <= 8 ->
  exists r, v6_xdigit p st = Ok r /\ forall st', r = Some st' -> length (words st') = 9%nat /\ 0 <= v6_i st'.
Proof.
  intros Hl Hi. unfold v6_xdigit, word. destruct (lookup_lt_is_Some_2 (words st) (Z.to_nat (v6_i st))) as [w ->]; [lia |].
  assert (Hset : forall x, length (words (set_word x st)) = 9%nat /\ 0 <= v6_i (set_word x st)).
  { intros x. simpl. rewrite length_insert. lia. }
  cbv zeta. destruct (_ || _); [destruct (negb (isdigit p)); [| destruct (negb (v6_port st =? 0))] |];
    eexists; (split; [reflexivity |]); intros st' He; try done;
    repeat case_match; simplify_eq; apply Hset.
Qed.

Lemma v6_dot_total st st' :
  length (words st) = 9%nat -> 0 <= v6_i st -> v6_dot st = Some st' -> length (words st') = 9%nat /\ 0 <= v6_i st'.
Proof.
  intros Hl Hi. unfold v6_dot. destruct (ipv4_mapped st); [intros; simplify_eq; simpl; lia |].
  destruct (_ || _); [done |]. destruct (255 <? _); [done |]. intros He. simplify_eq. simpl.
  rewrite !length_insert. lia.
Qed.

Lemma v6_flat_total n l st :
  (length l <= n)%nat -> length (words st) = 9%nat -> 0 <= v6_i st -> exists r, v6_flat l st = Ok r.
Proof.
  revert l st. induction n as [| n IH]; intros l st Hn Hl Hi; (destruct l as [| p l]; [by eexists |]); simpl in Hn; [lia |].
  cbn [v6_flat]. destruct (v6_stop st) eqn:Hs; [by eexists |].
  assert (Hi8 : 0 <= v6_i st <= 8).
  { unfold v6_stop in Hs. destruct (Z.ltb_spec 7 (v6_i st)); [| lia]. simpl in Hs. bool_hyps. lia. }
  destruct (p =? 91); [apply IH; [lia | done | done] |].
  destruct (p =? 58).
  { destruct (v6_colon_total (hd 0 l) st Hl Hi8) as (r & -> & Hr). destruct r as [[[] st']|]; [| | by eexists];
      destruct (Hr _ _ eq_refl) as [Hl' Hi'].
    - destruct l as [| x l]; [by eexists |]. simpl in Hn. apply IH; [lia | done | done].
    - apply IH; [lia | done | done]. }
  destruct (p =? 46).
  { destruct (v6_dot st) as [st'|] eqn:Hd; [| by eexists]. apply v6_dot_total in Hd as [? ?]; [| done | done].
    apply IH; [lia | done | done]. }
  destruct (isxdigit p).
  { destruct (v6_xdigit_total p st Hl Hi8) as (r & -> & Hr). destruct r as [st'|]; [| by eexists].
    destruct (Hr _ eq_refl). apply IH; [lia | done | done]. }
  destruct (p =? 93); [apply IH; [lia | done | done] | by eexists].
Qed.

Lemma v6_copy_total fuel ws h i a out : i + a + 2 < Z.of_nat fuel -> -1 <= i -> -1 <= a -> exists b, v6_copy fuel ws h i a out = Ok b.
Proof.
  revert i a out. induction fuel as [| fuel IH]; intros i a out Hf Hi Ha; [lia |].
  cbn [v6_copy]. destruct (Z.leb_spec 0 i); [| by eexists]. destruct (Z.leb_spec 0 a); [| by eexists].
  cbn [andb negb]. destruct (_ =? -1); [| apply IH; lia]. destruct (h <? i); [apply IH; lia |].
  destruct (_ && _); apply IH; lia.
Qed.

Lemma pton_v6_total cs : Forall nonempty cs -> exists r, tfw_addr_pton_v6 cs = Ok r.
Proof.
  intros Hf. unfold tfw_addr_pton_v6. rewrite v6_loop_flat; [| done | simpl; lia].
  destruct (v6_flat_total _ ([] ++ concat cs) v6_init (le_n _)) as [r ->]; [done | done |].
  destruct r as [st|]; [| by eexists]. destruct (negb (v6_sane st)); [by eexists |].
  destruct (ipv4_mapped st); [by eexists |].
  destruct (v6_copy_total 17 (words st) (hole st) 7 7 (replicate 16 0)) as [b ->]; [lia..|]. by eexists.
Qed.

(** ** The kind of an address *)

Lemma chunk_texts_ok cs : Forall chunk_ok cs -> chunk_texts cs = Ok (map text cs).
Proof.
  induction 1 as [| c cs [_ Hc] Hf IH]; [done |]. cbn [chunk_texts map]. rewrite slice_some by lia. rewrite IH.
  change (Z.to_nat 0) with 0%nat. by rewrite drop_0.
Qed.

(** The first character, read through the first chunk. *)
Lemma pton_first s p l :
  Forall nonempty (map text (str_chunks s)) -> flat s = p :: l ->
  (if TFW_STR_PLAIN s then data s !! 0%nat
   else match chunks s with c :: _ => data c !! 0%nat | [] => None end) = Some p.
Proof.
  unfold flat, texts, str_chunks. intros Hne Hf.
  assert (Hd : forall c r, nonempty (text c) -> text c ++ r = p :: l -> data c !! 0%nat = Some p).
  { intros c r Hn He. unfold text in *. destruct (take (Z.to_nat (len c)) (data c)) as [| x t] eqn:Ht; [done |].
    simpl in He. simplify_eq. destruct (data c) as [| y d]; [by rewrite take_nil in Ht |].
    destruct (Z.to_nat (len c)); [done |]. simpl in Ht. by simplify_eq. }
  destruct (TFW_STR_PLAIN s).
  - simpl in *. apply Forall_cons in Hne as [Hn _]. by eapply Hd.
  - destruct (chunks s) as [| c cs]; [by rewrite take_nil in Hf |].
    destruct (Z.to_nat (nchunks s)); [done |]. simpl in *. apply Forall_cons in Hne as [Hn _]. by eapply Hd.
Qed.

(** [tfw_addr_pton()] on the text of a string whose chunks are not empty. *)
Lemma pton_text s a0 p l :
  str_ok s -> Forall nonempty (map text (str_chunks s)) -> flat s = p :: l ->
  let cs := map text (str_chunks s) in
  tfw_addr_pton s a0 =
    if (p =? 91) || isalpha p then tfw_addr_pton_v6 cs
    else match first_delim (p :: l) with
         | None => Ok None
         | Some d => if d =? 58 then tfw_addr_pton_v6 cs
                     else if d =? 46 then Ok (tfw_addr_pton_v4 cs a0) else Ok None
         end.
Proof.
  intros Hok Hne Hf. unfold tfw_addr_pton. rewrite (pton_first s p l Hne Hf).
  rewrite chunk_texts_ok by apply Hok. cbv zeta. unfold flat, texts in Hf. by rewrite Hf.
Qed.

Lemma first_delim_dec lim l acc q rest : dec_run lim l acc = Some q -> first_delim (l ++ rest) = first_delim rest.
Proof.
  revert acc. induction l as [| p l IH]; intros acc; [done |]. cbn [dec_run app first_delim].
  destruct (isdigit p); [| done]. simpl andb. destruct (_ <=? _); [apply IH | done].
Qed.

Lemma digit_not_alpha p : isdigit p = true -> (p =? 91) || isalpha p = false.
Proof.
  unfold isdigit, isalpha. intros Hd. bool_hyps.
  repeat match goal with |- context [?a <=? ?b] => destruct (Z.leb_spec a b); try lia end;
    destruct (Z.eqb_spec p 91); try lia; done.
Qed.

Lemma xdigit_alpha p : isxdigit p = true -> isdigit p = false -> isalpha p = true /\ (p =? 58) = false /\ (p =? 46) = false.
Proof.
  intros Hx Hd. pose proof (xdigit_not p Hx) as (_ & H1 & H2). split; [| done]. unfold isxdigit in Hx. rewrite Hd in Hx.
  simpl in Hx. unfold isalpha.
  apply orb_true_iff in Hx as [Hx | Hx]; apply andb_true_iff in Hx as [Ha Hb]; bool_hyps;
    repeat match goal with |- context [?a <=? ?b] => destruct (Z.leb_spec a b); try lia end; done.
Qed.

(** A group that begins with a digit and goes on with a letter: the parser takes it for no address. *)
Definition digit_then_letter (g : Z) : bool :=
  match tfw_put_ipv6_digit_group g with c :: t => isdigit c && negb (forallb isdigit t) | [] => false end.

Lemma hex_run_xdigits l acc q : hex_run l acc = Some q -> Forall (fun p => isxdigit p = true) l.
Proof.
  revert acc. induction l as [| p l IH]; intros acc Hr; [done |]. cbn [hex_run] in Hr.
  destruct (isxdigit p) eqn:Hx; [| done]. simpl andb in Hr. destruct (_ <=? _); [| done]. constructor; [done | by eapply IH].
Qed.

Lemma first_delim_hex t r :
  Forall (fun p => isxdigit p = true) t ->
  if forallb isdigit t then first_delim (t ++ r) = first_delim r
  else exists d, first_delim (t ++ r) = Some d /\ (d =? 58) = false /\ (d =? 46) = false.
Proof.
  induction 1 as [| p t Hx Hf IH]; [done |]. cbn [forallb app first_delim]. destruct (isdigit p) eqn:Hd; [exact IH |].
  cbn [andb]. exists p. split; [done |]. by apply xdigit_alpha.
Qed.

(** How the text of an address without brackets begins. *)
Lemma fmt_head g g' gs :
  exists l, fmt_groups (g :: g' :: gs) [] false = (if g =? 0 then [58] else tfw_put_ipv6_digit_group g) ++ 58 :: l.
Proof.
  destruct (fmt_shape (g :: g' :: gs) [] ltac:(done)) as (A & n & B & He & HB & HA & -> & Hn). rewrite app_nil_l.
  destruct A as [| a A].
  - destruct n as [| n].
    { exfalso. specialize (Hn eq_refl). simpl in He. subst B. simpl in Hn. lia. }
    simpl in He. simplify_eq. eexists. reflexivity.
  - simpl in He. simplify_eq. apply Forall_cons in HA as [Ha _].
    replace (a =? 0) with false by (symmetry; by apply Z.eqb_neq). rewrite fmap_cons. cbn [concat].
    destruct n; rewrite <- !app_assoc; eexists; reflexivity.
Qed.

(** ** Reading back what was printed *)

Lemma pton_v6_flat cs st b :
  Forall nonempty cs -> v6_flat (concat cs) v6_init = Ok (Some st) -> v6_sane st = true -> ipv4_mapped st = false ->
  v6_copy 17 (words st) (hole st) 7 7 (replicate 16 0) = Ok b ->
  tfw_addr_pton_v6 cs = Ok (Some (MkAddr AF_INET6 b
    (if v6_port st =? -1 then TFW_ADDR_STR_DEF_PORT else u16 (default (-1) (words st !! 8%nat))) 0)).
Proof.
  intros Hf Hp Hs Hm Hc. unfold tfw_addr_pton_v6. rewrite v6_loop_flat; [| done | simpl; lia].
  rewrite app_nil_l, Hp, Hs, Hm, Hc. done.
Qed.

Lemma v6_bracket ws h i port l :
  0 <= i <= 7 -> v6_flat (93 :: l) (MkV6 ws h i port false) = v6_flat l (MkV6 ws h i 1 false).
Proof. intros Hi. cbn [v6_flat]. by rewrite v6_stop_low. Qed.

(** The text behind a closing bracket. *)
Lemma v6_port_text W h i port :
  length W = 8%nat -> 0 <= i <= 7 -> (exists w, W !! Z.to_nat i = Some w /\ w <> -1) -> 0 <= port < 65536 ->
  dec_bad port = false ->
  v6_flat (93 :: 58 :: tfw_put_dec port) (MkV6 (W ++ [-1]) h i 0 false)
  = Ok (Some (MkV6 (W ++ [port]) h 8 1 false)).
Proof.
  intros Hl Hi (w & Hw & Hn) Hp Hb. destruct (put_dec_spec port 0xFFFF) as (Hd & Hlen & _); [lia | by right | lia |].
  rewrite Hb in Hd. rewrite v6_bracket by done.
  assert (Hws : forall x, (W ++ x) !! Z.to_nat i = Some w) by (intros; by apply lookup_app_l_Some).
  rewrite (v6_colon_one _ _ _ _ w); [| done | apply Hws | done |].
  - change (1 =? 1) with true. cbv iota. rewrite <- (app_nil_r (tfw_put_dec port)).
    rewrite (v6_dec _ (-1) port); [| done | by left |].
    + cbn [v6_flat]. rewrite insert_app_r_alt by lia. by rewrite Hl.
    + rewrite lookup_app_r by lia. by rewrite Hl.
  - destruct (tfw_put_dec port) as [| c t]; [unfold zlen in Hlen; simpl in Hlen; lia |]. simpl. intros ->. done.
Qed.

Lemma v6_roundtrip cs gs port :
  Forall nonempty cs -> length gs = 8%nat -> Forall is_u16 gs -> is_u16 port -> port_bad port = false ->
  let pp := SHOULD_PRINT_PORT true port in
  concat cs = fmt_groups gs (if pp then [91] else []) false ++ (if pp then [93; 58] ++ tfw_put_dec port else []) ->
  tfw_addr_pton_v6 cs = Ok (Some (MkAddr AF_INET6 (word_bytes gs) (read_port port) 0)).
Proof.
  intros Hne Hl Hg Hp Hb pp Hcs. unfold port_bad, read_port in *. fold pp in Hb.
  destruct pp eqn:Hpp.
  - destruct (v6_body gs [91] 0 Hl Hg ltac:(done) eq_refl) as (body & Hf & Hpar).
    destruct (Hpar (93 :: 58 :: tfw_put_dec port)) as (W & h & i & (HW & Hi & Hw & Hh & Hc) & Hfl).
    rewrite (pton_v6_flat cs (MkV6 (W ++ [port]) h 8 1 false) (word_bytes gs)).
    + cbn [words v6_port]. change (1 =? -1) with false. cbv iota. rewrite lookup_app_r by lia. rewrite HW. simpl.
      unfold pp, SHOULD_PRINT_PORT in Hpp. replace (port =? 0) with false by (destruct (port =? 0); done).
      unfold u16. rewrite Z.mod_small by done. done.
    + done.
    + rewrite Hcs, Hf, <- app_assoc.
      transitivity (v6_flat (body ++ 93 :: 58 :: tfw_put_dec port) (MkV6 (replicate 9 (-1)) (-1) 0 0 false)); [done |].
      rewrite Hfl. by apply v6_port_text.
    + unfold v6_sane. cbn [words hole v6_i v6_port ipv4_mapped]. rewrite lookup_app_r by lia. rewrite HW. simpl.
      unfold pp, SHOULD_PRINT_PORT, is_u16 in *. destruct (Z.eqb_spec port 0); [done |].
      by replace (port <=? 0) with false by (symmetry; apply Z.leb_gt; lia).
    + done.
    + apply Hc.
  - destruct (v6_body gs [] (-1) Hl Hg ltac:(done) eq_refl) as (body & Hf & Hpar).
    destruct (Hpar []) as (W & h & i & (HW & Hi & Hw & Hh & Hc) & Hfl). rewrite app_nil_r in Hfl.
    rewrite (pton_v6_flat cs (MkV6 (W ++ [-1]) h i (-1) false) (word_bytes gs)).
    + cbn [v6_port]. change (-1 =? -1) with true. cbv iota. unfold pp, SHOULD_PRINT_PORT in Hpp.
      destruct (Z.eqb_spec port 0); [done |]. destruct (Z.eqb_spec port TFW_ADDR_STR_DEF_PORT); [by subst | done].
    + done.
    + rewrite Hcs, Hf, app_nil_r. exact Hfl.
    + unfold v6_sane. cbn [words hole v6_i v6_port ipv4_mapped]. simpl.
      destruct (Z.eqb_spec h (-1)) as [He |]; [| by rewrite andb_false_r]. by rewrite (Hh He).
    + done.
    + apply Hc.
Qed.

(** ** Lengths *)

Lemma fmt_groups_len gs out omitted :
  Forall is_u16 gs -> gs <> [] -> zlen (fmt_groups gs out omitted) <= zlen out + 5 * zlen gs - 1.
Proof.
  intros Hf. revert out omitted. induction Hf as [| g gs Hg Hf IH]; intros out omitted Hne; [done |].
  destruct (put_group_spec g Hg) as [_ Hl]. unfold zlen in *. destruct gs as [| g' gs].
  { cbn [fmt_groups]. rewrite length_app. simpl. lia. }
  rewrite fmt_cons. repeat case_match;
    (eapply Z.le_trans; [apply IH; done |]); rewrite ?length_app; simpl; lia.
Qed.

(** ** Addresses *)

Definition addr_ok (a : TfwAddr) : Prop :=
  sin6_family a = AF_INET6 /\ length (s6_addr a) = 16%nat /\ bytes_ok (s6_addr a) /\ is_u16 (sin6_port a).

(** None of the numbers that are printed begins with the wrong digits. *)
Definition numbers_ok (a : TfwAddr) : bool :=
  negb (port_bad (sin6_port a))
  && (negb (tfw_addr_is_v4mapped a) || forallb (fun o => negb (dec_bad o)) (v4_bytes a)).

(** An IPv6 address printed without brackets whose first group the parser cannot place. *)
Definition unreadable (a : TfwAddr) : bool :=
  negb (tfw_addr_is_v4mapped a) && negb (SHOULD_PRINT_PORT true (sin6_port a))
  && digit_then_letter (group (s6_addr a) 0).

Lemma pair_bytes x y : is_u8 x -> is_u8 y -> [u8 (Z.shiftr (x * 2 ^ 8 + y) 8); u8 (x * 2 ^ 8 + y)] = [x; y].
Proof.
  unfold is_u8, u8. intros Hx Hy. rewrite Z.shiftr_div_pow2 by lia.
  rewrite Z.div_add_l by done. rewrite (Z.div_small y) by lia. rewrite Z.add_0_r, Z.mod_small by lia.
  by rewrite Z.add_comm, Z.mod_add, Z.mod_small by lia.
Qed.

Lemma group_bytes b :
  length b = 16%nat -> bytes_ok b ->
  word_bytes (group b <$> seq 0 8) = b /\ Forall is_u16 (group b <$> seq 0 8).
Proof.
  intros Hl Hb. do 16 (destruct b as [| ? b]; [done |]). destruct b; [| done].
  unfold bytes_ok in Hb. repeat (apply Forall_cons in Hb as [? Hb]).
  assert (Hu : forall x y, is_u8 x -> is_u8 y -> is_u16 (x * 2 ^ 8 + y)) by (unfold is_u8, is_u16; intros; lia).
  split.
  - unfold word_bytes, group, ntohs_at, byte_at. simpl fmap.
    cbn [flat_map lookup list_lookup default from_option id Nat.mul Nat.add].
    rewrite !pair_bytes by done. done.
  - unfold group, ntohs_at, byte_at. simpl fmap. repeat (constructor; [by apply Hu |]). constructor.
Qed.

Lemma v4_split b : length b = 16%nat -> take 12 b = v4_prefix -> exists o0 o1 o2 o3, b = v4_prefix ++ [o0; o1; o2; o3].
Proof.
  intros Hl Ht. rewrite <- (take_drop 12 b), Ht. assert (Hd : length (drop 12 b) = 4%nat) by (rewrite length_drop; lia).
  destruct (drop 12 b) as [| o0 [| o1 [| o2 [| o3 [| ? ?]]]]]; try done. by exists o0, o1, o2, o3.
Qed.

Lemma fmt_len a : addr_ok a -> zlen (tfw_addr_fmt a true) < TFW_ADDR_STR_BUF_SIZE.
Proof.
  intros (_ & Hl & Hb & Hp). unfold tfw_addr_fmt, TFW_ADDR_STR_BUF_SIZE.
  assert (Hport : zlen (tfw_put_dec (sin6_port a)) <= 5).
  { destruct (put_dec_spec (sin6_port a) 0xFFFF) as (_ & Hx & _); [exact Hp | by right | unfold is_u16 in Hp; lia | lia]. }
  destruct (tfw_addr_is_v4mapped a).
  - assert (Ho : forall i, zlen (tfw_put_dec (byte_at (v4_bytes a) i)) <= 3).
    { intros i. assert (Hu : is_u8 (byte_at (v4_bytes a) i)).
      { unfold byte_at, v4_bytes. rewrite lookup_drop. destruct (s6_addr a !! (12 + i)%nat) as [x|] eqn:Hx; [| done].
        by eapply Forall_lookup_1 in Hx. }
      unfold is_u8 in Hu. destruct (put_dec_spec (byte_at (v4_bytes a) i) 255) as (_ & _ & Hx); [lia | by left | lia |].
      apply Hx. lia. }
    unfold tfw_addr_fmt_v4. pose proof (Ho 0%nat). pose proof (Ho 1%nat). pose proof (Ho 2%nat). pose proof (Ho 3%nat).
    unfold zlen in *. destruct (SHOULD_PRINT_PORT _ _); rewrite ?length_app; cbn [length]; lia.
  - destruct (group_bytes _ Hl Hb) as [_ Hg].
    pose proof (fmt_groups_len (group (s6_addr a) <$> seq 0 8)
                  (if SHOULD_PRINT_PORT true (sin6_port a) then [91] else []) false Hg ltac:(done)) as Hf.
    unfold zlen in *. rewrite length_app. rewrite length_fmap, length_seq in Hf.
    destruct (SHOULD_PRINT_PORT _ _); cbn [app length] in *; lia.
Qed.

(** An IPv4 address is taken for one. *)
Lemma roundtrip_v4 s a a0 :
  str_ok s -> Forall nonempty (map text (str_chunks s)) -> addr_ok a -> tfw_addr_is_v4mapped a = true ->
  flat s = tfw_addr_fmt_v4 a true -> numbers_ok a = true ->
  tfw_addr_pton s a0 = Ok (Some (MkAddr AF_INET6 (s6_addr a) (read_port (sin6_port a)) (sin6_scope_id a0))).
Proof.
  intros Hs Hne (Hfam & Hl & Hb & Hp) Hm Hf Hn. destruct a as [fam b port sc]. cbn [sin6_family s6_addr sin6_port] in *.
  unfold numbers_ok in Hn. rewrite Hm in Hn. apply andb_true_iff in Hn as [Hpb Hn]. apply negb_true_iff in Hpb.
  unfold tfw_addr_is_v4mapped in Hm. apply bool_decide_eq_true in Hm. cbn [s6_addr sin6_port] in *.
  destruct (v4_split b Hl Hm) as (o0 & o1 & o2 & o3 & ->).
  cbn [negb orb v4_bytes drop s6_addr] in Hn. change (drop 12 (v4_prefix ++ [o0; o1; o2; o3])) with [o0; o1; o2; o3] in Hn.
  cbn [forallb] in Hn. bool_hyps.
  unfold bytes_ok in Hb. apply Forall_app in Hb as [_ Hb]. repeat (apply Forall_cons in Hb as [? Hb]).
  destruct (put_dec_spec o0 255) as (Hd & Hlen & _); [unfold is_u8 in *; lia | by left | unfold is_u8 in *; lia |].
  assert (Hfl : exists l, flat s = tfw_put_dec o0 ++ 46 :: l) by (rewrite Hf; eexists; reflexivity).
  destruct Hfl as [l Hfl]. rewrite (ltac:(eassumption) : dec_bad o0 = false) in Hd.
  destruct (tfw_put_dec o0) as [| p t] eqn:Ht; [unfold zlen in Hlen; simpl in Hlen; lia |]. cbn [app] in Hfl.
  rewrite (pton_text s a0 p (t ++ 46 :: l)) by done. cbv zeta.
  assert (Hdig : isdigit p = true) by (cbn [dec_run] in Hd; by destruct (isdigit p)).
  rewrite digit_not_alpha by done. change (p :: t ++ 46 :: l) with ((p :: t) ++ 46 :: l).
  rewrite (first_delim_dec _ _ _ _ _ Hd). cbn [first_delim]. change (isdigit 46) with false. cbv iota.
  change (46 =? 58) with false. change (46 =? 46) with true. cbv iota. f_equal.
  by eapply (v4_roundtrip _ a0 fam o0 o1 o2 o3 port sc); try done; repeat constructor.
Qed.

(** An IPv6 address is taken for one, unless its first group is a digit followed by a letter. *)
Lemma roundtrip_v6 s a a0 :
  str_ok s -> Forall nonempty (map text (str_chunks s)) -> addr_ok a -> tfw_addr_is_v4mapped a = false ->
  flat s = tfw_addr_fmt a true -> numbers_ok a = true ->
  tfw_addr_pton s a0
  = Ok (if unreadable a then None else Some (MkAddr AF_INET6 (s6_addr a) (read_port (sin6_port a)) 0)).
Proof.
  intros Hs Hne (Hfam & Hl & Hb & Hp) Hm Hf Hn. destruct (group_bytes _ Hl Hb) as [Hw Hg].
  unfold numbers_ok in Hn. apply andb_true_iff in Hn as [Hpb _]. apply negb_true_iff in Hpb.
  unfold tfw_addr_fmt in Hf. rewrite Hm in Hf. cbv zeta in Hf. set (pp := SHOULD_PRINT_PORT true (sin6_port a)) in *.
  set (gs := group (s6_addr a) <$> seq 0 8) in *.
  assert (Hv6 : tfw_addr_pton_v6 (map text (str_chunks s))
    = Ok (Some (MkAddr AF_INET6 (s6_addr a) (read_port (sin6_port a)) 0))).
  { rewrite <- Hw at 1. by apply v6_roundtrip. }
  unfold unreadable. rewrite Hm. fold pp. cbn [negb andb].
  assert (Hgs : exists g1 gs', gs = group (s6_addr a) 0 :: g1 :: gs') by (eexists _, _; reflexivity).
  destruct Hgs as (g1 & gs' & Hgs). destruct pp eqn:Hpp; cbn [negb andb].
  - destruct (v6_body gs [91] 0 ltac:(done) Hg ltac:(done) eq_refl) as (body & Hfm & _). rewrite Hfm in Hf.
    rewrite (pton_text s a0 91 (body ++ [93; 58] ++ tfw_put_dec (sin6_port a))) by (rewrite ?Hf; done). exact Hv6.
  - rewrite app_nil_r, Hgs in Hf. destruct (fmt_head (group (s6_addr a) 0) g1 gs') as [l Hfm]. rewrite Hfm in Hf.
    assert (Hg0 : is_u16 (group (s6_addr a) 0)) by (rewrite Hgs in Hg; by apply Forall_cons in Hg as [? _]).
    unfold digit_then_letter. destruct (Z.eqb_spec (group (s6_addr a) 0) 0) as [He | Hn0].
    { rewrite (pton_text s a0 58 (58 :: l)) by done. rewrite He. exact Hv6. }
    destruct (put_group_spec _ Hg0) as [Hr Hlen]. apply hex_run_xdigits in Hr.
    destruct (tfw_put_ipv6_digit_group (group (s6_addr a) 0)) as [| c t]; [unfold zlen in Hlen; simpl in Hlen; lia |].
    rewrite (pton_text s a0 c (t ++ 58 :: l)) by done. cbv zeta. apply Forall_cons in Hr as [Hc Hr].
    destruct (isdigit c) eqn:Hd.
    + rewrite digit_not_alpha by done. cbn [first_delim]. rewrite Hd. cbn [andb].
      pose proof (first_delim_hex t (58 :: l) Hr) as Hfd. destruct (forallb isdigit t); cbn [negb].
      * rewrite Hfd. exact Hv6.
      * destruct Hfd as (d & -> & -> & ->). done.
    + cbn [andb]. destruct (xdigit_alpha c Hc Hd) as [-> _]. rewrite orb_true_r. exact Hv6.
Qed.

Lemma roundtrip_text s a a0 :
  str_ok s -> Forall nonempty (map text (str_chunks s)) -> addr_ok a ->
  flat s = tfw_addr_fmt a true -> numbers_ok a = true ->
  tfw_addr_pton s a0 =
    Ok (if unreadable a then None
        else Some (MkAddr AF_INET6 (s6_addr a) (read_port (sin6_port a))
                     (if tfw_addr_is_v4mapped a then sin6_scope_id a0 else 0))).
Proof.
  intros Hs Hne Ha Hf Hn. destruct (tfw_addr_is_v4mapped a) eqn:Hm.
  - unfold unreadable. rewrite Hm. apply roundtrip_v4; [done | done | done | done | | done].
    unfold tfw_addr_fmt in Hf. by rewrite Hm in Hf.
  - by apply roundtrip_v6.
Qed.

(** C33: For a text in non-empty chunks that is not empty itself tfw_addr_pton() always returns and stays inside its buffers.
    What tfw_addr_ntop() prints fits the buffer and reads back, however it is cut into non-empty chunks,
    as the same address and, unless the port is 0, the same port; port 0 is not printed and reads as the default port 80.  This holds
    for every IPv4 and IPv6 address except two
    kinds: those with a printed number whose leading digits are 69, 79, 89 or 99, which tfw_put_dec() does not
    print ([put_dec_99]), and IPv6 addresses without a port whose first group is a digit followed by a letter, which are refused
    ([digit_letter_refused]). *)
Theorem addr_roundtrip s a a0 :
  str_ok s -> Forall nonempty (map text (str_chunks s)) -> addr_ok a ->
  (flat s <> [] -> exists r, tfw_addr_pton s a0 = Ok r)
  /\ tfw_addr_ntop a TFW_ADDR_STR_BUF_SIZE = Ok (tfw_addr_fmt a true)
  /\ (flat s = tfw_addr_fmt a true -> numbers_ok a = true ->
      tfw_addr_pton s a0 =
        Ok (if unreadable a then None
            else Some (MkAddr AF_INET6 (s6_addr a) (read_port (sin6_port a))
                         (if tfw_addr_is_v4mapped a then sin6_scope_id a0 else 0)))).
Proof.
  intros Hs Hne Ha. split; [| split].
  - intros Hf. destruct (flat s) as [| p l] eqn:He; [done |]. rewrite (pton_text s a0 p l) by done. cbv zeta.
    destruct (pton_v6_total _ Hne) as [r Hr]. rewrite Hr. repeat case_match; by eexists.
  - unfold tfw_addr_ntop. destruct Ha as (Hfam & Ha). rewrite Hfam. pose proof (fmt_len a (conj Hfam Ha)).
    simpl. by replace (_ <=? _) with false by (symmetry; apply Z.leb_gt; lia).
  - apply roundtrip_text; done.
Qed.

(** [2a00:1450::1] with port 8080, its text cut inside the double colon. *)
Definition ex_addr : TfwAddr := MkAddr AF_INET6 ([42; 0; 20; 80] ++ replicate 11 0 ++ [1]) 8080 0.

Definition ex_addr_str : TfwStr :=
  mk_str [[91; 50; 97; 48; 48; 58; 49; 52; 53; 48; 58]; [58; 49; 93; 58; 56]; [48; 56; 48]].

Lemma addr_roundtrip_witness :
  tfw_addr_pton ex_addr_str ex_addr = Ok (Some ex_addr)
  /\ tfw_addr_ntop ex_addr TFW_ADDR_STR_BUF_SIZE = Ok (flat ex_addr_str).
Proof.
  destruct (mk_str_ok [[91; 50; 97; 48; 48; 58; 49; 52; 53; 48; 58]; [58; 49; 93; 58; 56]; [48; 56; 48]])
    as [Hs _]; [done | vm_compute; done |].
  destruct (addr_roundtrip ex_addr_str ex_addr ex_addr Hs) as (_ & Hn & Hr).
  - vm_compute. repeat constructor; discriminate.
  - split; [done |]. split; [done |]. split; [| done]. apply bytes_okb. reflexivity.
  - split; [| rewrite Hn; vm_compute; reflexivity].
    rewrite Hr; [vm_compute; reflexivity | vm_compute; reflexivity | vm_compute; reflexivity].
Defined.

(** ** Defects *)

(** 99 is printed as the characters behind and in front of the digits. *)
Theorem put_dec_99 : tfw_put_dec 99 = [58; 47] /\ tfw_put_dec 69 = [55; 47].
Proof. vm_compute. done. Qed.

Definition ascii_addr (l : bytes) : outcome (option TfwAddr) := tfw_addr_pton (mk_plain l) (MkAddr 0 [] 0 0).

(** "2a00::1" is refused, "2000::1" is not. *)
Theorem digit_letter_refused :
  ascii_addr [50; 97; 48; 48; 58; 58; 49] = Ok None
  /\ exists a, ascii_addr [50; 48; 48; 48; 58; 58; 49] = Ok (Some a).
Proof. vm_compute. split; [done | by eexists]. Qed.

(** "1.2.3.4.5" is read as 1.2.3.4 with port 5. *)
Theorem fifth_number_is_port :
  ascii_addr [49; 46; 50; 46; 51; 46; 52; 46; 53]
  = Ok (Some (MkAddr AF_INET6 (v4_prefix ++ [1; 2; 3; 4]) 5 0)).
Proof. vm_compute. done. Qed.

(** "::ffff:1.2.3.4" is read as 4.3.2.1, and "::ffff:1.300.3.4" is accepted. *)
Theorem mapped_bytes_reversed :
  ascii_addr [58; 58; 102; 102; 102; 102; 58; 49; 46; 50; 46; 51; 46; 52]
  = Ok (Some (MkAddr AF_INET6 (v4_prefix ++ [4; 3; 2; 1]) 80 0))
  /\ exists a, ascii_addr [58; 58; 102; 102; 102; 102; 58; 49; 46; 51; 48; 48; 46; 51; 46; 52] = Ok (Some a).
Proof. vm_compute. split; [done | by eexists]. Qed.
