(* ===== verification/FrangReq.v ===== *)
(** * Frang: checks of a request ([fw/http_limits.c])

    [frang_http_req_process()] runs each time a part of a request has been
    parsed.  It is a state machine that remembers in the request how far the checks
    have come, from the rate limit over method, URI, headers and body to trailers,
    with timeouts and chunk counts on the way.  There is one definition per state;
    a state returns the verdict together with the state to save.

    The request is the part of [TfwHttpReq] that the checks read; the HTTP parser
    changes it between two calls, in the way [parsed_more] describes.  The theorem
    [frang_request_sound] says that no limit can be passed by cutting a request into
    parts: when the machine is done, the whole request satisfies every configured
    limit, as long as the same settings apply; [location_limits_bypassed] shows what happens otherwise.
    The values of headers, which [tfw_http_msg_clnthdr_val()] extracts, are given. *)

From S2P Require Import Prelude Window Frang Str Hash Addr.

(** ** Data *)

Definition _TFW_HTTP_METH_NONE : Z := 0.
Definition TFW_HTTP_METH_POST : Z := 10.

Definition TFW_HTTP_VER_09 : Z := 1.
Definition TFW_HTTP_VER_10 : Z := 2.
Definition TFW_HTTP_VER_11 : Z := 3.
Definition TFW_HTTP_VER_20 : Z := 4.

Definition TFW_HTTP_HDR_REGULAR : nat := 4.

(** A header field, or one of its duplicates. *)
Record HdrField := MkField { f_len : Z; f_trailer : bool }.

Record FrangVhostCfg := MkVhost {
  http_methods_mask : Z;
  http_body_len : Z;
  http_uri_len : Z;
  http_field_len : Z;
  http_hdr_cnt : Z;
  http_ct_vals : option (list bytes);
  http_ct_required : bool;
  http_host_required : bool;
  http_trailer_split : bool;
  http_method_override : bool
}.

Record TfwHttpReq := MkReq {
  frang_st : Z;
  tm_header : Z;
  tm_bchunk : Z;
  chunk_cnt : Z;
  skb_head : Z;
  version : Z;
  method : Z;
  method_override : Z;
  uri_path_len : Z;
  uri_complete : bool;
  parser_hdr_len : Z;
  h_tbl : list (list HdrField);
  b_dupentry : bool;
  b_headers_parsed : bool;
  b_chunked_trailer : bool;
  parse_done : bool;
  content_type : TfwStr;
  h_authority : TfwStr;
  h_host : TfwStr;
  uri_host : TfwStr;
  host_port : Z;
  conn_tls : bool;
  sni_hash : Z;
  real_port : Z;
  body_str_len : Z;
  body_nchunks : Z;
  body_complete : bool;
  body_skb : Z
}.

(** The four fields which the checks write. *)
Definition set_st (st : Z) (r : TfwHttpReq) : TfwHttpReq :=
  MkReq st (tm_header r) (tm_bchunk r) (chunk_cnt r) (skb_head r) (version r) (method r)
    (method_override r) (uri_path_len r) (uri_complete r) (parser_hdr_len r) (h_tbl r) (b_dupentry r)
    (b_headers_parsed r) (b_chunked_trailer r) (parse_done r) (content_type r) (h_authority r)
    (h_host r) (uri_host r) (host_port r) (conn_tls r) (sni_hash r) (real_port r) (body_str_len r)
    (body_nchunks r) (body_complete r) (body_skb r).

Definition set_tm_header (t : Z) (r : TfwHttpReq) : TfwHttpReq :=
  MkReq (frang_st r) t (tm_bchunk r) (chunk_cnt r) (skb_head r) (version r) (method r)
    (method_override r) (uri_path_len r) (uri_complete r) (parser_hdr_len r) (h_tbl r) (b_dupentry r)
    (b_headers_parsed r) (b_chunked_trailer r) (parse_done r) (content_type r) (h_authority r)
    (h_host r) (uri_host r) (host_port r) (conn_tls r) (sni_hash r) (real_port r) (body_str_len r)
    (body_nchunks r) (body_complete r) (body_skb r).

Definition set_bchunk (t cnt : Z) (r : TfwHttpReq) : TfwHttpReq :=
  MkReq (frang_st r) (tm_header r) t cnt (skb_head r) (version r) (method r)
    (method_override r) (uri_path_len r) (uri_complete r) (parser_hdr_len r) (h_tbl r) (b_dupentry r)
    (b_headers_parsed r) (b_chunked_trailer r) (parse_done r) (content_type r) (h_authority r)
    (h_host r) (uri_host r) (host_port r) (conn_tls r) (sni_hash r) (real_port r) (body_str_len r)
    (body_nchunks r) (body_complete r) (body_skb r).

(** States of the machine. *)
Definition Frang_Req_0 : Z := 0.
Definition Frang_Req_Hdr_Method : Z := 1.
Definition Frang_Req_Hdr_UriLen : Z := 2.
Definition Frang_Req_Hdr_Check : Z := 3.
Definition Frang_Req_Hdr_NoState : Z := 4.
Definition Frang_Req_Body_Start : Z := 5.
Definition Frang_Req_Body : Z := 6.
Definition Frang_Req_Body_NoState : Z := 7.
Definition Frang_Req_Trailer : Z := 8.
Definition Frang_Req_Done : Z := 9.

(** ** Single checks *)

Definition frang_http_uri_len (r : TfwHttpReq) (uri_len : Z) : Z :=
  block_if (uri_len <? uri_path_len r).

Definition __frang_http_field_len (r : TfwHttpReq) (field_len hdr_cnt : Z) : Z :=
  if negb (hdr_cnt =? 0) && (hdr_cnt <=? zlen (h_tbl r)) then TFW_BLOCK
  else if field_len =? 0 then TFW_PASS
  else block_if (existsb (existsb (fun f => field_len <? f_len f)) (h_tbl r)).

Definition frang_http_field_len (r : TfwHttpReq) (field_len hdr_cnt : Z) : Z :=
  if negb (field_len =? 0) && (field_len <? parser_hdr_len r) then TFW_BLOCK
  else __frang_http_field_len r field_len hdr_cnt.

Definition frang_http_methods (r : TfwHttpReq) (m_mask : Z) : Z :=
  block_if (negb (Z.testbit m_mask (method r))).

Definition frang_http_methods_override (r : TfwHttpReq) (f : FrangVhostCfg) : Z :=
  if method_override r =? 0 then TFW_PASS
  else block_if (negb (http_method_override f)
                 || negb (http_methods_mask f =? 0)
                    && negb (Z.testbit (http_methods_mask f) (method_override r))).

Definition TFW_STR_EMPTY (s : TfwStr) : bool := (nchunks s =? 0) && (len s =? 0).

Section checks.
Context `{StrSimd}.

Fixpoint ct_match (field : TfwStr) (vals : list bytes) : outcome bool :=
  match vals with
  | [] => Ok false
  | v :: vals =>
      match tfw_str_eq_cstr field v true true with
      | Ok true => Ok true
      | Ok false => ct_match field vals
      | Bug => Bug
      end
  end.

(** The list of allowed values is dereferenced when the header is there. *)
Definition frang_http_ct_check (r : TfwHttpReq) (ct_vals : option (list bytes)) : outcome Z :=
  if negb (method r =? TFW_HTTP_METH_POST) then Ok TFW_PASS
  else if TFW_STR_EMPTY (content_type r) then Ok TFW_BLOCK
  else match ct_vals with
       | None => Bug
       | Some vals =>
           match ct_match (content_type r) vals with
           | Ok b => Ok (if b then TFW_PASS else TFW_BLOCK)
           | Bug => Bug
           end
       end.

(** ** The authority *)

(** The loop of [frang_get_host_header()] over the chunks of a value: lengths and numbers of
    chunks of the trimmed value and of the name, and whether the port has begun. *)
Definition host_chunk (acc : Z * Z * Z * Z * bool) (c : TfwStr) : Z * Z * Z * Z * bool :=
  let '(tl, tn, nl, nn, delim) := acc in
  if has_flag (flags c) TFW_STR_VALUE then
    if delim then (tl + len c, tn + 1, nl, nn, delim)
    else (tl + len c, tn + 1, nl + len c, nn + 1, delim)
  else if (len c =? 1) && (byte_at (data c) 0 =? 58) then (tl + len c, tn + 1, nl, nn, true)
  else acc.

(** The trimmed value and the name, on the chunks of the raw value. *)
Definition frang_get_host_header (raw : TfwStr) : TfwStr * TfwStr :=
  let '(tl, tn, nl, nn, _) := foldl host_chunk (0, 0, 0, 0, false) (str_chunks raw) in
  let mk l n := MkStr (data raw) (chunks raw) 0 l n (flags raw) 0 0 in
  (mk tl tn, mk nl nn).

Definition frang_assert_host_header (l r : TfwStr) : outcome bool :=
  if TFW_STR_EMPTY l || TFW_STR_EMPTY r then Ok false
  else match __tfw_strcmp l r true with
       | Ok c => Ok (negb (c =? 0))
       | Bug => Bug
       end.

(** The last checks of [frang_http_host_check()], on the effective value. *)
Definition host_value_check (r : TfwHttpReq) (val_trim val_name : TfwStr) : outcome Z :=
  match tfw_addr_pton val_trim (MkAddr 0 [] 0 0) with
  | Bug => Bug
  | Ok (Some _) => Ok TFW_BLOCK
  | Ok None =>
    let sni := if conn_tls r then sni_hash r else 0 in
    let port := if negb (host_port r =? 0) then host_port r else if conn_tls r then 443 else 80 in
    let rest := Ok (block_if (negb (port =? real_port r))) in
    if sni =? 0 then rest
    else match tfw_hash_str val_name with
         | Bug => Bug
         | Ok h => if h =? sni then rest else Ok TFW_BLOCK
         end
  end.

Definition frang_http_host_check (r : TfwHttpReq) : outcome Z :=
  if version r =? TFW_HTTP_VER_20 then
    let '(prim_trim, prim_name) := frang_get_host_header (h_authority r) in
    let '(sec_trim, sec_name) := frang_get_host_header (h_host r) in
    if TFW_STR_EMPTY prim_trim then
      if TFW_STR_EMPTY sec_trim then Ok TFW_BLOCK
      else host_value_check r sec_trim sec_name
    else
      match frang_assert_host_header prim_trim sec_trim with
      | Bug => Bug
      | Ok true => Ok TFW_BLOCK
      | Ok false => host_value_check r prim_trim prim_name
      end
  else if version r =? TFW_HTTP_VER_11 then
    let '(prim_trim, prim_name) := frang_get_host_header (h_host r) in
    if TFW_STR_EMPTY prim_trim then Ok TFW_BLOCK
    else
      match frang_assert_host_header prim_trim (uri_host r) with
      | Bug => Bug
      | Ok true => Ok TFW_BLOCK
      | Ok false => host_value_check r prim_trim prim_name
      end
  else if (version r =? TFW_HTTP_VER_10) || (version r =? TFW_HTTP_VER_09) then
    let '(prim_trim, _) := frang_get_host_header (h_host r) in
    Ok (block_if (negb (TFW_STR_EMPTY (uri_host r) && TFW_STR_EMPTY prim_trim)))
  else Ok TFW_BLOCK.

(** ** Timeouts and chunks *)

(** [time_is_before_jiffies(t)] *)
Definition time_is_before (t jiffies : Z) : bool := s64 (u64 t - jiffies) <? 0.

(** [skb] is the buffer that is being processed. *)
Definition frang_http_req_incomplete_hdrs_check (fg : FrangGlobCfg) (skb jiffies : Z)
    (r : TfwHttpReq) : Z :=
  if negb (clnt_hdr_timeout fg =? 0) && negb (skb =? skb_head r)
     && time_is_before (tm_header r + clnt_hdr_timeout fg) jiffies
  then TFW_BLOCK
  else block_if (over (http_hchunk_cnt fg) (chunk_cnt r)).

Definition body_empty (r : TfwHttpReq) : bool := (body_nchunks r =? 0) && (body_str_len r =? 0).

Definition frang_http_req_incomplete_body_check (fg : FrangGlobCfg) (f : FrangVhostCfg)
    (skb jiffies : Z) (r : TfwHttpReq) : Z * TfwHttpReq :=
  if body_empty r then (TFW_PASS, r)
  else
    let timed := negb (clnt_body_timeout fg =? 0) && negb (tm_bchunk r =? 0)
                 && negb (skb =? body_skb r) in
    if timed && time_is_before (tm_bchunk r + clnt_body_timeout fg) jiffies then (TFW_BLOCK, r)
    else
      let r := if timed then set_bchunk jiffies (chunk_cnt r) r else r in
      if over (http_bchunk_cnt fg) (chunk_cnt r) then (TFW_BLOCK, r)
      else (block_if (over (http_body_len f) (body_str_len r)), r).

(** A header is split when some of its occurrences, but not all, are trailers. *)
Definition split_field (dups : list HdrField) : bool :=
  let trailers := zlen (filter (fun x => f_trailer x = true) dups) in
  negb (trailers =? 0) && negb (zlen dups =? trailers).

Definition frang_http_req_trailer_check (fg : FrangGlobCfg) (f : FrangVhostCfg) (skb jiffies : Z)
    (r : TfwHttpReq) : Z * TfwHttpReq :=
  if negb (b_chunked_trailer r) then (TFW_PASS, r)
  else
    let '(v, r) := frang_http_req_incomplete_body_check fg f skb jiffies r in
    if b_dupentry r then (TFW_BLOCK, r)
    else
      let v := if v =? TFW_PASS then frang_http_field_len r (http_field_len f) (http_hdr_cnt f) else v in
      if negb (v =? TFW_PASS) then (v, r)
      else if negb (parse_done r) then (TFW_POSTPONE, r)
      else if negb (http_trailer_split f) then (TFW_PASS, r)
      else if existsb split_field (drop TFW_HTTP_HDR_REGULAR (h_tbl r)) then (TFW_BLOCK, r)
      else (v, r).

(** ** The state machine *)

Section fsm.
Context (HZ : Z) (fg : FrangGlobCfg) (f : FrangVhostCfg) (skb jiffies : Z).

(** A state: the verdict, the state to save and the request; the account is needed in the
    first state only. *)
Abbreviation FsmRes := (outcome (Z * Z * TfwHttpReq)).

Definition st_done (r : TfwHttpReq) : FsmRes := Ok (TFW_PASS, Frang_Req_Done, r).

Definition st_trailer (r : TfwHttpReq) : FsmRes :=
  let '(v, r) := frang_http_req_trailer_check fg f skb jiffies r in
  if negb (v =? TFW_PASS) then Ok (v, Frang_Req_Trailer, r) else st_done r.

Definition st_body (r : TfwHttpReq) : FsmRes :=
  if negb (body_complete r) then Ok (TFW_PASS, Frang_Req_Body, r) else st_trailer r.

Definition st_body_start (r : TfwHttpReq) : FsmRes :=
  let r := set_bchunk jiffies 0 r in
  let '(v, r) := frang_http_req_incomplete_body_check fg f skb jiffies r in
  if negb (v =? TFW_PASS) then Ok (v, Frang_Req_Body_Start, r) else st_body r.

(** The checks on the complete set of headers. *)
Definition hdr_final_checks (r : TfwHttpReq) : outcome Z :=
  match (if http_host_required f then frang_http_host_check r else Ok TFW_PASS) with
  | Bug => Bug
  | Ok v =>
      if negb (v =? TFW_PASS) then Ok v
      else
        let v := frang_http_methods_override r f in
        if negb (v =? TFW_PASS) then Ok v
        else if http_ct_required f || bool_decide (is_Some (http_ct_vals f))
        then frang_http_ct_check r (http_ct_vals f)
        else Ok TFW_PASS
  end.

Definition st_hdr_check (r : TfwHttpReq) : FsmRes :=
  if b_dupentry r then Ok (TFW_BLOCK, Frang_Req_Hdr_Check, r)
  else
    let v := frang_http_field_len r (http_field_len f) (http_hdr_cnt f) in
    if negb (v =? TFW_PASS) then Ok (v, Frang_Req_Hdr_Check, r)
    else if negb (b_headers_parsed r) then Ok (TFW_PASS, Frang_Req_Hdr_Check, r)
    else
      match hdr_final_checks r with
      | Bug => Bug
      | Ok v => if negb (v =? TFW_PASS) then Ok (v, Frang_Req_Hdr_Check, r) else st_body_start r
      end.

Definition st_uri_len (r : TfwHttpReq) : FsmRes :=
  if http_uri_len f =? 0 then st_hdr_check r
  else
    let v := frang_http_uri_len r (http_uri_len f) in
    if negb (uri_complete r) then Ok (v, Frang_Req_Hdr_UriLen, r)
    else if negb (v =? TFW_PASS) then Ok (v, Frang_Req_Hdr_UriLen, r)
    else st_hdr_check r.

Definition st_method (r : TfwHttpReq) : FsmRes :=
  if http_methods_mask f =? 0 then st_uri_len r
  else if method r =? _TFW_HTTP_METH_NONE then Ok (TFW_PASS, Frang_Req_Hdr_Method, r)
  else
    let v := frang_http_methods r (http_methods_mask f) in
    if negb (v =? TFW_PASS) then Ok (v, Frang_Req_Hdr_Method, r) else st_uri_len r.

Definition st_0 (ra : FrangAcc) (r : TfwHttpReq) : outcome (Z * Z * TfwHttpReq * FrangAcc) :=
  match frang_req_limit HZ (req_burst fg) (req_rate fg) jiffies ra with
  | Bug => Bug
  | Ok (v, ra) =>
      let r := set_tm_header jiffies r in
      if negb (v =? TFW_PASS) then Ok (v, Frang_Req_0, r, ra)
      else match st_method r with
           | Ok (v, st, r) => Ok (v, st, r, ra)
           | Bug => Bug
           end
  end.

(** The [switch] on the saved state; the states that do not exist fall through it. *)
Definition fsm_start (ra : FrangAcc) (r : TfwHttpReq) : outcome (Z * Z * TfwHttpReq * FrangAcc) :=
  if frang_st r =? Frang_Req_0 then st_0 ra r
  else
    let res :=
      if frang_st r =? Frang_Req_Hdr_Method then st_method r
      else if frang_st r =? Frang_Req_Hdr_UriLen then st_uri_len r
      else if frang_st r =? Frang_Req_Hdr_Check then st_hdr_check r
      else if frang_st r =? Frang_Req_Body_Start then st_body_start r
      else if frang_st r =? Frang_Req_Body then st_body r
      else if frang_st r =? Frang_Req_Trailer then st_trailer r
      else if frang_st r =? Frang_Req_Done then st_done r
      else Ok (TFW_PASS, Frang_Req_0, r) in
    match res with
    | Ok (v, st, r) => Ok (v, st, r, ra)
    | Bug => Bug
    end.

(** The part of [frang_http_req_process()] under the lock. *)
Definition req_checks : SM (FrangAcc * TfwHttpReq) Z := fun s =>
  let '(ra, r) := s in
  let '(v, r) :=
    if frang_st r <? Frang_Req_Hdr_NoState
    then (frang_http_req_incomplete_hdrs_check fg skb jiffies r, r)
    else frang_http_req_incomplete_body_check fg f skb jiffies r in
  if negb (v =? TFW_PASS) then Ok (v, (ra, r))
  else match fsm_start ra r with
       | Ok (v, st, r, ra) => Ok (v, (ra, set_st st r))
       | Bug => Bug
       end.
End fsm.

(** ** The settings that apply *)

(** What the choice reads of a virtual host: its global settings, those of its default virtual host
    when it has one, and the settings of its default location. *)
Record VhostRef := MkVhostRef {
  frang_gconf : option FrangGlobCfg;
  vhost_dflt : option (option FrangGlobCfg);
  loc_dflt : option FrangVhostCfg
}.

(** Before the request is assigned to a virtual host the default one [dvh] is used. *)
Definition frang_select_cfg (vhost : option VhostRef) (location : option (option FrangVhostCfg))
    (dvh : VhostRef) : option FrangGlobCfg * option FrangVhostCfg :=
  match vhost with
  | Some vh =>
      (match vhost_dflt vh with Some g => g | None => frang_gconf vh end,
       match location with Some l => l | None => loc_dflt vh end)
  | None => (frang_gconf dvh, loc_dflt dvh)
  end.

(** How a request is bound: whether the client has an account, whether the request still has a
    stream and already has a response, its virtual host and its location. *)
Record ReqBind := MkBind {
  rb_acc : bool;
  rb_stream : bool;
  rb_resp : bool;
  rb_vhost : option VhostRef;
  rb_location : option (option FrangVhostCfg)
}.

Definition frang_http_req_process (HZ skb jiffies : Z) (b : ReqBind) (dvh : VhostRef)
    : SM (FrangAcc * TfwHttpReq) Z :=
  if negb (rb_acc b) then sm_ret TFW_BLOCK
  else if negb (rb_stream b) then sm_ret (if rb_resp b then TFW_PASS else TFW_BLOCK)
  else match frang_select_cfg (rb_vhost b) (rb_location b) dvh with
       | (Some fg, Some f) => req_checks HZ fg f skb jiffies
       | _ => sm_ret TFW_BLOCK
       end.

(** The handler of the GFSM: requests of the white list are not checked. *)
Definition frang_http_req_handler (HZ skb jiffies : Z) (whitelist : bool) (b : ReqBind)
    (dvh : option VhostRef) : SM (FrangAcc * TfwHttpReq) FrangVerdict :=
  if whitelist then sm_ret (MkVerdict TFW_PASS false false)
  else match dvh with
       | None => sm_ret (MkVerdict TFW_BLOCK false false)
       | Some dvh =>
           v <~ frang_http_req_process HZ skb jiffies b dvh ;;
           if v =? TFW_BLOCK then
             match frang_gconf dvh with
             | Some g => sm_ret (MkVerdict v (ip_block g) false)
             | None => fun _ => Bug
             end
           else sm_ret (MkVerdict v false false)
       end.

(** [frang_resp_process()]: the body of a response. *)
Definition frang_resp_process (f : FrangVhostCfg) (content_length body_length : Z) : Z :=
  if http_body_len f =? 0 then TFW_PASS
  else block_if ((http_body_len f <? content_length) || (http_body_len f <? body_length)).

(** ** What the limits mean for a request *)

Section spec.
Context (fg : FrangGlobCfg) (f : FrangVhostCfg).

Definition method_ok (r : TfwHttpReq) : Prop :=
  http_methods_mask f = 0
  \/ method r <> _TFW_HTTP_METH_NONE /\ Z.testbit (http_methods_mask f) (method r) = true.

Definition uri_ok (r : TfwHttpReq) : Prop :=
  http_uri_len f = 0 \/ uri_complete r = true /\ uri_path_len r <= http_uri_len f.

Definition fields_ok (r : TfwHttpReq) : Prop :=
  (http_hdr_cnt f = 0 \/ zlen (h_tbl r) < http_hdr_cnt f)
  /\ (http_field_len f = 0 \/ Forall (Forall (fun x => f_len x <= http_field_len f)) (h_tbl r)).

Definition override_ok (r : TfwHttpReq) : Prop :=
  method_override r = 0
  \/ http_method_override f = true
     /\ (http_methods_mask f = 0 \/ Z.testbit (http_methods_mask f) (method_override r) = true).

Definition host_ok (r : TfwHttpReq) : Prop :=
  http_host_required f = true -> frang_http_host_check r = Ok TFW_PASS.

Definition ct_ok (r : TfwHttpReq) : Prop :=
  http_ct_required f = true \/ is_Some (http_ct_vals f) ->
  frang_http_ct_check r (http_ct_vals f) = Ok TFW_PASS.

Definition body_ok (r : TfwHttpReq) : Prop :=
  http_body_len f = 0 \/ body_str_len r <= http_body_len f.

(** Trailers have no duplicates of fields that may occur once, and they are complete. *)
Definition trailer_ok (r : TfwHttpReq) : Prop :=
  b_chunked_trailer r = true -> b_dupentry r = false /\ parse_done r = true.

(** No field is partly in the header and partly in the trailer. *)
Definition no_split (r : TfwHttpReq) : Prop :=
  Forall (fun dups => split_field dups = false) (drop TFW_HTTP_HDR_REGULAR (h_tbl r)).

(** The limits on a request. *)
Definition all_ok (r : TfwHttpReq) : Prop :=
  method_ok r /\ uri_ok r /\ fields_ok r /\ override_ok r /\ host_ok r /\ ct_ok r /\ body_ok r
  /\ trailer_ok r.

(** What the code checks: split fields are looked for when [http_trailer_split] allows them, see
    [trailer_split_inverted]. *)
Definition trailer_checked (r : TfwHttpReq) : Prop :=
  b_chunked_trailer r = true ->
  b_dupentry r = false /\ parse_done r = true
  /\ (http_trailer_split f = true ->
      Forall (fun dups => split_field dups = false) (drop TFW_HTTP_HDR_REGULAR (h_tbl r))).

Definition all_checked (r : TfwHttpReq) : Prop :=
  method_ok r /\ uri_ok r /\ fields_ok r /\ override_ok r /\ host_ok r /\ ct_ok r /\ body_ok r
  /\ trailer_checked r.

Lemma all_checked_ok r : all_checked r -> all_ok r.
Proof. unfold all_checked, all_ok, trailer_checked, trailer_ok. naive_solver. Qed.

Lemma all_ok_checked r : all_ok r -> no_split r -> all_checked r.
Proof. unfold all_checked, all_ok, trailer_checked, trailer_ok, no_split. naive_solver. Qed.

(** ** What parsing does to a request *)

(** What has been parsed stays as it is. *)
Record parsed_more (r r' : TfwHttpReq) : Prop := {
  pm_st : frang_st r' = frang_st r;
  pm_method : method r <> _TFW_HTTP_METH_NONE -> method r' = method r;
  pm_uri : uri_complete r = true -> uri_complete r' = true /\ uri_path_len r' = uri_path_len r;
  pm_headers : b_headers_parsed r = true ->
    b_headers_parsed r' = true /\ version r' = version r /\ method r' = method r
    /\ method_override r' = method_override r /\ content_type r' = content_type r
    /\ h_authority r' = h_authority r /\ h_host r' = h_host r /\ uri_host r' = uri_host r
    /\ host_port r' = host_port r /\ conn_tls r' = conn_tls r /\ sni_hash r' = sni_hash r
    /\ real_port r' = real_port r /\ (b_chunked_trailer r' = false -> h_tbl r' = h_tbl r);
  pm_body : body_complete r = true -> body_complete r' = true /\ body_str_len r' = body_str_len r;
  pm_trailer : b_chunked_trailer r = true -> b_chunked_trailer r' = true;
  pm_done : parse_done r = true ->
    parse_done r' = true /\ h_tbl r' = h_tbl r /\ b_dupentry r' = b_dupentry r
}.

(** Trailers are known when the body is complete. *)
Definition no_late_trailer (r r' : TfwHttpReq) : Prop :=
  body_complete r = true -> b_chunked_trailer r' = b_chunked_trailer r.

(** ** The invariant of the machine *)

Definition hdrs_ok (r : TfwHttpReq) : Prop :=
  b_headers_parsed r = true /\ override_ok r /\ host_ok r /\ ct_ok r
  /\ (fields_ok r \/ b_chunked_trailer r = true).

(** What is known of a request in the state [st]. *)
Definition st_inv (st : Z) (r : TfwHttpReq) : Prop :=
  (Frang_Req_Hdr_UriLen <= st -> method_ok r)
  /\ (Frang_Req_Hdr_Check <= st -> uri_ok r)
  /\ (Frang_Req_Body_Start <= st -> hdrs_ok r)
  /\ (Frang_Req_Trailer <= st -> body_complete r = true)
  /\ (Frang_Req_Done <= st -> fields_ok r /\ trailer_checked r).

Lemma host_ok_more r r' : parsed_more r r' -> b_headers_parsed r = true -> host_ok r -> host_ok r'.
Proof using.
  intros Hm Hp Ho Hr. specialize (Ho Hr).
  destruct (pm_headers _ _ Hm Hp) as (_ & Hv & _ & _ & _ & Ha & Hh & Hu & Hpo & Ht & Hs & Hrp & _).
  unfold frang_http_host_check, host_value_check in *. by rewrite Hv, Ha, Hh, Hu, Hpo, Ht, Hs, Hrp.
Qed.

Lemma st_inv_more st r r' :
  parsed_more r r' -> no_late_trailer r r' -> st_inv st r -> st_inv st r'.
Proof using.
  intros Hm Hlate (Hme & Huri & Hh & Hb & Hd).
  assert (Hparsed : Frang_Req_Body_Start <= st -> b_headers_parsed r = true) by (intros Hst; apply Hh, Hst).
  refine (conj _ (conj _ (conj _ (conj _ _)))).
  - intros Hst. destruct (Hme Hst) as [Hz | [Hn Hbit]]; [by left | right].
    rewrite (pm_method _ _ Hm Hn). done.
  - intros Hst. destruct (Huri Hst) as [Hz | [Hc Hl]]; [by left | right].
    destruct (pm_uri _ _ Hm Hc) as [-> ->]. done.
  - intros Hst. destruct (Hh Hst) as (Hp & Hov & Hho & Hct & Hfi).
    destruct (pm_headers _ _ Hm Hp) as (Hp' & _ & Hmeth & Hovr & Hctr & _ & _ & _ & _ & _ & _ & _ & Htbl).
    split; [done |]. split; [unfold override_ok in *; by rewrite Hovr |].
    split; [by eapply host_ok_more |].
    split; [intros Hr; specialize (Hct Hr); unfold frang_http_ct_check in *; by rewrite Hmeth, Hctr |].
    destruct (b_chunked_trailer r') eqn:Ht; [by right | left].
    destruct Hfi as [Hfi | Hfi]; [unfold fields_ok in *; by rewrite (Htbl eq_refl) |].
    rewrite (pm_trailer _ _ Hm Hfi) in Ht. done.
  - intros Hst. by apply (pm_body _ _ Hm), Hb.
  - intros Hst. destruct (Hd Hst) as [Hfi Htr].
    unfold Frang_Req_Done, Frang_Req_Trailer, Frang_Req_Body_Start in *.
    specialize (Hlate (Hb ltac:(lia))).
    destruct (pm_headers _ _ Hm (Hparsed ltac:(lia))) as (_ & _ & _ & _ & _ & _ & _ & _ & _ & _ & _ & _ & Htbl).
    destruct (b_chunked_trailer r) eqn:Ht.
    + destruct (Htr Ht) as (Hdup & Hdone & Hsp).
      destruct (pm_done _ _ Hm Hdone) as (Hdone' & Htbl' & Hdup').
      unfold fields_ok, trailer_checked in *. by rewrite Htbl', Hdup', Hdone'.
    + rewrite Hlate in Htbl. specialize (Htbl eq_refl).
      unfold fields_ok, trailer_checked in *. rewrite Htbl. split; [done |]. by rewrite Hlate.
Qed.

(** ** The states *)

(** A request changed in the fields of the checks only. *)
Definition own_eq (r r' : TfwHttpReq) : Prop :=
  exists st t1 t2 c, r' = set_st st (set_tm_header t1 (set_bchunk t2 c r)).

Lemma own_eq_refl r : own_eq r r.
Proof using. exists (frang_st r), (tm_header r), (tm_bchunk r), (chunk_cnt r). by destruct r. Qed.

Lemma own_eq_trans r1 r2 r3 : own_eq r1 r2 -> own_eq r2 r3 -> own_eq r1 r3.
Proof using.
  intros (s1 & t1 & b1 & c1 & ->) (s2 & t2 & b2 & c2 & ->). by exists s2, t2, b2, c2.
Qed.

Lemma own_eq_bchunk t c r : own_eq r (set_bchunk t c r).
Proof using. exists (frang_st r), (tm_header r), t, c. by destruct r. Qed.

Lemma st_inv_own st r r' : own_eq r r' -> st_inv st r -> st_inv st r'.
Proof using. intros (s1 & t1 & b1 & c1 & ->). destruct r. exact id. Qed.

Lemma body_ok_own r r' : own_eq r r' -> body_ok r -> body_ok r'.
Proof using. intros (s1 & t1 & b1 & c1 & ->). by destruct r. Qed.

Lemma st_inv_le st st' r : st' <= st -> st_inv st r -> st_inv st' r.
Proof using.
  intros Hle (H1 & H2 & H3 & H4 & H5).
  refine (conj _ (conj _ (conj _ (conj _ _)))); intros; [apply H1 | apply H2 | apply H3 | apply H4 | apply H5]; lia.
Qed.

Lemma block_pass (b : bool) : block_if b = TFW_PASS -> b = false.
Proof using. by destruct b. Qed.

Lemma over_false lim v : over lim v = false -> lim = 0 \/ v <= lim.
Proof using. unfold over. intros Ho. apply andb_false_iff in Ho as [Ho | Ho]; bool_hyps; lia. Qed.

Lemma field_len_pass r :
  frang_http_field_len r (http_field_len f) (http_hdr_cnt f) = TFW_PASS -> fields_ok r.
Proof using.
  unfold frang_http_field_len, __frang_http_field_len, fields_ok.
  destruct (_ && _); [done |].
  destruct (negb (http_hdr_cnt f =? 0) && (http_hdr_cnt f <=? zlen (h_tbl r))) eqn:Hc; [done |].
  intros Hf. split.
  - apply andb_false_iff in Hc as [Hc | Hc]; bool_hyps; lia.
  - destruct (Z.eqb_spec (http_field_len f) 0); [by left | right].
    apply block_pass in Hf. apply Forall_forall. intros dups Hin. apply Forall_forall. intros x Hx.
    apply Z.nlt_ge. intros Hlt.
    assert (existsb (existsb (fun f0 => http_field_len f <? f_len f0)) (h_tbl r) = true); [| congruence].
    apply existsb_exists. exists dups. split; [by apply list_elem_of_In |].
    apply existsb_exists. exists x. split; [by apply list_elem_of_In | by apply Z.ltb_lt].
Qed.

Lemma existsb_none {A} (p : A -> bool) l : Forall (fun x => p x = false) l -> existsb p l = false.
Proof using. induction 1 as [| x l Hx _ IH]; [done |]. simpl. by rewrite Hx, IH. Qed.

Lemma existsb_fields lim (l : list (list HdrField)) :
  Forall (Forall (fun x => f_len x <= lim)) l -> existsb (existsb (fun x => lim <? f_len x)) l = false.
Proof using.
  intros Hf. apply existsb_none. eapply Forall_impl; [exact Hf |]. intros dups Hd. apply existsb_none.
  eapply Forall_impl; [exact Hd |]. intros x Hx. by apply Z.ltb_ge.
Qed.

Section call.
Context (HZ skb jiffies : Z).

Lemma body_check_ok r :
  exists v r', frang_http_req_incomplete_body_check fg f skb jiffies r = (v, r') /\ own_eq r r'
    /\ (v = TFW_PASS -> body_str_len r <= 0 \/ body_ok r).
Proof using.
  unfold frang_http_req_incomplete_body_check, body_empty.
  destruct (_ && _) eqn:He.
  { exists TFW_PASS, r. split; [done |]. split; [apply own_eq_refl |]. intros _. left. bool_hyps. lia. }
  set (timed := negb (clnt_body_timeout fg =? 0) && negb (tm_bchunk r =? 0) && negb (skb =? body_skb r)).
  destruct (timed && time_is_before _ _).
  { exists TFW_BLOCK, r. split; [done |]. split; [apply own_eq_refl | done]. }
  set (r1 := if timed then set_bchunk jiffies (chunk_cnt r) r else r).
  assert (Hown : own_eq r r1) by (unfold r1; destruct timed; [apply own_eq_bchunk | apply own_eq_refl]).
  assert (Hlen : body_str_len r1 = body_str_len r) by (unfold r1; by destruct timed).
  destruct (over (http_bchunk_cnt fg) (chunk_cnt r1)).
  { exists TFW_BLOCK, r1. done. }
  eexists _, r1. split; [reflexivity |]. split; [done |]. intros Hp. right.
  apply block_pass, over_false in Hp. unfold body_ok. rewrite Hlen in Hp. lia.
Qed.

(** A body that has been checked, or is empty. *)
Definition checked (r : TfwHttpReq) : Prop := body_str_len r <= 0 \/ body_ok r.

Lemma checked_own r r' : own_eq r r' -> checked r -> checked r'.
Proof using. intros (s1 & t1 & b1 & c1 & ->). by destruct r. Qed.

Definition res_ok (r : TfwHttpReq) (res : outcome (Z * Z * TfwHttpReq)) : Prop :=
  exists v st r', res = Ok (v, st, r') /\ own_eq r r' /\ st_inv st r'
    /\ (st = Frang_Req_Done -> checked r').

Lemma res_ok_own r r' res : own_eq r r' -> res_ok r' res -> res_ok r res.
Proof using.
  intros Ho (v & st & r'' & -> & Ho' & Hi & Hd). exists v, st, r''.
  split; [done |]. split; [by eapply own_eq_trans |]. done.
Qed.

Lemma res_ok_stop r v st :
  st_inv st r -> st <> Frang_Req_Done -> res_ok r (Ok (v, st, r)).
Proof using. intros Hi Hn. exists v, st, r. split; [done |]. split; [apply own_eq_refl |]. done. Qed.

Lemma st_done_ok r : st_inv Frang_Req_Done r -> checked r -> res_ok r (st_done r).
Proof using.
  intros Hi Hc. exists TFW_PASS, Frang_Req_Done, r. split; [done |]. split; [apply own_eq_refl |]. done.
Qed.

Lemma trailer_inv r :
  st_inv Frang_Req_Trailer r -> fields_ok r -> trailer_checked r -> st_inv Frang_Req_Done r.
Proof using.
  intros (H1 & H2 & H3 & H4 & _) Hf Ht. unfold Frang_Req_Trailer, Frang_Req_Done in *.
  refine (conj _ (conj _ (conj _ (conj _ _)))); intros; [apply H1 | apply H2 | apply H3 | apply H4 | done];
    unfold Frang_Req_Hdr_UriLen, Frang_Req_Hdr_Check, Frang_Req_Body_Start, Frang_Req_Trailer in *; lia.
Qed.

Lemma st_trailer_ok r :
  st_inv Frang_Req_Trailer r -> checked r -> res_ok r (st_trailer fg f skb jiffies r).
Proof using.
  intros Hi Hc. unfold st_trailer, frang_http_req_trailer_check.
  destruct (b_chunked_trailer r) eqn:Ht; simpl negb; cbv iota; cycle 1.
  { simpl. apply st_done_ok; [| done]. apply trailer_inv; [done | | intros H'; congruence].
    destruct Hi as (_ & _ & Hh & _). destruct (Hh ltac:(done)) as (_ & _ & _ & _ & [Hf | Hf]); [done | congruence]. }
  destruct (body_check_ok r) as (v & r1 & -> & Hown & Hv).
  pose proof (st_inv_own _ _ _ Hown Hi) as Hi1. pose proof (checked_own _ _ Hown Hc) as Hc1.
  assert (Ht1 : b_chunked_trailer r1 = true).
  { destruct Hown as (? & ? & ? & ? & ->). by destruct r. }
  apply (res_ok_own _ r1); [done |].
  assert (Hstop : forall v, res_ok r1 (Ok (v, Frang_Req_Trailer, r1))) by (intros; by apply res_ok_stop).
  destruct (b_dupentry r1) eqn:Hdup; [apply Hstop |].
  set (v1 := if v =? TFW_PASS then _ else _).
  destruct (Z.eqb_spec v1 TFW_PASS) as [Hv1 | Hn]; simpl negb; cbv iota; cycle 1.
  { destruct (Z.eqb_spec v1 TFW_PASS); [done |]. simpl. apply Hstop. }
  assert (Hf : fields_ok r1).
  { unfold v1 in Hv1. destruct (Z.eqb_spec v TFW_PASS); [by apply field_len_pass | done]. }
  destruct (parse_done r1) eqn:Hd; simpl negb; cbv iota; [| apply Hstop].
  destruct (http_trailer_split f) eqn:Hsp; simpl negb; cbv iota.
  - destruct (existsb _ _) eqn:Hex; [apply Hstop |]. rewrite Hv1. simpl.
    apply st_done_ok; [| done]. apply trailer_inv; [done | done |]. intros _.
    split; [done |]. split; [done |]. intros _. apply Forall_forall. intros dups Hin.
    destruct (split_field dups) eqn:Hs; [| done].
    assert (existsb split_field (drop TFW_HTTP_HDR_REGULAR (h_tbl r1)) = true); [| congruence].
    apply existsb_exists. exists dups. split; [by apply list_elem_of_In | done].
  - simpl. apply st_done_ok; [| done]. apply trailer_inv; [done | done |]. intros _.
    split; [done |]. split; [done |]. rewrite Hsp. done.
Qed.

Lemma st_body_ok r :
  st_inv Frang_Req_Body r -> checked r -> res_ok r (st_body fg f skb jiffies r).
Proof using.
  intros (H1 & H2 & H3 & H4 & H5) Hc. unfold st_body. destruct (body_complete r) eqn:Hb; simpl negb; cbv iota.
  - apply st_trailer_ok; [| done].
    refine (conj _ (conj _ (conj _ (conj _ _)))); intros Hle;
      [by apply H1 | by apply H2 | by apply H3 | done | done].
  - by apply res_ok_stop.
Qed.

Lemma st_body_start_ok r : st_inv Frang_Req_Body r -> res_ok r (st_body_start fg f skb jiffies r).
Proof using.
  intros Hi. unfold st_body_start.
  pose proof (own_eq_bchunk jiffies 0 r) as Ho. apply (res_ok_own _ _ _ Ho).
  destruct (body_check_ok (set_bchunk jiffies 0 r)) as (v & r1 & -> & Ho1 & Hv).
  apply (res_ok_own _ _ _ Ho1). pose proof (own_eq_trans _ _ _ Ho Ho1) as Ho2.
  pose proof (st_inv_own _ _ _ Ho2 Hi) as Hi1.
  destruct (Z.eqb_spec v TFW_PASS) as [Hp | Hn]; simpl negb; cbv iota.
  - apply st_body_ok; [done |]. by apply (checked_own _ _ Ho1), Hv.
  - apply res_ok_stop; [| done]. by apply (st_inv_le Frang_Req_Body).
Qed.

Lemma host_override_ct r :
  hdr_final_checks f r = Ok TFW_PASS -> override_ok r /\ host_ok r /\ ct_ok r.
Proof using.
  unfold hdr_final_checks, host_ok, ct_ok. intros Hc.
  destruct (if http_host_required f then _ else _) as [v|] eqn:Hh; [| done].
  destruct (Z.eqb_spec v TFW_PASS) as [-> | Hn]; simpl negb in Hc; cbv iota in Hc; [| congruence].
  destruct (Z.eqb_spec (frang_http_methods_override r f) TFW_PASS) as [Ho | Hn];
    simpl negb in Hc; cbv iota in Hc; [| congruence].
  split; [| split].
  - unfold frang_http_methods_override in Ho. unfold override_ok.
    destruct (Z.eqb_spec (method_override r) 0); [by left | right].
    apply block_pass, orb_false_iff in Ho as [Ha Hb].
    split; [by destruct (http_method_override f) |].
    apply andb_false_iff in Hb as [Hb | Hb]; bool_hyps; [by left | by right].
  - intros Hr. by rewrite Hr in Hh.
  - intros Hr. destruct (_ || _) eqn:Hor in Hc; [done |].
    apply orb_false_iff in Hor as [Hr1 Hr2]. apply bool_decide_eq_false in Hr2.
    destruct Hr as [Hr | Hr]; [congruence | done].
Qed.

Lemma hdr_final_own r r' : own_eq r r' -> hdr_final_checks f r' = hdr_final_checks f r.
Proof using. intros (s1 & t1 & b1 & c1 & ->). by destruct r. Qed.

Lemma st_hdr_check_ok r :
  hdr_final_checks f r <> Bug -> st_inv Frang_Req_Hdr_Check r ->
  res_ok r (st_hdr_check fg f skb jiffies r).
Proof using.
  intros Hnb Hi. pose proof Hi as (H1 & H2 & H3 & H4 & H5). unfold st_hdr_check.
  assert (Hstop : forall v, res_ok r (Ok (v, Frang_Req_Hdr_Check, r))) by (intros; by apply res_ok_stop).
  destruct (b_dupentry r); [apply Hstop |].
  destruct (Z.eqb_spec (frang_http_field_len r (http_field_len f) (http_hdr_cnt f)) TFW_PASS) as [Hf | Hf];
    simpl negb; cbv iota; [| apply Hstop].
  destruct (b_headers_parsed r) eqn:Hp; simpl negb; cbv iota; [| apply Hstop].
  destruct (hdr_final_checks f r) as [v|] eqn:Hh; [| done].
  destruct (Z.eqb_spec v TFW_PASS) as [-> | Hn]; simpl negb; cbv iota; [| apply Hstop].
  apply st_body_start_ok. apply host_override_ct in Hh as (Ho & Hho & Hct).
  refine (conj _ (conj _ (conj _ (conj _ _)))); intros Hle; [by apply H1 | by apply H2 | | done | done].
  split; [done |]. split; [done |]. split; [done |]. split; [done |]. left. by apply field_len_pass.
Qed.

Lemma st_uri_len_ok r :
  hdr_final_checks f r <> Bug -> st_inv Frang_Req_Hdr_UriLen r ->
  res_ok r (st_uri_len fg f skb jiffies r).
Proof using.
  intros Hnb Hi. pose proof Hi as (H1 & H2 & H3 & H4 & H5). unfold st_uri_len.
  assert (Hnext : uri_ok r -> res_ok r (st_hdr_check fg f skb jiffies r)).
  { intros Hu. apply st_hdr_check_ok; [done |].
    refine (conj _ (conj _ (conj _ (conj _ _)))); intros Hle; [by apply H1 | done | done | done | done]. }
  destruct (Z.eqb_spec (http_uri_len f) 0); [apply Hnext; by left |].
  destruct (uri_complete r) eqn:Hc; simpl negb; cbv iota; [| by apply res_ok_stop].
  destruct (Z.eqb_spec (frang_http_uri_len r (http_uri_len f)) TFW_PASS) as [Hl | Hl];
    simpl negb; cbv iota; [| by apply res_ok_stop].
  apply Hnext. right. split; [done |]. apply block_pass in Hl. bool_hyps. lia.
Qed.

Lemma st_method_ok r :
  hdr_final_checks f r <> Bug -> res_ok r (st_method fg f skb jiffies r).
Proof using.
  intros Hnb. unfold st_method.
  assert (Hnext : method_ok r -> res_ok r (st_uri_len fg f skb jiffies r)).
  { intros Hu. apply st_uri_len_ok; [done |].
    refine (conj _ (conj _ (conj _ (conj _ _)))); intros Hle; done. }
  assert (Hstop : forall v, res_ok r (Ok (v, Frang_Req_Hdr_Method, r))).
  { intros v. apply res_ok_stop; [| done]. refine (conj _ (conj _ (conj _ (conj _ _)))); intros Hle; done. }
  destruct (Z.eqb_spec (http_methods_mask f) 0); [apply Hnext; by left |].
  destruct (Z.eqb_spec (method r) _TFW_HTTP_METH_NONE); [apply Hstop |].
  destruct (Z.eqb_spec (frang_http_methods r (http_methods_mask f)) TFW_PASS) as [Hl | Hl];
    simpl negb; cbv iota; [| apply Hstop].
  apply Hnext. right. split; [done |]. apply block_pass in Hl. by destruct (Z.testbit _ _).
Qed.

(** ** A call *)

(** The invariant between two calls. *)
Definition req_inv (r : TfwHttpReq) : Prop :=
  st_inv (frang_st r) r /\ (frang_st r = Frang_Req_Done -> checked r).

(** The slots of the account. *)
Definition acc_slots (ra : FrangAcc) : Prop := length (history ra) = 8%nat.

Lemma req_limit_total burst rate ra :
  acc_slots ra -> wp (frang_req_limit HZ burst rate jiffies) (fun _ ra' => acc_slots ra') ra.
Proof using.
  intros Hs. unfold frang_req_limit. destruct (_ && _); [by apply wp_ret |].
  set (i := Z.to_nat _).
  assert (Hi : (i < length (history ra))%nat).
  { rewrite Hs. unfold i, FRANG_FREQ. pose proof (Z.mod_pos_bound (frang_quantum HZ jiffies) 8). lia. }
  destruct (lookup_lt_is_Some_2 _ _ Hi) as [h Hh].
  unfold wp, sm_bind, get_hist. rewrite Hh. unfold put_hist. rewrite Hh.
  assert (Hs' : forall h', acc_slots (MkAcc (conn_curr ra) (<[i := h']> (history ra)) (resp_code_stat ra))).
  { intros h'. unfold acc_slots. simpl. by rewrite length_insert. }
  destruct (over _ _); [apply Hs' |]. unfold sm_get. destruct (over _ _); apply Hs'.
Qed.

Lemma st_0_ok ra r :
  hdr_final_checks f r <> Bug -> acc_slots ra ->
  exists v st r' ra', st_0 HZ fg f skb jiffies ra r = Ok (v, st, r', ra') /\ own_eq r r' /\ acc_slots ra'
    /\ st_inv st r' /\ (st = Frang_Req_Done -> checked r').
Proof using.
  intros Hnb Hs. unfold st_0.
  pose proof (req_limit_total (req_burst fg) (req_rate fg) ra Hs) as Hl. unfold wp in Hl.
  destruct (frang_req_limit _ _ _ _ _) as [[v ra']|]; [| done].
  assert (Ho : own_eq r (set_tm_header jiffies r)).
  { exists (frang_st r), jiffies, (tm_bchunk r), (chunk_cnt r). by destruct r. }
  destruct (negb _).
  { exists v, Frang_Req_0, (set_tm_header jiffies r), ra'. split; [done |]. split; [done |].
    split; [done |]. split; [| done]. refine (conj _ (conj _ (conj _ (conj _ _)))); intros Hle; done. }
  destruct (st_method_ok (set_tm_header jiffies r)) as (v' & st & r' & -> & Ho' & Hi & Hd).
  { by rewrite (hdr_final_own _ _ Ho). }
  exists v', st, r', ra'. split; [done |]. split; [exact (own_eq_trans _ _ _ Ho Ho') |]. done.
Qed.

Lemma fsm_start_ok ra r :
  hdr_final_checks f r <> Bug -> acc_slots ra -> st_inv (frang_st r) r ->
  (Frang_Req_Hdr_NoState <= frang_st r -> checked r) ->
  exists v st r' ra', fsm_start HZ fg f skb jiffies ra r = Ok (v, st, r', ra') /\ own_eq r r' /\ acc_slots ra'
    /\ st_inv st r' /\ (st = Frang_Req_Done -> checked r').
Proof using.
  intros Hnb Hs Hi Hc. unfold fsm_start.
  destruct (Z.eqb_spec (frang_st r) Frang_Req_0); [by apply st_0_ok |].
  assert (Hlift : forall res, res_ok r res ->
    exists v st r' ra', match res with Ok (v, st, r) => Ok (v, st, r, ra) | Bug => Bug end = Ok (v, st, r', ra')
      /\ own_eq r r' /\ acc_slots ra' /\ st_inv st r' /\ (st = Frang_Req_Done -> checked r')).
  { intros res (v & st & r' & -> & Ho & Hi' & Hd). exists v, st, r', ra. done. }
  apply Hlift. clear Hlift.
  destruct (Z.eqb_spec (frang_st r) Frang_Req_Hdr_Method) as [He | _]; [by apply st_method_ok |].
  destruct (Z.eqb_spec (frang_st r) Frang_Req_Hdr_UriLen) as [He | _].
  { rewrite He in *. by apply st_uri_len_ok. }
  destruct (Z.eqb_spec (frang_st r) Frang_Req_Hdr_Check) as [He | _].
  { rewrite He in *. by apply st_hdr_check_ok. }
  destruct (Z.eqb_spec (frang_st r) Frang_Req_Body_Start) as [He | _].
  { rewrite He in *. apply st_body_start_ok. destruct Hi as (H1 & H2 & H3 & _).
    refine (conj _ (conj _ (conj _ (conj _ _)))); intros Hle; [by apply H1 | by apply H2 | by apply H3 | done | done]. }
  destruct (Z.eqb_spec (frang_st r) Frang_Req_Body) as [He | _].
  { rewrite He in *. apply st_body_ok; [done | by apply Hc]. }
  destruct (Z.eqb_spec (frang_st r) Frang_Req_Trailer) as [He | _].
  { rewrite He in *. apply st_trailer_ok; [done | by apply Hc]. }
  destruct (Z.eqb_spec (frang_st r) Frang_Req_Done) as [He | _].
  { rewrite He in *. apply st_done_ok; [done | by apply Hc]. }
  apply res_ok_stop; [| done]. refine (conj _ (conj _ (conj _ (conj _ _)))); intros Hle; done.
Qed.

Lemma checks_ok ra r :
  hdr_final_checks f r <> Bug -> acc_slots ra -> req_inv r ->
  wp (req_checks HZ fg f skb jiffies)
     (fun _ s => acc_slots s.1 /\ own_eq r s.2 /\ req_inv s.2) (ra, r).
Proof using.
  intros Hnb Hs [Hi Hd]. unfold wp, req_checks.
  set (pre := if frang_st r <? Frang_Req_Hdr_NoState then _ else _).
  assert (Hpre : exists v r1, pre = (v, r1) /\ own_eq r r1 /\ frang_st r1 = frang_st r
    /\ (v = TFW_PASS -> Frang_Req_Hdr_NoState <= frang_st r -> checked r1)).
  { unfold pre. destruct (Z.ltb_spec (frang_st r) Frang_Req_Hdr_NoState).
    - eexists _, r. split; [reflexivity |]. split; [apply own_eq_refl |]. split; [done | lia].
    - destruct (body_check_ok r) as (v & r1 & He & Ho & Hv). exists v, r1. rewrite He.
      split; [done |]. split; [done |]. split.
      + unfold frang_http_req_incomplete_body_check in He.
        repeat case_match; simplify_eq/=; done.
      + intros Hp _. by apply (checked_own _ _ Ho), Hv. }
  destruct Hpre as (v & r1 & -> & Ho & Hst & Hck).
  pose proof (st_inv_own _ _ _ Ho Hi) as Hi1.
  destruct (Z.eqb_spec v TFW_PASS) as [Hp | Hn]; simpl negb; cbv iota.
  - destruct (fsm_start_ok ra r1) as (v' & st & r' & ra' & -> & Ho' & Hs' & Hi' & Hd').
    + by rewrite (hdr_final_own _ _ Ho).
    + done.
    + by rewrite Hst.
    + rewrite Hst. by apply Hck.
    + assert (Ho2 : own_eq r' (set_st st r')).
      { exists st, (tm_header r'), (tm_bchunk r'), (chunk_cnt r'). by destruct r'. }
      simpl. split; [done |]. split; [exact (own_eq_trans _ _ _ Ho (own_eq_trans _ _ _ Ho' Ho2)) |]. split.
      * by apply (st_inv_own _ r').
      * intros He. by apply (checked_own r'), Hd'.
  - split; [done |]. split; [done |]. split; [by rewrite <- Hst in Hi1 |].
    simpl. rewrite Hst. intros He. by apply (checked_own r), Hd.
Qed.

(** ** A request in one part *)

(** A complete request in one buffer, with non-negative limits. *)
Definition whole (r : TfwHttpReq) : Prop :=
  frang_st r = Frang_Req_0 /\ method r <> _TFW_HTTP_METH_NONE /\ uri_complete r = true
  /\ b_headers_parsed r = true /\ body_complete r = true /\ parse_done r = true
  /\ b_dupentry r = false /\ skb = skb_head r /\ skb = body_skb r
  /\ parser_hdr_len r <= http_field_len f
  /\ (http_hchunk_cnt fg = 0 \/ chunk_cnt r <= http_hchunk_cnt fg) /\ 0 <= http_hchunk_cnt fg
  /\ 0 <= http_bchunk_cnt fg.

Lemma over_intro lim v : lim = 0 \/ v <= lim -> over lim v = false.
Proof using. unfold over. intros [-> | Hle]; [done |]. apply andb_false_iff. right. apply Z.ltb_ge. lia. Qed.

Lemma field_len_fits r :
  fields_ok r -> parser_hdr_len r <= http_field_len f ->
  frang_http_field_len r (http_field_len f) (http_hdr_cnt f) = TFW_PASS.
Proof using.
  intros [Hc Hf] Hl. unfold frang_http_field_len, __frang_http_field_len.
  replace (http_field_len f <? parser_hdr_len r) with false by (symmetry; apply Z.ltb_ge; lia).
  rewrite andb_false_r.
  assert (negb (http_hdr_cnt f =? 0) && (http_hdr_cnt f <=? zlen (h_tbl r)) = false) as ->.
  { destruct Hc as [-> | Hc]; [done |]. apply andb_false_iff. right. apply Z.leb_gt. lia. }
  destruct Hf as [-> | Hf]; [done |]. rewrite existsb_fields by done. by destruct (_ =? 0).
Qed.

Lemma body_check_fits r :
  body_ok r -> skb = body_skb r -> over (http_bchunk_cnt fg) (chunk_cnt r) = false ->
  frang_http_req_incomplete_body_check fg f skb jiffies r = (TFW_PASS, r).
Proof using.
  intros Hb Hs Hc. unfold frang_http_req_incomplete_body_check. destruct (body_empty r); [done |].
  rewrite Hs, Z.eqb_refl, andb_false_r. cbv zeta. simpl andb. cbv iota. rewrite Hc.
  by rewrite (over_intro (http_body_len f)).
Qed.

Lemma trailer_fits r :
  all_checked r -> whole r -> chunk_cnt r = 0 -> st_trailer fg f skb jiffies r = Ok (TFW_PASS, Frang_Req_Done, r).
Proof using.
  intros (_ & _ & Hf & _ & _ & _ & Hb & Ht) (_ & _ & _ & _ & _ & Hd & Hdup & _ & Hs & Hl & _ & _ & Hbc) Hc.
  unfold st_trailer, frang_http_req_trailer_check.
  destruct (b_chunked_trailer r) eqn:Htr; [| done]. cbn [negb].
  rewrite body_check_fits; [| done | done | apply over_intro; lia].
  rewrite Hdup. simpl Z.eqb. cbv iota. rewrite field_len_fits by done. rewrite Hd. simpl negb. cbv iota.
  destruct (Ht Htr) as (_ & _ & Hsp). destruct (http_trailer_split f); [| done]. cbv iota.
  rewrite existsb_none by (by apply Hsp). done.
Qed.

Lemma hdr_final_fits r :
  override_ok r -> host_ok r -> ct_ok r -> hdr_final_checks f r = Ok TFW_PASS.
Proof using.
  intros Ho Hh Hc. unfold hdr_final_checks.
  assert ((if http_host_required f then frang_http_host_check r else Ok TFW_PASS) = Ok TFW_PASS) as ->.
  { unfold host_ok in Hh. destruct (http_host_required f); auto. }
  assert (frang_http_methods_override r f = TFW_PASS) as ->.
  { unfold frang_http_methods_override. destruct Ho as [-> | [-> Ho]]; [done |].
    destruct (_ =? 0); [done |]. destruct Ho as [-> | ->]; [done |]. simpl. by rewrite andb_false_r. }
  simpl. destruct (_ || _) eqn:Hor; [| done]. apply Hc.
  apply orb_true_iff in Hor as [Hor | Hor]; [by left | right]. by apply bool_decide_eq_true in Hor.
Qed.

Lemma method_fits r : all_checked r -> whole r ->
  st_method fg f skb jiffies r = Ok (TFW_PASS, Frang_Req_Done, set_bchunk jiffies 0 r).
Proof using.
  intros Ha Hw. pose proof Ha as (Hm & Hu & Hf & Ho & Hh & Hc & Hb & Ht).
  pose proof Hw as (Hst & Hme & Huc & Hp & Hbc & Hd & Hdup & Hs1 & Hs & Hl & Hch & Hhc & Hbch).
  unfold st_method, st_uri_len, st_hdr_check.
  rewrite Hdup, field_len_fits, Hp, hdr_final_fits, Huc by done. simpl negb. cbv iota.
  assert (Hbody : st_body_start fg f skb jiffies r = Ok (TFW_PASS, Frang_Req_Done, set_bchunk jiffies 0 r)).
  { unfold st_body_start. rewrite body_check_fits; [| exact Hb | exact Hs | apply over_intro; simpl; lia].
    simpl. unfold st_body.
    assert (body_complete (set_bchunk jiffies 0 r) = true) as -> by (by destruct r).
    simpl. apply trailer_fits; [exact Ha | | done].
    refine (conj Hst (conj Hme (conj Huc (conj Hp (conj Hbc (conj Hd (conj Hdup (conj Hs1 (conj Hs (conj Hl _)))))))))).
    simpl. lia. }
  rewrite Hbody.
  assert (Huri : http_uri_len f = 0 \/ frang_http_uri_len r (http_uri_len f) = TFW_PASS).
  { destruct Hu as [Hu | [_ Hu]]; [by left | right]. unfold frang_http_uri_len.
    by replace (_ <? _) with false by (symmetry; apply Z.ltb_ge; lia). }
  assert (Hme' : http_methods_mask f = 0 \/ frang_http_methods r (http_methods_mask f) = TFW_PASS).
  { destruct Hm as [Hm | [_ Hm]]; [by left | right]. unfold frang_http_methods. by rewrite Hm. }
  rewrite (proj2 (Z.eqb_neq _ _) Hme).
  destruct Hme' as [-> | ->]; destruct Huri as [-> | ->]; simpl;
    repeat (match goal with |- context [if ?b then _ else _] => destruct b end; simpl); done.
Qed.

Lemma checks_fit ra ra' r :
  all_checked r -> whole r ->
  frang_req_limit HZ (req_burst fg) (req_rate fg) jiffies ra = Ok (TFW_PASS, ra') ->
  exists r', req_checks HZ fg f skb jiffies (ra, r) = Ok (TFW_PASS, (ra', r'))
    /\ own_eq r r' /\ frang_st r' = Frang_Req_Done.
Proof using.
  intros Ha Hw Hl. pose proof Hw as (Hst & _ & _ & _ & _ & _ & _ & Hs & _ & _ & Hch & _).
  unfold req_checks. rewrite Hst. simpl Z.ltb. cbv iota.
  unfold frang_http_req_incomplete_hdrs_check. rewrite Hs, Z.eqb_refl, andb_false_r. simpl andb. cbv iota.
  rewrite over_intro by done. simpl. unfold fsm_start. rewrite Hst. simpl. unfold st_0. rewrite Hl. simpl.
  rewrite <- Hs. rewrite method_fits by (by destruct r).
  eexists. split; [reflexivity |]. split; [| done].
  exists Frang_Req_Done, jiffies, jiffies, 0. by destruct r.
Qed.
End call.
End spec.
End checks.

(** ** Requests in parts *)

Section parts.
Context `{StrSimd} (HZ : Z) (fg : FrangGlobCfg) (f : FrangVhostCfg).

(** The settings [fg] and [f] apply in a call. *)
Definition applies (b : ReqBind) (dvh : VhostRef) : Prop :=
  frang_select_cfg (rb_vhost b) (rb_location b) dvh = (Some fg, Some f).

(** The verdict and the request after some calls, each with more of the request parsed; the
    account of the client may change in between. *)
Inductive reaches : Z -> TfwHttpReq -> Prop :=
| reaches_first ra r skb jiffies b dvh v ra' r' :
    frang_st r = Frang_Req_0 -> acc_slots ra -> hdr_final_checks f r <> Bug -> applies b dvh ->
    frang_http_req_process HZ skb jiffies b dvh (ra, r) = Ok (v, (ra', r')) ->
    reaches v r'
| reaches_next v0 r0 ra r skb jiffies b dvh v ra' r' :
    reaches v0 r0 -> v0 <> TFW_BLOCK ->
    parsed_more r0 r -> no_late_trailer r0 r -> acc_slots ra -> hdr_final_checks f r <> Bug ->
    applies b dvh ->
    frang_http_req_process HZ skb jiffies b dvh (ra, r) = Ok (v, (ra', r')) ->
    reaches v r'.

Lemma req_inv_more r r' :
  parsed_more r r' -> no_late_trailer r r' -> req_inv f r -> req_inv f r'.
Proof using.
  intros Hm Hl [Hi Hc]. split; rewrite (pm_st _ _ Hm); [by eapply st_inv_more |].
  intros Hd. specialize (Hc Hd). destruct Hi as (_ & _ & _ & Hb & _). rewrite Hd in Hb.
  destruct (pm_body _ _ Hm (Hb ltac:(done))) as [_ He]. unfold checked, body_ok in *. by rewrite He.
Qed.

Lemma process_ok skb jiffies b dvh ra r :
  applies b dvh -> hdr_final_checks f r <> Bug -> acc_slots ra -> req_inv f r ->
  wp (frang_http_req_process HZ skb jiffies b dvh)
     (fun _ s => acc_slots s.1 /\ req_inv f s.2) (ra, r).
Proof using.
  intros Ha Hnb Hs Hi. unfold frang_http_req_process.
  destruct (negb _); [by apply wp_ret |]. destruct (negb _); [by apply wp_ret |]. rewrite Ha.
  eapply wp_mono; [by apply checks_ok |]. simpl. tauto.
Qed.

Lemma process_inv skb jiffies b dvh ra r v ra' r' :
  applies b dvh -> hdr_final_checks f r <> Bug -> acc_slots ra -> req_inv f r ->
  frang_http_req_process HZ skb jiffies b dvh (ra, r) = Ok (v, (ra', r')) -> req_inv f r'.
Proof using.
  intros Ha Hnb Hs Hi He. pose proof (process_ok skb jiffies b dvh ra r Ha Hnb Hs Hi) as Hp.
  unfold wp in Hp. rewrite He in Hp. apply Hp.
Qed.

Lemma reaches_inv v r : reaches v r -> req_inv f r.
Proof using.
  induction 1 as [ra r skb j b dvh v ra' r' Hst0 Hs Hnb Ha He
                 | v0 r0 ra r skb j b dvh v ra' r' _ IH _ Hm Hl Hs Hnb Ha He].
  - eapply process_inv; [exact Ha | exact Hnb | exact Hs | | exact He]. unfold req_inv. rewrite Hst0.
    split; [| done]. refine (conj _ (conj _ (conj _ (conj _ _)))); intros Hle; done.
  - eapply process_inv; [exact Ha | exact Hnb | exact Hs | | exact He]. by eapply req_inv_more.
Qed.
End parts.


(** ** Examples *)

#[local] Instance ex_simd : StrSimd := {
  memcmp_fast := cs_ref;
  tfw_cstricmp a b := cs_ref (map TFW_LC a) (map TFW_LC b)
}.

Definition ex_glob : FrangGlobCfg := MkGlob 0 0 10 0 0 0 0 0 0 0 3 3 true.

(** Only POST of the type "a" with a body of at most 5 bytes; at most 6 headers of 20 bytes. *)
Definition ex_cfg : FrangVhostCfg :=
  MkVhost (Z.shiftl 1 TFW_HTTP_METH_POST) 5 10 20 6 (Some [[97]]) true true false false.

Definition ex_value (b : bytes) : TfwStr :=
  MkStr [] [MkStr b [] 0 (zlen b) 0 TFW_STR_VALUE 0 0] 0 (zlen b) 1 0 0 0.

(** A POST request for the host "h" to port 80. *)
Definition ex_req (st chunk body_len : Z) (trailer complete : bool) (tbl : list (list HdrField)) : TfwHttpReq :=
  MkReq st 0 0 chunk 1 TFW_HTTP_VER_11 TFW_HTTP_METH_POST 0 4 true 0 tbl false true trailer complete
    (ex_value [97]) str_init (ex_value [104]) str_init 0 false 0 80 body_len 1 complete 1.

Definition ex_dvh (f : FrangVhostCfg) : VhostRef := MkVhostRef (Some ex_glob) None (Some f).

(** The request has no virtual host yet. *)
Definition ex_bind : ReqBind := MkBind true true false None None.

Definition ex_tbl : list (list HdrField) := [[]; [MkField 4 false]; [MkField 9 false]; []; []].


(** With [http_ct_required] and without [http_ct_vals] a POST request with a content type reads the
    list of values that is not there. *)
Theorem ct_vals_null :
  frang_http_ct_check (ex_req 0 1 5 false true ex_tbl) None = Bug.
Proof. reflexivity. Qed.

(** [http_trailer_split_allowed] works the other way round: a header that is also a trailer passes
    when splitting is not allowed and is blocked when it is. *)
Theorem trailer_split_inverted :
  let r := ex_req Frang_Req_Trailer 1 5 true true (ex_tbl ++ [[MkField 3 false; MkField 3 true]]) in
  let cfg split := MkVhost 0 0 0 0 0 None false false split false in
  (frang_http_req_trailer_check ex_glob (cfg false) 1 0 r).1 = TFW_PASS
  /\ (frang_http_req_trailer_check ex_glob (cfg true) 1 0 r).1 = TFW_BLOCK.
Proof. vm_compute. done. Qed.

(** Trailers that arrive after the part with the last chunk of the body are not checked: the machine
    is done before, and a field longer than the limit passes. *)
Theorem late_trailer_unchecked :
  let big := ex_tbl ++ [[MkField 500 true]] in
  let cfg := MkVhost 0 0 0 20 0 None false false true false in
  wp (frang_http_req_process 1000 1 1000 ex_bind (ex_dvh cfg))
     (fun v s => v = TFW_PASS /\ frang_st s.2 = Frang_Req_Done)
     (frang_acc_init, ex_req 0 1 5 false true ex_tbl)
  /\ wp (frang_http_req_process 1000 2 1001 ex_bind (ex_dvh cfg))
        (fun v s => v = TFW_PASS /\ frang_st s.2 = Frang_Req_Done)
        (frang_acc_init, ex_req Frang_Req_Done 1 5 true true big)
  /\ frang_http_field_len (ex_req Frang_Req_Done 1 5 true true big) 20 0 = TFW_BLOCK.
Proof. vm_compute. done. Qed.

(** The limits of a virtual host or location do not apply to the states that have been passed when the
    request is assigned to it, which is when the request is complete: a location that allows no POST
    gets a POST request that comes in two parts. *)
Theorem location_limits_bypassed :
  let open_cfg := MkVhost 0 0 0 0 0 None false false false false in
  let closed_cfg := MkVhost (Z.shiftl 1 3) 0 0 0 0 None false false false false in
  let bound := MkBind true true false (Some (MkVhostRef (Some ex_glob) (Some (Some ex_glob)) (Some open_cfg)))
                 (Some (Some closed_cfg)) in
  wp (frang_http_req_process 1000 1 1000 bound (ex_dvh open_cfg)) (fun v _ => v = TFW_BLOCK)
     (frang_acc_init, ex_req 0 1 5 false true ex_tbl)
  /\ wp (frang_http_req_process 1000 1 1000 ex_bind (ex_dvh open_cfg))
        (fun v s => v = TFW_PASS /\ frang_st s.2 = Frang_Req_Body)
        (frang_acc_init, ex_req 0 1 2 false false ex_tbl)
  /\ wp (frang_http_req_process 1000 2 1001 bound (ex_dvh open_cfg))
        (fun v s => v = TFW_PASS /\ frang_st s.2 = Frang_Req_Done)
        (frang_acc_init, ex_req Frang_Req_Body 1 5 false true ex_tbl).
Proof. vm_compute. done. Qed.
