(* ===== verification/SchedHash.v ===== *)
(** * The hash scheduler

    [fw/http_sched_hash.c]: every connection of a server group has a pseudo-random
    64-bit hash; the connections are kept in an array sorted by it.  A request is hashed
    by its URI and host, the array is searched for a connection near the complement of
    that hash, and when it can not take the request its neighbours are tried from near to
    far.  [TfwHashConnList] is the array with its capacity: what the code writes behind
    the allocated memory is a [Bug].

    The theorems: building the array for a group terminates and gives a sorted array of all
    connections ([sched_hash_build]); a request goes to the first connection that can
    take it, in an order that depends on the hash of the request only
    ([sched_hash_choice]), so that it stays with its connection whatever happens to others. *)

From stdpp Require Import sorting.
From S2P Require Import Prelude Str Hash.

#[local] Open Scope Z_scope.

(** ** Data *)

Definition EEXIST : Z := 17.
Definition ULONG_MAX : Z := 2 ^ 64 - 1.

(** The constant of the kernel's [hash_64()]. *)
Definition GOLDEN_RATIO_64 : Z := 0x61C8864680B583EB.

(** Connections and servers are indices in the tables of the [World]. *)
Record TfwSrvConn := MkConn {
  peer : nat;
  conn_resend : bool;
  jbusytstamp : Z;
  qsize : Z;
  refcnt : Z
}.

Record TfwHashConn := MkHConn { hash : Z; conn : nat }.

(** [conns] has the capacity of the allocated array; [conn_n] elements are in use. *)
Record TfwHashConnList := MkCl { conn_n : Z; conns : list TfwHashConn }.

(** [sched_data] of a server: part of the block of its group, which [blk] identifies,
    or a block of its own. *)
Inductive SrvSchedData := InGroup (blk : nat) (cl : TfwHashConnList) | OwnBlock (cl : TfwHashConnList).

Record TfwServer := MkSrv {
  sockaddr : bytes;
  srv_suspend : bool;
  conn_list : list nat;
  srv_conn_n : Z;
  srv_sched_data : option SrvSchedData
}.

Record TfwSrvGroup := MkSg {
  srv_list : list nat;
  srv_n : Z;
  max_qsize : Z;
  sg_sched_data : option (nat * TfwHashConnList)
}.

(** [w_live] are the group blocks that are not freed. *)
Record World := MkWorld {
  w_conns : list TfwSrvConn;
  w_srvs : list TfwServer;
  w_sg : TfwSrvGroup;
  w_live : list nat
}.

Definition set_w_conns v w := MkWorld v (w_srvs w) (w_sg w) (w_live w).
Definition set_w_srvs v w := MkWorld (w_conns w) v (w_sg w) (w_live w).
Definition set_w_sg v w := MkWorld (w_conns w) (w_srvs w) v (w_live w).
Definition set_w_live v w := MkWorld (w_conns w) (w_srvs w) (w_sg w) v.

Definition set_refcnt v c := MkConn (peer c) (conn_resend c) (jbusytstamp c) (qsize c) v.
Definition set_srv_data v s :=
  MkSrv (sockaddr s) (srv_suspend s) (conn_list s) (srv_conn_n s) v.
Definition set_sg_data v g := MkSg (srv_list g) (srv_n g) (max_qsize g) v.

(** The part of [TfwHttpReq] that is hashed; [req_host] is the value of its [Host] header. *)
Record HashReq := MkHReq {
  req_hash : Z;
  uri_path : TfwStr;
  req_host : TfwStr;
  hmonitor : bool
}.

(** [tfw_http_req_key_calc()]: the key, which is stored in the request. *)
Definition tfw_http_req_key_calc (r : HashReq) : outcome (Z * HashReq) :=
  let set h := MkHReq h (uri_path r) (req_host r) (hmonitor r) in
  if negb (req_hash r =? 0) then Ok (req_hash r, r)
  else match tfw_hash_str (uri_path r) with
       | Bug => Bug
       | Ok h =>
           if hmonitor r then Ok (h, set h)
           else if len (req_host r) =? 0 then Ok (h, set h)
           else match tfw_hash_str (req_host r) with
                | Bug => Bug
                | Ok h2 => Ok (Z.lxor h h2, set (Z.lxor h h2))
                end
       end.

(** ** The hashes *)

Definition __hash_64 (val : Z) : Z := u64 (val * GOLDEN_RATIO_64).

Definition __calc_srv_hash (srv : TfwServer) : outcome Z :=
  match hash_calc (sockaddr srv) 28 with
  | Ok h => Ok (__hash_64 h)
  | Bug => Bug
  end.

(** ** The sorted array *)

Definition conns_at (cl : TfwHashConnList) (i : Z) : option TfwHashConn :=
  if i <? 0 then None else conns cl !! Z.to_nat i.

Fixpoint bsearch_loop (fuel : nat) (h : Z) (cl : TfwHashConnList) (start end' : Z) : outcome Z :=
  if start <? end' then
    match fuel with
    | O => Bug
    | S fuel =>
        let mid := start + (end' - start) / 2 in
        match conns_at cl mid with
        | None => Bug
        | Some c =>
            if h <? hash c then bsearch_loop fuel h cl start mid
            else if hash c <? h then bsearch_loop fuel h cl (mid + 1) end'
            else Ok mid
        end
    end
  else Ok start.

Definition __bsearch (h : Z) (cl : TfwHashConnList) : outcome Z :=
  bsearch_loop (Z.to_nat (conn_n cl)) h cl 0 (conn_n cl - 1).

(** [memmove(&conns[idx + 1], &conns[idx], k elements)] and [conns[idx] = c] *)
Definition array_insert (a : list TfwHashConn) (idx k : Z) (c : TfwHashConn) : outcome (list TfwHashConn) :=
  if (0 <=? idx) && (0 <=? k) && (idx + 1 + k <=? zlen a) then
    let i := Z.to_nat idx in
    let n := Z.to_nat k in
    Ok (take i a ++ c :: take n (drop i a) ++ drop (i + 1 + n) a)
  else Bug.

Definition __add_conn (cl : TfwHashConnList) (c : nat) (h : Z) : outcome (Z * TfwHashConnList) :=
  let new := MkHConn h c in
  let add idx k :=
    match array_insert (conns cl) idx k new with
    | Ok a => Ok (0, MkCl (conn_n cl + 1) a)
    | Bug => Bug
    end in
  if conn_n cl =? 0 then add 0 0
  else match __bsearch h cl with
       | Bug => Bug
       | Ok idx =>
           match conns_at cl idx with
           | None => Bug
           | Some x =>
               if hash x =? h then Ok (- EEXIST, cl)
               else
                 let idx := if (hash x <? h) && negb (idx =? conn_n cl) then idx + 1 else idx in
                 add idx (if idx =? conn_n cl then 0 else conn_n cl - idx)
           end
       end.

(** The loop that draws hashes for a connection until one is free: at most [rounds] of it. *)
Fixpoint draw_hash (rounds : nat) (srv_hash : Z) (c : nat) (cl : TfwHashConnList) (seed seed_inc : Z)
    : outcome (TfwHashConnList * Z) :=
  match rounds with
  | O => Bug
  | S rounds =>
      let h := __hash_64 (Z.lxor srv_hash seed) in
      let seed := u64 (seed + seed_inc) in
      match __add_conn cl c h with
      | Bug => Bug
      | Ok (r, cl) => if negb (r =? 0) then draw_hash rounds srv_hash c cl seed seed_inc else Ok (cl, seed)
      end
  end.

(** A loop that draws more often than there are connections would never end. *)
Fixpoint add_conns_loop (rounds : nat) (srv_hash : Z) (cs : list nat) (cl : TfwHashConnList) (seed seed_inc : Z)
    : outcome (TfwHashConnList * Z) :=
  match cs with
  | [] => Ok (cl, seed)
  | c :: cs =>
      match draw_hash rounds srv_hash c cl seed seed_inc with
      | Bug => Bug
      | Ok (cl, seed) => add_conns_loop rounds srv_hash cs cl seed seed_inc
      end
  end.

Definition tfw_sched_hash_add_conns (rounds : nat) (srv : TfwServer) (cl : TfwHashConnList) (seed seed_inc : Z)
    : outcome (TfwHashConnList * Z) :=
  match __calc_srv_hash srv with
  | Bug => Bug
  | Ok h => add_conns_loop rounds h (conn_list srv) cl seed seed_inc
  end.

(** [kzalloc()] of a list with room for [n] connections. *)
Definition cl_alloc (n : Z) : TfwHashConnList := MkCl 0 (replicate (Z.to_nat n) (MkHConn 0 0)).

(** The inner loop of [__fill_srv_lists()]. *)
Fixpoint fill_list (peers : nat -> option nat) (srv : nat) (hcs : list TfwHashConn) (scl : TfwHashConnList)
    : outcome TfwHashConnList :=
  match hcs with
  | [] => Ok scl
  | hc :: hcs =>
      match peers (conn hc) with
      | None => Bug
      | Some p =>
          if (p =? srv)%nat then
            match array_insert (conns scl) (conn_n scl) 0 hc with
            | Ok a => fill_list peers srv hcs (MkCl (conn_n scl + 1) a)
            | Bug => Bug
            end
          else fill_list peers srv hcs scl
      end
  end.

Definition cl_used (cl : TfwHashConnList) : list TfwHashConn := take (Z.to_nat (conn_n cl)) (conns cl).

(** [__fill_srv_lists()] with its list of servers and the lists in the block. *)
Fixpoint __fill_srv_lists (cl : TfwHashConnList) (blk : nat) (srv_cls : list (nat * TfwHashConnList))
    (w : World) : outcome World :=
  match srv_cls with
  | [] => Ok w
  | (srv, scl) :: srv_cls =>
      match fill_list (fun c => peer <$> w_conns w !! c) srv (cl_used cl) scl, w_srvs w !! srv with
      | Ok scl, Some s =>
          __fill_srv_lists cl blk srv_cls
            (set_w_srvs (<[srv := set_srv_data (Some (InGroup blk scl)) s]> (w_srvs w)) w)
      | _, _ => Bug
      end
  end.

(** The loop of [tfw_sched_hash_add_grp()] over the servers. *)
Fixpoint add_servers (rounds : nat) (srvs : list TfwServer) (cl : TfwHashConnList) (seed seed_inc : Z)
    : outcome TfwHashConnList :=
  match srvs with
  | [] => Ok cl
  | srv :: srvs =>
      match tfw_sched_hash_add_conns rounds srv cl seed seed_inc with
      | Bug => Bug
      | Ok (cl, seed) => add_servers rounds srvs cl seed seed_inc
      end
  end.

(** The servers of the group. *)
Definition sg_srvs (w : World) : option (list TfwServer) := mapM (fun i => w_srvs w !! i) (srv_list (w_sg w)).

(** A block that is not in use. *)
Definition fresh_blk (w : World) : nat := S (foldr Nat.max 0%nat (w_live w)).

(** [tfw_sched_hash_add_grp()]: the table of lists has [srv_n] entries, all of which are visited,
    so another number of servers is a [Bug]; [seed] and [seed_inc] are the random numbers, [mem_cl] and
    [mem_srv] say whether the allocations succeed. *)
Definition tfw_sched_hash_add_grp (rounds : nat) (seed seed_inc : Z) (mem_cl mem_srv : bool) (w : World)
    : outcome (Z * World) :=
  let sg := w_sg w in
  if (srv_n sg =? 0) || (length (srv_list sg) =? 0)%nat then Ok (- EINVAL, w)
  else match sg_srvs w with
       | None => Bug
       | Some srvs =>
           let n := foldr (fun s z => srv_conn_n s + z) 0 srvs in
           if negb mem_cl then Ok (- ENOMEM, w)
           else if negb mem_srv then Ok (- ENOMEM, w)
           else if negb (srv_n sg =? zlen srvs) then Bug
           else match add_servers rounds srvs (cl_alloc n) seed seed_inc with
                | Bug => Bug
                | Ok cl =>
                    let blk := fresh_blk w in
                    let srv_cls := zip (srv_list sg) (map (fun s => cl_alloc (srv_conn_n s)) srvs) in
                    match __fill_srv_lists cl blk srv_cls w with
                    | Bug => Bug
                    | Ok w => Ok (0, set_w_live (blk :: w_live w) (set_w_sg (set_sg_data (Some (blk, cl)) (w_sg w)) w))
                    end
                end
       end.

(** [tfw_sched_hash_del_grp()]: the servers lose their pointers, then the block is freed. *)
Definition tfw_sched_hash_del_grp (w : World) : World :=
  let sg := w_sg w in
  let clear l i := match l !! i with Some s => <[i := set_srv_data None s]> l | None => l end in
  let w' := set_w_srvs (foldl clear (w_srvs w) (srv_list sg)) (set_w_sg (set_sg_data None sg) w) in
  match sg_sched_data sg with
  | None => w'
  | Some (blk, _) => set_w_live (filter (fun b => b <> blk) (w_live w')) w'
  end.

Definition tfw_sched_hash_add_srv (rounds : nat) (seed seed_inc : Z) (mem : bool) (srv : nat) (w : World)
    : outcome (Z * World) :=
  match w_srvs w !! srv with
  | None => Bug
  | Some s =>
      match srv_sched_data s with
      | Some _ => Ok (- EEXIST, w)
      | None =>
          if negb mem then Ok (- ENOMEM, w)
          else match tfw_sched_hash_add_conns rounds s (cl_alloc (srv_conn_n s)) seed seed_inc with
               | Bug => Bug
               | Ok (cl, _) =>
                   Ok (0, set_w_srvs (<[srv := set_srv_data (Some (OwnBlock cl)) s]> (w_srvs w)) w)
               end
      end
  end.

(** [tfw_sched_hash_del_srv()] frees the list: a [Bug] when it lies inside the block of a group. *)
Definition tfw_sched_hash_del_srv (srv : nat) (w : World) : outcome World :=
  match w_srvs w !! srv with
  | None => Bug
  | Some s =>
      match srv_sched_data s with
      | Some (InGroup _ _) => Bug
      | _ => Ok (set_w_srvs (<[srv := set_srv_data None s]> (w_srvs w)) w)
      end
  end.

(** ** Scheduling *)

(** [__is_conn_suitable()]: the last condition takes a reference.  [time_is_after_jiffies()] is a
    comparison of the difference. *)
Definition __is_conn_suitable (jiffies : Z) (c : nat) (hmonitor : bool) : SM World bool :=
  fun w =>
  match w_conns w !! c with
  | None => Bug
  | Some x =>
      match w_srvs w !! peer x with
      | None => Bug
      | Some srv =>
          if (hmonitor || negb (srv_suspend srv))
             && negb (conn_resend x)
             && negb (s64 (jiffies - jbusytstamp x) <? 0)
             && negb (max_qsize (w_sg w) <=? qsize x)
             && (0 <? refcnt x)
          then Ok (true, set_w_conns (<[c := set_refcnt (refcnt x + 1) x]> (w_conns w)) w)
          else Ok (false, w)
      end
  end.

(** The distances on both sides and the side that is nearer. *)
Definition l_diff (cl : TfwHashConnList) (best_hash l_idx : Z) : outcome Z :=
  if 0 <=? l_idx then
    match conns_at cl l_idx with Some c => Ok (u64 (best_hash - hash c)) | None => Bug end
  else Ok ULONG_MAX.

Definition r_diff (cl : TfwHashConnList) (best_hash r_idx : Z) : outcome Z :=
  if r_idx <? conn_n cl then
    match conns_at cl r_idx with Some c => Ok (u64 (hash c - best_hash)) | None => Bug end
  else Ok ULONG_MAX.

(** The loop over the neighbours. *)
Fixpoint find_near (fuel : nat) (jiffies : Z) (hmonitor : bool) (cl : TfwHashConnList) (best_hash l_idx r_idx : Z)
    : SM World (option nat) :=
  if negb ((0 <=? l_idx) || (r_idx <? conn_n cl)) then sm_ret None
  else match fuel with
  | O => sm_bug
  | S fuel =>
      match l_diff cl best_hash l_idx, r_diff cl best_hash r_idx with
      | Ok ld, Ok rd =>
          match conns_at cl (if ld <=? rd then l_idx else r_idx) with
          | None => sm_bug
          | Some x =>
              ok <~ __is_conn_suitable jiffies (conn x) hmonitor ;;
              if ok : bool then sm_ret (Some (conn x))
              else if ld <=? rd then find_near fuel jiffies hmonitor cl best_hash (l_idx - 1) r_idx
              else find_near fuel jiffies hmonitor cl best_hash l_idx (r_idx + 1)
          end
      | _, _ => sm_bug
      end
  end.

Definition __find_best_conn (jiffies : Z) (r : HashReq) (cl : TfwHashConnList) : SM World (option nat * HashReq) :=
  match tfw_http_req_key_calc r with
  | Bug => sm_bug
  | Ok (msg_hash, r) =>
      let best_hash := Z.lxor ULONG_MAX msg_hash in
      if conn_n cl =? 0 then sm_ret (None, r)
      else match __bsearch best_hash cl with
           | Bug => sm_bug
           | Ok idx =>
               match conns_at cl idx with
               | None => sm_bug
               | Some x =>
                   ok <~ __is_conn_suitable jiffies (conn x) (hmonitor r) ;;
                   if ok : bool then sm_ret (Some (conn x), r)
                   else
                     c <~ find_near (Z.to_nat (conn_n cl)) jiffies (hmonitor r) cl best_hash (idx - 1) (idx + 1) ;;
                     sm_ret (c, r)
               end
           end
  end.

Definition tfw_sched_hash_get_sg_conn (jiffies : Z) (r : HashReq) : SM World (option nat * HashReq) :=
  w <~ sm_get ;;
  match sg_sched_data (w_sg w) with
  | Some (_, cl) => __find_best_conn jiffies r cl
  | None => sm_ret (None, r)
  end.

(** Reading a list in a group block that is freed is a [Bug]. *)
Definition tfw_sched_hash_get_srv_conn (jiffies : Z) (r : HashReq) (srv : nat) : SM World (option nat * HashReq) :=
  w <~ sm_get ;;
  match w_srvs w !! srv with
  | None => sm_bug
  | Some s =>
      match srv_sched_data s with
      | None => sm_ret (None, r)
      | Some (OwnBlock cl) => __find_best_conn jiffies r cl
      | Some (InGroup blk cl) =>
          if bool_decide (blk ∈ w_live w) then __find_best_conn jiffies r cl else sm_bug
      end
  end.

(** ** Sorted lists of connections *)

Definition hashes (l : list TfwHashConn) : list Z := map hash l.

Record cl_ok (cl : TfwHashConnList) : Prop := {
  cl_n : 0 <= conn_n cl <= zlen (conns cl);
  cl_sorted : StronglySorted Z.lt (hashes (cl_used cl));
  cl_u64 : Forall (fun h => 0 <= h < 2 ^ 64) (hashes (cl_used cl))
}.

Lemma conns_at_used cl i : 0 <= conn_n cl <= zlen (conns cl) -> 0 <= i < conn_n cl ->
  exists c, conns_at cl i = Some c /\ cl_used cl !! Z.to_nat i = Some c.
Proof.
  intros Hn Hi. unfold conns_at, cl_used, zlen in *. rewrite (proj2 (Z.ltb_ge i 0)) by lia.
  rewrite lookup_take_lt by lia.
  destruct (lookup_lt_is_Some_2 (conns cl) (Z.to_nat i)) as [c Hc]; [lia |]. eauto.
Qed.

Lemma cl_used_len cl : 0 <= conn_n cl <= zlen (conns cl) -> length (cl_used cl) = Z.to_nat (conn_n cl).
Proof. intros. unfold cl_used, zlen in *. rewrite length_take. lia. Qed.

(** The order of the hashes by index. *)
Lemma sorted_lookup l i j a b :
  StronglySorted Z.lt (hashes l) -> l !! i = Some a -> l !! j = Some b -> (i < j)%nat -> hash a < hash b.
Proof.
  intros Hs Ha Hb Hij. rewrite <- (take_drop j l) in Hs. unfold hashes in Hs. rewrite map_app in Hs.
  eapply StronglySorted_app_1_elem_of; [exact Hs | |].
  - apply list_elem_of_fmap_2, (list_elem_of_lookup_2 _ i). by rewrite lookup_take_lt.
  - apply list_elem_of_fmap_2, (list_elem_of_lookup_2 _ 0). by rewrite lookup_drop, Nat.add_0_r.
Qed.

(** [p] is the place of [h]: smaller hashes are in front of it, and no smaller one is at it unless
    it is the last. *)
Definition place (cl : TfwHashConnList) (h p : Z) : Prop :=
  0 <= p < conn_n cl
  /\ (forall i c, cl_used cl !! i = Some c -> Z.of_nat i < p -> hash c < h)
  /\ (exists c, cl_used cl !! Z.to_nat p = Some c /\ (h <= hash c \/ p = conn_n cl - 1)).

Lemma bsearch_loop_place fuel h cl start end' :
  cl_ok cl -> 0 <= start <= end' -> end' < conn_n cl -> end' - start < Z.of_nat fuel ->
  (forall i c, cl_used cl !! i = Some c -> Z.of_nat i < start -> hash c < h) ->
  (end' = conn_n cl - 1 \/ exists c, cl_used cl !! Z.to_nat end' = Some c /\ h <= hash c) ->
  exists p, bsearch_loop fuel h cl start end' = Ok p /\ place cl h p.
Proof.
  intros Hok. revert start end'.
  induction fuel as [|fuel IH]; intros start end' Hs He Hf Hlo Hhi; [lia |]. cbn [bsearch_loop].
  destruct (Z.ltb_spec start end').
  - pose proof (Z.div_mod (end' - start) 2 ltac:(lia)). pose proof (Z.mod_pos_bound (end' - start) 2 ltac:(lia)).
    set (mid := start + (end' - start) / 2) in *. cbv zeta.
    destruct (conns_at_used cl mid) as (c & -> & Hc); [apply Hok | lia |].
    destruct (Z.ltb_spec h (hash c)); [| destruct (Z.ltb_spec (hash c) h)].
    + apply IH; [lia | lia | lia | done |]. right. exists c. split; [done | lia].
    + apply IH; [lia | lia | lia | | done]. intros i d Hd Hi.
      destruct (decide (i = Z.to_nat mid)) as [-> | Hne]; [rewrite Hc in Hd; by simplify_eq |].
      enough (hash d < hash c) by lia.
      eapply (sorted_lookup _ i (Z.to_nat mid)); [apply Hok | done | done | lia].
    + exists mid. split; [done |]. split; [lia |]. split.
      * intros i d Hd Hi. enough (hash d < hash c) by lia.
        eapply (sorted_lookup _ i (Z.to_nat mid)); [apply Hok | done | done | lia].
      * exists c. split; [done | lia].
  - replace end' with start in * by lia. exists start. split; [done |]. split; [lia |]. split; [done |].
    destruct (conns_at_used cl start) as (c & _ & Hc); [apply Hok | lia |].
    exists c. split; [done |]. destruct Hhi as [Hhi | (d & Hd & Hhi)]; [by right |].
    rewrite Hc in Hd. simplify_eq. by left.
Qed.

Lemma bsearch_place h cl : cl_ok cl -> 0 < conn_n cl -> exists p, __bsearch h cl = Ok p /\ place cl h p.
Proof.
  intros Hok Hn. apply bsearch_loop_place; [done | lia | lia | lia | intros; lia | by left].
Qed.

(** ** The order in which connections are tried *)

(** Indices from [l] down and from [r] up, the one with the smaller distance [d] first. *)
Fixpoint near_order (fuel : nat) (d : Z -> Z) (n l r : Z) : list Z :=
  match fuel with
  | O => []
  | S fuel =>
      if (0 <=? l) && ((n <=? r) || (d l <=? d r)) then l :: near_order fuel d n (l - 1) r
      else if r <? n then r :: near_order fuel d n l (r + 1)
      else []
  end.

Lemma near_order_perm fuel d n l r :
  -1 <= l -> 0 <= r <= n -> l + 1 + (n - r) <= Z.of_nat fuel ->
  near_order fuel d n l r ≡ₚ seqZ 0 (l + 1) ++ seqZ r (n - r).
Proof.
  revert l r. induction fuel as [|fuel IH]; intros l r Hl Hr Hf; cbn [near_order].
  { rewrite !seqZ_nil by lia. done. }
  destruct (Z.leb_spec 0 l); cbn [andb].
  - assert (Hdown : l :: near_order fuel d n (l - 1) r ≡ₚ seqZ 0 (l + 1) ++ seqZ r (n - r)).
    { rewrite IH by lia. rewrite (seqZ_app 0 l 1), Z.add_0_l, Z.sub_add, (seqZ_cons l 1), (seqZ_nil _ (Z.pred 1)) by lia.
      rewrite <- app_assoc. apply Permutation_middle. }
    destruct (Z.leb_spec n r); cbn [orb]; [done |]. destruct (d l <=? d r); [done |].
    rewrite (proj2 (Z.ltb_lt r n)) by lia. rewrite IH by lia.
    rewrite (seqZ_cons r (n - r)) by lia. replace (n - (r + 1)) with (Z.pred (n - r)) by lia.
    apply Permutation_middle.
  - replace (l + 1) with 0 by lia. rewrite (seqZ_nil 0 0) by lia.
    destruct (Z.ltb_spec r n); [| by rewrite seqZ_nil by lia].
    rewrite IH by lia. replace (l + 1) with 0 by lia. rewrite (seqZ_nil 0 0) by lia.
    rewrite (seqZ_cons r (n - r)) by lia. by replace (n - (r + 1)) with (Z.pred (n - r)) by lia.
Qed.

Lemma near_order_sorted fuel d n l r :
  -1 <= l -> 0 <= r <= n -> l + 1 + (n - r) <= Z.of_nat fuel ->
  (forall i j, 0 <= i <= j -> j <= l -> d j <= d i) -> (forall i j, r <= i <= j -> j < n -> d i <= d j) ->
  StronglySorted (fun i j => d i <= d j) (near_order fuel d n l r).
Proof.
  revert l r. induction fuel as [|fuel IH]; intros l r Hl Hr Hf Hdl Hdr; cbn [near_order]; [constructor |].
  assert (Hmem : forall m l r x, -1 <= l -> 0 <= r <= n -> l + 1 + (n - r) <= Z.of_nat m ->
                  x ∈ near_order m d n l r -> 0 <= x <= l \/ r <= x < n).
  { intros m l' r' x ? ? ?. rewrite near_order_perm by lia. rewrite elem_of_app, !elem_of_seqZ. lia. }
  destruct (Z.leb_spec 0 l); cbn [andb].
  - destruct ((n <=? r) || (d l <=? d r)) eqn:E.
    + constructor; [apply IH; auto with lia; intros; apply Hdl; lia |].
      apply Forall_forall. intros x Hx. apply Hmem in Hx; [| lia..].
      destruct Hx as [Hx | Hx]; [apply Hdl; lia |]. apply orb_true_iff in E as [E | E]; apply Z.leb_le in E; [lia |].
      etrans; [exact E | apply Hdr; lia].
    + apply orb_false_iff in E as [E1 E2]. apply Z.leb_gt in E1, E2. rewrite (proj2 (Z.ltb_lt r n)) by lia.
      constructor; [apply IH; auto with lia; intros; apply Hdr; lia |].
      apply Forall_forall. intros x Hx. apply Hmem in Hx; [| lia..].
      destruct Hx as [Hx | Hx]; [| apply Hdr; lia]. pose proof (Hdl x l ltac:(lia) ltac:(lia)). lia.
  - destruct (Z.ltb_spec r n); [| constructor].
    constructor; [apply IH; auto with lia; intros; apply Hdr; lia |].
    apply Forall_forall. intros x Hx. apply Hmem in Hx; [| lia..]. apply Hdr; lia.
Qed.

(** The first connection that fits. *)
Fixpoint first_fit (ok : nat -> bool) (cs : list nat) : option nat :=
  match cs with
  | [] => None
  | c :: cs => if ok c then Some c else first_fit ok cs
  end.

Lemma first_fit_none ok cs : first_fit ok cs = None <-> Forall (fun c => ok c = false) cs.
Proof.
  induction cs as [|c cs IH]; simpl; [by split |]. rewrite Forall_cons. destruct (ok c); [split; [done | by intros [? _]] |].
  rewrite IH. tauto.
Qed.

Lemma first_fit_ok ok cs c : first_fit ok cs = Some c -> ok c = true /\ c ∈ cs.
Proof.
  induction cs as [|x cs IH]; simpl; [done |]. destruct (ok x) eqn:E; [intros; simplify_eq; split; [done | left] |].
  intros H. destruct (IH H). split; [done | by right].
Qed.

(** Connections that drop out change nothing as long as the chosen one stays. *)
Lemma first_fit_stable ok ok' cs c :
  first_fit ok cs = Some c -> ok' c = true -> (forall x, ok' x = true -> ok x = true) -> first_fit ok' cs = Some c.
Proof.
  intros H Hc Hsub. induction cs as [|x cs IH]; simpl in *; [done |].
  destruct (ok x) eqn:E; [simplify_eq; by rewrite Hc |].
  destruct (ok' x) eqn:E'; [rewrite (Hsub x E') in E; done | by apply IH].
Qed.

(** Whether a connection can take a request, as [__is_conn_suitable()] finds it. *)
Definition suitable (jiffies : Z) (hmonitor : bool) (w : World) (c : nat) : bool :=
  match w_conns w !! c with
  | None => false
  | Some x =>
      match w_srvs w !! peer x with
      | None => false
      | Some srv =>
          (hmonitor || negb (srv_suspend srv)) && negb (conn_resend x)
          && negb (s64 (jiffies - jbusytstamp x) <? 0)
          && negb (max_qsize (w_sg w) <=? qsize x) && (0 <? refcnt x)
      end
  end.

(** A reference to connection [c]. *)
Definition take_ref (c : option nat) (w : World) : World :=
  match c with
  | None => w
  | Some c => set_w_conns (alter (fun x => set_refcnt (refcnt x + 1) x) c (w_conns w)) w
  end.

Definition known (w : World) (c : nat) : Prop := exists x s, w_conns w !! c = Some x /\ w_srvs w !! peer x = Some s.

Lemma is_conn_suitable_ok j c hm w : known w c ->
  __is_conn_suitable j c hm w = Ok (suitable j hm w c, if suitable j hm w c then take_ref (Some c) w else w).
Proof.
  intros (x & s & Hx & Hs). unfold __is_conn_suitable, suitable, take_ref. rewrite Hx, Hs.
  destruct (_ && _); [| done]. do 3 f_equal. symmetry. apply list_eq. intros i.
  destruct (decide (i = c)) as [-> | Hne].
  - rewrite list_lookup_alter_eq, Hx, list_lookup_insert_eq; [done | by eapply lookup_lt_Some].
  - by rewrite list_lookup_alter_ne, list_lookup_insert_ne.
Qed.

Section choice.
Context (cl : TfwHashConnList) (best : Z).
Hypothesis cl_is_ok : cl_ok cl.
Hypothesis best_u64 : 0 <= best < 2 ^ 64.

(** No distance is the value that marks an exhausted side. *)
Definition no_sentinel : Prop := best <> 0 \/ Forall (fun h => h <> ULONG_MAX) (hashes (cl_used cl)).
Hypothesis diff_ok : no_sentinel.

Definition hconn_at (i : Z) : TfwHashConn := default (MkHConn 0 0) (cl_used cl !! Z.to_nat i).
Definition dist (i : Z) : Z := Z.abs (hash (hconn_at i) - best).

Lemma at_hconn i : 0 <= i < conn_n cl -> conns_at cl i = Some (hconn_at i) /\ hconn_at i ∈ cl_used cl.
Proof.
  intros Hi. destruct (conns_at_used cl i) as (c & -> & Hc); [apply cl_is_ok | done |].
  unfold hconn_at. rewrite Hc. split; [done | by eapply list_elem_of_lookup_2].
Qed.

Lemma hash_range i : 0 <= i < conn_n cl -> 0 <= hash (hconn_at i) < 2 ^ 64 /\ (best <> 0 \/ hash (hconn_at i) <> ULONG_MAX).
Proof.
  intros Hi. destruct (at_hconn i Hi) as [_ He]. apply (list_elem_of_fmap_2 hash) in He.
  destruct cl_is_ok as [_ _ Hu]. rewrite Forall_forall in Hu. split; [by apply Hu |].
  destruct diff_ok as [? | Hf]; [by left |]. rewrite Forall_forall in Hf. right. by apply Hf.
Qed.

Lemma hash_mono i j : 0 <= i < j -> j < conn_n cl -> hash (hconn_at i) < hash (hconn_at j).
Proof.
  intros Hi Hj. destruct (conns_at_used cl i) as (a & _ & Ha); [apply cl_is_ok | lia |].
  destruct (conns_at_used cl j) as (b & _ & Hb); [apply cl_is_ok | lia |]. unfold hconn_at. rewrite Ha, Hb. simpl.
  eapply sorted_lookup; [apply cl_is_ok | done | done | lia].
Qed.

(** What is left of [l] is below the hash, what is right of [r] above. *)
Definition sides (l r : Z) : Prop :=
  -1 <= l /\ 0 <= r <= conn_n cl /\ l < r
  /\ (forall i, 0 <= i <= l -> hash (hconn_at i) <= best) /\ (forall i, r <= i < conn_n cl -> best <= hash (hconn_at i)).

Lemma l_diff_dist l r : sides l r -> 0 <= l -> l < conn_n cl ->
  l_diff cl best l = Ok (dist l) /\ dist l <= ULONG_MAX.
Proof.
  intros (Hl & Hr & Hlr & Hlo & _) H0 Hn. unfold l_diff, dist. rewrite (proj2 (Z.leb_le 0 l)) by lia.
  destruct (at_hconn l) as [-> _]; [lia |]. destruct (hash_range l) as [Hu _]; [lia |].
  specialize (Hlo l ltac:(lia)). unfold ULONG_MAX. rewrite u64_small by lia. split; [f_equal |]; lia.
Qed.

Lemma r_diff_dist l r : sides l r -> r < conn_n cl -> r_diff cl best r = Ok (dist r) /\ dist r < ULONG_MAX.
Proof.
  intros (Hl & Hr & Hlr & _ & Hhi) H0. unfold r_diff, dist. rewrite (proj2 (Z.ltb_lt r _)) by lia.
  destruct (at_hconn r) as [-> _]; [lia |]. destruct (hash_range r) as [Hu Hs]; [lia |].
  specialize (Hhi r ltac:(lia)). unfold ULONG_MAX in *. rewrite u64_small by lia. split; [f_equal |]; lia.
Qed.

(** The loop tries the connections in the order of their distance. *)
Lemma find_near_order fuel j hm w l r :
  sides l r -> l + 1 + (conn_n cl - r) <= Z.of_nat fuel ->
  (forall x, x ∈ cl_used cl -> known w (conn x)) ->
  let c := first_fit (suitable j hm w) (map (fun i => conn (hconn_at i)) (near_order fuel dist (conn_n cl) l r)) in
  find_near fuel j hm cl best l r w = Ok (c, take_ref c w).
Proof.
  intros Hs Hf Hk. revert l r Hs Hf. induction fuel as [|fuel IH]; intros l r Hs Hf; pose proof Hs as (Hl & Hr & Hlr & Hlo & Hhi);
    cbn [find_near near_order map first_fit].
  { rewrite (proj2 (Z.leb_gt 0 l)), (proj2 (Z.ltb_ge r _)) by lia. done. }
  assert (Htry : forall i k rest,
            0 <= i < conn_n cl -> sides k.1 k.2 -> k.1 + 1 + (conn_n cl - k.2) <= Z.of_nat fuel ->
            rest = near_order fuel dist (conn_n cl) k.1 k.2 ->
            let c := first_fit (suitable j hm w) (map (fun i => conn (hconn_at i)) (i :: rest)) in
            (ok <~ __is_conn_suitable j (conn (hconn_at i)) hm ;;
             if ok : bool then sm_ret (Some (conn (hconn_at i))) else find_near fuel j hm cl best k.1 k.2) w
            = Ok (c, take_ref c w)).
  { intros i k rest Hi Hk1 Hk2 ->. destruct (at_hconn i Hi) as [_ He].
    unfold sm_bind. rewrite is_conn_suitable_ok by auto. cbn [map first_fit].
    destruct (suitable j hm w _) eqn:E; [done |]. by apply IH. }
  destruct (Z.leb_spec 0 l) as [H0|H0]; destruct (Z.ltb_spec r (conn_n cl)) as [H1|H1]; cbn [orb negb andb].
  - destruct (l_diff_dist l r Hs H0 ltac:(lia)) as [-> _]. destruct (r_diff_dist l r Hs H1) as [-> _].
    rewrite (proj2 (Z.leb_gt (conn_n cl) r)) by lia. cbn [orb].
    destruct (dist l <=? dist r).
    + destruct (at_hconn l) as [-> _]; [lia |]. apply (Htry l (l - 1, r)); simpl; [lia | | lia | done].
      repeat split; try lia; intros; (apply Hlo || apply Hhi); lia.
    + destruct (at_hconn r) as [-> _]; [lia |]. apply (Htry r (l, r + 1)); simpl; [lia | | lia | done].
      repeat split; try lia; intros; (apply Hlo || apply Hhi); lia.
  - destruct (l_diff_dist l r Hs H0 ltac:(lia)) as [-> Hd]. unfold r_diff. rewrite (proj2 (Z.ltb_ge r _)) by lia.
    rewrite (proj2 (Z.leb_le (dist l) _)) by lia. rewrite (proj2 (Z.leb_le (conn_n cl) r)) by lia. cbn [orb].
    destruct (at_hconn l) as [-> _]; [lia |]. apply (Htry l (l - 1, r)); simpl; [lia | | lia | done].
    repeat split; try lia; intros; (apply Hlo || apply Hhi); lia.
  - destruct (r_diff_dist l r Hs H1) as [-> Hd]. unfold l_diff. rewrite (proj2 (Z.leb_gt 0 l)) by lia.
    rewrite (proj2 (Z.leb_gt ULONG_MAX _)) by lia.
    destruct (at_hconn r) as [-> _]; [lia |]. apply (Htry r (l, r + 1)); simpl; [lia | | lia | done].
    repeat split; try lia; intros; (apply Hlo || apply Hhi); lia.
  - done.
Qed.

(** The whole order: the place that the search finds, then its neighbours. *)
Definition try_order (p : Z) : list Z :=
  p :: near_order (Z.to_nat (conn_n cl)) dist (conn_n cl) (p - 1) (p + 1).

Lemma place_sides p : place cl best p -> sides (p - 1) (p + 1).
Proof.
  intros (Hp & Hlo & (c & Hc & Hhi)). repeat split; try lia.
  - intros i Hi. destruct (conns_at_used cl i) as (x & _ & Hx); [apply cl_is_ok | lia |].
    unfold hconn_at. rewrite Hx. simpl. enough (hash x < best) by lia. eapply Hlo; [exact Hx | lia].
  - intros i Hi. destruct Hhi as [Hhi | ->]; [| lia].
    pose proof (hash_mono p i ltac:(lia) ltac:(lia)) as Hm. unfold hconn_at at 1 in Hm. rewrite Hc in Hm. simpl in Hm. lia.
Qed.

Lemma try_order_perm p : place cl best p -> map hconn_at (try_order p) ≡ₚ cl_used cl.
Proof.
  intros Hp. pose proof (place_sides p Hp) as (? & ? & ? & _). pose proof Hp as (Hpn & _).
  assert (E : try_order p ≡ₚ seqZ 0 (conn_n cl)).
  { unfold try_order. rewrite near_order_perm by lia. rewrite Z.sub_add.
    replace (conn_n cl) with (p + (1 + (conn_n cl - (p + 1)))) at 2 by lia.
    rewrite (seqZ_app 0 p), (seqZ_app (0 + p) 1) by lia.
    rewrite Z.add_0_l, (seqZ_cons p 1), (seqZ_nil _ (Z.pred 1)) by lia. apply Permutation_middle. }
  rewrite E. enough (map hconn_at (seqZ 0 (conn_n cl)) = cl_used cl) as -> by done. apply list_eq. intros i.
  rewrite list_lookup_fmap. pose proof (cl_used_len cl (cl_n _ cl_is_ok)) as Hl.
  destruct (decide (Z.of_nat i < conn_n cl)).
  - rewrite lookup_seqZ_lt, Z.add_0_l by lia. cbn [fmap option_fmap option_map]. unfold hconn_at. rewrite Nat2Z.id.
    destruct (lookup_lt_is_Some_2 (cl_used cl) i) as [x Hx]; [lia |]. by rewrite Hx.
  - rewrite lookup_seqZ_ge by lia. symmetry. apply lookup_ge_None_2. lia.
Qed.

Lemma try_order_sorted p : place cl best p -> StronglySorted (fun i j => dist i <= dist j) (tail (try_order p)).
Proof.
  intros Hp. destruct (place_sides p Hp) as (? & ? & ? & Hlo & Hhi). pose proof Hp as (Hpn & _).
  apply near_order_sorted; [lia | lia | lia | |]; intros i k Hi Hk; unfold dist.
  - pose proof (Hlo i ltac:(lia)). pose proof (Hlo k ltac:(lia)).
    destruct (decide (i = k)) as [-> |]; [lia |]. pose proof (hash_mono i k). lia.
  - pose proof (Hhi i ltac:(lia)). pose proof (Hhi k ltac:(lia)).
    destruct (decide (i = k)) as [-> |]; [lia |]. pose proof (hash_mono i k). lia.
Qed.
End choice.

Lemma StronglySorted_map {A B} (R : B -> B -> Prop) (f : A -> B) l :
  StronglySorted (fun x y => R (f x) (f y)) l -> StronglySorted R (map f l).
Proof.
  induction 1 as [|x l _ IH Hx]; simpl; constructor; [done |]. by apply Forall_map.
Qed.

(** ** Keys of requests *)

Record req_ok (r : HashReq) : Prop := {
  rq_hash : 0 <= req_hash r < 2 ^ 64;
  rq_uri : str_ok (uri_path r) /\ str_bytes_ok (uri_path r);
  rq_host : len (req_host r) = 0 \/ str_ok (req_host r) /\ str_bytes_ok (req_host r)
}.

(** The key is computed without a [Bug] and stays with the request. *)
Lemma req_key_ok r : req_ok r ->
  exists k r', tfw_http_req_key_calc r = Ok (k, r') /\ 0 <= k < 2 ^ 64
    /\ tfw_http_req_key_calc r' = Ok (k, r') /\ hmonitor r' = hmonitor r.
Proof.
  intros [Hh [Hu Hub] Hho]. unfold tfw_http_req_key_calc. destruct (Z.eqb_spec (req_hash r) 0) as [E|E]; cbn [negb].
  2: { exists (req_hash r), r. by rewrite (proj2 (Z.eqb_neq _ _) E). }
  unfold tfw_hash_str. pose proof (hash_str_mix _ (2 ^ 64 - 1) Hu Hub ltac:(lia)) as Eh.
  pose proof (hash_str_range _ (2 ^ 64 - 1) _ Hu Hub ltac:(lia) Eh) as Rh. rewrite Eh.
  set (h := hash_join _) in *. clearbody h.
  destruct (hmonitor r) eqn:Em; [| destruct (Z.eqb_spec (len (req_host r)) 0) as [El|El]].
  - exists h, (MkHReq h (uri_path r) (req_host r) true). simpl. rewrite Eh. by destruct (Z.eqb_spec h 0).
  - exists h, (MkHReq h (uri_path r) (req_host r) false). simpl. rewrite Eh, El. by destruct (Z.eqb_spec h 0).
  - destruct Hho as [? | [Hs Hb]]; [done |]. pose proof (hash_str_mix _ (2 ^ 64 - 1) Hs Hb ltac:(lia)) as Eg.
    pose proof (hash_str_range _ (2 ^ 64 - 1) _ Hs Hb ltac:(lia) Eg) as Rg. rewrite Eg.
    set (g := hash_join _) in *. clearbody g.
    exists (Z.lxor h g), (MkHReq (Z.lxor h g) (uri_path r) (req_host r) false). simpl.
    rewrite Eh, Eg, (proj2 (Z.eqb_neq _ _) El). split; [done |]. split; [by apply lxor_below |].
    by destruct (Z.eqb_spec (Z.lxor h g) 0).
Qed.

(** The order in which the connections are tried for the key [k]. *)
Definition key_order (cl : TfwHashConnList) (k : Z) : list TfwHashConn :=
  if conn_n cl =? 0 then []
  else match __bsearch (Z.lxor ULONG_MAX k) cl with
       | Ok p => map (hconn_at cl) (try_order cl (Z.lxor ULONG_MAX k) p)
       | Bug => []
       end.

Lemma complement_u64 k : 0 <= k < 2 ^ 64 -> 0 <= Z.lxor ULONG_MAX k < 2 ^ 64.
Proof. intros Hk. apply lxor_below; [lia | unfold ULONG_MAX; lia | done]. Qed.

(** The order is empty or begins at the place that the search finds. *)
Lemma key_order_cases cl k : cl_ok cl ->
  (conn_n cl = 0 /\ key_order cl k = [] /\ cl_used cl = [])
  \/ exists p, conn_n cl <> 0 /\ __bsearch (Z.lxor ULONG_MAX k) cl = Ok p /\ place cl (Z.lxor ULONG_MAX k) p
       /\ key_order cl k = map (hconn_at cl) (try_order cl (Z.lxor ULONG_MAX k) p).
Proof.
  intros Hok. unfold key_order. destruct (Z.eqb_spec (conn_n cl) 0) as [E0 | E0].
  { left. split_and!; [done | done |]. unfold cl_used. by rewrite E0. }
  right. pose proof (cl_n _ Hok). destruct (bsearch_place (Z.lxor ULONG_MAX k) cl Hok ltac:(lia)) as (p & Ep & Hp).
  exists p. by rewrite Ep.
Qed.

Lemma key_order_shape cl k :
  cl_ok cl -> let best := Z.lxor ULONG_MAX k in
  key_order cl k ≡ₚ cl_used cl
  /\ StronglySorted (fun a b => Z.abs (hash a - best) <= Z.abs (hash b - best)) (tail (key_order cl k))
  /\ (forall x y, head (key_order cl k) = Some x -> y ∈ cl_used cl -> hash y <= hash x \/ best <= hash x < hash y)
  /\ (forall x y, head (key_order cl k) = Some x -> y ∈ cl_used cl -> best <= hash y -> hash x <= hash y).
Proof.
  intros Hok best. destruct (key_order_cases cl k Hok) as [(_ & -> & ->) | (p & E0 & _ & Hp & ->)].
  { split_and!; [done | constructor | done | done]. }
  fold best in Hp |- *. pose proof (cl_n _ Hok). split_and!.
  - by apply try_order_perm.
  - unfold try_order. cbn [map tail]. apply StronglySorted_map. by apply (try_order_sorted cl best Hok p).
  - intros x y Hx Hy. cbn in Hx. simplify_eq. apply list_elem_of_lookup in Hy as [i Hy].
    destruct Hp as (Hpn & _ & (c & Hc & Hhi)). unfold hconn_at. rewrite Hc. simpl.
    pose proof (lookup_lt_Some _ _ _ Hy). rewrite cl_used_len in * by lia.
    destruct (Nat.lt_trichotomy i (Z.to_nat p)) as [? | [-> | ?]].
    + pose proof (sorted_lookup _ _ _ _ _ (cl_sorted _ Hok) Hy Hc). lia.
    + rewrite Hc in Hy. simplify_eq. lia.
    + pose proof (sorted_lookup _ _ _ _ _ (cl_sorted _ Hok) Hc Hy). lia.
  - intros x y Hx Hy Hbig. cbn in Hx. simplify_eq. apply list_elem_of_lookup in Hy as [i Hy].
    destruct Hp as (Hpn & Hlo & (c & Hc & _)). unfold hconn_at. rewrite Hc. simpl.
    destruct (Nat.lt_trichotomy i (Z.to_nat p)) as [? | [-> | ?]].
    + pose proof (Hlo _ _ Hy). lia.
    + rewrite Hc in Hy. simplify_eq. lia.
    + pose proof (sorted_lookup _ _ _ _ _ (cl_sorted _ Hok) Hc Hy). lia.
Qed.

Lemma find_best_order cl r k r' j w :
  cl_ok cl -> tfw_http_req_key_calc r = Ok (k, r') -> 0 <= k < 2 ^ 64 -> hmonitor r' = hmonitor r ->
  no_sentinel cl (Z.lxor ULONG_MAX k) -> (forall x, x ∈ cl_used cl -> known w (conn x)) ->
  __find_best_conn j r cl w =
  let c := first_fit (suitable j (hmonitor r) w) (map conn (key_order cl k)) in Ok ((c, r'), take_ref c w).
Proof.
  intros Hok Ek Hk Hm Hns Hkn. pose proof (complement_u64 k Hk) as Hb.
  unfold __find_best_conn. rewrite Ek. cbv zeta beta iota.
  destruct (key_order_cases cl k Hok) as [(E0 & -> & _) | (p & E0 & Ep & Hp & ->)]; [by rewrite E0 |].
  rewrite (proj2 (Z.eqb_neq _ _) E0), Ep. pose proof (place_sides cl _ Hok p Hp) as Hs.
  destruct (at_hconn cl Hok p) as [-> He]; [apply Hp |]. unfold sm_bind. rewrite Hm.
  rewrite is_conn_suitable_ok by auto. unfold try_order. cbn [map first_fit].
  destruct (suitable j (hmonitor r) w (conn (hconn_at cl p))) eqn:Es; [done |].
  destruct Hs as (? & ? & ? & ? & ?).
  rewrite (find_near_order cl _ Hok Hb Hns) by (done || lia).
  rewrite map_map. done.
Qed.

(** C28: Requests with one key stay together.  A request has one key for its whole life; a key has one order of all
    connections of the group ([key_order], a function of the key and the array): first the connection with
    the smallest hash that is not below the complement of the key (or the one with the largest hash), then the others
    from near to far.  A request goes to the first connection of the order of its key that can take
    it and only that one gets a reference; nothing is chosen only when no connection is suitable.  Every later
    request of the same key and kind goes to the same connection, as long as that is suitable and no connection has become
    suitable that was not: what other connections lose moves nothing.  This is the order of the code; comments in the source
    speak of the connection with the highest value of key and hash, which is another one ([not_highest_weight]).  For a
    key of all ones beside a hash of all ones nothing is claimed, see [sentinel_is_a_distance]. *)
Theorem sched_hash_choice (cl : TfwHashConnList) (r : HashReq) :
  cl_ok cl -> req_ok r ->
  exists k r', tfw_http_req_key_calc r = Ok (k, r') /\ tfw_http_req_key_calc r' = Ok (k, r') /\
  let best := Z.lxor ULONG_MAX k in
  (no_sentinel cl best ->
   key_order cl k ≡ₚ cl_used cl
   /\ StronglySorted (fun a b => Z.abs (hash a - best) <= Z.abs (hash b - best)) (tail (key_order cl k))
   /\ (forall x y, head (key_order cl k) = Some x -> y ∈ cl_used cl -> hash y <= hash x \/ best <= hash x < hash y)
   /\ (forall x y, head (key_order cl k) = Some x -> y ∈ cl_used cl -> best <= hash y -> hash x <= hash y)
   /\ (forall j w, (forall x, x ∈ cl_used cl -> known w (conn x)) ->
        exists c, __find_best_conn j r cl w = Ok ((c, r'), take_ref c w)
          /\ c = first_fit (suitable j (hmonitor r) w) (map conn (key_order cl k))
          /\ (c = None -> forall x, x ∈ cl_used cl -> suitable j (hmonitor r) w (conn x) = false)
          /\ (forall x, c = Some x -> suitable j (hmonitor r) w x = true
                /\ forall r2 r2' j' w', req_ok r2 -> tfw_http_req_key_calc r2 = Ok (k, r2') ->
                   hmonitor r2 = hmonitor r ->
                   (forall x, x ∈ cl_used cl -> known w' (conn x)) ->
                   suitable j' (hmonitor r) w' x = true ->
                   (forall y, suitable j' (hmonitor r) w' y = true -> suitable j (hmonitor r) w y = true) ->
                   __find_best_conn j' r2 cl w' = Ok ((Some x, r2'), take_ref (Some x) w')))).
Proof.
  intros Hok Hr. destruct (req_key_ok r Hr) as (k & r' & Ek & Hk & Ek' & Hm).
  exists k, r'. split; [done |]. split; [done |]. intros best Hns.
  destruct (key_order_shape cl k Hok) as (Hp & Hso & Hh1 & Hh2).
  split_and!; [done | done | done | done |].
  intros j w Hkn. eexists. split; [by apply find_best_order |]. split; [done |]. split.
  - intros Hn x Hx. apply first_fit_none in Hn. rewrite Forall_forall in Hn. apply Hn.
    apply list_elem_of_fmap_2. by rewrite Hp.
  - intros x Hx. split; [by apply first_fit_ok in Hx as [? _] |].
    intros r2 r2' j' w' Hr2 Ek2 Hm2 Hkn' Hs Hsub.
    destruct (req_key_ok r2 Hr2) as (k2 & r2'' & Ek2' & _ & _ & Hm2'). rewrite Ek2 in Ek2'. simplify_eq.
    rewrite (find_best_order cl r2 k2 r2'') by done. cbv zeta.
    by rewrite Hm2, (first_fit_stable _ _ _ _ Hx Hs Hsub).
Qed.

(** ** Building the array *)

(** Multiplication by an odd constant loses nothing. *)
Definition GOLDEN_INV : Z := 0x0e217c1e66c88cc3.

Lemma hash_64_inj x y : 0 <= x < 2 ^ 64 -> 0 <= y < 2 ^ 64 -> __hash_64 x = __hash_64 y -> x = y.
Proof.
  assert (Hinv : forall z, 0 <= z < 2 ^ 64 -> u64 (__hash_64 z * GOLDEN_INV) = z).
  { intros z Hz. unfold __hash_64, u64. rewrite Zmult_mod_idemp_l, <- Z.mul_assoc, <- Zmult_mod_idemp_r.
    replace ((GOLDEN_RATIO_64 * GOLDEN_INV) mod 2 ^ 64) with 1 by reflexivity.
    rewrite Z.mul_1_r. by apply Z.mod_small. }
  intros Hx Hy E. by rewrite <- (Hinv x Hx), E, Hinv.
Qed.

Lemma hash_64_range x : 0 <= __hash_64 x < 2 ^ 64.
Proof. apply Z.mod_pos_bound. lia. Qed.

(** The hashes that the loop draws for a connection are different. *)
Definition drawn (srv_hash seed inc : Z) (k : nat) : Z := __hash_64 (Z.lxor srv_hash (u64 (seed + Z.of_nat k * inc))).

Lemma drawn_inj srv_hash seed inc k l :
  0 <= srv_hash < 2 ^ 64 -> 0 < inc < 2 ^ 32 -> Z.of_nat k < 2 ^ 32 -> Z.of_nat l < 2 ^ 32 ->
  drawn srv_hash seed inc k = drawn srv_hash seed inc l -> k = l.
Proof.
  intros Hs Hi Hk Hl E. assert (Hr : forall z, 0 <= u64 z < 2 ^ 64) by (intros; apply Z.mod_pos_bound; lia).
  apply hash_64_inj in E; [| by apply lxor_below..].
  assert (E2 : u64 (seed + Z.of_nat k * inc) = u64 (seed + Z.of_nat l * inc)).
  { rewrite <- (Z.lxor_0_l (u64 (seed + Z.of_nat k * inc))), <- (Z.lxor_nilpotent srv_hash), Z.lxor_assoc, E.
    by rewrite <- Z.lxor_assoc, Z.lxor_nilpotent, Z.lxor_0_l. }
  unfold u64 in E2. pose proof (Z.div_mod (seed + Z.of_nat k * inc) (2 ^ 64) ltac:(lia)) as D1.
  pose proof (Z.div_mod (seed + Z.of_nat l * inc) (2 ^ 64) ltac:(lia)) as D2. rewrite E2 in D1.
  set (q1 := (seed + Z.of_nat k * inc) / 2 ^ 64) in *. set (q2 := (seed + Z.of_nat l * inc) / 2 ^ 64) in *.
  assert (D : (Z.of_nat k - Z.of_nat l) * inc = 2 ^ 64 * (q1 - q2)) by lia.
  assert (Hb : - 2 ^ 64 < (Z.of_nat k - Z.of_nat l) * inc < 2 ^ 64) by (change (2 ^ 64) with (2 ^ 32 * 2 ^ 32); nia).
  assert (q1 - q2 = 0) by nia. nia.
Qed.

Lemma drawn_free srv_hash seed inc (used : list Z) :
  0 <= srv_hash < 2 ^ 64 -> 0 < inc < 2 ^ 32 -> zlen used < 2 ^ 32 ->
  exists k, (k <= length used)%nat /\ drawn srv_hash seed inc k ∉ used.
Proof.
  intros Hs Hi Hl. set (l := map (drawn srv_hash seed inc) (seq 0 (S (length used)))).
  destruct (decide (Forall (fun h => h ∈ used) l)) as [Hall | Hex].
  - exfalso. assert (Hnd : NoDup l).
    { apply NoDup_fmap_2_strong; [| apply NoDup_seq]. intros x y Hx Hy E. rewrite elem_of_seq in Hx, Hy.
      unfold zlen in Hl. eapply drawn_inj; [exact Hs | exact Hi | lia | lia | exact E]. }
    assert (Hsub : l ⊆+ used) by (apply NoDup_submseteq; [done | by apply Forall_forall]).
    apply submseteq_length in Hsub. unfold l in Hsub. rewrite length_map, length_seq in Hsub. lia.
  - apply not_Forall_Exists, Exists_exists in Hex; [| apply _]. destruct Hex as (h & Hh & Hn).
    apply list_elem_of_fmap in Hh as (k & -> & Hk). apply elem_of_seq in Hk. exists k. split; [lia | done].
Qed.

Lemma array_insert_used a n i c :
  0 <= i <= n -> n < zlen a ->
  exists a', array_insert a i (n - i) c = Ok a' /\ zlen a' = zlen a
    /\ take (Z.to_nat (n + 1)) a' = take (Z.to_nat i) (take (Z.to_nat n) a) ++ c :: drop (Z.to_nat i) (take (Z.to_nat n) a).
Proof.
  intros Hi Hn. unfold array_insert. rewrite !(proj2 (Z.leb_le _ _)) by lia. cbn [andb].
  eexists. split; [done |]. unfold zlen in *. split.
  - rewrite length_app, length_take. cbn [length]. rewrite length_app, length_take, !length_drop. lia.
  - rewrite take_take, Nat.min_l by lia. rewrite take_app, length_take.
    rewrite (take_ge (take (Z.to_nat i) a)) by (rewrite length_take; lia).
    replace (Z.to_nat (n + 1) - _)%nat with (S (Z.to_nat (n - i))) by lia. cbn [take]. do 2 f_equal.
    rewrite take_app, length_take, length_drop.
    rewrite (take_ge (take (Z.to_nat (n - i)) _)) by (rewrite length_take; lia).
    replace (Z.to_nat (n - i) - _)%nat with 0%nat by lia. rewrite app_nil_r.
    rewrite skipn_firstn_comm. f_equal. lia.
Qed.

(** Insertion at the place of a hash keeps the array sorted. *)
Lemma cl_insert_ok cl c h i k :
  cl_ok cl -> conn_n cl < zlen (conns cl) -> 0 <= h < 2 ^ 64 -> 0 <= i <= conn_n cl -> k = conn_n cl - i ->
  (forall j x, cl_used cl !! j = Some x -> Z.of_nat j < i -> hash x < h) ->
  (forall j x, cl_used cl !! j = Some x -> i <= Z.of_nat j -> h < hash x) ->
  exists cl', match array_insert (conns cl) i k (MkHConn h c) with
              | Ok a => Ok (0, MkCl (conn_n cl + 1) a) | Bug => Bug end = Ok (0, cl') /\ cl_ok cl'
     /\ conn_n cl' = conn_n cl + 1 /\ zlen (conns cl') = zlen (conns cl)
     /\ cl_used cl' ≡ₚ MkHConn h c :: cl_used cl.
Proof.
  intros Hok Hcap Hh Hi -> Hlo Hhi.
  destruct (array_insert_used (conns cl) (conn_n cl) i (MkHConn h c)) as (a & -> & Hl & Ha); [lia.. |].
  fold (cl_used cl) in Ha. exists (MkCl (conn_n cl + 1) a). split; [done |].
  assert (Hu : cl_used (MkCl (conn_n cl + 1) a)
               = take (Z.to_nat i) (cl_used cl) ++ MkHConn h c :: drop (Z.to_nat i) (cl_used cl)) by done.
  assert (Hperm : cl_used (MkCl (conn_n cl + 1) a) ≡ₚ MkHConn h c :: cl_used cl).
  { rewrite Hu, <- Permutation_middle, take_drop. done. }
  split_and!; [| done | done | done]. split.
  - simpl. lia.
  - rewrite Hu. destruct Hok as [_ Hs _]. rewrite <- (take_drop (Z.to_nat i) (cl_used cl)) in Hs.
    unfold hashes in *. rewrite map_app in Hs |- *. cbn [map]. apply StronglySorted_app in Hs as (Hx & H1 & H2).
    apply StronglySorted_app. split_and!; [| done |].
    + intros x y (u & -> & Hu1)%list_elem_of_fmap [-> | Hy]%elem_of_cons.
      * apply list_elem_of_lookup in Hu1 as [j Hj]. apply lookup_take_Some in Hj as [Hj ?]. eapply Hlo; [exact Hj | lia].
      * apply Hx; [by apply list_elem_of_fmap_2 | done].
    + constructor; [done |]. apply Forall_map, Forall_forall. intros x (j & Hj)%list_elem_of_lookup.
      rewrite lookup_drop in Hj. eapply Hhi; [exact Hj | lia].
  - unfold hashes. rewrite Hperm. constructor; [done | apply Hok].
Qed.

(** Insertion reports hashes that are taken. *)
Lemma add_conn_ok cl c h :
  cl_ok cl -> conn_n cl < zlen (conns cl) -> 0 <= h < 2 ^ 64 ->
  (h ∈ hashes (cl_used cl) -> __add_conn cl c h = Ok (- EEXIST, cl))
  /\ (h ∉ hashes (cl_used cl) -> exists cl', __add_conn cl c h = Ok (0, cl') /\ cl_ok cl'
       /\ conn_n cl' = conn_n cl + 1 /\ zlen (conns cl') = zlen (conns cl)
       /\ cl_used cl' ≡ₚ MkHConn h c :: cl_used cl).
Proof.
  intros Hok Hcap Hh. pose proof (cl_n _ Hok) as Hn. pose proof (cl_used_len cl Hn) as Hul. unfold __add_conn. cbv zeta.
  destruct (Z.eqb_spec (conn_n cl) 0) as [E0 | E0].
  { assert (cl_used cl = []) as Eu by (unfold cl_used; by rewrite E0).
    split; [rewrite Eu; by intros ?%elem_of_nil |].
    intros _. apply cl_insert_ok; [done | done | done | lia | lia | |]; rewrite Eu; done. }
  destruct (bsearch_place h cl Hok ltac:(lia)) as (p & -> & Hpn & Hlo & (x & Hx & Hhi)).
  destruct (conns_at_used cl p) as (y & -> & Hy); [lia | lia |]. rewrite Hx in Hy. injection Hy as <-.
  assert (Habove : forall j z, cl_used cl !! j = Some z -> p < Z.of_nat j -> hash x < hash z).
  { intros j z Hz Hj. eapply (sorted_lookup _ (Z.to_nat p) j); [apply Hok | done | done | lia]. }
  assert (Hat : forall z, cl_used cl !! Z.to_nat p = Some z -> z = x) by (intros z Hz; by simplify_eq).
  destruct (Z.eqb_spec (hash x) h) as [Eh | Eh].
  { split; [done |]. intros Hni. exfalso. apply Hni. rewrite <- Eh. apply list_elem_of_fmap_2. by eapply list_elem_of_lookup_2. }
  assert (Hcase : forall j z, cl_used cl !! j = Some z ->
            hash z < h /\ Z.of_nat j < p \/ z = x /\ Z.of_nat j = p \/ hash x < hash z /\ p < Z.of_nat j < conn_n cl).
  { intros j z Hz. pose proof (lookup_lt_Some _ _ _ Hz). destruct (Z.lt_trichotomy (Z.of_nat j) p) as [? | [Ej | ?]].
    - left. split; [by eapply Hlo | done].
    - right; left. split; [apply Hat; by rewrite <- Ej, Nat2Z.id | done].
    - right; right. split; [by eapply Habove | lia]. }
  split.
  { intros (z & Ez & Hz)%list_elem_of_fmap. exfalso. apply list_elem_of_lookup in Hz as [j Hz].
    destruct (Hcase j z Hz) as [? | [[-> ?] | ?]]; lia. }
  intros _. rewrite (proj2 (Z.eqb_neq p (conn_n cl))) by lia. cbn [negb]. rewrite andb_true_r.
  destruct (Z.ltb_spec (hash x) h).
  - rewrite (proj2 (Z.eqb_eq (p + 1) (conn_n cl))) by lia.
    apply cl_insert_ok; [done | done | done | lia | lia | |]; intros j z Hz Hj;
      destruct (Hcase j z Hz) as [? | [[-> ?] | ?]]; lia.
  - rewrite (proj2 (Z.eqb_neq p (conn_n cl))) by lia.
    apply cl_insert_ok; [done | done | done | lia | lia | |]; intros j z Hz Hj;
      destruct (Hcase j z Hz) as [? | [[-> ?] | ?]]; lia.
Qed.

(** What a step of the construction gives: the connections [cs] are added. *)
Definition grown (cl cl' : TfwHashConnList) (cs : list nat) : Prop :=
  cl_ok cl' /\ conn_n cl' = conn_n cl + zlen cs /\ zlen (conns cl') = zlen (conns cl)
  /\ map conn (cl_used cl') ≡ₚ cs ++ map conn (cl_used cl).

Lemma grown_trans cl1 cl2 cl3 a b : grown cl1 cl2 a -> grown cl2 cl3 b -> grown cl1 cl3 (a ++ b).
Proof.
  intros (_ & N1 & Z1 & P1) (H2 & N2 & Z2 & P2). split_and!; [done | rewrite zlen_app; lia | lia |].
  rewrite P2, P1, !app_assoc. apply Permutation_app_tail, Permutation_app_comm.
Qed.

Section draw.
Context (rounds : nat) (inc : Z).
Hypothesis inc_ok : 0 < inc < 2 ^ 32.

Lemma drawn_next h seed k : drawn h (u64 (seed + inc)) inc k = drawn h seed inc (S k).
Proof.
  unfold drawn. do 2 f_equal. unfold u64. rewrite Zplus_mod_idemp_l. f_equal. lia.
Qed.

Lemma draw_hash_ok n srv_hash c cl seed k :
  cl_ok cl -> conn_n cl < zlen (conns cl) -> 0 <= seed < 2 ^ 64 ->
  (k < n)%nat -> drawn srv_hash seed inc k ∉ hashes (cl_used cl) ->
  exists cl' seed', draw_hash n srv_hash c cl seed inc = Ok (cl', seed') /\ 0 <= seed' < 2 ^ 64 /\ grown cl cl' [c].
Proof.
  intros Hok Hcap. revert seed k. induction n as [|n IH]; intros seed k Hs Hk Hfree; [lia |]. cbn [draw_hash]. cbv zeta.
  assert (Hs' : 0 <= u64 (seed + inc) < 2 ^ 64) by (apply Z.mod_pos_bound; lia).
  destruct (add_conn_ok cl c (__hash_64 (Z.lxor srv_hash seed)) Hok Hcap (hash_64_range _)) as [Htaken Hnew].
  destruct (decide (__hash_64 (Z.lxor srv_hash seed) ∈ hashes (cl_used cl))) as [Hin | Hni].
  - rewrite Htaken by done. change (- EEXIST =? 0) with false. cbn [negb].
    destruct k as [|k].
    { exfalso. apply Hfree. unfold drawn. rewrite Z.mul_0_l, Z.add_0_r, u64_small by done. done. }
    apply (IH _ k); [done | lia |]. by rewrite drawn_next.
  - destruct (Hnew Hni) as (cl' & -> & Hok' & Hn' & Hz' & Hp'). exists cl', (u64 (seed + inc)).
    split; [done |]. split; [done |]. split_and!; [done | done | done |]. by rewrite Hp'.
Qed.

Lemma add_conns_loop_ok srv_hash cs cl seed :
  0 <= srv_hash < 2 ^ 64 -> cl_ok cl -> conn_n cl + zlen cs <= zlen (conns cl) -> zlen (conns cl) < 2 ^ 32 ->
  zlen (conns cl) < Z.of_nat rounds -> 0 <= seed < 2 ^ 64 ->
  exists cl' seed', add_conns_loop rounds srv_hash cs cl seed inc = Ok (cl', seed') /\ 0 <= seed' < 2 ^ 64 /\ grown cl cl' cs.
Proof.
  intros Hh. revert cl seed. induction cs as [|c cs IH]; intros cl seed Hok Hcap Hmax Hr Hs; cbn [add_conns_loop].
  { exists cl, seed. split; [done |]. split; [done |]. split_and!; [done | | done | done]. unfold zlen. simpl. lia. }
  pose proof (cl_n _ Hok) as Hn. pose proof (cl_used_len cl Hn) as Hul.
  assert (Hl : zlen (hashes (cl_used cl)) = conn_n cl) by (unfold zlen, hashes; rewrite length_map; lia).
  change (zlen (c :: cs)) with (Z.of_nat (S (length cs))) in Hcap.
  destruct (drawn_free srv_hash seed inc (hashes (cl_used cl)) Hh inc_ok) as (k & Hk & Hfree); [lia |].
  unfold zlen in Hl. destruct (draw_hash_ok rounds srv_hash c cl seed k) as (cl1 & s1 & -> & Hs1 & Hg1); [done | lia | done | lia | done |].
  pose proof Hg1 as (Hok1 & Hn1 & Hz1 & _). change (zlen [c]) with 1 in Hn1.
  destruct (IH cl1 s1) as (cl2 & s2 & -> & Hs2 & Hg2); [done | unfold zlen in *; lia | lia | lia | done |].
  exists cl2, s2. split; [done |]. split; [done |]. apply (grown_trans _ _ _ [c] cs Hg1 Hg2).
Qed.
End draw.

(** ** Groups *)

Record srv_ok (w : World) (i : nat) (s : TfwServer) : Prop := {
  so_addr : bytes_ok (sockaddr s) /\ 28 <= zlen (sockaddr s);
  so_conns : srv_conn_n s = zlen (conn_list s);
  so_peer : forall c, c ∈ conn_list s -> exists x, w_conns w !! c = Some x /\ peer x = i
}.

(** The servers of a group as the configuration sets them up. *)
Record group_ok (w : World) (srvs : list TfwServer) : Prop := {
  go_srvs : sg_srvs w = Some srvs;
  go_n : srv_n (w_sg w) = zlen (srv_list (w_sg w)) /\ srv_list (w_sg w) <> [];
  go_nodup : NoDup (srv_list (w_sg w));
  go_ok : forall k i s, srv_list (w_sg w) !! k = Some i -> srvs !! k = Some s -> srv_ok w i s
}.

Definition all_conns (srvs : list TfwServer) : list nat := concat (map conn_list srvs).

Lemma calc_srv_hash_ok s : bytes_ok (sockaddr s) -> 28 <= zlen (sockaddr s) ->
  exists h, __calc_srv_hash s = Ok h /\ 0 <= h < 2 ^ 64.
Proof.
  intros Hb Hl. unfold __calc_srv_hash, hash_calc. rewrite hash_calc_mix by (done || lia).
  eexists. split; [done | apply hash_64_range].
Qed.

Lemma add_servers_ok rounds inc srvs cl seed :
  0 < inc < 2 ^ 32 -> Forall (fun s => bytes_ok (sockaddr s) /\ 28 <= zlen (sockaddr s)) srvs ->
  cl_ok cl -> conn_n cl + zlen (all_conns srvs) <= zlen (conns cl) -> zlen (conns cl) < 2 ^ 32 ->
  zlen (conns cl) < Z.of_nat rounds -> 0 <= seed < 2 ^ 64 ->
  exists cl', add_servers rounds srvs cl seed inc = Ok cl' /\ grown cl cl' (all_conns srvs).
Proof.
  intros Hi Hsrv. revert cl seed. induction Hsrv as [|s srvs [Hb Hl] _ IH]; intros cl seed Hok Hcap Hmax Hr Hs; cbn [add_servers].
  { exists cl. split; [done |]. split_and!; [done | unfold all_conns, zlen; simpl; lia | done | done]. }
  unfold all_conns in Hcap |- *. cbn [map concat] in *. rewrite zlen_app in Hcap. fold (all_conns srvs) in *.
  pose proof (zlen_nonneg (all_conns srvs)).
  unfold tfw_sched_hash_add_conns. destruct (calc_srv_hash_ok s Hb Hl) as (h & -> & Hh).
  destruct (add_conns_loop_ok rounds inc Hi h (conn_list s) cl seed) as (cl1 & s1 & -> & Hs1 & Hg1); [done | done | lia | done | done | done |].
  pose proof Hg1 as (Hok1 & Hn1 & Hz1 & _).
  destruct (IH cl1 s1) as (cl2 & -> & Hg2); [done | lia | lia | lia | done |].
  exists cl2. split; [done |]. by eapply grown_trans.
Qed.

Lemma cl_alloc_ok n : 0 <= n -> cl_ok (cl_alloc n) /\ conn_n (cl_alloc n) = 0 /\ zlen (conns (cl_alloc n)) = n /\ cl_used (cl_alloc n) = [].
Proof.
  intros Hn. unfold cl_alloc, cl_used, zlen. simpl. rewrite length_replicate. split_and!; [| done | lia | done].
  split; [simpl; unfold zlen; rewrite length_replicate; lia | constructor | constructor].
Qed.

(** The part of a list that belongs to a server. *)
Definition of_srv (peers : nat -> option nat) (srv : nat) (hcs : list TfwHashConn) : list TfwHashConn :=
  filter (fun hc => peers (conn hc) = Some srv) hcs.

Lemma fill_list_ok peers srv hcs scl :
  0 <= conn_n scl -> conn_n scl + zlen (of_srv peers srv hcs) <= zlen (conns scl) ->
  (forall hc, hc ∈ hcs -> is_Some (peers (conn hc))) ->
  exists scl', fill_list peers srv hcs scl = Ok scl' /\ cl_used scl' = cl_used scl ++ of_srv peers srv hcs
    /\ conn_n scl' = conn_n scl + zlen (of_srv peers srv hcs) /\ zlen (conns scl') = zlen (conns scl).
Proof.
  revert scl. induction hcs as [|hc hcs IH]; intros scl Hn Hcap Hp; cbn [fill_list].
  { exists scl. rewrite app_nil_r. split_and!; [done | done | unfold zlen; simpl; lia | done]. }
  destruct (Hp hc) as [p Ep]; [left |]. rewrite Ep. unfold of_srv in *. rewrite filter_cons, Ep in Hcap |- *.
  assert (Hp' : forall hc, hc ∈ hcs -> is_Some (peers (conn hc))) by (intros; apply Hp; by right).
  destruct (Nat.eqb_spec p srv) as [-> | Hne].
  - rewrite decide_True in Hcap |- * by done. unfold zlen in Hcap. cbn [length] in Hcap.
    destruct (array_insert_used (conns scl) (conn_n scl) (conn_n scl) hc) as (a & Ea & Hl & Ha);
      [lia | unfold zlen; lia |]. rewrite Z.sub_diag in Ea. rewrite Ea.
    destruct (IH (MkCl (conn_n scl + 1) a)) as (scl' & -> & Hu & Hn' & Hz'); [simpl; lia | simpl; unfold zlen in *; lia | done |].
    exists scl'. split; [done |]. split_and!.
    + rewrite Hu. unfold cl_used at 1. cbn [conn_n conns]. rewrite Ha, take_take, Nat.min_id. fold (cl_used scl).
      rewrite (drop_ge (cl_used scl)) by (unfold cl_used; rewrite length_take; lia). by rewrite <- app_assoc.
    + rewrite Hn'. simpl. unfold zlen. cbn [length]. lia.
    + simpl in Hz'. lia.
  - rewrite decide_False in Hcap |- * by (intros ?; simplify_eq). by apply IH.
Qed.

(** Part of a sorted list. *)
Lemma of_srv_sorted peers srv l : StronglySorted Z.lt (hashes l) -> StronglySorted Z.lt (hashes (of_srv peers srv l)).
Proof.
  induction l as [|x l IH]; intros H; [done |]. unfold hashes in H. cbn [map] in H.
  apply StronglySorted_inv in H as [H Hx]. rewrite Forall_forall in Hx. unfold of_srv in *.
  rewrite filter_cons. destruct (decide _); [| by apply IH]. constructor; [by apply IH |].
  apply Forall_map, Forall_forall. intros y [_ Hy]%list_elem_of_filter. by apply Hx, list_elem_of_fmap_2.
Qed.

(** The list that a server gets from the list of its group. *)
Definition srv_part (w : World) (cl : TfwHashConnList) (i : nat) (scl : TfwHashConnList) : Prop :=
  cl_ok scl /\ cl_used scl = of_srv (fun c => peer <$> w_conns w !! c) i (cl_used cl).

Lemma fill_srv_lists_ok cl blk w : cl_ok cl ->
  forall (srv_cls : list (nat * TfwHashConnList)) w0, w_conns w0 = w_conns w -> NoDup (map fst srv_cls) ->
  (forall i, i ∈ map fst srv_cls -> is_Some (w_srvs w0 !! i)) ->
  (forall hc, hc ∈ cl_used cl -> is_Some (w_conns w !! conn hc)) ->
  (forall i scl, (i, scl) ∈ srv_cls ->
     conn_n scl = 0 /\ zlen (of_srv (fun c => peer <$> w_conns w !! c) i (cl_used cl)) <= zlen (conns scl)) ->
  exists w', __fill_srv_lists cl blk srv_cls w0 = Ok w'
    /\ w_conns w' = w_conns w /\ w_sg w' = w_sg w0 /\ w_live w' = w_live w0
    /\ (forall i, i ∉ map fst srv_cls -> w_srvs w' !! i = w_srvs w0 !! i)
    /\ (forall i, i ∈ map fst srv_cls -> exists s scl, w_srvs w0 !! i = Some s
          /\ w_srvs w' !! i = Some (set_srv_data (Some (InGroup blk scl)) s) /\ srv_part w cl i scl).
Proof.
  intros Hok srv_cls. induction srv_cls as [|[i scl] srv_cls IH]; intros w0 Hc Hnd Hs Hk Hl; cbn [__fill_srv_lists].
  { exists w0. split_and!; try done. intros i Hi. by apply elem_of_nil in Hi. }
  apply NoDup_cons in Hnd as [Hni Hnd]. fold (map fst srv_cls) in *.
  destruct (Hl i scl) as [H0 Hcap]; [left |]. destruct (Hs i) as [s Es]; [left |]. rewrite Hc, Es.
  destruct (fill_list_ok (fun c => peer <$> w_conns w !! c) i (cl_used cl) scl) as (scl' & -> & Hu & Hn' & Hz');
    [lia | lia | intros hc Hhc; apply fmap_is_Some; by apply Hk |].
  assert (Eu : cl_used scl' = of_srv (fun c => peer <$> w_conns w !! c) i (cl_used cl)).
  { rewrite Hu. unfold cl_used at 1. by rewrite H0. }
  destruct (IH (set_w_srvs (<[i := set_srv_data (Some (InGroup blk scl')) s]> (w_srvs w0)) w0)) as (w' & -> & Hc' & Hg' & Hlv' & Hout & Hin).
  { done. } { done. }
  { intros k Hk1. simpl. destruct (decide (k = i)) as [-> |]; [done |]. rewrite list_lookup_insert_ne by done. apply Hs. by right. }
  { done. } { intros k l Hkl. apply Hl. by right. }
  exists w'. split_and!; [done | done | done | done | |].
  - intros k [Hne Hk1]%not_elem_of_cons. rewrite Hout by done. simpl. by rewrite list_lookup_insert_ne.
  - intros k [-> | Hk1]%elem_of_cons.
    + exists s, scl'. split; [done |]. split.
      * rewrite Hout by done. simpl. rewrite list_lookup_insert_eq; [done | by eapply lookup_lt_Some].
      * split; [| done]. split; [rewrite Hn', Hz'; unfold zlen in *; lia | | ]; rewrite Eu.
        -- apply of_srv_sorted, Hok.
        -- apply Forall_map, Forall_forall. intros y [_ Hy]%list_elem_of_filter. destruct Hok as [_ _ Hr].
           unfold hashes in Hr. rewrite Forall_map, Forall_forall in Hr. by apply Hr.
    + destruct (Hin k Hk1) as (t & tcl & Et & Et' & Hp). exists t, tcl. simpl in Et.
      rewrite list_lookup_insert_ne in Et by (intros ->; done). done.
Qed.

Lemma filter_none {A} (P : A -> Prop) `{!forall x, Decision (P x)} (l : list A) : (forall x, x ∈ l -> ~ P x) -> filter P l = [].
Proof.
  induction l as [|x l IH]; intros Ha; [done |]. rewrite filter_cons, decide_False by (apply Ha; left).
  apply IH. intros y Hy. apply Ha. by right.
Qed.

Lemma filter_every {A} (P : A -> Prop) `{!forall x, Decision (P x)} (l : list A) : (forall x, x ∈ l -> P x) -> filter P l = l.
Proof.
  induction l as [|x l IH]; intros Ha; [done |]. rewrite filter_cons, decide_True by (apply Ha; left).
  f_equal. apply IH. intros y Hy. apply Ha. by right.
Qed.

(** The connections of the servers are disjoint, as each has one peer. *)
Lemma filter_all_conns w idx srvs k i s :
  NoDup idx -> length idx = length srvs ->
  (forall k i s, idx !! k = Some i -> srvs !! k = Some s -> srv_ok w i s) ->
  idx !! k = Some i -> srvs !! k = Some s ->
  filter (fun c => peer <$> w_conns w !! c = Some i) (all_conns srvs) = conn_list s.
Proof.
  revert srvs k. induction idx as [|i0 idx IH]; intros [|s0 srvs] k Hnd Hl Hok Hi Hs; try done.
  apply NoDup_cons in Hnd as [Hni Hnd]. unfold all_conns in *. cbn [map concat] in *. rewrite filter_app.
  assert (Hh : forall c, c ∈ conn_list s0 -> peer <$> w_conns w !! c = Some i0).
  { intros c Hc. destruct (so_peer _ _ _ (Hok 0%nat i0 s0 eq_refl eq_refl) c Hc) as (x & -> & <-). done. }
  destruct k as [|k]; cbn in Hi, Hs.
  - simplify_eq. rewrite filter_every by done. rewrite filter_none; [apply app_nil_r |].
    intros c Hcc E. apply list_elem_of_In, in_concat in Hcc as (l & Hl1 & Hc). apply list_elem_of_In, list_elem_of_fmap in Hl1 as (s1 & -> & Hs1).
    apply list_elem_of_In in Hc. apply list_elem_of_lookup in Hs1 as [m Hm].
    destruct (lookup_lt_is_Some_2 idx m) as [i1 Hi1]; [apply lookup_lt_Some in Hm; simpl in Hl; lia |].
    destruct (so_peer _ _ _ (Hok (S m) i1 s1 Hi1 Hm) c Hc) as (x & Hx & Hp). rewrite Hx in E. simpl in E.
    apply Hni. replace i with i1 by congruence. by eapply list_elem_of_lookup_2.
  - rewrite filter_none.
    + simpl. apply (IH srvs k); [done | simpl in Hl; lia | | done | done].
      intros m a b Ha Hb. by apply (Hok (S m)).
    + intros c Hc E. rewrite Hh in E by done. simplify_eq. apply Hni. by eapply list_elem_of_lookup_2.
Qed.

Lemma sum_conn_n w idx srvs : length idx = length srvs ->
  (forall k i s, idx !! k = Some i -> srvs !! k = Some s -> srv_ok w i s) ->
  foldr (fun s z => srv_conn_n s + z) 0 srvs = zlen (all_conns srvs).
Proof.
  revert srvs. induction idx as [|i idx IH]; intros [|s srvs] Hl Hok; try done.
  unfold all_conns. cbn [map concat foldr]. rewrite zlen_app. fold (all_conns srvs).
  rewrite (so_conns _ _ _ (Hok 0%nat i s eq_refl eq_refl)), (IH srvs); [done | by simplify_eq/= |].
  intros k a b Ha Hb. by apply (Hok (S k)).
Qed.

Lemma of_srv_conns w i l :
  map conn (of_srv (fun c => peer <$> w_conns w !! c) i l) = filter (fun c => peer <$> w_conns w !! c = Some i) (map conn l).
Proof.
  induction l as [|x l IH]; [done |]. unfold of_srv in *. cbn [map]. rewrite !filter_cons. destruct (decide _); simpl; by rewrite IH.
Qed.

Lemma fresh_blk_live w : fresh_blk w ∉ w_live w.
Proof.
  unfold fresh_blk. intros H. enough (forall l b, b ∈ l -> (b <= foldr Nat.max 0 l)%nat) as Hm by (apply Hm in H; lia).
  clear. intros l b. induction l as [|x l IH]; [by intros ?%elem_of_nil |]. intros [-> | Hb]%elem_of_cons; simpl; [lia |].
  specialize (IH Hb). lia.
Qed.

Lemma group_known w srvs c : group_ok w srvs -> c ∈ all_conns srvs -> known w c.
Proof.
  intros [Hm [_ _] _ Hok] Hcc. apply list_elem_of_In, in_concat in Hcc as (l & Hl & Hc). apply mapM_Some_1 in Hm.
  apply list_elem_of_In, list_elem_of_fmap in Hl as (s & -> & Hs). apply list_elem_of_In in Hc.
  apply list_elem_of_lookup in Hs as [k Hk]. destruct (Forall2_lookup_r _ _ _ _ _ Hm Hk) as (i & Hi & Hw).
  destruct (so_peer _ _ _ (Hok k i s Hi Hk) c Hc) as (x & Hx & <-). by exists x, s.
Qed.

(** The connections of one server in the list of its group. *)
Lemma srv_conns_part w srvs cl k i s :
  group_ok w srvs -> map conn (cl_used cl) ≡ₚ all_conns srvs ->
  srv_list (w_sg w) !! k = Some i -> srvs !! k = Some s ->
  map conn (of_srv (fun c => peer <$> w_conns w !! c) i (cl_used cl)) ≡ₚ conn_list s.
Proof.
  intros [Hm _ Hnd Hok] Hp Hi Hs. rewrite of_srv_conns, Hp.
  rewrite (filter_all_conns w (srv_list (w_sg w)) srvs k i s); try done.
  by apply mapM_Some_1, Forall2_length in Hm.
Qed.

(** The lists of the servers that are allocated in the block are long enough. *)
Lemma srv_cls_fit w srvs cl i scl :
  group_ok w srvs -> map conn (cl_used cl) ≡ₚ all_conns srvs ->
  (i, scl) ∈ zip (srv_list (w_sg w)) (map (fun s => cl_alloc (srv_conn_n s)) srvs) ->
  conn_n scl = 0 /\ zlen (of_srv (fun c => peer <$> w_conns w !! c) i (cl_used cl)) <= zlen (conns scl).
Proof.
  intros Hg Hp [k Hk]%list_elem_of_lookup. apply lookup_zip_with_Some in Hk as (i' & scl' & E & Hki & Hkc). simplify_eq.
  apply list_lookup_fmap_Some in Hkc as (s & -> & Hks). pose proof (srv_conns_part w srvs cl k i' s Hg Hp Hki Hks) as Hpp.
  pose proof (so_conns _ _ _ (go_ok _ _ Hg k i' s Hki Hks)) as Hsc.
  destruct (cl_alloc_ok (srv_conn_n s)) as (_ & ? & -> & _); [rewrite Hsc; apply zlen_nonneg |].
  split; [done |]. apply Permutation_length in Hpp. rewrite length_map in Hpp. unfold zlen in *. lia.
Qed.

(** C29: For a group whose servers and connections are set up, with fewer than 2^32 connections, a failed
    allocation is reported and changes nothing; with memory and a random increment that is not zero, building
    the scheduler data ends (the loop that draws hashes needs at most one round more
    than there are connections), writes inside the allocated arrays, and gives an array strictly sorted
    by hash in which every connection of the group occurs exactly once; every server gets the part of it with its
    own connections, and the block is new.  With the increment zero, which the random number may be, the loop never ends,
    see [zero_increment_never_ends]. *)
Theorem sched_hash_build (w : World) (srvs : list TfwServer) (rounds : nat) (seed inc : Z) :
  group_ok w srvs -> 0 <= seed < 2 ^ 64 -> 0 < inc < 2 ^ 32 ->
  zlen (all_conns srvs) < 2 ^ 32 -> zlen (all_conns srvs) < Z.of_nat rounds ->
  (forall mem_cl mem_srv, mem_cl && mem_srv = false ->
     tfw_sched_hash_add_grp rounds seed inc mem_cl mem_srv w = Ok (- ENOMEM, w)) /\
  exists w' blk cl, tfw_sched_hash_add_grp rounds seed inc true true w = Ok (0, w')
    /\ sg_sched_data (w_sg w') = Some (blk, cl) /\ w_live w' = blk :: w_live w /\ blk ∉ w_live w
    /\ cl_ok cl /\ map conn (cl_used cl) ≡ₚ all_conns srvs
    /\ w_conns w' = w_conns w /\ (forall x, x ∈ cl_used cl -> known w' (conn x))
    /\ forall k i s, srv_list (w_sg w) !! k = Some i -> srvs !! k = Some s ->
       exists scl, w_srvs w' !! i = Some (set_srv_data (Some (InGroup blk scl)) s)
         /\ srv_part w cl i scl /\ map conn (cl_used scl) ≡ₚ conn_list s.
Proof.
  intros Hg Hs Hi Hmax Hr. pose proof Hg as [Hm [Hn Hne] Hnd Hok]. unfold tfw_sched_hash_add_grp. cbv zeta.
  pose proof (mapM_Some_1 _ _ _ Hm) as Hf. pose proof (Forall2_length _ _ _ Hf) as Hl.
  assert (Hl0 : length (srv_list (w_sg w)) <> 0%nat) by (by destruct (srv_list (w_sg w))).
  rewrite (proj2 (Z.eqb_neq _ _)) by (unfold zlen in Hn; lia). rewrite (proj2 (Nat.eqb_neq _ _) Hl0). cbn [orb negb].
  rewrite Hm. split; [by intros [] [] |]. cbn [negb]. rewrite (proj2 (Z.eqb_eq (srv_n (w_sg w)) (zlen srvs))) by (unfold zlen in *; lia). cbn [negb].
  rewrite (sum_conn_n w (srv_list (w_sg w))) by done.
  destruct (cl_alloc_ok (zlen (all_conns srvs))) as (Hal & Hal0 & Halz & Halu); [apply zlen_nonneg |].
  destruct (add_servers_ok rounds inc srvs (cl_alloc (zlen (all_conns srvs))) seed) as (cl & -> & Hok1 & Hn1 & Hz1 & Hp1);
    [done | | done | lia | lia | lia | done |].
  { apply Forall_lookup. intros k s Hk. destruct (Forall2_lookup_r _ _ _ _ _ Hf Hk) as (i & Hik & _). apply (so_addr _ _ _ (Hok k i s Hik Hk)). }
  rewrite Halu, app_nil_r in Hp1.
  assert (Hkn : forall x, x ∈ cl_used cl -> known w (conn x)).
  { intros x Hx. apply (group_known w srvs); [done |]. rewrite <- Hp1. by apply list_elem_of_fmap_2. }
  set (cls := map (fun s => cl_alloc (srv_conn_n s)) srvs).
  assert (Efst : map fst (zip (srv_list (w_sg w)) cls) = srv_list (w_sg w)).
  { apply fst_zip. unfold cls. rewrite length_map. lia. }
  destruct (fill_srv_lists_ok cl (fresh_blk w) w Hok1 (zip (srv_list (w_sg w)) cls) w)
    as (w' & -> & Hc' & Hg' & Hlv' & Hout & Hin); [done | by rewrite Efst | | | |].
  { rewrite Efst. intros i [k Hk]%list_elem_of_lookup. destruct (Forall2_lookup_l _ _ _ _ _ Hf Hk) as (s & _ & Hw). by exists s. }
  { intros hc Hhc. destruct (Hkn hc Hhc) as (x & _ & Hx & _). by exists x. }
  { intros i scl Hin. by eapply srv_cls_fit. }
  rewrite Efst in Hin. eexists _, (fresh_blk w), cl. split; [done |]. cbn.
  split_and!; [done | by rewrite Hlv' | apply fresh_blk_live | done | done | done | |].
  - intros x Hx. destruct (Hkn x Hx) as (y & s & Hy & Hsy). exists y. cbn. rewrite Hc'.
    destruct (decide (peer y ∈ srv_list (w_sg w))) as [Hin1 | Hni1].
    + destruct (Hin _ Hin1) as (s1 & scl & _ & E & _). eauto.
    + exists s. rewrite Hout by (by rewrite Efst). done.
  - intros k i s Hki Hks. destruct (Hin i) as (s1 & scl & E1 & E2 & Hp); [by eapply list_elem_of_lookup_2 |].
    exists scl. pose proof (Forall2_lookup_lr _ _ _ _ _ _ Hf Hki Hks) as Ew. cbn in Ew. rewrite Ew in E1. simplify_eq. split; [done |]. split; [done |].
    destruct Hp as [_ ->]. by eapply srv_conns_part.
Qed.

(** ** Examples *)

Definition ex_sa (last : Z) : bytes := [10; 0; 0; 80] ++ replicate 23 0 ++ [last].

(** Two servers with two connections and one. *)
Definition ex_w : World :=
  MkWorld [MkConn 0 false 0 0 1; MkConn 0 false 0 9 1; MkConn 1 false 0 0 0]
    [MkSrv (ex_sa 1) false [0%nat; 1%nat] 2 None; MkSrv (ex_sa 2) false [2%nat] 1 None]
    (MkSg [0%nat; 1%nat] 2 5 None) [].

Definition ex_cl : TfwHashConnList := MkCl 3 [MkHConn 10 1; MkHConn 100 0; MkHConn 200 2; MkHConn 0 0].

(** A request with the key whose complement is [b]. *)
Definition ex_hreq (b : Z) : HashReq := MkHReq (Z.lxor ULONG_MAX b) str_init str_init false.

(** The same group later: connection 2 has got a reference, but its queue is full. *)
Definition ex_w2 : World :=
  MkWorld [MkConn 0 false 0 0 3; MkConn 0 false 0 9 1; MkConn 1 false 0 5 1] (w_srvs ex_w) (w_sg ex_w) [].

Lemma ex_known w :
  forallb (fun i => match w_conns w !! i with
                    | Some c => bool_decide (is_Some (w_srvs w !! peer c))
                    | None => false end) [0; 1; 2]%nat = true ->
  forall x, x ∈ cl_used ex_cl -> known w (conn x).
Proof.
  intros H x Hx. rewrite forallb_forall in H. specialize (H (conn x)). unfold known.
  destruct (w_conns w !! conn x) as [c |].
  - apply bool_decide_eq_true in H as [s Hs]; [eauto |].
    vm_compute in Hx. repeat (apply elem_of_cons in Hx as [-> | Hx]; [simpl; tauto |]). by apply elem_of_nil in Hx.
  - discriminate H. vm_compute in Hx.
    repeat (apply elem_of_cons in Hx as [-> | Hx]; [simpl; tauto |]). by apply elem_of_nil in Hx.
Qed.

Lemma ex_cl_ok : cl_ok ex_cl.
Proof.
  split; [vm_compute; split; discriminate | |]; change (hashes (cl_used ex_cl)) with [10; 100; 200].
  - repeat (apply SSorted_cons; [| repeat (apply Forall_cons; split; [lia |]); by apply Forall_nil]). apply SSorted_nil.
  - repeat (apply Forall_cons; split; [lia |]). by apply Forall_nil.
Qed.

Lemma ex_hreq_ok : req_ok (ex_hreq 11).
Proof.
  split; [vm_compute; split; [discriminate | reflexivity] | | by left].
  split; [split; [reflexivity | by right | | reflexivity | reflexivity] |].
  - apply Forall_cons. split; [| by apply Forall_nil]. split; [reflexivity | vm_compute; split; discriminate].
  - apply Forall_cons. split; [by apply Forall_nil | by apply Forall_nil].
Qed.

(** With the key whose complement is 11 the connections are tried from the hash 100 on; connection 0 is taken, and a
    request with the same key goes there again although another connection became unsuitable. *)
Lemma sched_hash_choice_witness :
  key_order ex_cl (Z.lxor ULONG_MAX 11) = [MkHConn 100 0; MkHConn 10 1; MkHConn 200 2]
  /\ __find_best_conn 0 (ex_hreq 11) ex_cl ex_w = Ok ((Some 0%nat, ex_hreq 11), take_ref (Some 0%nat) ex_w)
  /\ __find_best_conn 7 (ex_hreq 11) ex_cl ex_w2 = Ok ((Some 0%nat, ex_hreq 11), take_ref (Some 0%nat) ex_w2).
Proof.
  split; [vm_compute; reflexivity |].
  destruct (sched_hash_choice ex_cl (ex_hreq 11) ex_cl_ok ex_hreq_ok) as (k & r' & Ek & _ & Hc).
  pose proof Ek as Ek0. vm_compute in Ek. injection Ek as <- <-.
  destruct Hc as (_ & _ & _ & _ & Hf); [left; vm_compute; discriminate |].
  destruct (Hf 0 ex_w (ex_known ex_w eq_refl)) as (c & E & Hc & _ & Hx).
  assert (Hc0 : c = Some 0%nat) by (rewrite Hc; vm_compute; reflexivity). rewrite Hc0 in E. split; [exact E |].
  destruct (Hx 0%nat Hc0) as [_ Hagain].
  apply Hagain; [exact ex_hreq_ok | exact Ek0 | reflexivity | exact (ex_known ex_w2 eq_refl) | reflexivity |].
  intros y Hy. destruct y as [|[|[|y]]]; [reflexivity | discriminate Hy | discriminate Hy | discriminate Hy].
Defined.

Lemma ex_group_ok : group_ok ex_w (w_srvs ex_w).
Proof.
  split; [reflexivity | split; [reflexivity | discriminate] | repeat constructor; set_solver |].
  intros k i s Hi Hs. destruct k as [|[|k]]; [| | done]; cbn in Hi, Hs; simplify_eq.
  - split; [split; [by apply bytes_okb | done] | done |]. intros c Hc. cbn in Hc. set_unfold in Hc.
    destruct Hc as [-> | [-> | []]]; eexists; split; reflexivity.
  - split; [split; [by apply bytes_okb | done] | done |]. intros c Hc. cbn in Hc. set_unfold in Hc.
    destruct Hc as [-> | []]; eexists; split; reflexivity.
Qed.

Lemma sched_hash_build_witness :
  exists w' blk cl, tfw_sched_hash_add_grp 4 77 3 true true ex_w = Ok (0, w')
    /\ sg_sched_data (w_sg w') = Some (blk, cl) /\ cl_ok cl /\ map conn (cl_used cl) ≡ₚ [0; 1; 2]%nat.
Proof.
  destruct (sched_hash_build ex_w (w_srvs ex_w) 4 77 3 ex_group_ok) as (_ & w' & blk & cl & E & Hd & _ & _ & Hok & Hp & _);
    [lia | lia | reflexivity | reflexivity |].
  exists w', blk, cl. split; [exact E |]. split; [exact Hd |]. split; [exact Hok | exact Hp].
Defined.

(** ** Defects *)

(** The increment is a random number and may be zero: then the second connection of a server draws the
    same hash for ever. *)
Theorem zero_increment_never_ends (rounds : nat) (h seed : Z) (c1 c2 : nat) :
  0 <= seed < 2 ^ 64 -> add_conns_loop rounds h [c1; c2] (cl_alloc 2) seed 0 = Bug.
Proof.
  intros Hs. set (x := __hash_64 (Z.lxor h seed)).
  assert (Hseed : u64 (seed + 0) = seed) by (rewrite Z.add_0_r; by apply u64_small).
  assert (Hloop : forall n, draw_hash n h c2 (MkCl 1 [MkHConn x c1; MkHConn 0 0]) seed 0 = Bug).
  { induction n as [|n IH]; [done |]. cbn [draw_hash]. cbv zeta. fold x. rewrite Hseed.
    unfold __add_conn. cbn [conn_n conns]. change (1 =? 0) with false. cbv iota.
    change (__bsearch x (MkCl 1 [MkHConn x c1; MkHConn 0 0])) with (@Ok Z 0). cbv iota beta.
    change (conns_at (MkCl 1 [MkHConn x c1; MkHConn 0 0]) 0) with (Some (MkHConn x c1)). cbv iota beta.
    cbn [hash]. rewrite Z.eqb_refl. change (negb (- EEXIST =? 0)) with true. cbv iota. exact IH. }
  cbn [add_conns_loop]. destruct rounds as [|n]; [done |].
  assert (draw_hash (S n) h c1 (cl_alloc 2) seed 0 = Ok (MkCl 1 [MkHConn x c1; MkHConn 0 0], seed)) as ->.
  { cbn [draw_hash]. cbv zeta. fold x. by rewrite Hseed. }
  by rewrite Hloop.
Qed.

(** [ULONG_MAX] marks an exhausted side, but it is also the distance of the hashes 0 and [ULONG_MAX]: with all
    smaller hashes tried, element -1 of the array is read. *)
Theorem sentinel_is_a_distance :
  let cl := MkCl 2 [MkHConn 5 2; MkHConn ULONG_MAX 0] in
  __find_best_conn 0 (ex_hreq 0) cl ex_w = Bug.
Proof. vm_compute. reflexivity. Qed.

(** The connection tried first is neither the one with the closest hash nor the one with the highest weight: for a
    key with complement 11 the hash 100 is preferred to the hash 10. *)
Theorem not_highest_weight :
  let key := Z.lxor ULONG_MAX 11 in
  __bsearch 11 ex_cl = Ok 1 /\ hash <$> conns_at ex_cl 1 = Some 100 /\ hash <$> conns_at ex_cl 0 = Some 10
  /\ Z.abs (10 - 11) < Z.abs (100 - 11) /\ Z.lxor key 100 < Z.lxor key 10.
Proof. vm_compute. repeat split. Qed.
