(* ===== verification/Gfsm.v ===== *)
(** * The generic FSM

    [fw/gfsm.c] calls the modules that process a connection (HTTP, TLS, the limits of
    Frang): each is an FSM with a handler, an FSM hooks on states of others, and moving
    to a state runs the FSMs that are hooked there.  [TfwGState] keeps the states of all FSMs of a
    connection in an array of eight words of 14 bits.

    A handler is a program [hprog]: it does its own work on the world [W], moves its FSM with
    [tfw_gfsm_move()] and looks at the result, any number of times.  Handlers call the engine, which
    calls handlers: [gfsm_exec] has the depth of this nesting as fuel.  The theorem
    [gfsm_refines] says that the engine behaves as the simple machine [a_exec] on a finite map from FSMs to
    their states and that the nesting is never deeper than the number of FSMs. *)

From Stdlib Require Import Sorted.
From S2P Require Import Prelude.

#[local] Open Scope Z_scope.

(** ** Data *)

Definition ENOENT : Z := 2.
Definition EBUSY : Z := 16.

Definition TFW_GFSM_STATE_N : Z := 32.
Definition TFW_GFSM_STATE_MASK : Z := 31.
Definition TFW_GFSM_STATE_LAST : Z := TFW_GFSM_STATE_MASK.
Definition TFW_GFSM_PRIO_N : Z := 16.
Definition TFW_GFSM_FSM_MASK : Z := 15.
Definition TFW_GFSM_FSM_SHIFT : Z := 9.
Definition TFW_GFSM_ONSTACK : Z := Z.shiftl 1 13.
Definition TFW_GFSM_FSM_NUM : nat := 8.
Definition TFW_FSM_NUM : Z := 5.

Definition TFW_GFSM_HOOK_PRIORITY_HIGH : Z := 0.
Definition TFW_GFSM_HOOK_PRIORITY_NUM : Z := TFW_GFSM_PRIO_N.
Definition TFW_GFSM_HOOK_PRIORITY_ANY : Z := TFW_GFSM_HOOK_PRIORITY_NUM.

Definition GFSM_PASS : Z := 0.
Definition GFSM_BLOCK : Z := -2.
Definition GFSM_POSTPONE : Z := -1.

Definition BAD_STATE : Z := 0xffff.

(** Arrays with an index of any sign. *)
Definition zget {A} (l : list A) (i : Z) : option A := if i <? 0 then None else l !! Z.to_nat i.
Definition zset {A} (l : list A) (i : Z) (v : A) : outcome (list A) :=
  if (0 <=? i) && (i <? zlen l) then Ok (<[Z.to_nat i := v]> l) else Bug.

(** Tables with two indices. *)
Definition get2 {A} (t : list (list A)) (i j : Z) : option A := zget t i ≫= fun l => zget l j.
Definition upd2 {A} (t : list (list A)) (i j : Z) (v : A) : outcome (list (list A)) :=
  let? l := zget t i in
  let! l := zset l j v in
  zset t i l.

Record TfwFsmHook := MkHook { st0 : Z; fsm_id : Z }.

(** [curr] is a [char]. *)
Record TfwGState := MkGState { curr : Z; states : list Z }.

(** What a handler does between its calls of [tfw_gfsm_move()]; the data and the object are in [W]. *)
Inductive hprog (W : Type) :=
| HRet (r : Z) (w : W)
| HMove (state : Z) (w : W) (k : Z -> W -> hprog W).
Arguments HRet {W}.
Arguments HMove {W}.

Record GfsmTables (W : Type) := MkTables {
  fsm_htbl : list (option (W -> hprog W));
  fsm_hooks : list (list TfwFsmHook);
  fsm_hooks_bm : list (list Z)
}.
Arguments MkTables {W}.
Arguments fsm_htbl {W}.
Arguments fsm_hooks {W}.
Arguments fsm_hooks_bm {W}.

Definition gfsm_init {W} : GfsmTables W :=
  MkTables (replicate 5 None) (replicate 5 (replicate 512 (MkHook 0 0))) (replicate 5 (replicate 16 0)).

(** ** Words *)

Definition __GFSM_FSM (s : Z) : Z := Z.land (Z.shiftr s TFW_GFSM_FSM_SHIFT) TFW_GFSM_FSM_MASK.

(** [FSM_STATE(s)]: the index is the [unsigned char] of [curr]. *)
Definition FSM_STATE (st : TfwGState) : option Z := zget (states st) (u8 (curr st)).
Definition set_FSM_STATE (v : Z) (st : TfwGState) : outcome TfwGState :=
  let! l := zset (states st) (u8 (curr st)) (u16 v) in Ok (MkGState (curr st) l).

Definition s8 (z : Z) : Z := (z + 128) mod 256 - 128.

(** ** States of a connection *)

Definition tfw_gfsm_state_init (cur st0 : Z) : outcome TfwGState :=
  set_FSM_STATE st0 (MkGState cur (replicate TFW_GFSM_FSM_NUM BAD_STATE)).

(** The index of the FSM or -1, and the first free slot. *)
Fixpoint fsm_lookup_loop (l : list Z) (i fsm free_slot : Z) : Z * Z :=
  match l with
  | [] => (-1, free_slot)
  | s :: l =>
      if __GFSM_FSM s =? fsm then (i, free_slot)
      else fsm_lookup_loop l (i + 1) fsm (if (free_slot =? -1) && (s =? BAD_STATE) then i else free_slot)
  end.

Definition __gfsm_fsm_lookup (st : TfwGState) (fsm : Z) : Z * Z := fsm_lookup_loop (states st) 0 fsm (-1).

(** ** The engine *)

Section engine.
Context {W : Type} (T : GfsmTables W).

Definition hook_at (fsm shift : Z) : option TfwFsmHook := get2 (fsm_hooks T) fsm shift.
Definition bm_at (fsm prio : Z) : option Z := get2 (fsm_hooks_bm T) fsm prio.

Definition tfw_gfsm_switch (st : TfwGState) (state prio : Z) : outcome (Z * TfwGState) :=
  let shift := prio * TFW_GFSM_STATE_N + Z.land state TFW_GFSM_STATE_MASK in
  let fsm_curr := Z.shiftr state TFW_GFSM_FSM_SHIFT in
  let? h := hook_at fsm_curr shift in
  let fsm_next := fsm_id h in
  let '(i, free_slot) := __gfsm_fsm_lookup st fsm_next in
  if i <? 0 then
    if free_slot <? 0 then Bug
    else let! st := set_FSM_STATE (st0 h) (MkGState free_slot (states st)) in Ok (fsm_next, st)
  else Ok (fsm_next, MkGState i (states st)).

Section with_exec.
Variable exec : TfwGState -> Z -> W -> outcome (Z * TfwGState * W).

(** The loop of [tfw_gfsm_move()] over the priorities [ps]. *)
Fixpoint move_loop (ps : list Z) (hooks : list Z) (mask : Z) (state : Z) (st : TfwGState) (w : W) (r : Z)
    : outcome (Z * TfwGState * W) :=
  match ps with
  | [] => Ok (r, st, w)
  | p :: ps =>
      let? bm := zget hooks p in
      if Z.land bm mask =? 0 then Ok (r, st, w)
      else
        let! (fsm, st) := tfw_gfsm_switch st state p in
        let? s := FSM_STATE st in
        if has_flag s TFW_GFSM_ONSTACK then move_loop ps hooks mask state st w r
        else
          let! (x, st, w) := exec st fsm w in
          if x =? GFSM_BLOCK then Ok (GFSM_BLOCK, st, w)
          else move_loop ps hooks mask state st w (if x =? GFSM_POSTPONE then GFSM_POSTPONE else r)
  end.

Definition tfw_gfsm_move (st : TfwGState) (state : Z) (w : W) : outcome (Z * TfwGState * W) :=
  let? s := FSM_STATE st in
  let? hooks := zget (fsm_hooks_bm T) (__GFSM_FSM s) in
  let mask := u64 (s32 (Z.shiftl 1 (Z.land state TFW_GFSM_STATE_MASK))) in
  let curr_st := u8 (curr st) in
  let! st := set_FSM_STATE (Z.lor (Z.land s (Z.lnot TFW_GFSM_STATE_MASK)) (Z.land state TFW_GFSM_STATE_MASK)) st in
  let! (r, st, w) := move_loop (seqZ TFW_GFSM_HOOK_PRIORITY_HIGH TFW_GFSM_HOOK_PRIORITY_NUM) hooks mask state st w GFSM_PASS in
  Ok (r, MkGState (s8 curr_st) (states st), w).

(** A handler runs. *)
Fixpoint run_handler (h : hprog W) (st : TfwGState) : outcome (Z * TfwGState * W) :=
  match h with
  | HRet r w => Ok (r, st, w)
  | HMove state w k =>
      let! (r, st, w) := tfw_gfsm_move st (u16 state) w in
      run_handler (k r w) st
  end.

Definition __gfsm_fsm_exec (st : TfwGState) (fsm : Z) (w : W) : outcome (Z * TfwGState * W) :=
  let slot := (__gfsm_fsm_lookup st fsm).1 in
  if slot <? 0 then Bug
  else
    let st := MkGState slot (states st) in
    let? s := FSM_STATE st in
    let! st := set_FSM_STATE (Z.lor s TFW_GFSM_ONSTACK) st in
    let? handler := zget (fsm_htbl T) fsm in
    let? h := handler in
    let! (r, st, w) := run_handler (h w) st in
    let? s := zget (states st) slot in
    if Z.land s TFW_GFSM_STATE_MASK =? TFW_GFSM_STATE_LAST then
      let! st := set_FSM_STATE BAD_STATE st in
      Ok (r, MkGState (-1) (states st), w)
    else
      let! l := zset (states st) slot (u16 (Z.land s (Z.lnot TFW_GFSM_ONSTACK))) in
      Ok (r, MkGState (curr st) l, w).
End with_exec.

(** Nested execution, at most [depth] handlers deep. *)
Fixpoint gfsm_exec (depth : nat) (st : TfwGState) (fsm : Z) (w : W) : outcome (Z * TfwGState * W) :=
  match depth with
  | O => Bug
  | S depth => __gfsm_fsm_exec (gfsm_exec depth) st fsm w
  end.

(** [tfw_gfsm_dispatch()]; [ty] is the type of the connection. *)
Definition tfw_gfsm_dispatch (depth : nat) (ty : Z) (st : TfwGState) (w : W) : outcome (Z * TfwGState * W) :=
  gfsm_exec depth st (Z.land ty TFW_GFSM_FSM_MASK) w.
End engine.

(** ** Registration *)

Section registration.
Context {W : Type}.

Definition set_bm (T : GfsmTables W) (fsm prio v : Z) : outcome (GfsmTables W) :=
  let! t := upd2 (fsm_hooks_bm T) fsm prio v in
  Ok (MkTables (fsm_htbl T) (fsm_hooks T) t).

Definition set_hook (T : GfsmTables W) (fsm shift : Z) (h : TfwFsmHook) : outcome (GfsmTables W) :=
  let! t := upd2 (fsm_hooks T) fsm shift h in
  Ok (MkTables (fsm_htbl T) t (fsm_hooks_bm T)).

(** The first priority from [ps] on whose bit is not set. *)
Fixpoint free_prio (T : GfsmTables W) (fsm st_bit : Z) (ps : list Z) : outcome Z :=
  match ps with
  | [] => Ok TFW_GFSM_HOOK_PRIORITY_NUM
  | p :: ps =>
      let? bm := bm_at T fsm p in
      if Z.land bm st_bit =? 0 then Ok p else free_prio T fsm st_bit ps
  end.

Definition tfw_gfsm_register_hook (T : GfsmTables W) (fsm prio state hndl_fsm_id st0 : Z) : outcome (Z * GfsmTables W) :=
  let st := Z.land state TFW_GFSM_STATE_MASK in
  let st_bit := u32 (Z.shiftl 1 st) in
  if st =? 0 then Bug
  else
    let! prio' := if prio =? TFW_GFSM_HOOK_PRIORITY_ANY
                  then free_prio T fsm st_bit (seqZ TFW_GFSM_HOOK_PRIORITY_HIGH TFW_GFSM_HOOK_PRIORITY_NUM)
                  else Ok prio in
    if (prio =? TFW_GFSM_HOOK_PRIORITY_ANY) && (prio' =? TFW_GFSM_HOOK_PRIORITY_NUM) then Ok (- EBUSY, T)
    else
      let shift := prio' * TFW_GFSM_STATE_N + st in
      let? h := hook_at T fsm shift in
      if negb (fsm_id h =? 0) then Ok (- EBUSY, T)
      else
        let? handler := zget (fsm_htbl T) fsm in
        match handler with
        | None => Ok (- ENOENT, T)
        | Some _ =>
            let! T := set_hook T fsm shift (MkHook st0 (u16 hndl_fsm_id)) in
            let? bm := bm_at T fsm prio' in
            let! T := set_bm T fsm prio' (Z.lor bm st_bit) in
            Ok (prio', T)
        end.

Definition tfw_gfsm_unregister_hook (T : GfsmTables W) (fsm prio state : Z) : outcome (GfsmTables W) :=
  let st := Z.land state TFW_GFSM_STATE_MASK in
  let! T := set_hook T fsm (prio * TFW_GFSM_STATE_N + st) (MkHook 0 0) in
  let? bm := bm_at T fsm prio in
  set_bm T fsm prio (Z.land bm (u32 (Z.lnot (Z.shiftl 1 st)))).

Definition tfw_gfsm_register_fsm (T : GfsmTables W) (fsm : Z) (handler : W -> hprog W) : outcome (Z * GfsmTables W) :=
  let? h := zget (fsm_htbl T) fsm in
  match h with
  | Some _ => Ok (- EBUSY, T)
  | None => let! l := zset (fsm_htbl T) fsm (Some handler) in Ok (0, MkTables l (fsm_hooks T) (fsm_hooks_bm T))
  end.

Definition tfw_gfsm_unregister_fsm (T : GfsmTables W) (fsm : Z) : outcome (GfsmTables W) :=
  let? h := zget (fsm_htbl T) fsm in
  match h with
  | None => Bug
  | Some _ => let! l := zset (fsm_htbl T) fsm None in Ok (MkTables l (fsm_hooks T) (fsm_hooks_bm T))
  end.
End registration.

(** ** The hooks of Frang *)

Definition TFW_FSM_HTTP : Z := 0.
Definition TFW_FSM_HTTPS : Z := 1.
Definition TFW_FSM_FRANG_REQ : Z := 2.
Definition TFW_FSM_FRANG_RESP : Z := 3.
Definition TFW_FSM_FRANG_TLS : Z := 4.

(** A state as the FSMs declare them. *)
Definition GFSM_STATE (fsm s : Z) : Z := Z.lor (Z.shiftl fsm TFW_GFSM_FSM_SHIFT) s.

Record FrangGfsmHook := MkFHook { fh_prio : Z; hook_fsm : Z; hook_state : Z; fh_st0 : Z; fh_fsm_id : Z }.

Definition frang_gfsm_hooks : list FrangGfsmHook :=
  [MkFHook (-1) TFW_FSM_HTTP (GFSM_STATE TFW_FSM_HTTP 2) (GFSM_STATE TFW_FSM_FRANG_REQ 0) TFW_FSM_FRANG_REQ;
   MkFHook (-1) TFW_FSM_HTTP (GFSM_STATE TFW_FSM_HTTP 1) (GFSM_STATE TFW_FSM_FRANG_REQ 0) TFW_FSM_FRANG_REQ;
   MkFHook (-1) TFW_FSM_HTTP (GFSM_STATE TFW_FSM_HTTP 4) (GFSM_STATE TFW_FSM_FRANG_RESP 0) TFW_FSM_FRANG_RESP;
   MkFHook (-1) TFW_FSM_HTTP (GFSM_STATE TFW_FSM_HTTP 3) (GFSM_STATE TFW_FSM_FRANG_RESP 0) TFW_FSM_FRANG_RESP;
   MkFHook (-1) TFW_FSM_HTTP (GFSM_STATE TFW_FSM_HTTP 6) (GFSM_STATE TFW_FSM_FRANG_RESP 1) TFW_FSM_FRANG_RESP;
   MkFHook (-1) TFW_FSM_HTTPS (GFSM_STATE TFW_FSM_HTTPS 1) (GFSM_STATE TFW_FSM_FRANG_TLS 0) TFW_FSM_FRANG_TLS].

Section frang_hooks.
Context {W : Type}.

Definition set_fh_prio v h := MkFHook v (hook_fsm h) (hook_state h) (fh_st0 h) (fh_fsm_id h).

(** [tfw_http_limits_hooks_register()]: the priorities are kept in the table, errors too. *)
Fixpoint tfw_http_limits_hooks_register (T : GfsmTables W) (hs : list FrangGfsmHook)
    : outcome (Z * list FrangGfsmHook * GfsmTables W) :=
  match hs with
  | [] => Ok (0, [], T)
  | h :: hs =>
      let! (p, T) := tfw_gfsm_register_hook T (hook_fsm h) TFW_GFSM_HOOK_PRIORITY_ANY (hook_state h) (fh_fsm_id h) (fh_st0 h) in
      if p <? 0 then Ok (- EINVAL, set_fh_prio p h :: hs, T)
      else let! (r, hs, T) := tfw_http_limits_hooks_register T hs in Ok (r, set_fh_prio p h :: hs, T)
  end.

(** [tfw_http_limits_hooks_remove()], from the last hook to the first. *)
Fixpoint hooks_remove_loop (T : GfsmTables W) (rev_hs : list FrangGfsmHook) : outcome (GfsmTables W) :=
  match rev_hs with
  | [] => Ok T
  | h :: hs =>
      if fh_prio h =? -1 then hooks_remove_loop T hs
      else let! T := tfw_gfsm_unregister_hook T (hook_fsm h) (fh_prio h) (hook_state h) in hooks_remove_loop T hs
  end.

Definition tfw_http_limits_hooks_remove (T : GfsmTables W) (hs : list FrangGfsmHook) : outcome (list FrangGfsmHook * GfsmTables W) :=
  let! T := hooks_remove_loop T (rev hs) in Ok (map (set_fh_prio (-1)) hs, T).
End frang_hooks.

(** ** Words as fields *)

Definition w_state (s : Z) : Z := Z.land s TFW_GFSM_STATE_MASK.
Definition w_on (s : Z) : bool := has_flag s TFW_GFSM_ONSTACK.

(** A word in use: 14 bits. *)
Definition word_ok (s : Z) : Prop := 0 <= s < 2 ^ 14.

Lemma word_not_bad s : word_ok s -> s <> BAD_STATE.
Proof. unfold word_ok, BAD_STATE. lia. Qed.

Lemma has_flag_shift s k : 0 <= k -> has_flag s (Z.shiftl 1 k) = Z.testbit s k.
Proof. intros Hk. rewrite Z.shiftl_1_l. by apply has_flag_bit. Qed.

Lemma w_on_bit s : w_on s = Z.testbit s 13.
Proof. by apply has_flag_shift. Qed.

Lemma word_bits s n : word_ok s -> 14 <= n -> Z.testbit s n = false.
Proof.
  unfold word_ok. intros Hs Hn. destruct (Z.eq_dec s 0) as [-> |]; [apply Z.bits_0 |].
  apply Z.bits_above_log2; [lia |]. enough (Z.log2 s < 14) by lia. apply Z.log2_lt_pow2; lia.
Qed.

Lemma word_of_bits s : 0 <= s -> (forall n, 14 <= n -> Z.testbit s n = false) -> word_ok s.
Proof.
  intros H0 Hb. split; [done |]. destruct (Z.lt_ge_cases s (2 ^ 14)); [done |]. exfalso.
  pose proof (Z.log2_le_pow2 s 14 ltac:(lia)) as Hl. pose proof (Z.bit_log2 s ltac:(lia)) as Hbit.
  rewrite Hb in Hbit; [done | by apply Hl].
Qed.

(** The fields by their bits. *)
Lemma fields_eq s t :
  (forall n, 5 <= n < 13 -> Z.testbit s n = Z.testbit t n) -> __GFSM_FSM s = __GFSM_FSM t.
Proof.
  intros H. apply Z.bits_inj'. intros n Hn. unfold __GFSM_FSM, TFW_GFSM_FSM_MASK, TFW_GFSM_FSM_SHIFT.
  change 15 with (Z.ones 4). rewrite !Z.land_spec, !Z.shiftr_spec, Z.testbit_ones_nonneg by lia.
  destruct (Z.ltb_spec n 4); [by rewrite H by lia | by rewrite !andb_false_r].
Qed.

Lemma state_eq s t : (forall n, 0 <= n < 5 -> Z.testbit s n = Z.testbit t n) -> w_state s = w_state t.
Proof.
  intros H. apply Z.bits_inj'. intros n Hn. unfold w_state, TFW_GFSM_STATE_MASK. change 31 with (Z.ones 5).
  rewrite !Z.land_spec, Z.testbit_ones_nonneg by lia.
  destruct (Z.ltb_spec n 5); [by rewrite H by lia | by rewrite !andb_false_r].
Qed.

Lemma u16_word s : word_ok s -> u16 s = s.
Proof. unfold word_ok, u16. intros. apply Z.mod_small. lia. Qed.

(** Moving to a state. *)
Definition word_move (s state : Z) : Z :=
  Z.lor (Z.land s (Z.lnot TFW_GFSM_STATE_MASK)) (Z.land state TFW_GFSM_STATE_MASK).

Lemma word_move_bits s state n : 0 <= n ->
  Z.testbit (word_move s state) n = if n <? 5 then Z.testbit state n else Z.testbit s n.
Proof.
  intros Hn. unfold word_move, TFW_GFSM_STATE_MASK. change 31 with (Z.ones 5).
  rewrite Z.lor_spec, !Z.land_spec, Z.lnot_spec, Z.testbit_ones_nonneg by lia.
  destruct (n <? 5); cbn [negb]; by rewrite ?andb_false_r, ?andb_true_r, ?orb_false_r.
Qed.

Lemma word_move_ok s state : word_ok s -> 0 <= state ->
  word_ok (word_move s state) /\ __GFSM_FSM (word_move s state) = __GFSM_FSM s
  /\ w_state (word_move s state) = w_state state /\ w_on (word_move s state) = w_on s.
Proof.
  intros Hs H0. split_and!.
  - apply word_of_bits.
    + unfold word_move. apply Z.lor_nonneg. split; apply Z.land_nonneg; [left; apply Hs | right; done].
    + intros n Hn. rewrite word_move_bits, (proj2 (Z.ltb_ge n 5)) by lia. by apply word_bits.
  - apply fields_eq. intros n Hn. by rewrite word_move_bits, (proj2 (Z.ltb_ge n 5)) by lia.
  - apply state_eq. intros n Hn. by rewrite word_move_bits, (proj2 (Z.ltb_lt n 5)) by lia.
  - by rewrite !w_on_bit, word_move_bits.
Qed.

(** The flag of the stack. *)
Lemma word_push_ok s : word_ok s ->
  word_ok (Z.lor s TFW_GFSM_ONSTACK) /\ __GFSM_FSM (Z.lor s TFW_GFSM_ONSTACK) = __GFSM_FSM s
  /\ w_state (Z.lor s TFW_GFSM_ONSTACK) = w_state s /\ w_on (Z.lor s TFW_GFSM_ONSTACK) = true.
Proof.
  intros Hs. unfold TFW_GFSM_ONSTACK. rewrite Z.shiftl_1_l.
  assert (Hb : forall n, 0 <= n -> Z.testbit (Z.lor s (2 ^ 13)) n = Z.testbit s n || (13 =? n)).
  { intros n Hn. by rewrite Z.lor_spec, Z.pow2_bits_eqb. }
  split_and!.
  - apply word_of_bits; [apply Z.lor_nonneg; destruct Hs; lia |]. intros n Hn.
    rewrite Hb, word_bits, (proj2 (Z.eqb_neq 13 n)) by (done || lia). done.
  - apply fields_eq. intros n Hn. rewrite Hb, (proj2 (Z.eqb_neq 13 n)) by lia. apply orb_false_r.
  - apply state_eq. intros n Hn. rewrite Hb, (proj2 (Z.eqb_neq 13 n)) by lia. apply orb_false_r.
  - rewrite w_on_bit, Hb by lia. apply orb_true_r.
Qed.

Lemma word_pop_ok s : word_ok s ->
  word_ok (Z.land s (Z.lnot TFW_GFSM_ONSTACK)) /\ __GFSM_FSM (Z.land s (Z.lnot TFW_GFSM_ONSTACK)) = __GFSM_FSM s
  /\ w_state (Z.land s (Z.lnot TFW_GFSM_ONSTACK)) = w_state s /\ w_on (Z.land s (Z.lnot TFW_GFSM_ONSTACK)) = false.
Proof.
  intros Hs. unfold TFW_GFSM_ONSTACK. rewrite Z.shiftl_1_l.
  assert (Hb : forall n, 0 <= n -> Z.testbit (Z.land s (Z.lnot (2 ^ 13))) n = Z.testbit s n && negb (13 =? n)).
  { intros n Hn. by rewrite Z.land_spec, Z.lnot_spec, Z.pow2_bits_eqb. }
  split_and!.
  - apply word_of_bits; [apply Z.land_nonneg; left; apply Hs |]. intros n Hn.
    by rewrite Hb, word_bits by (done || lia).
  - apply fields_eq. intros n Hn. rewrite Hb, (proj2 (Z.eqb_neq 13 n)) by lia. apply andb_true_r.
  - apply state_eq. intros n Hn. rewrite Hb, (proj2 (Z.eqb_neq 13 n)) by lia. apply andb_true_r.
  - rewrite w_on_bit, Hb by lia. apply andb_false_r.
Qed.

(** The test of a bitmap with the mask of a state. *)
Lemma mask_bit bm k : is_u32 bm -> 0 <= k < 32 ->
  (Z.land bm (u64 (s32 (Z.shiftl 1 k))) =? 0) = negb (Z.testbit bm k).
Proof.
  intros Hbm Hk. rewrite <- has_flag_shift by lia. unfold has_flag. rewrite negb_involutive.
  destruct (Z.eq_dec k 31) as [-> |].
  - replace (Z.land bm (u64 (s32 (Z.shiftl 1 31)))) with (Z.land bm (Z.shiftl 1 31)); [done |].
    change (u64 (s32 (Z.shiftl 1 31))) with (Z.shiftl (Z.ones 33) 31). apply Z.bits_inj'. intros n Hn.
    rewrite !Z.land_spec, !Z.shiftl_spec by lia. destruct (Z.lt_ge_cases n 32).
    + f_equal. destruct (Z.eq_dec n 31) as [-> |]; [done |]. by rewrite !Z.testbit_neg_r by lia.
    + rewrite (Z.bits_above_log2 bm n); [done | unfold is_u32 in Hbm; lia |].
      destruct (Z.eq_dec bm 0) as [-> |]; [simpl; lia |]. enough (Z.log2 bm < 32) by lia.
      unfold is_u32 in Hbm. apply Z.log2_lt_pow2; lia.
  - f_equal. f_equal. rewrite Z.shiftl_1_l. assert (2 ^ k <= 2 ^ 30) by (apply Z.pow_le_mono_r; lia).
    pose proof (pow2_pos k). rewrite s32_small by lia. apply u64_small. lia.
Qed.

(** ** The abstract machine

    The state is a finite map from FSMs to the state they are in and whether their handler runs. *)

Abbreviation amap := (gmap Z (Z * bool)).

Definition is_on (m : amap) (f : Z) : bool := match m !! f with Some (_, on) => on | None => false end.

Section abstract.
Context {W : Type} (T : GfsmTables W).

(** The FSMs hooked on a state: all of them, by priority. *)
Fixpoint hooks_on (ps : list Z) (f s : Z) : list (Z * Z) :=
  match ps with
  | [] => []
  | p :: ps =>
      match bm_at T f p, hook_at T f (p * TFW_GFSM_STATE_N + s) with
      | Some bm, Some h => if Z.testbit bm s then (fsm_id h, w_state (st0 h)) :: hooks_on ps f s else hooks_on ps f s
      | _, _ => hooks_on ps f s
      end
  end.

Section with_exec.
Variable exec : amap -> Z -> W -> option (Z * amap * W).

Fixpoint a_hooks (hs : list (Z * Z)) (m : amap) (w : W) (r : Z) : option (Z * amap * W) :=
  match hs with
  | [] => Some (r, m, w)
  | (g, s) :: hs =>
      let m := match m !! g with None => <[g := (s, false)]> m | Some _ => m end in
      if is_on m g then a_hooks hs m w r
      else match exec m g w with
           | None => None
           | Some (x, m, w) =>
               if x =? GFSM_BLOCK then Some (GFSM_BLOCK, m, w)
               else a_hooks hs m w (if x =? GFSM_POSTPONE then GFSM_POSTPONE else r)
           end
  end.

Definition a_move (f state : Z) (m : amap) (w : W) : option (Z * amap * W) :=
  a_hooks (hooks_on (seqZ 0 16) f (w_state state)) (<[f := (w_state state, true)]> m) w GFSM_PASS.

Fixpoint a_run (f : Z) (h : hprog W) (m : amap) : option (Z * amap * W) :=
  match h with
  | HRet r w => Some (r, m, w)
  | HMove state w k =>
      match a_move f (u16 state) m w with
      | None => None
      | Some (r, m, w) => a_run f (k r w) m
      end
  end.
End with_exec.

(** Running an FSM: it is on the stack while its handler runs, and forgotten when it has finished. *)
Fixpoint a_exec (depth : nat) (m : amap) (f : Z) (w : W) : option (Z * amap * W) :=
  match depth with
  | O => None
  | S depth =>
      match m !! f, zget (fsm_htbl T) f with
      | Some (s, _), Some (Some h) =>
          match a_run (a_exec depth) f (h w) (<[f := (s, true)]> m) with
          | None => None
          | Some (r, m, w) =>
              match m !! f with
              | Some (s, _) =>
                  Some (r, if s =? TFW_GFSM_STATE_LAST then delete f m else <[f := (s, false)]> m, w)
              | None => None
              end
          end
      | _, _ => None
      end
  end.

(** ** Tables and handlers *)

(** A handler moves its own FSM only. *)
Inductive owned (f : Z) : hprog W -> Prop :=
| owned_ret r w : owned f (HRet r w)
| owned_move state w k :
    Z.shiftr (u16 state) TFW_GFSM_FSM_SHIFT = f -> (forall r w, owned f (k r w)) -> owned f (HMove state w k).

Definition fsm_ok (f : Z) : Prop :=
  0 <= f < TFW_FSM_NUM /\ exists h, zget (fsm_htbl T) f = Some (Some h) /\ forall w, owned f (h w).

(** Every hook leads to an FSM with a handler, in an initial state of that FSM. *)
Record tables_ok : Prop := {
  to_bm f : 0 <= f < TFW_FSM_NUM -> exists l, zget (fsm_hooks_bm T) f = Some l /\ length l = 16%nat /\ Forall is_u32 l;
  to_hooks f : 0 <= f < TFW_FSM_NUM -> exists l, zget (fsm_hooks T) f = Some l /\ length l = 512%nat;
  to_free f p s bm h :
    0 <= s < 32 -> bm_at T f p = Some bm -> Z.testbit bm s = false -> hook_at T f (p * TFW_GFSM_STATE_N + s) = Some h ->
    fsm_id h = 0;
  to_hook f p s bm h :
    0 <= s < 32 -> bm_at T f p = Some bm -> Z.testbit bm s = true -> hook_at T f (p * TFW_GFSM_STATE_N + s) = Some h ->
    fsm_ok (fsm_id h) /\ __GFSM_FSM (st0 h) = fsm_id h /\ 0 <= st0 h < 2 ^ 13
}.

Definition bit_at (f p s : Z) : option bool := (fun bm => Z.testbit bm s) <$> bm_at T f p.

(** The hooks of a state have the first priorities, as registration with [TFW_GFSM_HOOK_PRIORITY_ANY] makes them; only taking a
    hook away leaves a gap ([gap_hides_hooks]). *)
Definition no_gaps : Prop :=
  forall f p q s, 0 <= s < 32 -> 0 <= p < q -> bit_at f q s = Some true -> bit_at f p s = Some true.

Lemma hooks_on_none ps f s : (forall p, p ∈ ps -> bit_at f p s <> Some true) -> hooks_on ps f s = [].
Proof.
  induction ps as [|p ps IH]; intros H; [done |]. cbn [hooks_on]. rewrite IH by (intros q Hq; apply H; by right).
  specialize (H p ltac:(left)). unfold bit_at in H. destruct (bm_at T f p) as [bm|]; [| done]. cbn in H.
  destruct (hook_at T f _); [| done]. by destruct (Z.testbit bm s).
Qed.
End abstract.

(** ** The array and the map *)

Record grel (l : list Z) (m : amap) : Prop := {
  gr_len : length l = TFW_GFSM_FSM_NUM;
  gr_slot i s : l !! i = Some s -> s = BAD_STATE \/ word_ok s /\ m !! __GFSM_FSM s = Some (w_state s, w_on s);
  gr_cover f v : m !! f = Some v -> 0 <= f < TFW_FSM_NUM /\ exists i s, l !! i = Some s /\ word_ok s /\ __GFSM_FSM s = f;
  gr_uniq i j s t : l !! i = Some s -> l !! j = Some t -> word_ok s -> word_ok t -> __GFSM_FSM s = __GFSM_FSM t -> i = j
}.

Lemma bad_fsm : __GFSM_FSM BAD_STATE = 15.
Proof. reflexivity. Qed.

Lemma lookup_loop_found l i f free k s :
  l !! k = Some s -> __GFSM_FSM s = f -> (forall j t, l !! j = Some t -> (j < k)%nat -> __GFSM_FSM t <> f) ->
  (fsm_lookup_loop l i f free).1 = i + Z.of_nat k.
Proof.
  revert i free k. induction l as [|x l IH]; intros i free k Hk Hf Hb; [done |]. cbn [fsm_lookup_loop].
  destruct k as [|k].
  - cbn in Hk. simplify_eq. rewrite Z.eqb_refl. simpl. lia.
  - rewrite (proj2 (Z.eqb_neq _ _) (Hb 0%nat x eq_refl ltac:(lia))).
    rewrite (IH _ _ k); [lia | done | done |]. intros j t Hj Hlt. apply (Hb (S j)); [done | lia].
Qed.

Lemma lookup_loop_none l i f free :
  (forall j t, l !! j = Some t -> __GFSM_FSM t <> f) -> (free = -1 \/ 0 <= free) -> 0 <= i ->
  (fsm_lookup_loop l i f free).1 = -1
  /\ (free <> -1 -> (fsm_lookup_loop l i f free).2 = free)
  /\ (free = -1 -> (exists k, l !! k = Some BAD_STATE) ->
      exists k, l !! k = Some BAD_STATE /\ (fsm_lookup_loop l i f free).2 = i + Z.of_nat k).
Proof.
  revert i free. induction l as [|x l IH]; intros i free Hb Hfree Hi; [by split_and!; [| | intros _ [k ?]] |].
  cbn [fsm_lookup_loop]. rewrite (proj2 (Z.eqb_neq _ _) (Hb 0%nat x eq_refl)).
  assert (Hb' : forall j t, l !! j = Some t -> __GFSM_FSM t <> f) by (intros j; apply (Hb (S j))).
  destruct (Z.eqb_spec free (-1)) as [-> | Hne]; cbn [andb].
  - destruct (Z.eqb_spec x BAD_STATE) as [-> | Hx].
    + destruct (IH (i + 1) i) as (H1 & H2 & _); [done | lia | lia |]. split_and!; [done | done |].
      intros _ _. exists 0%nat. split; [done |]. rewrite H2 by lia. lia.
    + destruct (IH (i + 1) (-1)) as (H1 & _ & H3); [done | lia | lia |]. split_and!; [done | done |].
      intros _ [k Hk]. destruct H3 as (k' & Hk' & ->); [done | destruct k; [cbn in Hk; simplify_eq | by exists k] |].
      exists (S k'). split; [done | lia].
  - destruct (IH (i + 1) free) as (H1 & H2 & _); [done | lia | lia |]. split_and!; [done | done | done].
Qed.

Section rel.
Context (l : list Z) (m : amap).
Hypothesis R : grel l m.

Lemma grel_found f v c : m !! f = Some v ->
  exists i s, (__gfsm_fsm_lookup (MkGState c l) f).1 = Z.of_nat i /\ (i < 8)%nat /\ l !! i = Some s
    /\ word_ok s /\ __GFSM_FSM s = f /\ v = (w_state s, w_on s).
Proof.
  intros Hf. destruct (gr_cover _ _ R f v Hf) as (Hr & i & s & Hi & Hs & Ef).
  exists i, s. split_and!; [| | done | done | done |].
  - unfold __gfsm_fsm_lookup. cbn [states]. rewrite (lookup_loop_found l 0 f (-1) i s); [lia | done | done |].
    intros j t Hj Hlt E. destruct (gr_slot _ _ R j t Hj) as [-> | [Ht _]].
    + rewrite bad_fsm in E. unfold TFW_FSM_NUM in Hr. lia.
    + assert (j = i) by (eapply gr_uniq; [exact R | done | done | done | done | congruence]). lia.
  - apply lookup_lt_Some in Hi. by rewrite (gr_len _ _ R) in Hi.
  - destruct (gr_slot _ _ R i s Hi) as [-> | [_ E]]; [by apply word_not_bad in Hs |]. rewrite Ef, Hf in E. by simplify_eq.
Qed.

(** Eight slots are more than there are FSMs. *)
Lemma grel_has_free : exists k, l !! k = Some BAD_STATE.
Proof.
  destruct (decide (Exists (fun s => s = BAD_STATE) l)) as [He | Hne].
  { apply Exists_exists in He as (s & Hs & ->). by apply list_elem_of_lookup in Hs. }
  exfalso. assert (Hall : forall i s, l !! i = Some s -> word_ok s /\ m !! __GFSM_FSM s = Some (w_state s, w_on s)).
  { intros i s Hi. destruct (gr_slot _ _ R i s Hi) as [-> | ?]; [| done]. exfalso. apply Hne, Exists_exists.
    exists BAD_STATE. split; [by eapply list_elem_of_lookup_2 | done]. }
  assert (Hnd : NoDup (map __GFSM_FSM l)).
  { apply NoDup_alt. intros i j x Hi Hj. apply list_lookup_fmap_Some in Hi as (s & -> & Hi), Hj as (t & E & Hj).
    eapply gr_uniq; [exact R | done | done | by eapply Hall | by eapply Hall | done]. }
  assert (Hsub : map __GFSM_FSM l ⊆+ seqZ 0 TFW_FSM_NUM).
  { apply NoDup_submseteq; [done |]. intros x (s & -> & Hs)%list_elem_of_fmap. apply list_elem_of_lookup in Hs as [i Hi].
    apply elem_of_seqZ. destruct (Hall i s Hi) as [_ E]. destruct (gr_cover _ _ R _ _ E) as [? _]. lia. }
  apply submseteq_length in Hsub. rewrite length_map, (gr_len _ _ R), length_seqZ in Hsub. vm_compute in Hsub. lia.
Qed.

Lemma grel_missing f c : m !! f = None -> 0 <= f < TFW_FSM_NUM ->
  (__gfsm_fsm_lookup (MkGState c l) f).1 = -1
  /\ exists k, l !! k = Some BAD_STATE /\ (k < 8)%nat /\ (__gfsm_fsm_lookup (MkGState c l) f).2 = Z.of_nat k.
Proof.
  intros Hf Hr. unfold __gfsm_fsm_lookup. cbn [states].
  destruct (lookup_loop_none l 0 f (-1)) as (H1 & _ & H3); [| by left | lia |].
  { intros j t Hj E. destruct (gr_slot _ _ R j t Hj) as [-> | [_ Ht]].
    - rewrite bad_fsm in E. unfold TFW_FSM_NUM in Hr. lia.
    - by rewrite E, Hf in Ht. }
  split; [done |]. destruct (H3 eq_refl grel_has_free) as (k & Hk & ->). exists k. split_and!; [done | | lia].
  apply lookup_lt_Some in Hk. by rewrite (gr_len _ _ R) in Hk.
Qed.

Lemma grel_update i s s' :
  l !! i = Some s -> word_ok s -> word_ok s' -> __GFSM_FSM s' = __GFSM_FSM s ->
  grel (<[i := s']> l) (<[__GFSM_FSM s := (w_state s', w_on s')]> m).
Proof.
  intros Hi Hs Hs' Ef. pose proof (lookup_lt_Some _ _ _ Hi) as Hlt. split.
  - rewrite length_insert. apply R.
  - intros j t Hj. destruct (decide (j = i)) as [-> | Hne].
    + rewrite list_lookup_insert_eq in Hj by done. simplify_eq. right. split; [done |]. by rewrite Ef, lookup_insert_eq.
    + rewrite list_lookup_insert_ne in Hj by done. destruct (gr_slot _ _ R j t Hj) as [? | [Ht Em]]; [by left |].
      right. split; [done |]. rewrite lookup_insert_ne; [done |]. intros E. apply Hne. by eapply gr_uniq.
  - intros f v Hf. assert (Hc : 0 <= f < TFW_FSM_NUM /\ exists i s, l !! i = Some s /\ word_ok s /\ __GFSM_FSM s = f).
    { destruct (decide (f = __GFSM_FSM s)) as [-> | Hne].
      - destruct (gr_slot _ _ R i s Hi) as [-> | [_ E]]; [by apply word_not_bad in Hs | by apply (gr_cover _ _ R _ _ E)].
      - rewrite lookup_insert_ne in Hf by done. by apply (gr_cover _ _ R _ _ Hf). }
    destruct Hc as (Hr & j & t & Hj & Ht & Et). split; [done |]. destruct (decide (j = i)) as [-> | Hne].
    + exists i, s'. rewrite list_lookup_insert_eq by done. simplify_eq. done.
    + exists j, t. by rewrite list_lookup_insert_ne.
  - assert (Hg : forall j t, <[i := s']> l !! j = Some t -> word_ok t -> exists t', l !! j = Some t' /\ word_ok t' /\ __GFSM_FSM t' = __GFSM_FSM t).
    { intros j t Hj Ht. destruct (decide (j = i)) as [-> | Hne].
      - rewrite list_lookup_insert_eq in Hj by done. simplify_eq. by exists s.
      - rewrite list_lookup_insert_ne in Hj by done. by exists t. }
    intros j k t u Hj Hk Ht Hu E. destruct (Hg j t Hj Ht) as (t' & ? & ? & Et). destruct (Hg k u Hk Hu) as (u' & ? & ? & Eu).
    eapply gr_uniq; [exact R | done | done | done | done | congruence].
Qed.

Lemma grel_add i s : l !! i = Some BAD_STATE -> word_ok s -> m !! __GFSM_FSM s = None -> 0 <= __GFSM_FSM s < TFW_FSM_NUM ->
  grel (<[i := s]> l) (<[__GFSM_FSM s := (w_state s, w_on s)]> m).
Proof.
  intros Hi Hs Hm Hr. pose proof (lookup_lt_Some _ _ _ Hi) as Hlt.
  assert (Hother : forall j t, l !! j = Some t -> word_ok t -> __GFSM_FSM t <> __GFSM_FSM s /\ j <> i).
  { intros j t Hj Ht. split.
    - intros E. destruct (gr_slot _ _ R j t Hj) as [-> | [_ Em]]; [by apply word_not_bad in Ht | by rewrite E, Hm in Em].
    - intros ->. rewrite Hi in Hj. simplify_eq. by apply word_not_bad in Ht. }
  split.
  - rewrite length_insert. apply R.
  - intros j t Hj. destruct (decide (j = i)) as [-> | Hne].
    + rewrite list_lookup_insert_eq in Hj by done. simplify_eq. right. split; [done |]. by rewrite lookup_insert_eq.
    + rewrite list_lookup_insert_ne in Hj by done. destruct (gr_slot _ _ R j t Hj) as [? | [Ht Em]]; [by left |].
      right. split; [done |]. rewrite lookup_insert_ne; [done |]. apply not_eq_sym. by eapply Hother.
  - intros f v Hf. destruct (decide (f = __GFSM_FSM s)) as [-> | Hne].
    + split; [done |]. exists i, s. by rewrite list_lookup_insert_eq.
    + rewrite lookup_insert_ne in Hf by done. destruct (gr_cover _ _ R _ _ Hf) as (? & j & t & Hj & Ht & Et).
      split; [done |]. exists j, t. rewrite list_lookup_insert_ne; [done |]. apply not_eq_sym. by eapply Hother.
  - intros j k t u Hj Hk Ht Hu E.
    destruct (decide (j = i)) as [-> | Hj'], (decide (k = i)) as [-> | Hk']; [done | | |].
    + rewrite list_lookup_insert_eq in Hj by done. rewrite list_lookup_insert_ne in Hk by done. simplify_eq.
      by destruct (Hother k u Hk Hu).
    + rewrite list_lookup_insert_ne in Hj by done. rewrite list_lookup_insert_eq in Hk by done. simplify_eq.
      by destruct (Hother j t Hj Ht).
    + rewrite list_lookup_insert_ne in Hj, Hk by done. by eapply gr_uniq.
Qed.

Lemma grel_remove i s : l !! i = Some s -> word_ok s -> grel (<[i := BAD_STATE]> l) (delete (__GFSM_FSM s) m).
Proof.
  intros Hi Hs. pose proof (lookup_lt_Some _ _ _ Hi) as Hlt.
  assert (Hold : forall j t, <[i := BAD_STATE]> l !! j = Some t -> t = BAD_STATE \/ j <> i /\ l !! j = Some t).
  { intros j t Hj. destruct (decide (j = i)) as [-> | Hne].
    - rewrite list_lookup_insert_eq in Hj by done. simplify_eq. by left.
    - rewrite list_lookup_insert_ne in Hj by done. by right. }
  split.
  - rewrite length_insert. apply R.
  - intros j t Hj. destruct (Hold j t Hj) as [? | [Hne Hj']]; [by left |].
    destruct (gr_slot _ _ R j t Hj') as [? | [Ht Em]]; [by left |]. right. split; [done |].
    rewrite lookup_delete_ne; [done |]. intros E. apply Hne. by eapply gr_uniq.
  - intros f v [Hne Hf]%lookup_delete_Some. destruct (gr_cover _ _ R _ _ Hf) as (? & j & t & Hj & Ht & Et).
    split; [done |]. exists j, t. rewrite list_lookup_insert_ne; [done |]. intros ->. rewrite Hi in Hj. simplify_eq.
  - intros j k t u Hj Hk Ht Hu E. destruct (Hold j t Hj) as [-> | [_ ?]]; [by apply word_not_bad in Ht |].
    destruct (Hold k u Hk) as [-> | [_ ?]]; [by apply word_not_bad in Hu |]. by eapply gr_uniq.
Qed.
End rel.

(** ** Simulation *)

(** Words of FSMs on the stack do not change. *)
Definition frame (l l' : list Z) : Prop :=
  forall i s, l !! i = Some s -> word_ok s -> w_on s = true -> l' !! i = Some s.

Definition same_on (m m' : amap) : Prop := forall f, is_on m' f = is_on m f.

(** The number of FSMs that are not on the stack. *)
Definition off (m : amap) : nat := foldr (fun f n => if is_on m f then n else S n) 0%nat (seqZ 0 TFW_FSM_NUM).

Lemma frame_refl l : frame l l.
Proof. by intros i s Hi _ _. Qed.

Lemma same_on_refl m : same_on m m.
Proof. by intros f. Qed.

#[local] Hint Resolve frame_refl same_on_refl : core.

Lemma frame_trans l1 l2 l3 : frame l1 l2 -> frame l2 l3 -> frame l1 l3.
Proof. intros H1 H2 i s Hi Hs Ho. apply H2; [by apply H1 | done | done]. Qed.

Lemma same_on_trans m1 m2 m3 : same_on m1 m2 -> same_on m2 m3 -> same_on m1 m3.
Proof. intros H1 H2 f. by rewrite H2, H1. Qed.

Lemma off_same m m' : same_on m m' -> off m' = off m.
Proof.
  intros H. unfold off. induction (seqZ 0 TFW_FSM_NUM) as [|x l IH]; [done |]. simpl. by rewrite H, IH.
Qed.

Lemma is_on_insert m f s b g : is_on (<[f := (s, b)]> m) g = if decide (f = g) then b else is_on m g.
Proof. unfold is_on. rewrite lookup_insert. by destruct (decide (f = g)). Qed.

Lemma off_push m f s : 0 <= f < TFW_FSM_NUM -> is_on m f = false -> S (off (<[f := (s, true)]> m)) = off m.
Proof.
  intros Hf Hm. unfold off. assert (Hin : f ∈ seqZ 0 TFW_FSM_NUM) by (apply elem_of_seqZ; lia).
  pose proof (NoDup_seqZ 0 TFW_FSM_NUM) as Hnd. revert Hin Hnd.
  assert (Hout : forall l, f ∉ l -> foldr (fun f n => if is_on m f then n else S n) 0%nat l
                 = foldr (fun g n => if is_on (<[f := (s, true)]> m) g then n else S n) 0%nat l).
  { induction l as [|x l IH]; [done |]. intros [Hx Hl]%not_elem_of_cons. simpl. rewrite IH, is_on_insert, decide_False by done. done. }
  induction (seqZ 0 TFW_FSM_NUM) as [|x l IH]; [by intros ?%elem_of_nil |].
  intros [-> | Hin]%elem_of_cons [Hx Hnd]%NoDup_cons; simpl; rewrite is_on_insert.
  - rewrite decide_True, Hm by done. by rewrite <- Hout.
  - rewrite decide_False by (intros ->; done). rewrite <- (IH Hin Hnd). by destruct (is_on m x).
Qed.

Lemma w_state_range x : 0 <= w_state x < 32.
Proof. unfold w_state, TFW_GFSM_STATE_MASK. change 31 with (Z.ones 5). rewrite Z.land_ones by lia. apply Z.mod_pos_bound. lia. Qed.

Lemma zget_nat {A} (l : list A) (i : nat) : zget l (Z.of_nat i) = l !! i.
Proof. unfold zget. rewrite (proj2 (Z.ltb_ge _ 0)), Nat2Z.id by lia. done. Qed.

Lemma zset_nat {A} (l : list A) (i : nat) v x : l !! i = Some x -> zset l (Z.of_nat i) v = Ok (<[i := v]> l).
Proof.
  intros Hi%lookup_lt_Some. unfold zset, zlen. rewrite (proj2 (Z.leb_le 0 _)), (proj2 (Z.ltb_lt _ _)), Nat2Z.id by lia. done.
Qed.

Lemma u8_slot (i : nat) : (i < 8)%nat -> u8 (Z.of_nat i) = Z.of_nat i.
Proof. intros. unfold u8. apply Z.mod_small. lia. Qed.

Lemma FSM_STATE_at i l : (i < 8)%nat -> FSM_STATE (MkGState (Z.of_nat i) l) = l !! i.
Proof. intros. unfold FSM_STATE. cbn [curr states]. by rewrite u8_slot, zget_nat. Qed.

Lemma set_FSM_STATE_at i l s v : (i < 8)%nat -> l !! i = Some s -> word_ok v ->
  set_FSM_STATE v (MkGState (Z.of_nat i) l) = Ok (MkGState (Z.of_nat i) (<[i := v]> l)).
Proof.
  intros Hi Hs Hv. unfold set_FSM_STATE. cbn [curr states]. by rewrite u8_slot, (zset_nat _ _ _ s), u16_word.
Qed.

Section simulation.
Context {W : Type} (T : GfsmTables W).
Lemma seqZ_sorted a (n : nat) : StronglySorted Z.lt (seqZ a (Z.of_nat n)).
Proof.
  revert a. induction n as [|n IH]; intros a; [constructor |]. rewrite seqZ_cons by lia. replace (Z.pred (Z.of_nat (S n))) with (Z.of_nat n) by lia.
  constructor; [apply IH |]. apply Forall_seqZ. lia.
Qed.

Hypothesis TOK : tables_ok T.
Hypothesis NG : no_gaps T.

Definition sim_exec (n : nat) : Prop :=
  forall l c m g s w, grel l m -> m !! g = Some (s, false) -> fsm_ok T g -> (off m <= n)%nat ->
  exists r c' l' m' w', gfsm_exec T n (MkGState c l) g w = Ok (r, MkGState c' l', w')
    /\ a_exec T n m g w = Some (r, m', w') /\ grel l' m' /\ frame l l' /\ same_on m m'.

(** The switch finds the slot of the hooked FSM or makes one. *)
Lemma switch_sim l c m f state p h :
  grel l m -> Z.shiftr state TFW_GFSM_FSM_SHIFT = f -> hook_at T f (p * TFW_GFSM_STATE_N + w_state state) = Some h ->
  fsm_ok T (fsm_id h) -> __GFSM_FSM (st0 h) = fsm_id h -> 0 <= st0 h < 2 ^ 13 ->
  let m1 := match m !! fsm_id h with None => <[fsm_id h := (w_state (st0 h), false)]> m | Some _ => m end in
  exists i l1 s, tfw_gfsm_switch T (MkGState c l) state p = Ok (fsm_id h, MkGState (Z.of_nat i) l1)
    /\ (i < 8)%nat /\ l1 !! i = Some s /\ m1 !! fsm_id h = Some (w_state s, w_on s)
    /\ grel l1 m1 /\ frame l l1 /\ same_on m m1.
Proof.
  intros R Ef Hh [Hg _] Est Hst. cbv zeta. unfold tfw_gfsm_switch. cbv zeta. rewrite Ef. fold (w_state state). rewrite Hh.
  destruct (m !! fsm_id h) as [v|] eqn:Em.
  - destruct (grel_found l m R _ v c Em) as (i & s & E1 & Hi & Hs & Hw & _ & ->).
    destruct (__gfsm_fsm_lookup (MkGState c l) (fsm_id h)) as [i' fr]. cbn in E1. subst i'.
    rewrite (proj2 (Z.ltb_ge _ 0)) by lia. exists i, l, s. by split_and!.
  - destruct (grel_missing l m R _ c Em Hg) as (E1 & k & Hk & Hk8 & E2).
    destruct (__gfsm_fsm_lookup (MkGState c l) (fsm_id h)) as [i' fr]. cbn in E1, E2. subst i' fr.
    change (-1 <? 0) with true. cbv iota. rewrite (proj2 (Z.ltb_ge _ 0)) by lia. cbn [states].
    assert (Hok : word_ok (st0 h)) by (unfold word_ok; lia).
    assert (Hoff : w_on (st0 h) = false).
    { rewrite w_on_bit. destruct (Z.eq_dec (st0 h) 0) as [-> |]; [done |]. apply Z.bits_above_log2; [lia |]. apply Z.log2_lt_pow2; lia. }
    rewrite (set_FSM_STATE_at k l BAD_STATE) by done. exists k, (<[k := st0 h]> l), (st0 h).
    pose proof (lookup_lt_Some _ _ _ Hk). rewrite <- Est in Em, Hg |- *. split_and!; [done | done | | | | |].
    + by rewrite list_lookup_insert_eq.
    + by rewrite lookup_insert_eq, Hoff.
    + rewrite <- Hoff. by apply grel_add.
    + intros j t Hj Ht _. rewrite list_lookup_insert_ne; [done |]. intros ->. rewrite Hk in Hj. simplify_eq. by apply word_not_bad in Ht.
    + intros g. rewrite is_on_insert. destruct (decide _) as [<- |]; [| done]. unfold is_on. by rewrite Em.
Qed.

Lemma move_loop_sim n ps bml l c m f state w r :
  sim_exec n -> grel l m -> (off m <= n)%nat -> 0 <= f < TFW_FSM_NUM ->
  zget (fsm_hooks_bm T) f = Some bml -> Forall (fun p => 0 <= p < 16) ps -> StronglySorted Z.lt ps -> Z.shiftr state TFW_GFSM_FSM_SHIFT = f ->
  exists r' c' l' m' w',
    move_loop T (gfsm_exec T n) ps bml (u64 (s32 (Z.shiftl 1 (w_state state)))) state (MkGState c l) w r
      = Ok (r', MkGState c' l', w')
    /\ a_hooks (a_exec T n) (hooks_on T ps f (w_state state)) m w r = Some (r', m', w')
    /\ grel l' m' /\ frame l l' /\ same_on m m'.
Proof.
  intros HE R Hoff Hf Hb Hps Hsort Est. revert l c m w r R Hoff Hps. induction Hsort as [|p ps _ IH Hlt]; intros l c m w r R Hoff Hps.
  { exists r, c, l, m, w. by split_and!. }
  apply Forall_cons in Hps as [Hp Hps]. destruct (to_bm T TOK f Hf) as (bml' & Hb' & Hbl & Hbu). rewrite Hb in Hb'. injection Hb' as <-.
  destruct (to_hooks T TOK f Hf) as (hl & Hhl & Hlen). pose proof (w_state_range state) as Hsr.
  destruct (lookup_lt_is_Some_2 bml (Z.to_nat p)) as [bm Ebm]; [lia |].
  assert (Eb : zget bml p = Some bm) by (unfold zget; rewrite (proj2 (Z.ltb_ge p 0)) by lia; done).
  destruct (lookup_lt_is_Some_2 hl (Z.to_nat (p * TFW_GFSM_STATE_N + w_state state))) as [h Eh]; [unfold TFW_GFSM_STATE_N; lia |].
  assert (Ehook : hook_at T f (p * TFW_GFSM_STATE_N + w_state state) = Some h).
  { unfold hook_at, get2. rewrite Hhl. cbn. unfold zget. rewrite (proj2 (Z.ltb_ge _ 0)) by (unfold TFW_GFSM_STATE_N; lia). done. }
  assert (Ebat : bm_at T f p = Some bm) by (unfold bm_at, get2; by rewrite Hb).
  assert (Hu : is_u32 bm) by (rewrite Forall_lookup in Hbu; by eapply Hbu).
  cbn [move_loop hooks_on]. rewrite Eb, Ebat, Ehook, mask_bit by done.
  destruct (Z.testbit bm (w_state state)) eqn:Et; cbn [negb].
  2: { rewrite hooks_on_none; [exists r, c, l, m, w; by split_and! |]. intros q Hq Hbq. rewrite Forall_forall in Hlt. specialize (Hlt q Hq).
       pose proof (NG f p q (w_state state) Hsr ltac:(lia) Hbq) as Hbp. unfold bit_at in Hbp. rewrite Ebat in Hbp. cbn in Hbp. congruence. }
  destruct (to_hook T TOK f p _ bm h Hsr Ebat Et Ehook) as (Hok & Hst & Hrange).
  destruct (switch_sim l c m f state p h R Est Ehook Hok Hst Hrange) as (i & l1 & s & -> & Hi & Hs & Em & R1 & F1 & S1).
  cbn [a_hooks]. set (m1 := match m !! fsm_id h with None => _ | Some _ => _ end) in *. clearbody m1.
  rewrite FSM_STATE_at, Hs by done. fold (w_on s). unfold is_on at 1. rewrite Em. destruct (w_on s) eqn:Eo.
  - destruct (IH l1 (Z.of_nat i) m1 w r R1) as (r' & c' & l' & m' & w' & -> & E2 & R2 & F2 & S2); [by rewrite (off_same _ _ S1) | done |].
    exists r', c', l', m', w'. split_and!; [done | done | done | by eapply frame_trans | by eapply same_on_trans].
  - destruct (HE l1 (Z.of_nat i) m1 (fsm_id h) (w_state s) w R1 Em Hok) as (x & c2 & l2 & m2 & w2 & -> & -> & R2 & F2 & S2);
      [by rewrite (off_same _ _ S1) |].
    pose proof (frame_trans _ _ _ F1 F2) as F12. pose proof (same_on_trans _ _ _ S1 S2) as S12.
    destruct (x =? GFSM_BLOCK); [exists GFSM_BLOCK, c2, l2, m2, w2; by split_and! |].
    destruct (IH l2 c2 m2 w2 (if x =? GFSM_POSTPONE then GFSM_POSTPONE else r) R2) as (r' & c' & l' & m' & w' & -> & E3 & R3 & F3 & S3);
      [by rewrite (off_same _ _ S12) | done |].
    exists r', c', l', m', w'. split_and!; [done | done | done | by eapply frame_trans | by eapply same_on_trans].
Qed.

(** One move of the FSM in slot [i], whose handler runs. *)
Lemma move_sim n l i s m f state w :
  sim_exec n -> grel l m -> (off m <= n)%nat -> 0 <= f < TFW_FSM_NUM -> (i < 8)%nat ->
  l !! i = Some s -> word_ok s -> __GFSM_FSM s = f -> w_on s = true ->
  0 <= state -> Z.shiftr state TFW_GFSM_FSM_SHIFT = f ->
  exists r l' s' m' w', tfw_gfsm_move T (gfsm_exec T n) (MkGState (Z.of_nat i) l) state w = Ok (r, MkGState (Z.of_nat i) l', w')
    /\ a_move T (a_exec T n) f state m w = Some (r, m', w') /\ grel l' m'
    /\ l' !! i = Some s' /\ word_ok s' /\ __GFSM_FSM s' = f /\ w_on s' = true
    /\ (forall j t, j <> i -> l !! j = Some t -> word_ok t -> w_on t = true -> l' !! j = Some t) /\ same_on m m'.
Proof.
  intros HE R Hoff Hf Hi Hs Hw Ef Ho H0 Est. unfold tfw_gfsm_move. rewrite FSM_STATE_at, Hs, Ef by done.
  destruct (to_bm T TOK f Hf) as (bml & Hb & _ & _). rewrite Hb. cbv zeta.
  destruct (word_move_ok s state Hw H0) as (Hw1 & Ef1 & Es1 & Eo1). fold (word_move s state).
  rewrite (set_FSM_STATE_at i l s) by done.
  pose proof (grel_update l m R i s (word_move s state) Hs Hw Hw1 Ef1) as R1. rewrite Ef, Es1, Eo1, Ho in R1.
  assert (Hmf : m !! f = Some (w_state s, true)).
  { destruct (gr_slot _ _ R i s Hs) as [-> | [_ E]]; [by apply word_not_bad in Hw |]. by rewrite Ef, Ho in E. }
  assert (S1 : same_on m (<[f := (w_state state, true)]> m)).
  { intros g. rewrite is_on_insert. destruct (decide _) as [<- |]; [| done]. unfold is_on. by rewrite Hmf. }
  fold (w_state state).
  destruct (move_loop_sim n (seqZ 0 16) bml (<[i := word_move s state]> l) (Z.of_nat i) (<[f := (w_state state, true)]> m)
              f state w GFSM_PASS HE R1) as (r & c' & l' & m' & w' & E1 & E2 & R2 & F2 & S2); try done.
  { by rewrite (off_same _ _ S1). }
  { apply Forall_seqZ. lia. }
  { apply (seqZ_sorted 0 16). }
  unfold TFW_GFSM_HOOK_PRIORITY_HIGH, TFW_GFSM_HOOK_PRIORITY_NUM, TFW_GFSM_PRIO_N. rewrite E1. cbn [curr states].
  pose proof (lookup_lt_Some _ _ _ Hs).
  exists r, l', (word_move s state), m', w'. split_and!; [| done | done | | done | congruence | congruence | | by eapply same_on_trans].
  - rewrite u8_slot by done. replace (s8 (Z.of_nat i)) with (Z.of_nat i); [done |]. unfold s8. rewrite Z.mod_small by lia. lia.
  - apply F2; [by rewrite list_lookup_insert_eq | done | congruence].
  - intros j t Hj Ht Hwt Hot. apply F2; [by rewrite list_lookup_insert_ne | done | done].
Qed.

Lemma run_sim n f h : sim_exec n -> owned f h -> 0 <= f < TFW_FSM_NUM ->
  forall l i s m, grel l m -> (off m <= n)%nat -> (i < 8)%nat ->
  l !! i = Some s -> word_ok s -> __GFSM_FSM s = f -> w_on s = true ->
  exists r l' s' m' w', run_handler T (gfsm_exec T n) h (MkGState (Z.of_nat i) l) = Ok (r, MkGState (Z.of_nat i) l', w')
    /\ a_run T (a_exec T n) f h m = Some (r, m', w') /\ grel l' m'
    /\ l' !! i = Some s' /\ word_ok s' /\ __GFSM_FSM s' = f /\ w_on s' = true
    /\ (forall j t, j <> i -> l !! j = Some t -> word_ok t -> w_on t = true -> l' !! j = Some t) /\ same_on m m'.
Proof.
  intros HE Ho Hf. induction Ho as [r w | state w k Est _ IH]; intros l i s m R Hoff Hi Hs Hw Ef Hon.
  { exists r, l, s, m, w. by split_and!. }
  cbn [run_handler a_run].
  destruct (move_sim n l i s m f (u16 state) w) as (r1 & l1 & s1 & m1 & w1 & -> & -> & R1 & Hs1 & Hw1 & Ef1 & Ho1 & F1 & S1); try done.
  { apply Z.mod_pos_bound. lia. }
  destruct (IH r1 w1 l1 i s1 m1) as (r2 & l2 & s2 & m2 & w2 & -> & -> & R2 & Hs2 & Hw2 & Ef2 & Ho2 & F2 & S2); try done.
  { by rewrite (off_same _ _ S1). }
  exists r2, l2, s2, m2, w2. split_and!; try done; [| by eapply same_on_trans].
  intros j t Hj Ht Hwt Hot. apply F2; [done | by apply F1 | done | done].
Qed.

Lemma exec_sim n : sim_exec n.
Proof.
  induction n as [|n IH]; intros l c m g s0 w R Hm [Hg (h & Hh & Ho)] Hoff.
  { exfalso. assert (Hon : is_on m g = false) by (unfold is_on; by rewrite Hm). pose proof (off_push m g 0 Hg Hon). lia. }
  destruct (grel_found l m R g _ c Hm) as (i & s & E1 & Hi & Hs & Hw & Ef & Ev). injection Ev as Est Eon.
  destruct (word_push_ok s Hw) as (Hw1 & Ef1 & Es1 & Eo1).
  cbn [gfsm_exec a_exec]. unfold __gfsm_fsm_exec. cbv zeta. rewrite E1. rewrite (proj2 (Z.ltb_ge _ 0)) by lia. cbn [states].
  rewrite FSM_STATE_at, Hs by done. rewrite (set_FSM_STATE_at i l s) by done. rewrite Hh, Hm.
  pose proof (grel_update l m R i s _ Hs Hw Hw1 Ef1) as R1. rewrite Ef, Es1, Eo1, <- Est in R1.
  assert (Hoffg : is_on m g = false) by (unfold is_on; by rewrite Hm).
  pose proof (off_push m g s0 Hg Hoffg) as Hpush. pose proof (lookup_lt_Some _ _ _ Hs) as Hlt.
  destruct (run_sim n g (h w) IH (Ho w) Hg (<[i := Z.lor s TFW_GFSM_ONSTACK]> l) i (Z.lor s TFW_GFSM_ONSTACK) (<[g := (s0, true)]> m) R1)
    as (r & l' & s' & m' & w' & -> & -> & R2 & Hs2 & Hw2 & Ef2 & Ho2 & F2 & S2); try done; [lia | by rewrite list_lookup_insert_eq | congruence |].
  cbn [states]. rewrite zget_nat, Hs2. fold (w_state s').
  assert (Hm' : m' !! g = Some (w_state s', true)).
  { destruct (gr_slot _ _ R2 i s' Hs2) as [-> | [_ E]]; [by apply word_not_bad in Hw2 |]. by rewrite Ef2, Ho2 in E. }
  rewrite Hm'. pose proof (lookup_lt_Some _ _ _ Hs2) as Hlt2.
  assert (Hframe : forall v, frame l (<[i := v]> l')).
  { intros v j t Hj Ht Hot. assert (j <> i) by (intros ->; rewrite Hs in Hj; simplify_eq; congruence).
    rewrite list_lookup_insert_ne by done. apply F2; [done | by rewrite list_lookup_insert_ne | done | done]. }
  assert (Hsame : forall f, f <> g -> is_on m' f = is_on m f).
  { intros f Hne. rewrite (S2 f), is_on_insert. by rewrite decide_False by done. }
  destruct (w_state s' =? TFW_GFSM_STATE_LAST).
  - assert (set_FSM_STATE BAD_STATE (MkGState (Z.of_nat i) l') = Ok (MkGState (Z.of_nat i) (<[i := BAD_STATE]> l'))) as ->.
    { unfold set_FSM_STATE. cbn [curr states]. by rewrite u8_slot, (zset_nat _ _ _ s') by done. }
    cbn [states]. exists r, (-1), (<[i := BAD_STATE]> l'), (delete g m'), w'.
    split_and!; [done | done | rewrite <- Ef2; by apply grel_remove | apply Hframe |].
    intros f. destruct (decide (f = g)) as [-> | Hne]; [by rewrite Hoffg; unfold is_on; rewrite lookup_delete_eq |].
    rewrite <- Hsame by done. unfold is_on. by rewrite lookup_delete_ne.
  - destruct (word_pop_ok s' Hw2) as (Hw3 & Ef3 & Es3 & Eo3). rewrite u16_word, (zset_nat _ _ _ s') by done. cbn [curr].
    exists r, (Z.of_nat i), (<[i := Z.land s' (Z.lnot TFW_GFSM_ONSTACK)]> l'), (<[g := (w_state s', false)]> m'), w'.
    split_and!; [done | done | | apply Hframe |].
    + pose proof (grel_update l' m' R2 i s' _ Hs2 Hw2 Hw3 Ef3) as R3. by rewrite Ef2, Es3, Eo3 in R3.
    + intros f. rewrite is_on_insert. destruct (decide _) as [<- | Hne]; [done | by apply Hsame].
Qed.
End simulation.

(** ** Registration of hooks *)

Lemma zset_some {A} (l : list A) i v : 0 <= i < zlen l ->
  exists l', zset l i v = Ok l' /\ length l' = length l /\ (forall j, zget l' j = if decide (i = j) then Some v else zget l j).
Proof.
  intros Hi. unfold zset. rewrite (proj2 (Z.leb_le 0 i)), (proj2 (Z.ltb_lt i _)) by lia. cbn [andb]. eexists. split; [done |].
  split; [apply length_insert |]. intros j. unfold zget, zlen in *. destruct (Z.ltb_spec j 0) as [Hj|Hj]; [by rewrite decide_False by lia |].
  destruct (decide (i = j)) as [<- |]; [by rewrite list_lookup_insert_eq by lia | by rewrite list_lookup_insert_ne by lia].
Qed.

Lemma zget_bound {A} (l : list A) i x : zget l i = Some x -> 0 <= i < zlen l.
Proof. unfold zget, zlen. destruct (Z.ltb_spec i 0); [done |]. intros Hl%lookup_lt_Some. lia. Qed.

Lemma zget_Some {A} (l : list A) i : 0 <= i < zlen l -> exists x, zget l i = Some x.
Proof.
  intros Hi. unfold zget, zlen in *. rewrite (proj2 (Z.ltb_ge i 0)) by lia. apply lookup_lt_is_Some_2. lia.
Qed.

Lemma upd2_some {A} (t : list (list A)) i j v l : zget t i = Some l -> 0 <= j < zlen l ->
  exists t', upd2 t i j v = Ok t' /\ (forall a b, get2 t' a b = if decide (a = i /\ b = j) then Some v else get2 t a b)
    /\ (forall a la, zget t' a = Some la -> exists la0, zget t a = Some la0 /\ length la = length la0)
    /\ (forall a la0, zget t a = Some la0 -> exists la, zget t' a = Some la /\ length la = length la0).
Proof.
  intros Hl Hj. unfold upd2. rewrite Hl. destruct (zset_some l j v Hj) as (l1 & -> & Hlen & Hg).
  destruct (zset_some t i l1 (zget_bound _ _ _ Hl)) as (t1 & -> & _ & Ht). exists t1. split_and!; [done | | |].
  - intros a b. unfold get2. rewrite Ht. destruct (decide (i = a)) as [<- | Hne].
    + cbn. rewrite Hg, Hl. cbn. destruct (decide (j = b)) as [<- |]; [by rewrite decide_True by done |].
      rewrite decide_False by (intros [_ ?]; by simplify_eq). done.
    + by rewrite decide_False by (intros [? _]; by simplify_eq).
  - intros a la. rewrite Ht. destruct (decide (i = a)) as [<- |]; [intros; simplify_eq; by exists l | by exists la].
  - intros a la. rewrite Ht. destruct (decide (i = a)) as [<- |]; [intros; simplify_eq; by exists l1 | by exists la].
Qed.

Lemma set_bit_u32 b k : is_u32 b -> 0 <= k < 32 -> is_u32 (Z.lor b (2 ^ k)).
Proof.
  unfold is_u32. intros Hb Hk. pose proof (pow2_pos k).
  assert (Hw : 0 <= Z.lor b (2 ^ k)) by (apply Z.lor_nonneg; lia). split; [done |].
  destruct (Z.lt_ge_cases (Z.lor b (2 ^ k)) (2 ^ 32)) as [| Hge]; [done |]. exfalso.
  assert (Hlog : Z.log2 (Z.lor b (2 ^ k)) < 32); [| apply Z.log2_le_pow2 in Hge; lia].
  rewrite Z.log2_lor, Z.log2_pow2 by lia.
  destruct (Z.eq_dec b 0) as [-> |]; [simpl; lia |]. assert (Z.log2 b < 32) by (apply Z.log2_lt_pow2; lia). lia.
Qed.

Section registering.
Context {W : Type}.
Implicit Types (T : GfsmTables W).

Definition hook_shift (p s : Z) : Z := p * TFW_GFSM_STATE_N + s.

Lemma hooks_on_ext T T' ps f s :
  (forall p, p ∈ ps -> bit_at T' f p s = bit_at T f p s /\ hook_at T' f (hook_shift p s) = hook_at T f (hook_shift p s)) ->
  hooks_on T' ps f s = hooks_on T ps f s.
Proof.
  induction ps as [|p ps IH]; intros H; [done |]. cbn [hooks_on]. destruct (H p) as [Hb Hh]; [left |].
  unfold bit_at in Hb. unfold hook_shift in Hh. rewrite Hh, IH by (intros q Hq; apply H; by right).
  destruct (bm_at T' f p), (bm_at T f p); cbn in Hb; simplify_eq; [| done]. by rewrite Hb.
Qed.

Lemma hooks_on_app T ps qs f s : hooks_on T (ps ++ qs) f s = hooks_on T ps f s ++ hooks_on T qs f s.
Proof.
  induction ps as [|p ps IH]; [done |]. cbn [hooks_on app]. rewrite IH. destruct (bm_at T f p) as [bm|]; [| done].
  destruct (hook_at T f _); [| done]. by destruct (Z.testbit bm s).
Qed.

Section ok.
Context (T : GfsmTables W) (fsm s : Z).
Hypothesis TOK : tables_ok T.
Hypothesis Hfsm : 0 <= fsm < TFW_FSM_NUM.
Hypothesis Hs : 0 <= s < 32.

Lemma bm_at_some p : 0 <= p < 16 -> exists bm, bm_at T fsm p = Some bm /\ is_u32 bm.
Proof.
  intros Hp. destruct (to_bm T TOK fsm Hfsm) as (l & Hl & Hlen & Hu). unfold bm_at, get2. rewrite Hl. cbn.
  destruct (zget_Some l p) as [bm Hbm]; [unfold zlen; lia |]. exists bm. split; [done |].
  unfold zget in Hbm. destruct (p <? 0); [done |]. rewrite Forall_lookup in Hu. by eapply Hu.
Qed.

Lemma hook_at_some p : 0 <= p < 16 -> exists h, hook_at T fsm (hook_shift p s) = Some h.
Proof.
  intros Hp. destruct (to_hooks T TOK fsm Hfsm) as (l & Hl & Hlen). unfold hook_at, get2. rewrite Hl. cbn.
  apply zget_Some. unfold zlen, hook_shift, TFW_GFSM_STATE_N. lia.
Qed.

Lemma st_bit_test bm : (Z.land bm (u32 (Z.shiftl 1 s)) =? 0) = negb (Z.testbit bm s).
Proof.
  rewrite <- has_flag_shift by lia. unfold has_flag. rewrite negb_involutive. f_equal. f_equal.
  rewrite Z.shiftl_1_l. apply u32_small. unfold is_u32. pose proof (pow2_pos s).
  assert (2 ^ s < 2 ^ 32) by (apply Z.pow_lt_mono_r; lia). lia.
Qed.

Lemma free_prio_ok a n : 0 <= a -> a + Z.of_nat n = 16 ->
  exists p, free_prio T fsm (u32 (Z.shiftl 1 s)) (seqZ a (Z.of_nat n)) = Ok p /\ a <= p <= 16
    /\ (forall q, a <= q < p -> bit_at T fsm q s = Some true) /\ (p < 16 -> bit_at T fsm p s = Some false).
Proof.
  revert a. induction n as [|n IH]; intros a Ha Hn.
  { rewrite seqZ_nil by lia. exists 16. split_and!; [done | lia | lia | intros; lia | lia]. }
  rewrite seqZ_cons by lia. cbn [free_prio]. destruct (bm_at_some a) as (bm & Ebm & _); [lia |]. rewrite Ebm, st_bit_test.
  destruct (Z.testbit bm s) eqn:Et; cbn [negb].
  - replace (Z.pred (Z.of_nat (S n))) with (Z.of_nat n) by lia.
    destruct (IH (Z.succ a)) as (p & -> & Hp & Hset & Hun); [lia | lia |]. exists p. split_and!; [done | lia | lia | | done].
    intros q Hq. destruct (decide (q = a)) as [-> |]; [unfold bit_at; by rewrite Ebm; cbn; rewrite Et | apply Hset; lia].
  - exists a. split_and!; [done | lia | lia | intros; lia |]. intros _. unfold bit_at. by rewrite Ebm; cbn; rewrite Et.
Qed.

(** Setting a hook in a free place. *)
Lemma set_hook_ok p g st h :
  0 <= p < 16 -> bit_at T fsm p s = Some false -> fsm_ok T g -> __GFSM_FSM st = g -> 0 <= st < 2 ^ 13 -> h = MkHook st g ->
  exists T1 bm T2, set_hook T fsm (hook_shift p s) h = Ok T1 /\ bm_at T1 fsm p = Some bm
    /\ set_bm T1 fsm p (Z.lor bm (u32 (Z.shiftl 1 s))) = Ok T2 /\ fsm_htbl T2 = fsm_htbl T
    /\ (forall f q x, 0 <= x < 32 -> bit_at T2 f q x = if decide (f = fsm /\ q = p /\ x = s) then Some true else bit_at T f q x)
    /\ (forall f q x, 0 <= x < 32 -> 0 <= q -> hook_at T2 f (hook_shift q x)
          = if decide (f = fsm /\ q = p /\ x = s) then Some h else hook_at T f (hook_shift q x))
    /\ tables_ok T2.
Proof.
  intros Hp Hbit Hg Est Hst ->. destruct (to_hooks T TOK fsm Hfsm) as (hl & Hhl & Hlen).
  destruct (upd2_some (fsm_hooks T) fsm (hook_shift p s) (MkHook st g) hl Hhl) as (t1 & E1 & G1 & L1 & L1');
    [unfold hook_shift, TFW_GFSM_STATE_N, zlen; lia |].
  destruct (to_bm T TOK fsm Hfsm) as (bl & Hbl & Hbll & Hbu).
  destruct (bm_at_some p Hp) as (bm & Ebm & Hbm32).
  destruct (upd2_some (fsm_hooks_bm T) fsm p (Z.lor bm (u32 (Z.shiftl 1 s))) bl Hbl) as (t2 & E2 & G2 & L2 & L2'); [unfold zlen; lia |].
  unfold set_hook, set_bm. rewrite E1. exists (MkTables (fsm_htbl T) t1 (fsm_hooks_bm T)), bm, (MkTables (fsm_htbl T) t1 t2).
  cbn [fsm_hooks_bm fsm_hooks fsm_htbl]. rewrite E2.
  assert (Hbits : u32 (Z.shiftl 1 s) = 2 ^ s).
  { rewrite Z.shiftl_1_l. apply u32_small. unfold is_u32. pose proof (pow2_pos s). assert (2 ^ s < 2 ^ 32) by (apply Z.pow_lt_mono_r; lia). lia. }
  assert (B : forall f q x, 0 <= x < 32 -> bit_at (MkTables (fsm_htbl T) t1 t2) f q x = if decide (f = fsm /\ q = p /\ x = s) then Some true else bit_at T f q x).
  { intros f q x Hx. unfold bit_at, bm_at. cbn [fsm_hooks_bm]. rewrite G2. destruct (decide (f = fsm /\ q = p)) as [[-> ->] | Hne].
    - cbn. unfold bm_at in Ebm. rewrite Ebm, Hbits, Z.lor_spec, Z.pow2_bits_eqb by lia. cbn.
      destruct (Z.eqb_spec s x) as [<- |]; [rewrite decide_True by done; by rewrite orb_true_r | rewrite decide_False by (intros (_ & _ & ?); lia); by rewrite orb_false_r].
    - rewrite decide_False by tauto. done. }
  assert (H : forall f q x, 0 <= x < 32 -> 0 <= q -> hook_at (MkTables (fsm_htbl T) t1 t2) f (hook_shift q x)
          = if decide (f = fsm /\ q = p /\ x = s) then Some (MkHook st g) else hook_at T f (hook_shift q x)).
  { intros f q x Hx Hq. unfold hook_at. cbn [fsm_hooks]. rewrite G1. unfold hook_shift, TFW_GFSM_STATE_N.
    destruct (decide (f = fsm /\ q = p /\ x = s)) as [(-> & -> & ->) |]; [by rewrite decide_True by done |].
    rewrite decide_False; [done |]. intros [-> E]. assert (q = p /\ x = s) by lia. tauto. }
  split_and!; try done. split.
  - intros f Hf. destruct (to_bm T TOK f Hf) as (l & Hl & Hll & Hu). destruct (L2' f l Hl) as (l' & Hl' & Hll').
    exists l'. split; [done |]. split; [lia |]. apply Forall_lookup. intros i b Hi.
    assert (Hb : get2 t2 f (Z.of_nat i) = Some b) by (unfold get2; rewrite Hl'; cbn; by rewrite zget_nat).
    rewrite G2 in Hb. destruct (decide _) as [[-> <-] | _].
    + simplify_eq. rewrite Hbits. by apply set_bit_u32.
    + unfold get2 in Hb. rewrite Hl in Hb. cbn in Hb. rewrite zget_nat in Hb. rewrite Forall_lookup in Hu. by eapply Hu.
  - intros f Hf. destruct (to_hooks T TOK f Hf) as (l & Hl & Hll). destruct (L1' f l Hl) as (l' & Hl' & Hll'). exists l'. split; [done | lia].
  - intros f q x b h Hx Eb Et Eh. pose proof (B f q x Hx) as Bq. unfold bit_at in Bq. rewrite Eb in Bq. cbn in Bq. rewrite Et in Bq.
    destruct (decide (f = fsm /\ q = p /\ x = s)) as [| Hne]; [by simplify_eq |].
    assert (Hq : 0 <= q) by (unfold bm_at, get2 in Eb; destruct (zget _ f); cbn in Eb; [by apply zget_bound in Eb as [? _] | done]).
    fold (hook_shift q x) in Eh. rewrite (H f q x Hx Hq), decide_False in Eh by done.
    destruct (bm_at T f q) as [b0|] eqn:Eb0; cbn in Bq; simplify_eq. by eapply (to_free T TOK f q x b0 h).
  - intros f q x b h Hx Eb Et Eh. pose proof (B f q x Hx) as Bq. unfold bit_at in Bq. rewrite Eb in Bq. cbn in Bq. rewrite Et in Bq.
    assert (Hq : 0 <= q) by (unfold bm_at, get2 in Eb; destruct (zget _ f); cbn in Eb; [by apply zget_bound in Eb as [? _] | done]).
    fold (hook_shift q x) in Eh. rewrite (H f q x Hx Hq) in Eh.
    destruct (decide (f = fsm /\ q = p /\ x = s)) as [| Hne]; [simplify_eq; done |].
    destruct (bm_at T f q) as [b0|] eqn:Eb0; cbn in Bq; simplify_eq. by eapply (to_hook T TOK f q x b0 h).
Qed.

(** The hooks when one is put in a free place. *)
Lemma hooks_inserted T2 p h :
  0 <= p < 16 -> bit_at T fsm p s = Some false -> bit_at T2 fsm p s = Some true -> hook_at T2 fsm (hook_shift p s) = Some h ->
  (forall q, 0 <= q -> q <> p -> bit_at T2 fsm q s = bit_at T fsm q s /\ hook_at T2 fsm (hook_shift q s) = hook_at T fsm (hook_shift q s)) ->
  exists before behind, hooks_on T (seqZ 0 16) fsm s = before ++ behind
    /\ hooks_on T2 (seqZ 0 16) fsm s = before ++ (fsm_id h, w_state (st0 h)) :: behind
    /\ before = hooks_on T (seqZ 0 p) fsm s /\ behind = hooks_on T (seqZ (p + 1) (15 - p)) fsm s.
Proof.
  intros Hp Hfree Hb2 Hh2 Hext.
  assert (Hsplit : seqZ 0 16 = seqZ 0 p ++ p :: seqZ (p + 1) (15 - p)).
  { replace 16 with (p + (1 + (15 - p))) at 1 by lia. rewrite (seqZ_app 0 p), Z.add_0_l by lia. f_equal. rewrite seqZ_cons by lia. f_equal. f_equal; lia. }
  exists (hooks_on T (seqZ 0 p) fsm s), (hooks_on T (seqZ (p + 1) (15 - p)) fsm s). rewrite Hsplit, !hooks_on_app.
  rewrite (hooks_on_ext T T2 (seqZ 0 p)) by (intros q Hq%elem_of_seqZ; apply Hext; lia). cbn [hooks_on].
  rewrite (hooks_on_ext T T2 (seqZ (p + 1) _)) by (intros q Hq%elem_of_seqZ; apply Hext; lia).
  destruct (hook_at_some p Hp) as [h0 Hh0]. unfold hook_shift in Hh2, Hh0. rewrite Hh2, Hh0. unfold bit_at in Hb2, Hfree.
  destruct (bm_at T2 fsm p); [| done]. destruct (bm_at T fsm p); [| done]. cbn in Hb2, Hfree. injection Hb2 as ->. by injection Hfree as ->.
Qed.
End ok.
End registering.

Lemma tables_no_hooks {W} (ht : list (option (W -> hprog W))) :
  tables_ok (MkTables ht (fsm_hooks (W := W) gfsm_init) (fsm_hooks_bm (W := W) gfsm_init)).
Proof.
  assert (Hz : forall A n f x, f < Z.of_nat n -> 0 <= f -> zget (replicate n x) f = Some (x : A)).
  { intros A n f x Hn Hf. unfold zget. rewrite (proj2 (Z.ltb_ge f 0)) by lia. apply lookup_replicate_2. lia. }
  assert (H0 : forall f p bm, bm_at (MkTables ht (fsm_hooks (W := W) gfsm_init) (fsm_hooks_bm (W := W) gfsm_init)) f p = Some bm -> bm = 0).
  { intros f p bm. unfold bm_at, get2, zget, fsm_hooks_bm, gfsm_init. destruct (f <? 0); [done |].
    destruct (replicate 5 (replicate 16 0) !! Z.to_nat f) as [l|] eqn:El; [| done]. cbn. destruct (p <? 0); [done |].
    apply lookup_replicate_1 in El as [-> _]. by intros [-> _]%lookup_replicate_1. }
  split.
  - intros f Hf. exists (replicate 16 0). split; [apply Hz; unfold TFW_FSM_NUM in Hf; lia |]. split; [done |].
    apply Forall_replicate. unfold is_u32. lia.
  - intros f Hf. exists (replicate 512 (MkHook 0 0)). split; [apply Hz; unfold TFW_FSM_NUM in Hf; lia |]. apply length_replicate.
  - intros f p s bm h _ Hb _. unfold hook_at, get2, zget, fsm_hooks, gfsm_init. destruct (f <? 0); [done |].
    destruct (replicate 5 (replicate 512 (MkHook 0 0)) !! Z.to_nat f) as [l|] eqn:El; [| done]. cbn [mbind option_bind].
    apply lookup_replicate_1 in El as [-> _]. destruct (_ <? 0); [done |]. by intros [-> _]%lookup_replicate_1.
  - intros f p s bm h _ Hb Ht _. apply H0 in Hb as ->. by rewrite Z.bits_0 in Ht.
Qed.

(** C30: The engine is the abstract machine.  When the hooks lead to FSMs with handlers that move only their own FSM and the
    hooks of each state have the first priorities ([no_gaps], which registration keeps: without it the walk of
    [tfw_gfsm_move()] ends at the gap and not at the last hook, [gap_hides_hooks]), dispatching data to an FSM that is not
    running returns for any such handlers (no [BUG_ON], no index outside a table, and
    handlers nest at most as deep as there are FSMs, because an FSM on the stack is not entered again), with the result, the
    states and the world of the abstract machine: all hooked FSMs run in the order of their priority, a blocking one ends the
    walk, a postponing one is remembered, finished FSMs are forgotten.  A new connection starts in the state of its FSM. *)
Theorem gfsm_refines {W} (T : GfsmTables W) :
  tables_ok T -> no_gaps T ->
  (forall l c m ty s w, grel l m -> m !! Z.land ty TFW_GFSM_FSM_MASK = Some (s, false) -> fsm_ok T (Z.land ty TFW_GFSM_FSM_MASK) ->
     exists r st' m' w', tfw_gfsm_dispatch T 5 ty (MkGState c l) w = Ok (r, st', w')
       /\ a_exec T 5 m (Z.land ty TFW_GFSM_FSM_MASK) w = Some (r, m', w') /\ grel (states st') m'
       /\ forall f, is_on m' f = is_on m f)
  /\ (forall st, 0 <= st < 2 ^ 13 -> 0 <= __GFSM_FSM st < TFW_FSM_NUM ->
     exists g, tfw_gfsm_state_init 0 st = Ok g /\ grel (states g) {[__GFSM_FSM st := (w_state st, false)]}).
Proof.
  intros TOK NG. split.
  - intros l c m ty s w R Hm Hok. assert (Hoff : (off m <= 5)%nat).
    { unfold off. change 5%nat with (length (seqZ 0 TFW_FSM_NUM)). induction (seqZ 0 TFW_FSM_NUM) as [|x k IH]; [done |].
      simpl. destruct (is_on m x); lia. }
    destruct (exec_sim T TOK NG 5 l c m _ s w R Hm Hok Hoff) as (r & c' & l' & m' & w' & E1 & E2 & R' & _ & S').
    exists r, (MkGState c' l'), m', w'. by split_and!.
  - intros st Hst Hf. assert (Hw : word_ok st) by (unfold word_ok; lia). eexists. split; [apply (set_FSM_STATE_at 0 (replicate 8 BAD_STATE) BAD_STATE); [lia | done | done] |].
    assert (Hoff : w_on st = false).
    { rewrite w_on_bit. destruct (Z.eq_dec st 0) as [-> |]; [done |]. apply Z.bits_above_log2; [lia |]. apply Z.log2_lt_pow2; lia. }
    rewrite <- insert_empty, <- Hoff. apply (grel_add (replicate 8 BAD_STATE) ∅); [| done | done | done | done].
    assert (Hb : forall i s, replicate 8 BAD_STATE !! i = Some s -> s = BAD_STATE) by (intros i s [-> _]%lookup_replicate_1; done).
    split; [done | left; by eapply Hb | done |]. intros i j s t Hi _ Hs. apply Hb in Hi as ->. by apply word_not_bad in Hs.
Qed.

(** C31: Registering a hook of a registered FSM with TFW_GFSM_HOOK_PRIORITY_ANY on a state that can be hooked, in sound tables ([tables_ok]), has
    exactly three results.  When all priorities
    of the state are taken it is -EBUSY, and when one is free but the hooked FSM is not registered it is -ENOENT; the tables do
    not change.  When one is free and the FSM is registered it is the first free priority: the hook is called behind those of
    higher priority and in front of the others, the hooks of other states and the handlers stay as they are, and hooks without
    gaps stay without gaps.  The tables stay sound. *)
Theorem gfsm_register_correct {W} (T : GfsmTables W) (fsm state g st : Z) :
  tables_ok T -> 0 <= fsm < TFW_FSM_NUM -> zlen (fsm_htbl T) = TFW_FSM_NUM -> w_state state <> 0 ->
  fsm_ok T g -> __GFSM_FSM st = g -> 0 <= st < 2 ^ 13 ->
  let s := w_state state in
  exists r T', tfw_gfsm_register_hook T fsm TFW_GFSM_HOOK_PRIORITY_ANY state g st = Ok (r, T') /\ tables_ok T'
    /\ ((forall p, 0 <= p < 16 -> bit_at T fsm p s = Some true) /\ r = - EBUSY /\ T' = T
        \/ exists p, 0 <= p < 16 /\ (forall q, 0 <= q < p -> bit_at T fsm q s = Some true) /\ bit_at T fsm p s = Some false
           /\ (zget (fsm_htbl T) fsm = Some None /\ r = - ENOENT /\ T' = T
               \/ (exists h, zget (fsm_htbl T) fsm = Some (Some h)) /\ r = p /\ fsm_htbl T' = fsm_htbl T
                  /\ hooks_on T (seqZ 0 16) fsm s = hooks_on T (seqZ 0 p) fsm s ++ hooks_on T (seqZ (p + 1) (15 - p)) fsm s
                  /\ hooks_on T' (seqZ 0 16) fsm s
                     = hooks_on T (seqZ 0 p) fsm s ++ (g, w_state st) :: hooks_on T (seqZ (p + 1) (15 - p)) fsm s
                  /\ (forall f x, 0 <= x < 32 -> (f, x) <> (fsm, s) -> hooks_on T' (seqZ 0 16) f x = hooks_on T (seqZ 0 16) f x)
                  /\ (no_gaps T -> no_gaps T'))).
Proof.
  intros TOK Hf Hht Hs0 Hg Est Hst s. pose proof (w_state_range state) as Hs. change (w_state state) with s in Hs, Hs0.
  unfold tfw_gfsm_register_hook. cbv zeta. fold (w_state state). fold s. rewrite (proj2 (Z.eqb_neq s 0) Hs0).
  change (TFW_GFSM_HOOK_PRIORITY_ANY =? TFW_GFSM_HOOK_PRIORITY_ANY) with true. cbn [andb].
  change (seqZ TFW_GFSM_HOOK_PRIORITY_HIGH TFW_GFSM_HOOK_PRIORITY_NUM) with (seqZ 0 (Z.of_nat 16)).
  destruct (free_prio_ok T fsm s TOK Hf Hs 0 16) as (p & -> & Hp & Hset & Hfree); [lia | lia |].
  unfold TFW_GFSM_HOOK_PRIORITY_NUM, TFW_GFSM_PRIO_N. destruct (Z.eqb_spec p 16) as [-> | Hne].
  { exists (- EBUSY), T. split; [done |]. split; [done |]. left. split_and!; [| done | done]. intros q Hq. apply Hset. lia. }
  specialize (Hfree ltac:(lia)). fold (hook_shift p s). destruct (hook_at_some T fsm s TOK Hf Hs p) as [h Hh]; [lia |]. rewrite Hh.
  assert (H0 : fsm_id h = 0).
  { unfold bit_at in Hfree. destruct (bm_at T fsm p) as [bm|] eqn:Eb; [| done]. cbn in Hfree. injection Hfree as Et.
    by eapply (to_free T TOK fsm p s bm h). }
  rewrite H0. cbn [negb Z.eqb]. destruct (zget_Some (fsm_htbl T) fsm) as [hd Ehd]; [rewrite Hht; done |]. rewrite Ehd. destruct hd as [hd|].
  2: { exists (- ENOENT), T. split; [done |]. split; [done |]. right. exists p. split_and!; [lia | lia | done | done |]. by left. }
  assert (Hg16 : u16 g = g) by (destruct Hg as [Hg _]; unfold TFW_FSM_NUM in Hg; apply Z.mod_small; lia). rewrite Hg16.
  destruct (set_hook_ok T fsm s TOK Hf Hs p g st (MkHook st g)) as (T1 & bm & T2 & -> & -> & -> & Htbl & B & H & TOK2); [lia | done | done | done | done | done |].
  exists p, T2. split; [done |]. split; [done |]. right. exists p. split_and!; [lia | lia | done | done |]. right.
  destruct (hooks_inserted T fsm s TOK Hf Hs T2 p (MkHook st g)) as (be & bh & HT & HT2 & -> & ->); [lia | done | | | |].
  - rewrite B by done. by rewrite decide_True by done.
  - rewrite H by (done || lia). by rewrite decide_True by done.
  - intros q Hq Hqp. rewrite B, H by lia. by rewrite !decide_False by tauto.
  - split_and!; [by exists hd | done | done | done | done | |].
    + intros f x Hx Hfx. apply hooks_on_ext. intros q Hq%elem_of_seqZ. rewrite B, H by lia. by rewrite !decide_False by (intros (-> & _ & ->); done).
    + intros NG f q1 q2 x Hx Hq. rewrite !B by done. destruct (decide (f = fsm /\ q1 = p /\ x = s)); [done |].
      destruct (decide (f = fsm /\ q2 = p /\ x = s)) as [(-> & -> & ->) |]; [intros _; apply Hset; lia | by apply NG].
Qed.

(** ** Examples *)

(** HTTP announces a whole request and returns what the hooks say; Frang blocks and finishes.  The world is the list of the
    handlers that ran. *)
Definition ex_http (w : list Z) : hprog (list Z) := HMove (GFSM_STATE TFW_FSM_HTTP 2) (w ++ [0]) (fun r w => HRet r w).
Definition ex_frang (w : list Z) : hprog (list Z) :=
  HMove (GFSM_STATE TFW_FSM_FRANG_REQ 31) (w ++ [2]) (fun _ w => HRet GFSM_BLOCK w).
Definition ex_pass (w : list Z) : hprog (list Z) := HRet GFSM_PASS (w ++ [3]).

Definition ex_tables0 : GfsmTables (list Z) :=
  MkTables [Some ex_http; None; Some ex_frang; Some ex_pass; None] (fsm_hooks (W := list Z) gfsm_init) (fsm_hooks_bm (W := list Z) gfsm_init).

(** The tables with the hooks of a list of FSMs on a whole request. *)
Fixpoint ex_tables (gs : list Z) (T : GfsmTables (list Z)) : GfsmTables (list Z) :=
  match gs with
  | [] => T
  | g :: gs =>
      match tfw_gfsm_register_hook T TFW_FSM_HTTP TFW_GFSM_HOOK_PRIORITY_ANY (GFSM_STATE TFW_FSM_HTTP 2) g (GFSM_STATE g 0) with
      | Ok (_, T) => ex_tables gs T
      | Bug => T
      end
  end.

Definition ex_run (T : GfsmTables (list Z)) : option (Z * list Z) :=
  match tfw_gfsm_state_init 0 (GFSM_STATE TFW_FSM_HTTP 0) with
  | Bug => None
  | Ok st => match tfw_gfsm_dispatch T 5 TFW_FSM_HTTP st [] with Ok (r, _, w) => Some (r, w) | Bug => None end
  end.

(** Frang in front blocks, so the other FSM does not see the request; behind it, both do. *)
Example ex_order :
  ex_run (ex_tables [2; 3] ex_tables0) = Some (GFSM_BLOCK, [0; 2])
  /\ ex_run (ex_tables [3; 2] ex_tables0) = Some (GFSM_BLOCK, [0; 3; 2]).
Proof. vm_compute. split; reflexivity. Qed.

Lemma ex_tables0_ok : tables_ok ex_tables0.
Proof. apply (tables_no_hooks (fsm_htbl ex_tables0)). Qed.

Lemma ex_http_ok (T : GfsmTables (list Z)) : fsm_htbl T = fsm_htbl ex_tables0 -> fsm_ok T 0 /\ fsm_ok T 2.
Proof.
  intros E. split.
  - split; [done |]. exists ex_http. rewrite E. split; [done |]. intros w. apply owned_move; [done |]. intros r w'. constructor.
  - split; [done |]. exists ex_frang. rewrite E. split; [done |]. intros w. apply owned_move; [done |]. intros r w'. constructor.
Qed.

(** The tables with one hook, that of Frang. *)
Definition ex_tables1 : GfsmTables (list Z) := Eval vm_compute in ex_tables [2] ex_tables0.

Lemma ex_tables1_ok : tables_ok ex_tables1 /\ no_gaps ex_tables1.
Proof.
  destruct (set_hook_ok ex_tables0 0 2 ex_tables0_ok) with (p := 0) (g := 2) (st := GFSM_STATE 2 0) (h := MkHook (GFSM_STATE 2 0) 2)
    as (T1 & bm & T2 & E1 & Eb & E2 & Ht & B & H & TOK); try done; [by apply ex_http_ok |].
  assert (T2 = ex_tables1) as <-.
  { vm_compute in E1. injection E1 as <-. vm_compute in Eb. injection Eb as <-. vm_compute in E2. injection E2 as <-. vm_compute. reflexivity. }
  split; [exact TOK |]. intros f p q s Hs Hq. rewrite !B by done. destruct (decide (f = 0 /\ p = 0 /\ s = 2)); [done |].
  rewrite decide_False by lia. unfold bit_at, bm_at, get2, zget. destruct (f <? 0); [done |]. simpl fsm_hooks_bm.
  destruct (Z.to_nat f) as [|[|[|[|[|k]]]]]; cbn; try done.
  all: destruct (q <? 0); [done |]; destruct (_ !! Z.to_nat q) as [x|] eqn:Ex; [| done].
  all: change [0; 0; 0; 0; 0; 0; 0; 0; 0; 0; 0; 0; 0; 0; 0; 0] with (replicate 16 0) in Ex; apply lookup_replicate_1 in Ex as [-> _]; cbn; by rewrite Z.bits_0.
Qed.

Lemma gfsm_refines_witness :
  hooks_on ex_tables1 (seqZ 0 16) 0 2 = [(2, 0)]
  /\ exists g, tfw_gfsm_state_init 0 (GFSM_STATE TFW_FSM_HTTP 0) = Ok g
  /\ exists r st' m' w', tfw_gfsm_dispatch ex_tables1 5 TFW_FSM_HTTP g [] = Ok (r, st', w')
       /\ a_exec ex_tables1 5 {[0 := (0, false)]} 0 [] = Some (r, m', w') /\ grel (states st') m'.
Proof.
  split; [by vm_compute |]. destruct (gfsm_refines ex_tables1 (proj1 ex_tables1_ok) (proj2 ex_tables1_ok)) as [Hd Hi].
  destruct (Hi (GFSM_STATE TFW_FSM_HTTP 0)) as (g & Eg & R); [by vm_compute | by vm_compute |].
  exists g. split; [exact Eg |]. destruct g as [c l]. destruct (Hd l c _ 0 0 [] R) as (r & st' & m' & w' & D1 & D2 & R' & _).
  - reflexivity.
  - by apply ex_http_ok.
  - exists r, st', m', w'. split; [exact D1 |]. split; [exact D2 | exact R'].
Defined.

(** A second hook is called behind the first. *)
Lemma gfsm_register_correct_witness :
  exists T', tfw_gfsm_register_hook ex_tables1 0 TFW_GFSM_HOOK_PRIORITY_ANY (GFSM_STATE 0 2) 2 (GFSM_STATE 2 5) = Ok (1, T') /\ tables_ok T'
    /\ no_gaps T' /\ hooks_on T' (seqZ 0 16) 0 2 = [(2, 0); (2, 5)].
Proof.
  destruct (gfsm_register_correct ex_tables1 0 (GFSM_STATE 0 2) 2 (GFSM_STATE 2 5)) as (r & T' & E & TOK & Hr);
    [exact (proj1 ex_tables1_ok) | done | done | done | by apply ex_http_ok | done | by vm_compute |].
  destruct Hr as [(Hall & _)|(p & Hp & Hset & Hfree & [(Hn & _)|(_ & -> & _ & _ & Hh & _ & Hg)])].
  - specialize (Hall 1 ltac:(lia)). by vm_compute in Hall.
  - by vm_compute in Hn.
  - assert (p = 1) as ->.
    { destruct (Z.eq_dec p 0) as [-> |]; [by vm_compute in Hfree |]. destruct (Z.eq_dec p 1); [done |]. specialize (Hset 1 ltac:(lia)). by vm_compute in Hset. }
    exists T'. split; [exact E |]. split; [exact TOK |]. split; [exact (Hg (proj2 ex_tables1_ok)) |]. exact Hh.
Defined.

(** ** Defects *)

(** The walk over the priorities stops at the first one without a hook: when the first of two hooks is removed, the second is
    not called any more. *)
Theorem gap_hides_hooks :
  match tfw_gfsm_unregister_hook (ex_tables [3; 2] ex_tables0) TFW_FSM_HTTP 0 (GFSM_STATE TFW_FSM_HTTP 2) with
  | Ok T => ex_run T = Some (GFSM_PASS, [0]) /\ bit_at T 0 1 2 = Some true
  | Bug => False
  end.
Proof. vm_compute. split; reflexivity. Qed.

(** A hook for FSM 0 (HTTP) looks like a free place, so a second registration with the same priority replaces it without
    an error. *)
Theorem http_hook_overwritten :
  match tfw_gfsm_register_hook ex_tables0 2 5 (GFSM_STATE 2 1) TFW_FSM_HTTP (GFSM_STATE 0 0) with
  | Ok (_, T) =>
      match tfw_gfsm_register_hook T 2 5 (GFSM_STATE 2 1) 3 (GFSM_STATE 3 0) with
      | Ok (r, T) => r = 5 /\ hook_at T 2 (hook_shift 5 1) = Some (MkHook (GFSM_STATE 3 0) 3)
      | Bug => False
      end
  | Bug => False
  end.
Proof. vm_compute. split; reflexivity. Qed.

(** When a hook of Frang can not be registered, its error code stays in the table as a priority, and the cleanup writes in
    front of the table of hooks. *)
Theorem failed_hook_removed :
  match tfw_http_limits_hooks_register (W := unit) gfsm_init frang_gfsm_hooks with
  | Ok (r, hs, T) => r = - EINVAL /\ tfw_http_limits_hooks_remove T hs = Bug
  | Bug => False
  end.
Proof. vm_compute. split; reflexivity. Qed.
