(* ===== verification/MpiMem.v ===== *)
(** * Big integers of the TLS library: memory, limbs and the assembly kernels

    [tls/bignum.h], [tls/bignum_x86-64.S].  An MPI is a sign, a number of used
    limbs and an array of 64-bit limbs, the least significant first.  The code
    passes MPIs by pointer and lets a result share its memory with an operand,
    so the model keeps a store of MPI objects, an operation names its arguments
    by their addresses, and a limb pointer is an object with an offset into its
    array.  A read or a write outside the array, a [BUG_ON] and [ud2] are [Bug].

    The kernels are translated instruction by instruction: [adc], [sbb], [shld],
    [shrd] with the carry flag threaded through the loops ([inc], [mov] and
    [loop] leave it alone).  Their lemmas describe the result as a number, for
    every way the operands can share memory. *)

From S2P Require Import Prelude.

(** ** Data *)

(** The radix of the limbs. *)
Definition BASE : Z := 2 ^ 64.

Definition BIL : nat := 64.
Definition CIL : nat := 8.
Definition TTLS_MPI_MAX_LIMBS : nat := 256.
Definition TTLS_MPI_MAX_SIZE : nat := 512.

(** [TlsMpi]: the array stands for [_off], its length is [limbs]; an MPI without
    an array has [_off = 0]. *)
Record TlsMpi := MkMpi {
  m_s : Z;
  m_used : nat;
  m_p : list Z
}.

Definition m_limbs (m : TlsMpi) : nat := length (m_p m).

(** The MPI objects by address; [junk] is what fresh memory holds. *)
Record MpiMem := MkMem {
  obj : gmap nat TlsMpi;
  junk : nat -> Z
}.

Abbreviation MM := (SM MpiMem).

Definition upd (X : nat) (m : TlsMpi) (st : MpiMem) : MpiMem :=
  MkMem (<[X := m]> (obj st)) (junk st).

Definition mpi_get (X : nat) : MM TlsMpi := fun st =>
  match obj st !! X with Some m => Ok (m, st) | None => Bug end.

Definition mpi_put (X : nat) (m : TlsMpi) : MM unit := sm_mod (upd X m).

Definition set_s (X : nat) (z : Z) : MM unit :=
  m <~ mpi_get X;; mpi_put X (MkMpi z (m_used m) (m_p m)).

Definition set_used (X : nat) (n : nat) : MM unit :=
  m <~ mpi_get X;; mpi_put X (MkMpi (m_s m) n (m_p m)).

Definition set_p (X : nat) (l : list Z) : MM unit :=
  m <~ mpi_get X;; mpi_put X (MkMpi (m_s m) (m_used m) l).

(** A limb pointer: an object and an offset in its array. *)
Record lptr := MkPtr { lp_obj : nat; lp_off : nat }.

Definition MPI_P (X : nat) : lptr := MkPtr X 0.
Definition padd (q : lptr) (n : nat) : lptr := MkPtr (lp_obj q) (lp_off q + n).

Definition rd (q : lptr) (i : nat) : MM Z :=
  m <~ mpi_get (lp_obj q);;
  match m_p m !! (lp_off q + i)%nat with Some v => sm_ret v | None => sm_bug end.

Definition wr (q : lptr) (i : nat) (v : Z) : MM unit :=
  m <~ mpi_get (lp_obj q);;
  if (lp_off q + i <? m_limbs m)%nat
  then mpi_put (lp_obj q) (MkMpi (m_s m) (m_used m) (<[(lp_off q + i)%nat := v]> (m_p m)))
  else sm_bug.

(** [bzero_fast(q, n * CIL)] *)
Definition bzero (q : lptr) (n : nat) : MM unit :=
  m <~ mpi_get (lp_obj q);;
  if (lp_off q + n <=? m_limbs m)%nat
  then mpi_put (lp_obj q)
         (MkMpi (m_s m) (m_used m) (list_inserts (lp_off q) (replicate n 0) (m_p m)))
  else sm_bug.

(** [memcpy_fast(x, y, n * CIL)] and [memmove] *)
Definition memcopy (x y : lptr) (n : nat) : MM unit :=
  my <~ mpi_get (lp_obj y);;
  mx <~ mpi_get (lp_obj x);;
  if (lp_off y + n <=? m_limbs my)%nat && (lp_off x + n <=? m_limbs mx)%nat
  then mpi_put (lp_obj x)
         (MkMpi (m_s mx) (m_used mx)
            (list_inserts (lp_off x) (take n (drop (lp_off y) (m_p my))) (m_p mx)))
  else sm_bug.

(** Memory from the per-CPU pools and the stack: an unused address, junk in the
    limbs. *)
Definition new_limbs (n : nat) (st : MpiMem) : list Z := junk st <$> seq 0 n.

Definition mpi_new (n : nat) : MM nat := fun st =>
  let X := fresh (dom (obj st) : gset nat) in
  Ok (X, upd X (MkMpi 1 0 (new_limbs n st)) st).

Definition mpi_free (X : nat) : MM unit :=
  sm_mod (fun st => MkMem (delete X (obj st)) (junk st)).

(** ** Instructions *)

Definition adc (a b : Z) (c : bool) : Z * bool :=
  let t := a + b + Z.b2z c in (u64 t, BASE <=? t).

Definition sbb (a b : Z) (c : bool) : Z * bool :=
  let t := a - b - Z.b2z c in (u64 t, t <? 0).

(** [shldq %cl, lo, hi] and [shrdq %cl, hi, lo], [%cl < 64]. *)
Definition shld (cl hi lo : Z) : Z := Z.lor (u64 (Z.shiftl hi cl)) (Z.shiftr lo (64 - cl)).
Definition shrd (cl lo hi : Z) : Z := Z.lor (Z.shiftr lo cl) (u64 (Z.shiftl hi (64 - cl))).

(** A loop over limb indices with the flag (or any value) it carries. *)
Fixpoint for_up {C} (body : nat -> C -> MM C) (n i : nat) (c : C) : MM C :=
  match n with
  | O => sm_ret c
  | S n => c' <~ body i c;; for_up body n (S i) c'
  end.

(** ** Kernels *)

Definition add_limb (x b a : lptr) (i : nat) (c : bool) : MM bool :=
  va <~ rd a i;; vb <~ rd b i;;
  let '(t, c') := adc va vb c in wr x i t;;; sm_ret c'.

Definition add_carry (x a : lptr) (i : nat) (c : bool) : MM bool :=
  va <~ rd a i;;
  let '(t, c') := adc 0 va c in wr x i t;;; sm_ret c'.

(** The counters of both loops start at [b_len] and [a_len - b_len + 1] and wrap
    if they are not positive. *)
Definition mpi_add_x86_64 (x : lptr) (x_len : nat) (b : lptr) (b_len : nat)
    (a : lptr) (a_len : nat) : MM Z :=
  bug_on ((b_len =? 0)%nat || (a_len <? b_len)%nat);;;
  c <~ for_up (add_limb x b a) b_len 0 false;;
  c <~ for_up (add_carry x a) (a_len - b_len) b_len c;;
  if negb c then sm_ret (Z.of_nat a_len)
  else if (x_len <? a_len)%nat then sm_ret (-1)
  else wr x a_len 1;;; sm_ret (Z.of_nat a_len + 1).

Definition sub_limb (x b a : lptr) (i : nat) (c : bool) : MM bool :=
  va <~ rd a i;; vb <~ rd b i;;
  let '(t, c') := sbb va vb c in wr x i t;;; sm_ret c'.

(** Four limbs of [.sub_by_4]: all the loads, then the stores. *)
Definition sub_by_4 (x b a : lptr) (i : nat) (c : bool) : MM bool :=
  a0 <~ rd a i;; a1 <~ rd a (i + 1);; a2 <~ rd a (i + 2);; a3 <~ rd a (i + 3);;
  b0 <~ rd b i;; b1 <~ rd b (i + 1);; b2 <~ rd b (i + 2);; b3 <~ rd b (i + 3);;
  let '(t0, c) := sbb a0 b0 c in
  let '(t1, c) := sbb a1 b1 c in
  let '(t2, c) := sbb a2 b2 c in
  let '(t3, c) := sbb a3 b3 c in
  wr x i t0;;; wr x (i + 1) t1;;; wr x (i + 2) t2;;; wr x (i + 3) t3;;;
  sm_ret c.

(** [.propagate_borrow]: [n] limbs of [A] are left; [ud2] when the borrow leaves
    the last of them.  Returns the limbs that are left for [.copy_msb]. *)
Fixpoint propagate_borrow (x a : lptr) (n i : nat) : MM nat :=
  match n with
  | O => sm_bug
  | S n =>
      va <~ rd a i;;
      let '(t, c) := sbb va 0 true in
      wr x i t;;; if c then propagate_borrow x a n (S i) else sm_ret n
  end.

Definition copy_limb (x a : lptr) (i : nat) (c : unit) : MM unit :=
  va <~ rd a i;; wr x i va.

Definition mpi_sub_x86_64 (x b a : lptr) (b_len a_len : nat) : MM unit :=
  bug_on (a_len <? b_len)%nat;;;
  c <~ for_up (fun k => sub_by_4 x b a (4 * k)) (b_len / 4) 0 false;;
  c <~ for_up (sub_limb x b a) (b_len mod 4) (4 * (b_len / 4)) c;;
  if negb c then for_up (copy_limb x a) (a_len - b_len) b_len tt
  else n <~ propagate_borrow x a (a_len - b_len) b_len;;
       if bool_decide (lp_obj x = lp_obj a /\ lp_off x = lp_off a) then sm_ret tt
       else for_up (copy_limb x a) n (a_len - n) tt.

Definition mpi_sub_x86_64_4_4 (x b a : lptr) : MM unit :=
  sub_by_4 x b a 0 false;;; sm_ret tt.

Definition mpi_sub_x86_64_5_4 (x b a : lptr) : MM unit :=
  c <~ sub_by_4 x b a 0 false;;
  va <~ rd a 4;; let '(t, _) := sbb va 0 c in wr x 4 t.

Definition mpi_sub_x86_64_3_3 (x b a : lptr) : MM unit :=
  a0 <~ rd a 0;; a1 <~ rd a 1;; a2 <~ rd a 2;;
  b0 <~ rd b 0;; b1 <~ rd b 1;; b2 <~ rd b 2;;
  let '(t0, c) := sbb a0 b0 false in
  let '(t1, c) := sbb a1 b1 c in
  let '(t2, c) := sbb a2 b2 c in
  wr x 0 t0;;; wr x 1 t1;;; wr x 2 t2.

Definition mpi_sub_x86_64_2_2 (x b a : lptr) : MM unit :=
  a0 <~ rd a 0;; a1 <~ rd a 1;;
  b0 <~ rd b 0;; b1 <~ rd b 1;;
  let '(t0, c) := sbb a0 b0 false in
  let '(t1, c) := sbb a1 b1 c in
  wr x 0 t0;;; wr x 1 t1.

(** [.shl_loop]: limbs [k], ..., [1]. *)
Fixpoint shl_loop (x a : lptr) (cl : Z) (k : nat) : MM unit :=
  match k with
  | O => sm_ret tt
  | S k' =>
      lo <~ rd a k';; hi <~ rd a k;;
      wr x k (shld cl hi lo);;; shl_loop x a cl k'
  end.

Definition mpi_shift_l_x86_64 (x a : lptr) (n : nat) (cl : Z) : MM unit :=
  bug_on (n =? 0)%nat;;;
  v <~ rd a (n - 1);; wr x n (shld cl 0 v);;;
  shl_loop x a cl (n - 1);;;
  v <~ rd a 0;; wr x 0 (u64 (Z.shiftl v cl)).

Definition mpi_shift_l_x86_64_4 (x a : lptr) (cl : Z) : MM unit :=
  a3 <~ rd a 3;; a2 <~ rd a 2;; a1 <~ rd a 1;; a0 <~ rd a 0;;
  wr x 4 (shld cl 0 a3);;; wr x 3 (shld cl a3 a2);;;
  wr x 2 (shld cl a2 a1);;; wr x 1 (shld cl a1 a0);;;
  wr x 0 (u64 (Z.shiftl a0 cl)).

Definition shr_limb (x : lptr) (cl : Z) (i : nat) (c : unit) : MM unit :=
  hi <~ rd x (i + 1);; lo <~ rd x i;; wr x i (shrd cl lo hi).

Definition mpi_shift_r_x86_64 (x : lptr) (n : nat) (cl : Z) : MM unit :=
  bug_on (n =? 0)%nat;;;
  for_up (shr_limb x cl) (n - 1) 0 tt;;;
  v <~ rd x (n - 1);; wr x (n - 1) (Z.shiftr v cl).

Definition mpi_shift_r_x86_64_4 (x : lptr) (cl : Z) : MM unit :=
  r8 <~ rd x 1;; r9 <~ rd x 2;; r10 <~ rd x 3;;
  v <~ rd x 0;; wr x 0 (shrd cl v r8);;;
  v <~ rd x 1;; wr x 1 (shrd cl v r9);;;
  v <~ rd x 2;; wr x 2 (shrd cl v r10);;;
  v <~ rd x 3;; wr x 3 (Z.shiftr v cl).

(** ** Values *)

Fixpoint lval (l : list Z) : Z :=
  match l with
  | [] => 0
  | a :: l => a + BASE * lval l
  end.

Definition limbs_ok (l : list Z) : Prop := Forall is_u64 l.

(** [BASE ^ n] for a number of limbs. *)
Definition bpow (n : nat) : Z := BASE ^ Z.of_nat n.

Definition mag (m : TlsMpi) : Z := lval (take (m_used m) (m_p m)).
Definition mval (m : TlsMpi) : Z := m_s m * mag m.

(** A well-formed MPI: a sign, at least one limb in use, no leading zero limb and
    a positive zero. *)
Record mpi_ok (m : TlsMpi) : Prop := {
  ok_sign : m_s m = 1 \/ m_s m = -1;
  ok_used : (1 <= m_used m <= m_limbs m)%nat;
  ok_limbs : limbs_ok (m_p m);
  ok_norm : m_used m = 1%nat \/ bpow (m_used m - 1) <= mag m;
  ok_zero : mag m = 0 -> m_s m = 1
}.

Lemma BASE_pos : 0 < BASE.
Proof. done. Qed.

Lemma u64_lt v : is_u64 v -> 0 <= v < BASE.
Proof. done. Qed.

Lemma u64_div t : t = u64 t + BASE * (t / BASE).
Proof. unfold u64, BASE. pose proof (Z.div_mod t (2 ^ 64)). lia. Qed.

Lemma u64_range t : is_u64 (u64 t).
Proof. apply Z.mod_pos_bound. done. Qed.

Lemma u64_shift t k : 0 <= t - BASE * k < BASE -> u64 t = t - BASE * k.
Proof. intros H. unfold u64. symmetry. apply (Z.mod_unique t (2 ^ 64) k); unfold BASE in *; lia. Qed.

#[global] Opaque BASE.

Lemma bpow_0 : bpow 0 = 1.
Proof. done. Qed.

Lemma bpow_S n : bpow (S n) = BASE * bpow n.
Proof. unfold bpow. rewrite Nat2Z.inj_succ, Z.pow_succ_r; lia. Qed.

Lemma bpow_add n k : bpow (n + k) = bpow n * bpow k.
Proof. unfold bpow. rewrite Nat2Z.inj_add, Z.pow_add_r; lia. Qed.

Lemma bpow_pos n : 0 < bpow n.
Proof. apply Z.pow_pos_nonneg; [apply BASE_pos | lia]. Qed.

Lemma bpow_1 : bpow 1 = BASE.
Proof. rewrite bpow_S, bpow_0. lia. Qed.

Lemma bpow_le n k : (n <= k)%nat -> bpow n <= bpow k.
Proof. intros. apply Z.pow_le_mono_r; [apply BASE_pos | lia]. Qed.

Lemma bpow_lt_inv n k : bpow n < bpow k -> (n < k)%nat.
Proof.
  intros H. destruct (le_lt_dec k n) as [Hl|]; [| done].
  pose proof (bpow_le k n Hl). lia.
Qed.

Lemma lval_app l k : lval (l ++ k) = lval l + bpow (length l) * lval k.
Proof.
  induction l as [|a l IH]; simpl length; simpl lval.
  - rewrite bpow_0. lia.
  - simpl. rewrite IH, bpow_S. lia.
Qed.

Lemma lval_snoc l v : lval (l ++ [v]) = lval l + bpow (length l) * v.
Proof. rewrite lval_app. simpl. lia. Qed.

Lemma lval_bounds l : limbs_ok l -> 0 <= lval l < bpow (length l).
Proof.
  induction 1 as [|a l Ha _ IH]; simpl length; simpl lval; [rewrite bpow_0; lia |].
  rewrite bpow_S. apply u64_lt in Ha. unfold limbs_ok in *.
  assert (BASE * (lval l + 1) <= BASE * bpow (length l)) by (apply Z.mul_le_mono_nonneg_l; lia).
  assert (0 <= BASE * lval l) by (apply Z.mul_nonneg_nonneg; lia). lia.
Qed.

Lemma lval_nonneg l : limbs_ok l -> 0 <= lval l.
Proof. intros H. pose proof (lval_bounds l H). lia. Qed.

Lemma lval_replicate n : lval (replicate n 0) = 0.
Proof. induction n; simpl; lia. Qed.

Lemma lval_take_S l i v :
  l !! i = Some v -> lval (take (S i) l) = lval (take i l) + bpow i * v.
Proof.
  intros Hi. rewrite (take_S_r _ _ _ Hi), lval_snoc, length_take_le; [done |].
  apply lookup_lt_Some in Hi. lia.
Qed.

Lemma limbs_ok_app l k : limbs_ok (l ++ k) <-> limbs_ok l /\ limbs_ok k.
Proof. apply Forall_app. Qed.

Lemma limbs_ok_take n l : limbs_ok l -> limbs_ok (take n l).
Proof. apply Forall_take. Qed.

Lemma limbs_ok_drop n l : limbs_ok l -> limbs_ok (drop n l).
Proof. apply Forall_drop. Qed.

Lemma limbs_ok_lookup l i v : limbs_ok l -> l !! i = Some v -> is_u64 v.
Proof. intros H. by apply Forall_lookup_1. Qed.

Lemma limbs_ok_snoc l v : limbs_ok l -> is_u64 v -> limbs_ok (l ++ [v]).
Proof. intros. apply limbs_ok_app. split; [done |]. by constructor. Qed.

Lemma limbs_ok_replicate n : limbs_ok (replicate n 0).
Proof. apply Forall_replicate. unfold is_u64. lia. Qed.

Lemma limbs_ok_inserts i k l : limbs_ok k -> limbs_ok l -> limbs_ok (list_inserts i k l).
Proof.
  intros Hk Hl. revert i. induction Hk as [|v k Hv Hk IH]; intros i; simpl; [done |].
  apply Forall_insert; [apply IH | done].
Qed.

#[export] Hint Resolve limbs_ok_take limbs_ok_drop limbs_ok_snoc limbs_ok_replicate
  limbs_ok_inserts u64_range : tfw.

(** Prefixes of an array whose first limbs were replaced. *)
Lemma take_inserts_0 (k l : list Z) : (length k <= length l)%nat -> take (length k) (list_inserts 0 k l) = k.
Proof.
  intros Hl. apply list_eq. intros i. destruct (decide (i < length k)%nat).
  - rewrite lookup_take_lt by done. rewrite list_lookup_inserts by lia. f_equal. lia.
  - rewrite !(lookup_ge_None_2); [done | lia | rewrite length_take; lia].
Qed.

Lemma inserts_snoc o r v (l : list Z) :
  <[(o + length r)%nat := v]> (list_inserts o r l) = list_inserts o (r ++ [v]) l.
Proof. rewrite list_inserts_app_l. simpl. f_equal. lia. Qed.

(** ** Carries and shifts as numbers *)

Lemma adc_spec a b c t c' :
  is_u64 a -> is_u64 b -> adc a b c = (t, c') ->
  is_u64 t /\ t + BASE * Z.b2z c' = a + b + Z.b2z c.
Proof.
  intros Ha%u64_lt Hb%u64_lt [= <- <-]. split; [apply u64_range |].
  rewrite (u64_shift _ (Z.b2z (BASE <=? a + b + Z.b2z c)));
    destruct (Z.leb_spec BASE (a + b + Z.b2z c)), c; simpl Z.b2z in *; lia.
Qed.

Lemma sbb_spec a b c t c' :
  is_u64 a -> is_u64 b -> sbb a b c = (t, c') ->
  is_u64 t /\ t - BASE * Z.b2z c' = a - b - Z.b2z c.
Proof.
  intros Ha%u64_lt Hb%u64_lt [= <- <-]. split; [apply u64_range |].
  rewrite (u64_shift _ (- Z.b2z (a - b - Z.b2z c <? 0)));
    destruct (Z.ltb_spec (a - b - Z.b2z c) 0), c; simpl Z.b2z in *; lia.
Qed.

#[global] Transparent BASE.

Lemma shl_split v cl : 0 <= cl < 64 -> is_u64 v ->
  v * 2 ^ cl = u64 (Z.shiftl v cl) + BASE * Z.shiftr v (64 - cl).
Proof.
  intros Hc Hv. rewrite Z.shiftl_mul_pow2, Z.shiftr_div_pow2 by lia.
  rewrite (u64_div (v * 2 ^ cl)) at 1. f_equal. f_equal. unfold BASE.
  replace 64 with ((64 - cl) + cl) at 1 by lia. rewrite Z.pow_add_r by lia.
  rewrite Z.div_mul_cancel_r; lia.
Qed.

Lemma shr_small v cl : 0 <= cl -> is_u64 v -> 0 <= Z.shiftr v cl <= v.
Proof.
  intros Hc Hv. unfold is_u64 in Hv. rewrite Z.shiftr_div_pow2 by done.
  split; [apply Z.div_pos; lia |]. apply Z.div_le_upper_bound; nia.
Qed.

Lemma shr_bound v cl : 0 <= cl < 64 -> is_u64 v -> 0 <= Z.shiftr v (64 - cl) < 2 ^ cl.
Proof.
  intros Hc Hv. unfold is_u64 in Hv. rewrite Z.shiftr_div_pow2 by lia.
  split; [apply Z.div_pos; lia |]. apply Z.div_lt_upper_bound; [lia |].
  rewrite <- Z.pow_add_r by lia. replace (64 - cl + cl) with 64 by lia. lia.
Qed.

Lemma shl_low v cl : 0 <= cl < 64 -> exists k, u64 (Z.shiftl v cl) = k * 2 ^ cl.
Proof.
  intros Hc. rewrite Z.shiftl_mul_pow2 by lia. unfold u64.
  exists (v mod 2 ^ (64 - cl)).
  replace 64 with ((64 - cl) + cl) at 1 by lia. rewrite Z.pow_add_r by lia.
  by rewrite Z.mul_mod_distr_r by lia.
Qed.

Lemma shld_spec hi lo cl : 0 <= cl < 64 -> is_u64 hi -> is_u64 lo ->
  shld cl hi lo = u64 (Z.shiftl hi cl) + Z.shiftr lo (64 - cl) /\ is_u64 (shld cl hi lo).
Proof.
  intros Hc Hh Hl. pose proof (shr_bound lo cl Hc Hl) as Hr.
  destruct (shl_low hi cl Hc) as [k Hk].
  assert (He : shld cl hi lo = u64 (Z.shiftl hi cl) + Z.shiftr lo (64 - cl)).
  { unfold shld. rewrite Hk, Z.lor_comm, lor_low_high by lia. lia. }
  split; [done |]. rewrite He, Hk. pose proof (u64_range (Z.shiftl hi cl)) as Hu.
  rewrite Hk in Hu. unfold is_u64 in *.
  assert (Hp : 2 ^ 64 = 2 ^ (64 - cl) * 2 ^ cl) by (rewrite <- Z.pow_add_r by lia; f_equal; lia).
  rewrite Hp in *. assert (k < 2 ^ (64 - cl)) by (apply (Z.mul_lt_mono_pos_r (2 ^ cl)); lia).
  split; [nia |]. assert ((k + 1) * 2 ^ cl <= 2 ^ (64 - cl) * 2 ^ cl)
    by (apply Z.mul_le_mono_nonneg_r; lia). lia.
Qed.

(** A right shift drops the low bits: [v = low + 2^cl * (v >> cl)]. *)
Lemma shrd_spec lo hi cl : 0 <= cl < 64 -> is_u64 hi -> is_u64 lo ->
  shrd cl lo hi * 2 ^ cl + lo mod 2 ^ cl = lo + BASE * (hi mod 2 ^ cl)
  /\ is_u64 (shrd cl lo hi).
Proof.
  intros Hc Hh Hl. destruct (decide (cl = 0)) as [->|Hn].
  { unfold shrd. rewrite Z.sub_0_r, Z.shiftr_0_r, !Z.mod_1_r.
    assert (u64 (Z.shiftl hi 64) = 0) as ->.
    { rewrite Z.shiftl_mul_pow2 by lia. unfold u64. apply Z.mod_mul. lia. }
    rewrite Z.lor_0_r. split; [lia | done]. }
  assert (Hp : 2 ^ 64 = 2 ^ (64 - cl) * 2 ^ cl).
  { rewrite <- Z.pow_add_r by lia. f_equal. lia. }
  assert (Hu : u64 (Z.shiftl hi (64 - cl)) = (hi mod 2 ^ cl) * 2 ^ (64 - cl)).
  { rewrite Z.shiftl_mul_pow2 by lia. unfold u64. rewrite Hp, (Z.mul_comm (2 ^ (64 - cl))).
    by rewrite Z.mul_mod_distr_r by lia. }
  assert (Hq : 0 <= Z.shiftr lo cl < 2 ^ (64 - cl)).
  { unfold is_u64 in Hl. rewrite Z.shiftr_div_pow2 by lia. split; [apply Z.div_pos; lia |].
    apply Z.div_lt_upper_bound; [lia |]. lia. }
  assert (He : shrd cl lo hi = Z.shiftr lo cl + (hi mod 2 ^ cl) * 2 ^ (64 - cl)).
  { unfold shrd. rewrite Hu, lor_low_high by lia. done. }
  pose proof (Z.mod_pos_bound hi (2 ^ cl) ltac:(lia)).
  rewrite He. split; [| unfold is_u64; nia].
  rewrite Z.shiftr_div_pow2 by lia. pose proof (Z.div_mod lo (2 ^ cl) ltac:(lia)).
  unfold BASE. nia.
Qed.

#[global] Opaque BASE.

(** ** Symbolic execution *)

Definition with_p (m : TlsMpi) (l : list Z) : TlsMpi := MkMpi (m_s m) (m_used m) l.

(** The store in which the limbs [r] replaced those of [X] from offset [o] on. *)
Definition spl (X : nat) (m : TlsMpi) (o : nat) (r : list Z) (st : MpiMem) : MpiMem :=
  upd X (with_p m (list_inserts o r (m_p m))) st.

Arguments spl : simpl never.
Arguments upd : simpl never.
Arguments adc : simpl never.
Arguments sbb : simpl never.
Arguments shld : simpl never.
Arguments shrd : simpl never.

Section Exec.
Implicit Types (st : MpiMem) (X : nat) (m : TlsMpi).

Lemma obj_upd_eq X m st : obj (upd X m st) !! X = Some m.
Proof. apply lookup_insert_eq. Qed.

Lemma obj_upd_ne X Y m st : X <> Y -> obj (upd X m st) !! Y = obj st !! Y.
Proof. apply lookup_insert_ne. Qed.

Lemma upd_upd X m m' st : upd X m (upd X m' st) = upd X m st.
Proof. unfold upd. simpl. f_equal. apply insert_insert_eq. Qed.

Lemma upd_comm X Y m m' st : X <> Y -> upd X m (upd Y m' st) = upd Y m' (upd X m st).
Proof. intros. unfold upd. simpl. f_equal. by apply insert_insert_ne. Qed.

Lemma upd_same X m st : obj st !! X = Some m -> upd X m st = st.
Proof. intros H. unfold upd. rewrite insert_id by done. by destruct st. Qed.

Lemma wp_mpi_get X m (Q : TlsMpi -> MpiMem -> Prop) st :
  obj st !! X = Some m -> Q m st -> wp (mpi_get X) Q st.
Proof. intros H HQ. unfold wp, mpi_get. by rewrite H. Qed.

Lemma wp_mpi_put X m (Q : unit -> MpiMem -> Prop) st : Q tt (upd X m st) -> wp (mpi_put X m) Q st.
Proof. done. Qed.

Lemma wp_set_s X m z (Q : unit -> MpiMem -> Prop) st :
  obj st !! X = Some m -> Q tt (upd X (MkMpi z (m_used m) (m_p m)) st) -> wp (set_s X z) Q st.
Proof. intros. apply wp_bind. by eapply wp_mpi_get. Qed.

Lemma wp_set_used X m n (Q : unit -> MpiMem -> Prop) st :
  obj st !! X = Some m -> Q tt (upd X (MkMpi (m_s m) n (m_p m)) st) -> wp (set_used X n) Q st.
Proof. intros. apply wp_bind. by eapply wp_mpi_get. Qed.

Lemma wp_rd q i m v (Q : Z -> MpiMem -> Prop) st :
  obj st !! lp_obj q = Some m -> m_p m !! (lp_off q + i)%nat = Some v -> Q v st ->
  wp (rd q i) Q st.
Proof. intros Ho Hv HQ. apply wp_bind. eapply wp_mpi_get; [done |]. by rewrite Hv. Qed.

Lemma wp_wr q i m v (Q : unit -> MpiMem -> Prop) st :
  obj st !! lp_obj q = Some m -> (lp_off q + i < m_limbs m)%nat ->
  Q tt (upd (lp_obj q) (with_p m (<[(lp_off q + i)%nat := v]> (m_p m))) st) ->
  wp (wr q i v) Q st.
Proof.
  intros Ho Hv HQ. apply wp_bind. eapply wp_mpi_get; [done |].
  apply Nat.ltb_lt in Hv. by rewrite Hv.
Qed.

Lemma wp_bzero q n m (Q : unit -> MpiMem -> Prop) st :
  obj st !! lp_obj q = Some m -> (lp_off q + n <= m_limbs m)%nat ->
  Q tt (spl (lp_obj q) m (lp_off q) (replicate n 0) st) -> wp (bzero q n) Q st.
Proof.
  intros Ho Hv HQ. apply wp_bind. eapply wp_mpi_get; [done |].
  apply Nat.leb_le in Hv. by rewrite Hv.
Qed.

Lemma wp_memcopy x y n mx my (Q : unit -> MpiMem -> Prop) st :
  obj st !! lp_obj x = Some mx -> obj st !! lp_obj y = Some my ->
  (lp_off x + n <= m_limbs mx)%nat -> (lp_off y + n <= m_limbs my)%nat ->
  Q tt (spl (lp_obj x) mx (lp_off x) (take n (drop (lp_off y) (m_p my))) st) ->
  wp (memcopy x y n) Q st.
Proof.
  intros Hx Hy Hlx Hly HQ. apply wp_bind. eapply wp_mpi_get; [done |].
  apply wp_bind. eapply wp_mpi_get; [done |].
  apply Nat.leb_le in Hlx, Hly. by rewrite Hlx, Hly.
Qed.

Lemma spl_nil X m o st : obj st !! X = Some m -> spl X m o [] st = st.
Proof. intros H. unfold spl. simpl. apply upd_same. by destruct m. Qed.

Lemma obj_spl_eq X m o r st :
  obj (spl X m o r st) !! X = Some (with_p m (list_inserts o r (m_p m))).
Proof. apply obj_upd_eq. Qed.

Lemma obj_spl_ne X Y m o r st : X <> Y -> obj (spl X m o r st) !! Y = obj st !! Y.
Proof. apply obj_upd_ne. Qed.

(** A limb that was not replaced reads as before. *)
Lemma wp_rd_spl X mx o r A ma oa i v (Q : Z -> MpiMem -> Prop) st :
  obj st !! X = Some mx -> obj st !! A = Some ma ->
  (A = X -> (oa + i < o)%nat \/ (o + length r <= oa + i)%nat) ->
  m_p ma !! (oa + i)%nat = Some v -> Q v (spl X mx o r st) ->
  wp (rd (MkPtr A oa) i) Q (spl X mx o r st).
Proof.
  intros HX HA Ho Hv HQ. destruct (decide (A = X)) as [->|Hn].
  - assert (mx = ma) as -> by congruence.
    eapply wp_rd; [apply obj_spl_eq | | done]. simpl.
    destruct (Ho eq_refl) as [Hl|Hg];
      [by rewrite list_lookup_inserts_lt | by rewrite list_lookup_inserts_ge].
  - eapply wp_rd; [by rewrite obj_spl_ne | done | done].
Qed.

Lemma wp_wr_spl X mx o r v i (Q : unit -> MpiMem -> Prop) st :
  i = length r -> (o + i < m_limbs mx)%nat -> Q tt (spl X mx o (r ++ [v]) st) ->
  wp (wr (MkPtr X o) i v) Q (spl X mx o r st).
Proof.
  intros -> Hl HQ. eapply wp_wr; [apply obj_spl_eq | |].
  - unfold m_limbs in *. simpl. by rewrite length_inserts.
  - simpl. unfold spl, with_p in *. simpl. by rewrite upd_upd, inserts_snoc.
Qed.

Lemma wp_for_up {C} (body : nat -> C -> MM C) (I : nat -> C -> MpiMem -> Prop) n i c st :
  I i c st ->
  (forall j c st, (i <= j < i + n)%nat -> I j c st -> wp (body j c) (I (S j)) st) ->
  wp (for_up body n i c) (I (i + n)%nat) st.
Proof.
  revert i c st. induction n as [|n IH]; intros i c st HI Hb; simpl.
  - by rewrite Nat.add_0_r.
  - apply wp_bind. eapply wp_mono; [apply Hb; [lia | done] |].
    intros c' st' HI'. rewrite Nat.add_succ_r. apply (IH (S i)); [done |].
    intros j ?? ?. apply Hb. lia.
Qed.
End Exec.

(** One instruction of a kernel or a C statement. *)
Ltac mstep :=
  lazymatch goal with
  | |- wp (sm_bind _ _) _ _ => apply wp_bind
  | |- wp (sm_ret _) _ _ => apply wp_ret
  | |- wp (mpi_get _) _ _ => eapply wp_mpi_get; [eassumption |]
  | |- wp (bug_on _) _ _ => apply wp_bug_on
  end.

(** ** Addition and subtraction kernels

    [x] is the result in object [X]; an operand may be the same object when it
    does not start below the result: a kernel reads a limb before it is written. *)

Lemma lookup_take_drop_S {A} (l : list A) o j n :
  (j < n)%nat -> length (take n (drop o l)) = n -> is_Some (l !! (o + j)%nat).
Proof.
  intros Hj Hl. apply lookup_lt_is_Some. rewrite length_take, length_drop in Hl. lia.
Qed.

Section AddSub.
Context (st : MpiMem) (X ox A oa B ob : nat) (mx ma mb : TlsMpi) (la lb : nat).
Hypothesis HX : obj st !! X = Some mx.
Hypothesis HA : obj st !! A = Some ma.
Hypothesis HB : obj st !! B = Some mb.
Hypothesis Hal : A = X -> (ox <= oa)%nat.
Hypothesis Hbl : B = X -> (ox <= ob)%nat.
Hypothesis Hoka : limbs_ok (m_p ma).
Hypothesis Hokb : limbs_ok (m_p mb).
Hypothesis Hla : (oa + la <= m_limbs ma)%nat.
Hypothesis Hlb : (ob + lb <= m_limbs mb)%nat.
Hypothesis Hlx : (ox + la <= m_limbs mx)%nat.
Hypothesis Hab : (lb <= la)%nat.

Let x := MkPtr X ox.
Let a := MkPtr A oa.
Let b := MkPtr B ob.
Let LA := drop oa (m_p ma).
Let LB := drop ob (m_p mb).

(** [sg = 1]: the first [j] limbs are added; [sg = -1]: subtracted. *)
Definition acc_inv (sg : Z) (j : nat) (c : bool) (st' : MpiMem) : Prop :=
  exists r, st' = spl X mx ox r st /\ length r = j /\ limbs_ok r /\
    lval r + sg * (bpow j * Z.b2z c) = lval (take j LA) + sg * lval (take (j `min` lb) LB).

Lemma acc_inv_0 sg : acc_inv sg 0 false st.
Proof.
  exists []. rewrite spl_nil by done. split_and!; [done | done | by constructor | simpl; lia].
Qed.

Lemma limb_a j : (j < la)%nat -> exists v, m_p ma !! (oa + j)%nat = Some v /\ is_u64 v /\
  lval (take (S j) LA) = lval (take j LA) + bpow j * v.
Proof.
  intros Hj. destruct (lookup_lt_is_Some_2 (m_p ma) (oa + j)) as [v Hv]; [unfold m_limbs in *; lia |].
  exists v. split_and!; [done | exact (limbs_ok_lookup _ _ _ Hoka Hv) |].
  apply lval_take_S. subst LA. by rewrite lookup_drop.
Qed.

Lemma limb_b j : (j < lb)%nat -> exists v, m_p mb !! (ob + j)%nat = Some v /\ is_u64 v /\
  lval (take (S j) LB) = lval (take j LB) + bpow j * v.
Proof.
  intros Hj. destruct (lookup_lt_is_Some_2 (m_p mb) (ob + j)) as [v Hv]; [unfold m_limbs in *; lia |].
  exists v. split_and!; [done | by eapply limbs_ok_lookup |].
  apply lval_take_S. subst LB. by rewrite lookup_drop.
Qed.

Lemma wp_rd_a r i v (Q : Z -> MpiMem -> Prop) :
  (length r <= i)%nat -> m_p ma !! (oa + i)%nat = Some v -> Q v (spl X mx ox r st) ->
  wp (rd a i) Q (spl X mx ox r st).
Proof. intros Hi Hv. eapply wp_rd_spl; [done | done | | done]. intros E. specialize (Hal E). lia. Qed.

Lemma wp_rd_b r i v (Q : Z -> MpiMem -> Prop) :
  (length r <= i)%nat -> m_p mb !! (ob + i)%nat = Some v -> Q v (spl X mx ox r st) ->
  wp (rd b i) Q (spl X mx ox r st).
Proof. intros Hi Hv. eapply wp_rd_spl; [done | done | | done]. intros E. specialize (Hbl E). lia. Qed.

(** One more limb of the result. *)
Lemma acc_inv_snoc sg r t c j :
  length r = j -> limbs_ok r -> is_u64 t ->
  lval r + bpow j * t + sg * (bpow (S j) * Z.b2z c)
    = lval (take (S j) LA) + sg * lval (take (S j `min` lb) LB) ->
  acc_inv sg (S j) c (spl X mx ox (r ++ [t]) st).
Proof.
  intros Hl Hr Ht Hv. exists (r ++ [t]). split_and!; [done | | auto with tfw |].
  - rewrite length_app. simpl. lia.
  - rewrite lval_snoc, Hl. done.
Qed.

Lemma add_limb_inv j c st' : (j < lb)%nat ->
  acc_inv 1 j c st' -> wp (add_limb x b a j c) (acc_inv 1 (S j)) st'.
Proof.
  intros Hj (r & -> & Hl & Hr & Hv).
  destruct (limb_a j ltac:(lia)) as (va & Hva & Hua & Ea).
  destruct (limb_b j Hj) as (vb & Hvb & Hub & Eb).
  unfold add_limb. mstep. eapply wp_rd_a; [lia | done |]. mstep. eapply wp_rd_b; [lia | done |].
  destruct (adc va vb c) as [t c'] eqn:E. apply adc_spec in E as [Ht E]; [| done | done].
  mstep. apply wp_wr_spl; [done | lia |]. mstep. apply acc_inv_snoc; [done.. |].
  rewrite Nat.min_l in Hv |- * by lia. rewrite Ea, Eb, bpow_S. nia.
Qed.

Lemma add_carry_inv j c st' : (lb <= j < la)%nat ->
  acc_inv 1 j c st' -> wp (add_carry x a j c) (acc_inv 1 (S j)) st'.
Proof.
  intros Hj (r & -> & Hl & Hr & Hv).
  destruct (limb_a j ltac:(lia)) as (va & Hva & Hua & Ea).
  unfold add_carry. mstep. eapply wp_rd_a; [lia | done |].
  destruct (adc 0 va c) as [t c'] eqn:E. apply adc_spec in E as [Ht E]; [| by unfold is_u64 | done].
  mstep. apply wp_wr_spl; [done | lia |]. mstep. apply acc_inv_snoc; [done.. |].
  rewrite Nat.min_r in Hv |- * by lia. rewrite Ea, bpow_S. nia.
Qed.

(** [X = A + B]: the limbs of the result and their number; a carry out of the
    last limb needs a limb more in [X]. *)
Lemma mpi_add_x86_64_spec x_len :
  (0 < lb)%nat ->
  lval (take la LA) + lval (take lb LB) < bpow la
  \/ ((ox + la < m_limbs mx)%nat /\ (la <= x_len)%nat) ->
  wp (mpi_add_x86_64 x x_len b lb a la)
    (fun n st' => exists r, st' = spl X mx ox r st /\ n = Z.of_nat (length r) /\ limbs_ok r /\
       lval r = lval (take la LA) + lval (take lb LB) /\
       (la <= length r <= S la)%nat /\ (ox + length r <= m_limbs mx)%nat /\
       ((la < length r)%nat -> bpow la <= lval r)) st.
Proof.
  intros Hb Hfit. unfold mpi_add_x86_64. mstep. mstep.
  { apply orb_false_iff. split; [apply Nat.eqb_neq; lia | apply Nat.ltb_ge; lia]. }
  mstep. eapply wp_mono;
    [apply (wp_for_up _ (acc_inv 1)); [apply acc_inv_0 | intros; apply add_limb_inv; [lia | done]] |].
  intros c st1 H1. mstep. eapply wp_mono;
    [apply (wp_for_up _ (acc_inv 1)); [exact H1 | intros; apply add_carry_inv; [lia | done]] |].
  clear c st1 H1. intros c st1 (r & -> & Hl & Hr & Hv).
  replace (lb + (la - lb))%nat with la in * by lia. rewrite Nat.min_r in Hv by lia.
  pose proof (lval_bounds _ Hr) as Hrb. rewrite Hl in Hrb. pose proof (bpow_pos la).
  destruct c; simpl Z.b2z in Hv; simpl negb; cbv iota.
  - destruct Hfit as [Hfit|[Hfit Hxl]]; [lia |].
    rewrite (proj2 (Nat.ltb_ge _ _) Hxl). mstep. apply wp_wr_spl; [done | done |].
    mstep. exists (r ++ [1]). rewrite length_app, lval_snoc, Hl. simpl.
    split_and!; [done | lia | apply limbs_ok_snoc; [done | by unfold is_u64] | lia.. ].
  - mstep. exists r. rewrite Hl. split_and!; [done | done | done | lia..].
Qed.

(** The numbers behind one limb of a subtraction. *)
Definition sub_num (r : list Z) (j : nat) (c : bool) : Prop :=
  length r = j /\ limbs_ok r /\
  lval r + -1 * (bpow j * Z.b2z c) = lval (take j LA) + -1 * lval (take (j `min` lb) LB).

Lemma sub_num_b r j va vb c t c' :
  (j < lb)%nat -> m_p ma !! (oa + j)%nat = Some va -> m_p mb !! (ob + j)%nat = Some vb ->
  sbb va vb c = (t, c') -> sub_num r j c -> sub_num (r ++ [t]) (S j) c'.
Proof.
  intros Hj Hva Hvb E (Hl & Hr & Hv).
  destruct (limb_a j ltac:(lia)) as (va' & Hva' & Hua & Ea).
  assert (va' = va) as -> by congruence.
  destruct (limb_b j Hj) as (vb' & Hvb' & Hub & Eb).
  assert (vb' = vb) as -> by congruence.
  apply sbb_spec in E as [Ht E]; [| done | done].
  split_and!; [rewrite length_app; simpl; lia | auto with tfw |].
  rewrite lval_snoc, Hl. rewrite Nat.min_l in Hv |- * by lia. rewrite Ea, Eb, bpow_S. nia.
Qed.

Lemma sub_num_a r j va c t c' :
  (lb <= j < la)%nat -> m_p ma !! (oa + j)%nat = Some va ->
  sbb va 0 c = (t, c') -> sub_num r j c -> sub_num (r ++ [t]) (S j) c'.
Proof.
  intros Hj Hva E (Hl & Hr & Hv).
  destruct (limb_a j ltac:(lia)) as (va' & Hva' & Hua & Ea).
  assert (va' = va) as -> by congruence.
  apply sbb_spec in E as [Ht E]; [| done | by unfold is_u64].
  split_and!; [rewrite length_app; simpl; lia | auto with tfw |].
  rewrite lval_snoc, Hl. rewrite Nat.min_r in Hv |- * by lia. rewrite Ea, bpow_S. nia.
Qed.

Lemma sub_num_copy r j va :
  (lb <= j < la)%nat -> m_p ma !! (oa + j)%nat = Some va ->
  sub_num r j false -> sub_num (r ++ [va]) (S j) false.
Proof.
  intros Hj Hva Hn. eapply sub_num_a; [done | done | | done].
  destruct (limb_a j ltac:(lia)) as (va' & Hva' & Hua & _).
  assert (va' = va) as -> by congruence.
  unfold sbb. simpl Z.b2z. rewrite !Z.sub_0_r, u64_small by done. f_equal.
  unfold is_u64 in Hua. apply Z.ltb_ge. lia.
Qed.

Lemma acc_inv_sub r j c : sub_num r j c -> acc_inv (-1) j c (spl X mx ox r st).
Proof. intros (Hl & Hr & Hv). by exists r. Qed.

Lemma acc_inv_sub_inv j c st' :
  acc_inv (-1) j c st' -> exists r, st' = spl X mx ox r st /\ sub_num r j c.
Proof. intros (r & -> & Hl & Hr & Hv). by exists r. Qed.

Lemma sub_limb_inv j c st' : (j < lb)%nat ->
  acc_inv (-1) j c st' -> wp (sub_limb x b a j c) (acc_inv (-1) (S j)) st'.
Proof.
  intros Hj (r & -> & Hn)%acc_inv_sub_inv. pose proof (proj1 Hn) as Hl.
  destruct (limb_a j ltac:(lia)) as (va & Hva & _). destruct (limb_b j Hj) as (vb & Hvb & _).
  unfold sub_limb. mstep. eapply wp_rd_a; [lia | done |]. mstep. eapply wp_rd_b; [lia | done |].
  destruct (sbb va vb c) as [t c'] eqn:E.
  mstep. apply wp_wr_spl; [done | lia |]. mstep. apply acc_inv_sub. by eapply sub_num_b.
Qed.

Lemma sub_by_4_inv j c st' : (j + 4 <= lb)%nat ->
  acc_inv (-1) j c st' -> wp (sub_by_4 x b a j c) (acc_inv (-1) (j + 4)) st'.
Proof.
  intros Hj (r & -> & Hn)%acc_inv_sub_inv. pose proof (proj1 Hn) as Hl.
  destruct (limb_a j ltac:(lia)) as (a0 & Ha0 & _), (limb_a (j + 1) ltac:(lia)) as (a1 & Ha1 & _),
    (limb_a (j + 2) ltac:(lia)) as (a2 & Ha2 & _), (limb_a (j + 3) ltac:(lia)) as (a3 & Ha3 & _).
  destruct (limb_b j ltac:(lia)) as (b0 & Hb0 & _), (limb_b (j + 1) ltac:(lia)) as (b1 & Hb1 & _),
    (limb_b (j + 2) ltac:(lia)) as (b2 & Hb2 & _), (limb_b (j + 3) ltac:(lia)) as (b3 & Hb3 & _).
  unfold sub_by_4. do 4 (mstep; eapply wp_rd_a; [lia | done |]).
  do 4 (mstep; eapply wp_rd_b; [lia | done |]).
  destruct (sbb a0 b0 c) as [t0 c0] eqn:E0. destruct (sbb a1 b1 c0) as [t1 c1] eqn:E1.
  destruct (sbb a2 b2 c1) as [t2 c2] eqn:E2. destruct (sbb a3 b3 c2) as [t3 c3] eqn:E3.
  do 4 (mstep; apply wp_wr_spl; [rewrite ?length_app; simpl; lia | lia |]).
  mstep. replace (j + 4)%nat with (S (j + 3)) by lia. apply acc_inv_sub.
  eapply (sub_num_b _ _ a3 b3); [lia | done | done | done |]. replace (j + 3)%nat with (S (j + 2)) by lia.
  eapply (sub_num_b _ _ a2 b2); [lia | done | done | done |]. replace (j + 2)%nat with (S (j + 1)) by lia.
  eapply (sub_num_b _ _ a1 b1); [lia | done | done | done |]. replace (j + 1)%nat with (S j) by lia.
  eapply (sub_num_b _ _ a0 b0); [lia | done..].
Qed.

Lemma copy_limb_inv j c st' : (lb <= j < la)%nat ->
  acc_inv (-1) j false st' -> wp (copy_limb x a j c) (fun _ => acc_inv (-1) (S j) false) st'.
Proof.
  intros Hj (r & -> & Hn)%acc_inv_sub_inv. pose proof (proj1 Hn) as Hl.
  destruct (limb_a j ltac:(lia)) as (va & Hva & _).
  unfold copy_limb. mstep. eapply wp_rd_a; [lia | done |].
  apply wp_wr_spl; [done | lia |]. apply acc_inv_sub. by eapply sub_num_copy.
Qed.

Lemma propagate_borrow_inv n j st' : (lb <= j)%nat -> (j + n = la)%nat ->
  lval (take lb LB) <= lval (take la LA) ->
  acc_inv (-1) j true st' ->
  wp (propagate_borrow x a n j)
    (fun k st'' => (k < la - lb)%nat /\ acc_inv (-1) (la - k) false st'') st'.
Proof.
  intros Hj Hn Hge. revert j Hj Hn st'. induction n as [|n IH]; intros j Hj Hn st' Hi; cbn [propagate_borrow].
  - exfalso. destruct Hi as (r & _ & Hl & Hr & Hv).
    pose proof (lval_bounds r Hr). rewrite Hl in *. rewrite Nat.min_r in Hv by lia.
    replace j with la in * by lia. simpl Z.b2z in Hv. lia.
  - apply acc_inv_sub_inv in Hi as (r & -> & Hs). pose proof (proj1 Hs) as Hl.
    destruct (limb_a j ltac:(lia)) as (va & Hva & _).
    mstep. eapply wp_rd_a; [lia | done |]. destruct (sbb va 0 true) as [t c] eqn:E.
    mstep. apply wp_wr_spl; [done | lia |].
    assert (Hs' : sub_num (r ++ [t]) (S j) c) by (eapply sub_num_a; [lia | done..]).
    destruct c.
    + apply (IH (S j)); [lia | lia |]. by apply acc_inv_sub.
    + mstep. split; [lia |]. replace (la - n)%nat with (S j) by lia. by apply acc_inv_sub.
Qed.

(** What a subtraction leaves: [a_len] limbs with the value of [A - B]. *)
Definition sub_post (st' : MpiMem) : Prop :=
  exists r, st' = spl X mx ox r st /\ length r = la /\ limbs_ok r /\
    lval r = lval (take la LA) - lval (take lb LB).

Lemma sub_post_intro c st' :
  lval (take lb LB) <= lval (take la LA) -> acc_inv (-1) la c st' -> sub_post st'.
Proof.
  intros Hge (r & -> & Hl & Hr & Hv). exists r. split_and!; [done.. |].
  rewrite Nat.min_r in Hv by lia. pose proof (lval_bounds r Hr). rewrite Hl in *.
  destruct c; simpl Z.b2z in Hv; lia.
Qed.

Lemma sub_main c0 st0 :
  acc_inv (-1) 0 c0 st0 ->
  wp (c <~ for_up (fun k => sub_by_4 x b a (4 * k)) (lb / 4) 0 c0;;
      for_up (sub_limb x b a) (lb mod 4) (4 * (lb / 4)) c) (acc_inv (-1) lb) st0.
Proof.
  intros H0. pose proof (Nat.div_mod_eq lb 4) as Hd. mstep. eapply wp_mono.
  { apply (wp_for_up _ (fun k => acc_inv (-1) (4 * k)%nat)); [done |].
    intros j c st' Hj Hi. replace (4 * S j)%nat with (4 * j + 4)%nat by lia.
    apply sub_by_4_inv; [| done]. pose proof (Nat.mod_upper_bound lb 4). nia. }
  intros c st' Hi. replace lb with (4 * (lb / 4) + lb mod 4)%nat at 3 by lia.
  apply (wp_for_up _ (acc_inv (-1))); [done |]. intros. apply sub_limb_inv; [lia | done].
Qed.

(** In place the limbs above the borrow are already there. *)
Lemma acc_inv_in_place j st' n :
  A = X -> oa = ox -> (lb <= j)%nat -> (j + n = la)%nat ->
  acc_inv (-1) j false st' -> acc_inv (-1) la false st'.
Proof.
  intros EA Eo. revert j. induction n as [|n IH]; intros j Hj Hn Hi.
  - by replace la with j by lia.
  - apply (IH (S j)); [lia | lia |]. apply acc_inv_sub_inv in Hi as (r & -> & Hs).
    destruct (limb_a j ltac:(lia)) as (va & Hva & _).
    assert (He : spl X mx ox r st = spl X mx ox (r ++ [va]) st); [| rewrite He].
    + unfold spl. do 2 f_equal. rewrite <- inserts_snoc, (proj1 Hs). symmetry.
      apply list_insert_id. rewrite list_lookup_inserts_ge by (rewrite (proj1 Hs); lia).
      assert (mx = ma) as -> by congruence. by rewrite <- Eo.
    + apply acc_inv_sub. eapply sub_num_copy; [lia | done..].
Qed.

Lemma mpi_sub_x86_64_spec :
  lval (take lb LB) <= lval (take la LA) ->
  wp (mpi_sub_x86_64 x b a lb la) (fun _ => sub_post) st.
Proof.
  intros Hge. unfold mpi_sub_x86_64. mstep. mstep. { by apply Nat.ltb_ge. }
  pose proof (wp_bind_inv _ _ _ _ (sub_main false st (acc_inv_0 (-1)))) as H0.
  mstep. eapply wp_mono; [exact H0 |]. intros c1 st1 H1. mstep.
  eapply wp_mono; [exact H1 |]. clear H0 c1 st1 H1. intros c st1 H1.
  destruct c; simpl negb; cbv iota.
  - mstep. eapply wp_mono; [apply propagate_borrow_inv; [done | lia | done | done] |].
    intros k st2 [Hk H2]. cbv beta. case_bool_decide as Hs.
    + mstep. eapply sub_post_intro; [done |]. destruct Hs as [Hs1 Hs2].
      eapply (acc_inv_in_place (la - k) _ k); [symmetry; exact Hs1 | symmetry; exact Hs2 | lia | lia | done].
    + eapply wp_mono; [apply (wp_for_up _ (fun j _ => acc_inv (-1) j false)); [done |] |].
      * intros. apply copy_limb_inv; [lia | done].
      * intros u3 st3 H3. cbv beta in H3. eapply sub_post_intro; [done |].
        rewrite Nat.sub_add in H3 by lia. exact H3.
  - eapply wp_mono; [apply (wp_for_up _ (fun j _ => acc_inv (-1) j false)); [done |] |].
    + intros. apply copy_limb_inv; [lia | done].
    + intros u3 st3 H3. cbv beta in H3. eapply sub_post_intro; [done |].
      rewrite Nat.add_comm, Nat.sub_add in H3 by lia. exact H3.
Qed.

Lemma mpi_sub_x86_64_4_4_spec :
  la = 4%nat -> lb = 4%nat -> lval (take lb LB) <= lval (take la LA) ->
  wp (mpi_sub_x86_64_4_4 x b a) (fun _ => sub_post) st.
Proof.
  intros El Eb Hge. unfold mpi_sub_x86_64_4_4. mstep.
  eapply wp_mono; [apply (sub_by_4_inv 0); [lia | apply acc_inv_0] |].
  intros c st1 H1. mstep. eapply sub_post_intro; [done |]. rewrite El. exact H1.
Qed.

Lemma mpi_sub_x86_64_5_4_spec :
  la = 5%nat -> lb = 4%nat -> lval (take lb LB) <= lval (take la LA) ->
  wp (mpi_sub_x86_64_5_4 x b a) (fun _ => sub_post) st.
Proof.
  intros El Eb Hge. unfold mpi_sub_x86_64_5_4. mstep.
  eapply wp_mono; [apply (sub_by_4_inv 0); [lia | apply acc_inv_0] |].
  intros c st1 (r & -> & Hs)%acc_inv_sub_inv. pose proof (proj1 Hs).
  destruct (limb_a 4 ltac:(lia)) as (va & Hva & _).
  mstep. eapply wp_rd_a; [lia | done |]. destruct (sbb va 0 c) as [t c'] eqn:E.
  apply wp_wr_spl; [done | lia |]. eapply (sub_post_intro c'); [done |]. rewrite El.
  apply acc_inv_sub. eapply sub_num_a; [lia | done..].
Qed.

Lemma mpi_sub_x86_64_3_3_spec :
  la = 3%nat -> lb = 3%nat -> lval (take lb LB) <= lval (take la LA) ->
  wp (mpi_sub_x86_64_3_3 x b a) (fun _ => sub_post) st.
Proof.
  intros El Eb Hge. destruct (acc_inv_sub_inv _ _ _ (acc_inv_0 (-1))) as (r & Hr & Hs).
  destruct (limb_a 0 ltac:(lia)) as (a0 & Ha0 & _), (limb_a 1 ltac:(lia)) as (a1 & Ha1 & _),
    (limb_a 2 ltac:(lia)) as (a2 & Ha2 & _), (limb_b 0 ltac:(lia)) as (b0 & Hb0 & _),
    (limb_b 1 ltac:(lia)) as (b1 & Hb1 & _), (limb_b 2 ltac:(lia)) as (b2 & Hb2 & _).
  pose proof (proj1 Hs) as Hl. rewrite Hr. unfold mpi_sub_x86_64_3_3.
  do 3 (mstep; eapply wp_rd_a; [lia | done |]). do 3 (mstep; eapply wp_rd_b; [lia | done |]).
  destruct (sbb a0 b0 false) as [t0 c0] eqn:E0. destruct (sbb a1 b1 c0) as [t1 c1] eqn:E1.
  destruct (sbb a2 b2 c1) as [t2 c2] eqn:E2.
  do 2 (mstep; apply wp_wr_spl; [rewrite ?length_app; simpl; lia | lia |]).
  apply wp_wr_spl; [rewrite ?length_app; simpl; lia | lia |].
  eapply (sub_post_intro c2); [done |]. rewrite El. apply acc_inv_sub.
  eapply (sub_num_b _ 2 a2 b2); [lia | done..|].
  eapply (sub_num_b _ 1 a1 b1); [lia | done..|].
  eapply (sub_num_b _ 0 a0 b0); [lia | done..].
Qed.

Lemma mpi_sub_x86_64_2_2_spec :
  la = 2%nat -> lb = 2%nat -> lval (take lb LB) <= lval (take la LA) ->
  wp (mpi_sub_x86_64_2_2 x b a) (fun _ => sub_post) st.
Proof.
  intros El Eb Hge. destruct (acc_inv_sub_inv _ _ _ (acc_inv_0 (-1))) as (r & Hr & Hs).
  destruct (limb_a 0 ltac:(lia)) as (a0 & Ha0 & _), (limb_a 1 ltac:(lia)) as (a1 & Ha1 & _),
    (limb_b 0 ltac:(lia)) as (b0 & Hb0 & _), (limb_b 1 ltac:(lia)) as (b1 & Hb1 & _).
  pose proof (proj1 Hs) as Hl. rewrite Hr. unfold mpi_sub_x86_64_2_2.
  do 2 (mstep; eapply wp_rd_a; [lia | done |]). do 2 (mstep; eapply wp_rd_b; [lia | done |]).
  destruct (sbb a0 b0 false) as [t0 c0] eqn:E0. destruct (sbb a1 b1 c0) as [t1 c1] eqn:E1.
  mstep; apply wp_wr_spl; [rewrite ?length_app; simpl; lia | lia |].
  apply wp_wr_spl; [rewrite ?length_app; simpl; lia | lia |].
  eapply (sub_post_intro c1); [done |]. rewrite El. apply acc_inv_sub.
  eapply (sub_num_b _ 1 a1 b1); [lia | done..|].
  eapply (sub_num_b _ 0 a0 b0); [lia | done..].
Qed.

(** [*x = *a - *b] of [ttls_mpi_sub_abs] for one limb. *)
Lemma sub_1_1_spec :
  la = 1%nat -> lb = 1%nat -> lval (take lb LB) <= lval (take la LA) ->
  wp (va <~ rd a 0;; vb <~ rd b 0;; wr x 0 (u64 (va - vb))) (fun _ => sub_post) st.
Proof.
  intros El Eb Hge. destruct (acc_inv_sub_inv _ _ _ (acc_inv_0 (-1))) as (r & Hr & Hs).
  destruct (limb_a 0 ltac:(lia)) as (a0 & Ha0 & _), (limb_b 0 ltac:(lia)) as (b0 & Hb0 & _).
  pose proof (proj1 Hs) as Hl. rewrite Hr.
  mstep; eapply wp_rd_a; [lia | done |]. mstep; eapply wp_rd_b; [lia | done |].
  apply wp_wr_spl; [done | lia |].
  eapply (sub_post_intro (snd (sbb a0 b0 false))); [done |]. rewrite El. apply acc_inv_sub.
  eapply (sub_num_b _ 0 a0 b0); [lia | done | done | | done].
  unfold sbb. simpl. by rewrite Z.sub_0_r.
Qed.
End AddSub.

(** ** Shift kernels *)

Lemma lval_drop_S l k v : l !! k = Some v -> lval (drop k l) = v + BASE * lval (drop (S k) l).
Proof. intros Hk. by rewrite (drop_S _ _ _ Hk). Qed.

Lemma wp_wr_spl_cons X mx o o' r v i (Q : unit -> MpiMem -> Prop) st :
  o' = S (o + i) -> (o + i < m_limbs mx)%nat -> Q tt (spl X mx (o + i) (v :: r) st) ->
  wp (wr (MkPtr X o) i v) Q (spl X mx o' r st).
Proof.
  intros -> Hl HQ. eapply wp_wr; [apply obj_spl_eq | |].
  - unfold m_limbs in *. simpl. by rewrite length_inserts.
  - simpl. unfold spl, with_p in *. simpl. by rewrite upd_upd.
Qed.

Section ShiftL.
Context (st : MpiMem) (X ox A oa : nat) (mx ma : TlsMpi) (n : nat) (cl : Z).
Hypothesis HX : obj st !! X = Some mx.
Hypothesis HA : obj st !! A = Some ma.
Hypothesis Hal : A = X -> (oa <= ox)%nat.
Hypothesis Hoka : limbs_ok (m_p ma).
Hypothesis Hla : (oa + n <= m_limbs ma)%nat.
Hypothesis Hlx : (ox + n < m_limbs mx)%nat.
Hypothesis Hcl : 0 <= cl < 64.

Let x := MkPtr X ox.
Let a := MkPtr A oa.
Let L := take n (drop oa (m_p ma)).

Definition shl_post (st' : MpiMem) : Prop :=
  exists r, st' = spl X mx ox r st /\ length r = S n /\ limbs_ok r /\ lval r = 2 ^ cl * lval L.

(** Limbs [S k], ..., [n] are written. *)
Definition shl_inv (k : nat) (st' : MpiMem) : Prop :=
  exists r v, st' = spl X mx (S (ox + k)) r st /\ length r = (n - k)%nat /\ limbs_ok r /\
    L !! k = Some v /\ lval r = 2 ^ cl * lval (drop (S k) L) + Z.shiftr v (64 - cl).

Lemma limb_l k : (k < n)%nat -> exists v, m_p ma !! (oa + k)%nat = Some v /\ is_u64 v /\ L !! k = Some v.
Proof.
  intros Hk. destruct (lookup_lt_is_Some_2 (m_p ma) (oa + k)) as [v Hv]; [unfold m_limbs in *; lia |].
  exists v. split_and!; [done | exact (limbs_ok_lookup _ _ _ Hoka Hv) |].
  subst L. by rewrite lookup_take_lt, lookup_drop by lia.
Qed.

Lemma length_L : length L = n.
Proof. subst L. rewrite length_take, length_drop. unfold m_limbs in *. lia. Qed.

Lemma wp_rd_l r k i v (Q : Z -> MpiMem -> Prop) :
  (i <= k)%nat -> m_p ma !! (oa + i)%nat = Some v -> Q v (spl X mx (S (ox + k)) r st) ->
  wp (rd a i) Q (spl X mx (S (ox + k)) r st).
Proof. intros Hi Hv. eapply wp_rd_spl; [done | done | | done]. intros E. specialize (Hal E). lia. Qed.

Lemma shl_last st' :
  (0 < n)%nat -> shl_inv 0 st' -> wp (v <~ rd a 0;; wr x 0 (u64 (Z.shiftl v cl))) (fun _ => shl_post) st'.
Proof.
  intros Hn (r & v & -> & Hl & Hr & Hv & Hval).
  destruct (limb_l 0 ltac:(lia)) as (v' & Hv' & Hu & Hv''). assert (v' = v) as -> by congruence.
  mstep. eapply wp_rd_l; [lia | done |]. apply wp_wr_spl_cons; [lia | lia |].
  rewrite Nat.add_0_r. exists (u64 (Z.shiftl v cl) :: r). split_and!; [done | simpl; lia | |].
  - constructor; [apply u64_range | done].
  - pose proof (lval_drop_S _ _ _ Hv) as He. rewrite drop_0 in He. rewrite He. simpl lval.
    rewrite Hval. pose proof (shl_split v cl Hcl Hu). nia.
Qed.

Lemma shl_loop_inv k st' : (k < n)%nat -> shl_inv k st' ->
  wp (shl_loop x a cl k) (fun _ => shl_inv 0) st'.
Proof.
  revert st'. induction k as [|k IH]; intros st' Hk Hi; cbn [shl_loop]; [by mstep |].
  destruct Hi as (r & v & -> & Hl & Hr & Hv & Hval).
  destruct (limb_l (S k) ltac:(lia)) as (hi & Hhi & Huh & Hh). assert (hi = v) as -> by congruence.
  destruct (limb_l k ltac:(lia)) as (lo & Hlo & Hul & Hl').
  mstep. eapply wp_rd_l; [lia | done |]. mstep. eapply wp_rd_l; [lia | done |].
  destruct (shld_spec v lo cl Hcl Huh Hul) as [Es Hs].
  mstep. apply wp_wr_spl_cons; [lia | lia |]. apply IH; [lia |].
  exists (shld cl v lo :: r), lo. rewrite Nat.add_succ_r.
  split_and!; [done | simpl; lia | by constructor | done |].
  rewrite (lval_drop_S _ _ _ Hv). simpl lval. rewrite Es, Hval.
  pose proof (shl_split v cl Hcl Huh). nia.
Qed.

Lemma mpi_shift_l_x86_64_spec :
  (0 < n)%nat -> wp (mpi_shift_l_x86_64 x a n cl) (fun _ => shl_post) st.
Proof.
  intros Hn. unfold mpi_shift_l_x86_64. mstep. mstep. { apply Nat.eqb_neq. lia. }
  destruct (limb_l (n - 1) ltac:(lia)) as (v & Hv & Hu & HL).
  destruct (shld_spec 0 v cl Hcl ltac:(by unfold is_u64) Hu) as [Es Hs].
  mstep. eapply (wp_rd _ _ ma); [done | done |].
  mstep. rewrite <- (spl_nil X mx (S (ox + n)) st HX).
  apply wp_wr_spl_cons; [lia | lia |]. mstep.
  eapply wp_mono; [apply shl_loop_inv; [lia |] |].
  - exists [shld cl 0 v], v. replace (S (ox + (n - 1)))%nat with (ox + n)%nat by lia.
    split_and!; [done | simpl; lia | by apply Forall_singleton | done |].
    rewrite drop_ge by (rewrite length_L; lia). simpl. rewrite Es, Z.shiftl_0_l.
    change (u64 0) with 0. lia.
  - intros u st1 H1. by apply shl_last; [lia |].
Qed.

Lemma mpi_shift_l_x86_64_4_spec :
  n = 4%nat -> wp (mpi_shift_l_x86_64_4 x a cl) (fun _ => shl_post) st.
Proof.
  intros Hn. unfold mpi_shift_l_x86_64_4.
  destruct (limb_l 0 ltac:(lia)) as (a0 & Ha0 & Hu0 & H0), (limb_l 1 ltac:(lia)) as (a1 & Ha1 & Hu1 & H1),
    (limb_l 2 ltac:(lia)) as (a2 & Ha2 & Hu2 & H2), (limb_l 3 ltac:(lia)) as (a3 & Ha3 & Hu3 & H3).
  do 4 (mstep; eapply (wp_rd _ _ ma); [done | done |]).
  destruct (shld_spec 0 a3 cl Hcl ltac:(by unfold is_u64) Hu3) as [E4 Hs4],
    (shld_spec a3 a2 cl Hcl Hu3 Hu2) as [E3 Hs3], (shld_spec a2 a1 cl Hcl Hu2 Hu1) as [E2 Hs2],
    (shld_spec a1 a0 cl Hcl Hu1 Hu0) as [E1 Hs1].
  rewrite <- (spl_nil X mx (S (ox + 4)) st HX).
  do 4 (mstep; apply wp_wr_spl_cons; [lia | lia |]). apply wp_wr_spl_cons; [lia | lia |].
  exists [u64 (Z.shiftl a0 cl); shld cl a1 a0; shld cl a2 a1; shld cl a3 a2; shld cl 0 a3].
  rewrite Nat.add_0_r. split_and!; [done | simpl; lia | |].
  - repeat (constructor; [auto with tfw |]). by constructor.
  - assert (L = [a0; a1; a2; a3]) as ->.
    { apply list_eq. intros i. destruct i as [|[|[|[|i]]]]; [done.. |].
      simpl. apply lookup_ge_None_2. rewrite length_L. lia. }
    simpl lval. rewrite E1, E2, E3, E4, Z.shiftl_0_l. change (u64 0) with 0.
    pose proof (shl_split a0 cl Hcl Hu0). pose proof (shl_split a1 cl Hcl Hu1).
    pose proof (shl_split a2 cl Hcl Hu2). pose proof (shl_split a3 cl Hcl Hu3). nia.
Qed.
End ShiftL.

Section ShiftR.
Context (st : MpiMem) (X ox : nat) (mx : TlsMpi) (n : nat) (cl : Z).
Hypothesis HX : obj st !! X = Some mx.
Hypothesis Hok : limbs_ok (m_p mx).
Hypothesis Hlx : (ox + n <= m_limbs mx)%nat.
Hypothesis Hn : (0 < n)%nat.
Hypothesis Hcl : 0 <= cl < 64.

Let x := MkPtr X ox.
Let L := take n (drop ox (m_p mx)).

Definition shr_post (st' : MpiMem) : Prop :=
  exists r, st' = spl X mx ox r st /\ length r = n /\ limbs_ok r /\ lval r = lval L / 2 ^ cl.

(** The bits that left limb [0] and those that entered limb [j - 1]. *)
Definition shr_num (r : list Z) (j : nat) (v0 v : Z) : Prop :=
  length r = j /\ limbs_ok r /\ L !! 0%nat = Some v0 /\ L !! j = Some v /\
  2 ^ cl * lval r + v0 mod 2 ^ cl = lval (take j L) + bpow j * (v mod 2 ^ cl).

Definition shr_inv (j : nat) (st' : MpiMem) : Prop :=
  exists r v0 v, st' = spl X mx ox r st /\ shr_num r j v0 v.

Lemma limb_r k : (k < n)%nat ->
  exists v, m_p mx !! (ox + k)%nat = Some v /\ is_u64 v /\ L !! k = Some v /\
    lval (take (S k) L) = lval (take k L) + bpow k * v.
Proof.
  intros Hk. destruct (lookup_lt_is_Some_2 (m_p mx) (ox + k)) as [v Hv]; [unfold m_limbs in *; lia |].
  assert (HL : L !! k = Some v) by (subst L; by rewrite lookup_take_lt, lookup_drop by lia).
  exists v. split_and!; [done | exact (limbs_ok_lookup _ _ _ Hok Hv) | done | by apply lval_take_S].
Qed.

Lemma wp_rd_r r i v (Q : Z -> MpiMem -> Prop) :
  (length r <= i)%nat -> m_p mx !! (ox + i)%nat = Some v -> Q v (spl X mx ox r st) ->
  wp (rd x i) Q (spl X mx ox r st).
Proof. intros Hi Hv. eapply wp_rd_spl; [done | done | lia | done]. Qed.

Lemma shr_num_0 v : L !! 0%nat = Some v -> shr_num [] 0 v v.
Proof.
  intros Hv. split_and!; [done | by constructor | done | done |]. rewrite bpow_0. simpl. lia.
Qed.

(** Limb [j] gets its own high bits and the low bits of limb [j + 1]. *)
Lemma shr_num_snoc j r v0 lo hi :
  (S j < n)%nat -> L !! S j = Some hi -> shr_num r j v0 lo ->
  shr_num (r ++ [shrd cl lo hi]) (S j) v0 hi.
Proof.
  intros Hj Hhi (Hl & Hr & H0 & Hlo & Hv).
  destruct (limb_r j ltac:(lia)) as (lo' & _ & Hul & Hlo' & Et). assert (lo' = lo) as -> by congruence.
  destruct (limb_r (S j) Hj) as (hi' & _ & Huh & Hhi' & _). assert (hi' = hi) as -> by congruence.
  destruct (shrd_spec lo hi cl Hcl Huh Hul) as [Es Hs].
  split_and!; [rewrite length_app; simpl; lia | auto with tfw | done | done |].
  rewrite lval_snoc, Hl, Et, bpow_S. nia.
Qed.

Lemma shr_last r v0 v :
  shr_num r (n - 1) v0 v -> shr_post (spl X mx ox (r ++ [Z.shiftr v cl]) st).
Proof.
  intros (Hl & Hr & H0 & Hv & He).
  destruct (limb_r (n - 1) ltac:(lia)) as (v' & _ & Hu & Hv' & Et). assert (v' = v) as -> by congruence.
  pose proof (shr_small v cl ltac:(lia) Hu) as Hs.
  exists (r ++ [Z.shiftr v cl]). split_and!; [done | rewrite length_app; simpl; lia | |].
  - apply limbs_ok_snoc; [done |]. unfold is_u64 in *. lia.
  - replace (S (n - 1)) with n in Et by lia.
    rewrite (take_ge L n) in Et by (subst L; rewrite length_take; lia).
    rewrite lval_snoc, Hl, Z.shiftr_div_pow2 by lia.
    pose proof (Z.div_mod v (2 ^ cl) ltac:(lia)).
    pose proof (Z.mod_pos_bound v0 (2 ^ cl) ltac:(lia)).
    apply (Z.div_unique _ _ _ (v0 mod 2 ^ cl)); [lia |]. rewrite Et. nia.
Qed.

Lemma mpi_shift_r_x86_64_spec : wp (mpi_shift_r_x86_64 x n cl) (fun _ => shr_post) st.
Proof.
  unfold mpi_shift_r_x86_64. mstep. mstep. { apply Nat.eqb_neq. lia. }
  mstep. eapply wp_mono; [apply (wp_for_up _ (fun j _ => shr_inv j)) |].
  - destruct (limb_r 0 Hn) as (v & _ & _ & Hv & _). exists [], v, v.
    rewrite spl_nil by done. split; [done |]. by apply shr_num_0.
  - intros j c st' Hj (r & v0 & v & -> & Hs). unfold shr_limb. pose proof (proj1 Hs) as Hl.
    destruct (limb_r j ltac:(lia)) as (lo & Hlo & _ & Hlo' & _).
    assert (lo = v) as -> by (destruct Hs as (_ & _ & _ & ? & _); congruence).
    destruct (limb_r (j + 1) ltac:(lia)) as (hi & Hhi & _ & Hhi' & _).
    mstep. eapply wp_rd_r; [lia | done |]. mstep. eapply wp_rd_r; [lia | done |].
    apply wp_wr_spl; [done | lia |]. rewrite Nat.add_1_r in Hhi'.
    eexists _, _, _. split; [done |]. eapply shr_num_snoc; [lia | done..].
  - intros u st' (r & v0 & v & -> & Hs). rewrite Nat.add_0_l in *. pose proof (proj1 Hs) as Hl.
    destruct (limb_r (n - 1) ltac:(lia)) as (v' & Hv' & _ & HL & _).
    assert (v' = v) as -> by (destruct Hs as (_ & _ & _ & ? & _); congruence).
    mstep. eapply wp_rd_r; [lia | done |]. apply wp_wr_spl; [done | lia |]. by eapply shr_last.
Qed.

Lemma mpi_shift_r_x86_64_4_spec : n = 4%nat -> wp (mpi_shift_r_x86_64_4 x cl) (fun _ => shr_post) st.
Proof.
  intros E4.
  destruct (limb_r 0 ltac:(lia)) as (v0 & Hv0 & _ & H0 & _), (limb_r 1 ltac:(lia)) as (v1 & Hv1 & _ & H1 & _),
    (limb_r 2 ltac:(lia)) as (v2 & Hv2 & _ & H2 & _), (limb_r 3 ltac:(lia)) as (v3 & Hv3 & _ & H3 & _).
  rewrite <- (spl_nil X mx ox st HX). unfold mpi_shift_r_x86_64_4.
  do 3 (mstep; eapply wp_rd_r; [simpl; lia | done |]).
  do 3 (mstep; eapply wp_rd_r; [simpl; lia | done |]; mstep; apply wp_wr_spl; [done | lia |]).
  mstep; eapply wp_rd_r; [simpl; lia | done |]. apply wp_wr_spl; [done | lia |].
  apply (shr_last _ v0). replace (n - 1)%nat with 3%nat by lia.
  eapply (shr_num_snoc 2); [lia | done |]. eapply (shr_num_snoc 1); [lia | done |].
  eapply (shr_num_snoc 0); [lia | done |]. by apply shr_num_0.
Qed.
End ShiftR.

(** ** Concrete numbers *)

Lemma limbs_ok_check l : forallb (fun v => (0 <=? v) && (v <? 2 ^ 64)) l = true -> limbs_ok l.
Proof.
  rewrite forallb_forall. intros H. apply Forall_forall. intros v Hv.
  specialize (H v (proj1 (list_elem_of_In l v) Hv)). unfold is_u64. lia.
Qed.

(** The number [z] in [n] limbs. *)
Fixpoint to_limbs (n : nat) (z : Z) : list Z :=
  match n with O => [] | S n => z mod BASE :: to_limbs n (z / BASE) end.

Definition mpi_of (u n : nat) (z : Z) : TlsMpi := MkMpi (if z <? 0 then -1 else 1) u (to_limbs n (Z.abs z)).

Ltac mpi_ok_tac := constructor; [vm_compute; tauto | vm_compute; lia | apply limbs_ok_check; by vm_compute
  | vm_compute; first [by left | by right] | by vm_compute].
