(* ===== verification/Mpi.v ===== *)
(** * Big integers of the TLS library: the operations

    [tls/bignum.c] up to the multiplication and the binary import and export,
    over the store and the kernels of [MpiMem].  An operation takes the addresses
    of its MPIs; the result may be one of the operands wherever the code allows
    it.  The theorems say that the operations compute on the signed integers the
    MPIs stand for ([mval]) and keep them well formed ([mpi_ok]); the last section
    shows the calls for which they do not. *)

From S2P Require Import Prelude MpiMem.

Definition ENOSPC : Z := 28.

(** ** Allocation and copies *)

Definition ttls_mpi_alloc (X : nat) (nlimbs : nat) : MM unit :=
  m <~ mpi_get X;;
  if (nlimbs <=? m_limbs m)%nat then sm_ret tt
  else
    bug_on (negb (m_limbs m =? 0)%nat);;;
    bug_on (TTLS_MPI_MAX_LIMBS <? nlimbs)%nat;;;
    st <~ sm_get;;
    set_p X (new_limbs nlimbs st).

(** The loop of [mpi_fixup_used]: the limbs that stay in use. *)
Fixpoint fixup_loop (x : lptr) (n : nat) : MM nat :=
  match n with
  | S (S _ as k) => v <~ rd x k;; if v =? 0 then fixup_loop x k else sm_ret n
  | _ => sm_ret n
  end.

Definition mpi_fixup_used (X : nat) (n : nat) : MM unit :=
  n <~ fixup_loop (MPI_P X) n;; set_used X n.

(** Clear the limbs above the used ones. *)
Definition bzero_tail (X : nat) : MM unit :=
  m <~ mpi_get X;; bzero (padd (MPI_P X) (m_used m)) (m_limbs m - m_used m).

Definition ttls_mpi_copy_alloc (X Y : nat) (need_alloc : bool) : MM unit :=
  y <~ mpi_get Y;;
  if (m_limbs y =? 0)%nat then set_used X 0;;; set_s X 1
  else
    (if need_alloc then ttls_mpi_alloc X (m_used y)
     else x <~ mpi_get X;; bug_on (m_limbs x <? m_used y)%nat);;;
    memcopy (MPI_P X) (MPI_P Y) (m_used y);;;
    y <~ mpi_get Y;;
    set_s X (m_s y);;;
    set_used X (m_used y);;;
    bzero_tail X.

Definition ttls_mpi_copy (X Y : nat) : MM unit :=
  bug_on (X =? Y)%nat;;;
  x <~ mpi_get X;; y <~ mpi_get Y;;
  ttls_mpi_copy_alloc X Y (m_limbs x <? m_used y)%nat.

(** One limb of [ttls_mpi_safe_cond_swap]; [sw] is 0 or 1. *)
Definition swap_limb (X Y : nat) (sw : Z) (i : nat) (c : unit) : MM unit :=
  tmp <~ rd (MPI_P X) i;;
  vy <~ rd (MPI_P Y) i;;
  wr (MPI_P X) i (u64 (tmp * (1 - sw) + vy * sw));;;
  wr (MPI_P Y) i (u64 (vy * (1 - sw) + tmp * sw)).

Definition swap_bit (swap : Z) : Z := Z.shiftr (Z.lor swap (u8 (- swap))) 7.

Definition ttls_mpi_safe_cond_swap (X Y : nat) (swap : Z) : MM Z :=
  if (X =? Y)%nat then sm_ret 0
  else
    let sw := swap_bit swap in
    x <~ mpi_get X;; y <~ mpi_get Y;;
    if (m_limbs x <? m_used y)%nat || (m_limbs y <? m_used x)%nat then sm_ret (- ENOMEM)
    else
      set_s X (m_s x * (1 - sw) + m_s y * sw);;;
      set_s Y (m_s y * (1 - sw) + m_s x * sw);;;
      set_used X (Z.to_nat (Z.of_nat (m_used x) * (1 - sw) + Z.of_nat (m_used y) * sw));;;
      set_used Y (Z.to_nat (Z.of_nat (m_used y) * (1 - sw) + Z.of_nat (m_used x) * sw));;;
      for_up (swap_limb X Y sw) (m_used x `max` m_used y) 0 tt;;;
      sm_ret 0.

Definition ttls_mpi_lset (X : nat) (z : Z) : MM unit :=
  ttls_mpi_alloc X 1;;;
  set_used X 1;;;
  (if z <? 0 then wr (MPI_P X) 0 (u64 (- z));;; set_s X (-1)
   else wr (MPI_P X) 0 z;;; set_s X 1);;;
  m <~ mpi_get X;;
  bzero (padd (MPI_P X) 1) (m_limbs m - 1).

(** ** Bits and sizes *)

(** [__ffs()] and [fls64()] of the kernel. *)
Fixpoint ctz (p : positive) : Z :=
  match p with
  | xO p => ctz p + 1
  | _ => 0
  end.
Definition ffs64 (v : Z) : Z := match v with Zpos p => ctz p | _ => 0 end.
Definition fls64 (v : Z) : Z := if v =? 0 then 0 else Z.log2 v + 1.

Definition ttls_mpi_get_bit (X : nat) (pos : nat) : MM Z :=
  m <~ mpi_get X;;
  if (64 * m_used m <=? pos)%nat then sm_ret 0
  else v <~ rd (MPI_P X) (pos / 64);;
       sm_ret (Z.land (Z.shiftr v (Z.of_nat (pos mod 64))) 1).

Definition ttls_mpi_set_bit (X : nat) (pos : nat) (val : Z) : MM unit :=
  let off := (pos / 64)%nat in
  let idx := Z.of_nat (pos mod 64) in
  m <~ mpi_get X;;
  let set :=
    v <~ rd (MPI_P X) off;;
    wr (MPI_P X) off (Z.land v (u64 (Z.lnot (Z.shiftl 1 idx))));;;
    v <~ rd (MPI_P X) off;;
    wr (MPI_P X) off (Z.lor v (u64 (Z.shiftl val idx))) in
  if (64 * m_used m <=? pos)%nat then
    if val =? 0 then sm_ret tt
    else
      bug_on (64 * m_limbs m <=? pos)%nat;;;
      bzero (padd (MPI_P X) (m_used m)) (off - m_used m + 1);;;
      set_used X (off + 1);;;
      set
  else set.

Fixpoint lsb_loop (x : lptr) (n i : nat) : MM Z :=
  match n with
  | O => sm_ret 0
  | S n =>
      v <~ rd x i;;
      if v =? 0 then lsb_loop x n (S i) else sm_ret (Z.of_nat i * 64 + ffs64 v)
  end.

Definition ttls_mpi_lsb (X : nat) : MM Z :=
  m <~ mpi_get X;; lsb_loop (MPI_P X) (m_used m) 0.

Definition ttls_mpi_bitlen (X : nat) : MM Z :=
  m <~ mpi_get X;;
  if (m_used m =? 0)%nat then sm_ret 0
  else v <~ rd (MPI_P X) (m_used m - 1);;
       if v =? 0 then sm_ret 0 else sm_ret ((Z.of_nat (m_used m) - 1) * 64 + fls64 v).

Definition ttls_mpi_size (X : nat) : MM Z :=
  n <~ ttls_mpi_bitlen X;; sm_ret (Z.shiftr (n + 7) 3).

Definition ttls_mpi_empty (X : nat) : MM bool := m <~ mpi_get X;; sm_ret (m_used m =? 0)%nat.

Definition ttls_mpi_eq_0 (X : nat) : MM bool :=
  m <~ mpi_get X;;
  if (m_used m =? 1)%nat && (m_s m =? 1) then v <~ rd (MPI_P X) 0;; sm_ret (v =? 0)
  else sm_ret false.

Definition ttls_mpi_eq_1 (X : nat) : MM bool :=
  m <~ mpi_get X;;
  if (m_used m =? 1)%nat && (m_s m =? 1) then v <~ rd (MPI_P X) 0;; sm_ret (v =? 1)
  else sm_ret false.

(** [BITS_TO_LIMBS(n)] *)
Definition BITS_TO_LIMBS (n : Z) : nat := Z.to_nat (Z.shiftr (n + 63) 6).

(** ** Shifts *)

Definition ttls_mpi_shift_l (X A : nat) (count : nat) : MM unit :=
  ma <~ mpi_get A;;
  let old_used := m_used ma in
  if (count =? 0)%nat || (old_used =? 0)%nat then sm_ret tt
  else
    let limbs := (count / 64)%nat in
    let bits := Z.of_nat (count mod 64) in
    mx <~ mpi_get X;;
    bug_on (m_limbs mx <? old_used + limbs + 1)%nat;;;
    set_s X (m_s ma);;;
    bl <~ ttls_mpi_bitlen A;;
    set_used X (BITS_TO_LIMBS (bl + Z.of_nat count));;;
    let x := MPI_P X in
    let a := MPI_P A in
    a' <~ (if (0 <? limbs)%nat then
             a' <~ (if (X =? A)%nat || (bits =? 0)
                    then memcopy (padd x limbs) a old_used;;; sm_ret (padd a limbs)
                    else sm_ret a);;
             bzero x limbs;;; sm_ret a'
           else sm_ret a);;
    let x' := padd x limbs in
    if 0 <? bits then
      if (old_used =? 4)%nat then mpi_shift_l_x86_64_4 x' a' bits
      else mpi_shift_l_x86_64 x' a' old_used bits
    else sm_ret tt.

(** [X->used -= !x[X->used - 1]] *)
Definition drop_zero_limb (X : nat) : MM unit :=
  m <~ mpi_get X;;
  v <~ rd (MPI_P X) (m_used m - 1);;
  set_used X (if v =? 0 then (m_used m - 1)%nat else m_used m).

(** The label [zero_sign]. *)
Definition zero_sign (X : nat) : MM unit :=
  m <~ mpi_get X;;
  (if (m_used m =? 1)%nat then
     v <~ rd (MPI_P X) 0;; if v =? 0 then set_s X 1 else sm_ret tt
   else sm_ret tt);;;
  bzero_tail X.

Definition ttls_mpi_shift_r (X : nat) (count : nat) : MM unit :=
  m <~ mpi_get X;;
  if (count =? 0)%nat then sm_ret tt
  else if (count <? 64)%nat && (m_used m =? 4)%nat then
    mpi_shift_r_x86_64_4 (MPI_P X) (Z.of_nat count);;;
    drop_zero_limb X;;; zero_sign X
  else if (m_used m =? 0)%nat then sm_ret tt
  else
    v <~ rd (MPI_P X) (m_used m - 1);;
    if v =? 0 then sm_ret tt
    else
      let limbs := (count / 64)%nat in
      let bits := Z.of_nat (count mod 64) in
      if (0 <? limbs)%nat && (m_used m <=? limbs)%nat then
        bzero (MPI_P X) (m_limbs m);;; set_used X 1;;; set_s X 1
      else
        (if (0 <? limbs)%nat then
           set_used X (m_used m - limbs);;;
           memcopy (MPI_P X) (padd (MPI_P X) limbs) (m_used m - limbs)
         else sm_ret tt);;;
        (if 0 <? bits then
           m <~ mpi_get X;;
           (if (m_used m =? 4)%nat then mpi_shift_r_x86_64_4 (MPI_P X) bits
            else mpi_shift_r_x86_64 (MPI_P X) (m_used m) bits);;;
           drop_zero_limb X
         else sm_ret tt);;;
        zero_sign X.

(** ** Binary import and export *)

(** [cpu_to_be64(*(long *)p)]: eight bytes, the most significant first. *)
Definition be_load (l : bytes) : Z := foldl (fun acc b => acc * 256 + b) 0 l.

(** The [n] low bytes of a value, the most significant first. *)
Fixpoint be_bytes (n : nat) (v : Z) : bytes :=
  match n with
  | O => []
  | S n => be_bytes n (v / 256) ++ [v mod 256]
  end.

Definition CHARS_TO_LIMBS (n : nat) : nat := ((n + CIL - 1) / 8)%nat.

(** [for (j = 0; i > 0; i--, j += 8) limb |= buf[i - 1] << j] *)
Fixpoint read_tail (X l : nat) (buf : bytes) (i : nat) (j : Z) : MM unit :=
  match i with
  | O => sm_ret tt
  | S i' =>
      v <~ rd (MPI_P X) l;;
      wr (MPI_P X) l (Z.lor v (u64 (Z.shiftl (byte_at buf i') j)));;;
      read_tail X l buf i' (j + 8)
  end.

(** [while (i >= CIL)]: whole limbs from the end of the buffer. *)
Fixpoint read_limbs (X : nat) (buf : bytes) (n i l : nat) : MM (nat * nat) :=
  match n with
  | O => sm_ret (i, l)
  | S n =>
      if (CIL <=? i)%nat then
        let i := (i - CIL)%nat in
        wr (MPI_P X) l (be_load (take CIL (drop i buf)));;;
        read_limbs X buf n i (S l)
      else sm_ret (i, l)
  end.

Definition ttls_mpi_read_binary (X : nat) (buf : bytes) : MM unit :=
  let buflen := length buf in
  let limbs := CHARS_TO_LIMBS buflen in
  if (buflen =? 0)%nat then set_s X 0;;; set_used X 0
  else
    ttls_mpi_alloc X limbs;;;
    set_s X 1;;;
    il <~ read_limbs X buf limbs buflen 0;;
    let '(i, l) := il in
    (if (0 <? i)%nat then wr (MPI_P X) l 0;;; read_tail X l buf i 0 else sm_ret tt);;;
    mpi_fixup_used X limbs.

(** [for (i = buflen, l = 0; l < X->used && i >= CIL; ++l)] *)
Fixpoint write_limbs (X used : nat) (n : nat) (buf : bytes) (i l : nat) : MM (bytes * nat * nat) :=
  match n with
  | O => sm_ret (buf, i, l)
  | S n =>
      if (l <? used)%nat && (CIL <=? i)%nat then
        let i := (i - CIL)%nat in
        v <~ rd (MPI_P X) l;;
        write_limbs X used n (list_inserts i (be_bytes CIL v) buf) i (S l)
      else sm_ret (buf, i, l)
  end.

(** [for (b = 0, n %= CIL; n > 0; i--, n--, b += 8)] *)
Fixpoint write_tail (v : Z) (buf : bytes) (n i : nat) (b : Z) : MM (bytes * nat) :=
  match n with
  | O => sm_ret (buf, i)
  | S n =>
      bug_on (i =? 0)%nat;;;
      write_tail v (<[(i - 1)%nat := u8 (Z.shiftr v b)]> buf) n (i - 1) (b + 8)
  end.

Definition ttls_mpi_write_binary (X : nat) (buf : bytes) : MM (Z * bytes) :=
  n <~ ttls_mpi_size X;;
  let buflen := length buf in
  if Z.of_nat buflen <? n then sm_ret (- ENOSPC, buf)
  else
    m <~ mpi_get X;;
    r <~ write_limbs X (m_used m) (m_used m) buf buflen 0;;
    let '(buf, i, l) := r in
    r <~ (if (0 <? i)%nat && (S l =? m_used m)%nat then
            v <~ rd (MPI_P X) l;; write_tail v buf (Z.to_nat (n mod 8)) i 0
          else sm_ret (buf, i));;
    let '(buf, i) := r in
    sm_ret (0, list_inserts 0 (replicate i 0) buf).

(** [ttls_rnd()] delivers [rnd]: limbs in the byte order of the machine. *)
Fixpoint le_limbs (n : nat) (l : bytes) : list Z :=
  match n with
  | O => []
  | S n => be_load (reverse (take CIL l)) :: le_limbs n (drop CIL l)
  end.

Definition ttls_mpi_fill_random (X : nat) (rnd : bytes) : MM unit :=
  let size := length rnd in
  let limbs := CHARS_TO_LIMBS size in
  bug_on (TTLS_MPI_MAX_SIZE <? size)%nat;;;
  ttls_mpi_alloc X limbs;;;
  m <~ mpi_get X;;
  bug_on (m_limbs m <? limbs)%nat;;;
  set_p X (list_inserts 0 (le_limbs limbs (rnd ++ replicate (limbs * CIL - size) 0)) (m_p m));;;
  set_used X limbs;;;
  set_s X 1.

(** ** Comparison *)

(** Limbs [n - 1], ..., [0]; [None] when they are all equal. *)
Fixpoint cmp_loop (x y : lptr) (n : nat) : MM (option bool) :=
  match n with
  | O => sm_ret None
  | S i =>
      vx <~ rd x i;; vy <~ rd y i;;
      if vx =? vy then cmp_loop x y i else sm_ret (Some (vy <? vx))
  end.

Definition ttls_mpi_cmp_abs (X Y : nat) : MM Z :=
  x <~ mpi_get X;; y <~ mpi_get Y;;
  if negb (m_used x =? m_used y)%nat then sm_ret (Z.of_nat (m_used x) - Z.of_nat (m_used y))
  else r <~ cmp_loop (MPI_P X) (MPI_P Y) (m_used x);;
       sm_ret (match r with None => 0 | Some true => 1 | Some false => -1 end).

Definition ttls_mpi_cmp_mpi (X Y : nat) : MM Z :=
  x <~ mpi_get X;; y <~ mpi_get Y;;
  if (m_used x =? 0)%nat && (m_used y =? 0)%nat then sm_ret 0
  else if (m_used y <? m_used x)%nat then sm_ret (m_s x)
  else if (m_used x <? m_used y)%nat then sm_ret (- m_s y)
  else if (0 <? m_s x) && (m_s y <? 0) then sm_ret 1
  else if (0 <? m_s y) && (m_s x <? 0) then sm_ret (-1)
  else r <~ cmp_loop (MPI_P X) (MPI_P Y) (m_used x);;
       sm_ret (match r with None => 0 | Some true => m_s x | Some false => - m_s x end).

Definition ttls_mpi_cmp_int (X : nat) (z : Z) : MM Z :=
  m <~ mpi_get X;;
  if (1 <? m_used m)%nat then sm_ret (m_s m)
  else if (m_used m =? 0)%nat then sm_ret (s32 (- z))
  else if (z <? 0) && (0 <? m_s m) then sm_ret 1
  else if (0 <=? z) && (m_s m <? 0) then sm_ret (-1)
  else
    let z := u64 (if z <? 0 then - z else z) in
    v <~ rd (MPI_P X) 0;;
    sm_ret (if z =? v then 0 else if z <? v then m_s m else - m_s m).

(** ** Addition and subtraction *)

Definition ttls_mpi_add_abs (X A B : nat) : MM unit :=
  bug_on (A =? B)%nat;;;
  x <~ mpi_get X;; a <~ mpi_get A;; b <~ mpi_get B;;
  bug_on (m_limbs x <? m_used a `max` m_used b)%nat;;;
  let '(A, a, B, b) := if (m_used a <? m_used b)%nat then (B, b, A, a) else (A, a, B, b) in
  r <~ mpi_add_x86_64 (MPI_P X) (m_limbs x) (MPI_P B) (m_used b) (MPI_P A) (m_used a);;
  bug_on (r <=? 0);;;
  set_used X (Z.to_nat r);;;
  bzero (padd (MPI_P X) (Z.to_nat r)) (m_limbs x - Z.to_nat r);;;
  set_s X 1.

Definition ttls_mpi_sub_abs (X A B : nat) : MM unit :=
  mx <~ mpi_get X;; ma <~ mpi_get A;; mb <~ mpi_get B;;
  let a_sz := m_used ma in
  let b_sz := m_used mb in
  let x := MPI_P X in
  let a := MPI_P A in
  let b := MPI_P B in
  bug_on (m_limbs mx <? a_sz)%nat;;;
  (if ((a_sz =? 4) && (b_sz =? 4))%nat then mpi_sub_x86_64_4_4 x b a
   else if ((a_sz =? 5) && (b_sz =? 4))%nat then mpi_sub_x86_64_5_4 x b a
   else if ((a_sz =? 3) && (b_sz =? 3))%nat then mpi_sub_x86_64_3_3 x b a
   else if ((a_sz =? 2) && (b_sz =? 2))%nat then mpi_sub_x86_64_2_2 x b a
   else if ((a_sz =? 1) && (b_sz =? 1))%nat then
     va <~ rd a 0;; vb <~ rd b 0;; wr x 0 (u64 (va - vb))
   else mpi_sub_x86_64 x b a b_sz a_sz);;;
  set_s X 1;;;
  mpi_fixup_used X a_sz.

(** The result 0 of both signed operations. *)
Definition set_zero (X : nat) : MM unit :=
  set_s X 1;;; set_used X 1;;; wr (MPI_P X) 0 0.

(** [|A| - |B|] or [|B| - |A|], with the sign [s] or [-s]. *)
Definition sub_signed (X A B : nat) (s : Z) : MM unit :=
  cmp <~ ttls_mpi_cmp_abs A B;;
  if cmp =? 0 then set_zero X
  else if 0 <? cmp then ttls_mpi_sub_abs X A B;;; set_s X s
  else ttls_mpi_sub_abs X B A;;; set_s X (- s).

Definition ttls_mpi_add_mpi (X A B : nat) : MM unit :=
  a <~ mpi_get A;; b <~ mpi_get B;;
  if negb (m_s a =? m_s b) then sub_signed X A B (m_s a)
  else ttls_mpi_add_abs X A B;;; set_s X (m_s a).

Definition ttls_mpi_sub_mpi (X A B : nat) : MM unit :=
  a <~ mpi_get A;; b <~ mpi_get B;;
  if m_s a =? m_s b then sub_signed X A B (m_s a)
  else ttls_mpi_add_abs X A B;;; set_s X (m_s a).

(** An MPI of the stack frame, as [DECLARE_MPI_AUTO_INITLIMBS] makes it. *)
Definition mpi_local (m : TlsMpi) : MM nat := fun st =>
  let X := fresh (dom (obj st) : gset nat) in Ok (X, upd X m st).

Definition ttls_mpi_add_int (X A : nat) (b : Z) : MM unit :=
  _B <~ mpi_local (MkMpi (if b <? 0 then -1 else 1) 1 [u64 (if b <? 0 then - b else b)]);;
  ttls_mpi_add_mpi X A _B;;;
  mpi_free _B.

Definition ttls_mpi_sub_int (X A : nat) (b : Z) : MM unit :=
  x <~ mpi_get X;; a <~ mpi_get A;;
  bug_on ((b <? 0) || negb (m_s x =? 1));;;
  if (1 <? m_used a)%nat then
    _b <~ mpi_local (MkMpi 1 1 [b]);;
    mpi_sub_x86_64 (MPI_P X) (MPI_P _b) (MPI_P A) 1 (m_used a);;;
    mpi_free _b;;;
    a <~ mpi_get A;; mpi_fixup_used X (m_used a)
  else
    v <~ rd (MPI_P A) 0;;
    if b <=? v then ttls_mpi_lset X (s64 (v - b))
    else ttls_mpi_lset X (s64 (b - v));;; set_s X (-1).

(** ** Multiplication *)

(** [MULADDC_CORE]: one limb of the product is added to [d]. *)
Definition muladdc (s d : lptr) (b : Z) (i : nat) (c : Z) : MM Z :=
  vs <~ rd s i;;
  let '(rax, rdx) := (u64 (vs * b), vs * b / BASE) in
  let '(rax, cf) := adc rax c false in
  let '(rdx, _) := adc rdx 0 cf in
  vd <~ rd d i;;
  let '(vd, cf) := adc vd rax false in
  let '(rcx, _) := adc 0 rdx cf in
  wr d i vd;;;
  sm_ret rcx.

(** [do { *d += c; c = *d < c; d++; } while (c)] *)
Fixpoint mul_carry (fuel : nat) (d : lptr) (i : nat) (c : Z) : MM unit :=
  match fuel with
  | O => sm_bug
  | S fuel =>
      v <~ rd d i;;
      let v := u64 (v + c) in
      wr d i v;;;
      if v <? c then mul_carry fuel d (S i) 1 else sm_ret tt
  end.

(** The unrolled loops of 16, 8 and 1 limbs run [MULADDC_CORE] [n] times. *)
Definition __mpi_mul (n : nat) (s d : lptr) (b : Z) : MM unit :=
  c <~ for_up (muladdc s d b) n 0 0;;
  m <~ mpi_get (lp_obj d);;
  mul_carry (S (m_limbs m)) d n c.

(** [for ( ; j > 0; j--)] *)
Fixpoint mul_rows (n : nat) (a x b : lptr) (j : nat) : MM unit :=
  match j with
  | O => sm_ret tt
  | S k => v <~ rd b k;; __mpi_mul n a (padd x k) v;;; mul_rows n a x b k
  end.

Definition mul_main (X A B : nat) (i j : nat) : MM unit :=
  x <~ mpi_get X;;
  bug_on (m_limbs x <? i + j)%nat;;;
  bzero (MPI_P X) (m_limbs x);;;
  set_used X (i + j);;;
  mul_rows i (MPI_P A) (MPI_P X) (MPI_P B) j;;;
  mpi_fixup_used X (i + j);;;
  x <~ mpi_get X;;
  a <~ mpi_get A;; b <~ mpi_get B;;
  z <~ (if (m_used x =? 1)%nat then v <~ rd (MPI_P X) 0;; sm_ret (v =? 0) else sm_ret false);;
  if z : bool then set_s X 1 else set_s X (m_s a * m_s b).

Definition ttls_mpi_mul_mpi (X A B : nat) : MM unit :=
  a <~ mpi_get A;; b <~ mpi_get B;;
  let i := m_used a in
  let j := m_used b in
  za <~ ttls_mpi_eq_0 A;;
  zb <~ (if za : bool then sm_ret true else ttls_mpi_eq_0 B);;
  if zb : bool then ttls_mpi_lset X 0
  else if (X =? A)%nat then
    T <~ mpi_new (m_used a);;
    ttls_mpi_copy_alloc T A false;;;
    mul_main X T (if (A =? B)%nat then T else B) i j;;;
    mpi_free T
  else if (X =? B)%nat then
    T <~ mpi_new (m_used b);;
    ttls_mpi_copy_alloc T B false;;;
    mul_main X A T i j;;;
    mpi_free T
  else mul_main X A B i j.

Definition ttls_mpi_mul_uint (X A : nat) (b : Z) : MM unit :=
  _B <~ mpi_local (MkMpi 1 1 [b]);;
  ttls_mpi_mul_mpi X A _B;;;
  mpi_free _B.

(** ** Magnitudes *)

Lemma mag_bounds m : mpi_ok m -> 0 <= mag m < bpow (m_used m).
Proof.
  intros H. pose proof (ok_used m H). unfold mag.
  pose proof (lval_bounds (take (m_used m) (m_p m))) as Hb.
  rewrite length_take_le in Hb by (unfold m_limbs in *; lia). apply Hb.
  apply limbs_ok_take, (ok_limbs m H).
Qed.

Lemma mag_used_lt a b : mpi_ok a -> mpi_ok b -> (m_used a < m_used b)%nat -> mag a < mag b.
Proof.
  intros Ha Hb Hu. pose proof (mag_bounds a Ha). pose proof (ok_used a Ha).
  destruct (ok_norm b Hb); [lia |]. pose proof (bpow_le (m_used a) (m_used b - 1) ltac:(lia)). lia.
Qed.

Lemma mag_used_le a b : mpi_ok a -> mpi_ok b -> mag a <= mag b -> (m_used a <= m_used b)%nat.
Proof.
  intros Ha Hb Hm. destruct (le_lt_dec (m_used a) (m_used b)); [done |].
  pose proof (mag_used_lt b a Hb Ha). lia.
Qed.

Lemma mag_fits m n : mpi_ok m -> mag m < bpow n -> (0 < n)%nat -> (m_used m <= n)%nat.
Proof.
  intros Hm Hb Hn. destruct (ok_norm m Hm) as [->|Hl]; [lia |].
  assert (bpow (m_used m - 1) < bpow n) as Hlt by lia. apply bpow_lt_inv in Hlt.
  pose proof (ok_used m Hm). lia.
Qed.

Lemma mval_abs m : mpi_ok m -> Z.abs (mval m) = mag m.
Proof.
  intros H. pose proof (mag_bounds m H). unfold mval. destruct (ok_sign m H) as [->| ->]; lia.
Qed.

Lemma mval_sgn m : mpi_ok m -> (m_s m = 1 -> 0 <= mval m) /\ (m_s m = -1 -> mval m < 0).
Proof.
  intros H. pose proof (mag_bounds m H). unfold mval.
  split; intros E; rewrite E; [lia |].
  pose proof (ok_zero m H). rewrite E in *. destruct (decide (mag m = 0)); [exfalso; lia | lia].
Qed.

(** A sign, a value and a length without leading zeros make an MPI. *)
Lemma mpi_ok_intro s u p v :
  s = 1 \/ s = -1 -> (1 <= u <= length p)%nat -> limbs_ok p -> lval (take u p) = v ->
  u = 1%nat \/ bpow (u - 1) <= v -> (v = 0 -> s = 1) ->
  mpi_ok (MkMpi s u p) /\ mval (MkMpi s u p) = s * v.
Proof. intros. subst v. split; [| done]. by constructor. Qed.

(** ** Results of operations

    [mres X n v st st']: [st'] is [st] with a well-formed MPI of value [v] in an
    array of [n] limbs at [X]; nothing else changed. *)

Definition mres (X n : nat) (v : Z) (st st' : MpiMem) : Prop :=
  exists m, st' = upd X m st /\ mpi_ok m /\ m_limbs m = n /\ mval m = v.

Lemma wp_alloc X m n (Q : unit -> MpiMem -> Prop) st :
  obj st !! X = Some m -> (n <= m_limbs m)%nat -> Q tt st -> wp (ttls_mpi_alloc X n) Q st.
Proof.
  intros Hm Hn HQ. unfold ttls_mpi_alloc. mstep. mstep.
  by rewrite (proj2 (Nat.leb_le _ _) Hn).
Qed.

Lemma length_new_limbs n st : length (new_limbs n st) = n.
Proof. unfold new_limbs. by rewrite length_fmap, length_seq. Qed.

Lemma fixup_loop_spec x m n st :
  obj st !! lp_obj x = Some m -> lp_off x = 0%nat -> (1 <= n <= m_limbs m)%nat -> limbs_ok (m_p m) ->
  wp (fixup_loop x n)
    (fun u st' => st' = st /\ (1 <= u <= n)%nat /\ lval (take u (m_p m)) = lval (take n (m_p m)) /\
       (u = 1%nat \/ bpow (u - 1) <= lval (take n (m_p m)))) st.
Proof.
  intros Hx Ho Hn Hok. induction n as [|n IH]; [lia |].
  destruct n as [|k]; cbn [fixup_loop]; [mstep; split_and!; auto; lia |].
  destruct (lookup_lt_is_Some_2 (m_p m) (S k)) as [v Hv]; [unfold m_limbs in *; lia |].
  pose proof (lval_take_S _ _ _ Hv) as Hl. pose proof (limbs_ok_lookup _ _ _ Hok Hv) as Hu.
  mstep. eapply wp_rd; [done | rewrite Ho; exact Hv |]. destruct (Z.eqb_spec v 0) as [->|Hne].
  - eapply wp_mono; [apply IH; lia |]. intros u st' (-> & Hu1 & Hlu & Hn').
    replace (lval (take (S (S k)) (m_p m))) with (lval (take (S k) (m_p m))) by lia.
    split_and!; [done | lia | lia | done | done].
  - mstep. split_and!; [done | lia | lia | done |]. right. rewrite Hl.
    pose proof (lval_nonneg (take (S k) (m_p m)) ltac:(auto with tfw)).
    pose proof (bpow_pos (S k)). apply u64_lt in Hu. replace (S (S k) - 1)%nat with (S k) by lia. nia.
Qed.

(** [mpi_fixup_used] drops the leading zero limbs. *)
Lemma wp_fixup X m n (Q : unit -> MpiMem -> Prop) st :
  obj st !! X = Some m -> (1 <= n <= m_limbs m)%nat -> limbs_ok (m_p m) ->
  (forall u, (1 <= u <= n)%nat -> lval (take u (m_p m)) = lval (take n (m_p m)) ->
     u = 1%nat \/ bpow (u - 1) <= lval (take n (m_p m)) ->
     Q tt (upd X (MkMpi (m_s m) u (m_p m)) st)) ->
  wp (mpi_fixup_used X n) Q st.
Proof.
  intros Hm Hn Hok HQ. unfold mpi_fixup_used. mstep.
  eapply wp_mono; [by apply (fixup_loop_spec _ m) |]. intros u st' (-> & Hu & Hl & Hn').
  eapply wp_set_used; [done |]. by apply HQ.
Qed.

(** ** Comparison *)

Lemma lval_take_S_cmp l k i v w :
  l !! i = Some v -> k !! i = Some w -> limbs_ok l -> limbs_ok k ->
  v < w -> lval (take (S i) l) < lval (take (S i) k).
Proof.
  intros Hv Hw Hl Hk Hlt. rewrite (lval_take_S _ _ _ Hv), (lval_take_S _ _ _ Hw).
  pose proof (lval_bounds (take i l) ltac:(auto with tfw)) as Hb.
  rewrite length_take_le in Hb by (apply lookup_lt_Some in Hv; lia).
  pose proof (lval_nonneg (take i k) ltac:(auto with tfw)). nia.
Qed.

Lemma cmp_loop_spec X Y x y n st :
  obj st !! X = Some x -> obj st !! Y = Some y -> limbs_ok (m_p x) -> limbs_ok (m_p y) ->
  (n <= m_limbs x)%nat -> (n <= m_limbs y)%nat ->
  wp (cmp_loop (MPI_P X) (MPI_P Y) n)
    (fun r st' => st' = st /\
       match r with
       | None => lval (take n (m_p x)) = lval (take n (m_p y))
       | Some true => lval (take n (m_p y)) < lval (take n (m_p x))
       | Some false => lval (take n (m_p x)) < lval (take n (m_p y))
       end) st.
Proof.
  intros Hx Hy Hkx Hky. induction n as [|i IH]; intros Hnx Hny; cbn [cmp_loop]; [by mstep |].
  destruct (lookup_lt_is_Some_2 (m_p x) i) as [vx Hvx]; [unfold m_limbs in *; lia |].
  destruct (lookup_lt_is_Some_2 (m_p y) i) as [vy Hvy]; [unfold m_limbs in *; lia |].
  mstep. eapply wp_rd; [done | done |]. mstep. eapply wp_rd; [done | done |].
  destruct (Z.eqb_spec vx vy) as [->|Hne].
  - eapply wp_mono; [apply IH; lia |]. intros r st' [-> Hr]. split; [done |].
    rewrite (lval_take_S _ _ _ Hvx), (lval_take_S _ _ _ Hvy). destruct r as [[]|]; lia.
  - mstep. split; [done |]. destruct (Z.ltb_spec vy vx);
      eapply lval_take_S_cmp; eauto; lia.
Qed.

(** [|A|] against [|B|]. *)
Lemma cmp_abs_spec A B a b st :
  obj st !! A = Some a -> obj st !! B = Some b -> mpi_ok a -> mpi_ok b ->
  wp (ttls_mpi_cmp_abs A B)
    (fun r st' => st' = st /\ Z.sgn r = Z.sgn (mag a - mag b)) st.
Proof.
  intros Ha Hb Hka Hkb. unfold ttls_mpi_cmp_abs. do 2 (mstep; mstep).
  pose proof (ok_used a Hka). pose proof (ok_used b Hkb).
  destruct (Nat.eqb_spec (m_used a) (m_used b)) as [E|Hne]; simpl negb; cbv iota.
  - mstep. eapply wp_mono.
    { apply (cmp_loop_spec A B a b); [done | done | apply Hka | apply Hkb | lia | lia]. }
    intros r st' [-> Hr]. mstep. split; [done |]. unfold mag. rewrite <- E.
    destruct r as [[]|]; lia.
  - mstep. split; [done |]. destruct (Nat.lt_gt_cases (m_used a) (m_used b)) as [[Hl|Hl] _]; [done | |].
    + pose proof (mag_used_lt a b Hka Hkb Hl). lia.
    + pose proof (mag_used_lt b a Hkb Hka Hl). lia.
Qed.

(** ** Unsigned addition and subtraction *)

Lemma take_inserts_le (u : nat) (r p : list Z) :
  (u <= length r)%nat -> (length r <= length p)%nat -> take u (list_inserts 0 r p) = take u r.
Proof.
  intros Hu Hr. rewrite <- (take_inserts_0 r p) at 2 by done. by rewrite take_take, Nat.min_l.
Qed.

Lemma take_used_u (u : nat) (r p : list Z) v :
  (u <= length r)%nat -> (length r <= length p)%nat -> lval (take u (list_inserts 0 r p)) = v ->
  lval (take u r) = v.
Proof. intros Hu Hr. by rewrite take_inserts_le. Qed.

(** No garbage above the used limbs. *)
Definition mpi_clean (m : TlsMpi) : Prop := lval (m_p m) = mag m.

Lemma inserts_zero_tail (r p : list Z) :
  (length r <= length p)%nat ->
  list_inserts (length r) (replicate (length p - length r) 0) (list_inserts 0 r p)
    = r ++ replicate (length p - length r) 0.
Proof.
  intros Hl. pose proof (list_inserts_app_l r (replicate (length p - length r) 0) p 0) as He.
  rewrite Nat.add_0_r in He. rewrite <- He.
  rewrite <- (app_nil_r (r ++ _)) at 1. apply list_inserts_0_l.
  rewrite length_app, length_replicate. lia.
Qed.

Lemma lval_zero_tail r n : lval (r ++ replicate n 0) = lval r.
Proof. rewrite lval_app, lval_replicate. lia. Qed.

Section SubAbs.
Context (X A B : nat) (x a b : TlsMpi) (st : MpiMem).
Hypothesis HX : obj st !! X = Some x.
Hypothesis HA : obj st !! A = Some a.
Hypothesis HB : obj st !! B = Some b.
Hypothesis Hox : limbs_ok (m_p x).
Hypothesis Hua : (1 <= m_used a <= m_limbs a)%nat.
Hypothesis Hub : (m_used b <= m_limbs b)%nat.
Hypothesis Hpa : limbs_ok (m_p a).
Hypothesis Hpb : limbs_ok (m_p b).
Hypothesis Hba : (m_used b <= m_used a)%nat.

(** The subtraction kernels are all the same function. *)
Lemma sub_dispatch_spec :
  (m_used a <= m_limbs x)%nat -> mag b <= mag a ->
  wp (let a_sz := m_used a in
      let b_sz := m_used b in
      if ((a_sz =? 4) && (b_sz =? 4))%nat then mpi_sub_x86_64_4_4 (MPI_P X) (MPI_P B) (MPI_P A)
      else if ((a_sz =? 5) && (b_sz =? 4))%nat then mpi_sub_x86_64_5_4 (MPI_P X) (MPI_P B) (MPI_P A)
      else if ((a_sz =? 3) && (b_sz =? 3))%nat then mpi_sub_x86_64_3_3 (MPI_P X) (MPI_P B) (MPI_P A)
      else if ((a_sz =? 2) && (b_sz =? 2))%nat then mpi_sub_x86_64_2_2 (MPI_P X) (MPI_P B) (MPI_P A)
      else if ((a_sz =? 1) && (b_sz =? 1))%nat then
        va <~ rd (MPI_P A) 0;; vb <~ rd (MPI_P B) 0;; wr (MPI_P X) 0 (u64 (va - vb))
      else mpi_sub_x86_64 (MPI_P X) (MPI_P B) (MPI_P A) b_sz a_sz)
    (fun _ st' => exists r, st' = spl X x 0 r st /\ length r = m_used a /\ limbs_ok r /\
       lval r = mag a - mag b) st.
Proof.
  intros Hl Hle. cbv zeta.
  assert (Hs : forall st', sub_post st X 0 0 0 x a b (m_used a) (m_used b) st' ->
    exists r, st' = spl X x 0 r st /\ length r = m_used a /\ limbs_ok r /\ lval r = mag a - mag b).
  { intros st' (r & Hr). exists r. unfold mag. by rewrite !drop_0 in Hr. }
  repeat case_match; (eapply wp_mono; [| intros ??; apply Hs]);
    repeat match goal with H : (_ && _)%bool = true |- _ => apply andb_true_iff in H as [? ?] end;
    repeat match goal with H : (_ =? _)%nat = true |- _ => apply Nat.eqb_eq in H end.
  - apply mpi_sub_x86_64_4_4_spec; try done; lia.
  - apply mpi_sub_x86_64_5_4_spec; try done; lia.
  - apply mpi_sub_x86_64_3_3_spec; try done; lia.
  - apply mpi_sub_x86_64_2_2_spec; try done; lia.
  - apply sub_1_1_spec; try done; lia.
  - apply mpi_sub_x86_64_spec; try done; lia.
Qed.

(** [X = |A| - |B|]: the limbs of [A] are all written, those above are kept. *)
Lemma sub_abs_spec :
  (m_used a <= m_limbs x)%nat -> mag b <= mag a ->
  wp (ttls_mpi_sub_abs X A B)
    (fun _ st' => exists u r,
       st' = upd X (MkMpi 1 u (list_inserts 0 r (m_p x))) st /\
       length r = m_used a /\ limbs_ok r /\ lval r = mag a - mag b /\
       (1 <= u <= m_used a)%nat /\ lval (take u r) = lval r /\
       (u = 1%nat \/ bpow (u - 1) <= lval r)) st.
Proof.
  intros Hl Hle. unfold ttls_mpi_sub_abs. do 3 (mstep; mstep).
  cbv zeta. mstep. mstep. { by apply Nat.ltb_ge. }
  mstep. eapply wp_mono; [exact (sub_dispatch_spec Hl Hle) |].
  intros ? st' (r & -> & Hlr & Hr & Hv). mstep.
  eapply wp_set_s; [apply obj_spl_eq |]. unfold spl. rewrite upd_upd. simpl.
  assert (Hlp : length (list_inserts 0 r (m_p x)) = m_limbs x) by apply length_inserts.
  eapply wp_fixup; [apply obj_upd_eq | unfold m_limbs at 1; simpl; rewrite Hlp; lia
    | apply limbs_ok_inserts; done |].
  simpl. intros u Hu Hval Hn. rewrite upd_upd.
  rewrite (take_inserts_le (m_used a)) in Hval, Hn by (unfold m_limbs in *; lia).
  rewrite (take_ge r) in Hval, Hn by lia.
  exists u, r. split_and!; [done | done | done | done | lia | lia | | done].
  eapply take_used_u; [lia | | exact Hval]. unfold m_limbs in *; lia.
Qed.

End SubAbs.

Section AddAbs.
Context (X A B : nat) (x a b : TlsMpi) (st : MpiMem).
Hypothesis HX : obj st !! X = Some x.
Hypothesis HA : obj st !! A = Some a.
Hypothesis HB : obj st !! B = Some b.
Hypothesis Hox : limbs_ok (m_p x).
Hypothesis Hoa : mpi_ok a.
Hypothesis Hob : mpi_ok b.

(** [X = |A| + |B|] *)
Lemma add_abs_spec :
  A <> B -> (m_used a `max` m_used b <= m_limbs x)%nat -> mag a + mag b < bpow (m_limbs x) ->
  wp (ttls_mpi_add_abs X A B)
    (fun _ st' => exists m, st' = upd X m st /\ mpi_ok m /\ m_limbs m = m_limbs x /\
       m_s m = 1 /\ mag m = mag a + mag b /\ mpi_clean m) st.
Proof.
  intros Hne Hl Hfit. pose proof (ok_used a Hoa). pose proof (ok_used b Hob).
  unfold ttls_mpi_add_abs. mstep. mstep. { by apply Nat.eqb_neq. }
  do 3 (mstep; mstep). mstep. mstep. { by apply Nat.ltb_ge. }
  destruct (if (m_used a <? m_used b)%nat then (B, b, A, a) else (A, a, B, b)) as [[[A' a'] B'] b'] eqn:E.
  assert (Hsw : obj st !! A' = Some a' /\ obj st !! B' = Some b' /\ mpi_ok a' /\ mpi_ok b' /\
    (m_used b' <= m_used a' <= m_limbs x)%nat /\ mag a' + mag b' = mag a + mag b).
  { destruct (Nat.ltb_spec (m_used a) (m_used b)); simplify_eq; split_and!; auto; lia. }
  clear E. destruct Hsw as (HA' & HB' & Hoa' & Hob' & Hu & Hm).
  pose proof (ok_used a' Hoa'). pose proof (ok_used b' Hob').
  mstep. eapply wp_mono.
  { apply (mpi_add_x86_64_spec st X 0 A' 0 B' 0 x a' b'); try done; try apply Hoa'; try apply Hob'; try lia.
    rewrite !drop_0. destruct (Nat.eq_dec (m_used a') (m_limbs x)) as [E|]; [left | right; lia].
    rewrite <- E in Hfit. unfold mag in *. lia. }
  intros n st1 (r & -> & -> & Hr & Hv & Hlen & Hmax & Hnorm). rewrite !drop_0 in Hv.
  fold (mag a') (mag b') in Hv. rewrite Hm in Hv. simpl in Hmax. unfold m_limbs in Hmax.
  mstep. mstep. { apply Z.leb_gt. lia. }
  mstep. eapply wp_set_used; [apply obj_spl_eq |]. unfold spl. rewrite upd_upd, Nat2Z.id. simpl.
  mstep. eapply wp_bzero; [apply obj_upd_eq | unfold m_limbs; simpl; rewrite length_inserts; lia |].
  unfold spl. rewrite upd_upd. unfold m_limbs. simpl. rewrite inserts_zero_tail by done.
  eapply wp_set_s; [apply obj_upd_eq |]. rewrite upd_upd. simpl.
  eexists. split; [done |].
  pose proof (mag_bounds a' Hoa'). pose proof (mag_bounds b' Hob').
  assert (Ht : lval (take (length r) (r ++ replicate (length (m_p x) - length r) 0)) = mag a + mag b)
    by (rewrite take_app_length; exact Hv).
  destruct (mpi_ok_intro 1 (length r) (r ++ replicate (length (m_p x) - length r) 0) (mag a + mag b))
    as [Hok _]; [by left | rewrite length_app; lia | | done | | done |].
  - apply limbs_ok_app. split; [done | auto with tfw].
  - destruct (Nat.eq_dec (length r) (m_used a')) as [->|].
    + destruct (ok_norm a' Hoa') as [|Hn]; [by left | right]. lia.
    + right. pose proof (bpow_le (length r - 1) (m_used a')) as Hb.
      specialize (Hb ltac:(lia)). specialize (Hnorm ltac:(lia)). lia.
  - split_and!; [done | | done | done |].
    + unfold m_limbs. simpl. rewrite length_app, length_replicate. lia.
    + unfold mpi_clean, mag. simpl. rewrite Ht, lval_zero_tail. exact Hv.
Qed.
End AddAbs.

(** ** Signed addition and subtraction *)

Lemma inserts_0 (r p : list Z) :
  (length r <= length p)%nat -> list_inserts 0 r p = r ++ drop (length r) p.
Proof.
  intros Hl. rewrite <- (take_drop (length r) p) at 1. apply list_inserts_0_r.
  rewrite length_take. lia.
Qed.

Section AddMpi.
Context (X : nat) (x : TlsMpi) (st : MpiMem).
Hypothesis HX : obj st !! X = Some x.
Hypothesis Hox : limbs_ok (m_p x).

(** What [st'] is after [X] got the value [v]; [n] limbs were written. *)
Definition sres (n : nat) (v : Z) (st' : MpiMem) : Prop :=
  exists m, st' = upd X m st /\ mpi_ok m /\ m_limbs m = m_limbs x /\ mval m = v /\
    (v <> 0 -> lval (drop n (m_p x)) = 0 -> mpi_clean m).

Lemma sub_abs_signed A B a b s :
  obj st !! A = Some a -> obj st !! B = Some b -> mpi_ok a ->
  limbs_ok (m_p b) -> (1 <= m_used b <= m_limbs b)%nat -> (m_used b <= m_used a)%nat ->
  s = 1 \/ s = -1 -> mag b < mag a -> (m_used a <= m_limbs x)%nat ->
  wp (ttls_mpi_sub_abs X A B;;; set_s X s)
    (fun _ => sres (m_used a) (s * (mag a - mag b))) st.
Proof.
  intros HA HB Hoa Hob Hub Huba Hs Hlt Hl. mstep. pose proof (ok_used a Hoa).
  eapply wp_mono; [apply (sub_abs_spec X A B x a b); [done | done | done | done | done | lia | apply Hoa | apply Hob | done | done | lia] |].
  intros ? ? (u & r & -> & Hlr & Hr & Hv & Hu & Hvu & Hn).
  assert (Hlp : (length r <= length (m_p x))%nat) by (unfold m_limbs in *; lia).
  eapply wp_set_s; [apply obj_upd_eq |]. rewrite upd_upd. simpl.
  destruct (mpi_ok_intro s u (list_inserts 0 r (m_p x)) (mag a - mag b)) as [Hok Hval].
  - done.
  - rewrite length_inserts. lia.
  - auto with tfw.
  - rewrite take_inserts_le by lia. lia.
  - destruct Hn; [by left | right; lia].
  - lia.
  - eexists. split_and!; [done | done | unfold m_limbs; simpl; apply length_inserts | done |].
    intros _ Ht. unfold mpi_clean, mag. simpl. rewrite take_inserts_le by lia.
    rewrite inserts_0, lval_app, Hvu, Hlr by done. lia.
Qed.

Lemma set_zero_spec n : (1 <= m_limbs x)%nat -> wp (set_zero X) (fun _ => sres n 0) st.
Proof.
  intros Hl. unfold set_zero. mstep. eapply wp_set_s; [done |]. mstep.
  eapply wp_set_used; [apply obj_upd_eq |]. rewrite upd_upd.
  eapply wp_wr; [apply obj_upd_eq | unfold m_limbs in *; simpl; lia |].
  simpl. rewrite upd_upd. unfold with_p. simpl. eexists. split; [done |].
  unfold m_limbs in *. destruct (m_p x) as [|v p] eqn:Ep; [simpl in Hl; lia |].
  change (<[0%nat:=0]> (v :: p)) with (0 :: p).
  destruct (mpi_ok_intro 1 1 (0 :: p) 0) as [Hok Hv]; [by left | simpl; lia | | done | by left | done |].
  { inversion Hox; subst. constructor; [by unfold is_u64 | done]. }
  by split_and!.
Qed.

(** [X] becomes [s * (|A| - |B|)]. *)
Lemma sub_signed_spec A B a b s :
  obj st !! A = Some a -> obj st !! B = Some b -> mpi_ok a -> mpi_ok b ->
  s = 1 \/ s = -1 -> (m_used a `max` m_used b <= m_limbs x)%nat ->
  wp (sub_signed X A B s)
    (fun _ => sres (m_used a `max` m_used b) (s * (mag a - mag b))) st.
Proof.
  intros HA HB Hoa Hob Hs Hl. pose proof (ok_used a Hoa). pose proof (ok_used b Hob).
  unfold sub_signed. mstep. eapply wp_mono; [by apply (cmp_abs_spec A B a b) |].
  intros cmp ? [-> Hc]. destruct (Z.eqb_spec cmp 0) as [->|Hn0]; [| destruct (Z.ltb_spec 0 cmp)].
  - assert (mag a - mag b = 0) as -> by (simpl in Hc; lia). rewrite Z.mul_0_r.
    apply set_zero_spec. lia.
  - assert (mag b < mag a) by lia. pose proof (mag_used_le b a Hob Hoa).
    rewrite Nat.max_l by lia. apply (sub_abs_signed A B a b); auto; [apply Hob | lia | lia].
  - assert (mag a < mag b) by lia. pose proof (mag_used_le a b Hoa Hob).
    rewrite Nat.max_r by lia. replace (s * (mag a - mag b)) with (- s * (mag b - mag a)) by lia.
    apply (sub_abs_signed B A b a); auto; [apply Hoa | lia | lia | lia].
Qed.

Lemma add_abs_signed A B a b s :
  obj st !! A = Some a -> obj st !! B = Some b -> mpi_ok a -> mpi_ok b -> A <> B ->
  (m_s a = s /\ (m_s b = s \/ m_s b = - s)) ->
  (m_used a `max` m_used b <= m_limbs x)%nat -> mag a + mag b < bpow (m_limbs x) ->
  mag a + mag b <> 0 \/ s = 1 ->
  wp (ttls_mpi_add_abs X A B;;; set_s X s)
    (fun _ => sres (m_used a `max` m_used b) (s * (mag a + mag b))) st.
Proof.
  intros HA HB Hoa Hob Hne Hs Hl Hfit Hz. mstep.
  eapply wp_mono; [by apply (add_abs_spec X A B x a b) |].
  intros ? ? (m & -> & Hok & Hlm & Hsm & Hv & Hc).
  eapply wp_set_s; [apply obj_upd_eq |]. rewrite upd_upd. eexists. split; [done |].
  pose proof (ok_sign a Hoa).
  destruct (mpi_ok_intro s (m_used m) (m_p m) (mag a + mag b)) as [Hok' Hv'];
    [by destruct Hs as [<- _] | apply (ok_used m Hok) | apply Hok | done | | lia |].
  - pose proof (ok_norm m Hok) as Hn. by rewrite Hv in Hn.
  - by split_and!.
Qed.

Lemma add_mpi_spec A B a b :
  obj st !! A = Some a -> obj st !! B = Some b -> mpi_ok a -> mpi_ok b ->
  (m_used a `max` m_used b <= m_limbs x)%nat ->
  (m_s a = m_s b -> A <> B /\ mag a + mag b < bpow (m_limbs x)) ->
  wp (ttls_mpi_add_mpi X A B) (fun _ => sres (m_used a `max` m_used b) (mval a + mval b)) st.
Proof.
  intros HA HB Hoa Hob Hl Hs. unfold ttls_mpi_add_mpi. do 2 (mstep; mstep).
  pose proof (ok_sign a Hoa). pose proof (ok_sign b Hob). unfold mval.
  pose proof (mag_bounds a Hoa). pose proof (mag_bounds b Hob).
  destruct (Z.eqb_spec (m_s a) (m_s b)) as [E|Hne]; simpl negb; cbv iota.
  - destruct (Hs E). replace (m_s a * mag a + m_s b * mag b) with (m_s a * (mag a + mag b)) by (rewrite E; lia).
    apply add_abs_signed; auto. pose proof (ok_zero a Hoa). destruct (decide (mag a = 0)); [auto | left; lia].
  - replace (m_s a * mag a + m_s b * mag b) with (m_s a * (mag a - mag b)) by nia.
    by apply sub_signed_spec.
Qed.

Lemma sub_mpi_spec A B a b :
  obj st !! A = Some a -> obj st !! B = Some b -> mpi_ok a -> mpi_ok b ->
  (m_used a `max` m_used b <= m_limbs x)%nat ->
  (m_s a <> m_s b -> A <> B /\ mag a + mag b < bpow (m_limbs x)) ->
  wp (ttls_mpi_sub_mpi X A B) (fun _ => sres (m_used a `max` m_used b) (mval a - mval b)) st.
Proof.
  intros HA HB Hoa Hob Hl Hs. unfold ttls_mpi_sub_mpi. do 2 (mstep; mstep).
  pose proof (ok_sign a Hoa). pose proof (ok_sign b Hob). unfold mval.
  pose proof (mag_bounds a Hoa). pose proof (mag_bounds b Hob).
  destruct (Z.eqb_spec (m_s a) (m_s b)) as [E|Hne].
  - replace (m_s a * mag a - m_s b * mag b) with (m_s a * (mag a - mag b)) by (rewrite E; lia).
    by apply sub_signed_spec.
  - destruct (Hs Hne). replace (m_s a * mag a - m_s b * mag b) with (m_s a * (mag a + mag b)) by nia.
    apply add_abs_signed; auto; [lia |].
    pose proof (ok_zero a Hoa). destruct (decide (mag a = 0)); [auto | left; lia].
Qed.
End AddMpi.

Lemma sres_mres X x st n v st' : sres X x st n v st' -> mres X (m_limbs x) v st st'.
Proof. intros (m & ? & ? & ? & ? & _). by exists m. Qed.

(** ** Signed comparison, small values and copies *)

Lemma cmp_mpi_spec A B a b st :
  obj st !! A = Some a -> obj st !! B = Some b -> mpi_ok a -> mpi_ok b ->
  wp (ttls_mpi_cmp_mpi A B)
    (fun r st' => st' = st /\ Z.sgn r = Z.sgn (mval a - mval b)) st.
Proof.
  intros Ha Hb Hka Hkb. unfold ttls_mpi_cmp_mpi. do 2 (mstep; mstep).
  pose proof (ok_used a Hka). pose proof (ok_used b Hkb).
  pose proof (mag_bounds a Hka). pose proof (mag_bounds b Hkb).
  pose proof (ok_sign a Hka) as Hsa. pose proof (ok_sign b Hkb) as Hsb.
  rewrite (proj2 (Nat.eqb_neq (m_used a) 0)) by lia. simpl andb. cbv iota.
  destruct (Nat.ltb_spec (m_used b) (m_used a)) as [Hl|].
  { mstep. split; [done |]. pose proof (mag_used_lt b a Hkb Hka Hl). unfold mval.
    destruct Hsa as [->| ->], Hsb as [->| ->]; lia. }
  destruct (Nat.ltb_spec (m_used a) (m_used b)) as [Hl|].
  { mstep. split; [done |]. pose proof (mag_used_lt a b Hka Hkb Hl). unfold mval.
    destruct Hsa as [->| ->], Hsb as [->| ->]; lia. }
  pose proof (mval_sgn a Hka). pose proof (mval_sgn b Hkb).
  destruct ((0 <? m_s a) && (m_s b <? 0)) eqn:E1; [| destruct ((0 <? m_s b) && (m_s a <? 0)) eqn:E2].
  - mstep. split; [done |]. bool_hyps. destruct Hsa, Hsb; lia.
  - mstep. split; [done |]. bool_hyps. destruct Hsa, Hsb; lia.
  - assert (m_s a = m_s b) as Es by (destruct Hsa as [Es| Es], Hsb as [Es'| Es']; rewrite Es, Es' in *; done).
    mstep. eapply wp_mono.
    { apply (cmp_loop_spec A B a b); [done | done | apply Hka | apply Hkb | lia | lia]. }
    intros r st' [-> Hr]. mstep. split; [done |]. unfold mval, mag.
    replace (m_used b) with (m_used a) by lia. rewrite <- Es.
    destruct Hsa as [->| ->], r as [[]|]; lia.
Qed.

Lemma mag_1 m : mpi_ok m -> m_used m = 1%nat -> m_p m !! 0%nat = Some (mag m).
Proof.
  intros H E. pose proof (ok_used m H). unfold mag, m_limbs in *. rewrite E.
  destruct (m_p m) as [|v p]; simpl in *; [lia |]. f_equal. lia.
Qed.

Lemma mag_ge_base m : mpi_ok m -> (1 < m_used m)%nat -> BASE <= mag m.
Proof.
  intros H Hu. destruct (ok_norm m H) as [|Hn]; [lia |].
  pose proof (bpow_le 1 (m_used m - 1) ltac:(lia)) as Hb. rewrite bpow_1 in Hb. lia.
Qed.

#[global] Transparent BASE.
Lemma cmp_int_spec A a z st :
  obj st !! A = Some a -> mpi_ok a -> - 2 ^ 63 <= z < 2 ^ 63 ->
  wp (ttls_mpi_cmp_int A z) (fun r st' => st' = st /\ Z.sgn r = Z.sgn (mval a - z)) st.
Proof.
  intros Ha Hka Hz. unfold ttls_mpi_cmp_int. mstep; mstep.
  pose proof (ok_used a Hka). pose proof (mag_bounds a Hka). pose proof (ok_sign a Hka) as Hs.
  pose proof (mval_sgn a Hka) as Hsg. destruct (Nat.ltb_spec 1 (m_used a)) as [Hl|].
  { mstep. split; [done |]. pose proof (mag_ge_base a Hka Hl). unfold BASE, mval in *.
    destruct Hs as [->| ->]; lia. }
  rewrite (proj2 (Nat.eqb_neq (m_used a) 0)) by lia.
  destruct ((z <? 0) && (0 <? m_s a)) eqn:E1; [| destruct ((0 <=? z) && (m_s a <? 0)) eqn:E2].
  - mstep. split; [done |]. bool_hyps. destruct Hs; lia.
  - mstep. split; [done |]. bool_hyps. destruct Hs; lia.
  - mstep. eapply wp_rd; [done | apply mag_1; [done | lia] |]. mstep. split; [done |].
    rewrite u64_small by (destruct (z <? 0) eqn:?; bool_hyps; lia). unfold mval.
    destruct Hs as [Hs|Hs]; rewrite Hs in *; simpl in *;
      repeat case_match; bool_hyps; try lia; rewrite ?andb_true_r in *; bool_hyps; lia.
Qed.
#[global] Opaque BASE.

Lemma lset_spec X x z st :
  obj st !! X = Some x -> limbs_ok (m_p x) -> (1 <= m_limbs x)%nat -> - 2 ^ 63 <= z < 2 ^ 63 ->
  wp (ttls_mpi_lset X z)
    (fun _ st' => exists m, st' = upd X m st /\ mpi_ok m /\ m_limbs m = m_limbs x /\
       mval m = z /\ mpi_clean m) st.
Proof.
  intros HX Hox Hl Hz. unfold ttls_mpi_lset. mstep. eapply wp_alloc; [done | done |].
  mstep. eapply wp_set_used; [done |]. destruct x as [s u p]. unfold m_limbs in Hl. simpl in Hl, Hox.
  destruct p as [|v p]; [simpl in Hl; lia |]. simpl.
  set (w := if z <? 0 then - z else z). set (sg := if z <? 0 then -1 else 1).
  assert (Hw : is_u64 w /\ sg * w = z /\ (w = 0 -> sg = 1)).
  { subst w sg. unfold is_u64. destruct (Z.ltb_spec z 0); lia. }
  mstep. eapply (wp_mono _ (fun _ st' => st' = upd X (MkMpi sg 1 (w :: p)) st)).
  - subst w sg. destruct (Z.ltb_spec z 0); mstep;
      (eapply wp_wr; [apply obj_upd_eq | unfold m_limbs; simpl; lia |]); simpl; rewrite upd_upd;
      (eapply wp_set_s; [apply obj_upd_eq |]); rewrite upd_upd; simpl; [| done].
    rewrite u64_small by lia. done.
  - intros ? ? ->. mstep. eapply wp_mpi_get; [apply obj_upd_eq |].
    eapply wp_bzero; [apply obj_upd_eq | unfold m_limbs; simpl; lia |].
    unfold spl. rewrite upd_upd. unfold with_p, m_limbs. simpl. rewrite Nat.sub_0_r.
    rewrite list_inserts_cons. rewrite <- (app_nil_r (replicate (length p) 0)).
    rewrite list_inserts_0_l by (by rewrite length_replicate).
    destruct Hw as (Hu & Hv & Hz0). eexists. split; [done |].
    destruct (mpi_ok_intro sg 1 (w :: replicate (length p) 0) w) as [Hok Hval].
    + subst sg. destruct (z <? 0); auto.
    + simpl. lia.
    + constructor; [done | apply limbs_ok_replicate].
    + simpl. lia.
    + by left.
    + done.
    + split_and!; [done | unfold m_limbs; simpl; by rewrite length_replicate | lia |].
      unfold mpi_clean, mag. simpl. rewrite lval_replicate. lia.
Qed.

(** A copy: the limbs in use, zeros above. *)
Definition mpi_copy_of (x y : TlsMpi) : TlsMpi :=
  MkMpi (m_s y) (m_used y) (take (m_used y) (m_p y) ++ replicate (m_limbs x - m_used y) 0).

Lemma mpi_copy_of_props x y :
  (m_used y <= m_limbs y)%nat -> (m_used y <= m_limbs x)%nat ->
  m_limbs (mpi_copy_of x y) = m_limbs x /\ mag (mpi_copy_of x y) = mag y /\ mpi_clean (mpi_copy_of x y) /\
  (mpi_ok y -> mpi_ok (mpi_copy_of x y)).
Proof.
  intros Hy Hx. unfold m_limbs in *.
  assert (Hlr : length (take (m_used y) (m_p y)) = m_used y) by (rewrite length_take; lia).
  assert (Ht : take (m_used y) (m_p (mpi_copy_of x y)) = take (m_used y) (m_p y)).
  { cbn [mpi_copy_of m_p]. by rewrite take_app_length'. }
  split_and!; [cbn [mpi_copy_of m_p]; rewrite length_app, length_replicate, Hlr; unfold m_limbs; lia | | |].
  - unfold mag. cbn [m_used mpi_copy_of] in *. by rewrite Ht.
  - unfold mpi_clean, mag. cbn [m_used mpi_copy_of m_p] in *. by rewrite Ht, lval_zero_tail.
  - intros Hok. apply (mpi_ok_intro _ _ _ (mag y)); [apply Hok | | | | apply Hok | apply Hok].
    + pose proof (ok_used y Hok). rewrite length_app. lia.
    + apply limbs_ok_app. split; [apply limbs_ok_take, Hok | auto with tfw].
    + unfold mag. cbn [mpi_copy_of m_p] in Ht. by rewrite Ht.
Qed.

Lemma copy_alloc_gen X Y x y st :
  obj st !! X = Some x -> obj st !! Y = Some y -> X <> Y ->
  (1 <= m_used y <= m_limbs y)%nat -> (m_used y <= m_limbs x)%nat ->
  forall need,
  wp (ttls_mpi_copy_alloc X Y need) (fun _ st' => st' = upd X (mpi_copy_of x y) st) st.
Proof.
  intros HX HY Hne Hy Hl need. unfold ttls_mpi_copy_alloc. mstep; mstep.
  rewrite (proj2 (Nat.eqb_neq (m_limbs y) 0)) by lia. mstep.
  eapply (wp_mono _ (fun _ st' => st' = st)).
  { destruct need; [by eapply wp_alloc |]. mstep. mstep. apply wp_bug_on; [by apply Nat.ltb_ge | done]. }
  intros ? ? ->. mstep. eapply wp_memcopy; [done | done | simpl; lia | simpl; lia |].
  simpl. rewrite drop_0. unfold mpi_copy_of. set (r := take (m_used y) (m_p y)).
  assert (Hlr : length r = m_used y) by (subst r; rewrite length_take; unfold m_limbs in *; lia).
  mstep. eapply wp_mpi_get; [by rewrite obj_spl_ne |]. unfold spl.
  mstep. eapply wp_set_s; [apply obj_upd_eq |]. rewrite upd_upd.
  mstep. eapply wp_set_used; [apply obj_upd_eq |]. rewrite upd_upd. unfold bzero_tail.
  mstep. eapply wp_mpi_get; [apply obj_upd_eq |].
  eapply wp_bzero; [apply obj_upd_eq | unfold m_limbs in *; simpl; rewrite length_inserts; lia |].
  unfold spl. rewrite upd_upd. unfold with_p, m_limbs in *. simpl. rewrite length_inserts, <- Hlr.
  by rewrite inserts_zero_tail by lia.
Qed.

Lemma copy_alloc_spec X Y x y st :
  obj st !! X = Some x -> obj st !! Y = Some y -> X <> Y -> mpi_ok y ->
  (m_used y <= m_limbs x)%nat ->
  forall need,
  wp (ttls_mpi_copy_alloc X Y need)
    (fun _ st' => exists m, st' = upd X m st /\ mpi_ok m /\ m_limbs m = m_limbs x /\
       m_s m = m_s y /\ m_used m = m_used y /\ mag m = mag y /\ mpi_clean m) st.
Proof.
  intros HX HY Hne Hoy Hl need. pose proof (ok_used y Hoy).
  eapply wp_mono; [apply (copy_alloc_gen X Y x y); done || lia |]. intros ? ? ->.
  destruct (mpi_copy_of_props x y) as (? & ? & ? & Hok); [lia | done |].
  exists (mpi_copy_of x y). split_and!; auto.
Qed.

Lemma copy_gen X Y x y st :
  obj st !! X = Some x -> obj st !! Y = Some y -> X <> Y ->
  (1 <= m_used y <= m_limbs y)%nat -> (m_used y <= m_limbs x)%nat ->
  wp (ttls_mpi_copy X Y) (fun _ st' => st' = upd X (mpi_copy_of x y) st) st.
Proof.
  intros HX HY Hne Hoy Hl. unfold ttls_mpi_copy. mstep. mstep. { by apply Nat.eqb_neq. }
  do 2 (mstep; mstep). by apply (copy_alloc_gen X Y x y).
Qed.

Lemma copy_spec X Y x y st :
  obj st !! X = Some x -> obj st !! Y = Some y -> X <> Y -> mpi_ok y ->
  (m_used y <= m_limbs x)%nat ->
  wp (ttls_mpi_copy X Y)
    (fun _ st' => exists m, st' = upd X m st /\ mpi_ok m /\ m_limbs m = m_limbs x /\
       m_s m = m_s y /\ m_used m = m_used y /\ mag m = mag y /\ mpi_clean m) st.
Proof.
  intros HX HY Hne Hoy Hl. unfold ttls_mpi_copy. mstep. mstep. { by apply Nat.eqb_neq. }
  do 2 (mstep; mstep). by apply (copy_alloc_spec X Y x y).
Qed.

(** ** Locals *)

Definition dealloc (T : nat) (st : MpiMem) : MpiMem := MkMem (delete T (obj st)) (junk st).
Arguments dealloc : simpl never.

Lemma wp_local m (Q : nat -> MpiMem -> Prop) st :
  (forall T, obj st !! T = None -> Q T (upd T m st)) -> wp (mpi_local m) Q st.
Proof. intros HQ. apply HQ. apply not_elem_of_dom, is_fresh. Qed.

Lemma wp_new n (Q : nat -> MpiMem -> Prop) st :
  (forall T, obj st !! T = None -> Q T (upd T (MkMpi 1 0 (new_limbs n st)) st)) ->
  wp (mpi_new n) Q st.
Proof. intros HQ. apply HQ. apply not_elem_of_dom, is_fresh. Qed.

Lemma wp_free T (Q : unit -> MpiMem -> Prop) st : Q tt (dealloc T st) -> wp (mpi_free T) Q st.
Proof. done. Qed.

Lemma dealloc_upd_ne T X m st : T <> X -> dealloc T (upd X m st) = upd X m (dealloc T st).
Proof. intros Hn. unfold dealloc, upd. simpl. f_equal. by apply delete_insert_ne. Qed.

Lemma dealloc_upd_eq T m st : dealloc T (upd T m st) = dealloc T st.
Proof. unfold dealloc, upd. simpl. f_equal. apply delete_insert_eq. Qed.

Lemma dealloc_none T st : obj st !! T = None -> dealloc T st = st.
Proof. intros H. unfold dealloc. rewrite delete_id by done. by destruct st. Qed.

(** The result of a call that used a local [T], after the local is gone. *)
Lemma mres_local X n v T m st st' :
  obj st !! T = None -> X <> T -> mres X n v (upd T m st) st' -> mres X n v st (dealloc T st').
Proof.
  intros HT Hn (m' & -> & Hm). exists m'. split; [| done].
  by rewrite dealloc_upd_ne, dealloc_upd_eq, dealloc_none.
Qed.

Lemma ok_limb s v : s = 1 \/ s = -1 -> is_u64 v -> (v = 0 -> s = 1) ->
  mpi_ok (MkMpi s 1 [v]) /\ mag (MkMpi s 1 [v]) = v.
Proof.
  intros Hs Hv Hz. destruct (mpi_ok_intro s 1 [v] v) as [Hok _];
    [done | simpl; lia | by apply Forall_singleton | simpl; lia | by left | done |].
  split; [done |]. unfold mag. simpl. lia.
Qed.

Lemma add_int_spec X A x a b st :
  obj st !! X = Some x -> obj st !! A = Some a -> limbs_ok (m_p x) -> mpi_ok a ->
  - 2 ^ 63 <= b < 2 ^ 63 -> (m_used a <= m_limbs x)%nat -> mag a + Z.abs b < bpow (m_limbs x) ->
  wp (ttls_mpi_add_int X A b) (fun _ => mres X (m_limbs x) (mval a + b) st) st.
Proof.
  intros HX HA Hox Hoa Hb Hl Hfit. pose proof (ok_used a Hoa).
  unfold ttls_mpi_add_int. mstep. apply wp_local. intros T HT. cbv beta.
  set (sg := if b <? 0 then -1 else 1). set (w := u64 (if b <? 0 then - b else b)).
  assert (Hw : w = Z.abs b /\ sg * w = b).
  { subst w sg. destruct (Z.ltb_spec b 0); rewrite u64_small; lia. }
  destruct (ok_limb sg w) as [Hok Hmag]; [subst sg; destruct (b <? 0); auto | subst w; apply u64_range
    | subst sg; destruct (Z.ltb_spec b 0); lia |].
  assert (X <> T) by congruence. assert (A <> T) by congruence.
  mstep. eapply wp_mono.
  { apply (add_mpi_spec X x (upd T (MkMpi sg 1 [w]) st)) with (a := a) (b := MkMpi sg 1 [w]);
      [by rewrite obj_upd_ne | done | by rewrite obj_upd_ne | apply obj_upd_eq | done | done | simpl; lia |].
    intros _. rewrite Hmag. split; [done | lia]. }
  intros ? st' Hr%sres_mres. apply wp_free. eapply mres_local; [done | done |].
  destruct Hw as [_ Hw]. unfold mval in Hr at 2. rewrite Hmag in Hr. simpl in Hr. by rewrite Hw in Hr.
Qed.

(** [|A| - b], within a [long] when [A] has one limb. *)
Lemma sub_int_spec X A x a b st :
  obj st !! X = Some x -> obj st !! A = Some a -> limbs_ok (m_p x) -> mpi_ok a ->
  m_s x = 1 -> 0 <= b < 2 ^ 63 -> (m_used a <= m_limbs x)%nat ->
  (m_used a = 1%nat -> mag a - b < 2 ^ 63) ->
  wp (ttls_mpi_sub_int X A b) (fun _ => mres X (m_limbs x) (mag a - b) st) st.
Proof.
  intros HX HA Hox Hoa Hs Hb Hl Hfit. pose proof (ok_used a Hoa).
  unfold ttls_mpi_sub_int. do 2 (mstep; mstep). mstep. mstep.
  { rewrite Hs. simpl. rewrite orb_false_r. apply Z.ltb_ge. lia. }
  destruct (Nat.ltb_spec 1 (m_used a)) as [Hu|Hu].
  - mstep. apply wp_local. intros T HT. cbv beta.
    destruct (ok_limb 1 b) as [Hok Hmag]; [by left | unfold is_u64; lia | done |].
    assert (X <> T) by congruence. assert (A <> T) by congruence.
    pose proof (mag_ge_base a Hoa Hu) as Hbase.
    set (st1 := upd T (MkMpi 1 1 [b]) st).
    assert (HX1 : obj st1 !! X = Some x) by (subst st1; by rewrite obj_upd_ne).
    assert (HA1 : obj st1 !! A = Some a) by (subst st1; by rewrite obj_upd_ne).
    mstep. eapply wp_mono.
    { apply (mpi_sub_x86_64_spec st1 X 0 A 0 T 0 x a (MkMpi 1 1 [b])); try done; try lia;
        [apply obj_upd_eq | apply Hoa | apply Hok |].
      rewrite !drop_0. unfold mag in *. simpl in *. change BASE with (2 ^ 64) in *. lia. }
    intros ? st' (r & -> & Hlr & Hr & Hv). rewrite !drop_0 in Hv. fold (mag a) in Hv.
    simpl in Hv. rewrite Z.mul_0_r, Z.add_0_r in Hv.
    mstep. apply wp_free. unfold spl. subst st1.
    rewrite dealloc_upd_ne, dealloc_upd_eq, dealloc_none by done.
    set (x1 := with_p x (list_inserts 0 r (m_p x))).
    assert (exists a1, obj (upd X x1 st) !! A = Some a1 /\ m_used a1 = m_used a) as (a1 & Ha1 & Eu).
    { destruct (decide (A = X)) as [->|].
      - exists x1. split; [apply obj_upd_eq |]. simpl. congruence.
      - exists a. by rewrite obj_upd_ne. }
    mstep. eapply wp_mpi_get; [done |]. rewrite Eu.
    assert (Hlp : (length r <= length (m_p x))%nat) by (unfold m_limbs in *; lia).
    eapply wp_fixup; [apply obj_upd_eq | unfold m_limbs; simpl; rewrite length_inserts; lia
      | by apply limbs_ok_inserts |].
    simpl. intros u Hu' Hval Hn. rewrite upd_upd.
    rewrite (take_inserts_le (m_used a)), (take_ge r) in Hval, Hn by lia. rewrite Hs.
    destruct (mpi_ok_intro 1 u (list_inserts 0 r (m_p x)) (mag a - b)) as [Hk Hkv];
      [by left | rewrite length_inserts; lia | by apply limbs_ok_inserts | lia | rewrite <- Hv; done | done |].
    eexists. split_and!; [done | done | unfold m_limbs; simpl; apply length_inserts | lia].
  - specialize (Hfit ltac:(lia)). pose proof (mag_bounds a Hoa).
    mstep. eapply wp_rd; [done | apply mag_1; [done | lia] |].
    destruct (Z.leb_spec b (mag a)).
    + rewrite s64_small by lia. eapply wp_mono; [apply (lset_spec X x); [done | done | lia | lia] |].
      intros ? ? (m & -> & Hk & Hlm & Hv & _). by exists m.
    + rewrite s64_small by lia. mstep.
      eapply wp_mono; [apply (lset_spec X x); [done | done | lia | lia] |].
      intros ? ? (m & -> & Hk & Hlm & Hv & _). eapply wp_set_s; [apply obj_upd_eq |]. rewrite upd_upd.
      pose proof (mval_sgn m Hk). pose proof (ok_sign m Hk). pose proof (mag_bounds m Hk).
      assert (Hm : mag m = b - mag a) by (rewrite <- mval_abs by done; lia).
      destruct (mpi_ok_intro (-1) (m_used m) (m_p m) (b - mag a)) as [Hk' Hv'];
        [by right | apply (ok_used m Hk) | apply Hk | done | | lia |].
      { pose proof (ok_norm m Hk) as Hn. by rewrite Hm in Hn. }
      eexists. split_and!; [done | done | done | lia].
Qed.

(** ** Bit lengths *)

#[global] Transparent BASE.
Lemma bpow_pow2 n : bpow n = 2 ^ (64 * Z.of_nat n).
Proof. unfold bpow, BASE. rewrite <- Z.pow_mul_r; lia. Qed.
#[global] Opaque BASE.

Lemma fls64_spec v n : 0 <= n -> 2 ^ n <= v < 2 ^ (n + 1) -> fls64 v = n + 1.
Proof.
  intros Hn Hv. pose proof (pow2_pos n Hn). unfold fls64.
  rewrite (proj2 (Z.eqb_neq v 0)) by lia. f_equal. apply Z.log2_unique; [done |].
  by rewrite <- Z.add_1_r.
Qed.

Lemma fls64_bounds v : 0 < v -> 0 < fls64 v /\ 2 ^ (fls64 v - 1) <= v < 2 ^ fls64 v.
Proof.
  intros Hv. unfold fls64. rewrite (proj2 (Z.eqb_neq v 0)) by lia.
  pose proof (Z.log2_spec v Hv). pose proof (Z.log2_nonneg v).
  replace (Z.log2 v + 1 - 1) with (Z.log2 v) by lia. rewrite Z.add_1_r. lia.
Qed.

Lemma fls64_shift v k : 0 < v -> 0 <= k -> fls64 (v * 2 ^ k) = fls64 v + k.
Proof.
  intros Hv Hk. destruct (fls64_bounds v Hv) as [Hp Hb].
  replace (fls64 v + k) with (fls64 v + k - 1 + 1) by lia. apply fls64_spec; [lia |].
  replace (fls64 v + k - 1) with (fls64 v - 1 + k) by lia.
  replace (fls64 v - 1 + k + 1) with (fls64 v + k) by lia.
  rewrite !Z.pow_add_r by lia. pose proof (pow2_pos k Hk). nia.
Qed.

Lemma top_limb m : mpi_ok m -> exists v, m_p m !! (m_used m - 1)%nat = Some v /\ is_u64 v /\
  mag m = lval (take (m_used m - 1) (m_p m)) + bpow (m_used m - 1) * v /\ (v = 0 <-> mag m = 0).
Proof.
  intros H. pose proof (ok_used m H).
  destruct (lookup_lt_is_Some_2 (m_p m) (m_used m - 1)) as [v Hv]; [unfold m_limbs in *; lia |].
  pose proof (lval_take_S _ _ _ Hv) as Hl. replace (S (m_used m - 1)) with (m_used m) in Hl by lia.
  pose proof (limbs_ok_lookup _ _ _ (ok_limbs m H) Hv) as Hu.
  exists v. split_and!; [done | done | done |]. unfold mag. rewrite Hl. unfold is_u64 in Hu.
  pose proof (bpow_pos (m_used m - 1)).
  pose proof (lval_bounds (take (m_used m - 1) (m_p m))) as Hb.
  rewrite length_take_le in Hb by (unfold m_limbs in *; lia).
  specialize (Hb ltac:(apply limbs_ok_take, H)). split; intros E.
  - subst v. destruct (ok_norm m H) as [E1|Hn]; [| unfold mag in Hn; lia].
    rewrite E1. simpl. lia.
  - nia.
Qed.

(** The number of bits of the magnitude. *)
Lemma bitlen_spec A a st :
  obj st !! A = Some a -> mpi_ok a ->
  wp (ttls_mpi_bitlen A) (fun n st' => st' = st /\ n = fls64 (mag a)) st.
Proof.
  intros HA Hoa. pose proof (ok_used a Hoa). unfold ttls_mpi_bitlen. mstep; mstep.
  rewrite (proj2 (Nat.eqb_neq (m_used a) 0)) by lia.
  destruct (top_limb a Hoa) as (v & Hv & Hu & Hm & Hz).
  mstep. eapply wp_rd; [done | done |].
  destruct (Z.eqb_spec v 0) as [E|Hne]; mstep; (split; [done |]).
  - by rewrite (proj1 Hz E).
  - assert (0 < v) as Hp by (unfold is_u64 in Hu; lia). destruct (fls64_bounds v Hp) as [Hf Hb].
    symmetry. replace ((Z.of_nat (m_used a) - 1) * 64 + fls64 v)
      with ((Z.of_nat (m_used a) - 1) * 64 + fls64 v - 1 + 1) by lia.
    apply fls64_spec; [lia |].
    pose proof (lval_bounds (take (m_used a - 1) (m_p a))) as Hl.
    rewrite length_take_le in Hl by (unfold m_limbs in *; lia).
    specialize (Hl ltac:(apply limbs_ok_take, Hoa)).
    assert (He : forall k, 0 <= k -> 2 ^ ((Z.of_nat (m_used a) - 1) * 64 + k) = bpow (m_used a - 1) * 2 ^ k).
    { intros k Hk. rewrite bpow_pow2, <- Z.pow_add_r by lia. f_equal. lia. }
    replace ((Z.of_nat (m_used a) - 1) * 64 + fls64 v - 1)
      with ((Z.of_nat (m_used a) - 1) * 64 + (fls64 v - 1)) by lia.
    replace ((Z.of_nat (m_used a) - 1) * 64 + (fls64 v - 1) + 1)
      with ((Z.of_nat (m_used a) - 1) * 64 + fls64 v) by lia.
    rewrite !He, Hm by lia. nia.
Qed.

(** ** Left shift *)

Lemma inserts_app (o : nat) (r p : list Z) :
  (o + length r <= length p)%nat -> list_inserts o r p = take o p ++ r ++ drop (o + length r) p.
Proof.
  intros Hl. rewrite <- (take_drop o p) at 1.
  assert (Ht : length (take o p) = o) by (rewrite length_take; lia).
  replace o with (length (take o p) + 0)%nat at 1 by lia. rewrite list_inserts_app_r.
  f_equal. rewrite inserts_0 by (rewrite length_drop; lia). by rewrite drop_drop.
Qed.

(** A prefix holds the whole value when the value fits into it. *)
Lemma lval_take_fits r u : limbs_ok r -> (u <= length r)%nat -> lval r < bpow u -> lval (take u r) = lval r.
Proof.
  intros Hr Hu Hlt.
  assert (lval r = lval (take u r) + bpow u * lval (drop u r)).
  { rewrite <- (take_drop u r) at 1. rewrite lval_app, length_take_le; done. }
  pose proof (lval_nonneg (take u r) ltac:(auto with tfw)).
  pose proof (lval_nonneg (drop u r) ltac:(auto with tfw)). pose proof (bpow_pos u).
  assert (lval (drop u r) < 1) by (apply (Z.mul_lt_mono_pos_l (bpow u)); lia).
  assert (lval (drop u r) = 0) as Hd by lia. rewrite Hd in *. lia.
Qed.

Lemma BITS_TO_LIMBS_spec v : 0 < v ->
  (1 <= BITS_TO_LIMBS (fls64 v))%nat /\ bpow (BITS_TO_LIMBS (fls64 v) - 1) <= v < bpow (BITS_TO_LIMBS (fls64 v)).
Proof.
  intros Hv. destruct (fls64_bounds v Hv) as [Hp Hb]. unfold BITS_TO_LIMBS.
  rewrite Z.shiftr_div_pow2 by lia. change (2 ^ 6) with 64.
  set (q := (fls64 v + 63) / 64). assert (Hq : 64 * q - 63 <= fls64 v <= 64 * q).
  { subst q. pose proof (Z.div_mod (fls64 v + 63) 64 ltac:(lia)).
    pose proof (Z.mod_pos_bound (fls64 v + 63) 64 ltac:(lia)). lia. }
  split; [lia |]. rewrite !bpow_pow2. split.
  - transitivity (2 ^ (fls64 v - 1)); [| lia]. apply Z.pow_le_mono_r; lia.
  - apply (Z.lt_le_trans _ (2 ^ fls64 v)); [lia |]. apply Z.pow_le_mono_r; lia.
Qed.

(** The limbs a shift leaves in [X]: [r] from the bottom, the rest as it was. *)
Definition shl_limbs (p : list Z) (n : nat) (v : Z) (p' : list Z) : Prop :=
  exists r, p' = r ++ drop (length r) p /\ (n <= length r)%nat /\ (length r <= length p)%nat /\
    limbs_ok r /\ lval r = v.

(** From the limbs to the MPI. *)
Lemma shl_finish X x st a count n u p' :
  mpi_ok a -> 0 < mag a -> limbs_ok (m_p x) ->
  u = BITS_TO_LIMBS (fls64 (mag a) + Z.of_nat count) ->
  shl_limbs (m_p x) n (mag a * 2 ^ Z.of_nat count) p' ->
  sres X x st n (mval a * 2 ^ Z.of_nat count) (upd X (MkMpi (m_s a) u p') st).
Proof.
  intros Hoa Hpos Hox Hu (r & -> & Hn & Hl & Hr & Hv).
  set (w := mag a * 2 ^ Z.of_nat count) in *.
  assert (Hw : 0 < w) by (subst w; pose proof (pow2_pos (Z.of_nat count)); nia).
  rewrite <- fls64_shift in Hu by lia. fold w in Hu.
  destruct (BITS_TO_LIMBS_spec w Hw) as [Hu1 Hub]. rewrite <- Hu in Hu1, Hub.
  assert (Hun : (u <= length r)%nat).
  { pose proof (lval_bounds r Hr). assert (bpow (u - 1) < bpow (length r)) as Hb%bpow_lt_inv by lia. lia. }
  assert (Ht : lval (take u (r ++ drop (length r) (m_p x))) = w).
  { rewrite take_app_le by lia. rewrite lval_take_fits; [done | done | lia | lia]. }
  destruct (mpi_ok_intro (m_s a) u (r ++ drop (length r) (m_p x)) w) as [Hok Hval].
  - apply Hoa.
  - rewrite length_app. lia.
  - apply limbs_ok_app. split; [done | auto with tfw].
  - done.
  - right. lia.
  - lia.
  - eexists. split_and!; [done | done | | unfold mval in *; subst w; lia |].
    + unfold m_limbs. simpl. rewrite length_app, length_drop. lia.
    + intros _ Hz. unfold mpi_clean, mag. simpl. rewrite Ht, lval_app, Hv.
      replace (length r) with (n + (length r - n))%nat by lia. rewrite <- drop_drop.
      pose proof (lval_bounds (drop n (m_p x)) ltac:(auto with tfw)) as Hb.
      set (k := (length r - n)%nat). set (d := drop n (m_p x)) in *.
      assert (lval (drop k d) = 0); [| nia].
      pose proof (lval_nonneg (drop k d) ltac:(subst d; auto with tfw)).
      pose proof (lval_nonneg (take k d) ltac:(subst d; auto with tfw)).
      assert (He : lval d = lval (take k d) + bpow (length (take k d)) * lval (drop k d))
        by (rewrite <- lval_app, take_drop; done).
      pose proof (bpow_pos (length (take k d))). nia.
Qed.

Lemma lval_zeros_app n (r : list Z) : lval (replicate n 0 ++ r) = bpow n * lval r.
Proof. rewrite lval_app, lval_replicate, length_replicate. lia. Qed.

Lemma count_split count :
  2 ^ Z.of_nat count = bpow (count / 64) * 2 ^ Z.of_nat (count mod 64)
  /\ 0 <= Z.of_nat (count mod 64) < 64.
Proof.
  pose proof (Nat.mod_upper_bound count 64 ltac:(lia)).
  split; [| lia]. rewrite bpow_pow2, <- Z.pow_add_r by lia. f_equal.
  rewrite (Nat.div_mod_eq count 64) at 1. lia.
Qed.

Section ShiftLeft.
Context (X A : nat) (x a : TlsMpi) (st : MpiMem) (count : nat).
Hypothesis HX : obj st !! X = Some x.
Hypothesis HA : obj st !! A = Some a.
Hypothesis Hox : limbs_ok (m_p x).
Hypothesis Hoa : mpi_ok a.
Hypothesis Hpos : 0 < mag a.
Hypothesis Hc : (0 < count)%nat.
Hypothesis Hl : (m_used a + count / 64 + 1 <= m_limbs x)%nat.

Let limbs := (count / 64)%nat.
Let bits := Z.of_nat (count mod 64).
Let L := take (m_used a) (m_p a).

Lemma length_shl_L : length L = m_used a.
Proof. subst L. pose proof (ok_used a Hoa). rewrite length_take. unfold m_limbs in *. lia. Qed.

(** Zeros below, the limbs [r] above them. *)
Lemma shl_limbs_intro r v :
  (m_used a <= length r <= m_used a + 1)%nat -> limbs_ok r -> bpow limbs * lval r = v ->
  shl_limbs (m_p x) (m_used a + limbs) v
    (replicate limbs 0 ++ r ++ drop (limbs + length r) (m_p x)).
Proof.
  intros Hr Hok Hv. exists (replicate limbs 0 ++ r).
  rewrite length_app, length_replicate. subst limbs. unfold m_limbs in *.
  split_and!; [by rewrite <- app_assoc | lia | lia | | by rewrite lval_zeros_app].
  apply limbs_ok_app. split; [auto with tfw | done].
Qed.

(** Running a kernel on the shifted position. *)
Lemma shl_kernel_spec oa s1 x1 a1 st1 :
  0 < bits -> obj st1 !! X = Some x1 -> obj st1 !! A = Some a1 -> limbs_ok (m_p a1) ->
  x1 = MkMpi s1 (m_used x1) (m_p x1) -> m_limbs x1 = m_limbs x ->
  (A = X -> oa = limbs) -> (oa + m_used a <= m_limbs a1)%nat ->
  take (m_used a) (drop oa (m_p a1)) = L ->
  wp (if (m_used a =? 4)%nat then mpi_shift_l_x86_64_4 (padd (MPI_P X) limbs) (padd (MPI_P A) oa) bits
      else mpi_shift_l_x86_64 (padd (MPI_P X) limbs) (padd (MPI_P A) oa) (m_used a) bits)
    (fun _ st' => exists r, st' = upd X (with_p x1 (take limbs (m_p x1) ++ r ++ drop (limbs + length r) (m_p x1))) st1 /\
       length r = (m_used a + 1)%nat /\ limbs_ok r /\ lval r = 2 ^ bits * mag a) st1.
Proof.
  intros Hb H1 H2 Hok1 Hx1 Hlx Hal Hla HL. destruct (count_split count) as [_ Hcl].
  pose proof (ok_used a Hoa).
  assert (Hpost : forall st', shl_post st1 X limbs oa x1 a1 (m_used a) bits st' ->
    exists r, st' = upd X (with_p x1 (take limbs (m_p x1) ++ r ++ drop (limbs + length r) (m_p x1))) st1 /\
       length r = (m_used a + 1)%nat /\ limbs_ok r /\ lval r = 2 ^ bits * mag a).
  { intros st' (r & -> & Hlr & Hr & Hv). exists r. unfold spl.
    rewrite inserts_app by (unfold m_limbs, limbs in *; lia).
    split_and!; [done | lia | done |]. by rewrite HL in Hv. }
  destruct (Nat.eqb_spec (m_used a) 4) as [E|].
  - eapply wp_mono; [| intros ??; apply Hpost].
    apply (mpi_shift_l_x86_64_4_spec st1 X limbs A oa x1 a1 (m_used a)); try done; try (subst limbs; lia).
  - eapply wp_mono; [| intros ??; apply Hpost].
    apply (mpi_shift_l_x86_64_spec st1 X limbs A oa x1 a1 (m_used a)); try done; try (subst limbs; lia).
Qed.

(** [X = A << count], [A] not zero and [X] a limb longer than the result. *)
Lemma shift_l_spec :
  wp (ttls_mpi_shift_l X A count)
    (fun _ => sres X x st (m_used a + count / 64) (mval a * 2 ^ Z.of_nat count)) st.
Proof.
  pose proof (ok_used a Hoa) as Hua. destruct (count_split count) as [Hpow Hcl].
  unfold ttls_mpi_shift_l. mstep; mstep.
  rewrite (proj2 (Nat.eqb_neq count 0)), (proj2 (Nat.eqb_neq (m_used a) 0)) by lia. cbn [orb]. cbv zeta.
  mstep; mstep. mstep. mstep. { apply Nat.ltb_ge. lia. }
  mstep. eapply wp_set_s; [done |].
  assert (HA1 : obj (upd X (MkMpi (m_s a) (m_used x) (m_p x)) st) !! A = Some a).
  { destruct (decide (X = A)) as [->|]; [| by rewrite obj_upd_ne].
    assert (x = a) as -> by congruence. rewrite obj_upd_eq. by destruct a. }
  mstep. eapply wp_mono; [by apply bitlen_spec |]. intros n ? [-> ->].
  mstep. eapply wp_set_used; [apply obj_upd_eq |]. rewrite upd_upd. cbn [m_s m_p m_used].
  set (u := BITS_TO_LIMBS (fls64 (mag a) + Z.of_nat count)).
  assert (Hfin : forall r p', (m_used a <= length r <= m_used a + 1)%nat -> limbs_ok r ->
    lval r = 2 ^ bits * mag a -> p' = replicate limbs 0 ++ r ++ drop (limbs + length r) (m_p x) ->
    sres X x st (m_used a + count / 64) (mval a * 2 ^ Z.of_nat count) (upd X (MkMpi (m_s a) u p') st)).
  { intros r p' Hlr Hr Hv ->. apply shl_finish; [done.. |].
    apply shl_limbs_intro; [done | done |]. rewrite Hv, Hpow. fold limbs bits. lia. }
  fold limbs. fold bits. clearbody u.
  set (m1 := MkMpi (m_s a) u (m_p x)). set (st1 := upd X m1 st).
  assert (Hx1 : obj st1 !! X = Some m1) by apply obj_upd_eq.
  assert (exists a1, obj st1 !! A = Some a1 /\ m_p a1 = m_p a) as (a1 & Ha1 & Epa).
  { destruct (decide (X = A)) as [->|].
    - exists m1. split; [done |]. simpl. congruence.
    - exists a. subst st1. by rewrite obj_upd_ne. }
  assert (Hlx : (limbs + m_used a + 1 <= length (m_p x))%nat) by (unfold m_limbs, limbs in *; lia).
  assert (Hla : (m_used a <= length (m_p a))%nat) by (unfold m_limbs in *; lia).
  pose proof length_shl_L as HlL. assert (HokL : limbs_ok L) by (apply limbs_ok_take, Hoa).
  assert (Hz : length (replicate limbs 0) = limbs) by apply length_replicate.
  destruct (Nat.ltb_spec 0 limbs) as [Hlim|Hlim].
  - destruct ((X =? A)%nat || (bits =? 0)) eqn:Eb.
    + (* the limbs move up first *)
      mstep. mstep. mstep. eapply wp_memcopy; [done | done | unfold m_limbs; simpl; lia
        | unfold m_limbs; rewrite Epa; simpl; lia |].
      simpl lp_obj. simpl lp_off. rewrite Epa, drop_0. fold L. unfold spl, st1. rewrite upd_upd. simpl m_p.
      rewrite inserts_app, HlL by lia. mstep. mstep.
      eapply wp_bzero; [apply obj_upd_eq | unfold m_limbs; simpl; rewrite !length_app, length_take, length_drop; lia |].
      mstep. unfold spl. rewrite upd_upd. simpl m_p. simpl lp_off.
      rewrite inserts_0 by (rewrite Hz, !length_app, length_take; lia).
      rewrite Hz, drop_app_length' by (rewrite length_take; lia).
      unfold with_p, m1. simpl. set (p2 := replicate limbs 0 ++ L ++ drop (limbs + m_used a) (m_p x)).
      destruct (Z.ltb_spec 0 bits) as [Hb|Hb].
      * destruct (orb_prop _ _ Eb) as [E%Nat.eqb_eq|E%Z.eqb_eq]; [| lia].
        assert (a = x) as Eax by congruence.
        set (x2 := MkMpi (m_s a) u p2). set (st2 := upd X x2 st).
        assert (Hlp2 : length p2 = length (m_p x)).
        { subst p2. rewrite !length_app, Hz, HlL, length_drop. lia. }
        assert (Hok2 : limbs_ok p2).
        { subst p2. rewrite !limbs_ok_app. split_and!; auto with tfw. }
        eapply wp_mono.
        { apply (shl_kernel_spec limbs (m_s a) x2 x2 st2); [done | apply obj_upd_eq
            | rewrite <- E; apply obj_upd_eq | done | done | done | done
            | unfold m_limbs; simpl; lia |].
          simpl. subst p2. rewrite drop_app_length' by done. by rewrite take_app_length' by done. }
        intros ? ? (r & -> & Hlr & Hr & Hv). subst st2 x2. rewrite upd_upd. unfold with_p. simpl.
        apply (Hfin r); [lia | done | done |]. subst p2.
        rewrite take_app_length' by done. do 2 f_equal.
        rewrite <- drop_drop, drop_app_length' by done.
        replace (length r) with (m_used a + 1)%nat by lia. rewrite <- drop_drop.
        rewrite drop_app_length' by done. rewrite drop_drop. f_equal. lia.
      * mstep. apply (Hfin L); [lia | done | | by rewrite HlL].
        assert (bits = 0) as -> by lia. unfold mag. subst L. lia.
    + (* into another array *)
      apply orb_false_iff in Eb as [E%Nat.eqb_neq Eb%Z.eqb_neq].
      mstep. mstep. mstep. mstep. eapply wp_bzero; [done | unfold m_limbs; simpl; lia |].
      mstep. unfold spl. simpl m_p. simpl lp_off. rewrite inserts_0, Hz by lia.
      subst st1. simpl lp_obj. rewrite upd_upd. unfold with_p, m1. simpl.
      rewrite (proj2 (Z.ltb_lt 0 bits)) by lia.
      set (x2 := MkMpi (m_s a) u (replicate limbs 0 ++ drop limbs (m_p x))).
      eapply wp_mono.
      { apply (shl_kernel_spec 0 (m_s a) x2 a (upd X x2 st)); [lia | apply obj_upd_eq
          | by rewrite obj_upd_ne | apply Hoa | done | | congruence | unfold m_limbs; lia | by rewrite drop_0].
        unfold m_limbs. simpl. rewrite length_app, Hz, length_drop. lia. }
      intros ? ? (r & -> & Hlr & Hr & Hv). rewrite upd_upd. unfold with_p. simpl.
      apply (Hfin r); [lia | done | done |]. rewrite take_app_length' by done. do 2 f_equal.
      by rewrite <- drop_drop, drop_app_length', drop_drop by done.
  - (* less than a limb *)
    assert (El : limbs = 0%nat) by lia. mstep. mstep.
    assert (0 < bits).
    { subst limbs bits. pose proof (Nat.div_mod_eq count 64). lia. }
    rewrite (proj2 (Z.ltb_lt 0 bits)) by lia.
    eapply wp_mono.
    { apply (shl_kernel_spec 0 (m_s a) m1 a1 st1); [done | done | done | rewrite Epa; apply Hoa
        | done | done | done | unfold m_limbs; rewrite Epa; lia | by rewrite Epa, drop_0]. }
    intros ? ? (r & -> & Hlr & Hr & Hv). subst st1. rewrite upd_upd. unfold with_p. simpl.
    apply (Hfin r); [lia | done | done |]. rewrite El. done.
Qed.
End ShiftLeft.

(** ** Right shift *)

(** The limbs in use, zeros above them. *)
Definition zero_above (m : TlsMpi) : TlsMpi :=
  with_p m (take (m_used m) (m_p m) ++ replicate (m_limbs m - m_used m) 0).

Lemma zero_above_props m : (m_used m <= m_limbs m)%nat -> limbs_ok (m_p m) ->
  m_limbs (zero_above m) = m_limbs m /\ mag (zero_above m) = mag m /\ mpi_clean (zero_above m) /\
  limbs_ok (m_p (zero_above m)).
Proof.
  intros Hu Hok. unfold m_limbs in *.
  assert (Hl : length (take (m_used m) (m_p m)) = m_used m) by (rewrite length_take; lia).
  assert (Hm : mag (zero_above m) = mag m).
  { unfold mag, zero_above. simpl. by rewrite take_app_length'. }
  split_and!; [| done | |].
  - simpl. rewrite length_app, length_replicate, Hl. unfold m_limbs. lia.
  - unfold mpi_clean. rewrite Hm. simpl. apply lval_zero_tail.
  - simpl. apply limbs_ok_app. split; auto with tfw.
Qed.

Lemma zero_sign_spec X m (Q : unit -> MpiMem -> Prop) st :
  obj st !! X = Some m -> (m_used m <= m_limbs m)%nat -> (mag m = 0 -> m_used m = 0%nat) ->
  Q tt (upd X (zero_above m) st) -> wp (zero_sign X) Q st.
Proof.
  intros Hm Hu Hz HQ. unfold zero_sign. mstep; mstep. mstep.
  eapply (wp_mono _ (fun _ st' => st' = st)).
  - destruct (Nat.eqb_spec (m_used m) 1) as [E|]; [| by mstep].
    destruct (lookup_lt_is_Some_2 (m_p m) 0) as [v Hv]; [unfold m_limbs in *; lia |].
    mstep. eapply wp_rd; [done | done |]. destruct (Z.eqb_spec v 0) as [->|]; [| by mstep].
    exfalso. assert (m_used m = 0%nat); [| lia]. apply Hz. unfold mag. rewrite E.
    rewrite (lval_take_S _ _ _ Hv). simpl. rewrite bpow_0. lia.
  - intros ? ? ->. unfold bzero_tail. mstep; mstep.
    eapply wp_bzero; [done | simpl; lia |]. unfold spl. simpl.
    rewrite inserts_app by (rewrite length_replicate; unfold m_limbs in *; lia).
    rewrite length_replicate.
    rewrite (drop_ge (m_p m)) by (unfold m_limbs in *; lia). by rewrite app_nil_r.
Qed.

(** What a right shift leaves; a zero made by the last bits has no limb in use. *)
Definition shr_res (X : nat) (x : TlsMpi) (v : Z) (st st' : MpiMem) : Prop :=
  exists m, st' = upd X m st /\ m_limbs m = m_limbs x /\ mag m = v /\ mpi_clean m /\
    limbs_ok (m_p m) /\ (0 < v -> mpi_ok m /\ m_s m = m_s x) /\
    (v = 0 -> m_used m = 0%nat \/ (m_used m = 1%nat /\ m_s m = 1)).

Lemma shr_res_upd X x x1 v st st' :
  m_s x1 = m_s x -> m_limbs x1 = m_limbs x -> shr_res X x1 v (upd X x1 st) st' -> shr_res X x v st st'.
Proof.
  intros Es El (m & -> & Hl & Hr). exists m. rewrite upd_upd, <- El, <- Es. done.
Qed.

(** The end of the function: the top limb may have become zero. *)
Lemma shr_tail_spec X m st :
  obj st !! X = Some m -> limbs_ok (m_p m) -> m_s m = 1 \/ m_s m = -1 ->
  (1 <= m_used m <= m_limbs m)%nat ->
  m_used m = 1%nat \/ bpow (m_used m - 2) <= mag m ->
  wp (drop_zero_limb X;;; zero_sign X) (fun _ => shr_res X m (mag m) st) st.
Proof.
  intros Hm Hok Hs Hu Hn. unfold drop_zero_limb. mstep. mstep; mstep.
  destruct (lookup_lt_is_Some_2 (m_p m) (m_used m - 1)) as [v Hv]; [unfold m_limbs in *; lia |].
  pose proof (lval_take_S _ _ _ Hv) as Hl. replace (S (m_used m - 1)) with (m_used m) in Hl by lia.
  fold (mag m) in Hl. pose proof (limbs_ok_lookup _ _ _ Hok Hv) as Hv64. unfold is_u64 in Hv64.
  pose proof (lval_nonneg (take (m_used m - 1) (m_p m)) ltac:(auto with tfw)).
  pose proof (bpow_pos (m_used m - 1)).
  mstep. eapply wp_rd; [done | done |]. eapply wp_set_used; [done |].
  set (u := if v =? 0 then (m_used m - 1)%nat else m_used m). set (m1 := MkMpi (m_s m) u (m_p m)).
  assert (Hmag : mag m1 = mag m).
  { subst m1 u. destruct (Z.eqb_spec v 0); [| done]. unfold mag at 1. simpl. rewrite Hl. subst v. lia. }
  assert (Hul : (u <= m_limbs m)%nat) by (subst u; destruct (v =? 0); lia).
  assert (Hz : mag m = 0 -> u = 0%nat).
  { intros E. destruct Hn as [E1|Hn]; [| pose proof (bpow_pos (m_used m - 2)); lia].
    subst u. rewrite E1 in *. destruct (Z.eqb_spec v 0); [done | nia]. }
  eapply (zero_sign_spec _ m1); [apply obj_upd_eq | done | rewrite Hmag; done |]. rewrite upd_upd.
  destruct (zero_above_props m1 Hul Hok) as (Hl1 & Hm1 & Hc1 & Hk1).
  exists (zero_above m1). split_and!; [done | done | lia | done | done | | auto].
  intros Hp. split; [| done]. constructor; [done | | done | | lia].
  - rewrite Hl1. change (1 <= u <= m_limbs m)%nat. split; [| done].
    subst u. destruct (Z.eqb_spec v 0) as [->|]; [| lia].
    destruct (Nat.eq_dec (m_used m) 1) as [E1|]; [| lia]. rewrite E1 in Hl. simpl in Hl. lia.
  - rewrite Hm1, Hmag. change (u = 1%nat \/ bpow (u - 1) <= mag m). subst u.
    destruct (Z.eqb_spec v 0) as [->|]; [| right; nia].
    destruct Hn as [E1|Hn]; [rewrite E1 in Hl; simpl in Hl; lia |].
    replace (m_used m - 1 - 1)%nat with (m_used m - 2)%nat by lia. by right.
Qed.

#[global] Transparent BASE.
Lemma pow2_le_base b : 0 <= b < 64 -> 2 ^ b <= BASE.
Proof. intros. unfold BASE. apply Z.pow_le_mono_r; lia. Qed.
#[global] Opaque BASE.

(** A kernel on the limbs in use, then the end of the function. *)
Lemma shr_kernel_tail X m bits st :
  obj st !! X = Some m -> mpi_ok m -> 0 < mag m -> 0 <= bits < 64 ->
  wp ((if (m_used m =? 4)%nat then mpi_shift_r_x86_64_4 (MPI_P X) bits
       else mpi_shift_r_x86_64 (MPI_P X) (m_used m) bits);;;
      drop_zero_limb X;;; zero_sign X) (fun _ => shr_res X m (mag m / 2 ^ bits) st) st.
Proof.
  intros Hm Hk Hp Hb. pose proof (ok_used m Hk). mstep.
  assert (Hpost : wp (if (m_used m =? 4)%nat then mpi_shift_r_x86_64_4 (MPI_P X) bits
       else mpi_shift_r_x86_64 (MPI_P X) (m_used m) bits)
       (fun _ => shr_post st X 0 m (m_used m) bits) st).
  { destruct (Nat.eqb_spec (m_used m) 4).
    - apply mpi_shift_r_x86_64_4_spec; try done; try apply Hk; lia.
    - apply mpi_shift_r_x86_64_spec; try done; try apply Hk; lia. }
  eapply wp_mono; [exact Hpost |]. intros ? ? (r & -> & Hlr & Hr & Hv). rewrite drop_0 in Hv.
  fold (mag m) in Hv. unfold spl. set (m1 := with_p m (list_inserts 0 r (m_p m))).
  assert (Hlp : (length r <= length (m_p m))%nat) by (unfold m_limbs in *; lia).
  assert (Hmag : mag m1 = mag m / 2 ^ bits).
  { unfold mag at 1. simpl. rewrite <- Hlr, take_inserts_0; done. }
  assert (Hlm : m_limbs m1 = m_limbs m) by apply length_inserts.
  eapply wp_mono; [apply (shr_tail_spec X m1) |].
  - apply obj_upd_eq.
  - apply limbs_ok_inserts; [done | apply Hk].
  - apply Hk.
  - rewrite Hlm. done.
  - rewrite Hmag. change (m_used m1) with (m_used m).
    destruct (Nat.eq_dec (m_used m) 1) as [|H1]; [by left | right].
    destruct (ok_norm m Hk) as [|Hn]; [done |].
    replace (m_used m - 1)%nat with (S (m_used m - 2)) in Hn by lia. rewrite bpow_S in Hn.
    apply Z.div_le_lower_bound; [lia |]. pose proof (pow2_le_base bits Hb).
    pose proof (bpow_pos (m_used m - 2)). nia.
  - intros ? ? Hr'. rewrite Hmag in Hr'. by eapply shr_res_upd in Hr'.
Qed.

Lemma wp_seq2_inv {S A B C} (m : SM S A) (k : SM S B) (l : SM S C) Q s :
  wp (m ;;; k ;;; l) Q s -> wp (m ;;; k) (fun _ => wp l Q) s.
Proof.
  unfold wp, sm_bind. destruct (m s) as [[a s']|]; [| done]. by destruct (k s') as [[b s'']|].
Qed.

Lemma inserts_all_zero p : list_inserts 0 (replicate (length p) 0) p = replicate (length p) 0.
Proof.
  rewrite inserts_0 by (by rewrite length_replicate). rewrite length_replicate, drop_ge by done.
  apply app_nil_r.
Qed.

(** Whole limbs go first. *)
Lemma shr_limbs_move X x limbs st :
  obj st !! X = Some x -> mpi_ok x -> (limbs < m_used x)%nat -> 0 < mag x ->
  exists m, mpi_ok m /\ m_s m = m_s x /\ m_limbs m = m_limbs x /\ mag m = mag x / bpow limbs /\
    0 < mag m /\
    wp (if (0 <? limbs)%nat then
          set_used X (m_used x - limbs);;;
          memcopy (MPI_P X) (padd (MPI_P X) limbs) (m_used x - limbs)
        else sm_ret tt) (fun _ st' => st' = upd X m st) st.
Proof.
  intros HX Hk Hl Hp. pose proof (ok_used x Hk). destruct (Nat.ltb_spec 0 limbs) as [H0|H0].
  - set (r := take (m_used x - limbs) (drop limbs (m_p x))).
    assert (Hlr : length r = (m_used x - limbs)%nat).
    { subst r. rewrite length_take, length_drop. unfold m_limbs in *. lia. }
    assert (Hlp : (length r <= length (m_p x))%nat) by (unfold m_limbs in *; lia).
    assert (Hr : lval r = mag x / bpow limbs).
    { assert (Hsum : mag x = lval (take limbs (m_p x)) + bpow limbs * lval r).
      { unfold mag. replace (m_used x) with (limbs + (m_used x - limbs))%nat by lia.
        rewrite <- take_take_drop, lval_app, length_take_le by (unfold m_limbs in *; lia). done. }
      apply (Z.div_unique_pos _ _ _ (lval (take limbs (m_p x)))); [| lia].
      pose proof (lval_bounds (take limbs (m_p x))) as Hb.
      rewrite length_take_le in Hb by (unfold m_limbs in *; lia).
      apply Hb, limbs_ok_take, Hk. }
    destruct (ok_norm x Hk) as [|Hn]; [lia |].
    assert (Hge : bpow (m_used x - limbs - 1) <= lval r).
    { rewrite Hr. apply Z.div_le_lower_bound; [apply bpow_pos |]. rewrite <- bpow_add.
      replace (limbs + (m_used x - limbs - 1))%nat with (m_used x - 1)%nat by lia. done. }
    pose proof (bpow_pos (m_used x - limbs - 1)).
    destruct (mpi_ok_intro (m_s x) (m_used x - limbs) (list_inserts 0 r (m_p x)) (lval r)) as [Hok _].
    + apply Hk.
    + rewrite length_inserts. lia.
    + apply limbs_ok_inserts; [apply limbs_ok_take, limbs_ok_drop, Hk | apply Hk].
    + by rewrite <- Hlr, take_inserts_0.
    + by right.
    + lia.
    + assert (Hmag : mag (MkMpi (m_s x) (m_used x - limbs) (list_inserts 0 r (m_p x))) = lval r).
      { unfold mag. simpl. by rewrite <- Hlr, take_inserts_0. }
      eexists. split_and!; [exact Hok | done | apply length_inserts | lia | lia |].
      mstep. eapply wp_set_used; [done |].
      eapply wp_memcopy; [apply obj_upd_eq | apply obj_upd_eq | unfold m_limbs in *; simpl; lia
        | unfold m_limbs in *; simpl; lia |].
      unfold spl. by rewrite upd_upd.
  - assert (limbs = 0%nat) as -> by lia. exists x. rewrite bpow_0, Z.div_1_r.
    split_and!; [done.. |]. mstep. by rewrite upd_same.
Qed.

Lemma shift_r_zero X x count st :
  obj st !! X = Some x -> mpi_ok x -> mag x = 0 ->
  wp (ttls_mpi_shift_r X count) (fun _ st' => st' = st) st.
Proof.
  intros HX Hk Hz. pose proof (ok_used x Hk). unfold ttls_mpi_shift_r. mstep; mstep.
  destruct (Nat.eqb_spec count 0); [by mstep |].
  destruct (top_limb x Hk) as (v & Hv & _ & _ & Hv0). rewrite (proj2 Hv0 Hz) in Hv.
  rewrite (proj2 (Nat.eqb_neq (m_used x) 4)).
  - rewrite andb_false_r, (proj2 (Nat.eqb_neq (m_used x) 0)) by lia.
    mstep. eapply wp_rd; [done | done |]. simpl. by mstep.
  - intros E. destruct (ok_norm x Hk) as [|Hn]; [lia |]. pose proof (bpow_pos (m_used x - 1)). lia.
Qed.

(** [X >>= count] *)
Lemma shift_r_spec X x count st :
  obj st !! X = Some x -> mpi_ok x -> 0 < mag x -> (0 < count)%nat ->
  wp (ttls_mpi_shift_r X count) (fun _ => shr_res X x (mag x / 2 ^ Z.of_nat count) st) st.
Proof.
  intros HX Hk Hp Hc. pose proof (ok_used x Hk). destruct (count_split count) as [Hpow Hb].
  unfold ttls_mpi_shift_r. mstep; mstep. rewrite (proj2 (Nat.eqb_neq count 0)) by lia.
  destruct ((count <? 64)%nat && (m_used x =? 4)%nat) eqn:E.
  { apply andb_true_iff in E as [E1%Nat.ltb_lt E4].
    pose proof (shr_kernel_tail X x (Z.of_nat count) st HX Hk Hp ltac:(lia)) as Ht.
    by rewrite E4 in Ht. }
  clear E. rewrite (proj2 (Nat.eqb_neq (m_used x) 0)) by lia.
  destruct (top_limb x Hk) as (v & Hv & _ & _ & Hv0).
  mstep. eapply wp_rd; [done | done |].
  rewrite (proj2 (Z.eqb_neq v 0)) by (intros E%Hv0; lia). cbv zeta.
  set (limbs := (count / 64)%nat) in *. set (bits := Z.of_nat (count mod 64)) in *.
  destruct ((0 <? limbs)%nat && (m_used x <=? limbs)%nat) eqn:E.
  - apply andb_true_iff in E as [E1%Nat.ltb_lt E2%Nat.leb_le].
    mstep. eapply wp_bzero; [done | done |]. mstep. eapply wp_set_used; [apply obj_spl_eq |].
    unfold spl. rewrite upd_upd. eapply wp_set_s; [apply obj_upd_eq |]. rewrite upd_upd.
    unfold with_p, m_limbs. cbn [m_p m_used m_s lp_off MPI_P]. rewrite inserts_all_zero.
    assert (mag x / 2 ^ Z.of_nat count = 0) as ->.
    { apply Z.div_small. pose proof (mag_bounds x Hk). pose proof (bpow_le _ _ E2).
      rewrite Hpow. pose proof (pow2_pos bits ltac:(lia)). pose proof (bpow_pos limbs). nia. }
    eexists. split; [done |]. unfold m_limbs, mpi_clean, mag. cbn [m_p m_used m_s].
    rewrite take_replicate, !lval_replicate, length_replicate. split_and!; [done.. | | lia |].
    + apply limbs_ok_replicate.
    + auto.
  - assert (Hlt : (limbs < m_used x)%nat).
    { apply andb_false_iff in E as [E%Nat.ltb_ge|E%Nat.leb_gt]; lia. }
    destruct (shr_limbs_move X x limbs st HX Hk Hlt Hp) as (m & Hkm & Esm & Elm & Hmm & Hpm & Hwp).
    mstep. eapply wp_mono; [exact Hwp |]. intros ? ? ->.
    assert (Hdiv : mag m / 2 ^ bits = mag x / 2 ^ Z.of_nat count).
    { rewrite Hmm, Hpow, Z.div_div; [done | pose proof (bpow_pos limbs); lia | apply Z.pow_pos_nonneg; lia]. }
    destruct (Z.ltb_spec 0 bits).
    + pose proof (shr_kernel_tail X m bits (upd X m st) (obj_upd_eq _ _ _) Hkm Hpm Hb) as Ht.
      mstep. mstep. eapply wp_mpi_get; [apply obj_upd_eq |]. apply wp_seq2_inv.
      eapply wp_mono; [exact Ht |]. intros ? ? Hr. rewrite Hdiv in Hr. by eapply shr_res_upd.
    + mstep. mstep. eapply (zero_sign_spec _ m); [apply obj_upd_eq | apply (ok_used m Hkm) | lia |].
      rewrite upd_upd. assert (bits = 0) as E0 by lia. rewrite E0, Z.div_1_r in Hdiv. rewrite <- Hdiv.
      destruct (zero_above_props m) as (Hl1 & Hm1 & Hc1 & Hk1); [apply (ok_used m Hkm) | apply Hkm |].
      exists (zero_above m). split_and!; [done | lia | done | done | done | | lia].
      intros _. split; [| done]. constructor; [apply Hkm | rewrite Hl1; apply (ok_used m Hkm) | done
        | rewrite Hm1; apply (ok_norm m Hkm) | rewrite Hm1; apply (ok_zero m Hkm)].
Qed.

(** ** Multiplication *)

#[global] Transparent BASE.
Lemma muladd_num vs b c vd :
  is_u64 vs -> is_u64 b -> is_u64 c -> is_u64 vd ->
  exists t c', (let '(rax, rdx) := (u64 (vs * b), vs * b / BASE) in
                let '(rax, cf) := adc rax c false in
                let '(rdx, _) := adc rdx 0 cf in
                let '(vd, cf) := adc vd rax false in
                let '(rcx, _) := adc 0 rdx cf in (vd, rcx)) = (t, c') /\
    is_u64 t /\ is_u64 c' /\ t + BASE * c' = vd + vs * b + c.
Proof.
  intros Hs Hb Hc Hd. cbv beta iota zeta.
  pose proof (u64_div (vs * b)) as Hm. pose proof (u64_range (vs * b)) as Hr.
  set (lo := u64 (vs * b)) in *. set (hi := vs * b / BASE) in *.
  destruct (adc lo c false) as [rax cf] eqn:E1. apply adc_spec in E1 as [H1 E1]; [| done | done].
  assert (Hp : vs * b <= (2 ^ 64 - 1) * (2 ^ 64 - 1)) by (unfold is_u64 in *; nia).
  assert (Hp0 : 0 <= vs * b) by (unfold is_u64 in *; nia).
  assert (Hhi : is_u64 hi).
  { subst hi. unfold is_u64, BASE. split; [apply Z.div_pos; lia |]. apply Z.div_lt_upper_bound; lia. }
  destruct (adc hi 0 cf) as [rdx cf2] eqn:E2. apply adc_spec in E2 as [H2 E2]; [| done | by unfold is_u64].
  destruct (adc vd rax false) as [t cf3] eqn:E3. apply adc_spec in E3 as [H3 E3]; [| done | done].
  destruct (adc 0 rdx cf3) as [rcx cf4] eqn:E4. apply adc_spec in E4 as [H4 E4]; [| by unfold is_u64 | done].
  exists t, rcx. split_and!; [done | done | done |]. unfold is_u64, BASE in *. simpl Z.b2z in *.
  destruct cf, cf2, cf3, cf4; simpl Z.b2z in *; lia.
Qed.
#[global] Opaque BASE.

Section MpiMul.
Context (st : MpiMem) (S D os od : nat) (ms md : TlsMpi) (n : nat) (b : Z).
Hypothesis HS : obj st !! S = Some ms.
Hypothesis HD : obj st !! D = Some md.
Hypothesis Hne : S <> D.
Hypothesis Hoks : limbs_ok (m_p ms).
Hypothesis Hokd : limbs_ok (m_p md).
Hypothesis Hb : is_u64 b.
Hypothesis Hls : (os + n <= m_limbs ms)%nat.
Hypothesis Hld : (od + n < m_limbs md)%nat.

Let s := MkPtr S os.
Let d := MkPtr D od.
Let LS := drop os (m_p ms).
Let LD := drop od (m_p md).
Let P := lval (take n LS) * b.

Hypothesis Hfit : lval LD + P < bpow (length LD).

Definition mul_inv (j : nat) (c : Z) (st' : MpiMem) : Prop :=
  exists r, st' = spl D md od r st /\ length r = j /\ limbs_ok r /\ is_u64 c /\
    lval r + bpow j * c = lval (take j LD) + lval (take (j `min` n) LS) * b.

Lemma limb_d j : (j < length LD)%nat -> exists v, m_p md !! (od + j)%nat = Some v /\ is_u64 v /\
  lval (take (Datatypes.S j) LD) = lval (take j LD) + bpow j * v.
Proof.
  intros Hj. destruct (lookup_lt_is_Some_2 LD j Hj) as [v Hv].
  pose proof (lval_take_S _ _ _ Hv). subst LD. rewrite lookup_drop in Hv.
  exists v. split_and!; [done | exact (limbs_ok_lookup _ _ _ Hokd Hv) | done].
Qed.

Lemma limb_s j : (j < n)%nat -> exists v, m_p ms !! (os + j)%nat = Some v /\ is_u64 v /\
  lval (take (Datatypes.S j) LS) = lval (take j LS) + bpow j * v.
Proof.
  intros Hj. destruct (lookup_lt_is_Some_2 (m_p ms) (os + j)) as [v Hv]; [unfold m_limbs in *; lia |].
  exists v. split_and!; [done | exact (limbs_ok_lookup _ _ _ Hoks Hv) |].
  apply lval_take_S. subst LS. by rewrite lookup_drop.
Qed.

Lemma length_LD : length LD = (m_limbs md - od)%nat.
Proof. subst LD. apply length_drop. Qed.

Lemma muladdc_inv j c st' : (j < n)%nat -> mul_inv j c st' ->
  wp (muladdc s d b j c) (mul_inv (Datatypes.S j)) st'.
Proof.
  intros Hj (r & -> & Hl & Hr & Hc & Hv). pose proof length_LD as HlD.
  destruct (limb_s j Hj) as (vs & Hvs & Hus & Es).
  destruct (limb_d j ltac:(lia)) as (vd & Hvd & Hud & Ed).
  destruct (muladd_num vs b c vd Hus Hb Hc Hud) as (t & c' & En & Ht & Hc' & Hn).
  unfold muladdc. mstep. eapply wp_rd_spl; [done | done | congruence | done |].
  revert En. cbv beta iota zeta. destruct (adc (u64 (vs * b)) c false) as [rax cf].
  destruct (adc (vs * b / BASE) 0 cf) as [rdx cf2].
  destruct (adc vd rax false) as [vd' cf3] eqn:E3. destruct (adc 0 rdx cf3) as [rcx cf4] eqn:E4.
  intros [= -> ->]. mstep. eapply wp_rd_spl; [done | done | lia | done |]. rewrite E3, E4.
  mstep. apply wp_wr_spl; [done | lia |]. mstep. exists (r ++ [t]).
  split_and!; [done | rewrite length_app; simpl; lia | auto with tfw | done |].
  rewrite lval_snoc, Hl. rewrite Nat.min_l in Hv |- * by lia. rewrite Ed, Es, bpow_S. nia.
Qed.

(** The carry runs on until a limb takes it. *)
Lemma mul_carry_spec fuel i c r :
  length r = i -> limbs_ok r -> is_u64 c -> (n <= i)%nat -> (i < length LD)%nat ->
  lval r + bpow i * c = lval (take i LD) + P -> (length LD - i <= fuel)%nat ->
  wp (mul_carry fuel d i c)
    (fun _ st' => exists r, st' = spl D md od r st /\ (length r <= length LD)%nat /\ limbs_ok r /\
       lval r = lval (take (length r) LD) + P) (spl D md od r st).
Proof.
  revert i c r. induction fuel as [|fuel IH]; intros i c r Hl Hr Hc Hn Hi Hv Hf; [lia |].
  pose proof length_LD as HlD. cbn [mul_carry]. destruct (limb_d i Hi) as (v & Hlv & Hu & Ed).
  mstep. eapply wp_rd_spl; [done | done | lia | done |]. mstep. apply wp_wr_spl; [done | lia |].
  pose proof (u64_range (v + c)) as Hr64. apply u64_lt in Hr64 as Hr64', Hu as Hu', Hc as Hc'.
  assert (Hsum : u64 (v + c) + BASE * Z.b2z (u64 (v + c) <? c) = v + c).
  { destruct (Z.leb_spec BASE (v + c)).
    - rewrite (u64_shift (v + c) 1) in * by lia. rewrite (proj2 (Z.ltb_lt _ _)) by lia. simpl Z.b2z. lia.
    - rewrite (u64_shift (v + c) 0) in * by lia. rewrite (proj2 (Z.ltb_ge _ _)) by lia. simpl Z.b2z. lia. }
  assert (Hv' : lval (r ++ [u64 (v + c)]) + bpow (Datatypes.S i) * Z.b2z (u64 (v + c) <? c)
    = lval (take (Datatypes.S i) LD) + P) by (rewrite lval_snoc, Hl, Ed, bpow_S; nia).
  assert (Hl' : length (r ++ [u64 (v + c)]) = Datatypes.S i) by (rewrite length_app; simpl; lia).
  assert (Hr' : limbs_ok (r ++ [u64 (v + c)])) by auto with tfw.
  destruct (u64 (v + c) <? c) eqn:Ec; simpl Z.b2z in Hv'.
  - apply IH; [done | done | by unfold is_u64 | lia | | done | lia].
    destruct (Nat.eq_dec (Datatypes.S i) (length LD)) as [E|]; [exfalso | lia].
    rewrite E, take_ge in Hv' by lia. pose proof (lval_nonneg _ Hr'). lia.
  - mstep. exists (r ++ [u64 (v + c)]). rewrite Hl'. split_and!; [done | lia | done | lia].
Qed.

(** [d += s * b] *)
Lemma __mpi_mul_spec :
  wp (__mpi_mul n s d b)
    (fun _ st' => exists p, st' = upd D (with_p md p) st /\ length p = m_limbs md /\ limbs_ok p /\
       take od p = take od (m_p md) /\ lval (drop od p) = lval LD + P) st.
Proof.
  unfold __mpi_mul. pose proof length_LD as HlD. mstep.
  eapply wp_mono; [apply (wp_for_up _ mul_inv) |].
  - exists []. rewrite spl_nil by done. split_and!; [done | done | by constructor | by unfold is_u64 |].
    simpl. lia.
  - intros. by apply muladdc_inv; [lia |].
  - intros c st' (r & -> & Hl & Hr & Hc & Hv). rewrite Nat.add_0_l in *.
    rewrite Nat.min_id in Hv. mstep. eapply wp_mpi_get; [apply obj_spl_eq |].
    eapply wp_mono; [apply (mul_carry_spec _ n c r); try done; try lia |].
    + unfold m_limbs in *. simpl. rewrite length_inserts. lia.
    + intros ? ? (r' & -> & Hl' & Hr' & Hv'). unfold spl.
      assert (Hle : (od + length r' <= length (m_p md))%nat) by (unfold m_limbs in *; lia).
      rewrite inserts_app by done. eexists. split; [done |].
      assert (Ht : length (take od (m_p md)) = od) by (rewrite length_take; lia).
      split_and!.
      * rewrite !length_app, Ht, length_drop. unfold m_limbs. lia.
      * rewrite !limbs_ok_app. split_and!; auto with tfw.
      * by rewrite take_app_length'.
      * rewrite drop_app_length' by done. rewrite lval_app, Hv'.
        rewrite <- (take_drop (length r') LD) at 2. rewrite lval_app, length_take_le by done.
        subst LD. rewrite drop_drop. lia.
Qed.
End MpiMul.

Section MulMain.
Context (X A B : nat) (x a b : TlsMpi) (st : MpiMem).
Hypothesis HX : obj st !! X = Some x.
Hypothesis HA : obj st !! A = Some a.
Hypothesis HB : obj st !! B = Some b.
Hypothesis HXA : X <> A.
Hypothesis HXB : X <> B.
Hypothesis Hoa : mpi_ok a.
Hypothesis Hob : mpi_ok b.
Hypothesis Hl : (m_used a + m_used b <= m_limbs x)%nat.

(** Rows [j], ..., [m_used b - 1] are in the array. *)
Definition rows_inv (j : nat) (p : list Z) : Prop :=
  length p = m_limbs x /\ limbs_ok p /\
  lval p = mag a * (bpow j * lval (drop j (take (m_used b) (m_p b)))).

Lemma rows_le j : (j <= m_used b)%nat ->
  mag a * (bpow j * lval (drop j (take (m_used b) (m_p b)))) < bpow (m_limbs x).
Proof.
  intros Hj. pose proof (mag_bounds a Hoa). pose proof (mag_bounds b Hob). pose proof (ok_used b Hob).
  assert (bpow j * lval (drop j (take (m_used b) (m_p b))) <= mag b).
  { unfold mag. rewrite <- (take_drop j (take (m_used b) (m_p b))) at 2.
    rewrite lval_app, length_take_le by (rewrite length_take; unfold m_limbs in *; lia).
    pose proof (lval_nonneg (take j (take (m_used b) (m_p b)))) as Hn.
    specialize (Hn ltac:(apply limbs_ok_take, limbs_ok_take, Hob)). lia. }
  pose proof (bpow_le _ _ Hl) as Hb. rewrite bpow_add in Hb. nia.
Qed.

Lemma mul_rows_spec u s0 p j :
  (j <= m_used b)%nat -> rows_inv j p ->
  wp (mul_rows (m_used a) (MPI_P A) (MPI_P X) (MPI_P B) j)
    (fun _ st' => exists p', st' = upd X (MkMpi s0 u p') st /\ rows_inv 0 p')
    (upd X (MkMpi s0 u p) st).
Proof.
  revert p. induction j as [|k IH]; intros p Hj Hi; cbn [mul_rows]; [mstep; by exists p |].
  pose proof (ok_used b Hob). pose proof (ok_used a Hoa). destruct Hi as (Hlen & Hp & Hv).
  destruct (lookup_lt_is_Some_2 (m_p b) k) as [v Hlv]; [unfold m_limbs in *; lia |].
  assert (HkB : take (m_used b) (m_p b) !! k = Some v) by (by rewrite lookup_take_lt).
  pose proof (lval_drop_S _ _ _ HkB) as Hd.
  pose proof (limbs_ok_lookup _ _ _ (ok_limbs b Hob) Hlv) as Hu. apply u64_lt in Hu as Hu'.
  mstep. eapply wp_rd; [rewrite obj_upd_ne; done | done |].
  assert (Hsplit : lval p = lval (take k p) + bpow k * lval (drop k p)).
  { rewrite <- (take_drop k p) at 1. rewrite lval_app, length_take_le; [done | lia]. }
  assert (Hrow : lval p + bpow k * (mag a * v)
    = mag a * (bpow k * lval (drop k (take (m_used b) (m_p b))))) by (rewrite Hv, Hd, bpow_S; nia).
  pose proof (lval_nonneg (take k p) ltac:(auto with tfw)).
  assert (Hfit : lval (drop k p) + mag a * v < bpow (length (drop k p))).
  { rewrite length_drop, Hlen. pose proof (bpow_pos k).
    apply (Z.mul_lt_mono_pos_l (bpow k)); [done |]. rewrite <- bpow_add.
    replace (k + (m_limbs x - k))%nat with (m_limbs x) by lia.
    pose proof (rows_le k ltac:(lia)).
    nia. }
  mstep. eapply wp_mono.
  { apply (__mpi_mul_spec (upd X (MkMpi s0 u p) st) A X 0 k a (MkMpi s0 u p) (m_used a) v);
      [by rewrite obj_upd_ne | apply obj_upd_eq | done | apply Hoa | done | done | lia
      | unfold m_limbs in *; simpl; lia | done]. }
  intros ? ? (p' & -> & Hlen' & Hp' & Ht & Hdr). rewrite upd_upd. unfold with_p. simpl.
  apply IH; [lia |]. split_and!; [rewrite Hlen'; unfold m_limbs in *; done | done |].
  rewrite <- Hrow, <- (take_drop k p'), lval_app, length_take_le by (unfold m_limbs in Hlen'; simpl in Hlen'; lia).
  rewrite Ht, Hdr. simpl. unfold mag at 1. rewrite drop_0. fold (mag a). lia.
Qed.

(** [X = A * B] into a third array. *)
Lemma mul_main_spec :
  0 < mag a -> 0 < mag b ->
  wp (mul_main X A B (m_used a) (m_used b))
    (fun _ st' => exists m, st' = upd X m st /\ mpi_ok m /\ m_limbs m = m_limbs x /\
       mval m = mval a * mval b /\ mpi_clean m) st.
Proof.
  intros Ha Hb. pose proof (ok_used a Hoa). pose proof (ok_used b Hob).
  unfold mul_main. mstep; mstep. mstep. mstep. { by apply Nat.ltb_ge. }
  mstep. eapply wp_bzero; [done | done |]. unfold spl, m_limbs. cbn [lp_off lp_obj MPI_P].
  rewrite inserts_all_zero. mstep. eapply wp_set_used; [apply obj_upd_eq |]. rewrite upd_upd.
  mstep. eapply wp_mono; [apply mul_rows_spec; [done |] |].
  { split_and!; [by simpl; rewrite length_replicate | apply limbs_ok_replicate |].
    simpl. rewrite lval_replicate, drop_ge by (rewrite length_take; lia). simpl. lia. }
  simpl m_s. intros ? ? (p & -> & Hlen & Hp & Hv). rewrite bpow_0, drop_0 in Hv. fold (mag b) in Hv.
  rewrite Z.mul_1_l in Hv. pose proof (mag_bounds a Hoa). pose proof (mag_bounds b Hob).
  assert (Ht : lval (take (m_used a + m_used b) p) = mag a * mag b).
  { rewrite lval_take_fits; [done | done | lia |]. rewrite Hv, bpow_add. nia. }
  mstep. eapply wp_fixup; [apply obj_upd_eq | unfold m_limbs at 1; simpl; lia | done |].
  simpl. intros u Hu Hval Hn. rewrite upd_upd. rewrite Ht in Hval, Hn.
  set (m2 := MkMpi (m_s x) u p).
  mstep. eapply wp_mpi_get; [apply obj_upd_eq |].
  mstep. eapply wp_mpi_get; [by rewrite obj_upd_ne |].
  mstep. eapply wp_mpi_get; [by rewrite obj_upd_ne |].
  mstep. eapply (wp_mono _ (fun z st' => st' = upd X m2 st /\ z = false)).
  { destruct (Nat.eqb_spec (m_used m2) 1) as [E|]; [| by mstep].
    destruct (lookup_lt_is_Some_2 p 0) as [v Hlv]; [lia |].
    mstep. eapply wp_rd; [apply obj_upd_eq | done |]. mstep. split; [done |].
    apply Z.eqb_neq. intros ->. simpl in E. rewrite E, (lval_take_S _ _ _ Hlv) in Hval.
    simpl in Hval. nia. }
  intros ? ? [-> ->]. eapply wp_set_s; [apply obj_upd_eq |]. rewrite upd_upd. simpl.
  pose proof (ok_sign a Hoa). pose proof (ok_sign b Hob).
  destruct (mpi_ok_intro (m_s a * m_s b) u p (mag a * mag b)) as [Hok Hmv];
    [nia | lia | done | done | done | nia |].
  eexists. split_and!; [done | done | done | unfold mval in *; lia |].
  unfold mpi_clean, mag. simpl. rewrite Hval, Hv. done.
Qed.
End MulMain.

Lemma eq_0_spec A a st :
  obj st !! A = Some a -> mpi_ok a ->
  wp (ttls_mpi_eq_0 A) (fun r st' => st' = st /\ (r = true <-> mag a = 0)) st.
Proof.
  intros HA Hk. unfold ttls_mpi_eq_0. mstep; mstep. pose proof (ok_used a Hk).
  destruct ((m_used a =? 1)%nat && (m_s a =? 1)) eqn:E.
  - apply andb_true_iff in E as [E1%Nat.eqb_eq _]. mstep.
    eapply wp_rd; [done | by apply mag_1 |]. mstep. split; [done |]. apply Z.eqb_eq.
  - mstep. split; [done |]. split; [done |]. intros Hz. exfalso.
    rewrite (proj2 (Z.eqb_eq _ _) (ok_zero a Hk Hz)), andb_true_r in E. apply Nat.eqb_neq in E.
    pose proof (mag_ge_base a Hk ltac:(lia)). pose proof BASE_pos. lia.
Qed.

(** The copy an operand is replaced by when it is the result. *)
Lemma mul_alias_spec X A x a n st Q (f : nat -> MM unit) :
  obj st !! X = Some x -> obj st !! A = Some a -> mpi_ok a ->
  (forall T t, T <> X -> T <> A -> obj st !! T = None -> mpi_ok t -> m_s t = m_s a -> m_used t = m_used a -> mag t = mag a ->
     wp (f T) (fun _ => mres X n Q (upd T t st)) (upd T t st)) ->
  wp (T <~ mpi_new (m_used a);; ttls_mpi_copy_alloc T A false;;; f T;;; mpi_free T)
    (fun _ => mres X n Q st) st.
Proof.
  intros HX HA Hk Hf. mstep. apply wp_new. intros T HT. cbv beta.
  assert (T <> X) by congruence. assert (T <> A) by congruence.
  mstep. eapply wp_mono.
  { apply copy_alloc_spec with (y := a) (x := MkMpi 1 0 (new_limbs (m_used a) st));
      [apply obj_upd_eq | by rewrite obj_upd_ne | done | done |].
    unfold m_limbs. simpl. rewrite length_new_limbs. done. }
  intros ? ? (t & -> & Hkt & _ & Es & Eu & Em & _). rewrite upd_upd.
  mstep. eapply wp_mono; [by apply Hf |]. intros ? ? Hr. apply wp_free. eapply mres_local; [done | congruence | exact Hr].
Qed.

(** [X = A * B], whatever the three pointers share. *)
Lemma mul_mpi_spec X A B x a b st :
  obj st !! X = Some x -> obj st !! A = Some a -> obj st !! B = Some b ->
  limbs_ok (m_p x) -> mpi_ok a -> mpi_ok b -> (m_used a + m_used b <= m_limbs x)%nat ->
  wp (ttls_mpi_mul_mpi X A B) (fun _ => mres X (m_limbs x) (mval a * mval b) st) st.
Proof.
  intros HX HA HB Hox Hoa Hob Hl. pose proof (ok_used a Hoa). pose proof (ok_used b Hob).
  pose proof (mag_bounds a Hoa). pose proof (mag_bounds b Hob).
  unfold ttls_mpi_mul_mpi. do 2 (mstep; mstep). cbv zeta.
  mstep. eapply wp_mono; [by apply eq_0_spec |]. intros za ? [-> Hza].
  mstep. eapply (wp_mono _ (fun z st' => st' = st /\ (z = true <-> mag a = 0 \/ mag b = 0))).
  { destruct za; [mstep; split; [done |]; tauto |].
    eapply wp_mono; [by apply eq_0_spec |]. intros zb ? [-> Hzb]. split; [done |].
    rewrite Hzb. split; [auto |]. intros [E|]; [by apply Hza in E | done]. }
  intros z ? [-> Hz]. destruct z.
  { eapply wp_mono; [apply (lset_spec X x); [done | done | lia | lia] |].
    intros ? ? (m & -> & Hk & Hlm & Hv & _). exists m. split_and!; [done.. |].
    rewrite Hv. unfold mval. destruct (proj1 Hz eq_refl) as [-> | ->]; lia. }
  assert (mag a <> 0 /\ mag b <> 0) as [Ha Hb].
  { split; intros E; [assert (false = true) by (apply Hz; auto) | assert (false = true) by (apply Hz; auto)]; done. }
  assert (Hmain : forall A' B' a' b' st', X <> A' -> X <> B' ->
    obj st' !! X = Some x -> obj st' !! A' = Some a' -> obj st' !! B' = Some b' -> mpi_ok a' -> mpi_ok b' ->
    m_used a' = m_used a -> m_used b' = m_used b -> mag a' = mag a -> mag b' = mag b ->
    m_s a' = m_s a -> m_s b' = m_s b ->
    wp (mul_main X A' B' (m_used a) (m_used b)) (fun _ => mres X (m_limbs x) (mval a * mval b) st') st').
  { intros A' B' a' b' st' ? ? ? ? ? ? ? Eu Ev Em En Es Et. rewrite <- Eu, <- Ev.
    eapply wp_mono; [apply (mul_main_spec X A' B' x a' b'); try done; lia |].
    intros ? ? (m & -> & Hk & Hlm & Hv & _). exists m. split_and!; [done.. |].
    rewrite Hv. unfold mval. by rewrite Em, En, Es, Et. }
  destruct (Nat.eqb_spec X A) as [EA|NA].
  - apply (mul_alias_spec X A x a _ st _ (fun T => mul_main X T (if (A =? B)%nat then T else B) _ _)); [done.. |].
    intros T t HTX HTA HT Hkt Es Eu Em.
    assert (HB' : A <> B -> X <> B) by congruence.
    destruct (Nat.eqb_spec A B) as [EB|NB].
    + assert (a = b) as <- by congruence.
      apply (Hmain T T t t); try done; auto; try apply obj_upd_eq; rewrite obj_upd_ne; congruence.
    + apply (Hmain T B t b); try done; auto; try apply obj_upd_eq; rewrite obj_upd_ne; congruence.
  - destruct (Nat.eqb_spec X B) as [EB|NB].
    + apply (mul_alias_spec X B x b _ st _ (fun T => mul_main X A T _ _)); [done.. |].
      intros T t HTX HTB HT Hkt Es Eu Em.
      apply (Hmain A T a t); try done; auto; try apply obj_upd_eq; rewrite obj_upd_ne; congruence.
    + by apply (Hmain A B a b).
Qed.

Lemma mul_uint_spec X A x a v st :
  obj st !! X = Some x -> obj st !! A = Some a -> limbs_ok (m_p x) -> mpi_ok a -> is_u64 v ->
  (m_used a + 1 <= m_limbs x)%nat ->
  wp (ttls_mpi_mul_uint X A v) (fun _ => mres X (m_limbs x) (mval a * v) st) st.
Proof.
  intros HX HA Hox Hoa Hv Hl. unfold ttls_mpi_mul_uint. mstep. apply wp_local. intros T HT. cbv beta.
  assert (X <> T) by congruence. assert (A <> T) by congruence.
  destruct (ok_limb 1 v) as [Hok Hmag]; [by left | done | done |].
  mstep. eapply wp_mono.
  { apply (mul_mpi_spec X A T x a (MkMpi 1 1 [v])); [by rewrite obj_upd_ne | by rewrite obj_upd_ne
      | apply obj_upd_eq | done | done | done | done]. }
  intros ? ? Hr. apply wp_free. eapply mres_local; [done | done |].
  unfold mval in Hr at 2. rewrite Hmag in Hr. simpl m_s in Hr. by rewrite Z.mul_1_l in Hr.
Qed.
