(* ===== verification/MpiBin.v ===== *)
(** * Big integers of the TLS library: binary import and export, bits

    What [ttls_mpi_read_binary()], [ttls_mpi_write_binary()], [ttls_mpi_lsb()],
    [ttls_mpi_get_bit()] and [ttls_mpi_safe_cond_swap()] compute, in terms of the
    number: big-endian byte strings and their values, the loops over whole limbs and
    over the last incomplete one, the round trip between both forms. *)

From S2P Require Import Prelude MpiMem Mpi.

(** ** Big-endian byte strings *)

Lemma be_load_acc l acc :
  foldl (fun acc b => acc * 256 + b) acc l = acc * 256 ^ Z.of_nat (length l) + be_load l.
Proof.
  unfold be_load. revert acc. induction l as [|b l IH]; intros acc; simpl foldl; simpl length; [simpl; lia |].
  rewrite IH, (IH (0 * 256 + b)), Nat2Z.inj_succ, Z.pow_succ_r by lia. lia.
Qed.

Lemma be_load_app l k : be_load (l ++ k) = be_load l * 256 ^ Z.of_nat (length k) + be_load k.
Proof. unfold be_load. rewrite foldl_app. apply be_load_acc. Qed.

Lemma be_load_bounds l : bytes_ok l -> 0 <= be_load l < 256 ^ Z.of_nat (length l).
Proof.
  induction l as [|b l IH] using rev_ind; intros Hl; [done |].
  apply Forall_app in Hl as [Hl Hb]. rewrite Forall_singleton in Hb. unfold is_u8 in Hb.
  rewrite be_load_app, length_app, Nat2Z.inj_add. specialize (IH Hl).
  simpl length. rewrite Z.pow_add_r by lia. change (256 ^ Z.of_nat 1) with 256.
  change (be_load [b]) with (0 * 256 + b). lia.
Qed.

Lemma length_be_bytes n v : length (be_bytes n v) = n.
Proof. revert v. induction n as [|n IH]; intros v; [done |]. simpl. rewrite length_app, IH. simpl. lia. Qed.

Lemma be_bytes_ok n v : bytes_ok (be_bytes n v).
Proof.
  revert v. induction n as [|n IH]; intros v; simpl; [by constructor |].
  apply Forall_app. split; [apply IH |]. apply Forall_singleton. apply Z.mod_pos_bound. lia.
Qed.

Lemma pow256_pos n : 0 < 256 ^ Z.of_nat n.
Proof. apply Z.pow_pos_nonneg; lia. Qed.

Lemma be_bytes_add n k v : be_bytes (n + k) v = be_bytes n (v / 256 ^ Z.of_nat k) ++ be_bytes k v.
Proof.
  revert v. induction k as [|k IH]; intros v.
  - rewrite Nat.add_0_r, Z.div_1_r. by rewrite app_nil_r.
  - rewrite Nat.add_succ_r. simpl be_bytes. rewrite IH, <- app_assoc. do 2 f_equal.
    rewrite Nat2Z.inj_succ, Z.pow_succ_r, Z.div_div by (try apply pow256_pos; lia). done.
Qed.

(** The low bytes do not depend on what is above them. *)
Lemma be_bytes_low k v w : be_bytes k (v + 256 ^ Z.of_nat k * w) = be_bytes k v.
Proof.
  revert v. induction k as [|k IH]; intros v; [done |]. simpl be_bytes.
  rewrite Nat2Z.inj_succ, Z.pow_succ_r by lia.
  replace (v + 256 * 256 ^ Z.of_nat k * w) with (v + (256 ^ Z.of_nat k * w) * 256) by lia.
  by rewrite Z.div_add, Z_mod_plus_full, IH by lia.
Qed.

Lemma be_bytes_0 n : be_bytes n 0 = replicate n 0.
Proof.
  induction n as [|n IH]; [done |]. simpl be_bytes. rewrite Z.div_0_l, IH by lia.
  change (0 mod 256) with 0. by rewrite <- replicate_cons_app.
Qed.

Lemma be_load_bytes n v : 0 <= v < 256 ^ Z.of_nat n -> be_load (be_bytes n v) = v.
Proof.
  revert v. induction n as [|n IH]; intros v Hv; [unfold be_load; simpl in *; lia |].
  simpl be_bytes. rewrite Nat2Z.inj_succ, Z.pow_succ_r in Hv by lia.
  rewrite be_load_app, IH. 
  - unfold be_load. simpl. pose proof (Z.div_mod v 256). lia.
  - split; [apply Z.div_pos; lia | apply Z.div_lt_upper_bound; lia].
Qed.

Lemma be_bytes_load l : bytes_ok l -> be_bytes (length l) (be_load l) = l.
Proof.
  induction l as [|b l IH] using rev_ind; intros Hl; [done |].
  apply Forall_app in Hl as [Hl Hb]. rewrite Forall_singleton in Hb. unfold is_u8 in Hb.
  rewrite length_app, be_load_app. simpl length. rewrite Nat.add_1_r. simpl be_bytes.
  change (256 ^ Z.of_nat 1) with 256. change (be_load [b]) with (0 * 256 + b).
  rewrite Z.mul_0_l, Z.add_0_l.
  rewrite Z.div_add_l, Z.div_small, Z.add_0_r, IH by (done || lia).
  rewrite Z.add_comm, Z_mod_plus_full, Z.mod_small by lia. done.
Qed.

Lemma bpow_256 l : bpow l = 256 ^ Z.of_nat (8 * l).
Proof.
  rewrite bpow_pow2. change 256 with (2 ^ 8). rewrite <- Z.pow_mul_r by lia. f_equal. lia.
Qed.

(** ** Import *)

Lemma limbs_enough n : (n <= 8 * CHARS_TO_LIMBS n)%nat /\ (8 * CHARS_TO_LIMBS n < n + 8)%nat.
Proof.
  unfold CHARS_TO_LIMBS, CIL. pose proof (Nat.div_mod_eq (n + 8 - 1) 8).
  pose proof (Nat.mod_upper_bound (n + 8 - 1) 8 ltac:(lia)). lia.
Qed.

Section Read.
Context (X : nat) (x : TlsMpi) (st : MpiMem) (buf : bytes).
Hypothesis HX : obj st !! X = Some x.
Hypothesis Hox : limbs_ok (m_p x).
Hypothesis Hbuf : bytes_ok buf.
Hypothesis Hl : (CHARS_TO_LIMBS (length buf) <= m_limbs x)%nat.

(** The last [8 * l] bytes are in the limbs [r]. *)
Definition read_inv (i l : nat) (r : list Z) : Prop :=
  length r = l /\ limbs_ok r /\ length buf = (i + 8 * l)%nat /\ lval r = be_load (drop i buf).

Lemma read_limbs_spec n i l r :
  read_inv i l r -> (length buf <= 8 * (l + n))%nat -> (l + n <= m_limbs x)%nat ->
  wp (read_limbs X buf n i l)
    (fun il st' => exists r', st' = spl X x 0 r' st /\ read_inv il.1 il.2 r' /\ (il.1 < 8)%nat)
    (spl X x 0 r st).
Proof.
  revert i l r. induction n as [|n IH]; intros i l r Hi Hn Hlx; cbn [read_limbs].
  - mstep. exists r. split_and!; [done | done |]. destruct Hi as (_ & _ & Hlen & _). simpl. lia.
  - destruct Hi as (Hlr & Hr & Hlen & Hv). destruct (Nat.leb_spec CIL i) as [Hge|Hlt]; unfold CIL in *.
    + mstep. apply wp_wr_spl; [done | simpl; lia |]. apply IH; [| lia | lia].
      set (w := take 8 (drop (i - 8) buf)).
      assert (Hw : length w = 8%nat) by (subst w; rewrite length_take, length_drop; lia).
      pose proof (be_load_bounds w ltac:(by apply Forall_take, Forall_drop)) as Hb. rewrite Hw in Hb.
      split_and!; [rewrite length_app; simpl; lia | apply limbs_ok_snoc; [done | exact Hb] | lia |].
      rewrite lval_snoc, Hlr, Hv, bpow_256.
      assert (drop (i - 8) buf = w ++ drop i buf) as ->.
      { subst w. rewrite <- (take_drop 8 (drop (i - 8) buf)) at 1. rewrite drop_drop.
        do 2 f_equal. lia. }
      rewrite be_load_app, length_drop. replace (length buf - i)%nat with (8 * l)%nat by lia. lia.
    + mstep. exists r. by split_and!.
Qed.

(** Fewer than eight bytes are left for the last limb. *)
Lemma read_tail_spec l r v i j :
  length r = l -> (l < m_limbs x)%nat -> (i <= length buf)%nat ->
  0 <= j -> j + 8 * Z.of_nat i <= 64 -> 0 <= v < 2 ^ j ->
  wp (read_tail X l buf i j)
    (fun _ st' => st' = spl X x 0 (r ++ [v + 2 ^ j * be_load (take i buf)]) st)
    (spl X x 0 (r ++ [v]) st).
Proof.
  revert v j. induction i as [|i IH]; intros v j Hlr Hl' Hi Hj Hsz Hv; cbn [read_tail].
  - mstep. rewrite take_0. change (be_load []) with 0. by rewrite Z.mul_0_r, Z.add_0_r.
  - destruct (lookup_lt_is_Some_2 buf i) as [b Hb]; [lia |].
    pose proof (Forall_lookup_1 _ _ _ _ Hbuf Hb) as Hb8. unfold is_u8 in Hb8.
    assert (Hlp : length (list_inserts 0 (r ++ [v]) (m_p x)) = m_limbs x) by apply length_inserts.
    mstep. eapply wp_rd; [apply obj_spl_eq | |].
    { simpl. rewrite list_lookup_inserts by (rewrite ?length_app; unfold m_limbs in *; simpl; lia).
      rewrite Nat.sub_0_r, lookup_app_r, Hlr, Nat.sub_diag by lia. done. }
    assert (Hsh : u64 (Z.shiftl (byte_at buf i) j) = b * 2 ^ j).
    { unfold byte_at. rewrite Hb. simpl. rewrite Z.shiftl_mul_pow2, u64_small; [done | | done].
      assert (2 ^ j * 2 ^ 8 <= 2 ^ 64) by (rewrite <- Z.pow_add_r by lia; apply Z.pow_le_mono_r; lia).
      pose proof (pow2_pos j Hj). nia. }
    rewrite Hsh, lor_low_high by lia.
    mstep. eapply wp_wr; [apply obj_spl_eq | unfold m_limbs at 1; simpl; lia |].
    simpl. unfold spl. rewrite upd_upd. unfold with_p. simpl.
    assert (Hins : <[l:=v + b * 2 ^ j]> (list_inserts 0 (r ++ [v]) (m_p x))
      = list_inserts 0 (r ++ [v + b * 2 ^ j]) (m_p x)).
    { rewrite <- !inserts_snoc. simpl. rewrite Hlr. apply list_insert_insert_eq. }
    rewrite Hins. eapply wp_mono; [apply IH; [done | done | lia | lia | lia |] |].
    + rewrite Z.pow_add_r by lia. pose proof (pow2_pos j Hj). nia.
    + intros ? ? ->. unfold spl, with_p. do 5 f_equal.
      rewrite (take_S_r _ _ _ Hb), be_load_app, Z.pow_add_r by lia.
      change (be_load [b]) with (0 * 256 + b). change (256 ^ Z.of_nat (length [b])) with 256. lia.
Qed.
End Read.

Lemma alloc_spec X x n st :
  obj st !! X = Some x -> limbs_ok (m_p x) -> (forall i, is_u64 (junk st i)) ->
  (n <= m_limbs x)%nat \/ (m_limbs x = 0%nat /\ (n <= TTLS_MPI_MAX_LIMBS)%nat) ->
  wp (ttls_mpi_alloc X n)
    (fun _ st' => exists p, st' = upd X (with_p x p) st /\ limbs_ok p /\ length p = (m_limbs x `max` n)%nat) st.
Proof.
  intros HX Hox Hj Hn. unfold ttls_mpi_alloc. mstep; mstep.
  destruct (Nat.leb_spec n (m_limbs x)) as [|Hgt].
  - mstep. exists (m_p x). rewrite upd_same by (by destruct x).
    split_and!; [done | done |]. unfold m_limbs in *. lia.
  - destruct Hn as [|[E0 Hmax]]; [lia |]. mstep. mstep. { by rewrite E0. }
    mstep. mstep. { by apply Nat.ltb_ge. } mstep. apply wp_get. unfold set_p. mstep.
    eapply wp_mpi_get; [done |]. apply wp_mpi_put. exists (new_limbs n st).
    split_and!; [done | | rewrite length_new_limbs; lia].
    apply Forall_fmap, Forall_true. intros i. apply Hj.
Qed.

(** [ttls_mpi_read_binary] stores the big-endian value of the buffer. *)
Lemma read_binary_spec X x buf st :
  obj st !! X = Some x -> limbs_ok (m_p x) -> (forall i, is_u64 (junk st i)) ->
  bytes_ok buf -> buf <> [] ->
  let n := CHARS_TO_LIMBS (length buf) in
  (n <= m_limbs x)%nat \/ (m_limbs x = 0%nat /\ (n <= TTLS_MPI_MAX_LIMBS)%nat) ->
  wp (ttls_mpi_read_binary X buf) (fun _ => mres X (m_limbs x `max` n) (be_load buf) st) st.
Proof.
  intros HX Hox Hj Hbuf Hne n Hn. destruct (limbs_enough (length buf)) as [He1 He2].
  unfold ttls_mpi_read_binary. assert (En : CHARS_TO_LIMBS (length buf) = n) by done.
  clearbody n. rewrite En in *. cbv zeta.
  assert (Hlen : (0 < length buf)%nat) by (destruct buf; simpl; [done | lia]).
  rewrite (proj2 (Nat.eqb_neq (length buf) 0)) by lia.
  mstep. eapply wp_mono; [by apply alloc_spec |]. intros ? ? (p & -> & Hp & Hlp).
  mstep. eapply wp_set_s; [apply obj_upd_eq |]. rewrite upd_upd. simpl m_used. simpl m_p.
  set (x1 := MkMpi 1 (m_used x) p). set (st1 := upd X x1 st).
  assert (HX1 : obj st1 !! X = Some x1) by apply obj_upd_eq.
  assert (Hlx1 : (n <= m_limbs x1)%nat) by (unfold m_limbs at 1; simpl; lia).
  mstep. rewrite <- (spl_nil X x1 0 st1 HX1). eapply wp_mono.
  { apply (read_limbs_spec X x1 st1 buf); [done | lia | | lia | lia].
    split_and!; [done | by constructor | simpl; lia | by rewrite drop_all]. }
  intros [i l] ? (r & -> & (Hlr & Hr & Hsum & Hv) & Hi8). simpl in Hi8, Hsum, Hv, Hlr.
  mstep. eapply (wp_mono _ (fun _ st' => exists r', st' = spl X x1 0 r' st1 /\ length r' = n /\
    limbs_ok r' /\ lval r' = be_load buf)).
  { destruct (Nat.ltb_spec 0 i) as [Hi|Hi].
    - mstep. apply wp_wr_spl; [done | simpl; lia |].
      eapply wp_mono; [apply (read_tail_spec X x1 st1 buf Hbuf); [lia | done | lia | lia | lia | lia | done] |].
      intros ? ? ->. eexists. split; [done |].
      rewrite length_app, lval_snoc, Hlr, Hv, Z.add_0_l, Z.pow_0_r, Z.mul_1_l. simpl length.
      pose proof (be_load_bounds (take i buf) ltac:(by apply Forall_take)) as Hb.
      rewrite length_take_le in Hb by lia.
      split_and!; [lia | | ].
      + apply limbs_ok_snoc; [done |]. unfold is_u64. split; [lia |].
        assert (256 ^ Z.of_nat i <= 256 ^ 8) by (apply Z.pow_le_mono_r; lia).
        change (256 ^ 8) with (2 ^ 64) in *. lia.
      + rewrite <- (take_drop i buf) at 3. rewrite be_load_app, length_drop, bpow_256.
        replace (length buf - i)%nat with (8 * l)%nat by lia. lia.
    - assert (i = 0%nat) as -> by lia. mstep. exists r. rewrite drop_0 in Hv.
      split_and!; [done | lia | done | done]. }
  intros ? ? (r' & -> & Hlr' & Hr' & Hv'). unfold spl.
  assert (Hle : (length r' <= length (m_p x1))%nat) by (unfold m_limbs in *; lia).
  eapply wp_fixup; [apply obj_upd_eq | unfold m_limbs; simpl; rewrite length_inserts; simpl in *; lia
    | by apply limbs_ok_inserts |].
  simpl. intros u Hu Hval Hn'. unfold st1. rewrite !upd_upd.
  rewrite (take_inserts_le n), (take_ge r') in Hval, Hn' by (simpl in *; lia).
  rewrite Hv' in Hval, Hn'. simpl in Hle.
  destruct (mpi_ok_intro 1 u (list_inserts 0 r' p) (be_load buf)) as [Hok Hmv];
    [by left | rewrite length_inserts; lia | by apply limbs_ok_inserts | done | done | done |].
  eexists. split_and!; [done | done | unfold m_limbs in *; simpl; rewrite length_inserts; lia | lia].
Qed.

(** ** Export *)

Lemma size_spec A a st :
  obj st !! A = Some a -> mpi_ok a ->
  wp (ttls_mpi_size A) (fun n st' => st' = st /\ n = (fls64 (mag a) + 7) / 8) st.
Proof.
  intros HA Hk. unfold ttls_mpi_size. mstep. eapply wp_mono; [by apply bitlen_spec |].
  intros n ? [-> ->]. mstep. split; [done |]. by rewrite Z.shiftr_div_pow2.
Qed.

(** The size in bytes of a positive number. *)
Lemma size_bounds v n : 0 < v -> n = (fls64 v + 7) / 8 -> 0 < n /\ 256 ^ (n - 1) <= v < 256 ^ n.
Proof.
  intros Hv ->. destruct (fls64_bounds v Hv) as [Hp Hb]. set (q := (fls64 v + 7) / 8).
  assert (Hq : 8 * q - 7 <= fls64 v <= 8 * q).
  { subst q. pose proof (Z.div_mod (fls64 v + 7) 8 ltac:(lia)).
    pose proof (Z.mod_pos_bound (fls64 v + 7) 8 ltac:(lia)). lia. }
  split; [lia |]. change 256 with (2 ^ 8). rewrite <- !Z.pow_mul_r by lia. split.
  - transitivity (2 ^ (fls64 v - 1)); [| lia]. apply Z.pow_le_mono_r; lia.
  - apply (Z.lt_le_trans _ (2 ^ fls64 v)); [lia |]. apply Z.pow_le_mono_r; lia.
Qed.

Section Write.
Context (X : nat) (x : TlsMpi) (st : MpiMem) (buf0 : bytes).
Hypothesis HX : obj st !! X = Some x.
Hypothesis Hok : mpi_ok x.

(** The limbs below [l] fill the buffer from [i] on. *)
Definition write_inv (buf : bytes) (i l : nat) : Prop :=
  (l <= m_used x)%nat /\ length buf0 = (i + 8 * l)%nat /\
  buf = take i buf0 ++ be_bytes (8 * l) (lval (take l (m_p x))).

Lemma write_limbs_spec n buf i l :
  write_inv buf i l -> (m_used x <= l + n)%nat ->
  wp (write_limbs X (m_used x) n buf i l)
    (fun r st' => st' = st /\ write_inv r.1.1 r.1.2 r.2 /\ (r.2 = m_used x \/ r.1.2 < 8)%nat) st.
Proof.
  revert buf i l. induction n as [|n IH]; intros buf i l Hi Hn; cbn [write_limbs].
  - mstep. split_and!; [done | done |]. destruct Hi. simpl. lia.
  - destruct ((l <? m_used x)%nat && (CIL <=? i)%nat) eqn:E; unfold CIL in *.
    + apply andb_true_iff in E as [E1%Nat.ltb_lt E2%Nat.leb_le].
      destruct Hi as (Hl & Hlen & ->). pose proof (ok_used x Hok).
      destruct (lookup_lt_is_Some_2 (m_p x) l) as [v Hv]; [unfold m_limbs in *; lia |].
      mstep. eapply wp_rd; [done | done |]. apply IH; [| lia].
      split_and!; [lia | lia |].
      rewrite inserts_app by (rewrite length_be_bytes, length_app, length_take, length_be_bytes; lia).
      rewrite length_be_bytes, take_app_le by (rewrite length_take; lia).
      rewrite take_take, Nat.min_l by lia. f_equal.
      replace (i - 8 + 8)%nat with i by lia. rewrite drop_app_length' by (rewrite length_take; lia).
      replace (8 * S l)%nat with (8 + 8 * l)%nat by lia. rewrite be_bytes_add, <- bpow_256.
      rewrite (lval_take_S _ _ _ Hv), bpow_256, be_bytes_low, <- bpow_256. f_equal.
      pose proof (lval_bounds (take l (m_p x)) ltac:(apply limbs_ok_take, Hok)) as Hb.
      rewrite length_take_le in Hb by (unfold m_limbs in *; lia).
      rewrite Z.add_comm, Z.mul_comm, Z.div_add_l, Z.div_small by lia. by rewrite Z.add_0_r.
    + mstep. split_and!; [done | done |]. simpl. destruct Hi as (Hl & _).
      apply andb_false_iff in E as [E%Nat.ltb_ge|E%Nat.leb_gt]; lia.
Qed.

Lemma write_tail_spec v buf n i b :
  (n <= i <= length buf)%nat -> 0 <= b ->
  wp (write_tail v buf n i b)
    (fun r st' => st' = st /\ r = (take (i - n) buf ++ be_bytes n (v / 2 ^ b) ++ drop i buf, (i - n)%nat)) st.
Proof.
  revert buf i b. induction n as [|n IH]; intros buf i b Hi Hb; cbn [write_tail].
  - mstep. rewrite Nat.sub_0_r. simpl. by rewrite take_drop.
  - mstep. mstep. { apply Nat.eqb_neq. lia. }
    eapply wp_mono; [apply IH; [rewrite length_insert; lia | lia] |].
    intros r ? [-> ->]. split; [done |].
    replace (i - 1 - n)%nat with (i - S n)%nat by lia. f_equal.
    rewrite take_insert_ge by lia. f_equal.
    rewrite (drop_S _ (u8 (Z.shiftr v b))) by (rewrite list_lookup_insert_eq; [done | lia]).
    replace (S (i - 1)) with i by lia. rewrite drop_insert_lt by lia.
    simpl be_bytes. rewrite <- app_assoc. rewrite Z.pow_add_r by lia. change (2 ^ 8) with 256.
    rewrite <- Z.div_div by (try apply Z.pow_pos_nonneg; lia). do 2 f_equal.
    unfold u8. by rewrite Z.shiftr_div_pow2.
Qed.
End Write.

Lemma be_bytes_small n v : 0 <= v < 256 ^ Z.of_nat n -> forall k, be_bytes (k + n) v = replicate k 0 ++ be_bytes n v.
Proof. intros Hv k. rewrite be_bytes_add, Z.div_small by done. by rewrite be_bytes_0. Qed.

(** The bytes that are left for the top limb. *)
Lemma top_bytes x n i l :
  mpi_ok x -> n = (fls64 (mag x) + 7) / 8 -> n <= Z.of_nat (i + 8 * l) -> (l < m_used x)%nat -> (i < 8)%nat ->
  S l = m_used x /\ exists v, m_p x !! l = Some v /\
    mag x = lval (take l (m_p x)) + bpow l * v /\ (Z.to_nat (n mod 8) <= i)%nat /\
    0 <= v < 256 ^ Z.of_nat (Z.to_nat (n mod 8)).
Proof.
  intros Hok Hn Hfit Hl Hi. pose proof (ok_used x Hok). pose proof (mag_bounds x Hok).
  destruct (top_limb x Hok) as (v & Hv & Hu & Hm & Hz). unfold is_u64 in Hu.
  pose proof (lval_nonneg (take (m_used x - 1) (m_p x)) ltac:(apply limbs_ok_take, Hok)).
  destruct (decide (mag x = 0)) as [E0|Hne].
  - rewrite E0 in Hn. change ((fls64 0 + 7) / 8) with 0 in Hn. subst n. simpl.
    destruct (ok_norm x Hok) as [E1|Hge]; [| pose proof (bpow_pos (m_used x - 1)); lia].
    split; [lia |]. exists v. replace l with (m_used x - 1)%nat by lia.
    change (Z.to_nat (0 mod 8)) with 0%nat. rewrite (proj2 Hz E0) in *. split_and!; [done | done | lia | done | done].
  - destruct (size_bounds (mag x) n ltac:(lia) Hn) as [Hn0 Hb].
    assert (Hge : bpow (m_used x - 1) <= mag x).
    { destruct (ok_norm x Hok) as [E1|]; [| done]. rewrite E1. simpl. rewrite bpow_0. lia. }
    assert (Hlt : 8 * Z.of_nat (m_used x - 1) < n).
    { rewrite bpow_256 in Hge. replace (8 * Z.of_nat (m_used x - 1)) with (Z.of_nat (8 * (m_used x - 1))) by lia.
      apply (Z.pow_lt_mono_r_iff 256); [lia | lia |]. lia. }
    assert (El : l = (m_used x - 1)%nat) by lia. split; [lia |]. exists v. subst l.
    assert (Hr : n mod 8 = n - 8 * Z.of_nat (m_used x - 1)).
    { symmetry. apply (Z.mod_unique n 8 (Z.of_nat (m_used x - 1))); lia. }
    rewrite Hr. split_and!; [done | done | lia | lia |].
    rewrite Z2Nat.id by lia.
    apply (Z.mul_lt_mono_pos_l (bpow (m_used x - 1))); [apply bpow_pos |].
    rewrite bpow_256 at 2. rewrite <- Z.pow_add_r by lia.
    replace (Z.of_nat (8 * (m_used x - 1)) + (n - 8 * Z.of_nat (m_used x - 1))) with n by lia. lia.
Qed.

(** [ttls_mpi_write_binary] fills the buffer with the magnitude or refuses. *)
Lemma write_binary_spec X x buf st :
  obj st !! X = Some x -> mpi_ok x ->
  wp (ttls_mpi_write_binary X buf)
    (fun r st' => st' = st /\
       r = if Z.of_nat (length buf) <? (fls64 (mag x) + 7) / 8 then (- ENOSPC, buf)
           else (0, be_bytes (length buf) (mag x))) st.
Proof.
  intros HX Hok. pose proof (ok_used x Hok). pose proof (mag_bounds x Hok).
  unfold ttls_mpi_write_binary. mstep. eapply wp_mono; [by apply size_spec |].
  intros n ? [-> Hn]. rewrite <- Hn. cbv zeta.
  destruct (Z.ltb_spec (Z.of_nat (length buf)) n) as [|Hfit]; [by mstep |].
  mstep; mstep. mstep. eapply wp_mono.
  { apply (write_limbs_spec X x st buf HX Hok); [| done].
    split_and!; [lia | simpl; lia |]. simpl. by rewrite app_nil_r, take_ge. }
  intros [[b1 i] l] ? (-> & (Hl & Hlen & Hb) & Hend). cbn [fst snd] in Hl, Hlen, Hb, Hend.
  assert (Hti : length (take i buf) = i) by (rewrite length_take; lia).
  destruct (decide (l = m_used x)) as [->|Hlt].
  - rewrite (proj2 (Nat.eqb_neq _ _)) by lia. rewrite andb_false_r. mstep. mstep. mstep.
    split; [done |]. f_equal. rewrite Hb, inserts_0 by (rewrite length_replicate, length_app; lia).
    rewrite length_replicate, drop_app_length' by done. rewrite Hlen. fold (mag x).
    rewrite (be_bytes_small (8 * m_used x) (mag x)) by (rewrite <- bpow_256; lia). done.
  - destruct Hend as [|Hi8]; [done |].
    destruct (top_bytes x n i l) as (El & v & Hv & Hm & Ht & Hvb); [done | done | lia | lia | done |].
    set (t := Z.to_nat (n mod 8)) in *.
    assert (Hfin : be_bytes (length buf) (mag x)
      = replicate (i - t) 0 ++ be_bytes t v ++ be_bytes (8 * l) (lval (take l (m_p x)))).
    { rewrite Hlen, be_bytes_add, <- bpow_256, Hm.
      pose proof (lval_bounds (take l (m_p x)) ltac:(apply limbs_ok_take, Hok)) as Hlb.
      rewrite length_take_le in Hlb by (unfold m_limbs in *; lia).
      assert ((lval (take l (m_p x)) + bpow l * v) / bpow l = v) as ->.
      { rewrite Z.add_comm, Z.mul_comm, Z.div_add_l, Z.div_small by lia. lia. }
      rewrite bpow_256, be_bytes_low, app_assoc. f_equal.
      replace i with (i - t + t)%nat at 1 by lia. by rewrite be_bytes_small. }
    rewrite Hfin, (proj2 (Nat.eqb_eq _ _) El), andb_true_r.
    destruct (Nat.ltb_spec 0 i) as [Hi|Hi].
    + mstep. mstep. eapply wp_rd; [done | done |].
      eapply wp_mono; [apply write_tail_spec; [| done] |].
      { subst b1. rewrite length_app. lia. }
      intros ? ? [-> ->]. mstep. split; [done |]. f_equal. rewrite Z.pow_0_r, Z.div_1_r.
      assert (Htk : length (take (i - t) b1) = (i - t)%nat).
      { subst b1. rewrite length_take, length_app. lia. }
      rewrite inserts_0 by (rewrite length_replicate, length_app; lia).
      rewrite length_replicate, drop_app_length' by done. do 2 f_equal.
      subst b1. by rewrite drop_app_length'.
    + assert (i = 0%nat) as E0 by lia. mstep. mstep. mstep. split; [done |]. f_equal.
      assert (t = 0%nat) as -> by lia. rewrite E0 in *. rewrite Hb. simpl. done.
Qed.

(** ** Low bits *)

Lemma ctz_spec p : 0 <= ctz p /\ exists k, Zpos p = 2 ^ ctz p * (2 * k + 1).
Proof.
  induction p as [p _|p [Hc [k Hk]]|]; simpl ctz.
  - split; [lia |]. exists (Zpos p). lia.
  - split; [lia |]. exists k. rewrite Z.pow_add_r by lia. change (2 ^ 1) with 2. lia.
  - split; [lia |]. by exists 0.
Qed.

Lemma ffs64_spec v : is_u64 v -> v <> 0 -> 0 <= ffs64 v < 64 /\ exists k, 0 <= k /\ v = 2 ^ ffs64 v * (2 * k + 1).
Proof.
  intros Hu Hv. unfold is_u64 in Hu. destruct v as [|p|p]; [done | | lia].
  destruct (ctz_spec p) as [Hc [k Hk]]. change (ffs64 (Zpos p)) with (ctz p).
  pose proof (pow2_pos (ctz p) Hc). assert (0 <= k) by nia. split; [| by exists k].
  split; [done |]. apply (Z.pow_lt_mono_r_iff 2); [lia | lia |]. nia.
Qed.

Lemma lsb_loop_spec x m n i st :
  obj st !! lp_obj x = Some m -> lp_off x = 0%nat -> limbs_ok (m_p m) -> (i + n <= m_limbs m)%nat ->
  lval (take i (m_p m)) = 0 ->
  wp (lsb_loop x n i)
    (fun r st' => st' = st /\
       ((lval (take (i + n) (m_p m)) = 0 /\ r = 0) \/
        (0 <= r /\ exists k, 0 <= k /\ lval (take (i + n) (m_p m)) = 2 ^ r * (2 * k + 1)))) st.
Proof.
  intros Hx Ho Hok. revert i. induction n as [|n IH]; intros i Hl Hz; cbn [lsb_loop].
  - mstep. rewrite Nat.add_0_r. auto.
  - destruct (lookup_lt_is_Some_2 (m_p m) i) as [v Hv]; [unfold m_limbs in *; lia |].
    pose proof (limbs_ok_lookup _ _ _ Hok Hv) as Hu.
    pose proof (lval_take_S _ _ _ Hv) as Hl1. rewrite Hz in Hl1.
    mstep. eapply wp_rd; [done | rewrite Ho; done |]. destruct (Z.eqb_spec v 0) as [->|Hne].
    + replace (i + S n)%nat with (S i + n)%nat by lia. apply IH; [lia | lia].
    + mstep. split; [done |]. right. destruct (ffs64_spec v Hu Hne) as [Hf (k & Hk & Ev)].
      split; [lia |].
      assert (Hsplit : lval (take (i + S n) (m_p m))
        = bpow i * v + bpow (S i) * lval (take n (drop (S i) (m_p m)))).
      { replace (i + S n)%nat with (S i + n)%nat by lia.
        rewrite <- take_take_drop, lval_app, length_take_le by (unfold m_limbs in *; lia). lia. }
      set (h := lval (take n (drop (S i) (m_p m)))) in *.
      assert (0 <= h) by (apply lval_nonneg; auto with tfw).
      assert (Hb : BASE = 2 ^ ffs64 v * (2 * 2 ^ (63 - ffs64 v))).
      { replace (2 * 2 ^ (63 - ffs64 v)) with (2 ^ (64 - ffs64 v)).
        - rewrite <- Z.pow_add_r by lia. rewrite <- bpow_1, bpow_pow2. f_equal. lia.
        - replace (64 - ffs64 v) with (1 + (63 - ffs64 v)) by lia. rewrite Z.pow_add_r by lia. done. }
      exists (k + 2 ^ (63 - ffs64 v) * h). pose proof (pow2_pos (63 - ffs64 v) ltac:(lia)).
      split; [nia |]. rewrite Hsplit, bpow_S, Z.pow_add_r by lia.
      replace (2 ^ (Z.of_nat i * 64)) with (bpow i) by (rewrite bpow_pow2; f_equal; lia).
      rewrite Hb. rewrite Ev at 1. ring.
Qed.

(** The number of trailing zero bits. *)
Lemma lsb_spec A a st :
  obj st !! A = Some a -> mpi_ok a ->
  wp (ttls_mpi_lsb A)
    (fun r st' => st' = st /\
       ((mag a = 0 /\ r = 0) \/ (0 <= r /\ exists k, 0 <= k /\ mag a = 2 ^ r * (2 * k + 1)))) st.
Proof.
  intros HA Hk. unfold ttls_mpi_lsb. mstep; mstep.
  apply (lsb_loop_spec (MPI_P A) a (m_used a) 0); [done | done | apply Hk | apply (ok_used a Hk) | done].
Qed.

Lemma BASE_pow2 : BASE = 2 ^ 64.
Proof. rewrite <- bpow_1, bpow_pow2. f_equal. Qed.

Lemma limb_testbit l i v k :
  limbs_ok l -> l !! i = Some v -> 0 <= k < 64 -> Z.testbit (lval l) (64 * Z.of_nat i + k) = Z.testbit v k.
Proof.
  intros Hok Hv Hk. assert (Hs : lval l = lval (take i l) + bpow i * (v + BASE * lval (drop (S i) l))).
  { rewrite <- (lval_drop_S _ _ _ Hv). rewrite <- (take_drop i l) at 1.
    rewrite lval_app, length_take_le; [done |]. apply lookup_lt_Some in Hv. lia. }
  pose proof (lval_bounds (take i l) ltac:(auto with tfw)) as Hb.
  rewrite length_take_le in Hb by (apply lookup_lt_Some in Hv; lia).
  rewrite Z.add_comm, <- Z.div_pow2_bits by lia. rewrite <- bpow_pow2, Hs.
  rewrite Z.add_comm, Z.mul_comm, Z.div_add_l, Z.div_small, Z.add_0_r by lia.
  rewrite <- (Z.mod_pow2_bits_low _ 64) by lia. rewrite BASE_pow2, (Z.mul_comm (2 ^ 64)), Z_mod_plus_full.
  by rewrite Z.mod_pow2_bits_low by lia.
Qed.

Lemma get_bit_spec A a pos st :
  obj st !! A = Some a -> mpi_ok a ->
  wp (ttls_mpi_get_bit A pos) (fun r st' => st' = st /\ r = Z.b2z (Z.testbit (mag a) (Z.of_nat pos))) st.
Proof.
  intros HA Hk. pose proof (ok_used a Hk). unfold ttls_mpi_get_bit. mstep; mstep.
  pose proof (Nat.div_mod_eq pos 64) as Hd. pose proof (Nat.mod_upper_bound pos 64 ltac:(lia)) as Hm.
  destruct (Nat.leb_spec (64 * m_used a) pos) as [Hge|Hlt].
  - mstep. split; [done |]. pose proof (mag_bounds a Hk) as Hb. rewrite bpow_pow2 in Hb.
    rewrite <- (Z.mod_small (mag a) (2 ^ (64 * Z.of_nat (m_used a)))) by done.
    by rewrite Z.mod_pow2_bits_high by lia.
  - destruct (lookup_lt_is_Some_2 (m_p a) (pos / 64)) as [v Hv]; [unfold m_limbs in *; lia |].
    mstep. eapply wp_rd; [done | done |]. mstep. split; [done |].
    assert (Hv' : take (m_used a) (m_p a) !! (pos / 64)%nat = Some v) by (rewrite lookup_take_lt by lia; done).
    replace (Z.of_nat pos) with (64 * Z.of_nat (pos / 64) + Z.of_nat (pos mod 64)) by lia.
    unfold mag. rewrite (limb_testbit _ _ v); [| apply limbs_ok_take, Hk | done | lia].
    change 1 with (Z.ones 1). rewrite Z.land_ones, <- Z.bit0_mod, Z.shiftr_spec, Z.add_0_l by lia. done.
Qed.

(** ** Conditional swap *)

Lemma swap_bit_spec sw : is_u8 sw -> swap_bit sw = if sw =? 0 then 0 else 1.
Proof.
  intros Hs. assert (Hall : forallb (fun i => swap_bit (Z.of_nat i) =? (if Z.of_nat i =? 0 then 0 else 1)) (seq 0 256) = true)
    by reflexivity.
  rewrite forallb_forall in Hall. specialize (Hall (Z.to_nat sw)). unfold is_u8 in Hs.
  rewrite Z2Nat.id in Hall by lia. apply Z.eqb_eq, Hall. apply in_seq. lia.
Qed.

Section Swap.
Context (X Y : nat) (x y : TlsMpi) (st : MpiMem) (sw : bool) (n : nat).
Hypothesis Hne : X <> Y.
Hypothesis Hpx : limbs_ok (m_p x).
Hypothesis Hpy : limbs_ok (m_p y).
Hypothesis Hnx : (n <= m_limbs x)%nat.
Hypothesis Hny : (n <= m_limbs y)%nat.

Let sel {A} (a b : A) : A := if sw then b else a.

(** Both arrays with [i] limbs exchanged (or kept). *)
Definition swap_state (i : nat) : MpiMem :=
  upd X (with_p x (take i (sel (m_p x) (m_p y)) ++ drop i (m_p x)))
    (upd Y (with_p y (take i (sel (m_p y) (m_p x)) ++ drop i (m_p y))) st).

Lemma swap_prefix (p q : list Z) i v w :
  length q <> 0%nat -> (i < length p)%nat -> (i <= length q)%nat -> q !! i = Some w -> p !! i = Some v ->
  (take i q ++ drop i p) !! i = Some v /\
  <[i := w]> (take i q ++ drop i p) = take (S i) q ++ drop (S i) p.
Proof.
  intros Hq Hi Hj Hw Hv. assert (Hl : length (take i q) = i) by (rewrite length_take; lia). split.
  - rewrite lookup_app_r by lia. rewrite Hl, Nat.sub_diag, lookup_drop, Nat.add_0_r. done.
  - rewrite insert_app_r_alt by lia. rewrite Hl, Nat.sub_diag, (drop_S _ _ _ Hv). simpl.
    by rewrite (take_S_r _ _ _ Hw), <- app_assoc.
Qed.

Lemma swap_limb_spec i c : (i < n)%nat ->
  wp (swap_limb X Y (Z.b2z sw) i c) (fun _ st' => st' = swap_state (S i)) (swap_state i).
Proof.
  intros Hi. unfold m_limbs in *. unfold swap_limb.
  destruct (lookup_lt_is_Some_2 (m_p x) i) as [v Hv]; [lia |].
  destruct (lookup_lt_is_Some_2 (m_p y) i) as [w Hw]; [lia |].
  pose proof (limbs_ok_lookup _ _ _ Hpx Hv) as Hu. pose proof (limbs_ok_lookup _ _ _ Hpy Hw) as Hz.
  assert (sel (m_p x) (m_p y) !! i = Some (sel v w) /\ sel (m_p y) (m_p x) !! i = Some (sel w v)) as [Hs1 Hs2]
    by (unfold sel; by destruct sw).
  destruct (swap_prefix (m_p x) (sel (m_p x) (m_p y)) i v (sel v w)) as [L1 I1];
    [unfold sel; destruct sw; lia | lia | unfold sel; destruct sw; lia | done | done |].
  destruct (swap_prefix (m_p y) (sel (m_p y) (m_p x)) i w (sel w v)) as [L2 I2];
    [unfold sel; destruct sw; lia | lia | unfold sel; destruct sw; lia | done | done |].
  assert (u64 (v * (1 - Z.b2z sw) + w * Z.b2z sw) = sel v w
    /\ u64 (w * (1 - Z.b2z sw) + v * Z.b2z sw) = sel w v) as [E1 E2].
  { unfold sel. destruct sw; simpl Z.b2z; split; rewrite u64_small; unfold is_u64 in *; lia. }
  unfold swap_state.
  mstep. eapply wp_rd; [apply obj_upd_eq | exact L1 |].
  mstep. eapply wp_rd; [rewrite obj_upd_ne by done; apply obj_upd_eq | exact L2 |]. rewrite E1, E2.
  mstep. eapply wp_wr; [apply obj_upd_eq | |].
  { apply lookup_lt_Some in L1. done. }
  cbn [lp_obj lp_off MPI_P padd Nat.add]. rewrite upd_upd. unfold with_p. cbn [m_s m_used m_p]. rewrite I1.
  eapply wp_wr; [cbn [lp_obj MPI_P]; rewrite obj_upd_ne by done; apply obj_upd_eq | |].
  { apply lookup_lt_Some in L2. done. }
  cbn [lp_obj lp_off MPI_P padd Nat.add]. unfold with_p. cbn [m_s m_used m_p]. rewrite I2.
  rewrite upd_comm, upd_upd, upd_comm by done. done.
Qed.
End Swap.

(** The values change places when [swap] is not zero. *)
Lemma safe_cond_swap_spec X Y x y swap st :
  obj st !! X = Some x -> obj st !! Y = Some y -> X <> Y -> mpi_ok x -> mpi_ok y -> is_u8 swap ->
  (m_used y <= m_limbs x)%nat -> (m_used x <= m_limbs y)%nat ->
  wp (ttls_mpi_safe_cond_swap X Y swap)
    (fun r st' => r = 0 /\ exists x' y', st' = upd X x' (upd Y y' st) /\ mpi_ok x' /\ mpi_ok y' /\
       m_limbs x' = m_limbs x /\ m_limbs y' = m_limbs y /\
       mval x' = (if swap =? 0 then mval x else mval y) /\
       mval y' = (if swap =? 0 then mval y else mval x)) st.
Proof.
  intros HX HY Hne Hkx Hky Hsw Hlx Hly. pose proof (ok_used x Hkx). pose proof (ok_used y Hky).
  unfold ttls_mpi_safe_cond_swap. rewrite (proj2 (Nat.eqb_neq X Y)) by done. cbv zeta.
  do 2 (mstep; mstep). rewrite (proj2 (Nat.ltb_ge _ _) Hlx), (proj2 (Nat.ltb_ge _ _) Hly). cbn [orb].
  rewrite swap_bit_spec by done. set (sw := negb (swap =? 0)).
  assert ((if swap =? 0 then 0 else 1) = Z.b2z sw) as -> by (subst sw; by destruct (swap =? 0)).
  mstep. eapply wp_set_s; [done |].
  mstep. eapply wp_set_s; [by rewrite obj_upd_ne |].
  rewrite (upd_comm Y X) by done.
  mstep. eapply wp_set_used; [apply obj_upd_eq |]. rewrite upd_upd.
  mstep. eapply wp_set_used; [rewrite obj_upd_ne by done; apply obj_upd_eq |].
  rewrite (upd_comm Y X), upd_upd by done. cbn [m_s m_used m_p].
  set (sx := m_s x * (1 - Z.b2z sw) + m_s y * Z.b2z sw). set (sy := m_s y * (1 - Z.b2z sw) + m_s x * Z.b2z sw).
  set (ux := Z.to_nat _). set (uy := Z.to_nat _). set (n := (m_used x `max` m_used y)%nat).
  set (x1 := MkMpi sx ux (m_p x)). set (y1 := MkMpi sy uy (m_p y)).
  assert (Hsel : sx = (if sw then m_s y else m_s x) /\ sy = (if sw then m_s x else m_s y) /\
    ux = (if sw then m_used y else m_used x) /\ uy = (if sw then m_used x else m_used y)).
  { subst sx sy ux uy. destruct sw; simpl Z.b2z; split_and!; lia. }
  destruct Hsel as (Esx & Esy & Eux & Euy).
  mstep. assert (Hst : upd X x1 (upd Y y1 st) = swap_state X Y x1 y1 st sw 0).
  { unfold swap_state. simpl. done. }
  rewrite Hst. eapply wp_mono.
  { apply (wp_for_up _ (fun i _ st' => st' = swap_state X Y x1 y1 st sw i)); [done |].
    intros j c ? Hj ->. apply (swap_limb_spec X Y x1 y1 st sw n); [done | apply Hkx | apply Hky
      | unfold m_limbs in *; simpl; lia | unfold m_limbs in *; simpl; lia | lia]. }
  intros ? ? ->. rewrite Nat.add_0_l. mstep. split; [done |]. unfold swap_state. cbn [m_p x1 y1].
  eexists _, _. split; [done |]. unfold with_p. cbn [m_s m_used x1 y1].
  assert (Hmk : forall s u (p q : list Z) m, mpi_ok m -> s = m_s m -> u = m_used m -> q = m_p m ->
    (u <= n)%nat -> (n <= length q)%nat -> limbs_ok p ->
    mpi_ok (MkMpi s u (take n q ++ drop n p)) /\ mval (MkMpi s u (take n q ++ drop n p)) = mval m).
  { intros s u p q m Hm -> -> -> Hun Hnq Hp. unfold mval. apply mpi_ok_intro.
    - apply Hm.
    - pose proof (ok_used m Hm). rewrite length_app, length_take. unfold m_limbs in *. lia.
    - apply limbs_ok_app. split; [apply limbs_ok_take, Hm | auto with tfw].
    - rewrite take_app_le by (rewrite length_take; lia). rewrite take_take, Nat.min_l by lia. done.
    - apply Hm.
    - apply Hm. }
  assert (Hlen : forall p q : list Z, (n <= length q)%nat -> (n <= length p)%nat -> length (take n q ++ drop n p) = length p).
  { intros p q H1 H2. rewrite length_app, length_take, length_drop. lia. }
  assert (Hn1 : (n <= length (m_p x))%nat /\ (n <= length (m_p y))%nat) by (unfold m_limbs in *; lia).
  destruct Hn1 as [Hn1 Hn2]. pose proof (ok_limbs x Hkx). pose proof (ok_limbs y Hky).
  destruct sw eqn:Esw; subst sw.
  - apply negb_true_iff in Esw. rewrite Esw.
    destruct (Hmk sx ux (m_p x) (m_p y) y) as [? ?]; [done.. | subst n; lia | done | done |].
    destruct (Hmk sy uy (m_p y) (m_p x) x) as [? ?]; [done.. | subst n; lia | done | done |].
    split_and!; [done | done | by apply Hlen | by apply Hlen | done | done].
  - apply negb_false_iff in Esw. rewrite Esw.
    destruct (Hmk sx ux (m_p x) (m_p x) x) as [? ?]; [done.. | subst n; lia | done | done |].
    destruct (Hmk sy uy (m_p y) (m_p y) y) as [? ?]; [done.. | subst n; lia | done | done |].
    split_and!; [done | done | by apply Hlen | by apply Hlen | done | done].
Qed.
(** ** Reading what was written *)

Lemma bytes_needed v n : 0 <= v < 256 ^ Z.of_nat n -> (fls64 v + 7) / 8 <= Z.of_nat n.
Proof.
  intros Hv. destruct (decide (v = 0)) as [->|Hne]; [change ((fls64 0 + 7) / 8) with 0; lia |].
  destruct (size_bounds v _ ltac:(lia) eq_refl) as [Hp [Hlo _]].
  set (k := (fls64 v + 7) / 8) in *. apply Z.nlt_ge. intros Hlt.
  assert (256 ^ Z.of_nat n <= 256 ^ (k - 1)) by (apply Z.pow_le_mono_r; lia). lia.
Qed.

(** C34: Numbers that are not negative and big-endian byte strings that are not empty correspond, where the
    target has room.  Reading a buffer and
    writing the number into a buffer of the same length gives the bytes back, leading zeros
    included; writing a number into a buffer that is long enough and reading the buffer
    gives its absolute value, the sign is not part of the coding; a buffer that is too short is refused with -ENOSPC and not
    written.  An empty buffer gives a number without a valid sign ([read_empty_sign] of MpiCalc). *)
Theorem mpi_binary_roundtrip X Y x y buf st :
  obj st !! X = Some x -> obj st !! Y = Some y -> mpi_ok x -> limbs_ok (m_p y) ->
  (forall i, is_u64 (junk st i)) -> bytes_ok buf -> buf <> [] -> (CHARS_TO_LIMBS (length buf) <= m_limbs y)%nat ->
  (forall out, length out = length buf ->
     exists st', (ttls_mpi_read_binary Y buf;;; ttls_mpi_write_binary Y out) st = Ok ((0, buf), st')) /\
  (mag x < 256 ^ Z.of_nat (length buf) ->
     exists m, (w <~ ttls_mpi_write_binary X buf;; ttls_mpi_read_binary Y w.2) st = Ok (tt, upd Y m st) /\
       mpi_ok m /\ mval m = mag x) /\
  (256 ^ Z.of_nat (length buf) <= mag x -> ttls_mpi_write_binary X buf st = Ok ((- ENOSPC, buf), st)).
Proof.
  intros HX HY Hok Hoy Hj Hb Hne Hroom. pose proof (mag_bounds x Hok) as Hx. split_and!.
  - intros out Hlen.
    assert (Hw : wp (ttls_mpi_read_binary Y buf;;; ttls_mpi_write_binary Y out) (fun r _ => r = (0, buf)) st).
    { mstep. eapply wp_mono; [apply (read_binary_spec Y y buf st); auto |].
      intros ? ? (m & -> & Hm & _ & Hv). pose proof (be_load_bounds buf Hb) as Hl.
      pose proof (mval_abs m Hm). eapply wp_mono; [apply (write_binary_spec Y m); [apply obj_upd_eq | done] |].
      intros r ? [-> ->]. pose proof (bytes_needed (mag m) (length buf) ltac:(lia)).
      rewrite (proj2 (Z.ltb_ge _ _)) by (rewrite Hlen; lia). f_equal. rewrite Hlen.
      replace (mag m) with (be_load buf) by lia. by apply be_bytes_load. }
    destruct (wp_ok _ _ _ Hw) as (r & st' & He & ->). by exists st'.
  - intros Hfit. pose proof (bytes_needed (mag x) (length buf) ltac:(lia)).
    assert (Hw : wp (w <~ ttls_mpi_write_binary X buf;; ttls_mpi_read_binary Y w.2)
      (fun _ st' => exists m, st' = upd Y m st /\ mpi_ok m /\ mval m = mag x) st).
    { mstep. eapply wp_mono; [by apply (write_binary_spec X x) |]. intros w ? [-> ->].
      rewrite (proj2 (Z.ltb_ge _ _)) by lia. simpl.
      eapply wp_mono.
      { apply (read_binary_spec Y y (be_bytes (length buf) (mag x)) st); try done.
        - apply be_bytes_ok.
        - intros E. apply (f_equal length) in E. rewrite length_be_bytes in E. by destruct buf.
        - rewrite length_be_bytes. by left. }
      intros ? ? (m & -> & Hm & _ & Hv). exists m. rewrite be_load_bytes in Hv by lia. done. }
    destruct (wp_ok _ _ _ Hw) as ([] & st' & He & m & -> & Hm). by exists m.
  - intros Hbig. destruct (size_bounds (mag x) _ ltac:(pose proof (pow256_pos (length buf)); lia) eq_refl) as [Hp [_ Hhi]].
    destruct (wp_ok _ _ _ (write_binary_spec X x buf st HX Hok)) as (r & st' & He & -> & ->).
    rewrite He, (proj2 (Z.ltb_lt _ _)); [done |]. apply Z.nle_gt. intros Hle.
    assert (256 ^ ((fls64 (mag x) + 7) / 8) <= 256 ^ Z.of_nat (length buf)) by (apply Z.pow_le_mono_r; lia). lia.
Qed.

Lemma mpi_binary_roundtrip_witness :
  let buf := [0; 18; 52; 86; 120; 154; 188; 222; 240; 1] in
  let st := MkMem (<[0%nat := mpi_of 2 2 (- (2 ^ 75 + 5))]> (<[1%nat := mpi_of 1 2 0]> ∅)) (fun _ => 99) in
  (forall out, length out = length buf ->
     exists st', (ttls_mpi_read_binary 1 buf;;; ttls_mpi_write_binary 1 out) st = Ok ((0, buf), st')) /\
  (exists m, (w <~ ttls_mpi_write_binary 0 buf;; ttls_mpi_read_binary 1 w.2) st = Ok (tt, upd 1 m st) /\
       mpi_ok m /\ mval m = 2 ^ 75 + 5).
Proof.
  intros buf st.
  destruct (mpi_binary_roundtrip 0 1 (mpi_of 2 2 (- (2 ^ 75 + 5))) (mpi_of 1 2 0) buf st) as (H1 & H2 & _);
    [reflexivity | reflexivity | mpi_ok_tac | apply limbs_ok_check; by vm_compute | by intros i; vm_compute; split
    | | done | vm_compute; lia |].
  - by apply bytes_okb.
  - split; [exact H1 |]. apply H2. by vm_compute.
Defined.
