(* ===== verification/MpiDiv.v ===== *)
(** * Big integers of the TLS library: division

    [ttls_int_div_int], [ttls_mpi_div_mpi] and [ttls_mpi_mod_mpi] of
    [tls/bignum.c]. *)

From S2P Require Import Prelude MpiMem Mpi.

(** ** Two limbs by one *)

Definition radix : Z := 2 ^ 32.

(** [while (q >= radix || q * d0 > radix * r0 + u)]: two rounds are enough. *)
Fixpoint qhat_loop (fuel : nat) (q r0 d1 d0 u : Z) : Z :=
  match fuel with
  | O => q
  | S fuel =>
      if (radix <=? q) || (u64 (radix * r0 + u) <? u64 (q * d0)) then
        let q := u64 (q - 1) in
        let r0 := u64 (r0 + d1) in
        if radix <=? r0 then q else qhat_loop fuel q r0 d1 d0 u
      else q
  end.

(** The quotient and, when [r] is not null, the remainder. *)
Definition ttls_int_div_int (u1 u0 d : Z) : Z * Z :=
  if (d =? 0) || (d <=? u1) then (2 ^ 64 - 1, 2 ^ 64 - 1)
  else
    let s := 64 - fls64 d in
    let d := u64 (Z.shiftl d s) in
    let u1 := u64 (Z.shiftl u1 s) in
    let u1 := Z.lor u1 (if s =? 0 then 0 else Z.shiftr u0 (64 - s)) in
    let u0 := u64 (Z.shiftl u0 s) in
    let d1 := Z.shiftr d 32 in
    let d0 := Z.land d (radix - 1) in
    let u0_msw := Z.shiftr u0 32 in
    let u0_lsw := Z.land u0 (radix - 1) in
    let q1 := u1 / d1 in
    let r0 := u64 (u1 - u64 (d1 * q1)) in
    let q1 := qhat_loop 2 q1 r0 d1 d0 u0_msw in
    let rAX := u64 (u64 (u1 * radix) + u64 (u0_msw - u64 (q1 * d))) in
    let q0 := rAX / d1 in
    let r0 := u64 (rAX - u64 (q0 * d1)) in
    let q0 := qhat_loop 2 q0 r0 d1 d0 u0_lsw in
    (u64 (u64 (q1 * radix) + q0),
     Z.shiftr (u64 (u64 (rAX * radix) + u0_lsw - u64 (q0 * d))) s).

(** ** Division *)

Definition opt_mpi (P : option nat) (f : nat -> MM unit) : MM unit :=
  match P with Some p => f p | None => sm_ret tt end.

(** [while (ttls_mpi_cmp_mpi(X, Y) >= 0)] of the first quotient limb. *)
Fixpoint div_top (fuel : nat) (X Y Q k : nat) : MM unit :=
  match fuel with
  | O => sm_bug
  | S fuel =>
      c <~ ttls_mpi_cmp_mpi X Y;;
      if c <? 0 then sm_ret tt
      else
        v <~ rd (MPI_P Q) k;; wr (MPI_P Q) k (u64 (v + 1));;;
        ttls_mpi_sub_mpi X X Y;;;
        div_top fuel X Y Q k
  end.

(** The [do ... while (ttls_mpi_cmp_mpi(T1, T2) > 0)] that corrects the guess. *)
Fixpoint div_guess (fuel : nat) (Y Q T1 T2 t j : nat) : MM unit :=
  match fuel with
  | O => sm_bug
  | S fuel =>
      v <~ rd (MPI_P Q) j;; wr (MPI_P Q) j (u64 (v - 1));;;
      set_s T1 1;;;
      set_used T1 2;;;
      y0 <~ (if (t <? 1)%nat then sm_ret 0 else rd (MPI_P Y) (t - 1));;
      wr (MPI_P T1) 0 y0;;;
      y1 <~ rd (MPI_P Y) t;; wr (MPI_P T1) 1 y1;;;
      mpi_fixup_used T1 2;;;
      q <~ rd (MPI_P Q) j;;
      ttls_mpi_mul_uint T1 T1 q;;;
      c <~ ttls_mpi_cmp_mpi T1 T2;;
      if 0 <? c then div_guess fuel Y Q T1 T2 t j else sm_ret tt
  end.

(** One quotient limb, at [j = i - t - 1]. *)
Definition div_step (X Y Q T1 T2 t i : nat) : MM unit :=
  let j := (i - t - 1)%nat in
  xi <~ rd (MPI_P X) i;; yt <~ rd (MPI_P Y) t;;
  q <~ (if yt <=? xi then sm_ret 0
        else x1 <~ rd (MPI_P X) (i - 1);;
             sm_ret (u64 ((ttls_int_div_int xi x1 yt).1 + 1)));;
  wr (MPI_P Q) j q;;;
  set_s T2 1;;;
  x2 <~ (if (i <? 2)%nat then sm_ret 0 else rd (MPI_P X) (i - 2));;
  wr (MPI_P T2) 0 x2;;;
  x1 <~ (if (i <? 1)%nat then sm_ret 0 else rd (MPI_P X) (i - 1));;
  wr (MPI_P T2) 1 x1;;;
  wr (MPI_P T2) 2 xi;;;
  mpi_fixup_used T2 3;;;
  div_guess 8 Y Q T1 T2 t j;;;
  q <~ rd (MPI_P Q) j;;
  ttls_mpi_mul_uint T1 Y q;;;
  (if (j =? 0)%nat then sm_ret tt else ttls_mpi_shift_l T1 T1 (64 * j));;;
  ttls_mpi_sub_mpi X X T1;;;
  c <~ ttls_mpi_cmp_int X 0;;
  if c <? 0 then
    ttls_mpi_copy T1 Y;;;
    (if (j =? 0)%nat then sm_ret tt else ttls_mpi_shift_l T1 T1 (64 * j));;;
    ttls_mpi_add_mpi X X T1;;;
    v <~ rd (MPI_P Q) j;; wr (MPI_P Q) j (u64 (v - 1))
  else sm_ret tt.

(** [for (i = n; i > t; i--)] *)
Fixpoint div_loop (m : nat) (X Y Q T1 T2 t : nat) : MM unit :=
  match m with
  | O => sm_ret tt
  | S m' => div_step X Y Q T1 T2 t (t + m);;; div_loop m' X Y Q T1 T2 t
  end.

(** From the copies [X], [Y] to the quotient in [Q] and the shifted remainder in
    [X]; returns the shift. *)
Definition div_main (X Y Q T1 T2 : nat) : MM nat :=
  bl <~ ttls_mpi_bitlen Y;;
  let k := Z.to_nat (Z.land bl 63) in
  let k := if (k <? 63)%nat then (63 - k)%nat else 0%nat in
  (if (0 <? k)%nat then ttls_mpi_shift_l X X k;;; ttls_mpi_shift_l Y Y k else sm_ret tt);;;
  x <~ mpi_get X;; y <~ mpi_get Y;;
  let n := (m_used x - 1)%nat in
  let t := (m_used y - 1)%nat in
  ttls_mpi_shift_l Y Y (64 * (n - t));;;
  div_top 5 X Y Q (n - t);;;
  ttls_mpi_shift_r Y (64 * (n - t));;;
  div_loop (n - t) X Y Q T1 T2 t;;;
  sm_ret k.

(** The case [|A| >= |B| > 0], [B <> 1]: the locals of the call, the division, the
    signs. *)
Definition div_large (Q R : option nat) (A B : nat) : MM unit :=
  a <~ mpi_get A;;
  X <~ mpi_new (m_used a + 1);;
  Y <~ mpi_new (m_used a + 2);;
  T1 <~ mpi_new (m_used a + 3);;
  T2 <~ mpi_new 3;;
  Z <~ (match Q with Some q => sm_ret q | None => mpi_new (m_used a) end);;
  ttls_mpi_copy_alloc X A false;;;
  ttls_mpi_copy_alloc Y B false;;;
  set_s Y 1;;; set_s X 1;;;
  opt_mpi Q (fun q => ttls_mpi_alloc q (m_used a));;;
  set_used Z (m_used a);;;
  bzero (MPI_P Z) (m_used a);;;
  k <~ div_main X Y Z T1 T2;;
  opt_mpi Q (fun q =>
    a <~ mpi_get A;; b <~ mpi_get B;;
    set_s q (m_s a * m_s b);;;
    mq <~ mpi_get q;; mpi_fixup_used q (m_used mq));;;
  opt_mpi R (fun r =>
    ttls_mpi_shift_r X k;;;
    mx <~ mpi_get X;; mpi_fixup_used X (m_used mx);;;
    a <~ mpi_get A;; set_s X (m_s a);;;
    ttls_mpi_copy r X;;;
    c <~ ttls_mpi_cmp_int r 0;;
    if c =? 0 then set_s r 1 else sm_ret tt);;;
  (match Q with Some _ => sm_ret tt | None => mpi_free Z end);;;
  mpi_free T2;;; mpi_free T1;;; mpi_free Y;;; mpi_free X.

Definition ttls_mpi_div_mpi (Q R : option nat) (A B : nat) : MM unit :=
  c <~ ttls_mpi_cmp_int B 0;;
  if c =? 0 then sm_ret tt
  else
  c <~ ttls_mpi_cmp_int B 1;;
  if c =? 0 then
    opt_mpi Q (fun q => if (q =? A)%nat then sm_ret tt else ttls_mpi_copy q A);;;
    opt_mpi R (fun r => ttls_mpi_lset r 0)
  else
  c <~ ttls_mpi_cmp_abs A B;;
  if c <? 0 then
    opt_mpi Q (fun q => ttls_mpi_lset q 0);;;
    opt_mpi R (fun r => if (r =? A)%nat then sm_ret tt else ttls_mpi_copy r A)
  else div_large Q R A B.

(** ** Remainder *)

(** [while (R->s < 0)] and [while (ttls_mpi_cmp_mpi(R, B) >= 0)]: at most one round
    of each after a division. *)
Fixpoint mod_up (fuel : nat) (R B : nat) : MM unit :=
  match fuel with
  | O => sm_bug
  | S fuel =>
      r <~ mpi_get R;;
      if m_s r <? 0 then ttls_mpi_add_mpi R R B;;; mod_up fuel R B else sm_ret tt
  end.

Fixpoint mod_down (fuel : nat) (R B : nat) : MM unit :=
  match fuel with
  | O => sm_bug
  | S fuel =>
      c <~ ttls_mpi_cmp_mpi R B;;
      if 0 <=? c then ttls_mpi_sub_mpi R R B;;; mod_down fuel R B else sm_ret tt
  end.

Definition ttls_mpi_mod_mpi (R A B : nat) : MM unit :=
  b <~ mpi_get B;;
  bug_on (m_s b <? 0);;;
  ttls_mpi_div_mpi None (Some R) A B;;;
  mod_up 2 R B;;;
  mod_down 2 R B.

(** ** Two limbs by one: the quotient and the remainder are exact *)

(** One 32-bit digit of the quotient: [(u1 * radix + u) / (d1 * radix + d0)]. *)
Lemma qhat_loop_spec fuel q r0 d1 d0 u1 u d :
  radix / 2 <= d1 < radix -> 0 <= d0 < radix -> 0 <= u < radix -> d = d1 * radix + d0 ->
  0 <= u1 < d -> 0 <= r0 < radix -> r0 = u1 - q * d1 -> 0 <= q ->
  (u1 * radix + u) / d <= q <= radix + 1 ->
  radix <= r0 + Z.of_nat fuel * d1 ->
  qhat_loop fuel q r0 d1 d0 u = (u1 * radix + u) / d.
Proof.
  unfold radix. change (2 ^ 32 / 2) with 2147483648. change (2 ^ 32) with 4294967296.
  intros Hd1 Hd0 Hu Ed. assert (Hd : 0 < d) by lia.
  revert q r0. induction fuel as [|fuel IH]; intros q r0 Hu1 Hr0 Er Hq Hqb Hf; [lia |].
  set (N := u1 * 4294967296 + u) in *.
  assert (HN : forall p, p * d <= N <-> p * d0 <= 4294967296 * (u1 - p * d1) + u) by (intros p; subst N d; lia).
  assert (Hlt : N / d < 4294967296) by (apply Z.div_lt_upper_bound; subst N; lia).
  assert (Hex : q * d <= N -> N / d = q).
  { intros Hle. assert (q <= N / d) by (apply Z.div_le_lower_bound; lia). lia. }
  assert (Hw1 : 0 <= 4294967296 * r0 + u < 2 ^ 64) by lia.
  assert (Hw2 : 0 <= q * d0 < 2 ^ 64) by nia.
  cbn [qhat_loop]. unfold radix. change (2 ^ 32) with 4294967296. rewrite !u64_small by done.
  destruct ((4294967296 <=? q) || (4294967296 * r0 + u <? q * d0)) eqn:E.
  - assert (Hnot : N / d <= q - 1).
    { apply orb_true_iff in E as [E%Z.leb_le|E%Z.ltb_lt]; [lia |].
      destruct (Z.eq_dec (N / d) q) as [Eq|]; [exfalso | lia].
      pose proof (Z.mul_div_le N d Hd). assert (q * d <= N) as Hle by lia.
      apply HN in Hle. rewrite <- Er in Hle. lia. }
    assert (Hq1 : 0 <= N / d) by (apply Z.div_pos; subst N; lia).
    rewrite (u64_small (q - 1)), (u64_small (r0 + d1)) by lia.
    destruct (Z.leb_spec 4294967296 (r0 + d1)) as [Hge|Hlt'].
    + assert (Hle : (q - 1) * d <= N).
      { apply HN. replace (u1 - (q - 1) * d1) with (r0 + d1) by lia. nia. }
      assert (q - 1 <= N / d) by (apply Z.div_le_lower_bound; lia). lia.
    + apply IH; [done | lia | lia | lia | lia | lia].
  - apply orb_false_iff in E as [_ E%Z.ltb_ge]. symmetry. apply Hex, HN. by rewrite <- Er.
Qed.

Lemma u64_add_sub a b c : u64 (u64 a + u64 (b - u64 c)) = u64 (a + b - c).
Proof.
  unfold u64. rewrite Zminus_mod_idemp_r, <- Zplus_mod. f_equal. lia.
Qed.

Lemma u64_sub_r a b : u64 (a - u64 b) = u64 (a - b).
Proof. unfold u64. apply Zminus_mod_idemp_r. Qed.

Lemma u64_add3 a b c : u64 (u64 a + b - u64 c) = u64 (a + b - c).
Proof.
  unfold u64. rewrite Zminus_mod_idemp_r. rewrite <- (Zminus_mod_idemp_l (_ + b)), Zplus_mod_idemp_l.
  by rewrite Zminus_mod_idemp_l.
Qed.

(** One digit and what is left: [D] is normalised, [U < D]. *)
Lemma quot_digit_spec U u D :
  2 ^ 63 <= D < 2 ^ 64 -> 0 <= U < D -> 0 <= u < radix ->
  let d1 := Z.shiftr D 32 in
  let d0 := Z.land D (radix - 1) in
  let q := qhat_loop 2 (U / d1) (u64 (U - u64 (U / d1 * d1))) d1 d0 u in
  q = (U * radix + u) / D /\ 0 <= q < radix.
Proof.
  intros HD HU Hu d1 d0. unfold radix in *. change (2 ^ 32) with 4294967296 in *.
  assert (Ed1 : d1 = D / 4294967296) by (subst d1; by rewrite Z.shiftr_div_pow2).
  assert (Ed0 : d0 = D mod 4294967296).
  { subst d0. change (4294967296 - 1) with (Z.ones 32). by rewrite Z.land_ones. }
  assert (Hd1 : 2147483648 <= d1 < 4294967296).
  { rewrite Ed1. split; [apply Z.div_le_lower_bound; lia | apply Z.div_lt_upper_bound; lia]. }
  pose proof (Z.mod_pos_bound D 4294967296 ltac:(lia)) as Hd0. rewrite <- Ed0 in Hd0.
  pose proof (Z.div_mod D 4294967296 ltac:(lia)) as Hdm. rewrite <- Ed1, <- Ed0 in Hdm.
  set (q := U / d1). pose proof (Z.div_mod U d1 ltac:(lia)) as Hq. fold q in Hq.
  pose proof (Z.mod_pos_bound U d1 ltac:(lia)) as Hr.
  assert (Hq0 : 0 <= q) by (apply Z.div_pos; lia).
  assert (Hqb : q <= 4294967296 + 1).
  { assert (q < 4294967296 + 2); [| lia]. apply Z.div_lt_upper_bound; lia. }
  assert (Er : u64 (U - u64 (q * d1)) = U mod d1).
  { rewrite u64_sub_r. rewrite u64_small; nia. }
  rewrite Er. cbv zeta.
  assert (E : qhat_loop 2 q (U mod d1) d1 d0 u = (U * 4294967296 + u) / D).
  { apply (qhat_loop_spec 2 q (U mod d1) d1 d0 U u D); unfold radix; change (2 ^ 32) with 4294967296; change (4294967296 / 2) with 2147483648; try lia.
    - split; [| lia]. transitivity ((U * 4294967296 + u) / (d1 * 4294967296)).
      + apply Z.div_le_compat_l; [lia |]. lia.
      + rewrite (Z.mul_comm d1), <- Z.div_div by lia.
        rewrite Z.div_add_l, (Z.div_small u), Z.add_0_r by lia. done.
    }
  rewrite E. split; [done |]. split; [apply Z.div_pos; lia | apply Z.div_lt_upper_bound; lia].
Qed.

(** The normalising shift of both operands. *)
Lemma div_norm u1 u0 d s :
  is_u64 u1 -> is_u64 u0 -> is_u64 d -> u1 < d -> s = 64 - fls64 d ->
  let D := u64 (Z.shiftl d s) in
  let U1 := Z.lor (u64 (Z.shiftl u1 s)) (if s =? 0 then 0 else Z.shiftr u0 (64 - s)) in
  let U0 := u64 (Z.shiftl u0 s) in
  0 <= s < 64 /\ D = d * 2 ^ s /\ 2 ^ 63 <= D < 2 ^ 64 /\ 0 <= U1 < D /\ is_u64 U0 /\
  U1 * 2 ^ 64 + U0 = (u1 * 2 ^ 64 + u0) * 2 ^ s.
Proof.
  intros H1 H0 Hd Hlt Es D U1 U0. unfold is_u64 in *.
  destruct (fls64_bounds d ltac:(lia)) as [Hf Hb].
  assert (Hf64 : fls64 d <= 64).
  { destruct (Z_le_gt_dec (fls64 d) 64); [done | exfalso].
    assert (2 ^ 64 <= 2 ^ (fls64 d - 1)) by (apply Z.pow_le_mono_r; lia). lia. }
  assert (Hs : 0 <= s < 64) by lia. pose proof (pow2_pos s ltac:(lia)) as Hp.
  assert (HD : 2 ^ 63 <= d * 2 ^ s < 2 ^ 64).
  { replace 63 with (fls64 d - 1 + s) by lia. replace 64 with (fls64 d + s) by lia.
    rewrite !Z.pow_add_r by lia. nia. }
  assert (ED : D = d * 2 ^ s) by (subst D; rewrite Z.shiftl_mul_pow2, u64_small; lia).
  assert (Eu1 : u64 (Z.shiftl u1 s) = u1 * 2 ^ s) by (rewrite Z.shiftl_mul_pow2, u64_small; nia).
  assert (Hhi : 0 <= Z.shiftr u0 (64 - s) < 2 ^ s) by (apply shr_bound; [done | unfold is_u64; lia]).
  assert (EU1 : U1 = u1 * 2 ^ s + Z.shiftr u0 (64 - s)).
  { subst U1. rewrite Eu1. destruct (Z.eqb_spec s 0) as [->|].
    - rewrite Z.lor_0_r. change (2 ^ 0) with 1 in Hhi |- *. lia.
    - rewrite Z.lor_comm, lor_low_high by lia. lia. }
  pose proof (shl_split u0 s Hs ltac:(unfold is_u64; lia)) as Hsp. fold U0 in Hsp.
  change BASE with (2 ^ 64) in Hsp.
  split_and!; try lia; try apply u64_range.
  rewrite EU1. nia.
Qed.

Lemma ttls_int_div_int_spec u1 u0 d :
  is_u64 u1 -> is_u64 u0 -> is_u64 d -> u1 < d ->
  ttls_int_div_int u1 u0 d = ((u1 * 2 ^ 64 + u0) / d, (u1 * 2 ^ 64 + u0) mod d).
Proof.
  intros H1 H0 Hd Hlt. unfold ttls_int_div_int.
  rewrite (proj2 (Z.eqb_neq d 0)), (proj2 (Z.leb_gt d u1)) by (unfold is_u64 in *; lia). cbn [orb].
  set (s := 64 - fls64 d).
  destruct (div_norm u1 u0 d s H1 H0 Hd Hlt eq_refl) as (Hs & ED & HD & HU1 & HU0 & HU).
  set (D := u64 (Z.shiftl d s)) in *. set (U0 := u64 (Z.shiftl u0 s)) in *.
  set (U1 := Z.lor _ _) in *. cbv zeta. rewrite (Z.mul_comm (Z.shiftr D 32) (U1 / _)).
  unfold is_u64 in HU0.
  assert (Hm : 0 <= Z.shiftr U0 32 < radix).
  { rewrite Z.shiftr_div_pow2 by lia. unfold radix.
    split; [apply Z.div_pos; lia | apply Z.div_lt_upper_bound; lia]. }
  assert (Hw : Z.land U0 (radix - 1) = U0 mod 2 ^ 32).
  { change (radix - 1) with (Z.ones 32). by rewrite Z.land_ones. }
  pose proof (Z.mod_pos_bound U0 (2 ^ 32) ltac:(lia)) as Hl. rewrite <- Hw in Hl.
  destruct (quot_digit_spec U1 (Z.shiftr U0 32) D HD HU1 Hm) as [Eq1 Hq1]. cbv zeta in Eq1, Hq1.
  set (q1 := qhat_loop 2 (U1 / Z.shiftr D 32) _ _ _ _) in *.
  set (N1 := U1 * radix + Z.shiftr U0 32) in *.
  pose proof (Z.div_mod N1 D ltac:(lia)) as Hdm1. rewrite <- Eq1 in Hdm1.
  pose proof (Z.mod_pos_bound N1 D ltac:(lia)) as Hr1.
  assert (ErAX : u64 (u64 (U1 * radix) + u64 (Z.shiftr U0 32 - u64 (q1 * D))) = N1 mod D).
  { rewrite u64_add_sub. fold N1. rewrite u64_small; lia. }
  rewrite ErAX. destruct (quot_digit_spec (N1 mod D) (Z.land U0 (radix - 1)) D HD Hr1 Hl) as [Eq0 Hq0].
  cbv zeta in Eq0, Hq0. set (q0 := qhat_loop 2 (N1 mod D / Z.shiftr D 32) _ _ _ _) in *.
  set (N0 := N1 mod D * radix + Z.land U0 (radix - 1)) in *.
  pose proof (Z.div_mod N0 D ltac:(lia)) as Hdm0. rewrite <- Eq0 in Hdm0.
  pose proof (Z.mod_pos_bound N0 D ltac:(lia)) as Hr0.
  assert (HU' : (u1 * 2 ^ 64 + u0) * 2 ^ s = (q1 * radix + q0) * D + N0 mod D).
  { rewrite <- HU. pose proof (Z.div_mod U0 (2 ^ 32) ltac:(lia)) as Hd32. rewrite <- Hw in Hd32.
    assert (Z.shiftr U0 32 = U0 / 2 ^ 32) as Esh by (by rewrite Z.shiftr_div_pow2).
    subst N0 N1. unfold radix in *. rewrite Esh in *. lia. }
  rewrite u64_add3. change (N1 mod D * radix + Z.land U0 (radix - 1)) with N0.
  rewrite (u64_small (N0 - q0 * D)) by lia.
  rewrite (u64_small (q1 * radix)), u64_small by (unfold radix in *; lia).
  pose proof (pow2_pos s ltac:(lia)) as Hp.
  assert (Hrem : N0 mod D = (u1 * 2 ^ 64 + u0) mod d * 2 ^ s /\ q1 * radix + q0 = (u1 * 2 ^ 64 + u0) / d).
  { assert (E1 : N0 mod D = ((u1 * 2 ^ 64 + u0) * 2 ^ s) mod D).
    { apply (Z.mod_unique _ _ (q1 * radix + q0)); lia. }
    assert (E2 : q1 * radix + q0 = ((u1 * 2 ^ 64 + u0) * 2 ^ s) / D).
    { apply (Z.div_unique _ _ _ (N0 mod D)); lia. }
    rewrite E1, E2, ED, Z.div_mul_cancel_r, Z.mul_mod_distr_r by lia. done. }
  destruct Hrem as [Er Eq]. rewrite Eq. f_equal.
  replace (N0 - q0 * D) with (N0 mod D) by lia. rewrite Er, Z.shiftr_div_pow2 by lia.
  apply Z.div_mul. lia.
Qed.

(** The division of two limbs by one with 32-bit digits is exact: for a divisor above the
    high limb the result is the quotient and the remainder of the 128-bit number, otherwise
    both are all ones, and the correction loops need no more than two rounds each. *)
Theorem mpi_int_div_exact u1 u0 d :
  is_u64 u1 -> is_u64 u0 -> is_u64 d ->
  ttls_int_div_int u1 u0 d =
    if u1 <? d then ((u1 * 2 ^ 64 + u0) / d, (u1 * 2 ^ 64 + u0) mod d) else (2 ^ 64 - 1, 2 ^ 64 - 1).
Proof.
  intros H1 H0 Hd. destruct (Z.ltb_spec u1 d) as [Hlt|Hge]; [by apply ttls_int_div_int_spec |].
  unfold ttls_int_div_int. by rewrite (proj2 (Z.leb_le d u1) Hge), orb_true_r.
Qed.

Lemma mpi_int_div_exact_witness :
  ttls_int_div_int 12345678901234567 (2 ^ 64 - 1) (2 ^ 63 + 11) =
    ((12345678901234567 * 2 ^ 64 + (2 ^ 64 - 1)) / (2 ^ 63 + 11), (12345678901234567 * 2 ^ 64 + (2 ^ 64 - 1)) mod (2 ^ 63 + 11)).
Proof.
  apply (mpi_int_div_exact 12345678901234567 (2 ^ 64 - 1) (2 ^ 63 + 11)); unfold is_u64; lia.
Defined.

(** ** A zero that was shifted

    [ttls_mpi_shift_l] of zero by whole limbs counts the limbs as used. *)

Lemma shift_l_zero_spec T x j st :
  obj st !! T = Some x -> mpi_ok x -> mag x = 0 -> (0 < j)%nat -> (j + 2 <= m_limbs x)%nat ->
  wp (ttls_mpi_shift_l T T (64 * j))
    (fun _ st' => exists m, st' = upd T m st /\ m_s m = 1 /\ m_used m = j /\ m_limbs m = m_limbs x /\
       limbs_ok (m_p m) /\ mag m = 0) st.
Proof.
  intros HT Hk Hz Hj Hl. pose proof (ok_used x Hk) as Hu.
  assert (E1 : m_used x = 1%nat).
  { destruct (ok_norm x Hk) as [|Hn]; [done |]. pose proof (bpow_pos (m_used x - 1)). lia. }
  assert (Hd : (64 * j / 64 = j)%nat) by (rewrite Nat.mul_comm; apply Nat.div_mul; lia).
  assert (Hm : (64 * j mod 64 = 0)%nat) by (rewrite Nat.mul_comm; apply Nat.Div0.mod_mul).
  unfold ttls_mpi_shift_l. mstep; mstep. rewrite (proj2 (Nat.eqb_neq (64 * j) 0)) by lia.
  rewrite E1. cbn [orb Nat.eqb]. cbv zeta. mstep; mstep. rewrite Hd, Hm.
  mstep. mstep. { apply Nat.ltb_ge. lia. }
  mstep. eapply wp_set_s; [done |].
  assert (MkMpi (m_s x) (m_used x) (m_p x) = x) as -> by (by destruct x). rewrite upd_same by done.
  mstep. eapply wp_mono; [by apply bitlen_spec |]. intros bl ? [-> ->]. rewrite Hz.
  change (fls64 0) with 0. assert (BITS_TO_LIMBS (0 + Z.of_nat (64 * j)) = j) as ->.
  { unfold BITS_TO_LIMBS. rewrite Z.shiftr_div_pow2 by lia. change (2 ^ 6) with 64.
    replace (0 + Z.of_nat (64 * j) + 63) with (63 + Z.of_nat j * 64) by lia.
    rewrite Z.div_add by lia. rewrite Z.div_small by lia. lia. }
  mstep. eapply wp_set_used; [done |]. rewrite (proj2 (Nat.ltb_lt 0 j)) by done.
  rewrite Nat.eqb_refl. change (true || (Z.of_nat 0 =? 0)) with true. cbv iota.
  mstep. mstep. mstep. eapply wp_memcopy; [apply obj_upd_eq | apply obj_upd_eq
    | unfold m_limbs in *; simpl; lia | unfold m_limbs in *; simpl; lia |].
  mstep. unfold spl. rewrite upd_upd. mstep.
  eapply wp_bzero; [apply obj_upd_eq | unfold m_limbs in *; simpl; rewrite length_inserts; lia |].
  mstep. unfold spl. rewrite upd_upd. change (0 <? Z.of_nat 0) with false. cbv iota. mstep.
  cbn [lp_off lp_obj padd MPI_P m_p Nat.add]. eexists. split; [done |].
  rewrite (ok_zero x Hk Hz). split_and!; [done | done | | |].
  - unfold m_limbs. simpl. by rewrite !length_inserts.
  - simpl. apply limbs_ok_inserts; [auto with tfw |]. apply limbs_ok_inserts; [| apply Hk].
    apply limbs_ok_take, limbs_ok_drop, Hk.
  - unfold mag. simpl. rewrite <- (length_replicate j 0) at 1.
    rewrite take_inserts_0 by (rewrite length_replicate, length_inserts; unfold m_limbs in *; lia).
    apply lval_replicate.
Qed.

(** Subtracting it leaves the value when it has no more limbs than [X]. *)
Lemma sub_zero_spec X T x z st :
  obj st !! X = Some x -> obj st !! T = Some z -> mpi_ok x -> m_s x = 1 -> 0 < mag x ->
  m_s z = 1 -> mag z = 0 -> (1 <= m_used z <= m_limbs z)%nat -> limbs_ok (m_p z) ->
  (m_used z <= m_used x)%nat ->
  wp (ttls_mpi_sub_mpi X X T)
    (fun _ => sres X x st (m_used x) (mval x)) st.
Proof.
  intros HX HT Hk Hs Hp Hsz Hz Huz Hpz Hle. pose proof (ok_used x Hk).
  unfold ttls_mpi_sub_mpi. do 2 (mstep; mstep). rewrite Hs, Hsz, Z.eqb_refl. unfold sub_signed.
  mstep. eapply (wp_mono _ (fun c st' => st' = st /\ 0 < c)).
  { unfold ttls_mpi_cmp_abs. do 2 (mstep; mstep).
    destruct (Nat.eqb_spec (m_used x) (m_used z)) as [E|]; cbn [negb].
    - mstep. eapply wp_mono; [apply (cmp_loop_spec X T x z); [done | done | apply Hk | done | lia | lia] |].
      intros r ? [-> Hr]. mstep. split; [done |].
      unfold mag in *. rewrite <- E in *. destruct r as [[]|]; lia.
    - mstep. split; [done | lia]. }
  intros c ? [-> Hc]. rewrite (proj2 (Z.eqb_neq c 0)), (proj2 (Z.ltb_lt 0 c)) by lia.
  mstep. eapply wp_mono; [apply (sub_abs_spec X X T x x z); try done; try apply Hk; lia |].
  intros ? ? (u & r & -> & Hlr & Hr & Hv & Hu & Hvu & Hn). rewrite Hz, Z.sub_0_r in Hv.
  eapply wp_set_s; [apply obj_upd_eq |]. rewrite upd_upd. simpl.
  assert (Hlp : (length r <= length (m_p x))%nat) by (unfold m_limbs in *; lia).
  destruct (mpi_ok_intro 1 u (list_inserts 0 r (m_p x)) (mag x)) as [Hok Hval].
  - by left.
  - rewrite length_inserts. lia.
  - apply limbs_ok_inserts; [done | apply Hk].
  - rewrite take_inserts_le by lia. lia.
  - destruct Hn; [by left | right; lia].
  - lia.
  - eexists. split_and!; [done | done | unfold m_limbs; simpl; apply length_inserts | |].
    + unfold mval in *. rewrite Hs in *. lia.
    + intros _ Ht. unfold mpi_clean, mag. simpl. rewrite take_inserts_le by lia.
      rewrite inserts_0, lval_app, Hvu, Hlr by done. lia.
Qed.

(** ** The guess for a quotient limb

    The three top limbs of [X] by the two top limbs of [Y] overestimate the limb by
    at most one; the first guess, two limbs by one, overestimates that by at most
    four when the top limb of [Y] has its 63rd bit set. *)

Definition top3 (X : Z) (i : nat) : Z := X * BASE * BASE / bpow i.
Definition top2 (Y : Z) (t : nat) : Z := Y * BASE / bpow t.
Definition guess3 (X Y : Z) (i t : nat) : Z := Z.min (BASE - 1) (top3 X i / top2 Y t).

Lemma top2_pos Y t : bpow t <= Y -> BASE <= top2 Y t /\ top2 Y t * bpow t <= Y * BASE < (top2 Y t + 1) * bpow t.
Proof.
  intros H. pose proof (bpow_pos t) as Hb. unfold top2. pose proof BASE_pos.
  pose proof (Z.div_mod (Y * BASE) (bpow t) ltac:(lia)). pose proof (Z.mod_pos_bound (Y * BASE) (bpow t) Hb).
  split; [apply Z.div_le_lower_bound; nia | nia].
Qed.

Lemma top3_bounds X i : 0 <= X -> 0 <= top3 X i /\ top3 X i * bpow i <= X * BASE * BASE < (top3 X i + 1) * bpow i.
Proof.
  intros H. pose proof (bpow_pos i) as Hb. unfold top3. pose proof BASE_pos.
  pose proof (Z.div_mod (X * BASE * BASE) (bpow i) ltac:(lia)).
  pose proof (Z.mod_pos_bound (X * BASE * BASE) (bpow i) Hb).
  split; [apply Z.div_pos; nia | nia].
Qed.

Lemma guess3_spec X Y t m :
  bpow t <= Y -> 0 <= X < Y * bpow (S m) ->
  let q := X / (Y * bpow m) in
  0 <= q <= guess3 X Y (t + S m) t /\ guess3 X Y (t + S m) t <= q + 1 /\
  0 <= guess3 X Y (t + S m) t < BASE.
Proof.
  intros HY HX q. pose proof (bpow_pos t) as Hbt. pose proof (bpow_pos m) as Hbm. pose proof BASE_pos as HB.
  destruct (top2_pos Y t HY) as [H2 H2b]. destruct (top3_bounds X (t + S m) ltac:(lia)) as [H3 H3b].
  set (y2 := top2 Y t) in *. set (x3 := top3 X (t + S m)) in *.
  rewrite bpow_S in HX. rewrite bpow_add, bpow_S in H3b.
  assert (Hq : q * (Y * bpow m) <= X < (q + 1) * (Y * bpow m)).
  { subst q. pose proof (Z.div_mod X (Y * bpow m) ltac:(nia)).
    pose proof (Z.mod_pos_bound X (Y * bpow m) ltac:(nia)). lia. }
  assert (Hq0 : 0 <= q) by (subst q; apply Z.div_pos; nia).
  assert (HqB : q < BASE) by (subst q; apply Z.div_lt_upper_bound; nia).
  assert (Hq3 : q <= x3 / y2).
  { apply Z.div_le_lower_bound; [lia |].
    assert (y2 * q * (bpow t * (BASE * bpow m)) <= X * BASE * BASE).
    { transitivity (Y * BASE * (q * (BASE * bpow m))).
      - replace (y2 * q * (bpow t * (BASE * bpow m))) with (y2 * bpow t * (q * (BASE * bpow m))) by ring.
        apply Z.mul_le_mono_nonneg_r; [| lia]. repeat apply Z.mul_nonneg_nonneg; lia.
      - replace (Y * BASE * (q * (BASE * bpow m))) with (q * (Y * bpow m) * (BASE * BASE)) by ring.
        replace (X * BASE * BASE) with (X * (BASE * BASE)) by ring.
        apply Z.mul_le_mono_nonneg_r; [nia | lia]. }
    assert (y2 * q * (bpow t * (BASE * bpow m)) < (x3 + 1) * (bpow t * (BASE * bpow m))) as Hlt by lia.
    apply Z.mul_lt_mono_pos_r in Hlt; nia. }
  unfold guess3. fold y2 x3. set (g := Z.min (BASE - 1) (x3 / y2)).
  assert (Hg : 0 <= g < BASE) by (subst g; lia). split; [lia |]. split; [| lia].
  assert (Hgy : g * y2 <= x3).
  { transitivity (x3 / y2 * y2); [apply Z.mul_le_mono_nonneg_r; lia |].
    rewrite Z.mul_comm. apply Z.mul_div_le. lia. }
  assert (Hub : g * (Y * bpow m) < X + Y * bpow m); [| nia].
  (* scale by [BASE * BASE] *)
  apply (Z.mul_lt_mono_pos_r (BASE * BASE)); [nia |].
  set (e := bpow t * (BASE * bpow m)) in *. assert (0 < e) by (subst e; nia).
  assert (g * (Y * BASE) * (BASE * bpow m) <= g * ((y2 + 1) * bpow t) * (BASE * bpow m)).
  { apply Z.mul_le_mono_nonneg_r; [nia |]. apply Z.mul_le_mono_nonneg_l; lia. }
  assert (g * ((y2 + 1) * bpow t) * (BASE * bpow m) = g * y2 * e + g * e) by (subst e; ring).
  assert (g * y2 * e <= x3 * e) by (apply Z.mul_le_mono_nonneg_r; lia).
  assert (g * e < Y * bpow m * (BASE * BASE)).
  { assert (g * e < BASE * e) by (apply Z.mul_lt_mono_pos_r; lia).
    assert (BASE * e <= Y * bpow m * (BASE * BASE)); [| lia].
    subst e. replace (BASE * (bpow t * (BASE * bpow m))) with (bpow t * (bpow m * (BASE * BASE))) by ring.
    replace (Y * bpow m * (BASE * BASE)) with (Y * (bpow m * (BASE * BASE))) by ring.
    apply Z.mul_le_mono_nonneg_r; [nia | lia]. }
  replace (g * (Y * bpow m) * (BASE * BASE)) with (g * (Y * BASE) * (BASE * bpow m)) by ring.
  replace ((X + Y * bpow m) * (BASE * BASE)) with (X * BASE * BASE + Y * bpow m * (BASE * BASE)) by ring. lia.
Qed.

(** [q] of the first guess. *)
Definition guess0 (x2 x1 yt : Z) : Z := if yt <=? x2 then BASE - 1 else (x2 * BASE + x1) / yt.

Lemma guess0_spec x0 x1 x2 y0 yt x3 y2 :
  is_u64 x0 -> is_u64 x1 -> is_u64 x2 -> is_u64 y0 -> is_u64 yt -> BASE <= 4 * yt ->
  x3 = x0 + BASE * x1 + BASE * BASE * x2 -> y2 = y0 + BASE * yt -> x3 < (y2 + 1) * BASE ->
  let q3 := Z.min (BASE - 1) (x3 / y2) in
  q3 <= guess0 x2 x1 yt <= q3 + 4 /\ 0 <= guess0 x2 x1 yt < BASE.
Proof.
  intros H0%u64_lt H1%u64_lt H2%u64_lt Hy0%u64_lt Hyt%u64_lt Hn E3 E2 Hlt q3.
  pose proof BASE_pos as HB. assert (Hx3 : 0 <= x3) by nia. assert (Hy2 : 0 < y2) by nia.
  assert (Hq3 : 0 <= x3 / y2) by (apply Z.div_pos; lia).
  assert (Hlow : forall g, 4 <= g < BASE -> (g - 4) * y2 <= x3 -> g <= q3 + 4).
  { intros g Hg Hle. assert (g - 4 <= x3 / y2) by (apply Z.div_le_lower_bound; lia). subst q3. lia. }
  unfold guess0. destruct (Z.leb_spec yt x2) as [Hge|Hl].
  - assert (x2 = yt) as -> by nia. split; [| lia]. split; [subst q3; lia |].
    destruct (Z_lt_ge_dec (BASE - 1) 4); [subst q3; lia |]. apply Hlow; [lia |]. nia.
  - set (g := (x2 * BASE + x1) / yt).
    assert (Hg : g * yt <= x2 * BASE + x1) by (subst g; rewrite Z.mul_comm; apply Z.mul_div_le; lia).
    assert (Hg0 : 0 <= g) by (subst g; apply Z.div_pos; nia).
    assert (HgB : g < BASE) by (subst g; apply Z.div_lt_upper_bound; nia).
    split; [| lia]. split.
    + assert (x3 / y2 <= g); [| subst q3; lia].
      transitivity (x3 / (BASE * yt)); [apply Z.div_le_compat_l; nia |].
      rewrite <- Z.div_div by lia. apply Z.eq_le_incl. subst g. f_equal.
      rewrite E3. replace (x0 + BASE * x1 + BASE * BASE * x2) with ((x2 * BASE + x1) * BASE + x0) by ring.
      rewrite Z.div_add_l, Z.div_small by lia. lia.
    + destruct (Z_lt_ge_dec g 4); [subst q3; lia |]. apply Hlow; [lia |]. nia.
Qed.

Lemma top3_limbs l i x0 x1 x2 :
  limbs_ok l -> (1 <= i)%nat -> l !! i = Some x2 -> l !! (i - 1)%nat = Some x1 ->
  (if (i <? 2)%nat then x0 = 0 else l !! (i - 2)%nat = Some x0) -> lval l < bpow (S i) ->
  top3 (lval l) i = x0 + BASE * x1 + BASE * BASE * x2.
Proof.
  intros Hok Hi H2 H1 H0 Hlt. pose proof BASE_pos. apply lookup_lt_Some in H2 as Hlen.
  rewrite <- (lval_take_fits l (S i)) by (done || lia).
  rewrite (lval_take_S _ _ _ H2). destruct i as [|i]; [lia |].
  replace (S i - 1)%nat with i in H1 by lia. rewrite (lval_take_S _ _ _ H1). unfold top3.
  destruct i as [|i].
  - simpl in H0. subst x0. simpl. rewrite bpow_1, bpow_0.
    symmetry. apply Z.div_unique_exact; [lia |]. ring.
  - change (S (S i) <? 2)%nat with false in H0. replace (S (S i) - 2)%nat with i in H0 by lia.
    rewrite (lval_take_S _ _ _ H0), !bpow_S.
    pose proof (lval_bounds (take i l) ltac:(auto with tfw)) as Hb.
    rewrite length_take_le in Hb by lia. pose proof (bpow_pos i).
    symmetry. apply (Z.div_unique _ _ _ (lval (take i l) * BASE * BASE)); [left; nia |]. ring.
Qed.

Lemma top2_limbs l t y0 yt :
  limbs_ok l -> length l = S t -> l !! t = Some yt ->
  (if (t <? 1)%nat then y0 = 0 else l !! (t - 1)%nat = Some y0) ->
  top2 (lval l) t = y0 + BASE * yt.
Proof.
  intros Hok Hlen Ht H0. pose proof BASE_pos. rewrite <- (take_ge l (S t)) by lia.
  rewrite (lval_take_S _ _ _ Ht). unfold top2. destruct t as [|t].
  - simpl in H0. subst y0. simpl. rewrite bpow_0. rewrite Z.div_1_r. lia.
  - change (S t <? 1)%nat with false in H0. replace (S t - 1)%nat with t in H0 by lia.
    rewrite (lval_take_S _ _ _ H0), !bpow_S.
    pose proof (lval_bounds (take t l) ltac:(auto with tfw)) as Hb.
    rewrite length_take_le in Hb by lia. pose proof (bpow_pos t).
    symmetry. apply (Z.div_unique _ _ _ (lval (take t l) * BASE)); [left; nia |]. ring.
Qed.

Lemma top3_lt X Y t m :
  bpow t <= Y -> 0 <= X < Y * bpow m -> top3 X (t + m) < (top2 Y t + 1) * BASE.
Proof.
  intros HY HX. destruct (top2_pos Y t HY) as [_ H2]. destruct (top3_bounds X (t + m) ltac:(lia)) as [_ H3].
  pose proof (bpow_pos t). pose proof (bpow_pos m). pose proof BASE_pos. rewrite bpow_add in H3.
  apply (Z.mul_lt_mono_pos_r (bpow t * bpow m)); [nia |].
  assert (X * BASE * BASE < Y * bpow m * BASE * BASE) by nia.
  assert (Y * BASE * (bpow m * BASE) <= (top2 Y t + 1) * bpow t * (bpow m * BASE)).
  { apply Z.mul_le_mono_nonneg_r; nia. }
  lia.
Qed.

Lemma wp_seq3 {S A B C D} (m : SM S A) (k : SM S B) (l : SM S C) (n : SM S D) P s :
  wp (m ;;; k ;;; l) (fun _ => wp n P) s -> wp (m ;;; k ;;; l ;;; n) P s.
Proof.
  unfold wp, sm_bind. destruct (m s) as [[a s1]|]; [| done]. destruct (k s1) as [[b s2]|]; [| done].
  by destruct (l s2) as [[c s3]|].
Qed.

(** ** The working set of a division *)

Section DivState.
Context (X Y Q T1 T2 : nat).
Hypothesis Hdis : NoDup [X; Y; Q; T1; T2].

Record dst (st0 st : MpiMem) (x y q t1 t2 : TlsMpi) : Prop := {
  dst_X : obj st !! X = Some x;
  dst_Y : obj st !! Y = Some y;
  dst_Q : obj st !! Q = Some q;
  dst_T1 : obj st !! T1 = Some t1;
  dst_T2 : obj st !! T2 = Some t2;
  dst_frame : forall Z, Z ∉ [X; Y; Q; T1; T2] -> obj st !! Z = obj st0 !! Z;
  dst_junk : junk st = junk st0
}.

Lemma dst_distinct : X <> Y /\ X <> Q /\ X <> T1 /\ X <> T2 /\ Y <> Q /\ Y <> T1 /\ Y <> T2 /\
  Q <> T1 /\ Q <> T2 /\ T1 <> T2.
Proof.
  clear -Hdis. rewrite !NoDup_cons in Hdis. destruct Hdis as (H1 & H2 & H3 & H4 & _).
  set_unfold. naive_solver.
Qed.

Ltac dst_tac := intros [HX HY HQ HT1 HT2 Hf Hj];
  destruct dst_distinct as (? & ? & ? & ? & ? & ? & ? & ? & ? & ?); constructor;
  first [ apply obj_upd_eq | rewrite obj_upd_ne by congruence; assumption
        | intros Z HZ; rewrite obj_upd_ne by (intros ->; apply HZ; set_solver); by apply Hf | done ].

Lemma dst_set_X st0 st x y q t1 t2 x' : dst st0 st x y q t1 t2 -> dst st0 (upd X x' st) x' y q t1 t2.
Proof. dst_tac. Qed.
Lemma dst_set_Y st0 st x y q t1 t2 y' : dst st0 st x y q t1 t2 -> dst st0 (upd Y y' st) x y' q t1 t2.
Proof. dst_tac. Qed.
Lemma dst_set_Q st0 st x y q t1 t2 q' : dst st0 st x y q t1 t2 -> dst st0 (upd Q q' st) x y q' t1 t2.
Proof. dst_tac. Qed.
Lemma dst_set_T1 st0 st x y q t1 t2 t' : dst st0 st x y q t1 t2 -> dst st0 (upd T1 t' st) x y q t' t2.
Proof. dst_tac. Qed.
Lemma dst_set_T2 st0 st x y q t1 t2 t' : dst st0 st x y q t1 t2 -> dst st0 (upd T2 t' st) x y q t1 t'.
Proof. dst_tac. Qed.

(** ** Correcting the guess *)

Lemma div_guess_spec st0 fuel st x y q t1 t2 t j g y0 yt :
  dst st0 st x y q t1 t2 ->
  m_p y !! t = Some yt -> (if (t <? 1)%nat then y0 = 0 else m_p y !! (t - 1)%nat = Some y0) ->
  is_u64 y0 -> is_u64 yt -> 0 < yt -> mpi_ok t2 -> m_s t2 = 1 ->
  limbs_ok (m_p t1) -> (3 <= m_limbs t1)%nat ->
  m_p q !! j = Some (u64 (g + 1)) -> 0 <= g < BASE ->
  let q3 := Z.min (BASE - 1) (mag t2 / (y0 + BASE * yt)) in
  q3 <= g -> g - q3 < Z.of_nat fuel ->
  wp (div_guess fuel Y Q T1 T2 t j)
    (fun _ st' => exists t1', dst st0 st' x y (with_p q (<[j := q3]> (m_p q))) t1' t2 /\
       limbs_ok (m_p t1') /\ m_limbs t1' = m_limbs t1) st.
Proof.
  intros Hd Ht H0 Hu0 Hut Hpt Hok2 Hs2 Hok1 Hl1 Hq Hg q3. pose proof BASE_pos as HB.
  revert st q t1 g Hd Hok1 Hl1 Hq Hg.
  induction fuel as [|fuel IH]; intros st q t1 g Hd Hok1 Hl1 Hq Hg Hle Hf; [lia |].
  cbn [div_guess]. apply u64_lt in Hu0 as Hu0', Hut as Hut'.
  mstep. eapply wp_rd; [apply (dst_Q _ _ _ _ _ _ _ Hd) | exact Hq |].
  assert (Eg : u64 (u64 (g + 1) - 1) = g).
  { rewrite <- (u64_small g) at 2 by done. unfold u64. rewrite Zminus_mod_idemp_l. f_equal. lia. }
  rewrite Eg. mstep. eapply wp_wr; [apply (dst_Q _ _ _ _ _ _ _ Hd) | by apply lookup_lt_Some in Hq |].
  cbn [lp_obj lp_off MPI_P Nat.add]. set (q1 := with_p q (<[j := g]> (m_p q))).
  pose proof (dst_set_Q _ _ _ _ _ _ _ q1 Hd) as Hd1. set (st1 := upd Q q1 st) in *.
  mstep. eapply wp_set_s; [apply (dst_T1 _ _ _ _ _ _ _ Hd1) |].
  mstep. eapply wp_set_used; [apply obj_upd_eq |]. rewrite upd_upd. cbn [m_s m_p].
  assert (exists p0 p1 p, m_p t1 = p0 :: p1 :: p) as (p0 & p1 & p & Ep).
  { unfold m_limbs in Hl1. destruct (m_p t1) as [|p0 [|p1 p]]; simpl in Hl1; [lia | lia |]. eauto. }
  rewrite Ep. pose proof (dst_set_T1 _ _ _ _ _ _ _ (MkMpi 1 2 (p0 :: p1 :: p)) Hd1) as Hd2.
  mstep. eapply (wp_mono _ (fun v st' => st' = _ /\ v = y0)).
  { destruct (t <? 1)%nat eqn:Et; [mstep; by subst y0 |].
    eapply wp_rd; [apply (dst_Y _ _ _ _ _ _ _ Hd2) | exact H0 | done]. }
  intros ? ? [-> ->]. mstep. eapply wp_wr; [apply obj_upd_eq | unfold m_limbs; simpl; lia |].
  cbn [lp_obj lp_off MPI_P Nat.add with_p m_s m_used m_p]. rewrite upd_upd.
  change (<[0%nat:=y0]> (p0 :: p1 :: p)) with (y0 :: p1 :: p).
  mstep. eapply wp_rd; [| exact Ht |].
  { cbn [lp_obj MPI_P]. rewrite obj_upd_ne by (apply not_eq_sym, dst_distinct). apply (dst_Y _ _ _ _ _ _ _ Hd1). }
  mstep. eapply wp_wr; [apply obj_upd_eq | unfold m_limbs; simpl; lia |].
  cbn [lp_obj lp_off MPI_P Nat.add with_p m_s m_used m_p]. rewrite upd_upd.
  change (<[1%nat:=yt]> (y0 :: p1 :: p)) with (y0 :: yt :: p).
  assert (Hokp : limbs_ok (y0 :: yt :: p)).
  { rewrite Ep in Hok1. inversion Hok1 as [|? ? _ Hk1]; subst. inversion Hk1; subst. constructor; [done |]. by constructor. }
  mstep. eapply wp_fixup; [apply obj_upd_eq | unfold m_limbs; simpl; lia | exact Hokp |].
  cbn [m_p m_s with_p]. intros u Hu Hval Hn. rewrite upd_upd.
  assert (E2 : lval (take 2 (y0 :: yt :: p)) = y0 + BASE * yt) by (simpl; lia). rewrite E2 in Hval, Hn.
  destruct (mpi_ok_intro 1 u (y0 :: yt :: p) (y0 + BASE * yt)) as [Hokt Hvt];
    [by left | simpl; lia | done | done | done | done |].
  set (ta := MkMpi 1 u (y0 :: yt :: p)) in *.
  pose proof (dst_set_T1 _ _ _ _ _ _ _ ta Hd1) as Hd3.
  assert (Hlt : m_limbs ta = m_limbs t1) by (unfold m_limbs; by rewrite Ep).
  mstep. eapply wp_rd; [apply (dst_Q _ _ _ _ _ _ _ Hd3) | |].
  { cbn [lp_off MPI_P Nat.add with_p m_p q1]. apply list_lookup_insert_eq. by apply lookup_lt_Some in Hq. }
  mstep. eapply wp_mono.
  { apply (mul_uint_spec T1 T1 ta ta g); [apply obj_upd_eq | apply obj_upd_eq | done | done | done |].
    rewrite Hlt. cbn [m_used ta]. lia. }
  intros ? ? (t1' & -> & Hok' & Hl' & Hv'). rewrite upd_upd. rewrite Hvt in Hv'.
  pose proof (dst_set_T1 _ _ _ _ _ _ _ t1' Hd1) as Hd4.
  mstep. eapply wp_mono.
  { apply (cmp_mpi_spec T1 T2 t1' t2); [apply obj_upd_eq | apply (dst_T2 _ _ _ _ _ _ _ Hd4) | done | done]. }
  intros c ? [-> Hc]. assert (Hm2 : mval t2 = mag t2) by (unfold mval; rewrite Hs2; lia).
  rewrite Hv', Hm2 in Hc. pose proof (mag_bounds t2 Hok2) as Hb2.
  assert (Hy2 : 0 < y0 + BASE * yt) by nia.
  destruct (Z.ltb_spec 0 c) as [Hpos|Hneg].
  - assert (Hgt : mag t2 / (y0 + BASE * yt) < g) by (apply Z.div_lt_upper_bound; lia).
    eapply wp_mono.
    { apply (IH _ q1 t1' (g - 1)); [exact Hd4 | apply Hok' | lia | | lia | subst q3; lia | lia].
      cbn [with_p m_p q1]. rewrite list_lookup_insert_eq by (by apply lookup_lt_Some in Hq).
      f_equal. rewrite Z.sub_add, u64_small; done. }
    intros ? ? (t'' & Hd' & Hk' & Hl''). exists t''.
    split_and!; [| done | lia]. cbn [with_p m_p q1] in Hd'. by rewrite list_insert_insert_eq in Hd'.
  - mstep. assert (g = q3) as <-.
    { assert (g <= mag t2 / (y0 + BASE * yt)) by (apply Z.div_le_lower_bound; lia). subst q3. lia. }
    exists t1'. split_and!; [exact Hd4 | apply Hok' | lia].
Qed.

(** The divisor during the division: positive, with bit 62 of its top limb set. *)
Record divisor (y : TlsMpi) (t : nat) : Prop := {
  dv_ok : mpi_ok y;
  dv_s : m_s y = 1;
  dv_used : m_used y = S t;
  dv_top : bpow t * BASE <= 4 * mag y
}.

Lemma divisor_mag y t : divisor y t -> bpow t <= mag y < bpow (S t) /\ mval y = mag y.
Proof.
  intros [Hok Hs Hu Ht]. pose proof (mag_bounds y Hok). rewrite Hu in *.
  split; [| unfold mval; rewrite Hs; lia]. destruct (ok_norm y Hok) as [E|Hn].
  - assert (t = 0%nat) as -> by lia. rewrite bpow_0 in *. pose proof BASE_pos. lia.
  - rewrite Hu in Hn. replace (S t - 1)%nat with t in Hn by lia. lia.
Qed.

Lemma clean_drop m n : mpi_ok m -> mpi_clean m -> (m_used m <= n)%nat -> lval (drop n (m_p m)) = 0.
Proof.
  intros Hok Hc Hn. unfold mpi_clean, mag in Hc. pose proof (ok_used m Hok).
  assert (Hs : lval (m_p m) = lval (take (m_used m) (m_p m)) + bpow (m_used m) * lval (drop (m_used m) (m_p m))).
  { rewrite <- (take_drop (m_used m) (m_p m)) at 1. rewrite lval_app, length_take_le; [done |].
    unfold m_limbs in *. lia. }
  pose proof (bpow_pos (m_used m)). assert (Hz : lval (drop (m_used m) (m_p m)) = 0) by nia.
  replace n with (m_used m + (n - m_used m))%nat by lia. rewrite <- drop_drop.
  set (d := drop (m_used m) (m_p m)) in *. assert (Hd : limbs_ok d) by (apply limbs_ok_drop, Hok).
  set (k := (n - m_used m)%nat).
  assert (He : lval d = lval (take k d) + bpow (length (take k d)) * lval (drop k d))
    by (rewrite <- lval_app, take_drop; done).
  pose proof (lval_nonneg (take k d) ltac:(auto with tfw)).
  pose proof (lval_nonneg (drop k d) ltac:(auto with tfw)). pose proof (bpow_pos (length (take k d))). nia.
Qed.

Lemma mag_of_mval m v : mpi_ok m -> mval m = v -> 0 <= v -> m_s m = 1 /\ mag m = v.
Proof.
  intros Hok Hv Hn. pose proof (mval_sgn m Hok) as [_ Hneg]. pose proof (mval_abs m Hok).
  destruct (ok_sign m Hok) as [E|E]; [| specialize (Hneg E); lia]. split; [done |]. lia.
Qed.

(** [T1 = T1 << 64 * j] of a positive number. *)
Lemma shift_T1 st t1 j :
  obj st !! T1 = Some t1 -> mpi_ok t1 -> 0 < mag t1 -> (m_used t1 + j + 1 <= m_limbs t1)%nat ->
  wp (if (j =? 0)%nat then sm_ret tt else ttls_mpi_shift_l T1 T1 (64 * j))
    (fun _ => mres T1 (m_limbs t1) (mval t1 * bpow j) st) st.
Proof.
  intros H1 Hok Hp Hl. destruct (Nat.eqb_spec j 0) as [->|Hj].
  - mstep. exists t1. rewrite upd_same, bpow_0, Z.mul_1_r by done. done.
  - assert (Hd : (64 * j / 64 = j)%nat) by (rewrite Nat.mul_comm; apply Nat.div_mul; lia).
    eapply wp_mono; [apply (shift_l_spec T1 T1 t1 t1 st (64 * j)); try done; try apply Hok; lia |].
    intros ? ? Hr%sres_mres. rewrite bpow_pow2.
    by replace (64 * Z.of_nat j) with (Z.of_nat (64 * j)) by lia.
Qed.

(** [T1 = Y * q << 64 * j]: an MPI, or a zero with up to [j] limbs in use. *)
Definition row (t1 : TlsMpi) (q yv : Z) (j : nat) : Prop :=
  limbs_ok (m_p t1) /\
  ((0 < q /\ mpi_ok t1 /\ mval t1 = q * yv * bpow j) \/
   (q = 0 /\ m_s t1 = 1 /\ mag t1 = 0 /\ (1 <= m_used t1 <= m_limbs t1)%nat /\ (m_used t1 <= 1 `max` j)%nat)).

Lemma row_spec st0 st x y q t1 t2 t j v :
  dst st0 st x y q t1 t2 -> divisor y t -> is_u64 v -> limbs_ok (m_p t1) -> (t + j + 3 <= m_limbs t1)%nat ->
  wp (ttls_mpi_mul_uint T1 Y v;;;
      (if (j =? 0)%nat then sm_ret tt else ttls_mpi_shift_l T1 T1 (64 * j)))
    (fun _ st' => exists t1', dst st0 st' x y q t1' t2 /\ m_limbs t1' = m_limbs t1 /\ row t1' v (mag y) j) st.
Proof.
  intros Hd Hdv Hv Hok1 Hl. destruct (divisor_mag y t Hdv) as [Hmy Hvy].
  pose proof (dv_used y t Hdv) as Hu. pose proof (bpow_pos t).
  mstep. eapply wp_mono.
  { apply (mul_uint_spec T1 Y t1 y v); [apply (dst_T1 _ _ _ _ _ _ _ Hd) | apply (dst_Y _ _ _ _ _ _ _ Hd)
      | done | apply (dv_ok y t Hdv) | done | lia]. }
  intros ? ? (ta & -> & Hok & Hla & Hva). rewrite Hvy in Hva.
  apply (dst_set_T1 _ _ _ _ _ _ _ ta) in Hd as Hd1. apply u64_lt in Hv as Hv'.
  destruct (Z.eq_dec v 0) as [->|Hn].
  - destruct (mag_of_mval ta 0 Hok) as [Hs Hz]; [lia | lia |].
    assert (Hu1 : m_used ta = 1%nat).
    { destruct (ok_norm ta Hok) as [|Hge]; [done |]. pose proof (bpow_pos (m_used ta - 1)). lia. }
    destruct (Nat.eqb_spec j 0) as [->|Hj].
    + mstep. exists ta. split; [done |]. split; [done |]. split; [apply Hok |]. right.
      pose proof (ok_used ta Hok). split_and!; try done; lia.
    + eapply wp_mono; [apply (shift_l_zero_spec T1 ta j); [apply obj_upd_eq | done | done | lia | lia] |].
      intros ? ? (tb & -> & Hsb & Hub & Hlb & Hkb & Hmb). rewrite upd_upd. exists tb.
      split; [by apply (dst_set_T1 _ _ _ _ _ _ _ tb) in Hd |]. split; [lia |]. split; [done |]. right.
      split_and!; [done | done | done | lia | lia | lia].
  - assert (Hpos : 0 < mag y * v) by nia.
    destruct (mag_of_mval ta (mag y * v) Hok Hva ltac:(lia)) as [Hs Hm].
    assert (Hua : (m_used ta <= t + 2)%nat).
    { apply mag_fits; [done | | lia]. rewrite Hm. replace (t + 2)%nat with (S t + 1)%nat by lia.
      rewrite bpow_add, bpow_1. nia. }
    eapply wp_mono; [apply (shift_T1 _ ta j); [apply obj_upd_eq | done | lia | lia] |].
    intros ? ? (tb & -> & Hokb & Hlb & Hvb). rewrite upd_upd. exists tb.
    split; [by apply (dst_set_T1 _ _ _ _ _ _ _ tb) in Hd |]. split; [lia |]. split; [apply Hokb |]. left.
    split_and!; [lia | done |]. rewrite Hvb, Hva. lia.
Qed.

(** The part of [X] that is left, negative when the guess was one too large. *)
Lemma sub_row st0 st x y q t1 t2 t j g :
  dst st0 st x y q t1 t2 -> divisor y t -> row t1 g (mag y) j -> g < BASE ->
  mpi_ok x -> m_s x = 1 -> mpi_clean x -> 0 < mag x -> bpow (j - 1) <= mag x ->
  (t + S j < m_limbs x)%nat ->
  wp (ttls_mpi_sub_mpi X X T1)
    (fun _ st' => exists x', dst st0 st' x' y q t1 t2 /\ mpi_ok x' /\ m_limbs x' = m_limbs x /\
       mval x' = mag x - g * mag y * bpow j /\ (mval x' <> 0 -> mpi_clean x')) st.
Proof.
  intros Hd Hdv [Hok1 Hrow] Hg Hok Hs Hc Hp Hge Hl. destruct (divisor_mag y t Hdv) as [Hmy Hvy].
  pose proof (ok_used x Hok). assert (Hvx : mval x = mag x) by (unfold mval; rewrite Hs; lia).
  pose proof (dst_X _ _ _ _ _ _ _ Hd) as HX. pose proof (dst_T1 _ _ _ _ _ _ _ Hd) as HT1.
  destruct Hrow as [(Hg0 & Hokt & Hvt)|(-> & Hst & Hmt & Hut & Huj)].
  - assert (Hpos : 0 < g * mag y * bpow j).
    { pose proof (bpow_pos j). pose proof (bpow_pos t). repeat apply Z.mul_pos_pos; lia. }
    destruct (mag_of_mval t1 _ Hokt Hvt ltac:(lia)) as [Hst Hmt].
    assert (Hut : (m_used t1 <= t + S j + 1)%nat).
    { apply mag_fits; [done | | lia]. rewrite Hmt.
      replace (t + S j + 1)%nat with (1 + S t + j)%nat by lia. rewrite !bpow_add, bpow_1.
      pose proof (bpow_pos j). apply Z.mul_lt_mono_pos_r; [done |]. pose proof (bpow_pos t). apply Z.mul_lt_mono_nonneg; lia. }
    eapply wp_mono; [apply (sub_mpi_spec X x st HX) with (a := x) (b := t1); try done;
      [apply Hok | lia | congruence] |].
    intros ? ? (x' & -> & Hok' & Hl' & Hv' & Hc'). exists x'. rewrite Hvx, Hvt in Hv', Hc'.
    split_and!; [by apply dst_set_X with (x := x) | done | done | done |].
    rewrite Hv'. intros Hne. apply Hc'; [done |]. apply clean_drop; [done | done | lia].
  - assert (Hju : (1 `max` j <= m_used x)%nat).
    { pose proof (mag_bounds x Hok). assert (bpow (j - 1) < bpow (m_used x)) as Hlt%bpow_lt_inv by lia. lia. }
    eapply wp_mono; [apply (sub_zero_spec X T1 x t1 st); try done; lia |].
    intros ? ? (x' & -> & Hok' & Hl' & Hv' & Hc'). exists x'.
    split_and!; [by apply dst_set_X with (x := x) | done | done | lia |].
    intros Hne. apply Hc'; [lia |]. apply clean_drop; [done | done | lia].
Qed.

(** Adding one divisor back. *)
Lemma add_back st0 st x y q t1 t2 t j :
  dst st0 st x y q t1 t2 -> divisor y t -> limbs_ok (m_p t1) -> (t + j + 3 <= m_limbs t1)%nat ->
  mpi_ok x -> mval x < 0 -> mpi_clean x -> (t + S j < m_limbs x)%nat ->
  wp (ttls_mpi_copy T1 Y;;;
      (if (j =? 0)%nat then sm_ret tt else ttls_mpi_shift_l T1 T1 (64 * j));;;
      ttls_mpi_add_mpi X X T1)
    (fun _ st' => exists x' t1', dst st0 st' x' y q t1' t2 /\ mpi_ok x' /\ m_limbs x' = m_limbs x /\
       mval x' = mval x + mag y * bpow j /\ (mval x' <> 0 -> mpi_clean x') /\
       limbs_ok (m_p t1') /\ m_limbs t1' = m_limbs t1) st.
Proof.
  intros Hd Hdv Hok1 Hl1 Hok Hneg Hc Hl. destruct (divisor_mag y t Hdv) as [Hmy Hvy].
  pose proof (bpow_pos t). pose proof (bpow_pos j). pose proof (dv_used y t Hdv) as Hu.
  destruct dst_distinct as (_ & _ & HXT1 & _ & _ & HYT1 & _).
  mstep. eapply wp_mono.
  { apply (copy_spec T1 Y t1 y); [apply (dst_T1 _ _ _ _ _ _ _ Hd) | apply (dst_Y _ _ _ _ _ _ _ Hd)
      | congruence | apply (dv_ok y t Hdv) | lia]. }
  intros ? ? (ta & -> & Hoka & Hla & Hsa & Hua & Hma & _).
  apply (dst_set_T1 _ _ _ _ _ _ _ ta) in Hd as Hd1.
  mstep. eapply wp_mono; [apply (shift_T1 _ ta j); [apply obj_upd_eq | done | lia | lia] |].
  intros ? ? (tb & -> & Hokb & Hlb & Hvb). rewrite upd_upd.
  assert (Hvb' : mval tb = mag y * bpow j).
  { rewrite Hvb. unfold mval. rewrite Hsa, Hma, (dv_s y t Hdv). lia. }
  destruct (mag_of_mval tb _ Hokb Hvb' ltac:(nia)) as [Hsb Hmb].
  apply (dst_set_T1 _ _ _ _ _ _ _ tb) in Hd as Hd2.
  assert (Hub : (m_used tb <= t + S j)%nat).
  { apply mag_fits; [done | | lia]. rewrite Hmb. replace (t + S j)%nat with (S t + j)%nat by lia.
    rewrite bpow_add. nia. }
  pose proof (dst_X _ _ _ _ _ _ _ Hd2) as HX. pose proof (ok_used x Hok).
  assert (Hsx : m_s x = -1).
  { destruct (ok_sign x Hok) as [E|]; [| done]. pose proof (proj1 (mval_sgn x Hok) E). lia. }
  eapply wp_mono; [apply (add_mpi_spec X x _ HX) with (a := x) (b := tb); try done;
    [apply Hok | apply obj_upd_eq | lia | congruence] |].
  intros ? ? (x' & -> & Hok' & Hl' & Hv' & Hc'). exists x', tb. rewrite Hvb' in Hv', Hc'.
  split_and!; [by apply dst_set_X with (x := x) | done | done | done | | apply Hokb | lia].
  rewrite Hv'. intros Hne. apply Hc'; [done |]. apply clean_drop; [done | done | lia].
Qed.

(** ** One quotient limb *)

Lemma top_limb_divisor y t : divisor y t ->
  exists y0 yt, m_p y !! t = Some yt /\
    (if (t <? 1)%nat then y0 = 0 else m_p y !! (t - 1)%nat = Some y0) /\
    is_u64 y0 /\ is_u64 yt /\ BASE <= 4 * yt /\ top2 (mag y) t = y0 + BASE * yt.
Proof.
  intros [Hok Hs Hu Ht]. pose proof (ok_used y Hok) as Hub. pose proof (ok_limbs y Hok) as Hoky.
  destruct (lookup_lt_is_Some_2 (m_p y) t) as [yt Hyt]; [unfold m_limbs in *; lia |].
  assert (exists y0, (if (t <? 1)%nat then y0 = 0 else m_p y !! (t - 1)%nat = Some y0) /\ is_u64 y0) as (y0 & H0 & Hu0).
  { destruct (Nat.ltb_spec t 1); [exists 0; split; [done | by unfold is_u64] |].
    destruct (lookup_lt_is_Some_2 (m_p y) (t - 1)) as [y0 Hy0]; [unfold m_limbs in *; lia |].
    exists y0. split; [done | exact (limbs_ok_lookup _ _ _ Hoky Hy0)]. }
  exists y0, yt. pose proof (limbs_ok_lookup _ _ _ Hoky Hyt) as Hut.
  assert (Hsum : mag y = lval (take t (m_p y)) + bpow t * yt).
  { unfold mag. rewrite Hu. by apply lval_take_S. }
  pose proof (lval_bounds (take t (m_p y)) ltac:(auto with tfw)) as Hb.
  rewrite length_take_le in Hb by (unfold m_limbs in *; lia). pose proof (bpow_pos t).
  split_and!; [done | done | done | done | |].
  - assert (bpow t * BASE < bpow t * (4 * yt + 4)) as Hlt by lia.
    apply Z.mul_lt_mono_pos_l in Hlt; [| done]. apply u64_lt in Hut.
    assert (BASE = 4 * 2 ^ 62) by done. lia.
  - unfold mag. rewrite Hu. apply top2_limbs; [auto with tfw | rewrite length_take; unfold m_limbs in *; lia | |].
    + rewrite lookup_take_lt by lia. done.
    + destruct (t <? 1)%nat eqn:E; [done |]. rewrite lookup_take_lt by lia. done.
Qed.

(** The limbs of [X] the guess looks at. *)
Lemma top_limbs_dividend x i : mpi_ok x -> mpi_clean x -> mag x < bpow (S i) -> (1 <= i < m_limbs x)%nat ->
  exists x0 x1 x2, m_p x !! i = Some x2 /\ m_p x !! (i - 1)%nat = Some x1 /\
    (if (i <? 2)%nat then x0 = 0 else m_p x !! (i - 2)%nat = Some x0) /\
    is_u64 x0 /\ is_u64 x1 /\ is_u64 x2 /\ top3 (mag x) i = x0 + BASE * x1 + BASE * BASE * x2.
Proof.
  intros Hok Hc Hlt Hi. pose proof (ok_limbs x Hok) as Hokx. unfold m_limbs in Hi.
  destruct (lookup_lt_is_Some_2 (m_p x) i) as [x2 H2]; [lia |].
  destruct (lookup_lt_is_Some_2 (m_p x) (i - 1)) as [x1 H1]; [lia |].
  assert (exists x0, (if (i <? 2)%nat then x0 = 0 else m_p x !! (i - 2)%nat = Some x0) /\ is_u64 x0) as (x0 & H0 & Hu0).
  { destruct (Nat.ltb_spec i 2); [exists 0; split; [done | by unfold is_u64] |].
    destruct (lookup_lt_is_Some_2 (m_p x) (i - 2)) as [x0 Hx0]; [lia |].
    exists x0. split; [done | exact (limbs_ok_lookup _ _ _ Hokx Hx0)]. }
  exists x0, x1, x2. rewrite <- Hc in Hlt |- *.
  split_and!; [done | done | done | done | exact (limbs_ok_lookup _ _ _ Hokx H1)
    | exact (limbs_ok_lookup _ _ _ Hokx H2) |].
  apply top3_limbs; [done | lia | done | done | done | done].
Qed.

(** Up to the corrected guess. *)
Lemma guess_part st0 st x y q t1 t2 t j (k : MM unit) (P : unit -> MpiMem -> Prop) :
  dst st0 st x y q t1 t2 -> divisor y t ->
  mpi_ok x -> mpi_clean x -> 0 <= mag x < mag y * bpow (S j) -> (t + S j < m_limbs x)%nat ->
  limbs_ok (m_p t1) -> (3 <= m_limbs t1)%nat -> limbs_ok (m_p t2) -> m_limbs t2 = 3%nat ->
  (j < m_limbs q)%nat ->
  (forall st' t1' t2', dst st0 st' x y (with_p q (<[j := guess3 (mag x) (mag y) (t + S j) t]> (m_p q))) t1' t2' ->
     limbs_ok (m_p t1') -> m_limbs t1' = m_limbs t1 -> limbs_ok (m_p t2') -> m_limbs t2' = 3%nat ->
     wp k P st') ->
  wp (let i := (t + S j)%nat in
      xi <~ rd (MPI_P X) i;; yt <~ rd (MPI_P Y) t;;
      g <~ (if yt <=? xi then sm_ret 0
            else x1 <~ rd (MPI_P X) (i - 1);;
                 sm_ret (u64 ((ttls_int_div_int xi x1 yt).1 + 1)));;
      wr (MPI_P Q) j g;;;
      set_s T2 1;;;
      x2 <~ (if (i <? 2)%nat then sm_ret 0 else rd (MPI_P X) (i - 2));;
      wr (MPI_P T2) 0 x2;;;
      x1 <~ (if (i <? 1)%nat then sm_ret 0 else rd (MPI_P X) (i - 1));;
      wr (MPI_P T2) 1 x1;;;
      wr (MPI_P T2) 2 xi;;;
      mpi_fixup_used T2 3;;;
      div_guess 8 Y Q T1 T2 t j;;; k) P st.
Proof.
  intros Hd Hdv Hok Hc Hlt Hl Hok1 Hl1 Hok2 Hl2 Hj Hk. set (i := (t + S j)%nat) in *. cbv zeta.
  destruct (divisor_mag y t Hdv) as [Hmy _]. destruct (top_limb_divisor y t Hdv) as (y0 & yt & Hyt & Hy0 & Hu0 & Hut & Hn & E2).
  assert (Hmx : mag x < bpow (S i)).
  { subst i. replace (S (t + S j)) with (S t + S j)%nat by lia. rewrite bpow_add.
    pose proof (bpow_pos (S j)). nia. }
  destruct (top_limbs_dividend x i Hok Hc Hmx ltac:(lia)) as (x0 & x1 & x2 & H2 & H1 & H0 & Hv0 & Hv1 & Hv2 & E3).
  pose proof (top3_lt (mag x) (mag y) t (S j) ltac:(lia) Hlt) as H32. fold i in H32. rewrite E3, E2 in H32.
  destruct (guess0_spec x0 x1 x2 y0 yt _ _ Hv0 Hv1 Hv2 Hu0 Hut Hn eq_refl eq_refl H32) as [Hg Hg0].
  assert (Hpt : 0 < yt) by (pose proof BASE_pos; lia).
  mstep. eapply wp_rd; [apply (dst_X _ _ _ _ _ _ _ Hd) | exact H2 |].
  mstep. eapply wp_rd; [apply (dst_Y _ _ _ _ _ _ _ Hd) | exact Hyt |].
  mstep. eapply (wp_mono _ (fun g st' => st' = st /\ g = u64 (guess0 x2 x1 yt + 1))).
  { unfold guess0. destruct (Z.leb_spec yt x2).
    - mstep. split; [done |]. rewrite Z.sub_add. done.
    - mstep. eapply wp_rd; [apply (dst_X _ _ _ _ _ _ _ Hd) | exact H1 |]. mstep. split; [done |].
      rewrite ttls_int_div_int_spec by done. done. }
  intros ? ? [-> ->]. mstep. eapply wp_wr; [apply (dst_Q _ _ _ _ _ _ _ Hd) | done |].
  cbn [lp_obj lp_off MPI_P Nat.add]. set (g0 := guess0 x2 x1 yt) in *. set (q1 := with_p q (<[j := u64 (g0 + 1)]> (m_p q))).
  apply (dst_set_Q _ _ _ _ _ _ _ q1) in Hd as Hd1. set (st1 := upd Q q1 st) in *.
  assert (exists p0 p1 p2, m_p t2 = [p0; p1; p2]) as (p0 & p1 & p2 & Ep).
  { unfold m_limbs in Hl2. destruct (m_p t2) as [|p0 [|p1 [|p2 [|]]]]; simpl in Hl2; try lia. eauto. }
  mstep. eapply wp_set_s; [apply (dst_T2 _ _ _ _ _ _ _ Hd1) |]. rewrite Ep.
  assert (HdT : forall t2', dst st0 (upd T2 t2' st1) x y q1 t1 t2') by (intros t2'; by apply dst_set_T2 with (t2 := t2)).
  mstep. eapply (wp_mono _ (fun v st' => st' = _ /\ v = x0)).
  { destruct (i <? 2)%nat; [mstep; by subst x0 |].
    eapply wp_rd; [apply (dst_X _ _ _ _ _ _ _ (HdT _)) | exact H0 | done]. }
  intros ? ? [-> ->]. mstep. eapply wp_wr; [apply obj_upd_eq | unfold m_limbs; simpl; lia |].
  cbn [lp_obj lp_off MPI_P Nat.add with_p m_s m_used m_p]. rewrite upd_upd.
  mstep. eapply (wp_mono _ (fun v st' => st' = _ /\ v = x1)).
  { rewrite (proj2 (Nat.ltb_ge i 1)) by (subst i; lia).
    eapply wp_rd; [apply (dst_X _ _ _ _ _ _ _ (HdT _)) | exact H1 | done]. }
  intros ? ? [-> ->]. mstep. eapply wp_wr; [apply obj_upd_eq | unfold m_limbs; simpl; lia |].
  cbn [lp_obj lp_off MPI_P Nat.add with_p m_s m_used m_p]. rewrite upd_upd.
  mstep. eapply wp_wr; [apply obj_upd_eq | unfold m_limbs; simpl; lia |].
  cbn [lp_obj lp_off MPI_P Nat.add with_p m_s m_used m_p]. rewrite upd_upd.
  change (<[2%nat:=x2]> (<[1%nat:=x1]> (<[0%nat:=x0]> [p0; p1; p2]))) with [x0; x1; x2].
  assert (Hokp : limbs_ok [x0; x1; x2]) by (constructor; [done |]; constructor; [done |]; by constructor).
  mstep. eapply wp_fixup; [apply obj_upd_eq | unfold m_limbs; simpl; lia | exact Hokp |].
  cbn [m_p m_s with_p]. intros u Hu Hval Hnu. rewrite upd_upd.
  assert (Et : lval (take 3 [x0; x1; x2]) = x0 + BASE * x1 + BASE * BASE * x2) by (simpl; ring).
  rewrite Et in Hval, Hnu.
  destruct (mpi_ok_intro 1 u [x0; x1; x2] (x0 + BASE * x1 + BASE * BASE * x2)) as [Hokt Hvt];
    [by left | simpl; lia | done | done | done | done |].
  set (t2' := MkMpi 1 u [x0; x1; x2]) in *.
  destruct (mag_of_mval t2' _ Hokt Hvt) as [_ Hmt].
  { unfold is_u64 in Hv0, Hv1, Hv2. pose proof BASE_pos. nia. }
  mstep. eapply wp_mono.
  { apply (div_guess_spec st0 8 _ x y q1 t1 t2' t j g0 y0 yt (HdT t2')); try done.
    - cbn [with_p m_p q1]. by apply list_lookup_insert_eq.
    - rewrite Hmt, Z.mul_1_l. lia.
    - rewrite Hmt, Z.mul_1_l. change (Z.of_nat 8) with 8. lia. }
  intros ? ? (t1' & Hd' & Hk1 & Hlt1). apply (Hk _ t1' t2'); [| done | done | done | done].
  cbn [with_p m_p q1] in Hd'. rewrite list_insert_insert_eq in Hd'.
  unfold guess3. fold i. rewrite E2, E3. by rewrite Hmt, Z.mul_1_l in Hd'.
Qed.

(** A division in progress: [xv] is the value of [X]; the arrays of [X] and [T1]
    have [lx] and [l1] limbs. *)
Definition dividing (st0 : MpiMem) (y q : TlsMpi) (xv : Z) (lx l1 : nat) (st : MpiMem) : Prop :=
  exists x t1 t2, dst st0 st x y q t1 t2 /\
    mpi_ok x /\ m_s x = 1 /\ mag x = xv /\ m_limbs x = lx /\ (xv <> 0 -> mpi_clean x) /\
    limbs_ok (m_p t1) /\ m_limbs t1 = l1 /\ limbs_ok (m_p t2) /\ m_limbs t2 = 3%nat.

Lemma div_step_spec st0 st y q t j xv lx l1 :
  dividing st0 y q xv lx l1 st -> divisor y t ->
  0 < xv < mag y * bpow (S j) -> bpow (j - 1) <= xv ->
  (t + S j < lx)%nat -> (t + j + 3 <= l1)%nat -> (j < m_limbs q)%nat ->
  wp (div_step X Y Q T1 T2 t (t + S j))
    (fun _ => dividing st0 y (with_p q (<[j := xv / (mag y * bpow j)]> (m_p q)))
       (xv mod (mag y * bpow j)) lx l1) st.
Proof.
  intros (x & t1 & t2 & Hd & Hok & Hs & Hm & Hlx & Hc & Hk1 & Hl1 & Hk2 & Hl2) Hdv Hxv Hge Hl Hll Hj.
  destruct (divisor_mag y t Hdv) as [Hmy _]. pose proof (bpow_pos t) as Hbt. pose proof (bpow_pos j) as Hbj.
  assert (Hc' : mpi_clean x) by (apply Hc; lia).
  destruct (guess3_spec xv (mag y) t j ltac:(lia) ltac:(lia)) as (Hq & Hq1 & Hq64).
  set (g := guess3 xv (mag y) (t + S j) t) in *. set (yj := mag y * bpow j) in *.
  assert (Hyj : 0 < yj) by (subst yj; nia).
  pose proof (Z.div_mod xv yj ltac:(lia)) as Hdm. pose proof (Z.mod_pos_bound xv yj Hyj) as Hmb.
  unfold div_step. replace (t + S j - t - 1)%nat with j by lia.
  apply (guess_part st0 st x y q t1 t2 t j); [done | done | done | done | lia | lia | done | lia | done | done | done |].
  rewrite Hm. fold g. intros st1 t1a t2a Hd1 Hk1a Hl1a Hk2a Hl2a.
  mstep. eapply wp_rd; [apply (dst_Q _ _ _ _ _ _ _ Hd1) | simpl; by apply list_lookup_insert_eq |].
  apply wp_seq2. eapply wp_mono; [apply (row_spec _ _ _ _ _ _ _ t j g Hd1 Hdv); [done | done | lia] |].
  intros ? ? (t1b & Hd2 & Hl1b & Hrow).
  mstep. eapply wp_mono; [apply (sub_row _ _ _ _ _ _ _ t j g Hd2 Hdv Hrow); try done; lia |].
  intros ? ? (x1 & Hd3 & Hok1 & Hlx1 & Hv1 & Hc1). rewrite Hm in Hv1.
  replace (xv - g * mag y * bpow j) with (xv - g * yj) in Hv1 by (subst yj; lia).
  mstep. eapply wp_mono; [apply (cmp_int_spec X x1 0); [apply (dst_X _ _ _ _ _ _ _ Hd3) | done | lia] |].
  intros c ? [-> Hcs]. rewrite Z.sub_0_r in Hcs.
  assert (Hk1b : limbs_ok (m_p t1b)) by apply Hrow.
  destruct (Z.ltb_spec c 0) as [Hneg|Hpos].
  - assert (Eg : g = xv / yj + 1) by nia.
    apply wp_seq3. eapply wp_mono.
    { apply (add_back _ _ _ _ _ _ _ t j Hd3 Hdv); [done | lia | done | lia | apply Hc1; lia | lia]. }
    intros ? ? (x2 & t1c & Hd4 & Hok2 & Hlx2 & Hv2 & Hc2 & Hk1c & Hl1c).
    fold yj in Hv2. assert (Hv2' : mval x2 = xv mod yj) by (rewrite Hv2, Hv1; nia).
    destruct (mag_of_mval x2 _ Hok2 Hv2' ltac:(lia)) as [Hs2 Hm2].
    mstep. eapply wp_rd; [apply (dst_Q _ _ _ _ _ _ _ Hd4) | simpl; by apply list_lookup_insert_eq |].
    eapply wp_wr; [apply (dst_Q _ _ _ _ _ _ _ Hd4)
      | cbn [lp_off MPI_P Nat.add]; unfold m_limbs in *; simpl; by rewrite length_insert |].
    cbn [lp_obj lp_off MPI_P Nat.add with_p m_s m_used m_p]. rewrite list_insert_insert_eq.
    rewrite u64_small by (pose proof BASE_pos; change (2 ^ 64) with BASE; lia).
    replace (g - 1) with (xv / yj) by lia.
    exists x2, t1c, t2a. apply (dst_set_Q _ _ _ _ _ _ _ (MkMpi (m_s q) (m_used q) (<[j:=xv / yj]> (m_p q)))) in Hd4.
    split_and!; [exact Hd4 | done | done | done | lia | rewrite <- Hv2'; done | done | lia | done | done].
  - assert (Eg : g = xv / yj) by nia. mstep.
    assert (Hv1' : mval x1 = xv mod yj) by (rewrite Hv1; nia).
    destruct (mag_of_mval x1 _ Hok1 Hv1' ltac:(lia)) as [Hs1 Hm1]. rewrite Eg in Hd3.
    exists x1, t1b, t2a.
    split_and!; [exact Hd3 | done | done | done | lia | rewrite <- Hv1'; done | done | lia | done | done].
Qed.

(** ** All the quotient limbs below the first *)

Lemma div_loop_spec st0 y t lx l1 m : forall st q xv,
  dividing st0 y q xv lx l1 st -> divisor y t -> 0 <= xv < mag y * bpow m ->
  (forall s, (1 <= s <= m)%nat -> bpow (s - 2) <= xv mod (mag y * bpow s)) ->
  (t + m < lx)%nat -> (t + m + 2 <= l1)%nat -> (m <= m_limbs q)%nat -> limbs_ok (m_p q) ->
  wp (div_loop m X Y Q T1 T2 t)
    (fun _ st' => exists r, dividing st0 y (with_p q (r ++ drop m (m_p q))) (xv mod mag y) lx l1 st' /\
       length r = m /\ limbs_ok r /\ lval r = xv / mag y) st.
Proof.
  induction m as [|m IH]; intros st q xv Hdg Hdv Hxv Hsafe Hl Hll Hq Hokq; cbn [div_loop].
  - mstep. exists []. rewrite bpow_0, Z.mul_1_r in Hxv. rewrite Z.mod_small, Z.div_small by lia.
    simpl. split_and!; [by destruct q | done | by constructor | done].
  - destruct (divisor_mag y t Hdv) as [Hmy _]. pose proof (bpow_pos t). pose proof (bpow_pos m).
    pose proof (Hsafe (S m) ltac:(lia)) as Hs. rewrite Z.mod_small in Hs by lia.
    replace (S m - 2)%nat with (m - 1)%nat in Hs by lia. pose proof (bpow_pos (m - 1)).
    mstep. eapply wp_mono; [apply (div_step_spec st0 st y q t m xv lx l1); try done; lia |].
    intros ? st1 Hdg1. set (yj := mag y * bpow m) in *. assert (Hyj : 0 < yj) by (subst yj; nia).
    pose proof (Z.div_mod xv yj ltac:(lia)) as Hdm. pose proof (Z.mod_pos_bound xv yj Hyj) as Hmb.
    rewrite bpow_S in Hxv. assert (Hd : is_u64 (xv / yj)).
    { split; [apply Z.div_pos; lia |]. apply Z.div_lt_upper_bound; [done |]. change (2 ^ 64) with BASE.
      subst yj. lia. }
    set (q1 := with_p q (<[m := xv / yj]> (m_p q))) in *.
    eapply wp_mono.
    { apply (IH st1 q1 (xv mod yj) Hdg1 Hdv); [done | | lia | lia | | ].
      - intros s Hs1. replace ((xv mod yj) mod (mag y * bpow s)) with (xv mod (mag y * bpow s)); [by apply Hsafe; lia |].
        replace yj with (mag y * bpow s * bpow (m - s)).
        + symmetry. apply Z.mod_mod_divide, Z.divide_factor_l.
        + subst yj. rewrite <- Z.mul_assoc, <- bpow_add. do 2 f_equal. lia.
      - unfold m_limbs. simpl. rewrite length_insert. unfold m_limbs in Hq. lia.
      - simpl. apply Forall_insert; done. }
    intros ? st2 (r & Hdg2 & Hlr & Hr & Hvr). exists (r ++ [xv / yj]).
    assert (Hdrop : drop m (<[m:=xv / yj]> (m_p q)) = xv / yj :: drop (S m) (m_p q)).
    { unfold m_limbs in Hq. rewrite (drop_S _ (xv / yj)) by (apply list_lookup_insert_eq; lia).
      rewrite drop_insert_lt by lia. done. }
    assert (Hmod : (xv mod yj) mod mag y = xv mod mag y).
    { subst yj. apply Z.mod_mod_divide, Z.divide_factor_l. }
    split_and!.
    + simpl in Hdg2. rewrite Hdrop, Hmod in Hdg2. rewrite <- app_assoc. exact Hdg2.
    + rewrite length_app. simpl. lia.
    + auto with tfw.
    + rewrite lval_snoc, Hlr, Hvr. apply (Z.div_unique _ _ _ (xv mod mag y)).
      * left. apply Z.mod_pos_bound. lia.
      * rewrite <- Hmod. pose proof (Z.div_mod (xv mod yj) (mag y) ltac:(lia)). subst yj. nia.
Qed.

(** ** The first quotient limb *)

Lemma div_top_spec st0 y k lx l1 fuel : forall st q xv c0,
  dividing st0 y q xv lx l1 st -> mpi_ok y -> m_s y = 1 -> 0 < mag y ->
  0 <= xv < Z.of_nat fuel * mag y -> 0 <= c0 -> c0 + xv / mag y < BASE ->
  m_p q !! k = Some c0 \/ xv < mag y /\ (m_limbs q <= k)%nat ->
  wp (div_top fuel X Y Q k)
    (fun _ => dividing st0 y (with_p q (<[k := c0 + xv / mag y]> (m_p q))) (xv mod mag y) lx l1) st.
Proof.
  induction fuel as [|fuel IH]; intros st q xv c0 Hdg Hoky Hsy Hy Hxv Hc0 Hfit Hq; [lia |].
  destruct Hdg as (x & t1 & t2 & Hd & Hok & Hs & Hm & Hlx & Hc & Hrest).
  assert (Hvx : mval x = xv) by (unfold mval; rewrite Hs; lia).
  assert (Hvy : mval y = mag y) by (unfold mval; rewrite Hsy; lia).
  cbn [div_top]. mstep. eapply wp_mono.
  { apply (cmp_mpi_spec X Y x y); [apply (dst_X _ _ _ _ _ _ _ Hd) | apply (dst_Y _ _ _ _ _ _ _ Hd) | done | done]. }
  intros c ? [-> Hcs]. rewrite Hvx, Hvy in Hcs. destruct (Z.ltb_spec c 0) as [Hlt|Hge].
  - mstep. rewrite Z.div_small, Z.mod_small, Z.add_0_r by lia. exists x, t1, t2.
    split; [| split_and!; try done; apply Hrest].
    replace (<[k:=c0]> (m_p q)) with (m_p q); [by destruct q |].
    destruct Hq as [Hq|[_ Hq]]; [by rewrite list_insert_id | by rewrite list_insert_ge].
  - destruct Hq as [Hq|[? _]]; [| lia].
    assert (Hdm : (xv - mag y) / mag y = xv / mag y - 1 /\ (xv - mag y) mod mag y = xv mod mag y).
    { replace (xv - mag y) with (xv + (-1) * mag y) by lia. rewrite Z.div_add, Z_mod_plus_full by lia. lia. }
    destruct Hdm as [Hd1 Hd2]. assert (Hq1 : 1 <= xv / mag y) by (apply Z.div_le_lower_bound; lia).
    mstep. eapply wp_rd; [apply (dst_Q _ _ _ _ _ _ _ Hd) | exact Hq |].
    mstep. eapply wp_wr; [apply (dst_Q _ _ _ _ _ _ _ Hd) | by apply lookup_lt_Some in Hq |].
    cbn [lp_obj lp_off MPI_P Nat.add]. rewrite u64_small by (change (2 ^ 64) with BASE; lia).
    set (q1 := with_p q (<[k := c0 + 1]> (m_p q))).
    apply (dst_set_Q _ _ _ _ _ _ _ q1) in Hd as Hd'.
    pose proof (dst_X _ _ _ _ _ _ _ Hd') as HX. pose proof (mag_used_le y x Hoky Hok ltac:(lia)).
    pose proof (ok_used x Hok).
    mstep. eapply wp_mono.
    { apply (sub_mpi_spec X x _ HX) with (a := x) (b := y); try done;
        [apply Hok | apply (dst_Y _ _ _ _ _ _ _ Hd') | lia | congruence]. }
    intros ? ? (x1 & -> & Hok1 & Hl1 & Hv1 & Hc1). rewrite Hvx, Hvy in Hv1, Hc1.
    destruct (mag_of_mval x1 _ Hok1 Hv1 ltac:(lia)) as [Hs1 Hm1].
    apply (dst_set_X _ _ _ _ _ _ _ x1) in Hd' as Hd''.
    eapply wp_mono.
    { apply (IH _ q1 (xv - mag y) (c0 + 1)); [| done | done | done | lia | lia | lia |].
      - exists x1, t1, t2. split_and!; [exact Hd'' | done | done | done | lia | | apply Hrest | apply Hrest | apply Hrest | apply Hrest].
        intros Hne. apply Hc1; [done |]. apply clean_drop; [done | apply Hc; lia | lia].
      - left. simpl. apply list_lookup_insert_eq. by apply lookup_lt_Some in Hq. }
    intros ? ? Hdg. simpl in Hdg. rewrite list_insert_insert_eq, Hd1, Hd2 in Hdg.
    by replace (c0 + 1 + (xv / mag y - 1)) with (c0 + xv / mag y) in Hdg by lia.
Qed.

Lemma used_of_mag m t : mpi_ok m -> bpow t <= mag m < bpow (S t) -> m_used m = S t.
Proof.
  intros Hok Hm. pose proof (mag_bounds m Hok) as Hb. pose proof (ok_used m Hok).
  assert (bpow t < bpow (m_used m)) as H1%bpow_lt_inv by lia.
  pose proof (mag_fits m (S t) Hok ltac:(lia) ltac:(lia)). lia.
Qed.

(** The normalising shift: the top limb of the divisor gets 63 bits. *)
Lemma norm_shift v k : 0 < v -> k = 63 - Z.land (fls64 v) 63 ->
  0 <= k < 64 /\ exists t, bpow t * BASE <= 4 * (v * 2 ^ k) /\ bpow t <= v * 2 ^ k < bpow (S t).
Proof.
  intros Hv ->. replace (Z.land (fls64 v) 63) with (fls64 v mod 64) by (symmetry; apply (Z.land_ones _ 6); lia).
  pose proof (Z.mod_pos_bound (fls64 v) 64 ltac:(lia)) as Hr. destruct (fls64_bounds v Hv) as [Hf Hb].
  split; [lia |]. exists (Z.to_nat (fls64 v / 64)).
  pose proof (Z.div_mod (fls64 v) 64 ltac:(lia)) as Hdm.
  assert (Hq : 0 <= fls64 v / 64) by (apply Z.div_pos; lia).
  set (r := fls64 v mod 64) in *. set (b := fls64 v / 64) in *.
  rewrite bpow_S, bpow_pow2, Z2Nat.id by done. assert (EB : BASE = 2 ^ 64) by done. rewrite EB.
  assert (Hlow : 2 ^ (64 * b + 62) <= v * 2 ^ (63 - r)).
  { replace (64 * b + 62) with (fls64 v - 1 + (63 - r)) by lia. rewrite Z.pow_add_r by lia.
    apply Z.mul_le_mono_nonneg_r; [lia |]. lia. }
  assert (Hhigh : v * 2 ^ (63 - r) < 2 ^ (64 * b + 63)).
  { replace (64 * b + 63) with (fls64 v + (63 - r)) by lia. rewrite Z.pow_add_r by lia.
    apply Z.mul_lt_mono_pos_r; lia. }
  rewrite Z.pow_add_r in Hlow, Hhigh by lia. change (2 ^ 62) with 4611686018427387904 in Hlow.
  change (2 ^ 63) with 9223372036854775808 in Hhigh. change (2 ^ 64) with 18446744073709551616. lia.
Qed.

(** A positive value in [lv] limbs, with zeros above when [cl] asks for it. *)
Record pos_mpi (m : TlsMpi) (v : Z) (lv : nat) (cl : bool) : Prop := {
  pm_ok : mpi_ok m;
  pm_s : m_s m = 1;
  pm_mag : mag m = v;
  pm_pos : 0 < v;
  pm_limbs : m_limbs m = lv;
  pm_clean : cl = true -> mpi_clean m
}.

Lemma shift_pos T st m v lv cl k :
  obj st !! T = Some m -> pos_mpi m v lv cl -> (0 < k)%nat -> (m_used m + k / 64 + 1 <= lv)%nat ->
  wp (ttls_mpi_shift_l T T k)
    (fun _ st' => exists m', st' = upd T m' st /\ pos_mpi m' (v * 2 ^ Z.of_nat k) lv cl) st.
Proof.
  intros HT [Hok Hs Hm Hp Hlv Hc] Hk Hl. pose proof (pow2_pos (Z.of_nat k) ltac:(lia)).
  eapply wp_mono; [apply (shift_l_spec T T m m st k); try done; try apply Hok; lia |].
  intros ? ? (m' & -> & Hok' & Hl' & Hv' & Hc'). exists m'. split; [done |].
  assert (Hv : mval m' = v * 2 ^ Z.of_nat k) by (rewrite Hv'; unfold mval; rewrite Hs, Hm; lia).
  destruct (mag_of_mval m' _ Hok' Hv ltac:(lia)) as [Hs' Hm'].
  constructor; [done | done | done | nia | lia |].
  intros E. apply Hc'; [unfold mval in *; nia |]. apply clean_drop; [done | by apply Hc | lia].
Qed.

(** The shift of both operands by [k] bits. *)
Lemma norm_part st0 st x y q t1 t2 xv yv lx ly k :
  dst st0 st x y q t1 t2 -> pos_mpi x xv lx true -> pos_mpi y yv ly false -> (k < 64)%nat ->
  (m_used x < lx)%nat -> (m_used y < ly)%nat ->
  wp (if (0 <? k)%nat then ttls_mpi_shift_l X X k;;; ttls_mpi_shift_l Y Y k else sm_ret tt)
    (fun _ st' => exists x' y', dst st0 st' x' y' q t1 t2 /\ pos_mpi x' (xv * 2 ^ Z.of_nat k) lx true /\ pos_mpi y' (yv * 2 ^ Z.of_nat k) ly false) st.
Proof.
  intros Hd Hx Hy Hk Hlx Hly. destruct (Nat.ltb_spec 0 k) as [Hp|Hz].
  - mstep. eapply wp_mono.
    { apply (shift_pos X st x xv lx true k); [apply (dst_X _ _ _ _ _ _ _ Hd) | done | done |].
      rewrite Nat.div_small by lia. lia. }
    intros ? ? (x' & -> & Hx'). apply (dst_set_X _ _ _ _ _ _ _ x') in Hd as Hd'.
    eapply wp_mono.
    { apply (shift_pos Y _ y yv ly false k); [apply (dst_Y _ _ _ _ _ _ _ Hd') | done | done |].
      rewrite Nat.div_small by lia. lia. }
    intros ? ? (y' & -> & Hy'). exists x', y'. split; [| done]. by apply dst_set_Y with (y := y).
  - assert (k = 0%nat) as -> by lia. mstep. exists x, y. change (2 ^ Z.of_nat 0) with 1.
    by rewrite !Z.mul_1_r.
Qed.

Lemma shift_Y st0 st x y q t1 t2 yv ly m :
  dst st0 st x y q t1 t2 -> pos_mpi y yv ly false -> (m_used y + m < ly)%nat ->
  wp (ttls_mpi_shift_l Y Y (64 * m))
    (fun _ st' => exists y', dst st0 st' x y' q t1 t2 /\ pos_mpi y' (yv * bpow m) ly false) st.
Proof.
  intros Hd Hy Hl. destruct (decide (m = 0%nat)) as [->|Hm].
  - unfold ttls_mpi_shift_l. mstep. eapply wp_mpi_get; [apply (dst_Y _ _ _ _ _ _ _ Hd) |].
    change (64 * 0 =? 0)%nat with true. cbn [orb]. mstep. exists y. rewrite bpow_0, Z.mul_1_r. done.
  - assert (Hq : (64 * m / 64 = m)%nat) by (rewrite Nat.mul_comm; apply Nat.div_mul; lia).
    eapply wp_mono; [apply (shift_pos Y st y yv ly false (64 * m)); [apply (dst_Y _ _ _ _ _ _ _ Hd) | done | lia | lia] |].
    intros ? ? (y' & -> & Hy'). exists y'. split; [by apply dst_set_Y with (y := y) |].
    rewrite bpow_pow2. by replace (64 * Z.of_nat m) with (Z.of_nat (64 * m)) by lia.
Qed.

Lemma unshift_Y st0 st y q xv lx l1 yv ly m :
  dividing st0 y q xv lx l1 st -> pos_mpi y (yv * bpow m) ly false -> 0 < yv ->
  wp (ttls_mpi_shift_r Y (64 * m))
    (fun _ st' => exists y', dividing st0 y' q xv lx l1 st' /\ mpi_ok y' /\ m_s y' = 1 /\ mag y' = yv) st.
Proof.
  intros (x & t1 & t2 & Hd & Hrest) [Hok Hs Hm Hp _ _] Hyv. destruct (decide (m = 0%nat)) as [->|Hne].
  - unfold ttls_mpi_shift_r. mstep. eapply wp_mpi_get; [apply (dst_Y _ _ _ _ _ _ _ Hd) |].
    change (64 * 0 =? 0)%nat with true. cbv iota. mstep. rewrite bpow_0, Z.mul_1_r in Hm.
    exists y. split; [by exists x, t1, t2 | done].
  - eapply wp_mono; [apply (shift_r_spec Y y (64 * m)); [apply (dst_Y _ _ _ _ _ _ _ Hd) | done | lia | lia] |].
    intros ? ? (y' & -> & _ & Hm' & _ & _ & Hpos & _). exists y'.
    replace (Z.of_nat (64 * m)) with (64 * Z.of_nat m) in * by lia.
    rewrite <- bpow_pow2, Hm, Z.div_mul in * by (pose proof (bpow_pos m); lia).
    destruct (Hpos Hyv) as [Hok' Hs']. split; [| by rewrite Hs'].
    exists x, t1, t2. split; [by apply dst_set_Y with (y := y) | done].
Qed.

(** The first limb of the quotient and the others. *)
Lemma quot_split x y b : 0 < y -> 0 < b ->
  (x mod (y * b)) / y + b * (x / (y * b)) = x / y /\ (x mod (y * b)) mod y = x mod y.
Proof.
  intros Hy Hb. assert (Hm : (x mod (y * b)) mod y = x mod y) by (apply Z.mod_mod_divide, Z.divide_factor_l).
  split; [| done]. apply (Z.div_unique _ _ _ (x mod y)); [left; by apply Z.mod_pos_bound |].
  pose proof (Z.div_mod x (y * b) ltac:(nia)). pose proof (Z.div_mod (x mod (y * b)) y ltac:(lia)). nia.
Qed.

(** Every partial remainder is at least as long as the shift of the row that is
    subtracted next. *)
Definition div_safe (a b : Z) : Prop :=
  forall s, (1 <= s)%nat -> b * bpow s <= a -> bpow (s - 2) <= a mod (b * bpow s).

Lemma div_safe_scale a b c n s : div_safe a b -> 0 < b -> 0 < a -> 1 <= c -> bpow n <= a * c ->
  (1 <= s <= n)%nat -> bpow (s - 2) <= (a * c) mod (b * c * bpow s).
Proof.
  intros Hsafe Hb Ha Hc Hn Hs. pose proof (bpow_pos s). pose proof (bpow_pos (s - 2)).
  replace (b * c * bpow s) with (b * bpow s * c) by lia. rewrite Zmult_mod_distr_r.
  destruct (Z.le_gt_cases (b * bpow s) a) as [Hle|Hgt].
  - pose proof (Hsafe s ltac:(lia) Hle). nia.
  - rewrite Z.mod_small by lia. pose proof (bpow_le (s - 2) n ltac:(lia)). lia.
Qed.

(** The limbs of the quotient: [m] of them from the loop, one from the first step. *)
Lemma quot_limbs (q r : list Z) ua m d c0 :
  take ua q = replicate ua 0 -> (ua <= length q)%nat -> (m <= ua)%nat -> length r = m ->
  limbs_ok r -> is_u64 d -> c0 = default 0 (q !! m) -> (m = ua -> d = 0) ->
  exists r', r ++ drop m (<[m := c0 + d]> q) = r' ++ drop ua q /\ length r' = ua /\ limbs_ok r' /\
    lval r' = lval r + bpow m * d.
Proof.
  intros Hz Hl Hm Hr Hok Hd Hc0 Hu. destruct (decide (m = ua)) as [->|Hne].
  - exists r. rewrite (Hu eq_refl), !Z.add_0_r, Z.mul_0_r, Z.add_0_r. split_and!; [| done..].
    f_equal. destruct (q !! ua) as [v|] eqn:E; subst c0; [by rewrite list_insert_id |].
    apply lookup_ge_None in E. by rewrite list_insert_ge.
  - assert (Eq : q = replicate m 0 ++ 0 :: replicate (ua - m - 1) 0 ++ drop ua q).
    { rewrite <- (take_drop ua q) at 1. rewrite Hz. replace ua with (m + S (ua - m - 1))%nat at 1 by lia.
      rewrite replicate_add, <- app_assoc. done. }
    set (D := drop ua q) in *. clearbody D. subst q.
    rewrite list_lookup_middle in Hc0 by (by rewrite length_replicate). simpl in Hc0. subst c0.
    exists (r ++ d :: replicate (ua - m - 1) 0).
    rewrite insert_app_r_alt by (by rewrite length_replicate).
    rewrite length_replicate, Nat.sub_diag. simpl. rewrite drop_app_length' by (by rewrite length_replicate).
    rewrite <- app_assoc. split_and!; [done | rewrite length_app; simpl; rewrite length_replicate; lia | |].
    + apply limbs_ok_app. split; [done |]. constructor; [done | apply limbs_ok_replicate].
    + rewrite lval_app, Hr. f_equal. f_equal. simpl. rewrite lval_replicate. lia.
Qed.

(** ** The division *)

(** After the normalisation: the operands are [a * c] and [b * c]. *)
Lemma div_core st0 st x y q t1 t2 a b c ua t n (k : nat) :
  dst st0 st x y q t1 t2 -> pos_mpi x (a * c) (ua + 1) true -> pos_mpi y (b * c) (ua + 2) false ->
  0 < b <= a -> a < bpow ua -> div_safe a b -> 1 <= c ->
  m_used y = S t -> bpow t * BASE <= 4 * (b * c) ->
  m_used x = S n -> bpow n <= a * c ->
  limbs_ok (m_p t1) -> m_limbs t1 = (ua + 3)%nat -> limbs_ok (m_p t2) -> m_limbs t2 = 3%nat ->
  limbs_ok (m_p q) -> (ua <= m_limbs q)%nat -> take ua (m_p q) = replicate ua 0 ->
  wp (ttls_mpi_shift_l Y Y (64 * (n - t));;;
      div_top 5 X Y Q (n - t);;;
      ttls_mpi_shift_r Y (64 * (n - t));;;
      div_loop (n - t) X Y Q T1 T2 t;;; sm_ret k)
    (fun k' st' => exists y' r, k' = k /\
       dividing st0 y' (with_p q (r ++ drop ua (m_p q))) (a mod b * c) (ua + 1) (ua + 3) st' /\
       length r = ua /\ limbs_ok r /\ lval r = a / b) st.
Proof.
  intros Hd Hx Hy Hab Hau Hsafe Hc Huy Ht Hux Hn Hk1 Hl1 Hk2 Hl2 Hokq Hlq Hzq.
  pose proof (ok_used x (pm_ok _ _ _ _ Hx)) as Hxu. rewrite (pm_limbs _ _ _ _ Hx), Hux in Hxu.
  pose proof (mag_bounds x (pm_ok _ _ _ _ Hx)) as Hbx. rewrite Hux, (pm_mag _ _ _ _ Hx) in Hbx.
  pose proof (mag_bounds y (pm_ok _ _ _ _ Hy)) as Hby. rewrite Huy, (pm_mag _ _ _ _ Hy) in Hby.
  assert (Hdv0 : divisor y t) by (destruct Hy as [? ? E]; constructor; [done | done | done | by rewrite E]).
  destruct (divisor_mag y t Hdv0) as [Hty _]. rewrite (pm_mag _ _ _ _ Hy) in Hty.
  assert (Htn : (t <= n)%nat).
  { assert (bpow t < bpow (S n)) as ?%bpow_lt_inv by nia. lia. }
  set (m := (n - t)%nat). assert (Hmn : n = (t + m)%nat) by lia.
  pose proof (bpow_pos m) as Hbm. pose proof (bpow_pos t) as Hbt.
  mstep. eapply wp_mono; [apply (shift_Y _ _ _ _ _ _ _ (b * c) (ua + 2) m Hd Hy); lia |].
  intros ? st1 (y1 & Hd1 & Hy1).
  assert (H4 : a * c < 4 * (b * c * bpow m)).
  { rewrite bpow_S, Hmn, bpow_add in Hbx. nia. }
  assert (Hlast : m = ua -> a * c < b * c * bpow m) by (intros ->; nia).
  set (B := b * c * bpow m) in *. assert (HB : 0 < B) by (subst B; nia).
  assert (Hdg : is_u64 (a * c / B)).
  { split; [apply Z.div_pos; lia |]. assert (a * c / B < 4) by (apply Z.div_lt_upper_bound; lia). lia. }
  assert (Hc0 : is_u64 (default 0 (m_p q !! m))).
  { destruct (m_p q !! m) eqn:E; [exact (limbs_ok_lookup _ _ _ Hokq E) | by unfold is_u64]. }
  assert (Hcase : m_p q !! m = Some (default 0 (m_p q !! m)) /\ (m < ua)%nat /\ default 0 (m_p q !! m) = 0 \/
                  (m = ua /\ a * c / B = 0)).
  { destruct (decide (m = ua)) as [E|Hne]; [right; split; [done |]; apply Z.div_small; specialize (Hlast E); nia |].
    left. assert (m < ua)%nat by lia.
    assert (m_p q !! m = Some 0) as ->; [| done].
    rewrite <- (lookup_take_lt (m_p q) ua) by lia. rewrite Hzq. apply lookup_replicate_2. lia. }
  mstep. eapply wp_mono.
  { apply (div_top_spec st0 y1 m (ua + 1) (ua + 3) 5 st1 q (a * c) (default 0 (m_p q !! m)));
      rewrite ?(pm_mag _ _ _ _ Hy1); fold B; [| by destruct Hy1 | by destruct Hy1 | lia | lia | | |].
    - destruct Hx. exists x, t1, t2. split_and!; auto.
    - apply Hc0.
    - destruct Hcase as [(_ & _ & ->)|[_ ->]]; [| rewrite Z.add_0_r; apply Hc0].
      assert (a * c / B < 4) by (apply Z.div_lt_upper_bound; lia). assert (BASE = 4 * 2 ^ 62) by done. lia.
    - destruct Hcase as [[H _]|[E _]]; [by left |]. destruct (m_p q !! m) eqn:Eq; [by left | right].
      apply lookup_ge_None in Eq. split; [by apply Hlast | done]. }
  intros ? st2 Hdg2. rewrite (pm_mag _ _ _ _ Hy1) in Hdg2. fold B in Hdg2.
  mstep. eapply wp_mono; [apply (unshift_Y _ _ _ _ _ _ _ (b * c) (ua + 2) m Hdg2 Hy1); nia |].
  intros ? st3 (y2 & Hdg3 & Hoky2 & Hsy2 & Hmy2).
  assert (Hdv : divisor y2 t).
  { constructor; [done | done | apply used_of_mag; [done | lia] | by rewrite Hmy2]. }
  assert (Hfit : (m <= ua)%nat) by lia.
  pose proof (Z.mod_pos_bound (a * c) B HB) as Hmb.
  mstep. eapply wp_mono.
  { apply (div_loop_spec st0 y2 t (ua + 1) (ua + 3) m st3 _ _ Hdg3 Hdv); rewrite ?Hmy2; fold B; [lia | | lia | lia | |].
    - intros s Hs. replace ((a * c) mod B mod (b * c * bpow s)) with ((a * c) mod (b * c * bpow s)).
      + apply (div_safe_scale a b c n s); [done | lia | lia | done | done | lia].
      + symmetry. subst B. replace (bpow m) with (bpow s * bpow (m - s)) by (rewrite <- bpow_add; f_equal; lia).
        rewrite Z.mul_assoc. apply Z.mod_mod_divide, Z.divide_factor_l.
    - unfold m_limbs in *. simpl. rewrite length_insert. lia.
    - simpl. apply Forall_insert; [done |]. destruct Hcase as [(_ & _ & ->)|[_ ->]]; [done | by rewrite Z.add_0_r]. }
  intros ? st4 (r & Hdg4 & Hlr & Hokr & Hvr). mstep. rewrite Hmy2 in Hdg4, Hvr. simpl in Hdg4.
  destruct (quot_split (a * c) (b * c) (bpow m) ltac:(nia) Hbm) as [Hq Hr]. fold B in Hq, Hr.
  destruct (quot_limbs (m_p q) r ua m (a * c / B) (default 0 (m_p q !! m))) as (r' & Er & Hlr' & Hokr' & Hvr');
    [done.. | |].
  { intros E. destruct Hcase as [(_ & H & _)|[_ H]]; [lia | done]. }
  exists y2, r'. rewrite Er, Hr, Zmult_mod_distr_r in Hdg4. split_and!; [done | exact Hdg4 | done | done |].
  rewrite Hvr', Hvr, Hq. apply Z.div_mul_cancel_r; lia.
Qed.

Lemma div_main_spec st0 st x y q t1 t2 xv yv ua :
  dst st0 st x y q t1 t2 -> pos_mpi x xv (ua + 1) true -> pos_mpi y yv (ua + 2) false ->
  m_used x = ua -> yv <= xv -> div_safe xv yv ->
  limbs_ok (m_p t1) -> m_limbs t1 = (ua + 3)%nat -> limbs_ok (m_p t2) -> m_limbs t2 = 3%nat ->
  limbs_ok (m_p q) -> (ua <= m_limbs q)%nat -> take ua (m_p q) = replicate ua 0 ->
  wp (div_main X Y Q T1 T2)
    (fun k st' => exists y' r, (k < 64)%nat /\
       dividing st0 y' (with_p q (r ++ drop ua (m_p q))) (xv mod yv * 2 ^ Z.of_nat k) (ua + 1) (ua + 3) st' /\
       length r = ua /\ limbs_ok r /\ lval r = xv / yv) st.
Proof.
  intros Hd Hx Hy Hua Hle Hsafe Hk1 Hl1 Hk2 Hl2 Hokq Hlq Hzq.
  pose proof (pm_pos _ _ _ _ Hy) as Hyp. pose proof (pm_pos _ _ _ _ Hx) as Hxp.
  assert (Huy : (m_used y <= ua)%nat).
  { rewrite <- Hua. apply mag_used_le; [apply Hy | apply Hx |]. rewrite (pm_mag _ _ _ _ Hx), (pm_mag _ _ _ _ Hy). done. }
  pose proof (mag_bounds x (pm_ok _ _ _ _ Hx)) as Hbx. rewrite Hua, (pm_mag _ _ _ _ Hx) in Hbx.
  unfold div_main. mstep. eapply wp_mono.
  { apply bitlen_spec; [apply (dst_Y _ _ _ _ _ _ _ Hd) | apply Hy]. }
  intros bl ? [-> ->]. rewrite (pm_mag _ _ _ _ Hy). cbv zeta.
  destruct (norm_shift yv _ Hyp eq_refl) as (Hkb & t & Ht & Htb).
  set (kz := 63 - Z.land (fls64 yv) 63) in *.
  assert (Hk : (if (Z.to_nat (Z.land (fls64 yv) 63) <? 63)%nat
                then (63 - Z.to_nat (Z.land (fls64 yv) 63))%nat else 0%nat) = Z.to_nat kz).
  { subst kz. destruct (Nat.ltb_spec (Z.to_nat (Z.land (fls64 yv) 63)) 63); lia. }
  rewrite Hk. set (k := Z.to_nat kz) in *. assert (Ek : kz = Z.of_nat k) by (subst k; lia). rewrite Ek in *. clearbody k.
  clear Hk Ek kz. set (K := 2 ^ Z.of_nat k) in *. assert (HK : 1 <= K) by (subst K; apply (Z.pow_le_mono_r 2 0); lia).
  mstep. eapply wp_mono; [apply (norm_part _ _ _ _ _ _ _ xv yv (ua + 1) (ua + 2) k Hd Hx Hy); lia |].
  fold K. intros ? st1 (x1 & y1 & Hd1 & Hx1 & Hy1).
  mstep. eapply wp_mpi_get; [apply (dst_X _ _ _ _ _ _ _ Hd1) |].
  mstep. eapply wp_mpi_get; [apply (dst_Y _ _ _ _ _ _ _ Hd1) |].
  assert (Huy1 : m_used y1 = S t) by (apply used_of_mag; [apply Hy1 | rewrite (pm_mag _ _ _ _ Hy1); lia]).
  pose proof (ok_used x1 (pm_ok _ _ _ _ Hx1)). pose proof (pm_pos _ _ _ _ Hx1).
  assert (Hn : bpow (m_used x1 - 1) <= xv * K).
  { rewrite <- (pm_mag _ _ _ _ Hx1). destruct (ok_norm x1 (pm_ok _ _ _ _ Hx1)) as [->|]; [| done].
    simpl. rewrite bpow_0, (pm_mag _ _ _ _ Hx1). lia. }
  replace (m_used y1 - 1)%nat with t by lia.
  eapply wp_mono.
  { apply (div_core st0 st1 x1 y1 q t1 t2 xv yv K ua t (m_used x1 - 1) k); try done; lia. }
  intros ? st2 (y' & r & -> & Hdg & Hr). exists y', r. split; [lia | done].
Qed.

End DivState.
