(* ===== verification/MpiDivSpec.v ===== *)
(** * Big integers of the TLS library: what a division returns

    [ttls_mpi_div_mpi] and [ttls_mpi_mod_mpi] of [tls/bignum.c] as a whole: the
    truncated quotient and its remainder, the inputs for which the code computes them
    ([div_safe]), and inputs for which it does not. *)

From S2P Require Import Prelude MpiMem Mpi MpiDiv.

(** [dst] without the quotient's frame: what the locals of a division leave. *)
Section Rest.
Context (X Y Q T1 T2 : nat).
Hypothesis Hdis : NoDup [X; Y; Q; T1; T2].

Notation dst := (dst X Y Q T1 T2).
Notation dividing := (dividing X Y Q T1 T2).

(** The remainder of a zero dividend part may carry a minus sign. *)
Definition rem_ok (m : TlsMpi) : Prop := mpi_ok m \/ (m_s m = -1 /\ m_used m = 1%nat).

Lemma cmp_int_rem R m st :
  obj st !! R = Some m -> rem_ok m ->
  wp (c <~ ttls_mpi_cmp_int R 0;; if c =? 0 then set_s R 1 else sm_ret tt) (fun _ st' => st' = st) st.
Proof.
  intros HR [Hok|[Hs Hu]].
  - mstep. eapply wp_mono; [by apply (cmp_int_spec R m 0) |]. intros c ? [-> Hc].
    destruct (Z.eqb_spec c 0) as [->|]; [| by mstep]. rewrite Z.sub_0_r in Hc.
    pose proof (mval_abs m Hok). assert (Hz : mag m = 0) by (destruct (mval m); simpl in Hc; lia).
    eapply wp_set_s; [done |]. rewrite upd_same; [done |]. rewrite HR. f_equal.
    rewrite <- (ok_zero m Hok Hz). by destruct m.
  - unfold ttls_mpi_cmp_int. mstep. mstep. mstep. rewrite Hu, Hs. simpl. mstep. simpl. by mstep.
Qed.

(** [X >>= k], [X->s = A->s], [R = X]. *)
Definition div_rest (A R k : nat) : MM unit :=
  ttls_mpi_shift_r X k;;;
  mx <~ mpi_get X;; mpi_fixup_used X (m_used mx);;;
  a <~ mpi_get A;; set_s X (m_s a);;;
  ttls_mpi_copy R X;;;
  c <~ ttls_mpi_cmp_int R 0;;
  if c =? 0 then set_s R 1 else sm_ret tt.

(** [X >>= k] of a dividend [v * 2 ^ k]. *)
Lemma shift_rem st x v k :
  obj st !! X = Some x -> mpi_ok x -> m_s x = 1 -> mag x = v * 2 ^ Z.of_nat k -> 0 <= v ->
  wp (ttls_mpi_shift_r X k) (fun _ st' => exists x', st' = upd X x' st /\ mpi_ok x' /\ mag x' = v) st.
Proof.
  intros HX Hok Hs Hm Hv. pose proof (pow2_pos (Z.of_nat k) ltac:(lia)) as Hp.
  destruct (decide (v = 0)) as [->|Hne].
  - eapply wp_mono; [apply (shift_r_zero X x); [done | done | lia] |]. intros ? ? ->.
    exists x. rewrite upd_same by done. split_and!; [done | done | lia].
  - destruct (decide (k = 0%nat)) as [->|Hk].
    + unfold ttls_mpi_shift_r. mstep. mstep. simpl. mstep. exists x. rewrite upd_same by done.
      split_and!; [done | done | simpl in Hm; lia].
    + eapply wp_mono; [apply (shift_r_spec X x); [done | done | nia | lia] |].
      intros ? ? (x' & -> & _ & Hm' & _ & _ & Hpos & _). exists x'.
      rewrite Hm, Z.div_mul in Hm', Hpos by lia. split_and!; [done | apply Hpos; lia | done].
Qed.

Lemma dst_set_other st0 st x y q t1 t2 R m :
  R ∉ [X; Y; Q; T1; T2] -> dst st0 st x y q t1 t2 -> dst (upd R m st0) (upd R m st) x y q t1 t2.
Proof.
  intros HR [HX HY HQ HT1 HT2 Hf Hj].
  constructor; try (rewrite obj_upd_ne by (intros ->; set_solver); assumption); [| done].
  intros Z HZ. destruct (decide (Z = R)) as [->|Hne]; [by rewrite !obj_upd_eq |].
  rewrite !obj_upd_ne by done. by apply Hf.
Qed.

Lemma div_rest_spec st0 st y q v k A R a r lx l1 :
  dividing st0 y q (v * 2 ^ Z.of_nat k) lx l1 st -> 0 <= v ->
  A ∉ [X; Y; Q; T1; T2] -> R ∉ [X; Y; Q; T1; T2] ->
  obj st0 !! A = Some a -> m_s a = 1 \/ m_s a = -1 -> obj st0 !! R = Some r -> v < bpow (m_limbs r) -> (0 < m_limbs r)%nat ->
  wp (div_rest A R k)
    (fun _ st' => exists x' t1 t2 m, dst (upd R m st0) st' x' y q t1 t2 /\
       m_limbs m = m_limbs r /\ mval m = m_s a * v /\ (m_s a = 1 \/ v <> 0 -> mpi_ok m) /\
       limbs_ok (m_p m) /\ rem_ok m) st.
Proof.
  intros (x & t1 & t2 & Hd & Hok & Hs & Hm & _) Hv HA HR Ha Hsa Hr Hfit Hl. unfold div_rest.
  assert (HXR : X <> R) by (intros ->; set_solver).
  mstep. eapply wp_mono; [apply (shift_rem st x v k); try done; apply (dst_X _ _ _ _ _ _ _ _ _ _ _ _ Hd) |].
  intros ? ? (x1 & -> & Hok1 & Hm1). pose proof (dst_set_X X Y Q T1 T2 Hdis _ _ _ _ _ _ _ x1 Hd) as Hd1.
  pose proof (ok_used x1 Hok1) as Hu1.
  mstep. eapply wp_mpi_get; [apply obj_upd_eq |].
  mstep. eapply wp_fixup; [apply obj_upd_eq | done | apply Hok1 |].
  intros u Hu Hval Hnu. rewrite upd_upd. fold (mag x1) in Hval, Hnu. rewrite Hm1 in Hval, Hnu.
  pose proof (dst_set_X X Y Q T1 T2 Hdis _ _ _ _ _ _ _ (MkMpi (m_s x1) u (m_p x1)) Hd) as Hd2.
  mstep. eapply wp_mpi_get; [by rewrite (dst_frame _ _ _ _ _ _ _ _ _ _ _ _ Hd2) |].
  mstep. eapply wp_set_s; [apply obj_upd_eq |]. rewrite upd_upd. cbn [m_used m_p].
  set (x3 := MkMpi (m_s a) u (m_p x1)).
  pose proof (dst_set_X X Y Q T1 T2 Hdis _ _ _ _ _ _ _ x3 Hd) as Hd3.
  assert (Hur : (u <= m_limbs r)%nat).
  { destruct Hnu as [->|Hnu]; [lia |]. assert (bpow (u - 1) < bpow (m_limbs r)) as ?%bpow_lt_inv by lia. lia. }
  assert (Hl3 : (1 <= m_used x3 <= m_limbs x3)%nat) by (unfold m_limbs in *; simpl; lia).
  mstep. eapply wp_mono.
  { apply (copy_gen R X r x3); [by rewrite (dst_frame _ _ _ _ _ _ _ _ _ _ _ _ Hd3) | apply obj_upd_eq
      | congruence | done | done]. }
  intros ? ? ->. set (m := mpi_copy_of r x3).
  destruct (mpi_copy_of_props r x3) as (Hlm & Hmm & _ & Hokm); [lia | done |].
  assert (Hm3 : mag x3 = v) by done.
  assert (Hcase : m_s a = 1 \/ v <> 0 -> mpi_ok m).
  { intros Hc. apply Hokm. apply (mpi_ok_intro _ _ _ v); [done | unfold m_limbs in *; lia | apply Hok1 | done | done |].
    intros E. destruct Hc as [|?]; done. }
  assert (Hrok : rem_ok m).
  { destruct (decide (m_s a = 1 \/ v <> 0)) as [Hc|Hc]; [left; by apply Hcase |].
    assert (v = 0) by (destruct (decide (v = 0)); tauto).
    right. split; [simpl; tauto |]. simpl. destruct Hnu as [|Hnu]; [done |]. pose proof (bpow_pos (u - 1)). lia. }
  eapply wp_mono; [apply (cmp_int_rem R m); [apply obj_upd_eq | done] |].
  intros ? ? ->. exists x3, t1, t2, m. split_and!; [by apply dst_set_other | done | | done | | done].
  - unfold mval. subst m. by rewrite Hmm, Hm3.
  - simpl. apply limbs_ok_app. split; [apply limbs_ok_take, Hok1 | auto with tfw].
Qed.

(** The copies of the operands, the cleared quotient and the main loop. *)
Lemma div_setup st0 st x y q t1 t2 A B a b (al : MM unit) (rest : nat -> MM unit) (P : unit -> MpiMem -> Prop) :
  let ua := m_used a in
  dst st0 st x y q t1 t2 -> A ∉ [X; Y; Q; T1; T2] -> B ∉ [X; Y; Q; T1; T2] ->
  obj st0 !! A = Some a -> obj st0 !! B = Some b -> mpi_ok a -> mpi_ok b ->
  0 < mag b <= mag a -> div_safe (mag a) (mag b) ->
  m_limbs x = (ua + 1)%nat -> m_limbs y = (ua + 2)%nat ->
  limbs_ok (m_p t1) -> m_limbs t1 = (ua + 3)%nat -> limbs_ok (m_p t2) -> m_limbs t2 = 3%nat ->
  limbs_ok (m_p q) -> (ua <= m_limbs q)%nat ->
  (forall st', obj st' !! Q = Some q -> wp al (fun _ st'' => st'' = st') st') ->
  (forall k st' y' r, (k < 64)%nat ->
     dividing st0 y' (MkMpi (m_s q) ua (r ++ drop ua (m_p q))) (mag a mod mag b * 2 ^ Z.of_nat k) (ua + 1) (ua + 3) st' ->
     length r = ua -> limbs_ok r -> lval r = mag a / mag b -> wp (rest k) P st') ->
  wp (ttls_mpi_copy_alloc X A false;;;
      ttls_mpi_copy_alloc Y B false;;;
      set_s Y 1;;; set_s X 1;;;
      al;;; set_used Q ua;;; bzero (MPI_P Q) ua;;;
      k <~ div_main X Y Q T1 T2;; rest k) P st.
Proof.
  intros ua Hd HA HB Ha Hb Hoa Hob Hab Hsafe Hlx Hly Hk1 Hl1 Hk2 Hl2 Hokq Hlq Hal Hrest.
  pose proof (ok_used a Hoa) as Hua. pose proof (mag_used_le b a Hob Hoa ltac:(lia)) as Hub.
  mstep. eapply wp_mono.
  { apply (copy_alloc_spec X A x a); [apply (dst_X _ _ _ _ _ _ _ _ _ _ _ _ Hd)
      | by rewrite (dst_frame _ _ _ _ _ _ _ _ _ _ _ _ Hd) | intros ->; set_solver | done | fold ua; lia]. }
  intros ? ? (x1 & -> & Hox1 & Hlx1 & Hsx1 & Hux1 & Hmx1 & Hcx1).
  pose proof (dst_set_X X Y Q T1 T2 Hdis _ _ _ _ _ _ _ x1 Hd) as Hd1.
  mstep. eapply wp_mono.
  { apply (copy_alloc_spec Y B y b); [apply (dst_Y _ _ _ _ _ _ _ _ _ _ _ _ Hd1)
      | by rewrite (dst_frame _ _ _ _ _ _ _ _ _ _ _ _ Hd1) | intros ->; set_solver | done | fold ua in Hub; lia]. }
  intros ? ? (y1 & -> & Hoy1 & Hly1 & Hsy1 & Huy1 & Hmy1 & Hcy1).
  pose proof (dst_set_Y X Y Q T1 T2 Hdis _ _ _ _ _ _ _ y1 Hd1) as Hd2.
  mstep. eapply wp_set_s; [apply (dst_Y _ _ _ _ _ _ _ _ _ _ _ _ Hd2) |].
  set (y2 := MkMpi 1 (m_used y1) (m_p y1)).
  pose proof (dst_set_Y X Y Q T1 T2 Hdis _ _ _ _ _ _ _ y2 Hd2) as Hd3.
  mstep. eapply wp_set_s; [apply (dst_X _ _ _ _ _ _ _ _ _ _ _ _ Hd3) |].
  set (x2 := MkMpi 1 (m_used x1) (m_p x1)).
  pose proof (dst_set_X X Y Q T1 T2 Hdis _ _ _ _ _ _ _ x2 Hd3) as Hd4.
  mstep. eapply wp_mono; [apply Hal, (dst_Q _ _ _ _ _ _ _ _ _ _ _ _ Hd4) |]. intros ? ? ->.
  mstep. eapply wp_set_used; [apply (dst_Q _ _ _ _ _ _ _ _ _ _ _ _ Hd4) |].
  pose proof (dst_set_Q X Y Q T1 T2 Hdis _ _ _ _ _ _ _ (MkMpi (m_s q) ua (m_p q)) Hd4) as Hd5.
  mstep. eapply wp_bzero; [apply (dst_Q _ _ _ _ _ _ _ _ _ _ _ _ Hd5) | done |]. unfold spl.
  cbn [lp_obj lp_off MPI_P with_p m_s m_used m_p].
  assert (Hz : list_inserts 0 (replicate ua 0) (m_p q) = replicate ua 0 ++ drop ua (m_p q)).
  { unfold m_limbs in Hlq. rewrite <- (length_replicate ua 0) at 3. apply inserts_0. by rewrite length_replicate. }
  rewrite Hz. set (q1 := MkMpi (m_s q) ua (replicate ua 0 ++ drop ua (m_p q))).
  pose proof (dst_set_Q X Y Q T1 T2 Hdis _ _ _ _ _ _ _ q1 Hd5) as Hd6.
  mstep. eapply wp_mono.
  { apply (div_main_spec X Y Q T1 T2 Hdis st0 _ x2 y2 q1 t1 t2 (mag a) (mag b) ua Hd6); try done; try lia.
    - destruct Hox1. constructor; [| done | done | lia | unfold m_limbs in *; simpl; lia | done].
      constructor; try done. by left.
    - destruct Hoy1. constructor; [| done | done | lia | unfold m_limbs in *; simpl; lia | done].
      constructor; try done. by left.
    - simpl. apply limbs_ok_app. split; [auto with tfw | apply limbs_ok_drop, Hokq].
    - unfold m_limbs. simpl. rewrite length_app, length_replicate. lia.
    - simpl. apply take_app_length'. by rewrite length_replicate. }
  intros k st' (y' & r & Hk & Hdg & Hlr & Hokr & Hvr).
  apply (Hrest k st' y' r); [done | | done | done | done].
  cbn [with_p m_s m_used m_p q1] in Hdg. by rewrite drop_app_length' in Hdg by (by rewrite length_replicate).
Qed.

(** [Q->s = A->s * B->s] and the leading zeros of the quotient. *)
Lemma quot_sign st0 st y q v lx l1 A B a b r d :
  dividing st0 y q v lx l1 st -> m_p q = r ++ d -> m_used q = length r -> limbs_ok (m_p q) -> 0 < lval r ->
  A ∉ [X; Y; Q; T1; T2] -> B ∉ [X; Y; Q; T1; T2] ->
  obj st0 !! A = Some a -> obj st0 !! B = Some b -> mpi_ok a -> mpi_ok b ->
  wp (ma <~ mpi_get A;; mb <~ mpi_get B;;
      set_s Q (m_s ma * m_s mb);;;
      mq <~ mpi_get Q;; mpi_fixup_used Q (m_used mq))
    (fun _ st' => exists q', dividing st0 y q' v lx l1 st' /\ mpi_ok q' /\ m_limbs q' = m_limbs q /\
       mval q' = m_s a * m_s b * lval r) st.
Proof.
  intros (x & t1 & t2 & Hd & Hrest) Hp Hu Hok Hpos HA HB Ha Hb Hoa Hob.
  assert (Hlr : (1 <= length r)%nat) by (destruct r; simpl in *; lia).
  mstep. eapply wp_mpi_get; [by rewrite (dst_frame _ _ _ _ _ _ _ _ _ _ _ _ Hd) |].
  mstep. eapply wp_mpi_get; [by rewrite (dst_frame _ _ _ _ _ _ _ _ _ _ _ _ Hd) |].
  mstep. eapply wp_set_s; [apply (dst_Q _ _ _ _ _ _ _ _ _ _ _ _ Hd) |].
  mstep. eapply wp_mpi_get; [apply obj_upd_eq |].
  eapply wp_fixup; [apply obj_upd_eq | | done |].
  { simpl. rewrite Hu. unfold m_limbs. simpl. rewrite Hp, length_app. lia. }
  cbn [m_p m_s m_used]. rewrite Hu, Hp, take_app_length. intros u Hub Hval Hnu. rewrite upd_upd.
  set (s := m_s a * m_s b).
  destruct (mpi_ok_intro s u (r ++ d) (lval r)) as [Hokq Hvq]; [| rewrite length_app; lia | by rewrite <- Hp | done | done | lia |].
  { subst s. destruct (ok_sign a Hoa) as [-> | ->], (ok_sign b Hob) as [-> | ->]; auto. }
  eexists. split; [exists x, t1, t2; split; [by eapply dst_set_Q | exact Hrest] |].
  split_and!; [done | unfold m_limbs; by rewrite Hp | done].
Qed.

End Rest.
(** ** The whole division *)

(** [P], when given, got the value [v]. *)
Record opt_res (P : option nat) (v : Z) (st st' : MpiMem) : Prop := {
  or_val : forall p, P = Some p -> exists m m', obj st !! p = Some m /\ obj st' !! p = Some m' /\
    mpi_ok m' /\ mval m' = v /\ m_limbs m' = m_limbs m;
  or_frame : forall Z, P <> Some Z -> obj st' !! Z = obj st !! Z;
  or_junk : junk st' = junk st
}.

Lemma opt_res_upd p v st m m' :
  obj st !! p = Some m -> mpi_ok m' -> mval m' = v -> m_limbs m' = m_limbs m ->
  opt_res (Some p) v st (upd p m' st).
Proof.
  intros Hm Hok Hv Hl. constructor; [| | done].
  - intros ? [= <-]. exists m, m'. by rewrite obj_upd_eq.
  - intros Z HZ. rewrite obj_upd_ne; [done |]. congruence.
Qed.

Lemma opt_res_none v st : opt_res None v st st.
Proof. by constructor. Qed.

Definition has_room (P : option nat) (n : nat) (st : MpiMem) : Prop :=
  forall p, P = Some p -> exists m, obj st !! p = Some m /\ limbs_ok (m_p m) /\ (n <= m_limbs m)%nat.

Lemma opt_lset P n st : has_room P n st -> (1 <= n)%nat ->
  wp (opt_mpi P (fun p => ttls_mpi_lset p 0)) (fun _ => opt_res P 0 st) st.
Proof.
  intros Hr Hn. destruct P as [p|]; simpl; [| mstep; apply opt_res_none].
  destruct (Hr p eq_refl) as (m & Hm & Hok & Hl).
  eapply wp_mono; [apply (lset_spec p m 0); [done | done | lia | lia] |].
  intros ? ? (m' & -> & Hok' & Hl' & Hv' & _). by apply opt_res_upd with (m := m).
Qed.

Lemma opt_copy P A a n st : obj st !! A = Some a -> mpi_ok a -> has_room P n st -> (m_used a <= n)%nat ->
  wp (opt_mpi P (fun p => if (p =? A)%nat then sm_ret tt else ttls_mpi_copy p A))
    (fun _ => opt_res P (mval a) st) st.
Proof.
  intros Ha Hoa Hr Hn. destruct P as [p|]; simpl; [| mstep; apply opt_res_none].
  destruct (Hr p eq_refl) as (m & Hm & Hok & Hl). destruct (Nat.eqb_spec p A) as [->|Hne].
  - mstep. rewrite <- (upd_same A a st) at 2 by done. by apply opt_res_upd with (m := a).
  - eapply wp_mono; [apply (copy_spec p A m a); done || lia |].
    intros ? ? (m' & -> & Hok' & Hl' & Hs' & _ & Hm' & _). apply opt_res_upd with (m := m); [done | done | | done].
    unfold mval. by rewrite Hs', Hm'.
Qed.

(** What the call leaves: the truncated quotient and the remainder of the dividend's
    sign.  A zero remainder of a negative dividend keeps the minus sign. *)
Record div_post (Q R : option nat) (a b : TlsMpi) (st st' : MpiMem) : Prop := {
  dp_quot : forall q, Q = Some q -> exists m m', obj st !! q = Some m /\ obj st' !! q = Some m' /\
    m_limbs m' = m_limbs m /\ mpi_ok m' /\ mval m' = Z.quot (mval a) (mval b);
  dp_rem : forall r, R = Some r -> exists m m', obj st !! r = Some m /\ obj st' !! r = Some m' /\
    m_limbs m' = m_limbs m /\ mval m' = Z.rem (mval a) (mval b) /\ (0 <= mval a \/ mval m' <> 0 -> mpi_ok m') /\
    limbs_ok (m_p m') /\ rem_ok m';
  dp_frame : forall Z, Q <> Some Z -> R <> Some Z -> obj st' !! Z = obj st !! Z;
  dp_junk : junk st' = junk st
}.

Record div_pre (Q R : option nat) (A B : nat) (a b : TlsMpi) (st : MpiMem) : Prop := {
  pre_A : obj st !! A = Some a;
  pre_B : obj st !! B = Some b;
  pre_oka : mpi_ok a;
  pre_okb : mpi_ok b;
  pre_b : mval b <> 0;
  pre_Q : has_room Q (m_used a) st;
  pre_R : has_room R (m_used b) st;
  pre_QA : Q <> Some A;
  pre_QB : Q <> Some B;
  pre_QR : Q = None \/ Q <> R;
  pre_junk : forall i, is_u64 (junk st i)
}.

Lemma div_post_intro Q R a b qv rv st st1 st2 :
  Q = None \/ Q <> R -> opt_res Q qv st st1 -> opt_res R rv st1 st2 ->
  qv = Z.quot (mval a) (mval b) -> rv = Z.rem (mval a) (mval b) -> div_post Q R a b st st2.
Proof.
  intros HQR H1 H2 -> ->. constructor.
  - intros q Hq. destruct (or_val _ _ _ _ H1 q Hq) as (m & m' & Hm & Hm' & Hok & Hv & Hl).
    exists m, m'. rewrite (or_frame _ _ _ _ H2); [done |]. intros E. destruct HQR; congruence.
  - intros r Hr. destruct (or_val _ _ _ _ H2 r Hr) as (m & m' & Hm & Hm' & Hok & Hv & Hl).
    exists m, m'. rewrite <- (or_frame _ _ _ _ H1); [| destruct HQR; congruence].
    split_and!; [done | done | done | done | done | apply Hok | by left].
  - intros Z HQ HR. by rewrite (or_frame _ _ _ _ H2), (or_frame _ _ _ _ H1).
  - by rewrite (or_junk _ _ _ _ H2), (or_junk _ _ _ _ H1).
Qed.
Lemma quot_rem_sign a b : mpi_ok a -> mpi_ok b -> 0 < mag b ->
  Z.quot (mval a) (mval b) = m_s a * m_s b * (mag a / mag b) /\
  Z.rem (mval a) (mval b) = m_s a * (mag a mod mag b).
Proof.
  intros Hoa Hob Hb. pose proof (mag_bounds a Hoa). unfold mval.
  destruct (ok_sign a Hoa) as [-> | ->], (ok_sign b Hob) as [-> | ->]; rewrite ?Z.mul_1_l;
    change (-1 * mag a) with (- mag a); change (-1 * mag b) with (- mag b);
    rewrite ?Z.quot_opp_l, ?Z.quot_opp_r, ?Z.rem_opp_l, ?Z.rem_opp_r, Z.quot_div_nonneg, Z.rem_mod_nonneg by lia; lia.
Qed.

Lemma fresh_upd T m st Z : obj (upd T m st) !! Z = None -> Z <> T /\ obj st !! Z = None.
Proof.
  intros H. destruct (decide (Z = T)) as [->|Hne]; [by rewrite obj_upd_eq in H |].
  by rewrite obj_upd_ne in H.
Qed.

Lemma obj_dealloc_ne T st Z : Z <> T -> obj (dealloc T st) !! Z = obj st !! Z.
Proof. intros Hne. unfold dealloc. simpl. by apply lookup_delete_ne. Qed.

Lemma obj_dealloc_eq T st : obj (dealloc T st) !! T = None.
Proof. unfold dealloc. simpl. apply lookup_delete_eq. Qed.

Lemma new_ok n st : (forall i, is_u64 (junk st i)) ->
  limbs_ok (m_p (MkMpi 1 0 (new_limbs n st))) /\ m_limbs (MkMpi 1 0 (new_limbs n st)) = n.
Proof.
  intros Hj. split; [| apply length_new_limbs]. simpl. apply Forall_fmap, Forall_true. intros i. apply Hj.
Qed.

(** The locals of the call. *)
Lemma new_locals n1 n2 n3 n4 (f : nat -> nat -> nat -> nat -> MM unit) (P : unit -> MpiMem -> Prop) st :
  (forall i, is_u64 (junk st i)) ->
  (forall X Y T1 T2 x y t1 t2 st', NoDup [X; Y; T1; T2] -> Forall (fun T => obj st !! T = None) [X; Y; T1; T2] ->
     obj st' !! X = Some x -> obj st' !! Y = Some y -> obj st' !! T1 = Some t1 -> obj st' !! T2 = Some t2 ->
     (forall Z, Z ∉ [X; Y; T1; T2] -> obj st' !! Z = obj st !! Z) -> junk st' = junk st ->
     m_limbs x = n1 -> m_limbs y = n2 -> limbs_ok (m_p t1) -> m_limbs t1 = n3 -> limbs_ok (m_p t2) -> m_limbs t2 = n4 ->
     wp (f X Y T1 T2) P st') ->
  wp (X <~ mpi_new n1;; Y <~ mpi_new n2;; T1 <~ mpi_new n3;; T2 <~ mpi_new n4;; f X Y T1 T2) P st.
Proof.
  intros Hj Hf. mstep. apply wp_new. intros X HX. mstep. apply wp_new. intros Y HY.
  mstep. apply wp_new. intros T1 HT1. mstep. apply wp_new. intros T2 HT2.
  apply fresh_upd in HY as [? ?]. apply fresh_upd in HT1 as [? HT1]. apply fresh_upd in HT1 as [? ?].
  apply fresh_upd in HT2 as [? HT2]. apply fresh_upd in HT2 as [? HT2]. apply fresh_upd in HT2 as [? ?].
  eapply Hf; [| | | | | | | done | ..]; rewrite ?obj_upd_ne by congruence; rewrite ?obj_upd_eq; try done.
  - rewrite !NoDup_cons, !not_elem_of_cons. split_and!; try done; try apply not_elem_of_nil. by constructor.
  - by repeat constructor.
  - intros Z HZ. rewrite !not_elem_of_cons in HZ. by rewrite !obj_upd_ne by naive_solver.
  - apply length_new_limbs.
  - apply length_new_limbs.
  - by apply new_ok.
  - apply length_new_limbs.
  - by apply new_ok.
  - apply length_new_limbs.
Qed.
Definition put_opt (R : option nat) (m : TlsMpi) (st : MpiMem) : MpiMem :=
  match R with Some r => upd r m st | None => st end.

(** What [m] is when it holds the remainder [s * v]. *)
Definition rem_in (m m0 : TlsMpi) (s v : Z) : Prop :=
  m_limbs m = m_limbs m0 /\ mval m = s * v /\ (s = 1 \/ v <> 0 -> mpi_ok m) /\
  limbs_ok (m_p m) /\ rem_ok m.

Lemma rest_part X Y Q T1 T2 (k2 : MM unit) P st st' y q v k A a R n lx l1 :
  NoDup [X; Y; Q; T1; T2] -> dividing X Y Q T1 T2 st y q (v * 2 ^ Z.of_nat k) lx l1 st' -> 0 <= v ->
  A ∉ [X; Y; Q; T1; T2] -> (forall r, R = Some r -> r ∉ [X; Y; Q; T1; T2]) ->
  obj st !! A = Some a -> mpi_ok a -> has_room R n st -> (1 <= n)%nat -> v < bpow n ->
  (forall m x t1 t2 st'', dst X Y Q T1 T2 (put_opt R m st) st'' x y q t1 t2 ->
     (forall r, R = Some r -> exists m0, obj st !! r = Some m0 /\ rem_in m m0 (m_s a) v) -> wp k2 P st'') ->
  wp (opt_mpi R (fun r => div_rest X A r k);;; k2) P st'.
Proof.
  intros Hdis Hdg Hv HA HR Ha Hoa Hroom Hn Hlt Hk. mstep. destruct R as [r|]; cbn [opt_mpi].
  - destruct (Hroom r eq_refl) as (mr & Hr & _ & Hl). pose proof (bpow_le n (m_limbs mr) Hl).
    eapply wp_mono.
    { apply (div_rest_spec X Y Q T1 T2 Hdis st st' y q v k A r a mr lx l1); try done; [by apply HR | apply Hoa | lia | lia]. }
    intros ? st'' (x' & t1 & t2 & m & Hd & Hm). apply (Hk m x' t1 t2 st'' Hd). intros ? [= <-]. by exists mr.
  - mstep. destruct Hdg as (x & t1 & t2 & Hd & _). by apply (Hk (MkMpi 1 0 []) x t1 t2 st' Hd).
Qed.


Lemma obj_dealloc4 X Y T1 T2 st Z :
  obj (dealloc X (dealloc Y (dealloc T1 (dealloc T2 st)))) !! Z =
  if decide (Z ∈ [X; Y; T1; T2]) then None else obj st !! Z.
Proof.
  destruct (decide (Z ∈ _)) as [Hin|Hn].
  - destruct (decide (Z = X)) as [->|]; [apply obj_dealloc_eq | rewrite obj_dealloc_ne by done].
    destruct (decide (Z = Y)) as [->|]; [apply obj_dealloc_eq | rewrite obj_dealloc_ne by done].
    destruct (decide (Z = T1)) as [->|]; [apply obj_dealloc_eq | rewrite obj_dealloc_ne by done].
    destruct (decide (Z = T2)) as [->|]; [apply obj_dealloc_eq |].
    rewrite !elem_of_cons, elem_of_nil in Hin. tauto.
  - rewrite !not_elem_of_cons in Hn. by rewrite !obj_dealloc_ne by naive_solver.
Qed.

(** The locals are gone at the end: [m] is the remainder, [mq] the quotient. *)
Lemma div_finish Q R a b X Y T1 T2 m mq st st' :
  mpi_ok a -> mpi_ok b -> 0 < mag b ->
  Forall (fun T => obj st !! T = None) [X; Y; T1; T2] ->
  (forall q, Q = Some q -> q ∉ [X; Y; T1; T2] /\ obj st' !! q = Some mq /\ mpi_ok mq /\
     (exists m0, obj st !! q = Some m0 /\ m_limbs mq = m_limbs m0) /\ mval mq = m_s a * m_s b * (mag a / mag b)) ->
  (forall r, R = Some r -> r ∉ [X; Y; T1; T2] /\ obj st' !! r = Some m /\
     exists m0, obj st !! r = Some m0 /\ rem_in m m0 (m_s a) (mag a mod mag b)) ->
  (forall Z, Z ∉ [X; Y; T1; T2] -> Q <> Some Z -> R <> Some Z -> obj st' !! Z = obj st !! Z) ->
  junk st' = junk st ->
  wp (mpi_free T2;;; mpi_free T1;;; mpi_free Y;;; mpi_free X) (fun _ => div_post Q R a b st) st'.
Proof.
  intros Hoa Hob Hb Hfr Hq Hr Hf Hj. destruct (quot_rem_sign a b Hoa Hob Hb) as [Eq Er].
  do 3 (mstep; apply wp_free). apply wp_free. constructor.
  - intros q HQ. destruct (Hq q HQ) as (Hn & Hm & Hok & (m0 & Hm0 & Hl) & Hv). exists m0, mq. rewrite obj_dealloc4, decide_False, Eq by done. done.
  - intros r HR. destruct (Hr r HR) as (Hn & Hm & m0 & Hm0 & Hl & Hv & Hok & Hlm & Hz). exists m0, m.
    rewrite obj_dealloc4, decide_False, Er by done. split_and!; [done | done | done | done | | done | done].
    intros [Ha|Hne]; apply Hok; [left | right; intros E; rewrite Hv, E in Hne; lia].
    destruct (ok_sign a Hoa) as [|Es]; [done |]. pose proof (mval_sgn a Hoa) as [_ Hneg]. specialize (Hneg Es). lia.
  - intros Z HQ HR. rewrite obj_dealloc4. destruct (decide _) as [Hin|Hn]; [| by apply Hf].
    rewrite Forall_forall in Hfr. by rewrite Hfr.
  - exact Hj.
Qed.

Lemma some_fresh L (st : MpiMem) Z m : Forall (fun T => obj st !! T = None) L -> obj st !! Z = Some m -> Z ∉ L.
Proof. rewrite Forall_forall. intros HL Hm Hin. apply HL in Hin. congruence. Qed.

Section Large.
Context (R : option nat) (A B : nat) (a b : TlsMpi) (st : MpiMem).
Hypothesis Hab : 0 < mag b <= mag a.
Hypothesis Hsafe : div_safe (mag a) (mag b).

Lemma rem_fits : mpi_ok b -> 0 <= mag a mod mag b < bpow (m_used b).
Proof.
  intros Hob. pose proof (mag_bounds b Hob). pose proof (Z.mod_pos_bound (mag a) (mag b) ltac:(lia)). lia.
Qed.

Lemma div_large_some q : div_pre (Some q) R A B a b st ->
  wp (div_large (Some q) R A B) (fun _ => div_post (Some q) R a b st) st.
Proof.
  intros [HA HB Hoa Hob _ HQ HR HQA HQB HQR Hj]. pose proof (rem_fits Hob) as Hrem.
  destruct (HQ q eq_refl) as (mq & Hq & Hokq & Hlq). pose proof (ok_used a Hoa). pose proof (ok_used b Hob).
  unfold div_large. mstep. mstep. apply new_locals; [done |].
  intros X Y T1 T2 x y t1 t2 st1 Hnd Hfr HX HY HT1 HT2 Hf1 Hj1 Hlx Hly Hk1 Hl1 Hk2 Hl2.
  pose proof (some_fresh _ _ _ _ Hfr Hq) as Hqn.
  assert (Hdis : NoDup [X; Y; q; T1; T2]).
  { rewrite !NoDup_cons, !not_elem_of_cons in *. naive_solver. }
  assert (Hout : forall Z m, obj st !! Z = Some m -> Z <> q -> Z ∉ [X; Y; q; T1; T2]).
  { intros Z m Hm Hne. pose proof (some_fresh _ _ _ _ Hfr Hm). rewrite !not_elem_of_cons in *. naive_solver. }
  assert (HoA : A ∉ [X; Y; q; T1; T2]) by (apply (Hout A a HA); congruence).
  assert (HoB : B ∉ [X; Y; q; T1; T2]) by (apply (Hout B b HB); congruence).
  mstep. mstep.
  assert (Hd : dst X Y q T1 T2 st st1 x y mq t1 t2).
  { constructor; try done; [by rewrite Hf1 |]. intros Z HZ. apply Hf1. rewrite !not_elem_of_cons in *. naive_solver. }
  apply (div_setup X Y q T1 T2 Hdis st st1 x y mq t1 t2 A B a b); try done; [intros st' Hst'; by eapply wp_alloc |].
  intros k st2 y' r Hk Hdg Hlr Hokr Hvr. cbn [opt_mpi].
  mstep. eapply wp_mono.
  { apply (quot_sign X Y q T1 T2 Hdis _ _ _ _ _ _ _ A B a b r (drop (m_used a) (m_p mq)) Hdg); try done.
    - simpl. apply limbs_ok_app. split; [done | apply limbs_ok_drop, Hokq].
    - rewrite Hvr. apply Z.div_str_pos. lia. }
  intros ? st3 (q3 & Hdg3 & Hok3 & Hl3 & Hv3). rewrite Hvr in Hv3.
  assert (HRo : forall r', R = Some r' -> r' ∉ [X; Y; q; T1; T2]).
  { intros r' Hr'. destruct (HR r' Hr') as (? & Hm & _). apply (Hout r' _ Hm). destruct HQR; congruence. }
  eapply (rest_part X Y q T1 T2) with (A := A) (a := a) (n := m_used b); [done | exact Hdg3 | lia | done.. | lia | lia |].
  intros m x' t1' t2' st4 Hd4 Hm. mstep. mstep.
  apply (div_finish _ _ _ _ _ _ _ _ m q3); [done | done | lia | done | | | |].
  - intros ? [= <-]. split_and!; [done | apply (dst_Q _ _ _ _ _ _ _ _ _ _ _ _ Hd4) | done | | done].
    exists mq. split; [done |]. rewrite Hl3. unfold m_limbs in *. simpl. rewrite length_app, length_drop. lia.
  - intros r' Hr'. split_and!; [| | by apply Hm].
    + destruct (HR r' Hr') as (? & Hmr & _). by apply (some_fresh _ _ _ _ Hfr Hmr).
    + rewrite (dst_frame _ _ _ _ _ _ _ _ _ _ _ _ Hd4) by (by apply HRo). rewrite Hr'. apply obj_upd_eq.
  - intros Z HZ HZq HZr. rewrite (dst_frame _ _ _ _ _ _ _ _ _ _ _ _ Hd4).
    + destruct R as [r'|]; [| done]. simpl. apply obj_upd_ne. congruence.
    + rewrite !not_elem_of_cons in *. naive_solver.
  - rewrite (dst_junk _ _ _ _ _ _ _ _ _ _ _ _ Hd4). by destruct R.
Qed.

Lemma div_large_none : div_pre None R A B a b st ->
  wp (div_large None R A B) (fun _ => div_post None R a b st) st.
Proof.
  intros [HA HB Hoa Hob _ _ HR _ _ _ Hj]. pose proof (rem_fits Hob) as Hrem.
  pose proof (ok_used a Hoa). pose proof (ok_used b Hob).
  unfold div_large. mstep. mstep. apply new_locals; [done |].
  intros X Y T1 T2 x y t1 t2 st1 Hnd Hfr HX HY HT1 HT2 Hf1 Hj1 Hlx Hly Hk1 Hl1 Hk2 Hl2.
  mstep. apply wp_new. intros Z HZ.
  assert (HZn : Z ∉ [X; Y; T1; T2]).
  { rewrite !not_elem_of_cons. split_and!; try (intros ->; congruence). apply not_elem_of_nil. }
  assert (HZst : obj st !! Z = None) by (by rewrite <- Hf1).
  assert (Hdis : NoDup [X; Y; Z; T1; T2]).
  { rewrite !NoDup_cons, !not_elem_of_cons in *. naive_solver. }
  assert (Hout : forall W m, obj st !! W = Some m -> W ∉ [X; Y; Z; T1; T2]).
  { intros W m Hm. pose proof (some_fresh _ _ _ _ Hfr Hm). assert (W <> Z) by congruence.
    rewrite !not_elem_of_cons in *. naive_solver. }
  destruct (new_ok (m_used a) st1) as [Hokq Hlq]; [by rewrite Hj1 |].
  set (mq := MkMpi 1 0 (new_limbs (m_used a) st1)) in *.
  assert (Hd : dst X Y Z T1 T2 st (upd Z mq st1) x y mq t1 t2).
  { rewrite !not_elem_of_cons in HZn. destruct HZn as (? & ? & ? & ? & _).
    constructor; rewrite ?obj_upd_ne by congruence; rewrite ?obj_upd_eq; try done.
    intros W HW. rewrite !not_elem_of_cons in HW. rewrite obj_upd_ne by naive_solver. apply Hf1.
    rewrite !not_elem_of_cons. naive_solver. }
  apply (div_setup X Y Z T1 T2 Hdis st _ x y mq t1 t2 A B a b); try done;
    [by apply (Hout A a) | by apply (Hout B b) | by rewrite Hlq |].
  intros k st2 y' r Hk Hdg Hlr Hokr Hvr. cbn [opt_mpi]. mstep. mstep.
  assert (HRo : forall r', R = Some r' -> r' ∉ [X; Y; Z; T1; T2]).
  { intros r' Hr'. destruct (HR r' Hr') as (? & Hm & _). apply (Hout r' _ Hm). }
  eapply (rest_part X Y Z T1 T2) with (A := A) (a := a) (n := m_used b);
    [done | exact Hdg | lia | by apply (Hout A a) | done.. | lia | lia |].
  intros m x' t1' t2' st4 Hd4 Hm. mstep. apply wp_free.
  apply (div_finish _ _ _ _ _ _ _ _ m mq); [done | done | lia | done | done | | |].
  - intros r' Hr'. split_and!; [| | by apply Hm].
    + destruct (HR r' Hr') as (? & Hmr & _). by apply (some_fresh _ _ _ _ Hfr Hmr).
    + rewrite obj_dealloc_ne by (pose proof (HRo r' Hr') as Hn; rewrite !not_elem_of_cons in Hn; naive_solver).
      rewrite (dst_frame _ _ _ _ _ _ _ _ _ _ _ _ Hd4) by (by apply HRo). rewrite Hr'. apply obj_upd_eq.
  - intros W HW _ HWr. destruct (decide (W = Z)) as [->|Hne]; [by rewrite obj_dealloc_eq |].
    rewrite obj_dealloc_ne, (dst_frame _ _ _ _ _ _ _ _ _ _ _ _ Hd4); [| | done].
    + destruct R as [r'|]; [| done]. simpl. apply obj_upd_ne. congruence.
    + rewrite !not_elem_of_cons in *. naive_solver.
  - simpl. rewrite (dst_junk _ _ _ _ _ _ _ _ _ _ _ _ Hd4). by destruct R.
Qed.

End Large.
(** The call returns, with the truncated quotient and the remainder. *)
Lemma div_mpi_spec Q R A B a b st :
  div_pre Q R A B a b st -> div_safe (mag a) (mag b) ->
  wp (ttls_mpi_div_mpi Q R A B) (fun _ => div_post Q R a b st) st.
Proof.
  intros Hpre Hsafe. destruct Hpre as [HA HB Hoa Hob Hb HQ HR HQA HQB HQR Hj] eqn:E. clear E.
  pose proof (ok_used a Hoa). pose proof (ok_used b Hob).
  pose proof (mval_abs a Hoa). pose proof (mval_abs b Hob). pose proof (mag_bounds b Hob).
  unfold ttls_mpi_div_mpi. mstep. eapply wp_mono; [by apply (cmp_int_spec B b 0) |].
  intros c ? [-> Hc]. rewrite (proj2 (Z.eqb_neq c 0)) by lia.
  mstep. eapply wp_mono; [by apply (cmp_int_spec B b 1) |]. intros c1 ? [-> Hc1].
  destruct (Z.eqb_spec c1 0) as [->|Hn1].
  { assert (Eb : mval b = 1) by lia.
    mstep. eapply wp_mono; [by apply (opt_copy Q A a (m_used a)) |]. intros ? st1 HQ1.
    eapply wp_mono; [apply (opt_lset R (m_used b)) |].
    - intros r Hr. destruct (HR r Hr) as (m & Hm & Hok & Hl). exists m.
      rewrite (or_frame _ _ _ _ HQ1); [done |]. destruct HQR; congruence.
    - lia.
    - intros ? st2 HR2. eapply div_post_intro; [done | exact HQ1 | exact HR2 | |]; rewrite Eb.
      + by rewrite Z.quot_1_r.
      + by rewrite Z.rem_1_r. }
  mstep. eapply wp_mono; [by apply (cmp_abs_spec A B a b) |]. intros c2 ? [-> Hc2].
  destruct (Z.ltb_spec c2 0) as [Hlt|Hge].
  { assert (Hm : mag a < mag b) by lia.
    mstep. eapply wp_mono; [apply (opt_lset Q (m_used a)); [done | lia] |]. intros ? st1 HQ1.
    eapply wp_mono; [apply (opt_copy R A a (m_used b)) |].
    - by rewrite (or_frame _ _ _ _ HQ1).
    - done.
    - intros r Hr. destruct (HR r Hr) as (m & Hm' & Hok & Hl). exists m.
      rewrite (or_frame _ _ _ _ HQ1); [done |]. destruct HQR; congruence.
    - apply (mag_used_le a b Hoa Hob). lia.
    - intros ? st2 HR2. eapply div_post_intro; [done | exact HQ1 | exact HR2 | |].
      + symmetry. apply Z.quot_small_iff; lia.
      + symmetry. apply Z.rem_small_iff; lia. }
  destruct Q as [q|]; [apply div_large_some | apply div_large_none]; done || lia.
Qed.
(** ** Remainder modulo a positive number *)

(** [R + B] for a remainder "minus zero". *)
Lemma add_neg_zero R B m b st :
  obj st !! R = Some m -> obj st !! B = Some b -> mpi_ok b -> m_s b = 1 -> 0 < mag b ->
  limbs_ok (m_p m) -> m_s m = -1 -> m_used m = 1%nat -> mag m = 0 -> (m_used b <= m_limbs m)%nat ->
  wp (ttls_mpi_add_mpi R R B) (fun _ => mres R (m_limbs m) (mval b) st) st.
Proof.
  intros HR HB Hob Hsb Hb Hm Hs Hu Hz Hl. pose proof (ok_used b Hob).
  unfold ttls_mpi_add_mpi. do 2 (mstep; mstep). rewrite Hs, Hsb. simpl. unfold sub_signed.
  mstep. eapply (wp_mono _ (fun r st' => st' = st /\ r < 0)).
  { unfold ttls_mpi_cmp_abs. do 2 (mstep; mstep). rewrite Hu.
    destruct (Nat.eqb_spec 1 (m_used b)) as [E|Hne]; simpl negb; cbv iota; mstep; [| split; [done | lia]].
    eapply wp_mono; [apply (cmp_loop_spec R B m b); [done | done | done | apply Hob | lia | lia] |].
    intros r st' [-> Hr]. mstep. split; [done |].
    assert (lval (take 1 (m_p m)) = 0) by (rewrite <- Hu; exact Hz).
    assert (lval (take 1 (m_p b)) = mag b) by (unfold mag; by rewrite <- E).
    destruct r as [[]|]; lia. }
  intros c ? [-> Hc]. rewrite (proj2 (Z.eqb_neq c 0)) by lia. destruct (Z.ltb_spec 0 c); [lia |].
  eapply wp_mono; [apply (sub_abs_signed R m st HR Hm B R b m 1); try done; try lia; by left |].
  intros ? ? Hr%sres_mres. rewrite Z.mul_1_l, Hz, Z.sub_0_r in Hr.
  replace (mval b) with (mag b); [done |]. unfold mval. rewrite Hsb. lia.
Qed.

(** At most one addition brings the remainder into [0, B]. *)
Lemma mod_up_spec R B m b st :
  obj st !! R = Some m -> obj st !! B = Some b -> R <> B -> mpi_ok b -> m_s b = 1 -> 0 < mag b ->
  limbs_ok (m_p m) -> (m_used b <= m_limbs m)%nat -> - mag b < mval m < mag b ->
  mpi_ok m \/ (m_s m = -1 /\ m_used m = 1%nat /\ mval m = 0) ->
  wp (mod_up 2 R B)
    (fun _ st' => exists m', st' = upd R m' st /\ mpi_ok m' /\ m_limbs m' = m_limbs m /\
       0 <= mval m' <= mag b /\ mval m' mod mag b = mval m mod mag b) st.
Proof.
  intros HR HB Hne Hob Hsb Hb Hlm Hl Hv Hm.
  assert (Evb : mval b = mag b) by (unfold mval; rewrite Hsb; lia).
  assert (Hdone : forall m' st', obj st' !! R = Some m' -> mpi_ok m' -> 0 <= mval m' ->
    wp (mod_up 1 R B) (fun _ st'' => st'' = st') st').
  { intros m' st' HR' Hok Hp. cbn [mod_up]. mstep; mstep.
    destruct (mag_of_mval m' _ Hok eq_refl Hp) as [-> _]. simpl. by mstep. }
  cbn [mod_up]. mstep; mstep. destruct (Z.ltb_spec (m_s m) 0) as [Hs|Hs].
  - mstep. eapply (wp_mono _ (fun _ => mres R (m_limbs m) (mval m + mval b) st)).
    { destruct Hm as [Hok|(Hsm & Hu & Hz)].
      - eapply wp_mono; [apply (add_mpi_spec R m st HR Hlm R B m b); try done; [| rewrite Hsb; lia] |].
        + pose proof (mval_abs m Hok). pose proof (mag_used_le m b Hok Hob ltac:(lia)). lia.
        + intros ? ?. apply sres_mres.
      - rewrite Hz, Z.add_0_l. apply add_neg_zero; try done. unfold mval in Hz. rewrite Hsm in Hz. lia. }
    intros ? ? (m' & -> & Hok' & Hl' & Hv').
    assert (Hp : 0 <= mval m') by (rewrite Hv', Evb; lia).
    eapply wp_mono; [apply (Hdone m'); [apply obj_upd_eq | done | done] |]. intros ? ? ->. exists m'.
    assert (mval m <= 0).
    { destruct Hm as [Hok|(_ & _ & ->)]; [| done]. pose proof (mval_sgn m Hok) as [_ Hn].
      destruct (ok_sign m Hok) as [E|E]; [lia | specialize (Hn E); lia]. }
    split_and!; [done | done | done | done | lia |]. rewrite Hv', Evb.
    rewrite <- (Z.mul_1_l (mag b)) at 1. by rewrite Z_mod_plus_full.
  - mstep. destruct Hm as [Hok|(Hsm & _)]; [| lia]. pose proof (mval_sgn m Hok) as [Hp _].
    destruct (ok_sign m Hok) as [E|E]; [| lia]. specialize (Hp E).
    exists m. rewrite upd_same by done. split_and!; [done.. | lia | done].
Qed.

(** At most one subtraction brings it below [B]. *)
Lemma mod_down_spec R B m b st :
  obj st !! R = Some m -> obj st !! B = Some b -> R <> B -> mpi_ok b -> m_s b = 1 -> 0 < mag b ->
  mpi_ok m -> (m_used b <= m_limbs m)%nat -> 0 <= mval m <= mag b ->
  wp (mod_down 2 R B) (fun _ => mres R (m_limbs m) (mval m mod mag b) st) st.
Proof.
  intros HR HB Hne Hob Hsb Hb Hok Hl Hv.
  assert (Evb : mval b = mag b) by (unfold mval; rewrite Hsb; lia).
  destruct (mag_of_mval m _ Hok eq_refl ltac:(lia)) as [Hsm Hmm].
  assert (Hcmp : forall m' st', obj st' !! R = Some m' -> obj st' !! B = Some b -> mpi_ok m' ->
    wp (ttls_mpi_cmp_mpi R B) (fun c st'' => st'' = st' /\ Z.sgn c = Z.sgn (mval m' - mag b)) st').
  { intros. rewrite <- Evb. by apply cmp_mpi_spec. }
  cbn [mod_down]. mstep. eapply wp_mono; [by apply (Hcmp m) |]. intros c ? [-> Hc].
  destruct (Z.leb_spec 0 c) as [Hge|Hlt].
  - assert (E : mval m = mag b) by lia. mstep. eapply wp_mono.
    { apply (sub_mpi_spec R m st HR (ok_limbs m Hok) R B m b); try done; [| rewrite Hsm, Hsb; lia].
      pose proof (mag_used_le m b Hok Hob ltac:(lia)). lia. }
    intros ? ? (m' & -> & Hok' & Hl' & Hv' & _). rewrite E, Evb, Z.sub_diag in Hv'.
    mstep. eapply wp_mono; [apply (Hcmp m'); [apply obj_upd_eq | by rewrite obj_upd_ne | done] |].
    intros c' ? [-> Hc']. destruct (Z.leb_spec 0 c'); [lia |]. mstep. exists m'.
    rewrite E, Z_mod_same_full. done.
  - mstep. exists m. rewrite upd_same by done. rewrite Z.mod_small by lia. done.
Qed.
(** [R = A mod B], the representative in [0, B). *)
Lemma mod_mpi_spec R A B a b st :
  div_pre None (Some R) A B a b st -> m_s b = 1 -> R <> B -> div_safe (mag a) (mag b) ->
  wp (ttls_mpi_mod_mpi R A B)
    (fun _ st' => exists m m', obj st !! R = Some m /\ obj st' !! R = Some m' /\ mpi_ok m' /\
       m_limbs m' = m_limbs m /\ mval m' = mval a mod mval b /\
       (forall Z, Z <> R -> obj st' !! Z = obj st !! Z) /\ junk st' = junk st) st.
Proof.
  intros Hpre Hsb Hne Hsafe. destruct (pre_R _ _ _ _ _ _ _ Hpre R eq_refl) as (r0 & Hr0 & _ & Hroom).
  pose proof (pre_B _ _ _ _ _ _ _ Hpre) as HB. pose proof (pre_okb _ _ _ _ _ _ _ Hpre) as Hob.
  pose proof (pre_b _ _ _ _ _ _ _ Hpre) as Hb0. pose proof (mag_bounds b Hob).
  assert (Evb : mval b = mag b) by (unfold mval; rewrite Hsb; lia).
  unfold ttls_mpi_mod_mpi. mstep. mstep. mstep. mstep. { by rewrite Hsb. }
  mstep. eapply wp_mono; [by apply (div_mpi_spec None (Some R) A B a b) |].
  intros ? st1 [_ Hrem Hf Hj].
  destruct (Hrem R eq_refl) as (m & m1 & Hm & Hm1 & Hl1 & Hv1 & Hok1 & Hlm1 & Hz1).
  assert (m = r0) as -> by congruence.
  assert (HB1 : obj st1 !! B = Some b) by (rewrite Hf; congruence).
  pose proof (Z.rem_bound_abs (mval a) (mval b) Hb0) as Hrb. rewrite <- Hv1, Evb in Hrb.
  mstep. eapply wp_mono.
  { apply (mod_up_spec R B m1 b st1); try done; [lia | lia | lia |].
    destruct Hz1 as [|[? ?]]; [by left |].
    destruct (decide (mval m1 = 0)); [by right | left; apply Hok1; by right]. }
  intros ? ? (m2 & -> & Hok2 & Hl2 & Hv2 & Hmod). eapply wp_mono.
  { apply (mod_down_spec R B m2 b); try done; [apply obj_upd_eq | by rewrite obj_upd_ne | lia | lia]. }
  intros ? ? (m3 & -> & Hok3 & Hl3 & Hv3). rewrite upd_upd. exists r0, m3.
  split_and!; [done | apply obj_upd_eq | done | lia | | |].
  - rewrite Hv3, Hmod, Hv1, Evb. pose proof (Z.quot_rem' (mval a) (mag b)).
    replace (mval a) with (Z.rem (mval a) (mag b) + Z.quot (mval a) (mag b) * mag b) at 2 by lia.
    by rewrite Z_mod_plus_full.
  - intros Z HZ. rewrite obj_upd_ne by done. apply Hf; congruence.
  - done.
Qed.
(** ** Deciding the precondition *)

Definition div_safe_check (a b : Z) (n : nat) : bool :=
  forallb (fun s => negb (b * bpow s <=? a) || (bpow (s - 2) <=? a mod (b * bpow s))) (seq 1 n).

Lemma div_safe_check_spec a b n : 0 < b -> a < bpow n -> div_safe_check a b n = true -> div_safe a b.
Proof.
  intros Hb Ha Hc s Hs Hle. assert (Hsn : (s < n)%nat).
  { apply bpow_lt_inv. pose proof (bpow_pos s). nia. }
  unfold div_safe_check in Hc. rewrite forallb_forall in Hc. specialize (Hc s).
  rewrite (proj2 (Z.leb_le _ _) Hle) in Hc. apply Z.leb_le, Hc, in_seq. lia.
Qed.

Definition div_mem (a b : TlsMpi) : MpiMem :=
  MkMem (list_to_map [(0%nat, a); (1%nat, b); (2%nat, MkMpi 1 0 (replicate 8 77)); (3%nat, MkMpi 1 0 (replicate 8 78))])
    (fun _ => 99).

(** The values of the quotient and the remainder of a run in [div_mem]. *)
Definition div_run (Q : nat) (a b : Z) (ua ub : nat) : option (option Z * option (Z * Z)) :=
  match ttls_mpi_div_mpi (Some Q) (Some 3%nat) 0 1 (div_mem (mpi_of ua ua a) (mpi_of ub ub b)) with
  | Ok (_, st) => Some (mval <$> obj st !! Q, (fun m => (m_s m, mag m)) <$> obj st !! 3%nat)
  | Bug => None
  end.

(** C11: For well-formed operands, a nonzero divisor, destinations with room that alias nothing
    but the remainder's operand, and a dividend whose partial remainders are long enough
    ([div_safe]), [ttls_mpi_div_mpi()] returns: the quotient is the truncated quotient, the
    remainder has the sign of the dividend and is smaller than the divisor, both are
    well-formed (a zero remainder of a negative dividend apart), and no other number is
    touched. *)
Theorem mpi_div_correct Q R A B a b st :
  div_pre Q R A B a b st -> div_safe (mag a) (mag b) ->
  exists st', ttls_mpi_div_mpi Q R A B st = Ok (tt, st') /\ div_post Q R a b st st'.
Proof.
  intros Hpre Hsafe. destruct (wp_ok _ _ _ (div_mpi_spec Q R A B a b st Hpre Hsafe)) as ([] & st' & He & Hp).
  by exists st'.
Qed.

Lemma mpi_div_correct_witness :
  let a := mpi_of 5 5 (- (2 ^ 300 + 12345)) in
  let b := mpi_of 2 2 (2 ^ 70 + 17) in
  exists st', ttls_mpi_div_mpi (Some 2%nat) (Some 3%nat) 0 1 (div_mem a b) = Ok (tt, st') /\
    div_post (Some 2%nat) (Some 3%nat) a b (div_mem a b) st'.
Proof.
  intros a b. apply (mpi_div_correct (Some 2%nat) (Some 3%nat) 0 1 a b (div_mem a b)).
  - constructor; try done.
    + mpi_ok_tac.
    + mpi_ok_tac.
    + intros ? [= <-]. eexists. split; [reflexivity |]. split; [apply limbs_ok_check; by vm_compute | vm_compute; lia].
    + intros ? [= <-]. eexists. split; [reflexivity |]. split; [apply limbs_ok_check; by vm_compute | vm_compute; lia].
    + by right.
  - apply (div_safe_check_spec _ _ 5); by vm_compute.
Defined.

(** ** Inputs outside the precondition *)

(** A partial remainder of zero: [ttls_mpi_sub_mpi] sets one limb to zero and leaves the
    others, the next digit of the quotient is guessed from them.  The quotient of
    [5 * 2^64] by 5 is not [2^64]. *)
Lemma div_stale_limbs :
  div_run 2 (5 * 2 ^ 64) 5 2 1 = Some (Some (2 ^ 65 - 2), Some (1, 92233720368547758070)).
Proof. by vm_compute. Qed.

(** A short partial remainder with a zero digit two limbs up: the shifted zero counts as
    longer than the remainder, and the subtraction runs below zero. *)
Lemma div_zero_digit : div_run 2 (5 * 2 ^ 192 + 1) 5 4 1 = None.
Proof. by vm_compute. Qed.

(** The quotient stored over the dividend: for a dividend below the divisor it is cleared
    before the remainder is copied from it. *)
Lemma div_alias_small : div_run 0 3 5 1 1 = Some (Some 0, Some (1, 0)).
Proof. by vm_compute. Qed.

(** The remainder of [-10] by 5 is a zero with a minus sign. *)
Lemma div_negative_zero : div_run 2 (-10) 5 1 1 = Some (Some (-2), Some (-1, 0)).
Proof. by vm_compute. Qed.
