(* ===== verification/MpiCalc.v ===== *)
(** * Big integers of the TLS library: any sequence of operations

    The operations of [tls/bignum.c] as the instructions of a machine whose registers are
    the numbers of the store, and the machine on integers they implement: each register has
    a capacity in limbs and a value, an instruction has the guard the code relies on.  Every
    instruction whose guard holds runs to its end, keeps all numbers well-formed and
    computes the exact integer; so does every sequence of them. *)

From S2P Require Import Prelude MpiMem Mpi MpiBin MpiDiv MpiDivSpec.

(** ** Instructions *)

Inductive mpi_op : Type :=
| OpLset (X : nat) (z : Z)
| OpCopy (X A : nat)
| OpSwap (X Y : nat) (swap : Z)
| OpRead (X : nat) (buf : bytes)
| OpAdd (X A B : nat)
| OpSub (X A B : nat)
| OpAddInt (X A : nat) (b : Z)
| OpSubInt (X A : nat) (b : Z)
| OpMul (X A B : nat)
| OpMulUint (X A : nat) (b : Z)
| OpShl (X A count : nat)
| OpShr (X count : nat)
| OpDiv (Q R : nat) (A B : nat)
| OpMod (R A B : nat).

Definition exec_op (op : mpi_op) : MM unit :=
  match op with
  | OpLset X z => ttls_mpi_lset X z
  | OpCopy X A => ttls_mpi_copy X A
  | OpSwap X Y swap => _ <~ ttls_mpi_safe_cond_swap X Y swap;; sm_ret tt
  | OpRead X buf => ttls_mpi_read_binary X buf
  | OpAdd X A B => ttls_mpi_add_mpi X A B
  | OpSub X A B => ttls_mpi_sub_mpi X A B
  | OpAddInt X A b => ttls_mpi_add_int X A b
  | OpSubInt X A b => ttls_mpi_sub_int X A b
  | OpMul X A B => ttls_mpi_mul_mpi X A B
  | OpMulUint X A b => ttls_mpi_mul_uint X A b
  | OpShl X A count => ttls_mpi_shift_l X A count
  | OpShr X count => ttls_mpi_shift_r X count
  | OpDiv Q R A B => ttls_mpi_div_mpi (Some Q) (Some R) A B
  | OpMod R A B => ttls_mpi_mod_mpi R A B
  end.

Fixpoint exec_prog (ops : list mpi_op) : MM unit :=
  match ops with
  | [] => sm_ret tt
  | op :: ops => exec_op op;;; exec_prog ops
  end.

(** ** The machine on integers *)

Abbreviation regs := (gmap nat (nat * Z)).

(** The limbs of a value. *)
Definition limbs_of (v : Z) : nat := Nat.max 1 (BITS_TO_LIMBS (fls64 (Z.abs v))).

(** [X] has the capacity [n]. *)
Definition cap (s : regs) (X n : nat) : Prop := exists v, s !! X = Some (n, v).
Definition val (s : regs) (A : nat) (a : Z) : Prop := exists n, s !! A = Some (n, a).

Inductive mpi_step (s : regs) : mpi_op -> regs -> Prop :=
| StLset X n z : cap s X n -> - 2 ^ 63 <= z < 2 ^ 63 ->
    mpi_step s (OpLset X z) (<[X := (n, z)]> s)
| StCopy X A n a : cap s X n -> val s A a -> X <> A -> (limbs_of a <= n)%nat ->
    mpi_step s (OpCopy X A) (<[X := (n, a)]> s)
| StSwap X Y swap n k x y : s !! X = Some (n, x) -> s !! Y = Some (k, y) -> X <> Y -> is_u8 swap ->
    (limbs_of y <= n)%nat -> (limbs_of x <= k)%nat ->
    mpi_step s (OpSwap X Y swap)
      (<[X := (n, if swap =? 0 then x else y)]> (<[Y := (k, if swap =? 0 then y else x)]> s))
| StRead X n buf : cap s X n -> bytes_ok buf -> buf <> [] -> (CHARS_TO_LIMBS (length buf) <= n)%nat ->
    mpi_step s (OpRead X buf) (<[X := (n, be_load buf)]> s)
| StAdd X A B n a b : cap s X n -> val s A a -> val s B b ->
    (limbs_of a `max` limbs_of b <= n)%nat ->
    (0 <= a <-> 0 <= b) -> A <> B -> Z.abs a + Z.abs b < bpow n ->
    mpi_step s (OpAdd X A B) (<[X := (n, a + b)]> s)
| StAddOpp X A B n a b : cap s X n -> val s A a -> val s B b ->
    (limbs_of a `max` limbs_of b <= n)%nat -> ~ (0 <= a <-> 0 <= b) ->
    mpi_step s (OpAdd X A B) (<[X := (n, a + b)]> s)
| StSub X A B n a b : cap s X n -> val s A a -> val s B b ->
    (limbs_of a `max` limbs_of b <= n)%nat -> (0 <= a <-> 0 <= b) ->
    mpi_step s (OpSub X A B) (<[X := (n, a - b)]> s)
| StSubOpp X A B n a b : cap s X n -> val s A a -> val s B b ->
    (limbs_of a `max` limbs_of b <= n)%nat ->
    ~ (0 <= a <-> 0 <= b) -> Z.abs a + Z.abs b < bpow n ->
    mpi_step s (OpSub X A B) (<[X := (n, a - b)]> s)
| StAddInt X A n a b : cap s X n -> val s A a -> - 2 ^ 63 <= b < 2 ^ 63 ->
    (limbs_of a <= n)%nat -> Z.abs a + Z.abs b < bpow n ->
    mpi_step s (OpAddInt X A b) (<[X := (n, a + b)]> s)
| StSubInt X A n x a b : s !! X = Some (n, x) -> 0 <= x -> val s A a -> 0 <= a -> 0 <= b < 2 ^ 63 ->
    (limbs_of a <= n)%nat -> (limbs_of a = 1%nat -> a - b < 2 ^ 63) ->
    mpi_step s (OpSubInt X A b) (<[X := (n, a - b)]> s)
| StMul X A B n a b : cap s X n -> val s A a -> val s B b -> (limbs_of a + limbs_of b <= n)%nat ->
    mpi_step s (OpMul X A B) (<[X := (n, a * b)]> s)
| StMulUint X A n a b : cap s X n -> val s A a -> is_u64 b -> (limbs_of a + 1 <= n)%nat ->
    mpi_step s (OpMulUint X A b) (<[X := (n, a * b)]> s)
| StShl X A count n a : cap s X n -> val s A a -> a <> 0 -> (0 < count)%nat ->
    (limbs_of a + count / 64 + 1 <= n)%nat ->
    mpi_step s (OpShl X A count) (<[X := (n, a * 2 ^ Z.of_nat count)]> s)
| StShr X count n x : s !! X = Some (n, x) -> (0 < count)%nat -> Z.quot x (2 ^ Z.of_nat count) <> 0 ->
    mpi_step s (OpShr X count) (<[X := (n, Z.quot x (2 ^ Z.of_nat count))]> s)
| StDiv Q R A B n k a b : cap s Q n -> cap s R k -> val s A a -> val s B b ->
    b <> 0 -> Q <> A -> Q <> B -> Q <> R -> (limbs_of a <= n)%nat -> (limbs_of b <= k)%nat ->
    div_safe (Z.abs a) (Z.abs b) -> 0 <= a \/ Z.rem a b <> 0 ->
    mpi_step s (OpDiv Q R A B) (<[R := (k, Z.rem a b)]> (<[Q := (n, Z.quot a b)]> s))
| StMod R A B n a b : cap s R n -> val s A a -> val s B b ->
    0 < b -> R <> B -> (limbs_of b <= n)%nat -> div_safe (Z.abs a) b ->
    mpi_step s (OpMod R A B) (<[R := (n, a mod b)]> s).

Inductive mpi_steps : regs -> list mpi_op -> regs -> Prop :=
| StNil s : mpi_steps s [] s
| StCons s op s1 ops s2 : mpi_step s op s1 -> mpi_steps s1 ops s2 -> mpi_steps s (op :: ops) s2.

(** ** The store and the registers *)

Definition holds (m : TlsMpi) (r : nat * Z) : Prop := mpi_ok m /\ m_limbs m = r.1 /\ mval m = r.2.

Record refines (st : MpiMem) (s : regs) : Prop := {
  rf_obj : forall X, match s !! X, obj st !! X with
                     | Some r, Some m => holds m r
                     | None, None => True
                     | _, _ => False
                     end;
  rf_junk : forall i, is_u64 (junk st i)
}.
Lemma used_limbs_of m : mpi_ok m -> m_used m = limbs_of (mval m).
Proof.
  intros Hok. pose proof (ok_used m Hok). pose proof (mag_bounds m Hok) as Hb.
  unfold limbs_of. rewrite (mval_abs m Hok). destruct (decide (mag m = 0)) as [E|Hne].
  - rewrite E. change (BITS_TO_LIMBS (fls64 0)) with 0%nat. simpl.
    destruct (ok_norm m Hok) as [|Hn]; [done |]. pose proof (bpow_pos (m_used m - 1)). lia.
  - destruct (BITS_TO_LIMBS_spec (mag m) ltac:(lia)) as [H1 H2]. set (n := BITS_TO_LIMBS _) in *.
    assert (bpow (n - 1) < bpow (m_used m)) as ?%bpow_lt_inv by lia.
    pose proof (mag_fits m n Hok ltac:(lia) ltac:(lia)). lia.
Qed.

Section Refine.
Context (st : MpiMem) (s : regs).
Hypothesis Hrf : refines st s.

Lemma rf_get A n a : s !! A = Some (n, a) ->
  exists m, obj st !! A = Some m /\ mpi_ok m /\ m_limbs m = n /\ mval m = a /\ mag m = Z.abs a /\
    m_used m = limbs_of a /\ (m_s m = 1 <-> 0 <= a) /\ (m_s m = 1 \/ m_s m = -1).
Proof.
  intros HA. pose proof (rf_obj _ _ Hrf A) as H. rewrite HA in H.
  destruct (obj st !! A) as [m|]; [| done]. destruct H as (Hok & Hl & Hv). simpl in Hl, Hv.
  exists m. pose proof (mval_abs m Hok). pose proof (mval_sgn m Hok) as [Hp Hn]. pose proof (ok_sign m Hok) as Hs.
  split_and!; [done | done | done | done | congruence | rewrite <- Hv; by apply used_limbs_of | | done].
  rewrite <- Hv. destruct Hs as [E|E]; [split; [by intros _; apply Hp | done] |].
  specialize (Hn E). rewrite E. split; lia.
Qed.

Lemma rf_put X n v0 m : s !! X = Some (n, v0) -> mpi_ok m -> m_limbs m = n ->
  refines (upd X m st) (<[X := (n, mval m)]> s).
Proof.
  intros HX Hok Hl. destruct Hrf as [Ho Hj]. constructor; [| done].
  intros Z. destruct (decide (Z = X)) as [->|Hne].
  - by rewrite lookup_insert_eq, obj_upd_eq.
  - rewrite lookup_insert_ne, obj_upd_ne by done. apply Ho.
Qed.

Lemma rf_mres X n v st' : cap s X n -> mres X n v st st' -> refines st' (<[X := (n, v)]> s).
Proof. intros [v0 HX] (m & -> & Hok & Hl & <-). by apply rf_put with (v0 := v0). Qed.
End Refine.

(** A result in one register. *)
Lemma step_mres st s X n v (f : MM unit) :
  refines st s -> cap s X n -> wp f (fun _ => mres X n v st) st -> wp f (fun _ st' => refines st' (<[X := (n, v)]> s)) st.
Proof. intros Hrf Hc Hw. eapply wp_mono; [exact Hw |]. intros ? ?. by apply rf_mres with (st := st). Qed.

Lemma cap_get st s X n : refines st s -> cap s X n ->
  exists m, obj st !! X = Some m /\ mpi_ok m /\ m_limbs m = n.
Proof. intros Hrf [v HX]. destruct (rf_get st s Hrf X n v HX) as (m & Hm & Hok & Hl & _). by exists m. Qed.

Section Steps.
Context (st : MpiMem) (s : regs).
Hypothesis Hrf : refines st s.

Lemma exec_add X A B n a b : cap s X n -> val s A a -> val s B b -> (limbs_of a `max` limbs_of b <= n)%nat ->
  ((0 <= a <-> 0 <= b) -> A <> B /\ Z.abs a + Z.abs b < bpow n) ->
  wp (ttls_mpi_add_mpi X A B) (fun _ st' => refines st' (<[X := (n, a + b)]> s)) st.
Proof.
  intros HX [na HA] [nb HB] Hl Hs. apply step_mres; [done | done |].
  destruct (cap_get st s X n Hrf HX) as (mx & Hx & Hox & Hlx).
  destruct (rf_get st s Hrf A na a HA) as (ma & Ha & Hoa & _ & Hva & Hma & Hua & Hsa & Hsa').
  destruct (rf_get st s Hrf B nb b HB) as (mb & Hb & Hob & _ & Hvb & Hmb & Hub & Hsb & Hsb').
  eapply wp_mono; [apply (add_mpi_spec X mx st Hx (ok_limbs mx Hox) A B ma mb); try done; [lia |] |].
  - rewrite Hma, Hmb, Hlx. intros E. apply Hs. rewrite <- Hsa, <- Hsb, E. done.
  - intros ? ?. rewrite <- Hva, <- Hvb, <- Hlx. apply sres_mres.
Qed.

Lemma exec_sub X A B n a b : cap s X n -> val s A a -> val s B b -> (limbs_of a `max` limbs_of b <= n)%nat ->
  (~ (0 <= a <-> 0 <= b) -> Z.abs a + Z.abs b < bpow n) ->
  wp (ttls_mpi_sub_mpi X A B) (fun _ st' => refines st' (<[X := (n, a - b)]> s)) st.
Proof.
  intros HX [na HA] [nb HB] Hl Hs. apply step_mres; [done | done |].
  destruct (cap_get st s X n Hrf HX) as (mx & Hx & Hox & Hlx).
  destruct (rf_get st s Hrf A na a HA) as (ma & Ha & Hoa & _ & Hva & Hma & Hua & Hsa & Hsa').
  destruct (rf_get st s Hrf B nb b HB) as (mb & Hb & Hob & _ & Hvb & Hmb & Hub & Hsb & Hsb').
  eapply wp_mono; [apply (sub_mpi_spec X mx st Hx (ok_limbs mx Hox) A B ma mb); try done; [lia |] |].
  - rewrite Hma, Hmb, Hlx. intros E. split; [intros ->; congruence |].
    apply Hs. rewrite <- Hsa, <- Hsb. lia.
  - intros ? ?. rewrite <- Hva, <- Hvb, <- Hlx. apply sres_mres.
Qed.

Lemma exec_shl X A count n a : cap s X n -> val s A a -> a <> 0 -> (0 < count)%nat ->
  (limbs_of a + count / 64 + 1 <= n)%nat ->
  wp (ttls_mpi_shift_l X A count) (fun _ st' => refines st' (<[X := (n, a * 2 ^ Z.of_nat count)]> s)) st.
Proof.
  intros HX [na HA] Hne Hc Hl. apply step_mres; [done | done |].
  destruct (cap_get st s X n Hrf HX) as (mx & Hx & Hox & Hlx).
  destruct (rf_get st s Hrf A na a HA) as (ma & Ha & Hoa & _ & Hva & Hma & Hua & _).
  eapply wp_mono; [apply (shift_l_spec X A mx ma st count); try done; [apply Hox | lia | lia] |].
  intros ? ?. rewrite <- Hva, <- Hlx. apply sres_mres.
Qed.

Lemma exec_shr X count n x : s !! X = Some (n, x) -> (0 < count)%nat -> Z.quot x (2 ^ Z.of_nat count) <> 0 ->
  wp (ttls_mpi_shift_r X count) (fun _ st' => refines st' (<[X := (n, Z.quot x (2 ^ Z.of_nat count))]> s)) st.
Proof.
  intros HX Hc Hq. apply step_mres; [done | by exists x |].
  destruct (rf_get st s Hrf X n x HX) as (mx & Hx & Hox & Hlx & Hvx & Hmx & _ & Hs & Hs').
  pose proof (pow2_pos (Z.of_nat count) ltac:(lia)) as Hp.
  assert (Hqa : Z.abs (Z.quot x (2 ^ Z.of_nat count)) = mag mx / 2 ^ Z.of_nat count).
  { rewrite Hmx, <- Z.quot_div_nonneg, <- Z.quot_abs by lia. by rewrite (Z.abs_eq (2 ^ _)) by lia. }
  assert (Hx0 : 0 < mag mx).
  { destruct (decide (x = 0)) as [E|]; [| lia]. rewrite E, Z.quot_0_l in Hq by lia. done. }
  eapply wp_mono; [by apply (shift_r_spec X mx count) |].
  intros ? ? (m & -> & Hl & Hm & _ & _ & Hpos & _). destruct (Hpos ltac:(lia)) as [Hok Hsm].
  exists m. split_and!; [done | done | lia |]. unfold mval in *. rewrite Hsm, Hm, <- Hqa. rewrite <- Hvx.
  destruct Hs' as [-> | ->].
  - rewrite !Z.mul_1_l, Z.abs_eq; [done |]. apply Z.quot_pos; lia.
  - change (-1 * mag mx) with (- mag mx). rewrite Z.quot_opp_l, Z.abs_opp by lia.
    rewrite Z.abs_eq; [lia |]. apply Z.quot_pos; lia.
Qed.

Lemma exec_div Q R A B n k a b : cap s Q n -> cap s R k -> val s A a -> val s B b ->
  b <> 0 -> Q <> A -> Q <> B -> Q <> R -> (limbs_of a <= n)%nat -> (limbs_of b <= k)%nat ->
  div_safe (Z.abs a) (Z.abs b) -> 0 <= a \/ Z.rem a b <> 0 ->
  wp (ttls_mpi_div_mpi (Some Q) (Some R) A B)
    (fun _ st' => refines st' (<[R := (k, Z.rem a b)]> (<[Q := (n, Z.quot a b)]> s))) st.
Proof.
  intros HQ HR [na HA] [nb HB] Hb0 HQA HQB HQR Hn Hk Hsafe Hnz.
  destruct (cap_get st s Q n Hrf HQ) as (mq & Hq & Hoq & Hlq).
  destruct (cap_get st s R k Hrf HR) as (mr & Hr & Hor & Hlr).
  destruct (rf_get st s Hrf A na a HA) as (ma & Ha & Hoa & _ & Hva & Hma & Hua & _).
  destruct (rf_get st s Hrf B nb b HB) as (mb & Hb & Hob & _ & Hvb & Hmb & Hub & _).
  eapply wp_mono.
  { apply (div_mpi_spec (Some Q) (Some R) A B ma mb st); [| by rewrite Hma, Hmb].
    constructor; try done; try congruence.
    - intros ? [= <-]. exists mq. split_and!; [done | apply Hoq | lia].
    - intros ? [= <-]. exists mr. split_and!; [done | apply Hor | lia].
    - right. congruence.
    - apply (rf_junk _ _ Hrf). }
  intros ? st' [Hquot Hrem Hf Hj].
  destruct (Hquot Q eq_refl) as (q0 & q1 & Hq0 & Hq1 & Hl1 & Hok1 & Hv1).
  destruct (Hrem R eq_refl) as (r0 & r1 & Hr0 & Hr1 & Hl2 & Hv2 & Hok2 & _).
  rewrite Hva, Hvb in Hv1, Hv2. constructor; [| rewrite Hj; apply (rf_junk _ _ Hrf)].
  intros Z. destruct (decide (Z = R)) as [->|HZR].
  { rewrite lookup_insert_eq, Hr1. split_and!; [apply Hok2; rewrite Hv2, Hva; done | simpl; congruence | done]. }
  rewrite lookup_insert_ne by done. destruct (decide (Z = Q)) as [->|HZQ].
  { rewrite lookup_insert_eq, Hq1. split_and!; [done | simpl; congruence | done]. }
  rewrite lookup_insert_ne, Hf by congruence. apply (rf_obj _ _ Hrf).
Qed.

Lemma exec_mod R A B n a b : cap s R n -> val s A a -> val s B b ->
  0 < b -> R <> B -> (limbs_of b <= n)%nat -> div_safe (Z.abs a) b ->
  wp (ttls_mpi_mod_mpi R A B) (fun _ st' => refines st' (<[R := (n, a mod b)]> s)) st.
Proof.
  intros HR [na HA] [nb HB] Hb0 HRB Hn Hsafe.
  destruct (cap_get st s R n Hrf HR) as (mr & Hr & Hor & Hlr).
  destruct (rf_get st s Hrf A na a HA) as (ma & Ha & Hoa & _ & Hva & Hma & Hua & _).
  destruct (rf_get st s Hrf B nb b HB) as (mb & Hb & Hob & _ & Hvb & Hmb & Hub & Hsb & _).
  eapply wp_mono.
  { apply (mod_mpi_spec R A B ma mb st); [| apply Hsb; lia | done | by rewrite Hma, Hmb, (Z.abs_eq b) by lia].
    constructor; try done; [lia | | by left | apply (rf_junk _ _ Hrf)].
    intros ? [= <-]. exists mr. split_and!; [done | apply Hor | lia]. }
  intros ? st' (m & m' & Hm & Hm' & Hok & Hl & Hv & Hf & Hj).
  rewrite Hva, Hvb in Hv. constructor; [| rewrite Hj; apply (rf_junk _ _ Hrf)].
  intros Z. destruct (decide (Z = R)) as [->|HZR].
  { rewrite lookup_insert_eq, Hm'. split_and!; [done | simpl; congruence | done]. }
  rewrite lookup_insert_ne, Hf by congruence. apply (rf_obj _ _ Hrf).
Qed.

Lemma exec_swap X Y swap n k x y : s !! X = Some (n, x) -> s !! Y = Some (k, y) -> X <> Y -> is_u8 swap ->
  (limbs_of y <= n)%nat -> (limbs_of x <= k)%nat ->
  wp (_ <~ ttls_mpi_safe_cond_swap X Y swap;; sm_ret tt)
    (fun _ st' => refines st' (<[X := (n, if swap =? 0 then x else y)]> (<[Y := (k, if swap =? 0 then y else x)]> s))) st.
Proof.
  intros HX HY Hne Hsw Hn Hk.
  destruct (rf_get st s Hrf X n x HX) as (mx & Hx & Hox & Hlx & Hvx & _ & Hux & _).
  destruct (rf_get st s Hrf Y k y HY) as (my & Hy & Hoy & Hly & Hvy & _ & Huy & _).
  mstep. eapply wp_mono; [apply (safe_cond_swap_spec X Y mx my swap); try done; lia |].
  intros ? ? (_ & x' & y' & -> & Hox' & Hoy' & Hlx' & Hly' & Hvx' & Hvy'). mstep.
  rewrite Hvx, Hvy in Hvx', Hvy'. rewrite <- Hvx', <- Hvy'.
  eapply rf_put; [| by rewrite lookup_insert_ne | done | congruence].
  apply rf_put with (v0 := y); [done | done | done | congruence].
Qed.

(** One instruction. *)
Lemma exec_step op s' : mpi_step s op s' -> wp (exec_op op) (fun _ st' => refines st' s') st.
Proof.
  destruct 1; cbn [exec_op].
  - destruct (cap_get st s X n Hrf H) as (mx & Hx & Hox & Hlx). pose proof (ok_used mx Hox).
    apply step_mres; [done | done |].
    eapply wp_mono; [apply (lset_spec X mx z); try done; [apply Hox | lia] |].
    intros ? ? (m & -> & Hok & Hl & Hv & _). exists m. by rewrite Hl.
  - destruct (cap_get st s X n Hrf H) as (mx & Hx & Hox & Hlx). destruct H0 as [na HA].
    destruct (rf_get st s Hrf A na a HA) as (ma & Ha & Hoa & _ & Hva & _ & Hua & _).
    apply step_mres; [done | done |]. eapply wp_mono; [apply (copy_spec X A mx ma); try done; lia |].
    intros ? ? (m & -> & Hok & Hl & Hs & _ & Hm & _). exists m.
    split_and!; [done | done | congruence | unfold mval in *; by rewrite Hs, Hm].
  - by apply exec_swap.
  - destruct (cap_get st s X n Hrf H) as (mx & Hx & Hox & Hlx). apply step_mres; [done | done |].
    eapply wp_mono; [apply (read_binary_spec X mx buf); try done; [apply Hox | apply (rf_junk _ _ Hrf) | left; lia] |].
    intros ? st' Hr. rewrite Nat.max_l in Hr by lia. by rewrite Hlx in Hr.
  - by apply exec_add.
  - by apply exec_add.
  - by apply exec_sub.
  - by apply exec_sub.
  - destruct (cap_get st s X n Hrf H) as (mx & Hx & Hox & Hlx). destruct H0 as [na HA].
    destruct (rf_get st s Hrf A na a HA) as (ma & Ha & Hoa & _ & Hva & Hma & Hua & _).
    apply step_mres; [done | done |]. rewrite <- Hva, <- Hlx.
    apply add_int_spec; try done; [apply Hox | lia | rewrite Hma, Hlx; lia].
  - destruct (rf_get st s Hrf X n x H) as (mx & Hx & Hox & Hlx & _ & _ & _ & Hsx & _). destruct H1 as [na HA].
    destruct (rf_get st s Hrf A na a HA) as (ma & Ha & Hoa & _ & Hva & Hma & Hua & _).
    rewrite Z.abs_eq in Hma by done. apply step_mres; [done | by exists x |]. rewrite <- Hlx, <- Hma.
    apply sub_int_spec; try done; [apply Hox | by apply Hsx | lia | rewrite Hua, Hma; done].
  - destruct (cap_get st s X n Hrf H) as (mx & Hx & Hox & Hlx). destruct H0 as [na HA], H1 as [nb HB].
    destruct (rf_get st s Hrf A na a HA) as (ma & Ha & Hoa & _ & Hva & _ & Hua & _).
    destruct (rf_get st s Hrf B nb b HB) as (mb & Hb & Hob & _ & Hvb & _ & Hub & _).
    apply step_mres; [done | done |]. rewrite <- Hva, <- Hvb, <- Hlx.
    apply mul_mpi_spec; try done; [apply Hox | lia].
  - destruct (cap_get st s X n Hrf H) as (mx & Hx & Hox & Hlx). destruct H0 as [na HA].
    destruct (rf_get st s Hrf A na a HA) as (ma & Ha & Hoa & _ & Hva & _ & Hua & _).
    apply step_mres; [done | done |]. rewrite <- Hva, <- Hlx.
    apply mul_uint_spec; try done; [apply Hox | lia].
  - by apply exec_shl.
  - by apply exec_shr.
  - by apply exec_div.
  - by apply exec_mod.
Qed.

End Steps.
(** C10: Any sequence of operations on big integers (assignment, copy, conditional swap,
    reading a buffer, addition, subtraction, multiplication, shifts, division and remainder,
    with any aliasing the guards allow) whose operands meet the guards of [mpi_step] runs to its end without a failed
    assertion or an access outside an array; afterwards every number of the store is well-formed and holds
    exactly the integer that the same sequence computes on unbounded integers, and no
    temporary is left.  The guards: the capacity of the result, no addition of a number to itself, [ttls_mpi_sub_int()] of
    numbers that are not negative, no empty buffer, no shift of a zero or to zero, and [div_safe] divisors.  The comments of
    the code name the capacity and the operands of the addition; the other guards are where the code fails ("Outside
    the guards" below and MpiDivSpec). *)
Theorem mpi_program_refines ops s s' st :
  refines st s -> mpi_steps s ops s' ->
  exists st', exec_prog ops st = Ok (tt, st') /\ refines st' s'.
Proof.
  intros Hrf Hsteps. cut (wp (exec_prog ops) (fun _ st' => refines st' s') st).
  { intros Hw. destruct (wp_ok _ _ _ Hw) as ([] & st' & He & Hr). by exists st'. }
  revert st Hrf. induction Hsteps as [s|s op s1 ops s2 Hstep _ IH]; intros st Hrf; cbn [exec_prog]; mstep; [done |].
  eapply wp_mono; [by apply (exec_step st s Hrf op s1) |]. intros ? st1. apply IH.
Qed.
Definition calc_mem : MpiMem :=
  MkMem (<[0%nat := mpi_of 2 8 (2 ^ 100)]> (<[1%nat := mpi_of 1 8 (-7)]> (<[2%nat := mpi_of 1 8 0]> ∅))) (fun _ => 99).
Definition calc_regs : regs :=
  <[0%nat := (8%nat, 2 ^ 100)]> (<[1%nat := (8%nat, -7)]> (<[2%nat := (8%nat, 0)]> ∅)).

Lemma calc_refines : refines calc_mem calc_regs.
Proof.
  constructor; [| intros i; vm_compute; by split]. intros X. unfold calc_mem, calc_regs. cbn [obj].
  destruct (decide (X = 0%nat)) as [->|]; [rewrite !lookup_insert_eq | rewrite !(lookup_insert_ne _ 0%nat) by done].
  { split_and!; [mpi_ok_tac | by vm_compute..]. }
  destruct (decide (X = 1%nat)) as [->|]; [rewrite !lookup_insert_eq | rewrite !(lookup_insert_ne _ 1%nat) by done].
  { split_and!; [mpi_ok_tac | by vm_compute..]. }
  destruct (decide (X = 2%nat)) as [->|]; [rewrite !lookup_insert_eq | rewrite !(lookup_insert_ne _ 2%nat) by done].
  { split_and!; [mpi_ok_tac | by vm_compute..]. }
  by rewrite !lookup_empty.
Qed.

(** [2 = 0 * 0 + 1], [2 = 2 << 70], [2 = 2 mod 0] on [2 ^ 100], [-7] and [0]. *)
Lemma mpi_program_refines_witness :
  exists st', exec_prog [OpMul 2 0 0; OpAdd 2 2 1; OpShl 2 2 70; OpMod 2 2 0] calc_mem = Ok (tt, st') /\
    refines st' (<[2%nat := (8%nat, ((2 ^ 200 - 7) * 2 ^ 70) mod 2 ^ 100)]>
                 (<[2%nat := (8%nat, (2 ^ 200 - 7) * 2 ^ 70)]>
                  (<[2%nat := (8%nat, 2 ^ 200 - 7)]> (<[2%nat := (8%nat, 2 ^ 200)]> calc_regs)))).
Proof.
  apply (mpi_program_refines _ calc_regs); [exact calc_refines |].
  eapply StCons. { apply (StMul _ 2 0 0 8 (2 ^ 100) (2 ^ 100)); try (eexists; reflexivity). vm_compute. lia. }
  eapply StCons. { apply (StAddOpp _ 2 2 1 8 (2 ^ 200) (-7)); try (eexists; reflexivity); [vm_compute; lia | lia]. }
  eapply StCons. { apply (StShl _ 2 2 70 8 (2 ^ 200 - 7)); try (eexists; reflexivity); [lia | lia | vm_compute; lia]. }
  eapply StCons; [| apply StNil].
  apply (StMod _ 2 2 0 8 ((2 ^ 200 - 7) * 2 ^ 70) (2 ^ 100)); try (eexists; reflexivity); [done | vm_compute; lia |].
  apply (div_safe_check_spec _ _ 8); by vm_compute.
Defined.

(** ** Outside the guards *)

(** The sign, the limbs in use and the value of register 0 after one instruction; register
    1 holds [a] and register 2 one. *)
Definition run_op (op : mpi_op) (x a : TlsMpi) : option (option (Z * nat * Z)) :=
  match exec_op op (MkMem (<[0%nat := x]> (<[1%nat := a]> (<[2%nat := mpi_of 1 8 1]> ∅))) (fun _ => 99)) with
  | Ok (_, st) => Some ((fun m => (m_s m, m_used m, mval m)) <$> obj st !! 0%nat)
  | Bug => None
  end.

(** The difference goes through a signed [long]. *)
Lemma sub_int_wraps :
  run_op (OpSubInt 0 1 1) (mpi_of 1 8 0) (mpi_of 1 8 (2 ^ 63 + 5)) = Some (Some (-1, 1%nat, - (2 ^ 63 - 4))).
Proof. by vm_compute. Qed.

(** The sign of [A] is not looked at: [-5 - 2] gives 3, and [-(2 ^ 64 + 5) - 2] gives [2 ^ 64 + 3]. *)
Lemma sub_int_ignores_sign :
  run_op (OpSubInt 0 1 2) (mpi_of 1 8 0) (mpi_of 1 8 (-5)) = Some (Some (1, 1%nat, 3)) /\
  run_op (OpSubInt 0 1 2) (mpi_of 1 8 0) (mpi_of 2 8 (- (2 ^ 64 + 5))) = Some (Some (1, 2%nat, 2 ^ 64 + 3)).
Proof. by vm_compute. Qed.

(** The carry is stored when the array is full: the check for room is off by one. *)
Lemma add_carry_past_end : run_op (OpAdd 0 1 2) (mpi_of 1 1 0) (mpi_of 1 1 (2 ^ 64 - 1)) = None.
Proof. by vm_compute. Qed.

(** A one-limb number that is shifted to zero has no limb in use and keeps its sign. *)
Lemma shift_r_to_zero : run_op (OpShr 0 3) (mpi_of 1 1 (-5)) (mpi_of 1 1 0) = Some (Some (-1, 0%nat, 0)).
Proof. by vm_compute. Qed.

(** A zero that is shifted by whole limbs has them in use. *)
Lemma shift_l_of_zero : run_op (OpShl 0 1 128) (mpi_of 1 8 5) (mpi_of 1 8 0) = Some (Some (1, 2%nat, 0)).
Proof. by vm_compute. Qed.

(** A shift by no bits does not copy. *)
Lemma shift_l_by_zero : run_op (OpShl 0 1 0) (mpi_of 1 8 5) (mpi_of 1 8 6) = Some (Some (1, 1%nat, 5)).
Proof. by vm_compute. Qed.

(** The empty buffer gives a number with the sign 0. *)
Lemma read_empty_sign : run_op (OpRead 0 []) (mpi_of 1 1 5) (mpi_of 1 1 0) = Some (Some (0, 0%nat, 0)).
Proof. by vm_compute. Qed.
