(* ===== verification/SchedRatio.v ===== *)
(** * The ratio scheduler

    [fw/http_sched_ratio.c]: each server of a group has a ratio; over a round of as many
    requests as the sum of the ratios every server gets as many of them as its ratio says.
    The servers are kept in an array in descending order of ratios ([srvdata]); [cratio] is
    what is left of a server's ratio in this round, [csidx] the server in turn and [reidx]
    the first server whose ratio is not yet restored in this round.

    Ratios come from weights in the configuration, from response times of the last period
    (APM), or from response times extrapolated by linear regression. *)

From stdpp Require Import sorting.
From S2P Require Import Prelude.

#[local] Open Scope Z_scope.

(** ** Data *)

Record TfwRatioSrvData := MkSd { sdidx : nat; weight : Z; cratio : Z; oratio : Z }.

Record TfwRatioSchData := MkSch { csidx : nat; reidx : nat; riter : Z; crsum : Z; orsum : Z }.

(** [srvdata] is an array of [srv_n] elements, which are in use from the start. *)
Record TfwRatioData := MkRd { srvdata : list TfwRatioSrvData; schdata : TfwRatioSchData }.

Definition set_cratio (v : Z) (s : TfwRatioSrvData) : TfwRatioSrvData := MkSd (sdidx s) (weight s) v (oratio s).

(** ** The next server *)

Definition tfw_sched_ratio_is_srv_turn (srv_n : nat) (d : TfwRatioData) (csidx : nat) : outcome bool :=
  if (csidx =? 0)%nat then Ok true
  else
    let? s0 := srvdata d !! 0%nat in
    let? sp := srvdata d !! (csidx - 1)%nat in
    let? sc := srvdata d !! csidx in
    let? sl := srvdata d !! (srv_n - 1)%nat in
    let headsum2 := u64 (u32 (cratio s0 + cratio sp) * Z.of_nat csidx) in
    let tailsum2 := u64 (u32 (cratio sc + (if cratio sl =? 0 then oratio sl else cratio sl))
                         * Z.of_nat (srv_n - csidx)) in
    Ok (headsum2 <? u64 (tailsum2 * riter (schdata d))).

(** It is the turn of the server at [c]. *)
Definition take_srv (srv_n : nat) (d : TfwRatioData) (c : nat) : outcome (nat * TfwRatioData) :=
  let sch := schdata d in
  let? s := srvdata d !! c in
  let sd := <[c := set_cratio (u32 (cratio s - 1)) s]> (srvdata d) in
  let crsum := u64 (crsum sch - 1) in
  if crsum =? 0 then Ok (sdidx s, MkRd sd (MkSch 0 0 1 (orsum sch) (orsum sch)))
  else if (S c =? srv_n)%nat then
    if negb (reidx sch =? srv_n)%nat then Bug
    else Ok (sdidx s, MkRd sd (MkSch 0 (reidx sch) 1 crsum (orsum sch)))
  else Ok (sdidx s, MkRd sd (MkSch (S c) (reidx sch) (riter sch) crsum (orsum sch))).

(** From the label [retry] on; [fuel] bounds the jumps back to it. *)
Fixpoint next_srv_loop (fuel : nat) (srv_n : nat) (d : TfwRatioData) : outcome (nat * TfwRatioData) :=
  match fuel with
  | O => Bug
  | S fuel =>
      let sch := schdata d in
      let c := csidx sch in
      let? s := srvdata d !! c in
      if (cratio s =? 0) && negb (reidx sch =? c)%nat then
        next_srv_loop fuel srv_n (MkRd (srvdata d)
          (if (S c =? srv_n)%nat then MkSch 0 (reidx sch) 1 (crsum sch) (orsum sch)
           else MkSch (S c) (reidx sch) (riter sch) (crsum sch) (orsum sch)))
      else
        let '(sd, re) :=
          if cratio s =? 0 then (<[c := set_cratio (oratio s) s]> (srvdata d), S (reidx sch))
          else (srvdata d, reidx sch) in
        let d := MkRd sd (MkSch c re (riter sch) (crsum sch) (orsum sch)) in
        let! turn := tfw_sched_ratio_is_srv_turn srv_n d c in
        if turn : bool then take_srv srv_n d c
        else next_srv_loop fuel srv_n
               (MkRd sd (MkSch 0 re (u32 (riter sch + 1)) (crsum sch) (orsum sch)))
  end.

(** The index of the next server descriptor. *)
Definition tfw_sched_ratio_next_srv (srv_n : nat) (d : TfwRatioData) : outcome (nat * TfwRatioData) :=
  next_srv_loop (2 * srv_n) srv_n d.

Fixpoint next_srvs (k : nat) (srv_n : nat) (d : TfwRatioData) : outcome (list nat * TfwRatioData) :=
  match k with
  | O => Ok ([], d)
  | S k =>
      let! r := tfw_sched_ratio_next_srv srv_n d in
      let! r' := next_srvs k srv_n r.2 in
      Ok (r.1 :: r'.1, r'.2)
  end.

(** ** Dealing

    The abstract scheduler: a bag with [o_i] tokens for the server at place [i]; a request
    draws any token, an empty bag is filled again. *)

Definition refill (o b : list Z) : list Z := if zsum b =? 0 then o else b.

Inductive deal (o : list Z) : list Z -> nat -> list Z -> Prop :=
| Deal b p r : b !! p = Some r -> 0 < r -> deal o b p (refill o (<[p := r - 1]> b)).

Inductive deals (o : list Z) : list Z -> list nat -> list Z -> Prop :=
| DealNone b : deals o b [] b
| DealMore b p b1 ps b2 : deal o b p b1 -> deals o b1 ps b2 -> deals o b (p :: ps) b2.

(** How often [p] was drawn. *)
Definition drawn (p : nat) (ps : list nat) : Z := zlen (filter (fun x => x = p) ps).

(** A bag of a round: some token is left. *)
Record bag_ok (o b : list Z) : Prop := {
  bag_pos : Forall (Z.le 1) o;
  bag_le : Forall2 (fun x y => 0 <= x <= y) b o;
  bag_sum : 0 < zsum b
}.

Lemma zsum_pos o : Forall (Z.le 1) o -> o <> [] -> 0 < zsum o.
Proof.
  intros Ho Hne. destruct Ho as [|x o Hx Ho]; [done |]. rewrite zsum_cons.
  assert (0 <= zsum o); [| lia]. apply zsum_nonneg. eapply Forall_impl; [exact Ho |]. simpl. lia.
Qed.

Lemma bag_le_sum b o : Forall2 (fun x y => 0 <= x <= y) b o -> 0 <= zsum b <= zsum o.
Proof. induction 1; [done |]. rewrite !zsum_cons. lia. Qed.

Lemma deal_bag o b p b' : bag_ok o b -> deal o b p b' -> bag_ok o b'.
Proof.
  intros [Ho Hle Hs] Hd. destruct Hd as [b p r Hp Hr]. unfold refill.
  assert (Hins : Forall2 (fun x y => 0 <= x <= y) (<[p := r - 1]> b) o).
  { destruct (Forall2_lookup_l _ _ _ _ _ Hle Hp) as (y & Hy & ?).
    rewrite <- (list_insert_id o p y Hy). apply Forall2_insert; [done | lia]. }
  destruct (Z.eqb_spec (zsum (<[p := r - 1]> b)) 0) as [Hz|Hnz].
  - constructor; [done | |].
    + apply Forall_Forall2_diag. eapply Forall_impl; [exact Ho |]. simpl. lia.
    + apply zsum_pos; [done |]. intros ->. inversion Hle; subst. done.
  - constructor; [done | done |]. pose proof (bag_le_sum _ _ Hins). lia.
Qed.

(** The rounds so far and what is drawn of the current one. *)
Definition dealt (o : list Z) (n : Z) (c : nat -> Z) (b : list Z) (e : Z) : Prop :=
  n + zsum b = (e + 1) * zsum o /\
  (forall p x y, o !! p = Some x -> b !! p = Some y -> c p + y = (e + 1) * x).

Lemma drawn_cons p q ps : drawn p (q :: ps) = (if decide (q = p) then 1 else 0) + drawn p ps.
Proof. unfold drawn. rewrite filter_cons. destruct (decide (q = p)); unfold zlen; simpl; lia. Qed.

Lemma deal_dealt o b p b' n c e : bag_ok o b -> deal o b p b' -> dealt o n c b e ->
  exists e', e <= e' /\ dealt o (n + 1) (fun q => c q + (if decide (p = q) then 1 else 0)) b' e'.
Proof.
  intros [Ho Hle Hs] Hd [Hn Hc]. destruct Hd as [b p r Hp Hr]. unfold refill.
  pose proof (zsum_insert b p r (r - 1) Hp) as Hsum.
  assert (Hins : forall q x y, o !! q = Some x -> <[p := r - 1]> b !! q = Some y ->
    c q + (if decide (p = q) then 1 else 0) + y = (e + 1) * x).
  { intros q x y Hx Hy. destruct (decide (p = q)) as [<-|Hne].
    - rewrite list_lookup_insert_eq in Hy by (by eapply lookup_lt_Some). injection Hy as <-.
      specialize (Hc p x r Hx Hp). lia.
    - rewrite list_lookup_insert_ne in Hy by done. specialize (Hc q x y Hx Hy). lia. }
  destruct (Z.eqb_spec (zsum (<[p := r - 1]> b)) 0) as [Hz|Hnz].
  - exists (e + 1). split; [lia |]. split; [lia |]. intros q x y Hx Hy.
    assert (y = x) as -> by congruence.
    assert (Hzero : exists z, <[p := r - 1]> b !! q = Some z /\ z = 0).
    { destruct (lookup_lt_is_Some_2 (<[p := r - 1]> b) q) as [z Hz'].
      { rewrite length_insert, (Forall2_length _ _ _ Hle). by eapply lookup_lt_Some. }
      exists z. split; [done |].
      assert (Hnn : Forall (Z.le 0) (<[p := r - 1]> b)).
      { apply Forall_insert; [| lia]. eapply Forall2_Forall_l; [exact Hle |].
        apply Forall_true. simpl. lia. }
      pose proof (zsum_elem _ _ _ Hnn Hz'). rewrite Forall_lookup in Hnn. specialize (Hnn _ _ Hz'). lia. }
    destruct Hzero as (z & Hz' & ->). specialize (Hins q x 0 Hx Hz'). lia.
  - exists e. split; [done |]. split; [lia | done].
Qed.

Lemma deals_dealt o b ps b' : deals o b ps b' -> forall n c e,
  bag_ok o b -> dealt o n c b e -> 0 <= e ->
  bag_ok o b' /\ exists e', 0 <= e' /\ dealt o (n + zlen ps) (fun q => c q + drawn q ps) b' e'.
Proof.
  induction 1 as [b|b p b1 ps b2 Hd _ IH]; intros n c e Hb Hdl He.
  - split; [done |]. exists e. split; [done |]. change (zlen []) with 0.
    destruct Hdl as [Hn Hc]. split; [by rewrite Z.add_0_r |]. intros q x y Hx Hy.
    change (drawn q []) with 0. rewrite Z.add_0_r. by apply Hc.
  - destruct (deal_dealt o b p b1 n c e Hb Hd Hdl) as (e1 & He1 & Hdl1).
    destruct (IH _ _ _ (deal_bag _ _ _ _ Hb Hd) Hdl1 ltac:(lia)) as (Hb2 & e2 & He2 & Hn & Hc).
    split; [done |]. exists e2. split; [done |]. unfold zlen in *. simpl length. split; [lia |].
    intros q x y Hx Hy. specialize (Hc q x y Hx Hy). rewrite drawn_cons. lia.
Qed.

(** However the tokens are drawn, every server gets its share: of the requests the place
    [p] has [o_p] per complete round and at most [o_p] in the current one. *)
Lemma deals_fair o ps b : o <> [] -> Forall (Z.le 1) o -> deals o o ps b ->
  bag_ok o b /\ zsum b = zsum o - zlen ps mod zsum o /\
  forall p x, o !! p = Some x ->
    exists y, b !! p = Some y /\ 0 <= y <= x /\ drawn p ps = (zlen ps / zsum o) * x + (x - y).
Proof.
  intros Hne Ho Hd. pose proof (zsum_pos o Ho Hne) as Hpos.
  assert (Hb : bag_ok o o).
  { constructor; [done | | done]. apply Forall_Forall2_diag. eapply Forall_impl; [exact Ho |]. simpl. lia. }
  destruct (deals_dealt o o ps b Hd 0 (fun _ => 0) 0 Hb) as (Hb' & e & He & Hn & Hc);
    [| done |].
  { split; [lia |]. intros p x y Hx Hy. assert (x = y) by congruence. lia. }
  split; [done |]. pose proof (bag_le_sum _ _ (bag_le _ _ Hb')) as Hle. pose proof (bag_sum _ _ Hb').
  rewrite Z.add_0_l in Hn.
  destruct (Z.div_mod_unique (zsum o) (zlen ps / zsum o) e (zlen ps mod zsum o) (zsum o - zsum b)) as [Ee Em].
  - left. by apply Z.mod_pos_bound.
  - lia.
  - rewrite <- Z.div_mod; lia.
  - split; [lia |]. intros p x Hx.
    destruct (Forall2_lookup_r _ _ _ _ _ (bag_le _ _ Hb') Hx) as (y & Hy & Hyx).
    exists y. split_and!; [done | lia | lia |]. specialize (Hc p x y Hx Hy). rewrite Ee. lia.
Qed.

(** ** The scheduler deals *)

(** What is left in this round: a ratio that is not restored counts in full. *)
Definition left_of (re i : nat) (s : TfwRatioSrvData) : Z := if decide (i < re)%nat then cratio s else oratio s.
Definition bag (d : TfwRatioData) : list Z := imap (left_of (reidx (schdata d))) (srvdata d).
Definition oratios (d : TfwRatioData) : list Z := oratio <$> srvdata d.

(** [k] is 1 between a refused turn and the next server. *)
Record ratio_ok (k : Z) (n : nat) (d : TfwRatioData) : Prop := {
  ro_len : length (srvdata d) = n;
  ro_csidx : (csidx (schdata d) < n)%nat;
  ro_reidx : (csidx (schdata d) <= reidx (schdata d) <= n)%nat;
  ro_range : forall i s, srvdata d !! i = Some s -> 0 <= cratio s <= oratio s /\ 1 <= oratio s;
  ro_due : forall i s, srvdata d !! i = Some s -> (reidx (schdata d) <= i)%nat -> cratio s = 0;
  ro_crsum : crsum (schdata d) = zsum (bag d);
  ro_orsum : orsum (schdata d) = zsum (oratios d);
  ro_left : 0 < crsum (schdata d);
  ro_riter : 1 <= riter (schdata d) <= 1 + k + (orsum (schdata d) - crsum (schdata d))
}.

(** The sums of the test for the turn fit their types. *)
Definition fits (n : nat) (sum : Z) : Prop := 2 * sum < 2 ^ 32 /\ 2 * sum * Z.of_nat n * (sum + 2) < 2 ^ 64.

Lemma bag_lookup d i : bag d !! i = left_of (reidx (schdata d)) i <$> srvdata d !! i.
Proof. apply list_lookup_imap. Qed.

Lemma bag_nonneg k n d : ratio_ok k n d -> Forall (Z.le 0) (bag d).
Proof.
  intros Hok. rewrite Forall_lookup. intros i x. rewrite bag_lookup, fmap_Some. intros (s & Hs & ->).
  destruct (ro_range _ _ _ Hok i s Hs). unfold left_of. case_decide; lia.
Qed.

Lemma oratio_le_sum k n d i s : ratio_ok k n d -> srvdata d !! i = Some s -> oratio s <= orsum (schdata d).
Proof.
  intros Hok Hs. rewrite (ro_orsum _ _ _ Hok). apply (zsum_elem _ i).
  - apply Forall_fmap, Forall_lookup. intros j t Ht. destruct (ro_range _ _ _ Hok j t Ht). simpl. lia.
  - unfold oratios. by rewrite list_lookup_fmap, Hs.
Qed.


(** Restoring the ratio of the server in turn leaves the bag as it is. *)
Lemma restore_ok k n d c s ri :
  ratio_ok k n d -> csidx (schdata d) = c -> srvdata d !! c = Some s -> cratio s = 0 -> reidx (schdata d) = c ->
  ri = riter (schdata d) ->
  let d' := MkRd (<[c := set_cratio (oratio s) s]> (srvdata d))
              (MkSch c (S c) ri (crsum (schdata d)) (orsum (schdata d))) in
  ratio_ok k n d' /\ bag d' = bag d /\ oratios d' = oratios d /\ sdidx <$> srvdata d' = sdidx <$> srvdata d.
Proof.
  intros Hok Hc Hs Hz Hre -> d'. pose proof (lookup_lt_Some _ _ _ Hs) as Hlt.
  assert (Hlook : forall i t, srvdata d' !! i = Some t ->
    (i = c /\ t = set_cratio (oratio s) s) \/ (i <> c /\ srvdata d !! i = Some t)).
  { intros i t Ht. simpl in Ht. apply list_lookup_insert_Some in Ht as [(<- & <- & _)|[? ?]]; auto. }
  assert (Hbag : bag d' = bag d).
  { apply list_eq. intros i. rewrite !bag_lookup. simpl. destruct (decide (i = c)) as [->|Hne].
    - rewrite list_lookup_insert_eq, Hs by done. simpl. f_equal. unfold left_of. rewrite Hre.
      rewrite decide_True, decide_False by lia. done.
    - rewrite list_lookup_insert_ne by done. destruct (srvdata d !! i) as [t|]; [| done]. simpl. f_equal.
      unfold left_of. rewrite Hre. repeat case_decide; try done; lia. }
  assert (Hor : oratios d' = oratios d).
  { unfold oratios. simpl. rewrite list_fmap_insert. apply list_insert_id. by rewrite list_lookup_fmap, Hs. }
  destruct Hok. split_and!; [constructor | done | done |]; simpl.
  - by rewrite length_insert.
  - lia.
  - lia.
  - intros i t Ht. destruct (Hlook i t Ht) as [[-> ->]|[_ ?]]; [| eauto]. simpl. destruct (ro_range0 c s Hs). lia.
  - intros i t Ht Hi. destruct (Hlook i t Ht) as [[-> ->]|[_ ?]]; [lia |]. apply (ro_due0 i t); [done | lia].
  - by rewrite Hbag.
  - by rewrite Hor.
  - done.
  - done.
  - rewrite list_fmap_insert. apply list_insert_id. by rewrite list_lookup_fmap, Hs.
Qed.

(** One call as a draw from the bag. *)
Record dealt_by (n : nat) (d : TfwRatioData) (j : nat) (d' : TfwRatioData) : Prop := {
  db_ok : ratio_ok 0 n d';
  db_or : oratios d' = oratios d;
  db_ids : sdidx <$> srvdata d' = sdidx <$> srvdata d;
  db_deal : exists p s, srvdata d !! p = Some s /\ sdidx s = j /\ deal (oratios d) (bag d) p (bag d')
}.

Lemma dealt_by_same n d d1 j d' : bag d1 = bag d -> oratios d1 = oratios d ->
  sdidx <$> srvdata d1 = sdidx <$> srvdata d -> dealt_by n d1 j d' -> dealt_by n d j d'.
Proof.
  intros Hb Ho Hi [Hok Hor Hids (p & s & Hs & Hj & Hd)]. constructor; [done | congruence | congruence |].
  assert (Hp : (sdidx <$> srvdata d) !! p = Some j) by (rewrite <- Hi, list_lookup_fmap, Hs; simpl; by rewrite Hj).
  rewrite list_lookup_fmap, fmap_Some in Hp. destruct Hp as (t & Ht & ->).
  exists p, t. by rewrite <- Hb, <- Ho.
Qed.
Lemma bag_take (sd : list TfwRatioSrvData) re c s v :
  sd !! c = Some s -> (c < re)%nat ->
  imap (left_of re) (<[c := set_cratio v s]> sd) = <[c := v]> (imap (left_of re) sd).
Proof.
  intros Hs Hc. pose proof (lookup_lt_Some _ _ _ Hs). apply list_eq. intros i. rewrite list_lookup_imap.
  destruct (decide (i = c)) as [->|Hne].
  - rewrite !list_lookup_insert_eq by (rewrite ?length_imap; done). simpl. unfold left_of. by rewrite decide_True.
  - by rewrite !list_lookup_insert_ne, list_lookup_imap by done.
Qed.

Lemma fits_u32 k n d i s : fits n (orsum (schdata d)) -> ratio_ok k n d -> srvdata d !! i = Some s ->
  0 <= cratio s < 2 ^ 32.
Proof.
  intros [Hf _] Hok Hs. pose proof (oratio_le_sum _ _ _ _ _ Hok Hs). destruct (ro_range _ _ _ Hok i s Hs). lia.
Qed.

(** The server in turn is taken. *)
Lemma take_ok k n d c s :
  ratio_ok k n d -> k <= 1 -> fits n (orsum (schdata d)) -> csidx (schdata d) = c -> srvdata d !! c = Some s -> 0 < cratio s ->
  exists d', take_srv n d c = Ok (sdidx s, d') /\ dealt_by n d (sdidx s) d'.
Proof.
  intros Hok Hk Hfit Hc Hs Hpos. pose proof (lookup_lt_Some _ _ _ Hs) as Hlt. rewrite (ro_len _ _ _ Hok) in Hlt.
  assert (Hre : (c < reidx (schdata d))%nat).
  { destruct (le_lt_dec (reidx (schdata d)) c) as [Hle|]; [| done].
    pose proof (ro_due _ _ _ Hok c s Hs Hle). lia. }
  assert (Hb : bag d !! c = Some (cratio s)).
  { rewrite bag_lookup, Hs. simpl. unfold left_of. by rewrite decide_True. }
  pose proof (bag_nonneg _ _ _ Hok) as Hnn. pose proof (zsum_insert _ _ _ (cratio s - 1) Hb) as Hsum.
  rewrite <- (ro_crsum _ _ _ Hok) in Hsum. pose proof (ro_riter _ _ _ Hok) as Hri. pose proof (ro_left _ _ _ Hok) as Hleft.
  pose proof (fits_u32 _ _ _ _ _ Hfit Hok Hs) as H32. destruct Hfit as [Hf1 Hf2].
  unfold take_srv. rewrite Hs, (u32_small (cratio s - 1)) by (unfold is_u32; lia). rewrite u64_small by lia.
  set (sd := <[c := set_cratio (cratio s - 1) s]> (srvdata d)).
  assert (Hor : oratio <$> sd = oratios d).
  { subst sd. unfold oratios. rewrite list_fmap_insert. apply list_insert_id. by rewrite list_lookup_fmap, Hs. }
  assert (Hid : sdidx <$> sd = sdidx <$> srvdata d).
  { subst sd. rewrite list_fmap_insert. apply list_insert_id. by rewrite list_lookup_fmap, Hs. }
  assert (Hbag : imap (left_of (reidx (schdata d))) sd = <[c := cratio s - 1]> (bag d)) by (by apply bag_take).
  assert (Hrange : forall i t, sd !! i = Some t -> 0 <= cratio t <= oratio t /\ 1 <= oratio t).
  { intros i t Ht. subst sd. apply list_lookup_insert_Some in Ht as [(<- & <- & _)|[_ Ht]].
    - destruct (ro_range _ _ _ Hok _ _ Hs). simpl. lia.
    - by apply (ro_range _ _ _ Hok i). }
  assert (Hlen : length sd = n) by (subst sd; rewrite length_insert; apply Hok).
  assert (Hdeal : forall d', bag d' = refill (oratios d) (<[c := cratio s - 1]> (bag d)) ->
    deal (oratios d) (bag d) c (bag d')) by (intros d' ->; by constructor).
  assert (Hdue : forall i t, sd !! i = Some t -> (reidx (schdata d) <= i)%nat -> cratio t = 0).
  { intros i t Ht Hi. subst sd. rewrite list_lookup_insert_ne in Ht by lia. by apply (ro_due _ _ _ Hok i t). }
  destruct (Z.eqb_spec (crsum (schdata d) - 1) 0) as [Hz|Hnz].
  - eexists. split; [done |].
    assert (Hzero : forall i t, sd !! i = Some t -> cratio t = 0).
    { intros i t Ht. assert (Hbi : <[c := cratio s - 1]> (bag d) !! i = Some (left_of (reidx (schdata d)) i t)).
      { rewrite <- Hbag, list_lookup_imap, Ht. done. }
      assert (Hnn' : Forall (Z.le 0) (<[c := cratio s - 1]> (bag d))) by (apply Forall_insert; [done | lia]).
      pose proof (zsum_elem _ _ _ Hnn' Hbi) as Hle. destruct (Hrange i t Ht).
      unfold left_of in Hle. case_decide; lia. }
    assert (Hfull : imap (left_of 0) sd = oratios d).
    { rewrite <- Hor. apply list_eq. intros i. rewrite list_lookup_imap, list_lookup_fmap. by destruct (sd !! i). }
    constructor; [constructor | done | done | exists c, s; split_and!; [done | done | apply Hdeal]]; simpl; try done; try lia.
    + intros i t Ht _. by apply (Hzero i).
    + unfold bag. simpl. rewrite Hfull. apply Hok.
    + unfold oratios. simpl. rewrite Hor. apply Hok.
    + pose proof (oratio_le_sum _ _ _ _ _ Hok Hs). destruct (ro_range _ _ _ Hok _ _ Hs). lia.
    + transitivity (oratios d); [exact Hfull |]. unfold refill. rewrite (proj2 (Z.eqb_eq _ _)); [done | lia].
  - assert (Hrf : refill (oratios d) (<[c := cratio s - 1]> (bag d)) = <[c := cratio s - 1]> (bag d)).
    { unfold refill. rewrite (proj2 (Z.eqb_neq _ _)); [done | lia]. }
    pose proof (ro_reidx _ _ _ Hok) as Hrx. rewrite Hc in Hrx. pose proof (ro_csidx _ _ _ Hok) as Hcx. rewrite Hc in Hcx.
    assert (Hgen : forall c' ri, (c' < n)%nat -> (c' <= S c)%nat -> 1 <= ri <= riter (schdata d) ->
      dealt_by n d (sdidx s) (MkRd sd (MkSch c' (reidx (schdata d)) ri (crsum (schdata d) - 1) (orsum (schdata d))))).
    { intros c' ri Hc' Hc1 Hri'. constructor; [constructor | done | done | exists c, s; split_and!; [done | done | apply Hdeal]];
        simpl; try done; try lia.
      - transitivity (zsum (<[c := cratio s - 1]> (bag d))); [lia | by rewrite <- Hbag].
      - unfold oratios. simpl. rewrite Hor. apply Hok.
      - rewrite Hrf. exact Hbag. }
    destruct (Nat.eqb_spec (S c) n) as [En|Hn].
    + rewrite (proj2 (Nat.eqb_eq (reidx (schdata d)) n)) by lia. simpl. eexists. split; [done |]. apply Hgen; lia.
    + eexists. split; [done |]. apply Hgen; lia.
Qed.
(** Behind servers without requests left it is always the turn. *)
Lemma turn_first k n d c s :
  ratio_ok k n d -> k <= 1 -> fits n (orsum (schdata d)) -> (c < n)%nat -> srvdata d !! c = Some s -> 0 < cratio s ->
  (forall i t, (i < c)%nat -> srvdata d !! i = Some t -> cratio t = 0) ->
  tfw_sched_ratio_is_srv_turn n d c = Ok true.
Proof.
  intros Hok Hk Hfit Hcn Hs Hpos Hzero. unfold tfw_sched_ratio_is_srv_turn.
  destruct (Nat.eqb_spec c 0) as [|Hc0]; [done |].
  assert (Hget : forall i, (i < n)%nat -> exists t, srvdata d !! i = Some t).
  { intros i Hi. apply lookup_lt_is_Some. by rewrite (ro_len _ _ _ Hok). }
  destruct (Hget 0%nat ltac:(lia)) as [s0 H0]. destruct (Hget (c - 1)%nat ltac:(lia)) as [sp Hp].
  destruct (Hget (n - 1)%nat ltac:(lia)) as [sl Hl]. rewrite H0, Hp, Hs, Hl.
  rewrite (Hzero 0%nat s0), (Hzero (c - 1)%nat sp) by (done || lia).
  change (u64 (u32 (0 + 0) * Z.of_nat c)) with 0. f_equal.
  pose proof (oratio_le_sum _ _ _ _ _ Hok Hs). pose proof (oratio_le_sum _ _ _ _ _ Hok Hl).
  destruct (ro_range _ _ _ Hok _ _ Hs). destruct (ro_range _ _ _ Hok _ _ Hl).
  set (v := if cratio sl =? 0 then oratio sl else cratio sl).
  assert (Hv : 1 <= v <= orsum (schdata d)) by (subst v; destruct (Z.eqb_spec (cratio sl) 0); lia).
  destruct Hfit as [Hf1 Hf2]. pose proof (ro_riter _ _ _ Hok). pose proof (ro_left _ _ _ Hok).
  rewrite (u32_small (cratio s + v)) by (unfold is_u32; lia).
  set (t := (cratio s + v) * Z.of_nat (n - c)). set (S := orsum (schdata d)) in *.
  assert (Ht : 1 <= t <= 2 * S * Z.of_nat n) by (subst t; nia).
  rewrite (u64_small t) by nia. rewrite u64_small by nia. apply Z.ltb_lt. nia.
Qed.

(** When the ratios in front of [c] are used up, the next one that is left is taken. *)
Lemma loop_first m : forall k n d c f,
  ratio_ok k n d -> k <= 1 -> fits n (orsum (schdata d)) -> csidx (schdata d) = c -> (n - c)%nat = m ->
  (forall i t, (i < c)%nat -> srvdata d !! i = Some t -> cratio t = 0) ->
  (m <= f)%nat ->
  exists j d', next_srv_loop f n d = Ok (j, d') /\ dealt_by n d j d'.
Proof.
  induction m as [|m IH]; intros k n d c f Hok Hk Hfit Hc Hm Hzero Hf; pose proof (ro_csidx _ _ _ Hok) as Hcn; [lia |].
  destruct f as [|f]; [lia |]. destruct (lookup_lt_is_Some_2 (srvdata d) c) as [s Hs]; [rewrite (ro_len _ _ _ Hok); lia |].
  cbn [next_srv_loop]. rewrite Hc, Hs. pose proof (ro_reidx _ _ _ Hok) as Hre. rewrite Hc in Hre, Hcn.
  destruct ((cratio s =? 0) && negb (reidx (schdata d) =? c)%nat) eqn:Eskip.
  - apply andb_true_iff in Eskip as [Ez%Z.eqb_eq Er%negb_true_iff%Nat.eqb_neq].
    assert (Hzero' : forall i t, (i < S c)%nat -> srvdata d !! i = Some t -> cratio t = 0).
    { intros i t Hi Ht. destruct (decide (i = c)) as [->|]; [congruence |]. apply (Hzero i t); [lia | done]. }
    assert (Hnext : (S c < n)%nat).
    { destruct (decide (S c = n)) as [E|]; [| lia]. exfalso. pose proof (ro_left _ _ _ Hok) as Hleft.
      rewrite (ro_crsum _ _ _ Hok) in Hleft.
      assert (Hrep : bag d = replicate n 0); [| rewrite Hrep, zsum_replicate_0 in Hleft; lia].
      apply list_eq. intros i. rewrite bag_lookup. destruct (srvdata d !! i) as [t|] eqn:Ht.
      + pose proof (lookup_lt_Some _ _ _ Ht) as Hi. rewrite (ro_len _ _ _ Hok) in Hi.
        rewrite lookup_replicate_2 by done. simpl. f_equal. unfold left_of.
        rewrite decide_True by lia. apply (Hzero' i t); [lia | done].
      + apply lookup_ge_None in Ht. rewrite (ro_len _ _ _ Hok) in Ht. symmetry. apply lookup_ge_None. by rewrite length_replicate. }
    rewrite (proj2 (Nat.eqb_neq (S c) n)) by lia.
    set (d1 := MkRd (srvdata d) (MkSch (S c) (reidx (schdata d)) (riter (schdata d)) (crsum (schdata d)) (orsum (schdata d)))).
    assert (Hok1 : ratio_ok k n d1) by (destruct Hok; constructor; simpl in *; try done; lia).
    destruct (IH k n d1 (S c) f) as (j & d' & He & Hd); try done; [lia | lia |].
    exists j, d'. split; [done |]. by apply (dealt_by_same n d d1).
  - destruct (Z.eqb_spec (cratio s) 0) as [Ez|Enz].
    + simpl in Eskip. apply negb_false_iff, Nat.eqb_eq in Eskip.
      destruct (restore_ok k n d c s _ Hok Hc Hs Ez Eskip eq_refl) as (Hok1 & Hb1 & Ho1 & Hi1).
      rewrite Eskip. set (d1 := MkRd _ _) in *.
      assert (Hs1 : srvdata d1 !! c = Some (set_cratio (oratio s) s)).
      { simpl. apply list_lookup_insert_eq. rewrite (ro_len _ _ _ Hok). lia. }
      destruct (ro_range _ _ _ Hok _ _ Hs) as [_ Hor].
      rewrite (turn_first k n d1 c (set_cratio (oratio s) s)); [| done | done | done | done | done | simpl; lia |].
      * destruct (take_ok k n d1 c (set_cratio (oratio s) s)) as (d' & He & Hd); try done; [simpl; lia |].
        eexists _, d'. split; [exact He |]. by apply (dealt_by_same n d d1).
      * intros i t Hi Ht. simpl in Ht. rewrite list_lookup_insert_ne in Ht by lia. by apply (Hzero i).
    + set (d1 := MkRd (srvdata d) (MkSch c (reidx (schdata d)) (riter (schdata d)) (crsum (schdata d)) (orsum (schdata d)))).
      assert (Hd1 : d1 = d) by (subst d1; destruct d as [? []]; simpl in *; by subst).
      rewrite Hd1. destruct (ro_range _ _ _ Hok _ _ Hs).
      rewrite (turn_first k n d c s) by (done || lia).
      destruct (take_ok k n d c s) as (d' & He & Hd); try done; [lia |]. by exists (sdidx s), d'.
Qed.

Lemma loop_any m : forall n d f,
  ratio_ok 0 n d -> fits n (orsum (schdata d)) -> (n - csidx (schdata d))%nat = m -> (m + n <= f)%nat ->
  exists j d', next_srv_loop f n d = Ok (j, d') /\ dealt_by n d j d'.
Proof.
  induction m as [|m IH]; intros n d f Hok Hfit Hm Hf; pose proof (ro_csidx _ _ _ Hok) as Hcn; [lia |].
  remember (csidx (schdata d)) as c eqn:Hc. symmetry in Hc.
  destruct f as [|f]; [lia |]. destruct (lookup_lt_is_Some_2 (srvdata d) c) as [s Hs]; [rewrite (ro_len _ _ _ Hok); lia |].
  cbn [next_srv_loop]. rewrite Hc, Hs. pose proof (ro_reidx _ _ _ Hok) as Hre. rewrite Hc in Hre.
  pose proof (ro_riter _ _ _ Hok) as Hri. pose proof (ro_left _ _ _ Hok) as Hleft.
  destruct ((cratio s =? 0) && negb (reidx (schdata d) =? c)%nat) eqn:Eskip.
  - apply andb_true_iff in Eskip as [Ez%Z.eqb_eq Er%negb_true_iff%Nat.eqb_neq].
    set (d1 := MkRd _ _).
    assert (Hsame : forall j d', dealt_by n d1 j d' -> dealt_by n d j d').
    { intros j d'. apply dealt_by_same; subst d1; unfold bag; cbn [srvdata schdata]; by destruct (S c =? n)%nat. }
    assert (Hok1 : ratio_ok 0 n d1).
    { subst d1. destruct (Nat.eqb_spec (S c) n); destruct Hok; constructor; simpl in *; try done; lia. }
    destruct (Nat.eqb_spec (S c) n) as [En|Hne].
    + destruct (loop_first n 0 n d1 0%nat f) as (j & d' & He & Hd); try done; [lia | intros; lia | lia |].
      exists j, d'. split; [done | by apply Hsame].
    + destruct (IH n d1 f) as (j & d' & He & Hd); try done; [simpl; lia | lia |].
      exists j, d'. split; [done | by apply Hsame].
  - set (p := if cratio s =? 0 then _ else _).
    assert (Hp : exists d1, d1 = MkRd p.1 (MkSch c p.2 (riter (schdata d)) (crsum (schdata d)) (orsum (schdata d))) /\
      ratio_ok 0 n d1 /\ bag d1 = bag d /\ oratios d1 = oratios d /\ sdidx <$> srvdata d1 = sdidx <$> srvdata d /\
      exists s1, srvdata d1 !! c = Some s1 /\ 0 < cratio s1).
    { subst p. destruct (ro_range _ _ _ Hok _ _ Hs). destruct (Z.eqb_spec (cratio s) 0) as [Ez|Enz].
      - simpl in Eskip. apply negb_false_iff, Nat.eqb_eq in Eskip. eexists. split; [done |].
        destruct (restore_ok 0 n d c s _ Hok Hc Hs Ez Eskip eq_refl) as (Hok1 & Hb1 & Ho1 & Hi1).
        simpl. rewrite Eskip. split_and!; [done.. |].
        exists (set_cratio (oratio s) s). split; [| simpl; lia].
        apply list_lookup_insert_eq. rewrite (ro_len _ _ _ Hok). lia.
      - exists d. split; [destruct d as [? []]; simpl in *; by subst |]. split_and!; [done.. |]. exists s. split; [done | lia]. }
    destruct p as [sd re]. destruct Hp as (d1 & Ed1 & Hok1 & Hb1 & Ho1 & Hi1 & s1 & Hs1 & Hpos1). simpl in Ed1.
    assert (Hc1 : csidx (schdata d1) = c) by (by rewrite Ed1). rewrite <- Ed1.
    assert (Hfit1 : fits n (orsum (schdata d1))) by (by rewrite Ed1).
    destruct (tfw_sched_ratio_is_srv_turn n d1 c) as [[]|] eqn:Eturn.
    + destruct (take_ok 0 n d1 c s1) as (d' & He & Hd); try done.
      exists (sdidx s1), d'. split; [done |]. by apply (dealt_by_same n d d1).
    + assert (Eri : u32 (riter (schdata d) + 1) = riter (schdata d) + 1).
      { apply u32_small. unfold is_u32. destruct Hfit. lia. }
      rewrite Eri. set (d2 := MkRd sd _).
      assert (Hok2 : ratio_ok 1 n d2).
      { subst d2. rewrite Ed1 in Hok1. destruct Hok1. constructor; simpl in *; try done; lia. }
      destruct (loop_first n 1 n d2 0%nat f) as (j & d' & He & Hd); try done; [lia | intros; lia | lia |].
      exists j, d'. split; [done |]. apply (dealt_by_same n d d2); [| | | done].
      * rewrite <- Hb1, Ed1. done.
      * rewrite <- Ho1, Ed1. done.
      * rewrite <- Hi1, Ed1. done.
    + unfold tfw_sched_ratio_is_srv_turn in Eturn. exfalso.
      destruct (c =? 0)%nat; [done |].
      assert (Hget : forall i, (i < n)%nat -> exists t, srvdata d1 !! i = Some t).
      { intros i Hi. apply lookup_lt_is_Some. by rewrite (ro_len _ _ _ Hok1). }
      destruct (Hget 0%nat ltac:(lia)) as [? E0]. destruct (Hget (c - 1)%nat ltac:(lia)) as [? E1].
      destruct (Hget (n - 1)%nat ltac:(lia)) as [? E2]. by rewrite E0, E1, Hs1, E2 in Eturn.
Qed.

(** Every call returns a server, as a draw from the bag. *)
Lemma next_srv_ok n d : ratio_ok 0 n d -> fits n (orsum (schdata d)) ->
  exists j d', tfw_sched_ratio_next_srv n d = Ok (j, d') /\ dealt_by n d j d'.
Proof.
  intros Hok Hfit. apply (loop_any (n - csidx (schdata d))); try done. lia.
Qed.

Lemma next_srvs_ok k : forall n d, ratio_ok 0 n d -> fits n (orsum (schdata d)) ->
  exists ps d', next_srvs k n d = Ok ((fun p => default 0%nat ((sdidx <$> srvdata d) !! p)) <$> ps, d') /\
    length ps = k /\ deals (oratios d) (bag d) ps (bag d').
Proof.
  induction k as [|k IH]; intros n d Hok Hfit; cbn [next_srvs].
  - exists [], d. split_and!; [done | done | constructor].
  - destruct (next_srv_ok n d Hok Hfit) as (j & d1 & He & [Hok1 Ho1 Hi1 (p & s & Hs & Hj & Hd)]). rewrite He. simpl.
    destruct (IH n d1) as (ps & d2 & He2 & Hl & Hds); [done | |].
    { rewrite (ro_orsum _ _ _ Hok1), Ho1, <- (ro_orsum _ _ _ Hok). done. }
    rewrite He2. simpl. exists (p :: ps), d2. split_and!; [| simpl; lia |].
    + rewrite fmap_cons, Hi1, list_lookup_fmap, Hs. simpl. by rewrite Hj.
    + econstructor; [exact Hd |]. by rewrite <- Ho1.
Qed.
