(* ===== verification/RatioCalc.v ===== *)
(** * The ratio scheduler: ratios

    The ratios of [fw/http_sched_ratio.c]: [tfw_sched_ratio_calc()] and its callers turn the
    weights of the configuration, or response times, into the data of [SchedRatio].  The kernel's
    [sort()] is a parameter with the class [SortSpec]: it permutes the array and sorts it by a
    comparison function that is a total preorder.  [share ws w] is the ratio of the weight [w].

    The theorems: with static weights every server gets its share of the requests
    ([ratio_static_fair]); with response times a slower server never has a greater ratio than a
    faster one ([ratio_dynamic_fair]). *)

From stdpp Require Import sorting.
From S2P Require Import Prelude SchedRatio.

#[local] Open Scope Z_scope.

(** ** Ratios from weights *)

Definition tfw_sched_ratio_srvdata_cmp (lhs rhs : TfwRatioSrvData) : Z :=
  if oratio rhs <? oratio lhs then -1 else if oratio lhs <? oratio rhs then 1 else 0.

(** The loop of [tfw_sched_ratio_calc()]: the entries, [diff], [one_val_idx], [sum_ratio];
    [first] is [srvdata[0].oratio]. *)
Fixpoint calc_loop (unit max_wgt : Z) (l : list TfwRatioSrvData) (first : option Z) (si : nat)
    (diff : bool) (one : nat) (sum : Z) : list TfwRatioSrvData * (bool * nat * Z) :=
  match l with
  | [] => ([], (diff, one, sum))
  | s :: l =>
      let q := u64 (unit * weight s) / max_wgt in
      let oratio := u32 (if q =? 0 then 1 else q) in
      let first := default oratio first in
      let '(l', r) :=
        calc_loop unit max_wgt l (Some first) (S si) (diff || negb (oratio =? first))
          (if (oratio =? 1) && (one =? 0)%nat then si else one) (u64 (sum + oratio)) in
      (MkSd (sdidx s) (weight s) oratio oratio :: l', r)
  end.

(** The data with the ratios, [diff] and [one_val_idx]; a division by zero is a [Bug]. *)
Definition tfw_sched_ratio_calc (srv_n : nat) (sd : list TfwRatioSrvData) (sum_wgt : Z) (max_val_idx : nat)
    : outcome (TfwRatioData * bool * nat) :=
  let? smax := sd !! max_val_idx in
  let max_wgt := weight smax in
  if (sum_wgt =? 0) || (max_wgt =? 0) then Bug
  else
    let unit := u64 (u64 (max_wgt + Z.of_nat srv_n) * max_wgt) / sum_wgt in
    let '(sd, (diff, one, sum)) := calc_loop unit max_wgt sd None 0 false 0 0 in
    Ok (MkRd sd (MkSch 0 srv_n 1 sum sum), diff, one).

(** The loops over the servers before it: the index of the largest weight, the sum, and
    whether the weights differ. *)
Fixpoint wgt_loop (l : list Z) (si : nat) (max_val_idx : nat) (max_val sum : Z) : nat * Z :=
  match l with
  | [] => (max_val_idx, sum)
  | w :: l =>
      let '(m, mv) := if max_val <? w then (si, w) else (max_val_idx, max_val) in
      wgt_loop l (S si) m mv (u64 (sum + w))
  end.

Definition max_and_sum (ws : list Z) : nat * Z :=
  match ws with [] => (0%nat, 0) | w :: ws => wgt_loop ws 1 0 w (u64 w) end.

(** [weights] are those of the server descriptors, in their order; the ratios are set later. *)
Definition entries (weights : list Z) : list TfwRatioSrvData := imap (fun i w => MkSd i w 1 1) weights.

Section Sort.
(** The kernel's [sort()] with a comparison function. *)
Variable sort : (TfwRatioSrvData -> TfwRatioSrvData -> Z) -> list TfwRatioSrvData -> list TfwRatioSrvData.

(** When all weights are the same the common data are set, and set again by [tfw_sched_ratio_calc()]. *)
Definition tfw_sched_ratio_calc_static (srv_n : nat) (weights : list Z) : outcome TfwRatioData :=
  let '(max_val_idx, sum_wgt) := max_and_sum weights in
  let! r := tfw_sched_ratio_calc srv_n (entries weights) sum_wgt max_val_idx in
  let '(d, diff, _) := r in
  if negb diff then Ok d
  else Ok (MkRd (sort tfw_sched_ratio_srvdata_cmp (srvdata d)) (schdata d)).

(** Step 1: entries with the ratio 1 and those with the largest ratio change places. *)
Definition swap_entry (one max s : TfwRatioSrvData) : TfwRatioSrvData :=
  if oratio s =? 1 then MkSd (sdidx s) (weight max) (oratio max) (oratio max)
  else if oratio s =? oratio max then MkSd (sdidx s) (weight one) (oratio one) (oratio one)
  else s.

Fixpoint swap_sum (max : Z) (l : list TfwRatioSrvData) (orsum : Z) : Z :=
  match l with
  | [] => orsum
  | s :: l =>
      swap_sum max l
        (if oratio s =? 1 then u64 (orsum + u32 (max - 1))
         else if oratio s =? max then u64 (orsum - u32 (max - 1)) else orsum)
  end.

(** Step 3: the part between the entries of step 1; the largest ratio comes first, so that
    [si - 1] is an index. *)
Fixpoint middle_loop (max : Z) (l : list TfwRatioSrvData) (si left right : nat) : nat * nat :=
  match l with
  | [] => (left, right)
  | s :: l =>
      if oratio s =? max then middle_loop max l (S si) (S si) right
      else if oratio s =? 1 then (left, (si - 1)%nat)
      else middle_loop max l (S si) left right
  end.

Definition set_sdidx (v : nat) (s : TfwRatioSrvData) : TfwRatioSrvData := MkSd v (weight s) (cratio s) (oratio s).

(** [while (left < right)]; [fuel] is not less than the number of entries. *)
Fixpoint reverse_loop (fuel : nat) (sd : list TfwRatioSrvData) (left right : nat) : outcome (list TfwRatioSrvData) :=
  if (left <? right)%nat then
    match fuel with
    | O => Bug
    | S fuel =>
        let? l := sd !! left in
        let? r := sd !! right in
        let sd := <[left := set_sdidx (sdidx r) l]> sd in
        let sd := <[right := set_sdidx (sdidx l) r]> sd in
        reverse_loop fuel sd (S left) (right - 1)
    end
  else Ok sd.

Definition __tfw_sched_ratio_calc_dynamic (srv_n : nat) (sd : list TfwRatioSrvData) (sum_wgt : Z)
    (max_val_idx : nat) : outcome TfwRatioData :=
  let! r := tfw_sched_ratio_calc srv_n sd sum_wgt max_val_idx in
  let '(d, diff, one_val_idx) := r in
  if negb diff then Ok d
  else
    let? one := srvdata d !! one_val_idx in
    let? max := srvdata d !! max_val_idx in
    let has_one_val := oratio one =? 1 in
    let max_ratio := oratio max in
    let sum := if has_one_val then swap_sum max_ratio (srvdata d) (orsum (schdata d)) else orsum (schdata d) in
    let sd := if has_one_val then swap_entry one max <$> srvdata d else srvdata d in
    let sd := sort tfw_sched_ratio_srvdata_cmp sd in
    let '(lft, rgt) := if has_one_val then middle_loop max_ratio sd 0 0 0 else (0%nat, (srv_n - 1)%nat) in
    let! sd := reverse_loop srv_n sd lft rgt in
    Ok (MkRd sd (MkSch 0 srv_n 1 sum sum)).

(** The response times of the servers: the value of APM, at least 1. *)
Definition rtt_weight (v : Z) : Z := if v =? 0 then 1 else v.

Definition tfw_sched_ratio_calc_dynamic (srv_n : nat) (rtts : list Z) : outcome TfwRatioData :=
  let weights := rtt_weight <$> rtts in
  let '(max_val_idx, sum_wgt) := max_and_sum weights in
  __tfw_sched_ratio_calc_dynamic srv_n (entries weights) sum_wgt max_val_idx.
End Sort.

(** *** The ratios *)

Definition ratio_of (unit mx w : Z) : Z := Z.max 1 (unit * w / mx).

Definition with_ratio (unit mx : Z) (s : TfwRatioSrvData) : TfwRatioSrvData :=
  MkSd (sdidx s) (weight s) (ratio_of unit mx (weight s)) (ratio_of unit mx (weight s)).

Lemma ratio_of_pos unit mx w : 1 <= ratio_of unit mx w.
Proof. unfold ratio_of. lia. Qed.

Lemma ratio_of_mono unit mx w w' : 0 <= unit -> 0 < mx -> w <= w' -> ratio_of unit mx w <= ratio_of unit mx w'.
Proof.
  intros Hu Hm Hw. unfold ratio_of. apply Z.max_le_compat_l, Z.div_le_mono; [done |].
  by apply Z.mul_le_mono_nonneg_l.
Qed.

Lemma ratio_of_max unit mx : 0 < mx -> ratio_of unit mx mx = Z.max 1 unit.
Proof. intros Hm. unfold ratio_of. rewrite Z.div_mul by lia. done. Qed.

(** The ratio of an entry is computed without a loss. *)
Lemma calc_ratio unit mx w : 0 <= unit < 2 ^ 32 -> 0 < mx < 2 ^ 32 -> 0 <= w <= mx ->
  u32 (if u64 (unit * w) / mx =? 0 then 1 else u64 (unit * w) / mx) = ratio_of unit mx w.
Proof.
  intros Hu Hm Hw. rewrite u64_small by (unfold is_u64; nia). unfold ratio_of.
  assert (0 <= unit * w / mx <= unit).
  { split; [apply Z.div_pos; nia |]. apply Z.div_le_upper_bound; nia. }
  destruct (Z.eqb_spec (unit * w / mx) 0); rewrite u32_small by (unfold is_u32; lia); lia.
Qed.

(** Some ratio differs from [first]; the index kept for an entry with the ratio 1. *)
Fixpoint one_idx (rs : list Z) (si one : nat) : nat :=
  match rs with
  | [] => one
  | r :: rs => one_idx rs (S si) (if (r =? 1) && (one =? 0)%nat then si else one)
  end.

Lemma calc_loop_spec unit mx l : 0 <= unit < 2 ^ 32 -> 0 < mx < 2 ^ 32 ->
  Forall (fun s => 0 <= weight s <= mx) l -> forall first si diff one sum,
  let rs := ratio_of unit mx <$> (weight <$> l) in
  let f := default (default 0 (rs !! 0%nat)) first in
  0 <= sum -> sum + zsum rs < 2 ^ 64 ->
  calc_loop unit mx l first si diff one sum =
    (with_ratio unit mx <$> l, (diff || existsb (fun r => negb (r =? f)) rs, one_idx rs si one, sum + zsum rs)).
Proof.
  intros Hu Hm Hl. induction Hl as [|s l Hs Hl IH]; intros first si diff one sum rs f H0 Hsum.
  - simpl. rewrite orb_false_r. change (zsum []) with 0. by rewrite Z.add_0_r.
  - cbn [calc_loop]. rewrite calc_ratio by done. subst rs f. rewrite !fmap_cons, ?zsum_cons in *.
    pose proof (ratio_of_pos unit mx (weight s)) as Hp.
    assert (0 <= zsum (ratio_of unit mx <$> (weight <$> l))).
    { apply zsum_nonneg, Forall_fmap, Forall_true. intros x. simpl. pose proof (ratio_of_pos unit mx x). lia. }
    rewrite (u64_small (sum + _)) by lia. rewrite IH by lia. simpl lookup. cbn [existsb one_idx].
    simpl default. by rewrite <- orb_assoc, Z.add_assoc.
Qed.

(** The weights of a group: at least one server, weights from 1 on, and sums that fit. *)
Definition max_of (ws : list Z) : Z := foldr Z.max 0 ws.
Definition unit_of (ws : list Z) : Z := (max_of ws + zlen ws) * max_of ws / zsum ws.
Definition share (ws : list Z) (w : Z) : Z := ratio_of (unit_of ws) (max_of ws) w.

Record weights_ok (ws : list Z) : Prop := {
  wo_some : ws <> [];
  wo_pos : Forall (Z.le 1) ws;
  wo_fit : max_of ws + zlen ws < 2 ^ 32
}.

Lemma max_of_le ws : Forall (fun w => w <= max_of ws) ws.
Proof.
  induction ws as [|w ws IH]; [constructor |]. simpl. constructor; [lia |].
  eapply Forall_impl; [exact IH |]. simpl. lia.
Qed.

Lemma max_of_nonneg ws : 0 <= max_of ws.
Proof. induction ws; simpl; lia. Qed.

Lemma max_of_sum ws : Forall (Z.le 1) ws -> max_of ws <= zsum ws /\ zlen ws <= zsum ws <= zlen ws * max_of ws.
Proof.
  unfold zlen. induction 1 as [|w ws Hw Hws IH]; [done |]. rewrite zsum_cons. simpl max_of. simpl length.
  pose proof (max_of_nonneg ws). nia.
Qed.

(** The largest weight, found by the loops. *)
Lemma wgt_loop_spec ws : forall si m mv sum,
  Forall (Z.le 0) ws -> 0 <= mv -> 0 <= sum -> sum + zsum ws < 2 ^ 64 ->
  exists m', wgt_loop ws si m mv sum = (m', sum + zsum ws) /\
    (max_of ws <= mv /\ m' = m \/ mv < max_of ws /\ (si <= m')%nat /\ ws !! (m' - si)%nat = Some (max_of ws)).
Proof.
  induction ws as [|w ws IH]; intros si m mv sum Hws Hmv H0 Hs; cbn [wgt_loop].
  - exists m. change (zsum []) with 0. rewrite Z.add_0_r. split; [done |]. by left.
  - apply Forall_cons in Hws as [Hw Hws]. rewrite zsum_cons in Hs. pose proof (zsum_nonneg ws Hws).
    rewrite (u64_small (sum + w)) by lia. rewrite zsum_cons. simpl max_of.
    destruct (Z.ltb_spec mv w) as [Hlt|Hge].
    + destruct (IH (S si) si w (sum + w)) as (m' & -> & Hm); [done | lia | lia | lia |].
      exists m'. split; [f_equal; lia |]. right. destruct Hm as [[Hm ->]|(Hm & Hle & Hl)].
      * rewrite Z.max_l, Nat.sub_diag by done. split_and!; [lia | done | done].
      * rewrite Z.max_r by lia. split_and!; [lia | lia |]. by replace (m' - si)%nat with (S (m' - S si)) by lia.
    + destruct (IH (S si) m mv (sum + w)) as (m' & -> & Hm); [done | lia | lia | lia |].
      exists m'. split; [f_equal; lia |]. destruct Hm as [[Hm ->]|(Hm & Hle & Hl)].
      * left. split; [lia | done].
      * right. rewrite Z.max_r by lia. split_and!; [lia | lia |]. by replace (m' - si)%nat with (S (m' - S si)) by lia.
Qed.

Lemma max_and_sum_spec ws : ws <> [] -> Forall (Z.le 0) ws -> zsum ws < 2 ^ 64 ->
  exists m, max_and_sum ws = (m, zsum ws) /\ ws !! m = Some (max_of ws).
Proof.
  intros Hne Hws Hs. destruct Hws as [|w ws Hw Hws]; [done |]. rewrite zsum_cons in *.
  pose proof (zsum_nonneg ws Hws). unfold max_and_sum. rewrite (u64_small w) by lia.
  destruct (wgt_loop_spec ws 1 0 w w) as (m & -> & Hm); [done | lia | lia | lia |].
  exists m. split; [done |]. simpl max_of. destruct Hm as [[Hm ->]|(Hm & Hle & Hl)].
  - by rewrite Z.max_l.
  - rewrite Z.max_r by lia. by destruct m as [|m]; [lia |]; rewrite Nat.sub_succ, Nat.sub_0_r in Hl.
Qed.

Lemma entries_weights ws : weight <$> entries ws = ws.
Proof.
  apply list_eq. intros i. unfold entries. rewrite list_lookup_fmap, list_lookup_imap.
  by destruct (ws !! i).
Qed.

Section Shares.
Context (ws : list Z) (Hws : weights_ok ws).

Lemma max_of_pos : 1 <= max_of ws /\ max_of ws < 2 ^ 32 /\ 1 <= zlen ws < 2 ^ 32 /\ max_of ws <= zsum ws < 2 ^ 64.
Proof using Hws.
  destruct Hws as [Hne Hpos Hfit]. pose proof (max_of_sum ws Hpos) as [Hm Hs].
  destruct Hpos as [|w l Hw Hl]; [done |]. pose proof (max_of_nonneg l). simpl max_of in *. unfold zlen in *.
  simpl length in *. nia.
Qed.

Lemma unit_bounds : 0 <= unit_of ws <= max_of ws + zlen ws.
Proof using Hws.
  destruct max_of_pos as (Hm & _ & Hn & Hs). unfold unit_of. split; [apply Z.div_pos; nia |].
  apply Z.div_le_upper_bound; nia.
Qed.

Lemma share_pos w : 1 <= share ws w.
Proof using. apply ratio_of_pos. Qed.

Lemma share_mono w w' : w <= w' -> share ws w <= share ws w'.
Proof using Hws.
  intros Hw. destruct max_of_pos, unit_bounds. apply ratio_of_mono; lia.
Qed.

Lemma share_max : share ws (max_of ws) <= max_of ws + zlen ws.
Proof using Hws.
  destruct max_of_pos as (? & _ & ? & _), unit_bounds. unfold share. rewrite ratio_of_max by lia. lia.
Qed.

(** The shares add up to a number close to [max + n]. *)
Lemma shares_sum : zsum (share ws <$> ws) <= max_of ws + 2 * zlen ws.
Proof using Hws.
  destruct max_of_pos as (Hm & _ & Hn & Hs). pose proof unit_bounds as Hu.
  assert (Hl : forall l, Forall (Z.le 1) l ->
    max_of ws * zsum (share ws <$> l) <= unit_of ws * zsum l + max_of ws * zlen l).
  { induction 1 as [|w l Hw Hl IH]; [unfold zlen; simpl; lia |]. rewrite fmap_cons, !zsum_cons.
    unfold zlen in *. simpl length. unfold share at 1, ratio_of.
    pose proof (Z.mul_div_le (unit_of ws * w) (max_of ws) ltac:(lia)).
    pose proof (Z.div_pos (unit_of ws * w) (max_of ws) ltac:(nia) ltac:(lia)). nia. }
  specialize (Hl ws (wo_pos _ Hws)).
  assert (unit_of ws * zsum ws <= (max_of ws + zlen ws) * max_of ws).
  { unfold unit_of. rewrite Z.mul_comm. apply Z.mul_div_le. lia. }
  nia.
Qed.

(** What [tfw_sched_ratio_calc()] leaves. *)
Lemma calc_spec m : ws !! m = Some (max_of ws) ->
  tfw_sched_ratio_calc (length ws) (entries ws) (zsum ws) m =
    Ok (MkRd (with_ratio (unit_of ws) (max_of ws) <$> entries ws)
          (MkSch 0 (length ws) 1 (zsum (share ws <$> ws)) (zsum (share ws <$> ws))),
        existsb (fun r => negb (r =? default 0 ((share ws <$> ws) !! 0%nat))) (share ws <$> ws),
        one_idx (share ws <$> ws) 0 0).
Proof using Hws.
  intros Hm. destruct max_of_pos as (H1 & H2 & H3 & H4). pose proof unit_bounds as Hu. pose proof (wo_fit _ Hws).
  unfold tfw_sched_ratio_calc, entries at 1. rewrite list_lookup_imap, Hm. cbn [fmap option_fmap option_map weight].
  rewrite (proj2 (Z.eqb_neq (zsum ws) 0)), (proj2 (Z.eqb_neq (max_of ws) 0)) by lia. cbn [orb].
  change (Z.of_nat (length ws)) with (zlen ws). rewrite (u64_small (max_of ws + _)) by lia.
  rewrite (u64_small (_ * _)) by nia. fold (unit_of ws).
  pose proof (calc_loop_spec (unit_of ws) (max_of ws) (entries ws) ltac:(lia) ltac:(lia)) as Hc.
  rewrite entries_weights in Hc. change (ratio_of (unit_of ws) (max_of ws)) with (share ws) in Hc. pose proof shares_sum.
  rewrite Hc; [done | | lia | lia].
  apply (Forall_fmap weight (fun w => 0 <= w <= max_of ws)). rewrite entries_weights.
  apply Forall_and. split; [| apply max_of_le]. eapply Forall_impl; [exact (wo_pos _ Hws) |]. simpl. lia.
Qed.
End Shares.

(** ** The sorted array *)

(** What the kernel's [sort()] promises. *)
Definition cmp_le (cmp : TfwRatioSrvData -> TfwRatioSrvData -> Z) (a b : TfwRatioSrvData) : Prop := cmp a b <= 0.

Class SortSpec (sort : (TfwRatioSrvData -> TfwRatioSrvData -> Z) -> list TfwRatioSrvData -> list TfwRatioSrvData)
    : Prop := {
  sort_perm cmp l : sort cmp l ≡ₚ l;
  sort_sorted cmp l : Transitive (cmp_le cmp) -> Total (cmp_le cmp) -> StronglySorted (cmp_le cmp) (sort cmp l)
}.

Lemma srvdata_cmp_le a b : cmp_le tfw_sched_ratio_srvdata_cmp a b <-> oratio b <= oratio a.
Proof.
  unfold cmp_le, tfw_sched_ratio_srvdata_cmp.
  destruct (Z.ltb_spec (oratio b) (oratio a)), (Z.ltb_spec (oratio a) (oratio b)); lia.
Qed.

#[global] Instance srvdata_cmp_trans : Transitive (cmp_le tfw_sched_ratio_srvdata_cmp).
Proof. intros a b c. rewrite !srvdata_cmp_le. lia. Qed.

#[global] Instance srvdata_cmp_total : Total (cmp_le tfw_sched_ratio_srvdata_cmp).
Proof. intros a b. rewrite !srvdata_cmp_le. lia. Qed.

#[global] Instance zsum_perm : Proper ((≡ₚ) ==> (=)) zsum.
Proof. induction 1; rewrite ?zsum_cons; lia. Qed.

(** A sorted array descends. *)
Definition descends (l : list TfwRatioSrvData) : Prop :=
  forall i j a b, (i <= j)%nat -> l !! i = Some a -> l !! j = Some b -> oratio b <= oratio a.

Lemma sorted_descends l : StronglySorted (cmp_le tfw_sched_ratio_srvdata_cmp) l -> descends l.
Proof.
  induction 1 as [|x l Hl IH Hx]; intros i j a b Hij Ha Hb; [done |].
  destruct i as [|i], j as [|j]; simpl in Ha, Hb; [ | | lia | by apply (IH i j); [lia | |]].
  - by simplify_eq.
  - rewrite Forall_lookup in Hx. specialize (Hx _ _ Hb). rewrite srvdata_cmp_le in Hx. by simplify_eq.
Qed.

(** New data: all ratios are full, none is to be restored. *)
Lemma fresh_bag sd r : Forall (fun s => cratio s = oratio s) sd ->
  bag (MkRd sd (MkSch 0 (length sd) 1 r r)) = oratio <$> sd.
Proof.
  intros Hsd. apply list_eq. intros i. rewrite bag_lookup, list_lookup_fmap. simpl.
  destruct (sd !! i) as [s|] eqn:Hs; [| done]. simpl. f_equal. unfold left_of.
  rewrite decide_True by (by eapply lookup_lt_Some). rewrite Forall_lookup in Hsd. by eapply Hsd.
Qed.

Lemma fresh_ok sd r : sd <> [] -> Forall (fun s => cratio s = oratio s /\ 1 <= oratio s) sd ->
  r = zsum (oratio <$> sd) -> ratio_ok 0 (length sd) (MkRd sd (MkSch 0 (length sd) 1 r r)).
Proof.
  intros Hne Hsd ->. assert (0 < zsum (oratio <$> sd)).
  { apply zsum_pos; [| by destruct sd]. apply Forall_fmap. eapply Forall_impl; [exact Hsd |]. simpl. lia. }
  assert (length sd <> 0)%nat by (by destruct sd).
  rewrite Forall_lookup in Hsd. constructor; simpl; try done; try lia.
  - intros i s Hs. destruct (Hsd i s Hs). lia.
  - intros i s Hs Hi. pose proof (lookup_lt_Some _ _ _ Hs). lia.
  - rewrite fresh_bag; [done |]. rewrite Forall_lookup. intros i s Hs. by destruct (Hsd i s Hs).
Qed.

(** How often the server descriptor [i] was chosen. *)
Definition chosen (i : nat) (l : list nat) : Z := drawn i l.

Lemma refill_length o b : length b = length o -> length (refill o b) = length o.
Proof. intros Hb. unfold refill. by destruct (zsum b =? 0). Qed.

Lemma deals_places o b ps b' : deals o b ps b' -> length b = length o -> Forall (fun q => (q < length o)%nat) ps.
Proof.
  induction 1 as [|b p b1 ps b2 Hd _ IH]; intros Hb; constructor; destruct Hd as [b p r Hp _].
  - rewrite <- Hb. by eapply lookup_lt_Some.
  - apply IH, refill_length. by rewrite length_insert.
Qed.

(** Descriptors that are all different are chosen as often as their places are drawn. *)
Lemma chosen_drawn (ids : list nat) p i ps : NoDup ids -> ids !! p = Some i ->
  Forall (fun q => (q < length ids)%nat) ps ->
  chosen i ((fun q => default 0%nat (ids !! q)) <$> ps) = drawn p ps.
Proof.
  intros Hnd Hp. unfold chosen. induction 1 as [|q ps Hq _ IH]; [done |].
  rewrite fmap_cons, !drawn_cons, IH. f_equal. destruct (lookup_lt_is_Some_2 _ _ Hq) as [t Ht]. rewrite Ht. simpl.
  destruct (decide (q = p)) as [->|Hqp].
  - rewrite decide_True; [done | congruence].
  - rewrite decide_False; [done |]. intros ->. apply Hqp. by eapply (NoDup_lookup ids).
Qed.

(** A run from new data whose descriptors are all different. *)
Lemma fresh_fair n sd k r : let d := MkRd sd (MkSch 0 n 1 r r) in
  length sd = n -> sd <> [] -> NoDup (sdidx <$> sd) ->
  Forall (fun s => cratio s = oratio s /\ 1 <= oratio s) sd -> r = zsum (oratio <$> sd) -> fits n r ->
  exists l d', next_srvs k n d = Ok (l, d') /\ length l = k /\
    forall s, s ∈ sd -> exists e, 0 <= e <= oratio s /\ chosen (sdidx s) l = (Z.of_nat k / r) * oratio s + e.
Proof.
  intros d Hn Hne Hnd Hsd Hr Hfit. subst d. rewrite <- Hn.
  assert (Hok : ratio_ok 0 (length sd) (MkRd sd (MkSch 0 (length sd) 1 r r))) by (by apply fresh_ok).
  destruct (next_srvs_ok k _ _ Hok) as (ps & d' & He & Hl & Hd); [simpl; by rewrite Hn |].
  eexists _, d'. split; [exact He |]. split; [by rewrite length_fmap |].
  unfold oratios in Hd. cbn [srvdata] in *.
  rewrite fresh_bag in Hd by (eapply Forall_impl; [exact Hsd |]; simpl; tauto).
  destruct (deals_fair (oratio <$> sd) ps (bag d')) as (_ & _ & Hf); [by destruct sd | | done |].
  { apply Forall_fmap. eapply Forall_impl; [exact Hsd |]. simpl. lia. }
  intros s Hs. apply list_elem_of_lookup in Hs as [p Hp].
  destruct (Hf p (oratio s)) as (y & Hy & Hyx & Hdr); [by rewrite list_lookup_fmap, Hp |].
  exists (oratio s - y). split; [lia |]. rewrite <- Hr in Hdr. unfold zlen in Hdr. rewrite Hl in Hdr.
  rewrite <- Hdr. apply chosen_drawn; [done | by rewrite list_lookup_fmap, Hp |].
  rewrite length_fmap, <- (length_fmap oratio sd). by eapply deals_places.
Qed.

(** ** Static ratios *)

Lemma entries_ids ws : sdidx <$> entries ws = seq 0 (length ws).
Proof.
  apply list_eq. intros i. unfold entries. rewrite list_lookup_fmap, list_lookup_imap.
  destruct (ws !! i) as [w|] eqn:Hw; simpl.
  - symmetry. apply lookup_seq. split; [done | by eapply lookup_lt_Some].
  - symmetry. apply lookup_ge_None. rewrite length_seq. by apply lookup_ge_None.
Qed.

(** The entries with the ratios, in the order of the descriptors. *)
Definition shared (ws : list Z) : list TfwRatioSrvData := with_ratio (unit_of ws) (max_of ws) <$> entries ws.

Lemma shared_ids ws : sdidx <$> shared ws = seq 0 (length ws).
Proof. unfold shared. rewrite <- list_fmap_compose, <- entries_ids. by apply list_fmap_ext. Qed.

Lemma shared_ratios ws : oratio <$> shared ws = share ws <$> ws.
Proof.
  apply list_eq. intros i. unfold shared, entries. rewrite !list_lookup_fmap, list_lookup_imap.
  by destruct (ws !! i).
Qed.

Lemma shared_length ws : length (shared ws) = length ws.
Proof. unfold shared, entries. by rewrite length_fmap, length_imap. Qed.

Lemma shared_full ws : Forall (fun s => cratio s = oratio s /\ 1 <= oratio s) (shared ws).
Proof.
  unfold shared. apply Forall_fmap, Forall_true. intros s. simpl. split; [done |]. apply ratio_of_pos.
Qed.

Lemma shared_lookup ws i s : shared ws !! i = Some s ->
  exists w, ws !! i = Some w /\ s = MkSd i w (share ws w) (share ws w).
Proof.
  unfold shared, entries. rewrite list_lookup_fmap, list_lookup_imap.
  destruct (ws !! i) as [w|]; [| done]. intros [= <-]. by exists w.
Qed.

Lemma shared_elem ws i w : ws !! i = Some w -> MkSd i w (share ws w) (share ws w) ∈ shared ws.
Proof.
  intros Hw. apply list_elem_of_lookup. exists i. unfold shared, entries.
  by rewrite list_lookup_fmap, list_lookup_imap, Hw.
Qed.

Lemma has_diff rs : existsb (fun r => negb (r =? default 0 (rs !! 0%nat))) rs = true ->
  exists x y, x ∈ rs /\ y ∈ rs /\ x <> y.
Proof.
  intros (x & Hx & Hne)%existsb_exists. destruct rs as [|y rs]; [done |]. simpl in Hne.
  exists x, y. split_and!; [by apply list_elem_of_In | constructor |]. by apply negb_true_iff, Z.eqb_neq in Hne.
Qed.

Lemma no_diff rs : existsb (fun r => negb (r =? default 0 (rs !! 0%nat))) rs = false ->
  forall x y, x ∈ rs -> y ∈ rs -> x = y.
Proof.
  intros He. assert (H : forall x, x ∈ rs -> x = default 0 (rs !! 0%nat)).
  { intros x Hx. destruct (Z.eq_dec x (default 0 (rs !! 0%nat))) as [|Hne]; [done |].
    enough (existsb (fun r => negb (r =? default 0 (rs !! 0%nat))) rs = true) by congruence.
    apply existsb_exists. exists x. split; [by apply list_elem_of_In | by apply negb_true_iff, Z.eqb_neq]. }
  intros x y Hx Hy. by rewrite (H x Hx), (H y Hy).
Qed.

Section Static.
Context (sort : (TfwRatioSrvData -> TfwRatioSrvData -> Z) -> list TfwRatioSrvData -> list TfwRatioSrvData)
  `{Hsort : !SortSpec sort}.

(** The static ratios, in some order. *)
Lemma calc_static_ok ws : weights_ok ws ->
  exists sd, let r := zsum (share ws <$> ws) in
    tfw_sched_ratio_calc_static sort (length ws) ws = Ok (MkRd sd (MkSch 0 (length ws) 1 r r)) /\
    sd ≡ₚ shared ws /\ descends sd.
Proof using Hsort.
  intros Hws. destruct (max_of_pos ws Hws) as (H1 & H2 & H3 & H4).
  destruct (max_and_sum_spec ws) as (m & Em & Hm); [by destruct Hws | | lia |].
  { eapply Forall_impl; [exact (wo_pos _ Hws) |]. simpl. lia. }
  unfold tfw_sched_ratio_calc_static. rewrite Em, (calc_spec ws Hws m Hm). fold (shared ws).
  destruct (existsb _ _) eqn:Ediff; cbn [negb srvdata schdata]; eexists; (split; [done |]).
  - split; [apply sort_perm |]. apply sorted_descends, sort_sorted; apply _.
  - split; [done |].
    intros i j a b _ Ha Hb. rewrite (no_diff _ Ediff (oratio a) (oratio b)); [done | |];
      rewrite <- shared_ratios; apply list_elem_of_fmap_2; by eapply list_elem_of_lookup_2.
Qed.
End Static.

(** The limits of the configuration. *)
Lemma cfg_fits ws : Forall (fun w => 1 <= w <= 100) ws -> 0 < zlen ws <= 65535 ->
  weights_ok ws /\ fits (length ws) (zsum (share ws <$> ws)).
Proof.
  intros Hw Hn. assert (Hmax : max_of ws <= 100).
  { clear Hn. induction Hw as [|w ws ? ? IH]; simpl; lia. }
  assert (Hok : weights_ok ws).
  { constructor; [intros ->; unfold zlen in Hn; simpl in Hn; lia | | lia]. eapply Forall_impl; [exact Hw |]. simpl. lia. }
  split; [done |]. pose proof (shares_sum ws Hok) as Hs.
  assert (0 <= zsum (share ws <$> ws)).
  { apply zsum_nonneg, Forall_fmap, Forall_true. intros x. simpl. pose proof (share_pos ws x). lia. }
  unfold fits, zlen in *. split; [lia |].
  assert (zsum (share ws <$> ws) <= 131170) by lia. nia.
Qed.

(** C13: with weights from the configuration (1 to 100, up to 65535 servers) the
    ratios are computed without overflow or division by zero, every call returns a server, and of
    any number of requests from the start the server [i] gets exactly its ratio
    [max 1 (unit * w_i / max)] of each complete round of [sum of ratios] requests and at most
    that many of the round not yet complete. *)
Theorem ratio_static_fair sort ws k :
  SortSpec sort -> Forall (fun w => 1 <= w <= 100) ws -> 0 < zlen ws <= 65535 ->
  let sum := zsum (share ws <$> ws) in
  exists d l d', tfw_sched_ratio_calc_static sort (length ws) ws = Ok d /\
    next_srvs k (length ws) d = Ok (l, d') /\ length l = k /\
    forall i w, ws !! i = Some w ->
      exists e, 0 <= e <= share ws w /\ chosen i l = (Z.of_nat k / sum) * share ws w + e.
Proof.
  intros Hsort Hw Hn sum. destruct (cfg_fits ws Hw Hn) as [Hok Hfit].
  destruct (calc_static_ok sort ws Hok) as (sd & He & Hp & _). subst sum.
  assert (Hlen : length sd = length ws) by (by rewrite Hp, shared_length).
  destruct (fresh_fair (length ws) sd k (zsum (share ws <$> ws))) as (l & d' & Hrun & Hl & Hf);
    try done.
  - intros ->. unfold zlen in Hn. rewrite <- Hlen in Hn. simpl in Hn. lia.
  - rewrite Hp, shared_ids. apply NoDup_seq.
  - rewrite Hp. apply shared_full.
  - by rewrite Hp, shared_ratios.
  - eexists _, l, d'. split_and!; [exact He | done | done |]. intros i w Hi.
    apply (Hf (MkSd i w (share ws w) (share ws w))). rewrite Hp.
    by apply shared_elem.
Qed.

(** ** Dynamic ratios *)

(** The entry kept for the ratio 1 has it when some entry has. *)
Lemma one_idx_found rs : forall si one,
  one_idx rs si one = one \/ (si <= one_idx rs si one)%nat /\ rs !! (one_idx rs si one - si)%nat = Some 1.
Proof.
  induction rs as [|r rs IH]; intros si one; cbn [one_idx]; [by left |].
  destruct (Z.eqb_spec r 1) as [->|Hr], (Nat.eqb_spec one 0) as [->|Ho]; cbn [andb];
    match goal with |- context [one_idx rs ?s ?o] => destruct (IH s o) as [->|[Hle Hl]] end;
    try (by left); right; (split; [lia |]).
  1: by rewrite Nat.sub_diag.
  all: match goal with |- (_ :: _) !! (?o - _)%nat = _ => by replace (o - si)%nat with (S (o - S si)) by lia end.
Qed.

Lemma one_idx_later rs : forall si, (0 < si)%nat -> 1 ∈ rs ->
  (si <= one_idx rs si 0)%nat /\ rs !! (one_idx rs si 0 - si)%nat = Some 1.
Proof.
  induction rs as [|r rs IH]; intros si Hsi Hin; [by apply not_elem_of_nil in Hin |].
  cbn [one_idx]. destruct (Z.eqb_spec r 1) as [->|Hr]; cbn [andb Nat.eqb].
  - destruct (one_idx_found rs (S si) si) as [->|[Hle Hl]].
    + by rewrite Nat.sub_diag.
    + split; [lia |]. by replace (_ - si)%nat with (S (one_idx rs (S si) si - S si)) by lia.
  - apply elem_of_cons in Hin as [?|Hin]; [congruence |]. destruct (IH (S si) ltac:(lia) Hin) as [Hle Hl].
    split; [lia |]. by replace (_ - si)%nat with (S (one_idx rs (S si) 0 - S si)) by lia.
Qed.

Lemma one_idx_spec rs : 1 ∈ rs -> rs !! one_idx rs 0 0 = Some 1.
Proof.
  destruct rs as [|r rs]; intros Hin; [by apply not_elem_of_nil in Hin |]. cbn [one_idx].
  rewrite andb_true_r.
  destruct (Z.eqb_spec r 1) as [->|Hr].
  - destruct (one_idx_found rs 1 0) as [->|[Hle Hl]]; [done |].
    by destruct (one_idx rs 1 0) as [|o]; [lia |]; rewrite Nat.sub_succ, Nat.sub_0_r in Hl.
  - apply elem_of_cons in Hin as [?|Hin]; [congruence |]. destruct (one_idx_later rs 1 ltac:(lia) Hin) as [Hle Hl].
    by destruct (one_idx rs 1 0) as [|o]; [lia |]; rewrite Nat.sub_succ, Nat.sub_0_r in Hl.
Qed.

(** Step 1 on ratios: 1 and the largest change places. *)
Definition swap_ratio (M r : Z) : Z := if r =? 1 then M else if r =? M then 1 else r.

Lemma swap_ratio_range M r : 1 <= r <= M -> 1 <= swap_ratio M r <= M.
Proof. unfold swap_ratio. destruct (Z.eqb_spec r 1), (Z.eqb_spec r M); lia. Qed.

Lemma swap_entry_ratio one max s : oratio one = 1 -> oratio (swap_entry one max s) = swap_ratio (oratio max) (oratio s).
Proof. intros H1. unfold swap_entry, swap_ratio. by destruct (oratio s =? 1), (oratio s =? oratio max). Qed.

Lemma swap_entry_id one max s : sdidx (swap_entry one max s) = sdidx s.
Proof. unfold swap_entry. by destruct (oratio s =? 1), (oratio s =? oratio max). Qed.

Lemma swap_entry_full one max s : cratio s = oratio s -> cratio (swap_entry one max s) = oratio (swap_entry one max s).
Proof. intros Hs. unfold swap_entry. by destruct (oratio s =? 1), (oratio s =? oratio max). Qed.

Lemma zsum_range M l : Forall (fun r => 1 <= r <= M) l -> zlen l <= zsum l <= zlen l * M.
Proof. unfold zlen. induction 1; [done |]. rewrite zsum_cons. simpl length. lia. Qed.

Lemma swap_sum_spec M l : forall pre, 1 <= M < 2 ^ 32 -> 0 <= pre ->
  Forall (fun r => 1 <= r <= M) (oratio <$> l) -> pre + zlen l * M < 2 ^ 64 ->
  swap_sum M l (pre + zsum (oratio <$> l)) = pre + zsum (swap_ratio M <$> (oratio <$> l)).
Proof.
  induction l as [|s l IH]; intros pre HM Hpre Hl Hfit; [done |]. cbn [swap_sum].
  rewrite !fmap_cons, !zsum_cons in *. apply Forall_cons in Hl as [Hs Hl].
  pose proof (zsum_range M _ Hl) as Hr. unfold zlen in *. rewrite length_fmap in Hr. simpl length in Hfit.
  pose proof (swap_ratio_range M (oratio s) Hs) as Hsw.
  rewrite (u32_small (M - 1)) by (unfold is_u32; lia).
  assert (E : (if oratio s =? 1 then u64 (pre + (oratio s + zsum (oratio <$> l)) + (M - 1))
    else if oratio s =? M then u64 (pre + (oratio s + zsum (oratio <$> l)) - (M - 1))
    else pre + (oratio s + zsum (oratio <$> l))) = (pre + swap_ratio M (oratio s)) + zsum (oratio <$> l)).
  { unfold swap_ratio. destruct (Z.eqb_spec (oratio s) 1); [rewrite u64_small; lia |].
    destruct (Z.eqb_spec (oratio s) M); [rewrite u64_small; lia | lia]. }
  rewrite E, IH by (done || lia). lia.
Qed.

(** Step 3: where the part between the entries of step 1 is. *)
Lemma descends_cons s l : descends (s :: l) -> descends l /\ Forall (fun t => oratio t <= oratio s) l.
Proof.
  intros Hd. split.
  - intros i j a b Hij Ha Hb. by apply (Hd (S i) (S j) a b); [lia | |].
  - apply Forall_lookup. intros i t Ht. by apply (Hd 0%nat (S i) s t); [lia | |].
Qed.

Lemma middle_loop_spec M l : 1 < M -> descends l -> Forall (fun s => 1 <= oratio s <= M) l ->
  Exists (fun s => oratio s = 1) l ->
  exists A B C, l = A ++ B ++ C /\ Forall (fun s => oratio s = M) A /\
    Forall (fun s => 1 < oratio s < M) B /\ Forall (fun s => oratio s = 1) C /\ C <> [] /\
    forall si lft rgt, middle_loop M l si lft rgt =
      (if decide (A = []) then lft else (si + length A)%nat, (si + length A + length B - 1)%nat).
Proof.
  intros HM. induction l as [|s l IH]; intros Hd Hr Hex; [by inversion Hex |].
  apply descends_cons in Hd as [Hd Hle]. apply Forall_cons in Hr as [Hs Hr].
  destruct (decide (oratio s = 1)) as [E1|N1].
  - exists [], [], (s :: l). split_and!; try done.
    + constructor; [done |]. apply Forall_lookup. intros i t Ht. rewrite !Forall_lookup in *.
      specialize (Hle i t Ht). specialize (Hr i t Ht). simpl in *. lia.
    + intros si lft rgt. cbn [middle_loop]. rewrite E1, (proj2 (Z.eqb_neq 1 M)) by lia. simpl.
      by rewrite !Nat.add_0_r.
  - apply Exists_cons in Hex as [?|Hex]; [done |].
    destruct (IH Hd Hr Hex) as (A & B & C & -> & HA & HB & HC & HCn & Hrun).
    destruct (Z.eqb_spec (oratio s) M) as [EM|NM].
    + exists (s :: A), B, C. split_and!; try done; [by constructor |].
      intros si lft rgt. cbn [middle_loop]. rewrite EM, Z.eqb_refl, Hrun. cbn [length].
      destruct (decide (A = [])) as [->|]; simpl; f_equal; lia.
    + assert (A = []) as ->.
      { destruct A as [|a A]; [done |]. rewrite Forall_app in Hle. destruct Hle as [Hle _].
        apply Forall_cons in HA as [Ha _]. apply Forall_cons in Hle as [Hl _]. lia. }
      exists [], (s :: B), C. split_and!; try done; [constructor; [lia | done] |].
      intros si lft rgt. cbn [middle_loop]. rewrite (proj2 (Z.eqb_neq _ _) NM), (proj2 (Z.eqb_neq _ _) N1), Hrun.
      simpl. f_equal. lia.
Qed.

(** The descriptors of the part in reverse order. *)
Definition relabel (B : list TfwRatioSrvData) : list TfwRatioSrvData := zip_with set_sdidx (reverse (sdidx <$> B)) B.

Lemma relabel_ends x y B : relabel (x :: B ++ [y]) = set_sdidx (sdidx y) x :: relabel B ++ [set_sdidx (sdidx x) y].
Proof.
  unfold relabel. rewrite fmap_cons, fmap_app. simpl. rewrite reverse_cons, reverse_app. simpl.
  rewrite zip_with_app by (rewrite length_reverse, length_fmap; done). done.
Qed.

Lemma reverse_loop_spec m : forall A B C fuel, length B = m -> (m <= fuel)%nat -> (0 < length A + length B)%nat ->
  reverse_loop fuel (A ++ B ++ C) (length A) (length A + length B - 1) = Ok (A ++ relabel B ++ C).
Proof.
  induction m as [m IH] using lt_wf_ind. intros A B C fuel Hm Hf Hpos.
  destruct B as [|x B]; [| destruct B as [|y B _] using rev_ind].
  - destruct fuel; cbn [reverse_loop]; rewrite (proj2 (Nat.ltb_ge _ _)) by (simpl in *; lia); done.
  - destruct fuel; cbn [reverse_loop]; rewrite (proj2 (Nat.ltb_ge _ _)) by (simpl; lia);
      destruct x; done.
  - simpl in Hm. rewrite length_app in Hm. simpl in Hm. destruct fuel as [|fuel]; [lia |].
    cbn [reverse_loop]. rewrite (proj2 (Nat.ltb_lt _ _)) by (simpl; rewrite length_app; simpl; lia).
    set (r := (length A + length (x :: B ++ [y]) - 1)%nat).
    assert (Er : r = (length (A ++ x :: B) + 0)%nat)
      by (subst r; simpl; rewrite !length_app; simpl; lia).
    assert (Ex : (A ++ (x :: B ++ [y]) ++ C) !! length A = Some x).
    { rewrite lookup_app_r, Nat.sub_diag by done. done. }
    assert (Esplit : A ++ (x :: B ++ [y]) ++ C = (A ++ x :: B) ++ y :: C) by (by simplify_list_eq).
    assert (Ey : (A ++ (x :: B ++ [y]) ++ C) !! r = Some y).
    { rewrite Esplit, Er, lookup_app_r, Nat.add_sub_swap, Nat.sub_diag by lia. done. }
    rewrite Ex, Ey.
    assert (E1 : <[length A := set_sdidx (sdidx y) x]> (A ++ (x :: B ++ [y]) ++ C)
      = (A ++ set_sdidx (sdidx y) x :: B) ++ y :: C).
    { rewrite <- (Nat.add_0_r (length A)), insert_app_r. by simplify_list_eq. }
    rewrite E1. replace r with (length (A ++ set_sdidx (sdidx y) x :: B) + 0)%nat
      by (rewrite Er, !length_app; done).
    rewrite insert_app_r. simpl list_insert.
    replace ((A ++ set_sdidx (sdidx y) x :: B) ++ <[0%nat := set_sdidx (sdidx x) y]> (y :: C))
      with ((A ++ [set_sdidx (sdidx y) x]) ++ B ++ (set_sdidx (sdidx x) y :: C)) by (by simplify_list_eq).
    replace (S (length A)) with (length (A ++ [set_sdidx (sdidx y) x])) by (rewrite length_app; simpl; lia).
    replace (length (A ++ set_sdidx (sdidx y) x :: B) + 0 - 1)%nat
      with (length (A ++ [set_sdidx (sdidx y) x]) + length B - 1)%nat by (rewrite !length_app; simpl; lia).
    rewrite (IH (length B)); [| lia | done | lia | rewrite length_app; simpl; lia].
    rewrite relabel_ends. by simplify_list_eq.
Qed.

Lemma relabel_lookup B i s : relabel B !! i = Some s ->
  (i < length B)%nat /\ exists b c, B !! i = Some b /\ B !! (length B - S i)%nat = Some c /\ s = set_sdidx (sdidx c) b.
Proof.
  unfold relabel. rewrite lookup_zip_with_Some. intros (j & b & -> & Hj & Hb).
  pose proof (lookup_lt_Some _ _ _ Hb) as Hi. split; [done |].
  rewrite reverse_lookup in Hj by (by rewrite length_fmap). rewrite length_fmap, list_lookup_fmap, fmap_Some in Hj.
  destruct Hj as (c & Hc & ->). by exists b, c.
Qed.

Lemma relabel_length B : length (relabel B) = length B.
Proof. unfold relabel. rewrite length_zip_with, length_reverse, length_fmap. lia. Qed.

Lemma relabel_with l B : length l = length B ->
  oratio <$> zip_with set_sdidx l B = oratio <$> B /\ cratio <$> zip_with set_sdidx l B = cratio <$> B.
Proof.
  revert l. induction B as [|b B IH]; intros [|i l] Hl; try done. simpl in Hl. cbn [zip_with].
  rewrite !fmap_cons. destruct (IH l) as [-> ->]; [lia | done].
Qed.

Lemma relabel_ratios B : oratio <$> relabel B = oratio <$> B /\ cratio <$> relabel B = cratio <$> B.
Proof. apply relabel_with. by rewrite length_reverse, length_fmap. Qed.

Lemma relabel_ids B : sdidx <$> relabel B ≡ₚ sdidx <$> B.
Proof.
  unfold relabel. rewrite fmap_zip_with_l; [by rewrite reverse_Permutation | done |].
  by rewrite length_reverse, length_fmap.
Qed.

(** Servers with greater values get smaller ratios. *)
Lemma reversed_antitone (val : nat -> Z) M A B C :
  descends B ->
  Forall (fun s => oratio s = M /\ val (sdidx s) = 1) A ->
  Forall (fun s => oratio s = val (sdidx s) /\ 1 <= oratio s <= M) B ->
  Forall (fun s => oratio s = 1 /\ val (sdidx s) = M) C ->
  forall s t, s ∈ A ++ relabel B ++ C -> t ∈ A ++ relabel B ++ C ->
    val (sdidx s) < val (sdidx t) -> oratio t <= oratio s.
Proof.
  intros Hd HA HB HC. rewrite !Forall_forall in HA, HC. rewrite Forall_lookup in HB.
  assert (HB' : forall s, s ∈ relabel B -> exists i b c, B !! i = Some b /\ B !! (length B - S i)%nat = Some c /\
    (i < length B)%nat /\ oratio s = oratio b /\ val (sdidx s) = oratio c).
  { intros s [i Hi]%list_elem_of_lookup. apply relabel_lookup in Hi as (Hlt & b & c & Hb & Hc & ->).
    exists i, b, c. split_and!; try done. simpl. symmetry. by apply (HB _ _ Hc). }
  assert (Hany : forall s, s ∈ A ++ relabel B ++ C -> 1 <= oratio s <= M \/ M < 1).
  { intros s Hs. rewrite !elem_of_app in Hs. destruct Hs as [Hs|[Hs|Hs]].
    - destruct (HA s Hs). lia.
    - destruct (HB' s Hs) as (i & b & c & Hb & _ & _ & -> & _). left. by apply (HB i).
    - destruct (HC s Hs). lia. }
  intros s t Hs Ht Hlt. pose proof (Hany s Hs). pose proof (Hany t Ht). rewrite !elem_of_app in Hs, Ht.
  destruct Hs as [Hs|[Hs|Hs]], Ht as [Ht|[Ht|Ht]];
    repeat match goal with
    | H : ?x ∈ A |- _ => destruct (HA x H) as [? ?]; clear H
    | H : ?x ∈ C |- _ => destruct (HC x H) as [? ?]; clear H
    | H : ?x ∈ relabel B |- _ => let Hc := fresh in destruct (HB' x H) as (? & ? & ? & ? & Hc & ? & ? & ?);
        pose proof (proj2 (HB _ _ Hc)); clear H
    end; try lia.
  match goal with Hs : oratio s = oratio ?b, Ht : oratio t = oratio ?b',
    Hb : B !! ?i = Some ?b, Hb' : B !! ?j = Some ?b' |- _ => rewrite Hs, Ht; apply (Hd i j b b'); try done end.
  match goal with |- (?i <= ?j)%nat => destruct (Nat.le_gt_cases i j) as [|Hji]; [done |] end.
  exfalso.
  match goal with Hs : val (sdidx s) = oratio ?c, Ht : val (sdidx t) = oratio ?c',
    Hc : B !! ?i = Some ?c, Hc' : B !! ?j = Some ?c' |- _ =>
      pose proof (Hd i j c c' ltac:(lia) Hc Hc'); lia end.
Qed.

(** The ratio that the response time of a server would give. *)
Definition slowness (ws : list Z) (i : nat) : Z := share ws (default 0 (ws !! i)).

Lemma shared_val ws s : s ∈ shared ws -> oratio s = slowness ws (sdidx s) /\ cratio s = oratio s.
Proof.
  intros [i Hi]%list_elem_of_lookup. apply shared_lookup in Hi as (w & Hw & ->).
  unfold slowness. simpl. by rewrite Hw.
Qed.

Lemma share_le_max ws w : weights_ok ws -> w ∈ ws -> share ws w <= share ws (max_of ws).
Proof.
  intros Hws Hw. apply share_mono; [done |]. pose proof (max_of_le ws) as Hm. rewrite Forall_forall in Hm. by apply Hm.
Qed.

Lemma shared_range ws s : weights_ok ws -> s ∈ shared ws -> 1 <= oratio s <= share ws (max_of ws).
Proof.
  intros Hws [i Hi]%list_elem_of_lookup. apply shared_lookup in Hi as (w & Hw & ->). simpl.
  split; [apply share_pos |]. apply share_le_max; [done |]. by eapply list_elem_of_lookup_2.
Qed.

(** What the three steps promise. *)
Record dynamic_ok (ws : list Z) (sd : list TfwRatioSrvData) : Prop := {
  dy_ids : sdidx <$> sd ≡ₚ seq 0 (length ws);
  dy_full : Forall (fun s => cratio s = oratio s /\ 1 <= oratio s <= share ws (max_of ws)) sd;
  dy_anti : forall s t, s ∈ sd -> t ∈ sd -> slowness ws (sdidx s) < slowness ws (sdidx t) -> oratio t <= oratio s
}.

(** Reversing the middle of a sorted array whose ends are swapped already. *)
Lemma reversed_ok ws A B C : descends (A ++ B ++ C) ->
  let M := share ws (max_of ws) in
  sdidx <$> A ++ B ++ C ≡ₚ seq 0 (length ws) ->
  Forall (fun s => cratio s = oratio s /\ 1 <= oratio s <= M) (A ++ B ++ C) ->
  Forall (fun s => oratio s = M /\ slowness ws (sdidx s) = 1) A ->
  Forall (fun s => oratio s = slowness ws (sdidx s)) B ->
  Forall (fun s => oratio s = 1 /\ slowness ws (sdidx s) = M) C ->
  dynamic_ok ws (A ++ relabel B ++ C) /\ oratio <$> A ++ relabel B ++ C = oratio <$> A ++ B ++ C.
Proof.
  intros Hd M Hids Hfull HA HB HC. destruct (relabel_ratios B) as [Ho Hc].
  split; [constructor |].
  - rewrite <- Hids, !fmap_app, relabel_ids. done.
  - rewrite !Forall_app in *. destruct Hfull as (H1 & H2 & H3). split_and!; [done | | done].
    apply Forall_lookup. intros i s Hs. apply relabel_lookup in Hs as (_ & b & c & Hb & _ & ->). simpl.
    rewrite Forall_lookup in H2. by apply (H2 i b).
  - apply (reversed_antitone _ M); [| done | | done].
    + intros i j a b Hij Ha Hb. apply (Hd (length A + i)%nat (length A + j)%nat a b); [lia | |];
        rewrite lookup_app_r, Nat.add_comm, Nat.add_sub by lia; apply lookup_app_l_Some; done.
    + rewrite !Forall_app in Hfull. destruct Hfull as (_ & H2 & _). rewrite Forall_lookup in *.
      intros i s Hs. split; [by eapply HB | by apply (H2 i s)].
  - by rewrite !fmap_app, Ho.
Qed.

Section Dynamic.
Context (sort : (TfwRatioSrvData -> TfwRatioSrvData -> Z) -> list TfwRatioSrvData -> list TfwRatioSrvData)
  `{Hsort : !SortSpec sort}.
Context (ws : list Z) (Hws : weights_ok ws).

Let M := share ws (max_of ws).

Lemma sorted_sort l : descends (sort tfw_sched_ratio_srvdata_cmp l).
Proof using Hsort. apply sorted_descends, sort_sorted; apply _. Qed.

(** Without the ratio 1 the whole array is reversed. *)
Lemma dynamic_no_one : dynamic_ok ws (relabel (sort tfw_sched_ratio_srvdata_cmp (shared ws))) /\
  zsum (oratio <$> relabel (sort tfw_sched_ratio_srvdata_cmp (shared ws))) = zsum (share ws <$> ws).
Proof using Hsort Hws.
  set (S := sort _ _). pose proof (sort_perm tfw_sched_ratio_srvdata_cmp (shared ws) : S ≡ₚ _) as Hp.
  destruct (reversed_ok ws [] S []) as [Hd Ho]; try (by constructor); rewrite ?app_nil_l, ?app_nil_r in *.
  - apply sorted_sort.
  - by rewrite Hp, shared_ids.
  - rewrite Hp. apply Forall_forall. intros s Hs. split; [exact (proj2 (shared_val ws s Hs)) | by apply shared_range].
  - rewrite Hp. apply Forall_forall. intros s Hs. exact (proj1 (shared_val ws s Hs)).
  - split; [done |]. by rewrite Ho, Hp, shared_ratios.
Qed.

(** The entries after step 1. *)
Lemma swapped_vals one max s : oratio one = 1 -> oratio max = M -> s ∈ shared ws ->
  let s' := swap_entry one max s in
  cratio s' = oratio s' /\ 1 <= oratio s' <= M /\ oratio s' = swap_ratio M (slowness ws (sdidx s')) /\
  1 <= slowness ws (sdidx s') <= M.
Proof using Hws.
  intros H1 HM Hs s'. destruct (shared_val ws s Hs) as [Hv Hc]. pose proof (shared_range ws s Hws Hs) as Hr.
  subst s'. rewrite swap_entry_id, swap_entry_full, swap_entry_ratio, HM, <- Hv by done.
  split_and!; try done; try lia; apply swap_ratio_range; done.
Qed.

Lemma swapped_elem one max r : oratio one = 1 -> oratio max = M -> r ∈ share ws <$> ws ->
  exists s, s ∈ swap_entry one max <$> shared ws /\ oratio s = swap_ratio M r.
Proof using.
  intros H1 HM Hin. rewrite <- shared_ratios in Hin. apply list_elem_of_fmap in Hin as (s & -> & Hs).
  exists (swap_entry one max s). split; [by apply list_elem_of_fmap_2 |]. by rewrite swap_entry_ratio, HM.
Qed.

Lemma swap_ratio_ends : 1 < M -> forall r, 1 <= r <= M ->
  (swap_ratio M r = M -> r = 1) /\ (1 < swap_ratio M r < M -> swap_ratio M r = r) /\ (swap_ratio M r = 1 -> r = M).
Proof using. intros HM r Hr. unfold swap_ratio. destruct (Z.eqb_spec r 1), (Z.eqb_spec r M); lia. Qed.

Lemma swapped_ids one max : sdidx <$> (swap_entry one max <$> shared ws) = seq 0 (length ws).
Proof using.
  rewrite <- shared_ids. apply list_eq. intros i. rewrite !list_lookup_fmap.
  destruct (shared ws !! i) as [s|]; [| done]. simpl. by rewrite swap_entry_id.
Qed.

Lemma swapped_ratios one max : oratio one = 1 -> oratio max = M ->
  oratio <$> (swap_entry one max <$> shared ws) = swap_ratio M <$> (share ws <$> ws).
Proof using.
  intros H1 HM. rewrite <- shared_ratios. apply list_eq. intros i. rewrite !list_lookup_fmap.
  destruct (shared ws !! i) as [s|]; [| done]. simpl. by rewrite swap_entry_ratio, HM.
Qed.

Lemma dynamic_one one max : oratio one = 1 -> oratio max = M -> 1 < M ->
  M ∈ share ws <$> ws -> 1 ∈ share ws <$> ws ->
  let S := sort tfw_sched_ratio_srvdata_cmp (swap_entry one max <$> shared ws) in
  exists sd, (let '(lft, rgt) := middle_loop M S 0 0 0 in reverse_loop (length ws) S lft rgt) = Ok sd /\
    dynamic_ok ws sd /\ zsum (oratio <$> sd) = zsum (swap_ratio M <$> (share ws <$> ws)).
Proof using Hsort Hws.
  intros H1 HM Hgt HinM Hin1 S.
  pose proof (sort_perm tfw_sched_ratio_srvdata_cmp (swap_entry one max <$> shared ws) : S ≡ₚ _) as Hp.
  assert (HS : Forall (fun s => (cratio s = oratio s /\ 1 <= oratio s <= M) /\
    oratio s = swap_ratio M (slowness ws (sdidx s)) /\ 1 <= slowness ws (sdidx s) <= M) S).
  { apply Forall_forall. intros s Hs. rewrite Hp in Hs. apply list_elem_of_fmap in Hs as (s0 & -> & Hs0).
    destruct (swapped_vals one max s0) as (? & ? & ? & ?); done. }
  destruct (middle_loop_spec M S Hgt) as (A & B & C & ES & HA & HB & HC & HCn & Hrun).
  - apply sorted_sort.
  - eapply Forall_impl; [exact HS |]. simpl. tauto.
  - destruct (swapped_elem one max M H1 HM HinM) as (s & Hs & Es). apply Exists_exists.
    exists s. rewrite Hp. split; [done |]. rewrite Es. unfold swap_ratio.
    rewrite (proj2 (Z.eqb_neq M 1)), Z.eqb_refl by lia. done.
  - rewrite Hrun. replace (if decide (A = []) then 0%nat else (0 + length A)%nat) with (length A)
      by (by destruct A).
    assert (HAn : (0 < length A)%nat).
    { destruct A as [|a A]; [| simpl; lia]. exfalso.
      destruct (swapped_elem one max 1 H1 HM Hin1) as (s & Hs & Es). rewrite <- Hp, ES in Hs. simpl in Hs.
      change (swap_ratio M 1) with M in Es. rewrite Forall_forall in HB, HC. apply elem_of_app in Hs as [Hs|Hs];
        [specialize (HB s Hs) | specialize (HC s Hs)]; simpl in *; lia. }
    assert (Hlen : length S = length ws) by (by rewrite Hp, length_fmap, shared_length).
    rewrite ES, !length_app in Hlen. rewrite ES, !Nat.add_0_l.
    rewrite (reverse_loop_spec (length B) A B C) by lia. eexists. split; [done |].
    pose proof HS as HS'. rewrite ES, !Forall_app in HS'. destruct HS' as (HSA & HSB & HSC).
    pose proof (proj2 (Forall_and _ _) (conj HA HSA)) as HA2. pose proof (proj2 (Forall_and _ _) (conj HB HSB)) as HB2.
    pose proof (proj2 (Forall_and _ _) (conj HC HSC)) as HC2.
    destruct (reversed_ok ws A B C) as [Hd Ho].
    + rewrite <- ES. apply sorted_sort.
    + rewrite <- ES, Hp, swapped_ids. done.
    + rewrite <- ES. eapply Forall_impl; [exact HS |]. simpl. tauto.
    + eapply Forall_impl; [exact HA2 |]. simpl. intros s (Hs & _ & Ev & Hr). split; [done |].
      apply (swap_ratio_ends Hgt _ Hr). lia.
    + eapply Forall_impl; [exact HB2 |]. simpl. intros s (Hs & _ & Ev & Hr). rewrite Ev.
      apply (swap_ratio_ends Hgt _ Hr). lia.
    + eapply Forall_impl; [exact HC2 |]. simpl. intros s (Hs & _ & Ev & Hr). split; [done |].
      apply (swap_ratio_ends Hgt _ Hr). lia.
    + split; [done |]. by rewrite Ho, <- ES, Hp, swapped_ratios.
Qed.
End Dynamic.

Lemma calc_dynamic_ok sort ws m : SortSpec sort -> weights_ok ws -> ws !! m = Some (max_of ws) ->
  exists sd, let r := zsum (oratio <$> sd) in
    __tfw_sched_ratio_calc_dynamic sort (length ws) (entries ws) (zsum ws) m = Ok (MkRd sd (MkSch 0 (length ws) 1 r r)) /\
    dynamic_ok ws sd.
Proof.
  intros Hsort Hws Hm. unfold __tfw_sched_ratio_calc_dynamic. rewrite (calc_spec ws Hws m Hm). fold (shared ws).
  set (rs := share ws <$> ws). set (M := share ws (max_of ws)).
  assert (HM : M ∈ rs) by (apply list_elem_of_fmap_2; by eapply list_elem_of_lookup_2).
  destruct (existsb _ _) eqn:Ediff; cbn [negb srvdata schdata orsum].
  2: { exists (shared ws). rewrite shared_ratios. split; [done |]. constructor; [by rewrite shared_ids | |].
    - apply Forall_forall. intros s Hs. split; [exact (proj2 (shared_val ws s Hs)) | by apply shared_range].
    - intros s t Hs Ht _. rewrite (no_diff _ Ediff (oratio t) (oratio s)); [done | |];
        subst rs; rewrite <- shared_ratios; by apply list_elem_of_fmap_2. }
  assert (Hrange : Forall (fun r => 1 <= r <= M) rs).
  { subst rs. rewrite <- shared_ratios. apply Forall_fmap, Forall_forall. intros s Hs. by apply shared_range. }
  assert (Hgt : 1 < M).
  { rewrite Forall_forall in Hrange. destruct (has_diff _ Ediff) as (x & y & Hx & Hy & Hxy).
    pose proof (Hrange x Hx). pose proof (Hrange y Hy). lia. }
  assert (Hlook : forall i x, rs !! i = Some x -> exists s, shared ws !! i = Some s /\ oratio s = x).
  { intros i x. subst rs. rewrite <- shared_ratios, list_lookup_fmap, fmap_Some. intros (s & ? & ->). by exists s. }
  destruct (Hlook m M) as (smax & -> & Emax); [by subst rs; rewrite list_lookup_fmap, Hm |].
  destruct (decide (1 ∈ rs)) as [H1|H1].
  - destruct (Hlook _ _ (one_idx_spec rs H1)) as (one & -> & Eone). rewrite Eone, Z.eqb_refl, Emax.
    destruct (dynamic_one sort ws Hws one smax) as (sd & Hrun & Hd & Hsum); try done.
    fold M in Hrun. revert Hrun. destruct (middle_loop M _ 0 0 0) as [lft rgt]. intros ->. exists sd. split; [| done].
    pose proof (share_max ws Hws) as HMb. destruct (max_of_pos ws Hws) as (? & ? & ? & ?).
    pose proof (wo_fit ws Hws). fold M in HMb.
    pose proof (swap_sum_spec M (shared ws) 0) as Hs. rewrite !Z.add_0_l, shared_ratios in Hs.
    unfold zlen in *. rewrite shared_length in Hs. fold rs in Hs. rewrite Hs by (done || nia). by rewrite Hsum.
  - assert (Hone : exists one, shared ws !! one_idx rs 0 0 = Some one /\ oratio one <> 1).
    { destruct (one_idx_found rs 0 0) as [->|[_ Hl]].
      - destruct rs as [|r rs'] eqn:Ers; [by apply not_elem_of_nil in HM |].
        destruct (Hlook 0%nat r) as (s & Hs & Es); [done |]. exists s. split; [done |]. rewrite Es.
        intros ->. apply H1. constructor.
      - exfalso. apply H1. rewrite Nat.sub_0_r in Hl. by eapply list_elem_of_lookup_2. }
    destruct Hone as (one & -> & Hne). rewrite (proj2 (Z.eqb_neq _ _) Hne).
    destruct (dynamic_no_one sort ws Hws) as [Hd Hsum]. set (S := sort _ (shared ws)) in *.
    assert (Hlen : length S = length ws) by (by subst S; rewrite sort_perm, shared_length).
    assert (length ws <> 0)%nat by (by destruct ws; [by apply not_elem_of_nil in HM |]).
    pose proof (reverse_loop_spec (length S) [] S [] (length ws)) as Hr.
    rewrite app_nil_r, app_nil_l in Hr. simpl length in Hr. rewrite Nat.add_0_l, Hlen in Hr.
    rewrite Hr by lia. rewrite app_nil_r, app_nil_l. exists (relabel S). rewrite Hsum. by split.
Qed.

(** The ratio of the server descriptor [i]. *)
Definition ratio_at (sd : list TfwRatioSrvData) (i : nat) : Z :=
  match filter (fun s => sdidx s = i) sd with s :: _ => oratio s | [] => 0 end.

Lemma ratio_at_elem sd s : NoDup (sdidx <$> sd) -> s ∈ sd -> ratio_at sd (sdidx s) = oratio s.
Proof.
  intros Hnd Hs. unfold ratio_at. destruct (filter _ sd) as [|t l] eqn:E.
  - exfalso. assert (Hin : s ∈ filter (fun s0 => sdidx s0 = sdidx s) sd) by (by apply list_elem_of_filter).
    rewrite E in Hin. by apply not_elem_of_nil in Hin.
  - assert (Hin : t ∈ filter (fun s0 => sdidx s0 = sdidx s) sd) by (rewrite E; constructor).
    apply list_elem_of_filter in Hin as [Ht Hin]. f_equal.
    apply list_elem_of_lookup in Hin as [i Hi]. apply list_elem_of_lookup in Hs as [j Hj].
    assert (i = j) as -> by (eapply (NoDup_lookup (sdidx <$> sd)); [done | by rewrite list_lookup_fmap, Hi |];
      rewrite list_lookup_fmap, Hj; simpl; by rewrite Ht). congruence.
Qed.

Lemma fits_le n s s' : fits n s' -> 0 <= s <= s' -> fits n s.
Proof. intros [H1 H2] Hs. split; [lia |]. nia. Qed.

(** C21: with response times from APM as weights the ratios are computed without
    overflow or division by zero, whatever array [sort()] leaves among equal ratios, and every call
    returns a server.  There are ratios of the servers such that each server gets exactly its ratio
    of each complete round and at most that many of the round not yet complete, and a server whose
    response time counts for less never has a smaller ratio than one whose time counts for more. *)
Theorem ratio_dynamic_fair sort rtts k :
  SortSpec sort -> let ws := rtt_weight <$> rtts in
  weights_ok ws -> fits (length ws) (zlen ws * (max_of ws + zlen ws)) ->
  exists d l d', let ratio := ratio_at (srvdata d) in
    tfw_sched_ratio_calc_dynamic sort (length ws) rtts = Ok d /\
    next_srvs k (length ws) d = Ok (l, d') /\ length l = k /\
    (forall i, (i < length ws)%nat -> 1 <= ratio i /\
      exists e, 0 <= e <= ratio i /\ chosen i l = (Z.of_nat k / orsum (schdata d)) * ratio i + e) /\
    (forall i j, (i < length ws)%nat -> (j < length ws)%nat ->
      slowness ws i < slowness ws j -> ratio j <= ratio i).
Proof.
  intros Hsort ws Hws Hfit. unfold tfw_sched_ratio_calc_dynamic. fold ws.
  destruct (max_of_pos ws Hws) as (? & ? & ? & ?).
  destruct (max_and_sum_spec ws) as (m & -> & Hm); [by destruct Hws | | lia |].
  { eapply Forall_impl; [exact (wo_pos _ Hws) |]. simpl. lia. }
  destruct (calc_dynamic_ok sort ws m Hsort Hws Hm) as (sd & -> & [Hids Hfull Hanti]).
  set (r := zsum (oratio <$> sd)).
  assert (Hlen : length sd = length ws) by (by rewrite <- (length_fmap sdidx), Hids, length_seq).
  assert (Hr : 0 <= r <= zlen ws * (max_of ws + zlen ws)).
  { pose proof (zsum_range (share ws (max_of ws)) (oratio <$> sd)) as Hz. unfold zlen in *.
    rewrite length_fmap, Hlen in Hz. pose proof (share_max ws Hws). unfold zlen in *.
    destruct Hz; [| subst r; nia]. apply Forall_fmap. eapply Forall_impl; [exact Hfull |]. simpl. tauto. }
  destruct (fresh_fair (length ws) sd k r) as (l & d' & Hrun & Hl & Hf); try done.
  - intros ->. unfold zlen in *. simpl in Hlen. lia.
  - rewrite Hids. apply NoDup_seq.
  - eapply Forall_impl; [exact Hfull |]. simpl. lia.
  - by eapply fits_le.
  - assert (Hat : forall i, (i < length ws)%nat -> exists s, s ∈ sd /\ sdidx s = i).
    { intros i Hi. assert (Hin : i ∈ sdidx <$> sd) by (rewrite Hids; apply elem_of_seq; lia).
      apply list_elem_of_fmap in Hin as (s & -> & Hs). by exists s. }
    assert (Hnd : NoDup (sdidx <$> sd)) by (rewrite Hids; apply NoDup_seq).
    eexists _, l, d'. cbn [srvdata schdata orsum]. split_and!; [done | done | done | |].
    + intros i (s & Hs & <-)%Hat. rewrite ratio_at_elem by done. split; [| by apply Hf].
      rewrite Forall_forall in Hfull. by apply Hfull.
    + intros i j (s & Hs & <-)%Hat (t & Ht & <-)%Hat Hlt. rewrite !ratio_at_elem by done. by apply Hanti.
Qed.

(** ** A sort *)

(** Some function that does what [sort()] promises. *)
Definition merge_sorted (cmp : TfwRatioSrvData -> TfwRatioSrvData -> Z) (l : list TfwRatioSrvData) :=
  @merge_sort _ (cmp_le cmp) (fun a b => Z_le_dec (cmp a b) 0) l.

Lemma merge_sorted_sorts : SortSpec merge_sorted.
Proof.
  constructor.
  - intros cmp l. apply merge_sort_Permutation.
  - intros cmp l ? ?. by apply StronglySorted_merge_sort.
Qed.

Lemma ratio_static_fair_witness :
  exists d l d', tfw_sched_ratio_calc_static merge_sorted 3 [10; 1; 3] = Ok d /\ next_srvs 32 3 d = Ok (l, d') /\
    length l = 32%nat /\ exists e, 0 <= e <= 9 /\ chosen 0 l = 2 * 9 + e.
Proof.
  destruct (ratio_static_fair merge_sorted [10; 1; 3] 32 merge_sorted_sorts) as (d & l & d' & H1 & H2 & H3 & H4).
  - repeat constructor; lia.
  - vm_compute. split; [done | discriminate].
  - exists d, l, d'. split_and!; [exact H1 | exact H2 | exact H3 |]. exact (H4 0%nat 10 eq_refl).
Defined.

Lemma ratio_dynamic_fair_witness :
  exists d l d', tfw_sched_ratio_calc_dynamic merge_sorted 4 [5; 0; 30; 12] = Ok d /\ next_srvs 100 4 d = Ok (l, d') /\
    ratio_at (srvdata d) 2 <= ratio_at (srvdata d) 1.
Proof.
  destruct (ratio_dynamic_fair merge_sorted [5; 0; 30; 12] 100 merge_sorted_sorts) as (d & l & d' & H1 & H2 & H3 & H4 & H5).
  - constructor; [done | vm_compute; repeat constructor; discriminate | done].
  - done.
  - exists d, l, d'. split_and!; [exact H1 | exact H2 |].
    apply (H5 1%nat 2%nat); [simpl; lia | simpl; lia | reflexivity].
Defined.

(** Equal weights do not give plain round-robin: the last of three servers has its turn seven times
    in a row at the end of a round. *)
Lemma equal_weights_not_round_robin :
  (let! d := tfw_sched_ratio_calc_static merge_sorted 3 [50; 50; 50] in
   let! r := next_srvs 51 3 d in Ok (oratios d, drop 44 r.1)) = Ok ([17; 17; 17], [2; 2; 2; 2; 2; 2; 2]%nat).
Proof. vm_compute. reflexivity. Qed.
