(* ===== verification/RatioSched.v ===== *)
(** * The ratio scheduler: connections

    [fw/http_sched_ratio.c], the choice of a connection: [tfw_sched_ratio_sched_sg_conn()] takes
    servers from [tfw_sched_ratio_next_srv()] until one has a connection that can take the
    request, [tfw_sched_ratio_sched_srv_conn()] does it for a given server.  The connections of
    a server are tried in turn, from the one after the last that was tried.  Connections with
    non-idempotent requests are taken in a second pass only.

    The theorems: a server that has a connection for the request always gives one, and one
    without non-idempotent requests when there is such ([ratio_srv_conn_complete]); a group gives
    only live connections of servers in service, terminates, and leaves the data of the
    scheduler well-formed ([ratio_sg_conn_sound]). *)

From S2P Require Import Prelude SchedRatio RatioCalc.

#[local] Open Scope Z_scope.

(** ** Data *)

(** [conn_qmax] is [max_qsize] of the group of the connection's server. *)
Record RatioConn := MkRConn {
  conn_resend : bool;
  conn_hasnip : bool;
  conn_busy : Z;
  conn_qsize : Z;
  conn_qmax : Z;
  conn_refcnt : Z
}.

Definition set_conn_refcnt (v : Z) (c : RatioConn) : RatioConn :=
  MkRConn (conn_resend c) (conn_hasnip c) (conn_busy c) (conn_qsize c) (conn_qmax c) v.

(** [desc_conn] has [conn_n] elements: indices in the table of the connections. *)
Record TfwRatioSrvDesc := MkDesc { desc_srv : nat; desc_conn : list nat; desc_counter : Z }.

Definition set_desc_counter (v : Z) (s : TfwRatioSrvDesc) : TfwRatioSrvDesc := MkDesc (desc_srv s) (desc_conn s) v.

(** The connections and the servers that are suspended; the descriptors and the data of the group. *)
Record RatioWorld := MkRw {
  rw_conns : list RatioConn;
  rw_suspended : nat -> bool;
  rw_desc : list TfwRatioSrvDesc;
  rw_data : TfwRatioData
}.

Section Jiffies.
Variable jiffies : Z.

(** ** A connection *)

Definition tfw_srv_conn_restricted (c : RatioConn) : bool := conn_resend c.
Definition tfw_srv_conn_hasnip (c : RatioConn) : bool := conn_hasnip c.
Definition tfw_srv_conn_busy (c : RatioConn) : bool := s64 (jiffies - conn_busy c) <? 0.
Definition tfw_srv_conn_queue_full (c : RatioConn) : bool := conn_qmax c <=? conn_qsize c.
Definition tfw_srv_conn_live (c : RatioConn) : bool := 0 <? conn_refcnt c.

(** With no other thread between the read and the exchange one turn of the loop is enough. *)
Definition tfw_srv_conn_get_if_live (c : RatioConn) : bool * RatioConn :=
  if 0 <? conn_refcnt c then (true, set_conn_refcnt (s32 (conn_refcnt c + 1)) c) else (false, c).

(** [for (ci = 0; ci < srvdesc->conn_n; ++ci)]: [k] turns are left.  The index of the
    connection, the connections, the descriptor, [*nipconn]. *)
Fixpoint sched_srv_loop (k : nat) (skipnip : bool) (cs : list RatioConn) (s : TfwRatioSrvDesc) (nipconn : Z)
    : outcome (option nat * list RatioConn * TfwRatioSrvDesc * Z) :=
  match k with
  | O => Ok (None, cs, s, nipconn)
  | S k =>
      let idxval := u64 (desc_counter s + 1) in
      let s := set_desc_counter idxval s in
      let? ci := desc_conn s !! Z.to_nat (idxval mod zlen (desc_conn s)) in
      let? c := cs !! ci in
      if tfw_srv_conn_restricted c || tfw_srv_conn_busy c || tfw_srv_conn_queue_full c then
        sched_srv_loop k skipnip cs s nipconn
      else if skipnip && tfw_srv_conn_hasnip c then
        sched_srv_loop k skipnip cs s (if tfw_srv_conn_live c then s32 (nipconn + 1) else nipconn)
      else
        let '(live, c') := tfw_srv_conn_get_if_live c in
        if live : bool then Ok (Some ci, <[ci := c']> cs, s, nipconn)
        else sched_srv_loop k skipnip cs s nipconn
  end.

Definition __sched_srv (s : TfwRatioSrvDesc) (skipnip : bool) (nipconn : Z) (cs : list RatioConn)
    : outcome (option nat * list RatioConn * TfwRatioSrvDesc * Z) :=
  sched_srv_loop (length (desc_conn s)) skipnip cs s nipconn.

(** ** A given server *)

(** [sd] is [srv->sched_data]; [hmonitor] is a flag of the request. *)
Definition tfw_sched_ratio_sched_srv_conn (hmonitor suspended : bool) (sd : option TfwRatioSrvDesc) (cs : list RatioConn)
    : outcome (option nat * list RatioConn * option TfwRatioSrvDesc) :=
  if negb hmonitor && suspended then Ok (None, cs, sd)
  else match sd with
  | None => Ok (None, cs, sd)
  | Some s =>
      let! r := __sched_srv s true 0 cs in
      let '(found, cs, s, nipconn) := r in
      match found with
      | Some ci => Ok (Some ci, cs, Some s)
      | None =>
          if negb (nipconn =? 0) then
            let! r := __sched_srv s false nipconn cs in
            let '(found, cs, s, _) := r in Ok (found, cs, Some s)
          else Ok (None, cs, Some s)
      end
  end.

(** ** A group *)

(** [while (attempts--)] *)
Fixpoint sg_conn_loop (attempts : nat) (skipnip : bool) (w : RatioWorld) (nipconn : Z)
    : outcome (option nat * RatioWorld * Z) :=
  match attempts with
  | O => Ok (None, w, nipconn)
  | S attempts =>
      let! r := tfw_sched_ratio_next_srv (length (rw_desc w)) (rw_data w) in
      let '(j, d) := r in
      let w := MkRw (rw_conns w) (rw_suspended w) (rw_desc w) d in
      let? s := rw_desc w !! j in
      if rw_suspended w (desc_srv s) then sg_conn_loop attempts skipnip w nipconn
      else
        let! r := __sched_srv s skipnip nipconn (rw_conns w) in
        let '(found, cs, s, nipconn) := r in
        let w := MkRw cs (rw_suspended w) (<[j := s]> (rw_desc w)) d in
        match found with
        | Some ci => Ok (Some ci, w, nipconn)
        | None => sg_conn_loop attempts skipnip w nipconn
        end
  end.

Definition tfw_sched_ratio_sched_sg_conn (w : RatioWorld) : outcome (option nat * RatioWorld) :=
  let! r := sg_conn_loop (length (rw_desc w)) true w 0 in
  let '(found, w, nipconn) := r in
  match found with
  | Some ci => Ok (Some ci, w)
  | None =>
      if negb (nipconn =? 0) then
        let! r := sg_conn_loop (length (rw_desc w)) false w nipconn in
        let '(found, w, _) := r in Ok (found, w)
      else Ok (None, w)
  end.

(** ** Which connection *)

Definition usable (c : RatioConn) : bool :=
  negb (tfw_srv_conn_restricted c || tfw_srv_conn_busy c || tfw_srv_conn_queue_full c).
Definition takes (skipnip : bool) (c : RatioConn) : bool :=
  usable c && negb (skipnip && tfw_srv_conn_hasnip c) && tfw_srv_conn_live c.

Definition desc_ok (cs : list RatioConn) (s : TfwRatioSrvDesc) : Prop := Forall (fun ci => (ci < length cs)%nat) (desc_conn s).

(** A reference is taken to the connection found, and nothing else changes. *)
Definition found_in (cs : list RatioConn) (s : TfwRatioSrvDesc) (skipnip : bool) (found : option nat) (cs' : list RatioConn) : Prop :=
  match found with
  | None => cs' = cs
  | Some ci => ci ∈ desc_conn s /\ exists c, cs !! ci = Some c /\ takes skipnip c = true /\
      cs' = <[ci := set_conn_refcnt (s32 (conn_refcnt c + 1)) c]> cs
  end.

(** The connection tried at a value of the counter. *)
Lemma desc_at cs s i : desc_ok cs s -> desc_conn s <> [] ->
  exists ci c, desc_conn s !! Z.to_nat (i mod zlen (desc_conn s)) = Some ci /\ cs !! ci = Some c.
Proof.
  intros Hok Hne. assert (0 < zlen (desc_conn s)) by (unfold zlen; destruct (desc_conn s); [done | simpl; lia]).
  pose proof (Z.mod_pos_bound i (zlen (desc_conn s)) ltac:(lia)).
  destruct (lookup_lt_is_Some_2 (desc_conn s) (Z.to_nat (i mod zlen (desc_conn s)))) as [ci Hci];
    [unfold zlen in *; lia |].
  unfold desc_ok in Hok. rewrite Forall_lookup in Hok. destruct (lookup_lt_is_Some_2 cs ci (Hok _ _ Hci)) as [c Hc].
  by exists ci, c.
Qed.

Lemma sched_srv_sound k : forall skipnip cs s nip,
  desc_ok cs s -> (k <= length (desc_conn s))%nat ->
  exists found cs' v nip', sched_srv_loop k skipnip cs s nip = Ok (found, cs', set_desc_counter v s, nip') /\
    found_in cs s skipnip found cs'.
Proof using.
  induction k as [|k IH]; intros skipnip cs s nip Hok Hk; cbn [sched_srv_loop].
  - exists None, cs, (desc_counter s), nip. by destruct s.
  - set (v := u64 (desc_counter s + 1)).
    destruct (desc_at cs s v Hok) as (ci & c & Hci & Hc); [intros E; rewrite E in Hk; simpl in Hk; lia |].
    cbn [set_desc_counter desc_conn]. rewrite Hci, Hc.
    assert (Hrec : forall nip0, exists found cs' v' nip',
      sched_srv_loop k skipnip cs (set_desc_counter v s) nip0 = Ok (found, cs', set_desc_counter v' s, nip') /\
      found_in cs s skipnip found cs').
    { intros nip0. apply (IH skipnip cs (set_desc_counter v s) nip0); [done | simpl; lia]. }
    destruct (_ || _ || _) eqn:Eu; [apply Hrec |].
    destruct (skipnip && tfw_srv_conn_hasnip c) eqn:En; [apply Hrec |].
    unfold tfw_srv_conn_get_if_live. destruct (0 <? conn_refcnt c) eqn:El; [| apply Hrec].
    exists (Some ci), (<[ci := set_conn_refcnt (s32 (conn_refcnt c + 1)) c]> cs), v, nip. split; [done |].
    split; [by eapply list_elem_of_lookup_2 |]. exists c. split_and!; [done | | done].
    unfold takes, usable, tfw_srv_conn_live. by rewrite Eu, En, El.
Qed.

(** When nothing is found, every connection tried can not take the request; [nip] counts those
    that could but for their non-idempotent requests. *)
Lemma sched_srv_none k : forall skipnip cs s nip cs' s' nip',
  0 <= desc_counter s -> desc_counter s + Z.of_nat k < 2 ^ 64 -> 0 <= nip -> nip + Z.of_nat k < 2 ^ 31 ->
  sched_srv_loop k skipnip cs s nip = Ok (None, cs', s', nip') ->
  s' = set_desc_counter (desc_counter s + Z.of_nat k) s /\ nip <= nip' <= nip + Z.of_nat k /\
  forall t ci c, 0 <= t < Z.of_nat k ->
    desc_conn s !! Z.to_nat ((desc_counter s + 1 + t) mod zlen (desc_conn s)) = Some ci -> cs !! ci = Some c ->
    takes skipnip c = false /\ (takes false c = true -> nip < nip').
Proof using.
  induction k as [|k IH]; intros skipnip cs s nip cs' s' nip' H0 H1 H2 H3 Hrun; cbn [sched_srv_loop] in Hrun.
  - injection Hrun as <- <- <-. rewrite Z.add_0_r. split; [by destruct s |]. split; [lia | intros; lia].
  - rewrite (u64_small (desc_counter s + 1)) in Hrun by lia. cbn [set_desc_counter desc_conn] in Hrun.
    destruct (desc_conn s !! _) as [ci|] eqn:Hci; [| done]. destruct (cs !! ci) as [c|] eqn:Hc; [| done].
    assert (Hstep : forall nip0, nip <= nip0 <= nip + 1 ->
      sched_srv_loop k skipnip cs (MkDesc (desc_srv s) (desc_conn s) (desc_counter s + 1)) nip0 = Ok (None, cs', s', nip') ->
      takes skipnip c = false -> (takes false c = true -> nip < nip0) ->
      s' = set_desc_counter (desc_counter s + Z.of_nat (S k)) s /\ nip <= nip' <= nip + Z.of_nat (S k) /\
      forall t ci c, 0 <= t < Z.of_nat (S k) ->
        desc_conn s !! Z.to_nat ((desc_counter s + 1 + t) mod zlen (desc_conn s)) = Some ci -> cs !! ci = Some c ->
        takes skipnip c = false /\ (takes false c = true -> nip < nip')).
    { intros nip0 Hnip Hr Ht1 Ht2. apply IH in Hr as (-> & Hn & Hall); try (simpl; lia). cbn [desc_conn desc_counter] in *. split_and!.
      - unfold set_desc_counter. cbn [desc_srv desc_conn]. f_equal. lia.
      - lia.
      - lia.
      - intros t ci' c' Ht Hci' Hc'. destruct (Z.eq_dec t 0) as [->|Hne].
        + rewrite Z.add_0_r in Hci'. simplify_eq. split; [done |]. intros Ht'. specialize (Ht2 Ht'). lia.
        + destruct (Hall (t - 1) ci' c') as [Hx Hy]; [lia | | done |].
          { by replace (desc_counter s + 1 + 1 + (t - 1)) with (desc_counter s + 1 + t) by lia. }
          split; [done |]. intros Ht'. specialize (Hy Ht'). lia. }
    unfold takes, usable, tfw_srv_conn_live in *.
    destruct (_ || _ || _) eqn:Eu; [by apply (Hstep nip); [lia | | |] |].
    destruct (skipnip && tfw_srv_conn_hasnip c) eqn:En.
    + destruct (0 <? conn_refcnt c) eqn:El.
      * apply (Hstep (s32 (nip + 1))); [rewrite s32_small; lia | done | done |].
        intros _. rewrite s32_small; lia.
      * by apply (Hstep nip); [lia | done | done | rewrite andb_false_r].
    + unfold tfw_srv_conn_get_if_live in Hrun. destruct (0 <? conn_refcnt c) eqn:El; [done |].
      by apply (Hstep nip); [lia | done | done | rewrite andb_false_r].
Qed.

(** A whole scan tries all connections. *)
Lemma scan_all s p : (p < length (desc_conn s))%nat -> let n := zlen (desc_conn s) in
  exists t, 0 <= t < n /\ Z.to_nat ((desc_counter s + 1 + t) mod n) = p.
Proof using.
  intros Hp n. subst n. unfold zlen. set (n := Z.of_nat (length (desc_conn s))).
  exists ((Z.of_nat p - desc_counter s - 1) mod n). split; [apply Z.mod_pos_bound; lia |].
  rewrite Z.add_mod_idemp_r by lia.
  replace (desc_counter s + 1 + (Z.of_nat p - desc_counter s - 1)) with (Z.of_nat p) by lia.
  rewrite Z.mod_small by lia. lia.
Qed.


(** No connection of the server can take the request. *)
Definition none_takes (skipnip : bool) (cs : list RatioConn) (s : TfwRatioSrvDesc) : Prop :=
  forall ci c, ci ∈ desc_conn s -> cs !! ci = Some c -> takes skipnip c = false.

Lemma scan_none skipnip cs s nip cs' s' nip' :
  0 <= desc_counter s -> desc_counter s + zlen (desc_conn s) < 2 ^ 64 ->
  0 <= nip -> nip + zlen (desc_conn s) < 2 ^ 31 ->
  __sched_srv s skipnip nip cs = Ok (None, cs', s', nip') ->
  s' = set_desc_counter (desc_counter s + zlen (desc_conn s)) s /\ nip <= nip' <= nip + zlen (desc_conn s) /\
  none_takes skipnip cs s /\ (nip' = nip -> none_takes false cs s).
Proof using.
  intros H0 H1 H2 H3 Hrun. apply sched_srv_none in Hrun as (-> & Hn & Hall); try done.
  change (Z.of_nat (length (desc_conn s))) with (zlen (desc_conn s)) in *.
  assert (Hc : forall ci c, ci ∈ desc_conn s -> cs !! ci = Some c ->
    takes skipnip c = false /\ (takes false c = true -> nip < nip')).
  { intros ci c Hci Hc. apply list_elem_of_lookup in Hci as [p Hp].
    destruct (scan_all s p (lookup_lt_Some _ _ _ Hp)) as (t & Ht & Et).
    apply (Hall t ci c); [exact Ht | by rewrite Et | done]. }
  split_and!; [done | lia | lia | |].
  - intros ci c Hci Hcs. by apply (Hc ci c).
  - intros E ci c Hci Hcs. destruct (takes false c) eqn:Et; [| done]. destruct (Hc ci c Hci Hcs) as [_ Hx].
    specialize (Hx Et). lia.
Qed.

Lemma takes_weaken c : takes true c = true -> takes false c = true /\ tfw_srv_conn_hasnip c = false.
Proof using.
  unfold takes. cbn [andb negb]. destruct (tfw_srv_conn_hasnip c); cbn [negb]; rewrite ?andb_false_r, ?andb_true_r; done.
Qed.

(** A connection of the list that can take the request, with a reference taken. *)
Definition chosen_conn (cs : list RatioConn) (conn : list nat) (ci : nat) (cs' : list RatioConn) : Prop :=
  ci ∈ conn /\ exists c, cs !! ci = Some c /\ takes false c = true /\
    cs' = <[ci := set_conn_refcnt (s32 (conn_refcnt c + 1)) c]> cs.

Lemma found_chosen cs s skipnip ci cs' : found_in cs s skipnip (Some ci) cs' -> chosen_conn cs (desc_conn s) ci cs'.
Proof using.
  intros [Hci (c & Hc & Ht & ->)]. split; [done |]. exists c. split_and!; [done | | done].
  destruct skipnip; [| done]. by apply takes_weaken.
Qed.

End Jiffies.

(** C35: for a given server in service the scheduler returns a connection
    that is live, not in recovery, not busy and has room in its queue, with a reference taken,
    if the server has any such connection, and only then; a connection with non-idempotent
    requests is returned only when no other can be. *)
Theorem ratio_srv_conn_complete jiffies hmonitor suspended cs s :
  desc_ok cs s -> 0 <= desc_counter s -> desc_counter s + 2 * zlen (desc_conn s) < 2 ^ 64 ->
  2 * zlen (desc_conn s) < 2 ^ 31 ->
  exists found cs' s', tfw_sched_ratio_sched_srv_conn jiffies hmonitor suspended (Some s) cs = Ok (found, cs', Some s') /\
    desc_conn s' = desc_conn s /\
    match found with
    | Some ci =>
        (hmonitor = true \/ suspended = false) /\ chosen_conn jiffies cs (desc_conn s) ci cs' /\
        ((tfw_srv_conn_hasnip <$> cs !! ci) = Some true -> none_takes jiffies true cs s)
    | None => cs' = cs /\ (hmonitor = false /\ suspended = true \/ none_takes jiffies false cs s)
    end.
Proof.
  intros Hok H0 H1 H2. unfold tfw_sched_ratio_sched_srv_conn.
  destruct (negb hmonitor && suspended) eqn:Es.
  { exists None, cs, s. split; [done |]. split; [done |]. split; [done |]. left.
    by apply andb_true_iff in Es as [->%negb_true_iff ->]. }
  assert (Hserv : hmonitor = true \/ suspended = false) by (destruct hmonitor, suspended; auto).
  unfold zlen in *.
  destruct (sched_srv_sound jiffies (length (desc_conn s)) true cs s 0 Hok (le_n _)) as (found & cs1 & v & nip & Hrun & Hf).
  unfold __sched_srv at 1. rewrite Hrun. destruct found as [ci|].
  - exists (Some ci), cs1, (set_desc_counter v s). split; [done |]. split; [done |]. split; [done |].
    split; [by eapply found_chosen |]. destruct Hf as [_ (c & Hc & Ht & _)]. apply takes_weaken in Ht as [_ Hn].
    rewrite Hc. simpl. rewrite Hn. done.
  - simpl in Hf. subst cs1.
    destruct (scan_none jiffies true cs s 0 cs (set_desc_counter v s) nip) as (Es1 & Hn & Hnone & Hall); try done; try (unfold zlen; lia).
    rewrite Es1. destruct (Z.eqb_spec nip 0) as [->|Hnz]; cbn [negb].
    + eexists None, cs, _. split; [done |]. split; [done |]. split; [done |]. right. by apply Hall.
    + set (s1 := set_desc_counter _ s). unfold zlen in *.
      destruct (sched_srv_sound jiffies (length (desc_conn s1)) false cs s1 nip Hok (le_n _)) as (found & cs2 & v2 & nip2 & Hrun2 & Hf2).
      unfold __sched_srv. rewrite Hrun2. exists found, cs2, (set_desc_counter v2 s1). split; [done |]. split; [done |].
      destruct found as [ci|].
      * split; [done |]. split; [by eapply (found_chosen _ _ s1) |]. intros _. exact Hnone.
      * simpl in Hf2. subst cs2. split; [done |]. right.
        destruct (scan_none jiffies false cs s1 nip cs (set_desc_counter v2 s1) nip2) as (_ & _ & Hnone2 & _);
          try done; unfold zlen; simpl; unfold zlen; lia.
Qed.

(** ** A group of servers *)

Record sg_ok (w : RatioWorld) : Prop := {
  sg_data : ratio_ok 0 (length (rw_desc w)) (rw_data w);
  sg_fits : fits (length (rw_desc w)) (orsum (schdata (rw_data w)));
  sg_ids : Forall (fun j => (j < length (rw_desc w))%nat) (sdidx <$> srvdata (rw_data w));
  sg_desc : Forall (desc_ok (rw_conns w)) (rw_desc w)
}.

(** The servers of the group with their connections. *)
Definition servers (w : RatioWorld) : list (nat * list nat) := (fun s => (desc_srv s, desc_conn s)) <$> rw_desc w.

(** What a search over servers promises: they were drawn from the bag of the group. *)
Record searched (jiffies : Z) (k : nat) (w : RatioWorld) (found : option nat) (w' : RatioWorld) : Prop := {
  se_ok : sg_ok w';
  se_servers : servers w' = servers w;
  se_suspended : rw_suspended w' = rw_suspended w;
  se_oratios : oratios (rw_data w') = oratios (rw_data w);
  se_deals : exists ps, (length ps <= k)%nat /\ deals (oratios (rw_data w)) (bag (rw_data w)) ps (bag (rw_data w'));
  se_found : match found with
    | None => rw_conns w' = rw_conns w
    | Some ci => exists srv conn, (srv, conn) ∈ servers w /\ rw_suspended w srv = false /\
        chosen_conn jiffies (rw_conns w) conn ci (rw_conns w')
    end
}.

Lemma searched_trans jiffies k1 k2 w w1 found w2 :
  searched jiffies k1 w None w1 -> searched jiffies k2 w1 found w2 -> searched jiffies (k1 + k2) w found w2.
Proof.
  intros [Hok1 Hs1 Hu1 Ho1 (ps1 & Hl1 & Hd1) Hf1] [Hok2 Hs2 Hu2 Ho2 (ps2 & Hl2 & Hd2) Hf2].
  constructor; [done | congruence | congruence | congruence | |].
  - exists (ps1 ++ ps2). split; [rewrite length_app; lia |]. rewrite Ho1 in Hd2.
    clear -Hd1 Hd2. induction Hd1; [done |]. simpl. econstructor; eauto.
  - rewrite Hf1, Hs1, Hu1 in Hf2. done.
Qed.

Lemma found_length jiffies cs s skipnip found cs' : found_in jiffies cs s skipnip found cs' -> length cs' = length cs.
Proof. destruct found as [ci|]; [| by intros ->]. intros (_ & c & _ & _ & ->). apply length_insert. Qed.

(** One turn of the loop. *)
Lemma next_srv_searched jiffies w : sg_ok w ->
  exists j s d, tfw_sched_ratio_next_srv (length (rw_desc w)) (rw_data w) = Ok (j, d) /\ rw_desc w !! j = Some s /\
    searched jiffies 1 w None (MkRw (rw_conns w) (rw_suspended w) (rw_desc w) d).
Proof.
  intros [Hd Hf Hi Hs]. destruct (next_srv_ok _ _ Hd Hf) as (j & d & Hrun & [Hok Ho Hids (p & t & Ht & Hj & Hdeal)]).
  assert (Hlt : (j < length (rw_desc w))%nat).
  { rewrite Forall_lookup in Hi. apply (Hi p). by rewrite list_lookup_fmap, Ht, <- Hj. }
  destruct (lookup_lt_is_Some_2 _ _ Hlt) as [s Hjs]. exists j, s, d. split_and!; [done | done |].
  constructor; try done.
  - constructor; simpl; [done | | by rewrite Hids | done].
    by rewrite (ro_orsum _ _ _ Hok), Ho, <- (ro_orsum _ _ _ Hd).
  - exists [p]. split; [done |]. econstructor; [exact Hdeal | constructor].
Qed.

Lemma scan_searched jiffies w j s skipnip nip : sg_ok w -> rw_desc w !! j = Some s -> rw_suspended w (desc_srv s) = false ->
  exists found cs s' nip', __sched_srv jiffies s skipnip nip (rw_conns w) = Ok (found, cs, s', nip') /\
    searched jiffies 0 w found (MkRw cs (rw_suspended w) (<[j := s']> (rw_desc w)) (rw_data w)).
Proof.
  intros [Hd Hf Hi Hs] Hj Hsus. assert (Hok : desc_ok (rw_conns w) s) by (rewrite Forall_lookup in Hs; by eapply Hs).
  destruct (sched_srv_sound jiffies (length (desc_conn s)) skipnip (rw_conns w) s nip Hok (le_n _))
    as (found & cs & v & nip' & Hrun & Hfound).
  exists found, cs, (set_desc_counter v s), nip'. split; [done |].
  assert (Hserv : (fun s => (desc_srv s, desc_conn s)) <$> <[j := set_desc_counter v s]> (rw_desc w) = servers w).
  { unfold servers. rewrite list_fmap_insert. apply list_insert_id. by rewrite list_lookup_fmap, Hj. }
  constructor; simpl; try done.
  - constructor; simpl; rewrite ?length_insert; try done.
    unfold desc_ok. rewrite (found_length _ _ _ _ _ _ Hfound). by apply Forall_insert.
  - exists []. split; [simpl; lia | constructor].
  - destruct found as [ci|]; [| exact Hfound]. exists (desc_srv s), (desc_conn s). split_and!; [| done |].
    + unfold servers. by apply (list_elem_of_fmap_2 (fun s => (desc_srv s, desc_conn s))), (list_elem_of_lookup_2 _ j).
    + by eapply found_chosen.
Qed.

Lemma sg_conn_loop_ok jiffies k : forall skipnip w nip, sg_ok w ->
  exists found w' nip', sg_conn_loop jiffies k skipnip w nip = Ok (found, w', nip') /\ searched jiffies k w found w'.
Proof.
  induction k as [|k IH]; intros skipnip w nip Hw; cbn [sg_conn_loop].
  - exists None, w, nip. split; [done |]. constructor; try done. exists []. split; [done | constructor].
  - destruct (next_srv_searched jiffies w Hw) as (j & s & d & -> & Hj & Hse). cbn [rw_conns rw_suspended rw_desc].
    rewrite Hj. set (w1 := MkRw (rw_conns w) (rw_suspended w) (rw_desc w) d) in *.
    destruct (rw_suspended w (desc_srv s)) eqn:Esus.
    + destruct (IH skipnip w1 nip (se_ok _ _ _ _ _ Hse)) as (found & w' & nip' & Hrun & Hse').
      exists found, w', nip'. split; [done |]. by apply (searched_trans _ 1 k w w1).
    + destruct (scan_searched jiffies w1 j s skipnip nip (se_ok _ _ _ _ _ Hse) Hj Esus)
        as (found & cs & s' & nip' & Hrun & Hse2). change (rw_conns w1) with (rw_conns w) in Hrun. rewrite Hrun.
      change (rw_suspended w1) with (rw_suspended w) in Hse2. change (rw_desc w1) with (rw_desc w) in Hse2.
      change (rw_data w1) with d in Hse2. set (w2 := MkRw cs _ _ d) in *.
      pose proof (searched_trans _ _ _ _ _ _ _ Hse Hse2) as Hse12. simpl in Hse12.
      destruct found as [ci|].
      * exists (Some ci), w2, nip'. split; [done |]. destruct Hse12 as [? ? ? ? (ps & ? & ?) ?].
        constructor; try done. exists ps. split; [lia | done].
      * destruct (IH skipnip w2 nip' (se_ok _ _ _ _ _ Hse2)) as (found & w' & nip2 & Hrun2 & Hse3).
        exists found, w', nip2. split; [done |]. by apply (searched_trans _ 1 k w w2).
Qed.

(** C36: a search over a group always returns; a connection that is returned is
    live, not in recovery, not busy, has room in its queue and is one of a server of the group
    that is not suspended; a reference to it is taken and no other connection changes.  At most
    [2 * srv_n] servers are drawn, each from the bag of the round, and the data of the group
    stay well-formed for the next request. *)
Theorem ratio_sg_conn_sound jiffies w : sg_ok w ->
  exists found w', tfw_sched_ratio_sched_sg_conn jiffies w = Ok (found, w') /\
    searched jiffies (2 * length (rw_desc w)) w found w'.
Proof.
  intros Hw. unfold tfw_sched_ratio_sched_sg_conn.
  assert (Hmono : forall k k' u found u', (k <= k')%nat -> searched jiffies k u found u' -> searched jiffies k' u found u').
  { intros k k' u found u' Hk [? ? ? ? (ps & ? & ?) ?]. constructor; try done. exists ps. split; [lia | done]. }
  destruct (sg_conn_loop_ok jiffies (length (rw_desc w)) true w 0 Hw) as (found & w1 & nip & -> & Hse).
  destruct found as [ci|].
  - exists (Some ci), w1. split; [done |]. eapply Hmono; [| exact Hse]. lia.
  - destruct (Z.eqb_spec nip 0) as [->|Hnz]; cbn [negb].
    + exists None, w1. split; [done |]. eapply Hmono; [| exact Hse]. lia.
    + destruct (sg_conn_loop_ok jiffies (length (rw_desc w1)) false w1 nip (se_ok _ _ _ _ _ Hse)) as (found & w2 & nip2 & -> & Hse2).
      exists found, w2. split; [done |]. pose proof (se_servers _ _ _ _ _ Hse) as Hsv.
      apply (f_equal length) in Hsv. unfold servers in Hsv. rewrite !length_fmap in Hsv. rewrite Hsv in Hse2.
      eapply Hmono; [| exact (searched_trans _ _ _ _ _ _ _ Hse Hse2)]. lia.
Qed.

(** ** Examples *)

Definition ex_conns : list RatioConn :=
  [MkRConn true false 0 0 10 1; MkRConn false true 0 0 10 1; MkRConn false false 0 10 10 1; MkRConn false false 0 3 10 1].
Definition ex_desc0 : TfwRatioSrvDesc := MkDesc 0 [0; 1]%nat 0.
Definition ex_desc1 : TfwRatioSrvDesc := MkDesc 1 [2; 3]%nat 7.
Definition ex_world : RatioWorld :=
  MkRw ex_conns (fun _ => false) [ex_desc0; ex_desc1] (MkRd [MkSd 0 2 2 2; MkSd 1 1 1 1] (MkSch 0 2 1 3 3)).

Lemma ratio_srv_conn_complete_witness :
  exists found cs' s', tfw_sched_ratio_sched_srv_conn 5 false false (Some ex_desc0) ex_conns = Ok (found, cs', Some s') /\
    found = Some 1%nat.
Proof.
  destruct (ratio_srv_conn_complete 5 false false ex_conns ex_desc0) as (found & cs' & s' & H & _).
  - repeat constructor; simpl; lia.
  - done.
  - done.
  - done.
  - exists found, cs', s'. split; [exact H |]. vm_compute in H. by injection H.
Defined.

Lemma ratio_sg_conn_sound_witness :
  exists found w', tfw_sched_ratio_sched_sg_conn 5 ex_world = Ok (found, w') /\ found = Some 3%nat.
Proof.
  destruct (ratio_sg_conn_sound 5 ex_world) as (found & w' & H & _).
  - constructor.
    + apply (fresh_ok [MkSd 0 2 2 2; MkSd 1 1 1 1] 3); [done | repeat constructor; simpl; lia | done].
    + done.
    + repeat constructor; simpl; lia.
    + repeat constructor; simpl; lia.
  - exists found, w'. split; [exact H |]. vm_compute in H. by injection H.
Defined.
