(* ===== verification/RatioPredict.v ===== *)
(** * The ratio scheduler: predicted response times

    [tfw_sched_ratio_calc_predict()] of [fw/http_sched_ratio.c]: the response times of the last
    [slot_n] calls of the timer function are kept in a ring; a simple linear regression over them
    predicts the response time [ahead] calls later, which is the weight of the server.  The
    arithmetic is on [long], in thousandths; it wraps around.

    The theorem: a response time that changes linearly, or not at all, is predicted exactly,
    from the second call on and however long the scheduler runs, also when the squares of the call numbers
    do not fit in [long] any more ([ratio_predict_linear]). *)

From S2P Require Import Prelude SchedRatio RatioCalc.

#[local] Open Scope Z_scope.

(** ** Data *)

Record TfwRatioHstUnit := MkHu { hu_cnt : Z; hu_rtt : Z }.

Record TfwRatioHstDesc := MkHd {
  coeff_a : Z;
  coeff_b : Z;
  cnt_avg : Z;
  rtt_avg : Z;
  cnt_rtt_avg : Z;
  cnt_avg_rtt_avg : Z;
  cnt_sq_avg : Z;
  cnt_avg_sq : Z;
  hist : list TfwRatioHstUnit
}.

Record TfwRatioHstData := MkHst { ahead : Z; slot_n : Z; counter : Z; hstdesc : list TfwRatioHstDesc }.

Definition MUL : Z := 1000.

(** A division of [long]s: a zero divisor and an overflow trap. *)
Definition sdiv (a b : Z) : outcome Z :=
  if (b =? 0) || ((a =? - 2 ^ 63) && (b =? -1)) then Bug else Ok (Z.quot a b).

(** ** One server *)

(** The averages after the response time [rtt] of the call [cnt]. *)
Definition averages (h : TfwRatioHstData) (hd : TfwRatioHstDesc) (ni cnt rtt : Z) : outcome TfwRatioHstDesc :=
  if counter h <? slot_n h then
    let sz := s32 (ni + 1) in
    let! ca := sdiv (s64 (s64 (cnt_avg hd * ni) + cnt)) sz in
    let! ra := sdiv (s64 (s64 (rtt_avg hd * ni) + rtt)) sz in
    let! cra := sdiv (s64 (s64 (cnt_rtt_avg hd * ni) + s64 (cnt * rtt))) sz in
    let! csa := sdiv (s64 (s64 (cnt_sq_avg hd * ni) + s64 (cnt * cnt))) sz in
    Ok (MkHd (coeff_a hd) (coeff_b hd) ca ra cra (s64 (ca * ra)) csa (s64 (ca * ca)) (hist hd))
  else
    let? u := hist hd !! Z.to_nat ni in
    let h_cnt := s64 (hu_cnt u) in
    let h_rtt := s64 (hu_rtt u) in
    let sz := s32 (slot_n h) in
    let! dc := sdiv (s64 (h_cnt - cnt)) sz in
    let ca := s64 (cnt_avg hd - dc) in
    let! dr := sdiv (s64 (h_rtt - rtt)) sz in
    let ra := s64 (rtt_avg hd - dr) in
    let! dcr := sdiv (s64 (s64 (h_cnt * h_rtt) - s64 (cnt * rtt))) sz in
    let cra := s64 (cnt_rtt_avg hd - dcr) in
    let! dcs := sdiv (s64 (s64 (h_cnt * h_cnt) - s64 (cnt * cnt))) sz in
    let csa := s64 (cnt_sq_avg hd - dcs) in
    Ok (MkHd (coeff_a hd) (coeff_b hd) ca ra cra (s64 (ca * ra)) csa (s64 (ca * ca)) (hist hd)).

Definition coefficients (hd : TfwRatioHstDesc) : outcome TfwRatioHstDesc :=
  let set a b := MkHd a b (cnt_avg hd) (rtt_avg hd) (cnt_rtt_avg hd) (cnt_avg_rtt_avg hd) (cnt_sq_avg hd)
                   (cnt_avg_sq hd) (hist hd) in
  if cnt_sq_avg hd =? cnt_avg_sq hd then
    if cnt_avg hd =? 0 then Ok (set 0 1)
    else let! b := sdiv (rtt_avg hd) (cnt_avg hd) in Ok (set 0 b)
  else
    let! b := sdiv (s64 (cnt_rtt_avg hd - cnt_avg_rtt_avg hd)) (s64 (cnt_sq_avg hd - cnt_avg_sq hd)) in
    let! a := sdiv (s64 (rtt_avg hd - s64 (b * cnt_avg hd))) MUL in
    Ok (set a b).

Definition set_hist (v : list TfwRatioHstUnit) (hd : TfwRatioHstDesc) : TfwRatioHstDesc :=
  MkHd (coeff_a hd) (coeff_b hd) (cnt_avg hd) (rtt_avg hd) (cnt_rtt_avg hd) (cnt_avg_rtt_avg hd) (cnt_sq_avg hd)
    (cnt_avg_sq hd) v.

(** The body of the loop over the servers: the data of the server and its new weight; [wgt] is
    the response time of APM. *)
Definition predict_srv (h : TfwRatioHstData) (hd : TfwRatioHstDesc) (wgt : Z) : outcome (TfwRatioHstDesc * Z) :=
  if slot_n h =? 0 then Bug
  else
    let ni := s32 (counter h mod slot_n h) in
    let cnt := s64 (u64 (counter h * MUL)) in
    let ahead := s64 (u64 (counter h + ahead h)) in
    let rtt := s64 (wgt * MUL) in
    let! hd := averages h hd ni cnt rtt in
    if negb ((0 <=? ni) && (ni <? zlen (hist hd))) then Bug
    else
      let hd := set_hist (<[Z.to_nat ni := MkHu (u64 cnt) (u64 rtt)]> (hist hd)) hd in
      let! hd := coefficients hd in
      let prediction := s64 (coeff_a hd + s64 (coeff_b hd * ahead)) in
      Ok (hd, u32 (if prediction <=? 0 then 1 else prediction)).

(** ** The group *)

Fixpoint predict_loop (h : TfwRatioHstData) (l : list TfwRatioHstDesc) (wgts : list Z)
    : outcome (list TfwRatioHstDesc * list Z) :=
  match l, wgts with
  | hd :: l, w :: wgts =>
      let! r := predict_srv h hd w in
      let! r' := predict_loop h l wgts in
      Ok (r.1 :: r'.1, r.2 :: r'.2)
  | [], [] => Ok ([], [])
  | _, _ => Bug
  end.

Section Sort.
Variable sort : (TfwRatioSrvData -> TfwRatioSrvData -> Z) -> list TfwRatioSrvData -> list TfwRatioSrvData.

(** The largest weight and the sum, which the loop collects too, are those of [max_and_sum]. *)
Definition tfw_sched_ratio_calc_predict (srv_n : nat) (h : TfwRatioHstData) (rtts : list Z)
    : outcome (TfwRatioHstData * TfwRatioData) :=
  let! r := predict_loop h (hstdesc h) (rtt_weight <$> rtts) in
  let '(hds, weights) := r in
  let '(max_val_idx, sum_wgt) := max_and_sum weights in
  let h := MkHst (ahead h) (slot_n h) (u64 (counter h + 1)) hds in
  let! d := __tfw_sched_ratio_calc_dynamic sort srv_n (entries weights) sum_wgt max_val_idx in
  Ok (h, d).
End Sort.

(** ** A response time that changes linearly *)

(** Zeroed data, as allocated. *)
Definition new_hd (n : nat) : TfwRatioHstDesc := MkHd 0 0 0 0 0 0 0 0 (replicate n (MkHu 0 0)).

(** The calls number 0 to [k], the response time of the call [j] is [rtt j]; the data and the last prediction. *)
Fixpoint predict_run (n : nat) (ahead : Z) (rtt : Z -> Z) (k : nat) : outcome (TfwRatioHstDesc * Z) :=
  match k with
  | O => predict_srv (MkHst ahead (Z.of_nat n) 0 []) (new_hd n) (rtt 0)
  | S k' =>
      let! r := predict_run n ahead rtt k' in
      predict_srv (MkHst ahead (Z.of_nat n) (Z.of_nat k) []) r.1 (rtt (Z.of_nat k))
  end.

Definition ramp (w s j : Z) : Z := w + s * j.

(** [s64] picks a representative modulo [2 ^ 64]. *)
Lemma s64_rep z : exists k, s64 z = z + k * 2 ^ 64.
Proof.
  unfold s64. exists (- ((z + 2 ^ 63) / 2 ^ 64)). pose proof (Z.div_mod (z + 2 ^ 63) (2 ^ 64) ltac:(lia)). lia.
Qed.

Lemma s64_shift z k : s64 (z + k * 2 ^ 64) = s64 z.
Proof. unfold s64. rewrite <- (Z.mod_add (z + 2 ^ 63) k (2 ^ 64)) by lia. do 2 f_equal. lia. Qed.

(** Inner conversions make no difference. *)
Ltac s64_inner x := let k := fresh "k" in destruct (s64_rep x) as [k ->].
Ltac s64_same j := match goal with |- s64 ?a = s64 ?b => replace a with (b + j * 2 ^ 64) by ring; apply s64_shift end.

Lemma s64_sub a b : s64 (s64 a - s64 b) = s64 (a - b).
Proof. s64_inner a. s64_inner b. s64_same (k - k0). Qed.

Lemma s64_sub_l a b : s64 (s64 a - b) = s64 (a - b).
Proof. s64_inner a. s64_same k. Qed.

Lemma s64_neq a d : 0 < d < 2 ^ 63 -> s64 (a + d) <> s64 a.
Proof. intros Hd E. destruct (s64_rep (a + d)) as [k1 E1], (s64_rep a) as [k2 E2]. lia. Qed.

Lemma sdiv_exact a b q : 0 < b -> a = q * b -> sdiv a b = Ok q.
Proof.
  intros Hb ->. unfold sdiv. rewrite (proj2 (Z.eqb_neq b 0)), (proj2 (Z.eqb_neq b (-1))), andb_false_r by lia.
  cbn [orb]. by rewrite Z.quot_mul by lia.
Qed.

Lemma sdiv_div a b : 0 <= a -> 0 < b -> sdiv a b = Ok (a / b).
Proof.
  intros Ha Hb. unfold sdiv. rewrite (proj2 (Z.eqb_neq b 0)), (proj2 (Z.eqb_neq b (-1))), andb_false_r by lia.
  cbn [orb]. by rewrite Z.quot_div_nonneg.
Qed.

(** The quotient of [s] times the divisor and an error that is smaller than the divisor and of the sign of [s]. *)
Lemma sdiv_near s e d : 0 < d < 2 ^ 63 -> 0 <= s /\ 0 <= e < d \/ s < 0 /\ - d < e <= 0 -> sdiv (s * d + e) d = Ok s.
Proof.
  intros Hd He. unfold sdiv. rewrite (proj2 (Z.eqb_neq d 0)), (proj2 (Z.eqb_neq d (-1))), andb_false_r by lia. cbn [orb]. f_equal.
  destruct He as [[Hs He]|[Hs He]].
  - rewrite Z.quot_div_nonneg by nia. rewrite Z.div_add_l, Z.div_small by lia. lia.
  - replace (s * d + e) with (- ((- s) * d + - e)) by lia. rewrite Z.quot_opp_l, Z.quot_div_nonneg by nia.
    rewrite Z.div_add_l, Z.div_small by lia. lia.
Qed.

(** The mean of the call numbers in the window, and of [s] times their squares as the code rounds it. *)
Definition mean (n c : Z) : Z := 1000 * c - 500 * Z.min c (n - 1).

Fixpoint sq_mean (s : Z) (k : nat) : Z :=
  match k with
  | O => 0
  | S k' => (sq_mean s k' * Z.of_nat k + 1000000 * s * (Z.of_nat k * Z.of_nat k)) / (Z.of_nat k + 1)
  end.

(** The covariance of the call numbers and [s] times them. *)
Definition deviation (s n c : Z) : Z := let m := Z.min c (n - 1) in sq_mean s (Z.to_nat m) - s * (500 * m * (500 * m)).

Lemma sq_mean_bounds s k : let z := Z.of_nat k in
  s * (1000000 * z * (2 * z + 1)) - 6 * z <= 6 * sq_mean s k <= s * (1000000 * z * (2 * z + 1)).
Proof.
  induction k as [|k IH]; [cbn; lia |]. cbn [sq_mean]. cbn zeta in *. set (z := Z.of_nat (S k)) in *.
  assert (Ez : Z.of_nat k = z - 1) by lia. rewrite Ez in IH. assert (1 <= z) by lia.
  set (x := sq_mean s k * z + 1000000 * s * (z * z)).
  assert (Hx : s * (1000000 * z * (2 * z + 1)) * (z + 1) - 6 * (z - 1) * z <= 6 * x <= s * (1000000 * z * (2 * z + 1)) * (z + 1)).
  { assert (E : s * (1000000 * z * (2 * z + 1)) * (z + 1) = s * (1000000 * (z - 1) * (2 * (z - 1) + 1)) * z + 6 * (1000000 * s * (z * z))) by ring.
    rewrite E. subst x. set (u := s * (1000000 * (z - 1) * (2 * (z - 1) + 1))) in *. nia. }
  set (v := s * (1000000 * z * (2 * z + 1))) in *.
  pose proof (Z.mul_div_le x (z + 1) ltac:(lia)) as H1. pose proof (Z.mul_succ_div_gt x (z + 1) ltac:(lia)) as H2. nia.
Qed.

(** Rounding once loses less than rounding [s] times. *)
Lemma sq_mean_scale s k : 0 <= s -> s * sq_mean 1 k <= sq_mean s k.
Proof.
  intros Hs. induction k as [|k IH]; [cbn; lia |]. cbn [sq_mean]. set (z := Z.of_nat (S k)) in *. assert (1 <= z) by lia.
  set (x := sq_mean 1 k * z + 1000000 * 1 * (z * z)). apply Z.div_le_lower_bound; [lia |].
  pose proof (Z.mul_div_le x (z + 1) ltac:(lia)). subst x. nia.
Qed.

(** The slope that comes out is [s]. *)
Lemma deviation_near s n c : 2 <= n <= 2400 -> 1 <= c -> Z.abs s <= 100000 ->
  let d := deviation 1 n c in let e := deviation s n c - s * d in
  0 < d < 2 ^ 40 /\ (0 <= s /\ 0 <= e < d \/ s < 0 /\ - d < e <= 0).
Proof.
  intros Hn Hc Hs. unfold deviation. set (m := Z.min c (n - 1)). cbv zeta.
  pose proof (sq_mean_bounds 1 (Z.to_nat m)) as H1. pose proof (sq_mean_bounds s (Z.to_nat m)) as H2.
  pose proof (fun H => sq_mean_scale s (Z.to_nat m) H) as H3. cbn zeta in *. rewrite Z2Nat.id in * by lia.
  set (r1 := sq_mean 1 (Z.to_nat m)) in *. set (rs := sq_mean s (Z.to_nat m)) in *.
  assert (Hm : 1 <= m <= 2399) by lia.
  assert (E : rs - s * (500 * m * (500 * m)) - s * (r1 - 1 * (500 * m * (500 * m))) = rs - s * r1) by ring. rewrite E.
  assert (Hd : 83333 * (m * m) + 166665 * m <= r1 - 1 * (500 * m * (500 * m)) <= 83334 * (m * m) + 166667 * m) by nia.
  split; [nia |]. destruct (Z.le_gt_cases 0 s) as [Hp|Hp].
  - left. specialize (H3 Hp). split; [done |]. split; [lia |]. assert (rs - s * r1 <= s * m) by nia. nia.
  - right. split; [done |]. assert (6 * (s * r1) <= s * (1000000 * m * (2 * m + 1)) - s * (6 * m)) by nia.
    assert (s * (1000000 * m * (2 * m + 1)) <= 6 * (s * r1)) by nia. split; nia.
Qed.

(** Bounds for windows that are not full. *)
Lemma sq_mean_range1 k : Z.of_nat k <= 2400 -> 0 <= sq_mean 1 k < 2 ^ 43.
Proof. intros Hk. pose proof (sq_mean_bounds 1 k) as B. cbn zeta in B. set (z := Z.of_nat k) in *. assert (0 <= z) by lia. nia. Qed.

Lemma sq_mean_range s k : Z.of_nat k <= 2400 -> - 1000000 <= s * Z.of_nat k <= 1000000 -> - 2 ^ 50 < sq_mean s k < 2 ^ 50.
Proof.
  intros Hk Hs. pose proof (sq_mean_bounds s k) as B. cbn zeta in B. set (z := Z.of_nat k) in *. assert (0 <= z) by lia.
  replace (s * (1000000 * z * (2 * z + 1))) with (1000000 * (2 * z + 1) * (s * z)) in B by ring. set (sz := s * z) in *. nia.
Qed.

(** The mean of the products of call numbers and response times is not negative. *)
Lemma products_nonneg w s k : 1 <= w <= 1000000 -> - w < s * Z.of_nat k -> Z.of_nat k <= 2400 -> - 1000000 <= s * Z.of_nat k <= 1000000 ->
  0 <= 500000 * w * Z.of_nat k + sq_mean s k.
Proof.
  intros Hw Hs Hk Hr. destruct k as [|k]; [cbn; lia |]. pose proof (sq_mean_bounds s (S k)) as B. cbn zeta in B.
  set (z := Z.of_nat (S k)) in *. assert (1 <= z) by lia.
  replace (s * (1000000 * z * (2 * z + 1))) with (1000000 * (2 * z + 1) * (s * z)) in B by ring. set (sz := s * z) in *.
  assert (1000000 * (2 * z + 1) * (1 - w) <= 1000000 * (2 * z + 1) * sz) by (apply Z.mul_le_mono_nonneg_l; lia). nia.
Qed.

Section Linear.
Context (n : nat) (ahead w s : Z) (last : Z).
Hypothesis Hn : 2 <= Z.of_nat n <= 2400.
Hypothesis Hahead : 0 <= ahead < 2 ^ 32.
Hypothesis Hw : 1 <= w <= 1000000.
Hypothesis Hlast : 1 <= ramp w s last <= 1000000.
Hypothesis Hs : Z.abs s <= 100000.
Hypothesis Hcalls : 0 <= last < 2 ^ 30.

Let N := Z.of_nat n.
Let r := ramp w s.

(** The response times in between. *)
Lemma ramp_range j : 0 <= j <= last -> 1 <= r j <= 1000000 /\ - 1000000 <= s * j <= 1000000.
Proof using All. intros Hj. subst r. unfold ramp in *. destruct (Z.le_gt_cases 0 s); nia. Qed.

Record hist_ok (c : Z) (hd : TfwRatioHstDesc) : Prop := {
  ho_len : length (hist hd) = n;
  ho_hist : forall j, 0 <= j <= c -> c - N < j -> hist hd !! Z.to_nat (j mod N) = Some (MkHu (1000 * j) (1000 * r j));
  ho_cnt : cnt_avg hd = mean N c;
  ho_rtt : rtt_avg hd = 1000 * w + s * mean N c;
  ho_cr : cnt_rtt_avg hd = s64 (mean N c * (1000 * w + s * mean N c) + deviation s N c);
  ho_sq : cnt_sq_avg hd = s64 (mean N c * mean N c + deviation 1 N c)
}.

(** The averages of the call number [c]. *)
Definition averages_of (c : Z) (hd : TfwRatioHstDesc) : TfwRatioHstDesc :=
  MkHd (coeff_a hd) (coeff_b hd) (mean N c) (1000 * w + s * mean N c)
    (s64 (mean N c * (1000 * w + s * mean N c) + deviation s N c)) (s64 (mean N c * (1000 * w + s * mean N c)))
    (s64 (mean N c * mean N c + deviation 1 N c)) (s64 (mean N c * mean N c)) (hist hd).

(** While the window is not full, the averages of the products. *)
Lemma products_first c : 0 <= c < N -> let m := 500 * c in
  mean N c = m /\ m * (1000 * w + s * m) + deviation s N c = 500000 * w * c + sq_mean s (Z.to_nat c) /\
  m * m + deviation 1 N c = sq_mean 1 (Z.to_nat c).
Proof using All. intros Hc. cbv zeta. unfold deviation, mean. rewrite !Z.min_l by lia. split_and!; lia. Qed.

Lemma sq_mean_succ q c : 1 <= c -> sq_mean q (Z.to_nat c) = (sq_mean q (Z.to_nat (c - 1)) * c + 1000000 * q * (c * c)) / (c + 1).
Proof using All.
  intros Hc. replace (Z.to_nat c) with (S (Z.to_nat (c - 1))) by lia. cbn [sq_mean]. by replace (Z.of_nat (S (Z.to_nat (c - 1)))) with c by lia.
Qed.

(** The window is not full yet. *)
Lemma averages_first c hd : 1 <= c < N -> c <= last -> hist_ok (c - 1) hd ->
  averages (MkHst ahead N c []) hd c (1000 * c) (1000 * r c) = Ok (averages_of c hd).
Proof using All.
  intros Hc Hl [_ _ Hcnt Hrtt Hcr Hsq]. unfold averages. cbn [counter slot_n]. rewrite (proj2 (Z.ltb_lt _ _)) by lia.
  assert (Hc' : c < 2400) by lia. destruct (ramp_range c) as [Hr Hsc]; [lia |]. destruct (ramp_range (c - 1)) as [Hr' Hsc']; [lia |].
  assert (Er : r c = w + s * c) by done. assert (Er' : r (c - 1) = w + s * (c - 1)) by done.
  destruct (products_first (c - 1)) as (Em & Ecr & Esq); [lia |]. rewrite Em, Ecr in Hcr. rewrite Em, Esq in Hsq. rewrite Em in Hcnt, Hrtt. clear Em Ecr Esq.
  destruct (products_first c) as (Em & Ecr & Esq); [lia |]. unfold averages_of. rewrite Em, Ecr, Esq. clear Em Ecr Esq.
  assert (B1 : 0 <= sq_mean 1 (Z.to_nat (c - 1)) < 2 ^ 43) by (apply sq_mean_range1; lia).
  assert (Bs : - 2 ^ 50 < sq_mean s (Z.to_nat (c - 1)) < 2 ^ 50) by (apply sq_mean_range; rewrite Z2Nat.id by lia; lia).
  assert (C1 : 0 <= sq_mean 1 (Z.to_nat c) < 2 ^ 43) by (apply sq_mean_range1; lia).
  assert (Cs : - 2 ^ 50 < sq_mean s (Z.to_nat c) < 2 ^ 50) by (apply sq_mean_range; rewrite Z2Nat.id by lia; lia).
  assert (Cn : 0 <= 500000 * w * (c - 1) + sq_mean s (Z.to_nat (c - 1))).
  { pose proof (products_nonneg w s (Z.to_nat (c - 1))) as P. rewrite Z2Nat.id in P by lia. apply P; lia. }
  rewrite (sq_mean_succ s c), (sq_mean_succ 1 c) in * by lia.
  set (p1 := sq_mean 1 (Z.to_nat (c - 1))) in *. set (ps := sq_mean s (Z.to_nat (c - 1))) in *. clearbody p1 ps.
  assert (Hwc : 0 <= 500000 * w * (c - 1) < 2 ^ 51) by (clear -Hw Hc Hc'; nia).
  rewrite (s64_small (500000 * w * (c - 1) + ps)) in Hcr by lia. rewrite (s64_small p1) in Hsq by lia.
  rewrite Hcnt, Hrtt, Hcr, Hsq. rewrite (s32_small (c + 1)) by lia.
  assert (E1 : (1000 * w + s * (500 * (c - 1))) * c + 1000 * r c = (1000 * w + s * (500 * c)) * (c + 1)) by (rewrite Er; ring).
  assert (E2 : (500000 * w * (c - 1) + ps) * c + 1000 * c * (1000 * r c) = 500000 * w * c * (c + 1) + (ps * c + 1000000 * s * (c * c))) by (rewrite Er; ring).
  set (t := ps * c + 1000000 * s * (c * c)) in *.
  assert (E3 : p1 * c + 1000 * c * (1000 * c) = p1 * c + 1000000 * 1 * (c * c)) by ring. set (q := 1000000 * 1 * (c * c)) in *.
  assert (Hq : 0 <= q < 2 ^ 43) by (subst q; clear -Hc Hc'; nia).
  assert (Hp1c : 0 <= p1 * c < 2 ^ 55) by (clear -B1 Hc Hc'; nia).
  assert (Hcr1 : 0 <= 1000 * c * (1000 * r c) < 2 ^ 52) by (clear -Hr Hc Hc'; nia).
  assert (Hv : 0 <= (500000 * w * (c - 1) + ps) * c < 2 ^ 63 - 2 ^ 52) by (clear -Cn Hwc Bs Hc Hc'; nia).
  assert (Hra : - 2 ^ 31 < 1000 * w + s * (500 * (c - 1)) < 2 ^ 31) by lia.
  assert (Hra' : - 2 ^ 45 < (1000 * w + s * (500 * (c - 1))) * c < 2 ^ 45) by (clear -Hra Hc Hc'; nia).
  assert (Hcc : 0 <= 500 * (c - 1) * c < 2 ^ 40) by (clear -Hc Hc'; nia).
  rewrite !(s64_small (500 * (c - 1) * c)), !(s64_small (p1 * c)), !(s64_small (1000 * c * (1000 * c))), !(s64_small (1000 * c * (1000 * r c))),
    !(s64_small ((1000 * w + s * (500 * (c - 1))) * c)), !(s64_small ((500000 * w * (c - 1) + ps) * c)) by lia.
  rewrite !(s64_small (_ + _)) by lia. rewrite E1, E2, E3.
  rewrite (sdiv_exact (_ + 1000 * c) _ (500 * c)), (sdiv_exact _ _ (1000 * w + s * (500 * c))) by lia.
  rewrite (sdiv_div (500000 * w * c * (c + 1) + t)), (sdiv_div (p1 * c + _)) by lia.
  rewrite Z.div_add_l by lia.
  rewrite (s64_small ((p1 * c + q) / (c + 1))) by lia. done.
Qed.

(** The oldest element of the window is replaced. *)
Lemma averages_slide c hd : N <= c <= last -> hist_ok (c - 1) hd ->
  averages (MkHst ahead N c []) hd (c mod N) (1000 * c) (1000 * r c) = Ok (averages_of c hd).
Proof using All.
  intros Hc [_ Hh Hcnt Hrtt Hcr Hsq]. unfold averages. cbn [counter slot_n]. rewrite (proj2 (Z.ltb_ge _ _)) by lia.
  destruct (ramp_range c) as [Hr Hsc]; [lia |]. destruct (ramp_range (c - N)) as [Hr' Hsc']; [lia |].
  assert (Er : r c = w + s * c) by done. assert (Er' : r (c - N) = r c - s * N) by (subst r; unfold ramp; ring).
  assert (Hold : hist hd !! Z.to_nat (c mod N) = Some (MkHu (1000 * (c - N)) (1000 * r (c - N)))).
  { rewrite <- (Hh (c - N)) by lia. do 2 f_equal.
    replace c with (c - N + 1 * N) at 1 by lia. by rewrite Z.mod_add by lia. }
  rewrite Hold. cbn [hu_cnt hu_rtt]. rewrite (s32_small N) by lia.
  assert (Em : mean N c = mean N (c - 1) + 1000) by (unfold mean; lia).
  assert (Ev : mean N (c - 1) = 1000 * (c - 1) - 500 * (N - 1)) by (unfold mean; lia).
  assert (Ed : forall q, deviation q N c = deviation q N (c - 1)).
  { intros q. unfold deviation. by rewrite !(Z.min_r _ (N - 1)) by lia. }
  rewrite !(s64_small (1000 * (c - N))), !(s64_small (1000 * r (c - N))) by lia.
  rewrite (s64_small (1000 * (c - N) - 1000 * c)), (s64_small (1000 * r (c - N) - 1000 * r c)) by lia. rewrite !s64_sub.
  assert (HN : 2 <= N <= 2400) by done. assert (Hcb : c < 2 ^ 30) by lia.
  assert (Hcr' : s64 (1000 * (c - N) * (1000 * r (c - N)) - 1000 * c * (1000 * r c)) = - (1000000 * (r c + s * c - s * N)) * N).
  { rewrite s64_small; [rewrite Er'; ring |].
    replace (1000 * (c - N) * (1000 * r (c - N)) - 1000 * c * (1000 * r c)) with (- (1000000 * (r (c - N) + s * c)) * N) by (rewrite Er'; ring).
    clear -HN Hr' Hsc. set (x := r (c - N)) in *. set (y := s * c) in *. clearbody x y. nia. }
  assert (Hsq' : s64 (1000 * (c - N) * (1000 * (c - N)) - 1000 * c * (1000 * c)) = - (1000000 * (2 * c - N)) * N).
  { rewrite s64_small; [ring |]. clear -HN Hcb Hc. nia. }
  rewrite Hsq', Hcr'.
  rewrite (sdiv_exact (_ - 1000 * c) _ (- 1000)), (sdiv_exact (1000 * r (c - N) - _) _ (- (1000 * s))),
    (sdiv_exact (_ * N) N (- (1000000 * (r c + s * c - s * N)))),
    (sdiv_exact (_ * N) N (- (1000000 * (2 * c - N)))) by lia.
  rewrite Hcnt, Hrtt, Hcr, Hsq. unfold averages_of. rewrite !Ed, Em.
  assert (Hmb : 0 <= mean N (c - 1) < 2 ^ 41) by lia.
  assert (Hsm : - 2 ^ 40 < s * mean N (c - 1) < 2 ^ 40) by (rewrite Ev; clear -Hsc Hsc' HN Hs; nia).
  rewrite !(s64_small (mean N (c - 1) - - 1000)) by lia. rewrite !(s64_small (1000 * w + s * mean N (c - 1) - - (1000 * s))) by lia.
  rewrite !s64_sub_l. rewrite !Z.sub_opp_r.
  replace (1000 * w + s * mean N (c - 1) + 1000 * s) with (1000 * w + s * (mean N (c - 1) + 1000)) by ring.
  do 2 f_equal.
  - f_equal. rewrite Er, Ev. ring.
  - f_equal. rewrite Ev. ring.
Qed.

(** With these averages the slope is [s] and the constant [w]. *)
Lemma coefficients_linear c hd : 1 <= c <= last ->
  exists hd', coefficients (averages_of c hd) = Ok hd' /\ coeff_a hd' = w /\ coeff_b hd' = s /\
    hist hd' = hist hd /\ cnt_avg hd' = mean N c /\ rtt_avg hd' = 1000 * w + s * mean N c /\
    cnt_rtt_avg hd' = s64 (mean N c * (1000 * w + s * mean N c) + deviation s N c) /\
    cnt_sq_avg hd' = s64 (mean N c * mean N c + deviation 1 N c).
Proof using All.
  intros Hc. destruct (deviation_near s N c) as [Hd He]; [lia | lia | lia |].
  unfold coefficients, averages_of. cbn [coeff_a coeff_b cnt_avg rtt_avg cnt_rtt_avg cnt_avg_rtt_avg cnt_sq_avg cnt_avg_sq hist].
  rewrite (proj2 (Z.eqb_neq _ _)) by (apply s64_neq; lia). rewrite !s64_sub.
  replace (mean N c * mean N c + deviation 1 N c - mean N c * mean N c) with (deviation 1 N c) by lia.
  replace (mean N c * (1000 * w + s * mean N c) + deviation s N c - mean N c * (1000 * w + s * mean N c)) with (deviation s N c) by lia.
  assert (Hb : - 2 ^ 62 < deviation s N c < 2 ^ 62).
  { clear -Hd He Hs. set (d := deviation 1 N c) in *. set (e := deviation s N c) in *. clearbody d e. nia. }
  rewrite !(s64_small (deviation 1 N c)), !(s64_small (deviation s N c)) by lia.
  assert (Hq : sdiv (deviation s N c) (deviation 1 N c) = Ok s).
  { rewrite <- (sdiv_near s (deviation s N c - s * deviation 1 N c) (deviation 1 N c)); [f_equal; ring | lia | done]. }
  rewrite Hq.
  destruct (ramp_range c) as [_ Hsc]; [lia |]. assert (Hm : 0 <= mean N c < 2 ^ 41) by (unfold mean; lia).
  assert (Hsm : - 2 ^ 40 < s * mean N c < 2 ^ 40).
  { unfold mean. destruct (Z.min_spec c (N - 1)) as [[_ ->]|[? ->]]; [lia |].
    assert (Z.abs (s * (N - 1)) <= 100000 * 2399) by (rewrite Z.abs_mul; apply Z.mul_le_mono_nonneg; lia). lia. }
  rewrite !(s64_small (s * mean N c)) by lia. replace (1000 * w + s * mean N c - s * mean N c) with (1000 * w) by ring.
  rewrite (s64_small (1000 * w)), (sdiv_exact (1000 * w) MUL w) by (unfold MUL; lia). eexists. split; [done |]. simpl. done.
Qed.

Lemma hist_next c hd' l : 0 <= c -> length l = n -> hist hd' = <[Z.to_nat (c mod N) := MkHu (1000 * c) (1000 * r c)]> l ->
  (forall j, 0 <= j <= c - 1 -> c - 1 - N < j -> l !! Z.to_nat (j mod N) = Some (MkHu (1000 * j) (1000 * r j))) ->
  forall j, 0 <= j <= c -> c - N < j -> hist hd' !! Z.to_nat (j mod N) = Some (MkHu (1000 * j) (1000 * r j)).
Proof using All.
  intros Hc Hl -> Hh j Hj1 Hj2. pose proof (Z.mod_pos_bound c N ltac:(lia)). pose proof (Z.mod_pos_bound j N ltac:(lia)).
  destruct (Z.eq_dec j c) as [->|Hne].
  - apply list_lookup_insert_eq. lia.
  - rewrite list_lookup_insert_ne; [apply Hh; lia |]. intros E. apply Z2Nat.inj in E; [| lia | lia].
    pose proof (Z.div_mod c N ltac:(lia)). pose proof (Z.div_mod j N ltac:(lia)).
    assert (Hq : c - j = N * (c / N - j / N)) by lia. assert (0 < c - j < N) by lia. rewrite Hq in *.
    destruct (Z.le_gt_cases (c / N - j / N) 0); nia.
Qed.

(** The extrapolation of the line, or 1. *)
Definition extrapolated (c : Z) : Z := let p := ramp w s (c + ahead) in if p <=? 0 then 1 else p.

(** A call after the first. *)
Lemma predict_step c hd : 1 <= c <= last -> ramp w s (c + ahead) < 2 ^ 32 -> hist_ok (c - 1) hd ->
  exists hd', predict_srv (MkHst ahead N c []) hd (r c) = Ok (hd', extrapolated c) /\ hist_ok c hd'.
Proof using All.
  intros Hc Hp Hok. unfold predict_srv. cbn [counter slot_n RatioPredict.ahead].
  pose proof (Z.mod_pos_bound c N ltac:(lia)) as Hm. destruct (ramp_range c) as [Hr Hsc]; [lia |].
  rewrite (proj2 (Z.eqb_neq N 0)), (s32_small (c mod N)) by lia.
  replace (c * MUL) with (1000 * c) by (unfold MUL; lia). replace (r c * MUL) with (1000 * r c) by (unfold MUL; lia).
  rewrite !(u64_small (1000 * c)), !(s64_small (1000 * c)), (s64_small (1000 * r c)), (u64_small (c + ahead)), (s64_small (c + ahead)) by lia.
  assert (Ha : averages (MkHst ahead N c []) hd (c mod N) (1000 * c) (1000 * r c) = Ok (averages_of c hd)).
  { destruct (Z.lt_ge_cases c N) as [Hlt|Hge]; [| apply averages_slide; [lia | done]].
    rewrite Z.mod_small by lia. apply averages_first; [lia | lia | done]. }
  rewrite Ha. cbn [hist averages_of]. destruct Hok as [Hlen Hh _ _ _ _].
  unfold zlen. rewrite Hlen, (proj2 (Z.leb_le _ _)), (proj2 (Z.ltb_lt _ _)) by lia. cbn [andb negb].
  rewrite !u64_small by lia.
  set (l := <[_ := _]> (hist hd)).
  destruct (coefficients_linear c (set_hist l hd) Hc) as (hd' & Hco & Ea & Eb & Ehist & Ec & Er & Ecr & Esq).
  change (set_hist l (averages_of c hd)) with (averages_of c (set_hist l hd)). rewrite Hco, Ea, Eb.
  assert (Hpr : - 2 ^ 62 < s * (c + ahead) < 2 ^ 62) by (clear -Hs Hahead Hc Hcalls; nia).
  exists hd'. rewrite (s64_small (s * (c + ahead))), (s64_small (w + _)) by lia. fold (ramp w s (c + ahead)). split.
  - fold (extrapolated c). rewrite u32_small; [done |]. unfold is_u32, extrapolated. cbv zeta.
    destruct (Z.leb_spec (ramp w s (c + ahead)) 0); lia.
  - constructor; try done.
    + rewrite Ehist. simpl. subst l. by rewrite length_insert.
    + apply (hist_next c hd' (hist hd)); [lia | done | by rewrite Ehist | done].
Qed.

Lemma predict_start : exists hd' p, predict_srv (MkHst ahead N 0 []) (new_hd n) (r 0) = Ok (hd', p) /\ hist_ok 0 hd'.
Proof using All.
  assert (E0 : r 0 = w) by (subst r; unfold ramp; lia).
  unfold predict_srv. cbn [counter slot_n RatioPredict.ahead]. rewrite (proj2 (Z.eqb_neq N 0)) by lia.
  rewrite Z.mod_0_l, Z.mul_0_l by lia. change (s32 0) with 0. change (u64 0) with 0. change (s64 0) with 0.
  rewrite E0. replace (w * MUL) with (1000 * w) by (unfold MUL; lia). rewrite (s64_small (1000 * w)) by lia.
  unfold averages. cbn [counter slot_n]. rewrite (proj2 (Z.ltb_lt 0 N)) by lia.
  cbn [new_hd cnt_avg rtt_avg cnt_rtt_avg cnt_sq_avg hist coeff_a coeff_b]. change (s32 (0 + 1)) with 1.
  rewrite !Z.mul_0_l. change (s64 0) with 0. rewrite !Z.add_0_l. change (s64 0) with 0. rewrite (s64_small (1000 * w)) by lia.
  rewrite (sdiv_exact (1000 * w) 1 (1000 * w)) by lia. change (sdiv 0 1) with (Ok 0). cbn [hist].
  unfold zlen. rewrite length_replicate, (proj2 (Z.ltb_lt 0 (Z.of_nat n))) by lia. cbn [andb negb Z.leb Z.compare].
  rewrite (u64_small (1000 * w)) by lia. unfold coefficients.
  cbn [set_hist cnt_sq_avg cnt_avg_sq cnt_avg rtt_avg cnt_rtt_avg cnt_avg_rtt_avg hist]. rewrite !Z.mul_0_l. change (s64 0) with 0.
  cbn [Z.eqb]. eexists _, _. split; [done |].
  assert (Em : mean N 0 = 0) by (unfold mean; lia). assert (Ed : forall q, deviation q N 0 = 0) by (intros q; unfold deviation; rewrite Z.min_l by lia; change (Z.to_nat 0) with 0%nat; cbn [sq_mean]; lia).
  constructor; cbn [hist cnt_avg rtt_avg cnt_rtt_avg cnt_sq_avg]; rewrite ?Em, ?Ed.
  - by rewrite length_insert, length_replicate.
  - intros j Hj _. assert (j = 0) as -> by lia. rewrite Z.mod_0_l, E0 by lia. apply list_lookup_insert_eq.
    rewrite length_replicate. simpl. lia.
  - done.
  - lia.
  - done.
  - done.
Qed.

Lemma predict_run_ok k : Z.of_nat k <= last -> (forall j, 0 <= j <= Z.of_nat k -> ramp w s (j + ahead) < 2 ^ 32) ->
  exists hd p, predict_run n ahead r k = Ok (hd, p) /\ hist_ok (Z.of_nat k) hd /\ (1 <= Z.of_nat k -> p = extrapolated (Z.of_nat k)).
Proof using All.
  induction k as [|k IH]; intros Hk Hp.
  - destruct predict_start as (hd & p & H1 & H2). exists hd, p. split; [exact H1 |]. split; [exact H2 | intros ?; lia].
  - destruct IH as (hd & p & Hr & Hok & _); [lia | intros; apply Hp; lia |]. cbn [predict_run]. rewrite Hr. cbn [fst].
    destruct (predict_step (Z.of_nat (S k)) hd) as (hd' & Hr' & Hok'); [lia | apply Hp; lia | |].
    { by replace (Z.of_nat (S k) - 1) with (Z.of_nat k) by lia. }
    exists hd', (extrapolated (Z.of_nat (S k))). split; [exact Hr' |]. by split.
Qed.
End Linear.

(** C37: when the response time of a server changes linearly, [w + s * j] ms at the call number [j] of the timer function (or
    not at all, for [s = 0]), the predicted response time of every call but the first is exactly the value of that line
    [ahead] calls later, or 1 if the line is not positive there: for slopes up to 100000 ms per call, times of 1 to 1000000 ms,
    any window of 2 to 2400 slots and any number of calls below [2 ^ 30].  Neither the rounding of
    the averages, nor the sliding window, nor the wrap-around of the squares of the call numbers
    (from some three million calls on) makes a difference.  Windows of one slot, which the configuration allows, and the
    first call are different ([predict_one_slot], [predict_first]). *)
Theorem ratio_predict_linear n ahead w s k :
  2 <= Z.of_nat n <= 2400 -> 0 <= ahead < 2 ^ 32 -> Z.abs s <= 100000 -> 1 <= Z.of_nat k < 2 ^ 30 ->
  1 <= ramp w s 0 <= 1000000 -> 1 <= ramp w s (Z.of_nat k) <= 1000000 ->
  ramp w s ahead < 2 ^ 32 -> ramp w s (Z.of_nat k + ahead) < 2 ^ 32 ->
  let p := ramp w s (Z.of_nat k + ahead) in
  exists hd, predict_run n ahead (ramp w s) k = Ok (hd, if p <=? 0 then 1 else p).
Proof.
  intros Hn Ha Hs Hk Hw Hl Hp0 Hpk p. assert (Hw' : 1 <= w <= 1000000) by (unfold ramp in Hw; lia).
  destruct (predict_run_ok n ahead w s (Z.of_nat k) Hn Ha Hw' Hl Hs ltac:(lia) k) as (hd & q & Hr & _ & Hq); [lia | |].
  { intros j Hj. unfold ramp in *. destruct (Z.le_gt_cases 0 s); nia. }
  exists hd. by rewrite Hr, Hq by lia.
Qed.

(** The response time falls by 3 ms per call from 137 ms; on the call number 30 it is 47 ms, and 41 ms are predicted for
    two calls later. *)
Lemma ratio_predict_linear_witness : exists hd, predict_run 5 2 (ramp 137 (-3)) 30 = Ok (hd, 41).
Proof. apply (ratio_predict_linear 5 2 137 (-3) 30); vm_compute; intuition discriminate. Defined.

(** A window of one slot, which the configuration allows, has no slope: the prediction of a constant
    response time drifts and becomes 1 once there were more calls than milliseconds. *)
Lemma predict_one_slot : exists hd, predict_run 1 1 (ramp 37 0) 50 = Ok (hd, 1).
Proof. eexists. vm_compute. reflexivity. Qed.

(** The first call predicts [ahead], whatever the response time. *)
Lemma predict_first : exists hd, predict_run 5 2 (ramp 37 0) 0 = Ok (hd, 2).
Proof. eexists. vm_compute. reflexivity. Qed.
