(* ===== verification/RatioGroup.v ===== *)
(** * The ratio scheduler: groups

    [fw/http_sched_ratio.c], the life of a group: [tfw_sched_ratio_add_grp()] allocates the
    descriptors of the servers, their arrays of connections, the scheduler data and, for the
    predictive scheduler, the history; timer functions replace the scheduler data; a group is
    deleted by [tfw_sched_ratio_del_grp()].  Memory is a set of live blocks; an allocation can
    fail, to free a block that is not live is a [Bug].  RCU callbacks run at once.

    The theorem: whatever allocations fail, adding a group returns, and fails without a leak or
    leaves the blocks of the group; after any timer runs deleting the group frees them all
    ([ratio_group_memory]). *)

From S2P Require Import Prelude SchedRatio RatioCalc RatioPredict.

#[local] Open Scope Z_scope.

(** ** Memory *)

(** [h_oom]: whether each of the next allocations fails; those after the list succeed. *)
Record heap := MkHeap { h_next : nat; h_live : list nat; h_oom : list bool }.

Definition kzalloc (h : heap) : option nat * heap :=
  match h_oom h with
  | true :: l => (None, MkHeap (h_next h) (h_live h) l)
  | l => (Some (h_next h), MkHeap (S (h_next h)) (h_next h :: h_live h) (tail l))
  end.

Definition remove_blk (b : nat) (l : list nat) : list nat := filter (fun x => x <> b) l.

Definition kfree (p : option nat) (h : heap) : outcome heap :=
  match p with
  | None => Ok h
  | Some b => if decide (b ∈ h_live h) then Ok (MkHeap (h_next h) (remove_blk b (h_live h)) (h_oom h)) else Bug
  end.

Definition EEXIST : Z := 17.

(** ** Data *)

Record SrvCfg := MkSrvCfg { cfg_conn_list : list nat; cfg_conn_n : nat; cfg_weight : Z }.

Inductive RatioType := RATIO_STATIC | RATIO_DYNAMIC | RATIO_PREDICT | RATIO_OTHER.
Record TfwSchrefPredict := MkSchref { past : Z; rate : Z; sch_ahead : Z }.

Record SgCfg := MkSgCfg { sg_srv_list : list SrvCfg; sg_srv_n : nat; sg_type : RatioType }.

(** A descriptor in a group: the block of [conn] and the connections there. *)
Record SrvDesc := MkSlot { slot_conn : option nat; slot_conns : list nat }.
Definition zero_slot : SrvDesc := MkSlot None [].

(** The blocks of [ratio], [hstdata] and [rtodata] with what is there; [r_rearm] tells whether the
    timer is armed. *)
Record TfwRatio := MkRatio {
  r_blk : nat;
  r_desc : list SrvDesc;
  r_hst : option nat;
  r_hstdata : option TfwRatioHstData;
  r_rto : option nat;
  r_rtodata : option TfwRatioData;
  r_rearm : bool
}.

Definition set_r_desc v r := MkRatio (r_blk r) v (r_hst r) (r_hstdata r) (r_rto r) (r_rtodata r) (r_rearm r).
Definition set_r_hst b v r := MkRatio (r_blk r) (r_desc r) b v (r_rto r) (r_rtodata r) (r_rearm r).
Definition set_r_rto b v r := MkRatio (r_blk r) (r_desc r) (r_hst r) (r_hstdata r) b v (r_rearm r).
Definition set_r_rearm v r := MkRatio (r_blk r) (r_desc r) (r_hst r) (r_hstdata r) (r_rto r) (r_rtodata r) v.

(** ** Descriptors *)

(** [list_for_each_entry] over the connections; [None] is [goto err]. *)
Fixpoint fill_conns (ci conn_n : nat) (l : list nat) : option (list nat) :=
  match l with
  | [] => if (ci =? conn_n)%nat then Some [] else None
  | c :: l => if (ci =? conn_n)%nat then None else cons c <$> fill_conns (S ci) conn_n l
  end.

(** The error, the descriptor, the memory; on [err] the block is freed and the pointer stays. *)
Definition tfw_sched_ratio_srvdesc_setup_srv (srv : SrvCfg) (h : heap) : outcome (Z * SrvDesc * heap) :=
  let '(b, h) := kzalloc h in
  match b with
  | None => Ok (- ENOMEM, zero_slot, h)
  | Some _ =>
      match fill_conns 0 (cfg_conn_n srv) (cfg_conn_list srv) with
      | Some l => Ok (0, MkSlot b l, h)
      | None => let! h := kfree b h in Ok (- EINVAL, MkSlot b [], h)
      end
  end.

(** The loop over the servers; [desc] are the descriptors from [si] on. *)
Fixpoint srvdesc_setup_loop (srv_n si : nat) (l : list SrvCfg) (desc : list SrvDesc) (h : heap)
    : outcome (Z * list SrvDesc * heap) :=
  match l with
  | [] => Ok (if (si =? srv_n)%nat then 0 else - EINVAL, desc, h)
  | srv :: l =>
      if (si =? srv_n)%nat || (cfg_conn_n srv =? 0)%nat || (match cfg_conn_list srv with [] => true | _ => false end)
      then Ok (- EINVAL, desc, h)
      else match desc with
      | [] => Bug
      | _ :: desc =>
          let! r := tfw_sched_ratio_srvdesc_setup_srv srv h in
          let '(err, slot, h) := r in
          if err =? 0 then
            let! r := srvdesc_setup_loop srv_n (S si) l desc h in
            let '(err, desc, h) := r in Ok (err, slot :: desc, h)
          else Ok (err, slot :: desc, h)
      end
  end.

Definition tfw_sched_ratio_srvdesc_setup (sg : SgCfg) (desc : list SrvDesc) (h : heap) : outcome (Z * list SrvDesc * heap) :=
  srvdesc_setup_loop (sg_srv_n sg) 0 (sg_srv_list sg) desc h.

(** ** Groups *)

Fixpoint free_conns (desc : list SrvDesc) (h : heap) : outcome heap :=
  match desc with
  | [] => Ok h
  | s :: desc => let! h := kfree (slot_conn s) h in free_conns desc h
  end.

Definition tfw_sched_ratio_cleanup (r : TfwRatio) (h : heap) : outcome heap :=
  let! h := free_conns (r_desc r) h in
  let! h := kfree (r_hst r) h in
  let! h := kfree (r_rto r) h in
  kfree (Some (r_blk r)) h.

Definition tfw_sched_ratio_add_grp_common (sg : SgCfg) (h : heap) : outcome (option TfwRatio * heap) :=
  let '(b, h) := kzalloc h in
  match b with
  | None => Ok (None, h)
  | Some blk =>
      let r := MkRatio blk (replicate (sg_srv_n sg) zero_slot) None None None None false in
      let! s := tfw_sched_ratio_srvdesc_setup sg (r_desc r) h in
      let '(err, desc, h) := s in
      let r := set_r_desc desc r in
      if negb (err =? 0) then let! h := tfw_sched_ratio_cleanup r h in Ok (None, h)
      else
        let '(b, h) := kzalloc h in
        match b with
        | None => let! h := tfw_sched_ratio_cleanup r h in Ok (None, h)
        | Some _ => Ok (Some (set_r_rto b None r), h)
        end
  end.

Section Sort.
Variable sort : (TfwRatioSrvData -> TfwRatioSrvData -> Z) -> list TfwRatioSrvData -> list TfwRatioSrvData.

Definition calc_static (sg : SgCfg) (r : TfwRatio) : outcome TfwRatio :=
  let! d := tfw_sched_ratio_calc_static sort (sg_srv_n sg) (cfg_weight <$> sg_srv_list sg) in
  Ok (set_r_rto (r_rto r) (Some d) r).

Definition tfw_sched_ratio_add_grp_static (sg : SgCfg) (h : heap) : outcome (option TfwRatio * heap) :=
  let! s := tfw_sched_ratio_add_grp_common sg h in
  let '(r, h) := s in
  match r with
  | None => Ok (None, h)
  | Some r => let! r := calc_static sg r in Ok (Some r, h)
  end.

Definition new_hstdata (sg : SgCfg) (schref : TfwSchrefPredict) : TfwRatioHstData :=
  let n := past schref * rate schref in
  MkHst (sch_ahead schref * rate schref) n 0 (replicate (sg_srv_n sg) (new_hd (Z.to_nat n))).

Definition tfw_sched_ratio_add_grp_dynamic (sg : SgCfg) (schref : option TfwSchrefPredict) (h : heap)
    : outcome (option TfwRatio * heap) :=
  let! s := tfw_sched_ratio_add_grp_common sg h in
  let '(r, h) := s in
  match r with
  | None => Ok (None, h)
  | Some r =>
      match sg_type sg with
      | RATIO_PREDICT =>
          let? sr := schref in
          let '(b, h) := kzalloc h in
          match b with
          | None => let! h := tfw_sched_ratio_cleanup r h in Ok (None, h)
          | Some _ =>
              let! r := calc_static sg (set_r_hst b (Some (new_hstdata sg sr)) r) in
              Ok (Some (set_r_rearm true r), h)
          end
      | RATIO_DYNAMIC => let! r := calc_static sg r in Ok (Some (set_r_rearm true r), h)
      | _ => let! r := calc_static sg r in Ok (Some r, h)
      end
  end.

(** The error and [sg->sched_data]. *)
Definition tfw_sched_ratio_add_grp (sg : SgCfg) (schref : option TfwSchrefPredict) (h : heap)
    : outcome (Z * option TfwRatio * heap) :=
  if (sg_srv_n sg =? 0)%nat || (match sg_srv_list sg with [] => true | _ => false end) then Ok (- EINVAL, None, h)
  else
    match sg_type sg with
    | RATIO_OTHER => Ok (- EINVAL, None, h)
    | RATIO_STATIC =>
        let! s := tfw_sched_ratio_add_grp_static sg h in
        Ok (match s.1 with Some _ => 0 | None => - EINVAL end, s.1, s.2)
    | _ =>
        let! s := tfw_sched_ratio_add_grp_dynamic sg schref h in
        Ok (match s.1 with Some _ => 0 | None => - EINVAL end, s.1, s.2)
    end.

(** Timer functions: the new data replace the current ones, which are freed; without memory
    the current ones stay. *)
Definition tfw_sched_ratio_calc_tmfn (calc_fn : TfwRatio -> outcome (TfwRatio * TfwRatioData)) (r : TfwRatio) (h : heap)
    : outcome (TfwRatio * heap) :=
  let '(b, h) := kzalloc h in
  match b with
  | None => Ok (r, h)
  | Some _ =>
      let! s := calc_fn r in
      let '(r, d) := s in
      let old := r_rto r in
      let! h := kfree old h in
      Ok (set_r_rto b (Some d) r, h)
  end.

Definition tfw_sched_ratio_dynamic_tmfn (rtts : list Z) : TfwRatio -> heap -> outcome (TfwRatio * heap) :=
  tfw_sched_ratio_calc_tmfn (fun r =>
    let! d := tfw_sched_ratio_calc_dynamic sort (length (r_desc r)) rtts in Ok (r, d)).

Definition tfw_sched_ratio_predict_tmfn (rtts : list Z) : TfwRatio -> heap -> outcome (TfwRatio * heap) :=
  tfw_sched_ratio_calc_tmfn (fun r =>
    let? hs := r_hstdata r in
    let! s := tfw_sched_ratio_calc_predict sort (length (r_desc r)) hs rtts in
    Ok (set_r_hst (r_hst r) (Some s.1) r, s.2)).
End Sort.

Definition tfw_sched_ratio_del_grp (r : option TfwRatio) (h : heap) : outcome heap :=
  match r with
  | None => Ok h
  | Some r => tfw_sched_ratio_cleanup (set_r_rearm false r) h
  end.

(** ** Servers outside groups *)

(** [srv->sched_data] of such a server: the block and the descriptor. *)
Definition tfw_sched_ratio_add_srv (sd : option (nat * SrvDesc)) (srv : SrvCfg) (h : heap)
    : outcome (Z * option (nat * SrvDesc) * heap) :=
  match sd with
  | Some _ => Ok (- EEXIST, sd, h)
  | None =>
      let '(b, h) := kzalloc h in
      match b with
      | None => Ok (- ENOMEM, None, h)
      | Some blk =>
          let! s := tfw_sched_ratio_srvdesc_setup_srv srv h in
          let '(err, slot, h) := s in
          if err =? 0 then Ok (0, Some (blk, slot), h)
          else let! h := kfree b h in Ok (err, None, h)
      end
  end.

Definition tfw_sched_ratio_del_srv (sd : option (nat * SrvDesc)) (h : heap) : outcome heap :=
  match sd with
  | None => Ok h
  | Some (blk, slot) => let! h := kfree (slot_conn slot) h in kfree (Some blk) h
  end.

(** ** What is allocated *)

Record heap_ok (h : heap) : Prop := {
  hk_nodup : NoDup (h_live h);
  hk_next : Forall (fun b => (b < h_next h)%nat) (h_live h)
}.

(** The blocks [bs] are live besides those of [base]. *)
Record holds (base bs : list nat) (h : heap) : Prop := {
  hd_ok : heap_ok h;
  hd_live : h_live h ≡ₚ bs ++ base
}.

#[global] Instance holds_proper base : Proper ((≡ₚ) ==> eq ==> iff) (holds base).
Proof. intros bs bs' Hbs h _ <-. split; intros [? Hl]; constructor; try done; by rewrite Hl, ?Hbs, <- ?Hbs. Qed.

Lemma kzalloc_holds base bs h : holds base bs h ->
  exists b h', kzalloc h = (b, h') /\ holds base (option_list b ++ bs) h'.
Proof.
  intros [[Hnd Hnx] Hl]. unfold kzalloc.
  assert (Hnew : forall l, holds base (h_next h :: bs) (MkHeap (S (h_next h)) (h_next h :: h_live h) l)).
  { intros l. constructor; [constructor |]; simpl.
    - constructor; [| done]. intros Hin. rewrite Forall_forall in Hnx. specialize (Hnx _ Hin). lia.
    - constructor; [lia |]. eapply Forall_impl; [exact Hnx |]. simpl. lia.
    - by rewrite Hl. }
  destruct (h_oom h) as [|[] l].
  - exists (Some (h_next h)). eexists. split; [done |]. apply Hnew.
  - exists None. eexists. split; [done |]. by constructor.
  - exists (Some (h_next h)). eexists. split; [done |]. apply Hnew.
Qed.

Lemma remove_blk_out b l : b ∉ l -> remove_blk b l = l.
Proof.
  unfold remove_blk. induction l as [|x l IH]; [done |]. rewrite not_elem_of_cons. intros [Hx Hl].
  by rewrite filter_cons_True, IH by congruence.
Qed.

Lemma remove_blk_perm b l : NoDup l -> b ∈ l -> b :: remove_blk b l ≡ₚ l.
Proof.
  intros Hnd Hin. apply elem_of_Permutation in Hin as [l' Hl]. rewrite Hl in Hnd. apply NoDup_cons in Hnd as [Hni Hnd].
  assert (Hr : remove_blk b l ≡ₚ remove_blk b (b :: l')) by (unfold remove_blk; by rewrite Hl).
  rewrite Hr, Hl. f_equiv. unfold remove_blk at 1. rewrite filter_cons_False by (intros H; by apply H).
  fold (remove_blk b l'). by rewrite remove_blk_out.
Qed.

Lemma kfree_holds base p bs h : holds base (option_list p ++ bs) h ->
  exists h', kfree p h = Ok h' /\ holds base bs h'.
Proof.
  destruct p as [b|]; simpl; [| by exists h]. intros [[Hnd Hnx] Hl].
  assert (Hin : b ∈ h_live h) by (rewrite Hl; constructor). rewrite decide_True by done.
  eexists. split; [done |]. pose proof (remove_blk_perm b (h_live h) Hnd Hin) as Hp.
  constructor; [constructor |]; simpl.
  - rewrite <- Hp in Hnd. by apply NoDup_cons in Hnd as [_ Hnd].
  - rewrite <- Hp in Hnx. by apply Forall_cons in Hnx as [_ Hnx].
  - rewrite Hl in Hp at 2. by apply Permutation_cons_inv in Hp.
Qed.

(** The blocks of a group. *)
Definition conn_blocks (desc : list SrvDesc) : list nat := omap slot_conn desc.
Definition blocks (r : TfwRatio) : list nat :=
  conn_blocks (r_desc r) ++ option_list (r_hst r) ++ option_list (r_rto r) ++ [r_blk r].

Lemma free_conns_holds base desc : forall bs h, holds base (conn_blocks desc ++ bs) h ->
  exists h', free_conns desc h = Ok h' /\ holds base bs h'.
Proof.
  induction desc as [|s desc IH]; intros bs h Hh; [by exists h |]. cbn [free_conns].
  destruct (kfree_holds base (slot_conn s) (conn_blocks desc ++ bs) h) as (h1 & -> & H1).
  { unfold conn_blocks in *. simpl in Hh. by destruct (slot_conn s). }
  by apply IH.
Qed.

Lemma cleanup_holds base r bs h : holds base (blocks r ++ bs) h ->
  exists h', tfw_sched_ratio_cleanup r h = Ok h' /\ holds base bs h'.
Proof.
  intros Hh. unfold tfw_sched_ratio_cleanup. unfold blocks in Hh. rewrite <- !app_assoc in Hh.
  destruct (free_conns_holds _ _ _ _ Hh) as (h1 & -> & H1).
  destruct (kfree_holds _ _ _ _ H1) as (h2 & -> & H2).
  destruct (kfree_holds _ _ _ _ H2) as (h3 & -> & H3).
  apply (kfree_holds base (Some (r_blk r)) bs h3 H3).
Qed.

(** ** Configurations *)

Definition srv_ok (srv : SrvCfg) : Prop := length (cfg_conn_list srv) = cfg_conn_n srv.

Lemma fill_conns_ok n l : forall ci, (ci + length l)%nat = n -> fill_conns ci n l = Some l.
Proof.
  induction l as [|c l IH]; intros ci Hci; cbn [fill_conns]; simpl length in Hci.
  - by rewrite (proj2 (Nat.eqb_eq ci n)) by lia.
  - rewrite (proj2 (Nat.eqb_neq ci n)) by lia. by rewrite IH by lia.
Qed.

Lemma setup_srv_holds base bs srv h : srv_ok srv -> holds base bs h ->
  exists err slot h', tfw_sched_ratio_srvdesc_setup_srv srv h = Ok (err, slot, h') /\
    holds base (option_list (slot_conn slot) ++ bs) h'.
Proof.
  intros Hs Hh. unfold tfw_sched_ratio_srvdesc_setup_srv. destruct (kzalloc_holds _ _ _ Hh) as (b & h1 & -> & H1).
  destruct b as [b|].
  - rewrite fill_conns_ok by done. by exists 0, (MkSlot (Some b) (cfg_conn_list srv)), h1.
  - by exists (- ENOMEM), zero_slot, h1.
Qed.

Lemma zero_slots m : conn_blocks (replicate m zero_slot) = [].
Proof. by induction m. Qed.

Lemma setup_loop_holds base srv_n l : forall si m bs h, Forall srv_ok l -> (si + m)%nat = srv_n -> holds base bs h ->
  exists err desc h', srvdesc_setup_loop srv_n si l (replicate m zero_slot) h = Ok (err, desc, h') /\
    length desc = m /\ holds base (conn_blocks desc ++ bs) h'.
Proof.
  induction l as [|srv l IH]; intros si m bs h Hl Hm Hh; cbn [srvdesc_setup_loop].
  - eexists _, _, h. split; [done |]. rewrite length_replicate, zero_slots. done.
  - apply Forall_cons in Hl as [Hs Hl]. destruct (_ || _ || _) eqn:Eg.
    { eexists _, _, h. split; [done |]. rewrite length_replicate, zero_slots. done. }
    destruct m as [|m].
    { rewrite Nat.add_0_r in Hm. subst si. by rewrite Nat.eqb_refl in Eg. }
    cbn [replicate]. destruct (setup_srv_holds _ _ _ _ Hs Hh) as (err & slot & h1 & -> & H1).
    destruct (err =? 0).
    + destruct (IH (S si) m (option_list (slot_conn slot) ++ bs) h1) as (err' & desc & h2 & -> & Hlen & H2); [done | lia | done |].
      exists err', (slot :: desc), h2. split; [done |]. split; [simpl; lia |].
      unfold conn_blocks in *. cbn [omap list_omap]. destruct (slot_conn slot); simpl in *; [| done].
      by rewrite Permutation_middle.
    + eexists _, _, h1. split; [done |]. split; [simpl; by rewrite length_replicate |].
      unfold conn_blocks. cbn [omap list_omap]. pose proof (zero_slots m) as Hz. unfold conn_blocks in Hz.
      unfold omap in *. by destruct (slot_conn slot); simpl in *; rewrite Hz.
Qed.

Record sg_cfg_ok (sg : SgCfg) : Prop := {
  sgc_n : length (sg_srv_list sg) = sg_srv_n sg;
  sgc_srv : Forall srv_ok (sg_srv_list sg);
  sgc_weights : weights_ok (cfg_weight <$> sg_srv_list sg)
}.

Lemma add_grp_common_holds base sg h : sg_cfg_ok sg -> holds base [] h ->
  exists r h', tfw_sched_ratio_add_grp_common sg h = Ok (r, h') /\
    match r with
    | None => holds base [] h'
    | Some r => holds base (blocks r) h' /\ length (r_desc r) = sg_srv_n sg /\ r_hst r = None
    end.
Proof.
  intros [Hn Hs _] Hh. unfold tfw_sched_ratio_add_grp_common.
  destruct (kzalloc_holds _ _ _ Hh) as (b & h1 & -> & H1). destruct b as [blk|]; [| by exists None, h1].
  simpl in H1. cbn [r_desc]. unfold tfw_sched_ratio_srvdesc_setup.
  destruct (setup_loop_holds base (sg_srv_n sg) (sg_srv_list sg) 0 (sg_srv_n sg) [blk] h1) as (err & desc & h2 & -> & Hlen & H2);
    [done | done | done |].
  set (r := set_r_desc desc _).
  assert (Hcl : exists h', tfw_sched_ratio_cleanup r h2 = Ok h' /\ holds base [] h').
  { apply cleanup_holds. unfold blocks. simpl. by rewrite app_nil_r. }
  destruct (negb (err =? 0)).
  { destruct Hcl as (h3 & -> & H3). by exists None, h3. }
  destruct (kzalloc_holds _ _ _ H2) as (b & h3 & -> & H3). destruct b as [b|].
  - exists (Some (set_r_rto (Some b) None r)), h3. split; [done |]. split_and!; [| done | done].
    unfold blocks. simpl in *. by rewrite <- Permutation_middle.
  - assert (Hr : holds base (blocks r ++ []) h3) by (unfold blocks; simpl in *; by rewrite app_nil_r).
    destruct (cleanup_holds _ _ _ _ Hr) as (h4 & -> & H4). by exists None, h4.
Qed.

Section Life.
Context (sort : (TfwRatioSrvData -> TfwRatioSrvData -> Z) -> list TfwRatioSrvData -> list TfwRatioSrvData)
  `{Hsort : !SortSpec sort}.

Lemma calc_static_holds sg r : sg_cfg_ok sg ->
  exists r', calc_static sort sg r = Ok r' /\ blocks r' = blocks r /\ length (r_desc r') = length (r_desc r).
Proof using Hsort.
  intros [Hn _ Hw]. unfold calc_static. destruct (calc_static_ok sort _ Hw) as (sd & Hrun & _).
  rewrite length_fmap, Hn in Hrun. rewrite Hrun. eexists. by split.
Qed.

(** What adding a group leaves. *)
Definition added (base : list nat) (sg : SgCfg) (r : option TfwRatio) (h : heap) : Prop :=
  match r with
  | None => holds base [] h
  | Some r => holds base (blocks r) h /\ length (r_desc r) = sg_srv_n sg
  end.

Lemma add_failed base sg h : holds base [] h ->
  exists err r h', Ok (- EINVAL, None, h) = Ok (err, r, h') /\ (err = 0 <-> r <> None) /\ added base sg r h'.
Proof using. intros Hh. exists (- EINVAL), None, h. split_and!; [done | split; done | done]. Qed.

Lemma add_grp_holds base sg schref h : sg_cfg_ok sg -> (sg_type sg = RATIO_PREDICT -> schref <> None) -> holds base [] h ->
  exists err r h', tfw_sched_ratio_add_grp sort sg schref h = Ok (err, r, h') /\
    (err = 0 <-> r <> None) /\ added base sg r h'.
Proof using Hsort.
  intros Hsg Href Hh. unfold tfw_sched_ratio_add_grp.
  destruct (_ || _); [by apply add_failed |].
  assert (Hcalc : forall r h1, holds base (blocks r) h1 -> length (r_desc r) = sg_srv_n sg ->
    exists r', calc_static sort sg r = Ok r' /\ forall v, added base sg (Some (set_r_rearm v r')) h1 /\ added base sg (Some r') h1).
  { intros r h1 H1 Hl. destruct (calc_static_holds sg r Hsg) as (r' & Hr & Hb & Hl'). exists r'. split; [done |].
    intros v. unfold added, blocks in *. simpl. rewrite Hb, Hl'. done. }
  destruct (add_grp_common_holds base sg h Hsg Hh) as (r & h1 & Hrun & Hr).
  destruct (sg_type sg) eqn:Ety; [| | | by apply add_failed].
  - unfold tfw_sched_ratio_add_grp_static. rewrite Hrun. destruct r as [r|].
    + destruct Hr as (H1 & Hl & _). destruct (Hcalc r h1 H1 Hl) as (r' & -> & Ha).
      exists 0, (Some r'), h1. split_and!; [done | split; done | by apply (Ha false)].
    + by apply add_failed.
  - unfold tfw_sched_ratio_add_grp_dynamic. rewrite Hrun, Ety. destruct r as [r|].
    + destruct Hr as (H1 & Hl & _). destruct (Hcalc r h1 H1 Hl) as (r' & -> & Ha).
      exists 0, (Some (set_r_rearm true r')), h1. split_and!; [done | split; done | by apply (Ha true)].
    + by apply add_failed.
  - unfold tfw_sched_ratio_add_grp_dynamic. rewrite Hrun, Ety. destruct r as [r|].
    + destruct Hr as (H1 & Hl & Hhst). destruct schref as [sr|]; [| by destruct (Href eq_refl)].
      destruct (kzalloc_holds _ _ _ H1) as (b & h2 & -> & H2). destruct b as [b|].
      * set (r1 := set_r_hst _ _ r).
        destruct (Hcalc r1 h2) as (r' & -> & Ha); [| done |].
        { unfold blocks in *. simpl in *. rewrite Hhst in H2. simpl in H2. by rewrite <- Permutation_middle. }
        exists 0, (Some (set_r_rearm true r')), h2. split_and!; [done | split; done | by apply (Ha true)].
      * destruct (cleanup_holds base r [] h2) as (h3 & -> & H3); [by rewrite app_nil_r |].
        by apply add_failed.
    + by apply add_failed.
Qed.

(** A timer function that keeps the blocks, or just lacks memory. *)
Lemma tmfn_holds base sg calc_fn r h : added base sg (Some r) h ->
  (exists r' d, calc_fn r = Ok (r', d) /\ blocks r' = blocks r /\ r_desc r' = r_desc r /\
     r_hst r' = r_hst r /\ r_rto r' = r_rto r /\ r_blk r' = r_blk r) ->
  exists r' h', tfw_sched_ratio_calc_tmfn calc_fn r h = Ok (r', h') /\ added base sg (Some r') h'.
Proof using.
  intros [Hh Hl] (r1 & d & Hrun & Hb & Hdesc & Hhst & Hrto & Hblk). unfold tfw_sched_ratio_calc_tmfn.
  destruct (kzalloc_holds _ _ _ Hh) as (b & h1 & -> & H1). destruct b as [b|]; [| by exists r, h1].
  rewrite Hrun. unfold blocks in *. simpl in H1.
  destruct (kfree_holds base (r_rto r1) (b :: conn_blocks (r_desc r) ++ option_list (r_hst r) ++ [r_blk r]) h1)
    as (h2 & -> & H2).
  { rewrite Hrto. revert H1. apply holds_proper; [| done].
    rewrite (Permutation_app_comm (option_list (r_rto r))). simpl. f_equiv. rewrite <- !app_assoc. do 2 f_equiv.
    apply Permutation_app_comm. }
  eexists _, h2. split; [done |]. split; [| by simpl; rewrite Hdesc].
  unfold blocks. simpl. rewrite Hdesc, Hhst, Hblk. revert H2. apply holds_proper; [| done].
  rewrite !app_assoc, <- Permutation_middle. done.
Qed.

(** Each run of a timer function that returns keeps them. *)
Lemma tmfn_keeps base sg calc_fn r h r' h' : added base sg (Some r) h ->
  (forall r1 d, calc_fn r = Ok (r1, d) -> r_desc r1 = r_desc r /\ r_hst r1 = r_hst r /\ r_rto r1 = r_rto r /\ r_blk r1 = r_blk r) ->
  tfw_sched_ratio_calc_tmfn calc_fn r h = Ok (r', h') -> added base sg (Some r') h'.
Proof using.
  intros Ha Hc Hrun. destruct (calc_fn r) as [[r1 d]|] eqn:Ec.
  - destruct (Hc r1 d eq_refl) as (E1 & E2 & E3 & E4).
    destruct (tmfn_holds base sg calc_fn r h Ha) as (r2 & h2 & H2 & Ha2).
    { exists r1, d. unfold blocks. rewrite E1, E2, E3, E4. done. }
    rewrite H2 in Hrun. by simplify_eq.
  - unfold tfw_sched_ratio_calc_tmfn in Hrun. destruct Ha as [Hh Hl].
    destruct (kzalloc_holds _ _ _ Hh) as (b & h1 & E & H1). rewrite E in Hrun. destruct b; [by rewrite Ec in Hrun |].
    by simplify_eq.
Qed.

(** Timer runs of a group with response times, while the timer is armed; [ty] selects the function. *)
Fixpoint timers (ty : RatioType) (runs : list (list Z)) (r : TfwRatio) (h : heap) : outcome (TfwRatio * heap) :=
  match runs with
  | [] => Ok (r, h)
  | rtts :: runs =>
      let tmfn := match ty with RATIO_PREDICT => tfw_sched_ratio_predict_tmfn sort | _ => tfw_sched_ratio_dynamic_tmfn sort end in
      let! s := (if r_rearm r then tmfn rtts r h else Ok (r, h)) in
      timers ty runs s.1 s.2
  end.

Lemma timers_keep base sg ty runs : forall r h r' h', added base sg (Some r) h ->
  timers ty runs r h = Ok (r', h') -> added base sg (Some r') h'.
Proof using.
  induction runs as [|rtts runs IH]; intros r h r' h' Ha Hrun; cbn [timers] in Hrun; [by simplify_eq |].
  destruct (r_rearm r); [| by eapply IH].
  assert (Hstep : forall calc_fn s,
    (forall r1 d, calc_fn r = Ok (r1, d) -> r_desc r1 = r_desc r /\ r_hst r1 = r_hst r /\ r_rto r1 = r_rto r /\ r_blk r1 = r_blk r) ->
    tfw_sched_ratio_calc_tmfn calc_fn r h = Ok s -> added base sg (Some s.1) s.2).
  { intros calc_fn [r1 h1] Hc H1. by eapply tmfn_keeps. }
  cbv zeta in Hrun.
  destruct (match ty with RATIO_PREDICT => _ | _ => _ end rtts r h) as [s|] eqn:Es; [| done].
  eapply IH; [| exact Hrun].
  assert (Hd : tfw_sched_ratio_dynamic_tmfn sort rtts r h = Ok s -> added base sg (Some s.1) s.2).
  { apply Hstep. intros r1 d Hc. destruct (tfw_sched_ratio_calc_dynamic _ _ _); by simplify_eq. }
  destruct ty; [by apply Hd | by apply Hd | | by apply Hd]. revert Es. apply Hstep. intros r1 d Hc.
  destruct (r_hstdata r) as [hs|]; [| done].
  destruct (tfw_sched_ratio_calc_predict _ _ _ _) as [x|]; [| done]. by simplify_eq.
Qed.

Lemma timers_dynamic base sg ty runs : forall r h, ty <> RATIO_PREDICT -> added base sg (Some r) h ->
  Forall (fun rtts => length rtts = sg_srv_n sg /\ weights_ok (rtt_weight <$> rtts)) runs ->
  exists r' h', timers ty runs r h = Ok (r', h').
Proof using Hsort.
  induction runs as [|rtts runs IH]; intros r h Hty Ha Hruns; cbn [timers]; [by exists r, h |].
  apply Forall_cons in Hruns as [[Hn Hw] Hruns]. destruct (r_rearm r); [| by apply IH].
  destruct (tmfn_holds base sg (fun r => let! d := tfw_sched_ratio_calc_dynamic sort (length (r_desc r)) rtts in Ok (r, d)) r h Ha)
    as (r1 & h1 & Hrun & Ha1).
  - destruct Ha as [_ Hl]. unfold tfw_sched_ratio_calc_dynamic.
    destruct (max_of_pos _ Hw) as (? & ? & ? & ?).
    destruct (max_and_sum_spec (rtt_weight <$> rtts)) as (m & -> & Hm); [by destruct Hw | | lia |].
    { eapply Forall_impl; [exact (wo_pos _ Hw) |]. simpl. lia. }
    destruct (calc_dynamic_ok sort _ m Hsort Hw Hm) as (sd & Hcd & _). rewrite length_fmap, Hn, <- Hl in Hcd.
    rewrite Hcd. by eexists r, _.
  - assert (Hr : match ty with RATIO_PREDICT => tfw_sched_ratio_predict_tmfn sort | _ => tfw_sched_ratio_dynamic_tmfn sort end rtts r h
                 = Ok (r1, h1)) by (by destruct ty).
    cbv zeta. rewrite Hr. by apply IH.
Qed.
End Life.

(** C22: for a consistent configuration ([sg_cfg_ok]: the lists have the lengths that the group names and the weights fit),
    whatever allocations fail, adding a group
    returns; it fails and every block it allocated is freed, or succeeds and exactly the blocks of
    the group are live.  The timer runs of the dynamic scheduler, some of which may lack memory, return for response times
    that fit the calculation; behind any timer runs of the dynamic or the predictive scheduler that return, exactly the blocks of
    the group are live, and deleting the group returns, frees no block twice and leaves exactly the blocks that
    were live before.  On a list of connections that is not consistent a block is freed twice
    ([add_grp_double_free]). *)
Theorem ratio_group_memory sort sg schref runs h :
  SortSpec sort -> sg_cfg_ok sg -> (sg_type sg = RATIO_PREDICT -> schref <> None) -> heap_ok h ->
  exists err sd h1, tfw_sched_ratio_add_grp sort sg schref h = Ok (err, sd, h1) /\
    match sd with
    | None => err <> 0 /\ h_live h1 ≡ₚ h_live h
    | Some r =>
        err = 0 /\ h_live h1 ≡ₚ blocks r ++ h_live h /\
        (sg_type sg <> RATIO_PREDICT ->
         Forall (fun rtts => length rtts = sg_srv_n sg /\ weights_ok (rtt_weight <$> rtts)) runs ->
         exists r' h2, timers sort (sg_type sg) runs r h1 = Ok (r', h2)) /\
        (forall r' h2, timers sort (sg_type sg) runs r h1 = Ok (r', h2) ->
           h_live h2 ≡ₚ blocks r' ++ h_live h /\
           exists h3, tfw_sched_ratio_del_grp (Some r') h2 = Ok h3 /\ h_live h3 ≡ₚ h_live h)
    end.
Proof.
  intros Hsort Hsg Href Hh. assert (H0 : holds (h_live h) [] h) by (by constructor).
  destruct (add_grp_holds sort (h_live h) sg schref h Hsg Href H0) as (err & sd & h1 & Hrun & Herr & Ha).
  exists err, sd, h1. split; [done |]. destruct sd as [r|].
  - split; [by apply Herr |]. split; [by destruct Ha as [[] _] |]. split.
    + intros Hty Hruns. by eapply timers_dynamic.
    + intros r' h2 Ht. destruct (timers_keep sort _ _ _ _ _ _ _ _ Ha Ht) as [H2 _]. split; [by destruct H2 |].
      destruct (cleanup_holds (h_live h) (set_r_rearm false r') [] h2) as (h3 & Hc & H3); [by rewrite app_nil_r |].
      exists h3. split; [done | by destruct H3].
  - split; [| by destruct Ha]. intros E. by apply Herr in E.
Qed.

(** ** Examples *)

Definition ex_sg : SgCfg := MkSgCfg [MkSrvCfg [0; 1] 2 10; MkSrvCfg [2] 1 10]%nat 2 RATIO_DYNAMIC.

(** The same group with predicted response times: three slots of history, two calls ahead. *)
Definition ex_sg_predict : SgCfg := MkSgCfg (sg_srv_list ex_sg) 2 RATIO_PREDICT.

Definition ex_runs : list (list Z) := [[5; 0]; [7; 7]; [9; 4]; [3; 8]].

(** The third timer run of the predictive scheduler has no memory; deleting the group leaves the two blocks of others. *)
Lemma ratio_group_memory_witness :
  exists r h1 r' h2 h3,
    tfw_sched_ratio_add_grp merge_sorted ex_sg_predict (Some (MkSchref 3 1 2))
      (MkHeap 7 [3; 5]%nat (replicate 7 false ++ [true])) = Ok (0, Some r, h1) /\
    timers merge_sorted RATIO_PREDICT ex_runs r h1 = Ok (r', h2) /\ length (h_live h2) = 7%nat /\
    tfw_sched_ratio_del_grp (Some r') h2 = Ok h3 /\ h_live h3 ≡ₚ [3; 5]%nat.
Proof.
  destruct (ratio_group_memory merge_sorted ex_sg_predict (Some (MkSchref 3 1 2)) ex_runs
              (MkHeap 7 [3; 5]%nat (replicate 7 false ++ [true])))
    as (err & sd & h1 & H & Hm).
  - exact merge_sorted_sorts.
  - constructor; [done | repeat constructor | constructor; [done | vm_compute; repeat constructor; discriminate | done]].
  - discriminate.
  - constructor; [by apply (bool_decide_unpack _); vm_compute | repeat constructor; simpl; lia].
  - pose proof H as H0. vm_compute in H0. injection H0 as <- <- <-. destruct Hm as (_ & _ & _ & Hm).
    edestruct Hm as (_ & h3 & Hd & Hl); [vm_compute; reflexivity |].
    eexists _, _, _, _, h3. split; [exact H |]. split; [vm_compute; reflexivity |]. split; [reflexivity |].
    split; [exact Hd | exact Hl].
Defined.

(** A server whose list of connections is not as long as [conn_n] says: its array is freed where the
    error is found, and again with the group. *)
Lemma add_grp_double_free : tfw_sched_ratio_add_grp merge_sorted
  (MkSgCfg [MkSrvCfg [0; 1] 3 10]%nat 1 RATIO_STATIC) None (MkHeap 0 [] []) = Bug.
Proof. reflexivity. Qed.

(** A server outside a group gives everything back, also when it is not consistent. *)
Lemma add_del_srv_memory srv h : heap_ok h ->
  exists err sd h1, tfw_sched_ratio_add_srv None srv h = Ok (err, sd, h1) /\ (err = 0 <-> sd <> None) /\
    exists h2, tfw_sched_ratio_del_srv sd h1 = Ok h2 /\ h_live h2 ≡ₚ h_live h.
Proof.
  intros Hh. assert (H0 : holds (h_live h) [] h) by (by constructor). unfold tfw_sched_ratio_add_srv.
  destruct (kzalloc_holds _ _ _ H0) as (b & h1 & -> & H1). destruct b as [blk|].
  2: { exists (- ENOMEM), None, h1. split_and!; [done | split; done |]. exists h1. split; [done | by destruct H1]. }
  unfold tfw_sched_ratio_srvdesc_setup_srv. destruct (kzalloc_holds _ _ _ H1) as (c & h2 & -> & H2).
  assert (Herr : forall h', holds (h_live h) [blk] h' -> forall e, e <> 0 ->
    exists err sd h1, (let! h3 := kfree (Some blk) h' in Ok (e, None, h3)) = Ok (err, sd, h1) /\ (err = 0 <-> sd <> None) /\
      exists h2, tfw_sched_ratio_del_srv sd h1 = Ok h2 /\ h_live h2 ≡ₚ h_live h).
  { intros h' H' e He. destruct (kfree_holds (h_live h) (Some blk) [] h' H') as (h3 & -> & H3).
    exists e, None, h3. split_and!; [done | split; done |]. exists h3. split; [done | by destruct H3]. }
  destruct c as [c|]; [| by apply (Herr h2)]. destruct (fill_conns _ _ _) as [l|].
  - exists 0, (Some (blk, MkSlot (Some c) l)), h2. split_and!; [done | split; done |]. cbn [tfw_sched_ratio_del_srv slot_conn].
    destruct (kfree_holds _ _ _ _ H2) as (h3 & -> & H3).
    destruct (kfree_holds (h_live h) (Some blk) [] h3 H3) as (h4 & -> & H4). exists h4. split; [done | by destruct H4].
  - destruct (kfree_holds _ _ _ _ H2) as (h3 & -> & H3). by apply (Herr h3).
Qed.
