(* ===== verification/Tdb.v ===== *)
(** * Tempesta DB: memory

    [db/core/htrie.h], [db/core/tdb.h] and the allocator of [db/core/htrie.c].  A table is a
    memory-mapped file: a header with a bitmap of extents, then extents of 2 MB, each with a
    bitmap of its pages.  A page is taken from the extent that [nwb] points into; a CPU cuts
    index nodes (a cache line) and data blocks (two cache lines or more) from its current
    index and data page.  Offsets are in bytes from the start of the mapping, which is
    aligned to an extent; memory is read and written in words of 8 bytes, all records being
    aligned to them.  An access outside the mapping or not aligned is a [Bug].

    Operations are atomic: the loops that retry after a lost race end in their first round.

    The theorem: whatever the CPUs allocate, regions handed out lie in the mapping, are
    aligned, never overlap and are zero, until the file is full ([tdb_alloc_disjoint]). *)

From S2P Require Import Prelude.

#[local] Open Scope Z_scope.

(** ** Constants *)

Definition L1_CACHE_BYTES : Z := 64.
Definition BITS_PER_LONG : Z := 64.
Definition TDB_BLK_SZ : Z := 4096.
Definition TDB_EXT_SZ : Z := 2 ^ 21.
Definition TDB_BLK_BMP_2L : nat := 8.
Definition TDB_HTRIE_MINDREC : Z := 128.
Definition TDB_HTRIE_BITS : Z := 4.
Definition TDB_HTRIE_FANOUT : Z := 16.
Definition TDB_HTRIE_DBIT : Z := 2 ^ 31.
Definition TDB_HTRIE_VRFREED : Z := TDB_HTRIE_DBIT.
Definition TDB_MAX_DB_SZ : Z := 2 ^ 31 * L1_CACHE_BYTES.

(** [x & ~(2^k - 1)] and [x & (2^k - 1)] *)
Definition mask_high (k x : Z) : Z := Z.land x (Z.lnot (Z.ones k)).
Definition mask_low (k x : Z) : Z := Z.land x (Z.ones k).

Definition TDB_EXT_O (o : Z) : Z := mask_high 21 o.
Definition TDB_EXT_ID (o : Z) : Z := Z.shiftr o 21.
Definition TDB_BLK_O (x : Z) : Z := mask_high 12 x.
Definition TDB_BLK_ALIGN (x : Z) : Z := TDB_BLK_O (x + TDB_BLK_SZ - 1).
Definition TDB_HTRIE_RALIGN (n : Z) : Z := mask_high 3 (n + 7).
Definition TDB_HTRIE_IALIGN (n : Z) : Z := mask_high 6 (n + L1_CACHE_BYTES - 1).
Definition TDB_HTRIE_DALIGN (n : Z) : Z := mask_high 7 (n + TDB_HTRIE_MINDREC - 1).

Definition TDB_O2DI (o : Z) : Z := o / TDB_HTRIE_MINDREC.
Definition TDB_O2II (o : Z) : Z := o / L1_CACHE_BYTES.
Definition TDB_DI2O (i : Z) : Z := i * TDB_HTRIE_MINDREC.
Definition TDB_II2O (i : Z) : Z := i * L1_CACHE_BYTES.

(** Sizes of the packed structures; a [TdbBucket] ends with a [rwlock_t] of 8 bytes. *)
Definition sizeof_TdbHdr : Z := 64.
Definition sizeof_TdbExt : Z := 64.
Definition sizeof_TdbHtrieNode : Z := 64.
Definition sizeof_TdbBucket : Z := 16.
Definition sizeof_TdbFRec : Z := 8.
Definition sizeof_TdbVRec : Z := 16.

(** ** Data *)

Record TdbPerCpu := MkPcpu { i_wcl : Z; d_wcl : Z }.

(** The header with the bitmaps of the extents ([bmp], by extent; one that is absent is zero),
    and the words of the mapping by their offsets (absent is zero). *)
Record Tdb := MkTdb {
  dbsz : Z;
  rec_len : Z;
  nwb : Z;
  pcpu : list TdbPerCpu;
  bmp : gmap Z (list Z);
  mem : gmap Z Z
}.

Abbreviation TM := (SM Tdb).

Definition set_nwb v t := MkTdb (dbsz t) (rec_len t) v (pcpu t) (bmp t) (mem t).
Definition set_pcpu v t := MkTdb (dbsz t) (rec_len t) (nwb t) v (bmp t) (mem t).
Definition set_bmp v t := MkTdb (dbsz t) (rec_len t) (nwb t) (pcpu t) v (mem t).
Definition set_mem v t := MkTdb (dbsz t) (rec_len t) (nwb t) (pcpu t) (bmp t) v.

Definition TDB_EXT_BMP_2L (t : Tdb) : Z := (dbsz t / TDB_EXT_SZ + BITS_PER_LONG - 1) / BITS_PER_LONG.
Definition TDB_HDR_SZ (t : Tdb) : Z := sizeof_TdbHdr + TDB_EXT_BMP_2L t * 8.
Definition TDB_HTRIE_ROOT (t : Tdb) : Z := TDB_HDR_SZ t + sizeof_TdbExt.
Definition TDB_HTRIE_VARLENRECS (t : Tdb) : bool := rec_len t =? 0.

(** ** Words *)

Definition word (t : Tdb) (o : Z) : Z := default 0 (mem t !! o).

Definition in_map (t : Tdb) (o : Z) : bool := (0 <=? o) && (o + 8 <=? dbsz t) && (o mod 8 =? 0).

Definition rd64 (o : Z) : TM Z := fun t => if in_map t o then Ok (word t o, t) else Bug.
Definition wr64 (o v : Z) : TM unit := fun t => if in_map t o then Ok (tt, set_mem (<[o := v]> (mem t)) t) else Bug.

(** An [unsigned int] is half a word. *)
Definition half (w : Z) (hi : bool) : Z := if hi then w / 2 ^ 32 else w mod 2 ^ 32.
Definition set_half (w : Z) (hi : bool) (v : Z) : Z := if hi then w mod 2 ^ 32 + v * 2 ^ 32 else w / 2 ^ 32 * 2 ^ 32 + v.

Definition rd32 (o : Z) : TM Z :=
  let hi := o mod 8 =? 4 in w <~ rd64 (if hi then o - 4 else o);; sm_ret (half w hi).
Definition wr32 (o v : Z) : TM unit :=
  let hi := o mod 8 =? 4 in
  let a := if hi then o - 4 else o in
  w <~ rd64 a;; wr64 a (set_half w hi v).

Fixpoint rd_words (o : Z) (n : nat) : TM (list Z) :=
  match n with
  | O => sm_ret []
  | S n => w <~ rd64 o;; l <~ rd_words (o + 8) n;; sm_ret (w :: l)
  end.

Fixpoint wr_words (o : Z) (l : list Z) : TM unit :=
  match l with
  | [] => sm_ret tt
  | w :: l => wr64 o w;;; wr_words (o + 8) l
  end.

(** [memcpy_fast()], [memmove()] and [bzero_fast()] of whole words *)
Definition copy_words (dst src n : Z) : TM unit :=
  l <~ rd_words src (Z.to_nat (n / 8));; wr_words dst l.
Definition zero_words (o n : Z) : TM unit := wr_words o (replicate (Z.to_nat (n / 8)) 0).

(** ** Pages *)

(** [tdb_ext()]: the offset of the descriptor of an extent. *)
Definition tdb_ext (t : Tdb) (o : Z) : Z :=
  let e := TDB_EXT_O o in if e =? 0 then e + TDB_HDR_SZ t else e.

(** The bitmap of the extent [e] is at the start of it. *)
Definition get_bmp (t : Tdb) (id : Z) : list Z := default (replicate TDB_BLK_BMP_2L 0) (bmp t !! id).

Definition set_bmp_bit (i : nat) (r : Z) (b : list Z) : list Z :=
  <[i := Z.lor (default 0 (b !! i)) (2 ^ r)]> b.

(** [ffz()]: the first bit that is not set. *)
Fixpoint ffz_loop (fuel : nat) (w i : Z) : Z :=
  match fuel with
  | O => i
  | S fuel => if Z.testbit w i then ffz_loop fuel w (i + 1) else i
  end.
Definition ffz (w : Z) : Z := ffz_loop 64 w 0.

(** The loop over the words of a bitmap: the word and the bit; [None] is the full bitmap. *)
Fixpoint blk_ext_loop (fuel : nat) (b : list Z) (i : nat) : option (nat * Z) :=
  match fuel with
  | O => None
  | S fuel =>
      let r := default 0 (b !! i) in
      if Z.lxor r (2 ^ 64 - 1) =? 0 then blk_ext_loop fuel b (S i)
      else Some (i, ffz r)
  end.

(** [e] is the offset of an extent descriptor. *)
Definition __tdb_alloc_blk_ext (e : Z) : TM Z :=
  t <~ sm_get;;
  let id := TDB_EXT_ID e in
  match blk_ext_loop TDB_BLK_BMP_2L (get_bmp t id) 0 with
  | None => sm_ret 0
  | Some (i, r) =>
      sm_mod (set_bmp (<[id := set_bmp_bit i r (get_bmp t id)]> (bmp t)));;;
      if (i =? 0)%nat && (r =? 0) then
        if TDB_EXT_O e =? 0 then sm_ret (sizeof_TdbExt + TDB_HDR_SZ t)
        else sm_ret (sizeof_TdbExt + TDB_EXT_O e)
      else sm_ret (TDB_EXT_O e + (Z.of_nat i * BITS_PER_LONG + r) * TDB_BLK_SZ)
  end.

(** From the label [allocated]. *)
Definition blk_allocated (g_nwb rptr : Z) : TM Z :=
  (if g_nwb <=? rptr then sm_mod (set_nwb (rptr + TDB_BLK_SZ)) else sm_ret tt);;;
  sm_ret (TDB_HTRIE_DALIGN rptr).

(** A new extent at the offset [e]. *)
Definition blk_new_extent (g_nwb e : Z) : TM Z :=
  t <~ sm_get;;
  if e =? dbsz t then sm_ret 0
  else
    bug_on (dbsz t <? e);;;
    rptr <~ __tdb_alloc_blk_ext e;;
    bug_on (rptr =? 0);;;
    blk_allocated g_nwb rptr.

Definition tdb_alloc_blk : TM Z :=
  t <~ sm_get;;
  let g_nwb := nwb t in
  let e := tdb_ext t g_nwb in
  if negb (mask_low 21 g_nwb =? 0) then
    rptr <~ __tdb_alloc_blk_ext e;;
    if negb (rptr =? 0) then blk_allocated g_nwb rptr
    else blk_new_extent g_nwb (e + TDB_EXT_SZ)
  else blk_new_extent g_nwb e.

(** ** Index nodes and data blocks *)

Definition get_cpu (cpu : nat) : TM TdbPerCpu := fun t =>
  match pcpu t !! cpu with Some p => Ok (p, t) | None => Bug end.

Definition set_i_wcl (cpu : nat) (v : Z) : TM unit :=
  p <~ get_cpu cpu;; sm_mod (fun t => set_pcpu (<[cpu := MkPcpu v (d_wcl p)]> (pcpu t)) t).
Definition set_d_wcl (cpu : nat) (v : Z) : TM unit :=
  p <~ get_cpu cpu;; sm_mod (fun t => set_pcpu (<[cpu := MkPcpu (i_wcl p) v]> (pcpu t)) t).

Definition tdb_htrie_init_bucket (b : Z) : TM unit := wr64 b 0;;; wr64 (b + 8) 0.

(** The offset, or 0, and [*len]. *)
Definition tdb_alloc_data (cpu : nat) (len : Z) (bucket_hdr : bool) : TM (Z * Z) :=
  t <~ sm_get;;
  let hdr_len := (if bucket_hdr then sizeof_TdbBucket else 0)
                 + (if TDB_HTRIE_VARLENRECS t then sizeof_TdbVRec else sizeof_TdbFRec) in
  let res_len := TDB_HTRIE_DALIGN (len + hdr_len) in
  p <~ get_cpu cpu;;
  let finish (rptr res_len len : Z) : TM (Z * Z) :=
    bug_on (negb (TDB_HTRIE_DALIGN rptr =? rptr));;;
    let new_wcl := rptr + res_len in
    bug_on (negb (TDB_HTRIE_DALIGN new_wcl =? new_wcl));;;
    set_d_wcl cpu new_wcl;;;
    if bucket_hdr then tdb_htrie_init_bucket rptr;;; sm_ret (rptr + sizeof_TdbBucket, len)
    else sm_ret (rptr, len) in
  let rptr := d_wcl p in
  if (mask_low 12 rptr =? 0) || (TDB_BLK_O rptr <? TDB_BLK_O (rptr + res_len)) then
    rptr <~ tdb_alloc_blk;;
    if rptr =? 0 then sm_ret (0, len)
    else
      let max_data_len := TDB_BLK_SZ - mask_low 12 rptr in
      if max_data_len <? res_len then finish rptr max_data_len (max_data_len - hdr_len)
      else finish rptr res_len len
  else finish rptr res_len len.

Definition tdb_alloc_index (cpu : nat) : TM Z :=
  p <~ get_cpu cpu;;
  let finish (rptr : Z) : TM Z :=
    bug_on (negb (TDB_HTRIE_IALIGN rptr =? rptr));;;
    set_i_wcl cpu (rptr + sizeof_TdbHtrieNode);;;
    sm_ret rptr in
  let rptr := i_wcl p in
  if (mask_low 12 rptr =? 0) || (TDB_BLK_O rptr <? TDB_BLK_O (rptr + sizeof_TdbHtrieNode - 1)) then
    rptr <~ tdb_alloc_blk;;
    if rptr =? 0 then sm_ret 0 else finish rptr
  else finish rptr.

(** ** Initialisation *)

Definition set_blks (n : nat) (b : list Z) : list Z :=
  fold_left (fun b j => set_bmp_bit (j / 64) (Z.of_nat (j mod 64)) b) (seq 0 n) b.

(** A new file: zeroed, with the pages of the header in use; [None] are the errors. *)
Definition tdb_init_mapping (db_size rlen : Z) : option Tdb :=
  if (TDB_MAX_DB_SZ <? db_size) || (TDB_BLK_SZ / 2 <? rlen) then None
  else
    let t := MkTdb db_size rlen 0 [] ∅ ∅ in
    let hdr_sz := TDB_BLK_ALIGN (TDB_HDR_SZ t + sizeof_TdbExt + sizeof_TdbHtrieNode) in
    Some (MkTdb db_size rlen hdr_sz [] {[0 := set_blks (Z.to_nat (hdr_sz / TDB_BLK_SZ)) (replicate TDB_BLK_BMP_2L 0)]} ∅).

Fixpoint init_cpus (n : nat) : TM (list TdbPerCpu) :=
  match n with
  | O => sm_ret []
  | S n =>
      i <~ tdb_alloc_blk;; d <~ tdb_alloc_blk;;
      l <~ init_cpus n;; sm_ret (MkPcpu i d :: l)
  end.

(** [t] is the mapping, [tdb_init_mapping()] of it if it is new. *)
Definition tdb_htrie_init (cpus : nat) (t : Tdb) : outcome Tdb :=
  let! r := init_cpus cpus t in Ok (set_pcpu r.1 r.2).

(** ** Masks *)

Lemma mask_low_mod k x : 0 <= k -> mask_low k x = x mod 2 ^ k.
Proof. intros Hk. unfold mask_low. by rewrite Z.land_ones. Qed.

Lemma mask_high_mod k x : 0 <= k -> mask_high k x = x - x mod 2 ^ k.
Proof.
  intros Hk. unfold mask_high. rewrite <- Z.ldiff_land, Z.ldiff_ones_r, Z.shiftl_mul_pow2, Z.shiftr_div_pow2 by done.
  pose proof (Z.div_mod x (2 ^ k) ltac:(lia)). lia.
Qed.

Lemma align_spec k n : 0 <= k -> let p := 2 ^ k in
  mask_high k (n + p - 1) mod p = 0 /\ n <= mask_high k (n + p - 1) < n + p.
Proof.
  intros Hk p. rewrite mask_high_mod by done. fold p. assert (0 < p) by (subst p; lia).
  pose proof (Z.mod_pos_bound (n + p - 1) p ltac:(lia)). split; [| lia].
  rewrite Zminus_mod_idemp_r, Z.sub_diag. by apply Z.mod_0_l; lia.
Qed.

Lemma tdb_align_id k n : 0 <= k -> n mod 2 ^ k = 0 -> mask_high k (n + 2 ^ k - 1) = n.
Proof.
  intros Hk Hn. rewrite mask_high_mod by done. set (p := 2 ^ k) in *. assert (0 < p) by (subst p; lia).
  replace (n + p - 1) with ((p - 1) + n / p * p) by (pose proof (Z.div_mod n p); lia).
  rewrite Z.mod_add, Z.mod_small by lia. pose proof (Z.div_mod n p). lia.
Qed.

Lemma dalign_id n : n mod 128 = 0 -> TDB_HTRIE_DALIGN n = n.
Proof. apply (tdb_align_id 7). lia. Qed.
Lemma ialign_id n : n mod 64 = 0 -> TDB_HTRIE_IALIGN n = n.
Proof. apply (tdb_align_id 6). lia. Qed.
Lemma dalign_spec n : TDB_HTRIE_DALIGN n mod 128 = 0 /\ n <= TDB_HTRIE_DALIGN n < n + 128.
Proof. apply (align_spec 7). lia. Qed.
Lemma ralign_spec n : TDB_HTRIE_RALIGN n mod 8 = 0 /\ n <= TDB_HTRIE_RALIGN n < n + 8.
Proof.
  pose proof (align_spec 3 n ltac:(lia)) as H. change (2 ^ 3) with 8 in H.
  unfold TDB_HTRIE_RALIGN. by replace (n + 7) with (n + 8 - 1) by lia.
Qed.

(** ** Pages in use *)

(** The bitmap of an extent whose first [cnt] pages are in use. *)
Definition bmp_word (cnt i : Z) : Z := 2 ^ Z.max 0 (Z.min 64 (cnt - 64 * i)) - 1.
Definition bmp_of (cnt : Z) : list Z := (fun i => bmp_word cnt (Z.of_nat i)) <$> seq 0 8.

Lemma pow_pred_ones r : 2 ^ r - 1 = Z.ones r.
Proof. rewrite Z.ones_equiv. lia. Qed.

Lemma ffz_ones fuel : forall r i, 0 <= i <= r -> r <= i + Z.of_nat fuel -> ffz_loop fuel (2 ^ r - 1) i = r.
Proof.
  induction fuel as [|fuel IH]; intros r i Hi Hr; cbn [ffz_loop]; [lia |].
  rewrite pow_pred_ones. destruct (Z.eq_dec i r) as [->|Hne].
  - rewrite Z.ones_spec_high by lia. done.
  - rewrite Z.ones_spec_low by lia. rewrite <- pow_pred_ones. apply IH; lia.
Qed.

Lemma bmp_of_length cnt : length (bmp_of cnt) = 8%nat.
Proof. done. Qed.

Lemma bmp_of_lookup cnt i : (i < 8)%nat -> bmp_of cnt !! i = Some (bmp_word cnt (Z.of_nat i)).
Proof. intros Hi. unfold bmp_of. by rewrite list_lookup_fmap, lookup_seq_lt. Qed.

Lemma lxor_all w : Z.lxor w (2 ^ 64 - 1) = 0 <-> w = 2 ^ 64 - 1.
Proof. split; [apply Z.lxor_eq | intros ->; apply Z.lxor_nilpotent]. Qed.

(** The first free page is found. *)
Lemma blk_ext_found cnt : 0 <= cnt < 512 -> forall fuel i, (fuel + i = 8)%nat -> 64 * Z.of_nat i <= cnt ->
  exists j, blk_ext_loop fuel (bmp_of cnt) i = Some (j, cnt - 64 * Z.of_nat j) /\ (j < 8)%nat /\
    64 * Z.of_nat j <= cnt < 64 * Z.of_nat j + 64.
Proof.
  intros Hc. induction fuel as [|fuel IH]; intros i Hf Hi; cbn [blk_ext_loop]; [lia |].
  rewrite bmp_of_lookup by lia. simpl (default _ _). unfold bmp_word.
  destruct (Z.lt_ge_cases cnt (64 * Z.of_nat i + 64)) as [Hlt|Hge].
  - rewrite Z.max_r, Z.min_r by lia.
    assert (2 ^ (cnt - 64 * Z.of_nat i) < 2 ^ 64) by (apply Z.pow_lt_mono_r; lia).
    rewrite (proj2 (Z.eqb_neq _ 0)) by (intros E%lxor_all; lia).
    exists i. unfold ffz. rewrite ffz_ones by lia. split; [done |]. lia.
  - rewrite Z.max_r, Z.min_l by lia. rewrite (proj2 (Z.eqb_eq _ 0)) by (by apply lxor_all). apply IH; lia.
Qed.

Lemma blk_ext_full fuel : forall i, (fuel + i = 8)%nat -> blk_ext_loop fuel (bmp_of 512) i = None.
Proof.
  induction fuel as [|fuel IH]; intros i Hf; cbn [blk_ext_loop]; [done |].
  rewrite bmp_of_lookup by lia. simpl (default _ _). unfold bmp_word. rewrite Z.max_r, Z.min_l by lia.
  rewrite (proj2 (Z.eqb_eq _ 0)) by (by apply lxor_all). apply IH. lia.
Qed.

Lemma bmp_of_set cnt j : 0 <= cnt < 512 -> 64 * Z.of_nat j <= cnt < 64 * Z.of_nat j + 64 ->
  set_bmp_bit j (cnt - 64 * Z.of_nat j) (bmp_of cnt) = bmp_of (cnt + 1).
Proof.
  intros Hc Hj. unfold set_bmp_bit. apply list_eq. intros i. destruct (decide (i = j)) as [->|Hne].
  - rewrite list_lookup_insert_eq by (rewrite bmp_of_length; lia). rewrite !bmp_of_lookup by lia. simpl (default _ _). f_equal.
    unfold bmp_word. rewrite !Z.max_r, !Z.min_r by lia. set (r := cnt - 64 * Z.of_nat j).
    replace (cnt + 1 - 64 * Z.of_nat j) with (r + 1) by lia.
    rewrite <- (Z.mul_1_l (2 ^ r)) at 2. rewrite lor_low_high by lia. rewrite Z.pow_add_r by lia. lia.
  - rewrite list_lookup_insert_ne by done. destruct (decide (i < 8)%nat) as [Hi|Hi].
    + rewrite !bmp_of_lookup by done. f_equal. unfold bmp_word. do 2 f_equal. lia.
    + by rewrite !(proj2 (lookup_ge_None _ _)) by (rewrite bmp_of_length; lia).
Qed.

(** The pages below [m] are in use. *)
Record pages_ok (m : Z) (t : Tdb) : Prop := {
  po_size : dbsz t mod 2 ^ 21 = 0;
  po_max : 0 < dbsz t <= TDB_MAX_DB_SZ;
  po_m : 1 <= m /\ 4096 * m <= dbsz t;
  po_bmp : forall e, 0 <= e -> get_bmp t e = bmp_of (Z.max 0 (Z.min 512 (m - 512 * e)));
  po_nwb : nwb t = 4096 * m \/ (m mod 512 = 1 \/ m mod 512 = 2) /\ nwb t = 4096 * (m - m mod 512) + 4160
}.

(** What a page that is taken is used from: the first page of an extent has its bitmap. *)
Definition page_addr (m : Z) : Z := if m mod 512 =? 0 then 4096 * m + 128 else 4096 * m.

Lemma hdr_sz_bounds t : 0 < dbsz t <= TDB_MAX_DB_SZ -> 64 <= TDB_HDR_SZ t <= 8256.
Proof.
  intros H. unfold TDB_HDR_SZ, TDB_EXT_BMP_2L, sizeof_TdbHdr, TDB_MAX_DB_SZ, L1_CACHE_BYTES, TDB_EXT_SZ, BITS_PER_LONG in *.
  assert (0 <= dbsz t / 2 ^ 21 <= 65536).
  { split; [apply Z.div_pos; lia |]. apply Z.div_le_upper_bound; lia. }
  assert (0 <= (dbsz t / 2 ^ 21 + 64 - 1) / 64 <= 1024).
  { split; [apply Z.div_pos; lia |]. apply Z.lt_succ_r, Z.div_lt_upper_bound; lia. }
  lia.
Qed.

(** A page from the extent that has the page [m]. *)
Lemma alloc_blk_ext_spec m t e : pages_ok m t -> 4096 * m < dbsz t ->
  (e = 4096 * (m - m mod 512) \/ m < 512 /\ e = TDB_HDR_SZ t) ->
  exists t', __tdb_alloc_blk_ext e t =
    Ok (if m mod 512 =? 0 then 4096 * m + 64 else 4096 * m, t') /\
    dbsz t' = dbsz t /\ rec_len t' = rec_len t /\ nwb t' = nwb t /\ pcpu t' = pcpu t /\ mem t' = mem t /\
    forall x, 0 <= x -> get_bmp t' x = bmp_of (Z.max 0 (Z.min 512 (m + 1 - 512 * x))).
Proof.
  intros [Hsz Hmax [Hm Hm2] Hbmp _] Hlt He. pose proof (hdr_sz_bounds t Hmax) as Hh.
  pose proof (Z.mod_pos_bound m 512 ltac:(lia)) as Hmod. pose proof (Z.div_mod m 512 ltac:(lia)) as Hdm.
  set (id := m / 512) in *. assert (Hid : 0 <= id) by (apply Z.div_pos; lia).
  assert (Ebase : 4096 * (m - m mod 512) = 2 ^ 21 * id) by lia.
  assert (Eid : TDB_EXT_ID e = id).
  { unfold TDB_EXT_ID. rewrite Z.shiftr_div_pow2 by lia. symmetry. destruct He as [->|[? ->]].
    - rewrite Ebase, Z.mul_comm, Z.div_mul by lia. done.
    - rewrite Z.div_small by lia. subst id. rewrite Z.div_small by lia. done. }
  assert (Eo : TDB_EXT_O e = 2 ^ 21 * id).
  { unfold TDB_EXT_O. rewrite mask_high_mod by lia. destruct He as [->|[Hs ->]].
    - rewrite Ebase, (Z.mul_comm (2 ^ 21)), Z.mod_mul by lia. lia.
    - rewrite Z.mod_small by lia. subst id. rewrite Z.div_small by lia. lia. }
  unfold __tdb_alloc_blk_ext. unfold sm_bind, sm_get at 1. rewrite Eid, Eo.
  assert (Ebm : get_bmp t id = bmp_of (m mod 512)).
  { rewrite Hbmp by done. f_equal. lia. }
  rewrite Ebm. change TDB_BLK_BMP_2L with 8%nat. destruct (blk_ext_found (m mod 512) Hmod 8 0 eq_refl ltac:(lia)) as (j & -> & Hj & Hjr).
  unfold sm_mod. rewrite bmp_of_set by lia.
  set (t' := set_bmp _ t). exists t'. split.
  - destruct (Z.eqb_spec (m mod 512) 0) as [E0|Hne].
    + assert (j = 0%nat) as -> by lia. rewrite E0. change (0 - 64 * Z.of_nat 0) with 0. cbn [Nat.eqb Z.eqb andb].
      assert (id <> 0) by lia. rewrite (proj2 (Z.eqb_neq (2 ^ 21 * id) 0)) by lia.
      unfold sm_ret, sizeof_TdbExt. do 2 f_equal. lia.
    + rewrite (proj2 (andb_false_iff _ _)).
      * unfold sm_ret, BITS_PER_LONG, TDB_BLK_SZ. do 2 f_equal. lia.
      * destruct (Nat.eqb_spec j 0); [right; apply Z.eqb_neq; lia | by left].
  - split_and!; try done. intros x Hx. unfold get_bmp. subst t'. cbn [bmp set_bmp].
    destruct (Z.eq_dec x id) as [->|Hne].
    + rewrite lookup_insert_eq. simpl (default _ _). f_equal. lia.
    + rewrite lookup_insert_ne by done. fold (get_bmp t x). rewrite Hbmp by done. f_equal. nia.
Qed.

Definition same_but_pages (t t' : Tdb) : Prop :=
  dbsz t' = dbsz t /\ rec_len t' = rec_len t /\ pcpu t' = pcpu t /\ mem t' = mem t.

(** A page is taken, until the file is full. *)
Lemma alloc_blk_spec m t : pages_ok m t ->
  exists t', same_but_pages t t' /\
    ((4096 * m < dbsz t /\ tdb_alloc_blk t = Ok (page_addr m, t') /\ pages_ok (m + 1) t') \/
     (4096 * m = dbsz t /\ tdb_alloc_blk t = Ok (0, t') /\ t' = t)).
Proof.
  intros Hok. pose proof Hok as [Hsz Hmax [Hm Hm2] Hbmp Hnwb]. pose proof (hdr_sz_bounds t Hmax) as Hh.
  pose proof (Z.mod_pos_bound m 512 ltac:(lia)) as Hmod. pose proof (Z.div_mod m 512 ltac:(lia)) as Hdm.
  pose proof (Z.div_mod (dbsz t) (2 ^ 21) ltac:(lia)) as Hds. rewrite Hsz, Z.add_0_r in Hds.
  assert (Hid : 0 <= m / 512) by (apply Z.div_pos; lia). set (id := m / 512) in *.
  assert (Hlow : mask_low 21 (nwb t) = if m mod 512 =? 0 then 0 else nwb t - 2 ^ 21 * id).
  { rewrite mask_low_mod by lia. destruct (Z.eqb_spec (m mod 512) 0).
    - destruct Hnwb as [->|[[|] _]]; [| lia | lia]. replace (4096 * m) with (id * 2 ^ 21) by lia. apply Z.mod_mul. lia.
    - symmetry. apply (Z.mod_unique_pos _ _ id); destruct Hnwb as [->|[[|] ->]]; lia. }
  assert (Hext : TDB_EXT_O (nwb t) = 2 ^ 21 * id).
  { unfold TDB_EXT_O. fold (mask_low 21 (nwb t)). rewrite mask_high_mod, <- mask_low_mod, Hlow by lia.
    destruct (Z.eqb_spec (m mod 512) 0); [| lia]. destruct Hnwb as [->|[[|] _]]; lia. }
  set (e0 := if 2 ^ 21 * id =? 0 then 2 ^ 21 * id + TDB_HDR_SZ t else 2 ^ 21 * id).
  assert (Hrun : tdb_alloc_blk t = if m mod 512 =? 0 then blk_new_extent (nwb t) e0 t else
    (rptr <~ __tdb_alloc_blk_ext e0;; if negb (rptr =? 0) then blk_allocated (nwb t) rptr
     else blk_new_extent (nwb t) (e0 + TDB_EXT_SZ)) t).
  { unfold tdb_alloc_blk. unfold sm_bind at 1, sm_get at 1. unfold tdb_ext. rewrite Hext, Hlow. fold e0.
    destruct (Z.eqb_spec (m mod 512) 0); [done |].
    by rewrite (proj2 (Z.eqb_neq (nwb t - 2 ^ 21 * id) 0)) by (destruct Hnwb as [|[[|] ?]]; lia). }
  (* the page is taken from a bitmap *)
  assert (Hstep : forall e, 4096 * m < dbsz t -> (e = 4096 * (m - m mod 512) \/ m < 512 /\ e = TDB_HDR_SZ t) ->
    exists rptr t1 t', __tdb_alloc_blk_ext e t = Ok (rptr, t1) /\ rptr <> 0 /\
      blk_allocated (nwb t) rptr t1 = Ok (page_addr m, t') /\ same_but_pages t t' /\ pages_ok (m + 1) t').
  { intros e Hlt He. destruct (alloc_blk_ext_spec m t e Hok Hlt He) as (t1 & Hrun1 & Hd & Hr & Hn & Hp & Hmem & Hb).
    eexists _, t1, (if nwb t <=? (if m mod 512 =? 0 then 4096 * m + 64 else 4096 * m)
                    then set_nwb ((if m mod 512 =? 0 then 4096 * m + 64 else 4096 * m) + 4096) t1 else t1).
    split; [exact Hrun1 |]. split; [destruct (m mod 512 =? 0); lia |]. set (rptr := if m mod 512 =? 0 then 4096 * m + 64 else 4096 * m) in *.
    assert (Hda : TDB_HTRIE_DALIGN rptr = page_addr m).
    { subst rptr. unfold page_addr. destruct (Z.eqb_spec (m mod 512) 0) as [E|E].
      - unfold TDB_HTRIE_DALIGN. rewrite mask_high_mod by lia. change (2 ^ 7) with 128. unfold TDB_HTRIE_MINDREC.
        replace (4096 * m + 64 + 128 - 1) with (63 + (32 * m + 1) * 128) by lia.
        rewrite Z.mod_add, Z.mod_small by lia. lia.
      - apply dalign_id. replace (4096 * m) with (32 * m * 128) by lia. apply Z.mod_mul. lia. }
    split.
    - unfold blk_allocated, sm_bind, sm_mod, sm_ret, TDB_BLK_SZ. rewrite Hda. by destruct (nwb t <=? rptr).
    - assert (Hpg : 4096 * (m + 1) <= dbsz t) by nia.
      split; [by destruct (nwb t <=? rptr) |]. constructor.
      + destruct (nwb t <=? rptr); simpl; by rewrite Hd.
      + destruct (nwb t <=? rptr); simpl; by rewrite Hd.
      + split; [lia |]. destruct (nwb t <=? rptr); simpl; by rewrite Hd.
      + intros x Hx. destruct (nwb t <=? rptr); apply Hb; done.
      + subst rptr. rewrite (Z.add_mod m 1 512) by lia.
        destruct (Z.eqb_spec (m mod 512) 0) as [E|E].
        * destruct (Z.leb_spec (nwb t) (4096 * m + 64)); [| destruct Hnwb as [|[[|] ?]]; lia]. simpl nwb. right.
          rewrite E. change ((0 + 1 mod 512) mod 512) with 1. lia.
        * destruct (Z.leb_spec (nwb t) (4096 * m)) as [Hle|Hgt].
          -- left. simpl. lia.
          -- right. rewrite Hn. assert (E1 : m mod 512 = 1 /\ nwb t = 4096 * m + 64) by (destruct Hnwb as [|[[|] ?]]; lia).
             destruct E1 as [-> ->]. change ((1 + 1 mod 512) mod 512) with 2. lia. }
  rewrite Hrun. destruct (Z.eqb_spec (m mod 512) 0) as [E|E].
  - subst e0. rewrite (proj2 (Z.eqb_neq (2 ^ 21 * id) 0)) by lia.
    unfold blk_new_extent, sm_bind, sm_get. destruct (Z.eqb_spec (2 ^ 21 * id) (dbsz t)) as [Ef|Ef].
    + exists t. split; [done |]. right. split_and!; [lia | done | done].
    + destruct (Hstep (2 ^ 21 * id)) as (rptr & t1 & t' & H1 & H2 & H3 & H4 & H5); [lia | left; lia |].
      exists t'. split; [done |]. left. split; [lia |]. split; [| done].
      rewrite (proj2 (Z.ltb_ge _ _)) by lia. cbn [bug_on sm_ret].
      rewrite H1. rewrite (proj2 (Z.eqb_neq _ _) H2). exact H3.
  - assert (Hlt : 4096 * m < dbsz t) by nia.
    destruct (Hstep e0) as (rptr & t1 & t' & H1 & H2 & H3 & H4 & H5);
      [done | subst e0; destruct (Z.eqb_spec (2 ^ 21 * id) 0); [right | left]; lia |].
    exists t'. split; [done |]. left. split; [lia |]. split; [| done].
    unfold sm_bind at 1. rewrite H1, (proj2 (Z.eqb_neq _ _) H2). exact H3.
Qed.

(** ** Regions *)

(** The current position of a CPU in its data page or index page. *)
Definition wcl (data : bool) (p : TdbPerCpu) : Z := if data then d_wcl p else i_wcl p.
Definition page_end (w : Z) : Z := 4096 * (w / 4096) + 4096.
Definition covered (G : gmap Z Z) (x : Z) : Prop := exists o s, G !! o = Some s /\ o <= x < o + s.

(** [G] are the regions in use: offsets with sizes. *)
Record alloc_ok (m : Z) (G : gmap Z Z) (t : Tdb) : Prop := {
  ao_pages : pages_ok m t;
  ao_in : forall o s, G !! o = Some s -> 0 < s /\ 0 < o /\ o mod 8 = 0 /\ o + s <= 4096 * m;
  ao_disj : forall o s o' s', G !! o = Some s -> G !! o' = Some s' -> o <> o' -> o + s <= o' \/ o' + s' <= o;
  ao_align : forall c p, pcpu t !! c = Some p -> i_wcl p mod 64 = 0 /\ d_wcl p mod 128 = 0;
  ao_cur : forall c p k, pcpu t !! c = Some p -> let w := wcl k p in
    w mod 4096 = 0 \/ (0 < w /\ page_end w <= 4096 * m /\ forall o s, G !! o = Some s -> o + s <= w \/ page_end w <= o);
  ao_sep : forall c p k c' p' k', pcpu t !! c = Some p -> pcpu t !! c' = Some p' -> (c, k) <> (c', k') ->
    let w := wcl k p in let w' := wcl k' p' in w mod 4096 = 0 \/ w' mod 4096 = 0 \/ w / 4096 <> w' / 4096;
  ao_zero : forall x, ~ covered G x -> word t x = 0
}.

Definition set_wcl (k : bool) (v : Z) (p : TdbPerCpu) : TdbPerCpu := if k then MkPcpu (i_wcl p) v else MkPcpu v (d_wcl p).

(** A region at [w] in a page whose rest belongs to nobody else. *)
Lemma grab_ok m G t c p (k : bool) w s : alloc_ok m G t -> pcpu t !! c = Some p ->
  0 < s -> 0 < w -> w mod 8 = 0 -> w + s <= page_end w -> page_end w <= 4096 * m ->
  (w + s) mod (if k : bool then 128 else 64) = 0 ->
  (forall o s', G !! o = Some s' -> o + s' <= w \/ page_end w <= o) ->
  (forall c' p' k', pcpu t !! c' = Some p' -> (c, k) <> (c', k') -> wcl k' p' mod 4096 = 0 \/ wcl k' p' / 4096 <> w / 4096) ->
  alloc_ok m (<[w := s]> G) (set_pcpu (<[c := set_wcl k (w + s) p]> (pcpu t)) t) /\ G !! w = None.
Proof.
  intros [Hpg Hin Hdj Hal Hcur Hsep Hz] Hp Hs Hw Hw8 Hfit Hpe Halign Hfree Hother.
  assert (Hnone : G !! w = None).
  { destruct (G !! w) as [s'|] eqn:E; [| done]. destruct (Hfree w s' E); destruct (Hin w s' E); lia. }
  split; [| done]. assert (Hlook : forall o s', <[w := s]> G !! o = Some s' -> o = w /\ s' = s \/ o <> w /\ G !! o = Some s').
  { intros o s'. rewrite lookup_insert_Some. clear. intros [[-> ->]|[Hne Ho]]; [by left | right; by split]. }
  assert (Hpc : forall c' p', <[c := set_wcl k (w + s) p]> (pcpu t) !! c' = Some p' ->
    c' = c /\ p' = set_wcl k (w + s) p \/ c' <> c /\ pcpu t !! c' = Some p').
  { intros c' p'. rewrite list_lookup_insert_Some. clear. intros [(-> & -> & _)|[Hne Hc]]; [by left | right; by split]. }
  assert (Hnew : (w + s) mod 4096 = 0 \/ (w + s) / 4096 = w / 4096 /\ page_end (w + s) = page_end w).
  { unfold page_end in *. destruct (Z.eq_dec (w + s) (4096 * (w / 4096) + 4096)) as [E|E].
    - left. rewrite E. replace (4096 * (w / 4096) + 4096) with ((w / 4096 + 1) * 4096) by lia. apply Z.mod_mul. lia.
    - right. assert ((w + s) / 4096 = w / 4096) as ->; [| done].
      symmetry. apply (Z.div_unique _ _ _ (w + s - 4096 * (w / 4096))); [| lia].
      pose proof (Z.mul_div_le w 4096 ltac:(lia)). lia. }
  constructor; cbn [pcpu set_pcpu].
  - destruct Hpg. constructor; done.
  - intros o s' [[-> ->]|[_ Ho]]%Hlook; [| by apply Hin]. split_and!; try done; lia.
  - intros o s1 o' s2 [[-> ->]|[? Ho]]%Hlook [[-> ->]|[? Ho']]%Hlook Hne; [done | | | by apply Hdj].
    + destruct (Hfree o' s2 Ho'); lia.
    + destruct (Hfree o s1 Ho); lia.
  - intros c' p' [[-> ->]|[_ Hc]]%Hpc; [| by eapply Hal]. destruct (Hal c p Hp). by destruct k; simpl.
  - intros c' p' k' Hc'. set (w' := wcl k' p'). apply Hpc in Hc' as [[-> ->]|[Hne Hc']].
    + destruct (decide (k' = k)) as [->|Hk].
      * assert (E : w' = w + s) by (subst w'; by destruct k). rewrite E. destruct Hnew as [|[_ Hpe']]; [by left | right].
        rewrite Hpe'. split_and!; [lia | done |]. intros o s' [[-> ->]|[_ Ho]]%Hlook; [lia |]. destruct (Hfree o s' Ho); lia.
      * assert (E : w' = wcl k' p) by (subst w'; by destruct k, k'). rewrite E.
        destruct (Hcur c p k' Hp) as [|(? & ? & Hc)]; [by left |].
        destruct (Hother c p k' Hp ltac:(congruence)) as [|Hpn]; [by left | right]. split_and!; try done.
        intros o s' [[-> ->]|[_ Ho]]%Hlook; [| by apply Hc]. unfold page_end in *.
        destruct (Z.lt_ge_cases (wcl k' p / 4096) (w / 4096)); [right | left]; pose proof (Z.mul_div_le w 4096); pose proof (Z.mul_div_le (wcl k' p) 4096); lia.
    + subst w'. destruct (Hcur c' p' k' Hc') as [|(? & ? & Hc)]; [by left |].
      destruct (Hother c' p' k' Hc' ltac:(congruence)) as [|Hpn]; [by left | right]. split_and!; try done.
      intros o s' [[-> ->]|[_ Ho]]%Hlook; [| by apply Hc]. unfold page_end in *.
      destruct (Z.lt_ge_cases (wcl k' p' / 4096) (w / 4096)); [right | left]; pose proof (Z.mul_div_le w 4096); pose proof (Z.mul_div_le (wcl k' p') 4096); lia.
  - assert (Hone : forall c2 p2 k2, pcpu t !! c2 = Some p2 -> (c, k) <> (c2, k2) ->
      (w + s) mod 4096 = 0 \/ wcl k2 p2 mod 4096 = 0 \/ (w + s) / 4096 <> wcl k2 p2 / 4096).
    { intros c2 p2 k2 H2 Hne. destruct Hnew as [|[-> _]]; [by left |]. destruct (Hother c2 p2 k2 H2 Hne); [by right; left |].
      right; right. congruence. }
    intros c1 p1 k1 c2 p2 k2 H1 H2 Hne.
    assert (Hsel : forall c' p' k', <[c := set_wcl k (w + s) p]> (pcpu t) !! c' = Some p' ->
      (c', k') = (c, k) /\ wcl k' p' = w + s \/ exists q, (c', k') <> (c, k) /\ pcpu t !! c' = Some q /\ wcl k' p' = wcl k' q).
    { intros c' p' k' [[-> ->]|[Hc Hc']]%Hpc.
      - destruct (decide (k' = k)) as [->|Hk]; [left; split; [done | by destruct k] |].
        right. exists p. split_and!; [congruence | done | by destruct k, k'].
      - right. exists p'. split_and!; [congruence | done | done]. }
    destruct (Hsel c1 p1 k1 H1) as [[E1 ->]|(q1 & E1 & Hq1 & ->)], (Hsel c2 p2 k2 H2) as [[E2 ->]|(q2 & E2 & Hq2 & ->)].
    + congruence.
    + apply (Hone c2 q2 k2); [done | congruence].
    + destruct (Hone c1 q1 k1 Hq1 ltac:(congruence)) as [|[|]]; [by right; left | by left | right; right; congruence].
    + by apply (Hsep c1 q1 k1 c2 q2 k2).
  - intros x Hx. apply Hz. intros (o & s' & Ho & Hr). apply Hx. exists o, s'. split; [| done].
    rewrite lookup_insert_ne; [done |]. congruence.
Qed.

(** A new page belongs to nobody. *)
Lemma fresh_page m G t t' : alloc_ok m G t -> same_but_pages t t' -> pages_ok (m + 1) t' ->
  alloc_ok (m + 1) G t' /\
  (forall w o s, w / 4096 = m -> G !! o = Some s -> o + s <= w \/ page_end w <= o) /\
  (forall w c p k, w / 4096 = m -> pcpu t' !! c = Some p -> wcl k p mod 4096 = 0 \/ wcl k p / 4096 <> w / 4096).
Proof.
  intros [Hpg Hin Hdj Hal Hcur Hsep Hz] (Hd & Hr & Hp & Hmem) Hpg'. rewrite Hp. split_and!.
  - constructor; rewrite ?Hp; try done.
    + intros o s Ho. destruct (Hin o s Ho) as (? & ? & ? & ?). split_and!; try done; lia.
    + intros c p k Hc w. subst w. destruct (Hcur c p k Hc) as [|(? & ? & ?)]; [by left | right]. split_and!; try done; lia.
    + intros x Hx. unfold word. rewrite Hmem. by apply Hz.
  - intros w o s Hw Ho. left. destruct (Hin o s Ho) as (? & ? & ? & ?). pose proof (Z.mul_div_le w 4096 ltac:(lia)). lia.
  - intros w c p k Hw Hc. destruct (Hcur c p k Hc) as [|(? & Hpe & _)]; [by left | right]. unfold page_end in Hpe. lia.
Qed.

Lemma page_addr_in m : 0 <= m -> page_addr m / 4096 = m /\ page_addr m mod 128 = 0 /\ 4096 * m <= page_addr m <= 4096 * m + 128.
Proof.
  intros Hm. unfold page_addr. destruct (m mod 512 =? 0); (split; [| split; [| lia]]).
  - symmetry. apply (Z.div_unique _ _ _ 128); lia.
  - replace (4096 * m + 128) with ((32 * m + 1) * 128) by lia. apply Z.mod_mul. lia.
  - symmetry. apply (Z.div_unique _ _ _ 0); lia.
  - replace (4096 * m) with (32 * m * 128) by lia. apply Z.mod_mul. lia.
Qed.

(** What does not change but by allocation. *)
Definition same_words (t t' : Tdb) : Prop :=
  dbsz t' = dbsz t /\ rec_len t' = rec_len t /\ length (pcpu t') = length (pcpu t) /\ forall x, word t' x = word t x.

Lemma same_words_trans t1 t2 t3 : same_words t1 t2 -> same_words t2 t3 -> same_words t1 t3.
Proof. intros (? & ? & ? & Hw1) (? & ? & ? & Hw2). split_and!; try congruence. Qed.

Lemma mod_128_64 x : x mod 128 = 0 -> x mod 64 = 0.
Proof. intros H. apply Z.mod_divide in H as [q ->]; [| lia]. replace (q * 128) with (q * 2 * 64) by lia. apply Z.mod_mul. lia. Qed.

Lemma mod_64_8 x : x mod 64 = 0 -> x mod 8 = 0.
Proof. intros H. apply Z.mod_divide in H as [q ->]; [| lia]. replace (q * 64) with (q * 8 * 8) by lia. apply Z.mod_mul. lia. Qed.

Lemma same_page_lt w x : 0 < x -> TDB_BLK_O w <? TDB_BLK_O (w + x) = false -> w + x < page_end w.
Proof.
  intros Hx H%Z.ltb_ge. unfold TDB_BLK_O in H. rewrite !mask_high_mod in H by lia. change (2 ^ 12) with 4096 in H.
  unfold page_end. pose proof (Z.div_mod w 4096 ltac:(lia)). pose proof (Z.mod_pos_bound (w + x) 4096 ltac:(lia)). lia.
Qed.

(** Index nodes. *)
Lemma alloc_index_spec m G t cpu : alloc_ok m G t -> (cpu < length (pcpu t))%nat ->
  exists o t', tdb_alloc_index cpu t = Ok (o, t') /\ same_words t t' /\
    (o = 0 /\ 4096 * m = dbsz t /\ t' = t \/
     G !! o = None /\ 0 < o /\ o mod 64 = 0 /\ exists m', m <= m' <= m + 1 /\ alloc_ok m' (<[o := 64]> G) t').
Proof.
  intros Hok Hc. destruct (lookup_lt_is_Some_2 _ _ Hc) as [p Hp]. pose proof Hok as [Hpg Hin Hdj Hal Hcur Hsep Hz].
  destruct (Hal cpu p Hp) as [Hi Hdl].
  unfold tdb_alloc_index, sm_bind. unfold get_cpu at 1. rewrite Hp.
  (* taking a node at [w] *)
  assert (Hfin : forall w t1 m1, same_words t t1 -> pcpu t1 = pcpu t -> alloc_ok m1 G t1 -> 0 < w -> w mod 64 = 0 ->
    w + 64 <= page_end w -> page_end w <= 4096 * m1 -> m <= m1 <= m + 1 ->
    (forall o s', G !! o = Some s' -> o + s' <= w \/ page_end w <= o) ->
    (forall c' p' k', pcpu t1 !! c' = Some p' -> (cpu, false) <> (c', k') -> wcl k' p' mod 4096 = 0 \/ wcl k' p' / 4096 <> w / 4096) ->
    exists o t', (bug_on (negb (TDB_HTRIE_IALIGN w =? w));;; set_i_wcl cpu (w + sizeof_TdbHtrieNode);;; sm_ret w) t1 = Ok (o, t') /\
      same_words t t' /\
      (o = 0 /\ 4096 * m = dbsz t /\ t' = t \/
       G !! o = None /\ 0 < o /\ o mod 64 = 0 /\ exists m', m <= m' <= m + 1 /\ alloc_ok m' (<[o := 64]> G) t')).
  { intros w t1 m1 Hsw Hpc Hok1 Hw Hw64 Hfit Hpe Hm1 Hfree Hoth. rewrite ialign_id, Z.eqb_refl by done.
    cbn [negb bug_on]. unfold set_i_wcl, sm_bind, sm_ret, sm_mod, get_cpu. rewrite Hpc, Hp.
    assert (Hp1 : pcpu t1 !! cpu = Some p) by (by rewrite Hpc).
    destruct (grab_ok m1 G t1 cpu p false w 64 Hok1 Hp1) as [Hg Hnone]; try done; try lia.
    { by apply mod_64_8. } { rewrite Z.add_mod, Hw64 by lia. done. }
    eexists _, _. split; [done |]. split.
    - destruct Hsw as (? & ? & ? & ?). split_and!; try done. simpl. rewrite Hpc. by rewrite length_insert.
    - right. split_and!; try done. exists m1. split; [done |]. exact Hg. }
  destruct ((mask_low 12 (i_wcl p) =? 0) || (TDB_BLK_O (i_wcl p) <? TDB_BLK_O (i_wcl p + sizeof_TdbHtrieNode - 1))) eqn:Enew.
  - destruct (alloc_blk_spec m t Hpg) as (t1 & Hsame & [(Hlt & Hblk & Hpg1)|(Hfull & Hblk & E)]); rewrite Hblk.
    + destruct (po_m _ _ Hpg) as [Hm1 _].
      destruct (page_addr_in m ltac:(lia)) as (Hpd & Hpm & Hpr).
      rewrite (proj2 (Z.eqb_neq (page_addr m) 0)) by lia.
      destruct (fresh_page m G t t1 Hok Hsame Hpg1) as (Hok1 & Hfr & Hot).
      assert (Hpe : page_end (page_addr m) = 4096 * m + 4096) by (unfold page_end; rewrite Hpd; lia).
      destruct Hsame as (? & ? & Hpc & Hmem).
      apply (Hfin (page_addr m) t1 (m + 1)); try done; try lia.
      * split_and!; try done; [by rewrite Hpc | intros x; unfold word; by rewrite Hmem].
      * by apply mod_128_64.
      * intros o s'. by apply Hfr.
      * intros c' p' k' Hc' _. by apply (Hot _ c').
    + exists 0, t. rewrite E. split; [done |]. split; [by split_and! |]. by left.
  - apply orb_false_iff in Enew as [E1%Z.eqb_neq E2]. rewrite mask_low_mod in E1 by lia. change (2 ^ 12) with 4096 in E1.
    destruct (Hcur cpu p false Hp) as [|(Hw0 & Hpe & Hfr)]; [done |]. simpl wcl in *.
    assert (Hfit : i_wcl p + 64 <= page_end (i_wcl p)).
    { pose proof (same_page_lt (i_wcl p) 63 ltac:(lia)) as Hl. unfold sizeof_TdbHtrieNode in E2.
      replace (i_wcl p + 64 - 1) with (i_wcl p + 63) in E2 by lia. specialize (Hl E2). lia. }
    apply (Hfin (i_wcl p) t m); try done; try lia.
    intros c' p' k' Hc' Hne. destruct (Hsep cpu p false c' p' k' Hp Hc' Hne) as [|[|]]; [done | by left | right]. simpl in *. congruence.
Qed.

(** Writing inside regions keeps the invariant. *)
Lemma alloc_ok_mem m G t t' : alloc_ok m G t ->
  dbsz t' = dbsz t -> nwb t' = nwb t -> bmp t' = bmp t -> pcpu t' = pcpu t ->
  (forall x, ~ covered G x -> word t' x = 0) -> alloc_ok m G t'.
Proof.
  intros [[H1 H2 H3 H4 H5] Hin Hdj Hal Hcur Hsep Hz] Ed En Eb Ep Hw.
  constructor; rewrite ?Ep; try done. constructor; rewrite ?Ed, ?En; try done.
  intros e He. rewrite <- H4 by done. unfold get_bmp. by rewrite Eb.
Qed.

Lemma in_map_true t o : 0 <= o -> o + 8 <= dbsz t -> o mod 8 = 0 -> in_map t o = true.
Proof. intros. unfold in_map. rewrite !andb_true_iff, !Z.leb_le, Z.eqb_eq. lia. Qed.

Lemma word_insert o v t x : word (set_mem (<[o := v]> (mem t)) t) x = if decide (x = o) then v else word t x.
Proof. unfold word. simpl. destruct (decide _) as [->|]; [by rewrite lookup_insert_eq | by rewrite lookup_insert_ne]. Qed.

Lemma covered_insert G o s x : o <= x < o + s -> covered (<[o := s]> G) x.
Proof. intros H. exists o, s. by rewrite lookup_insert_eq. Qed.

Lemma covered_free m G t w x : alloc_ok m G t -> (forall o s', G !! o = Some s' -> o + s' <= w \/ page_end w <= o) ->
  w <= x < page_end w -> ~ covered G x.
Proof. intros Hok Hf Hx (o & s & Ho & Hr). destruct (Hf o s Ho); lia. Qed.

(** [hdr_len] of [tdb_alloc_data()] *)
Definition data_hdr (t : Tdb) (bucket_hdr : bool) : Z :=
  (if bucket_hdr then sizeof_TdbBucket else 0) + (if TDB_HTRIE_VARLENRECS t then sizeof_TdbVRec else sizeof_TdbFRec).

Lemma data_hdr_bounds t b : 8 <= data_hdr t b <= 32.
Proof. unfold data_hdr. destruct b, (TDB_HTRIE_VARLENRECS t); unfold sizeof_TdbBucket, sizeof_TdbVRec, sizeof_TdbFRec; lia. Qed.

(** What [tdb_alloc_data()] promises: a region at [base] of [s] bytes. *)
Record data_region (m : Z) (G : gmap Z Z) (t t' : Tdb) (bucket_hdr : bool) (len base s len' : Z) : Prop := {
  dr_new : G !! base = None;
  dr_pos : 0 < base /\ base mod 128 = 0 /\ s mod 128 = 0;
  dr_len : len' + data_hdr t bucket_hdr <= s;
  dr_cut : len' = len \/ len' < len /\ 3968 <= s /\ s = len' + data_hdr t bucket_hdr;
  dr_ok : exists m', m <= m' <= m + 1 /\ alloc_ok m' (<[base := s]> G) t'
}.

(** The end of [tdb_alloc_data()]: a block at [w]. *)
Lemma data_finish m m1 G t t1 cpu p bh len w s len' : alloc_ok m1 G t1 -> same_words t t1 -> pcpu t1 !! cpu = Some p ->
  m <= m1 <= m + 1 -> 0 < w -> w mod 128 = 0 -> 0 < s -> s mod 128 = 0 -> w + s <= page_end w -> page_end w <= 4096 * m1 ->
  len' + data_hdr t bh <= s -> (len' = len \/ len' < len /\ 3968 <= s /\ s = len' + data_hdr t bh) ->
  (forall o s', G !! o = Some s' -> o + s' <= w \/ page_end w <= o) ->
  (forall c' p' k', pcpu t1 !! c' = Some p' -> (cpu, true) <> (c', k') -> wcl k' p' mod 4096 = 0 \/ wcl k' p' / 4096 <> w / 4096) ->
  exists t', (bug_on (negb (TDB_HTRIE_DALIGN w =? w));;;
      bug_on (negb (TDB_HTRIE_DALIGN (w + s) =? w + s));;;
      set_d_wcl cpu (w + s);;;
      if bh then tdb_htrie_init_bucket w;;; sm_ret (w + sizeof_TdbBucket, len') else sm_ret (w, len')) t1 =
      Ok ((w + (if bh then sizeof_TdbBucket else 0), len'), t') /\
    same_words t t' /\ data_region m G t t' bh len w s len'.
Proof.
  intros Hok Hsw Hp Hm Hw Hw128 Hs Hs128 Hfit Hpe Hlen Hcut Hfree Hoth.
  assert (Hws : (w + s) mod 128 = 0) by (rewrite Z.add_mod, Hw128, Hs128 by lia; done).
  rewrite !dalign_id, !Z.eqb_refl by done. cbn [negb bug_on].
  destruct (grab_ok m1 G t1 cpu p true w s Hok Hp) as [Hg Hnone]; try done; try lia.
  { by apply mod_64_8, mod_128_64. }
  unfold set_d_wcl, sm_bind, sm_ret, sm_mod, get_cpu. rewrite Hp.
  set (t2 := set_pcpu _ t1) in *. assert (Hsw2 : same_words t t2).
  { destruct Hsw as (? & ? & ? & ?). split_and!; try done. simpl. by rewrite length_insert. }
  destruct bh; [| rewrite Z.add_0_r; exists t2; by split_and!; [| | constructor; eauto]].
  assert (Hz : forall x, w <= x < w + s -> word t2 x = 0).
  { intros x Hx. apply (ao_zero _ _ _ Hok). apply (covered_free m1 G t1 w); [done | done | lia]. }
  pose proof (po_m _ _ (ao_pages _ _ _ Hok)) as [_ Hdb].
  assert (Hs16 : 128 <= s) by (apply Z.mod_divide in Hs128 as [q ->]; lia).
  assert (Hw8 : w mod 8 = 0) by (by apply mod_64_8, mod_128_64).
  unfold tdb_htrie_init_bucket, sm_bind, wr64.
  rewrite in_map_true by (simpl; lia). set (t3 := set_mem _ t2).
  rewrite in_map_true by (simpl; try lia; rewrite Z.add_mod, Hw8 by lia; done). set (t4 := set_mem _ t3).
  assert (Hw4 : forall x, word t4 x = word t2 x).
  { intros x. subst t4. rewrite word_insert. subst t3. rewrite word_insert.
    destruct (decide (x = w + 8)) as [->|]; [symmetry; apply Hz; lia |].
    destruct (decide (x = w)) as [->|]; [symmetry; apply Hz; lia | done]. }
  exists t4. split; [done |]. split.
  - apply (same_words_trans t t2); [done |]. split_and!; try done.
  - constructor; try done. exists m1. split; [done |]. apply (alloc_ok_mem m1 _ t2); try done.
    intros x Hx. rewrite Hw4. by apply (ao_zero _ _ _ Hg).
Qed.

Lemma alloc_data_spec m G t cpu len bh : alloc_ok m G t -> (cpu < length (pcpu t))%nat -> 0 <= len ->
  exists o len' t', tdb_alloc_data cpu len bh t = Ok ((o, len'), t') /\ same_words t t' /\
    (o = 0 /\ len' = len /\ 4096 * m = dbsz t /\ t' = t \/
     exists base s, o = base + (if bh then sizeof_TdbBucket else 0) /\ data_region m G t t' bh len base s len').
Proof.
  intros Hok Hc Hlen. destruct (lookup_lt_is_Some_2 _ _ Hc) as [p Hp]. pose proof Hok as [Hpg Hin Hdj Hal Hcur Hsep Hz].
  destruct (Hal cpu p Hp) as [Hi Hdl]. pose proof (data_hdr_bounds t bh) as Hhb.
  assert (Hself : same_words t t) by (by split_and!).
  unfold tdb_alloc_data. unfold sm_bind at 1, sm_get at 1. unfold sm_bind at 1, get_cpu at 1. rewrite Hp.
  fold (data_hdr t bh). destruct (dalign_spec (len + data_hdr t bh)) as [Hr128 Hrb].
  set (res := TDB_HTRIE_DALIGN (len + data_hdr t bh)) in *.
  destruct ((mask_low 12 (d_wcl p) =? 0) || (TDB_BLK_O (d_wcl p) <? TDB_BLK_O (d_wcl p + res))) eqn:Enew.
  - unfold sm_bind at 1.
    destruct (alloc_blk_spec m t Hpg) as (t1 & Hsame & [(Hlt & -> & Hpg1)|(Hfull & -> & E)]).
    + destruct (po_m _ _ Hpg) as [Hm1 _]. destruct (page_addr_in m ltac:(lia)) as (Hpd & Hpm & Hpr).
      rewrite (proj2 (Z.eqb_neq (page_addr m) 0)) by lia.
      destruct (fresh_page m G t t1 Hok Hsame Hpg1) as (Hok1 & Hfr & Hot).
      assert (Hpe : page_end (page_addr m) = 4096 * m + 4096) by (unfold page_end; rewrite Hpd; lia).
      assert (Hmax : TDB_BLK_SZ - mask_low 12 (page_addr m) = page_end (page_addr m) - page_addr m).
      { rewrite mask_low_mod, Hpe by lia. change (2 ^ 12) with 4096. unfold TDB_BLK_SZ.
        pose proof (Z.div_mod (page_addr m) 4096 ltac:(lia)). lia. }
      rewrite Hmax. set (mx := page_end (page_addr m) - page_addr m) in *.
      assert (Hmxb : page_addr m + mx = page_end (page_addr m) /\ 3968 <= mx) by (subst mx; lia).
      assert (Hmx128 : mx mod 128 = 0).
      { subst mx. rewrite Zminus_mod, Hpe, Hpm. replace (4096 * m + 4096) with ((32 * m + 32) * 128) by lia. by rewrite Z.mod_mul. }
      assert (Hsw1 : same_words t t1).
      { destruct Hsame as (? & ? & Hpc & Hmem). split_and!; try done; [by rewrite Hpc | intros x; unfold word; by rewrite Hmem]. }
      assert (Hp1 : pcpu t1 !! cpu = Some p) by (by destruct Hsame as (_ & _ & -> & _)).
      destruct (Z.ltb_spec mx res).
      * assert (Hcut : mx - data_hdr t bh < len).
        { apply Z.mod_divide in Hmx128 as [q1 E1]; [| lia]. apply Z.mod_divide in Hr128 as [q2 E2]; lia. }
        destruct (data_finish m (m + 1) G t t1 cpu p bh len (page_addr m) mx (mx - data_hdr t bh)) as (t' & Hrun & Hsw & Hdr);
          try done; try lia; [intros o s'; by apply Hfr | by intros; apply (Hot _ c') |].
        exists (page_addr m + (if bh then sizeof_TdbBucket else 0)), (mx - data_hdr t bh), t'.
        split; [exact Hrun |]. split; [done |]. right. by exists (page_addr m), mx.
      * destruct (data_finish m (m + 1) G t t1 cpu p bh len (page_addr m) res len) as (t' & Hrun & Hsw & Hdr);
          try done; try lia; [intros o s'; by apply Hfr | by intros; apply (Hot _ c') |].
        exists (page_addr m + (if bh then sizeof_TdbBucket else 0)), len, t'.
        split; [exact Hrun |]. split; [done |]. right. by exists (page_addr m), res.
    + exists 0, len, t. rewrite E. split; [done |]. split; [done |]. by left.
  - apply orb_false_iff in Enew as [E1%Z.eqb_neq E2]. rewrite mask_low_mod in E1 by lia. change (2 ^ 12) with 4096 in E1.
    destruct (Hcur cpu p true Hp) as [|(Hw0 & Hpe & Hfr)]; [done |]. simpl wcl in *.
    pose proof (same_page_lt (d_wcl p) res ltac:(lia) E2).
    destruct (data_finish m m G t t cpu p bh len (d_wcl p) res len) as (t' & Hrun & Hsw & Hdr); try done; try lia.
    { intros c' p' k' Hc' Hne. destruct (Hsep cpu p true c' p' k' Hp Hc' Hne) as [|[|]]; [done | by left | right]. simpl in *. congruence. }
    exists (d_wcl p + (if bh then sizeof_TdbBucket else 0)), len, t'.
    split; [exact Hrun |]. split; [done |]. right. by exists (d_wcl p), res.
Qed.

(** ** Initialisation *)

Lemma alloc_blk_weak m t : pages_ok m t -> exists w t' m', tdb_alloc_blk t = Ok (w, t') /\ same_but_pages t t' /\
  pages_ok m' t' /\ m <= m' /\ w mod 128 = 0 /\ (w mod 4096 = 0 \/ 0 < w /\ w / 4096 = m /\ m' = m + 1).
Proof.
  intros Hpg. destruct (po_m _ _ Hpg) as [Hm _]. destruct (page_addr_in m ltac:(lia)) as (? & ? & ?).
  destruct (alloc_blk_spec m t Hpg) as (t' & Hs & [(Hlt & Hr & Hpg')|(Hf & Hr & ->)]).
  - exists (page_addr m), t', (m + 1). split_and!; try done; [lia |]. right. lia.
  - exists 0, t, m. split_and!; try done. by left.
Qed.

Lemma same_but_pages_trans t1 t2 t3 : same_but_pages t1 t2 -> same_but_pages t2 t3 -> same_but_pages t1 t3.
Proof. intros (? & ? & ? & ?) (? & ? & ? & ?). split_and!; congruence. Qed.

(** The pages of the CPUs are distinct. *)
Definition cpus_in (m m' : Z) (l : list TdbPerCpu) : Prop :=
  (forall c p, l !! c = Some p -> i_wcl p mod 64 = 0 /\ d_wcl p mod 128 = 0) /\
  (forall c p k, l !! c = Some p -> wcl k p mod 4096 = 0 \/ 0 < wcl k p /\ m <= wcl k p / 4096 < m') /\
  (forall c p k c' p' k', l !! c = Some p -> l !! c' = Some p' -> (c, k) <> (c', k') ->
    wcl k p mod 4096 = 0 \/ wcl k' p' mod 4096 = 0 \/ wcl k p / 4096 <> wcl k' p' / 4096).

Lemma init_cpus_spec n : forall m t, pages_ok m t -> exists l t' m', init_cpus n t = Ok (l, t') /\ same_but_pages t t' /\
  pages_ok m' t' /\ m <= m' /\ length l = n /\ cpus_in m m' l.
Proof.
  induction n as [|n IH]; intros m t Hpg; cbn [init_cpus].
  - exists [], t, m. split_and!; try done; by intros.
  - destruct (alloc_blk_weak m t Hpg) as (i & t1 & m1 & R1 & S1 & P1 & L1 & A1 & W1).
    destruct (alloc_blk_weak m1 t1 P1) as (d & t2 & m2 & R2 & S2 & P2 & L2 & A2 & W2).
    destruct (IH m2 t2 P2) as (l & t3 & m3 & R3 & S3 & P3 & L3 & Len & HA & HI & HS).
    exists (MkPcpu i d :: l), t3, m3. unfold cpus_in. split_and!.
    + unfold sm_bind. by rewrite R1, R2, R3.
    + eapply same_but_pages_trans; [done |]. by eapply same_but_pages_trans.
    + done.
    + lia.
    + by simpl; rewrite Len.
    + intros [|c] p Hc; [injection Hc as <-; by split; [apply mod_128_64 |] | by eapply HA].
    + intros [|c] p k Hc; [injection Hc as <-; destruct k; simpl; lia |].
      destruct (HI c p k Hc) as [|?]; [by left | right; lia].
    + intros [|c] p k [|c'] p' k' Hc Hc' Hne; try (injection Hc as <-); try (injection Hc' as <-).
      * destruct k, k'; simpl; try congruence; lia.
      * destruct (HI c' p' k' Hc'); [lia |]. destruct k; simpl; lia.
      * destruct (HI c p k Hc); [lia |]. destruct k'; simpl; lia.
      * apply (HS c p k c' p' k'); [done | done | congruence].
Qed.

(** The regions of a new table: the header (but its first word) and the root. *)
Definition init_regions (t : Tdb) : gmap Z Z := <[8 := TDB_HTRIE_ROOT t - 8]> {[TDB_HTRIE_ROOT t := 64]}.

Lemma root_bounds t : 0 < dbsz t <= TDB_MAX_DB_SZ -> 128 <= TDB_HTRIE_ROOT t <= 8320 /\ TDB_HTRIE_ROOT t mod 8 = 0.
Proof.
  intros H. pose proof (hdr_sz_bounds t H). unfold TDB_HTRIE_ROOT, sizeof_TdbExt. split; [lia |].
  unfold TDB_HDR_SZ, sizeof_TdbHdr. replace (64 + TDB_EXT_BMP_2L t * 8 + 64) with ((16 + TDB_EXT_BMP_2L t) * 8) by lia.
  apply Z.mod_mul. lia.
Qed.

Lemma init_mapping_pages db_size rlen t : db_size mod 2 ^ 21 = 0 -> 0 < db_size -> tdb_init_mapping db_size rlen = Some t ->
  dbsz t = db_size /\ rec_len t = rlen /\ mem t = ∅ /\ pcpu t = [] /\ exists m, pages_ok m t /\ TDB_HTRIE_ROOT t + 64 <= 4096 * m.
Proof.
  intros Hmod Hpos. unfold tdb_init_mapping. destruct ((TDB_MAX_DB_SZ <? db_size) || _) eqn:E; [done |].
  apply orb_false_iff in E as [Emax%Z.ltb_ge _]. set (t0 := MkTdb db_size rlen 0 [] ∅ ∅).
  intros [= <-]. split_and!; try done.
  assert (Hb : 0 < dbsz t0 <= TDB_MAX_DB_SZ) by (simpl; lia). pose proof (hdr_sz_bounds t0 Hb) as Hh.
  pose proof (align_spec 12 (TDB_HDR_SZ t0 + sizeof_TdbExt + sizeof_TdbHtrieNode) ltac:(lia)) as [Ha1 Ha2].
  change (2 ^ 12) with 4096 in *. unfold TDB_BLK_ALIGN, TDB_BLK_O, TDB_BLK_SZ, TDB_HTRIE_ROOT.
  set (hs := mask_high 12 (TDB_HDR_SZ t0 + sizeof_TdbExt + sizeof_TdbHtrieNode + 4096 - 1)) in *.
  apply Z.mod_divide in Ha1 as [m Hm]; [| lia]. unfold sizeof_TdbExt, sizeof_TdbHtrieNode in *.
  assert (Hm3 : m = 1 \/ m = 2 \/ m = 3) by lia. rewrite Hm, Z.div_mul by lia. exists m.
  change (TDB_HDR_SZ (MkTdb _ _ _ _ _ _)) with (TDB_HDR_SZ t0). split; [| lia].
  assert (2 ^ 21 <= db_size) by (apply Z.mod_divide in Hmod as [q Hq]; lia).
  constructor; cbn [dbsz nwb].
  - done.
  - done.
  - lia.
  - intros e He. unfold get_bmp. cbn [bmp]. destruct (Z.eq_dec e 0) as [->|Hne].
    + rewrite lookup_singleton_eq. by destruct Hm3 as [->|[->| ->]].
    + rewrite lookup_singleton_ne by done. replace (Z.max 0 (Z.min 512 (m - 512 * e))) with 0 by lia. done.
  - left. lia.
Qed.

Lemma htrie_init_ok db_size rlen cpus t : db_size mod 2 ^ 21 = 0 -> 0 < db_size -> tdb_init_mapping db_size rlen = Some t ->
  exists t' m, tdb_htrie_init cpus t = Ok t' /\ alloc_ok m (init_regions t') t' /\
    dbsz t' = db_size /\ rec_len t' = rlen /\ length (pcpu t') = cpus /\ forall x, word t' x = 0.
Proof.
  intros Hmod Hpos Ht. destruct (init_mapping_pages _ _ _ Hmod Hpos Ht) as (Hd & Hr & Hmem & Hpc & m0 & Hpg & Hroot).
  destruct (init_cpus_spec cpus m0 t Hpg) as (l & t1 & m & Hrun & (Sd & Sr & Sp & Smem) & Hpg1 & Hm & Hlen & HA & HI & HS).
  exists (set_pcpu l t1), m. split; [unfold tdb_htrie_init; by rewrite Hrun |].
  assert (Hz : forall x, word (set_pcpu l t1) x = 0) by (intros x; unfold word; simpl; by rewrite Smem, Hmem).
  split; [| split_and!; simpl; congruence].
  destruct (root_bounds t (po_max _ _ Hpg)) as [Hrb Hr8].
  assert (HG : init_regions (set_pcpu l t1) = init_regions t).
  { unfold init_regions, TDB_HTRIE_ROOT, TDB_HDR_SZ, TDB_EXT_BMP_2L. simpl. by rewrite Sd. }
  rewrite HG. set (R := TDB_HTRIE_ROOT t) in *.
  assert (Hreg : forall o s, init_regions t !! o = Some s -> o = 8 /\ s = R - 8 \/ o = R /\ s = 64).
  { intros o s. unfold init_regions. rewrite lookup_insert_Some, lookup_singleton_Some. clear. intros [[<- <-]|[_ [<- <-]]]; [by left | by right]. }
  constructor; simpl pcpu; try done.
  - destruct Hpg1. by constructor.
  - intros o s [[-> ->]|[-> ->]]%Hreg; split_and!; try done; lia.
  - intros o s o' s' [[-> ->]|[-> ->]]%Hreg [[-> ->]|[-> ->]]%Hreg Hne; lia.
  - intros c p k Hc. destruct (HI c p k Hc) as [|(Hw & Hpgs)]; [by left | right]. unfold page_end.
    pose proof (Z.mul_div_le (wcl k p) 4096 ltac:(lia)).
    split_and!; [done | lia |]. intros o s [[-> ->]|[-> ->]]%Hreg; left; lia.
Qed.

(** ** Sequences of allocations *)

Inductive alloc_req := AllocIndex | AllocData (len : Z) (bucket_hdr : bool).

(** The bytes that the caller of an allocator may use, or [None] if there is no room. *)
Definition alloc_one (cpu : nat) (r : alloc_req) : TM (option (Z * Z)) :=
  match r with
  | AllocIndex => o <~ tdb_alloc_index cpu;; sm_ret (if o =? 0 then None else Some (o, o + sizeof_TdbHtrieNode))
  | AllocData len bh =>
      a <~ tdb_alloc_data cpu len bh;; t <~ sm_get;;
      sm_ret (if a.1 =? 0 then None
              else let base := a.1 - (if bh then sizeof_TdbBucket else 0) in Some (base, base + data_hdr t bh + a.2))
  end.

Fixpoint alloc_all (l : list (nat * alloc_req)) : TM (list (option (Z * Z))) :=
  match l with
  | [] => sm_ret []
  | (cpu, r) :: l => x <~ alloc_one cpu r;; xs <~ alloc_all l;; sm_ret (x :: xs)
  end.

Definition req_ok (cpus : nat) (r : nat * alloc_req) : Prop :=
  (r.1 < cpus)%nat /\ match r.2 with AllocIndex => True | AllocData len _ => 0 <= len end.

Definition req_align (r : alloc_req) : Z := match r with AllocIndex => 64 | AllocData _ _ => 128 end.

Lemma data_hdr_same t t' bh : same_words t t' -> data_hdr t' bh = data_hdr t bh.
Proof. intros (_ & H & _). unfold data_hdr, TDB_HTRIE_VARLENRECS. by rewrite H. Qed.

Lemma alloc_one_spec m G t cpu r : alloc_ok m G t -> req_ok (length (pcpu t)) (cpu, r) ->
  exists x t' m' G', alloc_one cpu r t = Ok (x, t') /\ same_words t t' /\ m <= m' /\ alloc_ok m' G' t' /\ G ⊆ G' /\
    match x with
    | None => 4096 * m = dbsz t
    | Some (a, b) => 0 < a /\ a mod req_align r = 0 /\ G !! a = None /\ exists s, G' !! a = Some s /\ b <= a + s
    end.
Proof.
  intros Hok [Hc Hr]. destruct r as [|len bh]; unfold alloc_one; simpl in Hc, Hr.
  - destruct (alloc_index_spec m G t cpu Hok Hc) as (o & t' & Hrun & Hsw & Ho). unfold sm_bind. rewrite Hrun.
    destruct Ho as [(-> & Hf & ->)|(Hn & Hpos & Hal & m' & Hm & Hok')].
    + by exists None, t, m, G.
    + rewrite (proj2 (Z.eqb_neq o 0)) by lia. exists (Some (o, o + sizeof_TdbHtrieNode)), t', m', (<[o := 64]> G).
      split_and!; try done; [lia | by apply insert_subseteq |]. exists 64. by rewrite lookup_insert_eq.
  - destruct (alloc_data_spec m G t cpu len bh Hok Hc Hr) as (o & len' & t' & Hrun & Hsw & Ho). unfold sm_bind. rewrite Hrun.
    unfold sm_get, sm_ret. rewrite (data_hdr_same t t') by done. cbn [fst snd].
    destruct Ho as [(-> & _ & Hf & ->)|(base & s & -> & [Hn (Hpos & Hal & _) Hlen _ (m' & Hm & Hok')])].
    + by exists None, t, m, G.
    + rewrite (proj2 (Z.eqb_neq _ 0)) by (destruct bh; unfold sizeof_TdbBucket; lia).
      rewrite Z.add_simpl_r. exists (Some (base, base + data_hdr t bh + len')), t', m', (<[base := s]> G).
      split_and!; try done; [lia | by apply insert_subseteq |]. exists s. rewrite lookup_insert_eq. split; [done | lia].
Qed.

Lemma alloc_all_spec reqs : forall m G t, alloc_ok m G t -> Forall (req_ok (length (pcpu t))) reqs ->
  exists rs t' m' G', alloc_all reqs t = Ok (rs, t') /\ same_words t t' /\ m <= m' /\ alloc_ok m' G' t' /\ G ⊆ G' /\
    length rs = length reqs /\ (None ∈ rs -> 4096 * m' = dbsz t) /\
    (forall i a b, rs !! i = Some (Some (a, b)) -> 0 < a /\ G !! a = None /\
      (exists q, reqs !! i = Some q /\ a mod req_align q.2 = 0) /\ exists s, G' !! a = Some s /\ b <= a + s) /\
    (forall i j a b a' b', rs !! i = Some (Some (a, b)) -> rs !! j = Some (Some (a', b')) -> i <> j -> a <> a').
Proof.
  induction reqs as [|[cpu r] reqs IH]; intros m G t Hok Hreq; cbn [alloc_all].
  - exists [], t, m, G. split_and!; try done. intros H. by apply elem_of_nil in H.
  - apply Forall_cons in Hreq as [Hr Hreq].
    destruct (alloc_one_spec m G t cpu r Hok Hr) as (x & t1 & m1 & G1 & R1 & S1 & M1 & O1 & G01 & Hx).
    assert (Hlen : length (pcpu t1) = length (pcpu t)) by (by destruct S1 as (_ & _ & -> & _)).
    destruct (IH m1 G1 t1 O1 ltac:(by rewrite Hlen)) as (rs & t2 & m2 & G2 & R2 & S2 & M2 & O2 & G12 & Len & Hfull & Hrs & Hne).
    exists (x :: rs), t2, m2, G2. assert (Ed : dbsz t1 = dbsz t) by (by destruct S1).
    split_and!.
    + unfold sm_bind. by rewrite R1, R2.
    + by eapply same_words_trans.
    + lia.
    + done.
    + by transitivity G1.
    + by simpl; rewrite Len.
    + intros [E|H]%elem_of_cons; [| rewrite <- Ed; by apply Hfull]. subst x.
      pose proof (po_m _ _ (ao_pages _ _ _ O2)). destruct S2 as (E2 & _). rewrite E2, Ed in *. lia.
    + intros [|i] a b Hi.
      * injection Hi as ->. destruct Hx as (? & ? & ? & s & Hs & ?). split_and!; try done; [by eexists |].
        exists s. split; [by eapply lookup_weaken | done].
      * destruct (Hrs i a b Hi) as (? & HG & ? & ?). split_and!; try done. by eapply lookup_weaken_None.
    + intros [|i] [|j] a b a' b' Hi Hj Hij; [done | | |].
      * injection Hi as ->. destruct Hx as (_ & _ & _ & s & Hs & _). destruct (Hrs j a' b' Hj) as (_ & HG & _). congruence.
      * injection Hj as ->. destruct Hx as (_ & _ & _ & s & Hs & _). destruct (Hrs i a b Hi) as (_ & HG & _). congruence.
      * apply (Hne i j a b a' b'); [done | done | congruence].
Qed.

Lemma bmp_full : bmp_of 512 = replicate 8 (2 ^ 64 - 1).
Proof. done. Qed.

(** C16: on a table of any legal size, any sequence of allocations of index nodes and
    data blocks by its CPUs succeeds without a BUG: what is handed out lies behind the header and
    the root in the file, an index node is aligned to a cache line and a data block to two,
    two of them never overlap, and all of it is still zero.  There is no room only when every page of
    every extent is in use. *)
Theorem tdb_alloc_disjoint db_size rlen cpus reqs t0 :
  db_size mod 2 ^ 21 = 0 -> 0 < db_size -> tdb_init_mapping db_size rlen = Some t0 -> Forall (req_ok cpus) reqs ->
  exists t1 rs t2, tdb_htrie_init cpus t0 = Ok t1 /\ alloc_all reqs t1 = Ok (rs, t2) /\ length rs = length reqs /\
    (forall i a b, rs !! i = Some (Some (a, b)) -> TDB_HTRIE_ROOT t2 + sizeof_TdbHtrieNode <= a /\ b <= db_size /\
      exists q, reqs !! i = Some q /\ a mod req_align q.2 = 0) /\
    (forall i j a b a' b', i <> j -> rs !! i = Some (Some (a, b)) -> rs !! j = Some (Some (a', b')) -> b <= a' \/ b' <= a) /\
    (forall x, word t2 x = 0) /\
    (None ∈ rs -> forall e, 0 <= e < db_size / 2 ^ 21 -> get_bmp t2 e = replicate 8 (2 ^ 64 - 1)).
Proof.
  intros Hmod Hpos Ht Hreq. destruct (htrie_init_ok _ _ cpus _ Hmod Hpos Ht) as (t1 & m & Hrun & Hok & Hd & _ & Hlen & Hz).
  destruct (alloc_all_spec reqs m _ t1 Hok ltac:(by rewrite Hlen))
    as (rs & t2 & m' & G & Hall & (Sd & _ & _ & Sw) & Hm & Hok' & Hsub & Hl & Hfull & Hrs & Hne).
  exists t1, rs, t2. pose proof Hok' as [Hpg Hin Hdj _ _ _ _]. pose proof (po_m _ _ Hpg) as [_ Hdb].
  split_and!; try done.
  - intros i a b Hi. destruct (Hrs i a b Hi) as (Ha & Hnew & (q & Hq & Hal) & s & Hs & Hb).
    destruct (Hin a s Hs) as (Hs0 & _ & _ & Hend). split_and!; [| lia | by exists q].
    assert (HR : TDB_HTRIE_ROOT t2 = TDB_HTRIE_ROOT t1) by (unfold TDB_HTRIE_ROOT, TDB_HDR_SZ, TDB_EXT_BMP_2L; by rewrite Sd).
    rewrite HR. destruct (root_bounds t1 (po_max _ _ (ao_pages _ _ _ Hok))) as [HRb _].
    assert (G !! 8 = Some (TDB_HTRIE_ROOT t1 - 8)) as G1 by (eapply lookup_weaken, Hsub; apply lookup_insert_eq).
    assert (G !! TDB_HTRIE_ROOT t1 = Some 64) as G2.
    { eapply lookup_weaken, Hsub. unfold init_regions. rewrite lookup_insert_ne by lia. apply lookup_singleton_eq. }
    assert (64 <= a).
    { apply Z.mod_divide in Hal as [z Hz']; [| by destruct q.2]. destruct q.2; simpl in Hz'; lia. }
    assert (a <> TDB_HTRIE_ROOT t1).
    { intros ->. unfold init_regions in Hnew. rewrite lookup_insert_ne, lookup_singleton_eq in Hnew by lia. done. }
    destruct (Hdj a s 8 _ Hs G1 ltac:(lia)); [lia |]. destruct (Hdj a s _ _ Hs G2 ltac:(lia)); unfold sizeof_TdbHtrieNode; lia.
  - intros i j a b a' b' Hij Hi Hj. destruct (Hrs i a b Hi) as (_ & _ & _ & s & Hs & Hb).
    destruct (Hrs j a' b' Hj) as (_ & _ & _ & s' & Hs' & Hb').
    destruct (Hdj a s a' s' Hs Hs' (Hne i j a b a' b' Hi Hj Hij)); lia.
  - intros x. by rewrite Sw.
  - intros Hn e He. rewrite (po_bmp _ _ Hpg) by lia. specialize (Hfull Hn).
    pose proof (Z.mul_div_le db_size (2 ^ 21) ltac:(lia)). rewrite Z.max_r, Z.min_l by lia. apply bmp_full.
Qed.

(** A table of one extent and a CPU that asks for a bucket of 100 bytes, a node, and more than a page. *)
Lemma tdb_alloc_disjoint_witness : exists t0 t1 rs t2, tdb_init_mapping (2 ^ 21) 0 = Some t0 /\ tdb_htrie_init 1 t0 = Ok t1 /\
  alloc_all [(0%nat, AllocData 100 true); (0%nat, AllocIndex); (0%nat, AllocData 5000 false)] t1 = Ok (rs, t2) /\
  length rs = 3%nat /\ forall x, word t2 x = 0.
Proof.
  destruct (tdb_init_mapping (2 ^ 21) 0) as [t0|] eqn:E0; [| discriminate E0].
  destruct (tdb_alloc_disjoint (2 ^ 21) 0 1 [(0%nat, AllocData 100 true); (0%nat, AllocIndex); (0%nat, AllocData 5000 false)] t0 eq_refl ltac:(lia) E0)
    as (t1 & rs & t2 & H1 & H2 & H3 & _ & _ & H4 & _).
  - repeat constructor; simpl; lia.
  - exists t0, t1, rs, t2. exact (conj eq_refl (conj H1 (conj H2 (conj H3 H4)))).
Defined.

Example alloc_example :
  match tdb_init_mapping (2 ^ 21) 0 with
  | Some t0 => (let! t1 := tdb_htrie_init 1 t0 in let! r := alloc_all [(0%nat, AllocData 100 true); (0%nat, AllocIndex); (0%nat, AllocData 5000 false)] t1 in Ok r.1)
  | None => Bug
  end = Ok [Some (12288, 12420); Some (16384, 16448); Some (20480, 24576)].
Proof. vm_compute. reflexivity. Qed.
