(* ===== verification/Htrie.v ===== *)
(** * Tempesta DB: the burst hash trie

    [db/core/htrie.c] and the record interface of [db/core/main.c].  An index node has 16
    entries of 32 bits, one for each value of the next four bits of a key, from the least
    significant on: empty, the index of a node, or, with the highest bit set, the index of a
    data block.  A data block is a bucket of records: a header, and records one after the
    other in the first 128 bytes, or one longer record.  Records with the same 64-bit key are in
    buckets chained by [coll_next].  Records have a fixed size ([TdbFRec]: the key and
    the data) or a length and further chunks ([TdbVRec]).

    Keys and data are words; the data of a record of [len] bytes are [len / 8] words, rounded
    up and padded with zero bytes.  Locks are not modelled. *)

From S2P Require Import Prelude Tdb.

#[local] Open Scope Z_scope.

(** ** Fields *)

Definition TDB_HTRIE_IDX (k b : Z) : Z := Z.land (Z.shiftr k b) 15.
Definition TDB_HTRIE_RESOLVED (b : Z) : bool := BITS_PER_LONG <? b + TDB_HTRIE_BITS.

Definition get_shift (node i : Z) : TM Z := rd32 (node + 4 * i).
Definition set_shift (node i v : Z) : TM unit := wr32 (node + 4 * i) v.

Definition get_coll_next (b : Z) : TM Z := rd32 b.
Definition set_coll_next (b v : Z) : TM unit := wr32 b v.
Definition get_flags (b : Z) : TM Z := rd32 (b + 4).
Definition set_flags (b v : Z) : TM unit := wr32 (b + 4) v.
Definition TDB_HTRIE_BCKT_1ST_REC (b : Z) : Z := b + sizeof_TdbBucket.
Definition TDB_HTRIE_BUCKET_KEY (b : Z) : TM Z := rd64 (TDB_HTRIE_BCKT_1ST_REC b).

(** 0 is the end of the chain. *)
Definition TDB_HTRIE_BUCKET_NEXT (b : Z) : TM Z := n <~ get_coll_next b;; sm_ret (if n =? 0 then 0 else TDB_DI2O n).

Definition get_key (r : Z) : TM Z := rd64 r.
Definition get_chunk_next (r : Z) : TM Z := rd32 (r + 8).
Definition set_chunk_next (r v : Z) : TM unit := wr32 (r + 8) v.
Definition get_len (r : Z) : TM Z := rd32 (r + 12).
Definition set_len (r v : Z) : TM unit := wr32 (r + 12) v.

Definition VRLEN (len : Z) : Z := Z.land len (2 ^ 31 - 1).

(** [TDB_HTRIE_RECLEN()]: the size of a record of the table. *)
Definition TDB_HTRIE_RECLEN (r : Z) : TM Z :=
  t <~ sm_get;;
  if TDB_HTRIE_VARLENRECS t then l <~ get_len r;; sm_ret (TDB_HTRIE_RALIGN (sizeof_TdbVRec + VRLEN l))
  else sm_ret (TDB_HTRIE_RALIGN (sizeof_TdbFRec + rec_len t)).

(** [TDB_HTRIE_RALIGN(sizeof( *r) + TDB_HTRIE_RBODYLEN(dbh, r))] with a [TdbRec *r], which is a
    [TdbFRec *]. *)
Definition scan_len (r : Z) : TM Z :=
  t <~ sm_get;;
  b <~ (if negb (rec_len t =? 0) then sm_ret (rec_len t) else l <~ get_len r;; sm_ret (VRLEN l));;
  sm_ret (TDB_HTRIE_RALIGN (sizeof_TdbFRec + b)).

Definition tdb_live_fsrec (r : Z) : TM bool :=
  t <~ sm_get;;
  l <~ rd_words r (Z.to_nat (TDB_HTRIE_RALIGN (sizeof_TdbFRec + rec_len t) / 8));;
  sm_ret (existsb (fun w => negb (w =? 0)) l).

Definition tdb_live_vsrec (r : Z) : TM bool :=
  l <~ get_len r;; sm_ret (negb (l =? 0) && negb (has_flag l TDB_HTRIE_VRFREED)).

Definition tdb_live_rec (r : Z) : TM bool :=
  t <~ sm_get;; if TDB_HTRIE_VARLENRECS t then tdb_live_vsrec r else tdb_live_fsrec r.

Definition sizeof_rec (t : Tdb) : Z := if TDB_HTRIE_VARLENRECS t then sizeof_TdbVRec else sizeof_TdbFRec.

(** ** Freeing *)

Definition tdb_free_index_blk (node : Z) : TM unit := zero_words node sizeof_TdbHtrieNode.
Definition tdb_free_fsrec (r : Z) : TM unit := t <~ sm_get;; zero_words r (TDB_HTRIE_RALIGN (sizeof_TdbFRec + rec_len t)).
Definition tdb_free_vsrec (r : Z) : TM unit := l <~ get_len r;; set_len r (Z.lor l TDB_HTRIE_VRFREED).
Definition tdb_free_data_blk (b : Z) : TM unit := f <~ get_flags b;; set_flags b (Z.lor f TDB_HTRIE_VRFREED).

(** ** Room for a small record *)

(** The records of one bucket; the offset of the room or 0. *)
Fixpoint room_in_bucket (fuel : nat) (len b r : Z) : TM Z :=
  match fuel with
  | O => sm_bug
  | S fuel =>
      t <~ sm_get;;
      if TDB_HTRIE_MINDREC <? r - b + sizeof_rec t then sm_ret 0
      else
        rlen <~ TDB_HTRIE_RECLEN r;;
        if TDB_HTRIE_MINDREC <? r - b + rlen then sm_ret 0
        else
          live <~ tdb_live_rec r;;
          let n := r - b + TDB_HTRIE_RALIGN (sizeof_rec t + len) in
          if negb live && (n <=? TDB_HTRIE_MINDREC) then
            (if TDB_HTRIE_VARLENRECS t then
               l <~ get_len r;; zero_words r (TDB_HTRIE_RALIGN (sizeof_TdbVRec + VRLEN l))
             else sm_ret tt);;;
            sm_ret r
          else room_in_bucket fuel len b (r + rlen)
  end.

(** [fuel] bounds the length of a collision chain. *)
Fixpoint smallrec_chain (fuel : nat) (len b : Z) : TM Z :=
  match fuel with
  | O => sm_bug
  | S fuel =>
      if b =? 0 then sm_ret 0
      else
        o <~ room_in_bucket 16 len b (TDB_HTRIE_BCKT_1ST_REC b);;
        if negb (o =? 0) then sm_ret o
        else b <~ TDB_HTRIE_BUCKET_NEXT b;; smallrec_chain fuel len b
  end.

Definition chain_fuel (t : Tdb) : nat := Z.to_nat (dbsz t / TDB_HTRIE_MINDREC + 1).

Definition tdb_htrie_smallrec_link (len bckt : Z) : TM Z :=
  t <~ sm_get;; smallrec_chain (chain_fuel t) len bckt.

(** ** Bursting a bucket *)

(** [nb]: the bucket for each index and where its next record goes ([unsigned char]). *)
Record burst_st := MkBurst { bs_nb : list (Z * Z); bs_free : Z }.

Definition nb_at (s : burst_st) (k : Z) : Z * Z := default (0, 0) (bs_nb s !! Z.to_nat k).
Definition nb_set (s : burst_st) (k b off : Z) : burst_st := MkBurst (<[Z.to_nat k := (b, u8 off)]> (bs_nb s)) (bs_free s).

(** The records behind the first; [None] is [goto err_cleanup].  A record is never shorter than
    8 bytes, which bounds the rounds. *)
Fixpoint move_records (fuel : nat) (cpu : nat) (new_in bckt bits : Z) (r : Z) (s : burst_st) : TM (burst_st * bool) :=
  match fuel with
  | O => sm_bug
  | S fuel =>
      t <~ sm_get;;
      let copied := r - bckt in
      if TDB_HTRIE_MINDREC <=? sizeof_rec t + copied then sm_ret (s, true)
      else
        n <~ TDB_HTRIE_RECLEN r;;
        if TDB_HTRIE_MINDREC <=? n + copied then sm_ret (s, true)
        else
          live <~ tdb_live_rec r;;
          if negb live then move_records fuel cpu new_in bckt bits (r + n) s
          else
            key <~ get_key r;;
            let k := TDB_HTRIE_IDX key bits in
            let '(b, off) := nb_at s k in
            if b =? 0 then
              a <~ tdb_alloc_data cpu 0 false;;
              let b := a.1 in
              if b =? 0 then sm_ret (s, false)
              else
                tdb_htrie_init_bucket b;;;
                copy_words (TDB_HTRIE_BCKT_1ST_REC b) r n;;;
                set_shift new_in k (Z.lor (TDB_O2DI b) TDB_HTRIE_DBIT);;;
                let s := nb_set s k b (sizeof_TdbBucket + n) in
                let s := MkBurst (bs_nb s) (if 0 <? bs_free s then bs_free s else - bs_free s) in
                move_records fuel cpu new_in bckt bits (r + n) s
            else
              copy_words (b + off) r n;;;
              move_records fuel cpu new_in bckt bits (r + n) (nb_set s k b (off + n))
  end.

Fixpoint free_new_blks (l : list (Z * Z)) (i free_nb : Z) : TM unit :=
  match l with
  | [] => sm_ret tt
  | (b, _) :: l =>
      (if negb (i =? free_nb) && negb (b =? 0) then tdb_free_data_blk b else sm_ret tt);;;
      free_new_blks l (i + 1) free_nb
  end.

(** The new node, or [None] for -ENOMEM. *)
Definition tdb_htrie_burst (cpu : nat) (node bckt key bits : Z) : TM (option Z) :=
  new_in <~ tdb_alloc_index cpu;;
  if new_in =? 0 then sm_ret None
  else
    let r := TDB_HTRIE_BCKT_1ST_REC bckt in
    key1 <~ get_key r;;
    let k := TDB_HTRIE_IDX key1 bits in
    set_shift new_in k (Z.lor (TDB_O2DI bckt) TDB_HTRIE_DBIT);;;
    n <~ TDB_HTRIE_RECLEN r;;
    let s := nb_set (MkBurst (replicate 16 (0, 0)) (- k)) k bckt (sizeof_TdbBucket + n) in
    m <~ move_records 16 cpu new_in bckt bits (r + n) s;;
    let '(s, ok) := m in
    if ok : bool then
      set_shift node (TDB_HTRIE_IDX key (bits - TDB_HTRIE_BITS)) (TDB_O2II new_in);;;
      (if 0 <? bs_free s then
         let '(b, off) := nb_at s (bs_free s) in
         zero_words (b + off) (TDB_HTRIE_MINDREC - off)
       else sm_ret tt);;;
      sm_ret (Some new_in)
    else
      (if 0 <? bs_free s then free_new_blks (bs_nb s) 0 (bs_free s) else sm_ret tt);;;
      tdb_free_index_blk new_in;;;
      sm_ret None.

(** ** Descending *)

(** The offset of the data block, or 0; the last node; the resolved bits. *)
Fixpoint descend_loop (fuel : nat) (node key bits : Z) : TM (Z * Z * Z) :=
  match fuel with
  | O => sm_bug
  | S fuel =>
      bug_on (TDB_HTRIE_RESOLVED bits);;;
      o <~ get_shift node (TDB_HTRIE_IDX key bits);;
      t <~ sm_get;;
      let d := VRLEN o in
      bug_on (negb (o =? 0) && ((TDB_DI2O d <? TDB_HDR_SZ t + sizeof_TdbExt) || (dbsz t <? TDB_DI2O d)));;;
      if has_flag o TDB_HTRIE_DBIT then
        let o := Z.lxor o TDB_HTRIE_DBIT in
        bug_on (o =? 0);;;
        sm_ret (TDB_DI2O o, node, bits + TDB_HTRIE_BITS)
      else if o =? 0 then sm_ret (0, node, bits)
      else descend_loop fuel (TDB_II2O o) key (bits + TDB_HTRIE_BITS)
  end.

Definition tdb_htrie_descend (node key bits : Z) : TM (Z * Z * Z) := descend_loop 17 node key bits.

(** ** Records *)

(** [data] are the words of the data, if there are any. *)
Definition tdb_htrie_create_rec (off key : Z) (data : option (list Z)) (len : Z) : TM Z :=
  t <~ sm_get;;
  k <~ get_key off;;
  bug_on (negb (k =? 0));;;
  wr64 off key;;;
  (if TDB_HTRIE_VARLENRECS t then
     l <~ get_len off;; c <~ get_chunk_next off;;
     bug_on (negb (l =? 0) || negb (c =? 0));;;
     set_chunk_next off 0;;;
     set_len off (u32 len)
   else sm_ret tt);;;
  match data with
  | None => sm_ret tt
  | Some ws => wr_words (off + sizeof_rec t) (take (Z.to_nat (TDB_HTRIE_RALIGN len / 8)) ws)
  end;;;
  sm_ret off.

(** The last chunk of a record. *)
Fixpoint last_chunk (fuel : nat) (r : Z) : TM Z :=
  match fuel with
  | O => sm_bug
  | S fuel => c <~ get_chunk_next r;; if c =? 0 then sm_ret r else last_chunk fuel (TDB_DI2O c)
  end.

(** The new chunk, or 0. *)
Definition tdb_htrie_extend_rec (cpu : nat) (rec size : Z) : TM Z :=
  t <~ sm_get;;
  bug_on (negb (TDB_HTRIE_VARLENRECS t));;;
  a <~ tdb_alloc_data cpu size false;;
  let '(o, size) := a in
  if o =? 0 then sm_ret 0
  else
    key <~ get_key rec;;
    wr64 o key;;;
    set_chunk_next o 0;;;
    set_len o (u32 size);;;
    r <~ last_chunk (chain_fuel t) rec;;
    live <~ tdb_live_vsrec r;;
    bug_on (negb live);;;
    set_chunk_next r (TDB_O2DI o);;;
    sm_ret o.

(** ** Insertion *)

(** The last bucket of a chain. *)
Fixpoint last_bucket (fuel : nat) (b : Z) : TM Z :=
  match fuel with
  | O => sm_bug
  | S fuel =>
      n <~ get_coll_next b;; f <~ get_flags b;;
      if negb (n =? 0) && negb (has_flag f TDB_HTRIE_VRFREED) then
        b <~ TDB_HTRIE_BUCKET_NEXT b;; last_bucket fuel b
      else sm_ret b
  end.

(** From the label [retry]: the record, or 0 for NULL, and [*len]. *)
Fixpoint insert_loop (fuel : nat) (cpu : nat) (node key bits : Z) (data : option (list Z)) (len : Z) : TM (Z * Z) :=
  match fuel with
  | O => sm_bug
  | S fuel =>
      d <~ tdb_htrie_descend node key bits;;
      let '(o, node, bits) := d in
      if o =? 0 then
        a <~ tdb_alloc_data cpu len true;;
        let '(o, len) := a in
        if o =? 0 then sm_ret (0, len)
        else
          rec <~ tdb_htrie_create_rec o key data len;;
          let i := TDB_HTRIE_IDX key bits in
          old <~ get_shift node i;;
          if old =? 0 then
            set_shift node i (Z.lor (TDB_O2DI o) TDB_HTRIE_DBIT);;;
            sm_ret (rec, len)
          else insert_loop fuel cpu node key bits data len
      else
        let bckt := o in
        moved <~ (if negb (TDB_HTRIE_RESOLVED bits) then
                    bug_on (bits <? TDB_HTRIE_BITS);;;
                    o_new <~ get_shift node (TDB_HTRIE_IDX key (bits - TDB_HTRIE_BITS));;
                    sm_ret ((o_new =? 0) || negb (TDB_DI2O (VRLEN o_new) =? o))
                  else sm_ret false);;
        if moved : bool then insert_loop fuel cpu node key (bits - TDB_HTRIE_BITS) data len
        else
          o <~ (if len <? TDB_HTRIE_MINDREC then tdb_htrie_smallrec_link (TDB_HTRIE_RALIGN len) bckt else sm_ret 0);;
          if negb (o =? 0) then rec <~ tdb_htrie_create_rec o key data len;; sm_ret (rec, len)
          else if TDB_HTRIE_RESOLVED bits then
            k <~ TDB_HTRIE_BUCKET_KEY bckt;;
            bug_on (negb (k =? key));;;
            t <~ sm_get;;
            last <~ last_bucket (chain_fuel t) bckt;;
            a <~ tdb_alloc_data cpu len true;;
            let '(o, len) := a in
            if o =? 0 then sm_ret (0, len)
            else
              rec <~ tdb_htrie_create_rec o key data len;;
              set_coll_next last (TDB_O2DI o);;;
              sm_ret (rec, len)
          else
            c <~ get_coll_next bckt;;
            bug_on (negb (c =? 0));;;
            bug_on (bits <? TDB_HTRIE_BITS);;;
            n <~ tdb_htrie_burst cpu node bckt key bits;;
            match n with
            | None => sm_ret (0, len)
            | Some node => insert_loop fuel cpu node key bits data len
            end
  end.

Definition tdb_htrie_insert (cpu : nat) (key : Z) (data : option (list Z)) (len : Z) : TM (Z * Z) :=
  if len =? 0 then sm_ret (0, len)
  else t <~ sm_get;; insert_loop 34 cpu (TDB_HTRIE_ROOT t) key 0 data len.

(** ** Search *)

Definition tdb_htrie_lookup (key : Z) : TM Z :=
  t <~ sm_get;;
  d <~ tdb_htrie_descend (TDB_HTRIE_ROOT t) key 0;;
  sm_ret d.1.1.

(** The inner loop of [TDB_HTRIE_FOREACH_REC]; the record found in the bucket or 0. *)
Fixpoint scan_bucket (fuel : nat) (key b r : Z) : TM Z :=
  match fuel with
  | O => sm_bug
  | S fuel =>
      rlen <~ scan_len r;;
      if (TDB_HTRIE_MINDREC <? r + rlen - b) && negb (r =? TDB_HTRIE_BCKT_1ST_REC b) then sm_ret 0
      else
        live <~ tdb_live_rec r;;
        k <~ get_key r;;
        if live && (k =? key) then sm_ret r
        else
          let r := r + rlen in
          if r + sizeof_TdbFRec - b <=? TDB_HTRIE_MINDREC then scan_bucket fuel key b r else sm_ret 0
  end.

(** The record, or 0, and the bucket. *)
Fixpoint bscan_loop (fuel : nat) (key b : Z) : TM (Z * Z) :=
  match fuel with
  | O => sm_bug
  | S fuel =>
      r <~ scan_bucket 17 key b (TDB_HTRIE_BCKT_1ST_REC b);;
      if negb (r =? 0) then sm_ret (r, b)
      else
        b <~ TDB_HTRIE_BUCKET_NEXT b;;
        if b =? 0 then sm_ret (0, 0) else bscan_loop fuel key b
  end.

Definition tdb_htrie_bscan_for_rec (b key : Z) : TM (Z * Z) := t <~ sm_get;; bscan_loop (chain_fuel t) key b.

(** The inner loop of [tdb_htrie_next_rec()]. *)
Fixpoint next_in_bucket (fuel : nat) (key b r : Z) : TM Z :=
  match fuel with
  | O => sm_bug
  | S fuel =>
      rlen <~ scan_len r;;
      if TDB_HTRIE_MINDREC <? r + rlen - b then sm_ret 0
      else
        live <~ tdb_live_rec r;;
        k <~ get_key r;;
        if live && (k =? key) then sm_ret r
        else
          let r := r + rlen in
          if r + sizeof_TdbFRec - b <=? TDB_HTRIE_MINDREC then next_in_bucket fuel key b r else sm_ret 0
  end.

Fixpoint next_rec_loop (fuel : nat) (key r b : Z) : TM (Z * Z) :=
  match fuel with
  | O => sm_bug
  | S fuel =>
      rlen <~ scan_len r;;
      found <~ (if TDB_HTRIE_MINDREC <? r + rlen - b then sm_ret 0 else next_in_bucket 17 key b (r + rlen));;
      if negb (found =? 0) then sm_ret (found, b)
      else
        nb <~ TDB_HTRIE_BUCKET_NEXT b;;
        if nb =? 0 then sm_ret (0, 0)
        else
          let r := TDB_HTRIE_BCKT_1ST_REC nb in
          live <~ tdb_live_rec r;;
          k <~ get_key r;;
          if live && (k =? key) then sm_ret (r, nb) else next_rec_loop fuel key r nb
  end.

Definition tdb_htrie_next_rec (r b key : Z) : TM (Z * Z) := t <~ sm_get;; next_rec_loop (chain_fuel t) key r b.

(** ** The interface of [main.c] *)

Record TdbIter := MkIter { it_rec : Z; it_bckt : Z }.

Definition tdb_rec_get (key : Z) : TM TdbIter :=
  b <~ tdb_htrie_lookup key;;
  if b =? 0 then sm_ret (MkIter 0 0)
  else r <~ tdb_htrie_bscan_for_rec b key;; sm_ret (MkIter r.1 r.2).

Definition tdb_rec_next (it : TdbIter) : TM TdbIter :=
  bug_on (it_bckt it =? 0);;;
  k <~ get_key (it_rec it);;
  r <~ tdb_htrie_next_rec (it_rec it) (it_bckt it) k;;
  sm_ret (MkIter r.1 r.2).

Definition tdb_entry_create (cpu : nat) (key : Z) (data : list Z) (len : Z) : TM (Z * Z) :=
  tdb_htrie_insert cpu key (Some data) len.
Definition tdb_entry_alloc (cpu : nat) (key len : Z) : TM (Z * Z) := tdb_htrie_insert cpu key None len.
Definition tdb_entry_add (cpu : nat) (r size : Z) : TM Z := tdb_htrie_extend_rec cpu r size.

(** The place to write to and the record, or 0. *)
Definition tdb_entry_get_room (cpu : nat) (r curr_ptr tail_len tot_size : Z) : TM (Z * Z) :=
  len <~ get_len r;;
  let data := r + sizeof_TdbVRec in
  if tail_len <=? data + len - curr_ptr then sm_ret (curr_ptr, r)
  else
    set_len r (u32 (len - (curr_ptr - data)));;;
    r <~ tdb_htrie_extend_rec cpu r tot_size;;
    sm_ret (if r =? 0 then 0 else r + sizeof_TdbVRec, r).

(** [TdbGetAllocCtx]: the functions of the caller. *)
Section GetAlloc.
Context (eq_rec : Z -> TM bool) (precreate_rec : option (TM Z)) (init_rec : Z -> TM unit).

Fixpoint get_alloc_loop (fuel : nat) (it : TdbIter) : TM Z :=
  match fuel with
  | O => sm_bug
  | S fuel =>
      if it_rec it =? 0 then sm_ret 0
      else
        e <~ eq_rec (it_rec it);;
        if e : bool then sm_ret (it_rec it)
        else n <~ tdb_rec_next it;; get_alloc_loop fuel n
  end.

(** The record, or 0; [ctx->len]; [ctx->is_new]. *)
Definition tdb_rec_get_alloc (cpu : nat) (key len : Z) : TM (Z * Z * bool) :=
  t <~ sm_get;;
  it <~ tdb_rec_get key;;
  r <~ get_alloc_loop (chain_fuel t) it;;
  if negb (r =? 0) then sm_ret (r, len, false)
  else
    p <~ match precreate_rec with Some f => f | None => sm_ret 0 end;;
    if negb (p =? 0) then sm_ret (0, len, false)
    else
      a <~ tdb_entry_alloc cpu key len;;
      init_rec a.1;;;
      sm_ret (a.1, a.2, true).
End GetAlloc.

(** ** Walking over all records *)

Section Walk.
Context (fn : Z -> TM Z).

(** The inner loop of [TDB_HTRIE_FOREACH_REC] in [tdb_htrie_bucket_walk()]; [r->data] of a
    [TdbRec] is behind its key. *)
Fixpoint walk_in_bucket (fuel : nat) (b r : Z) : TM Z :=
  match fuel with
  | O => sm_bug
  | S fuel =>
      rlen <~ scan_len r;;
      if (TDB_HTRIE_MINDREC <? r + rlen - b) && negb (r =? TDB_HTRIE_BCKT_1ST_REC b) then sm_ret 0
      else
        live <~ tdb_live_rec r;;
        res <~ (if live : bool then fn (r + sizeof_TdbFRec) else sm_ret 0);;
        if negb (res =? 0) then sm_ret res
        else
          let r := r + rlen in
          if r + sizeof_TdbFRec - b <=? TDB_HTRIE_MINDREC then walk_in_bucket fuel b r else sm_ret 0
  end.

Fixpoint bucket_walk_loop (fuel : nat) (b : Z) : TM Z :=
  match fuel with
  | O => sm_bug
  | S fuel =>
      res <~ walk_in_bucket 17 b (TDB_HTRIE_BCKT_1ST_REC b);;
      if negb (res =? 0) then sm_ret res
      else
        n <~ TDB_HTRIE_BUCKET_NEXT b;;
        if n =? 0 then sm_ret 0 else bucket_walk_loop fuel n
  end.

Definition tdb_htrie_bucket_walk (b : Z) : TM Z := t <~ sm_get;; bucket_walk_loop (chain_fuel t) b.

(** The loop over the entries of a node from [bits] on; [visit] is the recursive call. *)
Fixpoint visit_entries (visit : Z -> TM Z) (fuel : nat) (node bits : Z) : TM Z :=
  match fuel with
  | O => sm_ret 0
  | S fuel =>
      bug_on (TDB_HTRIE_RESOLVED bits);;;
      o <~ get_shift node bits;;
      if o =? 0 then visit_entries visit fuel node (bits + 1)
      else
        t <~ sm_get;;
        let d := VRLEN o in
        bug_on ((TDB_DI2O d <? TDB_HDR_SZ t + sizeof_TdbExt) || (dbsz t <? TDB_DI2O d));;;
        res <~ (if has_flag o TDB_HTRIE_DBIT then
                  let o := Z.lxor o TDB_HTRIE_DBIT in
                  bug_on (o =? 0);;;
                  tdb_htrie_bucket_walk (TDB_DI2O o)
                else visit (TDB_II2O o));;
        if negb (res =? 0) then sm_ret res else visit_entries visit fuel node (bits + 1)
  end.

Fixpoint tdb_htrie_node_visit (depth : nat) (node : Z) : TM Z :=
  match depth with
  | O => sm_bug
  | S depth => visit_entries (tdb_htrie_node_visit depth) 16 node 0
  end.

(** The tree has 16 levels. *)
Definition tdb_htrie_walk : TM Z := t <~ sm_get;; tdb_htrie_node_visit 17 (TDB_HTRIE_ROOT t).
Definition tdb_entry_walk : TM Z := tdb_htrie_walk.
End Walk.
