(* ===== verification/HtrieInv.v ===== *)
(** * Tempesta DB: the invariant of the trie

    Tables with records of a fixed size that is more than 48 bytes (the tables of clients and of
    sessions): a data block has one record.  [trie_ok] says what the words of such a table are, in
    terms of the labels of its index nodes and of a multimap from keys to buckets; [leads] is the
    path of a key.  The three changes that insertion makes keep it: an empty entry gets a
    bucket, a chain gets longer, a bucket is pushed one level down. *)

From S2P Require Import Prelude Tdb Htrie.

#[local] Open Scope Z_scope.

(** ** Words and halves of words *)

Definition is_hi (a : Z) : bool := a mod 8 =? 4.
Definition wa (a : Z) : Z := if is_hi a then a - 4 else a.
Definition h32 (t : Tdb) (a : Z) : Z := half (word t (wa a)) (is_hi a).
Definition upd (t : Tdb) (a v : Z) : Tdb := set_mem (<[a := v]> (mem t)) t.
Definition put32 (t : Tdb) (a v : Z) : Tdb := upd t (wa a) (set_half (word t (wa a)) (is_hi a) v).

Lemma word_upd t a v x : word (upd t a v) x = if decide (x = a) then v else word t x.
Proof. apply word_insert. Qed.

Lemma wa_bounds a : a mod 4 = 0 -> wa a mod 8 = 0 /\ wa a <= a < wa a + 8.
Proof.
  intros H. unfold wa, is_hi. destruct (Z.eqb_spec (a mod 8) 4) as [E|E].
  - split; [rewrite Zminus_mod, E; done | lia].
  - split; [| lia]. apply Z.mod_divide in H as [q ->]; [| lia].
    pose proof (Z.div_mod q 2 ltac:(lia)) as Hq. pose proof (Z.mod_pos_bound q 2 ltac:(lia)).
    replace (q * 4) with (q mod 2 * 4 + q / 2 * 8) in * by lia. rewrite Z.mod_add in * by lia.
    destruct (Z.eq_dec (q mod 2) 0) as [->|]; [done |]. assert (q mod 2 = 1) as E1 by lia. by rewrite E1 in E.
Qed.

Lemma half_set_half w b b' v : 0 <= v < 2 ^ 32 -> half (set_half w b v) b' = if Bool.eqb b b' then v else half w b'.
Proof.
  intros Hv. unfold half, set_half. destruct b, b'; cbn [Bool.eqb].
  - rewrite Z.div_add, Z.div_small by (try lia; apply Z.mod_pos_bound; lia). lia.
  - rewrite Z.mod_add, Z.mod_mod by lia. done.
  - rewrite (Z.add_comm _ v), Z.div_add, (Z.div_small v) by lia. lia.
  - rewrite (Z.add_comm _ v), Z.mod_add, Z.mod_small by lia. done.
Qed.

Lemma h32_put32 t a v x : a mod 4 = 0 -> x mod 4 = 0 -> 0 <= v < 2 ^ 32 ->
  h32 (put32 t a v) x = if decide (x = a) then v else h32 t x.
Proof.
  intros Ha Hx Hv. unfold h32, put32. rewrite word_upd. destruct (wa_bounds a Ha), (wa_bounds x Hx).
  destruct (decide (wa x = wa a)) as [E|E].
  - rewrite half_set_half, E by done. unfold wa, is_hi in *.
    destruct (decide (x = a)) as [->|Hne]; [by rewrite eqb_reflx |].
    destruct (Z.eqb_spec (a mod 8) 4), (Z.eqb_spec (x mod 8) 4); cbn [Bool.eqb]; try done; lia.
  - destruct (decide (x = a)) as [->|]; [done | by unfold wa, is_hi in *].
Qed.

Lemma word_put32_ne t a v x : x <> wa a -> word (put32 t a v) x = word t x.
Proof. intros H. unfold put32. rewrite word_upd. by destruct (decide _). Qed.

(** Only the words of [t] and [t'] may differ. *)
Definition mem_only (t t' : Tdb) : Prop :=
  dbsz t' = dbsz t /\ rec_len t' = rec_len t /\ nwb t' = nwb t /\ bmp t' = bmp t /\ pcpu t' = pcpu t.

Lemma mem_only_refl t : mem_only t t.
Proof. by split_and!. Qed.
Lemma mem_only_trans t1 t2 t3 : mem_only t1 t2 -> mem_only t2 t3 -> mem_only t1 t3.
Proof. intros (? & ? & ? & ? & ?) (? & ? & ? & ? & ?). split_and!; congruence. Qed.
Lemma mem_only_upd t a v : mem_only t (upd t a v).
Proof. by split_and!. Qed.
Lemma mem_only_put32 t a v : mem_only t (put32 t a v).
Proof. by split_and!. Qed.
#[export] Hint Resolve mem_only_refl mem_only_upd mem_only_put32 : core.

(** ** Accesses in a region *)

Section Access.
Context (m : Z) (G : gmap Z Z) (t : Tdb) (Hok : alloc_ok m G t).

Lemma region_in_map o s a : G !! o = Some s -> o <= a -> a + 8 <= o + s -> a mod 8 = 0 -> in_map t a = true.
Proof.
  intros Ho H1 H2 H3. destruct (ao_in _ _ _ Hok o s Ho) as (? & ? & ? & ?).
  destruct (po_m _ _ (ao_pages _ _ _ Hok)) as [? ?]. apply in_map_true; [lia | lia | done].
Qed.

Lemma half_in_map o s a : G !! o = Some s -> s mod 8 = 0 -> o <= a < o + s -> a mod 4 = 0 -> in_map t (wa a) = true.
Proof.
  intros Ho Hs Ha Ha4. destruct (wa_bounds a Ha4) as [H8 Hb]. destruct (ao_in _ _ _ Hok o s Ho) as (_ & _ & Ho8 & _).
  apply Z.mod_divide in H8 as [q Hq], Hs as [qs Hqs], Ho8 as [qo Hqo]; try lia.
  apply (region_in_map o s); [done | lia | lia |]. rewrite Hq. apply Z.mod_mul. lia.
Qed.

Lemma rd64_ok a : in_map t a = true -> rd64 a t = Ok (word t a, t).
Proof. intros H. unfold rd64. by rewrite H. Qed.
Lemma wr64_ok a v : in_map t a = true -> wr64 a v t = Ok (tt, upd t a v).
Proof. intros H. unfold wr64. by rewrite H. Qed.
Lemma rd32_ok a : in_map t (wa a) = true -> rd32 a t = Ok (h32 t a, t).
Proof. intros H. unfold rd32, sm_bind. fold (is_hi a). fold (wa a). by rewrite rd64_ok. Qed.
Lemma wr32_ok a v : in_map t (wa a) = true -> wr32 a v t = Ok (tt, put32 t a v).
Proof. intros H. unfold wr32, sm_bind. fold (is_hi a). fold (wa a). rewrite rd64_ok by done. by rewrite wr64_ok. Qed.

Lemma rd_words_ok n : forall a, (forall j, 0 <= j < Z.of_nat n -> in_map t (a + 8 * j) = true) ->
  rd_words a n t = Ok ((fun j => word t (a + 8 * Z.of_nat j)) <$> seq 0 n, t).
Proof.
  induction n as [|n IH]; intros a H; cbn [rd_words]; [done |].
  unfold sm_bind. rewrite rd64_ok by (rewrite <- (Z.add_0_r a); apply (H 0); lia).
  rewrite IH. 2: { intros j Hj. replace (a + 8 + 8 * j) with (a + 8 * (j + 1)) by lia. apply H. lia. }
  unfold sm_ret. do 2 f_equal. cbn [seq]. rewrite fmap_cons. f_equal; [f_equal; lia |].
  rewrite <- fmap_S_seq. rewrite <- list_fmap_compose. apply list_fmap_ext. intros j x _. unfold compose. f_equal. lia.
Qed.
End Access.

Lemma in_map_mem_only t t' a : mem_only t t' -> in_map t' a = in_map t a.
Proof. intros (H & _). unfold in_map. by rewrite H. Qed.

(** Words written one after the other. *)
Lemma wr_words_ok l : forall a t, (forall j, 0 <= j < zlen l -> in_map t (a + 8 * j) = true) ->
  exists t', wr_words a l t = Ok (tt, t') /\ mem_only t t' /\
    (forall j w, l !! j = Some w -> word t' (a + 8 * Z.of_nat j) = w) /\
    (forall x, ~ a <= x < a + 8 * zlen l -> word t' x = word t x).
Proof.
  induction l as [|w l IH]; intros a t H; cbn [wr_words].
  - exists t. split_and!; try done; auto.
  - unfold sm_bind. rewrite wr64_ok by (rewrite <- (Z.add_0_r a); apply (H 0); unfold zlen; simpl; lia).
    destruct (IH (a + 8) (upd t a w)) as (t' & Hrun & Hm & Hin & Hout).
    { intros j Hj. rewrite (in_map_mem_only t) by auto. replace (a + 8 + 8 * j) with (a + 8 * (j + 1)) by lia.
      apply H. unfold zlen in *. simpl. lia. }
    exists t'. split_and!; [done | by apply (mem_only_trans t (upd t a w)) | |].
    + intros [|j] v Hj.
      * injection Hj as ->. rewrite Z.mul_0_r, Z.add_0_r, Hout by lia. rewrite word_upd. by destruct (decide _).
      * replace (a + 8 * Z.of_nat (S j)) with (a + 8 + 8 * Z.of_nat j) by lia. by apply Hin.
    + intros x Hx. unfold zlen in *. simpl length in *. rewrite Hout by lia. rewrite word_upd. destruct (decide _); [lia | done].
Qed.

(** ** Entries *)

Lemma dbit_add x : 0 <= x < 2 ^ 31 -> Z.lor x TDB_HTRIE_DBIT = x + TDB_HTRIE_DBIT.
Proof. intros H. unfold TDB_HTRIE_DBIT. rewrite <- (Z.mul_1_l (2 ^ 31)). rewrite lor_low_high by lia. done. Qed.

Lemma flag_low x : 0 <= x < 2 ^ 31 -> has_flag x TDB_HTRIE_DBIT = false.
Proof.
  intros H. unfold TDB_HTRIE_DBIT. rewrite has_flag_bit, Z.testbit_eqb, Z.div_small by lia. done.
Qed.

Lemma flag_high x : 0 <= x < 2 ^ 31 -> has_flag (x + TDB_HTRIE_DBIT) TDB_HTRIE_DBIT = true.
Proof.
  intros H. unfold TDB_HTRIE_DBIT. rewrite has_flag_bit, Z.testbit_eqb by lia.
  rewrite <- (Z.mul_1_l (2 ^ 31)) at 1. rewrite Z.div_add, Z.div_small by lia. done.
Qed.

Lemma vrlen_low x : 0 <= x < 2 ^ 31 -> VRLEN x = x.
Proof. intros H. unfold VRLEN. rewrite pow_pred_ones, Z.land_ones, Z.mod_small by lia. done. Qed.

Lemma vrlen_high x : 0 <= x < 2 ^ 31 -> VRLEN (x + TDB_HTRIE_DBIT) = x.
Proof.
  intros H. unfold VRLEN, TDB_HTRIE_DBIT. rewrite pow_pred_ones, Z.land_ones by lia.
  rewrite <- (Z.mul_1_l (2 ^ 31)) at 1. rewrite Z.mod_add, Z.mod_small by lia. done.
Qed.

Lemma lxor_dbit x : 0 <= x < 2 ^ 31 -> Z.lxor (x + TDB_HTRIE_DBIT) TDB_HTRIE_DBIT = x.
Proof.
  intros H. rewrite <- dbit_add by done. apply Z.bits_inj'. intros i Hi. rewrite Z.lxor_spec, Z.lor_spec.
  unfold TDB_HTRIE_DBIT. destruct (Z.eq_dec i 31) as [->|Hne].
  - rewrite Z.pow2_bits_true by lia. rewrite (Z.testbit_eqb x), Z.div_small by lia. done.
  - rewrite Z.pow2_bits_false by lia. by rewrite orb_false_r, xorb_false_r.
Qed.

(** ** Paths *)

(** The address of the entry for a key in a node. *)
Definition ent (o key bits : Z) : Z := o + 4 * TDB_HTRIE_IDX key bits.

Lemma idx_bounds key bits : 0 <= TDB_HTRIE_IDX key bits < 16.
Proof. unfold TDB_HTRIE_IDX. change 15 with (Z.ones 4). rewrite Z.land_ones by lia. apply Z.mod_pos_bound. lia. Qed.

Lemma idx_digit key bits : 0 <= bits -> key mod 2 ^ (bits + 4) = key mod 2 ^ bits + TDB_HTRIE_IDX key bits * 2 ^ bits.
Proof.
  intros Hb. unfold TDB_HTRIE_IDX. change 15 with (Z.ones 4). rewrite Z.land_ones, Z.shiftr_div_pow2 by lia.
  rewrite Z.pow_add_r by lia. rewrite Z.rem_mul_r by lia. lia.
Qed.

(** The entry that a key leads to: its value, node and bits. *)
Inductive leads (t : Tdb) (key : Z) : Z -> Z -> Z -> Z -> Z -> Prop :=
| leads_end o bits v : h32 t (ent o key bits) = v -> v = 0 \/ TDB_HTRIE_DBIT <= v -> leads t key o bits v o bits
| leads_step o bits e v o' bits' : h32 t (ent o key bits) = e -> 0 < e < TDB_HTRIE_DBIT ->
    leads t key (TDB_II2O e) (bits + 4) v o' bits' -> leads t key o bits v o' bits'.

Lemma leads_det t key o bits v n b v' n' b' : leads t key o bits v n b -> leads t key o bits v' n' b' ->
  v' = v /\ n' = n /\ b' = b.
Proof.
  induction 1 as [o bits v E Hv|o bits e v n b E He _ IH]; inversion 1; subst; try done; try lia. by apply IH.
Qed.

Lemma leads_entry t key o bits v n b : leads t key o bits v n b -> h32 t (ent n key b) = v /\ (v = 0 \/ TDB_HTRIE_DBIT <= v).
Proof. by induction 1. Qed.

(** The labels of the nodes: the bits resolved above a node and their value. *)
Abbreviation labels := (gmap Z (Z * Z)).

Abbreviation multimap := (gmap Z (list Z)).
Definition recs (M : multimap) (k : Z) : list Z := default [] (M !! k).

(** The size of a record. *)
Definition rsize (t : Tdb) : Z := TDB_HTRIE_RALIGN (sizeof_TdbFRec + rec_len t).

Inductive entry_ok (N : labels) (M : multimap) (bits pre : Z) : Z -> Prop :=
| entry_empty : entry_ok N M bits pre 0
| entry_bucket b k bs : M !! k = Some (b :: bs) -> k mod 2 ^ bits = pre -> entry_ok N M bits pre (TDB_O2DI b + TDB_HTRIE_DBIT)
| entry_node o : o mod 64 = 0 -> N !! o = Some (bits, pre) -> entry_ok N M bits pre (TDB_O2II o).

Record trie_ok (G : gmap Z Z) (N : labels) (M : multimap) (t : Tdb) : Prop := {
  to_hdr : init_regions t ⊆ G;
  to_root : N !! TDB_HTRIE_ROOT t = Some (0, 0);
  to_node : forall o bits pre, N !! o = Some (bits, pre) -> G !! o = Some 64 /\ 0 <= bits <= 60 /\ bits mod 4 = 0;
  to_entry : forall o bits pre i, N !! o = Some (bits, pre) -> 0 <= i < 16 ->
    entry_ok N M (bits + 4) (pre + i * 2 ^ bits) (h32 t (o + 4 * i));
  to_key : forall k bs, M !! k = Some bs -> 0 < k < 2 ^ 64 /\ NoDup bs /\
    exists b bs' n bits, bs = b :: bs' /\ leads t k (TDB_HTRIE_ROOT t) 0 (TDB_O2DI b + TDB_HTRIE_DBIT) n bits /\ (bs' = [] \/ bits = 60);
  to_bucket : forall k bs j b, M !! k = Some bs -> bs !! j = Some b ->
    b mod 128 = 0 /\ (exists s, G !! b = Some s /\ s mod 128 = 0 /\ sizeof_TdbBucket + rsize t <= s) /\
    word t (b + 16) = k /\ word t b = match bs !! S j with Some b' => TDB_O2DI b' | None => 0 end
}.

(** Fixed records of more than 56 bytes with their key. *)
Definition big_table (t : Tdb) : Prop := 48 < rec_len t <= 2048.

Lemma rsize_bounds t : big_table t -> 64 <= rsize t <= 2056 /\ rsize t mod 8 = 0 /\ rec_len t + 8 <= rsize t < rec_len t + 16.
Proof.
  intros H. unfold rsize, sizeof_TdbFRec. destruct (ralign_spec (8 + rec_len t)) as [H1 H2]. unfold big_table in H.
  apply Z.mod_divide in H1 as [q Hq]; [| lia]. rewrite Hq in *. split; [lia |]. split; [apply Z.mod_mul; lia | lia].
Qed.

Lemma big_fixed t : big_table t -> TDB_HTRIE_VARLENRECS t = false.
Proof. unfold big_table, TDB_HTRIE_VARLENRECS. intros H. apply Z.eqb_neq. lia. Qed.

(** Words that no region covers do not matter. *)
Lemma h32_same t t' (P : Z -> Prop) a : (forall x, P x -> word t' x = word t x) -> P (wa a) -> h32 t' a = h32 t a.
Proof. intros H Ha. unfold h32. by rewrite H. Qed.

Lemma covered_in G o s x : G !! o = Some s -> o <= x < o + s -> covered G x.
Proof. intros. by exists o, s. Qed.

Section Frame.
Context (m : Z) (G : gmap Z Z) (N : labels) (M : multimap) (t : Tdb).
Context (Hok : alloc_ok m G t) (Htr : trie_ok G N M t).

Lemma node_aligned o l : N !! o = Some l -> G !! o = Some 64 /\ o mod 8 = 0 /\ 0 < o /\ o + 64 <= 4096 * m.
Proof. intros H. destruct l. apply (to_node _ _ _ _ Htr) in H as (HG & _). destruct (ao_in _ _ _ Hok o 64 HG) as (? & ? & ? & ?). by split_and!. Qed.

Lemma ent_aligned o i : o mod 8 = 0 -> (o + 4 * i) mod 4 = 0.
Proof.
  intros H. apply Z.mod_divide in H as [q ->]; [| lia]. replace (q * 8 + 4 * i) with ((q * 2 + i) * 4) by lia. apply Z.mod_mul. lia.
Qed.

Lemma ent_wa o i l : N !! o = Some l -> 0 <= i < 16 -> o <= wa (o + 4 * i) < o + 64 /\ (o + 4 * i) mod 4 = 0.
Proof.
  intros Ho Hi. destruct (node_aligned o l Ho) as (_ & H8 & _). pose proof (ent_aligned o i H8) as H4.
  destruct (wa_bounds _ H4) as [Hw Hb]. split; [| done].
  apply Z.mod_divide in Hw as [q Hq], H8 as [p Hp]; lia.
Qed.

(** Entries at the same address are the same. *)
Lemma ent_inj o i o' i' l l' : N !! o = Some l -> N !! o' = Some l' -> 0 <= i < 16 -> 0 <= i' < 16 ->
  o + 4 * i = o' + 4 * i' -> o = o' /\ i = i'.
Proof.
  intros H H' Hi Hi' E. destruct (Z.eq_dec o o') as [->|Hne]; [lia |].
  destruct (node_aligned o l H) as [HG _], (node_aligned o' l' H') as [HG' _].
  destruct (ao_disj _ _ _ Hok _ _ _ _ HG HG' Hne); lia.
Qed.

Lemma node_o2ii o l : N !! o = Some l -> o mod 64 = 0 -> TDB_II2O (TDB_O2II o) = o /\ 0 < TDB_O2II o < TDB_HTRIE_DBIT.
Proof.
  intros Ho Hal. destruct (node_aligned o l Ho) as (_ & _ & Hpos & Hend).
  pose proof (po_m _ _ (ao_pages _ _ _ Hok)). pose proof (po_max _ _ (ao_pages _ _ _ Hok)) as Hmax.
  unfold TDB_MAX_DB_SZ, L1_CACHE_BYTES in Hmax. unfold TDB_II2O, TDB_O2II, L1_CACHE_BYTES, TDB_HTRIE_DBIT.
  apply Z.mod_divide in Hal as [q ->]; [| lia]. rewrite Z.div_mul by lia. lia.
Qed.

Lemma bucket_o2di k bs j b : M !! k = Some bs -> bs !! j = Some b ->
  TDB_DI2O (TDB_O2DI b) = b /\ 0 < TDB_O2DI b < 2 ^ 30 /\ 0 < b.
Proof.
  intros Hk Hj. destruct (to_bucket _ _ _ _ Htr k bs j b Hk Hj) as (Hal & (s & Hs & _) & _).
  destruct (ao_in _ _ _ Hok b s Hs) as (? & ? & _ & Hend).
  pose proof (po_m _ _ (ao_pages _ _ _ Hok)). pose proof (po_max _ _ (ao_pages _ _ _ Hok)) as Hmax.
  unfold TDB_MAX_DB_SZ, L1_CACHE_BYTES in Hmax. unfold TDB_DI2O, TDB_O2DI, TDB_HTRIE_MINDREC.
  apply Z.mod_divide in Hal as [q ->]; [| lia]. rewrite Z.div_mul by lia. lia.
Qed.

(** What an entry of a node is. *)
Lemma entry_cases o bits pre i : N !! o = Some (bits, pre) -> 0 <= i < 16 -> let v := h32 t (o + 4 * i) in
  v = 0 \/
  (exists b k bs, M !! k = Some (b :: bs) /\ k mod 2 ^ (bits + 4) = pre + i * 2 ^ bits /\
    v = TDB_O2DI b + TDB_HTRIE_DBIT /\ TDB_DI2O (TDB_O2DI b) = b /\ 0 < TDB_O2DI b < 2 ^ 30) \/
  (0 < v < TDB_HTRIE_DBIT /\ N !! TDB_II2O v = Some (bits + 4, pre + i * 2 ^ bits)).
Proof.
  intros Ho Hi v. pose proof (to_entry _ _ _ _ Htr o bits pre i Ho Hi) as He. fold v in He.
  inversion He as [E|b k bs Hk Hp E|o' Hal Ho' E]; [by left | right; left | right; right].
  - destruct (bucket_o2di k _ 0%nat b Hk eq_refl) as (? & ? & _). by exists b, k, bs.
  - destruct (node_o2ii o' _ Ho' Hal) as [E1 E2]. rewrite E1. done.
Qed.

(** A key that follows the labels. *)
Lemma label_step o bits pre key : N !! o = Some (bits, pre) -> key mod 2 ^ bits = pre ->
  key mod 2 ^ (bits + 4) = pre + TDB_HTRIE_IDX key bits * 2 ^ bits.
Proof. intros Ho <-. apply idx_digit. apply (to_node _ _ _ _ Htr) in Ho. lia. Qed.

Lemma child_label o bits pre key e : N !! o = Some (bits, pre) -> key mod 2 ^ bits = pre ->
  h32 t (ent o key bits) = e -> 0 < e < TDB_HTRIE_DBIT -> N !! TDB_II2O e = Some (bits + 4, key mod 2 ^ (bits + 4)).
Proof.
  intros Ho Hk <- He. rewrite (label_step o bits pre key Ho Hk). unfold ent in *.
  destruct (entry_cases o bits pre (TDB_HTRIE_IDX key bits) Ho (idx_bounds _ _)) as [E0|[(b & k & bs & _ & _ & E0 & _ & Hb)|[_ Hn]]];
    [lia | lia | done].
Qed.

Lemma leads_label key o bits v n b : leads t key o bits v n b -> N !! o = Some (bits, key mod 2 ^ bits) ->
  N !! n = Some (b, key mod 2 ^ b).
Proof.
  induction 1 as [o bits v E Hv|o bits e v n b E He _ IH]; intros Ho; [done |]. eapply IH, child_label; [| done..]. exact Ho.
Qed.

Lemma leads_total key d : forall o bits, 60 - bits <= 4 * Z.of_nat d -> N !! o = Some (bits, key mod 2 ^ bits) ->
  exists v n b, leads t key o bits v n b.
Proof.
  induction d as [|d IH]; intros o bits Hd Ho; destruct (to_node _ _ _ _ Htr _ _ _ Ho) as (_ & Hb & _).
  all: destruct (entry_cases o bits _ (TDB_HTRIE_IDX key bits) Ho (idx_bounds _ _)) as [E0|[(b & k & bs & _ & _ & E0 & _ & Hb')|[Hr Hn]]].
  all: try (by eexists _, o, bits; apply leads_end; [exact E0 | unfold TDB_HTRIE_DBIT; lia]).
  - destruct (to_node _ _ _ _ Htr _ _ _ Hn) as (_ & Hb' & _). lia.
  - edestruct IH as (v & n & b & Hl); [| eapply child_label; [exact Ho | done | reflexivity | exact Hr] |]; [lia |].
    exists v, n, b. eapply leads_step; [reflexivity | exact Hr | exact Hl].
Qed.

Lemma region_above o s : G !! o = Some s -> o mod 64 = 0 -> TDB_HTRIE_ROOT t <= o.
Proof.
  intros Ho Hal. destruct (root_bounds t (po_max _ _ (ao_pages _ _ _ Hok))) as [HRb _].
  assert (G !! 8 = Some (TDB_HTRIE_ROOT t - 8)) as G1 by (eapply lookup_weaken, (to_hdr _ _ _ _ Htr); apply lookup_insert_eq).
  destruct (ao_in _ _ _ Hok o s Ho) as (? & ? & _). assert (64 <= o) by (apply Z.mod_divide in Hal as [z Hz]; lia).
  destruct (ao_disj _ _ _ Hok o s 8 _ Ho G1 ltac:(lia)); lia.
Qed.

(** [tdb_htrie_descend()] finds what the key leads to; index nodes are in the lower half of the file. *)
Lemma descend_spec key o bits v n b : leads t key o bits v n b -> 8192 * m <= dbsz t -> N !! o = Some (bits, key mod 2 ^ bits) ->
  forall fuel, 60 - bits < 4 * Z.of_nat fuel ->
  descend_loop fuel o key bits t = Ok (if v =? 0 then (0, n, b) else (TDB_DI2O (v - TDB_HTRIE_DBIT), n, b + 4), t).
Proof.
  intros Hl Hhalf. induction Hl as [o bits v E Hv|o bits e v n b E He _ IH]; intros Ho fuel Hf.
  all: destruct (to_node _ _ _ _ Htr _ _ _ Ho) as (HG & Hb & _); destruct fuel as [|fuel]; [lia |].
  all: destruct (ent_wa o (TDB_HTRIE_IDX key bits) _ Ho (idx_bounds _ _)) as [Hw H4].
  all: cbn [descend_loop]; unfold TDB_HTRIE_RESOLVED, BITS_PER_LONG, TDB_HTRIE_BITS;
    rewrite (proj2 (Z.ltb_ge 64 (bits + 4))) by lia; cbn [bug_on]; unfold sm_bind, sm_ret, sm_get;
    unfold get_shift; rewrite rd32_ok by (apply (half_in_map m G t Hok o 64); [done | done | pose proof (idx_bounds key bits); lia | done]);
    fold (ent o key bits); rewrite E.
  - destruct Hv as [->|Hv].
    + cbn [Z.eqb negb andb bug_on]. rewrite (flag_low 0) by lia. done.
    + destruct (entry_cases o bits _ (TDB_HTRIE_IDX key bits) Ho (idx_bounds _ _)) as [E0|[(b & k & bs & Hk & _ & E0 & Hdi & Hb')|[Hr Hn]]];
        unfold ent in E; [unfold TDB_HTRIE_DBIT in *; lia | | lia].
      destruct (to_bucket _ _ _ _ Htr k _ 0%nat b Hk eq_refl) as (Hal & (s & Hs & _) & _).
      pose proof (region_above b s Hs (mod_128_64 _ Hal)). destruct (ao_in _ _ _ Hok b s Hs) as (? & ? & _ & Hend).
      destruct (po_m _ _ (ao_pages _ _ _ Hok)). assert (Ev : v = TDB_O2DI b + TDB_HTRIE_DBIT) by congruence. rewrite Ev.
      rewrite vrlen_high, flag_high, lxor_dbit, Hdi by lia. unfold TDB_HTRIE_ROOT in *.
      rewrite (proj2 (Z.ltb_ge _ _)), (proj2 (Z.ltb_ge (dbsz t) _)) by lia. cbn [orb]. rewrite andb_false_r. cbn [bug_on].
      unfold TDB_HTRIE_DBIT. rewrite !(proj2 (Z.eqb_neq _ 0)) by lia. cbn [bug_on sm_ret]. unfold sm_ret. rewrite Z.add_simpl_r, Hdi. done.
  - pose proof (child_label o bits _ key e Ho eq_refl E He) as Hn.
    destruct (node_aligned _ _ Hn) as (HG' & H8 & Hpos & Hend).
    unfold TDB_II2O, L1_CACHE_BYTES in Hend. rewrite vrlen_low, flag_low by (unfold TDB_HTRIE_DBIT in He; lia).
    assert (Hab : TDB_HDR_SZ t + sizeof_TdbExt <= TDB_DI2O e).
    { pose proof (region_above _ _ HG' ltac:(unfold TDB_II2O, L1_CACHE_BYTES; apply Z.mod_mul; lia)) as Hra.
      unfold TDB_HTRIE_ROOT, TDB_II2O, L1_CACHE_BYTES, TDB_DI2O, TDB_HTRIE_MINDREC in *. lia. }
    rewrite (proj2 (Z.ltb_ge _ _)), (proj2 (Z.ltb_ge (dbsz t) _)) by (try done; unfold TDB_DI2O, TDB_HTRIE_MINDREC; lia).
    cbn [orb]. rewrite andb_false_r. cbn [bug_on]. unfold sm_ret. rewrite (proj2 (Z.eqb_neq e 0)) by lia.
    apply IH; [done | lia].
Qed.

(** Only the entries of nodes matter. *)
Lemma leads_same t' key o bits v n b : leads t key o bits v n b -> N !! o = Some (bits, key mod 2 ^ bits) ->
  (forall x l i, N !! x = Some l -> 0 <= i < 16 -> h32 t' (x + 4 * i) = h32 t (x + 4 * i)) -> leads t' key o bits v n b.
Proof.
  intros Hl Ho Hw. revert Ho. induction Hl as [o bits v E Hv|o bits e v n b E He Hl IH]; intros Ho.
  all: pose proof (Hw o _ _ Ho (idx_bounds key bits)) as E'; fold (ent o key bits) in E'.
  - apply leads_end; [congruence | done].
  - apply (leads_step _ _ _ _ e); [congruence | done |]. apply IH. by eapply child_label.
Qed.

Lemma root_label key : N !! TDB_HTRIE_ROOT t = Some (0, key mod 2 ^ 0).
Proof. rewrite Z.mod_1_r. apply (to_root _ _ _ _ Htr). Qed.
End Frame.

Lemma same_root t t' : dbsz t' = dbsz t -> TDB_HTRIE_ROOT t' = TDB_HTRIE_ROOT t.
Proof. intros H. unfold TDB_HTRIE_ROOT, TDB_HDR_SZ, TDB_EXT_BMP_2L. by rewrite H. Qed.

Lemma trie_ok_frame m G G' N M t t' : alloc_ok m G t -> trie_ok G N M t -> G ⊆ G' -> dbsz t' = dbsz t -> rec_len t' = rec_len t ->
  (forall x, covered G x -> word t' x = word t x) -> trie_ok G' N M t'.
Proof.
  intros Hok Htr Hsub Hd Hr Hw. pose proof (same_root t t' Hd) as HR.
  assert (HI : init_regions t' = init_regions t) by (unfold init_regions; by rewrite HR).
  assert (Hent : forall o l i, N !! o = Some l -> 0 <= i < 16 -> h32 t' (o + 4 * i) = h32 t (o + 4 * i)).
  { intros o l i Ho Hi. destruct (node_aligned m G N M t Hok Htr o l Ho) as (HG & _). unfold h32. rewrite Hw; [done |].
    apply (covered_in G o 64); [done |]. by apply (ent_wa m G N M t Hok Htr o i l Ho Hi). }
  constructor; rewrite ?HR, ?HI.
  - transitivity G; [apply (to_hdr _ _ _ _ Htr) | done].
  - apply (to_root _ _ _ _ Htr).
  - intros o bits pre Ho. destruct (to_node _ _ _ _ Htr _ _ _ Ho) as (? & ? & ?). split_and!; try done; try lia. by eapply lookup_weaken.
  - intros o bits pre i Ho Hi. rewrite (Hent o _ i Ho Hi). by apply (to_entry _ _ _ _ Htr).
  - intros k bs Hk. destruct (to_key _ _ _ _ Htr k bs Hk) as (? & ? & b & bs' & n & bits & ? & Hl & ?). split_and!; try done; try lia.
    exists b, bs', n, bits. split_and!; try done. apply (leads_same m G N M t Hok Htr); [done | by eapply root_label | done].
  - intros k bs j b Hk Hj. destruct (to_bucket _ _ _ _ Htr k bs j b Hk Hj) as (? & (s & Hs & Hs8 & Hss) & Hkey & Hnext).
    unfold sizeof_TdbBucket in *. assert (Hrs : rsize t' = rsize t) by (unfold rsize; by rewrite Hr). rewrite Hrs.
    destruct (ao_in _ _ _ Hok b s Hs) as (Hs0 & _). assert (128 <= s) by (apply Z.mod_divide in Hs8 as [q Hq]; lia).
    rewrite !Hw by (apply (covered_in G b s); [done | lia]). split_and!; try done. exists s. split_and!; try done. by eapply lookup_weaken.
Qed.

(** ** Changes of one entry *)

Section Change.
Context (m : Z) (G : gmap Z Z) (N : labels) (M : multimap) (t : Tdb).
Context (Hok : alloc_ok m G t) (Htr : trie_ok G N M t).

Lemma leads_change t' a0 key o bits v n b : leads t key o bits v n b -> N !! o = Some (bits, key mod 2 ^ bits) ->
  (h32 t a0 = 0 \/ TDB_HTRIE_DBIT <= h32 t a0) ->
  (forall x l i, N !! x = Some l -> 0 <= i < 16 -> x + 4 * i <> a0 -> h32 t' (x + 4 * i) = h32 t (x + 4 * i)) ->
  (ent n key b <> a0 -> leads t' key o bits v n b) /\
  (ent n key b = a0 -> forall x y z, leads t' key n b x y z -> leads t' key o bits x y z).
Proof.
  intros Hl Ho Hterm Hsame. revert Ho. induction Hl as [o bits v E Hv|o bits e v n b E He Hl IH]; intros Ho.
  - split; [| done]. intros Hne. apply leads_end; [| done]. rewrite <- E. by apply (Hsame o _ _ Ho (idx_bounds _ _)).
  - assert (E' : h32 t' (ent o key bits) = e).
    { rewrite <- E. apply (Hsame o _ _ Ho (idx_bounds _ _)). intros Ha. unfold ent in E. rewrite Ha in E. lia. }
    destruct (IH ltac:(by eapply child_label)) as [IH1 IH2].
    split; [intros Hne | intros Heq x y z Hx]; apply (leads_step _ _ _ _ e); auto.
Qed.

Lemma bucket_region k bs j b : M !! k = Some bs -> bs !! j = Some b -> exists s, G !! b = Some s /\ 128 <= s /\ s mod 128 = 0 /\ sizeof_TdbBucket + rsize t <= s.
Proof.
  intros Hk Hj. destruct (to_bucket _ _ _ _ Htr k bs j b Hk Hj) as (_ & (s & Hs & Hs128 & Hr) & _).
  destruct (ao_in _ _ _ Hok b s Hs) as (? & _). exists s. split_and!; try done. apply Z.mod_divide in Hs128 as [q Hq]; lia.
Qed.

(** A node and a bucket have no word in common. *)
Lemma node_bucket_apart o l b s x y : N !! o = Some l -> G !! b = Some s -> 128 <= s -> o <= x < o + 64 -> b <= y < b + s -> x <> y.
Proof.
  intros Ho Hb Hs Hx Hy. destruct (node_aligned m G N M t Hok Htr o l Ho) as (HG & _).
  destruct (Z.eq_dec o b) as [->|Hne]; [rewrite HG in Hb; injection Hb; lia |].
  destruct (ao_disj _ _ _ Hok _ _ _ _ HG Hb Hne); lia.
Qed.

(** The heads of chains are distinct. *)
Lemma bucket_key k bs j b k' bs' j' : M !! k = Some bs -> bs !! j = Some b -> M !! k' = Some bs' -> bs' !! j' = Some b -> k = k' /\ j = j'.
Proof.
  intros Hk Hj Hk' Hj'. destruct (to_bucket _ _ _ _ Htr k bs j b Hk Hj) as (_ & _ & <- & _).
  destruct (to_bucket _ _ _ _ Htr k' bs' j' b Hk' Hj') as (_ & _ & E & _). split; [done |].
  rewrite E in Hk. assert (bs' = bs) as -> by congruence. destruct (to_key _ _ _ _ Htr k' bs Hk) as (_ & Hnd & _).
  by eapply NoDup_lookup.
Qed.

Lemma o2di_inj k bs j b k' bs' j' b' : M !! k = Some bs -> bs !! j = Some b -> M !! k' = Some bs' -> bs' !! j' = Some b' ->
  TDB_O2DI b = TDB_O2DI b' -> b = b'.
Proof.
  intros Hk Hj Hk' Hj' E. destruct (bucket_o2di m G N M t Hok Htr k bs j b Hk Hj) as (<- & _).
  destruct (bucket_o2di m G N M t Hok Htr k' bs' j' b' Hk' Hj') as (<- & _). by rewrite E.
Qed.

(** Where the entries of two keys are the same one. *)
Lemma ent_same n b n' b' key k : N !! n = Some (b, key mod 2 ^ b) -> N !! n' = Some (b', k mod 2 ^ b') ->
  ent n' k b' = ent n key b -> n' = n /\ b' = b /\ TDB_HTRIE_IDX k b = TDB_HTRIE_IDX key b.
Proof.
  intros Hn Hn' E. destruct (ent_inj m G N M t Hok Htr _ _ _ _ _ _ Hn' Hn (idx_bounds k b') (idx_bounds key b) E) as [-> Ei].
  rewrite Hn in Hn'. injection Hn' as E1 _. by rewrite <- E1 in *.
Qed.

(** Writing the entry [a0] of a node. *)
Lemma put_ent_entry n l i v o l' j : N !! n = Some l -> 0 <= i < 16 -> 0 <= v < 2 ^ 32 -> N !! o = Some l' -> 0 <= j < 16 ->
  h32 (put32 t (n + 4 * i) v) (o + 4 * j) = if decide (o + 4 * j = n + 4 * i) then v else h32 t (o + 4 * j).
Proof.
  intros Hn Hi Hv Ho Hj. apply h32_put32; [| | done].
  - by apply (ent_wa m G N M t Hok Htr n i l).
  - by apply (ent_wa m G N M t Hok Htr o j l').
Qed.

Lemma put_ent_bucket n l i v b s x : N !! n = Some l -> 0 <= i < 16 -> G !! b = Some s -> 128 <= s -> b <= x < b + s ->
  word (put32 t (n + 4 * i) v) x = word t x.
Proof.
  intros Hn Hi Hb Hs Hx. apply word_put32_ne. intros ->. 
  eapply (node_bucket_apart n l b s); [done | done | done | | exact Hx | reflexivity]. by apply (ent_wa m G N M t Hok Htr n i l).
Qed.

(** *** An empty entry gets a bucket *)

Lemma trie_add_head key n b base s : 0 < key < 2 ^ 64 -> leads t key (TDB_HTRIE_ROOT t) 0 0 n b ->
  G !! base = Some s -> base mod 128 = 0 -> s mod 128 = 0 -> sizeof_TdbBucket + rsize t <= s -> word t base = 0 -> word t (base + 16) = key ->
  trie_ok G N (<[key := [base]]> M) (put32 t (ent n key b) (TDB_O2DI base + TDB_HTRIE_DBIT)) /\ M !! key = None.
Proof.
  intros Hkey Hl Hb Hal Hs128 Hs Hw0 Hw16. set (v := TDB_O2DI base + TDB_HTRIE_DBIT). set (t' := put32 t (ent n key b) v).
  pose proof (leads_label m G N M t Hok Htr key _ _ _ _ _ Hl (root_label G N M t Htr key)) as Hn.
  destruct (leads_entry t key _ _ _ _ _ Hl) as [He _].
  assert (Hnone : M !! key = None).
  { destruct (M !! key) as [bs|] eqn:E; [| done]. destruct (to_key _ _ _ _ Htr key bs E) as (_ & _ & b' & bs' & n' & bits & -> & Hl' & _).
    destruct (leads_det _ _ _ _ _ _ _ _ _ _ Hl Hl') as [E1 _]. 
    destruct (bucket_o2di m G N M t Hok Htr key _ 0%nat b' E eq_refl) as (_ & ? & _). unfold TDB_HTRIE_DBIT in E1. lia. }
  split; [| done]. destruct (ao_in _ _ _ Hok base s Hb) as (Hs0 & Hb0 & _ & Hend).
  assert (Hs' : 128 <= s) by (apply Z.mod_divide in Hs128 as [q Hq]; lia).
  destruct (po_m _ _ (ao_pages _ _ _ Hok)) as [_ Hdb]. pose proof (po_max _ _ (ao_pages _ _ _ Hok)) as Hmax.
  unfold TDB_MAX_DB_SZ, L1_CACHE_BYTES in Hmax.
  assert (Hdi : 0 < TDB_O2DI base < 2 ^ 30).
  { unfold TDB_O2DI, TDB_HTRIE_MINDREC. apply Z.mod_divide in Hal as [q ->]; [| lia]. rewrite Z.div_mul by lia. lia. }
  assert (Hv : 0 <= v < 2 ^ 32) by (unfold v, TDB_HTRIE_DBIT; lia).
  assert (Hent : forall o l j, N !! o = Some l -> 0 <= j < 16 ->
    h32 t' (o + 4 * j) = if decide (o + 4 * j = ent n key b) then v else h32 t (o + 4 * j)).
  { intros o l j Ho Hj. by apply (put_ent_entry n _ _ v o l j Hn (idx_bounds _ _)). }
  assert (Hbw : forall b0 s0 x, G !! b0 = Some s0 -> 128 <= s0 -> b0 <= x < b0 + s0 -> word t' x = word t x).
  { intros b0 s0 x. by apply (put_ent_bucket n _ _ v b0 s0 x Hn (idx_bounds _ _)). }
  constructor.
  - apply (to_hdr _ _ _ _ Htr).
  - apply (to_root _ _ _ _ Htr).
  - apply (to_node _ _ _ _ Htr).
  - intros o bits pre i Ho Hi. rewrite (Hent o _ i Ho Hi). destruct (decide _) as [Ea|Ea].
    + destruct (ent_inj m G N M t Hok Htr _ _ _ _ _ _ Ho Hn Hi (idx_bounds key b) Ea) as [-> ->].
      rewrite Hn in Ho. injection Ho as <- <-. apply (entry_bucket _ _ _ _ base key []); [by rewrite lookup_insert_eq |].
      by apply (label_step G N M t Htr n).
    + destruct (to_entry _ _ _ _ Htr o bits pre i Ho Hi) as [|b0 k bs Hk Hp|o' Hal' Ho']; [constructor | | by constructor].
      apply (entry_bucket _ _ _ _ b0 k bs); [| done]. rewrite lookup_insert_ne by congruence. done.
  - assert (Hch : forall k v1 n1 b1, leads t k (TDB_HTRIE_ROOT t) 0 v1 n1 b1 ->
      (ent n1 k b1 <> ent n key b -> leads t' k (TDB_HTRIE_ROOT t) 0 v1 n1 b1) /\
      (ent n1 k b1 = ent n key b -> forall x y z, leads t' k n1 b1 x y z -> leads t' k (TDB_HTRIE_ROOT t) 0 x y z)).
    { intros k v1 n1 b1 Hl1. apply (leads_change t' (ent n key b) k _ _ _ _ _ Hl1); [by eapply root_label | left; by rewrite He |].
      intros x l i Hx Hi Hne. rewrite (Hent x l i Hx Hi). by destruct (decide _). }
    intros k bs Hk. change (TDB_HTRIE_ROOT t') with (TDB_HTRIE_ROOT t). apply lookup_insert_Some in Hk as [[<- <-]|[Hne Hk]].
    + split; [done |]. split; [apply NoDup_singleton |]. exists base, [], n, b. split_and!; [done | | by left].
      apply (proj2 (Hch key 0 n b Hl)); [done |]. apply leads_end; [| right; unfold v; lia].
      unfold ent. rewrite (Hent n _ _ Hn (idx_bounds _ _)). by destruct (decide _).
    + destruct (to_key _ _ _ _ Htr k bs Hk) as (Hk0 & Hnd & b1 & bs' & n1 & bits & -> & Hl1 & Hc). split_and!; try done; try lia.
      exists b1, bs', n1, bits. split_and!; try done. apply (proj1 (Hch k _ n1 bits Hl1)). intros Ea.
      destruct (leads_entry t k _ _ _ _ _ Hl1) as [He1 _]. rewrite Ea, He in He1.
      destruct (bucket_o2di m G N M t Hok Htr k _ 0%nat b1 Hk eq_refl) as (_ & ? & _). unfold TDB_HTRIE_DBIT in He1. lia.
  - intros k bs j b1 Hk Hj. change (rsize t') with (rsize t). apply lookup_insert_Some in Hk as [[<- <-]|[Hne Hk]].
    + destruct j; [| done]. injection Hj as <-. unfold sizeof_TdbBucket in Hs.
      rewrite !(Hbw base s) by (done || lia). split_and!; try done. by exists s.
    + destruct (bucket_region k bs j b1 Hk Hj) as (s1 & Hs1 & ? & _). rewrite !(Hbw b1 s1) by (done || lia).
      by apply (to_bucket _ _ _ _ Htr k bs j b1).
Qed.

(** *** A chain gets longer *)

Lemma trie_append key bs last base s n : M !! key = Some bs -> leads t key (TDB_HTRIE_ROOT t) 0 (TDB_O2DI (hd 0 bs) + TDB_HTRIE_DBIT) n 60 ->
  bs !! pred (length bs) = Some last -> G !! base = Some s -> base mod 128 = 0 -> s mod 128 = 0 -> sizeof_TdbBucket + rsize t <= s ->
  word t base = 0 -> word t (base + 16) = key -> (forall k bs, M !! k = Some bs -> base ∉ bs) ->
  trie_ok G N (<[key := bs ++ [base]]> M) (put32 t last (TDB_O2DI base)).
Proof.
  intros Hkey Hl Hlast Hb Hal Hs128 Hs Hw0 Hw16 Hfresh. set (v := TDB_O2DI base). set (t' := put32 t last v).
  destruct (ao_in _ _ _ Hok base s Hb) as (Hs0 & Hb0 & _ & Hend).
  assert (Hs' : 128 <= s) by (apply Z.mod_divide in Hs128 as [q Hq]; lia).
  destruct (po_m _ _ (ao_pages _ _ _ Hok)) as [_ Hdb]. pose proof (po_max _ _ (ao_pages _ _ _ Hok)) as Hmax.
  unfold TDB_MAX_DB_SZ, L1_CACHE_BYTES in Hmax.
  assert (Hdi : 0 < v < 2 ^ 30).
  { unfold v, TDB_O2DI, TDB_HTRIE_MINDREC. apply Z.mod_divide in Hal as [q ->]; [| lia]. rewrite Z.div_mul by lia. lia. }
  destruct (to_bucket _ _ _ _ Htr key bs _ last Hkey Hlast) as (Hlal & _ & _ & Hlw).
  destruct (bucket_region key bs _ last Hkey Hlast) as (ls & HGl & Hls & _ & _).
  destruct (to_key _ _ _ _ Htr key bs Hkey) as (Hk0 & Hnd & b0 & bs0 & n0 & bits0 & Ebs & Hl0 & _).
  assert (Hne : bs <> []) by (by rewrite Ebs). assert (Hlb : base <> last).
  { intros ->. apply (Hfresh key bs Hkey). by eapply list_elem_of_lookup_2. }
  rewrite (proj2 (lookup_ge_None bs _)) in Hlw by (destruct bs; [done | simpl; lia]).
  assert (Hwl : wa last = last /\ is_hi last = false).
  { unfold wa, is_hi. rewrite (mod_64_8 last) by (by apply mod_128_64). done. }
  destruct Hwl as [Hwa Hhi].
  assert (Hw : forall x, word t' x = if decide (x = last) then v else word t x).
  { intros x. subst t'. unfold put32. rewrite word_upd, Hwa, Hhi. destruct (decide _); [| done]. rewrite Hlw. unfold set_half. by rewrite Z.div_0_l. }
  assert (Hnode : forall o l i, N !! o = Some l -> 0 <= i < 16 -> h32 t' (o + 4 * i) = h32 t (o + 4 * i)).
  { intros o l i Ho Hi. unfold h32. rewrite Hw. destruct (decide _) as [E|]; [| done]. exfalso.
    eapply (node_bucket_apart o l last ls (wa (o + 4 * i)) last); [done | done | done | | lia | done].
    by apply (ent_wa m G N M t Hok Htr o i l). }
  assert (Hch : forall k v1 n1 b1, leads t k (TDB_HTRIE_ROOT t) 0 v1 n1 b1 -> leads t' k (TDB_HTRIE_ROOT t) 0 v1 n1 b1).
  { intros k v1 n1 b1 Hl1. apply (leads_same m G N M t Hok Htr t' k _ _ _ _ _ Hl1); [by eapply root_label | done]. }
  constructor.
  - apply (to_hdr _ _ _ _ Htr).
  - apply (to_root _ _ _ _ Htr).
  - apply (to_node _ _ _ _ Htr).
  - intros o bits pre i Ho Hi. rewrite (Hnode o _ i Ho Hi).
    destruct (to_entry _ _ _ _ Htr o bits pre i Ho Hi) as [|b1 k bs1 Hk Hp|o' Hal' Ho']; [constructor | | by constructor].
    destruct (Z.eq_dec k key) as [->|Hk'].
    + apply (entry_bucket _ _ _ _ b1 key (bs1 ++ [base])); [| done]. rewrite lookup_insert_eq. rewrite Hkey in Hk. by injection Hk as ->.
    + apply (entry_bucket _ _ _ _ b1 k bs1); [| done]. by rewrite lookup_insert_ne.
  - intros k bs1 Hk. change (TDB_HTRIE_ROOT t') with (TDB_HTRIE_ROOT t). apply lookup_insert_Some in Hk as [[<- <-]|[Hk' Hk]].
    + split; [done |]. split.
      { apply NoDup_app. split_and!; [done | | apply NoDup_singleton]. intros x Hx ->%list_elem_of_singleton. by apply (Hfresh key bs). }
      exists b0, (bs0 ++ [base]), n, 60. rewrite Ebs in *. split_and!; [done | | by right]. by apply Hch.
    + destruct (to_key _ _ _ _ Htr k bs1 Hk) as (Hk1 & Hnd1 & b1 & bs' & n1 & bits & -> & Hl1 & Hc). split_and!; try done; try lia.
      exists b1, bs', n1, bits. split_and!; try done. by apply Hch.
  - intros k bs1 j b1 Hk Hj. change (rsize t') with (rsize t). apply lookup_insert_Some in Hk as [[<- <-]|[Hk' Hk]].
    + apply lookup_app_Some in Hj as [Hj|[Hge Hj]].
      * destruct (to_bucket _ _ _ _ Htr key bs j b1 Hkey Hj) as (Hb1 & Hr1 & Hk1 & Hn1).
        destruct (bucket_region key bs j b1 Hkey Hj) as (s1 & Hs1 & ? & _).
        rewrite !Hw. split_and!; [done | done | |].
        -- destruct (decide _) as [E|]; [| done]. exfalso. destruct (Z.eq_dec b1 last) as [->|Hbl]; [lia |].
           destruct (ao_disj _ _ _ Hok _ _ _ _ Hs1 HGl Hbl); lia.
        -- destruct (decide _) as [->|Hbl].
           ++ assert (j = pred (length bs)) as -> by (by eapply (NoDup_lookup bs)).
              rewrite (list_lookup_middle bs [] base); [done |]. destruct bs; simpl; [done | lia].
           ++ rewrite Hn1. assert (j < length bs)%nat by (by eapply lookup_lt_Some).
              rewrite lookup_app_l; [done |]. destruct (decide (j = pred (length bs))) as [->|]; [congruence | lia].
      * destruct (j - length bs)%nat as [|d] eqn:Ej; [| done]. injection Hj as <-. rewrite !Hw.
        unfold sizeof_TdbBucket in Hs. split_and!; [done | by exists s | |].
        -- destruct (decide _) as [E|]; [| done]. exfalso. destruct (ao_disj _ _ _ Hok _ _ _ _ Hb HGl Hlb); lia.
        -- destruct (decide _); [done |]. rewrite Hw0. rewrite (proj2 (lookup_ge_None _ _)); [done |]. rewrite length_app. simpl. lia.
    + destruct (to_bucket _ _ _ _ Htr k bs1 j b1 Hk Hj) as (Hb1 & Hr1 & Hk1 & Hn1).
      destruct (bucket_region k bs1 j b1 Hk Hj) as (s1 & Hs1 & ? & _).
      assert (Hbl : b1 <> last) by (intros ->; by destruct (bucket_key _ _ _ _ _ _ _ Hk Hj Hkey Hlast)).
      rewrite !Hw. split_and!; try done.
      * destruct (decide _) as [E|]; [| done]. exfalso. destruct (ao_disj _ _ _ Hok _ _ _ _ Hs1 HGl Hbl); lia.
      * by destruct (decide _).
Qed.

(** *** A bucket is pushed one level down *)

Lemma trie_burst key n b bk kb new : leads t key (TDB_HTRIE_ROOT t) 0 (TDB_O2DI bk + TDB_HTRIE_DBIT) n b ->
  M !! kb = Some [bk] -> b < 60 -> G !! new = Some 64 -> new mod 64 = 0 -> N !! new = None -> (forall x, new <= x < new + 64 -> word t x = 0) ->
  let t1 := put32 t (ent new kb (b + 4)) (TDB_O2DI bk + TDB_HTRIE_DBIT) in let t2 := put32 t1 (ent n key b) (TDB_O2II new) in
  trie_ok G (<[new := (b + 4, key mod 2 ^ (b + 4))]> N) M t2 /\
  (forall x y z, leads t2 key new (b + 4) x y z -> leads t2 key (TDB_HTRIE_ROOT t) 0 x y z).
Proof.
  intros Hl Hkb Hb60 HG Hal HN Hz t1 t2. set (v := TDB_O2DI bk + TDB_HTRIE_DBIT) in *.
  destruct (ao_in _ _ _ Hok new 64 HG) as (_ & Hpos & Hn8 & Hend).
  destruct (po_m _ _ (ao_pages _ _ _ Hok)) as [_ Hdb]. pose proof (po_max _ _ (ao_pages _ _ _ Hok)) as Hmax.
  unfold TDB_MAX_DB_SZ, L1_CACHE_BYTES in Hmax.
  assert (Hii : TDB_II2O (TDB_O2II new) = new /\ 0 < TDB_O2II new < TDB_HTRIE_DBIT).
  { unfold TDB_II2O, TDB_O2II, L1_CACHE_BYTES, TDB_HTRIE_DBIT. apply Z.mod_divide in Hal as [q ->]; [| lia]. rewrite Z.div_mul by lia. lia. }
  destruct Hii as [Hii Hiib]. destruct (bucket_o2di m G N M t Hok Htr kb _ 0%nat bk Hkb eq_refl) as (_ & Hdi & _).
  assert (Hv : 0 <= v < 2 ^ 32) by (unfold v, TDB_HTRIE_DBIT; lia).
  pose proof (leads_label m G N M t Hok Htr key _ _ _ _ _ Hl (root_label G N M t Htr key)) as Hn.
  destruct (to_node _ _ _ _ Htr _ _ _ Hn) as (HGn & Hbb & Hb4).
  destruct (leads_entry t key _ _ _ _ _ Hl) as [He Hterm].
  assert (Hneq : forall o l, N !! o = Some l -> o <> new) by (intros o l Ho ->; congruence).
  assert (Hapart : forall o l i j, N !! o = Some l -> 0 <= i < 16 -> 0 <= j < 16 -> o + 4 * i <> new + 4 * j).
  { intros o l i j Ho Hi Hj. destruct (node_aligned m G N M t Hok Htr o l Ho) as (HGo & _).
    destruct (ao_disj _ _ _ Hok _ _ _ _ HGo HG (Hneq o l Ho)); lia. }
  assert (Hnew4 : forall j, (new + 4 * j) mod 4 = 0) by (intros j; by apply ent_aligned).
  (* the entries after the burst *)
  assert (Hold : forall o l j, N !! o = Some l -> 0 <= j < 16 ->
    h32 t2 (o + 4 * j) = if decide (o + 4 * j = ent n key b) then TDB_O2II new else h32 t (o + 4 * j)).
  { intros o l j Ho Hj. destruct (ent_wa m G N M t Hok Htr o j l Ho Hj) as [_ H4].
    destruct (ent_wa m G N M t Hok Htr n _ _ Hn (idx_bounds key b)) as [_ Ha4].
    subst t2. rewrite h32_put32 by (try done; unfold TDB_HTRIE_DBIT in Hiib; lia).
    destruct (decide _); [done |]. subst t1. unfold ent. rewrite h32_put32 by done.
    destruct (decide _) as [E|]; [| done]. by destruct (Hapart o l j _ Ho Hj (idx_bounds kb (b + 4))). }
  assert (Hnew : forall j, 0 <= j < 16 -> h32 t2 (new + 4 * j) = if decide (j = TDB_HTRIE_IDX kb (b + 4)) then v else 0).
  { intros j Hj. destruct (ent_wa m G N M t Hok Htr n _ _ Hn (idx_bounds key b)) as [_ Ha4].
    subst t2. rewrite h32_put32 by (try done; unfold TDB_HTRIE_DBIT in Hiib; lia).
    destruct (decide _) as [E|]; [by destruct (Hapart n _ _ j Hn (idx_bounds key b) Hj) |].
    subst t1. unfold ent. rewrite h32_put32 by done. destruct (decide (new + 4 * j = _)) as [E|E], (decide (j = _)) as [E'|E']; try lia.
    unfold h32. destruct (wa_bounds _ (Hnew4 j)) as [Hw8 Hwb].
    rewrite Hz; [by destruct (is_hi _) |]. apply Z.mod_divide in Hw8 as [q Hq], Hn8 as [p Hp]; lia. }
  assert (Hbw : forall b0 s0 x, G !! b0 = Some s0 -> 128 <= s0 -> b0 <= x < b0 + s0 -> word t2 x = word t x).
  { intros b0 s0 x Hb0 Hs0 Hx. subst t2. rewrite word_put32_ne.
    2: { intros ->. eapply (node_bucket_apart n _ b0 s0); [done | done | done | | exact Hx | reflexivity]. by apply (ent_wa m G N M t Hok Htr n _ _ Hn), idx_bounds. }
    subst t1. apply word_put32_ne. intros ->. unfold ent in Hx. destruct (wa_bounds _ (Hnew4 (TDB_HTRIE_IDX kb (b + 4)))) as [Hw8 Hwb].
    pose proof (idx_bounds kb (b + 4)). assert (Hne : new <> b0) by (intros ->; rewrite HG in Hb0; injection Hb0; lia).
    destruct (ao_disj _ _ _ Hok _ _ _ _ HG Hb0 Hne); apply Z.mod_divide in Hw8 as [q Hq], Hn8 as [p Hp]; lia. }
  assert (Hpre : kb mod 2 ^ (b + 4) = key mod 2 ^ (b + 4)).
  { rewrite (label_step G N M t Htr n b _ key Hn eq_refl).
    destruct (entry_cases m G N M t Hok Htr n b _ _ Hn (idx_bounds key b)) as [E0|[(b1 & k1 & bs1 & Hk1 & Hp1 & E0 & _)|[Hr _]]];
      fold (ent n key b) in *; [unfold v, TDB_HTRIE_DBIT in *; lia | | unfold v, TDB_HTRIE_DBIT in *; lia].
    rewrite <- Hp1. rewrite He in E0. unfold v in E0.
    assert (bk = b1) as <- by (eapply (o2di_inj kb _ 0%nat _ k1 _ 0%nat); [exact Hkb | done | exact Hk1 | done | lia]).
    destruct (bucket_key kb _ 0%nat bk k1 _ 0%nat Hkb eq_refl Hk1 eq_refl) as [-> _]. done. }
  assert (Hch : forall k v1 n1 b1, leads t k (TDB_HTRIE_ROOT t) 0 v1 n1 b1 ->
      (ent n1 k b1 <> ent n key b -> leads t2 k (TDB_HTRIE_ROOT t) 0 v1 n1 b1) /\
      (ent n1 k b1 = ent n key b -> forall x y z, leads t2 k n1 b1 x y z -> leads t2 k (TDB_HTRIE_ROOT t) 0 x y z)).
  { intros k v1 n1 b1 Hl1. apply (leads_change t2 (ent n key b) k _ _ _ _ _ Hl1); [by eapply root_label | by rewrite He |].
    intros x l i Hx Hi Hne. rewrite (Hold x l i Hx Hi). by destruct (decide _). }
  assert (Ha0 : h32 t2 (ent n key b) = TDB_O2II new) by (unfold ent; rewrite (Hold n _ _ Hn (idx_bounds _ _)); by destruct (decide _)).
  split.
  2: { intros x y z Hx. apply (proj2 (Hch key _ _ _ Hl) eq_refl). apply (leads_step _ _ _ _ (TDB_O2II new)); [done | done |]. by rewrite Hii. }
  constructor.
  - apply (to_hdr _ _ _ _ Htr).
  - change (TDB_HTRIE_ROOT t2) with (TDB_HTRIE_ROOT t). rewrite lookup_insert_ne; [apply (to_root _ _ _ _ Htr) |].
    intros E. rewrite E in HN. by rewrite (to_root _ _ _ _ Htr) in HN.
  - intros o bits pre [[<- [= <- <-]]|[_ Ho]]%lookup_insert_Some; [| by apply (to_node _ _ _ _ Htr o bits pre)].
    assert (b <= 56) by (apply Z.mod_divide in Hb4 as [q Hq]; lia).
    split_and!; [done | lia | lia |]. rewrite Z.add_mod, Hb4 by lia. done.
  - intros o bits pre i [[<- [= <- <-]]|[Hne Ho]]%lookup_insert_Some Hi.
    + rewrite Hnew by done. destruct (decide _) as [->|]; [| constructor].
      apply (entry_bucket _ _ _ _ bk kb []); [done |]. rewrite <- Hpre. apply idx_digit. lia.
    + rewrite (Hold o _ i Ho Hi). destruct (decide _) as [E|E].
      * destruct (ent_inj m G N M t Hok Htr _ _ _ _ _ _ Ho Hn Hi (idx_bounds key b) E) as [-> ->].
        rewrite Hn in Ho. injection Ho as <- <-. constructor; [done |]. rewrite lookup_insert_eq. by rewrite <- (label_step G N M t Htr n b _ key Hn).
      * destruct (to_entry _ _ _ _ Htr o bits pre i Ho Hi) as [|b0 k bs Hk Hp|o' Hal' Ho']; [constructor | by econstructor |].
        constructor; [done |]. rewrite lookup_insert_ne; [done |]. intros <-. congruence.
  - intros k bs Hk. change (TDB_HTRIE_ROOT t2) with (TDB_HTRIE_ROOT t).
    destruct (to_key _ _ _ _ Htr k bs Hk) as (Hk0 & Hnd & b1 & bs' & n1 & bits & -> & Hl1 & Hc). split_and!; try done; try lia.
    destruct (decide (ent n1 k bits = ent n key b)) as [Ea|Ea].
    + destruct (leads_entry t k _ _ _ _ _ Hl1) as [He1 _]. rewrite Ea, He in He1. unfold v in He1.
      assert (bk = b1) as <- by (eapply (o2di_inj kb _ 0%nat _ k _ 0%nat); [exact Hkb | done | exact Hk | done | lia]).
      destruct (bucket_key kb _ 0%nat bk k _ 0%nat Hkb eq_refl Hk eq_refl) as [-> _]. rewrite Hkb in Hk. injection Hk as <-.
      pose proof (leads_label m G N M t Hok Htr k _ _ _ _ _ Hl1 (root_label G N M t Htr k)) as Hn1.
      destruct (ent_same n b n1 bits key k Hn Hn1 Ea) as (-> & -> & Ei).
      exists bk, [], new, (b + 4). split_and!; [done | | by left]. apply (proj2 (Hch k _ _ _ Hl1) Ea).
      apply (leads_step _ _ _ _ (TDB_O2II new)); [by rewrite Ea | done |]. rewrite Hii. apply leads_end; [| right; unfold v; lia].
      unfold ent. rewrite Hnew by apply idx_bounds. by destruct (decide _).
    + exists b1, bs', n1, bits. split_and!; try done. by apply (proj1 (Hch k _ n1 bits Hl1)).
  - intros k bs j b1 Hk Hj. change (rsize t2) with (rsize t).
    destruct (bucket_region k bs j b1 Hk Hj) as (s1 & Hs1 & ? & _). rewrite !(Hbw b1 s1) by (done || lia).
    by apply (to_bucket _ _ _ _ Htr k bs j b1).
Qed.
End Change.
