(* ===== verification/HtrieSpec.v ===== *)
(** * Tempesta DB: the trie is a multimap

    Tables with records of a fixed size that is more than 48 bytes (the tables of clients and of
    sessions): a data block has one record.  While index nodes are in the lower half of the
    file, insertion never hits a BUG and never fails, a record is never moved, and
    [tdb_rec_get()] with [tdb_rec_next()] enumerate the records of a key in the order of
    their insertion ([tdb_trie_multimap]).  [tdb_rec_get_alloc()] finds the first record that its caller
    accepts or adds one ([tdb_get_alloc_first]; the interface [GetAllocTable] is what clients of a table
    are proved against); [tdb_entry_walk()] visits all records ([tdb_walk_complete]). *)

From S2P Require Import Prelude Tdb Htrie HtrieInv.

#[local] Open Scope Z_scope.

(** ** The operations *)

Lemma ralign_8 n : TDB_HTRIE_RALIGN (8 + n) = 8 + TDB_HTRIE_RALIGN n.
Proof.
  unfold TDB_HTRIE_RALIGN. rewrite !mask_high_mod by lia. change (2 ^ 3) with 8.
  replace (8 + n + 7) with (n + 7 + 1 * 8) by lia. rewrite Z.mod_add by lia. lia.
Qed.

Lemma mod8_add x y : x mod 8 = 0 -> y mod 8 = 0 -> (x + y) mod 8 = 0.
Proof. intros H1 H2. by rewrite Z.add_mod, H1, H2. Qed.

(** The words of the data of a record. *)
Definition data_ok (t : Tdb) (data : option (list Z)) : Prop :=
  match data with Some ws => 8 * zlen ws = TDB_HTRIE_RALIGN (rec_len t) | None => True end.

Lemma create_rec_spec m G t base s key data : alloc_ok m G t -> big_table t -> data_ok t data -> G !! base = Some s -> base mod 128 = 0 ->
  sizeof_TdbBucket + rsize t <= s -> word t (base + 16) = 0 ->
  exists t', tdb_htrie_create_rec (base + sizeof_TdbBucket) key data (rec_len t) t = Ok (base + 16, t') /\ mem_only t t' /\
    (forall x, ~ base + 16 <= x < base + 16 + rsize t -> word t' x = word t x) /\ word t' (base + 16) = key /\
    forall ws j w, data = Some ws -> ws !! j = Some w -> word t' (base + 24 + 8 * Z.of_nat j) = w.
Proof.
  intros Hok Hbig Hdata Hb Hal Hs Hw. unfold sizeof_TdbBucket in *. destruct (rsize_bounds t Hbig) as (Hr & Hr8 & _).
  assert (Hb8 : base mod 8 = 0) by (by apply mod_64_8, mod_128_64).
  assert (Hin : forall y, 0 <= y -> y mod 8 = 0 -> y + 8 <= rsize t -> in_map t (base + 16 + y) = true).
  { intros y Hy Hy8 Hys. apply (region_in_map m G t Hok base s); [done | lia | lia |]. by repeat apply mod8_add. }
  unfold tdb_htrie_create_rec, sm_bind, sm_get. unfold get_key.
  assert (Hin0 : in_map t (base + 16) = true) by (rewrite <- (Z.add_0_r (base + 16)); apply Hin; [lia | done | lia]).
  rewrite rd64_ok, Hw by done. cbn [Z.eqb negb bug_on]. unfold sm_ret. rewrite wr64_ok by done. rewrite big_fixed by done.
  set (t1 := upd t (base + 16) key). destruct data as [ws|].
  - simpl in Hdata. unfold sizeof_rec. rewrite big_fixed by done. unfold sizeof_TdbFRec.
    assert (Hrs : rsize t = 8 + 8 * zlen ws) by (unfold rsize, sizeof_TdbFRec; rewrite ralign_8; lia).
    rewrite take_ge by (unfold zlen in *; rewrite <- Hdata, Z.mul_comm, Z.div_mul by lia; lia).
    destruct (wr_words_ok ws (base + 16 + 8) t1) as (t2 & Hrun & Hm & Hin2 & Hout).
    { intros j Hj. rewrite (in_map_mem_only t) by (subst t1; auto). replace (base + 16 + 8 + 8 * j) with (base + 16 + (1 + j) * 8) by lia.
      apply Hin; [lia | by apply Z.mod_mul | lia]. }
    rewrite Hrun. exists t2. split_and!; [done | by apply (mem_only_trans t t1); [subst t1; auto |] | | |].
    + intros x Hx. rewrite Hout by lia. subst t1. rewrite word_upd. by destruct (decide _); [lia |].
    + rewrite Hout by lia. subst t1. rewrite word_upd. by destruct (decide _).
    + intros ws' j w [= <-] Hj. rewrite <- (Hin2 j w Hj). f_equal. lia.
  - exists t1. split_and!; [done | subst t1; auto | | |].
    + intros x Hx. subst t1. rewrite word_upd. by destruct (decide _); [lia |].
    + subst t1. rewrite word_upd. by destruct (decide _).
    + intros ws j w [=].
Qed.

Section Ops.
Context (m : Z) (G : gmap Z Z) (N : labels) (M : multimap) (t : Tdb).
Context (Hok : alloc_ok m G t) (Htr : trie_ok G N M t) (Hbig : big_table t).

Lemma reclen_ok r : TDB_HTRIE_RECLEN r t = Ok (rsize t, t).
Proof. unfold TDB_HTRIE_RECLEN, sm_bind, sm_get. by rewrite big_fixed. Qed.

Lemma scan_len_ok r : scan_len r t = Ok (rsize t, t).
Proof. unfold scan_len, sm_bind, sm_get. rewrite (proj2 (Z.eqb_neq (rec_len t) 0)) by (unfold big_table in Hbig; lia). done. Qed.

Lemma bucket_word k bs j b x : M !! k = Some bs -> bs !! j = Some b -> 0 <= x -> x mod 8 = 0 -> x + 8 <= sizeof_TdbBucket + rsize t ->
  in_map t (b + x) = true.
Proof.
  intros Hk Hj Hx Hx8 Hxs. destruct (bucket_region m G N M t Hok Htr k bs j b Hk Hj) as (s & Hs & _ & _ & Hss).
  destruct (to_bucket _ _ _ _ Htr k bs j b Hk Hj) as (Hal & _).
  apply (region_in_map m G t Hok b s); [done | lia | lia |]. apply mod8_add; [by apply mod_64_8, mod_128_64 | done].
Qed.

Lemma bucket_key_ok k bs j b : M !! k = Some bs -> bs !! j = Some b -> rd64 (b + 16) t = Ok (k, t).
Proof.
  intros Hk Hj. pose proof (rsize_bounds t Hbig). rewrite rd64_ok by (apply (bucket_word k bs j b); unfold sizeof_TdbBucket; done || lia).
  by destruct (to_bucket _ _ _ _ Htr k bs j b Hk Hj) as (_ & _ & -> & _).
Qed.

Lemma bucket_live k bs j b : M !! k = Some bs -> bs !! j = Some b -> tdb_live_rec (b + 16) t = Ok (true, t).
Proof.
  intros Hk Hj. destruct (rsize_bounds t Hbig) as (Hr & Hr8 & _).
  unfold tdb_live_rec, sm_bind at 1, sm_get at 1. rewrite big_fixed by done.
  unfold tdb_live_fsrec, sm_bind, sm_get. fold (rsize t). apply Z.mod_divide in Hr8 as [q Hq]; [| lia].
  rewrite rd_words_ok.
  2: { intros i Hi. rewrite Hq, Z.div_mul in Hi by lia. replace (b + 16 + 8 * i) with (b + (2 + i) * 8) by lia.
       apply (bucket_word k bs j b); try done; unfold sizeof_TdbBucket; try lia. apply Z.mod_mul; lia. }
  unfold sm_ret. do 2 f_equal. rewrite Hq, Z.div_mul by lia. destruct (Z.to_nat q) as [|n] eqn:En; [lia |]. cbn [seq]. rewrite fmap_cons. cbn [existsb].
  rewrite Z.mul_0_r, Z.add_0_r. destruct (to_bucket _ _ _ _ Htr k bs j b Hk Hj) as (_ & _ & -> & _).
  destruct (to_key _ _ _ _ Htr k bs Hk) as (? & _). by rewrite (proj2 (Z.eqb_neq k 0)) by lia.
Qed.

Lemma bucket_hdr k bs j b : M !! k = Some bs -> bs !! j = Some b ->
  get_coll_next b t = Ok (match bs !! S j with Some b' => TDB_O2DI b' | None => 0 end, t) /\ get_flags b t = Ok (0, t).
Proof.
  intros Hk Hj. destruct (to_bucket _ _ _ _ Htr k bs j b Hk Hj) as (Hal & _ & _ & Hw).
  assert (Hb8 : b mod 8 = 0) by (by apply mod_64_8, mod_128_64). pose proof (rsize_bounds t Hbig).
  assert (Hb : in_map t b = true) by (rewrite <- (Z.add_0_r b); apply (bucket_word k bs j b); unfold sizeof_TdbBucket; done || lia).
  set (nx := match bs !! S j with Some b' => TDB_O2DI b' | None => 0 end) in *.
  assert (Hnx : 0 <= nx < 2 ^ 32).
  { subst nx. destruct (bs !! S j) as [b'|] eqn:E; [| lia]. destruct (bucket_o2di m G N M t Hok Htr k bs (S j) b' Hk E). lia. }
  assert (Eb : is_hi b = false /\ wa b = b) by (unfold wa, is_hi; rewrite Hb8; done).
  assert (Eb4 : is_hi (b + 4) = true /\ wa (b + 4) = b).
  { unfold wa, is_hi. rewrite Z.add_mod, Hb8 by lia. simpl. split; [done | lia]. }
  destruct Eb as [E1 E2], Eb4 as [E3 E4]. unfold get_coll_next, get_flags.
  rewrite !rd32_ok by (by rewrite ?E2, ?E4). unfold h32. rewrite E1, E2, E3, E4, Hw. unfold half.
  rewrite Z.mod_small, Z.div_small by done. done.
Qed.

Lemma bucket_next k bs j b : M !! k = Some bs -> bs !! j = Some b ->
  TDB_HTRIE_BUCKET_NEXT b t = Ok (default 0 (bs !! S j), t).
Proof.
  intros Hk Hj. destruct (bucket_hdr k bs j b Hk Hj) as [Hc _]. unfold TDB_HTRIE_BUCKET_NEXT, sm_bind. rewrite Hc.
  destruct (bs !! S j) as [b'|] eqn:E; [| done]. destruct (bucket_o2di m G N M t Hok Htr k bs (S j) b' Hk E) as (Hd & ? & _).
  rewrite (proj2 (Z.eqb_neq _ 0)) by lia. by rewrite Hd.
Qed.

(** A chain is shorter than the fuel: its buckets are distinct and each has 128 bytes. *)
Lemma chain_short k bs : M !! k = Some bs -> (length bs < chain_fuel t)%nat.
Proof.
  intros Hk. destruct (to_key _ _ _ _ Htr k bs Hk) as (_ & Hnd & _).
  destruct (po_m _ _ (ao_pages _ _ _ Hok)) as [_ Hdb]. pose proof (po_max _ _ (ao_pages _ _ _ Hok)) as Hmax.
  assert (Hle : (length ((fun b => Z.to_nat (TDB_O2DI b)) <$> bs) <= length (seq 0 (Z.to_nat (dbsz t / TDB_HTRIE_MINDREC))))%nat).
  { apply (NoDup_incl_length (A := nat)).
    - apply NoDup_ListNoDup, NoDup_fmap_2_strong; [| done]. intros b1 b2 [i Hi]%list_elem_of_lookup_1 [j Hj]%list_elem_of_lookup_1 E.
      destruct (bucket_o2di m G N M t Hok Htr k bs i b1 Hk Hi) as (_ & ? & _), (bucket_o2di m G N M t Hok Htr k bs j b2 Hk Hj) as (_ & ? & _).
      apply (o2di_inj m G N M t Hok Htr k bs i b1 k bs j b2 Hk Hi Hk Hj). lia.
    - intros x Hx%list_elem_of_In. apply list_elem_of_fmap in Hx as (b & -> & [i Hi]%list_elem_of_lookup_1).
      apply in_seq. destruct (bucket_region m G N M t Hok Htr k bs i b Hk Hi) as (s & Hs & Hs1 & _).
      destruct (ao_in _ _ _ Hok b s Hs) as (_ & ? & _ & ?). unfold TDB_O2DI, TDB_HTRIE_MINDREC.
      assert (0 <= b / 128 < dbsz t / 128).
      { split; [apply Z.div_pos; lia |]. apply Z.lt_le_trans with (b / 128 + 1); [lia |].
        replace (b / 128 + 1) with ((b + 1 * 128) / 128) by (rewrite Z.div_add; lia). apply Z.div_le_mono; lia. }
      lia. }
  rewrite length_fmap, length_seq in Hle. unfold chain_fuel.
  assert (0 <= dbsz t / TDB_HTRIE_MINDREC) by (apply Z.div_pos; unfold TDB_HTRIE_MINDREC; lia). lia.
Qed.

(** There is no room for another record in a bucket. *)
Lemma no_room k bs j b len : M !! k = Some bs -> bs !! j = Some b -> room_in_bucket 16 len b (TDB_HTRIE_BCKT_1ST_REC b) t = Ok (0, t).
Proof.
  intros Hk Hj. destruct (rsize_bounds t Hbig) as (Hr & _). cbn [room_in_bucket]. unfold sm_bind at 1, sm_get at 1.
  unfold TDB_HTRIE_BCKT_1ST_REC, sizeof_rec, TDB_HTRIE_MINDREC, sizeof_TdbBucket. rewrite big_fixed by done. unfold sizeof_TdbFRec.
  destruct (Z.ltb_spec 128 (b + 16 - b + 8)); [lia |]. unfold sm_bind at 1. rewrite reclen_ok.
  destruct (Z.ltb_spec 128 (b + 16 - b + rsize t)); [done |].
  unfold sm_bind at 1. rewrite (bucket_live k bs j b Hk Hj). cbn [negb andb].
  unfold sm_bind at 1, sm_get at 1. destruct (Z.ltb_spec 128 (b + 16 + rsize t - b + (if TDB_HTRIE_VARLENRECS t then sizeof_TdbVRec else 8))); [done |].
  unfold sm_bind at 1. rewrite reclen_ok. destruct (Z.ltb_spec 128 (b + 16 + rsize t - b + rsize t)); [done | lia].
Qed.

Lemma smallrec_none len k bs : M !! k = Some bs -> forall fuel j, (length bs < j + fuel)%nat -> (j <= length bs)%nat ->
  smallrec_chain fuel len (default 0 (bs !! j)) t = Ok (0, t).
Proof.
  intros Hk. induction fuel as [|fuel IH]; intros j Hf Hj; [lia |]. cbn [smallrec_chain].
  destruct (bs !! j) as [b|] eqn:E; simpl (default _ _); [| done].
  destruct (bucket_o2di m G N M t Hok Htr k bs j b Hk E) as (_ & _ & Hb). rewrite (proj2 (Z.eqb_neq b 0)) by lia.
  unfold sm_bind at 1. rewrite (no_room k bs j b len Hk E). cbn [Z.eqb negb]. unfold sm_bind. rewrite (bucket_next k bs j b Hk E).
  apply IH; [lia |]. apply lookup_lt_Some in E. lia.
Qed.

Lemma last_bucket_ok k bs last : M !! k = Some bs -> bs !! pred (length bs) = Some last ->
  forall fuel j b, (length bs <= j + fuel)%nat -> bs !! j = Some b -> last_bucket fuel b t = Ok (last, t).
Proof.
  intros Hk Hlast. induction fuel as [|fuel IH]; intros j b Hf Hj; [apply lookup_lt_Some in Hj; lia |].
  cbn [last_bucket]. destruct (bucket_hdr k bs j b Hk Hj) as [Hc Hfl]. unfold sm_bind. rewrite Hc, Hfl.
  unfold TDB_HTRIE_VRFREED. rewrite (flag_low 0) by lia. cbn [negb]. rewrite andb_true_r.
  destruct (bs !! S j) as [b'|] eqn:E.
  - destruct (bucket_o2di m G N M t Hok Htr k bs (S j) b' Hk E) as (Hd & ? & _). rewrite (proj2 (Z.eqb_neq _ 0)) by lia. cbn [negb].
    rewrite (bucket_next k bs j b Hk Hj), E. apply (IH (S j)); [lia | done].
  - cbn [Z.eqb negb]. assert (j = pred (length bs)) as -> by (apply lookup_lt_Some in Hj; apply lookup_ge_None in E; lia).
    unfold sm_ret. congruence.
Qed.
End Ops.

(** ** Insertion *)

Lemma alloc_ok_write m G t t' : alloc_ok m G t -> mem_only t t' -> (forall x, ~ covered G x -> word t' x = word t x) -> alloc_ok m G t'.
Proof.
  intros Hok (? & ? & ? & ? & ?) Hw. apply (alloc_ok_mem m G t); try done. intros x Hx. rewrite Hw by done. by apply (ao_zero _ _ _ Hok).
Qed.

Lemma alloc_ok_put m G t o s a v : alloc_ok m G t -> G !! o = Some s -> s mod 8 = 0 -> o <= a < o + s -> a mod 4 = 0 -> alloc_ok m G (put32 t a v).
Proof.
  intros Hok Ho Hs Ha Ha4. apply (alloc_ok_write m G t); [done | auto |]. intros x Hx. apply word_put32_ne. intros ->. apply Hx.
  destruct (wa_bounds a Ha4) as [H8 Hb]. destruct (ao_in _ _ _ Hok o s Ho) as (_ & _ & Ho8 & _).
  apply (covered_in G o s); [done |]. apply Z.mod_divide in H8 as [q Hq], Hs as [qs Hqs], Ho8 as [qo Hqo]; lia.
Qed.

(** The words of a new region are zero. *)
Lemma new_region_zero m m' G t t' o s : alloc_ok m G t -> alloc_ok m' (<[o := s]> G) t' -> G !! o = None ->
  forall x, o <= x < o + s -> ~ covered G x /\ word t x = 0.
Proof.
  intros Hok Hok' Hn x Hx. assert (Hc : ~ covered G x).
  { intros (o' & s' & Ho' & Hr). assert (Hne : o <> o') by congruence.
    destruct (ao_disj _ _ _ Hok' o s o' s') as [|]; [apply lookup_insert_eq | by rewrite lookup_insert_ne | done | lia | lia]. }
  split; [done |]. by apply (ao_zero _ _ _ Hok).
Qed.

Lemma big_same t t' : same_words t t' \/ mem_only t t' -> big_table t -> big_table t' /\ rsize t' = rsize t /\ rec_len t' = rec_len t.
Proof. unfold big_table, rsize. intros [(_ & -> & _)|(_ & -> & _)]; done. Qed.

Lemma o2di_16 b : b mod 128 = 0 -> TDB_O2DI (b + sizeof_TdbBucket) = TDB_O2DI b.
Proof.
  intros [q ->]%Z.mod_divide; [| lia]. unfold TDB_O2DI, TDB_HTRIE_MINDREC, sizeof_TdbBucket.
  rewrite Z.add_comm, Z.div_add, Z.div_mul by lia. done.
Qed.

(** No record is moved: a second one would not fit into the bucket. *)
Lemma move_none fuel cpu new b bits r s t : big_table t -> r = b + 16 + rsize t -> move_records (S fuel) cpu new b bits r s t = Ok ((s, true), t).
Proof.
  intros Hbig ->. destruct (rsize_bounds t Hbig) as (Hr & _). cbn [move_records]. unfold sm_bind at 1, sm_get at 1. unfold TDB_HTRIE_MINDREC.
  destruct (128 <=? _); [done |]. unfold sm_bind at 1. rewrite reclen_ok by done.
  destruct (Z.leb_spec 128 (rsize t + (b + 16 + rsize t - b))); [done | lia].
Qed.

(** The bodies of the records. *)
Definition records_same (M : multimap) (t t' : Tdb) : Prop :=
  forall k bs b x, M !! k = Some bs -> b ∈ bs -> b + 16 <= x < b + 16 + rsize t -> word t' x = word t x.

(** What stays of a table. *)
Definition same_table (t t' : Tdb) : Prop := dbsz t' = dbsz t /\ rec_len t' = rec_len t /\ length (pcpu t') = length (pcpu t).

Lemma same_table_trans t1 t2 t3 : same_table t1 t2 -> same_table t2 t3 -> same_table t1 t3.
Proof. intros (? & ? & ?) (? & ? & ?). split_and!; congruence. Qed.
Lemma same_table_words t t' : same_words t t' -> same_table t t'.
Proof. by intros (? & ? & ? & _). Qed.
Lemma same_table_mem t t' : mem_only t t' -> same_table t t'.
Proof. intros (? & ? & _ & _ & Hp). unfold same_table. by rewrite Hp. Qed.

Section Insert.
Context (cpu : nat) (key : Z) (Hkey : 0 < key < 2 ^ 64) (data : option (list Z)).

Section Parts.
Context (m : Z) (G : gmap Z Z) (N : labels) (M : multimap) (t : Tdb).
Context (Hok : alloc_ok m G t) (Htr : trie_ok G N M t) (Hbig : big_table t).
Context (Hdata : data_ok t data) (Hcpu : (cpu < length (pcpu t))%nat) (Hroom : 4096 * m < dbsz t).

(** A new bucket with the record, not yet in the trie. *)
Lemma new_bucket : exists base s t1 t2 m1,
  tdb_alloc_data cpu (rec_len t) true t = Ok ((base + sizeof_TdbBucket, rec_len t), t1) /\
  tdb_htrie_create_rec (base + sizeof_TdbBucket) key data (rec_len t) t1 = Ok (base + 16, t2) /\
  m <= m1 <= m + 1 /\ alloc_ok m1 (<[base := s]> G) t2 /\ trie_ok (<[base := s]> G) N M t2 /\ same_table t t2 /\
  0 < base /\ base mod 128 = 0 /\ s mod 128 = 0 /\ sizeof_TdbBucket + rsize t <= s /\ word t2 base = 0 /\ word t2 (base + 16) = key /\
  (forall ws j w, data = Some ws -> ws !! j = Some w -> word t2 (base + 24 + 8 * Z.of_nat j) = w) /\
  (forall x, covered G x -> word t2 x = word t x) /\ (forall k bs, M !! k = Some bs -> base ∉ bs).
Proof.
  unfold big_table in Hbig. destruct (rsize_bounds t Hbig) as (Hr & _ & Hr2).
  destruct (alloc_data_spec m G t cpu (rec_len t) true Hok Hcpu ltac:(lia)) as (o & len' & t1 & Hrun & Hsw & [(_ & _ & Hf & _)|(base & s & -> & Hdr)]); [lia |].
  destruct Hdr as [Hnew (Hpos & Hal & Hs128) Hlen Hcut (m1 & Hm1 & Hok1)].
  unfold data_hdr in *. rewrite big_fixed in * by done. unfold sizeof_TdbBucket, sizeof_TdbFRec in *.
  assert (len' = rec_len t) as -> by lia.
  assert (Hs : 16 + rsize t <= s).
  { destruct (rsize_bounds t Hbig) as (_ & H8 & _). apply Z.mod_divide in Hs128 as [q Hq], H8 as [p Hp]; lia. }
  destruct (big_same t t1 (or_introl Hsw) Hbig) as (Hbig1 & Hrs1 & Hrl1).
  assert (Hz : forall x, base <= x < base + s -> ~ covered G x /\ word t1 x = 0).
  { intros x Hx. destruct (new_region_zero m m1 G t t1 base s Hok Hok1 Hnew x Hx) as [? Hx0]. split; [done |].
    destruct Hsw as (_ & _ & _ & Hw). by rewrite Hw. }
  destruct (create_rec_spec m1 _ t1 base s key data Hok1 Hbig1) as (t2 & Hcr & Hm2 & Hout & Hk2 & Hd2).
  { unfold data_ok. by rewrite Hrl1. } { apply lookup_insert_eq. } { done. } { unfold sizeof_TdbBucket. lia. } { apply Hz. lia. }
  rewrite Hrl1, Hrs1 in *.
  assert (Hwc : forall x, covered G x -> word t2 x = word t x).
  { intros x Hx. destruct Hsw as (_ & _ & _ & Hw). rewrite Hout, Hw; [done |]. intros Hx'. by destruct (Hz x ltac:(lia)). }
  exists base, s, t1, t2, m1. split_and!; try done; try lia.
  - apply (alloc_ok_write m1 _ t1); [done | done |]. intros x Hx. apply Hout. intros Hx'. apply Hx, covered_insert. lia.
  - apply (trie_ok_frame m G _ N M t); try done; [by apply insert_subseteq | |].
    + by destruct Hm2 as (-> & _), Hsw as (-> & _).
    + by destruct Hm2 as (_ & -> & _).
  - eapply same_table_trans; [by apply same_table_words | by apply same_table_mem].
  - rewrite Hout by lia. apply Hz. lia.
  - intros k bs Hk [j Hj]%list_elem_of_lookup_1. destruct (bucket_region m G N M t Hok Htr k bs j base Hk Hj) as (? & ? & _). congruence.
Qed.

(** [tdb_htrie_burst()] of a bucket with one record. *)
Lemma burst_ok n b bk kb : leads t key (TDB_HTRIE_ROOT t) 0 (TDB_O2DI bk + TDB_HTRIE_DBIT) n b -> M !! kb = Some [bk] -> b < 60 ->
  exists new t' m' G', tdb_htrie_burst cpu n bk key (b + 4) t = Ok (Some new, t') /\ m <= m' <= m + 1 /\ alloc_ok m' G' t' /\
    trie_ok G' (<[new := (b + 4, key mod 2 ^ (b + 4))]> N) M t' /\ same_table t t' /\ records_same M t t' /\
    (forall x y z, leads t' key new (b + 4) x y z -> leads t' key (TDB_HTRIE_ROOT t') 0 x y z).
Proof.
  intros Hl Hkb Hb. destruct (rsize_bounds t Hbig) as (Hr & _ & _).
  destruct (alloc_index_spec m G t cpu Hok Hcpu) as (new & t1 & Hrun & Hsw & [(_ & Hf & _)|(Hnew & Hpos & Hal & m' & Hm' & Hok1)]); [lia |].
  destruct (big_same t t1 (or_introl Hsw) Hbig) as (Hbig1 & Hrs1 & _). pose proof Hsw as (Hd1 & Hrl1 & _ & Hw1).
  assert (Htr1 : trie_ok (<[new := 64]> G) N M t1).
  { apply (trie_ok_frame m G _ N M t); try done. by apply insert_subseteq. }
  assert (HR1 : TDB_HTRIE_ROOT t1 = TDB_HTRIE_ROOT t) by (by apply same_root).
  assert (Hl1 : leads t1 key (TDB_HTRIE_ROOT t1) 0 (TDB_O2DI bk + TDB_HTRIE_DBIT) n b).
  { rewrite HR1. apply (leads_same m G N M t Hok Htr); [done | by eapply root_label |]. intros x l i _ _. unfold h32. by rewrite Hw1. }
  assert (HN : N !! new = None).
  { destruct (N !! new) as [[x y]|] eqn:E; [| done]. apply (to_node _ _ _ _ Htr) in E as (? & _). congruence. }
  assert (HG1 : <[new := 64]> G !! new = Some 64) by apply lookup_insert_eq.
  pose proof (leads_label _ _ N M t1 Hok1 Htr1 key _ _ _ _ _ Hl1 (root_label _ N M t1 Htr1 key)) as Hn.
  destruct (trie_burst m' _ N M t1 Hok1 Htr1 key n b bk kb new Hl1 Hkb Hb HG1 Hal HN) as [Htr2 Hpath].
  { intros x Hx. rewrite Hw1. by apply (new_region_zero m m' G t t1 new 64 Hok Hok1 Hnew). }
  pose proof (bucket_key_ok m' _ N M t1 Hok1 Htr1 Hbig1 kb [bk] 0%nat bk Hkb eq_refl) as Hkey1.
  destruct (bucket_o2di m' _ N M t1 Hok1 Htr1 kb [bk] 0%nat bk Hkb eq_refl) as (Hdi & Hdib & _).
  destruct (node_aligned m' _ N M t1 Hok1 Htr1 n _ Hn) as (HGn & Hn8 & _ & _).
  pose proof (ent_aligned new (TDB_HTRIE_IDX kb (b + 4)) (mod_64_8 _ Hal)) as H4n.
  pose proof (ent_aligned n (TDB_HTRIE_IDX key b) Hn8) as H4p.
  pose proof (idx_bounds kb (b + 4)) as Hi1. pose proof (idx_bounds key b) as Hi2.
  set (t2 := put32 t1 (ent new kb (b + 4)) (TDB_O2DI bk + TDB_HTRIE_DBIT)) in *.
  assert (Hok2 : alloc_ok m' (<[new := 64]> G) t2) by (apply (alloc_ok_put m' _ t1 new 64); unfold ent; done || lia).
  set (t3 := put32 t2 (ent n key b) (TDB_O2II new)) in *.
  assert (Hok3 : alloc_ok m' (<[new := 64]> G) t3) by (apply (alloc_ok_put m' _ t2 n 64); unfold ent; done || lia).
  exists new, t3, m', (<[new := 64]> G). split_and!; try done; try lia.
  - unfold tdb_htrie_burst. unfold sm_bind at 1. rewrite Hrun. rewrite (proj2 (Z.eqb_neq new 0)) by lia.
    unfold TDB_HTRIE_BCKT_1ST_REC, sizeof_TdbBucket. unfold sm_bind at 1, get_key. rewrite Hkey1.
    unfold sm_bind at 1, set_shift at 1. rewrite dbit_add by lia.
    rewrite wr32_ok by (apply (half_in_map m' _ t1 Hok1 new 64); done || lia). fold (ent new kb (b + 4)). fold t2.
    unfold sm_bind at 1. rewrite reclen_ok by done. unfold sm_bind at 1. change (rsize t2) with (rsize t1). rewrite Hrs1.
    rewrite (move_none 15 cpu new bk (b + 4) (bk + 16 + rsize t)) by (done || change (rsize t2) with (rsize t1); lia).
    unfold sm_bind at 1, set_shift, TDB_HTRIE_BITS. rewrite Z.add_simpl_r.
    rewrite wr32_ok by (apply (half_in_map m' _ t2 Hok2 n 64); done || lia). fold (ent n key b). fold t3.
    unfold nb_set. cbn [bs_free]. unfold sm_bind. destruct (Z.ltb_spec 0 (- TDB_HTRIE_IDX kb (b + 4))); [lia | done].
  - eapply same_table_trans; [by apply same_table_words |]. by split_and!.
  - intros k bs b0 x Hk [j Hj]%list_elem_of_lookup_1 Hx.
    destruct (bucket_region m' _ N M t1 Hok1 Htr1 k bs j b0 Hk Hj) as (s0 & Hs0 & Hs1 & _ & Hs2). unfold sizeof_TdbBucket in Hs2.
    rewrite Hrs1 in Hs2. subst t3. rewrite <- (Hw1 x). rewrite word_put32_ne.
    2: { intros ->. eapply (node_bucket_apart m' _ N M t1 Hok1 Htr1 n _ b0 s0 (wa (ent n key b))); [done | done | done | | | done]; [| lia].
         by apply (ent_wa m' _ N M t1 Hok1 Htr1 n _ _ Hn). }
    subst t2. apply word_put32_ne. intros ->. destruct (wa_bounds _ H4n) as [Hw8 Hwb]. fold (ent new kb (b + 4)) in *.
    assert (Hne : new <> b0) by (intros ->; rewrite lookup_insert_eq in Hs0; injection Hs0; lia).
    unfold ent in *. pose proof (mod_64_8 _ Hal) as Hn8'.
    destruct (ao_disj _ _ _ Hok1 _ _ _ _ HG1 Hs0 Hne); apply Z.mod_divide in Hw8 as [q Hq], Hn8' as [p Hp]; lia.
Qed.
End Parts.

(** Keys that agree on the bits above an entry lead to it both. *)
Lemma leads_bits t k o bits v n b : leads t k o bits v n b -> bits <= b.
Proof. induction 1; lia. Qed.

Lemma idx_agree k k' bits w : 0 <= bits -> bits + 4 <= w -> k mod 2 ^ w = k' mod 2 ^ w -> TDB_HTRIE_IDX k bits = TDB_HTRIE_IDX k' bits.
Proof.
  intros Hb Hw E. unfold TDB_HTRIE_IDX. apply Z.bits_inj'. intros i Hi. rewrite !Z.land_spec. destruct (Z.lt_ge_cases i 4) as [Hlt|Hge].
  - rewrite !Z.shiftr_spec by done. f_equal. rewrite <- (Z.mod_pow2_bits_low k w), <- (Z.mod_pow2_bits_low k' w) by lia. by rewrite E.
  - change 15 with (Z.ones 4). rewrite Z.ones_spec_high by lia. by rewrite !andb_false_r.
Qed.

Lemma leads_agree t k k' o bits v n b : leads t k o bits v n b -> 0 <= bits -> k' mod 2 ^ (b + 4) = k mod 2 ^ (b + 4) -> leads t k' o bits v n b.
Proof.
  induction 1 as [o bits v E Hv|o bits e v n b E He Hl IH]; intros Hb Hag.
  - apply leads_end; [| done]. rewrite <- E. unfold ent. by rewrite (idx_agree k' k bits (bits + 4)).
  - pose proof (leads_bits _ _ _ _ _ _ _ Hl). apply (leads_step _ _ _ _ e); [| done | apply IH; [lia | done]].
    rewrite <- E. unfold ent. by rewrite (idx_agree k' k bits (b + 4)) by (done || lia).
Qed.

(** The table after an insertion. *)
Record inserted (m d : Z) (M : multimap) (t : Tdb) (base : Z) (t' : Tdb) : Prop := {
  ins_same : same_table t t';
  ins_ok : exists m' G' N', m <= m' <= m + d /\ alloc_ok m' G' t' /\ trie_ok G' N' (<[key := recs M key ++ [base]]> M) t';
  ins_frame : records_same M t t';
  ins_data : forall ws j w, data = Some ws -> ws !! j = Some w -> word t' (base + 24 + 8 * Z.of_nat j) = w;
  ins_pos : 0 < base
}.

Section Parts2.
Context (m : Z) (G : gmap Z Z) (N : labels) (M : multimap) (t : Tdb).
Context (Hok : alloc_ok m G t) (Htr : trie_ok G N M t) (Hbig : big_table t).
Context (Hdata : data_ok t data) (Hcpu : (cpu < length (pcpu t))%nat) (Hroom : 4096 * m < dbsz t).

(** The bucket that a key leads to. *)
Lemma leads_bucket v n b : leads t key (TDB_HTRIE_ROOT t) 0 v n b -> v <> 0 ->
  exists bk kb bs, v = TDB_O2DI bk + TDB_HTRIE_DBIT /\ TDB_DI2O (TDB_O2DI bk) = bk /\ 0 < TDB_O2DI bk < 2 ^ 30 /\ 0 < bk /\
    M !! kb = Some (bk :: bs) /\ 0 <= b <= 60 /\ (b < 60 -> b <= 56 /\ bs = []) /\ (b = 60 -> kb = key) /\ (M !! key = None \/ kb = key).
Proof using Hkey Hok Htr.
  clear Hcpu Hroom. intros Hl Hv. pose proof (leads_label m G N M t Hok Htr key _ _ _ _ _ Hl (root_label G N M t Htr key)) as Hn.
  destruct (to_node _ _ _ _ Htr _ _ _ Hn) as (_ & Hb & Hb4). destruct (leads_entry _ _ _ _ _ _ _ Hl) as [He Hterm].
  destruct (entry_cases m G N M t Hok Htr n b _ _ Hn (idx_bounds key b)) as [E0|[(bk & kb & bs & Hk & Hp & E0 & Hdi & Hdib)|[Hr _]]];
    fold (ent n key b) in *; [congruence | | unfold TDB_HTRIE_DBIT in *; lia].
  rewrite He in E0. exists bk, kb, bs. destruct (bucket_o2di m G N M t Hok Htr kb _ 0%nat bk Hk eq_refl) as (_ & _ & Hbk).
  rewrite <- (label_step G N M t Htr n b _ key Hn eq_refl) in Hp.
  pose proof (leads_agree _ _ kb _ _ _ _ _ Hl ltac:(lia) Hp) as Hlk.
  destruct (to_key _ _ _ _ Htr kb _ Hk) as (Hkb & _ & b1 & bs1 & n1 & bits1 & [= <- <-] & Hl1 & Hc).
  destruct (leads_det _ _ _ _ _ _ _ _ _ _ Hlk Hl1) as (_ & _ & ->).
  split_and!; try done; try lia.
  - intros Hlt. split; [apply Z.mod_divide in Hb4 as [q Hq]; lia | destruct Hc as [|]; [done | lia]].
  - intros ->. change (60 + 4) with 64 in Hp. rewrite !Z.mod_small in Hp by lia. done.
  - destruct (M !! key) as [bs'|] eqn:E; [right | by left].
    destruct (to_key _ _ _ _ Htr key _ E) as (_ & _ & b2 & bs2 & n2 & bits2 & -> & Hl2 & _).
    destruct (leads_det _ _ _ _ _ _ _ _ _ _ Hl Hl2) as (E2 & _ & _).
    assert (b2 = bk) as -> by (eapply (o2di_inj m G N M t Hok Htr key _ 0%nat _ kb _ 0%nat); [exact E | done | exact Hk | done | lia]).
    by destruct (bucket_key G N M t Htr kb _ 0%nat bk key _ 0%nat Hk eq_refl E eq_refl).
Qed.

(** A record for an empty entry. *)
Lemma insert_empty n b fuel : leads t key (TDB_HTRIE_ROOT t) 0 0 n b -> exists base t',
  (a <~ tdb_alloc_data cpu (rec_len t) true;;
   let '(o, len) := a in
   if o =? 0 then sm_ret (0, len)
   else
     rec <~ tdb_htrie_create_rec o key data len;;
     let i := TDB_HTRIE_IDX key b in
     old <~ get_shift n i;;
     if old =? 0 then set_shift n i (Z.lor (TDB_O2DI o) TDB_HTRIE_DBIT);;; sm_ret (rec, len)
     else insert_loop fuel cpu n key b data len) t = Ok ((base + 16, rec_len t), t') /\ inserted m 1 M t base t'.
Proof.
  intros Hl. destruct (new_bucket m G N M t Hok Htr Hbig Hdata Hcpu Hroom)
    as (base & s & t1 & t2 & m1 & Ha & Hc & Hm1 & Hok2 & Htr2 & Hst & Hpos & Hal & Hs128 & Hs & Hw0 & Hw16 & Hd & Hcov & Hfr).
  pose proof Hst as (Hd2 & Hrl2 & _).
  assert (HR : TDB_HTRIE_ROOT t2 = TDB_HTRIE_ROOT t) by (by apply same_root).
  assert (Hrs : rsize t2 = rsize t) by (unfold rsize; by rewrite Hrl2).
  assert (Hl2 : leads t2 key (TDB_HTRIE_ROOT t2) 0 0 n b).
  { rewrite HR. apply (leads_same m G N M t Hok Htr); [done | by eapply root_label |]. intros x l i Hx Hi. unfold h32. rewrite Hcov; [done |].
    apply (covered_in G x 64); [by apply (node_aligned m G N M t Hok Htr x l) | by apply (ent_wa m G N M t Hok Htr x i l)]. }
  pose proof (leads_label _ _ N M t2 Hok2 Htr2 key _ _ _ _ _ Hl2 (root_label _ N M t2 Htr2 key)) as Hn.
  destruct (node_aligned _ _ N M t2 Hok2 Htr2 n _ Hn) as (HGn & Hn8 & _ & _). pose proof (idx_bounds key b) as Hi.
  pose proof (ent_aligned n (TDB_HTRIE_IDX key b) Hn8) as H4. destruct (leads_entry _ _ _ _ _ _ _ Hl2) as [He _].
  destruct (trie_add_head m1 _ N M t2 Hok2 Htr2 key n b base s) as [Htr3 Hnone]; try done; [apply lookup_insert_eq | by rewrite Hrs |].
  assert (Hin : in_map t2 (wa (n + 4 * TDB_HTRIE_IDX key b)) = true) by (apply (half_in_map m1 _ t2 Hok2 n 64); done || lia).
  assert (Hdi : 0 <= TDB_O2DI base < 2 ^ 31).
  { destruct (ao_in _ _ _ Hok2 base s (lookup_insert_eq _ _ _)) as (_ & _ & _ & Hend).
    destruct (po_m _ _ (ao_pages _ _ _ Hok2)). pose proof (po_max _ _ (ao_pages _ _ _ Hok2)) as Hmax.
    unfold TDB_MAX_DB_SZ, L1_CACHE_BYTES in Hmax. unfold TDB_O2DI, TDB_HTRIE_MINDREC. unfold sizeof_TdbBucket in Hs. pose proof (rsize_bounds t Hbig).
    split; [apply Z.div_pos; lia | apply Z.div_lt_upper_bound; lia]. }
  set (t3 := put32 t2 (ent n key b) (TDB_O2DI base + TDB_HTRIE_DBIT)) in *. exists base, t3. split.
  - unfold sm_bind at 1. rewrite Ha. unfold sizeof_TdbBucket in *. rewrite (proj2 (Z.eqb_neq (base + 16) 0)) by lia.
    unfold sm_bind at 1. rewrite Hc. unfold sm_bind at 1, get_shift. rewrite rd32_ok by done. fold (ent n key b). rewrite He.
    cbn [Z.eqb]. unfold sm_bind at 1, set_shift. change 16 with sizeof_TdbBucket. rewrite o2di_16, dbit_add, wr32_ok by done. done.
  - constructor; [exact Hst | | | | exact Hpos].
    + exists m1, (<[base := s]> G), N. split_and!; [lia | lia | |].
      * apply (alloc_ok_put m1 _ t2 n 64); unfold ent; done || lia.
      * unfold recs. by rewrite Hnone.
    + intros k bs b0 x Hk [j Hj]%list_elem_of_lookup_1 Hx. destruct (bucket_region m G N M t Hok Htr k bs j b0 Hk Hj) as (s0 & Hs0 & Hs1 & _ & Hs2).
      unfold sizeof_TdbBucket in Hs2. rewrite <- (Hcov x) by (apply (covered_in G b0 s0); [done | lia]).
      apply (put_ent_bucket m1 _ N M t2 Hok2 Htr2 n _ _ _ b0 s0 x Hn Hi); [| done | lia].
      rewrite lookup_insert_ne; [done |]. intros ->. apply (Hfr k bs Hk). by eapply list_elem_of_lookup_2.
    + intros ws j w Hws Hj. rewrite <- (Hd ws j w Hws Hj). pose proof (lookup_lt_Some _ _ _ Hj).
      unfold data_ok in Hdata. rewrite Hws in Hdata. unfold sizeof_TdbBucket, rsize, sizeof_TdbFRec in Hs. rewrite ralign_8 in Hs. unfold zlen in Hdata.
      apply (put_ent_bucket m1 _ N M t2 Hok2 Htr2 n _ _ _ base s _ Hn Hi); [apply lookup_insert_eq | | lia].
      apply Z.mod_divide in Hs128 as [q Hq]; lia.
Qed.

(** A record for a chain of its key. *)
Lemma insert_chain n bk bs : M !! key = Some (bk :: bs) -> leads t key (TDB_HTRIE_ROOT t) 0 (TDB_O2DI bk + TDB_HTRIE_DBIT) n 60 ->
  exists base t',
  (k <~ TDB_HTRIE_BUCKET_KEY bk;;
   bug_on (negb (k =? key));;;
   s <~ sm_get;;
   last <~ last_bucket (chain_fuel s) bk;;
   a <~ tdb_alloc_data cpu (rec_len t) true;;
   let '(o, len) := a in
   if o =? 0 then sm_ret (0, len)
   else
     rec <~ tdb_htrie_create_rec o key data len;;
     set_coll_next last (TDB_O2DI o);;;
     sm_ret (rec, len)) t = Ok ((base + 16, rec_len t), t') /\ inserted m 1 M t base t'.
Proof.
  intros Hk Hl. destruct (new_bucket m G N M t Hok Htr Hbig Hdata Hcpu Hroom)
    as (base & s & t1 & t2 & m1 & Ha & Hc & Hm1 & Hok2 & Htr2 & Hst & Hpos & Hal & Hs128 & Hs & Hw0 & Hw16 & Hd & Hcov & Hfr).
  pose proof Hst as (Hd2 & Hrl2 & _). assert (HR : TDB_HTRIE_ROOT t2 = TDB_HTRIE_ROOT t) by (by apply same_root).
  assert (Hrs : rsize t2 = rsize t) by (unfold rsize; by rewrite Hrl2).
  assert (Hl2 : leads t2 key (TDB_HTRIE_ROOT t2) 0 (TDB_O2DI bk + TDB_HTRIE_DBIT) n 60).
  { rewrite HR. apply (leads_same m G N M t Hok Htr); [done | by eapply root_label |]. intros x l i Hx Hi. unfold h32. rewrite Hcov; [done |].
    apply (covered_in G x 64); [by apply (node_aligned m G N M t Hok Htr x l) | by apply (ent_wa m G N M t Hok Htr x i l)]. }
  destruct (lookup_lt_is_Some_2 (bk :: bs) (pred (length (bk :: bs))) ltac:(simpl; lia)) as [last Hlast].
  destruct (bucket_region m1 _ N M t2 Hok2 Htr2 key _ _ last Hk Hlast) as (ls & HGl & Hls & Hls128 & _).
  destruct (to_bucket _ _ _ _ Htr2 key _ _ last Hk Hlast) as (Hlal & _ & _ & _).
  assert (Hl4 : last mod 4 = 0).
  { apply Z.mod_divide in Hlal as [q ->]; [| lia]. replace (q * 128) with (q * 32 * 4) by lia. apply Z.mod_mul. lia. }
  assert (Hls8 : ls mod 8 = 0) by (by apply mod_64_8, mod_128_64).
  pose proof (trie_append m1 _ N M t2 Hok2 Htr2 key (bk :: bs) last base s n Hk Hl2 Hlast (lookup_insert_eq _ _ _) Hal Hs128
    ltac:(by rewrite Hrs) Hw0 Hw16 Hfr) as Htr3.
  pose proof (chain_short m G N M t Hok Htr key _ Hk) as Hfuel.
  set (t3 := put32 t2 last (TDB_O2DI base)) in *. exists base, t3.
  assert (Hwl : wa last = last) by (unfold wa, is_hi; rewrite (mod_64_8 last) by (by apply mod_128_64); done).
  split.
  - unfold TDB_HTRIE_BUCKET_KEY, TDB_HTRIE_BCKT_1ST_REC, sizeof_TdbBucket in *. unfold sm_bind at 1.
    rewrite (bucket_key_ok m G N M t Hok Htr Hbig key _ 0%nat bk Hk eq_refl), Z.eqb_refl. cbn [negb bug_on].
    unfold sm_bind at 1, sm_ret at 1. unfold sm_bind at 1, sm_get at 1. unfold sm_bind at 1.
    rewrite (last_bucket_ok m G N M t Hok Htr Hbig key (bk :: bs) last Hk Hlast _ 0%nat bk) by (done || lia).
    unfold sm_bind at 1. rewrite Ha. rewrite (proj2 (Z.eqb_neq (base + 16) 0)) by lia. unfold sm_bind at 1. rewrite Hc.
    unfold sm_bind at 1, set_coll_next. change 16 with sizeof_TdbBucket at 1. rewrite o2di_16 by done.
    rewrite wr32_ok; [done |]. apply (half_in_map m1 _ t2 Hok2 last ls); done || lia.
  - constructor; [exact Hst | | | | exact Hpos].
    + exists m1, (<[base := s]> G), N. split_and!; [lia | lia | |].
      * apply (alloc_ok_put m1 _ t2 last ls); done || lia.
      * unfold recs. by rewrite Hk.
    + intros k bs' b0 x Hk' [j Hj]%list_elem_of_lookup_1 Hx. destruct (bucket_region m G N M t Hok Htr k bs' j b0 Hk' Hj) as (s0 & Hs0 & Hs1 & _ & Hs2).
      unfold sizeof_TdbBucket in Hs2. rewrite <- (Hcov x) by (apply (covered_in G b0 s0); [done | lia]).
      apply word_put32_ne. rewrite Hwl. intros ->. destruct (bucket_region m G N M t Hok Htr key _ _ last Hk Hlast) as (s1 & HG1 & ? & _).
      destruct (Z.eq_dec b0 last) as [->|Hne]; [lia |]. destruct (ao_disj _ _ _ Hok _ _ _ _ Hs0 HG1 Hne); lia.
    + intros ws j w Hws Hj. rewrite <- (Hd ws j w Hws Hj). pose proof (lookup_lt_Some _ _ _ Hj).
      unfold data_ok in Hdata. rewrite Hws in Hdata. unfold sizeof_TdbBucket, rsize, sizeof_TdbFRec in Hs. rewrite ralign_8 in Hs. unfold zlen in Hdata.
      apply word_put32_ne. rewrite Hwl. intros E.
      assert (Hne : base <> last) by (intros ->; apply (Hfr key _ Hk); by eapply list_elem_of_lookup_2).
      destruct (ao_disj _ _ _ Hok2 _ _ _ _ (lookup_insert_eq G base s) HGl Hne); lia.
Qed.
End Parts2.

(** Composition of a burst and the rest of the insertion. *)
Lemma inserted_after m m1 d M t t1 base t' : m <= m1 <= m + 1 -> same_table t t1 -> records_same M t t1 -> inserted m1 d M t1 base t' ->
  inserted m (d + 1) M t base t'.
Proof.
  intros Hm Hst Hrec [Hst' (m' & G' & N' & Hm' & ? & ?) Hfr Hd Hpos]. constructor; try done.
  - by eapply same_table_trans.
  - exists m', G', N'. split_and!; try done; lia.
  - intros k bs b x Hk Hb Hx. assert (Hrs : rsize t1 = rsize t) by (unfold rsize; by destruct Hst as (_ & -> & _)).
    rewrite (Hfr k bs b x Hk Hb) by (by rewrite Hrs). by apply (Hrec k bs b).
Qed.

Lemma inserted_weaken m d d' M t base t' : d <= d' -> inserted m d M t base t' -> inserted m d' M t base t'.
Proof. intros Hd [? (m' & G' & N' & ? & ? & ?) ? ? ?]. constructor; try done. exists m', G', N'. split_and!; try done; lia. Qed.

Lemma insert_loop_ok d : forall m G N M t o bits fuel, alloc_ok m G t -> trie_ok G N M t -> big_table t -> data_ok t data ->
  (cpu < length (pcpu t))%nat -> 8192 * (m + Z.of_nat d + 1) <= dbsz t -> N !! o = Some (bits, key mod 2 ^ bits) ->
  60 - bits <= 4 * Z.of_nat d -> (d < fuel)%nat ->
  (forall x y z, leads t key o bits x y z -> leads t key (TDB_HTRIE_ROOT t) 0 x y z) ->
  exists base t', insert_loop fuel cpu o key bits data (rec_len t) t = Ok ((base + 16, rec_len t), t') /\
    inserted m (Z.of_nat d + 1) M t base t'.
Proof.
  induction d as [|d IH]; intros m G N M t o bits fuel Hok Htr Hbig Hdata Hcpu Hhalf Ho Hd Hfuel Hpath.
  all: destruct fuel as [|fuel]; [lia |]; destruct (leads_total m G N M t Hok Htr key _ o bits Hd Ho) as (v & n & b & Hlo);
    pose proof (Hpath _ _ _ Hlo) as Hl; destruct (to_node _ _ _ _ Htr _ _ _ Ho) as (_ & Hbits & _);
    pose proof (po_m _ _ (ao_pages _ _ _ Hok)) as [Hm1 _].
  all: cbn [insert_loop]; unfold sm_bind at 1, tdb_htrie_descend;
    rewrite (descend_spec m G N M t Hok Htr key o bits v n b Hlo) by (done || lia).
  all: destruct (Z.eqb_spec v 0) as [->|Hv].
  1, 3: destruct (insert_empty m G N M t Hok Htr Hbig Hdata Hcpu ltac:(lia) n b fuel Hl) as (base & t' & Hrun & Hins); exists base, t';
    split; [exact Hrun | by apply (inserted_weaken m 1); [lia |]].
  all: pose proof (leads_bits _ _ _ _ _ _ _ Hlo) as Hbb;
    destruct (leads_bucket m G N M t Hok Htr v n b Hl Hv) as (bk & kb & bs & -> & Hdi & Hdib & Hbk & Hkb & Hb & Hlt & Heq & _).
  all: pose proof (leads_label m G N M t Hok Htr key _ _ _ _ _ Hl (root_label G N M t Htr key)) as Hn;
    destruct (node_aligned m G N M t Hok Htr n _ Hn) as (HGn & Hn8 & _ & _); pose proof (idx_bounds key b) as Hi;
    destruct (leads_entry _ _ _ _ _ _ _ Hl) as [He _].
  all: rewrite Z.add_simpl_r, Hdi; rewrite (proj2 (Z.eqb_neq bk 0)) by lia; unfold TDB_HTRIE_RESOLVED, BITS_PER_LONG, TDB_HTRIE_BITS.
  all: assert (Hsmall : forall x, (if rec_len t <? TDB_HTRIE_MINDREC then tdb_htrie_smallrec_link x bk else sm_ret 0) t = Ok (0, t))
    by (intros x; destruct (rec_len t <? _); [| done]; unfold tdb_htrie_smallrec_link, sm_bind, sm_get;
        pose proof (chain_short m G N M t Hok Htr kb _ Hkb);
        apply (smallrec_none m G N M t Hok Htr Hbig x kb _ Hkb (chain_fuel t) 0%nat); lia).
  all: destruct (Z.ltb_spec 64 (b + 4 + 4)) as [Hres|Hres]; cbn [negb].
  (* all bits are resolved *)
  1, 3: assert (b = 60) as -> by lia; rewrite (Heq eq_refl) in Hkb; unfold sm_bind at 1, sm_ret at 1; unfold sm_bind at 1; rewrite Hsmall; cbn [Z.eqb negb];
    destruct (insert_chain m G N M t Hok Htr Hbig Hdata Hcpu ltac:(lia) n bk bs Hkb Hl) as (base & t' & Hrun & Hins); exists base, t';
    split; [exact Hrun | by apply (inserted_weaken m 1); [lia |]].
  1: lia.
  (* the bucket is burst *)
  destruct (Hlt ltac:(lia)) as [Hb56 ->]. destruct (Z.ltb_spec (b + 4) 4); [lia |]. unfold sm_bind at 2, bug_on at 1, sm_ret at 1.
  unfold sm_bind at 1. unfold sm_bind at 1. unfold get_shift. rewrite Z.add_simpl_r.
  rewrite rd32_ok by (apply (half_in_map m G t Hok n 64); [done | done | lia | by apply ent_aligned]). fold (ent n key b). rewrite He.
  rewrite vrlen_high, Hdi, Z.eqb_refl by lia. rewrite (proj2 (Z.eqb_neq _ 0)) by done. cbn [orb negb]. unfold sm_ret at 1.
  unfold sm_bind at 1. rewrite Hsmall. cbn [Z.eqb negb].
  destruct (bucket_hdr m G N M t Hok Htr Hbig kb [bk] 0%nat bk Hkb eq_refl) as [Hcn _]. unfold sm_bind at 1. rewrite Hcn. cbn [lookup list_lookup Z.eqb negb bug_on].
  unfold sm_bind at 1, sm_ret at 1. unfold sm_bind at 1, sm_ret at 1. unfold sm_bind at 1.
  destruct (burst_ok m G N M t Hok Htr Hbig Hcpu ltac:(lia) n b bk kb Hl Hkb ltac:(lia))
    as (new & t1 & m1 & G1 & Hrun & Hm' & Hok1 & Htr1 & Hst & Hrec & Hp1).
  rewrite Hrun. pose proof Hst as (Hd1 & Hrl1 & Hpc1).
  destruct (IH m1 G1 _ M t1 new (b + 4) fuel Hok1 Htr1) as (base & t' & Hrun' & Hins).
  { unfold big_table in *. by rewrite Hrl1. } { unfold data_ok in *. by rewrite Hrl1. } { by rewrite Hpc1. } { rewrite Hd1. lia. }
  { by rewrite lookup_insert_eq. } { lia. } { lia. } { done. }
  exists base, t'. rewrite <- Hrl1 in *. split; [exact Hrun' |].
  replace (Z.of_nat (S d) + 1) with (Z.of_nat d + 1 + 1) by lia. by eapply inserted_after.
Qed.

(** [tdb_htrie_insert()] on a table with room. *)
Lemma trie_insert_ok m G N M t : alloc_ok m G t -> trie_ok G N M t -> big_table t -> data_ok t data -> (cpu < length (pcpu t))%nat ->
  8192 * (m + 16) <= dbsz t ->
  exists base t', tdb_htrie_insert cpu key data (rec_len t) t = Ok ((base + 16, rec_len t), t') /\ inserted m 16 M t base t'.
Proof.
  intros Hok Htr Hbig Hdata Hcpu Hhalf. unfold tdb_htrie_insert. unfold big_table in Hbig. rewrite (proj2 (Z.eqb_neq (rec_len t) 0)) by lia.
  unfold sm_bind, sm_get. apply (insert_loop_ok 15 m G N M t); try done; try lia. by eapply root_label.
Qed.
End Insert.

(** ** Search *)

Section Search.
Context (m : Z) (G : gmap Z Z) (N : labels) (M : multimap) (t : Tdb).
Context (Hok : alloc_ok m G t) (Htr : trie_ok G N M t) (Hbig : big_table t).

Lemma scan_hit k bs j b fuel : M !! k = Some bs -> bs !! j = Some b -> scan_bucket (S fuel) k b (TDB_HTRIE_BCKT_1ST_REC b) t = Ok (b + 16, t).
Proof.
  intros Hk Hj. cbn [scan_bucket]. unfold sm_bind at 1. rewrite scan_len_ok by done. rewrite Z.eqb_refl, andb_false_r.
  unfold TDB_HTRIE_BCKT_1ST_REC, sizeof_TdbBucket. unfold sm_bind at 1. rewrite (bucket_live m G N M t Hok Htr Hbig k bs j b Hk Hj).
  unfold sm_bind at 1, get_key. rewrite (bucket_key_ok m G N M t Hok Htr Hbig k bs j b Hk Hj), Z.eqb_refl. done.
Qed.

Lemma scan_miss k bs j b key fuel : M !! k = Some bs -> bs !! j = Some b -> k <> key ->
  scan_bucket (S (S fuel)) key b (TDB_HTRIE_BCKT_1ST_REC b) t = Ok (0, t).
Proof.
  intros Hk Hj Hne. pose proof (rsize_bounds t Hbig) as (Hr & _). cbn [scan_bucket]. unfold sm_bind at 1. rewrite scan_len_ok by done.
  rewrite Z.eqb_refl, andb_false_r. unfold TDB_HTRIE_BCKT_1ST_REC, sizeof_TdbBucket. unfold sm_bind at 1.
  rewrite (bucket_live m G N M t Hok Htr Hbig k bs j b Hk Hj). unfold sm_bind at 1, get_key at 1.
  rewrite (bucket_key_ok m G N M t Hok Htr Hbig k bs j b Hk Hj), (proj2 (Z.eqb_neq k key)) by done. cbn [andb].
  destruct (_ <=? _); [| done]. unfold sm_bind at 1. rewrite scan_len_ok by done. unfold TDB_HTRIE_MINDREC.
  destruct (Z.ltb_spec 128 (b + 16 + rsize t + rsize t - b)); [| lia]. by rewrite (proj2 (Z.eqb_neq (b + 16 + rsize t) (b + 16))) by lia.
Qed.

Definition head_iter (l : list Z) : TdbIter := match l with b :: _ => MkIter (b + 16) b | [] => MkIter 0 0 end.

Lemma rec_get_ok key : 0 < key < 2 ^ 64 -> 8192 * m <= dbsz t -> tdb_rec_get key t = Ok (head_iter (recs M key), t).
Proof.
  intros Hkey Hhalf. pose proof (root_label G N M t Htr key) as Ho.
  destruct (leads_total m G N M t Hok Htr key 15 _ 0 ltac:(lia) Ho) as (v & n & b & Hl).
  unfold tdb_rec_get, tdb_htrie_lookup, tdb_htrie_descend. unfold sm_bind at 1. unfold sm_bind at 1, sm_get at 1. unfold sm_bind at 1.
  rewrite (descend_spec m G N M t Hok Htr key _ 0 v n b Hl Hhalf Ho) by lia.
  destruct (Z.eqb_spec v 0) as [->|Hv]; cbn [fst sm_ret].
  - destruct (M !! key) as [bs|] eqn:E; [| unfold recs; by rewrite E].
    destruct (to_key _ _ _ _ Htr key bs E) as (_ & _ & b1 & bs1 & n1 & bits1 & -> & Hl1 & _).
    destruct (leads_det _ _ _ _ _ _ _ _ _ _ Hl Hl1) as [E1 _].
    destruct (bucket_o2di m G N M t Hok Htr key _ 0%nat b1 E eq_refl) as (_ & ? & _). unfold TDB_HTRIE_DBIT in E1. lia.
  - destruct (leads_bucket key Hkey m G N M t Hok Htr v n b Hl Hv) as (bk & kb & bs & -> & Hdi & Hdib & Hbk & Hkb & Hb & Hlt & Heq & Hin).
    unfold sm_ret. rewrite Z.add_simpl_r, Hdi. rewrite (proj2 (Z.eqb_neq bk 0)) by lia.
    unfold tdb_htrie_bscan_for_rec. unfold sm_bind at 1, sm_bind at 1, sm_get at 1.
    pose proof (chain_short m G N M t Hok Htr kb _ Hkb) as Hch. destruct (chain_fuel t) as [|fuel]; [lia |]. cbn [bscan_loop]. unfold sm_bind at 1.
    destruct (Z.eq_dec kb key) as [->|Hne].
    + change 17%nat with (S 16). rewrite (scan_hit key _ 0%nat bk 16 Hkb eq_refl). rewrite (proj2 (Z.eqb_neq (bk + 16) 0)) by lia.
      unfold recs. rewrite Hkb. done.
    + change 17%nat with (S (S 15)). rewrite (scan_miss kb _ 0%nat bk key 15 Hkb eq_refl Hne). cbn [Z.eqb negb].
      assert (bs = []) as -> by (destruct (Z.eq_dec b 60); [tauto | apply Hlt; lia]).
      unfold sm_bind at 1. rewrite (bucket_next m G N M t Hok Htr Hbig kb [bk] 0%nat bk Hkb eq_refl). cbn [lookup list_lookup default Z.eqb].
      simpl (default _ _). cbn [Z.eqb]. destruct Hin as [Hn|]; [| done]. unfold recs. by rewrite Hn.
Qed.

Lemma next_none b r fuel key : r = b + 16 + rsize t -> next_in_bucket (S fuel) key b r t = Ok (0, t).
Proof.
  intros ->. pose proof (rsize_bounds t Hbig) as (Hr & _). cbn [next_in_bucket]. unfold sm_bind at 1. rewrite scan_len_ok by done.
  unfold TDB_HTRIE_MINDREC. destruct (Z.ltb_spec 128 (b + 16 + rsize t + rsize t - b)); [done | lia].
Qed.

Lemma rec_next_ok k bs j b : M !! k = Some bs -> bs !! j = Some b -> tdb_rec_next (MkIter (b + 16) b) t = Ok (head_iter (drop (S j) bs), t).
Proof.
  intros Hk Hj. destruct (bucket_o2di m G N M t Hok Htr k bs j b Hk Hj) as (_ & _ & Hb).
  unfold tdb_rec_next. cbn [it_bckt it_rec]. rewrite (proj2 (Z.eqb_neq b 0)) by lia. cbn [bug_on]. unfold sm_bind at 1, sm_ret at 1.
  unfold sm_bind at 1, get_key. rewrite (bucket_key_ok m G N M t Hok Htr Hbig k bs j b Hk Hj).
  unfold tdb_htrie_next_rec. unfold sm_bind at 1. unfold sm_bind at 1, sm_get at 1.
  pose proof (chain_short m G N M t Hok Htr k _ Hk) as Hch. destruct (chain_fuel t) as [|fuel]; [lia |]. cbn [next_rec_loop].
  unfold sm_bind at 1. rewrite scan_len_ok by done.
  assert (Hf : (if TDB_HTRIE_MINDREC <? b + 16 + rsize t - b then sm_ret 0 else next_in_bucket 17 k b (b + 16 + rsize t)) t = Ok (0, t)).
  { destruct (_ <? _); [done |]. change 17%nat with (S 16). by apply next_none. }
  unfold sm_bind at 1. rewrite Hf. cbn [Z.eqb negb]. unfold sm_bind at 1. rewrite (bucket_next m G N M t Hok Htr Hbig k bs j b Hk Hj).
  destruct (bs !! S j) as [b'|] eqn:E; simpl (default _ _).
  - destruct (bucket_o2di m G N M t Hok Htr k bs (S j) b' Hk E) as (_ & _ & Hb'). rewrite (proj2 (Z.eqb_neq b' 0)) by lia.
    unfold TDB_HTRIE_BCKT_1ST_REC, sizeof_TdbBucket. unfold sm_bind at 1. rewrite (bucket_live m G N M t Hok Htr Hbig k bs (S j) b' Hk E).
    unfold sm_bind at 1, get_key. rewrite (bucket_key_ok m G N M t Hok Htr Hbig k bs (S j) b' Hk E), Z.eqb_refl. cbn [andb sm_ret].
    by rewrite (drop_S bs b' (S j) E).
  - cbn [Z.eqb]. rewrite (drop_ge bs (S j)) by (by apply lookup_ge_None). done.
Qed.
End Search.

(** The records of a key: [tdb_rec_get()], then [tdb_rec_next()] while there is one. *)
Fixpoint iter_all (fuel : nat) (it : TdbIter) : TM (list Z) :=
  match fuel with
  | O => sm_bug
  | S fuel =>
      if it_rec it =? 0 then sm_ret []
      else n <~ tdb_rec_next it;; l <~ iter_all fuel n;; sm_ret (it_rec it :: l)
  end.

Definition tdb_records (key : Z) : TM (list Z) := t <~ sm_get;; it <~ tdb_rec_get key;; iter_all (chain_fuel t) it.

Lemma records_ok m G N M t key : alloc_ok m G t -> trie_ok G N M t -> big_table t -> 0 < key < 2 ^ 64 -> 8192 * m <= dbsz t ->
  tdb_records key t = Ok ((fun b => b + 16) <$> recs M key, t).
Proof.
  intros Hok Htr Hbig Hkey Hhalf. unfold tdb_records. unfold sm_bind at 1, sm_get at 1. unfold sm_bind at 1.
  rewrite (rec_get_ok m G N M t) by done. unfold recs. destruct (M !! key) as [bs|] eqn:E; cbn [default].
  2: { simpl (default _ _). assert (0 <= dbsz t / 128) by (apply Z.div_pos; pose proof (po_max _ _ (ao_pages _ _ _ Hok)); lia).
       unfold chain_fuel, TDB_HTRIE_MINDREC. destruct (Z.to_nat _) eqn:En; [lia | done]. }
  simpl (default _ _). pose proof (chain_short m G N M t Hok Htr key bs E) as Hch.
  assert (Hgen : forall fuel j, (length bs < j + fuel)%nat -> (j <= length bs)%nat ->
    iter_all fuel (head_iter (drop j bs)) t = Ok ((fun b => b + 16) <$> drop j bs, t)).
  { induction fuel as [|fuel IH]; intros j Hf Hj; [lia |]. cbn [iter_all].
    destruct (drop j bs) as [|b l] eqn:Ed; [done |]. cbn [head_iter it_rec].
    assert (Hb : bs !! j = Some b) by (rewrite <- (Nat.add_0_r j), <- lookup_drop, Ed; done).
    rewrite (drop_S bs b j Hb) in Ed. injection Ed as <-.
    destruct (bucket_o2di m G N M t Hok Htr key bs j b E Hb) as (_ & _ & ?). rewrite (proj2 (Z.eqb_neq (b + 16) 0)) by lia.
    unfold sm_bind at 1. rewrite (rec_next_ok m G N M t Hok Htr Hbig key bs j b E Hb). unfold sm_bind. apply lookup_lt_Some in Hb.
    rewrite IH by lia. rewrite fmap_cons. done. }
  apply (Hgen _ 0%nat); lia.
Qed.

(** ** Reachable tables *)

(** Less than half of the file is in use, with room for the pages of one insertion. *)
Definition half_free (t : Tdb) : bool := 2 * (nwb t + 17 * TDB_BLK_SZ) <=? dbsz t.

(** [M]: the records of each key, in the order of insertion. *)
Inductive reachable (cpus : nat) : Tdb -> multimap -> Prop :=
| reach_init db_size rlen t0 t : db_size mod TDB_EXT_SZ = 0 -> 0 < db_size -> 48 < rlen ->
    tdb_init_mapping db_size rlen = Some t0 -> tdb_htrie_init cpus t0 = Ok t -> half_free t = true -> reachable cpus t ∅
| reach_insert t M cpu key data r len t' : reachable cpus t M -> half_free t = true ->
    (cpu < cpus)%nat -> 0 < key < 2 ^ 64 -> data_ok t data ->
    tdb_htrie_insert cpu key data (rec_len t) t = Ok ((r, len), t') -> reachable cpus t' (<[key := recs M key ++ [r]]> M).

(** The invariant: [MB] has the buckets of the records. *)
Record tdb_inv (cpus : nat) (t : Tdb) (M : multimap) : Prop := {
  ti_cpus : length (pcpu t) = cpus;
  ti_big : big_table t;
  ti_ok : exists m G N MB, alloc_ok m G t /\ trie_ok G N MB t /\ 8192 * m <= dbsz t /\ (forall k, recs M k = (fun b => b + 16) <$> recs MB k)
}.

Lemma half_free_pages m t : pages_ok m t -> half_free t = true -> 8192 * (m + 16) <= dbsz t.
Proof.
  intros [_ _ _ _ Hn] H. unfold half_free, TDB_BLK_SZ in H. apply Z.leb_le in H. destruct Hn as [Hn|[[E|E] Hn]]; lia.
Qed.

Lemma recs_insert M k v k' : recs (<[k := v]> M) k' = if decide (k' = k) then v else recs M k'.
Proof. unfold recs. destruct (decide _) as [->|]; [by rewrite lookup_insert_eq | by rewrite lookup_insert_ne]. Qed.

(** An insertion into a table that satisfies the invariant. *)
Lemma inv_insert cpus t M cpu key data : tdb_inv cpus t M -> half_free t = true -> (cpu < cpus)%nat -> 0 < key < 2 ^ 64 -> data_ok t data ->
  exists r t', tdb_htrie_insert cpu key data (rec_len t) t = Ok ((r, rec_len t), t') /\ 0 < r /\
    tdb_inv cpus t' (<[key := recs M key ++ [r]]> M) /\
    (forall k r' x, r' ∈ recs M k -> r' <= x < r' + rsize t -> word t' x = word t x) /\ word t' r = key /\
    (forall ws j w, data = Some ws -> ws !! j = Some w -> word t' (r + 8 + 8 * Z.of_nat j) = w).
Proof.
  intros [Hc Hbig (m & G & N & MB & Hok & Htr & Hhalf & HM)] Hfree Hcpu Hkey Hdata.
  pose proof (half_free_pages m t (ao_pages _ _ _ Hok) Hfree) as Hroom.
  destruct (trie_insert_ok cpu key Hkey data m G N MB t Hok Htr Hbig Hdata ltac:(by rewrite Hc) Hroom) as (base & t' & Hrun & [Hst (m' & G' & N' & Hm' & Hok' & Htr') Hfr Hd Hpos]).
  pose proof Hst as (Hd1 & Hrl & Hpc). exists (base + 16), t'. split_and!; try done; try lia.
  - constructor; [congruence | unfold big_table in *; by rewrite Hrl |].
    exists m', G', N', (<[key := recs MB key ++ [base]]> MB). split_and!; try done; [rewrite Hd1; lia |].
    intros k. rewrite !recs_insert. destruct (decide (k = key)); [| done]. rewrite HM. by rewrite fmap_app.
  - intros k r' x Hr' Hx. rewrite HM in Hr'. apply list_elem_of_fmap in Hr' as (b & -> & Hb). unfold recs in Hb.
    destruct (MB !! k) as [bs|] eqn:E; [| by apply elem_of_nil in Hb]. by apply (Hfr k bs b x E Hb).
  - assert (Hl : (<[key := recs MB key ++ [base]]> MB) !! key = Some (recs MB key ++ [base])) by apply lookup_insert_eq.
    by destruct (to_bucket _ _ _ _ Htr' key _ (length (recs MB key)) base Hl (list_lookup_middle _ _ _ _ eq_refl)) as (_ & _ & Hw & _).
  - intros ws j w Hws Hj. rewrite <- (Hd ws j w Hws Hj). f_equal. lia.
Qed.

Lemma inv_init cpus db_size rlen t0 t : db_size mod TDB_EXT_SZ = 0 -> 0 < db_size -> 48 < rlen ->
  tdb_init_mapping db_size rlen = Some t0 -> tdb_htrie_init cpus t0 = Ok t -> half_free t = true -> tdb_inv cpus t ∅.
Proof.
  intros Hmod Hpos Hrl Hinit Hrun Hfree. destruct (htrie_init_ok db_size rlen cpus t0 Hmod Hpos Hinit) as (t' & m & Hrun' & Hok & Hd & Hr & Hlen & Hz).
  assert (t' = t) as -> by congruence. assert (rlen <= 2048).
  { unfold tdb_init_mapping in Hinit. destruct (_ || _) eqn:E; [done |]. apply orb_false_iff in E as [_ E%Z.ltb_ge]. by change (TDB_BLK_SZ / 2) with 2048 in E. }
  pose proof (root_bounds t (po_max _ _ (ao_pages _ _ _ Hok))) as [HR _].
  constructor; [done | unfold big_table; lia |].
  exists m, (init_regions t), {[TDB_HTRIE_ROOT t := (0, 0)]}, ∅. split_and!; [done | | |].
  - constructor; try done.
    + apply lookup_singleton_eq.
    + intros o bits pre [<- [= <- <-]]%lookup_singleton_Some. split_and!; try done. unfold init_regions. rewrite lookup_insert_ne by lia. apply lookup_singleton_eq.
    + intros o bits pre i _ _. unfold h32. rewrite Hz. destruct (is_hi _); constructor.
  - pose proof (half_free_pages m t (ao_pages _ _ _ Hok) Hfree). lia.
  - intros k. unfold recs. by rewrite !lookup_empty.
Qed.

Lemma reachable_inv cpus t M : reachable cpus t M -> tdb_inv cpus t M.
Proof.
  induction 1 as [db_size rlen t0 t ? ? ? ? ? ?|t M cpu key data r len t' _ IH Hfree Hcpu Hkey Hdata Hrun]; [by eapply inv_init |].
  destruct (inv_insert cpus t M cpu key data IH Hfree Hcpu Hkey Hdata) as (r' & t1 & Hrun' & _ & Hinv & _).
  rewrite Hrun in Hrun'. by injection Hrun' as -> _ ->.
Qed.

(** C5: a table of records of more than 48 bytes is a multimap.  In every table that insertions
    reach while less than half of the file is in use, searching a key with [tdb_rec_get()] and
    [tdb_rec_next()] yields exactly the records inserted for it, in the order of insertion;
    the next insertion hits no BUG and does not fail; it stores the key and the data, and leaves
    the key and the data of every other record where they are. *)
Theorem tdb_trie_multimap cpus t M : reachable cpus t M ->
  (forall key, 0 < key < 2 ^ 64 -> tdb_records key t = Ok (recs M key, t)) /\
  (half_free t = true -> forall cpu key data, (cpu < cpus)%nat -> 0 < key < 2 ^ 64 -> data_ok t data ->
    exists r t', tdb_htrie_insert cpu key data (rec_len t) t = Ok ((r, rec_len t), t') /\ r <> 0 /\
      (forall k r' x, r' ∈ recs M k -> r' <= x < r' + rsize t -> word t' x = word t x) /\ word t' r = key /\
      (forall ws j w, data = Some ws -> ws !! j = Some w -> word t' (r + 8 + 8 * Z.of_nat j) = w)).
Proof.
  intros Hreach%reachable_inv. pose proof Hreach as [Hc Hbig (m & G & N & MB & Hok & Htr & Hhalf & HM)]. split.
  - intros key Hkey. rewrite HM. by apply (records_ok m G N MB t key).
  - intros Hfree cpu key data Hcpu Hkey Hdata. destruct (inv_insert cpus t M cpu key data Hreach Hfree Hcpu Hkey Hdata) as (r & t' & ? & ? & _ & ? & ? & ?).
    exists r, t'. split_and!; try done. lia.
Qed.

(** A table of one extent for records of 64 bytes, without and with a record. *)
Definition demo_empty : Tdb := Eval vm_compute in
  match tdb_init_mapping (2 ^ 21) 64 with
  | Some t => match tdb_htrie_init 1 t with Ok t => t | Bug => t end
  | None => MkTdb 0 0 0 [] ∅ ∅
  end.
Definition demo_one : Z * Tdb := Eval vm_compute in
  match tdb_htrie_insert 0 0x15 (Some (replicate 8 7)) 64 demo_empty with Ok (r, t) => (r.1, t) | Bug => (0, demo_empty) end.

Lemma demo_reachable : reachable 1 demo_one.2 {[0x15 := [demo_one.1]]}.
Proof.
  change {[0x15 := [demo_one.1]]} with (<[0x15 := recs ∅ 0x15 ++ [demo_one.1]]> (∅ : multimap)).
  apply (reach_insert 1 demo_empty ∅ 0 0x15 (Some (replicate 8 7)) demo_one.1 64); [| done | lia | lia | done | by vm_compute].
  destruct (tdb_init_mapping (2 ^ 21) 64) as [t0|] eqn:E0; [| done].
  apply (reach_init 1 (2 ^ 21) 64 t0); [done | lia | lia | done | | done].
  injection E0 as <-. by vm_compute.
Qed.

Lemma tdb_trie_multimap_witness : tdb_records 0x15 demo_one.2 = Ok ([demo_one.1], demo_one.2) /\ tdb_records 0x25 demo_one.2 = Ok ([], demo_one.2) /\
  half_free demo_one.2 = true /\ exists r t', tdb_htrie_insert 0 0x25 None 64 demo_one.2 = Ok ((r, 64), t') /\ word t' r = 0x25.
Proof.
  destruct (tdb_trie_multimap 1 demo_one.2 _ demo_reachable) as [Hget Hins].
  split; [exact (Hget 0x15 ltac:(lia)) |]. split; [exact (Hget 0x25 ltac:(lia)) |]. split; [reflexivity |].
  destruct (Hins eq_refl 0%nat 0x25 None ltac:(lia) ltac:(lia) I) as (r & t' & H1 & _ & _ & H2 & _). exists r, t'. exact (conj H1 H2).
Defined.

(** Keys that differ in the fifth digit only, and a key twice. *)
Example trie_example :
  (let! r := (_ <~ tdb_htrie_insert 0 0x10015 None 64;; _ <~ tdb_htrie_insert 0 0x20015 None 64;; _ <~ tdb_htrie_insert 0 0x10015 None 64;;
              a <~ tdb_records 0x10015;; b <~ tdb_records 0x20015;; c <~ tdb_records 0x30015;; sm_ret (length a, length b, length c)) demo_empty in Ok r.1) = Ok (2, 1, 0)%nat.
Proof. vm_compute. reflexivity. Qed.

(** ** A record, found or new *)

Section GetAllocSpec.
Context (eq_rec : Z -> TM bool) (p : Z -> bool) (pre : option (TM Z)) (code : Z) (init_rec : Z -> TM unit).

Lemma get_alloc_loop_ok m G N M t key bs : alloc_ok m G t -> trie_ok G N M t -> big_table t -> M !! key = Some bs ->
  (forall r, r ∈ (fun b => b + 16) <$> bs -> exists t', eq_rec r t = Ok (p r, t') /\ (p r = false -> t' = t)) ->
  forall fuel j, (length bs < j + fuel)%nat -> (j <= length bs)%nat ->
  match find p ((fun b => b + 16) <$> drop j bs) with
  | Some r => exists t', eq_rec r t = Ok (true, t') /\ get_alloc_loop eq_rec fuel (head_iter (drop j bs)) t = Ok (r, t') /\ r <> 0
  | None => get_alloc_loop eq_rec fuel (head_iter (drop j bs)) t = Ok (0, t)
  end.
Proof.
  intros Hok Htr Hbig E Heq. induction fuel as [|fuel IH]; intros j Hf Hj; [lia |]. cbn [get_alloc_loop].
  destruct (drop j bs) as [|b l] eqn:Ed; [done |]. cbn [head_iter it_rec]. rewrite fmap_cons. cbn [find].
  assert (Hb : bs !! j = Some b) by (rewrite <- (Nat.add_0_r j), <- lookup_drop, Ed; done).
  rewrite (drop_S bs b j Hb) in Ed. injection Ed as <-.
  destruct (bucket_o2di m G N M t Hok Htr key bs j b E Hb) as (_ & _ & Hpos). rewrite (proj2 (Z.eqb_neq (b + 16) 0)) by lia.
  destruct (Heq (b + 16)) as (t' & He & Hp); [apply list_elem_of_fmap; exists b; split; [done | by eapply list_elem_of_lookup_2] |].
  destruct (p (b + 16)).
  - exists t'. unfold sm_bind at 1. rewrite He. split_and!; [done | done | lia].
  - rewrite (Hp eq_refl) in He. pose proof (rec_next_ok m G N M t Hok Htr Hbig key bs j b E Hb) as Hn. apply lookup_lt_Some in Hb.
    specialize (IH (S j) ltac:(lia) ltac:(lia)). destruct (find p _) as [r|].
    + destruct IH as (t2 & H1 & H2 & H3). exists t2. split_and!; [done | | done]. unfold sm_bind at 1. rewrite He. unfold sm_bind at 1. by rewrite Hn.
    + unfold sm_bind at 1. rewrite He. unfold sm_bind at 1. by rewrite Hn.
Qed.

(** What [tdb_rec_get_alloc()] promises on a table [t] with the records [M]; [I] holds of the new table. *)
Definition get_alloc_post (I : Tdb -> multimap -> Prop) (t : Tdb) (M : multimap) (cpu : nat) (key : Z) : Prop :=
  let run := tdb_rec_get_alloc eq_rec pre init_rec cpu key (rec_len t) t in
  match find p (recs M key) with
  | Some r => exists t', eq_rec r t = Ok (true, t') /\ run = Ok ((r, rec_len t, false), t')
  | None =>
      if code =? 0 then
        exists r t', tdb_htrie_insert cpu key None (rec_len t) t = Ok ((r, rec_len t), t') /\ r <> 0 /\ (forall k, ~ r ∈ recs M k) /\
          rec_len t' = rec_len t /\ I t' (<[key := recs M key ++ [r]]> M) /\
          run = (let! x := init_rec r t' in Ok ((r, rec_len t, true), x.2))
      else run = Ok ((0, rec_len t, false), t)
  end.

Lemma get_alloc_ok cpus t M cpu key : reachable cpus t M -> half_free t = true -> (cpu < cpus)%nat -> 0 < key < 2 ^ 64 ->
  (forall r, r ∈ recs M key -> exists t', eq_rec r t = Ok (p r, t') /\ (p r = false -> t' = t)) ->
  match pre with Some f => f t = Ok (code, t) | None => code = 0 end ->
  get_alloc_post (reachable cpus) t M cpu key.
Proof.
  intros Hr Hfree Hcpu Hkey Heq Hpre. pose proof (reachable_inv _ _ _ Hr) as Hreach. unfold get_alloc_post.
  set (run := tdb_rec_get_alloc eq_rec pre init_rec cpu key (rec_len t) t).
  destruct (inv_insert cpus t M cpu key None Hreach Hfree Hcpu Hkey Logic.I) as (rn & tn & Hins & Hrn & Hinv & _).
  assert (Hfresh : forall k, ~ rn ∈ recs M k).
  { destruct Hinv as [_ _ (m' & G' & N' & MB' & Hok' & Htr' & _ & HM')]. intros k Hin.
    assert (Hbk : forall k', rn ∈ recs (<[key := recs M key ++ [rn]]> M) k' -> exists bs j, MB' !! k' = Some bs /\ bs !! j = Some (rn - 16)).
    { intros k' Hk'. rewrite HM' in Hk'. apply list_elem_of_fmap in Hk' as (b & -> & Hb). unfold recs in Hb.
      destruct (MB' !! k') as [bs|]; [| by apply elem_of_nil in Hb]. simpl (default _ _) in Hb. apply list_elem_of_lookup_1 in Hb as [j Hj].
      exists bs, j. split; [done |]. rewrite Hj. f_equal. lia. }
    destruct (Z.eq_dec k key) as [->|Hne].
    - specialize (HM' key). rewrite recs_insert in HM'. destruct (decide _); [| done].
      assert (Hnd : NoDup (recs M key ++ [rn])).
      { rewrite HM'. apply (NoDup_fmap_2_strong (fun b => b + 16)); [intros; lia |]. unfold recs. destruct (MB' !! key) as [bs|] eqn:E; [| constructor].
        by destruct (to_key _ _ _ _ Htr' key bs E) as (_ & ? & _). }
      apply NoDup_app in Hnd as (_ & Hd & _). apply (Hd rn Hin). by apply list_elem_of_singleton.
    - destruct (Hbk k) as (bs & j & Hk & Hj); [rewrite recs_insert; by destruct (decide _) |].
      destruct (Hbk key) as (bs' & j' & Hk' & Hj').
      { rewrite recs_insert. destruct (decide _); [| done]. apply elem_of_app. right. by apply list_elem_of_singleton. }
      by destruct (bucket_key G' N' MB' tn Htr' k bs j (rn - 16) key bs' j' Hk Hj Hk' Hj'). }
  assert (Hrl : rec_len tn = rec_len t).
  { destruct Hreach as [Hc Hbig (m & G & N & MB & Hok & Htr & Hhalf & HM)].
    destruct (trie_insert_ok cpu key Hkey None m G N MB t Hok Htr Hbig Logic.I ltac:(by rewrite Hc) (half_free_pages m t (ao_pages _ _ _ Hok) Hfree))
      as (b & t' & Hrun & [(_ & Hl & _) _ _ _ _]). congruence. }
  destruct Hreach as [Hc Hbig (m & G & N & MB & Hok & Htr & Hhalf & HM)].
  assert (Hloop : match find p (recs M key) with
    | Some r => exists t', eq_rec r t = Ok (true, t') /\ get_alloc_loop eq_rec (chain_fuel t) (head_iter (recs MB key)) t = Ok (r, t') /\ r <> 0
    | None => get_alloc_loop eq_rec (chain_fuel t) (head_iter (recs MB key)) t = Ok (0, t)
    end).
  { rewrite HM in *. unfold recs in *. destruct (MB !! key) as [bs|] eqn:E; simpl (default _ _) in *.
    - pose proof (chain_short m G N MB t Hok Htr key bs E). apply (get_alloc_loop_ok m G N MB t key bs Hok Htr Hbig E Heq (chain_fuel t) 0%nat); lia.
    - assert (0 <= dbsz t / 128) by (apply Z.div_pos; pose proof (po_max _ _ (ao_pages _ _ _ Hok)); lia).
      unfold chain_fuel, TDB_HTRIE_MINDREC. cbn [fmap list_fmap find]. destruct (Z.to_nat _) eqn:En; [lia | done]. }
  assert (Hp : (match pre with Some f => f | None => sm_ret 0 end) t = Ok (code, t)) by (destruct pre; [done | by rewrite Hpre]).
  assert (Hrun : forall r t', get_alloc_loop eq_rec (chain_fuel t) (head_iter (recs MB key)) t = Ok (r, t') -> run =
    (if negb (r =? 0) then sm_ret (r, rec_len t, false)
     else c <~ match pre with Some f => f | None => sm_ret 0 end;;
          if negb (c =? 0) then sm_ret (0, rec_len t, false)
          else a <~ tdb_entry_alloc cpu key (rec_len t);; init_rec a.1;;; sm_ret (a.1, a.2, true)) t').
  { intros r t' Hl. subst run. unfold tdb_rec_get_alloc. unfold sm_bind at 1, sm_get. unfold sm_bind at 1.
    rewrite (rec_get_ok m G N MB t Hok Htr Hbig key Hkey Hhalf). unfold sm_bind at 1. by rewrite Hl. }
  destruct (find p (recs M key)) as [r|].
  - destruct Hloop as (t' & H1 & H2 & H3). exists t'. split; [done |]. rewrite (Hrun _ _ H2). by rewrite (proj2 (Z.eqb_neq r 0)).
  - rewrite (Hrun _ _ Hloop). cbn [Z.eqb negb]. destruct (code =? 0) eqn:Ec.
    + exists rn, tn. split_and!; try done; [lia | by eapply (reach_insert cpus t M cpu key None) |]. unfold tdb_entry_alloc, sm_bind. rewrite Hp, Ec. cbn [negb]. rewrite Hins. cbn [fst snd].
      by destruct (init_rec rn tn) as [[[] ?]|].
    + unfold sm_bind at 1. rewrite Hp, Ec. done.
Qed.

(** C38: On a table of fixed-size records of more than 48 bytes that insertions have reached and in which less than half of the
    file is in use, [tdb_rec_get_alloc()] returns the first record of the key that [eq_rec()] accepts, and
    adds none; if there is none, and [precreate_rec()] agrees, it inserts a new record, which
    [init_rec()] gets.  [eq_rec()] may change the table only when it accepts.  Without room [init_rec()] gets NULL
    ([get_alloc_null_init] of HtrieFacts). *)
Theorem tdb_get_alloc_first cpus t M cpu key : reachable cpus t M -> half_free t = true -> (cpu < cpus)%nat -> 0 < key < 2 ^ 64 ->
  (forall r, r ∈ recs M key -> exists t', eq_rec r t = Ok (p r, t') /\ (p r = false -> t' = t)) ->
  match pre with Some f => f t = Ok (code, t) | None => code = 0 end ->
  get_alloc_post (reachable cpus) t M cpu key.
Proof. apply get_alloc_ok. Qed.
End GetAllocSpec.

(** The interface to the users of a table: [I] relates it to the records of its keys. *)
Class GetAllocTable (cpus : nat) (I : Tdb -> multimap -> Prop) : Prop := get_alloc_law :
  forall eq_rec p pre code init_rec t M cpu key, I t M -> half_free t = true -> (cpu < cpus)%nat -> 0 < key < 2 ^ 64 ->
  (forall r, r ∈ recs M key -> exists t', eq_rec r t = Ok (p r, t') /\ (p r = false -> t' = t)) ->
  match pre with Some f => f t = Ok (code, t) | None => code = 0 end ->
  get_alloc_post eq_rec p pre code init_rec I t M cpu key.

#[export] Instance reachable_table cpus : GetAllocTable cpus (reachable cpus).
Proof. intros eq_rec p pre code init_rec t M cpu key. apply get_alloc_ok. Qed.

(** The record of the table is accepted, or not. *)
Lemma tdb_get_alloc_first_witness : 
  (exists t', tdb_rec_get_alloc (fun r => sm_ret (r =? demo_one.1)) None (fun _ => sm_ret tt) 0 0x15 64 demo_one.2 = Ok ((demo_one.1, 64, false), t')) /\
  (exists r t', tdb_rec_get_alloc (fun r => sm_ret false) None (fun _ => sm_ret tt) 0 0x15 64 demo_one.2 = Ok ((r, 64, true), t') /\ r <> demo_one.1).
Proof.
  split.
  - destruct (tdb_get_alloc_first (fun r => sm_ret (r =? demo_one.1)) (fun r => r =? demo_one.1) None 0 (fun _ => sm_ret tt) 1 demo_one.2 _ 0 0x15
      demo_reachable eq_refl ltac:(lia) ltac:(lia)) as (t' & _ & H); [intros r _; by eexists | done |].
    exists t'. exact H.
  - destruct (tdb_get_alloc_first (fun r => sm_ret false) (fun r => false) None 0 (fun _ => sm_ret tt) 1 demo_one.2 _ 0 0x15
      demo_reachable eq_refl ltac:(lia) ltac:(lia)) as (r & t' & _ & _ & Hne & _ & _ & H); [intros r _; by eexists | done |].
    exists r, t'. split; [exact H |]. intros ->. apply (Hne 0x15). by apply list_elem_of_singleton.
Defined.

(** ** Walking *)

Section WalkSpec.
Context (fn : Z -> TM Z) (c : Z -> Z).
Context (m : Z) (G : gmap Z Z) (N : labels) (M : multimap) (t : Tdb).
Context (Hok : alloc_ok m G t) (Htr : trie_ok G N M t) (Hbig : big_table t) (Hhalf : 8192 * m <= dbsz t).
Context (Hfn : forall d, fn d t = Ok (c d, t)).

(** The result of walking over the buckets [P]. *)
Definition walked (P : Z -> Prop) (res : Z) : Prop :=
  (res = 0 -> forall b, P b -> c (b + 24) = 0) /\ (res <> 0 -> exists b, P b /\ res = c (b + 24)).

(** The buckets of the keys that end in [pre]. *)
Definition under (bits pre b : Z) : Prop := exists k bs, M !! k = Some bs /\ b ∈ bs /\ k mod 2 ^ bits = pre.

(** All keys with the label of a node come by it. *)
Definition on_path (o bits pre : Z) : Prop := forall k, k mod 2 ^ bits = pre ->
  forall x y z, leads t k o bits x y z -> leads t k (TDB_HTRIE_ROOT t) 0 x y z.

Lemma walked_more (P Q R : Z -> Prop) res1 res2 : (forall b, R b <-> P b \/ Q b) -> walked P res1 -> walked Q res2 ->
  walked R (if negb (res1 =? 0) then res1 else res2).
Proof.
  intros HR [H1 H2] [H3 H4]. destruct (Z.eqb_spec res1 0) as [->|Hne]; cbn [negb]; split.
  - intros E b [Hb|Hb]%HR; [by apply H1 | by apply H3].
  - intros E. destruct (H4 E) as (b & Hb & Eb). exists b. split; [apply HR; by right | done].
  - done.
  - intros E. destruct (H2 E) as (b & Hb & Eb). exists b. split; [apply HR; by left | done].
Qed.

Lemma walk_one k bs j b fuel : M !! k = Some bs -> bs !! j = Some b -> walk_in_bucket fn (S (S fuel)) b (TDB_HTRIE_BCKT_1ST_REC b) t = Ok (c (b + 24), t).
Proof.
  intros Hk Hj. pose proof (rsize_bounds t Hbig) as (Hr & _). cbn [walk_in_bucket]. unfold sm_bind at 1. rewrite scan_len_ok by done.
  rewrite Z.eqb_refl, andb_false_r. unfold TDB_HTRIE_BCKT_1ST_REC, sizeof_TdbBucket, sizeof_TdbFRec. unfold sm_bind at 1.
  rewrite (bucket_live m G N M t Hok Htr Hbig k bs j b Hk Hj). unfold sm_bind at 1. rewrite Hfn. replace (b + 16 + 8) with (b + 24) by lia.
  destruct (Z.eqb_spec (c (b + 24)) 0) as [E|E]; cbn [negb]; [rewrite E | done].
  destruct (_ <=? _); [| done]. unfold sm_bind at 1. rewrite scan_len_ok by done. unfold TDB_HTRIE_MINDREC.
  destruct (Z.ltb_spec 128 (b + 16 + rsize t + rsize t - b)); [| lia]. by rewrite (proj2 (Z.eqb_neq (b + 16 + rsize t) (b + 16))) by lia.
Qed.

Lemma bucket_walk_ok k bs : M !! k = Some bs -> forall fuel j b, (length bs < j + fuel)%nat -> bs !! j = Some b ->
  exists res, bucket_walk_loop fn fuel b t = Ok (res, t) /\ walked (fun x => x ∈ drop j bs) res.
Proof.
  intros Hk. induction fuel as [|fuel IH]; intros j b Hf Hj; [apply lookup_lt_Some in Hj; lia |]. cbn [bucket_walk_loop]. unfold sm_bind at 1.
  change 17%nat with (S (S 15)). rewrite (walk_one k bs j b 15 Hk Hj).
  rewrite (drop_S bs b j Hj). destruct (Z.eqb_spec (c (b + 24)) 0) as [E0|E0]; cbn [negb].
  2: { exists (c (b + 24)). split; [done |]. split; [done |]. intros _. exists b. split; [by apply elem_of_cons; left | done]. }
  unfold sm_bind at 1. rewrite (bucket_next m G N M t Hok Htr Hbig k bs j b Hk Hj). destruct (bs !! S j) as [b'|] eqn:E; simpl (default _ _).
  - destruct (bucket_o2di m G N M t Hok Htr k bs (S j) b' Hk E) as (_ & _ & Hb'). rewrite (proj2 (Z.eqb_neq b' 0)) by lia.
    destruct (IH (S j) b' ltac:(lia) E) as (res & Hrun & Hw1 & Hw2). exists res. split; [done |]. split.
    + intros Er x [->|Hx]%elem_of_cons; [done | by apply Hw1].
    + intros Er. destruct (Hw2 Er) as (x & Hx & Ex). exists x. split; [by apply elem_of_cons; right | done].
  - cbn [Z.eqb]. exists 0. split; [done |]. split; [| done]. rewrite (drop_ge bs (S j)) by (by apply lookup_ge_None).
    intros _ x ->%list_elem_of_singleton. done.
Qed.

Lemma under_entry bits pre i k : 0 <= bits -> 0 <= pre < 2 ^ bits -> 0 <= i < 16 ->
  k mod 2 ^ (bits + 4) = pre + i * 2 ^ bits <-> k mod 2 ^ bits = pre /\ TDB_HTRIE_IDX k bits = i.
Proof.
  intros Hb Hp Hi. rewrite idx_digit by done. split; [| by intros [-> ->]]. intros E.
  pose proof (Z.mod_pos_bound k (2 ^ bits) ltac:(lia)). assert (E' : TDB_HTRIE_IDX k bits = i).
  { apply (f_equal (fun x => x / 2 ^ bits)) in E. by rewrite !Z.div_add, !Z.div_small in E by lia. }
  split; [| done]. rewrite E' in E. lia.
Qed.

(** What is under an entry. *)
Lemma entry_under o bits pre i k bs : N !! o = Some (bits, pre) -> on_path o bits pre -> 0 <= pre < 2 ^ bits -> 0 <= i < 16 ->
  M !! k = Some bs -> k mod 2 ^ (bits + 4) = pre + i * 2 ^ bits -> let v := h32 t (o + 4 * i) in
  (v = 0 -> False) /\ (forall b k' bs', M !! k' = Some (b :: bs') -> v = TDB_O2DI b + TDB_HTRIE_DBIT -> k = k').
Proof.
  intros Ho Hpath Hpre Hi Hk Hp v. destruct (to_node _ _ _ _ Htr _ _ _ Ho) as (_ & Hb & _).
  apply under_entry in Hp as [Hp Ei]; [| lia | done | done].
  destruct (to_key _ _ _ _ Htr k bs Hk) as (_ & _ & b1 & bs1 & n1 & bits1 & -> & Hl1 & _).
  destruct (bucket_o2di m G N M t Hok Htr k _ 0%nat b1 Hk eq_refl) as (_ & Hd1 & _).
  assert (Hend : v = 0 \/ TDB_HTRIE_DBIT <= v -> TDB_O2DI b1 + TDB_HTRIE_DBIT = v).
  { intros Hv. assert (Hl : leads t k o bits v o bits) by (apply leads_end; [unfold ent; by rewrite Ei | done]).
    by destruct (leads_det _ _ _ _ _ _ _ _ _ _ (Hpath k Hp _ _ _ Hl) Hl1). }
  split.
  - intros E0. specialize (Hend (or_introl E0)). unfold TDB_HTRIE_DBIT in *. lia.
  - intros b k' bs' Hk' Ev. destruct (bucket_o2di m G N M t Hok Htr k' _ 0%nat b Hk' eq_refl) as (_ & Hd & _).
    specialize (Hend ltac:(right; lia)). assert (b1 = b) as -> by (eapply (o2di_inj m G N M t Hok Htr k _ 0%nat _ k' _ 0%nat); [exact Hk | done | exact Hk' | done | lia]).
    by destruct (bucket_key G N M t Htr k _ 0%nat b k' _ 0%nat Hk eq_refl Hk' eq_refl).
Qed.

Lemma visit_entries_ok visit o bits pre : N !! o = Some (bits, pre) -> on_path o bits pre -> 0 <= pre < 2 ^ bits ->
  (forall o' pre', N !! o' = Some (bits + 4, pre') -> on_path o' (bits + 4) pre' -> 0 <= pre' < 2 ^ (bits + 4) ->
    exists res, visit o' t = Ok (res, t) /\ walked (under (bits + 4) pre') res) ->
  forall fuel i, 0 <= i -> i + Z.of_nat fuel = 16 ->
  exists res, visit_entries fn visit fuel o i t = Ok (res, t) /\
    walked (fun b => exists j, i <= j < 16 /\ under (bits + 4) (pre + j * 2 ^ bits) b) res.
Proof.
  intros Ho Hpath Hpre Hvisit. destruct (to_node _ _ _ _ Htr _ _ _ Ho) as (HG & Hb & _).
  destruct (node_aligned m G N M t Hok Htr o _ Ho) as (_ & Ho8 & _).
  induction fuel as [|fuel IH]; intros i Hi Hf; cbn [visit_entries].
  { exists 0. split; [done |]. split; [| done]. intros _ b (j & Hj & _). lia. }
  unfold TDB_HTRIE_RESOLVED, BITS_PER_LONG, TDB_HTRIE_BITS. rewrite (proj2 (Z.ltb_ge 64 (i + 4))) by lia. cbn [bug_on].
  unfold sm_bind at 1, sm_ret at 1. unfold sm_bind at 1, get_shift.
  rewrite rd32_ok by (apply (half_in_map m G t Hok o 64); [done | done | lia | by apply ent_aligned]).
  destruct (IH (i + 1) ltac:(lia) ltac:(lia)) as (res2 & Hrun2 & Hw2).
  assert (Hsplit : forall b, (exists j, i <= j < 16 /\ under (bits + 4) (pre + j * 2 ^ bits) b) <->
    under (bits + 4) (pre + i * 2 ^ bits) b \/ (exists j, i + 1 <= j < 16 /\ under (bits + 4) (pre + j * 2 ^ bits) b)).
  { intros b. split; [intros (j & Hj & Hu) | intros [Hu|(j & Hj & Hu)]].
    - destruct (Z.eq_dec j i) as [->|]; [by left | right; exists j; split; [lia | done]].
    - exists i. split; [lia | done].
    - exists j. split; [lia | done]. }
  set (v := h32 t (o + 4 * i)) in *.
  pose proof (fun k bs => entry_under o bits pre i k bs Ho Hpath Hpre ltac:(lia)) as Hund. fold v in Hund.
  pose proof (entry_cases m G N M t Hok Htr o bits pre i Ho ltac:(lia)) as Hec. cbv zeta in Hec. fold v in Hec.
  destruct Hec as [E0|[(b & k & bs & Hk & Hp & E0 & Hdi & Hdib)|[Hr Hn]]].
  - rewrite E0. cbn [Z.eqb]. exists res2. split; [done |].
    assert (H0 : walked (under (bits + 4) (pre + i * 2 ^ bits)) 0).
    { split; [| done]. intros _ b (k & bs & Hk & _ & Hp). destruct (proj1 (Hund k bs Hk Hp) E0). }
    exact (walked_more _ _ _ 0 res2 Hsplit H0 Hw2).
  - unfold TDB_HTRIE_DBIT in E0 at 1. rewrite (proj2 (Z.eqb_neq v 0)) by lia. unfold sm_bind at 1, sm_get at 1. rewrite E0.
    change (2 ^ 31) with TDB_HTRIE_DBIT in *. rewrite vrlen_high, flag_high, lxor_dbit, Hdi by lia.
    destruct (to_bucket _ _ _ _ Htr k _ 0%nat b Hk eq_refl) as (Hal & (s & Hs & _) & _).
    pose proof (region_above m G N M t Hok Htr b s Hs (mod_128_64 _ Hal)). destruct (ao_in _ _ _ Hok b s Hs) as (? & ? & _ & Hend).
    destruct (po_m _ _ (ao_pages _ _ _ Hok)). unfold TDB_HTRIE_ROOT in *.
    rewrite (proj2 (Z.ltb_ge _ _)), (proj2 (Z.ltb_ge (dbsz t) _)) by lia. cbn [orb bug_on]. unfold sm_bind at 1, sm_ret at 1.
    rewrite (proj2 (Z.eqb_neq (TDB_O2DI b) 0)) by lia. cbn [bug_on]. unfold sm_bind at 2, sm_ret at 1. unfold tdb_htrie_bucket_walk.
    unfold sm_bind at 1. unfold sm_bind at 1, sm_get at 1. pose proof (chain_short m G N M t Hok Htr k _ Hk).
    destruct (bucket_walk_ok k _ Hk (chain_fuel t) 0%nat b ltac:(lia) eq_refl) as (res1 & Hrun1 & Hw1). rewrite Hrun1.
    assert (Hw : walked (under (bits + 4) (pre + i * 2 ^ bits)) res1).
    { split.
      - intros Er b' (k' & bs' & Hk' & Hb' & Hp'). apply (proj1 Hw1 Er). assert (k' = k) as -> by (by eapply (proj2 (Hund k' bs' Hk' Hp'))). by rewrite Hk in Hk'; injection Hk' as <-.
      - intros Er. destruct (proj2 Hw1 Er) as (b' & Hb' & Eb). exists b'. split; [| done]. by exists k, (b :: bs). }
    exists (if negb (res1 =? 0) then res1 else res2). split; [by destruct (negb _) | exact (walked_more _ _ _ res1 res2 Hsplit Hw Hw2)].
  - rewrite (proj2 (Z.eqb_neq v 0)) by lia. unfold sm_bind at 1, sm_get at 1.
    destruct (node_aligned m G N M t Hok Htr _ _ Hn) as (HG' & H8 & Hpos & Hend).
    rewrite vrlen_low, flag_low by (unfold TDB_HTRIE_DBIT in Hr; lia).
    assert (Hab : TDB_HDR_SZ t + sizeof_TdbExt <= TDB_DI2O v <= dbsz t).
    { pose proof (region_above m G N M t Hok Htr _ _ HG' ltac:(unfold TDB_II2O, L1_CACHE_BYTES; apply Z.mod_mul; lia)) as Hra.
      unfold TDB_HTRIE_ROOT, TDB_II2O, L1_CACHE_BYTES, TDB_DI2O, TDB_HTRIE_MINDREC in *. lia. }
    rewrite (proj2 (Z.ltb_ge _ _)), (proj2 (Z.ltb_ge (dbsz t) _)) by lia. cbn [orb bug_on]. unfold sm_bind at 1, sm_ret at 1. unfold sm_bind at 1.
    destruct (Hvisit _ _ Hn) as (res1 & Hrun1 & Hw1).
    + intros k Hk x y z Hx. apply under_entry in Hk as [Hk Ei]; [| lia | done | lia]. apply (Hpath k Hk).
      apply (leads_step _ _ _ _ v); [unfold ent; by rewrite Ei | done | done].
    + rewrite Z.pow_add_r by lia. change (2 ^ 4) with 16. nia.
    + rewrite Hrun1. exists (if negb (res1 =? 0) then res1 else res2). split; [by destruct (negb _) | exact (walked_more _ _ _ res1 res2 Hsplit Hw1 Hw2)].
Qed.

Lemma node_visit_ok depth : forall o bits pre, 60 - bits < 4 * Z.of_nat depth -> N !! o = Some (bits, pre) -> on_path o bits pre -> 0 <= pre < 2 ^ bits ->
  exists res, tdb_htrie_node_visit fn depth o t = Ok (res, t) /\ walked (under bits pre) res.
Proof.
  induction depth as [|depth IH]; intros o bits pre Hd Ho Hpath Hpre; destruct (to_node _ _ _ _ Htr _ _ _ Ho) as (_ & Hb & _); [lia |].
  cbn [tdb_htrie_node_visit].
  destruct (visit_entries_ok (tdb_htrie_node_visit fn depth) o bits pre Ho Hpath Hpre (fun o' pre' H1 H2 H3 => IH o' (bits + 4) pre' ltac:(lia) H1 H2 H3)
    16%nat 0 ltac:(lia) eq_refl) as (res & Hrun & Hw).
  exists res. split; [done |]. destruct Hw as [Hw1 Hw2]. split.
  - intros E b (k & bs & Hk & Hbs & Hp). apply (Hw1 E). exists (TDB_HTRIE_IDX k bits). split; [apply idx_bounds |].
    exists k, bs. split_and!; try done. apply under_entry; [lia | done | apply idx_bounds | done].
  - intros E. destruct (Hw2 E) as (b & (j & Hj & k & bs & Hk & Hbs & Hp) & Eb). exists b. split; [| done].
    exists k, bs. split_and!; try done. by apply under_entry in Hp as [Hp _]; [| lia | done |].
Qed.
End WalkSpec.

(** C39: On a table of fixed-size records of more than 48 bytes that insertions have reached, each while less than half of
    the file was in use, and for a function that does not change the table, [tdb_entry_walk()] calls the function on the data of
    every record of the table and of no other:
    it returns 0 when the function returns 0 for all of them, and otherwise the result for one of
    them.  With smaller or variable records or a file in use beyond its half, records are lost or the search fails
    ([burst_loses_last], [var_second_lost], [descend_bug_upper_half] of HtrieFacts). *)
Theorem tdb_walk_complete fn c cpus t M : reachable cpus t M -> (forall d, fn d t = Ok (c d, t)) ->
  exists res, tdb_entry_walk fn t = Ok (res, t) /\
    (res = 0 -> forall k r, r ∈ recs M k -> c (r + sizeof_TdbFRec) = 0) /\
    (res <> 0 -> exists k r, r ∈ recs M k /\ res = c (r + sizeof_TdbFRec)).
Proof.
  intros Hreach%reachable_inv Hfn. destruct Hreach as [_ Hbig (m & G & N & MB & Hok & Htr & Hhalf & HM)].
  destruct (node_visit_ok fn c m G N MB t Hok Htr Hbig Hhalf Hfn 17 (TDB_HTRIE_ROOT t) 0 0) as (res & Hrun & Hw1 & Hw2);
    [lia | apply (to_root _ _ _ _ Htr) | by intros k _ x y z | lia |].
  exists res. split; [done |]. unfold sizeof_TdbFRec. split.
  - intros E k r Hr. rewrite HM in Hr. apply list_elem_of_fmap in Hr as (b & -> & Hb). replace (b + 16 + 8) with (b + 24) by lia.
    apply (Hw1 E). unfold recs in Hb. destruct (MB !! k) as [bs|] eqn:Ek; [| by apply elem_of_nil in Hb].
    exists k, bs. split_and!; try done. apply Z.mod_1_r.
  - intros E. destruct (Hw2 E) as (b & (k & bs & Hk & Hb & _) & Eb). exists k, (b + 16). rewrite HM. unfold recs. rewrite Hk.
    split; [apply list_elem_of_fmap; by exists b |]. rewrite Eb. f_equal. lia.
Qed.

Lemma tdb_walk_complete_witness : exists res, tdb_entry_walk (fun d => sm_ret (d - demo_one.1)) demo_one.2 = Ok (res, demo_one.2) /\ res <> 0.
Proof.
  destruct (tdb_walk_complete (fun d => sm_ret (d - demo_one.1)) (fun d => d - demo_one.1) 1 demo_one.2 _ demo_reachable ltac:(done)) as (res & H & H0 & _).
  exists res. split; [exact H |]. intros E. specialize (H0 E 0x15 demo_one.1). unfold sizeof_TdbFRec in H0.
  rewrite Z.add_comm, Z.add_simpl_r in H0. discriminate H0. by apply list_elem_of_singleton.
Defined.
