(* ===== verification/HtrieFacts.v ===== *)
(** * Tempesta DB: where the trie is not a multimap

    What [HtrieSpec] excludes, on tables of one extent and one CPU: small records, which share
    buckets, records of variable length, and index nodes in the upper half of the file.  Keys
    are [H] plus what is shown. *)

From S2P Require Import Prelude Tdb Htrie HtrieInv HtrieSpec.

#[local] Open Scope Z_scope.

Definition H : Z := 0x1234567800000000.

(** On a new table with records of [rlen] bytes, or of variable length if that is 0. *)
Definition on_new {A} (rlen : Z) (k : TM A) : option A :=
  match tdb_init_mapping (2 ^ 21) rlen with
  | Some t => match (let! t := tdb_htrie_init 1 t in let! r := k t in Ok r.1) with Ok a => Some a | Bug => None end
  | None => None
  end.

(** Records of [len] bytes. *)
Fixpoint insert_all (len : Z) (keys : list Z) : TM (list Z) :=
  match keys with
  | [] => sm_ret []
  | k :: keys =>
      r <~ tdb_entry_create 0 k (replicate (Z.to_nat (TDB_HTRIE_RALIGN len / 8)) 7) len;;
      rs <~ insert_all len keys;; sm_ret (r.1 :: rs)
  end.

(** [MOVE_RECORDS] takes a record that ends with the bucket for the end of the records: with two records
    of 56 bytes the second is lost when the bucket is burst. *)
Lemma burst_loses_last :
  on_new 48 (a <~ insert_all 48 [H + 0x1; H + 0x11; H + 0x21];;
             x <~ tdb_records (H + 0x1);; y <~ tdb_records (H + 0x11);; z <~ tdb_records (H + 0x21);; sm_ret (a, x, y, z))
  = Some ([12304; 12360; 12432], [12304], [], [12432]).
Proof. vm_compute. reflexivity. Qed.

(** [free_nb] of the entry 0 is 0 and not negative, so that records that are copied are not cleared: a record is
    found twice. *)
Lemma burst_doubles_record :
  on_new 24 (a <~ insert_all 24 [H + 0x100; H + 0x110; H + 0x200; H + 0x300];; z <~ tdb_records (H + 0x200);; sm_ret (length a, length z))
  = Some (4, 2)%nat.
Proof. vm_compute. reflexivity. Qed.

(** [TDB_HTRIE_FOREACH_REC] steps over a record of variable length as if it had the header of a fixed one: the second
    record of a bucket is not found. *)
Lemma var_second_lost :
  on_new 0 (a <~ insert_all 8 [H + 0x1; H + 0x11];; x <~ tdb_records (H + 0x1);; y <~ tdb_records (H + 0x11);; sm_ret (length a, length x, length y))
  = Some (2, 1, 0)%nat.
Proof. vm_compute. reflexivity. Qed.

(** [tdb_htrie_descend()] checks the index of a node as if it were the index of a data block, which are
    twice as large: with 300 of 512 pages in use, two keys with the same last digit get a node in the
    upper half of the file, and the search for one of them is a BUG. *)
Lemma descend_bug_upper_half :
  let search n := on_new 64 (_ <~ alloc_all (replicate n (0%nat, AllocData 4000 false));;
                             a <~ insert_all 64 [H + 0x1; H + 0x11];; l <~ tdb_records (H + 0x1);; sm_ret (length a, length l)) in
  search 200%nat = Some (2, 1)%nat /\ search 300%nat = None /\
  on_new 64 (_ <~ alloc_all (replicate 300 (0%nat, AllocData 4000 false));; a <~ insert_all 64 [H + 0x1; H + 0x11];; sm_ret (bool_decide (0 ∈ a))) = Some false.
Proof. vm_compute. done. Qed.

(** [tdb_entry_get_room()] leaves a record the length of its unused tail: of 8 bytes, 6 are used and 2 are left. *)
Lemma get_room_keeps_tail :
  on_new 0 (a <~ insert_all 8 [H + 0x1];; let r := hd 0 a in
            _ <~ tdb_entry_get_room 0 r (r + sizeof_TdbVRec + 6) 100 100;; get_len r) = Some 2.
Proof. vm_compute. reflexivity. Qed.

(** The pages that [tdb_htrie_init()] takes for a CPU are at page boundaries, which the allocators take for the end of
    the page before: they are never used. *)
Lemma init_pages_unused :
  on_new 64 (t <~ sm_get;; i <~ tdb_alloc_index 0;; d <~ tdb_alloc_data 0 64 true;; sm_ret (pcpu t, i, d.1))
  = Some ([MkPcpu 4096 8192], 12288, 16400).
Proof. vm_compute. reflexivity. Qed.

(** [tdb_rec_get_alloc()] gives NULL to [init_rec()] when there is no room; here the first one does not accept it. *)
Lemma get_alloc_null_init :
  on_new 2000 (_ <~ alloc_all (replicate 520 (0%nat, AllocData 4000 false));;
               r <~ tdb_rec_get_alloc (fun _ => sm_ret false) None (fun r => bug_on (r =? 0)) 0 6 2000;; sm_ret r.1.1) = None /\
  on_new 2000 (_ <~ alloc_all (replicate 520 (0%nat, AllocData 4000 false));;
               r <~ tdb_rec_get_alloc (fun _ => sm_ret false) None (fun r => sm_ret tt) 0 6 2000;; sm_ret r.1.1) = Some 0.
Proof. split; vm_compute; reflexivity. Qed.
