(* ===== verification/Client.v ===== *)
(** * Clients

    [fw/client.c]: descriptors of clients are records of a database table with fixed records,
    which are larger than a bucket and so never move.  A client is found by its address, the
    address of [X-Forwarded-For] and the [User-Agent]; the key is the hash of the three.  The
    entries are kept beside the words of the table, by the record they are in.

    The private data of the classifier ([class_prvt]) is a type, with the value of zeroed memory; [init]
    is a function of the caller on it.  The size of an entry is a parameter of which only what
    [BUILD_BUG_ON] checks matters. *)

From S2P Require Import Prelude Str Hash Addr Tdb Htrie HtrieInv HtrieSpec.

#[local] Open Scope Z_scope.

Definition UA_CMP_LEN : Z := 256.
Definition LONG_MAX : Z := 2 ^ 63 - 1.
Definition any_addr : TfwAddr := MkAddr 0 (replicate 16 0) 0 0.

Section Client.
Context {Prvt : Type} (prvt0 : Prvt) (sizeof_TfwClientEntry : Z) `{StrSimd}.

(** [TfwClientEntry]; [cli] is its first field. *)
Record TfwClientEntry := MkCli {
  c_addr : TfwAddr;
  class_prvt : Prvt;
  conn_list : list Z;
  c_xff_addr : TfwAddr;
  expires : Z;
  users : Z;
  user_agent_len : Z;
  user_agent : bytes
}.

Definition upd_entry (prvt : Prvt) (exp usr : Z) (e : TfwClientEntry) : TfwClientEntry :=
  MkCli (c_addr e) prvt (conn_list e) (c_xff_addr e) exp usr (user_agent_len e) (user_agent e).

Record TfwClientEqCtx := MkEqCtx {
  x_addr : TfwAddr;
  x_xff_addr : TfwAddr;
  x_user_agent : TfwStr;
  x_init : option (Prvt -> Prvt)
}.

(** The table, the entries by record, and the counter of clients online. *)
Record ClientSt := MkClientSt { client_db : Tdb; ents : gmap Z TfwClientEntry; online : Z }.

Definition init_prvt (ctx : TfwClientEqCtx) : Prvt := match x_init ctx with Some f => f prvt0 | None => prvt0 end.

(** The comparisons of [tfw_client_addr_eq()]. *)
Definition client_match (e : TfwClientEntry) (ctx : TfwClientEqCtx) : outcome bool :=
  if negb (memcmp_fast (s6_addr (c_addr e)) (s6_addr (x_addr ctx)) =? 0) then Ok false
  else if negb (memcmp_fast (s6_addr (c_xff_addr e)) (s6_addr (x_xff_addr ctx)) =? 0) then Ok false
  else tfw_str_eq_cstr (x_user_agent ctx) (take (Z.to_nat (user_agent_len e)) (user_agent e)) false false.

(** What [tfw_client_addr_eq()] does to an entry that matches, under its lock, and to the counter. *)
Definition client_found (now : Z) (ctx : TfwClientEqCtx) (e : TfwClientEntry) : TfwClientEntry * Z :=
  let prvt := if expires e <? now then init_prvt ctx else class_prvt e in
  let u := s32 (users e + 1) in
  (upd_entry prvt LONG_MAX u e, if u =? 1 then 1 else 0).

(** [tfw_client_ent_init()]; the record is zeroed memory. *)
Definition tfw_client_ent_init (ctx : TfwClientEqCtx) : outcome TfwClientEntry :=
  let! ua := tfw_str_to_cstr (x_user_agent ctx) UA_CMP_LEN in
  Ok (MkCli (x_addr ctx) (init_prvt ctx) [] (x_xff_addr ctx) LONG_MAX 1
        (Z.min (len (x_user_agent ctx)) UA_CMP_LEN) (ua ++ replicate (Z.to_nat UA_CMP_LEN - length ua) 0)).

(** The key and the context that [tfw_client_obtain()] makes from its arguments. *)
Definition client_key (addr : TfwAddr) (xff_addr : option TfwAddr) (ua : option TfwStr) : outcome Z :=
  let! key := hash_calc (s6_addr addr) 16 in
  let! key := match xff_addr with Some x => (let! h := hash_calc (s6_addr x) 16 in Ok (Z.lxor key h)) | None => Ok key end in
  match ua with Some u => (let! h := tfw_hash_str_len u UA_CMP_LEN in Ok (Z.lxor key h)) | None => Ok key end.

Definition client_ctx (addr : TfwAddr) (xff_addr : option TfwAddr) (ua : option TfwStr) (init : option (Prvt -> Prvt)) : TfwClientEqCtx :=
  MkEqCtx addr (default any_addr xff_addr) (default str_init ua) init.

(** [ctx->eq_rec] on the records of the table. *)
Definition client_eq_rec (es : gmap Z TfwClientEntry) (ctx : TfwClientEqCtx) (r : Z) : TM bool := fun t =>
  match es !! r with
  | Some e => let! b := client_match e ctx in Ok (b, t)
  | None => Bug
  end.

(** The client's record, or 0 (NULL). *)
Definition tfw_client_obtain (cpu : nat) (addr : TfwAddr) (xff_addr : option TfwAddr) (ua : option TfwStr)
    (init : option (Prvt -> Prvt)) (now : Z) : SM ClientSt Z := fun st =>
  let ctx := client_ctx addr xff_addr ua init in
  let! key := client_key addr xff_addr ua in
  let! x := tdb_rec_get_alloc (client_eq_rec (ents st) ctx) None (fun r => bug_on (r =? 0)) cpu key sizeof_TfwClientEntry (client_db st) in
  let '((rec, l, is_new), db) := x in
  if l <? sizeof_TfwClientEntry then Bug
  else if is_new : bool then
    let! e := tfw_client_ent_init ctx in
    Ok (rec, MkClientSt db (<[rec := e]> (ents st)) (online st + 1))
  else
    match ents st !! rec with
    | Some e => let '(e, d) := client_found now ctx e in Ok (rec, MkClientSt db (<[rec := e]> (ents st)) (online st + d))
    | None => Bug
    end.

(** [tfw_client_put()]: the reference is dropped; the flag says that it was the last one. *)
Definition client_put_dec (e : TfwClientEntry) : TfwClientEntry * bool :=
  let u := s32 (users e - 1) in (upd_entry (class_prvt e) (expires e) u e, u =? 0).

(** The rest of it, under the lock; [T] is [client_cfg.expires_time].  The number is what is added to the counter. *)
Definition client_put_locked (T now : Z) (e : TfwClientEntry) : outcome (TfwClientEntry * Z) :=
  if negb (users e =? 0) then Ok (e, 0)
  else if negb (bool_decide (conn_list e = [])) then Bug
  else Ok (upd_entry (class_prvt e) (now + T) (users e) e, -1).

(** With nothing in between. *)
Definition tfw_client_put (T : Z) (cli now : Z) : SM ClientSt unit := fun st =>
  match ents st !! cli with
  | None => Bug
  | Some e =>
      let '(e, last) := client_put_dec e in
      let! x := (if last : bool then client_put_locked T now e else Ok (e, 0)) in
      Ok (tt, MkClientSt (client_db st) (<[cli := x.1]> (ents st)) (online st + x.2))
  end.

(** [client_cfg.expires_time] *)
Definition tfw_client_set_expires_time (t expires_time : Z) : Z := if t <? u32 (expires_time + 1) then u32 (expires_time + 1) else t.

(** [tfw_client_for_each()] with [client_db]; [tfw_client_start()] for a new file of the configured size. *)
Definition tfw_client_for_each (fn : Z -> TM Z) : TM Z := tdb_entry_walk fn.
Definition tfw_client_start (cpus : nat) (db_size : Z) : outcome (option ClientSt) :=
  if (negb (mask_low 21 db_size =? 0)) || (db_size <? TDB_EXT_SZ) then Ok None
  else match tdb_init_mapping db_size sizeof_TfwClientEntry with
       | None => Ok None
       | Some t => let! t := tdb_htrie_init cpus t in Ok (Some (MkClientSt t ∅ 0))
       end.
End Client.

(** ** Identities *)

(** The addresses and the text of the user agent. *)
Abbreviation client_id := (bytes * bytes * bytes)%type.

Definition h64 (b : bytes) : Z := hash_join (mix 0 b (0, 0)).
Definition id_key (id : client_id) : Z := Z.lxor (Z.lxor (h64 id.1.1) (h64 id.1.2)) (h64 (take 256 id.2)).
Definition arg_id (addr : TfwAddr) (xff : option TfwAddr) (ua : option TfwStr) : client_id :=
  (s6_addr addr, s6_addr (default any_addr xff), flat (default str_init ua)).

Definition addr_ok (a : TfwAddr) : Prop := length (s6_addr a) = 16%nat /\ bytes_ok (s6_addr a).

(** A user agent that an entry has room for. *)
Definition ua_ok (u : TfwStr) : Prop :=
  str_ok u /\ str_bytes_ok u /\ Forall (fun c => c <> 0) (flat u) /\ zlen (flat u) < UA_CMP_LEN.

Record args_ok (addr : TfwAddr) (xff : option TfwAddr) (ua : option TfwStr) : Prop := {
  ao_addr : addr_ok addr;
  ao_xff : forall x, xff = Some x -> addr_ok x;
  ao_ua : forall u, ua = Some u -> ua_ok u;
  ao_key : id_key (arg_id addr xff ua) <> 0
}.

Lemma any_addr_ok : addr_ok any_addr.
Proof. split; [done |]. apply Forall_replicate. done. Qed.

Lemma str_init_ok : ua_ok str_init.
Proof.
  split; [| split; [| split]].
  - constructor; [done | by right | | done | done]. apply Forall_cons. split; [| done]. split; [done | by simpl].
  - apply Forall_cons. split; [apply Forall_nil; done | done].
  - done.
  - done.
Qed.

Lemma default_ok addr xff ua : args_ok addr xff ua -> addr_ok (default any_addr xff) /\ ua_ok (default str_init ua).
Proof.
  intros [_ Hx Hu _]. split.
  - destruct xff; [by apply Hx | apply any_addr_ok].
  - destruct ua; [by apply Hu | apply str_init_ok].
Qed.

Lemma hash_addr a : addr_ok a -> hash_calc (s6_addr a) 16 = Ok (h64 (s6_addr a)).
Proof.
  intros [Hl Hb]. unfold hash_calc. rewrite hash_calc_mix by (done || unfold zlen; lia). unfold seg, h64. by rewrite drop_0, take_ge by lia.
Qed.

Lemma hash_ua u : ua_ok u -> tfw_hash_str_len u UA_CMP_LEN = Ok (h64 (take 256 (flat u))).
Proof. intros (Hs & Hb & _ & _). unfold UA_CMP_LEN. rewrite hash_str_mix by (done || lia). done. Qed.

Lemma h64_range b : bytes_ok b -> 0 <= h64 b < 2 ^ 64.
Proof. intros Hb. unfold h64. destruct (mix_range 0 b (0, 0)); [done.. |]. by apply hash_join_range. Qed.

(** No address and no user agent are the zero address and the empty text. *)
Lemma client_key_ok addr xff ua : args_ok addr xff ua -> client_key addr xff ua = Ok (id_key (arg_id addr xff ua)) /\
  0 < id_key (arg_id addr xff ua) < 2 ^ 64.
Proof.
  intros Hargs. destruct (default_ok _ _ _ Hargs) as [Hx Hu]. destruct Hargs as [Ha Hxs Hus Hk]. split.
  - unfold client_key, id_key, arg_id. cbn [fst snd]. rewrite hash_addr by done.
    destruct xff as [x|]; [rewrite (hash_addr x) by (by apply Hxs) |]; (destruct ua as [u|]; [rewrite (hash_ua u) by (by apply Hus) |]).
    all: simpl (default _ _); change (h64 (s6_addr any_addr)) with 0; change (h64 (take 256 (flat str_init))) with 0; by rewrite ?Z.lxor_0_r.
  - assert (Hr : 0 <= id_key (arg_id addr xff ua) < 2 ^ 64); [| lia]. unfold id_key, arg_id. cbn [fst snd].
    destruct Ha as [_ Ha], Hx as [_ Hx], Hu as (_ & Hb & _ & _).
    apply lxor_below; [lia | apply lxor_below; [lia | by apply h64_range | by apply h64_range] |]. by apply h64_range, Forall_take, flat_bytes_ok.
Qed.

Section ClientSpec.
Context {Prvt : Type} (prvt0 : Prvt) (sizeof_TfwClientEntry : Z) `{SI : StrSimd, SO : !StrSimdOk SI}.
Context (cpus : nat) (I : Tdb -> multimap -> Prop) `{!GetAllocTable cpus I}.

Abbreviation entry := (TfwClientEntry (Prvt := Prvt)).
Abbreviation state := (ClientSt (Prvt := Prvt)).

(** The entry of an identity. *)
Definition entry_has (e : entry) (id : client_id) : Prop :=
  s6_addr (c_addr e) = id.1.1 /\ s6_addr (c_xff_addr e) = id.1.2 /\ take (Z.to_nat (user_agent_len e)) (user_agent e) = id.2.

#[local] Instance entry_has_dec e id : Decision (entry_has e id).
Proof. apply _. Defined.

Lemma client_match_ok e addr xff ua (init : option (Prvt -> Prvt)) : args_ok addr xff ua ->
  length (s6_addr (c_addr e)) = 16%nat -> length (s6_addr (c_xff_addr e)) = 16%nat ->
  client_match e (client_ctx addr xff ua init) = Ok (bool_decide (entry_has e (arg_id addr xff ua))).
Proof.
  intros Hargs H1 H2. destruct (default_ok _ _ _ Hargs) as [[Hx _] (Hu & _)]. destruct Hargs as [[Ha _] _ _ _].
  unfold client_match, client_ctx. cbn [x_addr x_xff_addr x_user_agent].
  destruct (Z.eqb_spec (memcmp_fast (s6_addr (c_addr e)) (s6_addr addr)) 0) as [E1|E1]; cbn [negb].
  2: { rewrite bool_decide_eq_false_2; [done |]. intros (E & _). apply E1, memcmp_fast_spec; [congruence | done]. }
  destruct (Z.eqb_spec (memcmp_fast (s6_addr (c_xff_addr e)) (s6_addr (default any_addr xff))) 0) as [E2|E2]; cbn [negb].
  2: { rewrite bool_decide_eq_false_2; [done |]. intros (_ & E & _). apply E2, memcmp_fast_spec; [congruence | done]. }
  apply memcmp_fast_spec in E1, E2; [| congruence..]. rewrite eq_cstr_ok by done. f_equal. unfold eq_spec, fold_case. cbn [negb].
  apply bool_decide_ext. unfold entry_has, arg_id. cbn [fst snd]. clear -E1 E2. tauto.
Qed.

(** A new entry has the identity of the arguments. *)
Lemma client_init_ok addr xff ua init : args_ok addr xff ua -> exists e : entry, tfw_client_ent_init prvt0 (client_ctx addr xff ua init) = Ok e /\
  entry_has e (arg_id addr xff ua) /\ expires e = LONG_MAX /\ users e = 1 /\ conn_list e = [] /\
  class_prvt e = init_prvt prvt0 (client_ctx addr xff ua init).
Proof.
  intros Hargs. destruct (default_ok _ _ _ Hargs) as [_ (Hu & _ & Hz & Hl)]. unfold tfw_client_ent_init, client_ctx. cbn [x_user_agent x_addr x_xff_addr].
  set (u := default str_init ua) in *. unfold UA_CMP_LEN in *.
  assert (Hc : tfw_str_to_cstr u 256 = Ok (flat u)).
  { unfold tfw_str_to_cstr. rewrite (ok_dup _ Hu). cbn [Z.leb Z.compare]. pose proof (ok_max _ Hu). pose proof (ok_len _ Hu).
    rewrite to_cstr_loop_ok; [| apply Hu | lia | unfold flat in *; lia | done].
    change (texts (str_chunks u)) with (flat u). rewrite take_ge by (unfold zlen in Hl; lia). done. }
  rewrite Hc. eexists. split; [reflexivity |]. split; [| done]. unfold entry_has, arg_id. fold u. cbn [c_addr c_xff_addr user_agent_len user_agent fst snd].
  split_and!; [done | done |]. rewrite (ok_len _ Hu). unfold zlen in *. rewrite Z.min_l by lia. rewrite Nat2Z.id. by rewrite take_app_length.
Qed.

Definition set_cli (r : Z) (e : entry) (st : state) : state := MkClientSt (client_db st) (<[r := e]> (ents st)) (online st).

(** The clients [A]: the record of each identity.  Connections and the data of the classifier are changed
    by others. *)
Inductive client_reach : state -> gmap client_id Z -> Prop :=
| cr_start t : I t ∅ -> rec_len t = sizeof_TfwClientEntry -> client_reach (MkClientSt t ∅ 0) ∅
| cr_obtain st A cpu addr xff ua init now r st' : client_reach st A -> half_free (client_db st) = true -> (cpu < cpus)%nat -> args_ok addr xff ua ->
    tfw_client_obtain prvt0 sizeof_TfwClientEntry cpu addr xff ua init now st = Ok (r, st') -> client_reach st' (<[arg_id addr xff ua := r]> A)
| cr_put st A T now r st' : client_reach st A -> tfw_client_put T r now st = Ok (tt, st') -> client_reach st' A
| cr_use st A r e prvt conns : client_reach st A -> ents st !! r = Some e ->
    client_reach (set_cli r (MkCli (c_addr e) prvt conns (c_xff_addr e) (expires e) (users e) (user_agent_len e) (user_agent e)) st) A.

Record client_inv (st : state) (A : gmap client_id Z) : Prop := {
  ci_len : rec_len (client_db st) = sizeof_TfwClientEntry;
  ci_db : exists M, I (client_db st) M /\ forall k r, r ∈ recs M k <-> exists id, A !! id = Some r /\ id_key id = k;
  ci_ent : forall id r, A !! id = Some r -> exists e, ents st !! r = Some e /\ entry_has e id /\
    length id.1.1 = 16%nat /\ length id.1.2 = 16%nat
}.

Lemma entry_has_inj e id id' : entry_has e id -> entry_has e id' -> id = id'.
Proof. intros (E1 & E2 & E3) (F1 & F2 & F3). destruct id as [[? ?] ?], id' as [[? ?] ?]. simpl in *. congruence. Qed.

(** An entry keeps its identity. *)
Lemma client_inv_upd st A r e e' on : client_inv st A -> ents st !! r = Some e -> (forall id, entry_has e id -> entry_has e' id) ->
  client_inv (MkClientSt (client_db st) (<[r := e']> (ents st)) on) A.
Proof.
  intros [Hl Hdb He] Hr Hid. constructor; [done | done |]. intros id r' Hr'. destruct (He id r' Hr') as (e0 & H1 & H2 & H3). cbn [ents].
  destruct (Z.eq_dec r' r) as [->|Hne].
  - exists e'. rewrite lookup_insert_eq. split; [done |]. split; [| done]. apply Hid. congruence.
  - exists e0. by rewrite lookup_insert_ne.
Qed.

(** What [tfw_client_obtain()] does with a table of the invariant. *)
Definition obtained (st : state) (A : gmap client_id Z) (id : client_id) (now : Z) (prvt : Prvt) (r : Z) (st' : state) : Prop :=
  exists e', ents st' !! r = Some e' /\ entry_has e' id /\ expires e' = LONG_MAX /\
    (forall r', r' <> r -> ents st' !! r' = ents st !! r') /\
    match A !! id with
    | Some r0 => r = r0 /\ client_db st' = client_db st /\ exists e, ents st !! r = Some e /\ users e' = s32 (users e + 1) /\
        class_prvt e' = if expires e <? now then prvt else class_prvt e
    | None => (forall id', A !! id' <> Some r) /\ users e' = 1 /\ class_prvt e' = prvt
    end.

Lemma obtain_ok st A cpu addr xff ua init now : client_inv st A -> half_free (client_db st) = true -> (cpu < cpus)%nat -> args_ok addr xff ua ->
  exists r st', tfw_client_obtain prvt0 sizeof_TfwClientEntry cpu addr xff ua init now st = Ok (r, st') /\
    client_inv st' (<[arg_id addr xff ua := r]> A) /\
    obtained st A (arg_id addr xff ua) now (init_prvt prvt0 (client_ctx addr xff ua init)) r st'.
Proof.
  intros Hinv Hfree Hcpu Hargs. pose proof Hinv as [Hl (M & HI & HM) He]. destruct (client_key_ok _ _ _ Hargs) as [Hkey Hkb].
  set (id := arg_id addr xff ua) in *. set (ctx := client_ctx addr xff ua init).
  set (p := fun r => match ents st !! r with Some e => bool_decide (entry_has e id) | None => false end).
  assert (Heq : forall r, r ∈ recs M (id_key id) -> exists t', client_eq_rec (ents st) ctx r (client_db st) = Ok (p r, t') /\ (p r = false -> t' = client_db st)).
  { intros r Hr. apply HM in Hr as (id' & Hid' & _). destruct (He id' r Hid') as (e & E1 & (F1 & F2 & F3) & E3 & E4).
    exists (client_db st). split; [| done]. unfold client_eq_rec, p. rewrite E1. subst ctx. rewrite client_match_ok by (done || congruence). done. }
  assert (Hp : forall r, r ∈ recs M (id_key id) -> p r = true -> A !! id = Some r).
  { intros r Hr Hpr. apply HM in Hr as (id' & Hid' & _). destruct (He id' r Hid') as (e & E1 & E2 & _). unfold p in Hpr. rewrite E1 in Hpr.
    apply bool_decide_eq_true in Hpr. by rewrite (entry_has_inj e id id' Hpr E2). }
  pose proof (get_alloc_law (client_eq_rec (ents st) ctx) p (@None (TM Z)) 0 (fun r => bug_on (r =? 0)) _ M cpu (id_key id) HI Hfree Hcpu Hkb Heq eq_refl) as Hga.
  unfold get_alloc_post in Hga. rewrite Hl in Hga. cbn [Z.eqb] in Hga.
  unfold tfw_client_obtain. cbv zeta. rewrite Hkey. fold ctx. cbv beta iota.
  destruct (find p (recs M (id_key id))) as [r|] eqn:Ef.
  - apply find_some in Ef as [Hin Hpr]. apply list_elem_of_In in Hin. pose proof (Hp r Hin Hpr) as HA.
    destruct Hga as (t' & Hq & Hga). rewrite Hga, Z.ltb_irrefl. destruct (Heq r Hin) as (t'' & Hq' & _).
    destruct (He id r HA) as (e & E1 & E2 & _).
    assert (t' = client_db st) as ->.
    { unfold client_eq_rec in Hq. rewrite E1 in Hq. destruct (client_match e ctx); [by injection Hq | done]. }
    rewrite E1. unfold client_found. eexists r, _. split; [reflexivity |]. split.
    + rewrite (insert_id A id r HA). eapply client_inv_upd; [exact Hinv | exact E1 |]. done.
    + eexists. cbn [ents client_db]. rewrite lookup_insert_eq. split; [reflexivity |]. split; [exact E2 |]. split; [done |].
      split; [intros r' Hne; by rewrite lookup_insert_ne |]. rewrite HA. split_and!; [done | done |]. exists e. by split_and!.
  - destruct Hga as (r & t' & _ & Hr0 & Hfresh & Hl' & HI' & Hga). rewrite (proj2 (Z.eqb_neq r 0)) in Hga by done. cbn [bug_on sm_ret snd] in Hga.
    assert (HA : A !! id = None).
    { destruct (A !! id) as [r0|] eqn:E; [| done]. assert (Hin : r0 ∈ recs M (id_key id)) by (apply HM; by exists id).
      destruct (He id r0 E) as (e & E1 & E2 & _). pose proof (find_none _ _ Ef r0 ltac:(by apply list_elem_of_In)) as Hn. unfold p in Hn. rewrite E1 in Hn.
      by rewrite bool_decide_eq_true_2 in Hn. }
    destruct (client_init_ok addr xff ua init Hargs) as (e & Hinit & Hid & Hexp & Hus & _ & Hprv). fold ctx in Hinit, Hprv.
    rewrite Hga, Z.ltb_irrefl. fold id in Hid. rewrite Hinit. eexists r, _. split; [reflexivity |].
    assert (Hnew : forall id', A !! id' <> Some r) by (intros id' Hid'; apply (Hfresh (id_key id')), HM; by exists id').
    split.
    + constructor; cbn [client_db ents]; [congruence | |].
      * eexists. split; [exact HI' |]. intros k r'. rewrite recs_insert. destruct (decide (k = id_key id)) as [->|Hne].
        -- rewrite elem_of_app, list_elem_of_singleton, HM. split.
           ++ intros [(id' & Hid' & Hk)| ->]; [exists id' | exists id; by rewrite lookup_insert_eq]. rewrite lookup_insert_ne; [done | congruence].
           ++ intros (id' & [[<- <-]|[_ Hid']]%lookup_insert_Some & Hk); [by right | left; by exists id'].
        -- rewrite HM. split; intros (id' & Hid' & Hk); exists id'.
           ++ rewrite lookup_insert_ne; [done | congruence].
           ++ apply lookup_insert_Some in Hid' as [[<- _]|[_ Hid']]; [congruence | done].
      * intros id' r' [[<- <-]|[Hne Hid']]%lookup_insert_Some.
        -- exists e. rewrite lookup_insert_eq. split_and!; try done.
           ++ apply Hargs. ++ by destruct (default_ok _ _ _ Hargs) as [[? _] _].
        -- destruct (He id' r' Hid') as (e0 & ? & ? & ?). exists e0. rewrite lookup_insert_ne; [done |]. intros ->. by apply (Hnew id').
    + exists e. cbn [ents]. rewrite lookup_insert_eq. split_and!; try done; [intros r' Hne; by rewrite lookup_insert_ne |]. by rewrite HA.
Qed.

Lemma client_reach_inv st A : client_reach st A -> client_inv st A.
Proof.
  induction 1 as [t HI Hl|st A cpu addr xff ua init now r st' _ IH Hfree Hcpu Hargs Hrun|st A T now r st' _ IH Hrun|st A r e prvt conns _ IH Hr].
  - constructor; [done | |].
    + exists ∅. split; [done |]. intros k r. unfold recs. rewrite lookup_empty. split; [intros Hn; by apply elem_of_nil in Hn |].
      intros (id & Hid & _). by rewrite lookup_empty in Hid.
    + intros id r Hid. by rewrite lookup_empty in Hid.
  - destruct (obtain_ok st A cpu addr xff ua init now IH Hfree Hcpu Hargs) as (r' & st1 & Hrun' & Hinv & _). congruence.
  - unfold tfw_client_put in Hrun. destruct (ents st !! r) as [e|] eqn:E; [| done]. unfold client_put_dec in Hrun. cbv zeta iota beta in Hrun.
    destruct (s32 (users e - 1) =? 0).
    + unfold client_put_locked in Hrun. destruct (negb _).
      * injection Hrun as <-. by eapply client_inv_upd.
      * destruct (negb _); [done |]. injection Hrun as <-. by eapply client_inv_upd.
    + injection Hrun as <-. by eapply client_inv_upd.
  - by eapply client_inv_upd.
Qed.

(** C9: in every state that clients coming and going reach while less than half of the file is in use, for arguments whose hash
    is not 0 and user agents of less than 256 bytes without NUL ([args_ok]), [tfw_client_obtain()] returns the one client of its
    address, forwarded address and user agent, and another client for anyone else: a client that is known keeps its record
    and, until it expires, the data of its classifier; a new one gets a record that no other client has.  Outside of these
    limits the code fails: [client_long_ua] for long user agents, [get_alloc_null_init] and [descend_bug_upper_half] of
    HtrieFacts for full tables. *)
Theorem client_identity st A cpu addr xff ua init now : client_reach st A -> half_free (client_db st) = true -> (cpu < cpus)%nat -> args_ok addr xff ua ->
  exists r st', tfw_client_obtain prvt0 sizeof_TfwClientEntry cpu addr xff ua init now st = Ok (r, st') /\
    client_reach st' (<[arg_id addr xff ua := r]> A) /\
    obtained st A (arg_id addr xff ua) now (init_prvt prvt0 (client_ctx addr xff ua init)) r st'.
Proof.
  intros Hr Hfree Hcpu Hargs. destruct (obtain_ok st A cpu addr xff ua init now (client_reach_inv _ _ Hr) Hfree Hcpu Hargs) as (r & st' & Hrun & _ & Hob).
  exists r, st'. split_and!; [done | | done]. by eapply cr_obtain.
Qed.
End ClientSpec.

(** ** Long user agents *)

(** An entry keeps 255 bytes of a user agent and a NUL, which it compares with 256 bytes of the next one: a client with
    a user agent of 256 bytes or more is never found. *)
Lemma client_long_ua `{SI : StrSimd, SO : !StrSimdOk SI} {Prvt : Type} (prvt0 : Prvt) (ctx : TfwClientEqCtx (Prvt := Prvt)) e :
  str_ok (x_user_agent ctx) -> Forall (fun c => c <> 0) (flat (x_user_agent ctx)) -> UA_CMP_LEN <= zlen (flat (x_user_agent ctx)) ->
  tfw_client_ent_init prvt0 ctx = Ok e -> client_match e ctx = Ok false.
Proof.
  intros Hu Hz Hl. unfold tfw_client_ent_init. set (u := x_user_agent ctx) in *. unfold UA_CMP_LEN in *.
  assert (Hc : tfw_str_to_cstr u 256 = Ok (take 255 (flat u))).
  { unfold tfw_str_to_cstr. rewrite (ok_dup _ Hu). cbn [Z.leb Z.compare]. pose proof (ok_max _ Hu). pose proof (ok_len _ Hu).
    rewrite to_cstr_loop_ok; [done | apply Hu | lia | unfold flat in *; lia | done]. }
  rewrite Hc. rewrite (ok_len _ Hu), Z.min_r by lia. intros [= <-]. unfold client_match. cbn [c_addr c_xff_addr user_agent user_agent_len].
  destruct (negb _); [done |]. destruct (negb _); [done |]. fold u. rewrite eq_cstr_ok by done. f_equal. unfold eq_spec, fold_case. cbn [negb].
  apply bool_decide_eq_false_2. intros E. apply (f_equal (fun l => l !! 255%nat)) in E. unfold zlen in Hl.
  rewrite lookup_take_lt in E by (change (Z.to_nat 256) with 256%nat; lia).
  rewrite lookup_app_r in E by (rewrite length_take; lia). rewrite length_take, Nat.min_l in E by lia.
  change (Z.to_nat 256 - 255)%nat with 1%nat in E. simpl (replicate _ _) in E. change (255 - 255)%nat with 0%nat in E. cbn in E.
  symmetry in E. apply list_elem_of_lookup_2 in E. by apply (proj1 (Forall_forall _ _) Hz 0 E).
Qed.

(** ** References *)

Section Refs.
Context {Prvt : Type} (prvt0 : Prvt) (T : Z).

(** An entry and what happens around it: [r_held] references that threads hold, [r_pend] threads in [tfw_client_put()] between
    dropping the last reference and taking the lock, the contribution to the counter of clients online, the clock, and the times
    of the last drop of a reference and of the last pass of [tfw_client_put()] under the lock that found no user. *)
Record ref_st := MkRef {
  r_ent : TfwClientEntry (Prvt := Prvt); r_held : nat; r_pend : nat; r_online : Z;
  r_clock : Z; r_last : Z; r_free : Z
}.

Definition set_conns (l : list Z) (e : TfwClientEntry (Prvt := Prvt)) : TfwClientEntry :=
  MkCli (c_addr e) (class_prvt e) l (c_xff_addr e) (expires e) (users e) (user_agent_len e) (user_agent e).

(** A thread drops only a reference that it holds, and a connection holds one as long as it is in the list of the client
    ([tfw_sock_clnt_drop()] removes it from the list first). *)
Inductive ref_step : ref_st -> ref_st -> Prop :=
| rs_clock e h n on c c' l f : c <= c' -> ref_step (MkRef e h n on c l f) (MkRef e h n on c' l f)
| rs_conns e h n on c l f conns : (length conns <= h)%nat ->
    ref_step (MkRef e h n on c l f) (MkRef (set_conns conns e) h n on c l f)
| rs_found e h n on c l f ctx :
    ref_step (MkRef e h n on c l f)
      (MkRef (client_found prvt0 c ctx e).1 (S h) n (on + (client_found prvt0 c ctx e).2) c l f)
| rs_dec e h n on c l f : (length (conn_list e) <= h)%nat ->
    ref_step (MkRef e (S h) n on c l f)
      (MkRef (client_put_dec e).1 h (if (client_put_dec e).2 then S n else n) on c c f)
| rs_lock e h n on c l f e' d : client_put_locked T c e = Ok (e', d) ->
    ref_step (MkRef e h (S n) on c l f) (MkRef e' h n (on + d) c l (if users e =? 0 then c else f)).

(** From a new client, with less than [2^31] references. *)
Inductive ref_reach : ref_st -> Prop :=
| rr_new e c : users e = 1 -> expires e = LONG_MAX -> conn_list e = [] -> ref_reach (MkRef e 1 0 1 c c c)
| rr_step s s' : ref_reach s -> users (r_ent s) < 2 ^ 31 - 1 -> ref_step s s' -> ref_reach s'.

(** What holds between the steps. *)
Record ref_ok (s : ref_st) : Prop := {
  ref_users : users (r_ent s) = Z.of_nat (r_held s);
  ref_conns : (length (conn_list (r_ent s)) <= r_held s)%nat;
  ref_times : r_last s <= r_clock s;
  ref_used : 0 < users (r_ent s) -> expires (r_ent s) = LONG_MAX;
  ref_expires : expires (r_ent s) = LONG_MAX \/ (expires (r_ent s) = r_free s + T /\ r_last s <= r_free s <= r_clock s);
  ref_idle : users (r_ent s) = 0 -> r_pend s = 0%nat -> expires (r_ent s) = r_free s + T /\ r_last s <= r_free s <= r_clock s
}.

Lemma ref_step_ok s s' : ref_ok s -> users (r_ent s) < 2 ^ 31 - 1 -> ref_step s s' -> ref_ok s'.
Proof.
  intros [Hu Hc Ht He Hx Hi] Hb Hs.
  destruct Hs as [e h n on c c' l f Hcc|e h n on c l f conns Hl|e h n on c l f ctx|e h n on c l f Hl|e h n on c l f e' d Hl]; simpl in *.
  - split; simpl; [done | done | lia | done | |]; [destruct Hx as [Hx|[Hx ?]]; [by left | right; split; [done | lia]] |].
    intros A B. destruct (Hi A B). split; [done | lia].
  - by split.
  - split; simpl; rewrite ?s32_small by lia; [lia | lia | done | done | by left | lia].
  - split; simpl; rewrite ?s32_small by lia; [lia | done | lia | intros; apply He; lia | left; apply He; lia |].
    intros A B. by rewrite (proj2 (Z.eqb_eq _ 0) A) in B.
  - unfold client_put_locked in Hl. destruct (Z.eqb_spec (users e) 0) as [E|E]; cbn [negb] in Hl.
    + destruct (negb _); [done |]. injection Hl as <- <-. split; simpl; [done | done | done | lia | right; lia | lia].
    + injection Hl as <- <-. by split.
Qed.

Lemma ref_reach_ok s : ref_reach s -> ref_ok s.
Proof.
  induction 1 as [e c Hu He Hc|s s' _ IH Hb Hs]; [| by eapply ref_step_ok].
  split; simpl; rewrite ?Hu, ?Hc; simpl; [done | lia | lia | done | by left | lia].
Qed.


(** A client found between the two halves of [tfw_client_put()] is counted a second time, and the counter stays one too high
    after it is gone. *)
Lemma client_online_leaks (now : Z) (ctx : TfwClientEqCtx (Prvt := Prvt)) (e : TfwClientEntry (Prvt := Prvt)) :
  users e = 1 -> expires e = LONG_MAX -> conn_list e = [] ->
  exists s, ref_reach s /\ users (r_ent s) = 0 /\ r_pend s = 0%nat /\ r_online s = 1.
Proof.
  intros Hu He Hc. set (e1 := upd_entry (class_prvt e) (expires e) 0 e). set (e2 := (client_found prvt0 now ctx e1).1).
  set (e4 := upd_entry (class_prvt e2) (expires e2) 0 e2).
  assert (R1 : ref_reach (MkRef e1 0 1 1 now now now)).
  { apply (rr_step (MkRef e 1 0 1 now now now)); [by apply rr_new | simpl; lia |].
    pose proof (rs_dec e 0 0 1 now now now ltac:(by rewrite Hc)) as Hs. unfold client_put_dec in Hs. rewrite Hu in Hs. exact Hs. }
  assert (R2 : ref_reach (MkRef e2 1 1 2 now now now)) by (apply (rr_step _ _ R1); [reflexivity | apply (rs_found e1 0 1 1 now now now ctx)]).
  assert (R3 : ref_reach (MkRef e2 1 0 2 now now now)) by (apply (rr_step _ _ R2); [reflexivity | apply (rs_lock e2 1 0 2 now now now e2 0); reflexivity]).
  assert (R4 : ref_reach (MkRef e4 0 1 2 now now now)) by (apply (rr_step _ _ R3); [reflexivity | apply (rs_dec e2 0 0 2 now now now); simpl; by rewrite Hc]).
  exists (MkRef (upd_entry (class_prvt e4) (now + T) 0 e4) 0 0 1 now now now). split; [| done].
  apply (rr_step _ _ R4); [reflexivity |]. apply (rs_lock e4 0 0 2 now now now _ (-1)). unfold client_put_locked. simpl. by rewrite bool_decide_eq_true_2.
Qed.
End Refs.

(** ** Witnesses *)

(** A table for entries of 200 bytes; comparisons as in the specification. *)
Definition demo_cli_db : Tdb := Eval vm_compute in
  match tdb_init_mapping (2 ^ 21) 200 with
  | Some t => match tdb_htrie_init 1 t with Ok t => t | Bug => t end
  | None => MkTdb 0 0 0 [] ∅ ∅
  end.

Lemma demo_cli_reachable : reachable 1 demo_cli_db ∅.
Proof.
  destruct (tdb_init_mapping (2 ^ 21) 200) as [t0|] eqn:E0; [| done].
  apply (reach_init 1 (2 ^ 21) 200 t0); [done | lia | lia | done | | done]. injection E0 as <-. by vm_compute.
Qed.

#[local] Instance demo_simd : StrSimd := {
  memcmp_fast a b := if decide (a = b) then 0 else 1;
  tfw_cstricmp a b := if decide (map TFW_LC a = map TFW_LC b) then 0 else 1
}.
#[local] Instance demo_simd_ok : StrSimdOk demo_simd.
Proof. split; intros a b _; cbn; destruct (decide _); naive_solver. Qed.

Definition demo_addr : TfwAddr := MkAddr AF_INET6 (tfw_addr_set_v4 0x0100007f) 0 0.

Lemma demo_args : args_ok demo_addr None None.
Proof.
  split; [| done | done | by vm_compute]. split; [done |]. apply (bool_decide_unpack _). by vm_compute.
Qed.

(** Two clients of one address with the user agents A and AB; the first is put at time 5 and expires at 15. *)
Definition demo_ua (b : bytes) : option TfwStr := Some (mk_str [b]).
Definition demo_obtain (ua : bytes) (now : Z) : SM (ClientSt (Prvt := unit)) Z := tfw_client_obtain tt 200 0 demo_addr None (demo_ua ua) None now.
Definition demo_state (m : SM (ClientSt (Prvt := unit)) unit) : ClientSt (Prvt := unit) :=
  match m (MkClientSt demo_cli_db ∅ 0) with Ok (_, st) => st | Bug => MkClientSt demo_cli_db ∅ 0 end.
Definition demo_rec (m : SM (ClientSt (Prvt := unit)) Z) : Z := match m (MkClientSt demo_cli_db ∅ 0) with Ok (r, _) => r | Bug => 0 end.
Definition demo_r1 : Z := Eval vm_compute in demo_rec (demo_obtain [65] 5).
Definition demo_st1 : ClientSt (Prvt := unit) := Eval vm_compute in demo_state (_ <~ demo_obtain [65] 5;; sm_ret tt).
Definition demo_r2 : Z := Eval vm_compute in demo_rec (_ <~ demo_obtain [65] 5;; demo_obtain [65; 66] 5).
Definition demo_st2 : ClientSt (Prvt := unit) := Eval vm_compute in demo_state (_ <~ demo_obtain [65] 5;; _ <~ demo_obtain [65; 66] 5;; sm_ret tt).
Definition demo_st3 : ClientSt (Prvt := unit) := Eval vm_compute in
  demo_state (_ <~ demo_obtain [65] 5;; _ <~ demo_obtain [65; 66] 5;; _ <~ tfw_client_put 10 demo_r1 5;; sm_ret tt).

Lemma demo_ua_ok b : b = [65] \/ b = [65; 66] -> ua_ok (mk_str [b]).
Proof.
  intros Hb. split; [| split; [| split]].
  - destruct Hb as [-> | ->]; by apply mk_str_ok.
  - destruct Hb as [-> | ->]; (apply Forall_cons; split; [| done]; apply (bool_decide_unpack _); by vm_compute).
  - destruct Hb as [-> | ->]; (apply (bool_decide_unpack _); by vm_compute).
  - by destruct Hb as [-> | ->].
Qed.

Lemma demo_args_ua b : b = [65] \/ b = [65; 66] -> args_ok demo_addr None (demo_ua b).
Proof.
  intros Hb. split; [| done | | by destruct Hb as [-> | ->]; vm_compute].
  - split; [done |]. apply (bool_decide_unpack _). by vm_compute.
  - intros u [= <-]. by apply demo_ua_ok.
Qed.

Abbreviation demo_reach := (client_reach tt 200 1 (reachable 1)).
Abbreviation demo_id := (fun b => arg_id demo_addr None (demo_ua b)).

Lemma demo_reached : demo_reach demo_st3 (<[demo_id [65; 66] := demo_r2]> (<[demo_id [65] := demo_r1]> ∅)).
Proof.
  pose proof (cr_start tt 200 1 (reachable 1) demo_cli_db demo_cli_reachable eq_refl) as R.
  pose proof (cr_obtain tt 200 1 (reachable 1) _ _ 0 demo_addr None (demo_ua [65]) None 5 demo_r1 demo_st1 R eq_refl ltac:(lia)
    (demo_args_ua _ (or_introl eq_refl)) ltac:(by vm_compute)) as R1.
  pose proof (cr_obtain tt 200 1 (reachable 1) _ _ 0 demo_addr None (demo_ua [65; 66]) None 5 demo_r2 demo_st2 R1 eq_refl ltac:(lia)
    (demo_args_ua _ (or_intror eq_refl)) ltac:(by vm_compute)) as R2.
  apply (cr_put tt 200 1 (reachable 1) _ _ 10 5 demo_r1 demo_st3 R2). by vm_compute.
Qed.

(** The first client comes back at time 12: it is the same record, not that of the second. *)
Lemma client_identity_witness : exists st', demo_obtain [65] 12 demo_st3 = Ok (demo_r1, st') /\ demo_r1 <> demo_r2 /\
  client_db st' = client_db demo_st3 /\ exists e, ents st' !! demo_r1 = Some e /\ expires e = LONG_MAX /\ users e = 1.
Proof.
  destruct (client_identity tt 200 1 (reachable 1) demo_st3 _ 0 demo_addr None (demo_ua [65]) None 12 demo_reached eq_refl ltac:(lia)
    (demo_args_ua _ (or_introl eq_refl))) as (r & st' & H1 & _ & H2).
  destruct H2 as (e' & E1 & _ & E2 & _ & E3). rewrite lookup_insert_ne, lookup_insert_eq in E3 by done.
  destruct E3 as (-> & E3 & e & E4 & E5 & _). exists st'. split; [exact H1 |]. split; [done |]. split; [exact E3 |].
  exists e'. split; [exact E1 |]. split; [exact E2 |]. rewrite E5. vm_compute in E4. by injection E4 as <-.
Defined.

(** A client is put at time 7 by its only user, and found again at time 9 while the put has not reached the lock; the put
    returns, and the second user puts it at time 20: it expires at 30, and found at 25 it has its data. *)
Definition demo_ent (ex us : Z) : TfwClientEntry := MkCli demo_addr tt [] any_addr ex us 0 [].
Definition demo_eq_ctx : TfwClientEqCtx := MkEqCtx demo_addr any_addr str_init (@None (unit -> unit)).


(** The same user twice, another user agent, and the first again. *)
Example client_example :
  let ob ua := tfw_client_obtain tt 200 0 demo_addr None (Some (mk_str [ua])) None 5 in
  (let! r := (a <~ ob [65];; b <~ ob [65; 66];; c <~ ob [65];; _ <~ tfw_client_put 10 a 5;; d <~ ob (replicate 256 65);; e <~ ob (replicate 256 65);;
              sm_ret (bool_decide (a = b), bool_decide (a = c), bool_decide (d = e))) (MkClientSt demo_cli_db ∅ 0) in Ok (r.1, online r.2)) =
  Ok (false, true, false, 4).
Proof. vm_compute. reflexivity. Qed.
